(* ===== verification/_CoqProject ===== *)
-Q . S2P
Prelude.v
UdFile.v
Errno.v
UinetSock.v
UdSocket.v
UdSelect.v
PktDesc.v
PktDescSpec.v
PktDescConc.v
PktDescPool.v
Callout.v
CalloutSpec.v
CalloutSafe.v
CalloutRun.v
TimerIntr.v
Dpdk.v
DpdkSpec.v
DpdkCtl.v
DpdkQueue.v
DpdkRx.v
DpdkRxSpec.v
Printf.v
PrintfSpec.v
Uio.v
UioSpec.v
SleepQ.v
SleepQSpec.v
HostIf.v
HostIfSpec.v
KThread.v
KThreadSpec.v
Kenv.v
LatProf.v
DpdkAttach.v
IfRegistry.v
IfRegistrySpec.v
Bridge.v
BridgeSpec.v
Promisc.v
PromiscSpec.v
SynFilter.v
SynFilterSpec.v
SynFilterSafe.v
SynFilterRun.v
InCopy.v
InCopySpec.v
InCopyRun.v
InPassive.v
InPassiveSpec.v
Locks.v
LocksSpec.v
Intr.v
IntrSpec.v
IntrConc.v
InetText.v
InetTextSpec.v
Inet6TextSpec.v
Time.v
TimeSpec.v
Pfil.v
PfilSpec.v
SysInit.v
SysInitSpec.v
NmRing.v
Netmap.v
NetmapSpec.v
NetmapSafe.v
NetmapInit.v
NetmapRun.v
NetmapDetach.v
Nv.v
NvPack.v
NvSpec.v
NvRound.v
NvSafe.v
NvMap.v
NvMsg.v
NvMsgSpec.v
IfConfig.v
IfConfigSpec.v
