(* ===== verification/Prelude.v ===== *)
(** * A verification of libunsod

    libunsod runs the FreeBSD network stack in a user process ("libuinet") on top of
    DPDK, and gives applications a POSIX-like socket interface ("libudsock").  This
    library models the program's own code, below src/src/lib, and proves that its
    components do what they are meant to do; where the code does something else, a
    theorem says exactly what it does.  The TCP/IP stack (src/src/sys), DPDK
    (src/src/dpdk) and the host are not the program's own code: what the components
    use of them are parameters or operations of a class, with the documented
    behaviour that is relied on as hypotheses.

    ** The program

    An application calls libudsock ([ud_socket], [ud_send], [ud_select], ...), which
    keeps a table of descriptors in shared memory and calls the socket API of
    libuinet ([uinet_socreate], [uinet_soaccept], ...).  That API works on the
    sockets of the kernel stack.  Packets travel between the stack and the driver in
    packet descriptors ([struct uinet_pd]), reference-counted and drawn from pools;
    the DPDK driver receives batches of them and sends them from an injection ring; the
    netmap driver does the same by exchanging buffers with rings shared with the kernel.
    Filters see packets and connection requests on their way, passive sockets follow
    connections of others, and copies of packets can be kept and sent on.
    The kernel's timers run from a callout wheel driven by a timer thread.  Below the
    stack, libuinet replaces what a kernel would give it: sleeping and waking, locks,
    interrupt threads, threads, start-up, copying between buffers, formatted output,
    addresses and times, and configuration variables, on top of a thin interface to the
    host.  A registry holds the interfaces of an instance and calls their drivers.  The
    statistics services exchange lists of named values with their clients.

    ** Conventions

    C integers are [Z] with the wrap-around of their width written out ([u16], [s32],
    ...).  Code that can reach a point without defined continuation (an access out of
    bounds, a null pointer, a self-deadlock) is in the [result] type or the state
    monad [M] and ends in a [Fault]; a theorem that a call returns says so as
    [... = Ok ...] or with [returns].  Concurrency is a step relation, one step per
    critical section or atomic access, and the theorems hold for every interleaving.
    Values that C leaves unassigned are arguments of the definitions.

    ** The files

    - Prelude (this file): C integers, faults, the monads with their laws, bit and
      list lemmas, tactics ([split_ifs], [bool_to_prop]) and the hint database
      [unsod].
    - UdFile: the descriptor table, libudsock/ud_file.c.  Allocation is a refinement
      of opening the lowest free descriptor in an abstract map; freeing makes a
      descriptor available again; a full table overruns the array.
    - Errno: both translations of error numbers, libuinet/uinet_api_errno.c and
      [ud_set_errno] of libudsock/ud_socket.c, compared for every error.
    - UinetSock: the socket calls of libuinet/uinet_api.c over a class [KernSocket]
      of kernel routines; [uinet_soaccept] keeps the queue of waiting connections well
      formed and takes them in order.
    - UdSocket: libudsock/ud_socket.c and ud_unistd.c.  Opening and closing, and the
      deviations from POSIX in [ud_accept], [ud_getpeername] and [ud_setsockopt].
    - UdSelect: [ud_select], libudsock/ud_select.c.
    - PktDesc: packet descriptors, libuinet/uinet_pkt_desc.c and .h, the descriptor
      calls of uinet_api.c and the timestamping of uinet_if.c, over a store of
      contexts, counters and mbufs.  PktDescSpec: batched release of references
      refines releasing them one at a time; a reference count frees exactly once;
      ring arithmetic.  PktDescConc: releases by concurrent threads.  PktDescPool:
      pools and allocation.
    - Callout: the callout wheel and the soft clock, libuinet/uinet_kern_timeout.c and
      uinet_kern_clock.c; [softclock] is a machine whose phases are the points at
      which it holds or drops the lock.  CalloutSpec: queues and their operations.
      CalloutSafe: the wheel's invariant, from its initial state on, in every
      interleaving of the soft clock with initialising, resetting (a move to another
      CPU in its two critical sections), stopping and freeing callouts; callouts made
      with [timeout] and with [_callout_init_lock] and no lock are not among them.
      CalloutRun: undisturbed runs of the soft clock, [timeout], the size of the
      wheel, conversion to ticks.  TimerIntr: the loop of the timer thread.
    - Dpdk: the DPDK driver, libuinet/uinet_if_dpdk.c, uinet_if_dpdk_host.c and
      libdpdk_helper/dpdk_helper.c: configuration string, injection ring,
      transmission, starting and stopping reception.  DpdkSpec: the ring as a queue,
      its producer and its consumer.  DpdkCtl: configuration formats, transmission,
      and the handshake between the receive thread and any number of threads in the
      ioctl.  DpdkQueue: the whole
      path of injected packets as a bounded queue.  DpdkRx and DpdkRxSpec: reception
      of a batch.
    - Printf and PrintfSpec: formatted output, libuinet/uinet_subr_prf.c.
    - DpdkAttach: attaching and detaching a DPDK interface, the resources held after
      each way out of them, and where the attachment waits forever.
    - IfRegistry and IfRegistrySpec: the interfaces of an instance,
      libuinet/uinet_config.c and the type table of uinet_if.c, over a class
      [IfDriver] of drivers with laws [IfDriverLaws], of which the DPDK driver is an
      instance.
    - IfConfig and IfConfigSpec: bringing interfaces up and giving them addresses,
      libuinet/uinet_api.c with the requests of sys/net/if.c it makes, over a class
      [NetKernel] of drivers and protocols; in modules IfStart and IfStartSpec of the same
      files the environment and the first instance, libuinet/uinet_init.c and
      uinet_api.c, and the start-up library libudif/ud_ifconfig.c.
    - Uio and UioSpec: copying between buffers and lists of segments,
      libuinet/uinet_subr_uio.c and uinet_support.c, over a byte-addressed memory.
    - SleepQ and SleepQSpec: sleeping and waking, libuinet/uinet_kern_synch.c, as a
      step relation on any number of threads.
    - HostIf and HostIfSpec: the parts of libuinet/uinet_host_interface.c with logic
      of their own (sleeping and deadlines, translation of flags, hooks, messages),
      and the timed wait of uinet_kern_condvar.c.
    - KThread and KThreadSpec: starting and stopping threads,
      libuinet/uinet_kern_kthread.c.
    - Kenv (modules Kenv and KenvSpec): variables of the environment, uinet_kern_environment.c and
      sys/libkern/strtoq.c; reading inverts the printing of Printf.
    - LatProf: the latency profiler, liblatprof/latprof.c.
    - Bridge and BridgeSpec: the bridge and span interfaces,
      libuinet/uinet_if_bridge.c and uinet_if_span.c, which the present build leaves
      out.
    - Promisc and PromiscSpec: link-layer identity (stacks of tags, texts of MAC
      addresses), sys/netinet/in_promisc.c and libuinet/uinet_api.c.
    - SynFilter, SynFilterSpec, SynFilterSafe and SynFilterRun: filters of connection
      requests, their registration, reference counts and deferred decisions,
      sys/netinet/in_promisc.c and uinet_api.c.
    - InCopy, InCopySpec and InCopyRun: keeping and sending copies of packets,
      sys/netinet/in_copy.c.  InPassive and InPassiveSpec: passive sockets, the
      locks of a pair and their order, sys/netinet/in_passive.c.
    - Pfil and PfilSpec: packet filter hooks, sys/net/pfil.c and uinet_api.c.
    - Locks and LocksSpec: mutexes, reader-writer, shared and read-mostly locks over the
      host's mutexes, libuinet/uinet_kern_mutex.c and the like.
    - Intr, IntrSpec and IntrConc: interrupt events and their handlers,
      libuinet/uinet_kern_intr.c; IntrConc is the interrupt thread with concurrent
      requests, on a sequentially consistent memory, and a run with a store buffer in
      which a request is lost.
    - SysInit and SysInitSpec: the sorting and running of the initialisation tasks,
      libuinet/uinet_init_main.c.
    - InetText, InetTextSpec and Inet6TextSpec: texts of addresses, sys/libkern
      (inet_ntop.c, inet_pton.c, inet_ntoa.c).  Time and TimeSpec: time arithmetic, rate
      limits and interval timers, libuinet/uinet_kern_time.c and uinet_timecounter.c.
    - NmRing, Netmap, NetmapSpec, NetmapSafe, NetmapInit, NetmapRun and NetmapDetach: the
      netmap driver, libuinet/uinet_if_netmap.c and uinet_if_netmap_host.c: rings and
      slots in shared memory, the pool of descriptors, reception and transmission, and
      every interleaving of the interfaces that share a pool, whose descriptors are
      injected with one reference only.
    - Nv, NvPack and NvMsg: lists of named values, libuinetnv (nvlist.c, nvpair.c,
      dnvlist.c, msgio.c).  NvSpec and NvRound: packing and unpacking; NvSafe: unpacking
      of arbitrary bytes; NvMap: the list as a map; NvMsgSpec: lists across a
      connection; a parameter says whether the host sends descriptors without data after
      data has been sent.

    ** What the theorems show

    Refinement and functional behaviour: UdFile, PktDescSpec, PktDescPool, DpdkSpec,
    DpdkQueue, DpdkRxSpec, PrintfSpec, UdSelect, UioSpec, LatProf, BridgeSpec and
    IfStartSpec give the effect of the operations on every branch, relative to an abstract description
    (a map of descriptors, a queue, a multiset of references, a string, the bytes of
    memory); so do PfilSpec (a list of callbacks), LocksSpec (owners and depths),
    InCopyRun (the packets of a flow), NvMap (a map of names) and NvMsgSpec.  Invariants
    and safety under interleaving: CalloutSafe, PktDescConc, DpdkCtl, SleepQSpec,
    KThreadSpec, SynFilterRun, IntrConc, NetmapRun.  Safety of input from
    outside: NvSafe.  Round trips: opening and closing, creating and destroying an
    interface, attaching and detaching, scattering and gathering, numbers, addresses and
    lists to bytes or texts and back.  Termination and bounds: the search loops, the soft
    clock, start-up, the catch-up loop of the timer, rate limits, the number conversion,
    the deadlines of timed waits.  Errors: the translation of error numbers, the
    outcomes of an attachment, the error lost in the start-up library, and the places where the code reports an error in a way
    its callers cannot see.

    ** Fuel

    Loops that are not structural take fuel.  [get_free_from] has one unit per slot of
    the table; [tx_loop] one per slot of the ring; [ksprintn_loop] one per byte of the
    conversion buffer, which is what the C code has; [uiomove_loop] and [uiofill_loop]
    one per segment and one per byte asked for; [mi_startup] one per task, since every
    restart follows a task that ran; [xunpack_fuel] one per byte, each pair and each list
    taking several; the wheel and timer loops have bounds that the theorems, like those on
    the loops before, prove sufficient.  Where the code may wait for another thread or for
    the host, running out of fuel is the fault [Blocked].

    ** Not modelled

    The vendored code but for the files named above (FreeBSD's stack, DPDK, libev, the HTTP
    parser), the functions of the host interface that pass their arguments to one system
    call, memory allocation, the stubs of kernel functions, the pcap driver (a copy of the
    netmap driver over libpcap, not built), demos and tools: they have no logic of their
    own to state a theorem about, or are clients of what is modelled.  Of uinet_api.c
    statistics, upcalls and the destruction of instances are left out, of uinet_init.c the
    order of start-up and the shutdown thread, of the netmap driver the parsing of its
    configuration and the order of acquisition in its attachment, and of the DPDK helper the
    set-up of the ports. *)
From stdpp Require Export base option list gmap strings.
From Stdlib Require Export ZArith Lia.

Declare Scope unsod_scope.
Delimit Scope unsod_scope with unsod.
#[global] Open Scope Z_scope.

(** * C integers

    A [w]-bit C integer is a [Z] in range; arithmetic that the code performs at
    that width is followed by the wrap-around written out. *)

Definition wrap_u (w z : Z) : Z := z mod 2 ^ w.

Definition wrap_s (w z : Z) : Z := (z + 2 ^ (w - 1)) mod 2 ^ w - 2 ^ (w - 1).

Abbreviation u8 := (wrap_u 8).
Abbreviation u16 := (wrap_u 16).
Abbreviation u32 := (wrap_u 32).
Abbreviation u64 := (wrap_u 64).
Abbreviation s16 := (wrap_s 16).
Abbreviation s8 := (wrap_s 8).
Abbreviation s32 := (wrap_s 32).
Abbreviation s64 := (wrap_s 64).

Definition INT_MAX : Z := 2147483647.
Definition LONG_MAX : Z := 9223372036854775807.

(** [flags & bit] used as a condition. *)
Definition has_flag (flags bit : Z) : bool := negb (Z.land flags bit =? 0).

(** [flags & ~bits]. *)
Definition clear_flag (flags bits : Z) : Z := Z.land flags (Z.lnot bits).

(** A C truth value. *)
Definition b2z (b : bool) : Z := if b then 1 else 0.

(** * Undefined behaviour and abnormal termination

    An operation of the model either returns or reaches a point where the C
    program has no defined continuation. *)

Inductive fault : Type :=
| OutOfBounds      (** an array is accessed outside its bounds *)
| NullDeref        (** a null pointer is dereferenced *)
| BadPointer       (** a pointer to no live object is dereferenced *)
| BadUnlock        (** a mutex that is not held is unlocked *)
| Overflow         (** a fixed-size buffer is overrun *)
| Panic            (** the code calls panic(), exit() or rte_exit() *)
| Blocked.         (** the call waits for an event that nothing delivers *)

Inductive result (A : Type) : Type :=
| Ok (a : A)
| Fault (f : fault).
Arguments Ok {A} a.
Arguments Fault {A} f.

#[export] Instance result_ret : MRet result := fun A a => Ok a.
#[export] Instance result_bind : MBind result := fun A B k m =>
  match m with Ok a => k a | Fault f => Fault f end.

(** Code that threads a state of type [S] and may fault. *)
Definition M (S A : Type) : Type := S → result (A * S).

#[export] Instance M_ret S : MRet (M S) := fun A a s => Ok (a, s).
#[export] Instance M_bind S : MBind (M S) := fun A B k m s =>
  match m s with Ok (a, s') => k a s' | Fault f => Fault f end.

Definition get_st {S} : M S S := fun s => Ok (s, s).
Definition gets {S A} (f : S → A) : M S A := fun s => Ok (f s, s).
Definition modify {S} (f : S → S) : M S unit := fun s => Ok (tt, f s).
Definition faultM {S A} (f : fault) : M S A := fun _ => Fault f.
Definition liftR {S A} (r : result A) : M S A :=
  fun s => match r with Ok a => Ok (a, s) | Fault f => Fault f end.

(** Dereference of a pointer modelled as an [option]. *)
Definition deref {A} (p : option A) : result A :=
  match p with Some a => Ok a | None => Fault NullDeref end.

(** [returns r P]: the call returns, and its result satisfies [P]. *)
Definition returns {A} (r : result A) (P : A → Prop) : Prop :=
  match r with Ok a => P a | Fault _ => False end.

Lemma returns_Ok {A} (a : A) (P : A → Prop) : P a → returns (Ok a) P.
Proof. done. Qed.

Lemma returns_inv {A} (r : result A) (P : A → Prop) :
  returns r P → ∃ a, r = Ok a ∧ P a.
Proof. destruct r; simpl; [eauto | done]. Qed.

Lemma returns_impl {A} (r : result A) (P Q : A → Prop) :
  returns r P → (∀ a, P a → Q a) → returns r Q.
Proof. destruct r; simpl; auto. Qed.

Lemma returns_bind {A B} (r : result A) (k : A → result B) (P : A → Prop) (Q : B → Prop) :
  returns r P → (∀ a, P a → returns (k a) Q) → returns (r ≫= k) Q.
Proof. destruct r; simpl; auto. Qed.

(** The monad's laws the proofs rewrite with. *)
Lemma M_bind_assoc {S A B C} (m : M S A) (k : A → M S B) (h : B → M S C) s :
  (a ← m; b ← k a; h b) s = (b ← (a ← m; k a); h b) s.
Proof. unfold mbind, M_bind. by destruct (m s) as [[] |]. Qed.

Lemma M_bind_Ok {S A B} (m : M S A) (k : A → M S B) s a s' :
  m s = Ok (a, s') → (a ← m; k a) s = k a s'.
Proof. unfold mbind, M_bind. by intros ->. Qed.

(** * Arithmetic lemmas *)

Lemma wrap_u_range w z : 0 <= w → 0 <= wrap_u w z < 2 ^ w.
Proof. intros. apply Z.mod_pos_bound. by apply Z.pow_pos_nonneg. Qed.

Lemma wrap_u_id w z : 0 <= z < 2 ^ w → wrap_u w z = z.
Proof. apply Z.mod_small. Qed.

Lemma wrap_s_range w z : 0 < w → - 2 ^ (w - 1) <= wrap_s w z < 2 ^ (w - 1).
Proof.
  intros. unfold wrap_s.
  assert (2 ^ w = 2 * 2 ^ (w - 1)) as E.
  { rewrite <- Z.pow_succ_r by lia. f_equal. lia. }
  pose proof (Z.mod_pos_bound (z + 2 ^ (w - 1)) (2 ^ w)).
  assert (0 < 2 ^ w) by (apply Z.pow_pos_nonneg; lia). lia.
Qed.

Lemma wrap_s_id w z : 0 < w → - 2 ^ (w - 1) <= z < 2 ^ (w - 1) → wrap_s w z = z.
Proof.
  intros. unfold wrap_s.
  assert (2 ^ w = 2 * 2 ^ (w - 1)) as E.
  { rewrite <- Z.pow_succ_r by lia. f_equal. lia. }
  rewrite Z.mod_small; lia.
Qed.

Lemma wrap_s_add w a b : 0 < w → wrap_s w (wrap_s w a + b) = wrap_s w (a + b).
Proof.
  intros Hw. unfold wrap_s. f_equal.
  replace ((a + 2 ^ (w - 1)) mod 2 ^ w - 2 ^ (w - 1) + b + 2 ^ (w - 1))
    with ((a + 2 ^ (w - 1)) mod 2 ^ w + b) by lia.
  rewrite Z.add_mod_idemp_l by (apply Z.pow_nonzero; lia). f_equal. ring.
Qed.

Lemma wrap_s_wrap_s w a : 0 < w → wrap_s w (wrap_s w a) = wrap_s w a.
Proof. intros Hw. pose proof (wrap_s_add w a 0 Hw) as H. by rewrite !Z.add_0_r in H. Qed.

(** A counter that moved by less than a full turn is somewhere else. *)
Lemma wrap_s_distinct w a b c :
  0 < w → 0 <= b < 2 ^ w → 0 <= c < 2 ^ w → wrap_s w (a + b) = wrap_s w (a + c) → b = c.
Proof.
  intros Hw Hb Hc E. unfold wrap_s in E.
  assert (0 < 2 ^ w) by (apply Z.pow_pos_nonneg; lia).
  pose proof (Z.div_mod (a + b + 2 ^ (w - 1)) (2 ^ w)) as D1.
  pose proof (Z.div_mod (a + c + 2 ^ (w - 1)) (2 ^ w)) as D2. 
  set (q1 := (a + b + 2 ^ (w - 1)) / 2 ^ w) in *. set (q2 := (a + c + 2 ^ (w - 1)) / 2 ^ w) in *.
  assert (b - c = 2 ^ w * (q1 - q2)) by lia.
  assert (q1 - q2 = 0) by nia. lia.
Qed.

(** ** Bits *)

Lemma land_pow2 a n : 0 <= n → Z.land a (2 ^ n) = if Z.testbit a n then 2 ^ n else 0.
Proof.
  intros Hn. apply Z.bits_inj'. intros i Hi. rewrite Z.land_spec, Z.pow2_bits_eqb by done.
  destruct (Z.eqb_spec n i) as [-> | Hne].
  - destruct (Z.testbit a i); [by rewrite Z.pow2_bits_true | by rewrite Z.bits_0].
  - rewrite andb_false_r. destruct (Z.testbit a n); [| by rewrite Z.bits_0].
    symmetry. apply Z.pow2_bits_false. done.
Qed.

(** A flag word is the flag, if set, and the rest. *)
Lemma land_split a b : a = Z.lor (Z.land a b) (clear_flag a b).
Proof.
  apply Z.bits_inj'. intros i Hi. unfold clear_flag.
  rewrite Z.lor_spec, !Z.land_spec, Z.lnot_spec by done.
  by destruct (Z.testbit a i), (Z.testbit b i).
Qed.

Lemma has_flag_pow2 a n : 0 <= n → has_flag a (2 ^ n) = Z.testbit a n.
Proof.
  intros Hn. unfold has_flag. rewrite land_pow2 by done.
  destruct (Z.testbit a n); [| done].
  destruct (2 ^ n =? 0) eqn:E; [| done]. apply Z.eqb_eq in E.
  pose proof (Z.pow_pos_nonneg 2 n). lia.
Qed.

(** The only word with flag [2 ^ n] and no other bit is [2 ^ n]. *)
Lemma clear_flag_zero a n :
  0 <= n → has_flag a (2 ^ n) = true → clear_flag a (2 ^ n) = 0 → a = 2 ^ n.
Proof.
  intros Hn Hf Hc. rewrite (land_split a (2 ^ n)), Hc, Z.lor_0_r, land_pow2 by done.
  rewrite has_flag_pow2 in Hf by done. by rewrite Hf.
Qed.

(** ** Lists *)

Lemma filter_id {A} (P : A → Prop) `{∀ x, Decision (P x)} (l : list A) :
  (∀ x, x ∈ l → P x) → filter P l = l.
Proof.
  induction l as [|x l IH]; intros Hall; [done |].
  rewrite filter_cons_True by (apply Hall; constructor).
  f_equal. apply IH. intros y Hy. apply Hall. by constructor.
Qed.

(** Removing an element that occurs once, at the head. *)
Lemma filter_ne_head `{EqDecision A} (x : A) (l : list A) :
  x ∉ l → filter (fun y => y ≠ x) (x :: l) = l.
Proof.
  intros Hx. rewrite filter_cons_False by naive_solver.
  apply filter_id. intros y Hy ->. done.
Qed.

(** Counting the elements of a list that pass a test. *)
Definition count_if {A} (f : A → bool) (l : list A) : Z := Z.of_nat (length (List.filter f l)).

Lemma count_if_nonneg {A} (f : A → bool) l : 0 <= count_if f l.
Proof. unfold count_if. lia. Qed.

Lemma count_if_insert {A} (f : A → bool) l i a b :
  l !! i = Some a → count_if f (<[i := b]> l) = count_if f l - b2z (f a) + b2z (f b).
Proof.
  unfold count_if. revert i. induction l as [| u l IH]; intros i Hi; [done |].
  destruct i as [| i]; simpl in *.
  - simplify_eq. destruct (f a), (f b); simpl; lia.
  - specialize (IH i Hi). destruct (f u); simpl; lia.
Qed.

Lemma count_if_pos {A} (f : A → bool) l : 0 < count_if f l ↔ ∃ i a, l !! i = Some a ∧ f a = true.
Proof.
  unfold count_if. induction l as [| u l IH]; simpl.
  { split; [lia |]. by intros (i & a & Hi & _). }
  destruct (f u) eqn:E; simpl.
  - split; [| lia]. intros _. by exists 0%nat, u.
  - rewrite IH. split; [by intros (i & a & H); exists (S i), a |].
    intros ([| i] & a & Hi & Ha); simpl in *; [congruence | by exists i, a].
Qed.

Lemma count_if_le {A} (f : A → bool) l : count_if f l <= Z.of_nat (length l).
Proof. unfold count_if. induction l as [| u l IH]; simpl; [lia |]. destruct (f u); simpl; lia. Qed.

(** The development's case analysis: split every [if] and [match] on a boolean
    comparison and turn the comparisons into propositions. *)
Ltac bool_to_prop :=
  repeat match goal with
  | H : (_ && _) = true |- _ => apply andb_prop in H; destruct H
  | H : (_ && _) = false |- _ => apply andb_false_iff in H
  | H : (_ || _) = true |- _ => apply orb_prop in H
  | H : (_ || _) = false |- _ => apply orb_false_elim in H; destruct H
  | H : negb _ = true |- _ => apply negb_true_iff in H
  | H : negb _ = false |- _ => apply negb_false_iff in H
  | H : (_ =? _) = true |- _ => apply Z.eqb_eq in H
  | H : (_ =? _) = false |- _ => apply Z.eqb_neq in H
  | H : (_ <? _) = true |- _ => apply Z.ltb_lt in H
  | H : (_ <? _) = false |- _ => apply Z.ltb_ge in H
  | H : (_ <=? _) = true |- _ => apply Z.leb_le in H
  | H : (_ <=? _) = false |- _ => apply Z.leb_gt in H
  | H : bool_decide _ = true |- _ => apply bool_decide_eq_true in H
  | H : bool_decide _ = false |- _ => apply bool_decide_eq_false in H
  end.

(** Split the [if]s of the goal. *)
Ltac split_ifs :=
  repeat match goal with
  | |- context [if ?b then _ else _] => let E := fresh "E" in destruct b eqn:E
  end; bool_to_prop.

(** Split the [if]s of a hypothesis. *)
Ltac split_ifs_in H :=
  repeat match type of H with
  | context [if ?b then _ else _] => let E := fresh "E" in destruct b eqn:E
  end; bool_to_prop.

Create HintDb unsod.
#[export] Hint Resolve returns_Ok wrap_u_range wrap_s_range : unsod.
