(* ===== verification/UdFile.v ===== *)
(** The descriptor table of libudsock (src/src/lib/libudsock/ud_file.c): the
    array that maps a POSIX-like descriptor to a socket of the stack, its
    creation in shared memory, allocation of the lowest free descriptor,
    lookup and release; and the refinement of the abstract descriptor map. *)
From S2P Require Import Prelude.

Module UdFile.

Definition UD_SOCKET_DESC_MAX : Z := 65516.

(** [struct ud_fds_table].  [fds] holds the non-NULL entries of the array
    [struct uinet_socket *fds[UD_SOCKET_DESC_MAX]]; a socket pointer is a
    [nat], NULL is [None]. *)
Record ud_fds_table : Type := { num : Z; fds : gmap Z nat }.

Definition in_bounds (i : Z) : bool := (0 <=? i) && (i <? UD_SOCKET_DESC_MAX).

(** Reading and writing one slot of the array. *)
Definition fds_read (t : ud_fds_table) (i : Z) : result (option nat) :=
  if in_bounds i then Ok (fds t !! i) else Fault OutOfBounds.

Definition fds_write (t : ud_fds_table) (i : Z) (p : option nat) : result ud_fds_table :=
  if in_bounds i
  then Ok {| num := num t; fds := partial_alter (fun _ => p) i (fds t) |}
  else Fault OutOfBounds.

(** The results of the POSIX calls the constructor and destructor make. *)
Record shm_host : Type := {
  shm_open_excl : Z;            (** shm_open(O_CREAT|O_RDWR|O_EXCL) *)
  shm_open_rdwr : Z;            (** shm_open(O_RDWR) *)
  ftruncate : Z → Z;
  mmap : Z → option ud_fds_table; (** the segment's contents, [None] for MAP_FAILED *)
  munmap : Z
}.

(** [memset(ptr, 0, UDSOCK_SHM_SIZE)]. *)
Definition zero_table : ud_fds_table := {| num := 0; fds := ∅ |}.

(** The library constructor.  The second [shm_open] failing is not an exit: the
    statement at that point is the string ["shm_open"] and not a call. *)
Definition ud_fd_create_shm (h : shm_host) : result ud_fds_table :=
  let fd := shm_open_excl h in
  let fd := if fd =? -1 then shm_open_rdwr h else fd in
  if ftruncate h fd =? -1 then Fault Panic
  else match mmap h fd with
       | None => Fault Panic
       | Some ptr => Ok zero_table
       end.

(** The library destructor; the result is the new value of [fds_table]. *)
Definition ud_fd_destroy_shm (h : shm_host) (t : option ud_fds_table)
    : result (option ud_fds_table) :=
  if munmap h =? -1 then Fault Panic else Ok None.

(** The loop of [ud_fd_get_free], from index [i]. *)
Fixpoint get_free_from (fuel : nat) (i : Z) (t : ud_fds_table) : Z :=
  match fuel with
  | O => i
  | S fuel' =>
      if i <? UD_SOCKET_DESC_MAX then
        match fds t !! i with
        | None => i
        | Some _ => get_free_from fuel' (i + 1) t
        end
      else i
  end.

Definition ud_fd_get_free (t : ud_fds_table) : Z :=
  get_free_from (Z.to_nat UD_SOCKET_DESC_MAX) 1 t.

Definition ud_fd_get_sock (fd : Z) (t : ud_fds_table) : result (option nat) :=
  fds_read t fd.

Definition ud_fd_set_sock (sock : option nat) (t : ud_fds_table) : result (Z * ud_fds_table) :=
  let fd := ud_fd_get_free t in
  if negb (fd =? -1)
  then t' ← fds_write t fd sock; Ok (fd, t')
  else Ok (fd, t).

Definition ud_fd_free (fd : Z) (t : ud_fds_table) : result ud_fds_table :=
  fds_write t fd None.

(** ** Lemmas *)

Lemma in_bounds_spec i : in_bounds i = true ↔ 0 <= i < UD_SOCKET_DESC_MAX.
Proof. unfold in_bounds. rewrite andb_true_iff, Z.leb_le, Z.ltb_lt. done. Qed.

Lemma in_bounds_true i : 0 <= i < UD_SOCKET_DESC_MAX → in_bounds i = true.
Proof. apply in_bounds_spec. Qed.

Lemma in_bounds_false i : ¬ (0 <= i < UD_SOCKET_DESC_MAX) → in_bounds i = false.
Proof. intros H. apply not_true_is_false. by rewrite in_bounds_spec. Qed.

Lemma fds_write_ok t i p :
  0 <= i < UD_SOCKET_DESC_MAX →
  fds_write t i p = Ok {| num := num t; fds := partial_alter (fun _ => p) i (fds t) |}.
Proof. intros. unfold fds_write. by rewrite in_bounds_true. Qed.

Lemma get_free_from_spec fuel i t :
  1 <= i <= UD_SOCKET_DESC_MAX → UD_SOCKET_DESC_MAX - i <= Z.of_nat fuel →
  let r := get_free_from fuel i t in
  i <= r <= UD_SOCKET_DESC_MAX ∧
  (∀ j, i <= j < r → is_Some (fds t !! j)) ∧
  (r < UD_SOCKET_DESC_MAX → fds t !! r = None).
Proof.
  revert i; induction fuel as [|fuel IH]; intros i Hi Hf r; subst r; simpl.
  { repeat split; intros; lia. }
  destruct (i <? UD_SOCKET_DESC_MAX) eqn:E; bool_to_prop.
  2: { repeat split; intros; lia. }
  destruct (fds t !! i) as [s|] eqn:Es.
  - destruct (IH (i + 1)) as (H1 & H2 & H3); [lia.. |].
    repeat split; [lia.. | | done].
    intros j Hj. destruct (decide (j = i)) as [-> | Hne]; [eauto | apply H2; lia].
  - repeat split; [lia.. | |done]. intros; lia.
Qed.

(** What [ud_fd_get_free] returns, on every table. *)
Lemma get_free_spec t :
  let r := ud_fd_get_free t in
  1 <= r <= UD_SOCKET_DESC_MAX ∧
  (∀ j, 1 <= j < r → is_Some (fds t !! j)) ∧
  (r < UD_SOCKET_DESC_MAX → fds t !! r = None).
Proof. apply get_free_from_spec; unfold UD_SOCKET_DESC_MAX; lia. Qed.

Lemma get_free_unique t r :
  1 <= r < UD_SOCKET_DESC_MAX → fds t !! r = None →
  (∀ j, 1 <= j < r → is_Some (fds t !! j)) → ud_fd_get_free t = r.
Proof.
  intros Hr Hn Hall. destruct (get_free_spec t) as (H1 & H2 & H3).
  set (g := ud_fd_get_free t) in *.
  destruct (Z.lt_trichotomy g r) as [Hlt | [? | Hgt]]; [| done |].
  - destruct (Hall g) as [s Hs]; [lia |]. rewrite H3 in Hs by lia. done.
  - destruct (H2 r) as [s Hs]; [lia |]. congruence.
Qed.

(** ** The abstract descriptor map *)

(** What the table promises its clients: a finite map from descriptors to
    sockets where [open] takes the lowest descriptor from 1 up. *)
Definition lowest_free (m : gmap Z nat) (fd : Z) : Prop :=
  1 <= fd < UD_SOCKET_DESC_MAX ∧ m !! fd = None ∧ ∀ j, 1 <= j < fd → is_Some (m !! j).

Inductive fd_step (m : gmap Z nat) : gmap Z nat → Prop :=
| fd_open fd so : lowest_free m fd → fd_step m (<[fd := so]> m)
| fd_close fd : 0 <= fd < UD_SOCKET_DESC_MAX → fd_step m (delete fd m).

(** Some descriptor from 1 up is free. *)
Definition has_free (t : ud_fds_table) : Prop :=
  ∃ j, 1 <= j < UD_SOCKET_DESC_MAX ∧ fds t !! j = None.

Lemma has_free_lowest t : has_free t → lowest_free (fds t) (ud_fd_get_free t).
Proof.
  intros (j & Hj & Hn). destruct (get_free_spec t) as (H1 & H2 & H3).
  assert (ud_fd_get_free t <= j) as Hle.
  { destruct (Z.le_gt_cases (ud_fd_get_free t) j) as [|Hgt]; [done |].
    destruct (H2 j) as [s Hs]; [lia |]. congruence. }
  repeat split; [lia.. | apply H3; lia | done].
Qed.

Lemma ud_fd_set_sock_eq t so :
  has_free t →
  ud_fd_set_sock (Some so) t =
    Ok (ud_fd_get_free t,
        {| num := num t; fds := <[ud_fd_get_free t := so]> (fds t) |}).
Proof.
  intros Hf. pose proof (has_free_lowest t Hf) as (Hr & _).
  unfold ud_fd_set_sock. destruct (ud_fd_get_free t =? -1) eqn:E; bool_to_prop; [lia |].
  simpl. rewrite fds_write_ok by lia. simpl. repeat f_equal.
Qed.

(** [C20] Allocating a descriptor implements [open] of the abstract map: when a
    descriptor is free, [ud_fd_set_sock] returns, the descriptor it returns is
    the lowest free one from 1 up, the table afterwards is the old one with that
    single entry added, and looking the descriptor up gives the socket back. *)
Theorem ud_fd_set_sock_refines (t : ud_fds_table) (so : nat) :
  has_free t →
  returns (ud_fd_set_sock (Some so) t) (fun '(fd, t') =>
    lowest_free (fds t) fd ∧ fd_step (fds t) (fds t') ∧
    fds t' = <[fd := so]> (fds t) ∧ ud_fd_get_sock fd t' = Ok (Some so)).
Proof.
  intros Hf. rewrite ud_fd_set_sock_eq by done. simpl.
  pose proof (has_free_lowest t Hf) as Hlow. repeat split; try apply Hlow.
  - by constructor.
  - unfold ud_fd_get_sock, fds_read. destruct Hlow as (? & _).
    rewrite in_bounds_true by lia. simpl. by rewrite lookup_insert_eq.
Qed.

Definition ex_table : ud_fds_table :=
  {| num := 0; fds := {[1 := 7%nat; 2 := 8%nat; 4 := 5%nat]} |}.

Lemma ud_fd_set_sock_refines_witness :
  returns (ud_fd_set_sock (Some 9%nat) ex_table) (fun '(fd, t') =>
    lowest_free (fds ex_table) fd ∧ fd_step (fds ex_table) (fds t') ∧
    fds t' = <[fd := 9%nat]> (fds ex_table) ∧ ud_fd_get_sock fd t' = Ok (Some 9%nat)).
Proof.
  refine (ud_fd_set_sock_refines ex_table 9%nat _).
  exists 3. split; [unfold UD_SOCKET_DESC_MAX; lia | reflexivity].
Defined.

(** Releasing a descriptor makes it reusable: after [ud_fd_free] of an
    allocated descriptor its slot is NULL, every other slot is unchanged, and if
    it was below the first free one it is what the next allocation returns. *)
Theorem ud_fd_free_reuse (t : ud_fds_table) (fd : Z) :
  1 <= fd < ud_fd_get_free t →
  returns (ud_fd_free fd t) (fun t' =>
    ud_fd_get_sock fd t' = Ok None ∧
    (∀ j, j ≠ fd → ud_fd_get_sock j t' = ud_fd_get_sock j t) ∧
    ud_fd_get_free t' = fd).
Proof.
  intros Hfd. destruct (get_free_spec t) as (H1 & H2 & H3).
  unfold ud_fd_free. rewrite fds_write_ok by lia. simpl. split_and!.
  - unfold ud_fd_get_sock, fds_read. rewrite in_bounds_true by lia. simpl.
    by rewrite lookup_partial_alter_eq.
  - intros j Hj. unfold ud_fd_get_sock, fds_read. simpl.
    by rewrite lookup_partial_alter_ne.
  - apply get_free_unique; simpl; [lia | by rewrite lookup_partial_alter_eq |].
    intros j Hj. rewrite lookup_partial_alter_ne by lia. apply H2. lia.
Qed.

Lemma ud_fd_free_reuse_witness :
  returns (ud_fd_free 1 ex_table) (fun t' =>
    ud_fd_get_sock 1 t' = Ok None ∧
    (∀ j, j ≠ 1 → ud_fd_get_sock j t' = ud_fd_get_sock j ex_table) ∧
    ud_fd_get_free t' = 1).
Proof.
  refine (ud_fd_free_reuse ex_table 1 _).
  rewrite (get_free_unique _ 3); [lia | unfold UD_SOCKET_DESC_MAX; lia | reflexivity |].
  intros j Hj. assert (j = 1 ∨ j = 2) as [-> | ->] by lia; by eexists.
Defined.

(** A full table is not an error the allocator reports: the scan stops at
    [UD_SOCKET_DESC_MAX], which is not the [-1] the caller tests for, and the
    store that follows is one element past the end of the array. *)
Theorem ud_fd_set_sock_full (t : ud_fds_table) (so : option nat) :
  (∀ j, 1 <= j < UD_SOCKET_DESC_MAX → is_Some (fds t !! j)) →
  ud_fd_get_free t = UD_SOCKET_DESC_MAX ∧ ud_fd_set_sock so t = Fault OutOfBounds.
Proof.
  intros Hall. destruct (get_free_spec t) as (H1 & H2 & H3).
  assert (ud_fd_get_free t = UD_SOCKET_DESC_MAX) as E.
  { destruct (decide (ud_fd_get_free t = UD_SOCKET_DESC_MAX)); [done |].
    destruct (Hall (ud_fd_get_free t)) as [s Hs]; [lia |].
    rewrite H3 in Hs by lia. done. }
  split; [done |]. unfold ud_fd_set_sock. rewrite E.
  unfold fds_write. by rewrite in_bounds_false by lia.
Qed.

Definition full_table : ud_fds_table :=
  {| num := 0; fds := gset_to_gmap 5%nat (list_to_set (seqZ 1 65515)) |}.

Lemma ud_fd_set_sock_full_witness :
  ud_fd_get_free full_table = UD_SOCKET_DESC_MAX ∧
  ud_fd_set_sock (Some 6%nat) full_table = Fault OutOfBounds.
Proof.
  apply (ud_fd_set_sock_full full_table (Some 6%nat)).
  intros j Hj. exists 5%nat. unfold full_table, fds.
  apply lookup_gset_to_gmap_Some. split; [| done].
  apply elem_of_list_to_set, elem_of_seqZ. unfold UD_SOCKET_DESC_MAX in Hj. lia.
Defined.

Lemma create_shm_ok h t : ud_fd_create_shm h = Ok t → t = zero_table.
Proof.
  unfold ud_fd_create_shm. intros H.
  destruct (_ =? -1) in H; [done |]. destruct (mmap _ _) in H; congruence.
Qed.

End UdFile.
