(* ===== verification/Errno.v ===== *)
(** Error numbers.  The stack reports FreeBSD numbers (the UINET_E* constants of
    src/src/lib/libuinet/api_include/uinet_api_errno.h); the POSIX layer reports
    the host's, which are those of Linux.  Two translations exist:
    [uinet_errno_to_os] (src/src/lib/libuinet/uinet_api_errno.c), a switch, and
    [ud_set_errno] (src/src/lib/libudsock/ud_socket.c), through the table
    [errno_map].  The theorem relates them. *)
From S2P Require Import Prelude.

(** The error numbers of the stack. *)
Module Bsd.
Definition UINET_EPERM : Z := 1.
Definition UINET_ENOENT : Z := 2.
Definition UINET_ESRCH : Z := 3.
Definition UINET_EINTR : Z := 4.
Definition UINET_EIO : Z := 5.
Definition UINET_ENXIO : Z := 6.
Definition UINET_E2BIG : Z := 7.
Definition UINET_ENOEXEC : Z := 8.
Definition UINET_EBADF : Z := 9.
Definition UINET_ECHILD : Z := 10.
Definition UINET_EDEADLK : Z := 11.
Definition UINET_ENOMEM : Z := 12.
Definition UINET_EACCES : Z := 13.
Definition UINET_EFAULT : Z := 14.
Definition UINET_ENOTBLK : Z := 15.
Definition UINET_EBUSY : Z := 16.
Definition UINET_EEXIST : Z := 17.
Definition UINET_EXDEV : Z := 18.
Definition UINET_ENODEV : Z := 19.
Definition UINET_ENOTDIR : Z := 20.
Definition UINET_EISDIR : Z := 21.
Definition UINET_EINVAL : Z := 22.
Definition UINET_ENFILE : Z := 23.
Definition UINET_EMFILE : Z := 24.
Definition UINET_ENOTTY : Z := 25.
Definition UINET_ETXTBSY : Z := 26.
Definition UINET_EFBIG : Z := 27.
Definition UINET_ENOSPC : Z := 28.
Definition UINET_ESPIPE : Z := 29.
Definition UINET_EROFS : Z := 30.
Definition UINET_EMLINK : Z := 31.
Definition UINET_EPIPE : Z := 32.
Definition UINET_EDOM : Z := 33.
Definition UINET_ERANGE : Z := 34.
Definition UINET_EAGAIN : Z := 35.
Definition UINET_EWOULDBLOCK : Z := UINET_EAGAIN.
Definition UINET_EINPROGRESS : Z := 36.
Definition UINET_EALREADY : Z := 37.
Definition UINET_ENOTSOCK : Z := 38.
Definition UINET_EDESTADDRREQ : Z := 39.
Definition UINET_EMSGSIZE : Z := 40.
Definition UINET_EPROTOTYPE : Z := 41.
Definition UINET_ENOPROTOOPT : Z := 42.
Definition UINET_EPROTONOSUPPORT : Z := 43.
Definition UINET_ESOCKTNOSUPPORT : Z := 44.
Definition UINET_EOPNOTSUPP : Z := 45.
Definition UINET_ENOTSUP : Z := UINET_EOPNOTSUPP.
Definition UINET_EPFNOSUPPORT : Z := 46.
Definition UINET_EAFNOSUPPORT : Z := 47.
Definition UINET_EADDRINUSE : Z := 48.
Definition UINET_EADDRNOTAVAIL : Z := 49.
Definition UINET_ENETDOWN : Z := 50.
Definition UINET_ENETUNREACH : Z := 51.
Definition UINET_ENETRESET : Z := 52.
Definition UINET_ECONNABORTED : Z := 53.
Definition UINET_ECONNRESET : Z := 54.
Definition UINET_ENOBUFS : Z := 55.
Definition UINET_EISCONN : Z := 56.
Definition UINET_ENOTCONN : Z := 57.
Definition UINET_ESHUTDOWN : Z := 58.
Definition UINET_ETOOMANYREFS : Z := 59.
Definition UINET_ETIMEDOUT : Z := 60.
Definition UINET_ECONNREFUSED : Z := 61.
Definition UINET_ELOOP : Z := 62.
Definition UINET_ENAMETOOLONG : Z := 63.
Definition UINET_EHOSTDOWN : Z := 64.
Definition UINET_EHOSTUNREACH : Z := 65.
Definition UINET_ENOTEMPTY : Z := 66.
Definition UINET_EPROCLIM : Z := 67.
Definition UINET_EUSERS : Z := 68.
Definition UINET_EDQUOT : Z := 69.
Definition UINET_ESTALE : Z := 70.
Definition UINET_EREMOTE : Z := 71.
Definition UINET_EBADRPC : Z := 72.
Definition UINET_ERPCMISMATCH : Z := 73.
Definition UINET_EPROGUNAVAIL : Z := 74.
Definition UINET_EPROGMISMATCH : Z := 75.
Definition UINET_EPROCUNAVAIL : Z := 76.
Definition UINET_ENOLCK : Z := 77.
Definition UINET_ENOSYS : Z := 78.
Definition UINET_EFTYPE : Z := 79.
Definition UINET_EAUTH : Z := 80.
Definition UINET_ENEEDAUTH : Z := 81.
Definition UINET_EIDRM : Z := 82.
Definition UINET_ENOMSG : Z := 83.
Definition UINET_EOVERFLOW : Z := 84.
Definition UINET_ECANCELED : Z := 85.
Definition UINET_EILSEQ : Z := 86.
Definition UINET_ENOATTR : Z := 87.
Definition UINET_EDOOFUS : Z := 88.
Definition UINET_EBADMSG : Z := 89.
Definition UINET_EMULTIHOP : Z := 90.
Definition UINET_ENOLINK : Z := 91.
Definition UINET_EPROTO : Z := 92.
Definition UINET_ENOTCAPABLE : Z := 93.
Definition UINET_ECAPMODE : Z := 94.
Definition UINET_ELAST : Z := 94.
End Bsd.
Export Bsd.

(** The error numbers of the host, <asm-generic/errno.h> of Linux. *)
Module Linux.
Definition EPERM : Z := 1.
Definition ENOENT : Z := 2.
Definition ESRCH : Z := 3.
Definition EINTR : Z := 4.
Definition EIO : Z := 5.
Definition ENXIO : Z := 6.
Definition E2BIG : Z := 7.
Definition ENOEXEC : Z := 8.
Definition EBADF : Z := 9.
Definition ECHILD : Z := 10.
Definition EAGAIN : Z := 11.
Definition ENOMEM : Z := 12.
Definition EACCES : Z := 13.
Definition EFAULT : Z := 14.
Definition ENOTBLK : Z := 15.
Definition EBUSY : Z := 16.
Definition EEXIST : Z := 17.
Definition EXDEV : Z := 18.
Definition ENODEV : Z := 19.
Definition ENOTDIR : Z := 20.
Definition EISDIR : Z := 21.
Definition EINVAL : Z := 22.
Definition ENFILE : Z := 23.
Definition EMFILE : Z := 24.
Definition ENOTTY : Z := 25.
Definition ETXTBSY : Z := 26.
Definition EFBIG : Z := 27.
Definition ENOSPC : Z := 28.
Definition ESPIPE : Z := 29.
Definition EROFS : Z := 30.
Definition EMLINK : Z := 31.
Definition EPIPE : Z := 32.
Definition EDOM : Z := 33.
Definition ERANGE : Z := 34.
Definition EDEADLK : Z := 35.
Definition ENAMETOOLONG : Z := 36.
Definition ENOLCK : Z := 37.
Definition ENOSYS : Z := 38.
Definition ENOTEMPTY : Z := 39.
Definition ELOOP : Z := 40.
Definition EWOULDBLOCK : Z := 11.
Definition ENOMSG : Z := 42.
Definition EIDRM : Z := 43.
Definition ENOLINK : Z := 67.
Definition EPROTO : Z := 71.
Definition EMULTIHOP : Z := 72.
Definition EBADMSG : Z := 74.
Definition EOVERFLOW : Z := 75.
Definition EILSEQ : Z := 84.
Definition EUSERS : Z := 87.
Definition ENOTSOCK : Z := 88.
Definition EDESTADDRREQ : Z := 89.
Definition EMSGSIZE : Z := 90.
Definition EPROTOTYPE : Z := 91.
Definition ENOPROTOOPT : Z := 92.
Definition EPROTONOSUPPORT : Z := 93.
Definition ESOCKTNOSUPPORT : Z := 94.
Definition EOPNOTSUPP : Z := 95.
Definition ENOTSUP : Z := 95.
Definition EPFNOSUPPORT : Z := 96.
Definition EAFNOSUPPORT : Z := 97.
Definition EADDRINUSE : Z := 98.
Definition EADDRNOTAVAIL : Z := 99.
Definition ENETDOWN : Z := 100.
Definition ENETUNREACH : Z := 101.
Definition ENETRESET : Z := 102.
Definition ECONNABORTED : Z := 103.
Definition ECONNRESET : Z := 104.
Definition ENOBUFS : Z := 105.
Definition EISCONN : Z := 106.
Definition ENOTCONN : Z := 107.
Definition ESHUTDOWN : Z := 108.
Definition ETOOMANYREFS : Z := 109.
Definition ETIMEDOUT : Z := 110.
Definition ECONNREFUSED : Z := 111.
Definition EHOSTDOWN : Z := 112.
Definition EHOSTUNREACH : Z := 113.
Definition EALREADY : Z := 114.
Definition EINPROGRESS : Z := 115.
Definition ESTALE : Z := 116.
Definition EDQUOT : Z := 122.
Definition EREMOTE : Z := 66.
Definition ECANCELED : Z := 125.
End Linux.
Export Linux.

Module Errno.

(** The switch of [uinet_errno_to_os], one [if] per case. *)
Definition uinet_errno_to_os (uinet_errno : Z) : Z :=
  if uinet_errno =? UINET_EPERM then EPERM else
  if uinet_errno =? UINET_ENOENT then ENOENT else
  if uinet_errno =? UINET_ESRCH then ESRCH else
  if uinet_errno =? UINET_EINTR then EINTR else
  if uinet_errno =? UINET_EIO then EIO else
  if uinet_errno =? UINET_ENXIO then ENXIO else
  if uinet_errno =? UINET_E2BIG then E2BIG else
  if uinet_errno =? UINET_ENOEXEC then ENOEXEC else
  if uinet_errno =? UINET_EBADF then EBADF else
  if uinet_errno =? UINET_ECHILD then ECHILD else
  if uinet_errno =? UINET_EDEADLK then EDEADLK else
  if uinet_errno =? UINET_ENOMEM then ENOMEM else
  if uinet_errno =? UINET_EACCES then EACCES else
  if uinet_errno =? UINET_EFAULT then EFAULT else
  if uinet_errno =? UINET_ENOTBLK then ENOTBLK else
  if uinet_errno =? UINET_EBUSY then EBUSY else
  if uinet_errno =? UINET_EEXIST then EEXIST else
  if uinet_errno =? UINET_EXDEV then EXDEV else
  if uinet_errno =? UINET_ENODEV then ENODEV else
  if uinet_errno =? UINET_ENOTDIR then ENOTDIR else
  if uinet_errno =? UINET_EISDIR then EISDIR else
  if uinet_errno =? UINET_EINVAL then EINVAL else
  if uinet_errno =? UINET_ENFILE then ENFILE else
  if uinet_errno =? UINET_EMFILE then EMFILE else
  if uinet_errno =? UINET_ENOTTY then ENOTTY else
  if uinet_errno =? UINET_ETXTBSY then ETXTBSY else
  if uinet_errno =? UINET_EFBIG then EFBIG else
  if uinet_errno =? UINET_ENOSPC then ENOSPC else
  if uinet_errno =? UINET_ESPIPE then ESPIPE else
  if uinet_errno =? UINET_EROFS then EROFS else
  if uinet_errno =? UINET_EMLINK then EMLINK else
  if uinet_errno =? UINET_EPIPE then EPIPE else
  if uinet_errno =? UINET_EDOM then EDOM else
  if uinet_errno =? UINET_ERANGE then ERANGE else
  if uinet_errno =? UINET_EWOULDBLOCK then EWOULDBLOCK else
  if uinet_errno =? UINET_EINPROGRESS then EINPROGRESS else
  if uinet_errno =? UINET_EALREADY then EALREADY else
  if uinet_errno =? UINET_ENOTSOCK then ENOTSOCK else
  if uinet_errno =? UINET_EDESTADDRREQ then EDESTADDRREQ else
  if uinet_errno =? UINET_EMSGSIZE then EMSGSIZE else
  if uinet_errno =? UINET_EPROTOTYPE then EPROTOTYPE else
  if uinet_errno =? UINET_ENOPROTOOPT then ENOPROTOOPT else
  if uinet_errno =? UINET_EPROTONOSUPPORT then EPROTONOSUPPORT else
  if uinet_errno =? UINET_ESOCKTNOSUPPORT then ESOCKTNOSUPPORT else
  if uinet_errno =? UINET_ENOTSUP then ENOTSUP else
  if uinet_errno =? UINET_EPFNOSUPPORT then EPFNOSUPPORT else
  if uinet_errno =? UINET_EAFNOSUPPORT then EAFNOSUPPORT else
  if uinet_errno =? UINET_EADDRINUSE then EADDRINUSE else
  if uinet_errno =? UINET_EADDRNOTAVAIL then EADDRNOTAVAIL else
  if uinet_errno =? UINET_ENETDOWN then ENETDOWN else
  if uinet_errno =? UINET_ENETUNREACH then ENETUNREACH else
  if uinet_errno =? UINET_ENETRESET then ENETRESET else
  if uinet_errno =? UINET_ECONNABORTED then ECONNABORTED else
  if uinet_errno =? UINET_ECONNRESET then ECONNRESET else
  if uinet_errno =? UINET_ENOBUFS then ENOBUFS else
  if uinet_errno =? UINET_EISCONN then EISCONN else
  if uinet_errno =? UINET_ENOTCONN then ENOTCONN else
  if uinet_errno =? UINET_ESHUTDOWN then ESHUTDOWN else
  if uinet_errno =? UINET_ETOOMANYREFS then ETOOMANYREFS else
  if uinet_errno =? UINET_ETIMEDOUT then ETIMEDOUT else
  if uinet_errno =? UINET_ECONNREFUSED then ECONNREFUSED else
  if uinet_errno =? UINET_ELOOP then ELOOP else
  if uinet_errno =? UINET_ENAMETOOLONG then ENAMETOOLONG else
  if uinet_errno =? UINET_EHOSTDOWN then EHOSTDOWN else
  if uinet_errno =? UINET_EHOSTUNREACH then EHOSTUNREACH else
  if uinet_errno =? UINET_ENOTEMPTY then ENOTEMPTY else
  if uinet_errno =? UINET_EUSERS then EUSERS else
  if uinet_errno =? UINET_EDQUOT then EDQUOT else
  if uinet_errno =? UINET_ESTALE then ESTALE else
  if uinet_errno =? UINET_EREMOTE then EREMOTE else
  if uinet_errno =? UINET_ENOLCK then ENOLCK else
  if uinet_errno =? UINET_ENOSYS then ENOSYS else
  if uinet_errno =? UINET_EIDRM then EIDRM else
  if uinet_errno =? UINET_ENOMSG then ENOMSG else
  if uinet_errno =? UINET_EOVERFLOW then EOVERFLOW else
  if uinet_errno =? UINET_ECANCELED then ECANCELED else
  if uinet_errno =? UINET_EILSEQ then EILSEQ else
  if uinet_errno =? UINET_EBADMSG then EBADMSG else
  if uinet_errno =? UINET_EMULTIHOP then EMULTIHOP else
  if uinet_errno =? UINET_ENOLINK then ENOLINK else
  if uinet_errno =? UINET_EPROTO then EPROTO else
  uinet_errno.

(** [static int errno_map[]]. *)
Definition errno_map : list Z :=
  [ 0;
    EPERM; ENOENT; ESRCH; EINTR; EIO; ENXIO;
    E2BIG; ENOEXEC; EBADF; ECHILD; EDEADLK; ENOMEM;
    EACCES; EFAULT; ENOTBLK; EBUSY; EEXIST; EXDEV;
    ENODEV; ENOTDIR; EISDIR; EINVAL; ENFILE; EMFILE;
    ENOTTY; ETXTBSY; EFBIG; ENOSPC; ESPIPE; EROFS;
    EMLINK; EPIPE; EDOM; ERANGE; EAGAIN; EINPROGRESS;
    EALREADY; ENOTSOCK; EDESTADDRREQ; EMSGSIZE; EPROTOTYPE; ENOPROTOOPT;
    EPROTONOSUPPORT; ESOCKTNOSUPPORT; EOPNOTSUPP; EOPNOTSUPP; EPFNOSUPPORT; EAFNOSUPPORT;
    EADDRINUSE; EADDRNOTAVAIL; ENETDOWN; ENETUNREACH; ENETRESET; ECONNABORTED;
    ECONNRESET; ENOBUFS; EISCONN; ENOTCONN; ESHUTDOWN; ETOOMANYREFS;
    ETIMEDOUT; ECONNREFUSED; ELOOP; ENAMETOOLONG ].

(** [sizeof(errno_map)]: the size in bytes, [sizeof(int)] being 4. *)
Definition sizeof_errno_map : Z := 4 * Z.of_nat (length errno_map).

(** [ud_set_errno]: the new value of [errno].  [error < sizeof(errno_map)] is a
    comparison of [size_t]s, so a negative [error] fails it. *)
Definition ud_set_errno (error errno : Z) : result Z :=
  if negb (error =? 0) && (u64 error <? sizeof_errno_map) then
    match errno_map !! Z.to_nat error with
    | Some e => Ok e
    | None => Fault OutOfBounds
    end
  else Ok errno.

(** Every [e] with [lo <= e < hi], as a boolean test. *)
Definition all_range (lo hi : Z) (P : Z → bool) : bool :=
  forallb P (seqZ lo (hi - lo)).

Lemma all_range_spec lo hi P e : all_range lo hi P = true → lo <= e < hi → P e = true.
Proof.
  unfold all_range. intros H He. rewrite forallb_forall in H. apply H.
  apply list_elem_of_In, elem_of_seqZ. lia.
Qed.

Lemma ud_set_errno_in e errno :
  0 < e < sizeof_errno_map →
  ud_set_errno e errno = match errno_map !! Z.to_nat e with
                         | Some x => Ok x | None => Fault OutOfBounds end.
Proof.
  intros He. unfold ud_set_errno. assert (sizeof_errno_map = 260) as E by reflexivity.
  destruct (e =? 0) eqn:E0; bool_to_prop; [lia |].
  rewrite wrap_u_id by (change (2 ^ 64) with 18446744073709551616; lia).
  destruct (e <? _) eqn:E1; bool_to_prop; [done | lia].
Qed.

(** How [ud_set_errno] translates, for every [error] a call of the stack can
    return.  Up to [UINET_EOPNOTSUPP] (45) it agrees with [uinet_errno_to_os].
    The table then has [EOPNOTSUPP] twice, so from [UINET_EPFNOSUPPORT] (46) to
    64 the value is the translation of the preceding number
    ([UINET_ECONNREFUSED] is reported as [ETIMEDOUT]); from 65 to 259 the bound,
    being a size in bytes, lets a read past the end of the table through; and 0
    and negative numbers leave [errno] as it was. *)
Theorem ud_set_errno_spec (e errno : Z) :
  - 2 ^ 31 <= e < 2 ^ 31 →
  ud_set_errno e errno =
    if (1 <=? e) && (e <=? UINET_EOPNOTSUPP) then Ok (uinet_errno_to_os e)
    else if (UINET_EPFNOSUPPORT <=? e) && (e <=? 64) then Ok (uinet_errno_to_os (e - 1))
    else if (65 <=? e) && (e <=? 259) then Fault OutOfBounds
    else Ok errno.
Proof.
  intros He. change (- 2 ^ 31 <= e < 2 ^ 31) with (-2147483648 <= e < 2147483648) in He.
  assert (sizeof_errno_map = 260) as Es by reflexivity.
  unfold UINET_EOPNOTSUPP, UINET_EPFNOSUPPORT. split_ifs.
  - rewrite ud_set_errno_in by lia.
    pose (P x := bool_decide (errno_map !! Z.to_nat x = Some (uinet_errno_to_os x))).
    assert (P e = true) as HP by (apply (all_range_spec 1 46); [reflexivity | lia]).
    unfold P in HP. bool_to_prop. by rewrite HP.
  - rewrite ud_set_errno_in by lia.
    pose (P x := bool_decide (errno_map !! Z.to_nat x = Some (uinet_errno_to_os (x - 1)))).
    assert (P e = true) as HP by (apply (all_range_spec 46 65); [reflexivity | lia]).
    unfold P in HP. bool_to_prop. by rewrite HP.
  - rewrite ud_set_errno_in by lia. rewrite lookup_ge_None_2; [done |]. simpl. lia.
  - unfold ud_set_errno. destruct (e =? 0) eqn:Ez; [done |]. bool_to_prop. simpl.
    destruct (u64 e <? sizeof_errno_map) eqn:Ew; [exfalso | done]. bool_to_prop.
    unfold wrap_u in Ew. change (2 ^ 64) with 18446744073709551616 in Ew.
    destruct (Z.lt_ge_cases e 0) as [Hneg | Hpos].
    + rewrite <- (Z_mod_plus_full e 1) in Ew. rewrite Z.mod_small in Ew by lia. lia.
    + rewrite Z.mod_small in Ew by lia. lia.
Qed.

Lemma ud_set_errno_spec_witness :
  ud_set_errno UINET_ECONNREFUSED 0 = Ok ETIMEDOUT ∧
  uinet_errno_to_os UINET_ECONNREFUSED = ECONNREFUSED.
Proof.
  split; [| reflexivity].
  rewrite (ud_set_errno_spec UINET_ECONNREFUSED 0); [reflexivity | unfold UINET_ECONNREFUSED; lia].
Defined.

End Errno.
