(* ===== verification/UinetSock.v ===== *)
(** The socket API of libuinet (src/src/lib/libuinet/uinet_api.c): the calls the
    POSIX layer is built on, over the socket structures of the kernel
    (src/src/sys/sys/socketvar.h, sockbuf.h).  The kernel's own socket routines
    (socreate, sosend, soreceive, ...) and the scheduler are the operations of
    the class [KernSocket]: this file is proved against that interface. *)
From S2P Require Import Prelude Errno.

Module UinetSock.

(** ** Constants of the kernel headers *)

Definition SS_ISCONNECTED : Z := 0x0002.
Definition SS_ISCONNECTING : Z := 0x0004.
Definition SS_NBIO : Z := 0x0100.
Definition SS_ISDISCONNECTED : Z := 0x2000.
Definition SBS_CANTSENDMORE : Z := 0x0010.
Definition SBS_CANTRCVMORE : Z := 0x0020.
Definition SQ_INCOMP : Z := 0x0800.
Definition SQ_COMP : Z := 0x1000.
Definition SO_ACCEPTCONN : Z := 0x00000002.
Definition SO_REUSEPORT : Z := 0x00000200.
Definition SO_PROMISC : Z := 0x00010000.
Definition SO_PASSIVE : Z := 0x00020000.
Definition SO_PASSIVECLNT : Z := 0x00040000.
Definition SO_RCVBUF : Z := 0x1002.
Definition SOL_SOCKET : Z := 0xffff.
Definition IPPROTO_IP : Z := 0.
Definition IP_BINDANY : Z := 24.
Definition IP_TXIF : Z := 92.
Definition IP_COPY_MODE : Z := 93.
Definition IP_COPY_LIMIT : Z := 94.
Definition IP_COPY_IF : Z := 95.
Definition IP_CATCHALL_LISTEN : Z := 97.
Definition ERESTART : Z := -1.
Definition SOMAXUSERCTX : Z := 1.

(** ** Data *)

(** The fields of [struct sockbuf] the API reads; the counts are [u_int]. *)
Record sockbuf : Type := {
  sb_state : Z; sb_cc : Z; sb_hiwat : Z; sb_mbcnt : Z; sb_mbmax : Z
}.

(** The fields of [struct socket] the API reads or writes.  [so_state] is a
    [short], [so_qlen] and [so_error] are [u_short]. *)
Record socket : Type := {
  so_count : Z;
  so_options : Z;
  so_state : Z;
  so_qstate : Z;
  so_head : option nat;
  so_comp : list nat;
  so_qlen : Z;
  so_error : Z;
  so_rcv : sockbuf;
  so_snd : sockbuf;
  soup_accept : option nat;
  soup_accept_arg : Z;
  so_user_ctx : list Z;
  so_passive_peer : option nat
}.

(** [struct uinet_sockaddr_in] and the [struct sockaddr_in] of the kernel, which
    it mirrors. *)
Record sockaddr_in : Type := {
  sin_len : Z; sin_family : Z; sin_port : Z; sin_addr : Z
}.

(** [struct uinet_iovec], [struct uinet_uio] and the kernel's [struct uio]. *)
Record iovec : Type := { iov_base : Z; iov_len : Z }.

Record uinet_uio : Type := {
  uio_iov : list iovec; uio_iovcnt : Z; uio_offset : Z; uio_resid : Z
}.

Inductive uio_rw : Type := UIO_READ | UIO_WRITE.
Inductive uio_seg : Type := UIO_USERSPACE | UIO_SYSSPACE | UIO_NOCOPY.

Record kuio : Type := {
  k_iov : list iovec; k_iovcnt : Z; k_offset : Z; k_resid : Z;
  k_segflg : uio_seg; k_rw : uio_rw
}.

(** The kernel state: the socket structures, and the rest of the stack and of
    the process (protocol control blocks, buffers, memory), which is opaque. *)
Record kernel (R : Type) : Type := mk_kernel { socks : gmap nat socket; rest : R }.
Arguments socks {R}.
Arguments rest {R}.
Arguments mk_kernel {R}.

(** ** Field updates *)

Definition set_state (v : Z) (s : socket) : socket :=
  {| so_count := so_count s; so_options := so_options s; so_state := v;
     so_qstate := so_qstate s; so_head := so_head s; so_comp := so_comp s;
     so_qlen := so_qlen s; so_error := so_error s; so_rcv := so_rcv s;
     so_snd := so_snd s; soup_accept := soup_accept s;
     soup_accept_arg := soup_accept_arg s; so_user_ctx := so_user_ctx s;
     so_passive_peer := so_passive_peer s |}.

Definition set_error (v : Z) (s : socket) : socket :=
  {| so_count := so_count s; so_options := so_options s; so_state := so_state s;
     so_qstate := so_qstate s; so_head := so_head s; so_comp := so_comp s;
     so_qlen := so_qlen s; so_error := v; so_rcv := so_rcv s;
     so_snd := so_snd s; soup_accept := soup_accept s;
     soup_accept_arg := soup_accept_arg s; so_user_ctx := so_user_ctx s;
     so_passive_peer := so_passive_peer s |}.

Definition set_count (v : Z) (s : socket) : socket :=
  {| so_count := v; so_options := so_options s; so_state := so_state s;
     so_qstate := so_qstate s; so_head := so_head s; so_comp := so_comp s;
     so_qlen := so_qlen s; so_error := so_error s; so_rcv := so_rcv s;
     so_snd := so_snd s; soup_accept := soup_accept s;
     soup_accept_arg := soup_accept_arg s; so_user_ctx := so_user_ctx s;
     so_passive_peer := so_passive_peer s |}.

(** [TAILQ_REMOVE(&head->so_comp, so, so_list); head->so_qlen--]. *)
Definition dequeue (so : nat) (s : socket) : socket :=
  {| so_count := so_count s; so_options := so_options s; so_state := so_state s;
     so_qstate := so_qstate s; so_head := so_head s;
     so_comp := filter (fun x => x ≠ so) (so_comp s);
     so_qlen := u16 (so_qlen s - 1); so_error := so_error s; so_rcv := so_rcv s;
     so_snd := so_snd s; soup_accept := soup_accept s;
     soup_accept_arg := soup_accept_arg s; so_user_ctx := so_user_ctx s;
     so_passive_peer := so_passive_peer s |}.

(** [so->so_qstate &= ~SQ_COMP; so->so_head = NULL]. *)
Definition unqueue (s : socket) : socket :=
  {| so_count := so_count s; so_options := so_options s; so_state := so_state s;
     so_qstate := clear_flag (so_qstate s) SQ_COMP; so_head := None;
     so_comp := so_comp s;
     so_qlen := so_qlen s; so_error := so_error s; so_rcv := so_rcv s;
     so_snd := so_snd s; soup_accept := soup_accept s;
     soup_accept_arg := soup_accept_arg s; so_user_ctx := so_user_ctx s;
     so_passive_peer := so_passive_peer s |}.

Definition set_user_ctx (v : list Z) (s : socket) : socket :=
  {| so_count := so_count s; so_options := so_options s; so_state := so_state s;
     so_qstate := so_qstate s; so_head := so_head s; so_comp := so_comp s;
     so_qlen := so_qlen s; so_error := so_error s; so_rcv := so_rcv s;
     so_snd := so_snd s; soup_accept := soup_accept s;
     soup_accept_arg := soup_accept_arg s; so_user_ctx := v;
     so_passive_peer := so_passive_peer s |}.

Definition set_soup_accept (f : option nat) (arg : Z) (s : socket) : socket :=
  {| so_count := so_count s; so_options := so_options s; so_state := so_state s;
     so_qstate := so_qstate s; so_head := so_head s; so_comp := so_comp s;
     so_qlen := so_qlen s; so_error := so_error s; so_rcv := so_rcv s;
     so_snd := so_snd s; soup_accept := f;
     soup_accept_arg := arg; so_user_ctx := so_user_ctx s;
     so_passive_peer := so_passive_peer s |}.

(** ** The interface of the kernel's socket layer *)

(** The routines of src/src/sys/kern/uipc_socket.c the API calls, and [msleep],
    which gives the other threads a chance to change the state.  Each returns an
    error number, 0 for success, with its other results. *)
Class KernSocket (R : Type) := {
  socreate : Z → Z → Z → M (kernel R) (Z * option nat);
  sobind : nat → sockaddr_in → M (kernel R) Z;
  soclose : nat → M (kernel R) Z;
  soconnect : nat → sockaddr_in → M (kernel R) Z;
  solisten : nat → Z → M (kernel R) Z;
  soaccept : nat → M (kernel R) (Z * option sockaddr_in);
  soreceive : nat → kuio → Z → M (kernel R) (Z * option sockaddr_in * kuio);
  sosend : nat → option sockaddr_in → kuio → Z → M (kernel R) (Z * kuio);
  soshutdown : nat → Z → M (kernel R) Z;
  so_setsockopt : nat → Z → Z → list Z → Z → M (kernel R) Z;
  so_getsockopt : nat → Z → Z → Z → M (kernel R) (Z * list Z * Z);
  pru_peeraddr : nat → M (kernel R) (Z * option sockaddr_in);
  pru_sockaddr : nat → M (kernel R) (Z * option sockaddr_in);
  run_soup_accept : nat → nat → Z → M (kernel R) unit;
  msleep : M (kernel R) Z
}.

Section Api.
Context {R : Type} `{!KernSocket R}.

Abbreviation K := (M (kernel R)).

(** [so->...]: the structure a socket pointer refers to. *)
Definition load (so : nat) : K socket :=
  fun k => match socks k !! so with Some s => Ok (s, k) | None => Fault BadPointer end.

Definition store (so : nat) (f : socket → socket) : K unit :=
  fun k => match socks k !! so with
           | Some s => Ok (tt, mk_kernel (<[so := f s]> (socks k)) (rest k))
           | None => Fault BadPointer
           end.

Definition nonnull (p : option nat) : K nat := liftR (deref p).

(** [so->so_state |= v] on a [short]. *)
Definition or_state (v : Z) (s : socket) : socket :=
  set_state (s16 (Z.lor (so_state s) v)) s.

(** The wait loop of [uinet_soaccept]: the error [msleep] returned, or 0.
    [fuel] bounds the number of wakeups. *)
Fixpoint accept_wait (fuel : nat) (head : nat) : K Z :=
  match fuel with
  | O => faultM Blocked
  | S fuel' =>
      s ← load head;
      if bool_decide (so_comp s = []) && (so_error s =? 0) then
        if has_flag (sb_state (so_rcv s)) SBS_CANTRCVMORE then
          _ ← store head (set_error UINET_ECONNABORTED); mret 0
        else
          error ← msleep;
          if negb (error =? 0) then mret error else accept_wait fuel' head
      else mret 0
  end.

(** The part of [uinet_soaccept] from the dequeued socket [so] on. *)
Definition accept_take (head so : nat) (nam : bool)
    : K (Z * option sockaddr_in * option nat) :=
  h ← load head;
  _ ← store so (fun s => set_count (so_count s + 1) s);
  _ ← store head (dequeue so);
  _ ← store so (fun s => unqueue (or_state (Z.land (so_state h) SS_NBIO) s));
  s ← load so;
  let peer_so := so_passive_peer s in
  _ ← (if has_flag (so_options s) SO_PASSIVE then
         peer ← nonnull peer_so;
         store peer (fun p =>
           or_state (Z.lor (Z.land (so_state h) SS_NBIO) SO_PASSIVECLNT)
                    (set_count (so_count p + 1) p))
       else mret ());
  '(error, sa) ← soaccept so;
  if negb (error =? 0) then
    _ ← (match peer_so with Some p => _ ← soclose p; mret () | None => mret () end);
    _ ← soclose so;
    mret (error, None, None)
  else mret (error, if nam then sa else None, Some so).

Definition uinet_soaccept (fuel : nat) (listener : option nat) (nam : bool)
    : K (Z * option sockaddr_in * option nat) :=
  head ← nonnull listener;
  h ← load head;
  if has_flag (so_state h) SS_NBIO && bool_decide (so_comp h = []) then
    _ ← (match soup_accept h with
         | Some f => run_soup_accept f head (soup_accept_arg h)
         | None => mret ()
         end);
    mret (UINET_EWOULDBLOCK, None, None)
  else
    error ← accept_wait fuel head;
    if negb (error =? 0) then mret (error, None, None)
    else
      h ← load head;
      if negb (so_error h =? 0) then
        _ ← store head (set_error 0); mret (so_error h, None, None)
      else
        match so_comp h with
        | [] => faultM NullDeref
        | so :: _ => accept_take head so nam
        end.

Definition uinet_sobind (so : option nat) (nam : sockaddr_in) : K Z :=
  so ← nonnull so; sobind so nam.

Definition uinet_soclose (so : option nat) : K Z :=
  so ← nonnull so; soclose so.

(** The wait loop of [uinet_soconnect]: the error and [interrupted]. *)
Fixpoint connect_wait (fuel : nat) (so : nat) : K (Z * bool) :=
  match fuel with
  | O => faultM Blocked
  | S fuel' =>
      s ← load so;
      if has_flag (so_state s) SS_ISCONNECTING && (so_error s =? 0) then
        error ← msleep;
        if negb (error =? 0)
        then mret (error, (error =? UINET_EINTR) || (error =? ERESTART))
        else connect_wait fuel' so
      else mret (0, false)
  end.

(** From the label [bad] on. *)
Definition connect_bad (so : nat) (error : Z) (interrupted : bool) : K Z :=
  _ ← (if negb interrupted
       then store so (fun s => set_state (clear_flag (so_state s) SS_ISCONNECTING) s)
       else mret ());
  mret (if error =? ERESTART then UINET_EINTR else error).

Definition uinet_soconnect (fuel : nat) (uso : option nat) (nam : sockaddr_in) : K Z :=
  so ← nonnull uso;
  s ← load so;
  if has_flag (so_state s) SS_ISCONNECTING then mret UINET_EALREADY
  else
    error ← soconnect so nam;
    if negb (error =? 0) then connect_bad so error false
    else
      s ← load so;
      if has_flag (so_state s) SS_NBIO && has_flag (so_state s) SS_ISCONNECTING
      then mret UINET_EINPROGRESS
      else
        '(error, interrupted) ← connect_wait fuel so;
        error ← (if error =? 0 then
                   s ← load so; _ ← store so (set_error 0); mret (so_error s)
                 else mret error);
        connect_bad so error interrupted.

Definition uinet_socreate (dom type proto : Z) : K (Z * option nat) :=
  socreate dom type proto.

Definition uinet_sogeterror (so : option nat) : K Z :=
  so ← nonnull so; s ← load so; mret (so_error s).

Definition uinet_sogetpassivepeer (so : option nat) : K (option nat) :=
  so ← nonnull so; s ← load so; mret (so_passive_peer s).

Definition uinet_sogetsockopt (so : option nat) (level optname optlen : Z)
    : K (Z * list Z * Z) :=
  so ← nonnull so;
  '(result, optval, local_optlen) ← so_getsockopt so level optname optlen;
  mret (result, optval, u32 local_optlen).

Definition uinet_sogetstate (so : option nat) : K Z :=
  so ← nonnull so; s ← load so; mret (so_state s).

Definition uinet_solisten (so : option nat) (backlog : Z) : K Z :=
  so ← nonnull so; solisten so backlog.

(** The value [uinet_soreadable] computes from the socket structure. *)
Definition soreadable (s : socket) : Z :=
  if has_flag (so_options s) SO_ACCEPTCONN then
    if negb (so_error s =? 0) then -1 else so_qlen s
  else
    let avail := sb_cc (so_rcv s) in
    if negb (avail =? 0) ||
       ((so_error s =? 0) && negb (has_flag (sb_state (so_rcv s)) SBS_CANTRCVMORE))
    then (if avail >? INT_MAX then INT_MAX else avail)
    else -1.

Definition uinet_soreadable (so : option nat) : K Z :=
  so ← nonnull so; s ← load so; mret (soreadable s).

(** [sbspace]: the smaller of the two differences, each taken at [u_int] width
    and converted to [int]. *)
Definition sbspace (sb : sockbuf) : Z :=
  let a := s32 (sb_hiwat sb - sb_cc sb) in
  let b := s32 (sb_mbmax sb - sb_mbcnt sb) in
  if a <? b then a else b.

Definition sowritable (s : socket) : Z :=
  if has_flag (so_options s) SO_ACCEPTCONN then 0
  else if has_flag (sb_state (so_snd s)) SBS_CANTSENDMORE ||
          negb (so_error s =? 0) || has_flag (so_state s) SS_ISDISCONNECTED then -1
  else if Z.land (so_state s) SS_ISCONNECTED =? 0 then 0
  else
    let space := sbspace (so_snd s) in
    if space >? INT_MAX then INT_MAX else if space <? 0 then 0 else space.

Definition uinet_sowritable (so : option nat) : K Z :=
  so ← nonnull so; s ← load so; mret (sowritable s).

Definition uinet_sogetuserctx (so : option nat) (key : Z) : K (option Z) :=
  so ← nonnull so; s ← load so;
  if (key >=? 0) && (key <? SOMAXUSERCTX)
  then mret (so_user_ctx s !! Z.to_nat key) else mret None.

Definition uinet_sosetuserctx (so : option nat) (key ctx : Z) : K unit :=
  so ← nonnull so;
  if (key >=? 0) && (key <? SOMAXUSERCTX)
  then store so (fun s => set_user_ctx (<[Z.to_nat key := ctx]> (so_user_ctx s)) s)
  else mret ().

(** The copy of the caller's vector: [for (i = 0; i < uio->uio_iovcnt; i++)]. *)
Fixpoint copy_iov (n : nat) (i : nat) (src : list iovec) : result (list iovec) :=
  match n with
  | O => Ok []
  | S n' =>
      match src !! i with
      | None => Fault OutOfBounds
      | Some v => t ← copy_iov n' (S i) src;
                  Ok ({| iov_base := iov_base v; iov_len := iov_len v |} :: t)
      end
  end.

Definition import_uio (uio : uinet_uio) (rw : uio_rw) : result kuio :=
  iov ← copy_iov (Z.to_nat (uio_iovcnt uio)) 0 (uio_iov uio);
  Ok {| k_iov := iov; k_iovcnt := uio_iovcnt uio; k_offset := uio_offset uio;
        k_resid := uio_resid uio; k_segflg := UIO_SYSSPACE; k_rw := rw |}.

(** [uio->uio_resid = uio_internal.uio_resid]. *)
Definition export_resid (uio : uinet_uio) (ku : kuio) : uinet_uio :=
  {| uio_iov := uio_iov uio; uio_iovcnt := uio_iovcnt uio;
     uio_offset := uio_offset uio; uio_resid := k_resid ku |}.

Definition uinet_soreceive (so : option nat) (uio : uinet_uio) (flags : Z)
    : K (Z * option sockaddr_in * uinet_uio) :=
  ku ← liftR (import_uio uio UIO_READ);
  so ← nonnull so;
  '(result, psa, ku') ← soreceive so ku flags;
  mret (result, psa, export_resid uio ku').

(** [so_setsockopt] of one [unsigned int]. *)
Definition setopt_int (so : nat) (level optname optval : Z) : K Z :=
  so_setsockopt so level optname [optval] 4.

(** The options of [l] in order, up to the first that fails. *)
Fixpoint setopts (so : nat) (l : list (Z * Z * Z)) : K Z :=
  match l with
  | [] => mret 0
  | (level, name, v) :: t =>
      error ← setopt_int so level name v;
      if negb (error =? 0) then mret error else setopts so t
  end.

Definition uinet_make_socket_passive (so : option nat) : K Z :=
  so ← nonnull so;
  setopts so [(SOL_SOCKET, SO_PASSIVE, 1); (SOL_SOCKET, SO_REUSEPORT, 1);
              (SOL_SOCKET, SO_RCVBUF, 256 * 1024)].

(** [uif] is [uif->ifp->if_index]. *)
Definition uinet_sosettxif (so : option nat) (uif : Z) : K Z :=
  so ← nonnull so; setopt_int so IPPROTO_IP IP_TXIF uif.

Definition uinet_make_socket_promiscuous (so : option nat) (txif : option Z) : K Z :=
  so' ← nonnull so;
  error ← setopts so' [(SOL_SOCKET, SO_PROMISC, 1); (SOL_SOCKET, SO_REUSEPORT, 1);
                       (IPPROTO_IP, IP_BINDANY, 1)];
  if negb (error =? 0) then mret error
  else match txif with
       | Some uif => uinet_sosettxif so uif
       | None => mret error
       end.

Definition uinet_sosetcatchall (so : option nat) : K Z :=
  so ← nonnull so; setopt_int so IPPROTO_IP IP_CATCHALL_LISTEN 1.

(** [uif] is [uif->ifp->if_index]; the limit is a 64-bit option. *)
Definition uinet_sosetcopymode (so : option nat) (mode limit : Z) (uif : option Z) : K Z :=
  so ← nonnull so;
  error ← setopt_int so IPPROTO_IP IP_COPY_MODE mode;
  if negb (error =? 0) then mret error
  else
    error ← (match uif with
             | Some i => setopt_int so IPPROTO_IP IP_COPY_IF i
             | None => mret 0
             end);
    if negb (error =? 0) then mret error
    else so_setsockopt so IPPROTO_IP IP_COPY_LIMIT [limit] 8.

Definition uinet_sosetnonblocking (so : option nat) (nonblocking : Z) : K unit :=
  so ← nonnull so;
  if negb (nonblocking =? 0)
  then store so (or_state SS_NBIO)
  else store so (fun s => set_state (clear_flag (so_state s) SS_NBIO) s).

Definition uinet_sosetsockopt (so : option nat) (level optname : Z) (optval : list Z)
    (optlen : Z) : K Z :=
  so ← nonnull so; so_setsockopt so level optname optval optlen.

Definition uinet_sosend (so : option nat) (addr : option sockaddr_in) (uio : uinet_uio)
    (flags : Z) : K (Z * uinet_uio) :=
  ku ← liftR (import_uio uio UIO_WRITE);
  so ← nonnull so;
  '(result, ku') ← sosend so addr ku flags;
  mret (result, export_resid uio ku').

Definition uinet_soshutdown (so : option nat) (how : Z) : K Z :=
  so ← nonnull so; soshutdown so how.

Definition uinet_sogetpeeraddr (so : option nat) : K (Z * option sockaddr_in) :=
  so ← nonnull so; _ ← load so; pru_peeraddr so.

Definition uinet_sogetsockaddr (so : option nat) : K (Z * option sockaddr_in) :=
  so ← nonnull so; _ ← load so; pru_sockaddr so.

(** ** Lemmas *)

Lemma load_Some so s (k : kernel R) : socks k !! so = Some s → load so k = Ok (s, k).
Proof. intros H. unfold load. by rewrite H. Qed.

Lemma store_Some so f s (k : kernel R) :
  socks k !! so = Some s → store so f k = Ok (tt, mk_kernel (<[so := f s]> (socks k)) (rest k)).
Proof. intros H. unfold store. by rewrite H. Qed.

(** The accept queue of a listening socket: [so_qlen] is its length. *)
Definition queue_ok (h : socket) : Prop :=
  NoDup (so_comp h) ∧ so_qlen h = Z.of_nat (length (so_comp h)) ∧ so_qlen h < 2 ^ 16.

Lemma dequeue_head h so q :
  queue_ok h → so_comp h = so :: q →
  so_comp (dequeue so h) = q ∧ queue_ok (dequeue so h).
Proof.
  intros (Hnd & Hlen & Hmax) Hq. rewrite Hq in Hnd, Hlen.
  apply NoDup_cons in Hnd as [Hnin Hnd].
  assert (so_comp (dequeue so h) = q) as E.
  { unfold dequeue. simpl. rewrite Hq. by apply filter_ne_head. }
  split; [done |]. unfold queue_ok. rewrite E. unfold dequeue. simpl.
  simpl in Hlen. split_and!; [done | |]; rewrite wrap_u_id; lia.
Qed.

Lemma accept_wait_ready fuel head h (k : kernel R) :
  socks k !! head = Some h → so_comp h ≠ [] → accept_wait (S fuel) head k = Ok (0, k).
Proof.
  intros Hh Hq. cbn [accept_wait]. unfold mbind, M_bind. rewrite (load_Some _ h) by done.
  by rewrite bool_decide_false.
Qed.

(** The socket [uinet_soaccept] hands to [soaccept]. *)
Definition accepted (h s : socket) : socket :=
  unqueue (or_state (Z.land (so_state h) SS_NBIO) (set_count (so_count s + 1) s)).

Lemma accept_take_eq head so nam h s (k : kernel R) :
  socks k !! head = Some h → socks k !! so = Some s → so ≠ head →
  has_flag (so_options s) SO_PASSIVE = false → so_passive_peer s = None →
  accept_take head so nam k =
    match soaccept so (mk_kernel (<[so := accepted h s]> (<[head := dequeue so h]> (socks k)))
                                 (rest k)) with
    | Ok ((error, sa), k2) =>
        if error =? 0 then Ok ((0, if nam then sa else None, Some so), k2)
        else match soclose so k2 with
             | Ok (_, k3) => Ok ((error, None, None), k3)
             | Fault f => Fault f
             end
    | Fault f => Fault f
    end.
Proof.
  intros Hh Hs Hne Hpas Hpeer. unfold accept_take, mbind, M_bind.
  rewrite (load_Some _ h) by done. rewrite (store_Some _ _ s) by done.
  rewrite (store_Some _ _ h) by (simpl; by rewrite lookup_insert_ne).
  rewrite (store_Some _ _ (set_count (so_count s + 1) s))
    by (simpl; rewrite lookup_insert_ne by done; by rewrite lookup_insert_eq).
  unfold load. simpl. rewrite lookup_insert_eq. simpl. rewrite Hpas, Hpeer. simpl.
  rewrite (insert_insert_ne _ so head) by done. rewrite insert_insert_eq.
  fold (accepted h s). unfold mret, M_ret.
  rewrite (insert_insert_ne _ head so) by done.
  destruct (soaccept _ _) as [[[error sa] k2] |]; [| done].
  destruct (error =? 0) eqn:E; bool_to_prop; simpl; [by subst |].
  by destruct (soclose so k2) as [[? ?] |].
Qed.

(** [C21] Accepting a connection takes the oldest one: on a listener with a
    well-formed queue and no pending error, when the oldest connection is not an end of a
    passive pair (no SO_PASSIVE and no peer), the socket passed to the protocol and returned is the head
    of [so_comp]; the listener keeps the rest of the queue, still well formed;
    the new socket has one reference more, no listener, no [SQ_COMP], and is
    non-blocking if the listener is; every other socket is unchanged; if the
    protocol refuses, the socket is closed and the error returned. *)
Theorem uinet_soaccept_fifo fuel head nam (k : kernel R) h so q s :
  socks k !! head = Some h → queue_ok h → so_comp h = so :: q → so_error h = 0 →
  socks k !! so = Some s → so ≠ head →
  has_flag (so_options s) SO_PASSIVE = false → so_passive_peer s = None →
  ∃ k1 h1 s1,
    socks k1 !! head = Some h1 ∧ so_comp h1 = q ∧ queue_ok h1 ∧
    socks k1 !! so = Some s1 ∧ so_count s1 = so_count s + 1 ∧ so_head s1 = None ∧
    has_flag (so_qstate s1) SQ_COMP = false ∧
    so_state s1 = s16 (Z.lor (so_state s) (Z.land (so_state h) SS_NBIO)) ∧
    (∀ x, x ≠ head → x ≠ so → socks k1 !! x = socks k !! x) ∧
    uinet_soaccept (S fuel) (Some head) nam k =
      match soaccept so k1 with
      | Ok ((error, sa), k2) =>
          if error =? 0 then Ok ((0, if nam then sa else None, Some so), k2)
          else match soclose so k2 with
               | Ok (_, k3) => Ok ((error, None, None), k3)
               | Fault f => Fault f
               end
      | Fault f => Fault f
      end.
Proof.
  intros Hh Hqok Hq Herr Hs Hne Hpas Hpeer.
  destruct (dequeue_head h so q Hqok Hq) as [Hq' Hqok'].
  exists (mk_kernel (<[so := accepted h s]> (<[head := dequeue so h]> (socks k))) (rest k)),
         (dequeue so h), (accepted h s).
  simpl. split_and!; try done.
  - by rewrite lookup_insert_ne, lookup_insert_eq.
  - by rewrite lookup_insert_eq.
  - unfold has_flag, clear_flag. rewrite <- Z.land_assoc.
    change (Z.land (Z.lnot SQ_COMP) SQ_COMP) with 0. by rewrite Z.land_0_r.
  - intros x H1 H2. by rewrite !lookup_insert_ne.
  - unfold uinet_soaccept, nonnull, liftR, mbind, M_bind. simpl deref. cbv iota beta.
    rewrite (load_Some _ h) by done. rewrite Hq. rewrite andb_false_r.
    rewrite (accept_wait_ready _ _ h) by (done || by rewrite Hq). simpl.
    rewrite (load_Some _ h) by done. rewrite Herr, Hq. simpl.
    by rewrite (accept_take_eq _ _ _ h s).
Qed.

(** Marking the client socket of a passive pair is lost: [SO_PASSIVECLNT]
    is stored into [so_state], a [short], which cannot hold it, so the store is
    the one without the mark. *)
Lemma passive_client_mark_lost (h p : socket) :
  or_state (Z.lor (Z.land (so_state h) SS_NBIO) SO_PASSIVECLNT) p =
  or_state (Z.land (so_state h) SS_NBIO) p.
Proof.
  unfold or_state. f_equal. rewrite Z.lor_assoc.
  set (x := Z.lor (so_state p) _). unfold wrap_s. f_equal.
  change SO_PASSIVECLNT with (2 ^ 18). rewrite Z.lor_comm.
  assert (Z.lor (2 ^ 18) x = x + (2 ^ 18 - Z.land (2 ^ 18) x)) as ->.
  { pose proof (Z.add_lor_land (2 ^ 18) x). lia. }
  rewrite Z.land_comm, land_pow2 by lia.
  destruct (Z.testbit x 18); rewrite ?Z.sub_diag, ?Z.add_0_r, ?Z.sub_0_r; [done |].
  replace (x + 2 ^ 18 + 2 ^ (16 - 1)) with (x + 2 ^ (16 - 1) + 4 * 2 ^ 16) by lia.
  apply Z_mod_plus_full.
Qed.

End Api.

(** ** A small kernel

    An instance of the interface to evaluate the calls with: [sosend] consumes
    what the send buffer has room for, [soreceive] what the receive buffer holds,
    and no other thread runs during [msleep]. *)

Definition empty_sockbuf (hiwat : Z) : sockbuf :=
  {| sb_state := 0; sb_cc := 0; sb_hiwat := hiwat; sb_mbcnt := 0; sb_mbmax := 2 * hiwat |}.

Definition fresh_socket (state : Z) : socket :=
  {| so_count := 1; so_options := 0; so_state := state; so_qstate := 0; so_head := None;
     so_comp := []; so_qlen := 0; so_error := 0; so_rcv := empty_sockbuf 65536;
     so_snd := empty_sockbuf 65536; soup_accept := None; soup_accept_arg := 0;
     so_user_ctx := [0]; so_passive_peer := None |}.

Definition with_resid (ku : kuio) (n : Z) : kuio :=
  {| k_iov := k_iov ku; k_iovcnt := k_iovcnt ku; k_offset := k_offset ku;
     k_resid := n; k_segflg := k_segflg ku; k_rw := k_rw ku |}.

(** Two local addresses the small kernel knows. *)
Definition addr_local : sockaddr_in :=
  {| sin_len := 16; sin_family := 2; sin_port := 80; sin_addr := 1 |}.
Definition addr_peer : sockaddr_in :=
  {| sin_len := 16; sin_family := 2; sin_port := 4000; sin_addr := 2 |}.

Definition small_kernel : KernSocket unit := {|
  socreate := fun _ _ _ k =>
    let so := fresh (dom (socks k)) in
    Ok ((0, Some so), mk_kernel (<[so := fresh_socket 0]> (socks k)) (rest k));
  sobind := fun _ _ k => Ok (0, k);
  soclose := fun so k => Ok (0, mk_kernel (delete so (socks k)) (rest k));
  soconnect := fun _ _ k => Ok (0, k);
  solisten := fun _ _ k => Ok (0, k);
  soaccept := fun _ k => Ok ((0, Some addr_peer), k);
  soreceive := fun so ku _ k =>
    match socks k !! so with
    | None => Fault BadPointer
    | Some s => Ok ((0, Some addr_peer,
                     with_resid ku (Z.max 0 (k_resid ku - Z.max 0 (sb_cc (so_rcv s))))), k)
    end;
  sosend := fun so _ ku _ k =>
    match socks k !! so with
    | None => Fault BadPointer
    | Some s => Ok ((0, with_resid ku (Z.max 0 (k_resid ku - Z.max 0 (sbspace (so_snd s))))), k)
    end;
  soshutdown := fun _ _ k => Ok (0, k);
  so_setsockopt := fun _ level _ _ _ k => Ok (if level =? SOL_SOCKET then 0 else UINET_EINVAL, k);
  so_getsockopt := fun _ _ _ len k => Ok ((0, [], len), k);
  pru_peeraddr := fun _ k => Ok ((0, Some addr_peer), k);
  pru_sockaddr := fun _ k => Ok ((0, Some addr_local), k);
  run_soup_accept := fun _ _ _ k => Ok (tt, k);
  msleep := fun k => Ok (UINET_EINTR, k)
|}.

(** A listener (socket 1) with connections 2 and 3 waiting. *)
Definition ex_conn : socket :=
  {| so_count := 0; so_options := 0; so_state := SS_ISCONNECTED; so_qstate := SQ_COMP;
     so_head := Some 1%nat; so_comp := []; so_qlen := 0; so_error := 0;
     so_rcv := empty_sockbuf 65536; so_snd := empty_sockbuf 65536; soup_accept := None;
     soup_accept_arg := 0; so_user_ctx := [0]; so_passive_peer := None |}.

Definition ex_listener : socket :=
  {| so_count := 1; so_options := SO_ACCEPTCONN; so_state := SS_NBIO; so_qstate := 0;
     so_head := None; so_comp := [2%nat; 3%nat]; so_qlen := 2; so_error := 0;
     so_rcv := empty_sockbuf 65536; so_snd := empty_sockbuf 65536; soup_accept := None;
     soup_accept_arg := 0; so_user_ctx := [0]; so_passive_peer := None |}.

Definition ex_kernel : kernel unit :=
  mk_kernel {[1%nat := ex_listener; 2%nat := ex_conn; 3%nat := ex_conn]} tt.

Lemma uinet_soaccept_fifo_witness :
  ∃ k1 h1 s1,
    socks k1 !! 1%nat = Some h1 ∧ so_comp h1 = [3%nat] ∧ queue_ok h1 ∧
    socks k1 !! 2%nat = Some s1 ∧ so_count s1 = so_count ex_conn + 1 ∧ so_head s1 = None ∧
    has_flag (so_qstate s1) SQ_COMP = false ∧
    so_state s1 = s16 (Z.lor (so_state ex_conn) (Z.land (so_state ex_listener) SS_NBIO)) ∧
    (∀ x, x ≠ 1%nat → x ≠ 2%nat → socks k1 !! x = socks ex_kernel !! x) ∧
    @uinet_soaccept unit small_kernel 1 (Some 1%nat) true ex_kernel =
      match @soaccept unit small_kernel 2%nat k1 with
      | Ok ((error, sa), k2) =>
          if error =? 0 then Ok ((0, sa, Some 2%nat), k2)
          else match @soclose unit small_kernel 2%nat k2 with
               | Ok (_, k3) => Ok ((error, None, None), k3)
               | Fault f => Fault f
               end
      | Fault f => Fault f
      end.
Proof.
  refine (@uinet_soaccept_fifo unit small_kernel 0 1%nat true ex_kernel ex_listener
            2%nat [3%nat] ex_conn _ _ _ _ _ _ _ _); try reflexivity; [| discriminate].
  split_and!; [repeat constructor; set_solver | reflexivity | simpl; lia].
Defined.

End UinetSock.
