(* ===== verification/UdSocket.v ===== *)
(** The POSIX-like socket calls of libudsock
    (src/src/lib/libudsock/ud_socket.c, ud_select.c, ud_unistd.c): descriptors
    are looked up in the table of [UdFile], the work is done by the calls of
    [UinetSock], and error numbers, option numbers and addresses are converted
    between the conventions of the host and of the stack. *)
From S2P Require Import Prelude UdFile Errno UinetSock.
Import UdFile Errno UinetSock.

Module UdSocket.

(** ** Constants *)

Definition MSG_DONTWAIT : Z := 0x40.
Definition UINET_MSG_DONTWAIT : Z := 0x80.
Definition UINET_SOL_SOCKET : Z := 0xffff.

Definition UINET_SO_DEBUG : Z := 0x00000001.
Definition UINET_SO_REUSEADDR : Z := 0x00000004.
Definition UINET_SO_KEEPALIVE : Z := 0x00000008.
Definition UINET_SO_DONTROUTE : Z := 0x00000010.
Definition UINET_SO_BROADCAST : Z := 0x00000020.
Definition UINET_SO_LINGER : Z := 0x00000080.
Definition UINET_SO_OOBINLINE : Z := 0x00000100.
Definition UINET_SO_SNDBUF : Z := 0x1001.
Definition UINET_SO_RCVBUF : Z := 0x1002.
Definition UINET_SO_ERROR : Z := 0x1007.
Definition UINET_SO_TYPE : Z := 0x1008.

Definition UINET_TCP_NODELAY : Z := 0x01.
Definition UINET_TCP_MAXSEG : Z := 0x02.
Definition UINET_TCP_MD5SIG : Z := 0x10.
Definition UINET_TCP_INFO : Z := 0x20.
Definition UINET_TCP_CONGESTION : Z := 0x40.
Definition UINET_TCP_KEEPIDLE : Z := 0x100.
Definition UINET_TCP_KEEPINTVL : Z := 0x200.
Definition UINET_TCP_KEEPCNT : Z := 0x400.

(** ** Flags and options *)

(** [map_flags]. *)
Definition map_flags (flags : Z) : Z :=
  let '(flags, ret) :=
    if has_flag flags MSG_DONTWAIT
    then (clear_flag flags MSG_DONTWAIT, Z.lor 0 UINET_MSG_DONTWAIT)
    else (flags, 0) in
  if negb (flags =? 0) then -1 else ret.

(** [static unsigned int ud_soopts[30]]; elements without an initialiser are 0. *)
Definition ud_soopts : list Z :=
  [ 0; UINET_SO_DEBUG; UINET_SO_REUSEADDR; UINET_SO_TYPE; UINET_SO_ERROR;
    UINET_SO_DONTROUTE; UINET_SO_BROADCAST; UINET_SO_SNDBUF; UINET_SO_RCVBUF;
    UINET_SO_KEEPALIVE; UINET_SO_OOBINLINE; 0; 0; UINET_SO_LINGER ]
  ++ replicate 16 0.

(** [static unsigned int ud_tcpopts[31]]. *)
Definition ud_tcpopts : list Z :=
  [ 0; UINET_TCP_NODELAY; UINET_TCP_MAXSEG; 0; UINET_TCP_KEEPIDLE;
    UINET_TCP_KEEPINTVL; UINET_TCP_KEEPCNT; 0; 0; 0; 0; UINET_TCP_INFO; 0;
    UINET_TCP_CONGESTION; UINET_TCP_MD5SIG; 0; 0 ]
  ++ replicate 14 0.

(** [sizeof(ud_tcpopts)], in bytes. *)
Definition sizeof_tcpopts : Z := 4 * Z.of_nat (length ud_tcpopts).

(** [table[opt]] after the test [opt > sizeof(ud_tcpopts)], a comparison of
    [size_t]s; [None] is the jump to [ERR]. *)
Definition opt_lookup (table : list Z) (opt : Z) : result (option Z) :=
  if u64 opt >? sizeof_tcpopts then Ok None
  else match table !! Z.to_nat opt with
       | None => Fault OutOfBounds
       | Some v => Ok (if v =? 0 then None else Some v)
       end.

(** [ud_maplevelopt]: the return value and the new [*level] and [*opt]. *)
Definition ud_maplevelopt (level opt : Z) : result (Z * Z * Z) :=
  if level =? 1 then
    r ← opt_lookup ud_soopts opt;
    match r with
    | None => Ok (-1, UINET_SOL_SOCKET, opt)
    | Some o => Ok (0, UINET_SOL_SOCKET, o)
    end
  else if level =? 6 then
    r ← opt_lookup ud_tcpopts opt;
    match r with
    | None => Ok (-1, UINET_SOL_SOCKET, opt)
    | Some o => Ok (0, UINET_SOL_SOCKET, o)
    end
  else Ok (0, level, opt).

(** ** Addresses *)

(** [struct sockaddr_in] of the host. *)
Record lin_sockaddr_in : Type := { l_family : Z; l_port : Z; l_addr : Z }.

(** The conversion of the host's address the calls open-code:
    [sizeof(struct uinet_sockaddr)] is 16 and [sin_family] is 8 bits wide. *)
Definition to_uaddr (a : lin_sockaddr_in) : sockaddr_in :=
  {| sin_len := 16; sin_family := u8 (l_family a); sin_port := l_port a;
     sin_addr := l_addr a |}.

Definition of_uaddr (u : sockaddr_in) : lin_sockaddr_in :=
  {| l_family := sin_family u; l_port := sin_port u; l_addr := sin_addr u |}.

(** [sizeof(struct sockaddr_in)]. *)
Definition sizeof_sockaddr_in : Z := 16.

(** ** The process *)

(** The state the calls work on: the descriptor table, [errno] and the stack. *)
Record world (R : Type) : Type := mk_world {
  w_fds : ud_fds_table; w_errno : Z; w_kern : kernel R
}.
Arguments w_fds {R}.
Arguments w_errno {R}.
Arguments w_kern {R}.
Arguments mk_world {R}.

Section Calls.
Context {R : Type} `{!KernSocket R}.

Abbreviation W := (M (world R)).

(** A call into the stack. *)
Definition kern {A} (m : M (kernel R) A) : W A := fun w =>
  match m (w_kern w) with
  | Ok (a, k') => Ok (a, mk_world (w_fds w) (w_errno w) k')
  | Fault f => Fault f
  end.

Definition set_errno (e : Z) : W unit :=
  modify (fun w => mk_world (w_fds w) e (w_kern w)).

(** [ud_set_errno(error)]. *)
Definition do_set_errno (error : Z) : W unit := fun w =>
  match ud_set_errno error (w_errno w) with
  | Ok e => Ok (tt, mk_world (w_fds w) e (w_kern w))
  | Fault f => Fault f
  end.

Definition get_sock (fd : Z) : W (option nat) := fun w =>
  match ud_fd_get_sock fd (w_fds w) with
  | Ok p => Ok (p, w)
  | Fault f => Fault f
  end.

Definition set_sock (so : option nat) : W Z := fun w =>
  match ud_fd_set_sock so (w_fds w) with
  | Ok (fd, t) => Ok (fd, mk_world t (w_errno w) (w_kern w))
  | Fault f => Fault f
  end.

Definition free_fd (fd : Z) : W unit := fun w =>
  match ud_fd_free fd (w_fds w) with
  | Ok t => Ok (tt, mk_world t (w_errno w) (w_kern w))
  | Fault f => Fault f
  end.

(** [errno = EBADF; goto ERR]. *)
Definition err_ebadf : W Z := _ ← set_errno EBADF; mret (-1).

(** ** ud_socket.c *)

Definition ud_socket (domain type protocol : Z) : W Z :=
  '(error, so) ← kern (uinet_socreate domain type 0);
  if error =? 0 then set_sock so else mret error.

(** [fuel] bounds the wakeups of a blocking accept.  The address the stack
    returns is stored in the parameter [addr] itself and not in the caller's
    buffer. *)
Definition ud_accept (fuel : nat) (sockfd : Z) : W Z :=
  so ← get_sock sockfd;
  match so with
  | None => mret (-1)
  | Some _ =>
      '(error, _, newso) ← kern (uinet_soaccept fuel so true);
      if error =? 0 then set_sock newso else mret error
  end.

Definition ud_bind (sockfd : Z) (addr : option lin_sockaddr_in) : W Z :=
  so ← get_sock sockfd;
  iaddr ← liftR (deref addr);
  let uaddr := to_uaddr iaddr in
  match so with
  | Some _ => kern (uinet_sobind so uaddr)
  | None => mret (-1)
  end.

Definition ud_connect (fuel : nat) (sockfd : Z) (addr : option lin_sockaddr_in) : W Z :=
  so ← get_sock sockfd;
  match so with
  | None => err_ebadf
  | Some _ =>
      iaddr ← liftR (deref addr);
      kern (uinet_soconnect fuel so (to_uaddr iaddr))
  end.

(** The one-element [uio] the calls prepare for a buffer. *)
Definition mk_uio (buf len : Z) : uinet_uio :=
  {| uio_iov := [{| iov_base := buf; iov_len := len |}]; uio_iovcnt := 1;
     uio_offset := 0; uio_resid := s64 len |}.

(** [(len - uio.uio_resid)] returned as [ssize_t]. *)
Definition transferred (len : Z) (uio : uinet_uio) : Z := s64 (len - uio_resid uio).

(** What a receive call stores through its pointer arguments. *)
Record from_out : Type := { o_from : lin_sockaddr_in; o_fromlen : Z }.

(** [ud_recvfrom]; [from] and [fromlen] say whether those pointers are not NULL.
    The result is the return value and what was stored through them. *)
Definition ud_recvfrom (sockfd buf len flags : Z) (from fromlen : bool)
    : W (Z * option from_out) :=
  so ← get_sock sockfd;
  match so with
  | None => _ ← set_errno EBADF; mret (-1, None)
  | Some _ =>
      let uio := mk_uio buf len in
      let flags := map_flags flags in
      if flags <? 0 then _ ← do_set_errno UINET_EINVAL; mret (-1, None)
      else
        '(error, uaddr, uio) ← kern (uinet_soreceive so uio flags);
        if negb (error =? 0) then _ ← do_set_errno error; mret (-1, None)
        else
          out ← (match from, uaddr with
                 | true, Some u =>
                     if fromlen
                     then mret (Some {| o_from := of_uaddr u;
                                        o_fromlen := sizeof_sockaddr_in |})
                     else faultM NullDeref
                 | _, _ => mret None
                 end);
          _ ← set_errno 0;
          mret (transferred len uio, out)
  end.

Definition ud_recv (sockfd buf len flags : Z) : W Z :=
  '(n, _) ← ud_recvfrom sockfd buf len flags false false; mret n.

Definition ud_listen (sockfd backlog : Z) : W Z :=
  so ← get_sock sockfd;
  match so with
  | None => err_ebadf
  | Some _ => kern (uinet_solisten so backlog)
  end.

(** The common part of [ud_send] and [ud_sendto]. *)
Definition send_uio (sockfd : Z) (uaddr : option sockaddr_in) (len : Z)
    (uio : uinet_uio) (flags : Z) : W Z :=
  let flags := map_flags flags in
  if flags <? 0 then _ ← do_set_errno UINET_EINVAL; mret (-1)
  else
    so ← get_sock sockfd;
    '(error, uio) ← kern (uinet_sosend so uaddr uio flags);
    if negb (error =? 0) then _ ← do_set_errno error; mret (-1)
    else _ ← set_errno 0; mret (transferred len uio).

Definition ud_send (sockfd buf len flags : Z) : W Z :=
  send_uio sockfd None len (mk_uio buf len) flags.

Definition ud_sendto (sockfd buf len flags : Z) (addr : option lin_sockaddr_in) : W Z :=
  iaddr ← liftR (deref addr);
  send_uio sockfd (Some (to_uaddr iaddr)) len (mk_uio buf len) flags.

Definition ud_setsockopt (sockfd level optname : Z) (optval : list Z) (optlen : Z) : W Z :=
  so ← get_sock sockfd;
  match so with
  | None => err_ebadf
  | Some _ =>
      '(rc, level, optname) ← liftR (ud_maplevelopt level optname);
      if rc <? 0 then mret (-1)
      else
        error ← kern (uinet_sosetsockopt so level optname optval optlen);
        if negb (error =? 0) then _ ← do_set_errno UINET_EINVAL; mret (-1)
        else mret error
  end.

(** The result is the return value and, when the stack was asked, the option
    value and length it stored. *)
Definition ud_getsockopt (sockfd level optname optlen : Z)
    : W (Z * option (list Z * Z)) :=
  so ← get_sock sockfd;
  match so with
  | None => _ ← set_errno EBADF; mret (-1, None)
  | Some _ =>
      '(rc, level, optname) ← liftR (ud_maplevelopt level optname);
      if rc <? 0 then mret (-1, None)
      else
        '(error, optval, len') ← kern (uinet_sogetsockopt so level optname optlen);
        if negb (error =? 0) then _ ← do_set_errno UINET_EINVAL; mret (-1, Some (optval, len'))
        else mret (error, Some (optval, len'))
  end.

Definition ud_shutdown (sockfd how : Z) : W Z := mret (-1).

(** [ud_getpeername]; [addr] says whether the pointer is not NULL.  The address
    asked for is the socket's own, and [addrlen] is assigned as a pointer, so
    nothing is stored through it. *)
Definition ud_getpeername (sockfd : Z) (addr : bool) : W (Z * option lin_sockaddr_in) :=
  so ← get_sock sockfd;
  match so with
  | None => _ ← set_errno EBADF; mret (-1, None)
  | Some _ =>
      '(error, uaddr) ← kern (uinet_sogetsockaddr so);
      if negb (error =? 0) then mret (-1, None)
      else match addr, uaddr with
           | true, Some u => mret (0, Some (of_uaddr u))
           | _, _ => mret (0, None)
           end
  end.

Definition ud_getsockname (sockfd : Z) (addr addrlen : bool) : W (Z * option from_out) :=
  so ← get_sock sockfd;
  match so with
  | None => _ ← set_errno EBADF; mret (-1, None)
  | Some _ =>
      '(error, uaddr) ← kern (uinet_sogetsockaddr so);
      if negb (error =? 0) then mret (-1, None)
      else match addr, uaddr with
           | true, Some u =>
               if addrlen
               then mret (0, Some {| o_from := of_uaddr u;
                                     o_fromlen := sizeof_sockaddr_in |})
               else faultM NullDeref
           | _, _ => mret (0, None)
           end
  end.

(** ** ud_unistd.c *)

Definition ud_write (fd buf count : Z) : W Z := ud_send fd buf count 0.

Definition ud_read (fd buf count : Z) : W Z :=
  '(n, _) ← ud_recvfrom fd buf count 0 false false; mret n.

(** [ud_fcntl]: the command is not looked at, and the success path falls through
    to the label [ERR]. *)
Definition ud_fcntl (fd cmd : Z) : W Z :=
  so ← get_sock fd;
  match so with
  | None => err_ebadf
  | Some _ => _ ← kern (uinet_sosetnonblocking so 1); mret (-1)
  end.

Definition ud_close (sockfd : Z) : W Z :=
  so ← get_sock sockfd;
  _ ← free_fd sockfd;
  kern (uinet_soclose so).

(** ** Lemmas *)

Lemma get_sock_open fd w so :
  0 <= fd < UD_SOCKET_DESC_MAX → fds (w_fds w) !! fd = Some so →
  get_sock fd w = Ok (Some so, w).
Proof.
  intros Hfd H. unfold get_sock, ud_fd_get_sock, fds_read.
  by rewrite in_bounds_true, H.
Qed.

Lemma get_sock_closed fd w :
  0 <= fd < UD_SOCKET_DESC_MAX → fds (w_fds w) !! fd = None →
  get_sock fd w = Ok (None, w).
Proof.
  intros Hfd H. unfold get_sock, ud_fd_get_sock, fds_read.
  by rewrite in_bounds_true, H.
Qed.

End Calls.

(** Which flags the calls accept: no flag, or [MSG_DONTWAIT] alone. *)
Lemma map_flags_spec flags :
  map_flags flags = if flags =? 0 then 0
                    else if flags =? MSG_DONTWAIT then UINET_MSG_DONTWAIT else -1.
Proof.
  unfold map_flags. change MSG_DONTWAIT with (2 ^ 6).
  destruct (has_flag flags (2 ^ 6)) eqn:Hf.
  - destruct (clear_flag flags (2 ^ 6) =? 0) eqn:E; bool_to_prop.
    + apply clear_flag_zero in E; [| lia | done]. by rewrite E.
    + destruct (flags =? 0) eqn:E0; bool_to_prop; [by subst |].
      destruct (flags =? 2 ^ 6) eqn:E1; bool_to_prop; [by subst | done].
  - destruct (flags =? 0) eqn:E0; bool_to_prop; [by subst |].
    destruct (flags =? 2 ^ 6) eqn:E1; bool_to_prop; [by subst | done].
Qed.

(** ** What the stack promises about a transfer *)

Section Descriptors.
Context {R : Type} `{!KernSocket R}.

(** [C22] The life of a descriptor: when a descriptor is free and the stack creates
    a socket, [ud_socket] returns the lowest free descriptor bound to it; and
    closing that descriptor, whatever happened to the stack and to [errno] in
    between, closes that socket and gives back the table [ud_socket] started
    from. *)
Theorem ud_socket_close domain type protocol (w : world R) so k1 :
  has_free (w_fds w) → socreate domain type 0 (w_kern w) = Ok ((0, Some so), k1) →
  ∃ fd t, lowest_free (fds (w_fds w)) fd ∧
    ud_socket domain type protocol w = Ok (fd, mk_world t (w_errno w) k1) ∧
    ∀ errno k2, ud_close fd (mk_world t errno k2) =
      match soclose so k2 with
      | Ok (error, k3) => Ok (error, mk_world (w_fds w) errno k3)
      | Fault f => Fault f
      end.
Proof.
  intros Hfree Hc. pose proof (has_free_lowest _ Hfree) as Hlow.
  pose proof Hlow as (Hr & Hnone & _).
  exists (ud_fd_get_free (w_fds w)).
  exists {| num := num (w_fds w);
            fds := <[ud_fd_get_free (w_fds w) := so]> (fds (w_fds w)) |}.
  split_and!; [done | |].
  - unfold ud_socket, uinet_socreate, kern, set_sock, mbind, M_bind. rewrite Hc. simpl.
    by rewrite ud_fd_set_sock_eq.
  - intros errno k2. unfold ud_close, mbind, M_bind.
    rewrite (get_sock_open _ _ so) by (simpl; rewrite ?lookup_insert_eq; lia || done).
    unfold free_fd, ud_fd_free. rewrite fds_write_ok by (simpl; lia). simpl.
    unfold kern, uinet_soclose, nonnull, liftR, mbind, M_bind. simpl.
    assert (partial_alter (fun _ => None) (ud_fd_get_free (w_fds w))
              (<[ud_fd_get_free (w_fds w) := so]> (fds (w_fds w))) = fds (w_fds w)) as ->.
    { exact (delete_insert_id _ _ _ Hnone). }
    destruct (soclose so k2) as [[e k3] |]; [| done]. by destruct (w_fds w).
Qed.

(** A non-blocking [ud_accept] with no connection waiting does not report
    an error the way the interface documents (-1): it returns the stack's error
    number 35, which is also a descriptor a successful call can return, and
    leaves [errno] alone. *)
Theorem ud_accept_wouldblock fuel sockfd (w : world R) so s :
  0 <= sockfd < UD_SOCKET_DESC_MAX → fds (w_fds w) !! sockfd = Some so →
  socks (w_kern w) !! so = Some s → has_flag (so_state s) SS_NBIO = true →
  so_comp s = [] → soup_accept s = None →
  ud_accept fuel sockfd w = Ok (UINET_EWOULDBLOCK, w) ∧
  1 <= UINET_EWOULDBLOCK < UD_SOCKET_DESC_MAX.
Proof.
  intros Hfd Hso Hs Hnb Hq Hup.
  split; [| unfold UINET_EWOULDBLOCK, UINET_EAGAIN, UD_SOCKET_DESC_MAX; lia].
  unfold ud_accept, mbind, M_bind. rewrite (get_sock_open _ _ so) by done.
  unfold kern, uinet_soaccept, nonnull, liftR, load, mbind, M_bind. simpl.
  rewrite Hs, Hnb, Hq. simpl. rewrite Hup. by destruct w as [? ? []].
Qed.

(** [ud_getpeername] reports the socket's own address: it answers exactly
    as [ud_getsockname] does, never with what [uinet_sogetpeeraddr] would give. *)
Lemma ud_getpeername_is_sockname sockfd (w : world R) :
  ud_getpeername sockfd true w =
    match ud_getsockname sockfd true true w with
    | Ok ((rc, out), w') => Ok ((rc, o_from <$> out), w')
    | Fault f => Fault f
    end.
Proof.
  unfold ud_getpeername, ud_getsockname, mbind, M_bind.
  destruct (get_sock sockfd w) as [[[so|] w1] |]; [| done | done].
  destruct (kern _ w1) as [[[e [u|]] w2] |]; simpl; [| | done];
    destruct (e =? 0); reflexivity.
Qed.

(** Options of the TCP level reach the stack as socket-level options: an
    option number with a translation is passed at [SOL_SOCKET], so that
    [TCP_NODELAY] sets [SO_DEBUG]; a number above the table but not above its
    size in bytes reads past the table's end. *)
Theorem ud_setsockopt_tcp sockfd opt optval optlen (w : world R) so v :
  0 <= sockfd < UD_SOCKET_DESC_MAX → fds (w_fds w) !! sockfd = Some so → 0 <= opt →
  (ud_tcpopts !! Z.to_nat opt = Some v → v ≠ 0 →
   ud_setsockopt sockfd 6 opt optval optlen w =
     (match so_setsockopt so SOL_SOCKET v optval optlen (w_kern w) with
      | Ok (error, k') =>
          if error =? 0 then Ok (0, mk_world (w_fds w) (w_errno w) k')
          else Ok (-1, mk_world (w_fds w) EINVAL k')
      | Fault f => Fault f
      end)) ∧
  (ud_tcpopts !! Z.to_nat opt = None → opt <= 124 →
   ud_setsockopt sockfd 6 opt optval optlen w = Fault OutOfBounds).
Proof.
  intros Hfd Hso Hopt. unfold ud_setsockopt, mbind, M_bind.
  rewrite (get_sock_open _ _ so) by done.
  unfold ud_maplevelopt, opt_lookup. change (6 =? 1) with false. change (6 =? 6) with true.
  assert (sizeof_tcpopts = 124) as -> by reflexivity. cbv iota. split.
  - intros Hl Hv. assert (opt < 31) as Hlt by (apply lookup_lt_Some in Hl; simpl in Hl; lia).
    rewrite wrap_u_id by (simpl; lia).
    assert (opt >? 124 = false) as -> by (rewrite Z.gtb_ltb; apply Z.ltb_ge; lia).
    rewrite Hl. unfold liftR. simpl. rewrite (proj2 (Z.eqb_neq v 0)) by done. simpl.
    unfold kern, uinet_sosetsockopt, nonnull, liftR, mbind, M_bind. simpl.
    destruct (so_setsockopt _ _ _ _ _ _) as [[error k'] |]; [| done].
    destruct (error =? 0) eqn:E; bool_to_prop; simpl; [by subst | reflexivity].
  - intros Hl Hle. rewrite wrap_u_id by (simpl; lia).
    assert (opt >? 124 = false) as -> by (rewrite Z.gtb_ltb; apply Z.ltb_ge; lia).
    by rewrite Hl.
Qed.

End Descriptors.

(** ** Witnesses *)

#[local] Existing Instance small_kernel.

(** Descriptor 1 is connected, descriptor 2 is a non-blocking listener. *)
Definition ex_world : world unit :=
  mk_world {| num := 0; fds := {[1 := 10%nat; 2 := 11%nat]} |} 0
    (mk_kernel {[10%nat := fresh_socket SS_ISCONNECTED; 11%nat := fresh_socket SS_NBIO]} tt).

Lemma ud_socket_close_witness :
  ∃ fd t, lowest_free (fds (w_fds ex_world)) fd ∧
    ud_socket 2 1 0 ex_world =
      Ok (fd, mk_world t 0 (mk_kernel (<[fresh (dom (socks (w_kern ex_world))) := fresh_socket 0]>
                                         (socks (w_kern ex_world))) tt)) ∧
    ∀ errno k2, ud_close fd (mk_world t errno k2) =
      match soclose (fresh (dom (socks (w_kern ex_world)))) k2 with
      | Ok (error, k3) => Ok (error, mk_world (w_fds ex_world) errno k3)
      | Fault f => Fault f
      end.
Proof.
  refine (ud_socket_close 2 1 0 ex_world (fresh (dom (socks (w_kern ex_world)))) _ _ _).
  - exists 3. split; [unfold UD_SOCKET_DESC_MAX; lia | reflexivity].
  - reflexivity.
Defined.

Lemma ud_accept_wouldblock_witness :
  ud_accept 0 2 ex_world = Ok (UINET_EWOULDBLOCK, ex_world) ∧
  1 <= UINET_EWOULDBLOCK < UD_SOCKET_DESC_MAX.
Proof.
  refine (ud_accept_wouldblock 0 2 ex_world 11%nat (fresh_socket SS_NBIO) _ _ _ _ _ _);
    [unfold UD_SOCKET_DESC_MAX; lia | reflexivity ..].
Defined.

Lemma ud_setsockopt_tcp_witness :
  ud_setsockopt 1 6 1 [1] 4 ex_world = Ok (0, ex_world) ∧
  ud_setsockopt 1 6 100 [1] 4 ex_world = Fault OutOfBounds.
Proof.
  split.
  - refine (proj1 (ud_setsockopt_tcp 1 1 [1] 4 ex_world 10%nat UINET_TCP_NODELAY _ _ _) _ _);
      [unfold UD_SOCKET_DESC_MAX; lia | reflexivity | lia | reflexivity | discriminate].
  - refine (proj2 (ud_setsockopt_tcp 1 100 [1] 4 ex_world 10%nat 0 _ _ _) _ _);
      [unfold UD_SOCKET_DESC_MAX; lia | reflexivity | lia | reflexivity | lia].
Defined.

End UdSocket.
