(* ===== verification/UdSelect.v ===== *)
(** [ud_select] (src/src/lib/libudsock/ud_select.c): one pass over the
    descriptors, the restarts, and what the caller's sets hold afterwards. *)
From S2P Require Import Prelude UdFile Errno UinetSock UdSocket.
Import UdFile Errno UinetSock UdSocket.

Module UdSelect.

(** [fd_set]: a bit per descriptor below [FD_SETSIZE]. *)
Definition FD_SETSIZE : Z := 1024.
Abbreviation fd_set := (gset Z).

Definition FD_ISSET (i : Z) (s : fd_set) : result bool :=
  if (0 <=? i) && (i <? FD_SETSIZE) then Ok (bool_decide (i ∈ s)) else Fault OutOfBounds.

Definition FD_SET (i : Z) (s : fd_set) : fd_set := {[i]} ∪ s.

Section Select.
Context {R : Type}.

(** [clock_nanosleep(CLOCK_REALTIME, 0, timeout, NULL)] of the host: it is given
    the seconds and the nanoseconds of its argument, and other threads run. *)
Variable clock_nanosleep : Z → Z → M (kernel R) Z.

Abbreviation W := (M (world R)).

(** What one pass accumulates. *)
Record pass : Type := { retval : Z; res_read : fd_set; res_write : fd_set }.

(** One of the two tests of the loop body: the descriptor is in the caller's set
    and its socket is ready.  [None] is the jump to [ERR]. *)
Definition test_fd (i : Z) (set : option fd_set) (ready : option nat → M (kernel R) Z)
    : W (option bool) :=
  match set with
  | None => mret (Some false)
  | Some s =>
      b ← liftR (FD_ISSET i s);
      if (b : bool) then
        so ← get_sock i;
        match so with
        | None => _ ← set_errno EBADF; mret None
        | Some _ => v ← kern (ready so); mret (Some (v >? 0))
        end
      else mret (Some false)
  end.

(** The loop [for(i = 0; i < nfds; i++)]: [n] iterations are left. *)
Fixpoint scan (n : nat) (i : Z) (readfds writefds : option fd_set) (p : pass)
    : W (option pass) :=
  match n with
  | O => mret (Some p)
  | S n' =>
      r ← test_fd i readfds uinet_soreadable;
      match r with
      | None => mret None
      | Some rb =>
          let p := if (rb : bool)
                   then {| retval := retval p + 1; res_read := FD_SET i (res_read p);
                           res_write := res_write p |}
                   else p in
          wr ← test_fd i writefds uinet_sowritable;
          match wr with
          | None => mret None
          | Some wb =>
              let p := if (wb : bool)
                       then {| retval := retval p + 1; res_read := res_read p;
                               res_write := FD_SET i (res_write p) |}
                       else p in
              scan n' (i + 1) readfds writefds p
          end
      end
  end.

(** [memcpy(readfds, &res_read, sizeof(fd_set))]. *)
Definition copy_out (dst : option fd_set) (src : fd_set) : result (option fd_set) :=
  match dst with Some _ => Ok (Some src) | None => Fault NullDeref end.

(** [ud_select]: the return value and the caller's two sets afterwards.
    [restarts] bounds the jumps to [RESTART] of the variant without a timeout. *)
Fixpoint select_loop (restarts : nat) (nfds : Z) (readfds writefds : option fd_set)
    (timeout : option (Z * Z)) (restarted : bool) (p : pass)
    : W (Z * option fd_set * option fd_set) :=
  r ← scan (Z.to_nat nfds) 0 readfds writefds p;
  match r with
  | None => mret (-1, readfds, writefds)
  | Some p =>
      match timeout with
      | None =>
          if retval p =? 0 then
            match restarts with
            | O => faultM Blocked
            | S restarts' =>
                select_loop restarts' nfds readfds writefds timeout restarted p
            end
          else
            (* a null timeout would be dereferenced only when retval is 0 *)
            rd ← liftR (copy_out readfds (res_read p));
            wr ← liftR (copy_out writefds (res_write p));
            mret (retval p, rd, wr)
      | Some (tv_sec, tv_usec) =>
          if negb restarted && (retval p =? 0) &&
             (negb (tv_sec =? 0) || negb (tv_usec =? 0)) then
            e ← kern (clock_nanosleep tv_sec tv_usec);
            if negb (e =? 0) then mret (-1, readfds, writefds)
            else
              match restarts with
              | O => faultM Blocked
              | S restarts' =>
                  select_loop restarts' nfds readfds writefds timeout true p
              end
          else if retval p >? 0 then
            rd ← liftR (copy_out readfds (res_read p));
            wr ← liftR (copy_out writefds (res_write p));
            mret (retval p, rd, wr)
          else mret (retval p, readfds, writefds)
      end
  end.

Definition ud_select (restarts : nat) (nfds : Z) (readfds writefds : option fd_set)
    (timeout : option (Z * Z)) : W (Z * option fd_set * option fd_set) :=
  select_loop restarts nfds readfds writefds timeout false
    {| retval := 0; res_read := ∅; res_write := ∅ |}.

(** ** Lemmas *)

(** The socket of descriptor [i] is there and [f] says it is ready. *)
Definition readyb (f : socket → Z) (w : world R) (i : Z) : bool :=
  match fds (w_fds w) !! i with
  | Some so => match socks (w_kern w) !! so with Some s => f s >? 0 | None => false end
  | None => false
  end.

(** Every descriptor of the set is open on a live socket. *)
Definition fds_ok (w : world R) (nfds : Z) (s : fd_set) : Prop :=
  ∀ i, 0 <= i < nfds → i ∈ s →
    ∃ so st, fds (w_fds w) !! i = Some so ∧ socks (w_kern w) !! so = Some st.

(** The ready members of [s] from [i] on, [n] descriptors far. *)
Definition ready_list (f : socket → Z) (w : world R) (s : fd_set) (i n : Z) : list Z :=
  filter (fun j => j ∈ s ∧ readyb f w j = true) (seqZ i n).

(** The ready members of [s] below [nfds]. *)
Definition ready_set (f : socket → Z) (w : world R) (nfds : Z) (s : fd_set) : fd_set :=
  list_to_set (ready_list f w s 0 nfds).

Lemma elem_of_ready_set f w nfds s i :
  i ∈ ready_set f w nfds s ↔ 0 <= i < nfds ∧ i ∈ s ∧ readyb f w i = true.
Proof.
  unfold ready_set, ready_list. rewrite elem_of_list_to_set, list_elem_of_filter, elem_of_seqZ.
  intuition lia.
Qed.

Lemma size_ready_set f w nfds s :
  size (ready_set f w nfds s) = length (ready_list f w s 0 nfds).
Proof. apply size_list_to_set, NoDup_filter, NoDup_seqZ. Qed.

Lemma ready_list_cons f w s i n :
  0 <= n →
  ready_list f w s i (Z.succ n) =
    (if bool_decide (i ∈ s) && readyb f w i then [i] else []) ++ ready_list f w s (i + 1) n.
Proof.
  intros Hn. unfold ready_list. rewrite seqZ_cons, Z.pred_succ by lia.
  rewrite filter_cons. replace (Z.succ i) with (i + 1) by lia.
  destruct (bool_decide (i ∈ s)) eqn:E1; destruct (readyb f w i) eqn:E2;
    bool_to_prop; simpl; case_decide; naive_solver.
Qed.

Lemma test_fd_spec ready f i s w nfds :
  (∀ so st k, socks k !! so = Some st → ready (Some so) k = Ok (f st, k)) →
  0 <= i < nfds → nfds <= FD_SETSIZE → fds_ok w nfds s →
  test_fd i (Some s) ready w = Ok (Some (bool_decide (i ∈ s) && readyb f w i), w).
Proof.
  intros Hready Hi Hn Hok. unfold test_fd, mbind, M_bind, liftR, FD_ISSET.
  destruct (0 <=? i) eqn:E1, (i <? FD_SETSIZE) eqn:E2; bool_to_prop; try lia. simpl.
  destruct (bool_decide (i ∈ s)) eqn:E3; bool_to_prop; simpl; [| done].
  destruct (Hok i) as (so & st & H1 & H2); [lia | done |].
  unfold get_sock, ud_fd_get_sock, fds_read.
  rewrite in_bounds_true by (unfold UD_SOCKET_DESC_MAX, FD_SETSIZE in *; lia).
  rewrite H1. unfold kern. rewrite (Hready so st) by done. simpl.
  unfold mret, M_ret, readyb. rewrite H1, H2. by destruct w as [? ? []].
Qed.

Lemma soreadable_ready so st (k : kernel R) :
  socks k !! so = Some st → uinet_soreadable (Some so) k = Ok (soreadable st, k).
Proof.
  intros H. unfold uinet_soreadable, nonnull, liftR, load, mbind, M_bind. simpl. by rewrite H.
Qed.

Lemma sowritable_ready so st (k : kernel R) :
  socks k !! so = Some st → uinet_sowritable (Some so) k = Ok (sowritable st, k).
Proof.
  intros H. unfold uinet_sowritable, nonnull, liftR, load, mbind, M_bind. simpl. by rewrite H.
Qed.

(** Marking the [l] descriptors as ready in a result set. *)
Lemma list_to_set_snoc_union (b : bool) (i : Z) (l : list Z) (acc : fd_set) :
  list_to_set l ∪ (if b then FD_SET i acc else acc) =
  list_to_set ((if b then [i] else []) ++ l) ∪ acc.
Proof. unfold FD_SET. destruct b; simpl; [| done]. set_solver. Qed.

Lemma scan_spec n i rd wr p w nfds :
  0 <= i → i + Z.of_nat n <= nfds → nfds <= FD_SETSIZE → fds_ok w nfds rd → fds_ok w nfds wr →
  scan n i (Some rd) (Some wr) p w =
    Ok (Some {| retval := retval p
                  + Z.of_nat (length (ready_list soreadable w rd i (Z.of_nat n)))
                  + Z.of_nat (length (ready_list sowritable w wr i (Z.of_nat n)));
                res_read := list_to_set (ready_list soreadable w rd i (Z.of_nat n)) ∪ res_read p;
                res_write := list_to_set (ready_list sowritable w wr i (Z.of_nat n)) ∪ res_write p
             |}, w).
Proof.
  revert i p; induction n as [|n IH]; intros i p Hi Hb Hn Hrd Hwr.
  { simpl. unfold mret, M_ret. repeat f_equal. destruct p as [rv rr rw]; simpl.
    f_equal; [lia | set_solver | set_solver]. }
  rewrite Nat2Z.inj_succ, !ready_list_cons by lia. cbn [scan].
  unfold mbind at 1, M_bind at 1.
  rewrite (test_fd_spec _ soreadable _ _ _ nfds) by (lia || apply soreadable_ready || done).
  unfold mbind at 1, M_bind at 1.
  rewrite (test_fd_spec _ sowritable _ _ _ nfds) by (lia || apply sowritable_ready || done).
  rewrite IH by (lia || done).
  set (b1 := bool_decide (i ∈ rd) && _). set (b2 := bool_decide (i ∈ wr) && _).
  do 3 f_equal. rewrite !length_app, !Nat2Z.inj_add.
  destruct b1, b2; cbn [retval res_read res_write length app]; f_equal;
    try lia; unfold FD_SET; set_solver.
Qed.

(** [C23] [ud_select] with a read set and a write set, both given (not NULL: for a NULL set
    the code copies to the null pointer when it returns), of descriptors that are all open,
    when one is ready: whatever the timeout, it returns after one pass with the number of ready descriptors of
    the two sets, the sets hold exactly the ready ones, and nothing else of the
    process changes. *)
Theorem ud_select_ready restarts nfds (rd wr : fd_set) timeout (w : world R) :
  0 <= nfds <= FD_SETSIZE → fds_ok w nfds rd → fds_ok w nfds wr →
  ready_set soreadable w nfds rd ∪ ready_set sowritable w nfds wr ≠ ∅ →
  ud_select restarts nfds (Some rd) (Some wr) timeout w =
    Ok ((Z.of_nat (size (ready_set soreadable w nfds rd))
         + Z.of_nat (size (ready_set sowritable w nfds wr)),
         Some (ready_set soreadable w nfds rd), Some (ready_set sowritable w nfds wr)), w).
Proof.
  intros Hn Hrd Hwr Hne. rewrite !size_ready_set. unfold ready_set in *.
  set (lr := ready_list soreadable w rd 0 nfds) in *.
  set (lw := ready_list sowritable w wr 0 nfds) in *.
  assert (0 < Z.of_nat (length lr) + Z.of_nat (length lw)) as Hpos.
  { destruct lr, lw; simpl in *; try lia. set_solver. }
  unfold ud_select. destruct restarts; cbn [select_loop]; unfold mbind at 1, M_bind at 1;
    rewrite (scan_spec _ _ _ _ _ _ nfds) by (lia || done); rewrite Z2Nat.id by lia;
    fold lr lw; cbn [retval res_read res_write]; rewrite !Z.add_0_l, !union_empty_r_L;
    destruct timeout as [[sec usec]|];
    (destruct (_ + _ =? 0) eqn:E0; bool_to_prop; [lia |]);
    rewrite ?andb_false_r; try rewrite (proj2 (Z.gtb_lt _ 0)) by lia; reflexivity.
Qed.

(** [ud_select] as a poll (a zero timeout) when no descriptor is ready
    returns 0 and leaves the caller's sets as they were passed, with the bits of
    descriptors that are not ready still set. *)
Theorem ud_select_poll_idle restarts nfds (rd wr : fd_set) (w : world R) :
  0 <= nfds <= FD_SETSIZE → fds_ok w nfds rd → fds_ok w nfds wr →
  ready_set soreadable w nfds rd ∪ ready_set sowritable w nfds wr = ∅ →
  ud_select restarts nfds (Some rd) (Some wr) (Some (0, 0)) w = Ok ((0, Some rd, Some wr), w).
Proof.
  intros Hn Hrd Hwr He.
  assert (size (ready_set soreadable w nfds rd) = 0%nat) as H1 by (apply size_empty_iff; set_solver).
  assert (size (ready_set sowritable w nfds wr) = 0%nat) as H2 by (apply size_empty_iff; set_solver).
  rewrite size_ready_set in H1, H2.
  unfold ud_select. destruct restarts; cbn [select_loop]; unfold mbind at 1, M_bind at 1;
    rewrite (scan_spec _ _ _ _ _ _ nfds) by (lia || done); rewrite Z2Nat.id by lia;
    cbn [retval]; rewrite H1, H2; reflexivity.
Qed.

End Select.

(** *** Witnesses: descriptor 1 has data to read, descriptor 2 has none. *)

Definition sock_data : socket :=
  {| so_count := 1; so_options := 0; so_state := SS_ISCONNECTED; so_qstate := 0;
     so_head := None; so_comp := []; so_qlen := 0; so_error := 0;
     so_rcv := {| sb_state := 0; sb_cc := 5; sb_hiwat := 100; sb_mbcnt := 0; sb_mbmax := 200 |};
     so_snd := empty_sockbuf 100; soup_accept := None; soup_accept_arg := 0;
     so_user_ctx := [0]; so_passive_peer := None |}.

Definition ex_world : world unit :=
  mk_world {| num := 0; fds := {[1 := 10%nat; 2 := 11%nat]} |} 0
    (mk_kernel {[10%nat := sock_data; 11%nat := fresh_socket 0]} tt).

Definition no_sleep : Z → Z → M (kernel unit) Z := fun _ _ k => Ok (0, k).

Lemma ex_world_ok (s : fd_set) : s ⊆ {[1; 2]} → fds_ok ex_world 3 s.
Proof.
  intros Hs i Hi Hin. assert (i = 1 ∨ i = 2) as [-> | ->] by set_solver.
  - exists 10%nat, sock_data. split; reflexivity.
  - exists 11%nat, (fresh_socket 0). split; reflexivity.
Qed.

Lemma ud_select_ready_witness :
  @ud_select unit no_sleep 0 3 (Some {[1; 2]}) (Some {[2]}) None ex_world =
    Ok ((1, Some {[1]}, Some ∅), ex_world).
Proof.
  refine (eq_trans (@ud_select_ready unit no_sleep 0 3 {[1; 2]} {[2]} None ex_world
            ltac:(unfold FD_SETSIZE; lia) (ex_world_ok _ _) (ex_world_ok _ _) _) _).
  - set_solver.
  - set_solver.
  - vm_compute. discriminate.
  - reflexivity.
Defined.

Lemma ud_select_poll_idle_witness :
  @ud_select unit no_sleep 0 3 (Some {[2]}) (Some {[2]}) (Some (0, 0)) ex_world =
    Ok ((0, Some {[2]}, Some {[2]}), ex_world).
Proof.
  refine (@ud_select_poll_idle unit no_sleep 0 3 {[2]} {[2]} ex_world
            ltac:(unfold FD_SETSIZE; lia) (ex_world_ok _ _) (ex_world_ok _ _) _).
  - set_solver.
  - set_solver.
  - reflexivity.
Defined.

End UdSelect.
