(* ===== verification/PktDesc.v ===== *)
(** Packet descriptors (src/src/lib/libuinet/uinet_pkt_desc.c and .h, the
    uinet_pd_* routines of uinet_api.c, and uinet_if_pd_timestamp of uinet_if.c):
    the table of descriptor pools, the mbuf-backed pool, reference counting with
    batched release, delivery to the stack, extensible lists.  Contexts, mbufs
    and reference counters are objects of a store, since a counter is shared by a
    descriptor context and the mbuf it wraps. *)
From S2P Require Import Prelude Errno.

Module PktDesc.

(** ** Constants *)

Definition UINET_PD_MAX_POOLS : Z := 32.
Definition UINET_PD_FREE_BATCH_SIZE : Z := 32.
Definition UINET_PD_XLIST_MAX_DESCS : Z := 16.
Definition UINET_PD_TYPE_MBUF : Z := 0x0001.
Definition UINET_PD_CTX_SINGLE_REF : Z := 0x0001.
Definition UINET_PD_CTX_MBUF_USED : Z := 0x0002.
Definition UINET_PD_INJECT : Z := 0x0010.
Definition UINET_PD_TO_STACK : Z := 0x0020.
Definition UINET_PD_DROP : Z := 0x0040.
Definition UINET_PD_EXTRA_REFS : Z := 0x0080.
Definition UINET_PD_MGMT_ONLY : Z := 0x0200.
Definition MCLBYTES : Z := 2048.
Definition M_EXT : Z := 0x00000001.
Definition M_PKTHDR : Z := 0x00000002.
Definition M_NOFREE : Z := 0x00040000.
Definition MT_DATA : Z := 1.
Definition EXT_PACKET : Z := 6.
Definition EXT_EXTREF : Z := 400.

(** ** Data *)

(** [struct uinet_pd]; [ctx] is the context it refers to. *)
Record uinet_pd : Type := {
  pd_flags : Z; pd_length : Z; pd_pool_id : Z; pd_ref : Z; pd_data : Z;
  pd_ctx : option nat; pd_serialno : Z
}.

(** [struct uinet_pd_ctx]; [refcnt] points to a counter. *)
Record uinet_pd_ctx : Type := {
  timestamp : Z; c_m : option nat; c_ref : Z; m_orig_len : Z; c_flags : Z;
  c_pool_id : Z; refcnt : nat
}.

(** Who is called when the last reference to external storage goes. *)
Inductive ext_free_fn : Type := PdMbufExtFree | DpdkFreeRteBuf | NetmapFree.

(** The fields of [struct mbuf] the descriptors use. *)
Record mbuf : Type := {
  m_next : option nat; m_nextpkt : option nat; m_data : Z; m_len : Z; m_flags : Z;
  m_type : Z; m_pkthdr_len : Z; m_rcvif : option nat; m_tags : list Z;
  ext_buf : Z; ext_type : Z; ext_free : option ext_free_fn;
  ext_arg1 : option nat; ext_arg2 : option nat; ext_ref_cnt : nat
}.

(** The [free] routine of a pool: the mbuf pool's, or that of another pool. *)
Inductive pool_free : Type := MbufFreeDescs | OtherFree.

(** [struct uinet_pd_pool_info]. *)
Record uinet_pd_pool_info : Type := {
  pool_type : Z; bufsize : Z; pool_ctx : Z; p_free : pool_free
}.

(** [struct uinet_pd_list]: [descs] is the whole array, [num_descs] the number
    of descriptors in use. *)
Record uinet_pd_list : Type := { num_descs : Z; descs : list uinet_pd }.

(** [struct uinet_pd_xlist]. *)
Record uinet_pd_xlist : Type := { x_next : option nat; x_list : uinet_pd_list }.

(** The store: contexts, counters, mbufs, the pool table, the contexts that are
    free in the zone [zone_pd_mbuf_ctx], the calls of a pool's [free] in order,
    the mbufs handed to [if_input], with the interface and what was in them, in order, and the
    extensible lists in use and free in [zone_pd_xlist]. *)
Record store : Type := mk_store {
  ctxs : gmap nat uinet_pd_ctx;
  cells : gmap nat Z;
  mbufs : gmap nat mbuf;
  pd_pool_table : list (option uinet_pd_pool_info);
  zone_pd_mbuf_ctx : list nat;
  free_calls : list (Z * list nat);
  if_inputs : list (nat * nat * mbuf);
  xlists : gmap nat uinet_pd_xlist;
  zone_pd_xlist : list nat
}.

Definition set_ctxs (v : gmap nat uinet_pd_ctx) (s : store) : store :=
  mk_store v (cells s) (mbufs s) (pd_pool_table s) (zone_pd_mbuf_ctx s) (free_calls s)
    (if_inputs s) (xlists s) (zone_pd_xlist s).
Definition set_cells (v : gmap nat Z) (s : store) : store :=
  mk_store (ctxs s) v (mbufs s) (pd_pool_table s) (zone_pd_mbuf_ctx s) (free_calls s) (if_inputs
    s) (xlists s) (zone_pd_xlist s).
Definition set_mbufs (v : gmap nat mbuf) (s : store) : store :=
  mk_store (ctxs s) (cells s) v (pd_pool_table s) (zone_pd_mbuf_ctx s) (free_calls s) (if_inputs
    s) (xlists s) (zone_pd_xlist s).
Definition set_pools (v : list (option uinet_pd_pool_info)) (s : store) : store :=
  mk_store (ctxs s) (cells s) (mbufs s) v (zone_pd_mbuf_ctx s) (free_calls s) (if_inputs s)
    (xlists s) (zone_pd_xlist s).
Definition set_zone (v : list nat) (s : store) : store :=
  mk_store (ctxs s) (cells s) (mbufs s) (pd_pool_table s) v (free_calls s) (if_inputs s) (xlists
    s) (zone_pd_xlist s).
Definition set_free_calls (v : list (Z * list nat)) (s : store) : store :=
  mk_store (ctxs s) (cells s) (mbufs s) (pd_pool_table s) (zone_pd_mbuf_ctx s) v (if_inputs s)
    (xlists s) (zone_pd_xlist s).
Definition set_if_inputs (v : list (nat * nat * mbuf)) (s : store) : store :=
  mk_store (ctxs s) (cells s) (mbufs s) (pd_pool_table s) (zone_pd_mbuf_ctx s) (free_calls s) v
    (xlists s) (zone_pd_xlist s).
Definition set_xlists (v : gmap nat uinet_pd_xlist) (s : store) : store :=
  mk_store (ctxs s) (cells s) (mbufs s) (pd_pool_table s) (zone_pd_mbuf_ctx s) (free_calls s)
    (if_inputs s) v (zone_pd_xlist s).
Definition set_xzone (v : list nat) (s : store) : store :=
  mk_store (ctxs s) (cells s) (mbufs s) (pd_pool_table s) (zone_pd_mbuf_ctx s) (free_calls s)
    (if_inputs s) (xlists s) v.


Abbreviation P := (M store).

(** ** Loads and stores *)

Definition ctx_load (p : option nat) : P (nat * uinet_pd_ctx) := fun s =>
  match p with
  | None => Fault NullDeref
  | Some c => match ctxs s !! c with Some x => Ok ((c, x), s) | None => Fault BadPointer end
  end.

Definition ctx_store (c : nat) (x : uinet_pd_ctx) : P unit :=
  modify (fun s => set_ctxs (<[c := x]> (ctxs s)) s).

Definition cell_load (r : nat) : P Z := fun s =>
  match cells s !! r with Some v => Ok (v, s) | None => Fault BadPointer end.

Definition cell_store (r : nat) (v : Z) : P unit :=
  modify (fun s => set_cells (<[r := u32 v]> (cells s)) s).

(** [atomic_fetchadd_int(r, v)]. *)
Definition atomic_fetchadd_int (r : nat) (v : Z) : P Z :=
  old ← cell_load r; _ ← cell_store r (old + v); mret old.

Definition mbuf_load (p : option nat) : P (nat * mbuf) := fun s =>
  match p with
  | None => Fault NullDeref
  | Some i => match mbufs s !! i with Some x => Ok ((i, x), s) | None => Fault BadPointer end
  end.

Definition mbuf_store (i : nat) (x : mbuf) : P unit :=
  modify (fun s => set_mbufs (<[i := x]> (mbufs s)) s).

(** ** The pool table *)

(** The loop of [uinet_pd_pool_register] from slot [i]. *)
Fixpoint register_from (i : nat) (l : list (option uinet_pd_pool_info))
    (info : uinet_pd_pool_info) : Z * list (option uinet_pd_pool_info) :=
  match l with
  | [] => (-1, [])
  | None :: t => (Z.of_nat i, Some info :: t)
  | Some x :: t => let '(r, t') := register_from (S i) t info in (r, Some x :: t')
  end.

Definition uinet_pd_pool_register (info : uinet_pd_pool_info) : P Z := fun s =>
  let '(r, t) := register_from 0 (pd_pool_table s) info in Ok (r, set_pools t s).

Definition uinet_pd_pool_get (pool_id : Z) : P (option uinet_pd_pool_info) := fun s =>
  if (0 <=? pool_id) && (pool_id <? Z.of_nat (length (pd_pool_table s)))
  then Ok (default None (pd_pool_table s !! Z.to_nat pool_id), s)
  else Fault OutOfBounds.

Definition uinet_pd_pool_deregister (pool_id : Z) : P unit := fun s =>
  if (0 <=? pool_id) && (pool_id <? Z.of_nat (length (pd_pool_table s)))
  then Ok (tt, set_pools (<[Z.to_nat pool_id := None]> (pd_pool_table s)) s)
  else Fault OutOfBounds.

(** ** The mbuf pool: zone callbacks *)

(** [m_pkthdr_init(m, how)] of the kernel, which resets the packet header and
    [m_data] and may fail; its error is a parameter of the constructor. *)
Definition uinet_pd_mbuf_ctor_pd_ctx (pkthdr_error : Z) (c : nat) : P Z :=
  '(_, x) ← ctx_load (Some c);
  '(i, m) ← mbuf_load (c_m x);
  if negb (pkthdr_error =? 0) then mret pkthdr_error
  else
    _ ← mbuf_store i {| m_next := None; m_nextpkt := None; m_data := ext_buf m; m_len := 0;
           m_flags := Z.lor M_PKTHDR (Z.lor M_NOFREE M_EXT); m_type := MT_DATA;
           m_pkthdr_len := 0; m_rcvif := None; m_tags := [];
           ext_buf := ext_buf m; ext_type := ext_type m; ext_free := ext_free m;
           ext_arg1 := ext_arg1 m; ext_arg2 := ext_arg2 m; ext_ref_cnt := ext_ref_cnt m |};
    _ ← ctx_store c {| timestamp := 0; c_m := c_m x; c_ref := c_ref x;
           m_orig_len := m_orig_len x; c_flags := UINET_PD_CTX_SINGLE_REF;
           c_pool_id := c_pool_id x; refcnt := refcnt x |};
    _ ← cell_store (refcnt x) 1;
    mret 0.

Definition uinet_pd_mbuf_dtor_pd_ctx (c : nat) : P unit :=
  '(_, x) ← ctx_load (Some c);
  '(i, m) ← mbuf_load (c_m x);
  if has_flag (m_flags m) M_PKTHDR then
    mbuf_store i {| m_next := m_next m; m_nextpkt := m_nextpkt m; m_data := m_data m;
           m_len := m_len m; m_flags := m_flags m; m_type := m_type m;
           m_pkthdr_len := m_pkthdr_len m; m_rcvif := m_rcvif m; m_tags := [];
           ext_buf := ext_buf m; ext_type := ext_type m; ext_free := ext_free m;
           ext_arg1 := ext_arg1 m; ext_arg2 := ext_arg2 m; ext_ref_cnt := ext_ref_cnt m |}
  else mret ().

(** [m] is what [m_getcl] returned; the id of the pool is [pool_id]. *)
Definition uinet_pd_mbuf_zinit_pd_ctx (pool_id : Z) (c : nat) (m : option nat) : P Z :=
  match m with
  | None => mret UINET_ENOMEM
  | Some i =>
      '(_, b) ← mbuf_load (Some i);
      _ ← mbuf_store i {| m_next := m_next b; m_nextpkt := m_nextpkt b; m_data := m_data b;
           m_len := m_len b; m_flags := m_flags b; m_type := m_type b;
           m_pkthdr_len := m_pkthdr_len b; m_rcvif := m_rcvif b; m_tags := m_tags b;
           ext_buf := ext_buf b; ext_type := EXT_EXTREF; ext_free := Some PdMbufExtFree;
           ext_arg1 := ext_arg1 b; ext_arg2 := Some c; ext_ref_cnt := ext_ref_cnt b |};
      '(_, x) ← ctx_load (Some c);
      _ ← ctx_store c {| timestamp := timestamp x; c_m := Some i; c_ref := c_ref x;
           m_orig_len := m_orig_len x; c_flags := c_flags x; c_pool_id := u16 pool_id;
           refcnt := ext_ref_cnt b |};
      mret 0
  end.

(** The mbuf goes back to [zone_pack] in the state that zone expects. *)
Definition uinet_pd_mbuf_zfini_pd_ctx (c : nat) : P unit :=
  '(_, x) ← ctx_load (Some c);
  '(i, b) ← mbuf_load (c_m x);
  _ ← mbuf_store i {| m_next := m_next b; m_nextpkt := m_nextpkt b; m_data := m_data b;
         m_len := m_len b; m_flags := m_flags b; m_type := m_type b;
         m_pkthdr_len := m_pkthdr_len b; m_rcvif := m_rcvif b; m_tags := m_tags b;
         ext_buf := ext_buf b; ext_type := EXT_PACKET; ext_free := None;
         ext_arg1 := ext_arg1 b; ext_arg2 := None; ext_ref_cnt := ext_ref_cnt b |};
  v ← cell_load (ext_ref_cnt b);
  if v =? 0 then cell_store (ext_ref_cnt b) 1 else mret ().

(** [uma_zfree(zone_pd_mbuf_ctx, pdctx)]: nothing for NULL, else the destructor
    and the context is free in the zone. *)
Definition uinet_pd_mbuf_free_ctx (pdctx : option nat) : P unit :=
  match pdctx with
  | None => mret ()
  | Some c => _ ← uinet_pd_mbuf_dtor_pd_ctx c;
              modify (fun s => set_zone (c :: zone_pd_mbuf_ctx s) s)
  end.

(** The routine the mbuf machinery calls when the last reference is released
    through it, with [ext_arg1] and [ext_arg2]. *)
Definition uinet_pd_mbuf_ext_free (arg1 arg2 : option nat) : P unit :=
  uinet_pd_mbuf_free_ctx arg1.

Fixpoint uinet_pd_mbuf_free_descs (pdctx : list nat) : P unit :=
  match pdctx with
  | [] => mret ()
  | c :: t => _ ← uinet_pd_mbuf_free_ctx (Some c); uinet_pd_mbuf_free_descs t
  end.

(** [uma_zalloc(zone_pd_mbuf_ctx, M_NOWAIT)]: a free context of the zone, run
    through the constructor, or NULL when there is none or the constructor
    fails ([pkthdr_error], as above). *)
Definition zone_alloc (pkthdr_error : Z) : P (option nat) := fun s =>
  match zone_pd_mbuf_ctx s with
  | [] => Ok (None, s)
  | c :: t =>
      match uinet_pd_mbuf_ctor_pd_ctx pkthdr_error c (set_zone t s) with
      | Ok (e, s') => if e =? 0 then Ok (Some c, s') else Ok (None, set_zone (c :: t) s')
      | Fault f => Fault f
      end
  end.

(** The loop of [uinet_pd_mbuf_alloc_descs] with [n] iterations left: slot [k] of
    the array is filled (its [serialno] is not assigned), and the result is the
    number of descriptors allocated. *)
Fixpoint alloc_loop (pkthdr_error : Z) (n k : nat) (l : list uinet_pd)
    : P (Z * list uinet_pd) :=
  match n with
  | O => mret (0, l)
  | S n' =>
      pdctx ← zone_alloc pkthdr_error;
      match pdctx with
      | None => mret (0, l)
      | Some c =>
          '(_, x) ← ctx_load (Some c);
          '(i, b) ← mbuf_load (c_m x);
          match l !! k with
          | None => faultM OutOfBounds
          | Some old =>
              let pd := {| pd_flags := UINET_PD_TYPE_MBUF; pd_length := MCLBYTES;
                           pd_pool_id := c_pool_id x; pd_ref := Z.of_nat i;
                           pd_data := m_data b; pd_ctx := Some c;
                           pd_serialno := pd_serialno old |} in
              '(cnt, l') ← alloc_loop pkthdr_error n' (S k) (<[k := pd]> l);
              mret (cnt + 1, l')
          end
      end
  end.

Definition uinet_pd_mbuf_alloc_descs (pkthdr_error : Z) (to : uinet_pd_list) (n : Z)
    : P (Z * uinet_pd_list) :=
  '(i, l) ← alloc_loop pkthdr_error (Z.to_nat n) (Z.to_nat (num_descs to)) (descs to);
  mret (i, {| num_descs := u32 (num_descs to + i); descs := l |}).

(** ** Rings *)

(** [struct uinet_pd_ring]; the four words are [uint32_t]. *)
Record uinet_pd_ring : Type := {
  r_num_descs : Z; r_put : Z; r_take : Z; r_drops : Z; r_descs : list uinet_pd
}.

Definition null_pd : uinet_pd :=
  {| pd_flags := 0; pd_length := 0; pd_pool_id := 0; pd_ref := 0; pd_data := 0;
     pd_ctx := None; pd_serialno := 0 |}.

(** [mem] says whether [malloc] succeeded; the descriptors are not initialised,
    [junk] is what they hold. *)
Definition uinet_pd_ring_alloc (num_descs : Z) (mem : bool) (junk : uinet_pd)
    : option uinet_pd_ring :=
  let num_descs := if num_descs =? 0 then 1 else num_descs in
  if mem then Some {| r_num_descs := num_descs; r_put := 0; r_take := 0; r_drops := 0;
                      r_descs := replicate (Z.to_nat num_descs) junk |}
  else None.

(** [int space]: the difference of the two indices as [int]s; [space += num_descs]
    is computed as [unsigned] and stored back into the [int]. *)
Definition uinet_pd_ring_space (r : uinet_pd_ring) : Z :=
  let space := s32 (s32 (r_take r) - s32 (r_put r) - 1) in
  let space := if space <? 0 then s32 (space + r_num_descs r) else space in
  u32 space.

Definition uinet_pd_ring_avail (r : uinet_pd_ring) : Z :=
  u32 (r_num_descs r - uinet_pd_ring_space r - 1).

Definition uinet_pd_ring_next (r : uinet_pd_ring) (cur : Z) : Z :=
  if u32 (cur + 1) =? r_num_descs r then 0 else u32 (cur + 1).

(** ** Reference counts *)

(** The references [uinet_pd_ref_acquire] adds for one descriptor. *)
Definition acquire_refs (flags num_extra : Z) : Z :=
  let both := Z.lor UINET_PD_INJECT UINET_PD_TO_STACK in
  let refs := b2z (Z.land flags both =? both) in
  if has_flag flags UINET_PD_EXTRA_REFS then u32 (refs + num_extra) else refs.

Definition set_cflags (v : Z) (x : uinet_pd_ctx) : uinet_pd_ctx :=
  {| timestamp := timestamp x; c_m := c_m x; c_ref := c_ref x; m_orig_len := m_orig_len x;
     c_flags := v; c_pool_id := c_pool_id x; refcnt := refcnt x |}.

(** The loop of [uinet_pd_ref_acquire]. *)
Fixpoint acquire_loop (l : list uinet_pd) (num_extra : Z) : P unit :=
  match l with
  | [] => mret ()
  | pd :: t =>
      _ ← (if has_flag (pd_flags pd) UINET_PD_MGMT_ONLY then mret ()
           else
             let refs := acquire_refs (pd_flags pd) num_extra in
             if negb (refs =? 0) then
               '(c, x) ← ctx_load (pd_ctx pd);
               _ ← ctx_store c (set_cflags (clear_flag (c_flags x) UINET_PD_CTX_SINGLE_REF) x);
               v ← cell_load (refcnt x);
               cell_store (refcnt x) (v + refs)
             else mret ());
      acquire_loop t num_extra
  end.

(** The first [num_descs] descriptors; reading past the array faults. *)
Definition live_descs (pkts : uinet_pd_list) : result (list uinet_pd) :=
  if num_descs pkts <=? Z.of_nat (length (descs pkts))
  then Ok (take (Z.to_nat (num_descs pkts)) (descs pkts)) else Fault OutOfBounds.

Definition uinet_pd_ref_acquire (pkts : uinet_pd_list) (num_extra : Z) : P unit :=
  l ← liftR (live_descs pkts); acquire_loop l num_extra.

(** Batching of the contexts to free: [cur_pool_id] and [free_group]. *)
Record batch : Type := { cur_pool_id : Z; free_group : list nat }.

Definition init_batch : batch := {| cur_pool_id := 0xffffffff; free_group := [] |}.

(** [pool = uinet_pd_pool_get(cur_pool_id); pool->free(free_group, count)]. *)
Definition flush_batch (b : batch) : P unit :=
  pool ← uinet_pd_pool_get (cur_pool_id b);
  info ← liftR (deref pool);
  _ ← modify (fun s => set_free_calls (free_calls s ++ [(cur_pool_id b, free_group b)]) s);
  match p_free info with
  | MbufFreeDescs => uinet_pd_mbuf_free_descs (free_group b)
  | OtherFree => mret ()
  end.

(** Adding context [c] of pool [pool_id] to the batch, freeing the batch first
    when the pool changes or the batch is full. *)
Definition batch_add (b : batch) (c : nat) (pool_id : Z) : P batch :=
  if negb (pool_id =? cur_pool_id b) ||
     (Z.of_nat (length (free_group b)) =? UINET_PD_FREE_BATCH_SIZE)
  then
    _ ← (if negb (Z.of_nat (length (free_group b)) =? 0) then flush_batch b else mret ());
    mret {| cur_pool_id := pool_id; free_group := [c] |}
  else mret {| cur_pool_id := cur_pool_id b; free_group := free_group b ++ [c] |}.

(** The end of the loops: free what is left in the batch. *)
Definition batch_done (b : batch) : P unit :=
  if negb (Z.of_nat (length (free_group b)) =? 0) then flush_batch b else mret ().

(** [(flags & SINGLE_REF) || *(refcnt) == 1 || atomic_fetchadd_int(refcnt, -1) == 1]. *)
Definition last_ref (x : uinet_pd_ctx) : P bool :=
  if has_flag (c_flags x) UINET_PD_CTX_SINGLE_REF then mret true
  else
    v ← cell_load (refcnt x);
    if v =? 1 then mret true
    else old ← atomic_fetchadd_int (refcnt x) (-1); mret (old =? 1).

Fixpoint release_loop (l : list (option nat)) (b : batch) : P batch :=
  match l with
  | [] => mret b
  | p :: t =>
      '(c, x) ← ctx_load p;
      dead ← last_ref x;
      b ← (if (dead : bool) then batch_add b c (c_pool_id x) else mret b);
      release_loop t b
  end.

Definition uinet_pd_ref_release (pdctx : list (option nat)) : P unit :=
  b ← release_loop pdctx init_batch; batch_done b.

(** [uinet_pd_drop_injected]: as the release, for the descriptors to inject. *)
Fixpoint drop_injected_loop (l : list uinet_pd) (b : batch) : P batch :=
  match l with
  | [] => mret b
  | pd :: t =>
      b ← (if has_flag (pd_flags pd) UINET_PD_INJECT then
             '(c, x) ← ctx_load (pd_ctx pd);
             dead ← last_ref x;
             if (dead : bool) then batch_add b c (c_pool_id x) else mret b
           else mret b);
      drop_injected_loop t b
  end.

Definition uinet_pd_drop_injected (pd : list uinet_pd) : P unit :=
  b ← drop_injected_loop pd init_batch; batch_done b.

(** [uinet_pd_drop]: the descriptors marked for drop, whatever their count. *)
Fixpoint drop_loop (l : list uinet_pd) (b : batch) : P batch :=
  match l with
  | [] => mret b
  | pd :: t =>
      b ← (if has_flag (pd_flags pd) UINET_PD_DROP then
             '(c, x) ← ctx_load (pd_ctx pd); batch_add b c (c_pool_id x)
           else mret b);
      drop_loop t b
  end.

Definition uinet_pd_drop (pkts : uinet_pd_list) : P unit :=
  l ← liftR (live_descs pkts); b ← drop_loop l init_batch; batch_done b.

(** ** Delivery to the stack *)

Definition set_timestamp (v : Z) (x : uinet_pd_ctx) : uinet_pd_ctx :=
  {| timestamp := v; c_m := c_m x; c_ref := c_ref x; m_orig_len := m_orig_len x;
     c_flags := c_flags x; c_pool_id := c_pool_id x; refcnt := refcnt x |}.

(** The context as [uinet_pd_deliver_to_stack] leaves it before the call of
    [if_input] for a packet of [len] bytes. *)
Definition to_stack_ctx (len : Z) (x : uinet_pd_ctx) : uinet_pd_ctx :=
  {| timestamp := timestamp x; c_m := c_m x; c_ref := c_ref x; m_orig_len := len;
     c_flags := Z.lor (clear_flag (c_flags x) UINET_PD_CTX_SINGLE_REF) UINET_PD_CTX_MBUF_USED;
     c_pool_id := c_pool_id x; refcnt := refcnt x |}.

Definition to_stack_mbuf (ifp : nat) (len : Z) (b : mbuf) : mbuf :=
  {| m_next := m_next b; m_nextpkt := m_nextpkt b; m_data := m_data b;
     m_len := s32 len; m_flags := m_flags b; m_type := m_type b;
     m_pkthdr_len := s32 len; m_rcvif := Some ifp; m_tags := m_tags b;
     ext_buf := ext_buf b; ext_type := ext_type b; ext_free := ext_free b;
     ext_arg1 := ext_arg1 b; ext_arg2 := ext_arg2 b; ext_ref_cnt := ext_ref_cnt b |}.

(** [if_input] is the input routine of the interface, code of the kernel. *)
Fixpoint deliver_loop (if_input : nat → nat → P unit) (ifp : nat) (l : list uinet_pd) : P unit :=
  match l with
  | [] => mret ()
  | pd :: t =>
      _ ← (if has_flag (pd_flags pd) UINET_PD_TO_STACK then
             '(c, x) ← ctx_load (pd_ctx pd);
             _ ← ctx_store c (to_stack_ctx (pd_length pd) x);
             '(i, b) ← mbuf_load (c_m x);
             let b := to_stack_mbuf ifp (pd_length pd) b in
             _ ← mbuf_store i b;
             _ ← modify (fun s => set_if_inputs (if_inputs s ++ [(ifp, i, b)]) s);
             if_input ifp i
           else mret ());
      deliver_loop if_input ifp t
  end.

Definition uinet_pd_deliver_to_stack (if_input : nat → nat → P unit) (ifp : nat)
    (pkts : uinet_pd_list) : P unit :=
  l ← liftR (live_descs pkts); deliver_loop if_input ifp l.

(** [malloc] succeeds iff [mem]; all [num_descs] descriptors count as in use. *)
Definition uinet_pd_list_alloc (n : Z) (mem : bool) (junk : uinet_pd) : option uinet_pd_list :=
  if mem then Some {| num_descs := n; descs := replicate (Z.to_nat n) junk |} else None.

(** ** Timestamps *)

Inductive timestamp_mode_t : Type :=
| UINET_IF_TIMESTAMP_NONE | UINET_IF_TIMESTAMP_HW | UINET_IF_TIMESTAMP_COUNTER
| UINET_IF_TIMESTAMP_GLOBAL_COUNTER | UINET_IF_TIMESTAMP_MONOTONIC
| UINET_IF_TIMESTAMP_MONOTONIC_FAST.

(** [pkts->descs[i].ctx->timestamp = f i] for the descriptors of the list. *)
Fixpoint stamp_loop (f : Z → Z) (i : Z) (l : list uinet_pd) : P unit :=
  match l with
  | [] => mret ()
  | pd :: t =>
      '(c, x) ← ctx_load (pd_ctx pd);
      _ ← ctx_store c (set_timestamp (u64 (f i)) x);
      stamp_loop f (i + 1) t
  end.

(** The interface's counter and the global one are passed and returned. The
    condition that chooses the clock is the constant
    [UINET_IF_TIMESTAMP_MONOTONIC], which is not zero, so both monotonic modes
    read [UHI_CLOCK_MONOTONIC], whose value is [clock_ns]. *)
Definition uinet_if_pd_timestamp (mode : timestamp_mode_t) (clock_ns : Z)
    (timestamp_counter global_timestamp_counter : Z) (pkts : uinet_pd_list) : P (Z * Z) :=
  match mode with
  | UINET_IF_TIMESTAMP_COUNTER =>
      l ← liftR (live_descs pkts);
      _ ← stamp_loop (fun i => (timestamp_counter + i) * 1000) 0 l;
      mret (u64 (timestamp_counter + num_descs pkts), global_timestamp_counter)
  | UINET_IF_TIMESTAMP_GLOBAL_COUNTER =>
      l ← liftR (live_descs pkts);
      _ ← stamp_loop (fun i => (global_timestamp_counter + i) * 1000) 0 l;
      mret (timestamp_counter, u64 (global_timestamp_counter + num_descs pkts))
  | UINET_IF_TIMESTAMP_MONOTONIC | UINET_IF_TIMESTAMP_MONOTONIC_FAST =>
      l ← liftR (live_descs pkts);
      _ ← stamp_loop (fun _ => clock_ns) 0 l;
      mret (timestamp_counter, global_timestamp_counter)
  | UINET_IF_TIMESTAMP_NONE | UINET_IF_TIMESTAMP_HW =>
      mret (timestamp_counter, global_timestamp_counter)
  end.

(** ** Extensible lists *)

Definition xlist_load (p : option nat) : P (nat * uinet_pd_xlist) := fun s =>
  match p with
  | None => Fault NullDeref
  | Some i => match xlists s !! i with Some x => Ok ((i, x), s) | None => Fault BadPointer end
  end.

Definition xlist_store (i : nat) (x : uinet_pd_xlist) : P unit :=
  modify (fun s => set_xlists (<[i := x]> (xlists s)) s).

Definition uinet_pd_xlist_pool_ctor (i : nat) : P Z :=
  '(_, x) ← xlist_load (Some i);
  _ ← xlist_store i {| x_next := None;
                       x_list := {| num_descs := 0; descs := descs (x_list x) |} |};
  mret 0.

(** [uma_zalloc(zone_pd_xlist, M_NOWAIT)]. *)
Definition uinet_pd_xlist_pool_alloc : P (option nat) :=
  z ← gets zone_pd_xlist;
  match z with
  | [] => mret None
  | i :: t => _ ← modify (set_xzone t); _ ← uinet_pd_xlist_pool_ctor i; mret (Some i)
  end.

Definition uinet_pd_xlist_pool_free (i : nat) : P unit :=
  modify (fun s => set_xzone (i :: zone_pd_xlist s) s).

(** [m] is the mbuf; the result is the return value and the new [*head] and
    [*tail].  The store into [descs[num_descs]] faults past the array. *)
Definition uinet_pd_xlist_append (cur m : nat) (flags serialno : Z) : P unit :=
  '(_, b) ← mbuf_load (Some m);
  '(_, xl) ← xlist_load (Some cur);
  let n := num_descs (x_list xl) in
  '(c, x) ← ctx_load (ext_arg2 b);
  match descs (x_list xl) !! Z.to_nat n with
  | None => faultM OutOfBounds
  | Some _ =>
      let pd := {| pd_flags := u16 (Z.lor UINET_PD_CTX_MBUF_USED flags);
                   pd_length := m_orig_len x; pd_pool_id := c_pool_id x; pd_ref := c_ref x;
                   pd_data := ext_buf b; pd_ctx := Some c; pd_serialno := serialno |} in
      _ ← xlist_store cur {| x_next := x_next xl;
             x_list := {| num_descs := u32 (n + 1);
                          descs := <[Z.to_nat n := pd]> (descs (x_list xl)) |} |};
      v ← cell_load (ext_ref_cnt b);
      cell_store (ext_ref_cnt b) (v + 1)
  end.

Definition uinet_pd_xlist_add_mbuf (head tail : option nat) (m : nat) (flags serialno : Z)
    : P (Z * option nat * option nat) :=
  room ← match tail with
         | None => mret false
         | Some i => '(_, x) ← xlist_load (Some i);
                     mret (negb (num_descs (x_list x) =? UINET_PD_XLIST_MAX_DESCS))
         end;
  if (room : bool) then
    cur ← liftR (deref tail);
    _ ← uinet_pd_xlist_append cur m flags serialno;
    mret (0, head, tail)
  else
    cur ← uinet_pd_xlist_pool_alloc;
    match cur with
    | None => mret (1, head, tail)
    | Some cur =>
        _ ← match tail with
            | None => mret ()
            | Some t => '(_, x) ← xlist_load (Some t);
                        xlist_store t {| x_next := Some cur; x_list := x_list x |}
            end;
        _ ← uinet_pd_xlist_append cur m flags serialno;
        mret (0, match head with None => Some cur | Some _ => head end, Some cur)
    end.

(** The local array [pdctx] has [UINET_PD_XLIST_MAX_DESCS] slots. *)
Definition uinet_pd_xlist_release (xlist : option nat) : P unit :=
  match xlist with
  | None => mret ()
  | Some i =>
      '(_, x) ← xlist_load (Some i);
      if num_descs (x_list x) <=? UINET_PD_XLIST_MAX_DESCS then
        l ← liftR (live_descs (x_list x)); uinet_pd_ref_release (pd_ctx <$> l)
      else faultM OutOfBounds
  end.

(** The loops over [next]; [fuel] bounds the length of the chain. *)
Fixpoint uinet_pd_xlist_release_all (fuel : nat) (cur : option nat) : P unit :=
  match cur with
  | None => mret ()
  | Some i =>
      match fuel with
      | O => faultM Blocked
      | S fuel' =>
          _ ← uinet_pd_xlist_release (Some i);
          '(_, x) ← xlist_load (Some i);
          uinet_pd_xlist_release_all fuel' (x_next x)
      end
  end.

Fixpoint uinet_pd_xlist_free (fuel : nat) (cur stop_at : option nat) : P (option nat) :=
  match cur with
  | None => mret None
  | Some i =>
      if decide (cur = stop_at) then mret cur
      else match fuel with
           | O => faultM Blocked
           | S fuel' =>
               '(_, x) ← xlist_load (Some i);
               _ ← uinet_pd_xlist_pool_free i;
               uinet_pd_xlist_free fuel' (x_next x) stop_at
           end
  end.

(** ** Start-up *)

(** [pd_mbuf_ctx_pool]. *)
Definition pd_mbuf_ctx_pool : uinet_pd_pool_info :=
  {| pool_type := UINET_PD_TYPE_MBUF; bufsize := MCLBYTES; pool_ctx := 0;
     p_free := MbufFreeDescs |}.

(** The id of the pool, an [unsigned int]; the zone starts empty. *)
Definition uinet_pd_mbuf_init : P Z :=
  id ← uinet_pd_pool_register pd_mbuf_ctx_pool; _ ← modify (set_zone []); mret (u32 id).

End PktDesc.
