(* ===== verification/PktDescSpec.v ===== *)
(** Properties of packet descriptors: the arithmetic of the descriptor ring, the
    batched release against a one-by-one reference, reference counting over a
    whole life cycle and under interleaving, and the mbuf pool. *)
From S2P Require Import Prelude Errno PktDesc.
Import PktDesc.

Module PktDescSpec.

(** ** Rings *)

Definition ring_wf (r : uinet_pd_ring) : Prop :=
  0 < r_num_descs r < 2 ^ 31 ∧ 0 <= r_put r < r_num_descs r ∧
  0 <= r_take r < r_num_descs r.

(** The number of slots from [take] up to [put], going round. *)
Definition ring_used (r : uinet_pd_ring) : Z := (r_put r - r_take r) mod r_num_descs r.

(** The producer and the consumer move their index by one slot. *)
Definition ring_step_put (r : uinet_pd_ring) : uinet_pd_ring :=
  {| r_num_descs := r_num_descs r; r_put := uinet_pd_ring_next r (r_put r);
     r_take := r_take r; r_drops := r_drops r; r_descs := r_descs r |}.

Definition ring_step_take (r : uinet_pd_ring) : uinet_pd_ring :=
  {| r_num_descs := r_num_descs r; r_put := r_put r;
     r_take := uinet_pd_ring_next r (r_take r); r_drops := r_drops r; r_descs := r_descs r |}.

Lemma mod_cases a n : 0 < n → - n < a < n → a mod n = if a <? 0 then a + n else a.
Proof.
  intros Hn Ha. destruct (Z.ltb_spec a 0).
  - rewrite <- (Z.mod_add a 1 n) by lia. rewrite Z.mod_small; lia.
  - apply Z.mod_small. lia.
Qed.

Lemma ring_space_eq r :
  ring_wf r → uinet_pd_ring_space r = r_num_descs r - 1 - ring_used r.
Proof.
  intros (Hn & Hp & Ht). unfold uinet_pd_ring_space, ring_used.
  rewrite mod_cases by lia.
  rewrite (wrap_s_id 32 (r_take r)), (wrap_s_id 32 (r_put r)) by lia.
  rewrite (wrap_s_id 32 (r_take r - r_put r - 1)) by lia.
  destruct (Z.ltb_spec (r_take r - r_put r - 1) 0), (Z.ltb_spec (r_put r - r_take r) 0);
    rewrite ?(wrap_s_id 32) by lia; rewrite wrap_u_id; lia.
Qed.

Lemma ring_avail_eq r : ring_wf r → uinet_pd_ring_avail r = ring_used r.
Proof.
  intros Hwf. unfold uinet_pd_ring_avail. rewrite ring_space_eq by done.
  destruct Hwf as (Hn & _ & _).
  pose proof (Z.mod_pos_bound (r_put r - r_take r) (r_num_descs r)) as Hm.
  unfold ring_used in *. rewrite wrap_u_id; lia.
Qed.

Lemma ring_next_eq r i :
  ring_wf r → 0 <= i < r_num_descs r →
  uinet_pd_ring_next r i = if i + 1 =? r_num_descs r then 0 else i + 1.
Proof.
  intros (Hn & _) Hi. unfold uinet_pd_ring_next. by rewrite !wrap_u_id by lia.
Qed.

Lemma ring_next_range r i :
  ring_wf r → 0 <= i < r_num_descs r → 0 <= uinet_pd_ring_next r i < r_num_descs r.
Proof. intros Hwf Hi. rewrite ring_next_eq by done. split_ifs; destruct Hwf; lia. Qed.

Ltac ring_arith r :=
  unfold ring_used in *; simpl in *;
  rewrite !ring_next_eq in * by (done || lia);
  repeat rewrite mod_cases in * by (split_ifs; lia); split_ifs; lia.

Lemma ring_step_put_used r :
  ring_wf r → ring_used r < r_num_descs r - 1 →
  ring_used (ring_step_put r) = ring_used r + 1.
Proof. intros Hwf Hu. pose proof Hwf as (Hn & Hp & Ht). ring_arith r. Qed.

Lemma ring_step_take_used r :
  ring_wf r → 0 < ring_used r → ring_used (ring_step_take r) = ring_used r - 1.
Proof. intros Hwf Hu. pose proof Hwf as (Hn & Hp & Ht). ring_arith r. Qed.

(** A descriptor ring of [n] slots, indices in range and [n] below 2^31:
    [uinet_pd_ring_space] and [uinet_pd_ring_avail] add up to [n - 1]; a producer
    that advances [put] with [uinet_pd_ring_next] while there is space, and a
    consumer that advances [take] while something is available, keep the indices
    in range and move exactly one slot from space to available, or back. *)
Theorem uinet_pd_ring_invariant (r : uinet_pd_ring) :
  ring_wf r →
  uinet_pd_ring_space r + uinet_pd_ring_avail r = r_num_descs r - 1 ∧
  0 <= uinet_pd_ring_avail r ∧ 0 <= uinet_pd_ring_space r ∧
  (uinet_pd_ring_avail r = 0 ↔ r_put r = r_take r) ∧
  (0 < uinet_pd_ring_space r →
     ring_wf (ring_step_put r) ∧
     uinet_pd_ring_avail (ring_step_put r) = uinet_pd_ring_avail r + 1 ∧
     uinet_pd_ring_space (ring_step_put r) = uinet_pd_ring_space r - 1) ∧
  (0 < uinet_pd_ring_avail r →
     ring_wf (ring_step_take r) ∧
     uinet_pd_ring_avail (ring_step_take r) = uinet_pd_ring_avail r - 1 ∧
     uinet_pd_ring_space (ring_step_take r) = uinet_pd_ring_space r + 1).
Proof.
  intros Hwf. pose proof Hwf as (Hn & Hp & Ht).
  assert (0 <= ring_used r < r_num_descs r) by (apply Z.mod_pos_bound; lia).
  assert (ring_wf (ring_step_put r)).
  { split; [done |]. split; [by apply (ring_next_range r (r_put r)) | done]. }
  assert (ring_wf (ring_step_take r)).
  { split; [done |]. split; [done | by apply (ring_next_range r (r_take r))]. }
  rewrite !ring_space_eq, !ring_avail_eq by done. simpl.
  split_and!; try lia.
  - unfold ring_used. rewrite mod_cases by lia. split_ifs; lia.
  - intros. rewrite ring_step_put_used by (done || lia). split_and!; [done | lia..].
  - intros. rewrite ring_step_take_used by (done || lia). split_and!; [done | lia..].
Qed.

Definition ex_ring : uinet_pd_ring :=
  {| r_num_descs := 4; r_put := 3; r_take := 1; r_drops := 0; r_descs := replicate 4 null_pd |}.

Lemma uinet_pd_ring_invariant_witness :
  ring_wf ex_ring ∧ uinet_pd_ring_space ex_ring + uinet_pd_ring_avail ex_ring = 3.
Proof.
  assert (ring_wf ex_ring) as H by (unfold ring_wf; simpl; lia).
  split; [exact H |]. exact (proj1 (uinet_pd_ring_invariant ex_ring H)).
Defined.

(** ** Batched release *)

(** A context that can be freed: it and its mbuf exist and its pool is
    registered. *)
Definition freeable (s : store) (c : nat) : Prop :=
  ∃ x i b info, ctxs s !! c = Some x ∧ c_m x = Some i ∧ mbufs s !! i = Some b ∧
    0 <= c_pool_id x < Z.of_nat (length (pd_pool_table s)) ∧
    pd_pool_table s !! Z.to_nat (c_pool_id x) = Some (Some info).

Definition pool_of (s : store) (c : nat) : Z :=
  match ctxs s !! c with Some x => c_pool_id x | None => -1 end.

(** Whether the pool of a context is one whose [free] is the mbuf pool's. *)
Definition in_mbuf_pool (s : store) (c : nat) : bool :=
  match pd_pool_table s !! Z.to_nat (pool_of s c) with
  | Some (Some info) => match p_free info with MbufFreeDescs => true | OtherFree => false end
  | _ => false
  end.

(** What freeing contexts leaves alone: contexts, counters, the pool table, the
    set of mbufs, the packets given to the stack. *)
Definition frees_only (s s' : store) : Prop :=
  ctxs s' = ctxs s ∧ cells s' = cells s ∧ pd_pool_table s' = pd_pool_table s ∧
  (∀ i, is_Some (mbufs s !! i) → is_Some (mbufs s' !! i)) ∧ if_inputs s' = if_inputs s.

Lemma frees_only_refl s : frees_only s s.
Proof. by split_and!. Qed.

Lemma frees_only_trans s1 s2 s3 : frees_only s1 s2 → frees_only s2 s3 → frees_only s1 s3.
Proof.
  intros (A1 & A2 & A3 & A4 & A5) (B1 & B2 & B3 & B4 & B5).
  split_and!; [congruence.. | auto | congruence].
Qed.

#[local] Hint Resolve frees_only_refl frees_only_trans : core.

Lemma freeable_mono s s' c : frees_only s s' → freeable s c → freeable s' c.
Proof.
  intros (A1 & A2 & A3 & A4 & A5) (x & i & b & info & H1 & H2 & H3 & H4 & H5).
  destruct (A4 i) as [b' Hb']; [eauto |].
  exists x, i, b', info. by rewrite A1, A3.
Qed.

Lemma pool_of_mono s s' c : frees_only s s' → pool_of s' c = pool_of s c.
Proof. intros (A1 & _). unfold pool_of. by rewrite A1. Qed.

Lemma in_mbuf_pool_mono s s' c : frees_only s s' → in_mbuf_pool s' c = in_mbuf_pool s c.
Proof.
  intros H. unfold in_mbuf_pool. rewrite (pool_of_mono _ _ _ H).
  by destruct H as (_ & _ & -> & _).
Qed.

(** Freeing one context of the mbuf pool, and a group of them. *)
Lemma free_ctx_spec s c :
  freeable s c →
  ∃ s', uinet_pd_mbuf_free_ctx (Some c) s = Ok (tt, s') ∧ frees_only s s' ∧
        zone_pd_mbuf_ctx s' = c :: zone_pd_mbuf_ctx s ∧ free_calls s' = free_calls s.
Proof.
  intros (x & i & b & info & H1 & H2 & H3 & _). destruct s; simpl in *.
  unfold uinet_pd_mbuf_free_ctx, uinet_pd_mbuf_dtor_pd_ctx, mbind, M_bind, ctx_load, mbuf_load.
  simpl. rewrite H1. rewrite H2. simpl. rewrite H3. simpl.
  destruct (has_flag (m_flags b) M_PKTHDR); simpl; eexists; split_and!; eauto;
    split_and!; simpl; eauto.
  intros j Hj. by apply lookup_insert_is_Some'; right.
Qed.

#[local] Arguments uinet_pd_mbuf_free_ctx : simpl never.

Lemma free_descs_spec g : ∀ s,
  (∀ c, c ∈ g → freeable s c) →
  ∃ s', uinet_pd_mbuf_free_descs g s = Ok (tt, s') ∧ frees_only s s' ∧
        zone_pd_mbuf_ctx s' = rev g ++ zone_pd_mbuf_ctx s ∧ free_calls s' = free_calls s.
Proof.
  induction g as [| c g IH]; intros s Hall; simpl.
  { eexists; split_and!; eauto. }
  destruct (free_ctx_spec s c) as (s1 & E1 & F1 & Z1 & C1); [apply Hall; set_solver |].
  destruct (IH s1) as (s2 & E2 & F2 & Z2 & C2).
  { intros d Hd. eapply freeable_mono; [done | apply Hall; set_solver]. }
  exists s2. unfold mbind, M_bind. rewrite E1. split_and!; eauto.
  - rewrite Z2, Z1, <- app_assoc. done.
  - congruence.
Qed.

(** A batch is consistent when its contexts are freeable and of its pool, and it
    fits the array. *)
Definition batch_ok (s : store) (b : batch) : Prop :=
  (length (free_group b) <= 32)%nat ∧
  (∀ c, c ∈ free_group b → freeable s c ∧ pool_of s c = cur_pool_id b).

(** Each call of a pool's [free] gets between 1 and 32 contexts of that pool. *)
Definition call_ok (s : store) (call : Z * list nat) : Prop :=
  (0 < length call.2 <= 32)%nat ∧ (∀ c, c ∈ call.2 → pool_of s c = call.1).

Lemma batch_ok_mono s s' b : frees_only s s' → batch_ok s b → batch_ok s' b.
Proof.
  intros F [H1 H2]. split; [done |]. intros c Hc. destruct (H2 c Hc).
  split; [by eapply freeable_mono | by rewrite (pool_of_mono _ _ _ F)].
Qed.

Lemma group_in_pool s b c :
  batch_ok s b → c ∈ free_group b → 
  ∃ info, 0 <= cur_pool_id b < Z.of_nat (length (pd_pool_table s)) ∧
    pd_pool_table s !! Z.to_nat (cur_pool_id b) = Some (Some info) ∧
    ∀ d, d ∈ free_group b → in_mbuf_pool s d =
       match p_free info with MbufFreeDescs => true | OtherFree => false end.
Proof.
  intros [_ H2] Hc. destruct (H2 c Hc) as [(x & i & m & info & K1 & K2 & K3 & K4 & K5) E].
  unfold pool_of in E. rewrite K1 in E. rewrite E in K4, K5.
  exists info. split_and!; [lia.. | done |]. intros d Hd.
  unfold in_mbuf_pool. destruct (H2 d Hd) as [_ ->]. by rewrite K5.
Qed.

Lemma filter_all_false {A} (f : A → bool) l :
  (∀ x, x ∈ l → f x = false) → List.filter f l = [].
Proof.
  induction l as [| x l IH]; intros H; simpl; [done |].
  rewrite H by set_solver. apply IH. set_solver.
Qed.

Lemma filter_all_true {A} (f : A → bool) l :
  (∀ x, x ∈ l → f x = true) → List.filter f l = l.
Proof.
  induction l as [| x l IH]; intros H; simpl; [done |].
  rewrite H by set_solver. f_equal. apply IH. set_solver.
Qed.

Lemma flush_batch_spec s b :
  batch_ok s b → free_group b ≠ [] →
  ∃ s', flush_batch b s = Ok (tt, s') ∧ frees_only s s' ∧
        zone_pd_mbuf_ctx s' =
          rev (List.filter (in_mbuf_pool s) (free_group b)) ++ zone_pd_mbuf_ctx s ∧
        free_calls s' = free_calls s ++ [(cur_pool_id b, free_group b)] ∧
        call_ok s (cur_pool_id b, free_group b).
Proof.
  intros Hok Hne.
  assert (∃ c, c ∈ free_group b) as [c Hc]
    by (destruct (free_group b) as [| d g]; [done | exists d; set_solver]).
  destruct (group_in_pool s b c) as (info & Hr & Hp & Hm); [done.. |].
  assert (call_ok s (cur_pool_id b, free_group b)) as Hcall.
  { destruct Hok as [Hl Hf]. split; simpl; [| intros d Hd; by apply Hf].
    destruct (free_group b); simpl in *; [done | lia]. }
  unfold flush_batch, uinet_pd_pool_get, mbind, M_bind, liftR, modify. simpl.
  rewrite (proj2 (Z.leb_le _ _)), (proj2 (Z.ltb_lt _ _)) by lia. simpl.
  rewrite Hp. simpl. destruct (p_free info).
  - rewrite (filter_all_true _ (free_group b)) by done.
    destruct (free_descs_spec (free_group b)
      (set_free_calls (free_calls s ++ [(cur_pool_id b, free_group b)]) s))
      as (s' & E & F & Z & C); [| exists s'; split_and!; eauto].
    intros d Hd. by apply Hok.
  - rewrite (filter_all_false _ (free_group b)) by done.
    eexists. split_and!; eauto. by split_and!.
Qed.

(** The bookkeeping invariant of the three batching loops: since the store [s0],
    exactly the contexts [dead] were put into the batch, in this order; those no
    longer in it went to [free], in well-formed calls. *)
Definition batched (s0 : store) (dead : list nat) (b : batch) (s : store) : Prop :=
  frees_only s0 s ∧ batch_ok s b ∧
  ∃ calls, free_calls s = free_calls s0 ++ calls ∧ Forall (call_ok s0) calls ∧
    concat calls.*2 ++ free_group b = dead ∧
    zone_pd_mbuf_ctx s =
      rev (List.filter (in_mbuf_pool s0) (concat calls.*2)) ++ zone_pd_mbuf_ctx s0.

(** What a batching loop has done when it is complete. *)
Definition freed (s0 : store) (dead : list nat) (s : store) : Prop :=
  frees_only s0 s ∧
  zone_pd_mbuf_ctx s = rev (List.filter (in_mbuf_pool s0) dead) ++ zone_pd_mbuf_ctx s0 ∧
  ∃ calls, free_calls s = free_calls s0 ++ calls ∧ Forall (call_ok s0) calls ∧
    concat calls.*2 = dead.

Lemma batched_init s : batched s [] init_batch s.
Proof.
  split_and!; [done | |].
  - split; simpl; [lia | set_solver].
  - exists []. by rewrite app_nil_r.
Qed.

Lemma call_ok_mono s s' call : frees_only s s' → call_ok s' call → call_ok s call.
Proof.
  intros F [H1 H2]. split; [done |]. intros c Hc. rewrite <- (pool_of_mono _ _ _ F). auto.
Qed.

Lemma filter_mbuf_mono s s' l :
  frees_only s s' → List.filter (in_mbuf_pool s') l = List.filter (in_mbuf_pool s) l.
Proof. intros F. apply List.filter_ext. intros c. by apply in_mbuf_pool_mono. Qed.

(** Flushing a batch that is not empty leaves the empty batch of any pool. *)
Lemma batched_flush s0 dead b s :
  batched s0 dead b s → free_group b ≠ [] →
  ∃ s', flush_batch b s = Ok (tt, s') ∧ frees_only s0 s' ∧
        ∀ p, batched s0 dead {| cur_pool_id := p; free_group := [] |} s'.
Proof.
  intros (F & Hb & calls & C & Hc & Hd & Z) Hne.
  destruct (flush_batch_spec s b Hb Hne) as (s' & E & F' & Z' & C' & Hc').
  exists s'. split_and!; eauto. intros p. split_and!; eauto.
  { split; simpl; [lia | set_solver]. }
  exists (calls ++ [(cur_pool_id b, free_group b)]). split_and!.
  - rewrite C', C. by rewrite <- app_assoc.
  - apply Forall_app. split; [done |]. constructor; [| done]. by eapply call_ok_mono.
  - rewrite fmap_app, concat_app. simpl. by rewrite !app_nil_r.
  - rewrite fmap_app, concat_app. simpl. rewrite app_nil_r, Z', Z.
    rewrite (filter_mbuf_mono s0 s) by done.
    by rewrite List.filter_app, rev_app_distr, app_assoc.
Qed.

Lemma batched_push s0 dead b s c x :
  batched s0 dead b s → freeable s c → ctxs s !! c = Some x → c_pool_id x = cur_pool_id b →
  (length (free_group b) < 32)%nat →
  batched s0 (dead ++ [c])
    {| cur_pool_id := cur_pool_id b; free_group := free_group b ++ [c] |} s.
Proof.
  intros (F & [Hl Hg] & calls & C & Hc & Hd & Z) Hf Hx Hp Hlt. split_and!; [done | |].
  - split; simpl; [rewrite length_app; simpl; lia |].
    intros d [Hd' | ->%list_elem_of_singleton]%elem_of_app; [auto |].
    split; [done |]. unfold pool_of. by rewrite Hx.
  - exists calls. split_and!; eauto. simpl. by rewrite app_assoc, Hd.
Qed.

(** [batch_add] adds one context. *)
Lemma batch_add_spec s0 dead b s c x :
  batched s0 dead b s → freeable s c → ctxs s !! c = Some x →
  ∃ b' s', batch_add b c (c_pool_id x) s = Ok (b', s') ∧ batched s0 (dead ++ [c]) b' s'.
Proof.
  intros Hb Hf Hx. unfold batch_add, UINET_PD_FREE_BATCH_SIZE.
  destruct (negb (c_pool_id x =? cur_pool_id b) || (Z.of_nat (length (free_group b)) =? 32))
    eqn:Efull.
  - assert (∃ s', (if negb (Z.of_nat (length (free_group b)) =? 0) then flush_batch b
                   else mret ()) s = Ok (tt, s') ∧ frees_only s s' ∧
       batched s0 dead {| cur_pool_id := c_pool_id x; free_group := [] |} s')
      as (s' & E & F & Hb').
    { destruct (free_group b) as [| d g] eqn:Eg; simpl.
      - exists s. split_and!; [done.. |].
        destruct Hb as (F & _ & calls & C & Hc & Hd & Z). rewrite Eg in Hd.
        split_and!; [done | split; simpl; [lia | set_solver] |]. by exists calls.
      - destruct (flush_batch_spec s b) as (s' & E & F & _).
        { by destruct Hb as (_ & ? & _). } { by rewrite Eg. }
        destruct (batched_flush s0 dead b s Hb) as (s'' & E' & _ & Hall); [by rewrite Eg |].
        rewrite E in E'. simplify_eq. exists s''. eauto. }
    unfold mbind, M_bind. rewrite E. eexists _, _. split; [done |].
    apply (batched_push s0 dead {| cur_pool_id := c_pool_id x; free_group := [] |} s' c x);
      simpl; [done | by eapply freeable_mono | | done | lia].
    destruct F as (-> & _). done.
  - bool_to_prop. eexists _, _. split; [done |].
    assert (length (free_group b) <= 32)%nat by apply Hb.
    eapply batched_push; [done.. | lia].
Qed.

(** The end of a loop frees the rest. *)
Lemma batch_done_spec s0 dead b s :
  batched s0 dead b s → ∃ s', batch_done b s = Ok (tt, s') ∧ freed s0 dead s'.
Proof.
  intros Hb. unfold batch_done. destruct (free_group b) as [| d g] eqn:Eg; simpl.
  - exists s. split; [done |]. destruct Hb as (F & _ & calls & C & Hc & Hd & Z).
    rewrite Eg, app_nil_r in Hd. subst dead. split_and!; eauto.
  - destruct (batched_flush s0 dead b s Hb) as (s' & E & F & Hall); [by rewrite Eg |].
    exists s'. split; [done |].
    destruct (Hall 0) as (_ & _ & calls & C & Hc & Hd & Z). simpl in Hd.
    rewrite app_nil_r in Hd. subst dead. split_and!; eauto.
Qed.

(** ** The release against its reference *)

(** One reference of context [x] is dropped: is it the last, and the counters
    after. *)
Definition drop_ref (x : uinet_pd_ctx) (cl : gmap nat Z) : bool * gmap nat Z :=
  if has_flag (c_flags x) UINET_PD_CTX_SINGLE_REF then (true, cl)
  else match cl !! refcnt x with
       | Some v => if v =? 1 then (true, cl) else (v =? 1, <[refcnt x := u32 (v - 1)]> cl)
       | None => (false, cl)
       end.

(** The reference for the release of a list, one context at a time: the contexts
    whose last reference is dropped, in order, and the counters after. *)
Fixpoint release_ref (cx : gmap nat uinet_pd_ctx) (cl : gmap nat Z) (l : list nat)
    : list nat * gmap nat Z :=
  match l with
  | [] => ([], cl)
  | c :: t =>
      match cx !! c with
      | None => ([], cl)
      | Some x =>
          let '(last, cl1) := drop_ref x cl in
          let '(d, cl2) := release_ref cx cl1 t in
          (if (last : bool) then c :: d else d, cl2)
      end
  end.

(** A context whose counter exists. *)
Definition counted (s : store) (c : nat) : Prop :=
  ∃ x, ctxs s !! c = Some x ∧ is_Some (cells s !! refcnt x).

Lemma drop_ref_dom x cl r : is_Some (cl !! r) → is_Some ((drop_ref x cl).2 !! r).
Proof.
  intros H. unfold drop_ref. repeat case_match; simpl; try done.
  apply lookup_insert_is_Some'. by right.
Qed.

Lemma last_ref_spec s x :
  is_Some (cells s !! refcnt x) →
  last_ref x s = Ok ((drop_ref x (cells s)).1, set_cells (drop_ref x (cells s)).2 s).
Proof.
  intros [v Hv]. destruct s; simpl in *.
  unfold last_ref, drop_ref, atomic_fetchadd_int, cell_load, cell_store, modify, mbind, M_bind.
  simpl. destruct (has_flag _ _); [done |]. simpl. rewrite Hv. simpl.
  destruct (v =? 1) eqn:E; [done |]. simpl. rewrite Hv. simpl. by rewrite E.
Qed.

Lemma batched_set_cells s0 dead b s cl :
  batched s0 dead b s → batched (set_cells cl s0) dead b (set_cells cl s).
Proof.
  intros ((A1 & A2 & A3 & A4 & A5) & [Hl Hg] & calls & C & Hc & Hd & Z).
  split_and!; [by split_and! | by split |]. by exists calls.
Qed.

Lemma set_cells_twice c1 c2 s : set_cells c1 (set_cells c2 s) = set_cells c1 s.
Proof. done. Qed.

Lemma set_cells_same s : set_cells (cells s) s = s.
Proof. by destruct s. Qed.

(** One context of the loop, shared by the release and the drop of injected
    descriptors. *)
Lemma release_one s0 cl dead b s c x :
  batched (set_cells cl s0) dead b s → freeable s0 c → ctxs s0 !! c = Some x →
  is_Some (cl !! refcnt x) →
  let '(last, cl1) := drop_ref x cl in
  ∃ b' s', (dead ← last_ref x; if (dead : bool) then batch_add b c (c_pool_id x) else mret b) s
             = Ok (b', s') ∧
           batched (set_cells cl1 s0) (dead ++ if (last : bool) then [c] else []) b' s'.
Proof.
  intros Hb Hf Hx Hcl. pose proof Hb as ((A1 & A2 & A3 & A4 & A5) & _). simpl in A1, A2, A3, A4.
  destruct (drop_ref x cl) as [last cl1] eqn:Ed.
  unfold mbind, M_bind. rewrite last_ref_spec by (by rewrite A2).
  rewrite A2, Ed. simpl. apply (batched_set_cells _ _ _ _ cl1) in Hb.
  rewrite set_cells_twice in Hb. destruct last.
  - apply (batch_add_spec _ _ _ _ c x); [done | | simpl; by rewrite A1].
    eapply freeable_mono; [apply Hb | exact Hf].
  - rewrite app_nil_r. eauto.
Qed.

Lemma ctx_load_ok s c x : ctxs s !! c = Some x → ctx_load (Some c) s = Ok ((c, x), s).
Proof. simpl. by intros ->. Qed.

Lemma batched_ctxs s0 dead b s : batched s0 dead b s → ctxs s = ctxs s0.
Proof. by intros ((? & _) & _). Qed.

#[local] Arguments ctx_load : simpl never.

Lemma release_loop_spec l : ∀ s0 cl dead b s,
  batched (set_cells cl s0) dead b s →
  (∀ c, c ∈ l → freeable s0 c ∧ counted (set_cells cl s0) c) →
  let '(d, cl') := release_ref (ctxs s0) cl l in
  ∃ b' s', release_loop (Some <$> l) b s = Ok (b', s') ∧
           batched (set_cells cl' s0) (dead ++ d) b' s'.
Proof.
  induction l as [| c l IH]; intros s0 cl dead b s Hb Hall; simpl.
  { rewrite app_nil_r. eauto. }
  destruct (Hall c) as [Hf (x & Hx & Hcl)]; [set_solver |]. simpl in Hx, Hcl. rewrite Hx.
  pose proof (release_one s0 cl dead b s c x Hb Hf Hx Hcl) as H1.
  destruct (drop_ref x cl) as [last cl1] eqn:Ed. destruct H1 as (b1 & s1 & E1 & Hb1).
  specialize (IH s0 cl1 _ b1 s1 Hb1).
  destruct (release_ref (ctxs s0) cl1 l) as [d cl2] eqn:Er.
  destruct IH as (b2 & s2 & E2 & Hb2).
  { intros e He. destruct (Hall e) as [Hfe (y & Hy & Hye)]; [set_solver |].
    split; [done |]. exists y. split; [done |]. simpl in *.
    pose proof (drop_ref_dom x cl (refcnt y) Hye) as Hd. by rewrite Ed in Hd. }
  exists b2, s2. split.
  - erewrite M_bind_Ok by (apply ctx_load_ok; by rewrite (batched_ctxs _ _ _ _ Hb)).
    cbn beta iota. rewrite M_bind_assoc. by erewrite M_bind_Ok by exact E1.
  - rewrite <- app_assoc in Hb2. by destruct last.
Qed.

(** The release of a list, loop and last batch. *)
Lemma ref_release_spec (s : store) (l : list nat) :
  (∀ c, c ∈ l → freeable s c ∧ counted s c) →
  returns (uinet_pd_ref_release (Some <$> l) s)
    (fun '(_, s') =>
       freed (set_cells (release_ref (ctxs s) (cells s) l).2 s)
             (release_ref (ctxs s) (cells s) l).1 s').
Proof.
  intros Hall. pose proof (release_loop_spec l s (cells s) [] init_batch s) as H.
  rewrite set_cells_same in H. specialize (H (batched_init s) Hall).
  destruct (release_ref (ctxs s) (cells s) l) as [d cl].
  destruct H as (b & s' & E & Hb). unfold uinet_pd_ref_release.
  erewrite M_bind_Ok by exact E.
  destruct (batch_done_spec _ _ _ _ Hb) as (s'' & -> & Hf). exact Hf.
Qed.

(** [C2] [uinet_pd_ref_release] of any list of contexts implements the reference
    that drops one reference at a time: the counters end as there, exactly the
    contexts whose last reference was dropped are freed, each once per time it
    died and in order, in calls of the pools' [free] with 1 to 32 contexts of the
    called pool; contexts of the mbuf pool go back to its zone. *)
Theorem uinet_pd_ref_release_refines (s : store) (l : list nat) :
  (∀ c, c ∈ l → freeable s c ∧ counted s c) →
  returns (uinet_pd_ref_release (Some <$> l) s)
    (fun '(_, s') =>
       freed (set_cells (release_ref (ctxs s) (cells s) l).2 s)
             (release_ref (ctxs s) (cells s) l).1 s').
Proof. apply ref_release_spec. Qed.

(** A small store: four contexts of the mbuf pool (id 0) and one of another pool
    (id 1), context 2 with two references. *)
Definition ex_ctx (i r flags pool : nat) : uinet_pd_ctx :=
  {| timestamp := 0; c_m := Some i; c_ref := 0; m_orig_len := 0; c_flags := Z.of_nat flags;
     c_pool_id := Z.of_nat pool; refcnt := r |}.

Definition ex_mbuf (r : nat) (arg1 arg2 : option nat) : mbuf :=
  {| m_next := None; m_nextpkt := None; m_data := 0; m_len := 0;
     m_flags := Z.lor M_PKTHDR (Z.lor M_NOFREE M_EXT); m_type := MT_DATA; m_pkthdr_len := 0;
     m_rcvif := None; m_tags := [1; 2]; ext_buf := 0x1000; ext_type := EXT_EXTREF;
     ext_free := Some PdMbufExtFree; ext_arg1 := arg1; ext_arg2 := arg2; ext_ref_cnt := r |}.

Definition ex_pools : list (option uinet_pd_pool_info) :=
  Some pd_mbuf_ctx_pool ::
  Some {| pool_type := 0; bufsize := 2048; pool_ctx := 7; p_free := OtherFree |} ::
  replicate 30 None.

Definition ex_store : store :=
  {| ctxs := {[ 1%nat := ex_ctx 11 21 1 0; 2%nat := ex_ctx 12 22 0 0;
                3%nat := ex_ctx 13 23 0 0; 4%nat := ex_ctx 14 24 0 1 ]};
     cells := {[ 21%nat := 1; 22%nat := 2; 23%nat := 1; 24%nat := 1 ]};
     mbufs := {[ 11%nat := ex_mbuf 21 None (Some 1%nat); 12%nat := ex_mbuf 22 None (Some 2%nat);
                 13%nat := ex_mbuf 23 None (Some 3%nat);
                 14%nat := ex_mbuf 24 None (Some 4%nat) ]};
     pd_pool_table := ex_pools; zone_pd_mbuf_ctx := []; free_calls := []; if_inputs := [];
     xlists := ∅; zone_pd_xlist := [] |}.

Lemma ex_store_ok c : c ∈ [1%nat; 2%nat; 3%nat; 4%nat] → freeable ex_store c ∧ counted ex_store c.
Proof.
  intros Hc. repeat (apply elem_of_cons in Hc as [-> | Hc]); [.. | set_solver];
    (split; [do 4 eexists; split_and!; [reflexivity.. | simpl; lia | simpl; lia | reflexivity]
            | eexists; split; [reflexivity | eexists; reflexivity]]).
Qed.

Lemma uinet_pd_ref_release_refines_witness :
  returns (uinet_pd_ref_release (Some <$> [1%nat; 2%nat; 4%nat; 2%nat]) ex_store)
    (fun '(_, s') =>
       freed (set_cells (release_ref (ctxs ex_store) (cells ex_store)
                            [1%nat; 2%nat; 4%nat; 2%nat]).2 ex_store)
             (release_ref (ctxs ex_store) (cells ex_store) [1%nat; 2%nat; 4%nat; 2%nat]).1 s')
  ∧ (release_ref (ctxs ex_store) (cells ex_store) [1%nat; 2%nat; 4%nat; 2%nat]).1
    = [1%nat; 4%nat; 2%nat].
Proof.
  split; [| reflexivity].
  refine (uinet_pd_ref_release_refines ex_store [1%nat; 2%nat; 4%nat; 2%nat] _).
  intros c Hc. apply ex_store_ok. set_solver.
Defined.

(** ** Dropping *)

Definition injected (pd : uinet_pd) : bool := has_flag (pd_flags pd) UINET_PD_INJECT.
Definition dropped (pd : uinet_pd) : bool := has_flag (pd_flags pd) UINET_PD_DROP.

(** The two copies of the batching loop. *)
Lemma drop_injected_eq (l : list uinet_pd) (s : store) :
  uinet_pd_drop_injected l s = uinet_pd_ref_release (pd_ctx <$> List.filter injected l) s.
Proof.
  assert (∀ b s, drop_injected_loop l b s =
                 release_loop (pd_ctx <$> List.filter injected l) b s) as E.
  { induction l as [| pd l IH]; intros b s0; simpl; [done |].
    unfold injected in *. destruct (has_flag (pd_flags pd) UINET_PD_INJECT); [| apply IH].
    simpl. unfold mbind, M_bind. destruct (ctx_load (pd_ctx pd) s0) as [[[c x] s1] |]; [| done].
    destruct (last_ref x s1) as [[[] s2] |]; [| apply IH | done].
    destruct (batch_add b c (c_pool_id x) s2) as [[b' s3] |]; [apply IH | done]. }
  unfold uinet_pd_drop_injected, uinet_pd_ref_release, mbind, M_bind. by rewrite E.
Qed.

(** [uinet_pd_drop_injected] does exactly what [uinet_pd_ref_release] does
    on the contexts of the descriptors marked for injection: the two copies of
    the batching loop are equivalent, in every store and on every error path. *)
Theorem uinet_pd_drop_injected_is_release (l : list uinet_pd) (s : store) :
  uinet_pd_drop_injected l s = uinet_pd_ref_release (pd_ctx <$> List.filter injected l) s.
Proof. apply drop_injected_eq. Qed.

Lemma drop_loop_spec l : ∀ s0 dead b s,
  batched s0 dead b s →
  (∀ pd, pd ∈ l → dropped pd = true → ∃ c, pd_ctx pd = Some c ∧ freeable s0 c) →
  ∃ b' s', drop_loop l b s = Ok (b', s') ∧
           batched s0 (dead ++ omap pd_ctx (List.filter dropped l)) b' s'.
Proof.
  induction l as [| pd l IH]; intros s0 dead b s Hb Hall; simpl.
  { rewrite app_nil_r. eauto. }
  fold (dropped pd). destruct (dropped pd) eqn:Ed; simpl.
  - destruct (Hall pd) as (c & Hc & Hf); [set_solver | done |]. rewrite Hc. simpl.
    pose proof Hf as (x & _ & _ & _ & Hx & _).
    assert (ctxs s !! c = Some x) as Hx' by (by rewrite (batched_ctxs _ _ _ _ Hb)).
    destruct (batch_add_spec s0 dead b s c x) as (b1 & s1 & E1 & Hb1); [done | | done |].
    { eapply freeable_mono; [apply Hb | done]. }
    destruct (IH s0 (dead ++ [c]) b1 s1 Hb1) as (b2 & s2 & E2 & Hb2).
    { intros p' Hp'. apply Hall. set_solver. }
    exists b2, s2. rewrite <- app_assoc in Hb2. split; [| done].
    unfold mbind, M_bind. rewrite (ctx_load_ok s c x) by done. simpl. by rewrite E1.
  - apply IH; [done |]. intros p' Hp'. apply Hall. set_solver.
Qed.

(** [uinet_pd_drop] frees, in order and once per descriptor, the contexts
    of the descriptors marked for drop, whatever their reference counts, which it
    neither reads nor changes, in calls with 1 to 32 contexts of one pool. *)
Theorem uinet_pd_drop_frees (pkts : uinet_pd_list) (l : list uinet_pd) (s : store) :
  live_descs pkts = Ok l →
  (∀ pd, pd ∈ l → dropped pd = true → ∃ c, pd_ctx pd = Some c ∧ freeable s c) →
  returns (uinet_pd_drop pkts s)
    (fun '(_, s') => freed s (omap pd_ctx (List.filter dropped l)) s').
Proof.
  intros Hl Hall. unfold uinet_pd_drop. erewrite M_bind_Ok by (unfold liftR; by rewrite Hl).
  destruct (drop_loop_spec l s [] init_batch s) as (b & s1 & E & Hb); [apply batched_init | done |].
  erewrite M_bind_Ok by exact E.
  destruct (batch_done_spec _ _ _ _ Hb) as (s2 & -> & Hf). exact Hf.
Qed.

Definition ex_pd (flags : Z) (c : nat) : uinet_pd :=
  {| pd_flags := flags; pd_length := 60; pd_pool_id := 0; pd_ref := 0; pd_data := 0x1000;
     pd_ctx := Some c; pd_serialno := 0 |}.

Definition ex_pkts : uinet_pd_list :=
  {| num_descs := 3; descs := [ex_pd 0x41 1; ex_pd 0x20 3; ex_pd 0x40 2; null_pd] |}.

Lemma uinet_pd_drop_frees_witness :
  returns (uinet_pd_drop ex_pkts ex_store)
    (fun '(_, s') => freed ex_store
       (omap pd_ctx (List.filter dropped [ex_pd 0x41 1; ex_pd 0x20 3; ex_pd 0x40 2])) s') ∧
  omap pd_ctx (List.filter dropped [ex_pd 0x41 1; ex_pd 0x20 3; ex_pd 0x40 2]) = [1%nat; 2%nat].
Proof.
  split; [| reflexivity].
  refine (uinet_pd_drop_frees ex_pkts _ ex_store eq_refl _).
  intros pd Hpd _. repeat (apply elem_of_cons in Hpd as [-> | Hpd]); [.. | set_solver];
    (eexists; split; [reflexivity | apply ex_store_ok; set_solver]).
Defined.

(** ** The life of a reference count *)

Definition with_flags (s : store) (c : nat) (f : Z → Z) : store :=
  set_ctxs (alter (fun x => set_cflags (f (c_flags x)) x) c (ctxs s)) s.

(** [SINGLE_REF] is bit 0. *)
Lemma clear_single_ref v : has_flag (clear_flag v UINET_PD_CTX_SINGLE_REF) UINET_PD_CTX_SINGLE_REF = false.
Proof.
  unfold UINET_PD_CTX_SINGLE_REF. change 1 with (2 ^ 0). rewrite has_flag_pow2 by lia.
  unfold clear_flag. rewrite Z.land_spec, Z.lnot_spec by lia.
  rewrite Z.pow2_bits_true by lia. apply andb_false_r.
Qed.

(** [n + 1] releases of a context whose counter is [n + 1] free it once, at the
    last of them. *)
Lemma release_ref_replicate cx x c n : ∀ cl,
  cx !! c = Some x → has_flag (c_flags x) UINET_PD_CTX_SINGLE_REF = false →
  cl !! refcnt x = Some (Z.of_nat n + 1) → Z.of_nat n + 1 < 2 ^ 32 →
  release_ref cx cl (replicate (S n) c) = ([c], <[refcnt x := 1]> cl).
Proof.
  induction n as [| n IH]; intros cl Hx Hf Hcl Hn.
  - simpl. rewrite Hx. unfold drop_ref. rewrite Hf, Hcl. simpl. by rewrite insert_id.
  - change (replicate (S (S n)) c) with (c :: replicate (S n) c).
    cbn [release_ref]. rewrite Hx. unfold drop_ref. rewrite Hf, Hcl.
    destruct (Z.eqb_spec (Z.of_nat (S n) + 1) 1) as [| _]; [lia |].
    rewrite (IH (<[refcnt x := u32 (Z.of_nat (S n) + 1 - 1)]> cl)); [| done.. | | lia].
    + by rewrite insert_insert_eq.
    + rewrite lookup_insert_eq, wrap_u_id by lia. f_equal. lia.
Qed.

(** Fewer releases than references free nothing. *)
Lemma release_ref_partial cx x c k : ∀ cl v,
  cx !! c = Some x → has_flag (c_flags x) UINET_PD_CTX_SINGLE_REF = false →
  cl !! refcnt x = Some v → Z.of_nat k < v < 2 ^ 32 →
  (release_ref cx cl (replicate k c)).1 = [].
Proof.
  induction k as [| k IH]; intros cl v Hx Hf Hcl Hv; [done |].
  simpl. rewrite Hx. unfold drop_ref. rewrite Hf, Hcl.
  destruct (Z.eqb_spec v 1); [lia |].
  specialize (IH (<[refcnt x := u32 (v - 1)]> cl) (v - 1) Hx Hf).
  destruct (release_ref _ _ _); simpl in *. apply IH; [| lia].
  rewrite lookup_insert_eq, wrap_u_id by lia. done.
Qed.

Lemma freed_nil s s' : freed s [] s' → free_calls s' = free_calls s.
Proof.
  intros (_ & _ & calls & -> & Hc & Hd). destruct calls as [| [p g] calls]; [by rewrite app_nil_r |].
  apply Forall_cons_1 in Hc as [[Hl _] _]. simpl in *. destruct g; simpl in *; [lia | done].
Qed.

Lemma freed_one s c s' :
  freed s [c] s' → free_calls s' = free_calls s ++ [(pool_of s c, [c])].
Proof.
  intros (F & Z & calls & -> & Hc & Hd). f_equal. destruct calls as [| [p g] calls]; [done |].
  apply Forall_cons_1 in Hc as [[Hl Hp] Hc]. simpl in *.
  destruct g as [| d g]; simpl in *; [lia |]. injection Hd as -> Hd.
  apply app_nil in Hd as [-> Hd]. rewrite (Hp c) by set_solver. f_equal.
  destruct calls as [| [q h] calls]; [done |].
  apply Forall_cons_1 in Hc as [[Hl' _] _]. simpl in *. destruct h; simpl in *; [lia | done].
Qed.

(** The store after [uinet_pd_ref_acquire] of one descriptor that needs [refs]
    more references. *)
Definition acquired (s : store) (c : nat) (x : uinet_pd_ctx) (v : Z) : store :=
  set_cells (<[refcnt x := v]> (cells s))
    (set_ctxs (<[c := set_cflags (clear_flag (c_flags x) UINET_PD_CTX_SINGLE_REF) x]> (ctxs s)) s).

Lemma acquire_one s pd c x v num_extra :
  pd_ctx pd = Some c → ctxs s !! c = Some x → cells s !! refcnt x = Some v →
  has_flag (pd_flags pd) UINET_PD_MGMT_ONLY = false →
  acquire_refs (pd_flags pd) num_extra ≠ 0 →
  uinet_pd_ref_acquire {| num_descs := 1; descs := [pd] |} num_extra s
  = Ok (tt, acquired s c x (u32 (v + acquire_refs (pd_flags pd) num_extra))).
Proof.
  intros Hpd Hx Hv Hm Hr.
  unfold uinet_pd_ref_acquire. rewrite (M_bind_Ok _ _ s [pd] s) by done.
  unfold acquire_loop. rewrite Hm, (proj2 (Z.eqb_neq _ 0)) by done. simpl negb. cbn iota. rewrite Hpd.
  unfold mbind, M_bind. rewrite (ctx_load_ok s c x) by done. cbn beta iota.
  unfold cell_load. simpl. rewrite Hv. done.
Qed.

Lemma acquired_freeable s c x v d :
  ctxs s !! c = Some x → freeable s d → freeable (acquired s c x v) d.
Proof.
  intros Hx (y & i & b & info & H1 & H2 & H3 & H4 & H5).
  destruct (decide (d = c)) as [-> | Hne].
  - simplify_eq. exists (set_cflags (clear_flag (c_flags x) UINET_PD_CTX_SINGLE_REF) x), i, b, info.
    simpl. by rewrite lookup_insert_eq.
  - exists y, i, b, info. simpl. by rewrite lookup_insert_ne by done.
Qed.

(** [C36] The life of a shared packet: a descriptor with one reference, after
    [uinet_pd_ref_acquire] asked for [refs] more, survives any [k <= refs]
    releases without a call of a pool's [free], and release number [refs + 1]
    gives exactly that context, once, to the [free] of its own pool. *)
Theorem uinet_pd_acquire_release (s : store) (pd : uinet_pd) (c : nat) (x : uinet_pd_ctx)
    (num_extra : Z) (k : nat) :
  pd_ctx pd = Some c → ctxs s !! c = Some x → freeable s c → cells s !! refcnt x = Some 1 →
  has_flag (pd_flags pd) UINET_PD_MGMT_ONLY = false →
  let refs := acquire_refs (pd_flags pd) num_extra in
  0 < refs < 2 ^ 32 - 1 → Z.of_nat k <= refs + 1 →
  returns ((_ ← uinet_pd_ref_acquire {| num_descs := 1; descs := [pd] |} num_extra;
            uinet_pd_ref_release (Some <$> replicate k c)) s)
    (fun '(_, s') => free_calls s' =
       free_calls s ++ (if Z.of_nat k =? refs + 1 then [(c_pool_id x, [c])] else [])).
Proof.
  intros Hpd Hx Hf Hv Hm refs Hr Hk.
  erewrite M_bind_Ok by (apply (acquire_one s pd c x 1); try done; fold refs; lia).
  fold refs. rewrite wrap_u_id by lia. set (s1 := acquired s c x (1 + refs)).
  set (x1 := set_cflags (clear_flag (c_flags x) UINET_PD_CTX_SINGLE_REF) x).
  assert (ctxs s1 !! c = Some x1) as Hx1 by (simpl; by rewrite lookup_insert_eq).
  assert (cells s1 !! refcnt x1 = Some (1 + refs)) as Hv1 by (simpl; by rewrite lookup_insert_eq).
  assert (has_flag (c_flags x1) UINET_PD_CTX_SINGLE_REF = false) as Hs1 by apply clear_single_ref.
  eapply returns_impl; [apply ref_release_spec |].
  { intros d [-> _]%elem_of_replicate. split; [by apply acquired_freeable |]. by exists x1. }
  intros [_ s'] Hfr. destruct (Z.eqb_spec (Z.of_nat k) (refs + 1)) as [Ek | Ek].
  - destruct k as [| n]; [lia |].
    rewrite (release_ref_replicate _ x1 c n) in Hfr by (done || lia || (rewrite Hv1; f_equal; lia)).
    apply freed_one in Hfr. rewrite Hfr. unfold pool_of. simpl. by rewrite lookup_insert_eq.
  - rewrite (release_ref_partial _ x1 c k _ (1 + refs)) in Hfr by (done || lia).
    apply freed_nil in Hfr. rewrite Hfr. by rewrite app_nil_r.
Qed.

Lemma uinet_pd_acquire_release_witness :
  acquire_refs 0xb0 2 = 3 ∧
  returns ((_ ← uinet_pd_ref_acquire {| num_descs := 1; descs := [ex_pd 0xb0 3] |} 2;
            uinet_pd_ref_release (Some <$> replicate 4 3%nat)) ex_store)
    (fun '(_, s') => free_calls s' = free_calls ex_store ++
       (if Z.of_nat 4 =? acquire_refs (pd_flags (ex_pd 0xb0 3)) 2 + 1
        then [(c_pool_id (ex_ctx 13 23 0 0), [3%nat])] else [])).
Proof.
  split; [reflexivity |].
  refine (uinet_pd_acquire_release ex_store (ex_pd 0xb0 3) 3 (ex_ctx 13 23 0 0) 2 4
    eq_refl eq_refl _ eq_refl eq_refl _ _); [apply ex_store_ok; set_solver | ..];
    vm_compute; split || idtac; congruence.
Defined.
End PktDescSpec.
