(* ===== verification/PktDescConc.v ===== *)
(** Concurrent release of a shared descriptor context: the test
    [*refcnt == 1 || atomic_fetchadd_int(refcnt, -1) == 1] of
    [uinet_pd_ref_release] and [uinet_pd_drop_injected] is two accesses to shared
    memory, and threads on different CPUs interleave between them.  A step
    relation has one step per access; the invariant holds in every reachable
    state. *)
From stdpp Require Import relations.
From S2P Require Import Prelude Errno PktDesc PktDescSpec.
Import PktDesc PktDescSpec.

Module PktDescConc.

(** Where a thread that holds one reference is: before the test, between the
    read and the fetch-and-add, done and the one to free, done. *)
Inductive tstate : Type := Holding | Decrementing | Freer | Gone.

#[export] Instance tstate_eq_dec : EqDecision tstate.
Proof. solve_decision. Defined.

(** One access of one thread to the counter [r]. *)
Inductive rel_step (r : nat) : store * list tstate → store * list tstate → Prop :=
| step_read_one s ts i :
    ts !! i = Some Holding → cell_load r s = Ok (1, s) →
    rel_step r (s, ts) (s, <[i := Freer]> ts)
| step_read_more s ts i v :
    ts !! i = Some Holding → cell_load r s = Ok (v, s) → v ≠ 1 →
    rel_step r (s, ts) (s, <[i := Decrementing]> ts)
| step_fetchadd s ts i old s' :
    ts !! i = Some Decrementing → atomic_fetchadd_int r (-1) s = Ok (old, s') →
    rel_step r (s, ts) (s', <[i := if old =? 1 then Freer else Gone]> ts).

(** The test of the code, run without interruption, is a run of the relation. *)
Lemma last_ref_steps x s b s' ts i :
  has_flag (c_flags x) UINET_PD_CTX_SINGLE_REF = false → ts !! i = Some Holding →
  last_ref x s = Ok (b, s') →
  rtc (rel_step (refcnt x)) (s, ts) (s', <[i := if (b : bool) then Freer else Gone]> ts).
Proof.
  intros Hf Hi. unfold last_ref. rewrite Hf. unfold mbind, M_bind.
  destruct (cell_load (refcnt x) s) as [[v s1] |] eqn:El; [| done].
  assert (s1 = s) as -> by (unfold cell_load in El; case_match; simplify_eq; done).
  destruct (Z.eqb_spec v 1) as [-> | Hv].
  - intros [= <- <-]. apply rtc_once. by apply step_read_one.
  - destruct (atomic_fetchadd_int (refcnt x) (-1) s) as [[old s1] |] eqn:Ea; [| done].
    intros [= <- <-]. eapply rtc_l; [by eapply step_read_more |].
    apply rtc_once.
    replace (<[i := if old =? 1 then Freer else Gone]> ts) with
      (<[i := if old =? 1 then Freer else Gone]> (<[i := Decrementing]> ts))
      by apply list_insert_insert_eq.
    eapply step_fetchadd; [| exact Ea]. apply list_lookup_insert_eq. by eapply lookup_lt_Some.
Qed.

(** ** Counting threads *)

Definition cnt (t : tstate) (ts : list tstate) : Z := count_if (fun u => bool_decide (u = t)) ts.

Lemma cnt_nonneg t ts : 0 <= cnt t ts.
Proof. apply count_if_nonneg. Qed.

Lemma cnt_insert t ts i a b :
  ts !! i = Some a →
  cnt t (<[i := b]> ts) = cnt t ts - b2z (bool_decide (a = t)) + b2z (bool_decide (b = t)).
Proof. apply (count_if_insert (fun u => bool_decide (u = t))). Qed.

Lemma cnt_pos t ts : 0 < cnt t ts → ∃ i, ts !! i = Some t.
Proof.
  intros (i & a & Hi & Ha)%count_if_pos. exists i. by apply bool_decide_eq_true in Ha as ->.
Qed.

Lemma cnt_replicate t u n : cnt t (replicate n u) = if bool_decide (u = t) then Z.of_nat n else 0.
Proof.
  unfold cnt, count_if. induction n as [| n IH]; simpl; [by case_bool_decide |].
  case_bool_decide; simpl in *; lia.
Qed.

(** ** The invariant *)

(** Nobody has freed and the counter is the number of threads that still hold a
    reference, at least one; or one thread frees and nobody holds one. *)
Definition rel_inv (r : nat) (st : store * list tstate) : Prop :=
  let h := cnt Holding st.2 + cnt Decrementing st.2 in
  (cnt Freer st.2 = 0 ∧ 0 < h < 2 ^ 32 ∧ cells st.1 !! r = Some h) ∨
  (cnt Freer st.2 = 1 ∧ h = 0).

Lemma cell_load_inv r s v s' : cell_load r s = Ok (v, s') → cells s !! r = Some v ∧ s' = s.
Proof. unfold cell_load. case_match; naive_solver. Qed.

Lemma fetchadd_inv r d s old s' :
  atomic_fetchadd_int r d s = Ok (old, s') →
  cells s !! r = Some old ∧ s' = set_cells (<[r := u32 (old + d)]> (cells s)) s.
Proof.
  unfold atomic_fetchadd_int, mbind, M_bind. destruct (cell_load r s) as [[v s1] |] eqn:El; [| done].
  apply cell_load_inv in El as [El ->]. intros [= <- <-]. done.
Qed.

Ltac count_update H :=
  rewrite !(cnt_insert _ _ _ _ _ H); simpl;
  repeat (rewrite bool_decide_true by done || rewrite bool_decide_false by done); simpl.

Lemma rel_inv_step r st st' : rel_inv r st → rel_step r st st' → rel_inv r st'.
Proof.
  intros Hinv Hstep. unfold rel_inv in *.
  destruct Hstep as [s ts i Hi Hl | s ts i v Hi Hl Hv | s ts i old s' Hi Hl]; simpl in *;
    pose proof (cnt_nonneg Holding ts); pose proof (cnt_nonneg Decrementing ts);
    pose proof (cnt_insert Holding ts i _ Gone Hi) as HH;
    pose proof (cnt_insert Decrementing ts i _ Gone Hi) as HD; simpl in HH, HD;
    pose proof (cnt_nonneg Holding (<[i := Gone]> ts));
    pose proof (cnt_nonneg Decrementing (<[i := Gone]> ts)).
  - apply cell_load_inv in Hl as [Hl _]. right. count_update Hi.
    destruct Hinv as [(Hf & Hh & Hc) | [Hf Hh]]; simplify_eq; lia.
  - left. count_update Hi. apply cell_load_inv in Hl as [Hl _].
    destruct Hinv as [(Hf & Hh & Hc) | [Hf Hh]]; [| lia].
    split_and!; [lia.. |]. rewrite Hc. f_equal. lia.
  - apply fetchadd_inv in Hl as [Hl ->]. simpl.
    destruct Hinv as [(Hf & Hh & Hc) | [Hf Hh]]; [| lia]. rewrite Hl in Hc. simplify_eq.
    destruct (Z.eqb_spec (cnt Holding ts + cnt Decrementing ts) 1) as [E1 | E1].
    + right. count_update Hi. lia.
    + left. count_update Hi. split_and!; [lia.. |].
      rewrite lookup_insert_eq, wrap_u_id by lia. f_equal. lia.
Qed.

(** While nobody frees, some thread can take a step. *)
Lemma rel_progress r s ts :
  rel_inv r (s, ts) → cnt Freer ts = 0 → ∃ st', rel_step r (s, ts) st'.
Proof.
  intros [(Hf & Hh & Hc) | [Hf Hh]] H0; simpl in *; [| lia].
  destruct (decide (0 < cnt Holding ts)) as [Hp | Hp].
  - apply cnt_pos in Hp as [i Hi].
    assert (cell_load r s = Ok (cnt Holding ts + cnt Decrementing ts, s)) as E
      by (unfold cell_load; by rewrite Hc).
    destruct (decide (cnt Holding ts + cnt Decrementing ts = 1)) as [E1 | E1].
    + rewrite E1 in E. eexists. by eapply step_read_one.
    + eexists. by eapply step_read_more.
  - destruct (cnt_pos Decrementing ts) as [i Hi]; [lia |].
    eexists. eapply step_fetchadd; [done |]. unfold atomic_fetchadd_int, cell_load, mbind, M_bind.
    by rewrite Hc.
Qed.

(** Every step brings some thread nearer to its end. *)
Definition work (ts : list tstate) : Z := 2 * cnt Holding ts + cnt Decrementing ts.

Lemma rel_step_work r st st' : rel_step r st st' → work st'.2 < work st.2.
Proof.
  intros Hstep. unfold work.
  destruct Hstep as [s ts i Hi Hl | s ts i v Hi Hl Hv | s ts i old s' Hi Hl]; simpl;
    [count_update Hi; lia.. |]. destruct (old =? 1); count_update Hi; lia.
Qed.

(** [C3] [n >= 1] threads each drop one of the [n] references of a context that
    is not marked single-reference, in any interleaving of their accesses to the
    counter: never more than one thread finds itself the last; once one does, no
    other thread still holds a reference, so nothing is freed while in use; until
    then the counter is the number of threads that have not dropped theirs and
    some thread can go on; every step decreases a measure, so each run ends, and
    it ends with exactly one thread that frees. *)
Theorem concurrent_release_frees_once (r : nat) (s0 : store) (n : nat) (s : store)
    (ts : list tstate) :
  0 < Z.of_nat n < 2 ^ 32 → cells s0 !! r = Some (Z.of_nat n) →
  rtc (rel_step r) (s0, replicate n Holding) (s, ts) →
  cnt Freer ts <= 1 ∧
  (cnt Freer ts = 1 → cnt Holding ts = 0 ∧ cnt Decrementing ts = 0) ∧
  (cnt Freer ts = 0 → cells s !! r = Some (cnt Holding ts + cnt Decrementing ts) ∧
                      ∃ st', rel_step r (s, ts) st') ∧
  ((∀ st', ¬ rel_step r (s, ts) st') → cnt Freer ts = 1) ∧
  (∀ st', rel_step r (s, ts) st' → 0 <= work st'.2 < work ts).
Proof.
  intros Hn Hc Hrun.
  assert (rel_inv r (s, ts)) as Hinv.
  { refine (rtc_ind_r (rel_inv r) _ _ _ _ Hrun).
    - left. simpl. rewrite !cnt_replicate. simpl. split_and!; [done | lia.. |].
      rewrite Hc. f_equal. lia.
    - intros y z _ Hstep Hy. by eapply rel_inv_step. }
  pose proof (cnt_nonneg Holding ts). pose proof (cnt_nonneg Decrementing ts).
  pose proof (rel_progress r s ts Hinv) as Hprog. destruct Hinv as [(Hf & Hh & Hcell) | [Hf Hh]].
  - simpl in *. split_and!; [lia.. | auto | intros Hno; destruct (Hprog Hf); naive_solver |].
    intros st' Hs. split; [unfold work | by eapply rel_step_work in Hs].
    pose proof (cnt_nonneg Holding st'.2). pose proof (cnt_nonneg Decrementing st'.2). lia.
  - simpl in *. split_and!; [lia.. | intros; lia |].
    intros st' Hs. split; [unfold work | by eapply rel_step_work in Hs].
    pose proof (cnt_nonneg Holding st'.2). pose proof (cnt_nonneg Decrementing st'.2). lia.
Qed.

(** Two threads release context 2 of the example; the first reads 2 and is
    overtaken by the second, which also reads 2 and decrements. *)
Lemma concurrent_release_frees_once_witness :
  ∃ s, cnt Freer [Decrementing; Gone] <= 1 ∧
       rtc (rel_step 22) (ex_store, replicate 2 Holding) (s, [Decrementing; Gone]).
Proof.
  assert (rtc (rel_step 22) (ex_store, replicate 2 Holding)
            (set_cells (<[22%nat := 1]> (cells ex_store)) ex_store, [Decrementing; Gone])) as H.
  { eapply rtc_l; [eapply (step_read_more _ _ _ 0); [reflexivity.. | lia] |].
    eapply rtc_l; [eapply (step_read_more _ _ _ 1); [reflexivity.. | lia] |].
    apply rtc_once. eapply (step_fetchadd 22 ex_store [Decrementing; Decrementing] 1 2); reflexivity. }
  eexists. split; [| exact H].
  refine (proj1 (concurrent_release_frees_once 22 ex_store 2 _ _ _ _ H)); [lia | reflexivity].
Defined.

End PktDescConc.
