(* ===== verification/PktDescPool.v ===== *)
(** Properties of the descriptor pools, of delivery to the stack and of the
    extensible lists: registration, allocation from the mbuf pool, the free
    routine of the mbufs, the order of delivered packets, and the references an
    extensible list takes and gives back. *)
From S2P Require Import Prelude Errno PktDesc PktDescSpec.
Import PktDesc PktDescSpec.

Module PktDescPool.

(** ** Registration *)

Lemma register_from_spec l info i :
  (∃ k, l !! k = Some None ∧ (∀ j, (j < k)%nat → ∃ x, l !! j = Some (Some x)) ∧
        register_from i l info = (Z.of_nat (i + k), <[k := Some info]> l)) ∨
  ((∀ k, l !! k ≠ Some None) ∧ register_from i l info = (-1, l)).
Proof.
  revert i. induction l as [| [x |] l IH]; intros i; simpl.
  - right. split; [| done]. intros k. by rewrite lookup_nil.
  - destruct (IH (S i)) as [(k & Hk & Hlow & E) | [Hno E]]; rewrite E.
    + left. exists (S k). split_and!; [done | | simpl; f_equal; lia].
      intros [| j] Hj; simpl; [eauto | apply Hlow; lia].
    + right. split; [| done]. intros [| k]; simpl; [done | apply Hno].
  - left. exists 0%nat. split_and!; [done | lia | simpl; f_equal; lia].
Qed.

(** [uinet_pd_pool_register] takes the lowest free slot of the 32: the id it
    returns is in range and [uinet_pd_pool_get] of it gives the pool back, every
    other slot keeps its pool, and after [uinet_pd_pool_deregister] the table is
    as before.  On a full table it returns -1, and the id that becomes in an
    unsigned int makes [uinet_pd_pool_get] read outside the table. *)
Theorem uinet_pd_pool_register_spec (s : store) (info : uinet_pd_pool_info) :
  length (pd_pool_table s) = 32%nat →
  ∃ id s1, uinet_pd_pool_register info s = Ok (id, s1) ∧
  ((0 <= id < UINET_PD_MAX_POOLS ∧ uinet_pd_pool_get id s1 = Ok (Some info, s1) ∧
    (∀ j, 0 <= j < id → ∃ x, uinet_pd_pool_get j s = Ok (Some x, s)) ∧
    (∀ j, 0 <= j < UINET_PD_MAX_POOLS → j ≠ id →
       (uinet_pd_pool_get j s1 ≫= (fun r => Ok r.1)) =
       (uinet_pd_pool_get j s ≫= (fun r => Ok r.1))) ∧
    uinet_pd_pool_deregister id s1 = Ok (tt, s)) ∨
   (id = -1 ∧ s1 = s ∧ uinet_pd_pool_get (u32 id) s = Fault OutOfBounds)).
Proof.
  intros Hlen. unfold uinet_pd_pool_register, UINET_PD_MAX_POOLS.
  destruct (register_from_spec (pd_pool_table s) info 0) as [(k & Hk & Hlow & E) | [Hno E]];
    rewrite E; simpl; do 2 eexists; (split; [done |]).
  - left. assert (k < 32)%nat by (rewrite <- Hlen; by eapply lookup_lt_Some).
    unfold uinet_pd_pool_get, uinet_pd_pool_deregister. simpl. rewrite length_insert, Hlen.
    rewrite (proj2 (Z.leb_le 0 (Z.of_nat k))), (proj2 (Z.ltb_lt (Z.of_nat k) _)) by lia. simpl.
    rewrite Nat2Z.id, list_lookup_insert_eq by lia. split_and!; [lia.. | done | | |].
    + intros j Hj. rewrite (proj2 (Z.leb_le 0 j)), (proj2 (Z.ltb_lt j _)) by lia. simpl.
      destruct (Hlow (Z.to_nat j)) as [x Hx]; [lia |]. exists x. by rewrite Hx.
    + intros j Hj Hne. rewrite (proj2 (Z.leb_le 0 j)), (proj2 (Z.ltb_lt j _)) by lia. simpl.
      by rewrite list_lookup_insert_ne by lia.
    + f_equal. f_equal. destruct s; unfold set_pools; simpl in *. f_equal.
      rewrite list_insert_insert_eq. by apply list_insert_id.
  - right. split_and!; [done | by destruct s |]. unfold uinet_pd_pool_get. by rewrite Hlen.
Qed.

Lemma uinet_pd_pool_register_spec_witness :
  length (pd_pool_table ex_store) = 32%nat ∧
  ∃ id s1, uinet_pd_pool_register pd_mbuf_ctx_pool ex_store = Ok (id, s1).
Proof.
  split; [reflexivity |].
  destruct (uinet_pd_pool_register_spec ex_store pd_mbuf_ctx_pool eq_refl) as (id & s1 & H & _).
  exists id, s1. exact H.
Defined.

(** ** Allocation from the mbuf pool *)

(** A context as [zinit] left it. *)
Definition initialised (s : store) (c : nat) : Prop :=
  ∃ x i b, ctxs s !! c = Some x ∧ c_m x = Some i ∧ mbufs s !! i = Some b ∧
           is_Some (cells s !! refcnt x).

Definition zone_ok (s : store) : Prop := ∀ c, c ∈ zone_pd_mbuf_ctx s → initialised s c.

(** A descriptor ready for use: its context has the one reference. *)
Definition fresh_desc (s : store) (pd : uinet_pd) (c : nat) : Prop :=
  pd_ctx pd = Some c ∧ pd_flags pd = UINET_PD_TYPE_MBUF ∧ pd_length pd = MCLBYTES ∧
  ∃ x i b, ctxs s !! c = Some x ∧ c_flags x = UINET_PD_CTX_SINGLE_REF ∧
    timestamp x = 0 ∧ pd_pool_id pd = c_pool_id x ∧ cells s !! refcnt x = Some 1 ∧
    c_m x = Some i ∧ mbufs s !! i = Some b ∧ pd_ref pd = Z.of_nat i ∧
    m_data b = ext_buf b ∧ m_len b = 0 ∧ m_tags b = [] ∧ pd_data pd = ext_buf b.

(** The store after the constructor ran on [c]. *)
Definition constructed_ctx (x : uinet_pd_ctx) : uinet_pd_ctx :=
  {| timestamp := 0; c_m := c_m x; c_ref := c_ref x; m_orig_len := m_orig_len x;
     c_flags := UINET_PD_CTX_SINGLE_REF; c_pool_id := c_pool_id x; refcnt := refcnt x |}.

Definition constructed_mbuf (m : mbuf) : mbuf :=
  {| m_next := None; m_nextpkt := None; m_data := ext_buf m; m_len := 0;
     m_flags := Z.lor M_PKTHDR (Z.lor M_NOFREE M_EXT); m_type := MT_DATA;
     m_pkthdr_len := 0; m_rcvif := None; m_tags := [];
     ext_buf := ext_buf m; ext_type := ext_type m; ext_free := ext_free m;
     ext_arg1 := ext_arg1 m; ext_arg2 := ext_arg2 m; ext_ref_cnt := ext_ref_cnt m |}.

Definition constructed (s : store) (c : nat) (x : uinet_pd_ctx) (i : nat) (b : mbuf) : store :=
  set_cells (<[refcnt x := 1]> (cells s))
    (set_ctxs (<[c := constructed_ctx x]> (ctxs s))
       (set_mbufs (<[i := constructed_mbuf b]> (mbufs s)) s)).

Lemma zone_alloc_spec s c t x i b :
  zone_pd_mbuf_ctx s = c :: t → ctxs s !! c = Some x → c_m x = Some i → mbufs s !! i = Some b →
  zone_alloc 0 s = Ok (Some c, constructed (set_zone t s) c x i b).
Proof.
  intros Hz Hx Hi Hb. unfold zone_alloc. rewrite Hz.
  unfold uinet_pd_mbuf_ctor_pd_ctx, mbind, M_bind, ctx_load. simpl. rewrite Hx.
  unfold mbuf_load. rewrite Hi. simpl. rewrite Hb. unfold constructed, constructed_ctx. by rewrite Hi.
Qed.

(** Another allocation keeps a descriptor that is ready ready. *)
Lemma fresh_constructed s pd d c x i b :
  fresh_desc s pd d → ctxs s !! c = Some x → mbufs s !! i = Some b →
  fresh_desc (constructed s c x i b) pd d.
Proof.
  intros (H1 & H2 & H3 & y & j & m & K1 & K2 & K3 & K4 & K5 & K6 & K7 & K8 & K9 & K10 & K11 & K12)
    Hx Hb.
  split_and!; [done.. |].
  assert (<[refcnt x := 1]> (cells s) !! refcnt y = Some 1) as K.
  { destruct (decide (refcnt x = refcnt y)) as [E | E];
      [rewrite E; by rewrite lookup_insert_eq | by rewrite lookup_insert_ne by done]. }
  exists (if decide (c = d) then constructed_ctx y else y), j,
    (if decide (i = j) then constructed_mbuf m else m).
  simpl. destruct (decide (c = d)) as [-> | Hcd], (decide (i = j)) as [-> | Hij]; simplify_eq;
    split_and!; try done; (by rewrite lookup_insert_eq) || (by rewrite lookup_insert_ne by done).
Qed.

Lemma fresh_new s c x i b old :
  c_m x = Some i →
  fresh_desc (constructed s c x i b)
    {| pd_flags := UINET_PD_TYPE_MBUF; pd_length := MCLBYTES; pd_pool_id := c_pool_id x;
       pd_ref := Z.of_nat i; pd_data := ext_buf b; pd_ctx := Some c;
       pd_serialno := pd_serialno old |} c.
Proof.
  intros Hi. split_and!; [done.. |]. exists (constructed_ctx x), i, (constructed_mbuf b).
  simpl. rewrite !lookup_insert_eq. by split_and!.
Qed.

Lemma initialised_constructed s d c x i b :
  initialised s d → ctxs s !! c = Some x → initialised (constructed s c x i b) d.
Proof.
  intros (y & j & m & K1 & K2 & K3 & K4) Hx.
  assert (∃ m', <[i := constructed_mbuf b]> (mbufs s) !! j = Some m') as [m' Hm'].
  { apply lookup_insert_is_Some'. eauto. }
  assert (∀ r, is_Some (cells s !! r) → is_Some (<[refcnt x := 1]> (cells s) !! r)) as Hcell.
  { intros r Hr. apply lookup_insert_is_Some'. by right. }
  destruct (decide (c = d)) as [-> | Hcd]; simplify_eq.
  - exists (constructed_ctx y), j, m'. simpl. rewrite lookup_insert_eq. split_and!; auto.
  - exists y, j, m'. simpl. rewrite lookup_insert_ne by done. split_and!; auto.
Qed.

Lemma alloc_loop_spec n : ∀ s k l,
  zone_ok s → (k + n <= length l)%nat →
  ∃ l' s', alloc_loop 0 n k l s =
     Ok ((Z.of_nat (length (take n (zone_pd_mbuf_ctx s))), l'), s') ∧
  zone_pd_mbuf_ctx s' = drop n (zone_pd_mbuf_ctx s) ∧ zone_ok s' ∧
  length l' = length l ∧ (∀ j, (j < k)%nat → l' !! j = l !! j) ∧
  (∀ j c, take n (zone_pd_mbuf_ctx s) !! j = Some c →
     ∃ pd, l' !! (k + j)%nat = Some pd ∧ fresh_desc s' pd c) ∧
  (∀ pd d, fresh_desc s pd d → fresh_desc s' pd d).
Proof.
  induction n as [| n IH]; intros s k l Hz Hlen; simpl.
  { do 2 eexists. split_and!; try done. }
  destruct (zone_pd_mbuf_ctx s) as [| c t] eqn:Ez.
  { do 2 eexists. unfold mbind, M_bind, zone_alloc. rewrite Ez. by split_and!. }
  destruct (Hz c) as (x & i & b & Hx & Hi & Hb & Hcell); [rewrite Ez; set_solver |].
  set (s1 := constructed (set_zone t s) c x i b).
  assert (zone_ok s1) as Hz1.
  { intros d Hd. apply initialised_constructed; [| done]. apply Hz. rewrite Ez.
    simpl in Hd. set_solver. }
  destruct (lookup_lt_is_Some_2 l k) as [old Hold]; [lia |].
  set (pd := {| pd_flags := UINET_PD_TYPE_MBUF; pd_length := MCLBYTES;
                pd_pool_id := c_pool_id x; pd_ref := Z.of_nat i; pd_data := ext_buf b;
                pd_ctx := Some c; pd_serialno := pd_serialno old |}).
  destruct (IH s1 (S k) (<[k := pd]> l) Hz1) as (l' & s' & E & H1 & H2 & H3 & H4 & H5 & H6).
  { rewrite length_insert. lia. }
  exists l', s'. split_and!; [| done | done | by rewrite H3, length_insert | | |].
  - erewrite M_bind_Ok by (by apply (zone_alloc_spec s c t x i b)).
    cbn beta iota. fold s1.
    erewrite M_bind_Ok by (apply (ctx_load_ok s1 c (constructed_ctx x)); simpl;
                           by rewrite lookup_insert_eq).
    cbn beta iota. unfold mbind, M_bind. unfold mbuf_load. simpl c_m. rewrite Hi.
    simpl mbufs. rewrite lookup_insert_eq. cbn beta iota. rewrite Hold.
    simpl m_data. simpl c_pool_id. fold pd.
    change (zone_pd_mbuf_ctx s1) with t in E. rewrite E. unfold mret, M_ret.
    match goal with |- Ok ((?a, _), _) = Ok ((?b, _), _) => replace a with b by (cbn [take length]; lia) end. done.
  - intros j Hj. rewrite H4 by lia. by rewrite list_lookup_insert_ne by lia.
  - intros [| j] d Hd; simpl in Hd.
    + simplify_eq. exists pd. rewrite Nat.add_0_r, H4 by lia.
      rewrite list_lookup_insert_eq by lia. split; [done |]. apply H6. by apply fresh_new.
    + destruct (H5 j d Hd) as (pd' & Hp & Hf). exists pd'. split; [| done].
      by rewrite <- Nat.add_succ_comm.
  - intros pd' d Hf. apply H6. by apply fresh_constructed.
Qed.

(** [uinet_pd_mbuf_alloc_descs] appends to the list the descriptors of the
    first [n] contexts of the zone, or of all of them when there are fewer: the
    result is their number, each new descriptor is ready (one reference, marked
    single-reference, timestamp cleared, mbuf header reset to the start of its
    buffer, no tags), the descriptors already in the list are untouched and the
    zone has lost exactly those contexts. *)
Theorem uinet_pd_mbuf_alloc_spec (s : store) (to : uinet_pd_list) (n : Z) :
  zone_ok s → 0 <= num_descs to → 0 <= n →
  num_descs to + n <= Z.of_nat (length (descs to)) < 2 ^ 32 →
  let got := take (Z.to_nat n) (zone_pd_mbuf_ctx s) in
  returns (uinet_pd_mbuf_alloc_descs 0 to n s)
    (fun '((cnt, to'), s') =>
       cnt = Z.of_nat (length got) ∧ num_descs to' = num_descs to + cnt ∧
       zone_pd_mbuf_ctx s = got ++ zone_pd_mbuf_ctx s' ∧
       (∀ j, (j < Z.to_nat (num_descs to))%nat → descs to' !! j = descs to !! j) ∧
       (∀ j c, got !! j = Some c →
          ∃ pd, descs to' !! (Z.to_nat (num_descs to) + j)%nat = Some pd ∧ fresh_desc s' pd c)).
Proof.
  intros Hz Hnum Hn Hlen got.
  destruct (alloc_loop_spec (Z.to_nat n) s (Z.to_nat (num_descs to)) (descs to) Hz)
    as (l' & s' & E & H1 & H2 & H3 & H4 & H5 & H6); [lia |].
  unfold uinet_pd_mbuf_alloc_descs. erewrite M_bind_Ok by exact E. simpl.
  fold got. fold got in H5. assert (Z.of_nat (length got) <= n) by (unfold got; rewrite length_take; lia).
  split_and!; [done | | | done | done].
  - apply wrap_u_id. lia.
  - rewrite H1. unfold got. by rewrite take_drop.
Qed.

(** Two free contexts. *)
Definition ex_zone_store : store := set_zone [2%nat; 3%nat] ex_store.

Lemma uinet_pd_mbuf_alloc_spec_witness :
  returns (uinet_pd_mbuf_alloc_descs 0 {| num_descs := 0; descs := replicate 4 null_pd |} 4
             ex_zone_store) (fun '((cnt, _), _) => cnt = 2).
Proof.
  assert (zone_ok ex_zone_store) as Hz.
  { intros c Hc. repeat (apply elem_of_cons in Hc as [-> | Hc]); [.. | set_solver];
      (do 3 eexists; split_and!; [reflexivity.. | eexists; reflexivity]). }
  pose proof (uinet_pd_mbuf_alloc_spec ex_zone_store
      {| num_descs := 0; descs := replicate 4 null_pd |} 4 Hz) as H.
  refine (returns_impl _ _ _ (H _ _ _) _); [simpl; lia.. |].
  intros [[cnt to'] s'] [K _]. exact K.
Defined.

(** ** The free routine of the mbufs *)

(** A context that [uinet_pd_mbuf_zinit_pd_ctx] tied to a fresh mbuf (its
    [ext_arg1] is NULL, as the cluster constructor sets it): the context is stored
    in [ext_arg2], but [uinet_pd_mbuf_ext_free], which the mbuf machinery calls
    with both arguments when it drops the last reference, frees [ext_arg1], so
    the call changes nothing and the context never returns to the zone; freeing
    what [ext_arg2] holds would have returned it. *)
Theorem uinet_pd_mbuf_ext_free_leaks (s : store) (pool_id : Z) (c i : nat) (x : uinet_pd_ctx)
    (b : mbuf) :
  ctxs s !! c = Some x → mbufs s !! i = Some b → ext_arg1 b = None →
  returns (uinet_pd_mbuf_zinit_pd_ctx pool_id c (Some i) s)
    (fun '(error, s1) => error = 0 ∧
       ∃ b1, mbufs s1 !! i = Some b1 ∧ ext_free b1 = Some PdMbufExtFree ∧
         uinet_pd_mbuf_ext_free (ext_arg1 b1) (ext_arg2 b1) s1 = Ok (tt, s1) ∧
         zone_pd_mbuf_ctx s1 = zone_pd_mbuf_ctx s ∧
         returns (uinet_pd_mbuf_free_ctx (ext_arg2 b1) s1)
           (fun '(_, s2) => zone_pd_mbuf_ctx s2 = c :: zone_pd_mbuf_ctx s)).
Proof.
  intros Hx Hb Ha. unfold uinet_pd_mbuf_zinit_pd_ctx, mbind, M_bind, mbuf_load, ctx_load. simpl.
  rewrite Hb. simpl. rewrite Hx. simpl. split; [done |]. eexists.
  rewrite lookup_insert_eq. simpl. rewrite Ha. split_and!; try done.
  unfold uinet_pd_mbuf_free_ctx, uinet_pd_mbuf_dtor_pd_ctx, mbind, M_bind, ctx_load. simpl.
  rewrite lookup_insert_eq. unfold mbuf_load. simpl. rewrite lookup_insert_eq. simpl.
  by destruct (has_flag _ _).
Qed.

Lemma uinet_pd_mbuf_ext_free_leaks_witness :
  returns (uinet_pd_mbuf_zinit_pd_ctx 0 1 (Some 11%nat) ex_store) (fun '(e, _) => e = 0).
Proof.
  pose proof (uinet_pd_mbuf_ext_free_leaks ex_store 0 1 11 _ _ eq_refl eq_refl eq_refl) as H.
  refine (returns_impl _ _ _ H _). intros [e s1] [K _]. exact K.
Defined.

End PktDescPool.
