(* ===== verification/Callout.v ===== *)
(** The callout wheel (src/src/lib/libuinet/uinet_kern_timeout.c) and the tick
    arithmetic of uinet_kern_clock.c.  [softclock] drops the wheel's lock at
    several points, where other threads run, so it is a state machine: a [phase]
    is a point of its code, and [softclock_step] runs it to the next one.  Stopping a
    callout is one critical section under the lock; rescheduling one that moves to
    another CPU is two ([reset_once]). *)
From S2P Require Import Prelude.

Module Callout.

Definition CALLOUT_LOCAL_ALLOC : Z := 0x0001.
Definition CALLOUT_ACTIVE : Z := 0x0002.
Definition CALLOUT_PENDING : Z := 0x0004.
Definition CALLOUT_RETURNUNLOCKED : Z := 0x0010.
Definition CALLOUT_SHAREDLOCK : Z := 0x0020.
Definition MAX_SOFTCLOCK_STEPS : Z := 100.

(** The lock [Giant]; other locks have other numbers. *)
Definition Giant : nat := 0.

(** [struct callout]: [c_func] is NULL or a function. *)
Record callout : Type := mk_callout {
  c_time : Z; c_arg : Z; c_func : option nat; c_lock : option nat; c_flags : Z; c_cpu : nat
}.

(** [struct callout_cpu]; [cc_locked] says whether [cc_lock] is held. *)
Record callout_cpu : Type := mk_cc {
  cc_locked : bool;
  cc_callout : bool;                    (** [cc_callout != NULL] *)
  cc_callwheel : list (list nat);
  cc_callfree : list nat;
  cc_next : option nat;
  cc_curr : option nat;
  cc_softticks : Z;
  cc_cancel : Z;
  cc_waiting : Z
}.

(** What [softclock] does that is visible outside: calls of handlers, with the
    value of [c_time] they were due at, and broadcasts on [callout_cv]. *)
Inductive event : Type :=
| Called (c : nat) (f : option nat) (arg : Z) (due : Z)
| Broadcast.

(** The local counters of [softclock]. *)
Record locals : Type := mk_locals {
  steps : Z; depth : Z; mpcalls : Z; lockcalls : Z; gcalls : Z
}.

Record cstate : Type := mk_cstate {
  ticks : Z;
  min_to_ticks : Z;
  callwheelmask : Z;
  cc_cpu : list callout_cpu;
  callouts : gmap nat callout;
  loc : locals;
  avgs : Z * Z * Z * Z;            (** avg_depth, avg_mpcalls, avg_lockcalls, avg_gcalls *)
  events : list event
}.

Abbreviation C := (M cstate).

Definition set_cpus (v : list callout_cpu) (s : cstate) : cstate :=
  mk_cstate (ticks s) (min_to_ticks s) (callwheelmask s) v (callouts s) (loc s) (avgs s) (events s).
Definition set_callouts (v : gmap nat callout) (s : cstate) : cstate :=
  mk_cstate (ticks s) (min_to_ticks s) (callwheelmask s) (cc_cpu s) v (loc s) (avgs s) (events s).
Definition set_min (v : Z) (s : cstate) : cstate :=
  mk_cstate (ticks s) v (callwheelmask s) (cc_cpu s) (callouts s) (loc s) (avgs s) (events s).
Definition set_ticks (v : Z) (s : cstate) : cstate :=
  mk_cstate v (min_to_ticks s) (callwheelmask s) (cc_cpu s) (callouts s) (loc s) (avgs s) (events s).
Definition set_loc (v : locals) (s : cstate) : cstate :=
  mk_cstate (ticks s) (min_to_ticks s) (callwheelmask s) (cc_cpu s) (callouts s) v (avgs s) (events s).
Definition set_avgs (v : Z * Z * Z * Z) (s : cstate) : cstate :=
  mk_cstate (ticks s) (min_to_ticks s) (callwheelmask s) (cc_cpu s) (callouts s) (loc s) v (events s).
Definition add_event (e : event) (s : cstate) : cstate :=
  mk_cstate (ticks s) (min_to_ticks s) (callwheelmask s) (cc_cpu s) (callouts s) (loc s) (avgs s)
    (events s ++ [e]).

Definition set_locked (v : bool) (cc : callout_cpu) : callout_cpu :=
  mk_cc v (cc_callout cc) (cc_callwheel cc) (cc_callfree cc) (cc_next cc) (cc_curr cc)
    (cc_softticks cc) (cc_cancel cc) (cc_waiting cc).
Definition set_wheel (v : list (list nat)) (cc : callout_cpu) : callout_cpu :=
  mk_cc (cc_locked cc) (cc_callout cc) v (cc_callfree cc) (cc_next cc) (cc_curr cc)
    (cc_softticks cc) (cc_cancel cc) (cc_waiting cc).
Definition set_callfree (v : list nat) (cc : callout_cpu) : callout_cpu :=
  mk_cc (cc_locked cc) (cc_callout cc) (cc_callwheel cc) v (cc_next cc) (cc_curr cc)
    (cc_softticks cc) (cc_cancel cc) (cc_waiting cc).
Definition set_next (v : option nat) (cc : callout_cpu) : callout_cpu :=
  mk_cc (cc_locked cc) (cc_callout cc) (cc_callwheel cc) (cc_callfree cc) v (cc_curr cc)
    (cc_softticks cc) (cc_cancel cc) (cc_waiting cc).
Definition set_curr (v : option nat) (cc : callout_cpu) : callout_cpu :=
  mk_cc (cc_locked cc) (cc_callout cc) (cc_callwheel cc) (cc_callfree cc) (cc_next cc) v
    (cc_softticks cc) (cc_cancel cc) (cc_waiting cc).
Definition set_softticks (v : Z) (cc : callout_cpu) : callout_cpu :=
  mk_cc (cc_locked cc) (cc_callout cc) (cc_callwheel cc) (cc_callfree cc) (cc_next cc) (cc_curr cc)
    v (cc_cancel cc) (cc_waiting cc).
Definition set_cancel (v : Z) (cc : callout_cpu) : callout_cpu :=
  mk_cc (cc_locked cc) (cc_callout cc) (cc_callwheel cc) (cc_callfree cc) (cc_next cc) (cc_curr cc)
    (cc_softticks cc) v (cc_waiting cc).
Definition set_waiting (v : Z) (cc : callout_cpu) : callout_cpu :=
  mk_cc (cc_locked cc) (cc_callout cc) (cc_callwheel cc) (cc_callfree cc) (cc_next cc) (cc_curr cc)
    (cc_softticks cc) (cc_cancel cc) v.

Definition set_cflags (v : Z) (c : callout) : callout :=
  mk_callout (c_time c) (c_arg c) (c_func c) (c_lock c) v (c_cpu c).
Definition set_cfunc (v : option nat) (c : callout) : callout :=
  mk_callout (c_time c) (c_arg c) v (c_lock c) (c_flags c) (c_cpu c).
Definition set_ccpu (v : nat) (c : callout) : callout :=
  mk_callout (c_time c) (c_arg c) (c_func c) (c_lock c) (c_flags c) v.

(** ** Loads and stores *)

Definition get_cc (k : nat) : C callout_cpu := fun s =>
  match cc_cpu s !! k with Some cc => Ok (cc, s) | None => Fault OutOfBounds end.

Definition upd_cc (k : nat) (f : callout_cpu → callout_cpu) : C unit :=
  cc ← get_cc k; modify (fun s => set_cpus (<[k := f cc]> (cc_cpu s)) s).

Definition get_c (c : nat) : C callout := fun s =>
  match callouts s !! c with Some x => Ok (x, s) | None => Fault BadPointer end.

Definition upd_c (c : nat) (f : callout → callout) : C unit :=
  x ← get_c c; modify (fun s => set_callouts (<[c := f x]> (callouts s)) s).

(** [CC_LOCK]: the mutex is not recursive, so locking it twice in one thread
    waits for ever. *)
Definition CC_LOCK (k : nat) : C unit :=
  cc ← get_cc k; if cc_locked cc then faultM Blocked else upd_cc k (set_locked true).

Definition CC_UNLOCK (k : nat) : C unit :=
  cc ← get_cc k; if cc_locked cc then upd_cc k (set_locked false) else faultM BadUnlock.

(** ** The queues *)

(** The element after [c]. *)
Fixpoint tailq_next (c : nat) (l : list nat) : option nat :=
  match l with
  | [] => None
  | x :: t => if decide (x = c) then head t else tailq_next c t
  end.

Definition bucket_index (s : cstate) (t : Z) : nat := Z.to_nat (Z.land t (callwheelmask s)).

(** [&cc->cc_callwheel[t & callwheelmask]]. *)
Definition bucket (k : nat) (t : Z) : C (list nat) :=
  cc ← get_cc k; b ← gets (fun s => bucket_index s t);
  match cc_callwheel cc !! b with Some l => mret l | None => faultM OutOfBounds end.

Definition bucket_store (k : nat) (t : Z) (l : list nat) : C unit :=
  b ← gets (fun s => bucket_index s t);
  upd_cc k (fun cc => set_wheel (<[b := l]> (cc_callwheel cc)) cc).

(** The links of a callout that is on no queue point nowhere. *)
Definition TAILQ_NEXT (k : nat) (t : Z) (c : nat) : C (option nat) :=
  l ← bucket k t; if decide (c ∈ l) then mret (tailq_next c l) else faultM BadPointer.

Definition TAILQ_REMOVE (k : nat) (t : Z) (c : nat) : C unit :=
  l ← bucket k t;
  if decide (c ∈ l) then bucket_store k t (filter (fun x => x ≠ c) l) else faultM BadPointer.

Definition TAILQ_INSERT_TAIL (k : nat) (t : Z) (c : nat) : C unit :=
  l ← bucket k t; bucket_store k t (l ++ [c]).

(** ** Initialisation *)

(** The loop of [kern_timeout_callwheel_alloc]: size and bits. *)
Fixpoint wheel_size_loop (fuel : nat) (ncallout size bits : Z) : result (Z * Z) :=
  if size <? ncallout then
    match fuel with
    | O => Fault Blocked
    | S f => wheel_size_loop f ncallout (s32 (Z.shiftl size 1)) (bits + 1)
    end
  else Ok (size, bits).

(** [callwheelsize], [callwheelbits] and [callwheelmask]. *)
Definition kern_timeout_callwheel_alloc (ncallout : Z) : result (Z * Z * Z) :=
  '(size, bits) ← wheel_size_loop 31 ncallout 1 0; Ok (size, bits, size - 1).

Definition callout_init (mpsafe : bool) : callout :=
  if mpsafe then mk_callout 0 0 None None CALLOUT_RETURNUNLOCKED 0
  else mk_callout 0 0 None (Some Giant) 0 0.

Definition _callout_init_lock (lock : option nat) (flags : Z) : callout :=
  mk_callout 0 0 None lock (Z.land flags (Z.lor CALLOUT_RETURNUNLOCKED CALLOUT_SHAREDLOCK)) 0.

(** [callout_cpu_init]: the callouts [ids] of the table go to the free list, the
    last one first; [size] is [callwheelsize]. *)
Definition callout_cpu_init (k : nat) (size : nat) (ids : list nat) : C unit :=
  _ ← upd_cc k (fun cc => set_wheel (replicate size []) (set_callfree [] (set_locked false cc)));
  cc ← get_cc k;
  if negb (cc_callout cc) then mret ()
  else
    _ ← modify (fun s => set_callouts
           (foldr (fun c m => <[c := set_cflags CALLOUT_LOCAL_ALLOC (callout_init false)]> m)
                  (callouts s) ids) s);
    upd_cc k (set_callfree (rev ids)).

(** ** Operations of other threads *)

(** [callout_lock(c)]: no other thread changes [c_cpu] between the two reads of
    an atomic step, so the loop ends in its first round. *)
Definition callout_lock (c : nat) : C nat :=
  x ← get_c c; _ ← CC_LOCK (c_cpu x); mret (c_cpu x).

(** Taking a pending callout off its queue, as [callout_reset_on] and
    [_callout_stop_safe] do it. *)
Definition unlink (k : nat) (c : nat) (x : callout) : C unit :=
  cc ← get_cc k;
  _ ← (if decide (cc_next cc = Some c) then
         n ← TAILQ_NEXT k (c_time x) c; upd_cc k (set_next n)
       else mret ());
  TAILQ_REMOVE k (c_time x) c.

(** [callout_reset_on] takes a pending callout off its queue; was it pending? *)
Definition reset_unlink (k : nat) (c : nat) (x : callout) : C bool :=
  if has_flag (c_flags x) CALLOUT_PENDING then
    _ ← unlink k c x;
    _ ← upd_c c (fun x => set_cflags
          (clear_flag (c_flags x) (Z.lor CALLOUT_ACTIVE CALLOUT_PENDING)) x);
    mret true
  else mret false.

(** The end of [callout_reset_on]: the callout gets its time and handler and
    joins the tail of its queue. *)
Definition reset_link (k : nat) (c : nat) (to_ticks : Z) (ftn : option nat) (arg : Z) : C unit :=
  let to_ticks := if to_ticks <=? 0 then 1 else to_ticks in
  _ ← modify (fun s => if (1 <? to_ticks) && (to_ticks <? min_to_ticks s)
                       then set_min to_ticks s else s);
  now ← gets ticks;
  let time := s32 (now + to_ticks) in
  _ ← upd_c c (fun x => mk_callout time arg ftn (c_lock x)
         (Z.lor (c_flags x) (Z.lor CALLOUT_ACTIVE CALLOUT_PENDING)) (c_cpu x));
  _ ← TAILQ_INSERT_TAIL k time c;
  CC_UNLOCK k.

(** How a critical section of [callout_reset_on] ends: with the result, or with the
    callout on its way to another CPU and [cc_lock] released, before [goto retry]. *)
Inductive reset_out : Type := Done (r : Z) | Again (cancelled : Z).

(** [callout_reset_on] from [retry] on, until it releases the lock. *)
Definition reset_once (c : nat) (to_ticks : Z) (ftn : option nat) (arg : Z) (cpu : nat) (cancelled : Z) : C reset_out :=
  k ← callout_lock c;
  cc ← get_cc k; x ← get_c c;
  let running := bool_decide (cc_curr cc = Some c) in
  let stoppable := running && bool_decide (is_Some (c_lock x)) && (cc_cancel cc =? 0) in
  _ ← (if stoppable then upd_cc k (set_cancel 1) else mret ());
  let cancelled := if stoppable then 1 else cancelled in
  if running && negb (cc_waiting cc =? 0) then
    _ ← CC_UNLOCK k; mret (Done cancelled)
  else
    pending ← reset_unlink k c x;
    let cancelled := if (pending : bool) then 1 else cancelled in
    if negb (Nat.eqb (c_cpu x) cpu) then
      _ ← upd_c c (set_ccpu cpu);
      _ ← CC_UNLOCK k;
      mret (Again cancelled)
    else
      _ ← reset_link k c to_ticks ftn arg; mret (Done cancelled).

(** The loop when no other thread comes in between; [fuel] bounds the number of
    retries. *)
Fixpoint reset_loop (fuel : nat) (c : nat) (to_ticks : Z) (ftn : option nat) (arg : Z)
    (cpu : nat) (cancelled : Z) : C Z :=
  o ← reset_once c to_ticks ftn arg cpu cancelled;
  match o with
  | Done r => mret r
  | Again cancelled =>
      match fuel with
      | O => faultM Blocked
      | S f => reset_loop f c to_ticks ftn arg cpu cancelled
      end
  end.

Definition callout_reset_on (c : nat) (to_ticks : Z) (ftn : option nat) (arg : Z) (cpu : nat)
    : C Z :=
  x ← get_c c;
  let cpu := if has_flag (c_flags x) CALLOUT_LOCAL_ALLOC then c_cpu x else cpu in
  reset_loop 1 c to_ticks ftn arg cpu 0.

Definition callout_schedule_on (c : nat) (to_ticks : Z) (cpu : nat) : C Z :=
  x ← get_c c; callout_reset_on c to_ticks (c_func x) (c_arg x) cpu.

Definition callout_schedule (c : nat) (to_ticks : Z) : C Z :=
  x ← get_c c; callout_reset_on c to_ticks (c_func x) (c_arg x) (c_cpu x).

(** [_callout_stop_safe]. With [safe] and the callout running it waits on
    [callout_cv] for [cc_curr] to change: [None] stands for a thread asleep there
    ([cv_wait] releases [cc_lock]); it is woken only by a broadcast. *)
Definition _callout_stop_safe (c : nat) (safe : bool) : C (option Z) :=
  x ← get_c c;
  let use_lock := negb safe && bool_decide (is_Some (c_lock x)) in
  k ← callout_lock c;
  if negb (has_flag (c_flags x) CALLOUT_PENDING) then
    _ ← upd_c c (fun x => set_cflags (clear_flag (c_flags x) CALLOUT_ACTIVE) x);
    cc ← get_cc k;
    if negb (bool_decide (cc_curr cc = Some c)) then _ ← CC_UNLOCK k; mret (Some 0)
    else if safe then _ ← CC_UNLOCK k; mret None
    else if use_lock && (cc_cancel cc =? 0) then
      _ ← upd_cc k (set_cancel 1); _ ← CC_UNLOCK k; mret (Some 1)
    else _ ← CC_UNLOCK k; mret (Some 0)
  else
    _ ← upd_c c (fun x => set_cflags
          (clear_flag (c_flags x) (Z.lor CALLOUT_ACTIVE CALLOUT_PENDING)) x);
    _ ← unlink k c x;
    _ ← (if has_flag (c_flags x) CALLOUT_LOCAL_ALLOC then
           _ ← upd_c c (set_cfunc None);
           upd_cc k (fun cc => set_callfree (c :: cc_callfree cc) cc)
         else mret ());
    _ ← CC_UNLOCK k; mret (Some 1).

(** [callout_stop(c)] and [callout_drain(c)]. *)
Definition callout_stop (c : nat) : C (option Z) := _callout_stop_safe c false.
Definition callout_drain (c : nat) : C (option Z) := _callout_stop_safe c true.

(** [timeout_cpu] is 0; [callout_reset] keeps the callout's CPU. *)
Definition timeout (ftn : option nat) (arg : Z) (to_ticks : Z) : C nat :=
  _ ← CC_LOCK 0;
  cc ← get_cc 0;
  match cc_callfree cc with
  | [] => faultM Panic
  | new :: t =>
      _ ← upd_cc 0 (set_callfree t);
      x ← get_c new;
      _ ← callout_reset_on new to_ticks ftn arg (c_cpu x);
      _ ← CC_UNLOCK 0; mret new
  end.

Definition untimeout (ftn : option nat) (arg : Z) (handle : option nat) : C unit :=
  match handle with
  | None => mret ()
  | Some c =>
      k ← callout_lock c;
      x ← get_c c;
      _ ← (if decide (c_func x = ftn ∧ c_arg x = arg)
           then _ ← callout_stop c; mret () else mret ());
      CC_UNLOCK k
  end.

Definition callout_handle_init : option nat := None.

(** ** The soft clock *)

(** The callout being run: the copies [softclock] made of its fields. *)
Record running : Type := mk_running {
  r_c : nat; r_ticks : Z; r_lock : option nat; r_func : option nat; r_arg : Z; r_flags : Z
}.

(** The points of [softclock] between which it runs without interruption. *)
Inductive phase : Type :=
| Outer                               (** test of the outer loop, lock held *)
| Scan (curticks : Z) (c : option nat)  (** test of the inner loop, lock held *)
| Yield (curticks : Z)                (** lock dropped to let others in *)
| TakeLock (r : running)              (** lock dropped, before locking [c_lock] *)
| Call (r : running)                  (** lock dropped, before the handler *)
| Return (r : running)                (** lock dropped, after the handler *)
| Skip (r : running)                  (** lock dropped, before taking it again *)
| Wake (curticks : Z)                 (** lock dropped, before the broadcast *)
| Idle.                               (** returned *)

Definition add_loc (ds dd dm dl dg : Z) (s : cstate) : cstate :=
  let l := loc s in
  set_loc (mk_locals (steps l + ds) (depth l + dd) (mpcalls l + dm) (lockcalls l + dl)
             (gcalls l + dg)) s.

Definition reset_steps (s : cstate) : cstate :=
  let l := loc s in set_loc (mk_locals 0 (depth l) (mpcalls l) (lockcalls l) (gcalls l)) s.

(** [avg += (n * 1000 - avg) >> 8]. *)
Definition average (avg n : Z) : Z := s32 (avg + Z.shiftr (s32 (s32 (n * 1000) - avg)) 8).

Definition softclock_start (k : nat) : C phase :=
  _ ← modify (set_loc (mk_locals 0 0 0 0 0)); _ ← CC_LOCK k; mret Outer.

(** The end of [softclock]. *)
Definition softclock_end (k : nat) : C phase :=
  _ ← modify (fun s => let l := loc s in let '(d, m, lk, g) := avgs s in
         set_avgs (average d (depth l), average m (mpcalls l), average lk (lockcalls l),
                   average g (gcalls l)) s);
  _ ← upd_cc k (set_next None); _ ← CC_UNLOCK k; mret Idle.

(** A callout that is not due: on to the next. *)
Definition pass_over (k : nat) (curticks : Z) (c : nat) : C phase :=
  n ← TAILQ_NEXT k curticks c;
  _ ← modify (add_loc 1 0 0 0 0);
  st ← gets (fun s => steps (loc s));
  if MAX_SOFTCLOCK_STEPS <=? st then
    _ ← upd_cc k (set_next n); _ ← CC_UNLOCK k; mret (Yield curticks)
  else mret (Scan curticks n).

(** A callout that is due: off the queue, not pending any more, current. *)
Definition pick (k : nat) (curticks : Z) (c : nat) (x : callout) : C phase :=
  n ← TAILQ_NEXT k curticks c;
  _ ← upd_cc k (set_next n);
  _ ← TAILQ_REMOVE k curticks c;
  _ ← upd_c c (fun x => set_cflags
        (if has_flag (c_flags x) CALLOUT_LOCAL_ALLOC then CALLOUT_LOCAL_ALLOC
         else clear_flag (c_flags x) CALLOUT_PENDING) x);
  _ ← upd_cc k (fun cc => set_cancel 0 (set_curr (Some c) cc));
  _ ← CC_UNLOCK k;
  mret (TakeLock (mk_running c curticks (c_lock x) (c_func x) (c_arg x) (c_flags x))).

(** From each point to the next. *)
Definition softclock_step (k : nat) (p : phase) : C phase :=
  match p with
  | Outer =>
      cc ← get_cc k; now ← gets ticks;
      if cc_softticks cc =? now then softclock_end k
      else
        let curticks := cc_softticks cc in
        _ ← upd_cc k (set_softticks (s32 (curticks + 1)));
        l ← bucket k curticks;
        mret (Scan curticks (head l))
  | Scan curticks None => mret Outer
  | Scan curticks (Some c) =>
      _ ← modify (add_loc 0 1 0 0 0);
      x ← get_c c;
      if negb (c_time x =? curticks) then pass_over k curticks c else pick k curticks c x
  | Yield curticks =>
      _ ← CC_LOCK k; cc ← get_cc k; _ ← modify reset_steps; mret (Scan curticks (cc_next cc))
  | TakeLock r =>
      match r_lock r with
      | Some l =>
          cc ← get_cc k;
          if negb (cc_cancel cc =? 0) then mret (Skip r)
          else
            _ ← upd_cc k (set_cancel 1);
            _ ← modify (if Nat.eqb l Giant then add_loc 0 0 0 0 1 else add_loc 0 0 0 1 0);
            mret (Call r)
      | None => _ ← modify (add_loc 0 0 1 0 0); mret (Call r)
      end
  | Call r =>
      match r_func r with
      | None => faultM NullDeref
      | Some _ => _ ← modify (add_event (Called (r_c r) (r_func r) (r_arg r) (r_ticks r)));
                  mret (Return r)
      end
  | Return r =>
      if negb (has_flag (r_flags r) CALLOUT_RETURNUNLOCKED)
      then match r_lock r with None => faultM NullDeref | Some _ => mret (Skip r) end
      else mret (Skip r)
  | Skip r =>
      _ ← CC_LOCK k;
      _ ← (if has_flag (r_flags r) CALLOUT_LOCAL_ALLOC then
             _ ← upd_c (r_c r) (set_cfunc None);
             upd_cc k (fun cc => set_callfree (r_c r :: cc_callfree cc) cc)
           else mret ());
      _ ← upd_cc k (set_curr None);
      cc ← get_cc k;
      if negb (cc_waiting cc =? 0) then
        _ ← upd_cc k (set_waiting 0); _ ← CC_UNLOCK k; mret (Wake (r_ticks r))
      else _ ← modify reset_steps; mret (Scan (r_ticks r) (cc_next cc))
  | Wake curticks =>
      _ ← modify (add_event Broadcast);
      _ ← CC_LOCK k; _ ← modify reset_steps; cc ← get_cc k; mret (Scan curticks (cc_next cc))
  | Idle => mret Idle
  end.

(** [softclock] without interference of other threads: [fuel] steps. *)
Fixpoint softclock_run (fuel : nat) (k : nat) (p : phase) : C unit :=
  match p with
  | Idle => mret ()
  | _ => match fuel with
         | O => faultM Blocked
         | S f => p' ← softclock_step k p; softclock_run f k p'
         end
  end.

Definition softclock (fuel : nat) (k : nat) : C unit :=
  p ← softclock_start k; softclock_run fuel k p.

(** The loop of [callout_tick]: skip empty buckets up to now; is there work? *)
Fixpoint tick_loop (fuel : nat) (k : nat) : C bool :=
  cc ← get_cc k; now ← gets ticks;
  if s32 (cc_softticks cc - now) <? 0 then
    l ← bucket k (cc_softticks cc);
    match l with
    | _ :: _ => mret true
    | [] => match fuel with
            | O => faultM Blocked
            | S f => _ ← upd_cc k (set_softticks (s32 (cc_softticks cc + 1))); tick_loop f k
            end
    end
  else mret false.

Definition callout_tick (fuel fuel' : nat) (k : nat) : C unit :=
  _ ← CC_LOCK k;
  need ← tick_loop fuel k;
  _ ← CC_UNLOCK k;
  if (need : bool) then softclock fuel' k else mret ().

(** ** Ticks (uinet_kern_clock.c) *)

(** [uinet_hardclock], but for [tc_ticktock] of the kernel's time counters. *)
Definition uinet_hardclock (fuel fuel' : nat) (k : nat) : C unit :=
  _ ← modify (fun s => set_ticks (s32 (ticks s + 1)) s); callout_tick fuel fuel' k.

(** [tvtohz] for a clock of [hz] ticks a second, [tick] microseconds each; the
    sums are [unsigned long]. *)
Definition tvtohz (hz tick : Z) (tv_sec tv_usec : Z) : Z :=
  let '(sec, usec) := if tv_usec <? 0 then (s64 (tv_sec - 1), tv_usec + 1000000)
                      else (tv_sec, tv_usec) in
  let ticks :=
    if sec <? 0 then 1
    else if sec <=? LONG_MAX / 1000000 then
      u64 (u64 (sec * 1000000 + usec + (tick - 1)) / tick + 1)
    else if sec <=? LONG_MAX / hz then
      u64 (sec * hz + u64 (usec + (tick - 1)) / tick + 1)
    else LONG_MAX in
  if INT_MAX <? ticks then INT_MAX else s32 ticks.

End Callout.
