(* ===== verification/CalloutSpec.v ===== *)
(** Properties of the callout wheel: the invariant that ties the queues to the
    callouts, kept by [softclock] under every interleaving with the operations of
    other threads, and what scheduling, stopping and the soft clock do. *)
From stdpp Require Import relations.
From S2P Require Import Prelude Callout.
Import Callout.

Module CalloutSpec.

(** ** Flags *)

Definition pending (x : callout) : bool := has_flag (c_flags x) CALLOUT_PENDING.
Definition is_local (x : callout) : bool := has_flag (c_flags x) CALLOUT_LOCAL_ALLOC.
Definition retunlocked (f : Z) : bool := has_flag f CALLOUT_RETURNUNLOCKED.

Lemma has_flag_clear f m n :
  0 <= n → has_flag (clear_flag f m) (2 ^ n) = has_flag f (2 ^ n) && negb (Z.testbit m n).
Proof.
  intros Hn. rewrite !has_flag_pow2 by done. unfold clear_flag.
  by rewrite Z.land_spec, Z.lnot_spec by done.
Qed.

Lemma has_flag_lor f m n :
  0 <= n → has_flag (Z.lor f m) (2 ^ n) = has_flag f (2 ^ n) || Z.testbit m n.
Proof. intros Hn. rewrite !has_flag_pow2 by done. by rewrite Z.lor_spec. Qed.

(** The flags the operations write, seen through the three flags that matter. *)
Ltac flag_bits :=
  unfold retunlocked;
  change CALLOUT_PENDING with (2 ^ 2); change CALLOUT_LOCAL_ALLOC with (2 ^ 0);
  change CALLOUT_RETURNUNLOCKED with (2 ^ 4); change CALLOUT_ACTIVE with (2 ^ 1);
  split_and!; rewrite ?has_flag_clear, ?has_flag_lor by lia; simpl Z.testbit; simpl negb;
  rewrite ?andb_true_r, ?andb_false_r, ?orb_true_r, ?orb_false_r; done.

Lemma clear_both_flags f :
  let f' := clear_flag f (Z.lor CALLOUT_ACTIVE CALLOUT_PENDING) in
  has_flag f' CALLOUT_PENDING = false ∧
  has_flag f' CALLOUT_LOCAL_ALLOC = has_flag f CALLOUT_LOCAL_ALLOC ∧
  retunlocked f' = retunlocked f.
Proof. simpl. flag_bits. Qed.

Lemma clear_active_flags f :
  let f' := clear_flag f CALLOUT_ACTIVE in
  has_flag f' CALLOUT_PENDING = has_flag f CALLOUT_PENDING ∧
  has_flag f' CALLOUT_LOCAL_ALLOC = has_flag f CALLOUT_LOCAL_ALLOC ∧
  retunlocked f' = retunlocked f.
Proof. simpl. flag_bits. Qed.

Lemma clear_pending_flags f :
  let f' := clear_flag f CALLOUT_PENDING in
  has_flag f' CALLOUT_PENDING = false ∧
  has_flag f' CALLOUT_LOCAL_ALLOC = has_flag f CALLOUT_LOCAL_ALLOC ∧
  retunlocked f' = retunlocked f.
Proof. simpl. flag_bits. Qed.

Lemma set_both_flags f :
  let f' := Z.lor f (Z.lor CALLOUT_ACTIVE CALLOUT_PENDING) in
  has_flag f' CALLOUT_PENDING = true ∧
  has_flag f' CALLOUT_LOCAL_ALLOC = has_flag f CALLOUT_LOCAL_ALLOC ∧
  retunlocked f' = retunlocked f.
Proof. simpl. flag_bits. Qed.

(** ** The invariant of the wheel *)

(** A callout: its CPU exists; while it is pending it has a handler and is not
    one of the table of [timeout]; without a lock its handler returns unlocked. *)
Definition cok (n : nat) (x : callout) : Prop :=
  (c_cpu x < n)%nat ∧ (pending x = true → is_Some (c_func x) ∧ is_local x = false) ∧
  (c_lock x = None → retunlocked (c_flags x) = true).

(** A callout is on a queue iff it is pending, and then on one, once: that of its
    CPU and time. *)
Record wheel_inv (s : cstate) : Prop := {
  wi_mask : ∃ n, 0 <= n ∧ callwheelmask s = Z.ones n;
  wi_shape : ∀ k cc, cc_cpu s !! k = Some cc →
    Z.of_nat (length (cc_callwheel cc)) = callwheelmask s + 1;
  wi_nodup : ∀ k cc b l, cc_cpu s !! k = Some cc → cc_callwheel cc !! b = Some l → NoDup l;
  wi_in : ∀ k cc b l c, cc_cpu s !! k = Some cc → cc_callwheel cc !! b = Some l → c ∈ l →
    ∃ x, callouts s !! c = Some x ∧ pending x = true ∧ c_cpu x = k ∧
         bucket_index s (c_time x) = b;
  wi_pending : ∀ c x, callouts s !! c = Some x → pending x = true →
    ∃ cc l, cc_cpu s !! c_cpu x = Some cc ∧
            cc_callwheel cc !! bucket_index s (c_time x) = Some l ∧ c ∈ l;
  wi_cok : ∀ c x, callouts s !! c = Some x → cok (length (cc_cpu s)) x
}.

(** The states of an operation that works on CPU [k]: everything as in [s] but
    for that CPU and the callouts. *)
Definition st (s : cstate) (k : nat) (cc : callout_cpu) (m : gmap nat callout) : cstate :=
  set_cpus (<[k := cc]> (cc_cpu s)) (set_callouts m s).

Lemma st_same s k cc : cc_cpu s !! k = Some cc → st s k cc (callouts s) = s.
Proof. intros H. destruct s; unfold st, set_cpus; simpl in *. by rewrite list_insert_id. Qed.

Lemma bucket_index_lt s t :
  (∃ n, 0 <= n ∧ callwheelmask s = Z.ones n) →
  Z.of_nat (bucket_index s t) < callwheelmask s + 1.
Proof.
  intros (n & Hn & E). unfold bucket_index. rewrite E, Z.land_ones, Z.ones_equiv by done.
  pose proof (Z.mod_pos_bound t (2 ^ n)). pose proof (Z.pow_pos_nonneg 2 n). lia.
Qed.

Lemma wheel_bucket s k cc t :
  wheel_inv s → cc_cpu s !! k = Some cc →
  ∃ l, cc_callwheel cc !! bucket_index s t = Some l.
Proof.
  intros Hw Hk. apply lookup_lt_is_Some_2.
  pose proof (bucket_index_lt s t (wi_mask s Hw)). pose proof (wi_shape s Hw k cc Hk). lia.
Qed.

(** ** The primitives on such states *)

Section Primitives.
Context (s : cstate) (k : nat) (cc0 : callout_cpu).
Hypothesis Hk : cc_cpu s !! k = Some cc0.

Lemma st_lookup cc m : cc_cpu (st s k cc m) !! k = Some cc.
Proof. simpl. apply list_lookup_insert_eq. by eapply lookup_lt_Some. Qed.

Lemma get_cc_st cc m : get_cc k (st s k cc m) = Ok (cc, st s k cc m).
Proof. unfold get_cc. by rewrite st_lookup. Qed.

Lemma upd_cc_st f cc m : upd_cc k f (st s k cc m) = Ok (tt, st s k (f cc) m).
Proof.
  unfold upd_cc, mbind, M_bind. rewrite get_cc_st. unfold modify, st, set_cpus. simpl.
  by rewrite list_insert_insert_eq.
Qed.

Lemma get_c_st c x cc m : m !! c = Some x → get_c c (st s k cc m) = Ok (x, st s k cc m).
Proof. intros H. unfold get_c. simpl. by rewrite H. Qed.

Lemma upd_c_st c x f cc m :
  m !! c = Some x → upd_c c f (st s k cc m) = Ok (tt, st s k cc (<[c := f x]> m)).
Proof. intros H. unfold upd_c, mbind, M_bind. by rewrite (get_c_st c x). Qed.

Lemma CC_LOCK_st cc m :
  cc_locked cc = false → CC_LOCK k (st s k cc m) = Ok (tt, st s k (set_locked true cc) m).
Proof. intros H. unfold CC_LOCK, mbind, M_bind. rewrite get_cc_st, H. apply upd_cc_st. Qed.

Lemma CC_LOCK_busy cc m : cc_locked cc = true → CC_LOCK k (st s k cc m) = Fault Blocked.
Proof. intros H. unfold CC_LOCK, mbind, M_bind. by rewrite get_cc_st, H. Qed.

Lemma CC_UNLOCK_st cc m :
  cc_locked cc = true → CC_UNLOCK k (st s k cc m) = Ok (tt, st s k (set_locked false cc) m).
Proof. intros H. unfold CC_UNLOCK, mbind, M_bind. rewrite get_cc_st, H. apply upd_cc_st. Qed.

Lemma bucket_st t l cc m :
  cc_callwheel cc !! bucket_index s t = Some l → bucket k t (st s k cc m) = Ok (l, st s k cc m).
Proof.
  intros H. unfold bucket, mbind, M_bind. rewrite get_cc_st. unfold gets.
  change (bucket_index (st s k cc m) t) with (bucket_index s t). by rewrite H.
Qed.

Lemma TAILQ_NEXT_st t c l cc m :
  cc_callwheel cc !! bucket_index s t = Some l → c ∈ l →
  TAILQ_NEXT k t c (st s k cc m) = Ok (tailq_next c l, st s k cc m).
Proof.
  intros H Hc. unfold TAILQ_NEXT. erewrite M_bind_Ok by (by apply bucket_st).
  by rewrite decide_True.
Qed.

Lemma bucket_store_st t l cc m :
  bucket_store k t l (st s k cc m) =
  Ok (tt, st s k (set_wheel (<[bucket_index s t := l]> (cc_callwheel cc)) cc) m).
Proof.
  unfold bucket_store. erewrite M_bind_Ok by done.
  apply (upd_cc_st (fun cc => set_wheel (<[bucket_index s t := l]> (cc_callwheel cc)) cc)).
Qed.

Lemma TAILQ_REMOVE_st t c l cc m :
  cc_callwheel cc !! bucket_index s t = Some l → c ∈ l →
  TAILQ_REMOVE k t c (st s k cc m) =
  Ok (tt, st s k (set_wheel (<[bucket_index s t := filter (fun x => x ≠ c) l]>
                               (cc_callwheel cc)) cc) m).
Proof.
  intros H Hc. unfold TAILQ_REMOVE. erewrite M_bind_Ok by (by apply bucket_st).
  rewrite decide_True by done. apply bucket_store_st.
Qed.

Lemma TAILQ_INSERT_TAIL_st t c l cc m :
  cc_callwheel cc !! bucket_index s t = Some l →
  TAILQ_INSERT_TAIL k t c (st s k cc m) =
  Ok (tt, st s k (set_wheel (<[bucket_index s t := l ++ [c]]> (cc_callwheel cc)) cc) m).
Proof.
  intros H. unfold TAILQ_INSERT_TAIL. erewrite M_bind_Ok by (by apply bucket_st).
  apply bucket_store_st.
Qed.

(** Taking a callout off its queue advances [cc_next] when it points to it. *)
Definition unlinked (c : nat) (x : callout) (l : list nat) (cc : callout_cpu) : callout_cpu :=
  set_wheel (<[bucket_index s (c_time x) := filter (fun y => y ≠ c) l]> (cc_callwheel cc))
    (if decide (cc_next cc = Some c) then set_next (tailq_next c l) cc else cc).

Lemma unlink_st c x l cc m :
  cc_callwheel cc !! bucket_index s (c_time x) = Some l → c ∈ l →
  unlink k c x (st s k cc m) = Ok (tt, st s k (unlinked c x l cc) m).
Proof.
  intros H Hc. unfold unlink, unlinked. erewrite M_bind_Ok by apply get_cc_st.
  destruct (decide (cc_next cc = Some c)).
  - erewrite M_bind_Ok; [by apply (TAILQ_REMOVE_st _ _ l (set_next (tailq_next c l) cc)) |].
    erewrite M_bind_Ok by (by apply TAILQ_NEXT_st). apply upd_cc_st.
  - erewrite M_bind_Ok by done. by apply TAILQ_REMOVE_st.
Qed.
End Primitives.

(** ** What keeps the invariant *)

Lemma st_lookup_inv s k cc m j cc' :
  cc_cpu (st s k cc m) !! j = Some cc' → (j = k ∧ cc' = cc) ∨ (j ≠ k ∧ cc_cpu s !! j = Some cc').
Proof. simpl. rewrite list_lookup_insert_Some. naive_solver. Qed.

(** Only the queues of the CPU matter. *)
Lemma wheel_inv_cc s k cc cc' m :
  cc_callwheel cc' = cc_callwheel cc → wheel_inv (st s k cc m) → wheel_inv (st s k cc' m).
Proof.
  intros E Hw.
  assert (∀ j d', cc_cpu (st s k cc' m) !! j = Some d' →
    ∃ d, cc_cpu (st s k cc m) !! j = Some d ∧ cc_callwheel d' = cc_callwheel d) as Hback.
  { intros j d' Hj. apply list_lookup_insert_Some in Hj as [(<- & <- & Hlt) | [Hne Hj]].
    - exists cc. split; [by apply list_lookup_insert_eq | done].
    - exists d'. simpl. by rewrite list_lookup_insert_ne. }
  destruct Hw as [H1 H2 H3 H4 H5 H6]. split.
  - exact H1.
  - intros j d' Hj. destruct (Hback j d' Hj) as (d & Hd & ->). by eapply H2.
  - intros j d' b l Hj. destruct (Hback j d' Hj) as (d & Hd & ->). by eapply H3.
  - intros j d' b l c Hj. destruct (Hback j d' Hj) as (d & Hd & ->). by eapply H4.
  - intros c x Hc Hp. destruct (H5 c x Hc Hp) as (d & l & Hd & Hl & Hin).
    simpl in Hd |- *. apply list_lookup_insert_Some in Hd as [(E1 & <- & Hlt) | [Hne Hj]].
    + exists cc', l. rewrite <- E1. rewrite E.
      split_and!; [apply list_lookup_insert_eq; lia | done | done].
    + exists d, l. by rewrite list_lookup_insert_ne.
  - intros c x Hc. specialize (H6 c x Hc). simpl in *. by rewrite length_insert in *.
Qed.

(** A callout that is not pending changes and stays so. *)
Lemma wheel_inv_update s k cc m c x x' :
  wheel_inv (st s k cc m) → m !! c = Some x → pending x = false → pending x' = false →
  cok (length (cc_cpu s)) x' → wheel_inv (st s k cc (<[c := x']> m)).
Proof.
  intros [H1 H2 H3 H4 H5 H6] Hx Hp Hp' Hok. split; [done | done | done | | |].
  - intros j d b l e Hj Hb He. destruct (H4 j d b l e Hj Hb He) as (y & Hy & Hpy & Hr).
    simpl in *. exists y. rewrite lookup_insert_ne; [done |]. intros ->. congruence.
  - intros e y He Hpy. simpl in He. apply lookup_insert_Some in He as [[<- <-] | [Hne He]];
      [congruence | by apply H5].
  - intros e y He. simpl in He. apply lookup_insert_Some in He as [[<- <-] | [Hne He]].
    + simpl. by rewrite length_insert.
    + by apply (H6 e).
Qed.

Lemma not_elem_filter (c : nat) (l : list nat) : c ∉ filter (fun y => y ≠ c) l.
Proof. rewrite list_elem_of_filter. naive_solver. Qed.

(** A pending callout leaves its queue and is not pending any more. *)
Lemma wheel_inv_remove s k cc m c x x' l :
  cc_cpu s !! k = Some cc ∨ (k < length (cc_cpu s))%nat →
  wheel_inv (st s k cc m) → m !! c = Some x → pending x = true → c_cpu x = k →
  cc_callwheel cc !! bucket_index s (c_time x) = Some l →
  pending x' = false → cok (length (cc_cpu s)) x' →
  wheel_inv (st s k (set_wheel (<[bucket_index s (c_time x) := filter (fun y => y ≠ c) l]>
                                  (cc_callwheel cc)) cc) (<[c := x']> m)).
Proof.
  intros Hk [H1 H2 H3 H4 H5 H6] Hx Hp Hcpu Hl Hp' Hok.
  assert (k < length (cc_cpu s))%nat as Hlt by (destruct Hk; [by eapply lookup_lt_Some | done]).
  assert (cc_cpu (st s k cc m) !! k = Some cc) as Hkk by (by apply list_lookup_insert_eq).
  split; [done | | | | |].
  - intros j d Hj. apply st_lookup_inv in Hj as [[-> ->] | [Hne Hj]].
    + simpl. rewrite length_insert. by apply (H2 k).
    + apply (H2 j). simpl. by rewrite list_lookup_insert_ne.
  - intros j d b l' Hj Hb. apply st_lookup_inv in Hj as [[-> ->] | [Hne Hj]].
    + simpl in Hb. apply list_lookup_insert_Some in Hb as [(<- & <- & _) | [_ Hb]].
      * apply NoDup_filter. by eapply H3.
      * by eapply H3.
    + apply (H3 j d b); [simpl; by rewrite list_lookup_insert_ne | done].
  - intros j d b l' e Hj Hb He.
    assert (e ≠ c ∧ ∃ l0 d0, cc_cpu (st s k cc m) !! j = Some d0 ∧
              cc_callwheel d0 !! b = Some l0 ∧ e ∈ l0) as (Hec & l0 & d0 & Hd0 & Hl0 & He0).
    { apply st_lookup_inv in Hj as [[-> ->] | [Hne Hj]].
      - simpl in Hb. apply list_lookup_insert_Some in Hb as [(<- & <- & _) | [Hnb Hb]].
        + apply list_elem_of_filter in He as [Hec He]. split; [done |]. by exists l, cc.
        + split; [| by exists l', cc]. intros ->.
          destruct (H4 k cc b l' c Hkk Hb He) as (y & Hy & _ & _ & Hi).
          simpl in Hy. simplify_eq.
      - split; [| exists l', d; split_and!; [simpl; by rewrite list_lookup_insert_ne | done..]].
        intros ->. destruct (H4 j d b l' c) as (y & Hy & _ & Hj' & _); [| done.. |].
        + simpl. by rewrite list_lookup_insert_ne.
        + simpl in Hy. simplify_eq. }
    destruct (H4 j d0 b l0 e Hd0 Hl0 He0) as (y & Hy & Hr). exists y.
    split; [simpl; by rewrite lookup_insert_ne | done].
  - intros e y He Hpy. simpl in He. apply lookup_insert_Some in He as [[<- <-] | [Hne He]];
      [congruence |].
    destruct (H5 e y He Hpy) as (d & l' & Hd & Hl' & Hin).
    apply st_lookup_inv in Hd as [[Ek ->] | [Hne' Hj]].
    + rewrite Ek. eexists _. destruct (decide (bucket_index s (c_time y) = bucket_index s (c_time x)))
        as [Eb | Eb].
      * exists (filter (fun z => z ≠ c) l). split; [by apply list_lookup_insert_eq |].
        change (bucket_index (st s k cc m) (c_time y)) with (bucket_index s (c_time y)) in Hl'.
        rewrite Eb in Hl'. simplify_eq. split; [| by apply list_elem_of_filter].
        simpl. change (bucket_index _ (c_time y)) with (bucket_index s (c_time y)).
        rewrite Eb. apply list_lookup_insert_eq. by eapply lookup_lt_Some.
      * exists l'. split; [by apply list_lookup_insert_eq |]. split; [| done].
        simpl. by rewrite list_lookup_insert_ne.
    + exists d, l'. split; [simpl; by rewrite list_lookup_insert_ne | done].
  - intros e y He. simpl in He. apply lookup_insert_Some in He as [[<- <-] | [Hne He]].
    + simpl. by rewrite length_insert.
    + specialize (H6 e y He). simpl in *. by rewrite length_insert in *.
Qed.

(** A callout that was not pending becomes so and joins the tail of its queue. *)
Lemma wheel_inv_insert s k cc m c x x' l :
  (k < length (cc_cpu s))%nat →
  wheel_inv (st s k cc m) → m !! c = Some x → pending x = false →
  pending x' = true → c_cpu x' = k → cok (length (cc_cpu s)) x' →
  cc_callwheel cc !! bucket_index s (c_time x') = Some l →
  wheel_inv (st s k (set_wheel (<[bucket_index s (c_time x') := l ++ [c]]> (cc_callwheel cc)) cc)
               (<[c := x']> m)).
Proof.
  intros Hlt [H1 H2 H3 H4 H5 H6] Hx Hp Hp' Hcpu Hok Hl.
  assert (cc_cpu (st s k cc m) !! k = Some cc) as Hkk by (by apply list_lookup_insert_eq).
  assert (∀ j d b l' e, cc_cpu (st s k cc m) !! j = Some d → cc_callwheel d !! b = Some l' →
            e ∈ l' → e ≠ c) as Hnew.
  { intros j d b l' e Hj Hb He ->. destruct (H4 j d b l' c Hj Hb He) as (y & Hy & Hpy & _).
    simpl in Hy. congruence. }
  assert (∀ j d, j ≠ k → cc_cpu s !! j = Some d → cc_cpu (st s k cc m) !! j = Some d) as Hother.
  { intros. simpl. by rewrite list_lookup_insert_ne. }
  assert (∀ j d b l' e, cc_cpu (st s k cc m) !! j = Some d → cc_callwheel d !! b = Some l' →
     e ∈ l' → ∃ y, <[c := x']> m !! e = Some y ∧ pending y = true ∧ c_cpu y = j ∧
                   bucket_index s (c_time y) = b) as Hold.
  { intros j d b l' e Hj Hb He. destruct (H4 j d b l' e Hj Hb He) as (y & Hy & Hr). exists y.
    rewrite lookup_insert_ne; [done |]. pose proof (Hnew j d b l' e Hj Hb He). done. }
  split; [done | | | | |].
  - intros j d Hj. apply st_lookup_inv in Hj as [[-> ->] | [Hne Hj]].
    + simpl. rewrite length_insert. by apply (H2 k).
    + by eapply H2, Hother.
  - intros j d b l' Hj Hb. apply st_lookup_inv in Hj as [[-> ->] | [Hne Hj]].
    + simpl in Hb. apply list_lookup_insert_Some in Hb as [(<- & <- & _) | [_ Hb]].
      * apply NoDup_app. split_and!; [by eapply H3 | | apply NoDup_singleton].
        intros e He ->%list_elem_of_singleton. by eapply Hnew.
      * by eapply H3.
    + by eapply H3; [apply Hother | ].
  - intros j d b l' e Hj Hb He. apply st_lookup_inv in Hj as [[-> ->] | [Hne Hj]].
    + simpl in Hb. apply list_lookup_insert_Some in Hb as [(<- & <- & _) | [_ Hb]].
      * apply elem_of_app in He as [He | ->%list_elem_of_singleton]; [by eapply Hold |].
        exists x'. split; [apply lookup_insert_eq | done].
      * by eapply Hold.
    + by eapply Hold; [apply Hother | |].
  - intros e y He Hpy. simpl in He. apply lookup_insert_Some in He as [[<- <-] | [Hne He]].
    + rewrite Hcpu. eexists _, (l ++ [c]). split; [by apply list_lookup_insert_eq |].
      split; [| set_solver]. apply list_lookup_insert_eq. by eapply lookup_lt_Some.
    + destruct (H5 e y He Hpy) as (d & l' & Hd & Hl' & Hin).
      apply st_lookup_inv in Hd as [[Ek ->] | [Hne' Hj]].
      * rewrite Ek. eexists _.
        change (bucket_index (st s k cc m) (c_time y)) with (bucket_index s (c_time y)) in Hl'.
        destruct (decide (bucket_index s (c_time y) = bucket_index s (c_time x'))) as [Eb | Eb].
        -- exists (l ++ [c]). split; [by apply list_lookup_insert_eq |].
           rewrite Eb in Hl'. simplify_eq. split; [| set_solver].
           simpl. change (bucket_index _ (c_time y)) with (bucket_index s (c_time y)).
           rewrite Eb. apply list_lookup_insert_eq. by eapply lookup_lt_Some.
        -- exists l'. split; [by apply list_lookup_insert_eq |]. split; [| done].
           simpl. by rewrite list_lookup_insert_ne.
      * exists d, l'. split; [simpl; by rewrite list_lookup_insert_ne | done].
  - intros e y He. simpl in He. apply lookup_insert_Some in He as [[<- <-] | [Hne He]].
    + simpl. by rewrite length_insert.
    + specialize (H6 e y He). simpl in *. by rewrite length_insert in *.
Qed.

(** ** Operations of other threads keep the invariant *)

(** [cc_next] is on the queue of time [t]. *)
Definition next_in (s : cstate) (cc : callout_cpu) (t : Z) : Prop :=
  ∀ n, cc_next cc = Some n → ∃ l, cc_callwheel cc !! bucket_index s t = Some l ∧ n ∈ l.

(** How another thread may change a CPU under the feet of [softclock]. *)
Definition cc_evolves (s : cstate) (cc cc' : callout_cpu) : Prop :=
  cc_locked cc' = cc_locked cc ∧ cc_curr cc' = cc_curr cc ∧ cc_waiting cc' = cc_waiting cc ∧
  cc_softticks cc' = cc_softticks cc ∧
  (∀ t, next_in s cc t → next_in s cc' t) ∧ (cc_next cc = None → cc_next cc' = None) ∧
  (cc_locked cc = true → cc' = cc).

Record env_ok (s s' : cstate) : Prop := {
  eo_inv : wheel_inv s';
  eo_mask : callwheelmask s' = callwheelmask s;
  eo_dom : ∀ c, is_Some (callouts s !! c) → is_Some (callouts s' !! c);
  eo_cpus : ∀ j cc, cc_cpu s !! j = Some cc → ∃ cc', cc_cpu s' !! j = Some cc' ∧ cc_evolves s cc cc';
  eo_len : length (cc_cpu s') = length (cc_cpu s);
  eo_events : events s' = events s
}.

Lemma cc_evolves_refl s cc : cc_evolves s cc cc.
Proof. by split_and!. Qed.

Lemma cc_evolves_trans s s' c1 c2 c3 :
  callwheelmask s' = callwheelmask s → cc_evolves s c1 c2 → cc_evolves s' c2 c3 →
  cc_evolves s c1 c3.
Proof.
  intros Em (A1 & A2 & A3 & A4 & A5 & A6 & A7) (B1 & B2 & B3 & B4 & B5 & B6 & B7).
  split_and!; [congruence.. | | auto |].
  - intros t H. specialize (B5 t). unfold next_in, bucket_index in *. rewrite Em in B5. auto.
  - intros Hl. rewrite (B7 ltac:(congruence)). auto.
Qed.

Lemma env_ok_trans s1 s2 s3 : env_ok s1 s2 → env_ok s2 s3 → env_ok s1 s3.
Proof.
  intros [A1 A2 A3 A4 A5 A6] [B1 B2 B3 B4 B5 B6]. split; [done | congruence | auto | | congruence..].
  intros j cc Hj. destruct (A4 j cc Hj) as (cc' & Hj' & E). destruct (B4 j cc' Hj') as (cc'' & Hj'' & E').
  exists cc''. split; [done |]. by eapply cc_evolves_trans.
Qed.

Lemma env_ok_st s k cc cc' m :
  cc_cpu s !! k = Some cc → wheel_inv (st s k cc' m) →
  (∀ c, is_Some (callouts s !! c) → is_Some (m !! c)) → cc_evolves s cc cc' →
  env_ok s (st s k cc' m).
Proof.
  intros Hk Hw Hd He. split; [done.. | | | done].
  - intros j d Hj. destruct (decide (j = k)) as [-> | Hne].
    + exists cc'. simplify_eq. split; [by eapply st_lookup | done].
    + exists d. split; [simpl; by rewrite list_lookup_insert_ne | apply cc_evolves_refl].
  - simpl. apply length_insert.
Qed.

Lemma insert_dom (m m' : gmap nat callout) c x :
  (∀ d, is_Some (m !! d) → is_Some (m' !! d)) →
  ∀ d, is_Some (m !! d) → is_Some (<[c := x]> m' !! d).
Proof. intros H d Hd. apply lookup_insert_is_Some'. right. auto. Qed.

Lemma tailq_next_in c l n : NoDup l → tailq_next c l = Some n → n ∈ l ∧ n ≠ c.
Proof.
  induction l as [| y l IH]; intros Hnd H; simpl in *; [done |].
  apply NoDup_cons in Hnd as [Hy Hnd]. destruct (decide (y = c)) as [-> | Hne].
  - destruct l; simplify_eq/=. split; set_solver.
  - destruct (IH Hnd H). set_solver.
Qed.

(** Taking a pending callout off its queue is such a change. *)
Lemma unlinked_evolves s k cc c x l :
  wheel_inv s → cc_cpu s !! k = Some cc → cc_locked cc = false →
  callouts s !! c = Some x → c_cpu x = k →
  cc_callwheel cc !! bucket_index s (c_time x) = Some l → c ∈ l →
  cc_evolves s cc (unlinked s c x l cc).
Proof.
  intros Hw Hk Hlk Hx Hcpu Hl Hin. unfold unlinked.
  assert (NoDup l) as Hnd by (by eapply wi_nodup).
  assert (bucket_index s (c_time x) < length (cc_callwheel cc))%nat as Hlt
    by (by eapply lookup_lt_Some).
  destruct (decide (cc_next cc = Some c)) as [Hn | Hn].
  - split_and!; try done; [| intros; simpl in *; congruence.. ].
    intros t Ht n Hnext. simpl in Hnext |- *.
    destruct (Ht c Hn) as (l' & Hl' & Hc').
    destruct (wi_in s Hw k cc _ l' c Hk Hl' Hc') as (y & Hy & _ & _ & Hb). simplify_eq.
    rewrite <- Hb. exists (filter (fun z => z ≠ c) l). split; [by apply list_lookup_insert_eq |].
    apply tailq_next_in in Hnext as [??]; [| done]. by apply list_elem_of_filter.
  - split_and!; try done; [| intros; simpl in *; congruence.. ].
    intros t Ht n Hnext. simpl in Hnext |- *. destruct (Ht n Hnext) as (l' & Hl' & Hc').
    destruct (decide (bucket_index s t = bucket_index s (c_time x))) as [Eb | Eb].
    + rewrite Eb in Hl' |- *. simplify_eq. exists (filter (fun z => z ≠ c) l).
      split; [by apply list_lookup_insert_eq |]. apply list_elem_of_filter. split; [congruence | done].
    + exists l'. by rewrite list_lookup_insert_ne.
Qed.

(** Run the next primitive of the code. *)
Ltac cprim := first [
    eapply get_cc_st | eapply upd_cc_st | eapply get_c_st | eapply upd_c_st
  | eapply CC_LOCK_st | eapply CC_UNLOCK_st | eapply unlink_st | eapply TAILQ_INSERT_TAIL_st ];
  eauto using lookup_insert_eq.
Ltac cif := cbn [negb andb orb].
Ltac crun := erewrite M_bind_Ok by cprim; cbn beta.

Lemma cok_flags n x f' :
  cok n x → retunlocked f' = retunlocked (c_flags x) → has_flag f' CALLOUT_PENDING = false →
  cok n (set_cflags f' x).
Proof.
  intros (H1 & H2 & H3) Hr Hp. split_and!; [done | | simpl; by rewrite Hr].
  unfold pending. simpl. congruence.
Qed.

Lemma unlock_unlinked s c x l cc :
  cc_locked cc = false →
  set_locked false (unlinked s c x l (set_locked true cc)) = unlinked s c x l cc.
Proof.
  intros H. destruct cc; simpl in *. subst. unfold unlinked. simpl.
  by destruct (decide (cc_next0 = Some c)).
Qed.

Lemma relock cc : cc_locked cc = false → set_locked false (set_locked true cc) = cc.
Proof. destruct cc; simpl. by intros ->. Qed.

Lemma locked_unlinked s c x l cc :
  cc_locked (unlinked s c x l (set_locked true cc)) = true.
Proof. unfold unlinked. simpl. by destruct (decide _). Qed.

Definition unpend (x : callout) : callout :=
  set_cflags (clear_flag (c_flags x) (Z.lor CALLOUT_ACTIVE CALLOUT_PENDING)) x.

Definition deactivate (x : callout) : callout :=
  set_cflags (clear_flag (c_flags x) CALLOUT_ACTIVE) x.

(** [callout_lock] on a free CPU, and on one that is locked. *)
Lemma callout_lock_st s c x cc :
  cc_cpu s !! c_cpu x = Some cc → callouts s !! c = Some x → cc_locked cc = false →
  callout_lock c (st s (c_cpu x) cc (callouts s)) =
  Ok (c_cpu x, st s (c_cpu x) (set_locked true cc) (callouts s)).
Proof. intros Hk Hx Hl. unfold callout_lock. crun. by crun. Qed.

Lemma callout_lock_busy s c x cc :
  cc_cpu s !! c_cpu x = Some cc → callouts s !! c = Some x → cc_locked cc = true →
  callout_lock c s = Fault Blocked.
Proof.
  intros Hk Hx Hl. rewrite <- (st_same s (c_cpu x) cc) by done. unfold callout_lock. crun.
  unfold mbind, M_bind. by rewrite (CC_LOCK_busy s (c_cpu x) cc).
Qed.

(** [_callout_stop_safe] on a pending callout. *)
Lemma stop_pending s c safe x cc :
  wheel_inv s → callouts s !! c = Some x → pending x = true →
  cc_cpu s !! c_cpu x = Some cc → cc_locked cc = false →
  ∃ l, cc_callwheel cc !! bucket_index s (c_time x) = Some l ∧ c ∈ l ∧
    _callout_stop_safe c safe s =
      Ok (Some 1, st s (c_cpu x) (unlinked s c x l cc) (<[c := unpend x]> (callouts s))).
Proof.
  intros Hw Hx Hp Hk Hl.
  destruct (wi_pending s Hw c x Hx Hp) as (cc' & l & Hk' & Hb & Hin). simplify_eq.
  destruct (wi_cok s Hw c x Hx) as (_ & Hpend & _). destruct (Hpend Hp) as [_ Hloc].
  exists l. split_and!; [done.. |].
  rewrite <- (st_same s (c_cpu x) cc) at 1 by done. unfold _callout_stop_safe.
  crun. erewrite M_bind_Ok by (by apply callout_lock_st). cbn beta.
  fold (pending x). rewrite Hp. cif.
  crun. crun.
  unfold is_local in Hloc. rewrite Hloc. erewrite M_bind_Ok by done.
  erewrite M_bind_Ok by (eapply CC_UNLOCK_st; [done | apply locked_unlinked]).
  unfold mret, M_ret. by rewrite unlock_unlinked.
Qed.

(** On a callout that is not pending: nothing to stop, asleep in [cv_wait],
    cancelled before it ran, or too late. *)
Definition stop_idle_result (safe : bool) (cc : callout_cpu) (c : nat) (x : callout) : option Z :=
  if negb (bool_decide (cc_curr cc = Some c)) then Some 0
  else if safe then None
  else if bool_decide (is_Some (c_lock x)) && (cc_cancel cc =? 0) then Some 1 else Some 0.

Definition stop_idle_cc (safe : bool) (cc : callout_cpu) (c : nat) (x : callout) : callout_cpu :=
  if decide (stop_idle_result safe cc c x = Some 1) then set_cancel 1 cc else cc.

Lemma stop_idle s c safe x cc :
  callouts s !! c = Some x → pending x = false →
  cc_cpu s !! c_cpu x = Some cc → cc_locked cc = false →
  _callout_stop_safe c safe s =
    Ok (stop_idle_result safe cc c x,
        st s (c_cpu x) (stop_idle_cc safe cc c x) (<[c := deactivate x]> (callouts s))).
Proof.
  intros Hx Hp Hk Hl. rewrite <- (st_same s (c_cpu x) cc) at 1 by done.
  unfold _callout_stop_safe, stop_idle_cc, stop_idle_result.
  crun. erewrite M_bind_Ok by (by apply callout_lock_st). cbn beta.
  fold (pending x). rewrite Hp. cif. crun. crun.
  change (cc_curr (set_locked true cc)) with (cc_curr cc).
  change (cc_cancel (set_locked true cc)) with (cc_cancel cc).
  destruct (bool_decide (cc_curr cc = Some c)); cif.
  - destruct safe; cif.
    + crun. simpl. by rewrite relock.
    + destruct (bool_decide (is_Some (c_lock x)) && (cc_cancel cc =? 0));
        [crun; crun | crun]; simpl; [| by rewrite relock].
      unfold mret, M_ret. do 3 f_equal. destruct cc; simpl in *. by subst.
  - crun. simpl. by rewrite relock.
Qed.

(** ** Stopping keeps the invariant *)

Lemma callout_cpu_exists s c x :
  wheel_inv s → callouts s !! c = Some x → ∃ cc, cc_cpu s !! c_cpu x = Some cc.
Proof. intros Hw Hx. apply lookup_lt_is_Some_2. by apply (wi_cok s Hw c x Hx). Qed.

Lemma stop_fault s c safe : callouts s !! c = None → _callout_stop_safe c safe s = Fault BadPointer.
Proof. intros H. unfold _callout_stop_safe, mbind, M_bind, get_c. by rewrite H. Qed.

Lemma stop_busy s c safe x cc :
  callouts s !! c = Some x → cc_cpu s !! c_cpu x = Some cc → cc_locked cc = true →
  _callout_stop_safe c safe s = Fault Blocked.
Proof.
  intros Hx Hk Hl. unfold _callout_stop_safe.
  rewrite <- (st_same s (c_cpu x) cc) by done. crun. rewrite (st_same s (c_cpu x) cc) by done.
  unfold mbind, M_bind. by rewrite (callout_lock_busy s c x cc).
Qed.

Lemma pending_unpend x : pending (unpend x) = false.
Proof. apply clear_both_flags. Qed.

Lemma cok_unpend n x : cok n x → cok n (unpend x).
Proof. intros H. apply cok_flags; [done | apply clear_both_flags..]. Qed.

Lemma pending_deactivate x : pending (deactivate x) = pending x.
Proof. apply clear_active_flags. Qed.

Lemma stop_idle_evolves s safe cc c x : cc_locked cc = false → cc_evolves s cc (stop_idle_cc safe cc c x).
Proof.
  intros Hl. unfold stop_idle_cc. destruct (decide _); [| apply cc_evolves_refl].
  split_and!; try done. intros. simpl in *. congruence.
Qed.

Lemma stop_env s c safe r s' :
  wheel_inv s → _callout_stop_safe c safe s = Ok (r, s') → env_ok s s'.
Proof.
  intros Hw H. destruct (callouts s !! c) as [x |] eqn:Hx; [| by rewrite stop_fault in H].
  destruct (callout_cpu_exists s c x Hw Hx) as [cc Hk].
  destruct (cc_locked cc) eqn:Hl; [by rewrite (stop_busy s c safe x cc) in H |].
  pose proof (wi_cok s Hw c x Hx) as Hok. destruct (pending x) eqn:Hp.
  - destruct (stop_pending s c safe x cc) as (l & Hb & Hin & E); [done.. |].
    rewrite E in H. simplify_eq. apply (env_ok_st s _ cc); [done | | by apply insert_dom |].
    + apply (wheel_inv_cc s _ (set_wheel
        (<[bucket_index s (c_time x) := filter (fun y => y ≠ c) l]> (cc_callwheel cc)) cc)).
      { unfold unlinked. by destruct (decide _). }
      apply (wheel_inv_remove s (c_cpu x) cc (callouts s) c x (unpend x) l);
        [by left | by rewrite st_same | done.. | apply pending_unpend | by apply cok_unpend].
    + by apply (unlinked_evolves s (c_cpu x)).
  - rewrite (stop_idle s c safe x cc) in H by done. simplify_eq.
    apply (env_ok_st s _ cc); [done | | by apply insert_dom | by apply stop_idle_evolves].
    eapply (wheel_inv_cc s _ cc); [unfold stop_idle_cc; by destruct (decide _) |].
    apply (wheel_inv_update s (c_cpu x) cc (callouts s) c x (deactivate x));
      [by rewrite st_same | done | done | by rewrite pending_deactivate |].
    apply cok_flags; [done | apply clear_active_flags |].
    rewrite <- Hp. apply clear_active_flags.
Qed.

(** ** Rescheduling keeps the invariant *)

Definition clamp (to_ticks : Z) : Z := if to_ticks <=? 0 then 1 else to_ticks.

(** The callout as scheduled. *)
Definition armed (now to_ticks : Z) (ftn : option nat) (arg : Z) (x : callout) : callout :=
  mk_callout (s32 (now + clamp to_ticks)) arg ftn (c_lock x)
    (Z.lor (c_flags x) (Z.lor CALLOUT_ACTIVE CALLOUT_PENDING)) (c_cpu x).

Definition lower_min (to_ticks : Z) (s : cstate) : cstate :=
  if (1 <? clamp to_ticks) && (clamp to_ticks <? min_to_ticks s)
  then set_min (clamp to_ticks) s else s.

Definition linked (s : cstate) (t : Z) (c : nat) (l : list nat) (cc : callout_cpu) : callout_cpu :=
  set_wheel (<[bucket_index s t := l ++ [c]]> (cc_callwheel cc)) cc.

Lemma reset_link_st s k c to_ticks ftn arg cc0 cc m x l :
  cc_cpu s !! k = Some cc0 → cc_locked cc = true → m !! c = Some x →
  cc_callwheel cc !! bucket_index s (s32 (ticks s + clamp to_ticks)) = Some l →
  reset_link k c to_ticks ftn arg (st s k cc m) =
  Ok (tt, st (lower_min to_ticks s) k
            (set_locked false (linked s (s32 (ticks s + clamp to_ticks)) c l cc))
            (<[c := armed (ticks s) to_ticks ftn arg x]> m)).
Proof.
  intros Hk Hl Hx Hb. unfold reset_link. fold (clamp to_ticks).
  erewrite M_bind_Ok by done. erewrite M_bind_Ok by done.
  set (s1 := lower_min to_ticks s).
  assert (ticks s1 = ticks s ∧ cc_cpu s1 = cc_cpu s ∧ callwheelmask s1 = callwheelmask s) as (E1 & E2 & E3).
  { unfold s1, lower_min. by destruct (_ && _). }
  assert ((fun s => if (1 <? clamp to_ticks) && (clamp to_ticks <? min_to_ticks s)
             then set_min (clamp to_ticks) s else s) (st s k cc m) = st s1 k cc m) as Es.
  { unfold s1, lower_min. simpl. by destruct (_ && _). }
  cbn beta in Es |- *. rewrite Es. simpl ticks. rewrite E1.
  assert (cc_cpu s1 !! k = Some cc0) as Hk1 by (by rewrite E2).
  erewrite M_bind_Ok by (by eapply upd_c_st).
  assert (bucket_index s1 (s32 (ticks s + clamp to_ticks)) =
          bucket_index s (s32 (ticks s + clamp to_ticks))) as Ei by (unfold bucket_index; by rewrite E3).
  erewrite M_bind_Ok by (eapply TAILQ_INSERT_TAIL_st; [done | by rewrite Ei]).
  erewrite CC_UNLOCK_st by done. unfold linked. by rewrite Ei.
Qed.

(** The first half of [callout_reset_on]: a running callout that has not really
    started is cancelled, a pending one leaves its queue. *)
Definition stoppable (cc : callout_cpu) (c : nat) (x : callout) : bool :=
  bool_decide (cc_curr cc = Some c) && bool_decide (is_Some (c_lock x)) && (cc_cancel cc =? 0).

Definition cancel_cc (cc : callout_cpu) (c : nat) (x : callout) : callout_cpu :=
  if stoppable cc c x then set_cancel 1 cc else cc.

Definition off_cc (s : cstate) (c : nat) (x : callout) (l : list nat) (cc : callout_cpu)
    : callout_cpu := if pending x then unlinked s c x l cc else cc.

Definition off (x : callout) : callout := if pending x then unpend x else x.

Definition reset_result (cc : callout_cpu) (c : nat) (x : callout) (cancelled : Z) : Z :=
  if pending x || stoppable cc c x then 1 else cancelled.

(** The queue the callout is on, if it is pending. *)
Definition on_queue (s : cstate) (cc : callout_cpu) (c : nat) (x : callout) (l : list nat) : Prop :=
  pending x = true → cc_callwheel cc !! bucket_index s (c_time x) = Some l ∧ c ∈ l.

Lemma on_queue_exists s c x cc :
  wheel_inv s → callouts s !! c = Some x → cc_cpu s !! c_cpu x = Some cc →
  ∃ l, on_queue s cc c x l.
Proof.
  intros Hw Hx Hk. destruct (pending x) eqn:Hp.
  - destruct (wi_pending s Hw c x Hx Hp) as (cc' & l & Hk' & Hb & Hin). simplify_eq.
    by exists l.
  - exists []. unfold on_queue. congruence.
Qed.

Lemma reset_unlink_st s k cc0 cc m c x l :
  cc_cpu s !! k = Some cc0 → m !! c = Some x → on_queue s cc c x l →
  reset_unlink k c x (st s k cc m) = Ok (pending x, st s k (off_cc s c x l cc) (<[c := off x]> m)).
Proof.
  intros Hk Hx Hq. unfold reset_unlink, off_cc, off. fold (pending x).
  destruct (pending x) eqn:Hp; [| by rewrite insert_id].
  destruct (Hq Hp) as [Hb Hin]. crun. crun. done.
Qed.

Lemma off_locked s c x l cc : cc_locked (off_cc s c x l cc) = cc_locked cc.
Proof. unfold off_cc, unlinked. destruct (pending x), (decide (cc_next cc = Some c)); done. Qed.

Lemma off_unlock s c x l cc :
  cc_locked cc = false →
  set_locked false (off_cc s c x l (cancel_cc (set_locked true cc) c x)) =
  off_cc s c x l (cancel_cc cc c x).
Proof.
  intros Hl. unfold off_cc, cancel_cc, unlinked.
  change (stoppable (set_locked true cc) c x) with (stoppable cc c x).
  destruct cc; simpl in *; subst.
  destruct (pending x), (stoppable _ c x); simpl; try done;
    by destruct (decide (cc_next0 = Some c)).
Qed.

Lemma cancel_wheel cc c x : cc_callwheel (cancel_cc cc c x) = cc_callwheel cc.
Proof. unfold cancel_cc. by destruct (stoppable cc c x). Qed.

Lemma cancel_evolves s cc c x : cc_locked cc = false → cc_evolves s cc (cancel_cc cc c x).
Proof.
  intros Hl. unfold cancel_cc. destruct (stoppable cc c x); [| apply cc_evolves_refl].
  split_and!; try done. intros. simpl in *. congruence.
Qed.

Lemma cancel_locked cc c x : cc_locked (cancel_cc cc c x) = cc_locked cc.
Proof. unfold cancel_cc. by destruct (stoppable cc c x). Qed.

Lemma off_evolves s cc c x l :
  wheel_inv s → callouts s !! c = Some x → cc_cpu s !! c_cpu x = Some cc →
  cc_locked cc = false → on_queue s cc c x l →
  cc_evolves s cc (off_cc s c x l (cancel_cc cc c x)).
Proof.
  intros Hw Hx Hk Hl Hq. set (s1 := st s (c_cpu x) (cancel_cc cc c x) (callouts s)).
  assert (wheel_inv s1) as Hw1.
  { apply (wheel_inv_cc s _ cc); [apply cancel_wheel | by rewrite st_same]. }
  apply (cc_evolves_trans s s1 _ (cancel_cc cc c x)); [done | by apply cancel_evolves |].
  unfold off_cc. destruct (pending x) eqn:Hp; [| apply cc_evolves_refl].
  destruct (Hq Hp) as [Hb Hin].
  apply (unlinked_evolves s1 (c_cpu x)); try done.
  - by eapply st_lookup.
  - by rewrite cancel_locked.
  - by rewrite cancel_wheel.
Qed.

Lemma off_cok n x : cok n x → cok n (off x).
Proof. intros H. unfold off. destruct (pending x); [by apply cok_unpend | done]. Qed.

Lemma off_pending x : pending (off x) = false.
Proof. unfold off. destruct (pending x) eqn:Hp; [apply pending_unpend | done]. Qed.

Lemma off_local x : is_local (off x) = is_local x.
Proof. unfold off. destruct (pending x); [apply clear_both_flags | done]. Qed.

Lemma off_cpu x : c_cpu (off x) = c_cpu x.
Proof. unfold off. by destruct (pending x). Qed.

Lemma off_inv s c x cc l :
  wheel_inv s → callouts s !! c = Some x → cc_cpu s !! c_cpu x = Some cc →
  on_queue s cc c x l →
  wheel_inv (st s (c_cpu x) (off_cc s c x l (cancel_cc cc c x)) (<[c := off x]> (callouts s))).
Proof.
  intros Hw Hx Hk Hq. unfold off_cc, off. pose proof (wi_cok s Hw c x Hx) as Hok.
  destruct (pending x) eqn:Hp.
  - destruct (Hq Hp) as [Hb Hin].
    apply (wheel_inv_cc s _ (set_wheel
        (<[bucket_index s (c_time x) := filter (fun y => y ≠ c) l]> (cc_callwheel cc)) cc)).
    { unfold unlinked. rewrite cancel_wheel. by destruct (decide _). }
    apply (wheel_inv_remove s (c_cpu x) cc (callouts s) c x (unpend x) l);
        [by left | by rewrite st_same | done.. | apply pending_unpend | by apply cok_unpend].
  - apply (wheel_inv_cc s _ cc); [apply cancel_wheel |]. rewrite insert_id by done.
    by rewrite st_same.
Qed.

(** The common beginning of a round of the loop. *)
Lemma reset_prefix s c x cc l to_ticks ftn arg cpu cancelled :
  callouts s !! c = Some x → cc_cpu s !! c_cpu x = Some cc → cc_locked cc = false →
  cc_waiting cc = 0 → on_queue s cc c x l →
  reset_once c to_ticks ftn arg cpu cancelled s =
  (if negb (Nat.eqb (c_cpu x) cpu) then
     _ ← upd_c c (set_ccpu cpu);
     _ ← CC_UNLOCK (c_cpu x);
     mret (Again (reset_result cc c x cancelled))
   else
     _ ← reset_link (c_cpu x) c to_ticks ftn arg; mret (Done (reset_result cc c x cancelled)))
    (st s (c_cpu x) (off_cc s c x l (cancel_cc (set_locked true cc) c x))
       (<[c := off x]> (callouts s))).
Proof.
  intros Hx Hk Hl Hwait Hq. rewrite <- (st_same s (c_cpu x) cc) at 1 by done.
  unfold reset_once;
    (erewrite M_bind_Ok by (by apply callout_lock_st)); cbn beta; crun; crun;
    change (cc_waiting (set_locked true cc)) with (cc_waiting cc);
    rewrite Hwait, andb_false_r; cbn zeta;
    fold (stoppable (set_locked true cc) c x);
    (erewrite M_bind_Ok with (s' := st s (c_cpu x) (cancel_cc (set_locked true cc) c x) (callouts s));
       [| unfold cancel_cc; destruct (stoppable (set_locked true cc) c x);
          [by eapply upd_cc_st | done]]);
    (erewrite M_bind_Ok; [| eapply reset_unlink_st; [done | done |]]);
    try (intros Hp; rewrite cancel_wheel; by apply Hq);
    change (stoppable (set_locked true cc) c x) with (stoppable cc c x);
    unfold reset_result; by destruct (pending x), (stoppable cc c x).
Qed.

Lemma linked_evolves s t c l cc :
  cc_locked cc = false → cc_callwheel cc !! bucket_index s t = Some l →
  cc_evolves s cc (linked s t c l cc).
Proof.
  intros Hl Hb. split_and!; try done; [| intros; simpl in *; congruence].
  intros t' Ht n Hn. destruct (Ht n Hn) as (l' & Hl' & Hin). simpl.
  destruct (decide (bucket_index s t' = bucket_index s t)) as [E | E].
  - rewrite E in Hl' |- *. simplify_eq. exists (l ++ [c]).
    split; [apply list_lookup_insert_eq; by eapply lookup_lt_Some | set_solver].
  - exists l'. by rewrite list_lookup_insert_ne.
Qed.

Lemma lower_min_eq to_ticks s :
  ∃ v, lower_min to_ticks s = set_min v s.
Proof.
  unfold lower_min. destruct (_ && _); [by eexists |]. exists (min_to_ticks s). by destruct s.
Qed.

Lemma env_ok_min s s' v k cc m :
  env_ok s (st s k cc m) → s' = set_min v s → env_ok s (st s' k cc m).
Proof. intros [A1 A2 A3 A4 A5 A6] ->. split; try done. destruct A1. by split. Qed.

Lemma armed_facts now to_ticks f arg x n :
  cok n x → is_local x = false →
  pending (armed now to_ticks (Some f) arg x) = true ∧
  c_cpu (armed now to_ticks (Some f) arg x) = c_cpu x ∧
  cok n (armed now to_ticks (Some f) arg x).
Proof.
  intros (H1 & H2 & H3) Hloc. unfold armed, pending, cok, is_local. simpl.
  destruct (set_both_flags (c_flags x)) as (E1 & E2 & E3). simpl in *.
  unfold retunlocked in *. rewrite E1, E3, E2. split_and!; eauto.
Qed.

(** Scheduling on the callout's own CPU. *)
Lemma reset_here s c x cc to_ticks f arg cancelled :
  wheel_inv s → callouts s !! c = Some x → is_local x = false →
  cc_cpu s !! c_cpu x = Some cc → cc_locked cc = false → cc_waiting cc = 0 →
  ∃ s', reset_once c to_ticks (Some f) arg (c_cpu x) cancelled s =
          Ok (Done (reset_result cc c x cancelled), s') ∧ env_ok s s' ∧
        callouts s' !! c = Some (armed (ticks s) to_ticks (Some f) arg (off x)) ∧
        (∀ d, d ≠ c → callouts s' !! d = callouts s !! d) ∧ ticks s' = ticks s.
Proof.
  intros Hw Hx Hloc Hk Hl Hwait. destruct (on_queue_exists s c x cc Hw Hx Hk) as [l Hq].
  set (cc1 := off_cc s c x l (cancel_cc cc c x)).
  assert (wheel_inv (st s (c_cpu x) cc1 (<[c := off x]> (callouts s)))) as Hw1 by (by apply off_inv).
  set (t := s32 (ticks s + clamp to_ticks)).
  destruct (wheel_bucket _ (c_cpu x) cc1 t Hw1) as [l2 Hl2]; [by eapply st_lookup |].
  change (bucket_index (st _ _ _ _) t) with (bucket_index s t) in Hl2.
  set (x1 := armed (ticks s) to_ticks (Some f) arg (off x)).
  destruct (armed_facts (ticks s) to_ticks f arg (off x) (length (cc_cpu s))) as (P1 & P2 & P3);
    [by apply off_cok, (wi_cok s Hw c) | by rewrite off_local |].
  assert (wheel_inv (st s (c_cpu x) (linked s t c l2 cc1)
            (<[c := x1]> (<[c := off x]> (callouts s))))) as Hw2.
  { apply (wheel_inv_insert s (c_cpu x) cc1 (<[c := off x]> (callouts s)) c (off x) x1 l2);
      [by eapply lookup_lt_Some | done | apply lookup_insert_eq | apply off_pending | done
      | unfold x1; by rewrite P2, off_cpu | done | done]. }
  exists (st (lower_min to_ticks s) (c_cpu x) (linked s t c l2 cc1)
            (<[c := x1]> (<[c := off x]> (callouts s)))).
  assert (cc_locked cc1 = false) as Hl1.
  { unfold cc1. by rewrite off_locked, cancel_locked. }
  destruct (lower_min_eq to_ticks s) as [v Ev].
  split_and!; [| | | | by rewrite Ev].
  - rewrite (reset_prefix s c x cc l) by done. rewrite Nat.eqb_refl. cif.
    erewrite M_bind_Ok; [| eapply (reset_link_st s (c_cpu x)); [done | | apply lookup_insert_eq |]].
    + unfold mret, M_ret, linked. do 3 f_equal.
      unfold cc1. rewrite <- (off_unlock s c x l cc) by done. done.
    + by rewrite off_locked, cancel_locked.
    + rewrite <- Hl2. unfold cc1. rewrite <- (off_unlock s c x l cc) by done. done.
  - eapply env_ok_min; [| exact Ev]. apply (env_ok_st s _ cc); [done.. | |].
    + apply insert_dom. by apply insert_dom.
    + apply (cc_evolves_trans s s _ cc1); [done | by apply off_evolves |].
      by apply linked_evolves.
  - apply lookup_insert_eq.
  - intros d Hd. simpl. by rewrite !lookup_insert_ne.
Qed.

Lemma cok_cpu n x k : cok n x → (k < n)%nat → cok n (set_ccpu k x).
Proof. by intros (H1 & H2 & H3) Hk. Qed.

(** Moving to another CPU: the callout has left its queue and [c_cpu] names the
    new CPU. *)
Lemma reset_move s c x cc to_ticks ftn arg cpu cancelled :
  wheel_inv s → callouts s !! c = Some x → (cpu < length (cc_cpu s))%nat → c_cpu x ≠ cpu →
  cc_cpu s !! c_cpu x = Some cc → cc_locked cc = false → cc_waiting cc = 0 →
  ∃ s1, reset_once c to_ticks ftn arg cpu cancelled s = Ok (Again (reset_result cc c x cancelled), s1) ∧
        env_ok s s1 ∧ callouts s1 !! c = Some (set_ccpu cpu (off x)) ∧
        (∀ d, d ≠ c → callouts s1 !! d = callouts s !! d) ∧ ticks s1 = ticks s.
Proof.
  intros Hw Hx Hcpu Hne Hk Hl Hwait. destruct (on_queue_exists s c x cc Hw Hx Hk) as [l Hq].
  set (cc1 := off_cc s c x l (cancel_cc cc c x)).
  exists (st s (c_cpu x) cc1 (<[c := set_ccpu cpu (off x)]> (<[c := off x]> (callouts s)))).
  split_and!; [| | apply lookup_insert_eq | | done].
  - rewrite (reset_prefix s c x cc l) by done.
    rewrite (proj2 (Nat.eqb_neq _ _)) by done. cif.
    erewrite M_bind_Ok by (eapply upd_c_st; apply lookup_insert_eq).
    erewrite M_bind_Ok by (eapply CC_UNLOCK_st; [done | by rewrite off_locked, cancel_locked]).
    unfold cc1. by rewrite <- (off_unlock s c x l cc).
  - apply (env_ok_st s _ cc); [done | | apply insert_dom; by apply insert_dom | by apply off_evolves].
    eapply wheel_inv_update; [by apply off_inv | apply lookup_insert_eq | apply off_pending
      | apply off_pending | apply cok_cpu; [| done]].
    by apply off_cok, (wi_cok s Hw c).
  - intros d Hd. simpl. by rewrite !lookup_insert_ne.
Qed.

Lemma reset_busy s c x cc to_ticks ftn arg cpu cancelled :
  callouts s !! c = Some x → cc_cpu s !! c_cpu x = Some cc → cc_locked cc = true →
  reset_once c to_ticks ftn arg cpu cancelled s = Fault Blocked.
Proof. intros Hx Hk Hl. unfold reset_once, mbind, M_bind. by rewrite (callout_lock_busy s c x cc). Qed.

(** A round of the loop. *)
Lemma reset_loop_done fuel c to_ticks ftn arg cpu cancelled s r s' :
  reset_once c to_ticks ftn arg cpu cancelled s = Ok (Done r, s') →
  reset_loop fuel c to_ticks ftn arg cpu cancelled s = Ok (r, s').
Proof. intros E. destruct fuel; cbn [reset_loop]; by rewrite (M_bind_Ok _ _ _ _ _ E). Qed.

Lemma reset_loop_again fuel c to_ticks ftn arg cpu cancelled s ca s' :
  reset_once c to_ticks ftn arg cpu cancelled s = Ok (Again ca, s') →
  reset_loop (S fuel) c to_ticks ftn arg cpu cancelled s = reset_loop fuel c to_ticks ftn arg cpu ca s'.
Proof. intros E. cbn [reset_loop]. by rewrite (M_bind_Ok _ _ _ _ _ E). Qed.

(** A critical section of a reset is a change by another thread. *)
Lemma reset_once_env s c x to_ticks f arg cpu cancelled o s' :
  wheel_inv s → (∀ j cc, cc_cpu s !! j = Some cc → cc_waiting cc = 0) → callouts s !! c = Some x → is_local x = false →
  (cpu < length (cc_cpu s))%nat →
  reset_once c to_ticks (Some f) arg cpu cancelled s = Ok (o, s') → env_ok s s'.
Proof.
  intros Hw Hwait Hx Hloc Hcpu H. destruct (callout_cpu_exists s c x Hw Hx) as [cc Hk].
  destruct (cc_locked cc) eqn:Hl; [by rewrite (reset_busy s c x cc) in H |].
  destruct (decide (c_cpu x = cpu)) as [<- | Hne].
  - destruct (reset_here s c x cc to_ticks f arg cancelled) as (s2 & E & He & _); [done.. | by eapply Hwait |].
    rewrite E in H. by simplify_eq.
  - destruct (reset_move s c x cc to_ticks (Some f) arg cpu cancelled) as (s1 & E & He & _); [done.. | by eapply Hwait |].
    rewrite E in H. by simplify_eq.
Qed.

(** No thread waits in [callout_drain] in a way [softclock] would notice. *)
Definition none_waiting (s : cstate) : Prop :=
  ∀ j cc, cc_cpu s !! j = Some cc → cc_waiting cc = 0.

Lemma env_ok_waiting s s' : env_ok s s' → none_waiting s → none_waiting s'.
Proof.
  intros [A1 A2 A3 A4 A5 A6] Hn j cc' Hj.
  destruct (lookup_lt_is_Some_2 (cc_cpu s) j) as [cc Hcc].
  { rewrite <- A5. by eapply lookup_lt_Some. }
  destruct (A4 j cc Hcc) as (cc'' & Hj' & E). simplify_eq.
  destruct E as (_ & _ & -> & _). by eapply Hn.
Qed.

(** [callout_reset_on] of a client's callout. *)
Lemma reset_on_spec s c x to_ticks f arg cpu :
  wheel_inv s → none_waiting s → callouts s !! c = Some x → is_local x = false →
  (cpu < length (cc_cpu s))%nat →
  (∀ j cc, j = c_cpu x ∨ j = cpu → cc_cpu s !! j = Some cc → cc_locked cc = false) →
  ∃ r s' x', callout_reset_on c to_ticks (Some f) arg cpu s = Ok (r, s') ∧ env_ok s s' ∧
    callouts s' !! c = Some x' ∧ pending x' = true ∧ c_cpu x' = cpu ∧ c_func x' = Some f ∧
    c_arg x' = arg ∧ c_time x' = s32 (ticks s + clamp to_ticks) ∧
    (∀ d, d ≠ c → callouts s' !! d = callouts s !! d) ∧
    ((∀ j cc, cc_cpu s !! j = Some cc → cc_curr cc ≠ Some c) → r = b2z (pending x)).
Proof.
  intros Hw Hwait Hx Hloc Hcpu Hunl.
  destruct (callout_cpu_exists s c x Hw Hx) as [cc Hk].
  assert (cc_locked cc = false) as Hl by (by eapply Hunl; [left |]).
  unfold callout_reset_on. erewrite M_bind_Ok by (unfold get_c; by rewrite Hx).
  unfold is_local in Hloc. rewrite Hloc. fold (is_local x) in Hloc.
  destruct (decide (c_cpu x = cpu)) as [<- | Hne].
  - destruct (reset_here s c x cc to_ticks f arg 0) as (s' & E%(reset_loop_done 1) & He & Hc & Ho & Ht); [done.. | |].
    { by eapply Hwait. }
    destruct (armed_facts (ticks s) to_ticks f arg (off x) (length (cc_cpu s))) as (P1 & P2 & P3);
      [by apply off_cok, (wi_cok s Hw c) | by rewrite off_local |].
    eexists _, s', _. split_and!; [exact E | done | exact Hc | done | by rewrite P2, off_cpu | done..|].
    intros Hcurr. unfold reset_result, stoppable.
    rewrite bool_decide_false by (by eapply Hcurr). rewrite orb_false_r. by destruct (pending x).
  - destruct (reset_move s c x cc to_ticks (Some f) arg cpu 0)
      as (s1 & E%(reset_loop_again 0) & He & Hc & Ho & Ht); [done.. | by eapply Hwait |].
    set (x1 := set_ccpu cpu (off x)) in *.
    destruct (callout_cpu_exists s1 c x1 (eo_inv _ _ He) Hc) as [cc1 Hk1].
    destruct (lookup_lt_is_Some_2 (cc_cpu s) cpu Hcpu) as [cc2 Hk2].
    destruct (eo_cpus _ _ He cpu cc2 Hk2) as (cc3 & Hk3 & Hev). simpl in Hk1. simplify_eq.
    destruct (reset_here s1 c x1 cc1 to_ticks f arg (reset_result cc c x 0))
      as (s' & E'%(reset_loop_done 0) & He' & Hc' & Ho' & Ht'); [apply He | done | by rewrite <- (off_local x) in Hloc | done | | |].
    { destruct Hev as (-> & _). by eapply Hunl; [right |]. }
    { destruct Hev as (_ & _ & -> & _). by eapply Hwait. }
    assert (off x1 = x1) as Eo.
    { unfold off. change (pending x1) with (pending (off x)). by rewrite off_pending. }
    rewrite Eo in Hc'.
    destruct (armed_facts (ticks s1) to_ticks f arg x1 (length (cc_cpu s1))) as (P1 & P2 & P3);
      [by apply (wi_cok s1 (eo_inv _ _ He) c) | by rewrite <- (off_local x) in Hloc |].
    eexists _, s', _. split_and!; [by rewrite E | by eapply env_ok_trans | exact Hc' | done | done
      | done | done | simpl; by rewrite Ht | intros d Hd; rewrite Ho' by done; by apply Ho |].
    intros Hcurr. unfold reset_result, stoppable.
    change (pending x1) with (pending (off x)). rewrite off_pending.
    destruct Hev as (_ & Hcu & _). rewrite Hcu.
    rewrite (bool_decide_false (cc_curr cc2 = Some c)) by (by eapply Hcurr).
    rewrite (bool_decide_false (cc_curr cc = Some c)) by (by eapply Hcurr). simpl.
    rewrite orb_false_r. by destruct (pending x).
Qed.

End CalloutSpec.
