(* ===== verification/CalloutSafe.v ===== *)
(** The callout wheel under concurrency: [softclock] as a sequence of steps, interleaved
    with the advance of [ticks] and with other threads, which initialise callouts, reset
    them (in one critical section or, to another CPU, in two), stop and drain them, and
    free them when they are not pending.  In every reachable state the invariant of the
    wheel holds and [softclock] can go on: no pointer it follows dangles.  No thread calls
    [timeout], which would wait for itself (CalloutRun, [timeout_self_deadlock]). *)
From stdpp Require Import relations.
From S2P Require Import Prelude Callout CalloutSpec.
Import Callout CalloutSpec.

Module CalloutSafe.

(** Whether [softclock] holds [cc_lock] at a point of its code. *)
Definition holds_lock (p : phase) : bool :=
  match p with Outer | Scan _ _ => true | _ => false end.

(** The copies made of a callout, which may itself be gone: it has a handler, is not of
    the table of [timeout], and without a lock its handler returns unlocked. *)
Definition run_ok (r : running) : Prop :=
  is_Some (r_func r) ∧
  has_flag (r_flags r) CALLOUT_LOCAL_ALLOC = false ∧
  (r_lock r = None → retunlocked (r_flags r) = true).

(** What holds of its CPU at each point. *)
Definition phase_cc (s : cstate) (p : phase) (cc : callout_cpu) : Prop :=
  cc_locked cc = holds_lock p ∧
  match p with
  | Outer => cc_curr cc = None
  | Scan t c => cc_curr cc = None ∧
      ∀ n, c = Some n → ∃ l, cc_callwheel cc !! bucket_index s t = Some l ∧ n ∈ l
  | Yield t => cc_curr cc = None ∧ next_in s cc t
  | TakeLock r | Call r | Return r | Skip r =>
      cc_curr cc = Some (r_c r) ∧ run_ok r ∧ next_in s cc (r_ticks r)
  | Wake _ => False
  | Idle => cc_curr cc = None ∧ cc_next cc = None
  end.

Definition no_broadcast (s : cstate) : Prop := Broadcast ∉ events s.

Record inv (k : nat) (s : cstate) (p : phase) : Prop := {
  inv_wheel : wheel_inv s;
  inv_waiting : none_waiting s;
  inv_phase : ∃ cc, cc_cpu s !! k = Some cc ∧ phase_cc s p cc;
  inv_quiet : no_broadcast s
}.

(** Only the queues, the callouts and the mask matter to the wheel. *)
Lemma wheel_inv_others s s' :
  cc_cpu s' = cc_cpu s → callouts s' = callouts s → callwheelmask s' = callwheelmask s →
  wheel_inv s → wheel_inv s'.
Proof.
  intros E1 E2 E3 [H1 H2 H3 H4 H5 H6]. unfold bucket_index in *.
  split; unfold bucket_index; rewrite ?E1, ?E2, ?E3; done.
Qed.

(** The invariant after a step that worked on CPU [k]; [s1] is [s] up to the
    counters. *)
Lemma inv_st k s s1 cc cc' m p' :
  none_waiting s → no_broadcast s1 → cc_cpu s !! k = Some cc →
  cc_cpu s1 = cc_cpu s → callwheelmask s1 = callwheelmask s →
  wheel_inv (st s k cc' m) → cc_waiting cc' = 0 → phase_cc (st s k cc' m) p' cc' →
  inv k (st s1 k cc' m) p'.
Proof.
  intros Hn Hq Hk E1 E2 Hw Hc Hp. split; [| | | done].
  - eapply wheel_inv_others; [| | | exact Hw]; simpl; by rewrite ?E1, ?E2.
  - intros j d Hj. apply st_lookup_inv in Hj as [[-> ->] | [Hne Hj]]; [done |].
    rewrite E1 in Hj. by eapply Hn.
  - exists cc'. split; [eapply st_lookup; by rewrite E1 |].
    destruct p'; unfold phase_cc, next_in, run_ok, bucket_index in *; simpl in *;
      by rewrite ?E2.
Qed.

Lemma quiet_same s s1 : events s1 = events s → no_broadcast s → no_broadcast s1.
Proof. unfold no_broadcast. by intros ->. Qed.

Lemma head_in (l : list nat) n : head l = Some n → n ∈ l.
Proof. destruct l; intros [= <-]. set_solver. Qed.

Lemma get_c_ok s c x : callouts s !! c = Some x → get_c c s = Ok (x, s).
Proof. unfold get_c. by intros ->. Qed.

(** Running code from [s] is running it from [st s k cc (callouts s)]. *)
Lemma start_st {A} (a : C A) (Q : A → cstate → Prop) s k cc :
  cc_cpu s !! k = Some cc →
  (∃ p s', a (st s k cc (callouts s)) = Ok (p, s') ∧ Q p s') →
  ∃ p s', a s = Ok (p, s') ∧ Q p s'.
Proof. intros Hk. by rewrite st_same. Qed.

(** ** One lemma per point of [softclock] *)

Section Points.
Context (k : nat) (s : cstate) (cc : callout_cpu).
Hypothesis Hw : wheel_inv s.
Hypothesis Hn : none_waiting s.
Hypothesis Hq : no_broadcast s.
Hypothesis Hk : cc_cpu s !! k = Some cc.

Let Hwst : wheel_inv (st s k cc (callouts s)).
Proof. by rewrite st_same. Qed.

Let Hwait : cc_waiting cc = 0.
Proof. by eapply Hn. Qed.

(** [p] goes on, to a point where the invariant holds. *)
Definition goes_on (p : phase) : Prop :=
  ∃ p' s', softclock_step k p s = Ok (p', s') ∧ inv k s' p'.

Lemma step_end : cc_locked cc = true → cc_curr cc = None →
  ∃ p' s', softclock_end k s = Ok (p', s') ∧ inv k s' p'.
Proof.
  intros Hl Hc. unfold softclock_end. destruct (avgs s) as [[[d m] lk] g] eqn:Ea.
  erewrite M_bind_Ok by done. cbn beta. rewrite Ea.
  match goal with |- context [set_avgs ?v s] => set (s1 := set_avgs v s) end.
  assert (cc_cpu s1 !! k = Some cc) as Hk1 by done.
  apply (start_st _ _ s1 k cc Hk1).
  crun. crun. eexists _, _. split; [reflexivity |].
  apply (inv_st k s s1 cc); try done.
  by apply (wheel_inv_cc s k cc).
Qed.

Lemma point_outer : phase_cc s Outer cc → goes_on Outer.
Proof.
  intros [Hl Hc]. unfold goes_on. cbn [softclock_step].
  erewrite M_bind_Ok by (unfold get_cc; by rewrite Hk). erewrite M_bind_Ok by done. cbn beta.
  destruct (cc_softticks cc =? ticks s); [by apply step_end |].
  cbn zeta. apply (start_st _ _ s k cc Hk). crun.
  destruct (wheel_bucket s k cc (cc_softticks cc) Hw Hk) as [l Hb].
  erewrite M_bind_Ok by (eapply bucket_st; [done | exact Hb]).
  eexists _, _. split; [reflexivity |].
  apply (inv_st k s s cc); try done; try (by apply (wheel_inv_cc s k cc)).
  split; [done |]. split; [done |]. intros n Hh. exists l. split; [exact Hb | by apply head_in].
Qed.

Lemma point_scan_none t : phase_cc s (Scan t None) cc → goes_on (Scan t None).
Proof.
  intros [Hl [Hc _]]. eexists _, _. split; [reflexivity |]. split; try done.
  by exists cc.
Qed.

(** A callout that is not due. *)
Lemma point_pass t c x l :
  phase_cc s (Scan t (Some c)) cc → callouts s !! c = Some x → c_time x ≠ t →
  cc_callwheel cc !! bucket_index s t = Some l → c ∈ l → goes_on (Scan t (Some c)).
Proof.
  intros [Hl [Hc _]] Hx Ht Hb Hin. unfold goes_on. cbn [softclock_step].
  assert (NoDup l) as Hnd by (by apply (wi_nodup s Hw k cc (bucket_index s t))).
  erewrite M_bind_Ok by done. cbn beta. set (s1 := add_loc 0 1 0 0 0 s).
  assert (cc_cpu s1 !! k = Some cc) as Hk1 by done.
  erewrite M_bind_Ok by (apply get_c_ok; exact Hx). cbn beta.
  rewrite (proj2 (Z.eqb_neq _ _)) by done. cif. unfold pass_over.
  apply (start_st _ _ s1 k cc Hk1).
  erewrite M_bind_Ok by (eapply TAILQ_NEXT_st; [done | exact Hb | done]). cbn beta.
  erewrite M_bind_Ok by done. cbn beta. set (s2 := add_loc 1 0 0 0 0 s1).
  change (add_loc 1 0 0 0 0 (st s1 k cc (callouts s1))) with (st s2 k cc (callouts s)).
  erewrite M_bind_Ok by done. cbn beta.
  assert (cc_cpu s2 !! k = Some cc) as Hk2 by done.
  assert (∀ n, tailq_next c l = Some n → n ∈ l) as Hnext.
  { intros n Hn'. by apply (tailq_next_in c l n Hnd). }
  destruct (MAX_SOFTCLOCK_STEPS <=? steps (loc (st s2 k cc (callouts s)))).
  - crun. crun. eexists _, _. split; [reflexivity |].
    apply (inv_st k s s2 cc); try done; try (by apply (wheel_inv_cc s k cc)).
    split; [done |]. split; [done |]. intros n Hn'. exists l. simpl in Hn'. by auto.
  - eexists _, _. split; [reflexivity |]. apply (inv_st k s s2 cc); try done.
    split; [done |]. split; [done |]. intros n Hn'. exists l. by auto.
Qed.

Lemma point_yield t : phase_cc s (Yield t) cc → goes_on (Yield t).
Proof.
  intros [Hl [Hc Hnx]]. unfold goes_on. cbn [softclock_step].
  apply (start_st _ _ s k cc Hk). crun. crun. erewrite M_bind_Ok by done. cbn beta.
  eexists _, _. split; [reflexivity |].
  apply (inv_st k s (reset_steps s) cc); try done; try (by apply (wheel_inv_cc s k cc)).
Qed.

(** A callout that is due. *)
Lemma point_pick t c x l :
  phase_cc s (Scan t (Some c)) cc → callouts s !! c = Some x → c_time x = t →
  cc_callwheel cc !! bucket_index s t = Some l → c ∈ l → goes_on (Scan t (Some c)).
Proof.
  intros [Hl [Hc _]] Hx Ht Hb Hin. unfold goes_on. cbn [softclock_step].
  assert (NoDup l) as Hnd by (by apply (wi_nodup s Hw k cc (bucket_index s t))).
  destruct (wi_in s Hw k cc _ l c Hk Hb Hin) as (x0 & Hx0 & Hp & Hcpu & _). simplify_eq.
  pose proof (wi_cok s Hw c x Hx) as Hok. pose proof Hok as (Hok1 & Hok2 & Hok3).
  destruct (Hok2 Hp) as [Hfun Hloc].
  erewrite M_bind_Ok by done. cbn beta. set (s1 := add_loc 0 1 0 0 0 s).
  assert (cc_cpu s1 !! c_cpu x = Some cc) as Hk1 by done.
  erewrite M_bind_Ok by (apply get_c_ok; exact Hx). cbn beta.
  rewrite Z.eqb_refl. cif. unfold pick. apply (start_st _ _ s1 (c_cpu x) cc Hk1).
  erewrite M_bind_Ok by (eapply TAILQ_NEXT_st; [done | exact Hb | done]). cbn beta. crun.
  erewrite M_bind_Ok by (eapply TAILQ_REMOVE_st; [done | exact Hb | done]). cbn beta.
  erewrite M_bind_Ok by (eapply upd_c_st; exact Hx). cbn beta. crun. crun.
  fold (is_local x). rewrite Hloc.
  eexists _, _. split; [reflexivity |].
  set (x' := set_cflags (clear_flag (c_flags x) CALLOUT_PENDING) x).
  apply (inv_st (c_cpu x) s s1 cc); try done.
  - apply (wheel_inv_cc s _ (set_wheel
      (<[bucket_index s (c_time x) := filter (fun y => y ≠ c) l]> (cc_callwheel cc)) cc)); [done |].
    apply (wheel_inv_remove s (c_cpu x) cc (callouts s) c x x' l); try done.
    + by left.
    + apply clear_pending_flags.
    + apply cok_flags; [done | apply clear_pending_flags..].
  - split; [done |]. split; [done |]. split.
    + by split_and!.
    + intros n Hn'. simpl in Hn'. apply tailq_next_in in Hn' as [??]; [| done].
      exists (filter (fun y => y ≠ c) l). split; [| by apply list_elem_of_filter].
      apply list_lookup_insert_eq. by eapply lookup_lt_Some.
Qed.

Lemma point_takelock r : phase_cc s (TakeLock r) cc → goes_on (TakeLock r).
Proof.
  intros [Hl [Hc [Hr Hnx]]]. unfold goes_on. cbn [softclock_step].
  destruct (r_lock r) as [lk |].
  - apply (start_st _ _ s k cc Hk). crun. destruct (negb (cc_cancel cc =? 0)).
    + eexists _, _. split; [reflexivity |]. by apply (inv_st k s s cc).
    + crun. destruct (Nat.eqb lk Giant); (erewrite M_bind_Ok by done); cbn beta;
        (eexists _, _; split; [reflexivity |]).
      * apply (inv_st k s (add_loc 0 0 0 0 1 s) cc); try done. by apply (wheel_inv_cc s k cc).
      * apply (inv_st k s (add_loc 0 0 0 1 0 s) cc); try done. by apply (wheel_inv_cc s k cc).
  - apply (start_st _ _ s k cc Hk). erewrite M_bind_Ok by done. cbn beta.
    eexists _, _. split; [reflexivity |].
    by apply (inv_st k s (add_loc 0 0 1 0 0 s) cc).
Qed.

Lemma point_call r : phase_cc s (Call r) cc → goes_on (Call r).
Proof.
  intros [Hl [Hc [Hr Hnx]]]. unfold goes_on. cbn [softclock_step].
  pose proof Hr as ([f Hf] & _). rewrite Hf.
  apply (start_st _ _ s k cc Hk). erewrite M_bind_Ok by done. cbn beta.
  eexists _, _. split; [reflexivity |].
  apply (inv_st k s (add_event (Called (r_c r) (Some f) (r_arg r) (r_ticks r)) s) cc); try done.
  unfold no_broadcast in *. simpl. set_solver.
Qed.

Lemma point_return r : phase_cc s (Return r) cc → goes_on (Return r).
Proof.
  intros [Hl [Hc [Hr Hnx]]]. unfold goes_on. cbn [softclock_step].
  pose proof Hr as (_ & _ & Hu). fold (retunlocked (r_flags r)).
  assert (inv k s (Skip r)) as Hi by (split; [done.. | by exists cc | done]).
  destruct (retunlocked (r_flags r)) eqn:Eu; cif; [by eexists _, _ |].
  destruct (r_lock r); [by eexists _, _ | by specialize (Hu eq_refl)].
Qed.

Lemma point_skip r : phase_cc s (Skip r) cc → goes_on (Skip r).
Proof.
  intros [Hl [Hc [Hr Hnx]]]. unfold goes_on. cbn [softclock_step].
  pose proof Hr as (_ & Hloc & _). rewrite Hloc.
  apply (start_st _ _ s k cc Hk). crun. erewrite M_bind_Ok by done. cbn beta. crun. crun.
  change (cc_waiting (set_curr None (set_locked true cc))) with (cc_waiting cc).
  rewrite Hwait, Z.eqb_refl. cif. erewrite M_bind_Ok by done. cbn beta.
  eexists _, _. split; [reflexivity |].
  apply (inv_st k s (reset_steps s) cc); try done. by apply (wheel_inv_cc s k cc).
Qed.
End Points.

(** From a state where the invariant holds [softclock] goes on. *)
Lemma softclock_goes_on k s p : inv k s p → ∃ p' s', softclock_step k p s = Ok (p', s') ∧ inv k s' p'.
Proof.
  intros [Hw Hn [cc [Hk Hp]] Hq]. destruct p as [| t [c |] | t | r | r | r | r | t |].
  - by eapply point_outer.
  - pose proof Hp as [_ [_ Hc]]. destruct (Hc c eq_refl) as (l & Hb & Hin).
    destruct (wi_in s Hw k cc _ l c Hk Hb Hin) as (x & Hx & _).
    destruct (decide (c_time x = t)); [by eapply point_pick | by eapply point_pass].
  - by eapply point_scan_none.
  - by eapply point_yield.
  - by eapply point_takelock.
  - by eapply point_call.
  - by eapply point_return.
  - by eapply point_skip.
  - by destruct Hp.
  - eexists _, _. split; [reflexivity |]. split; [done.. | by exists cc | done].
Qed.

(** Starting [softclock]. *)
Lemma softclock_starts k s :
  inv k s Idle → ∃ p' s', softclock_start k s = Ok (p', s') ∧ inv k s' p'.
Proof.
  intros [Hw Hn [cc [Hk [Hl [Hc Hnx]]]] Hq]. unfold softclock_start.
  erewrite M_bind_Ok by done. cbn beta. set (s1 := set_loc (mk_locals 0 0 0 0 0) s).
  assert (cc_cpu s1 !! k = Some cc) as Hk1 by done.
  apply (start_st _ _ s1 k cc Hk1). crun. eexists _, _. split; [reflexivity |].
  assert (cc_waiting cc = 0) by (by eapply Hn).
  apply (inv_st k s s1 cc); try done.
  apply (wheel_inv_cc s k cc); [done | change (callouts s1) with (callouts s); by rewrite st_same].
Qed.

(** Operations of other threads. *)
Lemma inv_env k s s' p : inv k s p → env_ok s s' → inv k s' p.
Proof.
  intros [Hw Hn [cc [Hk Hp]] Hq] He. split.
  - apply He.
  - by eapply env_ok_waiting.
  - destruct (eo_cpus _ _ He k cc Hk) as (cc' & Hk' & E1 & E2 & E3 & E4 & E5 & E6 & E7).
    exists cc'. split; [done |]. destruct Hp as [Hl Hp].
    destruct (holds_lock p) eqn:Eh.
    { rewrite (E7 Hl). split; [congruence |].
      destruct p; try done. unfold bucket_index in *. by rewrite (eo_mask _ _ He). }
    assert (∀ t, next_in s cc t → next_in s' cc' t) as Hnext.
    { intros t Ht n Hn'. unfold bucket_index. rewrite (eo_mask _ _ He). by apply (E5 t Ht). }
    split; [congruence |]. destruct p; try done; rewrite E2; naive_solver.
  - unfold no_broadcast in *. by rewrite (eo_events _ _ He).
Qed.

(** ** What no operation changes *)

(** Callouts stay where they are and keep the mark of the table of [timeout]; the number
    of CPUs stays. *)
Definition stays (s s' : cstate) : Prop :=
  length (cc_cpu s') = length (cc_cpu s) ∧
  ∀ c x, callouts s !! c = Some x → ∃ x', callouts s' !! c = Some x' ∧ is_local x' = is_local x.

Lemma stays_refl s : stays s s.
Proof. split; [done |]. eauto. Qed.
Lemma stays_trans s1 s2 s3 : stays s1 s2 → stays s2 s3 → stays s1 s3.
Proof.
  intros [L1 H1] [L2 H2]. split; [congruence |]. intros c x Hx. destruct (H1 c x Hx) as (y & Hy & E).
  destruct (H2 c y Hy) as (z & Hz & E'). exists z. split; [done | congruence].
Qed.

Definition staying {A} (m : C A) : Prop := ∀ s a s', m s = Ok (a, s') → stays s s'.

Lemma staying_bind {A B} (m : C A) (f : A → C B) : staying m → (∀ a, staying (f a)) → staying (a ← m; f a).
Proof.
  intros Hm Hf s b s'. unfold mbind, M_bind. destruct (m s) as [[a s1] |] eqn:E; [| done]. intros E'.
  eapply stays_trans; [by eapply Hm | by eapply Hf].
Qed.
Lemma staying_ret {A} (a : A) : staying (mret a).
Proof. intros s b s' [= <- <-]. apply stays_refl. Qed.
Lemma staying_fault {A} f : staying (@faultM cstate A f).
Proof. done. Qed.
Lemma staying_read {A} (m : C A) : (∀ s a s', m s = Ok (a, s') → s' = s) → staying m.
Proof. intros H s a s' E. rewrite (H s a s' E). apply stays_refl. Qed.
Lemma staying_get_cc k : staying (get_cc k).
Proof. apply staying_read. intros s a s'. unfold get_cc. by destruct (cc_cpu s !! k); intros [= <- <-]. Qed.
Lemma staying_get_c c : staying (get_c c).
Proof. apply staying_read. intros s a s'. unfold get_c. by destruct (callouts s !! c); intros [= <- <-]. Qed.
Lemma staying_gets {A} (f : cstate → A) : staying (gets f).
Proof. apply staying_read. by intros s a s' [= <- <-]. Qed.
Lemma staying_modify f :
  (∀ s, callouts (f s) = callouts s) → (∀ s, length (cc_cpu (f s)) = length (cc_cpu s)) → staying (modify f).
Proof. intros H1 H2 s a s' [= <- <-]. split; [apply H2 |]. rewrite H1. eauto. Qed.
Lemma staying_upd_cc k f : staying (upd_cc k f).
Proof.
  apply staying_bind; [apply staying_get_cc |]. intros cc. apply staying_modify; [done |].
  intros s. cbn. apply length_insert.
Qed.
Lemma staying_upd_c c f : (∀ x, is_local (f x) = is_local x) → staying (upd_c c f).
Proof.
  intros Hf s [] s'. unfold upd_c, mbind, M_bind, get_c. destruct (callouts s !! c) as [x |] eqn:Hx; [| done].
  intros [= <-]. split; [done |]. intros d y Hy. cbn. destruct (decide (c = d)) as [<- | Hne].
  - simplify_eq. exists (f x). by rewrite lookup_insert_eq.
  - exists y. by rewrite lookup_insert_ne.
Qed.

Create HintDb staying.
#[local] Hint Resolve staying_ret staying_fault staying_get_cc staying_get_c staying_gets staying_upd_cc : staying.

(** Goes through the code. *)
Ltac stay :=
  repeat first
    [ solve [auto with staying]
    | progress cbn beta iota zeta
    | lazymatch goal with
      | |- staying (upd_c _ _) => apply staying_upd_c; intros ?
      | |- staying (mbind _ _) => apply staying_bind; [| intros ?]
      | |- staying (if ?b then _ else _) => destruct b
      | |- staying (match ?x with _ => _ end) => destruct x
      end ].

Lemma staying_lock k : staying (CC_LOCK k).
Proof. unfold CC_LOCK. stay. Qed.
Lemma staying_unlock k : staying (CC_UNLOCK k).
Proof. unfold CC_UNLOCK. stay. Qed.
Lemma staying_bucket k t : staying (bucket k t).
Proof. unfold bucket. stay. Qed.
#[local] Hint Resolve staying_lock staying_unlock staying_bucket : staying.
Lemma staying_store k t l : staying (bucket_store k t l).
Proof. unfold bucket_store. stay. Qed.
#[local] Hint Resolve staying_store : staying.
Lemma staying_next k t c : staying (TAILQ_NEXT k t c).
Proof. unfold TAILQ_NEXT. stay. Qed.
Lemma staying_remove k t c : staying (TAILQ_REMOVE k t c).
Proof. unfold TAILQ_REMOVE. stay. Qed.
Lemma staying_tail k t c : staying (TAILQ_INSERT_TAIL k t c).
Proof. unfold TAILQ_INSERT_TAIL. stay. Qed.
Lemma staying_callout_lock c : staying (callout_lock c).
Proof. unfold callout_lock. stay. Qed.
#[local] Hint Resolve staying_next staying_remove staying_tail staying_callout_lock : staying.
Lemma staying_unlink k c x : staying (unlink k c x).
Proof. unfold unlink. stay. Qed.
#[local] Hint Resolve staying_unlink : staying.

Lemma staying_reset_once c to_ticks ftn arg cpu ca : staying (reset_once c to_ticks ftn arg cpu ca).
Proof.
  assert (∀ k x, staying (reset_unlink k c x)) as Hu.
  { intros k x. unfold reset_unlink. stay. apply clear_both_flags. }
  assert (∀ k, staying (reset_link k c to_ticks ftn arg)) as Hl.
  { intros k. unfold reset_link. stay; [| apply set_both_flags].
    apply staying_modify; intros s; by destruct (_ && _). }
  unfold reset_once. stay; first [apply Hu | apply Hl | done].
Qed.

Lemma staying_stop c safe : staying (_callout_stop_safe c safe).
Proof.
  unfold _callout_stop_safe. stay; first [done | apply clear_active_flags | apply clear_both_flags].
Qed.

Lemma staying_start k : staying (softclock_start k).
Proof. unfold softclock_start. stay. by apply staying_modify. Qed.

Lemma staying_softclock k p : staying (softclock_step k p).
Proof.
  assert (∀ a b c d e, staying (modify (add_loc a b c d e))) as Ha by (intros; by apply staying_modify).
  assert (staying (modify reset_steps)) as Hr by (by apply staying_modify).
  assert (∀ e, staying (modify (add_event e))) as He by (intros; by apply staying_modify).
  assert (staying (softclock_end k)).
  { unfold softclock_end. stay. apply staying_modify; intros s; by destruct (avgs s) as [[[]]]. }
  destruct p as [| t [c |] | t | r | r | r | r | t |]; cbn [softclock_step]; unfold pass_over, pick; stay;
    try done.
  { unfold is_local at 1. cbn [c_flags set_cflags].
    destruct (has_flag (c_flags x) CALLOUT_LOCAL_ALLOC) eqn:El; [by unfold is_local; rewrite El | apply clear_pending_flags]. }
  by destruct (Nat.eqb _ _).
Qed.

(** ** Interleavings *)

(** A call of [callout_reset_on] under way, between two of its critical sections. *)
Record reset : Type := mk_reset {
  rs_c : nat; rs_ticks : Z; rs_func : nat; rs_arg : Z; rs_cpu : nat; rs_cancelled : Z
}.

(** The wheel, where [softclock] is, and the resets under way. *)
Record world : Type := mk_world { w_state : cstate; w_phase : phase; w_resets : list reset }.

(** What [callout_init] and [_callout_init_lock] make of a callout, the latter with a
    lock.  (With NULL and without CALLOUT_RETURNUNLOCKED [softclock] would unlock
    through a null lock class.) *)
Definition initialised (x : callout) : Prop :=
  (∃ b, x = callout_init b) ∨ ∃ l flags, x = _callout_init_lock (Some l) flags.

(** One step: of [softclock] or [callout_tick] on CPU [k], whose thread is the only one
    that runs them, of the hardware clock, or of another thread, or of a handler.  A
    thread starts a reset of a callout of its own, which it does not free before the
    call returns; the call runs one critical section at a time and may be overtaken in
    between; it stops a callout, drains it, initialises one, or frees one that is not
    pending.  An operation that finds [cc_lock] held waits, so it makes no step then. *)
Inductive cstep (k : nat) : world → world → Prop :=
| st_softclock s p R s' p' :
    softclock_step k p s = Ok (p', s') → cstep k (mk_world s p R) (mk_world s' p' R)
| st_start s R s' p' :
    softclock_start k s = Ok (p', s') → cstep k (mk_world s Idle R) (mk_world s' p' R)
| st_hardclock s p R :
    cstep k (mk_world s p R) (mk_world (set_ticks (s32 (ticks s + 1)) s) p R)
| st_tick fuel s R b s' :
    (_ ← CC_LOCK k; need ← tick_loop fuel k; _ ← CC_UNLOCK k; mret need) s = Ok (b, s') →
    cstep k (mk_world s Idle R) (mk_world s' Idle R)
| st_reset s p R c x to_ticks f arg cpu :
    callouts s !! c = Some x → is_local x = false → (cpu < length (cc_cpu s))%nat →
    cstep k (mk_world s p R) (mk_world s p (mk_reset c to_ticks f arg cpu 0 :: R))
| st_reset_done s p R1 R2 r v s' :
    reset_once (rs_c r) (rs_ticks r) (Some (rs_func r)) (rs_arg r) (rs_cpu r) (rs_cancelled r) s
      = Ok (Done v, s') →
    cstep k (mk_world s p (R1 ++ r :: R2)) (mk_world s' p (R1 ++ R2))
| st_reset_again s p R1 R2 r v s' :
    reset_once (rs_c r) (rs_ticks r) (Some (rs_func r)) (rs_arg r) (rs_cpu r) (rs_cancelled r) s
      = Ok (Again v, s') →
    cstep k (mk_world s p (R1 ++ r :: R2))
      (mk_world s' p (R1 ++ mk_reset (rs_c r) (rs_ticks r) (rs_func r) (rs_arg r) (rs_cpu r) v :: R2))
| st_stop s p R c safe r s' :
    _callout_stop_safe c safe s = Ok (r, s') → cstep k (mk_world s p R) (mk_world s' p R)
| st_init s p R c x :
    callouts s !! c = None → initialised x →
    cstep k (mk_world s p R) (mk_world (set_callouts (<[c := x]> (callouts s)) s) p R)
| st_free s p R c x :
    callouts s !! c = Some x → is_local x = false → pending x = false → (∀ r, r ∈ R → rs_c r ≠ c) →
    cstep k (mk_world s p R) (mk_world (set_callouts (delete c (callouts s)) s) p R).

(** The callouts of the resets under way exist and are not of the table. *)
Definition resets_ok (s : cstate) (R : list reset) : Prop :=
  ∀ r, r ∈ R → (∃ x, callouts s !! rs_c r = Some x ∧ is_local x = false) ∧
               (rs_cpu r < length (cc_cpu s))%nat.

Definition winv (k : nat) (w : world) : Prop :=
  inv k (w_state w) (w_phase w) ∧ resets_ok (w_state w) (w_resets w).

Lemma resets_stay s s' R : stays s s' → resets_ok s R → resets_ok s' R.
Proof.
  intros [El Hs] HR r Hr. destruct (HR r Hr) as [(x & Hx & Hloc) Hc]. rewrite El. split; [| done].
  destruct (Hs _ x Hx) as (x' & Hx' & E). exists x'. split; [done | congruence].
Qed.

Lemma inv_softclock k s p s' p' : inv k s p → softclock_step k p s = Ok (p', s') → inv k s' p'.
Proof.
  intros Hi E. destruct (softclock_goes_on k s p Hi) as (p1 & s1 & E1 & H1).
  rewrite E in E1. by injection E1 as <- <-.
Qed.

(** Only the callouts change. *)
Lemma inv_callouts k s p m : inv k s p → wheel_inv (set_callouts m s) → inv k (set_callouts m s) p.
Proof. intros [Hw Hn Hp Hq] Hw'. by split. Qed.

Lemma cok_initialised n x : (0 < n)%nat → initialised x → cok n x ∧ pending x = false.
Proof.
  intros Hn Hx. assert (c_cpu x = 0%nat ∧ pending x = false ∧ (c_lock x = None → retunlocked (c_flags x) = true)) as (Ec & Ep & El).
  { destruct Hx as [[b ->] | (l & fl & ->)]; [by destruct b |]. split_and!; [done | | done].
    unfold pending, _callout_init_lock, has_flag. cbn [c_flags].
    rewrite <- Z.land_assoc. change (Z.land _ CALLOUT_PENDING) with 0 at 1. by rewrite Z.land_0_r. }
  split; [| done]. split_and!; [lia | congruence | done].
Qed.

(** A new callout, and one less. *)
Lemma wheel_inv_new s c x :
  wheel_inv s → callouts s !! c = None → cok (length (cc_cpu s)) x → pending x = false →
  wheel_inv (set_callouts (<[c := x]> (callouts s)) s).
Proof.
  intros [W1 W2 W3 W4 W5 W6] Hc Hok Hp. split; cbn; [done.. | | |].
  - intros k cc b l d Hk Hb Hd. destruct (W4 k cc b l d Hk Hb Hd) as (y & Hy & Hrest).
    exists y. split; [| done]. rewrite lookup_insert_ne by congruence. done.
  - intros d y Hy Hpy. apply lookup_insert_Some in Hy as [[<- <-] | [_ Hy]]; [congruence | by eapply W5].
  - intros d y Hy. apply lookup_insert_Some in Hy as [[<- <-] | [_ Hy]]; [done | by eapply W6].
Qed.

Lemma wheel_inv_free s c x :
  wheel_inv s → callouts s !! c = Some x → pending x = false →
  wheel_inv (set_callouts (delete c (callouts s)) s).
Proof.
  intros [W1 W2 W3 W4 W5 W6] Hc Hp. split; cbn; [done.. | | |].
  - intros k cc b l d Hk Hb Hd. destruct (W4 k cc b l d Hk Hb Hd) as (y & Hy & Hpy & Hrest).
    exists y. split; [| done]. rewrite lookup_delete_ne by congruence. done.
  - intros d y Hy Hpy. apply lookup_delete_Some in Hy as [_ Hy]. by eapply W5.
  - intros d y Hy. apply lookup_delete_Some in Hy as [_ Hy]. by eapply W6.
Qed.

(** [callout_tick] moves [cc_softticks] only. *)
Lemma tick_loop_cc fuel : ∀ k s m cc0 cc b s', cc_cpu s !! k = Some cc0 →
  tick_loop fuel k (st s k cc m) = Ok (b, s') → ∃ v, s' = st s k (set_softticks v cc) m.
Proof.
  induction fuel as [| fuel IH]; intros k s m cc0 cc b s' Hk; cbn [tick_loop]; crun; erewrite M_bind_Ok by done; cbn beta;
    destruct (s32 _ <? 0); [| | |];
    try (intros [= <- <-]; exists (cc_softticks cc); by destruct cc).
  - unfold bucket. rewrite <- M_bind_assoc. crun. rewrite <- M_bind_assoc. erewrite M_bind_Ok by done. cbn beta.
    destruct (cc_callwheel cc !! _) as [[| ] |]; [done | | done].
    intros [= <- <-]. exists (cc_softticks cc). by destruct cc.
  - unfold bucket. rewrite <- M_bind_assoc. crun. rewrite <- M_bind_assoc. erewrite M_bind_Ok by done. cbn beta.
    destruct (cc_callwheel cc !! _) as [[| d l] |]; [| | done]; (erewrite M_bind_Ok by done); cbn beta iota.
    + crun. intros E. destruct (IH _ _ _ _ _ _ _ Hk E) as [v ->]. exists v. by destruct cc.
    + intros [= <- <-]. exists (cc_softticks cc). by destruct cc.
Qed.

Lemma inv_tick k s fuel b s' : inv k s Idle →
  (_ ← CC_LOCK k; need ← tick_loop fuel k; _ ← CC_UNLOCK k; mret need) s = Ok (b, s') →
  inv k s' Idle ∧ stays s s'.
Proof.
  intros [Hw Hn [cc [Hk [Hl [Hc Hnx]]]] Hq]. 
  lazymatch goal with |- ?m s = _ → _ => replace (m s) with (m (st s k cc (callouts s))) by (by rewrite st_same) end.
  crun.
  destruct (tick_loop fuel k (st s k (set_locked true cc) (callouts s))) as [[b1 s1] |] eqn:E;
    [| unfold mbind, M_bind; by rewrite E].
  erewrite M_bind_Ok by exact E. destruct (tick_loop_cc _ _ _ _ _ _ _ _ Hk E) as [v ->]. crun.
  intros [= <- <-]. split; [| split; [cbn; apply length_insert | eauto]].
  assert (cc_waiting cc = 0) by (by eapply Hn).
  apply (inv_st k s s cc); try done. apply (wheel_inv_cc s k cc); [done | by rewrite st_same].
Qed.

Lemma inv_cpu k s p : inv k s p → (0 < length (cc_cpu s))%nat.
Proof. intros [_ _ (cc & Hk & _) _]. apply lookup_lt_Some in Hk. lia. Qed.

Lemma inv_init k s p c x : inv k s p → callouts s !! c = None → initialised x →
  inv k (set_callouts (<[c := x]> (callouts s)) s) p.
Proof.
  intros Hi Hc Hx. destruct (cok_initialised (length (cc_cpu s)) x (inv_cpu k s p Hi) Hx) as [Hok Hp].
  apply inv_callouts; [done |]. apply wheel_inv_new; [apply Hi | done..].
Qed.

(** A critical section of a reset under way. *)
Lemma winv_reset k s p R1 R2 r o s' :
  winv k (mk_world s p (R1 ++ r :: R2)) →
  reset_once (rs_c r) (rs_ticks r) (Some (rs_func r)) (rs_arg r) (rs_cpu r) (rs_cancelled r) s = Ok (o, s') →
  inv k s' p ∧ resets_ok s' (R1 ++ r :: R2).
Proof.
  intros [Hi HR] E. cbn in *. split; [| eapply resets_stay; [by eapply staying_reset_once | done]].
  destruct (HR r) as [(x & Hx & Hloc) Hc]; [set_solver |].
  eapply inv_env; [done |]. destruct Hi. by eapply reset_once_env.
Qed.

Lemma winv_cstep k w w' : winv k w → cstep k w w' → winv k w'.
Proof.
  intros [Hi HR] Hs. destruct Hs as [s p R s' p' E | s R s' p' E | s p R | fuel s R b s' E | s p R c x tt f arg cpu Hx Hl Hc
    | s p R1 R2 r v s' E | s p R1 R2 r v s' E | s p R c safe r s' E | s p R c x Hc Hx | s p R c x Hx Hl Hp Hr]; cbn in Hi, HR.
  - split; cbn; [by eapply inv_softclock | eapply resets_stay; [by eapply staying_softclock | done]].
  - destruct (softclock_starts k s Hi) as (p1 & s1 & E1 & H1). rewrite E in E1. injection E1 as <- <-.
    split; cbn; [done | eapply resets_stay; [| done]]. revert E. by apply staying_start.
  - split; [| done]. destruct Hi as [Hw Hn [cc [Hk Hp]] Hq]. split; [by apply (wheel_inv_others s) | done | by exists cc | done].
  - destruct (inv_tick k s fuel b s' Hi E). split; [done | by eapply resets_stay].
  - split; [done |]. intros r [-> | Hr]%elem_of_cons; cbn; eauto.
  - destruct (winv_reset k s p R1 R2 r _ s' (conj Hi HR) E) as [Hi' HR']. split; [done |]. intros q Hq. apply HR'. set_solver.
  - destruct (winv_reset k s p R1 R2 r _ s' (conj Hi HR) E) as [Hi' HR']. split; [done |]. intros q Hq. cbn in Hq.
    apply elem_of_app in Hq as [Hq | [-> | Hq]%elem_of_cons]; [apply HR'; set_solver | apply (HR' r); set_solver | apply HR'; set_solver].
  - split; cbn; [| eapply resets_stay; [by eapply staying_stop | done]]. eapply inv_env; [done |]. destruct Hi. by eapply stop_env.
  - split; [by apply inv_init |]. intros r Hr. destruct (HR r Hr) as [(y & Hy & Hloc) Hcpu]. split; [| done]. exists y. cbn.
    by rewrite lookup_insert_ne by congruence.
  - split; [apply inv_callouts; [done | by eapply wheel_inv_free; [apply Hi | ..]] |]. intros r Hq.
    destruct (HR r Hq) as [(y & Hy & Hloc) Hcpu]. split; [| done]. exists y. cbn. rewrite lookup_delete_ne by (specialize (Hr r Hq); congruence). done.
Qed.

Lemma winv_reachable k w0 w : winv k w0 → rtc (cstep k) w0 w → winv k w.
Proof.
  intros H0 Hrun. refine (rtc_ind_r (winv k) w0 H0 _ w Hrun). intros y z _ Hs Hy. by eapply winv_cstep.
Qed.

(** The wheel as [callout_cpu_init] leaves it: [n] CPUs, 2^[bits] queues, all empty, the
    table [ids] of [timeout] on the free list of CPU 0. *)
Definition boot_cc (bits : nat) (table : bool) (free : list nat) : callout_cpu :=
  mk_cc false table (replicate (2 ^ bits) []) free None None 0 0 0.
Definition boot (n bits : nat) (ids : list nat) (now min : Z) : cstate :=
  mk_cstate now min (Z.ones (Z.of_nat bits))
    (boot_cc bits true (rev ids) :: replicate n (boot_cc bits false []))
    (foldr (fun c m => <[c := set_cflags CALLOUT_LOCAL_ALLOC (callout_init false)]> m) ∅ ids)
    (mk_locals 0 0 0 0 0) (0, 0, 0, 0) [].

Lemma boot_callouts ids c (x : callout) :
  foldr (fun c m => <[c := set_cflags CALLOUT_LOCAL_ALLOC (callout_init false)]> m) (∅ : gmap nat callout) ids !! c = Some x →
  x = set_cflags CALLOUT_LOCAL_ALLOC (callout_init false).
Proof.
  induction ids as [| d ids IH]; cbn [foldr]; [by rewrite lookup_empty |].
  intros [[_ <-] | [_ Hx]]%lookup_insert_Some; auto.
Qed.

Lemma boot_cpus n bits ids now min k cc : cc_cpu (boot n bits ids now min) !! k = Some cc →
  ∃ t f, cc = boot_cc bits t f.
Proof.
  destruct k; cbn; [intros [= <-]; eauto |]. intros [-> _]%lookup_replicate. eauto.
Qed.

Lemma boot_winv k n bits ids now min : (k <= n)%nat → winv k (mk_world (boot n bits ids now min) Idle []).
Proof.
  intros Hk. split; [| intros r Hr; set_solver]. cbn.
  assert (is_Some (cc_cpu (boot n bits ids now min) !! k)) as [cc Hcc].
  { apply lookup_lt_is_Some_2. cbn. rewrite length_replicate. lia. }
  split; [split | | | ].
  - exists (Z.of_nat bits). split; [lia | done].
  - intros j d Hj. destruct (boot_cpus _ _ _ _ _ _ _ Hj) as (t & f & ->). cbn. rewrite length_replicate, Z.ones_equiv.
    rewrite Nat2Z.inj_pow. lia.
  - intros j d b l Hj Hb. destruct (boot_cpus _ _ _ _ _ _ _ Hj) as (t & f & ->). apply lookup_replicate in Hb as [-> _]. constructor.
  - intros j d b l c Hj Hb Hc. destruct (boot_cpus _ _ _ _ _ _ _ Hj) as (t & f & ->). apply lookup_replicate in Hb as [-> _]. set_solver.
  - intros c x Hx. by rewrite (boot_callouts _ _ _ Hx).
  - intros c x Hx. rewrite (boot_callouts _ _ _ Hx). split; [cbn; lia | done].
  - intros j d Hj. by destruct (boot_cpus _ _ _ _ _ _ _ Hj) as (t & f & ->).
  - exists cc. split; [done |]. by destruct (boot_cpus _ _ _ _ _ _ _ Hcc) as (t & f & ->).
  - apply not_elem_of_nil.
Qed.

(** With one CPU it is what [callout_cpu_init] makes of the zeroed [cc_cpu]. *)
Lemma boot_init bits ids now min :
  callout_cpu_init 0 (2 ^ bits) ids
    (mk_cstate now min (Z.ones (Z.of_nat bits)) [mk_cc false true [] [] None None 0 0 0] ∅
       (mk_locals 0 0 0 0 0) (0, 0, 0, 0) []) = Ok (tt, boot 0 bits ids now min).
Proof. reflexivity. Qed.

(** [C1] Safety of the callout wheel.  From the wheel as [callout_cpu_init] leaves it,
    while [softclock] and [callout_tick] run on one CPU (one thread runs them) and other
    threads and the handlers initialise callouts, with [callout_init] or with
    [_callout_init_lock] and a lock, reset them, on their CPU or to another one, where the
    call runs two critical sections and anything may happen in between, stop or drain
    them, and free those that are not pending nor being reset: in every reachable state a
    callout is on a queue exactly when it is pending, and then once, on the queue of its
    CPU and time, and no freed callout is on one; and [softclock] can take its next step:
    the callout it stands on and the saved [cc_next] are never dangling, the current
    callout, which may be freed, is not read, no lock is taken twice, and nothing is
    unlocked through a null lock class.  No thread calls timeout(9), which waits for
    itself before it queues anything, nor makes a callout with a NULL lock through
    [_callout_init_lock]. *)
Theorem callout_wheel_safe (k n bits : nat) (ids : list nat) (now min : Z) (w : world) :
  (k <= n)%nat → rtc (cstep k) (mk_world (boot n bits ids now min) Idle []) w →
  wheel_inv (w_state w) ∧ ∃ p' s', softclock_step k (w_phase w) (w_state w) = Ok (p', s').
Proof.
  intros Hk Hrun. pose proof (winv_reachable k _ w (boot_winv k n bits ids now min Hk) Hrun) as [Hi _].
  split; [apply Hi |]. destruct (softclock_goes_on k _ _ Hi) as (p' & s' & E & _). eauto.
Qed.

(** [callout_drain] of the callout that is running goes to sleep on
    [callout_cv] (result [None]) and is never woken: nothing sets [cc_waiting], so
    in no run, however long, does [softclock] broadcast. *)
Theorem callout_drain_never_woken (k : nat) (w0 w : world) (c : nat) (x : callout)
    (cc : callout_cpu) :
  winv k w0 → rtc (cstep k) w0 w →
  callouts (w_state w) !! c = Some x → cc_cpu (w_state w) !! c_cpu x = Some cc → cc_locked cc = false →
  pending x = false → cc_curr cc = Some c →
  ∃ s1, callout_drain c (w_state w) = Ok (None, s1) ∧
    ∀ w2, rtc (cstep k) (mk_world s1 (w_phase w) (w_resets w)) w2 → Broadcast ∉ events (w_state w2).
Proof.
  intros H0 Hrun Hx Hk Hl Hp Hc. pose proof (winv_reachable k w0 w H0 Hrun) as Hi.
  pose proof (stop_idle _ c true x cc Hx Hp Hk Hl) as E.
  assert (stop_idle_result true cc c x = None) as Er.
  { unfold stop_idle_result. by rewrite bool_decide_true by done. }
  rewrite Er in E. eexists. split; [exact E |]. intros w2 Hrun2. destruct w as [s p R].
  eapply inv_quiet, winv_reachable; [| exact Hrun2]. eapply (winv_cstep k _ _ Hi), st_stop. exact E.
Qed.

(** ** Stopping *)

(** [callout_stop] of a callout whose CPU is not locked: if the callout was
    pending it returns 1 and the callout is on no queue of any CPU, so it does not
    run unless it is scheduled again; if [softclock] has taken it off the queue
    and waits for its lock, which the caller holds, it returns 1 and [softclock]
    skips the handler; in all other cases it returns 0. *)
Theorem callout_stop_spec (k : nat) (s : cstate) (p : phase) (c : nat) (x : callout)
    (cc : callout_cpu) :
  inv k s p → callouts s !! c = Some x → cc_cpu s !! c_cpu x = Some cc → cc_locked cc = false →
  ∃ r s', callout_stop c s = Ok (Some r, s') ∧
    (∀ x', callouts s' !! c = Some x' → pending x' = false) ∧
    (pending x = true → r = 1 ∧
       ∀ j cc' b l, cc_cpu s' !! j = Some cc' → cc_callwheel cc' !! b = Some l → c ∉ l) ∧
    (∀ r0 lk, pending x = false → p = TakeLock r0 → r_c r0 = c → c_cpu x = k →
       c_lock x = Some lk → r_lock r0 = Some lk → cc_cancel cc = 0 →
       r = 1 ∧ softclock_step k p s' = Ok (Skip r0, s')) ∧
    (pending x = false → cc_curr cc ≠ Some c ∨ c_lock x = None ∨ cc_cancel cc ≠ 0 → r = 0).
Proof.
  intros Hi Hx Hk Hl. unfold callout_stop. destruct (pending x) eqn:Hp.
  - destruct (stop_pending s c false x cc) as (l & Hb & Hin & E); [apply Hi | done.. |].
    eexists _, _. split; [exact E |].
    assert (pending (unpend x) = false) as Hp' by apply pending_unpend.
    pose proof (stop_env s c false _ _ (inv_wheel _ _ _ Hi) E) as He.
    split_and!; [| | done | done].
    + intros x'. simpl. rewrite lookup_insert_eq. intros [= <-]. done.
    + intros _. split; [done |]. intros j cc' b l' Hj Hb' Hc.
      destruct (wi_in _ (eo_inv _ _ He) j cc' b l' c Hj Hb' Hc) as (y & Hy & Hpy & _).
      simpl in Hy. rewrite lookup_insert_eq in Hy. congruence.
  - pose proof (stop_idle s c false x cc Hx Hp Hk Hl) as E.
    assert (∃ r, stop_idle_result false cc c x = Some r) as [r Er].
    { unfold stop_idle_result. repeat case_match; eauto. }
    rewrite Er in E. eexists r, _. split; [exact E |]. split_and!; [| done | |].
    + intros x'. simpl. rewrite lookup_insert_eq. intros [= <-]. by rewrite pending_deactivate.
    + intros r0 lk _ -> <- Hcpu Hlk Hlk0 Hcan.
      destruct (inv_phase _ _ _ Hi) as (cc1 & Hk1 & _ & Hcur & _). rewrite <- Hcpu in Hk1. simplify_eq.
      assert (r = 1) as ->.
      { unfold stop_idle_result in Er. rewrite bool_decide_true in Er by done.
        rewrite Hlk, bool_decide_true, Hcan in Er by eauto. by simplify_eq/=. }
      split; [done |]. cbn [softclock_step]. rewrite Hlk0. unfold stop_idle_cc. rewrite Er.
      rewrite decide_True by done. by erewrite M_bind_Ok by (eapply get_cc_st; done).
    + intros _ Hno. unfold stop_idle_result in Er.
      destruct (bool_decide_reflect (cc_curr cc = Some c)); [| by simplify_eq/=]. simpl in Er.
      destruct (bool_decide_reflect (is_Some (c_lock x))) as [Hs | Hs]; [| by simplify_eq/=].
      destruct (Z.eqb_spec (cc_cancel cc) 0); [| by simplify_eq/=].
      destruct Hno as [? | [Hno | ?]]; [done | | done]. rewrite Hno in Hs. by destruct Hs.
Qed.

End CalloutSafe.
