(* ===== verification/CalloutRun.v ===== *)
(** What a run of the soft clock does when no other thread interferes: it calls
    the handlers of exactly the callouts that are due, in the order of their times
    and, for equal times, in the order they were scheduled. Then initialisation,
    the deadlock of [timeout], and the arithmetic of [tvtohz]. *)
From stdpp Require Import relations.
From S2P Require Import Prelude Callout CalloutSpec CalloutSafe.
Import Callout CalloutSpec CalloutSafe.

Module CalloutRun.

(** ** Reading the state *)

Definition time_of (s : cstate) (c : nat) : Z :=
  match callouts s !! c with Some x => c_time x | None => 0 end.

(** The call [softclock] makes for a callout. *)
Definition call_of (s : cstate) (t : Z) (c : nat) : event :=
  match callouts s !! c with
  | Some x => Called c (c_func x) (c_arg x) t
  | None => Called c None 0 t
  end.

(** The queue of time [t] on CPU [k]. *)
Definition queue (s : cstate) (k : nat) (t : Z) : list nat :=
  match cc_cpu s !! k with
  | Some cc => default [] (cc_callwheel cc !! bucket_index s t)
  | None => []
  end.

Definition due (s : cstate) (t : Z) (l : list nat) : list nat :=
  List.filter (fun c => time_of s c =? t) l.

Definition not_due (s : cstate) (t : Z) (l : list nat) : list nat :=
  List.filter (fun c => negb (time_of s c =? t)) l.

(** The calls made when the bucket of time [t] is processed. *)
Definition calls_at (s : cstate) (k : nat) (t : Z) : list event :=
  call_of s t <$> due s t (queue s k t).

(** ** Runs *)

(** [n] steps lead from one point to another. *)
Definition leads (k n : nat) (p : phase) (s : cstate) (p' : phase) (s' : cstate) : Prop :=
  ∀ fuel, softclock_run (n + fuel) k p s = softclock_run fuel k p' s'.

Lemma leads_refl k p s : leads k 0 p s p s.
Proof. by intros fuel. Qed.

Lemma leads_trans k n1 n2 p1 s1 p2 s2 p3 s3 :
  leads k n1 p1 s1 p2 s2 → leads k n2 p2 s2 p3 s3 → leads k (n1 + n2) p1 s1 p3 s3.
Proof. intros H1 H2 fuel. rewrite <- Nat.add_assoc, H1. apply H2. Qed.

Lemma leads_step k p s p' s' :
  p ≠ Idle → softclock_step k p s = Ok (p', s') → leads k 1 p s p' s'.
Proof.
  intros Hp E fuel. change (1 + fuel)%nat with (S fuel).
  assert (softclock_run (S fuel) k p s =
          (p' ← softclock_step k p; softclock_run fuel k p') s) as Er by (by destruct p).
  rewrite Er. by erewrite M_bind_Ok by exact E.
Qed.

(** What processing some callouts of the bucket of time [t] leaves alone. *)
Record same_but (k : nat) (t : Z) (s s' : cstate) : Prop := {
  sb_ticks : ticks s' = ticks s;
  sb_mask : callwheelmask s' = callwheelmask s;
  sb_soft : ∀ cc cc', cc_cpu s !! k = Some cc → cc_cpu s' !! k = Some cc' →
     cc_softticks cc' = cc_softticks cc;
  sb_queue : ∀ t', bucket_index s t' ≠ bucket_index s t → queue s' k t' = queue s k t';
  sb_data : ∀ c, (fun x => (c_time x, c_func x, c_arg x)) <$> callouts s' !! c =
                 (fun x => (c_time x, c_func x, c_arg x)) <$> callouts s !! c
}.

Lemma same_but_refl k t s : same_but k t s s.
Proof. split; try done. intros. by simplify_eq. Qed.

Lemma same_but_index k t s s' t' : same_but k t s s' → bucket_index s' t' = bucket_index s t'.
Proof. intros [_ E _ _ _]. unfold bucket_index. by rewrite E. Qed.

Lemma same_but_trans k t s1 s2 s3 :
  is_Some (cc_cpu s2 !! k) → same_but k t s1 s2 → same_but k t s2 s3 → same_but k t s1 s3.
Proof.
  intros [cc2 Hk2] H1 H2. pose proof (same_but_index k t s1 s2) as Hi.
  destruct H1 as [A1 A2 A3 A4 A5], H2 as [B1 B2 B3 B4 B5]. split; [congruence.. | | | ].
  - intros cc1 cc3 H1 H3. rewrite (B3 cc2 cc3) by done. by apply A3.
  - intros t' Ht. rewrite B4, A4; [done.. |]. rewrite !Hi by done. done.
  - intros c. by rewrite B5.
Qed.

Lemma same_but_time k t s s' c : same_but k t s s' → time_of s' c = time_of s c.
Proof.
  intros H. pose proof (sb_data _ _ _ _ H c) as E. unfold time_of.
  destruct (callouts s' !! c), (callouts s !! c); simpl in E; congruence.
Qed.

Lemma same_but_call k t s s' t' c : same_but k t s s' → call_of s' t' c = call_of s t' c.
Proof.
  intros H. pose proof (sb_data _ _ _ _ H c) as E. unfold call_of.
  destruct (callouts s' !! c), (callouts s !! c); simpl in E; congruence.
Qed.

Lemma filter_ne_middle (c : nat) l1 l2 :
  NoDup (l1 ++ c :: l2) → filter (fun y => y ≠ c) (l1 ++ c :: l2) = l1 ++ l2.
Proof.
  intros Hnd. apply NoDup_app in Hnd as (H1 & H2 & H3). apply NoDup_cons in H3 as [H3 _].
  rewrite filter_app, filter_ne_head by done. f_equal.
  apply filter_id. intros y Hy ->. apply (H2 c Hy). set_solver.
Qed.

Lemma tailq_next_middle c l1 l2 :
  NoDup (l1 ++ c :: l2) → tailq_next c (l1 ++ c :: l2) = head l2.
Proof.
  induction l1 as [| y l1 IH]; simpl; intros Hnd.
  - by rewrite decide_True.
  - apply NoDup_cons in Hnd as [Hy Hnd]. rewrite decide_False; [by apply IH |].
    intros ->. apply Hy. set_solver.
Qed.

(** ** The steps in detail *)

(** A step that changes neither queues nor callouts. *)
Definition tame (k : nat) (s s' : cstate) : Prop :=
  ticks s' = ticks s ∧ callwheelmask s' = callwheelmask s ∧ callouts s' = callouts s ∧
  ∀ cc, cc_cpu s !! k = Some cc → ∃ cc', cc_cpu s' !! k = Some cc' ∧
    cc_callwheel cc' = cc_callwheel cc ∧ cc_softticks cc' = cc_softticks cc.

Lemma tame_st k s s1 cc cc' :
  cc_cpu s !! k = Some cc → ticks s1 = ticks s → callwheelmask s1 = callwheelmask s →
  cc_cpu s1 = cc_cpu s → cc_callwheel cc' = cc_callwheel cc → cc_softticks cc' = cc_softticks cc →
  tame k s (st s1 k cc' (callouts s)).
Proof.
  intros Hk E1 E2 E3 E4 E5. split_and!; [done.. |]. intros d Hd. simplify_eq. exists cc'.
  split_and!; [| done..]. eapply st_lookup. by rewrite E3.
Qed.

Lemma tame_trans k s1 s2 s3 : tame k s1 s2 → tame k s2 s3 → tame k s1 s3.
Proof.
  intros (A1 & A2 & A3 & A4) (B1 & B2 & B3 & B4). split_and!; [congruence.. |].
  intros cc Hk. destruct (A4 cc Hk) as (cc' & Hk' & E1 & E2).
  destruct (B4 cc' Hk') as (cc'' & Hk'' & E3 & E4). exists cc''. split_and!; congruence.
Qed.

Lemma tame_queue k s s' cc t : cc_cpu s !! k = Some cc → tame k s s' → queue s' k t = queue s k t.
Proof.
  intros Hk (A1 & A2 & A3 & A4). destruct (A4 cc Hk) as (cc' & Hk' & E & _).
  unfold queue, bucket_index. by rewrite Hk, Hk', E, A2.
Qed.

Lemma tame_same_but k s s' cc t : cc_cpu s !! k = Some cc → tame k s s' → same_but k t s s'.
Proof.
  intros Hk Ht. pose proof Ht as (A1 & A2 & A3 & A4). split; [done.. | | |].
  - intros c1 c2 H1 H2. destruct (A4 c1 H1) as (c3 & H3 & _ & E). by simplify_eq.
  - intros t' _. by eapply tame_queue.
  - intros c. by rewrite A3.
Qed.

Lemma from_st {A} (a : C A) s k cc :
  cc_cpu s !! k = Some cc → a s = a (st s k cc (callouts s)).
Proof. intros Hk. by rewrite st_same. Qed.

Section Steps.
Context (k : nat) (s : cstate) (cc : callout_cpu).
Hypothesis Hk : cc_cpu s !! k = Some cc.

Lemma takelock_tame r :
  cc_cancel cc = 0 →
  ∃ s', softclock_step k (TakeLock r) s = Ok (Call r, s') ∧ tame k s s' ∧ events s' = events s ∧
    ∃ cc', cc_cpu s' !! k = Some cc' ∧ cc_next cc' = cc_next cc.
Proof.
  intros H0. rewrite (from_st (softclock_step k (TakeLock r)) s k cc Hk). cbn [softclock_step].
  destruct (r_lock r) as [lk |].
  - crun. rewrite H0, Z.eqb_refl. cif. crun.
    destruct (Nat.eqb lk Giant); (erewrite M_bind_Ok by done); cbn beta;
      (eexists; split; [reflexivity |]); (split; [| split; [done |]]);
      [by apply (tame_st k s (add_loc 0 0 0 0 1 s) cc) | 
      |by apply (tame_st k s (add_loc 0 0 0 1 0 s) cc) |];
      (eexists; split; [by apply (st_lookup s k cc Hk) | done]).
  - erewrite M_bind_Ok by done. cbn beta. eexists. split; [reflexivity |].
    split; [by apply (tame_st k s (add_loc 0 0 1 0 0 s) cc) |]. split; [done |].
    eexists; split; [by apply (st_lookup s k cc Hk) | done].
Qed.

Lemma call_tame r :
  is_Some (r_func r) →
  ∃ s', softclock_step k (Call r) s = Ok (Return r, s') ∧ tame k s s' ∧
    events s' = events s ++ [Called (r_c r) (r_func r) (r_arg r) (r_ticks r)] ∧
    cc_cpu s' !! k = Some cc.
Proof.
  intros [f Hf]. cbn [softclock_step]. rewrite Hf. erewrite M_bind_Ok by done. cbn beta.
  eexists. split; [reflexivity |]. split; [| done].
  unfold tame. split_and!; [done.. |]. intros d Hd. exists d. by simplify_eq.
Qed.

Lemma return_same r :
  (r_lock r = None → retunlocked (r_flags r) = true) →
  softclock_step k (Return r) s = Ok (Skip r, s).
Proof.
  intros Hr. cbn [softclock_step]. fold (retunlocked (r_flags r)).
  destruct (retunlocked (r_flags r)); [done |]. cif. destruct (r_lock r); [done |].
  by specialize (Hr eq_refl).
Qed.

Lemma skip_tame r :
  cc_locked cc = false → cc_waiting cc = 0 → has_flag (r_flags r) CALLOUT_LOCAL_ALLOC = false →
  ∃ s', softclock_step k (Skip r) s = Ok (Scan (r_ticks r) (cc_next cc), s') ∧ tame k s s' ∧
    events s' = events s.
Proof.
  intros Hl Hw Hloc. rewrite (from_st (softclock_step k (Skip r)) s k cc Hk).
  cbn [softclock_step].
  rewrite Hloc. crun. erewrite M_bind_Ok by done. cbn beta. crun. crun.
  change (cc_waiting (set_curr None (set_locked true cc))) with (cc_waiting cc).
  rewrite Hw, Z.eqb_refl. cif. erewrite M_bind_Ok by done. cbn beta.
  eexists. split; [reflexivity |]. split; [| done].
  by apply (tame_st k s (reset_steps s) cc).
Qed.

(** The callout is not due. *)
Lemma pass_tame t c x l :
  cc_locked cc = true → callouts s !! c = Some x → c_time x ≠ t →
  cc_callwheel cc !! bucket_index s t = Some l → c ∈ l →
  ∃ n s', (1 <= n <= 2)%nat ∧ leads k n (Scan t (Some c)) s (Scan t (tailq_next c l)) s' ∧
    tame k s s' ∧ events s' = events s ∧
    (inv k s (Scan t (Some c)) → inv k s' (Scan t (tailq_next c l))).
Proof.
  intros Hl Hx Ht Hb Hin.
  set (s2 := add_loc 1 0 0 0 0 (add_loc 0 1 0 0 0 s)).
  assert (cc_cpu s2 !! k = Some cc) as Hk2 by done.
  assert (softclock_step k (Scan t (Some c)) s =
    if MAX_SOFTCLOCK_STEPS <=? steps (loc s2)
    then Ok (Yield t, st s2 k (set_locked false (set_next (tailq_next c l) cc)) (callouts s))
    else Ok (Scan t (tailq_next c l), st s2 k cc (callouts s))) as E.
  { cbn [softclock_step]. erewrite M_bind_Ok by done. cbn beta.
    erewrite M_bind_Ok by (apply get_c_ok; exact Hx). cbn beta.
    rewrite (proj2 (Z.eqb_neq _ _)) by done. cif. unfold pass_over.
    set (s1 := add_loc 0 1 0 0 0 s). rewrite <- (st_same s1 k cc) at 1 by done.
    erewrite M_bind_Ok by (eapply TAILQ_NEXT_st; [done | exact Hb | done]). cbn beta.
    erewrite M_bind_Ok by done. erewrite M_bind_Ok by done. cbn beta.
    change (add_loc 1 0 0 0 0 (st s1 k cc (callouts s1))) with (st s2 k cc (callouts s)).
    change (loc (st s2 k cc (callouts s))) with (loc s2).
    destruct (MAX_SOFTCLOCK_STEPS <=? steps (loc s2)); [| done]. crun. by crun. }
  destruct (MAX_SOFTCLOCK_STEPS <=? steps (loc s2)).
  - exists 2%nat, (st (reset_steps s2) k (set_next (tailq_next c l) cc) (callouts s)).
    assert (softclock_step k (Yield t)
      (st s2 k (set_locked false (set_next (tailq_next c l) cc)) (callouts s)) =
      Ok (Scan t (tailq_next c l),
          st (reset_steps s2) k (set_next (tailq_next c l) cc) (callouts s))) as E2.
    { cbn [softclock_step]. crun. crun. erewrite M_bind_Ok by done. cbn beta.
      unfold mret, M_ret. do 3 f_equal. destruct cc; simpl in *. by subst. }
    split_and!; [lia.. | | by apply (tame_st k s (reset_steps s2) cc) | done |].
    + eapply (leads_trans k 1 1); by apply leads_step.
    + intros Hi. by eapply inv_softclock, E2; eapply inv_softclock.
  - exists 1%nat, (st s2 k cc (callouts s)).
    split_and!; [lia.. | by apply leads_step | by apply (tame_st k s s2 cc) | done |].
    intros Hi. by eapply inv_softclock.
Qed.
End Steps.

Definition running_of (c : nat) (t : Z) (x : callout) : running :=
  mk_running c t (c_lock x) (c_func x) (c_arg x) (c_flags x).

(** The CPU and the callout when a due callout has been taken off the queue. *)
Definition picked_cc (s : cstate) (t : Z) (c : nat) (l : list nat) (cc : callout_cpu) : callout_cpu :=
  set_locked false (set_cancel 0 (set_curr (Some c)
    (set_wheel (<[bucket_index s t := filter (fun y => y ≠ c) l]> (cc_callwheel cc))
       (set_next (tailq_next c l) cc)))).

Lemma pick_eq k s cc t c x l :
  cc_cpu s !! k = Some cc → cc_locked cc = true → callouts s !! c = Some x → c_time x = t →
  is_local x = false → cc_callwheel cc !! bucket_index s t = Some l → c ∈ l →
  softclock_step k (Scan t (Some c)) s =
  Ok (TakeLock (running_of c t x),
      st (add_loc 0 1 0 0 0 s) k (picked_cc s t c l cc)
        (<[c := set_cflags (clear_flag (c_flags x) CALLOUT_PENDING) x]> (callouts s))).
Proof.
  intros Hk Hl Hx Ht Hloc Hb Hin. cbn [softclock_step].
  erewrite M_bind_Ok by done. cbn beta. set (s1 := add_loc 0 1 0 0 0 s).
  assert (cc_cpu s1 !! k = Some cc) as Hk1 by done.
  erewrite M_bind_Ok by (apply get_c_ok; exact Hx). cbn beta.
  rewrite Ht, Z.eqb_refl. cif. rewrite (from_st _ s1 k cc Hk1). unfold pick.
  erewrite M_bind_Ok by (eapply TAILQ_NEXT_st; [done | exact Hb | done]). cbn beta. crun.
  erewrite M_bind_Ok by (eapply TAILQ_REMOVE_st; [done | exact Hb | done]). cbn beta.
  erewrite M_bind_Ok by (eapply upd_c_st; exact Hx). cbn beta. crun. crun.
  fold (is_local x). by rewrite Hloc.
Qed.

Section OneBucket.
Context (k : nat) (t : Z).

(** What the processing of a prefix of the queue gives: the steps taken, the
    events, the rest of the queue. *)
Definition processed (n : nat) (p : phase) (s : cstate) (p' : phase) (s' : cstate)
    (evs : list event) : Prop :=
  leads k n p s p' s' ∧ inv k s' p' ∧ events s' = events s ++ evs ∧ same_but k t s s'.

(** The callout [softclock] stands on is due: it is taken off the queue and
    called, and the next one of the queue is looked at. *)
Lemma fire_one s c x l1 l2 :
  inv k s (Scan t (Some c)) → callouts s !! c = Some x → c_time x = t →
  queue s k t = l1 ++ c :: l2 →
  ∃ s', processed 5 (Scan t (Some c)) s (Scan t (head l2)) s' [call_of s t c] ∧
        queue s' k t = l1 ++ l2.
Proof.
  intros Hi Hx Ht Hq. pose proof Hi as [Hw Hn [cc [Hk [Hl [Hc Hin]]]] Hqu].
  destruct (Hin c eq_refl) as (l & Hb & Hcl).
  assert (l = l1 ++ c :: l2) as -> by (unfold queue in Hq; rewrite Hk, Hb in Hq; done).
  assert (NoDup (l1 ++ c :: l2)) as Hnd by (by apply (wi_nodup s Hw k cc (bucket_index s t))).
  destruct (wi_in s Hw k cc _ _ c Hk Hb Hcl) as (x0 & Hx0 & Hp & Hcpu & _). simplify_eq.
  destruct (wi_cok s Hw c x Hx) as (_ & Hok & Hret). destruct (Hok Hp) as [Hf Hloc].
  pose proof (pick_eq _ s cc t c x _ Hk Hl Hx Ht Hloc Hb Hcl) as E1.
  pose proof (inv_softclock _ _ _ _ _ Hi E1) as I1.
  set (ccA := picked_cc s t c (l1 ++ c :: l2) cc) in *.
  match type of E1 with _ = Ok (_, ?v) => set (sA := v) in * end.
  assert (cc_cpu sA !! k = Some ccA) as HkA by (by apply (st_lookup (add_loc 0 1 0 0 0 s) _ cc)).
  destruct (takelock_tame k sA ccA HkA (running_of c t x)) as
    (sB & E2 & T2 & V2 & ccB & HkB & NB); [done |].
  pose proof (inv_softclock _ _ _ _ _ I1 E2) as I2.
  destruct (call_tame k sB ccB HkB (running_of c t x)) as (sC & E3 & T3 & V3 & HkC); [done |].
  pose proof (inv_softclock _ _ _ _ _ I2 E3) as I3.
  pose proof (return_same k sC (running_of c t x) Hret) as E4.
  pose proof (inv_softclock _ _ _ _ _ I3 E4) as I4.
  pose proof I4 as [_ WC [cc4 [Hk4 [L4 _]]] _]. rewrite HkC in Hk4. injection Hk4 as <-.
  destruct (skip_tame k sC ccB HkC (running_of c t x)) as (sD & E5 & T5 & V5);
    [done | by eapply WC | done |].
  pose proof (inv_softclock _ _ _ _ _ I4 E5) as I5.
  pose proof (tame_trans _ _ _ _ T2 (tame_trans _ _ _ _ T3 T5)) as T.
  assert (cc_next ccB = head l2) as Enext by (rewrite NB; by apply tailq_next_middle).
  rewrite Enext in E5, I5. exists sD. split; [split_and! |].
  - eapply (leads_trans _ 1 4); [by apply leads_step |].
    eapply (leads_trans _ 1 3); [by apply leads_step |].
    eapply (leads_trans _ 1 2); [by apply leads_step |].
    eapply (leads_trans _ 1 1); by apply leads_step.
  - done.
  - rewrite V5, V3, V2. unfold call_of. by rewrite Hx.
  - eapply (same_but_trans _ _ s sA sD); [by rewrite HkA | | by eapply tame_same_but].
    split; try done.
    + intros c1 c2 H1 H2. rewrite HkA in H2. by simplify_eq.
    + intros t' Ht'. unfold queue. rewrite HkA, Hk. simpl.
      change (bucket_index sA t') with (bucket_index s t'). by rewrite list_lookup_insert_ne.
    + intros d. simpl. destruct (decide (d = c)) as [-> | Hd].
      * by rewrite lookup_insert_eq, Hx.
      * by rewrite lookup_insert_ne.
  - rewrite (tame_queue _ _ _ _ _ HkA T). unfold queue. rewrite HkA. simpl.
    change (bucket_index sA t) with (bucket_index s t).
    rewrite list_lookup_insert_eq by (by eapply lookup_lt_Some). simpl.
    by apply filter_ne_middle.
Qed.

Lemma pass_one s c x l1 l2 :
  inv k s (Scan t (Some c)) → callouts s !! c = Some x → c_time x ≠ t →
  queue s k t = l1 ++ c :: l2 →
  ∃ n s', (n <= 2)%nat ∧ processed n (Scan t (Some c)) s (Scan t (head l2)) s' [] ∧
          queue s' k t = (l1 ++ [c]) ++ l2.
Proof.
  intros Hi Hx Ht Hq. pose proof Hi as [Hw Hn [cc [Hk [Hl [Hc Hin]]]] Hqu].
  destruct (Hin c eq_refl) as (l & Hb & Hcl).
  assert (l = l1 ++ c :: l2) as -> by (unfold queue in Hq; rewrite Hk, Hb in Hq; done).
  assert (NoDup (l1 ++ c :: l2)) as Hnd by (by apply (wi_nodup s Hw k cc (bucket_index s t))).
  destruct (pass_tame k s cc Hk t c x (l1 ++ c :: l2)) as (n & s' & Hn2 & L & T & V & I); [done.. |].
  rewrite tailq_next_middle in L, I by done.
  exists n, s'. split; [lia |]. split; [split_and! |].
  - done.
  - by apply I.
  - by rewrite V, app_nil_r.
  - by eapply tame_same_but.
  - rewrite (tame_queue _ _ _ _ _ Hk T), Hq. by rewrite <- app_assoc.
Qed.
Lemma queue_lookup s c l1 l2 :
  inv k s (Scan t (head (c :: l2))) → queue s k t = l1 ++ c :: l2 →
  ∃ x, callouts s !! c = Some x.
Proof.
  intros [Hw _ [cc [Hk [_ [_ Hin]]]] _] Hq. destruct (Hin c eq_refl) as (l & Hb & Hcl).
  destruct (wi_in s Hw k cc _ l c Hk Hb Hcl) as (x & Hx & _). eauto.
Qed.

Lemma due_same s s' l : same_but k t s s' → due s' t l = due s t l.
Proof. intros H. apply List.filter_ext. intros c. by rewrite (same_but_time k t s s'). Qed.

Lemma not_due_same s s' l : same_but k t s s' → not_due s' t l = not_due s t l.
Proof. intros H. apply List.filter_ext. intros c. by rewrite (same_but_time k t s s'). Qed.

Lemma calls_same s s' (l : list nat) : same_but k t s s' → (call_of s' t <$> l) = (call_of s t <$> l).
Proof.
  intros H. apply list_fmap_ext. intros i c _. by eapply same_but_call.
Qed.

Lemma processed_trans n1 n2 p1 s1 p2 s2 p3 s3 e1 e2 :
  processed n1 p1 s1 p2 s2 e1 → processed n2 p2 s2 p3 s3 e2 →
  processed (n1 + n2) p1 s1 p3 s3 (e1 ++ e2).
Proof.
  intros (A1 & A2 & A3 & A4) (B1 & B2 & B3 & B4). split_and!.
  - by eapply leads_trans.
  - done.
  - by rewrite B3, A3, app_assoc.
  - eapply same_but_trans; [| done..]. destruct (inv_phase _ _ _ A2) as (cc & -> & _). eauto.
Qed.

(** The rest [l2] of the queue. *)
Lemma scan_rest l2 : ∀ s l1,
  inv k s (Scan t (head l2)) → queue s k t = l1 ++ l2 →
  ∃ n s', (n <= 5 * length l2)%nat ∧
    processed n (Scan t (head l2)) s (Scan t None) s' (call_of s t <$> due s t l2) ∧
    queue s' k t = l1 ++ not_due s t l2.
Proof.
  induction l2 as [| c l2 IH]; intros s l1 Hi Hq.
  { exists 0%nat, s. split; [lia |]. split; [| done].
    split_and!; [apply leads_refl | done | by rewrite app_nil_r | apply same_but_refl]. }
  destruct (queue_lookup s c l1 l2 Hi Hq) as [x Hx].
  assert (time_of s c = c_time x) as Htc by (unfold time_of; by rewrite Hx).
  simpl due. simpl not_due. rewrite Htc.
  destruct (Z.eqb_spec (c_time x) t) as [Ht | Ht]; cif.
  - destruct (fire_one s c x l1 l2 Hi Hx Ht Hq) as (s1 & P1 & Q1). pose proof P1 as (_ & I1 & _ & S1).
    destruct (IH s1 l1 I1 Q1) as (n & s' & Hn & P2 & Q2).
    exists (5 + n)%nat, s'. split; [simpl; lia |].
    rewrite (due_same s s1), (calls_same s s1) in P2 by done.
    rewrite (not_due_same s s1) in Q2 by done.
    split; [by eapply processed_trans in P2; [| exact P1] | done].
  - destruct (pass_one s c x l1 l2 Hi Hx Ht Hq) as (n1 & s1 & Hn1 & P1 & Q1).
    pose proof P1 as (_ & I1 & _ & S1).
    destruct (IH s1 (l1 ++ [c]) I1 Q1) as (n & s' & Hn & P2 & Q2).
    exists (n1 + n)%nat, s'. split; [simpl; lia |].
    rewrite (due_same s s1), (calls_same s s1) in P2 by done.
    rewrite (not_due_same s s1), <- app_assoc in Q2 by done.
    split; [by eapply processed_trans in P2; [| exact P1] | done].
Qed.
End OneBucket.

(** ** A whole run *)

(** The soft tick counter of CPU [k]. *)
Definition soft (s : cstate) (k : nat) : Z :=
  match cc_cpu s !! k with Some cc => cc_softticks cc | None => 0 end.

Lemma queue_set_soft k s cc v m t :
  cc_cpu s !! k = Some cc → queue (st s k (set_softticks v cc) m) k t = queue s k t.
Proof. intros Hk. unfold queue. rewrite (st_lookup s k cc Hk), Hk. done. Qed.

(** One round of the outer loop. *)
Lemma outer_round k s :
  inv k s Outer → soft s k ≠ ticks s →
  ∃ n s', (n <= 5 * length (queue s k (soft s k)) + 2)%nat ∧ leads k n Outer s Outer s' ∧
    inv k s' Outer ∧ events s' = events s ++ calls_at s k (soft s k) ∧
    soft s' k = s32 (soft s k + 1) ∧ ticks s' = ticks s ∧ callwheelmask s' = callwheelmask s ∧
    (∀ t, queue s' k t = if decide (bucket_index s t = bucket_index s (soft s k))
                         then not_due s (soft s k) (queue s k t) else queue s k t) ∧
    (∀ c, time_of s' c = time_of s c) ∧ (∀ t c, call_of s' t c = call_of s t c).
Proof.
  intros Hi Hne. pose proof Hi as [Hw Hn [cc [Hk [Hl Hc]]] Hq].
  assert (soft s k = cc_softticks cc) as Es by (unfold soft; by rewrite Hk).
  rewrite Es in *. set (T := cc_softticks cc) in *.
  destruct (wheel_bucket s k cc T Hw Hk) as [l Hb].
  assert (queue s k T = l) as Eq by (unfold queue; by rewrite Hk, Hb).
  set (s1 := st s k (set_softticks (s32 (T + 1)) cc) (callouts s)).
  assert (softclock_step k Outer s = Ok (Scan T (head l), s1)) as E1.
  { cbn [softclock_step]. erewrite M_bind_Ok by (unfold get_cc; by rewrite Hk).
    erewrite M_bind_Ok by done. cbn beta. rewrite (proj2 (Z.eqb_neq _ _)) by done. cbn zeta.
    rewrite (from_st _ s k cc Hk). crun.
    by erewrite M_bind_Ok by (eapply bucket_st; [done | exact Hb]). }
  pose proof (inv_softclock _ _ _ _ _ Hi E1) as I1.
  assert (queue s1 k T = l) as Q1 by (unfold s1; by rewrite (queue_set_soft k s cc _ _ _ Hk)).
  destruct (scan_rest k T l s1 [] I1) as (n & s2 & Hn2 & (L2 & I2 & V2 & S2) & Q2); [done |].
  exists (1 + (n + 1))%nat, s2.
  assert (softclock_step k (Scan T None) s2 = Ok (Outer, s2)) as E3 by done.
  pose proof (inv_softclock _ _ _ _ _ I2 E3) as I3.
  assert (cc_cpu s1 !! k = Some (set_softticks (s32 (T + 1)) cc)) as Hk1 by (by eapply st_lookup).
  destruct (inv_phase _ _ _ I3) as (cc3 & Hk3 & _).
  rewrite Eq. split; [lia |]. split_and!.
  - eapply (leads_trans _ 1 (n + 1)); [by apply leads_step |].
    eapply (leads_trans _ n 1); [exact L2 | by apply leads_step].
  - done.
  - rewrite V2. unfold calls_at. by rewrite Eq.
  - unfold soft. rewrite Hk3. by rewrite (sb_soft _ _ _ _ S2 _ _ Hk1 Hk3).
  - by rewrite (sb_ticks _ _ _ _ S2).
  - by rewrite (sb_mask _ _ _ _ S2).
  - intros t. destruct (decide (bucket_index s t = bucket_index s T)) as [Eb | Eb].
    + assert (queue s2 k t = queue s2 k T) as ->.
      { unfold queue, bucket_index in *. rewrite Hk3, (sb_mask _ _ _ _ S2).
        change (callwheelmask s1) with (callwheelmask s). by rewrite Eb. }
      rewrite Q2. assert (queue s k t = l) as ->; [| done].
      unfold queue. by rewrite Hk, Eb, Hb.
    + rewrite (sb_queue _ _ _ _ S2) by done. by apply (queue_set_soft k s cc).
  - intros c. by rewrite (same_but_time _ _ _ _ c S2).
  - intros t c. by rewrite (same_but_call _ _ _ _ t c S2).
Qed.

(** The end of the run. *)
Lemma outer_end k s :
  inv k s Outer → soft s k = ticks s →
  ∃ s', leads k 1 Outer s Idle s' ∧ inv k s' Idle ∧ events s' = events s ∧ soft s' k = soft s k.
Proof.
  intros Hi He. pose proof Hi as [Hw Hn [cc [Hk [Hl Hc]]] Hq].
  assert (soft s k = cc_softticks cc) as Es by (unfold soft; by rewrite Hk).
  assert (∃ s', softclock_step k Outer s = Ok (Idle, s') ∧ events s' = events s ∧ soft s' k = soft s k)
    as (s' & E & V & So).
  { cbn [softclock_step]. erewrite M_bind_Ok by (unfold get_cc; by rewrite Hk).
    erewrite M_bind_Ok by done. cbn beta. rewrite (proj2 (Z.eqb_eq _ _)) by congruence.
    unfold softclock_end. destruct (avgs s) as [[[d m] lk] g] eqn:Ea.
    erewrite M_bind_Ok by done. cbn beta. rewrite Ea.
    match goal with |- context [set_avgs ?v s] => set (s1 := set_avgs v s) end.
    assert (cc_cpu s1 !! k = Some cc) as Hk1 by done.
    rewrite (from_st _ s1 k cc Hk1). crun. crun. eexists. split; [reflexivity |].
    split; [done |]. unfold soft at 1. by rewrite (st_lookup s1 k cc Hk1). }
  exists s'. split_and!; [by apply leads_step | by eapply inv_softclock | done | done].
Qed.

Lemma due_not_due s t t' l : t ≠ t' → due s t' (not_due s t l) = due s t' l.
Proof.
  intros Hne. unfold due, not_due. induction l as [| c l IH]; simpl; [done |].
  destruct (Z.eqb_spec (time_of s c) t) as [E | E]; simpl.
  - rewrite IH. destruct (Z.eqb_spec (time_of s c) t'); [congruence | done].
  - by rewrite IH.
Qed.

(** The calls of [n] ticks from time [t] on. *)
Fixpoint calls_from (s : cstate) (k : nat) (t : Z) (n : nat) : list event :=
  match n with
  | O => []
  | S m => calls_at s k (s32 t) ++ calls_from s k (t + 1) m
  end.

Lemma calls_from_ext s s' k t u n :
  (∀ i, 0 <= i < Z.of_nat n → calls_at s' k (s32 (t + i)) = calls_at s k (s32 (u + i))) →
  calls_from s' k t n = calls_from s k u n.
Proof.
  revert t u. induction n as [| n IH]; intros t u H; simpl; [done |]. f_equal.
  - specialize (H 0). rewrite !Z.add_0_r in H. apply H. lia.
  - apply IH. intros i Hi. specialize (H (i + 1)).
    replace (t + 1 + i) with (t + (i + 1)) by lia. replace (u + 1 + i) with (u + (i + 1)) by lia.
    apply H. lia.
Qed.

Lemma run_ticks n : ∀ k s,
  inv k s Outer → soft s k = s32 (soft s k) → ticks s = s32 (soft s k + Z.of_nat n) →
  Z.of_nat n < 2 ^ 32 →
  ∃ m s', leads k m Outer s Idle s' ∧ inv k s' Idle ∧ soft s' k = ticks s ∧
    events s' = events s ++ calls_from s k (soft s k) n.
Proof.
  induction n as [| n IH]; intros k s Hi Hr Ht Hn.
  { rewrite Z.add_0_r, <- Hr in Ht. destruct (outer_end k s Hi) as (s' & L & I & V & So); [done |].
    exists 1%nat, s'. split_and!; [done.. | congruence | by rewrite app_nil_r]. }
  assert (soft s k ≠ ticks s) as Hne.
  { intros E. rewrite Ht in E. rewrite Hr in E at 1. rewrite <- (Z.add_0_r (soft s k)) in E at 1.
    apply wrap_s_distinct in E; lia. }
  destruct (outer_round k s Hi Hne) as (m & s1 & _ & L & I & V & So & Tk & Mk & Q & Tm & Cl).
  destruct (IH k s1 I) as (m' & s' & L' & I' & So' & V').
  - rewrite So. by rewrite wrap_s_wrap_s.
  - rewrite Tk, So, wrap_s_add, Ht by lia. f_equal. lia.
  - lia.
  - exists (m + m')%nat, s'. split_and!; [by eapply leads_trans | done | congruence |].
    rewrite V', V, <- app_assoc. f_equal. simpl. rewrite <- Hr. f_equal.
    apply calls_from_ext. intros i Hii. rewrite So, wrap_s_add by lia.
    assert (soft s k ≠ s32 (soft s k + 1 + i)) as Hne'.
    { intros E. rewrite Hr in E at 1. rewrite <- (Z.add_0_r (soft s k)) in E at 1.
      rewrite <- Z.add_assoc in E. apply wrap_s_distinct in E; lia. }
    set (t' := s32 (soft s k + 1 + i)) in *. unfold calls_at.
    assert (due s1 t' (queue s1 k t') = due s t' (queue s k t')) as ->.
    { transitivity (due s t' (queue s1 k t')).
      { apply List.filter_ext. intros c. by rewrite Tm. }
      rewrite Q. destruct (decide _); [by apply due_not_due | done]. }
    apply list_fmap_ext. intros j c _. apply Cl.
Qed.

(** [C6] A run of [softclock] that no other thread disturbs, with the soft clock
    [n] ticks behind ([n < 2^32], modulo the width of the counters): it
    terminates, brings the soft clock up to date, keeps the invariant of the
    wheel, and calls the handlers of exactly the callouts due at each of those
    ticks, in the order of the ticks and of each queue, with the function and
    argument they were scheduled with. *)
Theorem softclock_calls_due (k : nat) (s : cstate) (n : nat) :
  inv k s Idle → soft s k = s32 (soft s k) → ticks s = s32 (soft s k + Z.of_nat n) →
  Z.of_nat n < 2 ^ 32 →
  ∃ fuel s', (∀ more, softclock (fuel + more) k s = Ok (tt, s')) ∧ inv k s' Idle ∧
    soft s' k = ticks s ∧ events s' = events s ++ calls_from s k (soft s k) n.
Proof.
  intros Hi Hr Ht Hn. pose proof Hi as [Hw Hnw [cc [Hk [Hl Hc]]] Hq].
  set (s0 := set_loc (mk_locals 0 0 0 0 0) s).
  set (s1 := st s0 k (set_locked true cc) (callouts s)).
  assert (softclock_start k s = Ok (Outer, s1)) as E.
  { unfold softclock_start. erewrite M_bind_Ok by done. fold s0.
    rewrite (from_st _ s0 k cc Hk). by crun. }
  destruct (softclock_starts k s Hi) as (p1 & s2 & E1 & I1). rewrite E in E1. injection E1 as <- <-.
  assert (cc_cpu s1 !! k = Some (set_locked true cc)) as Hk1 by (by apply (st_lookup s0 k cc)).
  assert (soft s1 k = soft s k) as Es by (unfold soft; by rewrite Hk1, Hk).
  destruct (run_ticks n k s1 I1) as (m & s' & L & I & So & V); [by rewrite Es.. | done |].
  exists m, s'. split_and!; [| done | done |].
  - intros more. unfold softclock. erewrite M_bind_Ok by exact E. rewrite L. by destruct more.
  - rewrite V, Es. f_equal. apply calls_from_ext. intros i _. unfold calls_at, queue.
    rewrite Hk1, Hk. done.
Qed.

(** ** An example: one CPU, eight queues, three callouts, two of them scheduled *)

Definition ex_cc (locked : bool) (wheel : list (list nat)) : callout_cpu :=
  mk_cc locked true wheel [] None None 0 0 0.

Definition ex_state : cstate :=
  mk_cstate 2 1000000 7 [ex_cc false [[]; [11%nat; 12%nat]; []; []; []; []; []; []]]
    {[ 11%nat := mk_callout 1 100 (Some 7%nat) None 0x16 0;
       12%nat := mk_callout 9 200 (Some 8%nat) (Some 5%nat) 0x06 0;
       13%nat := callout_init true ]}
    (mk_locals 0 0 0 0 0) (0, 0, 0, 0) [].

Lemma ex_lookup c x : callouts ex_state !! c = Some x →
  (c = 11%nat ∧ x = mk_callout 1 100 (Some 7%nat) None 0x16 0) ∨
  (c = 12%nat ∧ x = mk_callout 9 200 (Some 8%nat) (Some 5%nat) 0x06 0) ∨
  (c = 13%nat ∧ x = callout_init true).
Proof.
  simpl. intros H. repeat (apply lookup_insert_Some in H as [[<- <-] | [_ H]]; [tauto |]).
  apply lookup_singleton_Some in H as [<- <-]. tauto.
Qed.

Lemma ex_wheel : wheel_inv ex_state.
Proof.
  split.
  - by exists 3.
  - intros [| k] cc Hk; by simplify_eq/=.
  - intros [| k] cc b l Hk Hb; simplify_eq/=. repeat (destruct b as [| b]; simplify_eq/=;
      try by apply (bool_decide_eq_true_1 _)).
  - intros [| k] cc b l c Hk Hb Hc; simplify_eq/=.
    destruct b as [| [| b]]; simplify_eq/=.
    + set_solver.
    + apply elem_of_cons in Hc as [-> | Hc]; [| apply list_elem_of_singleton in Hc as ->];
        (eexists; split_and!; reflexivity).
    + repeat (destruct b as [| b]; simplify_eq/=; try by apply not_elem_of_nil in Hc).
  - intros c x Hx Hp. apply ex_lookup in Hx as [[-> ->] | [[-> ->] | [-> ->]]]; [| | done];
      (do 2 eexists; split_and!; [reflexivity | reflexivity | set_solver]).
  - intros c x Hx. apply ex_lookup in Hx as [[-> ->] | [[-> ->] | [-> ->]]];
      (split_and!; [simpl; lia | | done]); done || (intros _; by split).
Qed.

Lemma ex_inv : inv 0 ex_state Idle.
Proof.
  split.
  - apply ex_wheel.
  - intros [| j] cc Hj; by simplify_eq/=.
  - eexists. split; [reflexivity | done].
  - unfold no_broadcast. simpl. set_solver.
Qed.

(** Two ticks behind: callout 11 is due at tick 1, callout 12 (same queue) at 9. *)
Lemma softclock_calls_due_witness :
  calls_from ex_state 0 0 2 = [Called 11 (Some 7%nat) 100 1] ∧
  ∃ fuel s', (∀ more, softclock (fuel + more) 0 ex_state = Ok (tt, s')) ∧
    events s' = events ex_state ++ calls_from ex_state 0 (soft ex_state 0) 2.
Proof.
  split; [reflexivity |].
  destruct (softclock_calls_due 0 ex_state 2 ex_inv eq_refl eq_refl eq_refl)
    as (fuel & s' & E & _ & _ & V).
  exists fuel, s'. exact (conj E V).
Defined.

(** A thread makes callout 5 and resets it to CPU 1: the first critical section finds it
    on CPU 0 and moves it, [softclock] starts, and the second one queues it. *)
Definition ex_moved : result (reset_out * cstate) :=
  reset_once 5 3 (Some 9%nat) 300 1 0
    (set_callouts {[ 5%nat := callout_init true ]} (boot 1 3 [] 0 INT_MAX)).
Definition ex_started : result (phase * cstate) :=
  ex_moved ≫= fun '(_, s) => softclock_start 1 s ≫= fun '(p, s) => softclock_step 1 p s.
Definition ex_queued : result (reset_out * cstate) :=
  ex_started ≫= fun '(_, s) => reset_once 5 3 (Some 9%nat) 300 1 0 s.
Definition after {A} (x : result (A * cstate)) : cstate :=
  match x with Ok (_, s) => s | Fault _ => ex_state end.

Lemma ex_moved_run : rtc (cstep 1) (mk_world (boot 1 3 [] 0 INT_MAX) Idle []) (mk_world (after ex_queued) Idle []).
Proof.
  eapply rtc_l; [apply (st_init 1 _ Idle [] 5 (callout_init true)); [done | left; by exists true] |].
  eapply rtc_l; [apply (st_reset 1 _ Idle [] 5 (callout_init true) 3 9 300 1); [done | done | vm_compute; lia] |].
  eapply rtc_l; [apply (st_reset_again 1 _ Idle [] [] (mk_reset 5 3 9 300 1 0) 0 (after ex_moved)); vm_compute; reflexivity |].
  eapply rtc_l; [eapply (st_start 1 (after ex_moved)); vm_compute; reflexivity |].
  eapply rtc_l; [apply (st_softclock 1 _ _ _ (after ex_started) Idle); vm_compute; reflexivity |].
  apply rtc_once. apply (st_reset_done 1 (after ex_started) Idle [] [] (mk_reset 5 3 9 300 1 0) 0). vm_compute. reflexivity.
Qed.

Lemma callout_wheel_safe_witness :
  rtc (cstep 1) (mk_world (boot 1 3 [] 0 INT_MAX) Idle []) (mk_world (after ex_queued) Idle []) ∧
  wheel_inv (after ex_queued) ∧ ∃ p' s', softclock_step 1 Idle (after ex_queued) = Ok (p', s').
Proof.
  split; [exact ex_moved_run |].
  exact (callout_wheel_safe 1 1 3 [] 0 INT_MAX (mk_world (after ex_queued) Idle []) (le_n 1) ex_moved_run).
Defined.

Lemma callout_stop_spec_witness :
  ∃ r s', callout_stop 12 ex_state = Ok (Some r, s') ∧ r = 1.
Proof.
  destruct (callout_stop_spec 0 ex_state Idle 12
    (mk_callout 9 200 (Some 8%nat) (Some 5%nat) 0x06 0) _ ex_inv eq_refl eq_refl eq_refl)
    as (r & s' & E & _ & H & _).
  exists r, s'. exact (conj E (proj1 (H eq_refl))).
Defined.

(** [softclock] runs until callout 11 is current; another thread drains it. *)
Definition sc_next (x : result (phase * cstate)) : result (phase * cstate) :=
  x ≫= fun '(p, s) => softclock_step 0 p s.

Definition ex_picked : result (phase * cstate) :=
  sc_next (sc_next (sc_next (sc_next (softclock_start 0 ex_state)))).

Lemma sc_next_reach x p s :
  (∀ p1 s1, x = Ok (p1, s1) → rtc (cstep 0) (mk_world ex_state Idle []) (mk_world s1 p1 [])) →
  sc_next x = Ok (p, s) → rtc (cstep 0) (mk_world ex_state Idle []) (mk_world s p []).
Proof.
  intros Hx E. destruct x as [[p1 s1] |]; [| done]. simpl in E.
  eapply rtc_r; [by apply Hx | by apply st_softclock].
Qed.

Lemma ex_picked_reach p s : ex_picked = Ok (p, s) → rtc (cstep 0) (mk_world ex_state Idle []) (mk_world s p []).
Proof.
  revert p s. unfold ex_picked. do 4 (intros p s; apply sc_next_reach; clear p s).
  intros p s E. apply rtc_once. by apply st_start.
Qed.

Definition ex_picked_state : cstate :=
  match ex_picked with Ok (_, s) => s | Fault _ => ex_state end.
Definition ex_picked_phase : phase :=
  match ex_picked with Ok (p, _) => p | Fault _ => Idle end.

Lemma callout_drain_never_woken_witness :
  ∃ s1, callout_drain 11 ex_picked_state = Ok (None, s1) ∧
    ∀ w2, rtc (cstep 0) (mk_world s1 ex_picked_phase []) w2 → Broadcast ∉ events (w_state w2).
Proof.
  refine (callout_drain_never_woken 0 (mk_world ex_state Idle []) (mk_world ex_picked_state ex_picked_phase []) 11
    (mk_callout 1 100 (Some 7%nat) None 0x12 0)
    (mk_cc false true [[]; [12%nat]; []; []; []; []; []; []] [] (Some 12%nat) (Some 11%nat) 2 0 0)
    (conj ex_inv _) _ _ _ _ _ _); [intros r Hr; set_solver |..];
    [apply ex_picked_reach; vm_compute; reflexivity | vm_compute; reflexivity..].
Defined.

(** ** Deadlock of [timeout] *)

(** [timeout] takes [cc_lock], which [callout_cpu_init] made a mutex that is
    not recursive, and then calls [callout_reset], which locks it again through
    [callout_lock]: on a table with a free callout (which lives on CPU 0) the call
    never returns, and on an empty one it panics, so no timeout is ever set. *)
Theorem timeout_self_deadlock (ftn : option nat) (arg to_ticks : Z) (s : cstate)
    (cc : callout_cpu) :
  cc_cpu s !! 0%nat = Some cc → cc_locked cc = false →
  (∀ c, c ∈ cc_callfree cc → ∃ x, callouts s !! c = Some x ∧ c_cpu x = 0%nat) →
  timeout ftn arg to_ticks s =
    Fault (match cc_callfree cc with [] => Panic | _ => Blocked end).
Proof.
  intros Hk Hl Hfree. rewrite (from_st _ s 0 cc Hk). unfold timeout. crun. crun.
  change (cc_callfree (set_locked true cc)) with (cc_callfree cc).
  destruct (cc_callfree cc) as [| new t] eqn:Ef; [done |].
  destruct (Hfree new) as (x & Hx & Hc); [set_solver |]. crun. crun.
  set (cc1 := set_callfree t (set_locked true cc)). set (s1 := st s 0 cc1 (callouts s)).
  assert (cc_cpu s1 !! 0%nat = Some cc1) as Hk1 by (by eapply st_lookup).
  unfold mbind, M_bind, callout_reset_on. unfold mbind, M_bind.
  rewrite (get_c_ok s1 new x) by done.
  assert (∀ cpu, reset_loop 1 new to_ticks ftn arg cpu 0 s1 = Fault Blocked) as E.
  { intros cpu. cbn [reset_loop]. unfold mbind, M_bind. by rewrite (reset_busy s1 new x cc1) by (done || by rewrite Hc). }
  by rewrite E.
Qed.

Definition ex_table : cstate :=
  set_cpus [set_callfree [21%nat] (ex_cc false (replicate 8 []))]
    (set_callouts {[ 21%nat := set_cflags CALLOUT_LOCAL_ALLOC (callout_init false) ]} ex_state).

Lemma timeout_self_deadlock_witness : timeout (Some 1%nat) 5 10 ex_table = Fault Blocked.
Proof.
  refine (timeout_self_deadlock (Some 1%nat) 5 10 ex_table _ eq_refl eq_refl _).
  intros c Hc. apply list_elem_of_singleton in Hc as ->. eexists. split; reflexivity.
Defined.

(** ** The size of the wheel *)

Lemma wheel_size_loop_spec fuel : ∀ ncallout b,
  0 <= b <= 30 → (30 - b < Z.of_nat fuel) → ncallout <= 2 ^ 30 → (b = 0 ∨ 2 ^ (b - 1) < ncallout) →
  ∃ m, b <= m <= 30 ∧ wheel_size_loop fuel ncallout (2 ^ b) b = Ok (2 ^ m, m) ∧
       ncallout <= 2 ^ m ∧ (m = 0 ∨ 2 ^ (m - 1) < ncallout).
Proof.
  induction fuel as [| fuel IH]; intros n b Hb Hf Hn Hlow; [lia |].
  cbn [wheel_size_loop]. destruct (Z.ltb_spec (2 ^ b) n) as [Hlt | Hge].
  - assert (b < 30) as Hb30.
    { destruct (Z.le_gt_cases 30 b); [| lia]. assert (b = 30) as -> by lia. lia. }
    assert (2 ^ (b + 1) = 2 * 2 ^ b) as E by (rewrite Z.pow_add_r by lia; lia).
    assert (2 ^ (b + 1) <= 2 ^ 30) by (apply Z.pow_le_mono_r; lia).
    assert (0 < 2 ^ b) by (apply Z.pow_pos_nonneg; lia).
    rewrite Z.shiftl_mul_pow2 by lia. rewrite wrap_s_id by lia.
    replace (2 ^ b * 2 ^ 1) with (2 ^ (b + 1)) by lia.
    destruct (IH n (b + 1)) as (m & Hm & Em & Hm1 & Hm2); [lia | lia | done | right; by replace (b + 1 - 1) with b by lia |].
    exists m. split; [lia | done].
  - exists b. split; [lia | done].
Qed.

(** [kern_timeout_callwheel_alloc] for up to 2^30 callouts: its loop ends,
    the wheel has the least power of two of buckets that is at least [ncallout],
    and the mask selects the low bits, so every time has a bucket in range. *)
Theorem kern_timeout_callwheel_alloc_spec (ncallout : Z) :
  ncallout <= 2 ^ 30 →
  ∃ bits, 0 <= bits <= 30 ∧
    kern_timeout_callwheel_alloc ncallout = Ok (2 ^ bits, bits, Z.ones bits) ∧
    ncallout <= 2 ^ bits ∧ (∀ b, 0 <= b → ncallout <= 2 ^ b → bits <= b) ∧
    ∀ t, 0 <= Z.land t (Z.ones bits) < 2 ^ bits.
Proof.
  intros Hn. destruct (wheel_size_loop_spec 31 ncallout 0) as (m & Hm & E & H1 & H2); [lia.. | by left |].
  exists m. unfold kern_timeout_callwheel_alloc. change (2 ^ 0) with 1 in E. rewrite E. simpl.
  split_and!; [lia.. | | done | |].
  - by rewrite Z.ones_equiv, <- Z.sub_1_r.
  - intros b Hb Hnb. destruct H2 as [-> | H2]; [lia |].
    destruct (Z.le_gt_cases m b); [done |].
    assert (2 ^ b <= 2 ^ (m - 1)) by (apply Z.pow_le_mono_r; lia). lia.
  - intros t. rewrite Z.land_ones by lia. apply Z.mod_pos_bound, Z.pow_pos_nonneg; lia.
Qed.

Lemma kern_timeout_callwheel_alloc_spec_witness :
  kern_timeout_callwheel_alloc 100 = Ok (128, 7, Z.ones 7) ∧ ∃ bits, 100 <= 2 ^ bits.
Proof.
  split; [reflexivity |].
  destruct (kern_timeout_callwheel_alloc_spec 100) as (bits & _ & _ & H & _); [lia |].
  exists bits. exact H.
Defined.

(** ** Ticks *)

Lemma div_up_bound a b : 0 < b → a <= (a + (b - 1)) / b * b < a + b.
Proof.
  intros Hb. pose proof (Z.div_mod (a + (b - 1)) b) as D.
  pose proof (Z.mod_pos_bound (a + (b - 1)) b Hb). nia.
Qed.

Lemma div_le_self a b : 0 <= a → 0 < b → a / b <= a.
Proof. intros Ha Hb. apply Z.div_le_upper_bound; nia. Qed.

Lemma saturate v : 0 <= v → (if INT_MAX <? v then INT_MAX else s32 v) = Z.min INT_MAX v.
Proof.
  intros Hv. unfold INT_MAX. destruct (Z.ltb_spec 2147483647 v); [lia |].
  rewrite wrap_s_id by lia. lia.
Qed.

(** [tvtohz] without the wrap-around, which does not happen. *)
Lemma tvtohz_eq hz tick sec usec :
  0 < hz <= 1000000 → 0 < tick <= 1000000 → 0 <= sec < 2 ^ 63 → 0 <= usec < 1000000 →
  tvtohz hz tick sec usec = Z.min INT_MAX
    (if sec <=? LONG_MAX / 1000000 then (sec * 1000000 + usec + (tick - 1)) / tick + 1
     else if sec <=? LONG_MAX / hz then sec * hz + (usec + (tick - 1)) / tick + 1
     else LONG_MAX).
Proof.
  intros Hhz Htick Hsec Husec. unfold tvtohz.
  destruct (Z.ltb_spec usec 0); [lia |]. destruct (Z.ltb_spec sec 0); [lia |].
  pose proof (div_le_self (usec + (tick - 1)) tick ltac:(lia) ltac:(lia)) as D1.
  assert (0 <= (usec + (tick - 1)) / tick) as P1 by (apply Z.div_pos; lia).
  destruct (Z.leb_spec sec (LONG_MAX / 1000000)) as [Hs | Hs].
  - assert (sec * 1000000 <= LONG_MAX) as Hm.
    { pose proof (Z.mul_div_le LONG_MAX 1000000 ltac:(lia)). lia. }
    unfold LONG_MAX in *. set (a := sec * 1000000 + usec + (tick - 1)).
    pose proof (div_le_self a tick ltac:(lia) ltac:(lia)) as D.
    assert (0 <= a / tick) by (apply Z.div_pos; lia).
    rewrite (wrap_u_id 64 a) by lia. rewrite wrap_u_id by lia. apply saturate. lia.
  - destruct (Z.leb_spec sec (LONG_MAX / hz)) as [Hs' | Hs'].
    + assert (sec * hz <= LONG_MAX) as Hm.
      { pose proof (Z.mul_div_le LONG_MAX hz ltac:(lia)). nia. }
      unfold LONG_MAX in *. rewrite (wrap_u_id 64 (usec + (tick - 1))) by lia.
      assert (0 <= sec * hz) by nia. rewrite wrap_u_id by lia. apply saturate. lia.
    + by apply saturate.
Qed.

(** [tvtohz] of a non-negative time below the range where it must saturate:
    the number of ticks is the time rounded up to whole ticks plus one for the
    tick in progress, so that many ticks last longer than the time asked for, by
    at most two ticks; in every case the result is between 1 and INT_MAX. *)
Theorem tvtohz_spec (hz tick sec usec : Z) :
  0 < hz <= 1000000 → 0 < tick <= 1000000 → 0 <= sec < 2 ^ 63 → 0 <= usec < 1000000 →
  1 <= tvtohz hz tick sec usec <= INT_MAX ∧
  (sec <= LONG_MAX / 1000000 →
     tvtohz hz tick sec usec = Z.min INT_MAX ((sec * 1000000 + usec + (tick - 1)) / tick + 1) ∧
     (tvtohz hz tick sec usec < INT_MAX →
        sec * 1000000 + usec + tick <= tvtohz hz tick sec usec * tick
          < sec * 1000000 + usec + 2 * tick)).
Proof.
  intros Hhz Htick Hsec Husec. rewrite (tvtohz_eq hz tick sec usec) by done.
  unfold LONG_MAX in *. destruct (Z.leb_spec sec (9223372036854775807 / 1000000)) as [Hs | Hs].
  - set (a := sec * 1000000 + usec).
    pose proof (div_up_bound a tick ltac:(lia)) as Hd.
    assert (0 <= (a + (tick - 1)) / tick) by (apply Z.div_pos; lia).
    split; [unfold INT_MAX; lia |]. intros _. split; [done |]. unfold INT_MAX. intros Hlt.
    rewrite Z.min_r in * by lia. nia.
  - split; [| intros; lia]. destruct (sec <=? _); unfold INT_MAX; [| lia].
    assert (0 <= (usec + (tick - 1)) / tick) by (apply Z.div_pos; lia). nia.
Qed.

Lemma tvtohz_spec_witness :
  tvtohz 100 10000 3 5000 = 302 ∧ 1 <= tvtohz 100 10000 3 5000 <= INT_MAX.
Proof.
  split; [reflexivity |]. refine (proj1 (tvtohz_spec 100 10000 3 5000 _ _ _ _)); lia.
Defined.

End CalloutRun.
