(* ===== verification/TimerIntr.v ===== *)
(** The timer thread (timer_intr of src/src/lib/libuinet/uinet_kern_timeout.c and
    the timespec macros of src/src/sys/sys/time.h): it sleeps one tick at a time,
    and after every [calibration_period] ticks compares with the clock, issues the
    ticks it missed and corrects the length of its sleep. *)
From S2P Require Import Prelude.

Module TimerIntr.

(** Seconds are not cut to the 64 bits of [time_t]: clock readings are far from its limits. *)
Record timespec : Type := mk_ts { tv_sec : Z; tv_nsec : Z }.

Definition calibration_period : Z := 5.
Definition NSEC : Z := 1000000000.

Definition timespecadd (v u : timespec) : timespec :=
  let sec := tv_sec v + tv_sec u in
  let nsec := tv_nsec v + tv_nsec u in
  if NSEC <=? nsec then mk_ts (sec + 1) (nsec - NSEC) else mk_ts sec nsec.

Definition timespecsub (v u : timespec) : timespec :=
  let sec := tv_sec v - tv_sec u in
  let nsec := tv_nsec v - tv_nsec u in
  if nsec <? 0 then mk_ts (sec - 1) (nsec + NSEC) else mk_ts sec nsec.

(** [timespeccmp(t, u, >=)]. *)
Definition timespec_ge (t u : timespec) : bool :=
  if tv_sec t =? tv_sec u then tv_nsec u <=? tv_nsec t else tv_sec u <=? tv_sec t.

(** [UHI_TS_TO_NSEC]. *)
Definition ts_ns (t : timespec) : Z := tv_sec t * NSEC + tv_nsec t.

(** The variables of the thread that live from one calibration to the next, the
    number of calls of [uinet_hardclock] and the lengths of its sleeps. *)
Record timer : Type := mk_timer {
  start : timespec; delta : timespec; tick_period : timespec;
  hardclocks_issued : Z; sleeps : list Z
}.

Definition base_tick_period (hz : Z) : timespec := mk_ts 0 (NSEC / hz).

(** The sum of [calibration_period] tick periods. *)
Definition target_period (hz : Z) : timespec :=
  Nat.iter (Z.to_nat calibration_period)
    (fun t => timespecadd t (base_tick_period hz)) (mk_ts 0 0).

(** Before the loop; [t0] is the clock. *)
Definition timer_start (hz : Z) (t0 : timespec) : timer :=
  mk_timer t0 (mk_ts 0 0) (base_tick_period hz) 0 [].

(** The loop that issues the missed ticks. *)
Fixpoint catch_up (fuel : nat) (base d : timespec) (n : Z) : result (timespec * Z) :=
  if timespec_ge d base then
    match fuel with
    | O => Fault Blocked
    | S f => catch_up f base (timespecsub d base) (n + 1)
    end
  else Ok (d, n).

(** [correction.tv_nsec /= calibration_period * 2]. *)
Definition correction (d : timespec) : timespec :=
  mk_ts (tv_sec d) (Z.quot (tv_nsec d) (calibration_period * 2)).

(** One round of the outer loop up to and including a calibration:
    [calibration_period] sleeps and ticks, then the clock reads [now]. *)
Definition timer_round (hz : Z) (now : timespec) (t : timer) : result timer :=
  let base := base_tick_period hz in
  let target := target_period hz in
  let ticked := hardclocks_issued t + calibration_period in
  let slept := sleeps t ++ replicate (Z.to_nat calibration_period) (ts_ns (tick_period t)) in
  let elapsed := timespecadd (timespecsub now (start t)) (delta t) in
  if timespec_ge elapsed target then
    let d := timespecsub elapsed target in
    let c := correction d in
    let period := if timespec_ge (tick_period t) c then timespecsub (tick_period t) c
                  else tick_period t in
    '(d', n) ← catch_up (Z.to_nat (ts_ns d / ts_ns base) + 1) base d 0;
    Ok (mk_timer now d' period (ticked + n) slept)
  else
    let d := timespecsub target elapsed in
    Ok (mk_timer (timespecadd now d) (mk_ts 0 0) (timespecadd (tick_period t) (correction d))
          ticked (slept ++ [ts_ns d])).

(** The thread over a sequence of clock readings. *)
Fixpoint timer_intr (hz : Z) (nows : list timespec) (t : timer) : result timer :=
  match nows with
  | [] => Ok t
  | now :: rest => t' ← timer_round hz now t; timer_intr hz rest t'
  end.

(** ** Arithmetic of timespecs *)

Definition ts_ok (t : timespec) : Prop := 0 <= tv_nsec t < NSEC.

Lemma ts_add_ns a b : ts_ns (timespecadd a b) = ts_ns a + ts_ns b.
Proof. unfold timespecadd, ts_ns. destruct (NSEC <=? _); simpl; lia. Qed.

Lemma ts_sub_ns a b : ts_ns (timespecsub a b) = ts_ns a - ts_ns b.
Proof. unfold timespecsub, ts_ns. destruct (_ <? 0); simpl; lia. Qed.

Lemma ts_add_ok a b : ts_ok a → ts_ok b → ts_ok (timespecadd a b).
Proof.
  unfold ts_ok, timespecadd, NSEC. intros.
  destruct (Z.leb_spec 1000000000 (tv_nsec a + tv_nsec b)); simpl; lia.
Qed.

Lemma ts_sub_ok a b : ts_ok a → ts_ok b → ts_ok (timespecsub a b).
Proof.
  unfold ts_ok, timespecsub, NSEC. intros.
  destruct (Z.ltb_spec (tv_nsec a - tv_nsec b) 0); simpl; lia.
Qed.

(** On normalised times the comparison is that of the values. *)
Lemma timespec_ge_ns a b : ts_ok a → ts_ok b → timespec_ge a b = (ts_ns b <=? ts_ns a).
Proof.
  unfold ts_ok, timespec_ge, ts_ns, NSEC. intros Ha Hb.
  destruct (Z.eqb_spec (tv_sec a) (tv_sec b)) as [E | E].
  - rewrite E. destruct (Z.leb_spec (tv_nsec b) (tv_nsec a)); symmetry;
      [apply Z.leb_le | apply Z.leb_gt]; lia.
  - destruct (Z.leb_spec (tv_sec b) (tv_sec a)); symmetry; [apply Z.leb_le | apply Z.leb_gt]; lia.
Qed.

Section Timer.
Context (hz : Z).
Hypothesis Hhz : 2 <= hz <= NSEC.

Let base := base_tick_period hz.

Lemma base_ns : 0 < ts_ns base ∧ ts_ok base.
Proof.
  unfold base, base_tick_period, ts_ns, ts_ok. simpl.
  assert (0 < NSEC / hz) by (apply Z.div_str_pos; unfold NSEC in *; lia).
  assert (NSEC / hz < NSEC) by (apply Z.div_lt; unfold NSEC in *; lia). lia.
Qed.

Lemma target_ns : ts_ns (target_period hz) = 5 * ts_ns base ∧ ts_ok (target_period hz).
Proof.
  pose proof base_ns as [_ Hb]. unfold target_period. fold base. simpl Nat.iter. split.
  - rewrite !ts_add_ns. change (ts_ns (mk_ts 0 0)) with 0. lia.
  - repeat apply ts_add_ok; done.
Qed.

Lemma catch_up_spec fuel : ∀ d n,
  ts_ok d → 0 <= ts_ns d → ts_ns d / ts_ns base < Z.of_nat fuel →
  ∃ d' m, catch_up fuel base d n = Ok (d', m) ∧ ts_ok d' ∧ 0 <= ts_ns d' < ts_ns base ∧
          (m - n) * ts_ns base + ts_ns d' = ts_ns d.
Proof.
  pose proof base_ns as [Hb0 Hb]. induction fuel as [| fuel IH]; intros d n Hd H0 Hf.
  - pose proof (Z.div_pos (ts_ns d) (ts_ns base) H0 Hb0). lia.
  - cbn [catch_up]. rewrite timespec_ge_ns by done.
    destruct (Z.leb_spec (ts_ns base) (ts_ns d)) as [Hge | Hlt].
    + assert (ts_ns d / ts_ns base = ts_ns (timespecsub d base) / ts_ns base + 1) as E.
      { rewrite ts_sub_ns, <- Z.div_add by lia. f_equal. lia. }
      destruct (IH (timespecsub d base) (n + 1)) as (d' & m & Em & Hok & Hr & Hs);
        [by apply ts_sub_ok | rewrite ts_sub_ns; lia | lia |].
      exists d', m. split_and!; try done; try lia. rewrite ts_sub_ns in Hs. nia.
    + exists d, n. split_and!; try done. lia.
Qed.

(** The bookkeeping invariant: the ticks issued and the residual [delta] add up
    to the time from the beginning to [start]. *)
Definition timer_inv (t0 : timespec) (t : timer) : Prop :=
  ts_ok (start t) ∧ ts_ok (delta t) ∧ 0 <= ts_ns (delta t) < ts_ns base ∧
  hardclocks_issued t * ts_ns base + ts_ns (delta t) = ts_ns (start t) - ts_ns t0.

Lemma timer_round_inv t0 now t :
  ts_ok now → timer_inv t0 t → ∃ t', timer_round hz now t = Ok t' ∧ timer_inv t0 t'.
Proof.
  intros Hnow (H1 & H2 & H3 & H4). pose proof base_ns as [Hb0 Hb]. pose proof target_ns as [Ht Htok].
  unfold timer_round. fold base. cbn zeta.
  set (elapsed := timespecadd (timespecsub now (start t)) (delta t)).
  assert (ts_ok elapsed) as Hel by (apply ts_add_ok; [by apply ts_sub_ok | done]).
  assert (ts_ns elapsed = ts_ns now - ts_ns (start t) + ts_ns (delta t)) as Een
    by (unfold elapsed; by rewrite ts_add_ns, ts_sub_ns).
  rewrite timespec_ge_ns by done.
  destruct (Z.leb_spec (ts_ns (target_period hz)) (ts_ns elapsed)) as [Hge | Hlt].
  - set (d := timespecsub elapsed (target_period hz)).
    assert (ts_ns d = ts_ns elapsed - ts_ns (target_period hz)) as Ed by apply ts_sub_ns.
    destruct (catch_up_spec (Z.to_nat (ts_ns d / ts_ns base) + 1) d 0)
      as (d' & m & E & Hok & Hr & Hs); [by apply ts_sub_ok | lia | |].
    { pose proof (Z.div_pos (ts_ns d) (ts_ns base)). lia. }
    rewrite E. eexists. split; [reflexivity |]. split_and!; try done; try apply Hr.
    simpl. unfold calibration_period. nia.
  - eexists. split; [reflexivity |].
    set (d := timespecsub (target_period hz) elapsed).
    assert (ts_ns d = ts_ns (target_period hz) - ts_ns elapsed) as Ed by apply ts_sub_ns.
    split_and!; simpl.
    + by apply ts_add_ok; [| apply ts_sub_ok].
    + done.
    + done.
    + done.
    + rewrite ts_add_ns. change (ts_ns (mk_ts 0 0)) with 0. unfold calibration_period. lia.
Qed.
End Timer.

(** [C33] The timer thread does not drift: for any sequence of clock readings at
    its calibrations, from the start at [t0], it never hangs in the loop that
    issues missed ticks, and after the last calibration the number of ticks
    issued is exactly the number of whole tick periods from [t0] to the time
    [start] it has accounted for. *)
Theorem timer_intr_no_drift (hz : Z) (t0 : timespec) (nows : list timespec) :
  2 <= hz <= NSEC → ts_ok t0 → Forall ts_ok nows →
  ∃ t, timer_intr hz nows (timer_start hz t0) = Ok t ∧
    hardclocks_issued t = (ts_ns (start t) - ts_ns t0) / ts_ns (base_tick_period hz) ∧
    ts_ns (delta t) = (ts_ns (start t) - ts_ns t0) mod ts_ns (base_tick_period hz).
Proof.
  intros Hhz H0 Hall. pose proof (base_ns hz Hhz) as [Hb _].
  assert (∀ t, timer_inv hz t0 t → ∃ t', timer_intr hz nows t = Ok t' ∧ timer_inv hz t0 t')
    as Hrun.
  { induction Hall as [| now nows Hnow Hall IH]; intros t Ht; [by exists t |].
    destruct (timer_round_inv hz Hhz t0 now t Hnow Ht) as (t1 & E & Ht1). simpl. rewrite E. simpl.
    by apply IH. }
  destruct (Hrun (timer_start hz t0)) as (t & E & _ & _ & Hd & Hs).
  { split_and!; try done; simpl; change (ts_ns (mk_ts 0 0)) with 0; lia. }
  exists t. split; [done |]. rewrite <- Hs. 
  rewrite Z.div_add_l, Z.div_small, Z.add_0_r by lia. split; [done |].
  rewrite Z.add_comm, Z.mod_add by lia. by rewrite Z.mod_small.
Qed.

Lemma timer_intr_no_drift_witness :
  ∃ t, timer_intr 1000 [mk_ts 5 7000000; mk_ts 5 9000000] (timer_start 1000 (mk_ts 5 0)) = Ok t ∧
       hardclocks_issued t = (ts_ns (start t) - ts_ns (mk_ts 5 0)) / ts_ns (base_tick_period 1000).
Proof.
  destruct (timer_intr_no_drift 1000 (mk_ts 5 0) [mk_ts 5 7000000; mk_ts 5 9000000])
    as (t & E & H & _).
  - unfold NSEC. lia.
  - unfold ts_ok, NSEC. simpl. lia.
  - repeat constructor; unfold ts_ok, NSEC; simpl; lia.
  - exists t. exact (conj E H).
Defined.

End TimerIntr.
