(* ===== verification/Dpdk.v ===== *)
(** The DPDK interface driver (src/src/lib/libuinet/uinet_if_dpdk.c, its host side
    uinet_if_dpdk_host.c and src/src/lib/libdpdk_helper/dpdk_helper.c): parsing of
    the configuration string, the transmit injection ring, transmission of the
    stack's packets, and reception.  The poll-mode driver below
    ([rte_eth_tx_burst], [rte_eth_rx_burst], the mbuf pool) is a parameter. *)
From S2P Require Import Prelude Errno PktDesc.
Import PktDesc.

Module Dpdk.

Definition MAX_BURST_SIZE : Z := 512.
Definition IF_NAMESIZE : Z := 16.
Definition ENXIO : Z := 6.
Definition EINVAL : Z := 22.
Definition ENETUNREACH : Z := 51.
Definition ENOBUFS : Z := 55.

(** ** The configuration string *)

(** C strings as lists of characters without the terminating NUL. *)
Abbreviation cstr := (list Ascii.ascii).

Definition comma : Ascii.ascii := Ascii.Ascii false false true true false true false false.
Definition file_prefix : cstr := String.list_ascii_of_string "file://".

(** What [if_dpdk_process_configstr] leaves in the softc.  A name is NULL
    ([None]) or allocated. *)
Record config : Type := mk_config {
  rx_isfile : bool; tx_isfile : bool; rx_disabled : bool; tx_disabled : bool; txisrx : bool;
  rx_ifname : option cstr; tx_ifname : option cstr; host_ifname : cstr
}.

Definition zero_config : config :=
  mk_config false false false false false None None [].

(** The part of [s] before the first comma, and the part after it if any
    ([strchr]). *)
Fixpoint split_comma (s : cstr) : cstr * option cstr :=
  match s with
  | [] => ([], None)
  | c :: t => if decide (c = comma) then ([], Some t)
              else let '(a, r) := split_comma t in (c :: a, r)
  end.

(** [if_dpdk_extract_ifname(start, end, &isfile, &name)] on the string [name]
    from [start] to [end]; [rest] is what follows [start] up to the NUL, which
    [strncmp] sees.  The result is whether the name is empty, whether the file
    flag is set, and the copy. *)
Definition if_dpdk_extract_ifname (rest name : cstr) : bool * bool * option cstr :=
  let isfile := bool_decide (take 7 rest = file_prefix) in
  match name with
  | [] => (true, isfile, None)
  | _ => (false, isfile, Some (if isfile then drop 7 name else name))
  end.

(** [strlcpy] and [snprintf] into [host_ifname], an array of [IF_NAMESIZE]. *)
Definition copy_name (s : cstr) : cstr := take (Z.to_nat (IF_NAMESIZE - 1)) s.

(** ["%s"] of the kernel's [snprintf] (uinet_subr_prf.c). *)
Definition print_s (s : option cstr) : cstr := default (String.list_ascii_of_string "(null)") s.

(** The result is the error and the configuration; reading a name after it was
    freed is a fault. *)
Definition if_dpdk_process_configstr (configstr : cstr) : result (Z * config) :=
  let '(first, second) := split_comma configstr in
  let '(empty, rxf, rxn) := if_dpdk_extract_ifname configstr first in
  let has_comma := bool_decide (is_Some second) in
  if (empty : bool) && negb has_comma then
    Ok (EINVAL, mk_config rxf false false false false rxn None [])
  else
    let rxd := empty in
    '(txd, txf, txn) ← match second with
      | Some r => let '(e, f, n) := if_dpdk_extract_ifname r r in Ok (e, f, n)
      | None => name ← deref rxn; Ok (false, rxf, Some name)
      end;
    if negb rxd && negb txd then
      rn ← deref rxn; tn ← deref txn;
      if decide (rn = tn) then
        if (rxf : bool) && (txf : bool) then
          (* both names are freed, then [rx_ifname] is copied *)
          Fault BadPointer
        else Ok (0, mk_config rxf txf rxd txd true rxn txn (copy_name rn))
      else Ok (0, mk_config rxf txf rxd txd false rxn txn (copy_name (rn ++ comma :: tn)))
    else if negb rxd then
      rn ← deref rxn; Ok (0, mk_config rxf txf rxd txd false rxn txn (copy_name rn))
    else
      Ok (0, mk_config rxf txf rxd txd false rxn txn (copy_name (print_s txn))).

(** ** The device *)

(** [struct rte_mbuf]: the buffer has [buf_len] bytes and the data begins at
    [data_off]. *)
Record rte_mbuf : Type := mk_rte {
  buf_len : Z; data_off : Z; data_len : Z; pkt_len : Z; contents : option nat
}.

(** The counters of [struct ifnet] the driver updates. *)
Record ifstats : Type := mk_ifstats {
  if_ipackets : Z; if_opackets : Z; if_oerrors : Z; if_ozcopies : Z; if_ocopies : Z;
  if_obytes : Z
}.

(** The softc, the interface's counters, the packet descriptors, the mbufs of the
    DPDK pool and which of them are free, the bursts given to the NIC, and the
    mbufs of the stack freed by [m_freem]. *)
Record dpdk : Type := mk_dpdk {
  d_tx_disabled : bool;
  tx_use_thread : bool;
  tx_pkts_to_send : Z;
  tx_inject_ring : uinet_pd_ring;
  ifs : ifstats;
  pds : store;
  rtes : gmap nat rte_mbuf;
  rte_pool : list nat;
  bursts : list (list Z);
  m_freed : list nat
}.

Abbreviation D := (M dpdk).

Definition set_ring (v : uinet_pd_ring) (d : dpdk) : dpdk :=
  mk_dpdk (d_tx_disabled d) (tx_use_thread d) (tx_pkts_to_send d) v (ifs d) (pds d) (rtes d)
    (rte_pool d) (bursts d) (m_freed d).
Definition set_to_send (v : Z) (d : dpdk) : dpdk :=
  mk_dpdk (d_tx_disabled d) (tx_use_thread d) v (tx_inject_ring d) (ifs d) (pds d) (rtes d)
    (rte_pool d) (bursts d) (m_freed d).
Definition set_ifs (v : ifstats) (d : dpdk) : dpdk :=
  mk_dpdk (d_tx_disabled d) (tx_use_thread d) (tx_pkts_to_send d) (tx_inject_ring d) v (pds d)
    (rtes d) (rte_pool d) (bursts d) (m_freed d).
Definition set_pds (v : store) (d : dpdk) : dpdk :=
  mk_dpdk (d_tx_disabled d) (tx_use_thread d) (tx_pkts_to_send d) (tx_inject_ring d) (ifs d) v
    (rtes d) (rte_pool d) (bursts d) (m_freed d).
Definition set_rtes (v : gmap nat rte_mbuf) (d : dpdk) : dpdk :=
  mk_dpdk (d_tx_disabled d) (tx_use_thread d) (tx_pkts_to_send d) (tx_inject_ring d) (ifs d)
    (pds d) v (rte_pool d) (bursts d) (m_freed d).
Definition set_pool (v : list nat) (d : dpdk) : dpdk :=
  mk_dpdk (d_tx_disabled d) (tx_use_thread d) (tx_pkts_to_send d) (tx_inject_ring d) (ifs d)
    (pds d) (rtes d) v (bursts d) (m_freed d).
Definition set_bursts (v : list (list Z)) (d : dpdk) : dpdk :=
  mk_dpdk (d_tx_disabled d) (tx_use_thread d) (tx_pkts_to_send d) (tx_inject_ring d) (ifs d)
    (pds d) (rtes d) (rte_pool d) v (m_freed d).
Definition set_mfreed (v : list nat) (d : dpdk) : dpdk :=
  mk_dpdk (d_tx_disabled d) (tx_use_thread d) (tx_pkts_to_send d) (tx_inject_ring d) (ifs d)
    (pds d) (rtes d) (rte_pool d) (bursts d) v.

(** Code that works on the packet descriptors. *)
Definition on_pds {A} (p : P A) : D A := fun d =>
  match p (pds d) with Ok (a, s) => Ok (a, set_pds s d) | Fault f => Fault f end.

Section Driver.

(** [rte_eth_tx_burst(port, 0, pkts, n)]: how many of the packets are taken. *)
Context (rte_eth_tx_burst : list Z → Z).

Definition dh_send_pkts (pkts : list Z) : D Z :=
  match pkts with
  | [] => mret 0
  | _ => _ ← modify (fun d => set_bursts (bursts d ++ [pkts]) d); mret (rte_eth_tx_burst pkts)
  end.

Definition if_dpdk_sendpacket (pkts : list Z) : D Z := dh_send_pkts pkts.

(** ** The injection ring: the producer *)

(** The loop of [if_dpdk_inject_tx_pkts] from descriptor [i] on: the array, the
    index [cur], the number of drops and the first descriptor dropped. *)
Fixpoint inject_loop (r : uinet_pd_ring) (l : list uinet_pd) (i : nat) (arr : list uinet_pd)
    (space cur num_drops : Z) (first : option nat)
    : result (list uinet_pd * Z * Z * option nat) :=
  match l with
  | [] => Ok (arr, cur, num_drops, first)
  | pd :: t =>
      if has_flag (pd_flags pd) UINET_PD_INJECT then
        if negb (space =? 0) then
          if cur <? Z.of_nat (length arr) then
            inject_loop r t (S i) (<[Z.to_nat cur := pd]> arr) (u32 (space - 1))
              (uinet_pd_ring_next r cur) num_drops first
          else Fault OutOfBounds
        else inject_loop r t (S i) arr space cur (u32 (num_drops + 1))
               (if num_drops =? 0 then Some i else first)
      else inject_loop r t (S i) arr space cur num_drops first
  end.

(** The packet list it returns has no descriptors left. *)
Definition if_dpdk_inject_tx_pkts (pkts : uinet_pd_list) : D uinet_pd_list :=
  l ← liftR (live_descs pkts);
  dis ← gets d_tx_disabled;
  if (dis : bool) then
    _ ← (if negb (num_descs pkts =? 0) then on_pds (uinet_pd_drop_injected l) else mret ());
    mret pkts
  else
    txr ← gets tx_inject_ring;
    '(arr, cur, num_drops, first) ←
      liftR (inject_loop txr l 0 (r_descs txr) (uinet_pd_ring_space txr) (r_put txr) 0 None);
    _ ← modify (set_ring {| r_num_descs := r_num_descs txr; r_put := cur; r_take := r_take txr;
                            r_drops := u32 (r_drops txr + num_drops); r_descs := arr |});
    thr ← gets tx_use_thread;
    _ ← modify (fun d => if (thr : bool) then set_to_send (s32 (tx_pkts_to_send d + 1)) d else d);
    _ ← match first with
        | Some i => on_pds (uinet_pd_drop_injected (drop i l))
        | None => mret ()
        end;
    mret {| num_descs := 0; descs := descs pkts |}.

(** ** The injection ring: the consumer *)

(** The variables of the loop of [if_dpdk_process_tx_inject_ring]. *)
Record tx_vars : Type := mk_tx {
  pkts : list Z; inject_drops : Z; n_copy : Z; total_bytes : Z; tx_pdctx_to_free : list (option nat)
}.

(** A burst is sent: what the NIC does not take is counted as dropped. *)
Definition send_burst (v : tx_vars) : D tx_vars :=
  n ← if_dpdk_sendpacket (pkts v);
  mret (mk_tx [] (u32 (inject_drops v + (Z.of_nat (length (pkts v)) - n))) (u32 (n_copy v + n))
          (total_bytes v) (tx_pdctx_to_free v)).

(** One descriptor of the ring. [cur_pd->ctx->m] is followed before the flags are
    looked at; the timestamp is read when a burst is sent. *)
Definition take_one (cur_pd : uinet_pd) (v : tx_vars) : D tx_vars :=
  '(c, x) ← on_pds (ctx_load (pd_ctx cur_pd));
  '(_, m) ← on_pds (mbuf_load (c_m x));
  if negb (has_flag (pd_flags cur_pd) UINET_PD_MGMT_ONLY) then
    let v1 := mk_tx (pkts v ++ [pd_serialno cur_pd]) (inject_drops v) (n_copy v) (total_bytes v)
                (tx_pdctx_to_free v) in
    v2 ← (if Z.of_nat (length (pkts v1)) =? MAX_BURST_SIZE then send_burst v1 else mret v1);
    mret (mk_tx (pkts v2) (inject_drops v2) (n_copy v2) (u32 (total_bytes v2 + pd_length cur_pd))
            (tx_pdctx_to_free v2 ++ [pd_ctx cur_pd]))
  else mret v.

(** The loop from [cur] to [put]; [fuel] bounds the number of rounds. *)
Fixpoint tx_loop (fuel : nat) (r : uinet_pd_ring) (cur put : Z) (v : tx_vars) : D (tx_vars * Z) :=
  if cur =? put then mret (v, cur)
  else match fuel with
       | O => faultM Blocked
       | S f =>
           match r_descs r !! Z.to_nat cur with
           | None => faultM OutOfBounds
           | Some pd => v' ← take_one pd v; tx_loop f r (uinet_pd_ring_next r cur) put v'
           end
       end.

Definition count_tx (drops copied bytes : Z) (s : ifstats) : ifstats :=
  if 0 <? copied then
    mk_ifstats (if_ipackets s) (if_opackets s + copied) (if_oerrors s + drops) (if_ozcopies s)
      (if_ocopies s + copied) (if_obytes s + bytes)
  else mk_ifstats (if_ipackets s) (if_opackets s) (if_oerrors s + drops) (if_ozcopies s)
         (if_ocopies s) (if_obytes s).

Definition ring_set_take (v : Z) (r : uinet_pd_ring) : uinet_pd_ring :=
  {| r_num_descs := r_num_descs r; r_put := r_put r; r_take := v; r_drops := r_drops r;
     r_descs := r_descs r |}.
Definition ring_clear_drops (r : uinet_pd_ring) : uinet_pd_ring :=
  {| r_num_descs := r_num_descs r; r_put := r_put r; r_take := r_take r; r_drops := 0;
     r_descs := r_descs r |}.

(** [cur_inject_take] is the thread's own index; [stop] is what
    [kthread_stop_check] says when the wait for packets times out (without a stop
    request and without packets the wait goes on until another thread acts). The
    result is the return value and the thread's index. *)
Definition if_dpdk_process_tx_inject_ring (cur_inject_take : Z) (stop : bool) : D (Z * Z) :=
  thr ← gets tx_use_thread;
  n ← gets tx_pkts_to_send;
  _ ← (if (thr : bool) then modify (fun d => set_ring (ring_set_take cur_inject_take (tx_inject_ring d)) d)
       else mret ());
  _ ← (if (thr : bool) && (n =? 0) && negb stop then faultM Blocked else mret ());
  let done := (thr : bool) && (n =? 0) in
  _ ← (if (thr : bool) then modify (set_to_send 0) else mret ());
  txr ← gets tx_inject_ring;
  _ ← modify (set_ring (ring_clear_drops txr));
  if done then mret (1, cur_inject_take)
  else
    '(v, cur) ← tx_loop (Z.to_nat (r_num_descs txr)) txr (r_take txr) (r_put txr)
                  (mk_tx [] (r_drops txr) 0 0 []);
    v ← (if negb (Z.of_nat (length (pkts v)) =? 0) then send_burst v else mret v);
    _ ← modify (fun d => set_ifs (count_tx (inject_drops v) (n_copy v) (total_bytes v) (ifs d)) d);
    _ ← on_pds (uinet_pd_ref_release (tx_pdctx_to_free v));
    _ ← (if (thr : bool) then mret ()
         else modify (fun d => set_ring (ring_set_take cur (tx_inject_ring d)) d));
    mret (0, if (thr : bool) then cur else cur_inject_take).

Definition if_dpdk_batch_send : D Z :=
  dis ← gets d_tx_disabled; thr ← gets tx_use_thread;
  _ ← (if negb dis && negb thr then _ ← if_dpdk_process_tx_inject_ring 0 false; mret () else mret ());
  mret 0.

(** ** Transmission of the stack's packets *)

(** [rte_pktmbuf_alloc]: a free mbuf of the pool. *)
Definition dh_alloc_desc : D (option nat) := fun d =>
  match rte_pool d with
  | [] => Ok (None, d)
  | b :: t => Ok (Some b, set_pool t d)
  end.

Definition dh_free_desc (b : nat) : D unit := modify (fun d => set_pool (b :: rte_pool d) d).

Definition oerror (s : ifstats) : ifstats :=
  mk_ifstats (if_ipackets s) (if_opackets s) (if_oerrors s + 1) (if_ozcopies s) (if_ocopies s)
    (if_obytes s).
Definition opacket (s : ifstats) : ifstats :=
  mk_ifstats (if_ipackets s) (if_opackets s + 1) (if_oerrors s) (if_ozcopies s) (if_ocopies s)
    (if_obytes s).

(** [m_copydata(m, 0, len, rm_data)] writes [len] bytes from [data_off] on. *)
Definition copy_into (b m : nat) (len : Z) : D unit :=
  rs ← gets rtes;
  match rs !! b with
  | None => faultM BadPointer
  | Some x =>
      if buf_len x <? data_off x + len then faultM Overflow
      else modify (set_rtes (<[b := mk_rte (buf_len x) (data_off x) (u16 len) (u32 len) (Some m)]> rs))
  end.

(** [m] is the packet, [len] its length ([m_pkthdr.len]). *)
Definition if_dpdk_transmit (m : nat) (len : Z) : D Z :=
  dis ← gets d_tx_disabled;
  error ←
    (if (dis : bool) then mret ENETUNREACH
     else
       rte ← dh_alloc_desc;
       match rte with
       | None => _ ← modify (fun d => set_ifs (oerror (ifs d)) d); mret ENOBUFS
       | Some b =>
           rs ← gets rtes;
           x ← liftR (match rs !! b with Some x => Ok x | None => Fault BadPointer end);
           if buf_len x <? len then _ ← modify (fun d => set_ifs (oerror (ifs d)) d); mret ENOBUFS
           else
             _ ← copy_into b m len;
             n ← dh_send_pkts [Z.of_nat b];
             if n =? 0 then _ ← modify (fun d => set_ifs (oerror (ifs d)) d); mret ENOBUFS
             else _ ← modify (fun d => set_ifs (opacket (ifs d)) d); mret 0
       end);
  _ ← modify (fun d => set_mfreed (m_freed d ++ [m]) d);
  mret error.

End Driver.

(** ** Starting and stopping reception *)

Definition IFF_UP : Z := 0x1.
Definition IFF_DRV_RUNNING : Z := 0x40.
Definition IFF_DRV_OACTIVE : Z := 0x400.

Definition if_dpdk_init (if_drv_flags : Z) : Z :=
  clear_flag (Z.lor if_drv_flags IFF_DRV_RUNNING) IFF_DRV_OACTIVE.
Definition if_dpdk_sts_init (if_drv_flags : Z) : Z :=
  Z.lor (Z.lor if_drv_flags IFF_DRV_RUNNING) IFF_DRV_OACTIVE.
Definition if_dpdk_stop (if_drv_flags : Z) : Z :=
  clear_flag if_drv_flags (Z.lor IFF_DRV_RUNNING IFF_DRV_OACTIVE).

(** The points of the receive thread [if_dpdk_receive]: before it takes [rx_lock],
    asleep in the wait for the start, receiving a batch, ended. *)
Inductive rx_pc : Type := RxTop | RxWait | RxBatch | RxEnd.

(** The points of a thread in [if_dpdk_ioctl]: outside, before [rx_lock] to start and to
    stop reception, asleep in the wait for the receive thread to stop, and past
    [mtx_unlock], before [if_dpdk_stop]. *)
Inductive ctl_pc : Type := CtlOut | CtlStart | CtlStop | CtlWait | CtlDone.

(** [rx_thread_run_state], the receive thread with its [wait_for_start], and the
    interface's driver flags. *)
Record rxm : Type := mk_rxm { run_state : Z; rx : rx_pc; wait_for_start : bool; drv_flags : Z }.

Definition set_run_state (v : Z) (s : rxm) : rxm := mk_rxm v (rx s) (wait_for_start s) (drv_flags s).
Definition set_drv_flags (v : Z) (s : rxm) : rxm := mk_rxm (run_state s) (rx s) (wait_for_start s) v.

(** The critical section of the receive thread: [mtx_lock] to [mtx_unlock] or to
    the wait. *)
Definition rx_enter (s : rxm) : rxm :=
  let '(st, w) := if run_state s =? 2 then (3, true) else (run_state s, wait_for_start s) in
  let pc := if w && negb (st =? 1) then RxWait else RxBatch in
  mk_rxm st pc w (drv_flags s).

(** A wake-up in its wait: [done] says that the wait timed out and
    [kthread_stop_check] asked to stop; else it goes on when the state is 1 and
    waits again when it is not. [wait_for_start] stays set. *)
Definition rx_wake (done : bool) (s : rxm) : rxm :=
  let pc := if done then RxEnd else if run_state s =? 1 then RxBatch else RxWait in
  mk_rxm (run_state s) pc (wait_for_start s) (drv_flags s).

(** The end of a batch: [kthread_stop_check] is asked. *)
Definition rx_batch_done (stop : bool) (s : rxm) : rxm :=
  mk_rxm (run_state s) (if stop then RxEnd else RxTop) (wait_for_start s) (drv_flags s).

(** The requests: SIOCSIFFLAGS, SIOCSIFADDR, and those that do not concern the driver's
    flags. *)
Inductive if_cmd : Type := CmdFlags | CmdAddr | CmdOther.

(** What [ether_ioctl] does to the driver's flags: an address makes the interface run,
    through its [if_init], and no other request touches them.  (Its result is left out.) *)
Definition ether_ioctl_drv (if_init : Z → Z) (cmd : if_cmd) (if_drv_flags : Z) : Z :=
  match cmd with CmdAddr => if_init if_drv_flags | _ => if_drv_flags end.

(** [if_dpdk_ioctl] up to [mtx_lock]: [if_up] is the flag [IFF_UP] of the interface, [sts]
    says that it is in STS mode, which sets the [if_init] of the interface too, [rxd] that
    reception is disabled. *)
Definition if_dpdk_ioctl (cmd : if_cmd) (if_up sts rxd : bool) (s : rxm) : ctl_pc * rxm :=
  match cmd with
  | CmdFlags =>
      if if_up then
        if sts then (CtlOut, set_drv_flags (if_dpdk_sts_init (drv_flags s)) s)
        else (if rxd then CtlOut else CtlStart, set_drv_flags (if_dpdk_init (drv_flags s)) s)
      else if has_flag (drv_flags s) IFF_DRV_RUNNING then
        (if negb rxd && negb sts then CtlStop else CtlDone, s)
      else (CtlOut, s)
  | _ => (CtlOut, set_drv_flags (ether_ioctl_drv (if sts then if_dpdk_sts_init else if_dpdk_init) cmd (drv_flags s)) s)
  end.

(** Its critical sections: the one that starts reception, the one that stops it, up to
    the wait if there is one, and what a wake-up in the wait does; and the end. *)
Definition ioctl_start (s : rxm) : rxm := if run_state s =? 0 then set_run_state 1 s else s.
Definition ioctl_stop (s : rxm) : ctl_pc * rxm :=
  if run_state s =? 1 then (CtlWait, set_run_state 2 s) else (CtlDone, s).
Definition ioctl_wake (s : rxm) : ctl_pc * rxm :=
  if run_state s =? 3 then (CtlDone, set_run_state 0 s) else (CtlWait, s).
Definition ioctl_end (s : rxm) : rxm := set_drv_flags (if_dpdk_stop (drv_flags s)) s.

End Dpdk.
