(* ===== verification/DpdkSpec.v ===== *)
(** Properties of the DPDK driver: the configuration formats, the injection ring
    as a queue, transmission on every path, and the handshake that starts and
    stops the receive thread. *)
From stdpp Require Import relations.
From S2P Require Import Prelude Errno PktDesc PktDescSpec Dpdk.
Import PktDesc PktDescSpec Dpdk.

Module DpdkSpec.

(** ** The injection ring as a queue *)

(** A ring whose array has as many slots as it says. *)
Definition ring_ok (r : uinet_pd_ring) : Prop :=
  ring_wf r ∧ Z.of_nat (length (r_descs r)) = r_num_descs r.

(** Slot [i] counted from [take], going round. *)
Definition slot (r : uinet_pd_ring) (i : Z) : nat := Z.to_nat ((r_take r + i) mod r_num_descs r).

(** The descriptors waiting in the ring, oldest first. *)
Definition ring_queue (r : uinet_pd_ring) : list uinet_pd :=
  (fun i => default null_pd (r_descs r !! slot r (Z.of_nat i))) <$> seq 0 (Z.to_nat (ring_used r)).

(** The ring with another producer index and array. *)
Definition ring_with (r : uinet_pd_ring) (put : Z) (arr : list uinet_pd) : uinet_pd_ring :=
  {| r_num_descs := r_num_descs r; r_put := put; r_take := r_take r; r_drops := r_drops r;
     r_descs := arr |}.

Lemma put_slot r : ring_wf r → Z.to_nat (r_put r) = slot r (ring_used r).
Proof.
  intros (Hn & Hp & Ht). unfold slot, ring_used. f_equal.
  rewrite Z.add_mod_idemp_r by lia. replace (r_take r + (r_put r - r_take r)) with (r_put r) by lia.
  symmetry. by apply Z.mod_small.
Qed.

Lemma slot_inj r i j :
  ring_wf r → 0 <= i < r_num_descs r → 0 <= j < r_num_descs r → slot r i = slot r j → i = j.
Proof.
  intros (Hn & Hp & Ht) Hi Hj E. unfold slot in E.
  pose proof (Z.mod_pos_bound (r_take r + i) (r_num_descs r)).
  pose proof (Z.mod_pos_bound (r_take r + j) (r_num_descs r)).
  assert ((r_take r + i) mod r_num_descs r = (r_take r + j) mod r_num_descs r) as E' by lia.
  pose proof (Z.div_mod (r_take r + i) (r_num_descs r)).
  pose proof (Z.div_mod (r_take r + j) (r_num_descs r)).
  set (q1 := (r_take r + i) / r_num_descs r) in *. set (q2 := (r_take r + j) / r_num_descs r) in *.
  assert (i - j = r_num_descs r * (q1 - q2)) by lia. assert (q1 - q2 = 0) by nia. lia.
Qed.

Lemma ring_used_bound r : ring_wf r → 0 <= ring_used r < r_num_descs r.
Proof. intros (Hn & _). apply Z.mod_pos_bound. lia. Qed.

(** Storing a descriptor at [put] and advancing appends it to the queue. *)
Lemma ring_push r pd :
  ring_ok r → ring_used r < r_num_descs r - 1 →
  let r' := ring_with r (uinet_pd_ring_next r (r_put r)) (<[Z.to_nat (r_put r) := pd]> (r_descs r)) in
  ring_ok r' ∧ ring_queue r' = ring_queue r ++ [pd] ∧ ring_used r' = ring_used r + 1.
Proof.
  intros [Hwf Hlen] Hu r'. pose proof Hwf as (Hn & Hp & Ht).
  pose proof (ring_used_bound r Hwf) as Hub.
  assert (ring_used r' = ring_used r + 1) as Eu by (by apply ring_step_put_used).
  split_and!; [| | done].
  - split; [| by simpl; rewrite length_insert].
    split; [done |]. split; [by apply (ring_next_range r) | done].
  - unfold ring_queue. rewrite Eu, Z2Nat.inj_add by lia. rewrite seq_app, fmap_app.
    f_equal; simpl.
    + apply list_fmap_ext. intros k i Hk. apply lookup_seq in Hk as [-> Hk].
      change (slot r' (Z.of_nat (0 + k))) with (slot r (Z.of_nat (0 + k))).
      rewrite list_lookup_insert_ne; [done |]. rewrite (put_slot r Hwf). intros E.
      apply slot_inj in E; [lia | done | lia | lia].
    + change (slot r' (Z.of_nat (Z.to_nat (ring_used r))))
        with (slot r (Z.of_nat (Z.to_nat (ring_used r)))).
      rewrite Z2Nat.id by lia. rewrite <- (put_slot r Hwf).
      rewrite list_lookup_insert_eq by lia. done.
Qed.

Lemma ring_queue_length r : ring_wf r → Z.of_nat (length (ring_queue r)) = ring_used r.
Proof.
  intros Hwf. pose proof (ring_used_bound r Hwf). unfold ring_queue.
  rewrite length_fmap, length_seq. lia.
Qed.

(** Taking the oldest descriptor. *)
Lemma ring_pop r :
  ring_ok r → r_take r ≠ r_put r →
  ∃ pd q, r_descs r !! Z.to_nat (r_take r) = Some pd ∧ ring_queue r = pd :: q ∧
    ring_ok (ring_set_take (uinet_pd_ring_next r (r_take r)) r) ∧
    ring_queue (ring_set_take (uinet_pd_ring_next r (r_take r)) r) = q.
Proof.
  intros [Hwf Hlen] Hne. pose proof Hwf as (Hn & Hp & Ht).
  pose proof (ring_used_bound r Hwf) as Hub.
  assert (0 < ring_used r) as Hpos.
  { unfold ring_used in *. rewrite mod_cases in * by lia. split_ifs; lia. }
  set (r' := ring_set_take (uinet_pd_ring_next r (r_take r)) r).
  assert (ring_used r' = ring_used r - 1) as Eu by (by apply ring_step_take_used).
  destruct (lookup_lt_is_Some_2 (r_descs r) (Z.to_nat (r_take r))) as [pd Hpd]; [lia |].
  assert (ring_ok r') as Hok'.
  { split; [| done]. split; [done |]. split; [done | by apply (ring_next_range r)]. }
  exists pd, (ring_queue r'). split_and!; [done | | done | done].
  unfold ring_queue. replace (Z.to_nat (ring_used r)) with (S (Z.to_nat (ring_used r'))) by lia.
  cbn [seq fmap list_fmap]. f_equal.
  - unfold slot. rewrite Z.add_0_r, Z.mod_small by lia. by rewrite Hpd.
  - rewrite <- fmap_S_seq, <- list_fmap_compose. apply list_fmap_ext.
    intros k i Hk. unfold compose. f_equal. change (r_descs r') with (r_descs r). f_equal.
    unfold slot. simpl. f_equal. rewrite ring_next_eq by (done || lia).
    destruct (Z.eqb_spec (r_take r + 1) (r_num_descs r)) as [E | E].
    + replace (r_take r + Z.of_nat (S i)) with (Z.of_nat i + 1 * r_num_descs r) by lia.
      rewrite Z.mod_add by lia. f_equal.
    + f_equal. lia.
Qed.

(** ** The producer *)

Lemma next_with r cur arr i : uinet_pd_ring_next (ring_with r cur arr) i = uinet_pd_ring_next r i.
Proof. done. Qed.

(** No space left and something dropped already: the rest is only counted. *)
Lemma inject_full r l : ∀ i arr cur nd first,
  0 < nd → nd + Z.of_nat (length l) < 2 ^ 32 →
  inject_loop r l i arr 0 cur nd first =
    Ok (arr, cur, nd + Z.of_nat (length (List.filter injected l)), first).
Proof.
  induction l as [| pd l IH]; intros i arr cur nd first Hnd Hlt; cbn [inject_loop List.filter length].
  { by rewrite Z.add_0_r. }
  fold (injected pd). cbn [length] in Hlt. destruct (injected pd).
  - change (0 =? 0) with true. cbn [negb]. rewrite (proj2 (Z.eqb_neq nd 0)) by lia.
    rewrite wrap_u_id by lia. rewrite IH by lia. cbn [length]. do 3 f_equal. lia.
  - apply IH; lia.
Qed.

(** What the loop does from descriptor [i] on, nothing having been dropped. *)
Lemma inject_loop_spec r l : ∀ i arr cur,
  ring_ok (ring_with r cur arr) → Z.of_nat (length l) < 2 ^ 32 - 1 →
  let inj := List.filter injected l in
  let space := r_num_descs r - 1 - ring_used (ring_with r cur arr) in
  let k := Z.to_nat space in
  ∃ arr' cur' first,
    inject_loop r l i arr space cur 0 None =
      Ok (arr', cur', Z.of_nat (length (drop k inj)), first) ∧
    ring_ok (ring_with r cur' arr') ∧
    ring_queue (ring_with r cur' arr') = ring_queue (ring_with r cur arr) ++ take k inj ∧
    ((first = None ∧ drop k inj = []) ∨
     (∃ j, first = Some (i + j)%nat ∧ List.filter injected (drop j l) = drop k inj)).
Proof.
  induction l as [| pd l IH]; intros i arr cur Hok Hlt; cbn [inject_loop List.filter].
  { exists arr, cur, None. rewrite drop_nil, take_nil, app_nil_r. split_and!; [done.. | by left]. }
  fold (injected pd). cbn [length] in Hlt. pose proof Hok as [Hwf Hlen].
  pose proof (ring_used_bound _ Hwf) as Hub. simpl r_num_descs in Hub.
  pose proof Hwf as (Hn & Hp & Ht). simpl in Hn, Hp, Hlen.
  destruct (injected pd) eqn:Ei; cbn zeta.
  - set (space := r_num_descs r - 1 - ring_used (ring_with r cur arr)).
    destruct (Z.eqb_spec space 0) as [E0 | E0]; cbn [negb].
    + rewrite E0. change (0 =? 0) with true. rewrite (wrap_u_id 32 (0 + 1)) by lia.
      rewrite inject_full by lia. exists arr, cur, (Some i).
      rewrite Z2Nat.inj_0, take_0, drop_0, app_nil_r. cbn [length].
      split_and!; [do 3 f_equal; lia | done | done |]. right. exists 0%nat.
      rewrite Nat.add_0_r, drop_0. cbn [List.filter]. rewrite Ei. done.
    + rewrite (proj2 (Z.ltb_lt cur _)) by lia. rewrite wrap_u_id by lia.
      destruct (ring_push (ring_with r cur arr) pd Hok) as (Hok' & Hq' & Hu'); [simpl; lia |].
      cbn [r_put r_descs ring_with] in Hok', Hq', Hu'. rewrite next_with in Hok', Hq', Hu'.
      set (cur1 := uinet_pd_ring_next r cur) in *. set (arr1 := <[Z.to_nat cur := pd]> arr) in *.
      change (ring_with (ring_with r cur arr) cur1 arr1) with (ring_with r cur1 arr1) in *.
      destruct (IH (S i) arr1 cur1 Hok') as (arr' & cur' & first & E & Hok2 & Hq2 & Hf); [lia |].
      cbn zeta in E, Hq2, Hf. rewrite Hu' in E, Hq2, Hf.
      replace (r_num_descs r - 1 - (ring_used (ring_with r cur arr) + 1)) with (space - 1) in * by lia.
      assert (Z.to_nat space = S (Z.to_nat (space - 1))) as Es by lia.
      exists arr', cur', first. rewrite Es. cbn [drop take]. split_and!; [done | done | |].
      * rewrite Hq2, Hq', <- app_assoc. done.
      * destruct Hf as [Hf | (j & -> & Hj)]; [by left | right]. exists (S j).
        split; [f_equal; lia | done].
  - destruct (IH (S i) arr cur Hok) as (arr' & cur' & first & E & Hok2 & Hq2 & Hf); [lia |].
    exists arr', cur', first. split_and!; [done.. |].
    destruct Hf as [Hf | (j & -> & Hj)]; [by left | right]. exists (S j).
    split; [f_equal; lia | done].
Qed.

(** The loop started from a ring that is well formed. *)
Lemma ring_with_same r : ring_with r (r_put r) (r_descs r) = r.
Proof. by destruct r. Qed.

Lemma drop_injected_nil s : uinet_pd_drop_injected [] s = Ok (tt, s).
Proof. done. Qed.

(** The device with the new ring, the transmit thread told when there is one. *)
Definition ring_filled (arr : list uinet_pd) (cur drops : Z) (d : dpdk) : dpdk :=
  let d1 := set_ring {| r_num_descs := r_num_descs (tx_inject_ring d); r_put := cur;
                        r_take := r_take (tx_inject_ring d); r_drops := drops; r_descs := arr |} d in
  if tx_use_thread d then set_to_send (s32 (tx_pkts_to_send d + 1)) d1 else d1.

(** The call up to the release of what does not fit. *)
Lemma inject_run pl l d :
  live_descs pl = Ok l → Z.of_nat (length l) < 2 ^ 32 - 1 →
  d_tx_disabled d = false → ring_ok (tx_inject_ring d) →
  let inj := List.filter injected l in
  let r := tx_inject_ring d in
  let k := Z.to_nat (uinet_pd_ring_space r) in
  ∃ arr cur, ring_ok (ring_with r cur arr) ∧ ring_queue (ring_with r cur arr) = ring_queue r ++ take k inj ∧
    if_dpdk_inject_tx_pkts pl d =
      (_ ← on_pds (uinet_pd_ref_release (pd_ctx <$> drop k inj));
       mret {| num_descs := 0; descs := descs pl |})
      (ring_filled arr cur (u32 (r_drops r + Z.of_nat (length (drop k inj)))) d).
Proof.
  intros Hl Hlt Hdis Hok inj r k.
  pose proof (inject_loop_spec r l 0 (r_descs r) (r_put r)) as H.
  rewrite ring_with_same in H. destruct (H Hok Hlt) as (arr & cur & first & E & Hok' & Hq & Hf).
  clear H. cbn zeta in E, Hq, Hf. rewrite <- (ring_space_eq r) in E, Hq, Hf by apply Hok.
  fold k inj in E, Hq, Hf. exists arr, cur. split; [done |]. split; [done |].
  unfold if_dpdk_inject_tx_pkts. erewrite M_bind_Ok by (unfold liftR; by rewrite Hl).
  erewrite M_bind_Ok by done. rewrite Hdis. erewrite M_bind_Ok by done. fold r.
  erewrite M_bind_Ok by (unfold liftR; by rewrite E). cbn beta iota.
  erewrite M_bind_Ok by done. erewrite M_bind_Ok by done. erewrite M_bind_Ok by done.
  cbn beta. change (tx_use_thread _) with (tx_use_thread d).
  unfold ring_filled, mbind, M_bind. fold r. destruct Hf as [[-> ->] | (j & -> & Hj)].
  - unfold on_pds. simpl. destruct (tx_use_thread d); by destruct d.
  - rewrite Nat.add_0_l. unfold on_pds. rewrite drop_injected_eq, Hj. reflexivity.
Qed.

(** [if_dpdk_inject_tx_pkts] with transmission enabled, on a well-formed ring:
    of the descriptors marked for injection the first as many as there is space
    for join the ring's queue at its end, in order, the ring stays well formed and
    nothing already queued is touched; the others are counted as drops and their
    references are released, exactly theirs; the list comes back empty. *)
Theorem if_dpdk_inject_tx_pkts_fifo (pl : uinet_pd_list) (l : list uinet_pd) (d : dpdk) :
  live_descs pl = Ok l → Z.of_nat (length l) < 2 ^ 32 - 1 →
  d_tx_disabled d = false → ring_ok (tx_inject_ring d) →
  let inj := List.filter injected l in
  let k := Z.to_nat (uinet_pd_ring_space (tx_inject_ring d)) in
  (∀ f, uinet_pd_ref_release (pd_ctx <$> drop k inj) (pds d) = Fault f →
     if_dpdk_inject_tx_pkts pl d = Fault f) ∧
  (∀ s, uinet_pd_ref_release (pd_ctx <$> drop k inj) (pds d) = Ok (tt, s) →
     ∃ d', if_dpdk_inject_tx_pkts pl d = Ok ({| num_descs := 0; descs := descs pl |}, d') ∧
       ring_ok (tx_inject_ring d') ∧
       ring_queue (tx_inject_ring d') = ring_queue (tx_inject_ring d) ++ take k inj ∧
       r_drops (tx_inject_ring d') =
         u32 (r_drops (tx_inject_ring d) + Z.of_nat (length (drop k inj))) ∧
       pds d' = s ∧
       tx_pkts_to_send d' =
         if tx_use_thread d then s32 (tx_pkts_to_send d + 1) else tx_pkts_to_send d).
Proof.
  intros Hl Hlt Hdis Hok inj k.
  destruct (inject_run pl l d Hl Hlt Hdis Hok) as (arr & cur & Hok' & Hq & ->). fold inj k.
  assert (∀ n, pds (ring_filled arr cur n d) = pds d) as Ep by (intros; unfold ring_filled; by destruct (tx_use_thread d)).
  split; [intros f Hr | intros s Hr]; unfold mbind, M_bind, on_pds; rewrite Ep, Hr; [done |].
  eexists. split; [reflexivity |]. unfold ring_filled. destruct (tx_use_thread d); split_and!; done.
Qed.

(** ** The consumer *)

(** A descriptor the consumer can send: it carries a packet, and its context and
    mbuf exist. *)
Definition sendable (s : store) (pd : uinet_pd) : Prop :=
  has_flag (pd_flags pd) UINET_PD_MGMT_ONLY = false ∧
  ∃ c x i m, pd_ctx pd = Some c ∧ ctxs s !! c = Some x ∧ c_m x = Some i ∧ mbufs s !! i = Some m.

Section Consumer.
Context (rte_eth_tx_burst : list Z → Z).

(** The NIC takes some of the packets offered. *)
Hypothesis tx_burst_range : ∀ l, 0 <= rte_eth_tx_burst l <= Z.of_nat (length l).

(** Packets counted so far, and those of the burst being collected. *)
Definition counted_tx (v : tx_vars) : Z := inject_drops v + n_copy v.

Definition tx_ok (room : Z) (v : tx_vars) : Prop :=
  0 <= inject_drops v ∧ 0 <= n_copy v ∧
  counted_tx v + Z.of_nat (length (pkts v)) + room < 2 ^ 32.

Lemma send_burst_spec v d room :
  pkts v ≠ [] → 0 <= room → tx_ok room v →
  ∃ v', send_burst rte_eth_tx_burst v d = Ok (v', set_bursts (bursts d ++ [pkts v]) d) ∧
    pkts v' = [] ∧ tx_pdctx_to_free v' = tx_pdctx_to_free v ∧ tx_ok room v' ∧
    counted_tx v' = counted_tx v + Z.of_nat (length (pkts v)).
Proof.
  intros Hne Hroom (H1 & H2 & H3). unfold send_burst, if_dpdk_sendpacket, dh_send_pkts.
  destruct (pkts v) as [| p t] eqn:Ep; [done |]. rewrite <- Ep in *.
  pose proof (tx_burst_range (pkts v)) as Hb. unfold counted_tx in *.
  eexists. split; [reflexivity |]. unfold tx_ok, counted_tx. simpl.
  rewrite !wrap_u_id by lia. split_and!; [done | done | lia..].
Qed.

(** One descriptor. *)
Lemma take_one_spec pd v d room :
  sendable (pds d) pd → (length (pkts v) < 512)%nat → 0 <= room → tx_ok (room + 1) v →
  ∃ v' bs, take_one rte_eth_tx_burst pd v d = Ok (v', set_bursts (bursts d ++ bs) d) ∧
    concat bs ++ pkts v' = pkts v ++ [pd_serialno pd] ∧
    Forall (fun b => (0 < length b <= 512)%nat) bs ∧ (length (pkts v') < 512)%nat ∧
    tx_pdctx_to_free v' = tx_pdctx_to_free v ++ [pd_ctx pd] ∧ tx_ok room v' ∧
    counted_tx v' + Z.of_nat (length (pkts v')) = counted_tx v + Z.of_nat (length (pkts v)) + 1.
Proof.
  intros (Hm & c & x & i & m & Hc & Hx & Hi & Hmb) Hlen Hroom Hok. unfold take_one.
  assert (set_pds (pds d) d = d) as Esame by (by destruct d).
  erewrite M_bind_Ok by (unfold on_pds; rewrite Hc, (ctx_load_ok (pds d) c x) by done; reflexivity).
  rewrite Esame. cbn beta iota.
  erewrite M_bind_Ok by (unfold on_pds, mbuf_load; rewrite Hi, Hmb; reflexivity).
  rewrite Esame. cbn beta iota. rewrite Hm. cbn [negb]. cbn zeta.
  set (v1 := mk_tx (pkts v ++ [pd_serialno pd]) (inject_drops v) (n_copy v) (total_bytes v)
               (tx_pdctx_to_free v)).
  assert (length (pkts v1) = S (length (pkts v))) as El1.
  { simpl. rewrite length_app. simpl. lia. }
  destruct Hok as (K1 & K2 & K3).
  assert (tx_ok room v1) as Hok1.
  { unfold tx_ok, counted_tx in *. rewrite El1. simpl. lia. }
  destruct (Z.eqb_spec (Z.of_nat (length (pkts v1))) MAX_BURST_SIZE) as [Eb | Eb];
    unfold MAX_BURST_SIZE in Eb.
  - destruct (send_burst_spec v1 d room) as (v2 & E & P2 & F2 & O2 & C2); [| done | done |].
    { intros E. rewrite E in El1. done. }
    erewrite M_bind_Ok by exact E. eexists _, [pkts v1]. split; [reflexivity |]. simpl.
    rewrite P2, F2. simpl. split_and!.
    + by rewrite !app_nil_r.
    + constructor; [change (0 < length (pkts v1) <= 512)%nat; lia | done].
    + lia.
    + done.
    + destruct O2 as (Q1 & Q2 & Q3). unfold tx_ok, counted_tx in *. simpl in *.
      rewrite P2 in Q3. done.
    + rewrite El1 in C2. unfold counted_tx in *. simpl in *. lia.
  - erewrite M_bind_Ok by done. eexists _, []. rewrite app_nil_r.
    assert (set_bursts (bursts d) d = d) as -> by (by destruct d).
    split; [reflexivity |]. cbn [pkts tx_pdctx_to_free concat app]. split_and!.
    + done.
    + done.
    + lia.
    + done.
    + exact Hok1.
    + rewrite El1. unfold counted_tx. simpl. lia.
Qed.

(** The whole queue. *)
Lemma tx_loop_spec q : ∀ fuel r cur v d,
  ring_ok (ring_set_take cur r) → ring_queue (ring_set_take cur r) = q →
  (length q <= fuel)%nat → Forall (sendable (pds d)) q → (length (pkts v) < 512)%nat →
  tx_ok (Z.of_nat (length q)) v →
  ∃ v' bs, tx_loop rte_eth_tx_burst fuel r cur (r_put r) v d =
             Ok ((v', r_put r), set_bursts (bursts d ++ bs) d) ∧
    concat bs ++ pkts v' = pkts v ++ (pd_serialno <$> q) ∧
    Forall (fun b => (0 < length b <= 512)%nat) bs ∧ (length (pkts v') < 512)%nat ∧
    tx_pdctx_to_free v' = tx_pdctx_to_free v ++ (pd_ctx <$> q) ∧ tx_ok 0 v' ∧
    counted_tx v' + Z.of_nat (length (pkts v')) =
      counted_tx v + Z.of_nat (length (pkts v)) + Z.of_nat (length q).
Proof.
  induction q as [| pd q IH]; intros fuel r cur v d Hok Hq Hfuel Hall Hlen Htx.
  - pose proof Hok as [Hwf _]. pose proof (ring_queue_length _ Hwf) as HL. rewrite Hq in HL.
    assert (cur = r_put r) as ->.
    { pose proof Hwf as (Hn & Hp & Ht). simpl in Hn, Hp, Ht. unfold ring_used in HL. simpl in HL.
      rewrite mod_cases in HL by lia. split_ifs_in HL; lia. }
    exists v, []. rewrite !app_nil_r. assert (set_bursts (bursts d) d = d) as -> by (by destruct d).
    split_and!; try done; [| simpl; lia].
    destruct fuel; simpl; by rewrite Z.eqb_refl.
  - assert (cur ≠ r_put r) as Hne.
    { intros ->. pose proof Hok as [Hwf _]. pose proof (ring_queue_length _ Hwf) as HL.
      rewrite Hq in HL. unfold ring_used in HL. simpl in HL.
      rewrite Z.sub_diag, Z.mod_0_l in HL by (destruct Hwf; simpl in *; lia). lia. }
    destruct (ring_pop (ring_set_take cur r) Hok Hne) as (pd' & q' & Hpd & Hq' & Hok' & Hqq).
    rewrite Hq in Hq'. injection Hq' as <- <-. cbn [r_take r_descs ring_set_take] in Hpd, Hok', Hqq.
    change (uinet_pd_ring_next (ring_set_take cur r) cur) with (uinet_pd_ring_next r cur) in *.
    change (ring_set_take (uinet_pd_ring_next r cur) (ring_set_take cur r))
      with (ring_set_take (uinet_pd_ring_next r cur) r) in *.
    destruct fuel as [| fuel]; [simpl in Hfuel; lia |].
    apply Forall_cons in Hall as [Hpds Hall]. cbn [length] in Htx, Hfuel.
    destruct (take_one_spec pd v d (Z.of_nat (length q))) as (v1 & bs1 & E1 & C1 & F1 & L1 & T1 & O1 & N1);
      [done | done | lia | by rewrite Nat2Z.inj_succ in Htx; unfold Z.succ in Htx |].
    destruct (IH fuel r (uinet_pd_ring_next r cur) v1 (set_bursts (bursts d ++ bs1) d))
      as (v2 & bs2 & E2 & C2 & F2 & L2 & T2 & O2 & N2); [done.. | lia | done | done | done |].
    exists v2, (bs1 ++ bs2). split_and!.
    + cbn [tx_loop]. rewrite (proj2 (Z.eqb_neq _ _)) by done. rewrite Hpd.
      erewrite M_bind_Ok by exact E1. rewrite E2. cbn [bursts set_bursts].
      rewrite <- app_assoc. done.
    + rewrite concat_app, <- app_assoc, C2, app_assoc, C1, <- app_assoc. done.
    + by apply Forall_app.
    + done.
    + rewrite T2, T1, <- app_assoc. done.
    + done.
    + rewrite N2, N1. cbn [length]. lia.
Qed.

(** The ring as the consumer sees it: a thread gives back the slots it has
    processed first. *)
Definition seen_ring (d : dpdk) (cur : Z) : uinet_pd_ring :=
  if tx_use_thread d then ring_set_take cur (tx_inject_ring d) else tx_inject_ring d.
Lemma ring_queue_empty r : 0 < r_num_descs r → r_take r = r_put r → ring_queue r = [].
Proof.
  intros Hn E. unfold ring_queue, ring_used. by rewrite E, Z.sub_diag, Z.mod_0_l by lia.
Qed.

Lemma count_tx_sum drops copied bytes s :
  0 <= copied →
  if_oerrors (count_tx drops copied bytes s) + if_opackets (count_tx drops copied bytes s) =
  if_oerrors s + if_opackets s + drops + copied.
Proof. intros H. unfold count_tx. destruct (Z.ltb_spec 0 copied); simpl; lia. Qed.

(** The loop and the last burst. *)
Lemma tx_all_spec q r cur d :
  ring_ok (ring_set_take cur r) → ring_queue (ring_set_take cur r) = q →
  Forall (sendable (pds d)) q → 0 <= r_drops r → r_drops r + Z.of_nat (length q) < 2 ^ 32 →
  ∃ v bs, (('(v, cur) ← tx_loop rte_eth_tx_burst (Z.to_nat (r_num_descs r)) r cur (r_put r)
                (mk_tx [] (r_drops r) 0 0 []);
            v ← (if negb (Z.of_nat (length (pkts v)) =? 0) then send_burst rte_eth_tx_burst v
                 else mret v);
            mret (v, cur)) d) = Ok ((v, r_put r), set_bursts (bursts d ++ bs) d) ∧
    concat bs = pd_serialno <$> q ∧ Forall (fun b => (0 < length b <= 512)%nat) bs ∧
    tx_pdctx_to_free v = pd_ctx <$> q ∧ 0 <= n_copy v ∧
    counted_tx v = r_drops r + Z.of_nat (length q).
Proof.
  intros Hok Hq Hall Hd Hsum. pose proof Hok as [Hwf _].
  pose proof (ring_queue_length _ Hwf) as HL. pose proof (ring_used_bound _ Hwf) as HU.
  rewrite Hq in HL. simpl in HU.
  destruct (tx_loop_spec q (Z.to_nat (r_num_descs r)) r cur (mk_tx [] (r_drops r) 0 0 []) d)
    as (v & bs & E & C & F & L & T & O & N); [done | done | lia | done | simpl; lia | |].
  { unfold tx_ok, counted_tx. simpl. lia. }
  erewrite M_bind_Ok by exact E. cbn beta iota.
  destruct (Z.eqb_spec (Z.of_nat (length (pkts v))) 0) as [E0 | E0]; cbn [negb].
  - assert (pkts v = []) as Ev by (destruct (pkts v); [done | simpl in E0; lia]).
    exists v, bs. split; [done |]. rewrite Ev in *. rewrite app_nil_r in C.
    unfold counted_tx in *. simpl in *. destruct O as (_ & O & _). split_and!; try done. lia.
  - destruct (send_burst_spec v (set_bursts (bursts d ++ bs) d) 0) as (v' & E' & P' & T' & O' & C');
      [by intros Ev; rewrite Ev in E0 | lia | done |].
    erewrite M_bind_Ok by exact E'. exists v', (bs ++ [pkts v]). split.
    { cbn [bursts set_bursts]. by rewrite <- app_assoc. }
    split_and!.
    + rewrite concat_app. simpl. by rewrite app_nil_r.
    + apply Forall_app. split; [done |]. constructor; [lia | done].
    + by rewrite T', T.
    + apply O'.
    + rewrite C'. unfold counted_tx in *. simpl in *. lia.
Qed.

(** The device when the loop starts: the packets are claimed and the drops read. *)
Definition claimed (d : dpdk) (cur : Z) : dpdk :=
  set_ring (ring_clear_drops (seen_ring d cur)) (if tx_use_thread d then set_to_send 0 d else d).

(** The device after the statistics and the release, and then the slots given back. *)
Definition settled (d : dpdk) (cur : Z) (bs : list (list Z)) (v : tx_vars) (s : store) : dpdk :=
  set_pds s (set_ifs (count_tx (inject_drops v) (n_copy v) (total_bytes v) (ifs d))
               (set_bursts (bursts d ++ bs) (claimed d cur))).
Definition given_back (d : dpdk) (put : Z) (d2 : dpdk) : dpdk :=
  if tx_use_thread d then d2 else set_ring (ring_set_take put (tx_inject_ring d2)) d2.

Lemma claimed_fields d cur :
  pds (claimed d cur) = pds d ∧ bursts (claimed d cur) = bursts d ∧ ifs (claimed d cur) = ifs d ∧
  tx_use_thread (claimed d cur) = tx_use_thread d.
Proof. unfold claimed. by destruct (tx_use_thread d) eqn:E. Qed.

(** The whole call, given what its loop and last burst do. *)
Lemma process_run d cur stop v bs s :
  let r := seen_ring d cur in
  (('(v, cur) ← tx_loop rte_eth_tx_burst (Z.to_nat (r_num_descs r)) r (r_take r) (r_put r)
                (mk_tx [] (r_drops r) 0 0 []);
    v ← (if negb (Z.of_nat (length (pkts v)) =? 0) then send_burst rte_eth_tx_burst v
         else mret v);
    mret (v, cur)) (claimed d cur)) = Ok ((v, r_put r), set_bursts (bursts d ++ bs) (claimed d cur)) →
  (tx_use_thread d = true → tx_pkts_to_send d ≠ 0) →
  uinet_pd_ref_release (tx_pdctx_to_free v) (pds d) = Ok (tt, s) →
  if_dpdk_process_tx_inject_ring rte_eth_tx_burst cur stop d =
    Ok ((0, if tx_use_thread d then r_put r else cur), given_back d (r_put r) (settled d cur bs v s)).
Proof.
  intros r E Hthr Hrel. destruct (claimed_fields d cur) as (Ep & Eb & Ei & Et).
  unfold mbind, M_bind in E.
  destruct (tx_loop _ _ _ _ _ _ (claimed d cur)) as [[[v0 c0] s0] |] eqn:E1; [| done].
  destruct ((if negb (Z.of_nat (length (pkts v0)) =? 0) then send_burst rte_eth_tx_burst v0
             else mret v0) s0) as [[v1 s1] |] eqn:E2; [| done].
  injection E as -> -> ->.
  assert (on_pds (uinet_pd_ref_release (tx_pdctx_to_free v))
    (set_ifs (count_tx (inject_drops v) (n_copy v) (total_bytes v) (ifs (claimed d cur)))
       (set_bursts (bursts d ++ bs) (claimed d cur))) = Ok (tt, settled d cur bs v s)) as E3.
  { unfold on_pds. cbn [pds set_ifs set_bursts]. by rewrite Ep, Hrel, Ei. }
  unfold if_dpdk_process_tx_inject_ring, r, given_back in *.
  unfold claimed, seen_ring in E1, E2, E3 |- *.
  do 2 (erewrite M_bind_Ok by done; cbn beta).
  destruct (tx_use_thread d);
    [rewrite (proj2 (Z.eqb_neq (tx_pkts_to_send d) 0)) by (by apply Hthr) |]; cbn [andb];
    do 5 (erewrite M_bind_Ok by done; cbn beta);
    erewrite M_bind_Ok by exact E1; cbn beta iota; erewrite M_bind_Ok by exact E2;
    erewrite M_bind_Ok by done; by erewrite M_bind_Ok by exact E3.
Qed.

(** The whole call on a queue whose descriptors can be sent and released. *)
Lemma process_sends d cur stop q s :
  ring_ok (seen_ring d cur) → ring_queue (seen_ring d cur) = q →
  Forall (sendable (pds d)) q → (tx_use_thread d = true → tx_pkts_to_send d ≠ 0) →
  0 <= r_drops (tx_inject_ring d) → r_drops (tx_inject_ring d) + Z.of_nat (length q) < 2 ^ 32 →
  uinet_pd_ref_release (pd_ctx <$> q) (pds d) = Ok (tt, s) →
  ∃ v bs,
    if_dpdk_process_tx_inject_ring rte_eth_tx_burst cur stop d =
      Ok ((0, if tx_use_thread d then r_put (seen_ring d cur) else cur),
          given_back d (r_put (seen_ring d cur)) (settled d cur bs v s)) ∧
    concat bs = pd_serialno <$> q ∧ Forall (fun b => (0 < length b <= 512)%nat) bs ∧ 0 <= n_copy v ∧
    counted_tx v = r_drops (tx_inject_ring d) + Z.of_nat (length q).
Proof.
  intros Hok Hq Hall Hthr Hdr Hsum Hrel. set (r := seen_ring d cur) in *.
  assert (r_drops r = r_drops (tx_inject_ring d)) as Er
    by (unfold r, seen_ring; by destruct (tx_use_thread d)).
  destruct (claimed_fields d cur) as (Ep & Eb & Ei & Et).
  assert (ring_set_take (r_take r) r = r) as Ers by (by destruct r).
  destruct (tx_all_spec q r (r_take r) (claimed d cur)) as (v & bs & E & C & F & T & Nc & Cn);
    [by rewrite Ers | by rewrite Ers | by rewrite Ep | by rewrite Er.. |].
  rewrite Eb in E. rewrite <- T in Hrel. rewrite Er in Cn. exists v, bs.
  split; [by apply process_run | done].
Qed.

(** [C15] [if_dpdk_process_tx_inject_ring] with packets to send, in the thread and
    outside it: every descriptor waiting in the ring is offered to the NIC once,
    in the order of the queue, in bursts of 1 to 512 packets; the contexts of all
    of them, sent or not, are released; the packets the NIC takes and those it
    refuses, plus the drops noted by the producer, are all counted; the ring is
    left empty with its drop count reset. *)
Theorem if_dpdk_process_tx_inject_ring_sends (d : dpdk) (cur : Z) (stop : bool)
    (q : list uinet_pd) (s : store) :
  ring_ok (seen_ring d cur) → ring_queue (seen_ring d cur) = q →
  Forall (sendable (pds d)) q → (tx_use_thread d = true → tx_pkts_to_send d ≠ 0) →
  0 <= r_drops (tx_inject_ring d) → r_drops (tx_inject_ring d) + Z.of_nat (length q) < 2 ^ 32 →
  uinet_pd_ref_release (pd_ctx <$> q) (pds d) = Ok (tt, s) →
  ∃ d' cur' bs,
    if_dpdk_process_tx_inject_ring rte_eth_tx_burst cur stop d = Ok ((0, cur'), d') ∧
    bursts d' = bursts d ++ bs ∧ concat bs = pd_serialno <$> q ∧
    Forall (fun b => (0 < length b <= 512)%nat) bs ∧ pds d' = s ∧
    if_oerrors (ifs d') + if_opackets (ifs d') =
      if_oerrors (ifs d) + if_opackets (ifs d) + r_drops (tx_inject_ring d) + Z.of_nat (length q) ∧
    ring_queue (seen_ring d' cur') = [] ∧ r_drops (tx_inject_ring d') = 0.
Proof.
  intros Hok Hq Hall Hthr Hdr Hsum Hrel.
  destruct (process_sends d cur stop q s Hok Hq Hall Hthr Hdr Hsum Hrel) as (v & bs & E & C & F & Nc & Cn).
  eexists _, _, bs. split; [exact E |]. set (r := seen_ring d cur) in *.
  pose proof (count_tx_sum (inject_drops v) (n_copy v) (total_bytes v) (ifs d) Nc) as Hs.
  unfold counted_tx in Cn. assert (0 < r_num_descs r) as Hnd by apply Hok.
  assert (tx_use_thread (settled d cur bs v s) = tx_use_thread d) as Et2 by apply claimed_fields.
  assert (tx_inject_ring (settled d cur bs v s) = ring_clear_drops r) as Er2 by done.
  unfold seen_ring, given_back. destruct (tx_use_thread d);
    try change (tx_use_thread (set_ring _ ?x)) with (tx_use_thread x); rewrite Et2;
    rewrite ?Er2; split_and!; try done; try (simpl in *; lia); by apply ring_queue_empty.
Qed.
End Consumer.

(** The context of a descriptor is followed before its flags are looked at, also
    when the descriptor is marked as carrying no packet. *)
Lemma take_one_mgmt_only (tx_burst : list Z → Z) (pd : uinet_pd) (v : tx_vars) (d : dpdk) :
  has_flag (pd_flags pd) UINET_PD_MGMT_ONLY = true → pd_ctx pd = None →
  take_one tx_burst pd v d = Fault NullDeref.
Proof. intros _ Hc. unfold take_one, mbind, M_bind, on_pds. by rewrite Hc. Qed.

(** ** Witnesses *)

(** A descriptor marked for injection, of context [c] and DPDK mbuf [0x9000 + c]. *)
Definition ex_tx (c : nat) : uinet_pd :=
  {| pd_flags := UINET_PD_INJECT; pd_length := 60; pd_pool_id := 0; pd_ref := 0; pd_data := 0x1000;
     pd_ctx := Some c; pd_serialno := 0x9000 + Z.of_nat c |}.

(** A ring of four slots that holds two descriptors, across its end. *)
Definition ex_ring : uinet_pd_ring :=
  {| r_num_descs := 4; r_put := 1; r_take := 3; r_drops := 2;
     r_descs := [ex_tx 2; null_pd; null_pd; ex_tx 1] |}.

Definition ex_dev (thread : bool) : dpdk :=
  mk_dpdk false thread 1 ex_ring (mk_ifstats 0 0 0 0 0 0) ex_store ∅ [] [] [].

Lemma ex_ring_ok : ring_ok ex_ring.
Proof. split; [split_and!; vm_compute; congruence | reflexivity]. Qed.

(** Two more packets are injected; there is space for one. *)
Definition ex_inject : uinet_pd_list := {| num_descs := 3; descs := [ex_tx 3; ex_pd 0 4; ex_tx 4] |}.

Lemma if_dpdk_inject_tx_pkts_fifo_witness :
  ∃ s d', if_dpdk_inject_tx_pkts ex_inject (ex_dev true) =
          Ok ({| num_descs := 0; descs := descs ex_inject |}, d') ∧ pds d' = s ∧
    ring_queue (tx_inject_ring d') = [ex_tx 1; ex_tx 2; ex_tx 3] ∧
    free_calls s = [(1, [4%nat])].
Proof.
  destruct (if_dpdk_inject_tx_pkts_fifo ex_inject (descs ex_inject) (ex_dev true)
              eq_refl eq_refl eq_refl ex_ring_ok) as [_ H].
  edestruct (H _ eq_refl) as (d' & E & _ & Q & _ & P & _).
  eexists _, d'. split; [exact E |]. split; [exact P |]. split; [exact Q |]. vm_compute. reflexivity.
Defined.

Lemma if_dpdk_process_tx_inject_ring_sends_witness :
  ∃ d' bs, if_dpdk_process_tx_inject_ring (fun l => Z.of_nat (length l)) 3 false (ex_dev true) =
           Ok ((0, 1), d') ∧ bursts d' = bs ∧ concat bs = [0x9001; 0x9002].
Proof.
  edestruct (if_dpdk_process_tx_inject_ring_sends (fun l => Z.of_nat (length l)) ltac:(intros; lia)
    (ex_dev true) 3 false [ex_tx 1; ex_tx 2]) as (d' & cur' & bs & E & B & C & _);
    [apply ex_ring_ok | reflexivity | | done | done | done | reflexivity |].
  { repeat constructor; do 4 eexists; split_and!; reflexivity. }
  exists d', bs. split; [| split; [exact B | exact C]].
  rewrite E. do 2 f_equal. vm_compute in E. congruence.
Defined.

End DpdkSpec.
