(* ===== verification/DpdkCtl.v ===== *)
(** The DPDK driver's control side: what each configuration format means, every
    path of the transmit routine, and the handshake by which the interface's ioctl
    starts and stops the receive thread. *)
From stdpp Require Import relations.
From S2P Require Import Prelude Errno PktDesc Dpdk.
Import PktDesc Dpdk.

Module DpdkCtl.

(** ** The configuration formats *)

(** [<intf>]: a host interface name or [file://name]. *)
Inductive intf : Type := Dev (name : cstr) | File (name : cstr).

Definition intf_name (i : intf) : cstr := match i with Dev n | File n => n end.
Definition intf_isfile (i : intf) : bool := match i with Dev _ => false | File _ => true end.
Definition print_intf (i : intf) : cstr :=
  match i with Dev n => n | File n => file_prefix ++ n end.

(** A host interface name is not empty and does not begin with [file://]. *)
Definition intf_ok (i : intf) : Prop :=
  match i with Dev n => n ≠ [] ∧ take 7 n ≠ file_prefix | File _ => True end.

(** The documented formats. *)
Inductive format : Type := RxTx (i : intf) | RxOnly (i : intf) | TxOnly (i : intf) | Both (i j : intf).

Definition print_format (f : format) : cstr :=
  match f with
  | RxTx i => print_intf i
  | RxOnly i => print_intf i ++ [comma]
  | TxOnly i => comma :: print_intf i
  | Both i j => print_intf i ++ comma :: print_intf j
  end.

Definition format_ok (f : format) : Prop :=
  match f with
  | RxTx i | RxOnly i => intf_ok i ∧ comma ∉ intf_name i
  | TxOnly i => intf_ok i
  | Both i j => intf_ok i ∧ comma ∉ intf_name i ∧ intf_ok j
  end.

Definition host_name (rx tx : cstr) : cstr :=
  take 15 (if decide (rx = tx) then rx else rx ++ comma :: tx).

(** The configuration a format asks for. *)
Definition meaning (f : format) : config :=
  match f with
  | RxTx i => mk_config (intf_isfile i) (intf_isfile i) false false true
                (Some (intf_name i)) (Some (intf_name i)) (take 15 (intf_name i))
  | RxOnly i => mk_config (intf_isfile i) false false true false (Some (intf_name i)) None
                  (take 15 (intf_name i))
  | TxOnly i => mk_config false (intf_isfile i) true false false None (Some (intf_name i))
                  (take 15 (intf_name i))
  | Both i j => mk_config (intf_isfile i) (intf_isfile j) false false
                  (bool_decide (intf_name i = intf_name j))
                  (Some (intf_name i)) (Some (intf_name j)) (host_name (intf_name i) (intf_name j))
  end.

(** The same file for both directions. *)
Definition same_file (f : format) : bool :=
  match f with
  | RxTx i => intf_isfile i
  | Both i j => intf_isfile i && intf_isfile j && bool_decide (intf_name i = intf_name j)
  | _ => false
  end.

Lemma split_comma_none s : comma ∉ s → split_comma s = (s, None).
Proof.
  induction s as [| c s IH]; intros H; [done |]. cbn [split_comma].
  apply not_elem_of_cons in H as [Hc Hs]. rewrite decide_False by congruence. by rewrite IH.
Qed.

Lemma split_comma_some s r : comma ∉ s → split_comma (s ++ comma :: r) = (s, Some r).
Proof.
  induction s as [| c s IH]; intros H; cbn [split_comma app].
  { by rewrite decide_True. }
  apply not_elem_of_cons in H as [Hc Hs]. rewrite decide_False by congruence. by rewrite IH.
Qed.

Lemma comma_prefix : comma ∉ file_prefix.
Proof. by apply (bool_decide_unpack _). Qed.

Lemma comma_print i : comma ∉ intf_name i → comma ∉ print_intf i.
Proof.
  destruct i as [n | n]; cbn [print_intf intf_name]; [done |].
  intros H [H' | H']%elem_of_app; [by apply comma_prefix | done].
Qed.

(** What follows a name does not make a device name look like a file. *)
Lemma dev_prefix n r :
  take 7 n ≠ file_prefix → r = [] ∨ (∃ t, r = comma :: t) → take 7 (n ++ r) ≠ file_prefix.
Proof.
  intros Hn Hr E. destruct Hr as [-> | [t ->]]; [by rewrite app_nil_r in E |].
  destruct (decide (7 <= length n)%nat) as [Hl | Hl].
  - by rewrite take_app_le in E.
  - rewrite take_app_ge in E by lia. destruct (7 - length n)%nat eqn:E7; [lia |].
    apply comma_prefix. rewrite <- E. apply elem_of_app. right. constructor.
Qed.

Lemma extract_intf i r :
  intf_ok i → r = [] ∨ (∃ t, r = comma :: t) →
  if_dpdk_extract_ifname (print_intf i ++ r) (print_intf i) =
    (false, intf_isfile i, Some (intf_name i)).
Proof.
  intros Hi Hr. unfold if_dpdk_extract_ifname. destruct i as [n | n]; cbn [print_intf] in *.
  - destruct Hi as [Hne Hp]. rewrite bool_decide_eq_false_2 by (by apply dev_prefix).
    by destruct n.
  - rewrite bool_decide_eq_true_2 by done. done.
Qed.

(** The configuration string of each documented format, for every interface
    name and file name it can hold, is parsed to the configuration it describes,
    except that naming the same file for reception and transmission, which should
    be refused with [EINVAL], frees both names and then reads one of them. *)
Theorem if_dpdk_process_configstr_formats (f : format) :
  format_ok f →
  if_dpdk_process_configstr (print_format f) =
    if same_file f then Fault BadPointer else Ok (0, meaning f).
Proof.
  unfold if_dpdk_process_configstr.
  destruct f as [i | i | i | i j]; cbn [format_ok print_format same_file meaning].
  - intros [Hi Hc]. rewrite split_comma_none by (by apply comma_print).
    pose proof (extract_intf i [] Hi (or_introl eq_refl)) as E. rewrite app_nil_r in E. rewrite E.
    simpl. rewrite decide_True by done. by destruct (intf_isfile i).
  - intros [Hi Hc]. rewrite split_comma_some by (by apply comma_print).
    rewrite (extract_intf i [comma] Hi) by eauto. done.
  - intros Hi. cbn [split_comma]. rewrite decide_True by done.
    pose proof (extract_intf i [] Hi (or_introl eq_refl)) as E. rewrite app_nil_r in E.
    assert (if_dpdk_extract_ifname (comma :: print_intf i) [] = (true, false, None)) as E0.
    { unfold if_dpdk_extract_ifname. by rewrite bool_decide_eq_false_2. }
    rewrite E0, E. done.
  - intros (Hi & Hc & Hj). rewrite split_comma_some by (by apply comma_print).
    rewrite (extract_intf i _ Hi) by eauto.
    pose proof (extract_intf j [] Hj (or_introl eq_refl)) as E. rewrite app_nil_r in E. rewrite E.
    simpl. unfold host_name. case_decide as En.
    + rewrite bool_decide_eq_true_2 by done. rewrite andb_true_r.
      by destruct (intf_isfile i && intf_isfile j).
    + rewrite bool_decide_eq_false_2 by done. by rewrite andb_false_r.
Qed.

Lemma if_dpdk_process_configstr_formats_witness :
  let eth0 := String.list_ascii_of_string "eth0" in
  let dump := String.list_ascii_of_string "dump" in
  if_dpdk_process_configstr (print_format (Both (Dev eth0) (File dump))) =
    Ok (0, meaning (Both (Dev eth0) (File dump))) ∧
  if_dpdk_process_configstr (print_format (RxTx (File dump))) = Fault BadPointer.
Proof.
  intros eth0 dump. split.
  - refine (if_dpdk_process_configstr_formats (Both (Dev eth0) (File dump)) _).
    split; [split; vm_compute; discriminate | split; [by apply (bool_decide_unpack _) | done]].
  - refine (if_dpdk_process_configstr_formats (RxTx (File dump)) _).
    split; [done | by apply (bool_decide_unpack _)].
Defined.

(** ** Transmission *)

Section Transmit.
Context (rte_eth_tx_burst : list Z → Z).

Abbreviation transmit := (if_dpdk_transmit rte_eth_tx_burst).

(** The device after a packet was refused: [m] is freed, the error counted, and
    the DPDK mbuf that had been taken, if any, is not put back. *)
Definition refused (m : nat) (pool : list nat) (d : dpdk) : dpdk :=
  set_mfreed (m_freed d ++ [m]) (set_ifs (oerror (ifs d)) (set_pool pool d)).

(** The device after mbuf [b] was filled with packet [m] and given to the NIC. *)
Definition offered (m b : nat) (len : Z) (x : rte_mbuf) (d : dpdk) : dpdk :=
  set_bursts (bursts d ++ [[Z.of_nat b]])
    (set_rtes (<[b := mk_rte (buf_len x) (data_off x) (u16 len) (u32 len) (Some m)]> (rtes d)) d).

Lemma transmit_empty m len d :
  d_tx_disabled d = false → rte_pool d = [] → transmit m len d = Ok (ENOBUFS, refused m [] d).
Proof.
  intros Hd Hp. unfold if_dpdk_transmit, mbind, M_bind, gets, dh_alloc_desc. rewrite Hd, Hp.
  unfold refused. rewrite <- Hp. by destruct d.
Qed.

Lemma transmit_eq m len d b t x :
  d_tx_disabled d = false → rte_pool d = b :: t → rtes d !! b = Some x →
  transmit m len d =
    if buf_len x <? len then Ok (ENOBUFS, refused m t d)
    else if buf_len x <? data_off x + len then Fault Overflow
    else if rte_eth_tx_burst [Z.of_nat b] =? 0 then Ok (ENOBUFS, refused m t (offered m b len x d))
    else Ok (0, set_mfreed (m_freed d ++ [m])
                  (set_ifs (opacket (ifs d)) (set_pool t (offered m b len x d)))).
Proof.
  intros Hd Hp Hx. unfold if_dpdk_transmit, mbind, M_bind, gets, dh_alloc_desc. rewrite Hd, Hp.
  cbn [rtes set_pool]. unfold liftR. rewrite Hx. destruct (buf_len x <? len); [done |].
  unfold copy_into, mbind, M_bind, gets. cbn [rtes set_pool]. rewrite Hx.
  destruct (buf_len x <? data_off x + len); [done |]. cbn. unfold mbind, M_bind. cbn.
  by destruct (rte_eth_tx_burst [Z.of_nat b] =? 0).
Qed.

(** [if_dpdk_transmit] reports success exactly when transmission is enabled, a
    DPDK mbuf is free, the packet fits into it behind the headroom and the NIC
    takes it; then the mbuf given to the NIC is the one allocated, with the
    packet's contents and length, one packet is counted and the packet is freed. *)
Theorem if_dpdk_transmit_sent (m : nat) (len : Z) (d d' : dpdk) :
  (∀ b, b ∈ rte_pool d → is_Some (rtes d !! b)) → 0 <= len → (∀ b x, rtes d !! b = Some x → 0 <= data_off x) →
  transmit m len d = Ok (0, d') ↔
  d_tx_disabled d = false ∧
  ∃ b t x, rte_pool d = b :: t ∧ rtes d !! b = Some x ∧ data_off x + len <= buf_len x ∧
    rte_eth_tx_burst [Z.of_nat b] ≠ 0 ∧
    d' = set_mfreed (m_freed d ++ [m])
           (set_ifs (opacket (ifs d)) (set_pool t (offered m b len x d))).
Proof.
  intros Hv Hlen Hoff. destruct (d_tx_disabled d) eqn:Hd.
  { unfold if_dpdk_transmit, mbind, M_bind, gets. rewrite Hd. split; [done | by intros [? _]]. }
  destruct (rte_pool d) as [| b t] eqn:Hp.
  { rewrite transmit_empty by done. split; [done |]. by intros (_ & ? & ? & ? & ? & _). }
  destruct (Hv b) as [x Hx]; [constructor |]. pose proof (Hoff _ _ Hx).
  rewrite (transmit_eq m len d b t x) by done. split.
  - split_ifs; intros [=]. split; [done |]. exists b, t, x. by split_and!.
  - intros (_ & ? & ? & ? & [= <- <-] & Hx' & Hfit & Hn & ->). simplify_eq.
    rewrite (proj2 (Z.ltb_ge _ _)) by lia. rewrite (proj2 (Z.ltb_ge _ _)) by lia.
    by rewrite (proj2 (Z.eqb_neq _ _)).
Qed.

(** Packets given to [if_dpdk_transmit] one after the other. *)
Fixpoint transmit_all (l : list (nat * Z)) : D (list Z) :=
  match l with
  | [] => mret []
  | (m, len) :: t => e ← transmit m len; es ← transmit_all t; mret (e :: es)
  end.

(** Packets longer than every DPDK buffer. *)
Definition oversized (d : dpdk) (l : list (nat * Z)) : Prop :=
  ∀ m len b x, (m, len) ∈ l → rtes d !! b = Some x → buf_len x < len.

Lemma oversized_drain l : ∀ d,
  d_tx_disabled d = false → (∀ b, b ∈ rte_pool d → is_Some (rtes d !! b)) → oversized d l →
  transmit_all l d =
    Ok (replicate (length l) ENOBUFS,
        set_mfreed (m_freed d ++ l.*1)
          (set_ifs (Nat.iter (length l) oerror (ifs d)) (set_pool (drop (length l) (rte_pool d)) d))).
Proof.
  induction l as [| [m len] l IH]; intros d Hd Hv Ho; cbn [transmit_all].
  { rewrite app_nil_r, drop_0. by destruct d. }
  assert (transmit m len d = Ok (ENOBUFS, refused m (drop 1 (rte_pool d)) d)) as E.
  { destruct (rte_pool d) as [| b t] eqn:Hp; [by apply transmit_empty |].
    destruct (Hv b) as [x Hx]; [constructor |]. rewrite (transmit_eq m len d b t x) by done.
    rewrite (proj2 (Z.ltb_lt _ _)); [done |]. eapply Ho; [constructor | done]. }
  erewrite M_bind_Ok by exact E. cbn beta. set (d1 := refused _ _ _).
  erewrite M_bind_Ok; [| apply (IH d1)].
  - unfold d1. cbn. rewrite skipn_skipn, Nat.add_1_r, <- app_assoc.
    unfold mret, M_ret. by rewrite <- Nat.iter_succ_r.
  - done.
  - intros b Hb. apply Hv. by apply (subseteq_drop 1 (rte_pool d) b).
  - intros m' len' b x Hin Hx. apply (Ho m' len' b x); [by constructor | done].
Qed.

(** The mbuf taken for a packet that is then refused is never put back: when
    as many oversized packets as there are free DPDK mbufs have been refused, the
    NIC was given nothing, and yet every packet that follows is refused too,
    whatever its length. *)
Theorem if_dpdk_transmit_leak (l : list (nat * Z)) (m : nat) (len : Z) (d : dpdk) :
  d_tx_disabled d = false → (∀ b, b ∈ rte_pool d → is_Some (rtes d !! b)) →
  oversized d l → (length (rte_pool d) <= length l)%nat →
  returns (transmit_all l d) (fun '(es, d1) =>
    bursts d1 = bursts d ∧ rtes d1 = rtes d ∧
    transmit m len d1 = Ok (ENOBUFS, refused m [] d1)).
Proof.
  intros Hd Hv Ho Hl. rewrite oversized_drain by done. cbn [returns]. split_and!; [done.. |].
  apply transmit_empty; [done |]. cbn. by apply drop_ge.
Qed.
End Transmit.

(** A pool of two mbufs of 2048 bytes with 128 bytes of headroom; a NIC that takes
    everything. *)
Definition ex_rte : rte_mbuf := mk_rte 2048 128 0 0 None.
Definition ex_dpdk : dpdk :=
  mk_dpdk false true 0 {| r_num_descs := 0; r_put := 0; r_take := 0; r_drops := 0; r_descs := [] |}
    (mk_ifstats 0 0 0 0 0 0) (mk_store ∅ ∅ ∅ [] [] [] [] ∅ [])
    {[ 1%nat := ex_rte; 2%nat := ex_rte ]} [1%nat; 2%nat] [] [].
Definition take_all (l : list Z) : Z := Z.of_nat (length l).

Lemma ex_pool_ok : ∀ b, b ∈ rte_pool ex_dpdk → is_Some (rtes ex_dpdk !! b).
Proof. intros b Hb. by repeat (apply elem_of_cons in Hb as [-> | Hb]); [.. | set_solver]. Qed.

Lemma ex_rtes b x : rtes ex_dpdk !! b = Some x → x = ex_rte.
Proof. cbn. rewrite lookup_insert_Some, lookup_singleton_Some. naive_solver. Qed.

Lemma if_dpdk_transmit_sent_witness :
  ∃ d', if_dpdk_transmit take_all 9 1500 ex_dpdk = Ok (0, d') ∧ rte_pool d' = [2%nat] ∧
    rtes d' !! 1%nat = Some (mk_rte 2048 128 1500 1500 (Some 9%nat)).
Proof.
  eexists. split; [| split].
  - apply (if_dpdk_transmit_sent take_all 9 1500 ex_dpdk); [apply ex_pool_ok | lia | |].
    + intros b x ->%ex_rtes. done.
    + split; [done |]. exists 1%nat, [2%nat], ex_rte. split_and!; [done.. | reflexivity].
  - reflexivity.
  - reflexivity.
Defined.

Lemma if_dpdk_transmit_leak_witness :
  returns (transmit_all take_all [(7%nat, 9000); (8%nat, 9000)] ex_dpdk) (fun '(es, d1) =>
    bursts d1 = [] ∧ rtes d1 = rtes ex_dpdk ∧
    if_dpdk_transmit take_all 9 60 d1 = Ok (ENOBUFS, refused 9 [] d1)).
Proof.
  refine (if_dpdk_transmit_leak take_all [(7%nat, 9000); (8%nat, 9000)] 9 60 ex_dpdk
            eq_refl ex_pool_ok _ _); [| simpl; lia].
  intros m len b x Hin ->%ex_rtes.
  repeat (apply elem_of_cons in Hin as [[= -> ->] | Hin]); [done.. | set_solver].
Defined.

(** ** The receive thread's handshake *)

(** The receive thread [if_dpdk_receive] of an interface that receives and is not in STS
    mode, and any number of threads that call [if_dpdk_ioctl]; each step is a critical
    section under [rx_lock], a batch, or a step between them.  With [ups] threads may
    carry out a start. *)
Inductive rx_step (ups : bool) : rxm * list ctl_pc → rxm * list ctl_pc → Prop :=
| StEnter s l : rx s = RxTop → rx_step ups (s, l) (rx_enter s, l)
| StWake s l stop : rx s = RxWait → rx_step ups (s, l) (rx_wake stop s, l)
| StBatch s l stop : rx s = RxBatch → rx_step ups (s, l) (rx_batch_done stop s, l)
| StIoctl s l i cmd if_up pc s' :
    l !! i = Some CtlOut → if_dpdk_ioctl cmd if_up false false s = (pc, s') →
    rx_step ups (s, l) (s', <[i := pc]> l)
| StStart s l i : ups = true → l !! i = Some CtlStart → rx_step ups (s, l) (ioctl_start s, <[i := CtlOut]> l)
| StStop s l i pc s' :
    l !! i = Some CtlStop → ioctl_stop s = (pc, s') → rx_step ups (s, l) (s', <[i := pc]> l)
| StCtlWake s l i pc s' :
    l !! i = Some CtlWait → ioctl_wake s = (pc, s') → rx_step ups (s, l) (s', <[i := pc]> l)
| StEnd s l i : l !! i = Some CtlDone → rx_step ups (s, l) (ioctl_end s, <[i := CtlOut]> l).

(** The thread has just started on an interface that is not running; [n] threads may call
    the ioctl. *)
Definition rx_init (flags : Z) (n : nat) : rxm * list ctl_pc :=
  (mk_rxm 0 RxTop true (if_dpdk_stop flags), replicate n CtlOut).

Abbreviation reachable flags n := (rtc (rx_step true) (rx_init flags n)).

(** Nobody waits, and only thread [i] does. *)
Definition none_waits (l : list ctl_pc) : Prop := ∀ j, l !! j ≠ Some CtlWait.
Definition one_waits (i : nat) (l : list ctl_pc) : Prop := ∀ j, l !! j = Some CtlWait ↔ j = i.

(** What holds between the threads. *)
Definition rx_inv (w : rxm * list ctl_pc) : Prop :=
  let '(s, l) := w in
  wait_for_start s = true ∧
  ((run_state s = 0 ∧ rx s ≠ RxBatch ∨ run_state s = 1) ∧ none_waits l ∨
   (run_state s = 2 ∨ run_state s = 3 ∧ (rx s = RxWait ∨ rx s = RxEnd)) ∧ ∃ i, one_waits i l).

Lemma none_waits_insert l i pc : none_waits l → pc ≠ CtlWait → none_waits (<[i := pc]> l).
Proof. intros Hl Hp j [(_ & E & _) | [_ Hj]]%list_lookup_insert_Some; [done | by eapply Hl]. Qed.

Lemma one_waits_other l i j p pc :
  one_waits i l → l !! j = Some p → p ≠ CtlWait → pc ≠ CtlWait → one_waits i (<[j := pc]> l).
Proof.
  intros Hl Hj Hp Hpc k. split.
  - intros [(_ & E & _) | [_ Hk]]%list_lookup_insert_Some; [done | by apply Hl].
  - intros Hk%Hl. rewrite list_lookup_insert_ne; [done |]. intros ->. congruence.
Qed.

Lemma none_waits_one l i p : none_waits l → l !! i = Some p → one_waits i (<[i := CtlWait]> l).
Proof.
  intros Hl Hi k. split.
  - intros [(-> & _) | [_ Hk]]%list_lookup_insert_Some; [done | by destruct (Hl k)].
  - intros ->. apply list_lookup_insert_eq. by eapply lookup_lt_Some.
Qed.

Lemma one_waits_none l i pc : one_waits i l → pc ≠ CtlWait → none_waits (<[i := pc]> l).
Proof. intros Hl Hp k [(_ & E & _) | [Hne Hk]]%list_lookup_insert_Some; [done |]. apply Hl in Hk. congruence. Qed.

Lemma ioctl_begins cmd if_up s pc s' :
  if_dpdk_ioctl cmd if_up false false s = (pc, s') →
  pc ≠ CtlWait ∧ run_state s' = run_state s ∧ rx s' = rx s ∧ wait_for_start s' = wait_for_start s.
Proof.
  unfold if_dpdk_ioctl. destruct cmd; [destruct if_up; [| destruct (has_flag _ _)] | |]; cbn; intros [= <- <-]; done.
Qed.

(** A thread that does not wait moves, and the receive thread's side stays. *)
Lemma rx_inv_moves s l i p pc s' :
  rx_inv (s, l) → l !! i = Some p → p ≠ CtlWait → pc ≠ CtlWait →
  run_state s' = run_state s → rx s' = rx s → wait_for_start s' = wait_for_start s → rx_inv (s', <[i := pc]> l).
Proof.
  intros [Hw H] Hi Hp Hpc E1 E2 E3. unfold rx_inv. rewrite E1, E2, E3. split; [done |].
  destruct H as [[H Hn] | [H [k Hk]]]; [left | right]; (split; [done |]).
  - by apply none_waits_insert.
  - exists k. by apply (one_waits_other l k i p).
Qed.

Lemma rx_inv_step ups w w' : rx_step ups w w' → rx_inv w → rx_inv w'.
Proof.
  intros Hs Hi. destruct Hs as [s l E | s l stop E | s l stop E | s l i cmd up pc s' Hl E | s l i _ Hl | s l i pc s' Hl E
    | s l i pc s' Hl E | s l i Hl].
  - destruct Hi as [Hw H]. destruct s as [st x w fl]; cbn in *; subst. unfold rx_inv, rx_enter; cbn.
    destruct H as [[[[-> _] | ->] Hn] | [[-> | [-> [[=] | [=]]]] Hk]]; cbn; naive_solver.
  - destruct Hi as [Hw H]. destruct s as [st x w fl]; cbn in *; subst. unfold rx_inv, rx_wake; cbn.
    destruct H as [[[[-> _] | ->] Hn] | [[-> | [-> _]] Hk]]; destruct stop; cbn; naive_solver.
  - destruct Hi as [Hw H]. destruct s as [st x w fl]; cbn in *; subst. unfold rx_inv, rx_batch_done; cbn.
    destruct H as [[[[_ ?] | ->] Hn] | [[-> | [_ [[=] | [=]]]] Hk]]; destruct stop; cbn; naive_solver.
  - destruct (ioctl_begins _ _ _ _ _ E) as (Hp & E1 & E2 & E3). by apply (rx_inv_moves s l i CtlOut).
  - destruct Hi as [Hw H]. unfold ioctl_start, rx_inv. destruct (Z.eqb_spec (run_state s) 0) as [E0 | E0]; cbn; (split; [done |]).
    + destruct H as [[_ Hn] | [[? | [? _]] _]]; [| lia..]. left. split; [by right | by apply none_waits_insert].
    + destruct H as [[H Hn] | [H [k Hk]]]; [left | right]; (split; [done |]); [by apply none_waits_insert |].
      exists k. by apply (one_waits_other l k i CtlStart).
  - unfold ioctl_stop in E. destruct (Z.eqb_spec (run_state s) 1) as [E0 | E0]; injection E as <- <-.
    + destruct Hi as [Hw [[_ Hn] | [[? | [? _]] _]]]; [| lia..]. split; [done |]. right. split; [by left |].
      exists i. by eapply none_waits_one.
    + by apply (rx_inv_moves s l i CtlStop).
  - unfold ioctl_wake in E. destruct Hi as [Hw H]. destruct (Z.eqb_spec (run_state s) 3) as [E0 | E0]; injection E as <- <-.
    + destruct H as [[[[? _] | ?] _] | [[? | [_ Hr]] [k Hk]]]; [lia.. |]. apply Hk in Hl as ->. split; [done |]. left. cbn.
      split; [left; split; [done |]; by destruct Hr as [-> | ->] | by apply one_waits_none].
    + rewrite list_insert_id by done. by split.
  - by apply (rx_inv_moves s l i CtlDone).
Qed.

Lemma rx_inv_reachable fl n w : reachable fl n w → rx_inv w.
Proof.
  intros Hr. assert (rx_inv (rx_init fl n)) as H0.
  { split; [done |]. left. split; [by left |]. intros j [E _]%lookup_replicate. done. }
  remember (rx_init fl n) as w0. clear Heqw0. revert H0.
  induction Hr as [| w1 w2 w3 Hs _ IH]; [done |]. intros H1. by apply IH, (rx_inv_step true w1).
Qed.

(** Reception is stopped: the state is 0 and no batch is being received. *)
Definition stopped (w : rxm * list ctl_pc) : Prop :=
  wait_for_start w.1 = true ∧ run_state w.1 = 0 ∧ rx w.1 ≠ RxBatch.

Lemma stopped_step w w' : rx_step false w w' → stopped w → stopped w'.
Proof.
  intros Hs (Hw & Hr & Hb). destruct Hs as [s l E | s l stop E | s l stop E | s l i cmd up pc s' Hl E | s l i E | s l i pc s' Hl E
    | s l i pc s' Hl E | s l i Hl]; cbn in *; try done.
  - unfold stopped, rx_enter. cbn. by rewrite Hr, Hw.
  - unfold stopped, rx_wake. cbn. rewrite Hr. by destruct stop.
  - destruct (ioctl_begins _ _ _ _ _ E) as (_ & E1 & E2 & E3). unfold stopped. cbn. by rewrite E1, E2, E3.
  - unfold ioctl_stop in E. rewrite Hr in E. by injection E as <- <-.
  - unfold ioctl_wake in E. rewrite Hr in E. by injection E as <- <-.
Qed.

Lemma stopped_stays w w' : rtc (rx_step false) w w' → stopped w → stopped w'.
Proof. induction 1; [done |]. intros. eauto using stopped_step. Qed.

(** [C29] The handshake of [if_dpdk_ioctl] and [if_dpdk_receive], on an interface that
    receives and is not in STS mode, in every interleaving with any number of threads in
    the ioctl, whatever they ask (to go up, to go down, an address, or anything else): a
    batch is received only while the state is 1 or 2; at most one thread waits for the
    receive thread to stop, and only while the state is 2 or 3; and when that thread is
    through with its wait, the batch that was being received has ended, and no other is
    begun until some thread starts reception again.  Nothing is said of IFF_DRV_RUNNING,
    which an address sets without starting reception and a second request to go down
    clears without waiting ([address_runs_without_start], [second_down_no_wait]). *)
Theorem rx_down_no_batch (flags : Z) (n : nat) (s : rxm) (l : list ctl_pc) :
  reachable flags n (s, l) →
  (rx s = RxBatch → run_state s = 1 ∨ run_state s = 2) ∧
  (∀ i, l !! i = Some CtlWait →
     (run_state s = 2 ∨ run_state s = 3) ∧ (∀ j, l !! j = Some CtlWait → j = i) ∧
     ∀ s', ioctl_wake s = (CtlDone, s') →
       ∀ s2 l2, rtc (rx_step false) (s', <[i := CtlDone]> l) (s2, l2) → rx s2 ≠ RxBatch).
Proof.
  intros Hr. pose proof (rx_inv_reachable flags n _ Hr) as [Hw H]. split.
  - intros Hb. destruct H as [[[[_ ?] | ?] _] | [[? | [_ [E | E]]] _]]; [done | by left | by right | congruence..].
  - intros i Hi. destruct H as [[_ Hn] | [H [k Hk]]]; [by destruct (Hn i) |]. pose proof (proj1 (Hk i) Hi) as ->.
    split; [naive_solver |]. split; [intros j Hj; by apply Hk |]. intros s' E s2 l2 Hrun.
    unfold ioctl_wake in E. destruct (Z.eqb_spec (run_state s) 3) as [E0 | E0]; [injection E as <- | done].
    apply (stopped_stays _ _ Hrun). destruct H as [? | [_ Hx]]; [lia |]. split; [done |]. split; [done |]. cbn. by destruct Hx as [-> | ->].
Qed.

(** An up and a down that waits until the receive thread, in a batch, has stopped. *)
Definition ex_up : rxm := rx_enter (ioctl_start (if_dpdk_ioctl CmdFlags true false false (rx_init 0 2).1).2).
Definition ex_down : rxm := (ioctl_stop ex_up).2.
Definition ex_acked : rxm := rx_enter (rx_batch_done false ex_down).

Lemma ex_down_run : reachable 0 2 (ex_acked, [CtlWait; CtlOut]).
Proof.
  eapply rtc_l; [eapply (StIoctl true _ _ 0 CmdFlags true); reflexivity |]. eapply rtc_l; [by apply (StStart true _ _ 0) |].
  eapply rtc_l; [by apply StEnter |]. eapply rtc_l; [eapply (StIoctl true _ _ 0 CmdFlags false); reflexivity |].
  eapply rtc_l; [eapply (StStop true _ _ 0); reflexivity |]. eapply rtc_l; [by apply (StBatch true _ _ false) |].
  apply rtc_once. by apply StEnter.
Qed.

Lemma rx_down_no_batch_witness :
  reachable 0 2 (ex_acked, [CtlWait; CtlOut]) ∧
  ∀ s2 l2, rtc (rx_step false) (set_run_state 0 ex_acked, [CtlDone; CtlOut]) (s2, l2) → rx s2 ≠ RxBatch.
Proof.
  split; [exact ex_down_run |].
  destruct (rx_down_no_batch 0 2 ex_acked [CtlWait; CtlOut] ex_down_run) as [_ H].
  destruct (H 0%nat eq_refl) as (_ & _ & Hq). exact (Hq (set_run_state 0 ex_acked) eq_refl).
Defined.

(** An address on an interface that is down: it runs, and reception is not started. *)
Lemma address_runs_without_start :
  let '(pc, s) := if_dpdk_ioctl CmdAddr false false false (rx_init 0 1).1 in
  pc = CtlOut ∧ has_flag (drv_flags s) IFF_DRV_RUNNING = true ∧ run_state s = 0.
Proof. vm_compute. done. Qed.

(** Two threads ask to go down while a batch is being received: the second returns at
    once, with the interface not running and the batch still going on. *)
Lemma second_down_no_wait :
  ∃ s, reachable 0 2 (s, [CtlWait; CtlOut]) ∧ has_flag (drv_flags s) IFF_DRV_RUNNING = false ∧ rx s = RxBatch.
Proof.
  exists (ioctl_end ex_down). split; [| done].
  eapply rtc_l; [eapply (StIoctl true _ _ 0 CmdFlags true); reflexivity |]. eapply rtc_l; [by apply (StStart true _ _ 0) |].
  eapply rtc_l; [by apply StEnter |]. eapply rtc_l; [eapply (StIoctl true _ _ 0 CmdFlags false); reflexivity |].
  eapply rtc_l; [eapply (StStop true _ _ 0); reflexivity |]. eapply rtc_l; [eapply (StIoctl true _ _ 1 CmdFlags false); reflexivity |].
  eapply rtc_l; [eapply (StStop true _ _ 1); reflexivity |]. apply rtc_once. exact (StEnd true ex_down [CtlWait; CtlDone] 1 eq_refl).
Qed.

(** The receive thread is past the point at which it would acknowledge. *)
Definition stuck (i : nat) (w : rxm * list ctl_pc) : Prop :=
  w.2 !! i = Some CtlWait ∧ run_state w.1 = 2 ∧ (rx w.1 = RxWait ∨ rx w.1 = RxEnd).

Lemma stuck_step i w w' : rx_step true w w' → stuck i w → stuck i w'.
Proof.
  intros Hs (Hc & Hr & Hx).
  assert (∀ (l : list ctl_pc) j p pc, l !! i = Some CtlWait → l !! j = Some p → p ≠ CtlWait → <[j := pc]> l !! i = Some CtlWait) as Hoth.
  { intros l j p pc Hi Hj Hp. rewrite list_lookup_insert_ne; [done |]. intros ->. congruence. }
  destruct Hs as [s l E | s l stop E | s l stop E | s l j cmd up pc s' Hl E | s l j _ Hl | s l j pc s' Hl E
    | s l j pc s' Hl E | s l j Hl]; cbn in *.
  - destruct Hx; congruence.
  - unfold stuck, rx_wake. cbn. rewrite Hr. destruct stop; naive_solver.
  - destruct Hx; congruence.
  - destruct (ioctl_begins _ _ _ _ _ E) as (_ & E1 & E2 & _). unfold stuck. cbn. rewrite E1, E2. split; [by eapply Hoth | done].
  - unfold ioctl_start. rewrite Hr. split; [by eapply Hoth | done].
  - unfold ioctl_stop in E. rewrite Hr in E. injection E as <- <-. split; [by eapply Hoth | done].
  - unfold ioctl_wake in E. rewrite Hr in E. injection E as <- <-. by rewrite list_insert_id.
  - split; [by eapply Hoth | done].
Qed.

Lemma stuck_forever i w w' : rtc (rx_step true) w w' → stuck i w → stuck i w'.
Proof. induction 1; [done |]. intros. eauto using stuck_step. Qed.

(** When the ioctl that brings the interface down waits for the receive thread,
    it can still go on, if the thread is given the chance, unless the thread has
    ended or is asleep in its wait for a start: there it looks for state 1 only, and
    the ioctl then waits forever. *)
Theorem rx_down_returns_iff (flags : Z) (n i : nat) (s : rxm) (l : list ctl_pc) :
  reachable flags n (s, l) → l !! i = Some CtlWait →
  (∃ s' l', rtc (rx_step true) (s, l) (s', l') ∧ l' !! i = Some CtlDone) ↔
  ¬ (run_state s = 2 ∧ (rx s = RxWait ∨ rx s = RxEnd)).
Proof.
  intros Hreach Hc. pose proof (rx_inv_reachable flags n _ Hreach) as [Hw H]. pose proof (lookup_lt_Some _ _ _ Hc) as Hlt. split.
  - intros (s' & l' & Hs & Ho) [Hr Hx]. destruct (stuck_forever i _ _ Hs); [by split_and! | cbn in *; congruence].
  - intros Hn. assert (∀ s, run_state s = 3 → ∃ s' l', rtc (rx_step true) (s, l) (s', l') ∧ l' !! i = Some CtlDone) as Hack.
    { intros s0 H0. eexists _, _. split; [apply rtc_once; eapply (StCtlWake true _ _ i); [done |]; unfold ioctl_wake; rewrite H0; reflexivity |].
      by apply list_lookup_insert_eq. }
    destruct H as [[_ Hnone] | [[Hr | [Hr _]] _]]; [by destruct (Hnone i) | | by apply Hack].
    assert (∀ s, rx s = RxTop → run_state s = 2 → ∃ s' l', rtc (rx_step true) (s, l) (s', l') ∧ l' !! i = Some CtlDone) as Htop.
    { intros s0 H1 H2. destruct (Hack (rx_enter s0)) as (s' & l' & Hrun & Hd); [unfold rx_enter; by rewrite H2 |].
      exists s', l'. split; [| done]. eapply rtc_l; [by apply StEnter | done]. }
    destruct (rx s) eqn:Ex; [by apply Htop | tauto | | tauto].
    destruct (Htop (rx_batch_done false s)) as (s' & l' & Hs & Ho); [done.. |].
    exists s', l'. split; [| done]. eapply rtc_l; [by apply (StBatch true s l false) | done].
Qed.

(** An up immediately followed by a down, before the receive thread has woken. *)
Definition just_up : rxm := ioctl_start (if_dpdk_ioctl CmdFlags true false false (rx_enter (rx_init 0 1).1)).2.
Definition up_down : rxm := (ioctl_stop just_up).2.

Lemma rx_down_returns_iff_witness :
  reachable 0 1 (up_down, [CtlWait]) ∧
  ¬ (∃ s' l', rtc (rx_step true) (up_down, [CtlWait]) (s', l') ∧ l' !! 0%nat = Some CtlDone).
Proof.
  assert (reachable 0 1 (up_down, [CtlWait])) as H.
  { eapply rtc_l; [by apply StEnter |]. eapply rtc_l; [eapply (StIoctl true _ _ 0 CmdFlags true); reflexivity |].
    eapply rtc_l; [by apply (StStart true _ _ 0) |]. eapply rtc_l; [eapply (StIoctl true _ _ 0 CmdFlags false); reflexivity |].
    apply rtc_once. exact (StStop true just_up [CtlStop] 0 CtlWait up_down eq_refl eq_refl). }
  split; [done |]. intros Hex.
  apply (rx_down_returns_iff 0 1 0 up_down [CtlWait] H eq_refl); [done |]. split; [reflexivity | by left].
Defined.

End DpdkCtl.
