(* ===== verification/DpdkQueue.v ===== *)
(** The path of an injected packet, from the API through the injection ring of the
    DPDK driver to the NIC: for every sequence of calls the ring, its producer, its
    consumer and the reference counts together implement a bounded queue. *)
From S2P Require Import Prelude PktDesc PktDescSpec Dpdk DpdkSpec.
Import PktDesc PktDescSpec Dpdk DpdkSpec.

Module DpdkQueue.

(** ** The calls *)

(** [UIF_INJECT_TX] and [UIF_BATCH_TX] of an interface that [if_dpdk_setup_interface]
    has set up. *)
Definition uinet_if_inject_tx_packets (pkts : uinet_pd_list) : M dpdk uinet_pd_list := if_dpdk_inject_tx_pkts pkts.
Definition uinet_if_batch_tx (rte_eth_tx_burst : list Z → Z) : M dpdk Z := if_dpdk_batch_send rte_eth_tx_burst.

(** A call of the API, or a round of the transmit thread or of [uinet_if_batch_tx]. *)
Inductive op : Type := Inject (pl : uinet_pd_list) | Send.

(** The device, and the thread's own index [cur_inject_take]. *)
Definition run_op (rte_eth_tx_burst : list Z → Z) (o : op) (x : dpdk * Z) : result (dpdk * Z) :=
  match o with
  | Inject pl => '(_, d) ← uinet_if_inject_tx_packets pl x.1; Ok (d, x.2)
  | Send =>
      if tx_use_thread x.1 then
        '((_, cur), d) ← if_dpdk_process_tx_inject_ring rte_eth_tx_burst x.2 false x.1; Ok (d, cur)
      else '(_, d) ← uinet_if_batch_tx rte_eth_tx_burst x.1; Ok (d, x.2)
  end.

Fixpoint run_ops (rte_eth_tx_burst : list Z → Z) (ops : list op) (x : dpdk * Z) : result (dpdk * Z) :=
  match ops with
  | [] => Ok x
  | o :: t => y ← run_op rte_eth_tx_burst o x; run_ops rte_eth_tx_burst t y
  end.

(** ** The specification *)

(** The packets waiting; the slots that the thread has sent and not yet given back;
    the packets refused for lack of space and not yet counted; the calls since the
    thread last looked; the packets offered to the NIC; the contexts released; the
    packets counted in the interface's statistics. *)
Record txq : Type := mk_txq {
  waiting : list uinet_pd; held : Z; refused : Z; kicks : Z;
  wire : list Z; released : list nat; accounted : Z
}.

Definition offered (pl : uinet_pd_list) : list uinet_pd :=
  List.filter injected (take (Z.to_nat (num_descs pl)) (descs pl)).

Definition spec_op (n : Z) (thr : bool) (a : txq) (o : op) : txq :=
  match o with
  | Inject pl =>
      let k := Z.to_nat (n - 1 - held a - Z.of_nat (length (waiting a))) in
      mk_txq (waiting a ++ take k (offered pl)) (held a)
        (refused a + Z.of_nat (length (drop k (offered pl)))) (if thr then kicks a + 1 else kicks a)
        (wire a) (released a ++ omap pd_ctx (drop k (offered pl))) (accounted a)
  | Send =>
      mk_txq [] (if thr then Z.of_nat (length (waiting a)) else 0) 0 (if thr then 0 else kicks a)
        (wire a ++ (pd_serialno <$> waiting a)) (released a ++ omap pd_ctx (waiting a))
        (accounted a + refused a + Z.of_nat (length (waiting a)))
  end.

Definition spec_ops (n : Z) (thr : bool) : list op → txq → txq := fun ops a => foldl (spec_op n thr) a ops.

(** ** Releasing in instalments *)

Lemma release_ref_app cx l1 : ∀ cl l2,
  (∀ c, c ∈ l1 → is_Some (cx !! c)) →
  release_ref cx cl (l1 ++ l2) =
    ((release_ref cx cl l1).1 ++ (release_ref cx (release_ref cx cl l1).2 l2).1,
     (release_ref cx (release_ref cx cl l1).2 l2).2).
Proof.
  induction l1 as [| c l1 IH]; intros cl l2 Hin; cbn [app release_ref fst snd]; [by destruct (release_ref cx cl l2) |].
  destruct (Hin c) as [x Hx]; [constructor |]. rewrite Hx. destruct (drop_ref x cl) as [b cl1].
  rewrite IH by (intros; apply Hin; by constructor). destruct (release_ref cx cl1 l1) as [d1 c1]. by destruct b.
Qed.

Lemma release_ref_dom cx l : ∀ cl r, is_Some (cl !! r) → is_Some ((release_ref cx cl l).2 !! r).
Proof.
  induction l as [| c l IH]; intros cl r Hr; cbn [release_ref]; [done |]. destruct (cx !! c) as [x |]; [| done].
  pose proof (drop_ref_dom x cl r Hr) as Hd. destruct (drop_ref x cl) as [b cl1]. cbn in Hd.
  specialize (IH cl1 r Hd). by destruct (release_ref cx cl1 l).
Qed.

(** [s] is [s0] after the contexts [R] have been released. *)
Definition released_from (s0 : store) (R : list nat) (s : store) : Prop :=
  freed (set_cells (release_ref (ctxs s0) (cells s0) R).2 s0) (release_ref (ctxs s0) (cells s0) R).1 s.

Lemma freed_seq s0 c1 D1 s1 c2 D2 s2 :
  freed (set_cells c1 s0) D1 s1 → freed (set_cells c2 s1) D2 s2 → freed (set_cells c2 s0) (D1 ++ D2) s2.
Proof.
  intros ((A1 & A2 & A3 & A4 & A5) & Zn1 & cs1 & Ec1 & Hc1 & Ed1) ((B1 & B2 & B3 & B4 & B5) & Zn2 & cs2 & Ec2 & Hc2 & Ed2).
  cbn in *. assert (∀ c, pool_of (set_cells c2 s1) c = pool_of s0 c) as Hp by (intros; unfold pool_of; cbn; by rewrite A1).
  assert (∀ c, in_mbuf_pool (set_cells c2 s1) c = in_mbuf_pool s0 c) as Hm
    by (intros; unfold in_mbuf_pool; rewrite Hp; cbn; by rewrite A3).
  split_and!; cbn.
  - split_and!; cbn; [congruence | done | congruence | | congruence]. intros i Hi. apply B4, A4, Hi.
  - rewrite Zn2, Zn1, List.filter_app, rev_app_distr, <- app_assoc. f_equal. f_equal. by apply List.filter_ext.
  - exists (cs1 ++ cs2). split_and!; [by rewrite Ec2, Ec1, <- app_assoc | | by rewrite fmap_app, concat_app, Ed1, Ed2].
    apply Forall_app. split; [done |]. eapply Forall_impl; [exact Hc2 |]. intros call [H1 H2]. split; [done |].
    intros c Hc. rewrite <- (H2 c Hc). symmetry. apply Hp.
Qed.

(** A descriptor that can be sent and whose context can be released. *)
Definition usable (s : store) (pd : uinet_pd) : Prop :=
  sendable s pd ∧ ∃ c, pd_ctx pd = Some c ∧ freeable s c ∧ counted s c.

Lemma released_usable s0 R s pd : released_from s0 R s → usable s0 pd → usable s pd.
Proof.
  intros ((A1 & A2 & A3 & A4 & A5) & _) [(Hf & c & x & i & m & Hc & Hx & Hm & Hi) (c' & Hc' & Hfr & y & Hy & Hcell)]. cbn in *.
  rewrite Hc in Hc'. injection Hc' as <-. destruct (A4 i) as [m' Hm']; [by rewrite Hi |]. split.
  - split; [done |]. exists c, x, i, m'. by rewrite A1.
  - exists c. split; [done |]. split.
    + destruct Hfr as (x' & i' & b & info & H1 & H2 & H3 & H4 & H5). destruct (A4 i') as [b' Hb']; [by rewrite H3 |].
      exists x', i', b', info. by rewrite A1, A3.
    + exists y. rewrite A1, A2. split; [done |]. by apply release_ref_dom.
Qed.

Lemma usable_ctxs s l : Forall (usable s) l → pd_ctx <$> l = Some <$> omap pd_ctx l.
Proof. induction 1 as [| pd l (_ & c & Hc & _) _ IH]; cbn; [done |]. rewrite Hc. cbn. by rewrite IH. Qed.

Lemma usable_released s l c : Forall (usable s) l → c ∈ omap pd_ctx l → freeable s c ∧ counted s c.
Proof.
  intros Hl (pd & Hin & Hc)%list_elem_of_omap. rewrite Forall_forall in Hl.
  destruct (Hl pd Hin) as (_ & c' & Hc' & H). by simplify_eq.
Qed.

(** One more instalment. *)
Lemma release_more s0 R s l :
  released_from s0 R s → (∀ c, c ∈ R → is_Some (ctxs s0 !! c)) → Forall (usable s0) l →
  ∃ s', uinet_pd_ref_release (pd_ctx <$> l) s = Ok (tt, s') ∧ released_from s0 (R ++ omap pd_ctx l) s'.
Proof.
  intros HR Hin Hl. assert (Forall (usable s) l) as Hs by (eapply Forall_impl; [exact Hl | intros; by eapply released_usable]).
  pose proof (ref_release_spec s (omap pd_ctx l) (fun c => usable_released s l c Hs)) as Hr.
  rewrite <- (usable_ctxs s l Hs) in Hr. apply returns_inv in Hr as ([[] s'] & E & Hf). exists s'. split; [done |].
  unfold released_from. rewrite release_ref_app by done. pose proof HR as ((A1 & A2 & _) & _). cbn in A1, A2.
  rewrite A1, A2 in Hf. exact (freed_seq _ _ _ _ _ _ _ HR Hf).
Qed.

(** ** The slots the thread has not given back *)

(** A thread that has got [h] slots ahead of [take] sees the queue without its first
    [h] elements. *)
Lemma ring_skip r h :
  ring_ok r → 0 <= h <= ring_used r →
  let r' := ring_set_take ((r_take r + h) mod r_num_descs r) r in
  ring_ok r' ∧ ring_used r' = ring_used r - h ∧ ring_queue r' = drop (Z.to_nat h) (ring_queue r).
Proof.
  intros [(Hn & Hp & Ht) Hlen] Hh r'. pose proof (ring_used_bound r (conj Hn (conj Hp Ht))) as Hu.
  assert (ring_used r' = ring_used r - h) as Eu.
  { unfold ring_used, r'. cbn. rewrite Zminus_mod_idemp_r.
    replace (r_put r - (r_take r + h)) with (r_put r - r_take r - h) by lia.
    rewrite <- Zminus_mod_idemp_l. fold (ring_used r). apply Z.mod_small. lia. }
  split; [split; [| done] |].
  { split; [done |]. split; [done |]. cbn. apply Z.mod_pos_bound. lia. }
  split; [done |]. unfold ring_queue. rewrite Eu, <- fmap_drop, drop_seq, Nat.add_0_l.
  replace (Z.to_nat (ring_used r) - Z.to_nat h)%nat with (Z.to_nat (ring_used r - h)) by lia.
  rewrite <- (Nat.add_0_r (Z.to_nat h)) at 1. rewrite <- fmap_add_seq, <- list_fmap_compose.
  apply list_fmap_ext. intros j i Hj. unfold compose. do 2 f_equal. unfold slot, r'. cbn. f_equal.
  rewrite Zplus_mod_idemp_l. f_equal. lia.
Qed.

Lemma ring_put_used r : ring_wf r → r_put r = (r_take r + ring_used r) mod r_num_descs r.
Proof.
  intros (Hn & Hp & Ht). unfold ring_used. rewrite Zplus_mod_idemp_r.
  replace (r_take r + (r_put r - r_take r)) with (r_put r) by lia. symmetry. by apply Z.mod_small.
Qed.

(** ** The simulation *)

Section Queue.

Context (rte_eth_tx_burst : list Z → Z).
Hypothesis tx_burst_range : ∀ l, 0 <= rte_eth_tx_burst l <= Z.of_nat (length l).

(** The device [d] with the thread's index [cur] is in the abstract state [a]; [s0] is
    the store at the beginning. *)
Record rep (n : Z) (thr : bool) (s0 : store) (a : txq) (d : dpdk) (cur : Z) : Prop := {
  rp_ring : ring_ok (tx_inject_ring d);
  rp_num : r_num_descs (tx_inject_ring d) = n;
  rp_thr : tx_use_thread d = thr;
  rp_dis : d_tx_disabled d = false;
  rp_held : 0 <= held a <= ring_used (tx_inject_ring d);
  rp_cur : if thr then cur = (r_take (tx_inject_ring d) + held a) mod n else held a = 0;
  rp_waiting : waiting a = drop (Z.to_nat (held a)) (ring_queue (tx_inject_ring d));
  rp_usable : Forall (usable s0) (waiting a);
  rp_refused : r_drops (tx_inject_ring d) = refused a;
  rp_kicks : thr = true → tx_pkts_to_send d = kicks a;
  rp_wire : concat (bursts d) = wire a;
  rp_counts : if_oerrors (ifs d) + if_opackets (ifs d) = accounted a;
  rp_live : ∀ c, c ∈ released a → is_Some (ctxs s0 !! c);
  rp_store : released_from s0 (released a) (pds d)
}.

Lemma rep_length n thr s0 a d cur :
  rep n thr s0 a d cur → Z.of_nat (length (waiting a)) = ring_used (tx_inject_ring d) - held a.
Proof.
  intros []. rewrite rp_waiting0, length_drop. pose proof (ring_queue_length _ (proj1 rp_ring0)). lia.
Qed.

Lemma rep_seen n thr s0 a d cur :
  rep n thr s0 a d cur →
  ring_ok (seen_ring d cur) ∧ ring_queue (seen_ring d cur) = waiting a ∧
  ring_used (seen_ring d cur) = Z.of_nat (length (waiting a)).
Proof.
  intros H. rewrite (rep_length _ _ _ _ _ _ H). destruct H. unfold seen_ring. rewrite rp_thr0. destruct thr.
  - destruct (ring_skip (tx_inject_ring d) (held a) rp_ring0 rp_held0) as (H1 & H2 & H3).
    rewrite rp_num0, <- rp_cur0 in *. by rewrite rp_waiting0.
  - rewrite rp_cur0 in *. rewrite rp_waiting0. split_and!; [done | done | lia].
Qed.

Lemma usable_live s0 l c : Forall (usable s0) l → c ∈ omap pd_ctx l → is_Some (ctxs s0 !! c).
Proof. intros Hl Hc. destruct (usable_released s0 l c Hl Hc) as [(x & i & b & info & H1 & _) _]. by exists x. Qed.

(** The descriptors of a call can be read, and those offered can be used. *)
Definition list_ok (s0 : store) (pl : uinet_pd_list) : Prop :=
  0 <= num_descs pl <= Z.of_nat (length (descs pl)) ∧ Forall (usable s0) (offered pl).

Lemma offered_length pl : 0 <= num_descs pl → Z.of_nat (length (offered pl)) <= num_descs pl.
Proof.
  intros H. unfold offered. pose proof (List.filter_length_le injected (take (Z.to_nat (num_descs pl)) (descs pl))) as Hle.
  rewrite length_take in Hle. lia.
Qed.

Lemma filled_fields arr ncur drops d (d' := ring_filled arr ncur drops d) :
  tx_use_thread d' = tx_use_thread d ∧ d_tx_disabled d' = d_tx_disabled d ∧ bursts d' = bursts d ∧
  ifs d' = ifs d ∧ pds d' = pds d.
Proof. unfold d', ring_filled. by destruct (tx_use_thread d) eqn:E. Qed.

Lemma sim_inject n thr s0 a d cur pl :
  rep n thr s0 a d cur → list_ok s0 pl →
  0 <= refused a → refused a + num_descs pl < 2 ^ 31 → 0 <= kicks a < 2 ^ 31 - 1 →
  ∃ d', run_op rte_eth_tx_burst (Inject pl) (d, cur) = Ok (d', cur) ∧ rep n thr s0 (spec_op n thr a (Inject pl)) d' cur.
Proof.
  intros H [Hlen Hus] Href Hsum Hk. pose proof (rep_length _ _ _ _ _ _ H) as Hw. destruct H.
  assert (live_descs pl = Ok (take (Z.to_nat (num_descs pl)) (descs pl))) as El
    by (unfold live_descs; by rewrite (proj2 (Z.leb_le _ _)) by lia).
  pose proof (offered_length pl (proj1 Hlen)) as Hoff.
  destruct (inject_run pl _ d El) as (arr & ncur & Hok & Hq & Erun); [rewrite length_take; lia | done | done |].
  fold (offered pl) in Hq, Erun. rewrite (ring_space_eq _ (proj1 rp_ring0)) in Hq, Erun.
  replace (r_num_descs (tx_inject_ring d) - 1 - ring_used (tx_inject_ring d))
    with (n - 1 - held a - Z.of_nat (length (waiting a))) in Hq, Erun by lia.
  cbn [spec_op]. set (k := Z.to_nat (n - 1 - held a - Z.of_nat (length (waiting a)))) in *.
  assert (Forall (usable s0) (drop k (offered pl))) as Hd by (by apply Forall_drop).
  assert (Forall (usable s0) (take k (offered pl))) as Ht by (by apply Forall_take).
  destruct (release_more s0 (released a) (pds d) (drop k (offered pl)) rp_store0 rp_live0 Hd) as (s' & Es & Hs').
  set (drops := u32 (r_drops (tx_inject_ring d) + Z.of_nat (length (drop k (offered pl))))) in *.
  assert (drops = refused a + Z.of_nat (length (drop k (offered pl)))) as Edr.
  { unfold drops. rewrite rp_refused0, wrap_u_id; [done |]. rewrite length_drop. lia. }
  destruct (filled_fields arr ncur drops d) as (F1 & F2 & F3 & F4 & F5).
  exists (set_pds s' (ring_filled arr ncur drops d)). split.
  { cbn [run_op fst snd]. unfold uinet_if_inject_tx_packets. rewrite Erun. unfold mbind at 2, M_bind, on_pds.
    by rewrite F5, Es. }
  assert (tx_inject_ring (set_pds s' (ring_filled arr ncur drops d)) =
    {| r_num_descs := r_num_descs (tx_inject_ring d); r_put := ncur; r_take := r_take (tx_inject_ring d);
       r_drops := drops; r_descs := arr |}) as Er by (unfold ring_filled; by destruct (tx_use_thread d)).
  pose proof (ring_queue_length _ (proj1 rp_ring0)) as HL0. pose proof (ring_queue_length _ (proj1 Hok)) as HL.
  rewrite Hq, length_app in HL.
  split; rewrite ?Er; cbn [waiting held refused kicks wire released accounted]; try done.
  - by rewrite <- rp_thr0.
  - by rewrite <- rp_dis0.
  - change (ring_used _) with (ring_used (ring_with (tx_inject_ring d) ncur arr)). lia.
  - change (ring_queue _) with (ring_queue (ring_with (tx_inject_ring d) ncur arr)).
    rewrite Hq, drop_app_le by lia. by rewrite rp_waiting0.
  - by apply Forall_app.
  - intros ->. unfold ring_filled. rewrite rp_thr0. cbn. rewrite rp_kicks0 by done. apply wrap_s_id; lia.
  - by rewrite <- rp_wire0, <- F3.
  - by rewrite <- rp_counts0, <- F4.
  - intros c [Hc | Hc]%elem_of_app; [by apply rp_live0 | exact (usable_live _ _ _ Hd Hc)].
Qed.

(** The ring after a round: the thread keeps what it has sent for now. *)
Lemma sent_ring (thr : bool) n r q :
  ring_ok r → r_num_descs r = n → ring_queue r = q → ring_used r = Z.of_nat (length q) →
  let r2 := if thr then r else ring_set_take (r_put r) r in
  let h := if thr then Z.of_nat (length q) else 0 in
  ring_ok r2 ∧ ring_used r2 = h ∧ drop (Z.to_nat h) (ring_queue r2) = [] ∧ r_num_descs r2 = n.
Proof.
  intros Hok Hnr Hq Hu r2 h. unfold r2, h. destruct thr.
  - split_and!; [done | done | | done]. rewrite Hq. apply drop_ge. lia.
  - destruct (ring_skip r (ring_used r) Hok) as (S1 & S2 & S3); [pose proof (ring_used_bound r (proj1 Hok)); lia |].
    rewrite <- (ring_put_used r (proj1 Hok)) in S1, S2, S3. split_and!; [done | lia | | done].
    rewrite drop_0, S3, Hq. apply drop_ge. lia.
Qed.

(** The device after a round. *)
Lemma given_back_fields d c bs v s' (r := seen_ring d c) (d' := given_back d (r_put r) (settled d c bs v s')) :
  tx_inject_ring d' = ring_clear_drops (if tx_use_thread d then r else ring_set_take (r_put r) r) ∧
  pds d' = s' ∧ bursts d' = bursts d ++ bs ∧ tx_use_thread d' = tx_use_thread d ∧ d_tx_disabled d' = d_tx_disabled d ∧
  tx_pkts_to_send d' = (if tx_use_thread d then 0 else tx_pkts_to_send d) ∧
  ifs d' = count_tx (inject_drops v) (n_copy v) (total_bytes v) (ifs d).
Proof. unfold d', given_back, r, settled, claimed. by destruct (tx_use_thread d) eqn:E. Qed.

Lemma sim_send n thr s0 a d cur :
  rep n thr s0 a d cur → (thr = true → kicks a ≠ 0) → 0 <= refused a < 2 ^ 31 →
  ∃ d' cur', run_op rte_eth_tx_burst Send (d, cur) = Ok (d', cur') ∧ rep n thr s0 (spec_op n thr a Send) d' cur'.
Proof.
  intros H Hk Href. destruct (rep_seen _ _ _ _ _ _ H) as (Hok & Hq & Hu).
  pose proof (rep_length _ _ _ _ _ _ H) as Hw. destruct H.
  pose proof (ring_used_bound _ (proj1 rp_ring0)) as Hub. pose proof (proj1 (proj1 rp_ring0)) as Hn.
  destruct (release_more s0 (released a) (pds d) (waiting a) rp_store0 rp_live0 rp_usable0) as (s' & Es & Hs').
  set (c := if thr then cur else 0).
  assert (seen_ring d c = seen_ring d cur) as Ec by (unfold seen_ring, c; rewrite rp_thr0; by destruct thr).
  rewrite <- Ec in Hok, Hq, Hu.
  destruct (process_sends rte_eth_tx_burst tx_burst_range d c false (waiting a) s')
    as (v & bs & E & C & F & Nc & Cn); try done.
  { eapply Forall_impl; [exact rp_usable0 |]. intros pd Hpd. by apply (released_usable _ _ _ _ rp_store0) in Hpd as []. }
  { rewrite rp_thr0. intros Ht. rewrite (rp_kicks0 Ht). by apply Hk. }
  { lia. }
  { lia. }
  set (r := seen_ring d c) in *. set (d' := given_back d (r_put r) (settled d c bs v s')) in *.
  pose proof (count_tx_sum (inject_drops v) (n_copy v) (total_bytes v) (ifs d) Nc) as Hs. unfold counted_tx in Cn.
  destruct (given_back_fields d c bs v s') as (Er & E1 & E2 & E3 & E4 & E5 & E6).
  fold r d' in Er, E1, E2, E3, E4, E5, E6. rewrite rp_thr0 in Er, E3, E5.
  assert (r_num_descs r = n) as Hnr by (unfold r, seen_ring; by destruct (tx_use_thread d)).
  destruct (sent_ring thr n r (waiting a) Hok Hnr Hq Hu) as (R1 & R2 & R3 & R4).
  set (r2 := if thr then r else ring_set_take (r_put r) r) in *. set (h := if thr then Z.of_nat (length (waiting a)) else 0) in *.
  exists d', (if thr then r_put r else cur). split.
  { cbn [run_op fst snd]. rewrite rp_thr0. destruct thr; [unfold c in E; by rewrite E, rp_thr0 |].
    unfold uinet_if_batch_tx, if_dpdk_batch_send. erewrite M_bind_Ok by reflexivity. erewrite M_bind_Ok by reflexivity.
    rewrite rp_dis0, rp_thr0. cbn [negb andb]. rewrite <- M_bind_assoc. erewrite M_bind_Ok by exact E.
    by erewrite M_bind_Ok by reflexivity. }
  split; cbn [spec_op waiting held refused kicks wire released accounted]; rewrite ?Er.
  - done.
  - done.
  - done.
  - by rewrite E4.
  - fold h. change (ring_used (ring_clear_drops r2)) with (ring_used r2). unfold h in *. destruct thr; lia.
  - fold h. unfold h, r2 in *. destruct thr; [| done]. cbn. rewrite <- R2, <- R4. by apply ring_put_used, Hok.
  - fold h. by change (ring_queue (ring_clear_drops r2)) with (ring_queue r2).
  - done.
  - done.
  - intros ->. by rewrite E5.
  - by rewrite E2, concat_app, rp_wire0, C.
  - rewrite E6. lia.
  - intros x [Hx | Hx]%elem_of_app; [by apply rp_live0 | exact (usable_live _ _ _ rp_usable0 Hx)].
  - by rewrite E1.
Qed.

(** ** Sequences of calls *)

(** The thread only looks when it was told of packets. *)
Fixpoint timed (thr : bool) (k : Z) (ops : list op) : bool :=
  match ops with
  | [] => true
  | Inject _ :: t => timed thr (if thr then k + 1 else k) t
  | Send :: t => negb (thr && (k =? 0)) && timed thr (if thr then 0 else k) t
  end.

Definition op_ok (s0 : store) (o : op) : Prop := match o with Inject pl => list_ok s0 pl | Send => True end.

(** The descriptors of the calls, counted, and those offered. *)
Definition descs_in (ops : list op) : Z :=
  foldr Z.add 0 ((fun o => match o with Inject pl => num_descs pl | Send => 0 end) <$> ops).
Definition all_offered (ops : list op) : list uinet_pd :=
  concat ((fun o => match o with Inject pl => offered pl | Send => [] end) <$> ops).

Lemma sim_ops n thr s0 ops : ∀ a d cur,
  rep n thr s0 a d cur → Forall (op_ok s0) ops →
  0 <= refused a → refused a + descs_in ops < 2 ^ 31 → 0 <= kicks a → kicks a + Z.of_nat (length ops) < 2 ^ 31 →
  timed thr (kicks a) ops = true →
  ∃ d' cur', run_ops rte_eth_tx_burst ops (d, cur) = Ok (d', cur') ∧ rep n thr s0 (spec_ops n thr ops a) d' cur'.
Proof.
  induction ops as [| o ops IH]; intros a d cur Hrep Hok Hr0 Hr Hk0 Hk Ht; [by exists d, cur |].
  apply Forall_cons in Hok as [Ho Hok]. unfold descs_in in Hr. cbn [fmap list_fmap foldr length timed] in *.
  fold (descs_in ops) in Hr. assert (0 <= descs_in ops) as Hnn.
  { unfold descs_in. clear -Hok. induction Hok as [| [pl |] ops H _ IH]; cbn; [lia | destruct H; lia | lia]. }
  destruct o as [pl |]; cbn [run_ops].
  - destruct (sim_inject n thr s0 a d cur pl Hrep Ho) as (d' & E & Hrep'); [lia.. |]. rewrite E. cbn [mbind result_bind].
    destruct Ho as [Hlen _]. assert (Z.of_nat (length (offered pl)) <= num_descs pl) as Hoff by (by apply offered_length, Hlen).
    apply IH; [done | done | | | | | done]; cbn [spec_op refused kicks]; rewrite ?length_drop; destruct thr; lia.
  - apply andb_prop in Ht as [Ht1 Ht].
    destruct (sim_send n thr s0 a d cur Hrep) as (d' & cur' & E & Hrep'); [by intros ->; apply negb_true_iff, Z.eqb_neq in Ht1 | lia |].
    rewrite E. cbn [mbind result_bind]. apply IH; [done | done | | | | | done]; cbn [spec_op refused kicks]; destruct thr; lia.
Qed.

(** Every context is released once, or its descriptor waits. *)
Lemma spec_conserves n thr ops : ∀ a,
  released (spec_ops n thr ops a) ++ omap pd_ctx (waiting (spec_ops n thr ops a)) ≡ₚ
  released a ++ omap pd_ctx (waiting a) ++ omap pd_ctx (all_offered ops).
Proof.
  induction ops as [| o ops IH]; intros a; [by rewrite app_nil_r |].
  change (spec_ops n thr (o :: ops) a) with (spec_ops n thr ops (spec_op n thr a o)). rewrite IH.
  destruct o as [pl |]; cbn [spec_op released waiting].
  - unfold all_offered. cbn [fmap list_fmap concat]. fold (all_offered ops).
    rewrite !omap_app. set (k := Z.to_nat _). rewrite <- (take_drop k (offered pl)) at 3. rewrite omap_app. solve_Permutation.
  - change (all_offered (Send :: ops)) with (all_offered ops). cbn. by rewrite app_assoc.
Qed.

(** A device with an empty ring of [n] slots that has sent nothing. *)
Definition fresh (n : Z) (thr : bool) (d : dpdk) : Prop :=
  ring_ok (tx_inject_ring d) ∧ r_num_descs (tx_inject_ring d) = n ∧ tx_use_thread d = thr ∧
  d_tx_disabled d = false ∧ r_take (tx_inject_ring d) = 0 ∧ r_put (tx_inject_ring d) = 0 ∧
  r_drops (tx_inject_ring d) = 0 ∧ tx_pkts_to_send d = 0 ∧ bursts d = [] ∧
  if_oerrors (ifs d) + if_opackets (ifs d) = 0.

Definition empty_txq : txq := mk_txq [] 0 0 0 [] [] 0.

Lemma fresh_rep n thr d : fresh n thr d → rep n thr (pds d) empty_txq d 0.
Proof.
  intros (Hok & Hn & Ht & Hd & H1 & H2 & H3 & H4 & H5 & H6). pose proof Hok as [(Hn0 & _) _].
  split; cbn [empty_txq waiting held refused kicks wire released accounted]; try done.
  - pose proof (ring_used_bound _ (proj1 Hok)). lia.
  - destruct thr; [| done]. rewrite H1. symmetry. apply Z.mod_0_l. lia.
  - rewrite ring_queue_empty; [done | lia | congruence].
  - by rewrite H5.
  - by intros c ?%not_elem_of_nil.
  - unfold released_from. cbn. rewrite set_cells_same. split; [done |]. split; [done |]. exists [].
    split_and!; [by rewrite app_nil_r | done | done].
Qed.

(** [C10] Injected packets from the API to the NIC, for every sequence of calls that inject
    lists of descriptors and of rounds that send, by a transmit thread or without
    one.  The driver behaves as a bounded queue: a list is taken in order as far as
    there is space, of which the slots a thread has sent but not given back do not
    count; a round offers all that wait to the NIC, in order, each once; every packet
    is counted as sent or as an error.  Each descriptor offered has its reference
    released exactly once, when it is refused or after it was sent, and until then
    waits in the ring; contexts whose last reference this was are freed, no others. *)
Theorem injected_packets_reach_nic (n : Z) (thr : bool) (d : dpdk) (ops : list op) :
  fresh n thr d → Forall (op_ok (pds d)) ops → descs_in ops < 2 ^ 31 → Z.of_nat (length ops) < 2 ^ 31 →
  timed thr 0 ops = true →
  let a := spec_ops n thr ops empty_txq in
  ∃ d' cur', run_ops rte_eth_tx_burst ops (d, 0) = Ok (d', cur') ∧
    ring_queue (seen_ring d' cur') = waiting a ∧ r_drops (tx_inject_ring d') = refused a ∧
    concat (bursts d') = wire a ∧ if_oerrors (ifs d') + if_opackets (ifs d') = accounted a ∧
    released_from (pds d) (released a) (pds d') ∧
    released a ++ omap pd_ctx (waiting a) ≡ₚ omap pd_ctx (all_offered ops).
Proof.
  intros Hf Hok Hd Hl Ht a.
  destruct (sim_ops n thr (pds d) ops empty_txq d 0 (fresh_rep n thr d Hf) Hok) as (d' & cur' & E & Hrep); [done.. |].
  exists d', cur'. split; [done |]. destruct (rep_seen _ _ _ _ _ _ Hrep) as (_ & Hq & _). destruct Hrep.
  split_and!; try done. apply (spec_conserves n thr ops empty_txq).
Qed.

End Queue.

(** ** Witness *)

(** A ring of four slots with a transmit thread; two packets are injected and sent, and
    two more injected before the slots are given back, of which one finds space. *)
Definition ex_empty : dpdk :=
  mk_dpdk false true 0 {| r_num_descs := 4; r_put := 0; r_take := 0; r_drops := 0; r_descs := replicate 4 null_pd |}
    (mk_ifstats 0 0 0 0 0 0) ex_store ∅ [] [] [].
Definition ex_list (l : list nat) : uinet_pd_list := {| num_descs := Z.of_nat (length l); descs := ex_tx <$> l |}.
Definition ex_ops : list op := [Inject (ex_list [1; 3]%nat); Send; Inject (ex_list [4; 2]%nat); Send].

Lemma ex_usable l : Forall (fun c => c ∈ [1; 2; 3; 4]%nat) l → Forall (usable ex_store) (ex_tx <$> l).
Proof.
  intros Hl. apply Forall_fmap. eapply Forall_impl; [exact Hl |]. intros c Hc. unfold compose. rewrite !elem_of_cons in Hc.
  destruct Hc as [-> | [-> | [-> | [-> | []%not_elem_of_nil]]]];
    (split; [split; [reflexivity |]; do 4 eexists; split_and!; reflexivity |];
     eexists; split; [reflexivity |]; split;
       [do 4 eexists; split_and!; try reflexivity; vm_compute; congruence | eexists; split; [reflexivity | by eexists]]).
Qed.

Lemma ex_ops_ok : Forall (op_ok ex_store) ex_ops.
Proof.
  unfold ex_ops. rewrite !Forall_cons, Forall_nil. split_and!; try exact I; (split; [vm_compute; split; congruence |]).
  - apply (ex_usable [1; 3]%nat). rewrite !Forall_cons. set_solver.
  - apply (ex_usable [4; 2]%nat). rewrite !Forall_cons. set_solver.
Qed.

Lemma injected_packets_reach_nic_witness : ∃ d' cur',
  run_ops (fun l => Z.of_nat (length l)) ex_ops (ex_empty, 0) = Ok (d', cur') ∧
  concat (bursts d') = [0x9001; 0x9003; 0x9004] ∧ ring_queue (seen_ring d' cur') = [].
Proof.
  destruct (injected_packets_reach_nic (fun l => Z.of_nat (length l)) ltac:(intros; lia) 4 true ex_empty ex_ops)
    as (d' & cur' & E & Hq & _ & Hw & _).
  - split_and!; try reflexivity. split; [split_and!; vm_compute; congruence | reflexivity].
  - exact ex_ops_ok.
  - vm_compute. reflexivity.
  - vm_compute. reflexivity.
  - reflexivity.
  - exists d', cur'. split; [exact E |]. split; [rewrite Hw; vm_compute; reflexivity | rewrite Hq; vm_compute; reflexivity].
Defined.

End DpdkQueue.
