(* ===== verification/DpdkRx.v ===== *)
(** Reception in the DPDK driver: [dh_recv_pkts] (dpdk_helper.c),
    [if_dpdk_getpacket] (uinet_if_dpdk_host.c), [if_dpdk_batch_receive] and the
    free routine of the received buffers (uinet_if_dpdk.c), with [m_extadd] of the
    kernel (src/src/sys/kern/uipc_mbuf.c).  The NIC's receive burst and the
    interface's input routine are parameters. *)
From S2P Require Import Prelude Errno PktDesc PktDescSpec PktDescPool Dpdk.
Import PktDesc PktDescSpec PktDescPool.

Module DpdkRx.

(** ** Data *)

(** A [struct rte_mbuf] received by the NIC, at address [r_base]; its reference
    counter is the cell [r_refcnt]. *)
Record rx_rte : Type := mk_rx_rte {
  r_base : nat; r_buf_addr : Z; r_data_off : Z; r_data_len : Z; r_buf_len : Z; r_refcnt : nat
}.

(** The fields of [dh_rte_mbuf_desc] that [dh_recv_pkts] fills in. *)
Record dh_rte_mbuf_desc : Type := mk_dh {
  rm_base : nat; rm_data : Z; dh_data_len : Z; dh_buf_len : Z; dh_ref_cnt : nat
}.

(** The receive side of the softc, the interface and the packet descriptors. *)
Record rxdev : Type := mk_rxdev {
  x_rx_disabled : bool; rx_batch_size : Z; rx_packet_waiting : Z; rx_pds : uinet_pd_list;
  rx_fd : Z; uif_ifp : nat; timestamp_mode : timestamp_mode_t;
  timestamp_counter : Z; global_timestamp_counter : Z; ipackets : Z; x_store : store
}.

Abbreviation R := (M rxdev).

Definition set_waiting (v : Z) (d : rxdev) : rxdev :=
  mk_rxdev (x_rx_disabled d) (rx_batch_size d) v (rx_pds d) (rx_fd d) (uif_ifp d) (timestamp_mode d)
    (timestamp_counter d) (global_timestamp_counter d) (ipackets d) (x_store d).
Definition set_rx_pds (v : uinet_pd_list) (d : rxdev) : rxdev :=
  mk_rxdev (x_rx_disabled d) (rx_batch_size d) (rx_packet_waiting d) v (rx_fd d) (uif_ifp d)
    (timestamp_mode d) (timestamp_counter d) (global_timestamp_counter d) (ipackets d) (x_store d).
Definition set_counters (c g : Z) (d : rxdev) : rxdev :=
  mk_rxdev (x_rx_disabled d) (rx_batch_size d) (rx_packet_waiting d) (rx_pds d) (rx_fd d) (uif_ifp d)
    (timestamp_mode d) c g (ipackets d) (x_store d).
Definition set_ipackets (v : Z) (d : rxdev) : rxdev :=
  mk_rxdev (x_rx_disabled d) (rx_batch_size d) (rx_packet_waiting d) (rx_pds d) (rx_fd d) (uif_ifp d)
    (timestamp_mode d) (timestamp_counter d) (global_timestamp_counter d) v (x_store d).
Definition set_store (v : store) (d : rxdev) : rxdev :=
  mk_rxdev (x_rx_disabled d) (rx_batch_size d) (rx_packet_waiting d) (rx_pds d) (rx_fd d) (uif_ifp d)
    (timestamp_mode d) (timestamp_counter d) (global_timestamp_counter d) (ipackets d) v.

(** Code that works on the packet descriptors. *)
Definition on_store {A} (p : P A) : R A := fun d =>
  match p (x_store d) with Ok (a, s) => Ok (a, set_store s d) | Fault f => Fault f end.

(** ** The NIC *)

(** [mbufs] is what [rte_eth_rx_burst(port, 0, mbufs, MAX_BURST_SIZE)] received. *)
Definition dh_recv_pkts (mbufs : list rx_rte) : list dh_rte_mbuf_desc :=
  (fun mb => mk_dh (r_base mb) (r_buf_addr mb + r_data_off mb) (r_data_len mb) (r_buf_len mb)
               (r_refcnt mb)) <$> mbufs.

(** The second result is [*wait_ns]. *)
Definition if_dpdk_getpacket (mbufs : list rx_rte) : list dh_rte_mbuf_desc * Z :=
  (dh_recv_pkts mbufs, 0).

(** ** Buffers *)

(** [m_extadd] with type [EXT_EXTREF], whose reference counter the caller has set. *)
Definition m_extadd (i : nat) (buf : Z) (freef : ext_free_fn) (arg1 arg2 : option nat) (flags : Z)
    : P unit :=
  '(_, b) ← mbuf_load (Some i);
  _ ← cell_store (ext_ref_cnt b) 1;
  mbuf_store i {| m_next := m_next b; m_nextpkt := m_nextpkt b; m_data := buf; m_len := m_len b;
    m_flags := Z.lor (m_flags b) (Z.lor M_EXT flags); m_type := m_type b;
    m_pkthdr_len := m_pkthdr_len b; m_rcvif := m_rcvif b; m_tags := m_tags b;
    ext_buf := buf; ext_type := EXT_EXTREF; ext_free := Some freef;
    ext_arg1 := arg1; ext_arg2 := arg2; ext_ref_cnt := ext_ref_cnt b |}.

(** [m->m_ext.ref_cnt = r]. *)
Definition set_ref_cnt (r : nat) (b : mbuf) : mbuf :=
  {| m_next := m_next b; m_nextpkt := m_nextpkt b; m_data := m_data b; m_len := m_len b;
     m_flags := m_flags b; m_type := m_type b; m_pkthdr_len := m_pkthdr_len b;
     m_rcvif := m_rcvif b; m_tags := m_tags b; ext_buf := ext_buf b; ext_type := ext_type b;
     ext_free := ext_free b; ext_arg1 := ext_arg1 b; ext_arg2 := ext_arg2 b; ext_ref_cnt := r |}.

(** The free routine of a received buffer: the DPDK mbuf goes back to the pool of
    free ones, [freed], and the context to its zone. *)
Definition if_dpdk_free_rte_buf (base ctx : nat) (freed : list nat) : P (list nat) :=
  _ ← uinet_pd_mbuf_free_descs [ctx]; mret (base :: freed).

(** ** The batch *)

(** One packet is attached to a descriptor. [timestamp] is a local variable that
    [if_dpdk_getpacket] does not assign. *)
Definition rx_one (mode : timestamp_mode_t) (timestamp : Z) (pd : uinet_pd) (d : dh_rte_mbuf_desc)
    : P uinet_pd :=
  '(c, x) ← ctx_load (pd_ctx pd);
  _ ← match mode with
      | UINET_IF_TIMESTAMP_HW => ctx_store c (set_timestamp timestamp x)
      | _ => mret ()
      end;
  '(i, b) ← mbuf_load (c_m x);
  _ ← mbuf_store i (set_ref_cnt (dh_ref_cnt d) b);
  _ ← m_extadd i (rm_data d) DpdkFreeRteBuf (Some (rm_base d)) (Some c) 0;
  mret {| pd_flags := Z.lor (pd_flags pd) UINET_PD_TO_STACK; pd_length := u16 (dh_data_len d);
          pd_pool_id := pd_pool_id pd; pd_ref := pd_ref pd; pd_data := pd_data pd;
          pd_ctx := pd_ctx pd; pd_serialno := pd_serialno pd |}.

(** The loop over the free descriptors [l] and the packets [ds]: the descriptors
    as it leaves them, [i], and whether a packet has to wait. *)
Fixpoint rx_loop (mode : timestamp_mode_t) (timestamp wait_ns : Z) (l : list uinet_pd)
    (ds : list dh_rte_mbuf_desc) : P (list uinet_pd * Z * bool) :=
  match l, ds with
  | pd :: l', d :: ds' =>
      pd' ← rx_one mode timestamp pd d;
      if 0 <? wait_ns then mret (pd' :: l', 0, true)
      else
        '(l'', i, w) ← rx_loop mode timestamp wait_ns l' ds';
        mret (pd' :: l'', i + 1, w)
  | _, _ => mret (l, 0, false)
  end.

(** The remaining descriptors move to the front. *)
Definition rx_shift (used to_move : Z) (l : uinet_pd_list) : uinet_pd_list :=
  {| num_descs := u32 (num_descs l - used);
     descs := if negb (to_move =? 0)
              then take (Z.to_nat to_move) (drop (Z.to_nat used) (descs l)) ++
                   drop (Z.to_nat to_move) (descs l)
              else descs l |}.

Section Receive.

(** The interface's input routine, its handlers, the error of [m_pkthdr_init], the
    clock, and the values of the variables [i] and [timestamp], which are read
    without having been assigned. *)
Context (if_input : nat → nat → P unit) (batch_event : option (Z → P unit))
  (first_look : option (uinet_pd_list → P uinet_pd_list))
  (pkthdr_error clock_ns i0 timestamp0 : Z).

(** Timestamps, handlers and delivery of the descriptors. *)
Definition rx_deliver : R unit :=
  mode ← gets timestamp_mode; pkts ← gets rx_pds; ifp ← gets uif_ifp;
  tc ← gets timestamp_counter; gc ← gets global_timestamp_counter;
  '(tc, gc) ← on_store (uinet_if_pd_timestamp mode clock_ns tc gc pkts);
  _ ← modify (set_counters tc gc);
  _ ← match batch_event with Some f => on_store (f 0) | None => mret () end;
  pkts ← match first_look with Some f => on_store (f pkts) | None => mret pkts end;
  _ ← modify (set_rx_pds pkts);
  _ ← on_store (uinet_pd_deliver_to_stack if_input ifp pkts);
  match batch_event with Some f => on_store (f 1) | None => mret () end.

(** [mbufs] is what the NIC has received. The results are the return value, what
    is stored to [*fd], if anything, and [*wait_ns]. *)
Definition if_dpdk_batch_receive (mbufs : list rx_rte) : R (Z * option Z * Z) :=
  dis ← gets x_rx_disabled;
  if (dis : bool) then mret (0, Some (-1), 1000000000)
  else
    size ← gets rx_batch_size; pkts ← gets rx_pds;
    '(_, pkts) ← on_store (uinet_pd_mbuf_alloc_descs pkthdr_error pkts (u32 (size - num_descs pkts)));
    _ ← modify (set_rx_pds pkts);
    had ← gets rx_packet_waiting;
    _ ← modify (set_waiting 0);
    let max_rx := u32 (num_descs pkts - had) in
    match descs pkts !! Z.to_nat had with
    | None => faultM OutOfBounds
    | Some _ =>
        let '(ds, wait_ns) := if_dpdk_getpacket mbufs in
        let rv := Z.of_nat (length ds) in
        if rv <=? 0 then mret (b2z (i0 =? max_rx), None, wait_ns)
        else
          _ ← modify (fun d => set_ipackets (ipackets d + rv) d);
          mode ← gets timestamp_mode;
          '(l, i, w) ← on_store (rx_loop mode timestamp0 wait_ns
                         (take (Z.to_nat max_rx) (drop (Z.to_nat had) (descs pkts))) ds);
          _ ← modify (set_rx_pds {| num_descs := num_descs pkts;
                 descs := take (Z.to_nat had) (descs pkts) ++ l ++
                          drop (Z.to_nat had + Z.to_nat max_rx) (descs pkts) |});
          _ ← (if (w : bool) then modify (set_waiting 1) else mret ());
          let used := u32 (i + had) in
          _ ← (if negb (used =? 0) then
                 _ ← rx_deliver;
                 modify (fun d => set_rx_pds
                   (rx_shift used (u32 (num_descs pkts - used)) (rx_pds d)) d)
               else mret ());
          waiting ← gets rx_packet_waiting; fd ← gets rx_fd;
          mret (b2z (i =? max_rx),
                Some (if negb (waiting =? 0) || (i =? max_rx) then -1 else fd), wait_ns)
    end.

End Receive.

End DpdkRx.
