(* ===== verification/DpdkRxSpec.v ===== *)
(** Reception of a batch by the DPDK driver: which packets reach the stack, in which
    order and with which contents, and what is left for the next batch. *)
From S2P Require Import Prelude Errno PktDesc PktDescSpec PktDescPool Dpdk DpdkRx.
Import PktDesc PktDescSpec PktDescPool DpdkRx.

Module DpdkRxSpec.

(** ** Attaching packets *)

(** Context [ci.1] exists and has the mbuf [ci.2]. *)
Definition linked (s : store) (ci : nat * nat) : Prop :=
  (∃ x, ctxs s !! ci.1 = Some x ∧ c_m x = Some ci.2) ∧ is_Some (mbufs s !! ci.2).

(** A descriptor of context [ci.1] and mbuf [ci.2] that carries nothing yet. *)
Definition ready (s : store) (pd : uinet_pd) (ci : nat * nat) : Prop :=
  pd_ctx pd = Some ci.1 ∧ has_flag (pd_flags pd) UINET_PD_TO_STACK = false ∧ linked s ci.

(** The descriptor and the mbuf once packet [d] is attached. *)
Definition received (pd : uinet_pd) (d : dh_rte_mbuf_desc) : uinet_pd :=
  {| pd_flags := Z.lor (pd_flags pd) UINET_PD_TO_STACK; pd_length := u16 (dh_data_len d);
     pd_pool_id := pd_pool_id pd; pd_ref := pd_ref pd; pd_data := pd_data pd;
     pd_ctx := pd_ctx pd; pd_serialno := pd_serialno pd |}.

Definition attached (c : nat) (d : dh_rte_mbuf_desc) (b : mbuf) : mbuf :=
  {| m_next := m_next b; m_nextpkt := m_nextpkt b; m_data := rm_data d; m_len := m_len b;
     m_flags := Z.lor (m_flags b) (Z.lor M_EXT 0); m_type := m_type b;
     m_pkthdr_len := m_pkthdr_len b; m_rcvif := m_rcvif b; m_tags := m_tags b;
     ext_buf := rm_data d; ext_type := EXT_EXTREF; ext_free := Some DpdkFreeRteBuf;
     ext_arg1 := Some (rm_base d); ext_arg2 := Some c; ext_ref_cnt := dh_ref_cnt d |}.

Lemma rx_one_spec mode ts pd d s c i b :
  mode ≠ UINET_IF_TIMESTAMP_HW → ready s pd (c, i) → mbufs s !! i = Some b →
  rx_one mode ts pd d s =
    Ok (received pd d, set_mbufs (<[i := attached c d b]> (mbufs s))
                         (set_cells (<[dh_ref_cnt d := 1]> (cells s)) s)).
Proof.
  intros Hm (Hc & _ & (x & Hx & Hi) & _) Hb. cbn in *. unfold rx_one.
  erewrite M_bind_Ok by (unfold ctx_load; rewrite Hc, Hx; reflexivity). cbn beta iota.
  erewrite M_bind_Ok by (destruct mode; [done | done | reflexivity..]). cbn beta.
  erewrite M_bind_Ok by (unfold mbuf_load; rewrite Hi, Hb; reflexivity). cbn beta iota.
  erewrite M_bind_Ok by reflexivity. unfold m_extadd.
  unfold mbind, M_bind, mbuf_load. cbn. rewrite lookup_insert_eq. cbn.
  rewrite insert_insert_eq. done.
Qed.

(** A store in which no context has lost its mbuf. *)
Definition keeps_links (s s' : store) : Prop := ∀ ci, linked s ci → linked s' ci.

Lemma keeps_insert_mbuf s i b v :
  keeps_links s (set_mbufs (<[i := b]> (mbufs s)) (set_cells v s)).
Proof.
  intros [c j] [Hx Hm]. split; [exact Hx |]. cbn in *.
  destruct (decide (i = j)) as [-> | Hne]; [by rewrite lookup_insert_eq | by rewrite lookup_insert_ne].
Qed.

Lemma ready_keeps s s' l cis :
  keeps_links s s' → Forall2 (ready s) l cis → Forall2 (ready s') l cis.
Proof.
  intros Hk Hl. eapply Forall2_impl; [exact Hl |]. intros pd ci (H1 & H2 & H3). split_and!; auto.
Qed.

Lemma NoDup_take {A} (k : nat) (l : list A) : NoDup l → NoDup (take k l).
Proof. intros H. rewrite <- (take_drop k l) in H. by apply NoDup_app in H as [H _]. Qed.

(** The loop attaches the packets to the descriptors one to one, in order. *)
Lemma rx_loop_spec mode ts : mode ≠ UINET_IF_TIMESTAMP_HW → ∀ l ds cis s,
  Forall2 (ready s) l cis → NoDup cis.*2 →
  let k := (length l `min` length ds)%nat in
  ∃ s', rx_loop mode ts 0 l ds s =
          Ok ((zip_with received l ds ++ drop k l, Z.of_nat k, false), s') ∧
    ctxs s' = ctxs s ∧ if_inputs s' = if_inputs s ∧ keeps_links s s' ∧
    (∀ j, j ∉ take k cis.*2 → mbufs s' !! j = mbufs s !! j) ∧
    (∀ n c i d, cis !! n = Some (c, i) → ds !! n = Some d →
       ∃ b, mbufs s !! i = Some b ∧ mbufs s' !! i = Some (attached c d b)).
Proof.
  intros Hmode. induction l as [| pd l IH]; intros ds cis s Hl Hnd; cbn zeta.
  { apply Forall2_nil_inv_l in Hl as ->. exists s. split_and!; try done; by intros []. }
  destruct ds as [| d ds].
  { exists s. rewrite Nat.min_0_r, take_0, drop_0. split_and!; try done. by intros []. }
  apply Forall2_cons_inv_l in Hl as ([c i] & cis' & Hpd & Hl & ->).
  cbn [fmap list_fmap snd] in Hnd. apply NoDup_cons in Hnd as [Hi Hnd].
  pose proof Hpd as (_ & _ & _ & [b Hb]). cbn in Hb.
  cbn [rx_loop]. erewrite M_bind_Ok by (by eapply rx_one_spec). cbn beta.
  change (0 <? 0) with false. cbn iota. set (s1 := set_mbufs _ _).
  destruct (IH ds cis' s1) as (s' & E & H1 & H2 & H3 & H4 & H5);
    [by eapply ready_keeps, Hl; apply keeps_insert_mbuf | done |].
  erewrite M_bind_Ok by exact E. cbn beta iota. exists s'. cbn [length Nat.min zip_with drop app].
  split_and!.
  - unfold mret, M_ret. do 4 f_equal. lia.
  - done.
  - done.
  - intros ci Hci. apply H3, keeps_insert_mbuf, Hci.
  - cbn [fmap list_fmap snd take]. intros j [Hj1 Hj2]%not_elem_of_cons.
    rewrite H4 by done. cbn. by rewrite lookup_insert_ne.
  - intros [| n] c' i' d' Hn Hd; cbn in Hn, Hd.
    + simplify_eq. exists b. split; [done |]. rewrite H4; [cbn; by rewrite lookup_insert_eq |].
      intros Hin. by apply Hi, (subseteq_take _ _ _ Hin).
    + destruct (H5 n c' i' d' Hn Hd) as (b' & Hb' & Hs'). exists b'. split; [| done].
      cbn in Hb'. rewrite lookup_insert_ne in Hb'; [done |]. intros ->. apply Hi.
      apply list_elem_of_fmap. exists (c', i'). split; [done |]. by eapply list_elem_of_lookup_2.
Qed.

(** ** Delivery *)

Section Deliver.

Context (if_input : nat → nat → P unit).

(** The input routine gets the mbufs of the contexts [cis] one after the other.  It may do
    what it likes with the mbuf it is given and its context, and with all others, but for
    those that the driver still holds: the contexts and mbufs it will be given later. *)
Definition takes_over (ifp : nat) (cis : list (nat * nat)) : Prop :=
  ∀ j c i s, cis !! j = Some (c, i) → is_Some (mbufs s !! i) →
    ∃ s', if_input ifp i s = Ok (tt, s') ∧ if_inputs s' = if_inputs s ∧
      ∀ c' i', (c', i') ∈ drop (S j) cis → ctxs s' !! c' = ctxs s !! c' ∧ mbufs s' !! i' = mbufs s !! i'.

Lemma takes_over_tail ifp ci cis : takes_over ifp (ci :: cis) → takes_over ifp cis.
Proof. intros Hl j c i s Hj. exact (Hl (S j) c i s Hj). Qed.

Lemma deliver_none ifp l s :
  Forall (fun pd => has_flag (pd_flags pd) UINET_PD_TO_STACK = false) l →
  deliver_loop if_input ifp l s = Ok (tt, s).
Proof.
  induction 1 as [| pd l Hpd _ IH]; [done |]. cbn [deliver_loop]. rewrite Hpd.
  by erewrite M_bind_Ok by reflexivity.
Qed.

Definition to_deliver (s : store) (pd : uinet_pd) (ci : nat * nat) : Prop :=
  pd_ctx pd = Some ci.1 ∧ has_flag (pd_flags pd) UINET_PD_TO_STACK = true ∧ linked s ci.

Lemma keeps_to_stack s ifp len c x i b v :
  ctxs s !! c = Some x → mbufs s !! i = Some b →
  keeps_links s (set_if_inputs v (set_mbufs (<[i := to_stack_mbuf ifp len b]> (mbufs s))
                                    (set_ctxs (<[c := to_stack_ctx len x]> (ctxs s)) s))).
Proof.
  intros Hx Hb [c' i'] [(x' & Hx' & Hi') [b' Hb']]; cbn in *. split; cbn.
  - destruct (decide (c = c')) as [<- | Hne].
    + rewrite lookup_insert_eq. simplify_eq. eauto.
    + rewrite lookup_insert_ne by done. eauto.
  - destruct (decide (i = i')) as [<- | Hne]; [by rewrite lookup_insert_eq | by rewrite lookup_insert_ne].
Qed.

(** What is handed over for the descriptors [l], and what is left alone. *)
Lemma deliver_spec ifp rest tail : ∀ l cis s,
  takes_over ifp (cis ++ tail) → Forall2 (to_deliver s) l cis → NoDup (cis ++ tail).*2 →
  ∃ s' handed, deliver_loop if_input ifp (l ++ rest) s = deliver_loop if_input ifp rest s' ∧
    if_inputs s' = if_inputs s ++ handed ∧ length handed = length cis ∧
    (∀ ci, ci ∈ tail → linked s ci → linked s' ci) ∧
    (∀ n pd c i b, l !! n = Some pd → cis !! n = Some (c, i) → mbufs s !! i = Some b →
       handed !! n = Some (ifp, i, to_stack_mbuf ifp (pd_length pd) b)).
Proof.
  induction l as [| pd l IH]; intros cis s Hlaw Hl Hnd.
  { apply Forall2_nil_inv_l in Hl as ->. exists s, []. cbn. rewrite app_nil_r. split_and!; by try (intros []). }
  apply Forall2_cons_inv_l in Hl as ([c i] & cis' & (Hc & Hf & (x & Hx & Hxi) & [b Hb]) & Hl & ->).
  cbn in Hc, Hx, Hxi, Hb. cbn [app fmap list_fmap snd] in Hnd. apply NoDup_cons in Hnd as [Hi Hnd].
  set (len := pd_length pd).
  set (s1 := set_if_inputs (if_inputs s ++ [(ifp, i, to_stack_mbuf ifp len b)])
     (set_mbufs (<[i := to_stack_mbuf ifp len b]> (mbufs s))
        (set_ctxs (<[c := to_stack_ctx len x]> (ctxs s)) s))).
  pose proof (keeps_to_stack s ifp len c x i b (if_inputs s ++ [(ifp, i, to_stack_mbuf ifp len b)]) Hx Hb) as Hk. fold s1 in Hk.
  destruct (Hlaw 0%nat c i s1 eq_refl) as (s2 & E2 & I2 & L2).
  { cbn. rewrite lookup_insert_eq. eauto. }
  cbn [app drop] in L2. rewrite drop_0 in L2.
  assert (∀ ci, ci ∈ cis' ++ tail → linked s ci → linked s2 ci) as Hk2.
  { intros [c' i'] Hin Hci. destruct (L2 c' i' Hin) as [Ec Em]. destruct (Hk _ Hci) as [Hc' Hm']. split; cbn in *; [by rewrite Ec | by rewrite Em]. }
  assert (∀ c' i', (c', i') ∈ cis' ++ tail → mbufs s2 !! i' = mbufs s !! i') as Hm2.
  { intros c' i' Hin. destruct (L2 c' i' Hin) as [_ ->]. cbn. rewrite lookup_insert_ne; [done |]. intros ->. apply Hi.
    apply list_elem_of_fmap. by exists (c', i'). }
  assert (deliver_loop if_input ifp ((pd :: l) ++ rest) s = deliver_loop if_input ifp (l ++ rest) s2) as E.
  { cbn [app deliver_loop]. rewrite Hf. unfold mbind, M_bind, ctx_load. rewrite Hc, Hx. cbn.
    unfold mbuf_load. rewrite Hxi. cbn. rewrite Hb. cbn. fold len. fold s1. by rewrite E2. }
  destruct (IH cis' s2) as (s' & handed & E' & I' & Hlen & K' & D'); [by eapply takes_over_tail | | done |].
  { apply Forall2_same_length_lookup. split; [by eapply Forall2_length |]. intros j pd' ci Hj Hci.
    destruct (Forall2_lookup_lr _ _ _ _ _ _ Hl Hj Hci) as (H1 & H2 & H3). split_and!; [done.. |].
    apply Hk2; [| done]. apply elem_of_app. left. by eapply list_elem_of_lookup_2. }
  exists s', ((ifp, i, to_stack_mbuf ifp len b) :: handed). split_and!.
  - by rewrite E.
  - rewrite I', I2. cbn. by rewrite <- app_assoc.
  - cbn. by rewrite Hlen.
  - intros ci Hin Hci. apply K'; [done |]. apply Hk2; [| done]. apply elem_of_app. by right.
  - intros [| n] pd' c' i' b' Hn Hci Hb'; cbn in Hn, Hci; [by simplify_eq |]. cbn.
    apply (D' n pd' c' i' b' Hn Hci). rewrite (Hm2 c'); [done |]. apply elem_of_app. left. by eapply list_elem_of_lookup_2.
Qed.

(** ** The batch *)

Lemma received_flag pd d : has_flag (pd_flags (received pd d)) UINET_PD_TO_STACK = true.
Proof.
  unfold UINET_PD_TO_STACK. change 0x20 with (2 ^ 5). rewrite has_flag_pow2 by lia. cbn [received pd_flags].
  rewrite Z.lor_spec. change (Z.testbit UINET_PD_TO_STACK 5) with true. apply orb_true_r.
Qed.

(** The descriptors the loop has filled are to be delivered. *)
Lemma received_all s s' : ∀ l ds cis,
  keeps_links s s' → Forall2 (ready s) l cis →
  Forall2 (to_deliver s') (zip_with received l ds) (take (length l `min` length ds) cis).
Proof.
  induction l as [| pd l IH]; intros ds cis Hk Hl; [constructor |].
  destruct ds as [| d ds]; [constructor |].
  apply Forall2_cons_inv_l in Hl as (ci & cis' & (H1 & _ & H3) & Hl & ->). constructor; [| by apply IH].
  split_and!; [done | apply received_flag | auto].
Qed.

Lemma rx_shift_live (A B T : list uinet_pd) :
  Z.of_nat (length (A ++ B)) < 2 ^ 32 →
  let l := rx_shift (Z.of_nat (length A)) (Z.of_nat (length B))
             {| num_descs := Z.of_nat (length (A ++ B)); descs := A ++ B ++ T |} in
  num_descs l = Z.of_nat (length B) ∧ take (length B) (descs l) = B.
Proof.
  intros Hlt l. rewrite length_app in *. split; cbn.
  - rewrite length_app, wrap_u_id; lia.
  - destruct (Z.eqb_spec (Z.of_nat (length B)) 0) as [E | E]; cbn [negb].
    + destruct B; [done | cbn in E; lia].
    + rewrite !Nat2Z.id, drop_app_length, take_app_length, take_app_length. done.
Qed.

Lemma rx_shift_0 (B T : list uinet_pd) :
  Z.of_nat (length B) < 2 ^ 32 →
  rx_shift 0 (Z.of_nat (length B)) {| num_descs := Z.of_nat (length ([] ++ B)); descs := [] ++ B ++ T |} =
    {| num_descs := Z.of_nat (length ([] ++ B)); descs := [] ++ B ++ T |}.
Proof.
  intros Hlt. unfold rx_shift. cbn. rewrite Z.sub_0_r, wrap_u_id by lia.
  destruct (Z.of_nat (length B) =? 0); [done |]. cbn. rewrite Nat2Z.id, drop_0, take_drop. done.
Qed.

(** The routine without handlers, once the packets are attached. *)
Lemma rx_deliver_none clock s' d :
  timestamp_mode d = UINET_IF_TIMESTAMP_NONE →
  uinet_pd_deliver_to_stack if_input (uif_ifp d) (rx_pds d) (x_store d) = Ok (tt, s') →
  rx_deliver if_input None None clock d = Ok (tt, set_store s' d).
Proof.
  intros Hm Hd. unfold rx_deliver. do 5 (erewrite M_bind_Ok by reflexivity; cbn beta). rewrite Hm.
  erewrite M_bind_Ok by reflexivity. cbn beta iota. do 4 (erewrite M_bind_Ok by reflexivity; cbn beta).
  assert (set_rx_pds (rx_pds d) (set_counters (timestamp_counter d) (global_timestamp_counter d)
    (set_store (x_store d) d)) = d) as E by (by destruct d).
  rewrite E. erewrite M_bind_Ok; [reflexivity |]. unfold on_store. by rewrite Hd.
Qed.

(** The descriptors of the list that are in use. *)
Definition live (l : uinet_pd_list) : list uinet_pd := take (Z.to_nat (num_descs l)) (descs l).

(** The steps of the routine, given what the allocation, the loop and the delivery do. *)
Lemma batch_run pkthdr_error clock i0 ts0 cnt d mbs l s A B T s1 s2 :
  let ds := dh_recv_pkts mbs in let k := length A in
  let l2 := {| num_descs := Z.of_nat (length (A ++ B)); descs := A ++ B ++ T |} in
  x_rx_disabled d = false → rx_packet_waiting d = 0 → timestamp_mode d = UINET_IF_TIMESTAMP_NONE →
  (0 < length mbs)%nat → Z.of_nat (length (A ++ B)) < 2 ^ 32 → descs l ≠ [] →
  uinet_pd_mbuf_alloc_descs pkthdr_error (rx_pds d) (u32 (rx_batch_size d - num_descs (rx_pds d)))
    (x_store d) = Ok ((cnt, l), s) →
  num_descs l = Z.of_nat (length (A ++ B)) →
  rx_loop UINET_IF_TIMESTAMP_NONE ts0 0 (live l) ds s = Ok ((A ++ B, Z.of_nat k, false), s1) →
  drop (length (A ++ B)) (descs l) = T →
  uinet_pd_deliver_to_stack if_input (uif_ifp d) l2 s1 = Ok (tt, s2) → (A = [] → s2 = s1) →
  if_dpdk_batch_receive if_input None None pkthdr_error clock i0 ts0 mbs d =
    Ok ((b2z (bool_decide (B = [])), Some (if decide (B = []) then -1 else rx_fd d), 0),
        set_ipackets (ipackets d + Z.of_nat (length mbs))
          (set_waiting 0 (set_rx_pds (rx_shift (Z.of_nat k) (Z.of_nat (length B)) l2) (set_store s2 d)))).
Proof.
  intros ds k l2 Hdis Hwait Hmode Hmbs Hlt Hne Halloc Hnl Eloop HT Hdel Hnil.
  assert (length ds = length mbs) as Hds by apply length_fmap. rewrite length_app in *.
  assert (Z.of_nat k =? num_descs l = bool_decide (B = [])) as Ek.
  { destruct B; cbn in Hnl; [rewrite bool_decide_eq_true_2 by done; apply Z.eqb_eq; unfold k; lia |].
    rewrite bool_decide_eq_false_2 by done. apply Z.eqb_neq. unfold k. lia. }
  unfold if_dpdk_batch_receive. erewrite M_bind_Ok by reflexivity. rewrite Hdis.
  do 2 (erewrite M_bind_Ok by reflexivity; cbn beta).
  erewrite M_bind_Ok by (unfold on_store; rewrite Halloc; reflexivity). cbn beta iota.
  do 3 (erewrite M_bind_Ok by reflexivity; cbn beta). cbn [rx_packet_waiting set_rx_pds set_store].
  rewrite Hwait, Z.sub_0_r, (wrap_u_id 32 (num_descs l)) by lia. cbn zeta.
  destruct (descs l !! Z.to_nat 0) eqn:E0; [| by destruct (descs l)]. unfold if_dpdk_getpacket.
  fold ds. rewrite Hds, (proj2 (Z.leb_gt _ _)) by lia.
  do 2 (erewrite M_bind_Ok by reflexivity; cbn beta). cbn [timestamp_mode set_ipackets set_waiting set_rx_pds set_store].
  rewrite Hmode. change (Z.to_nat 0) with 0%nat. rewrite drop_0, take_0. fold (live l).
  erewrite M_bind_Ok by (unfold on_store; cbn [x_store set_ipackets set_waiting set_rx_pds set_store]; rewrite Eloop; reflexivity).
  cbn beta iota. change (0 + ?x)%nat with x. rewrite Hnl, Nat2Z.id. cbn [app].
  erewrite M_bind_Ok by reflexivity. cbn beta. erewrite M_bind_Ok by reflexivity. cbn beta.
  rewrite Z.add_0_r, (wrap_u_id 32 (Z.of_nat k)) by (unfold k; lia).
  rewrite HT, <- app_assoc. rewrite <- Hnl, Ek. set (d1 := set_rx_pds _ _).
  assert (d1 = set_ipackets (ipackets d + Z.of_nat (length mbs))
     (set_waiting 0 (set_rx_pds l2 (set_store s1 d)))) as Ed1.
  { unfold d1, l2. rewrite Hnl, length_app. done. }
  assert ((if negb (Z.of_nat k =? 0) then
             _ ← rx_deliver if_input None None clock;
             modify (fun d => set_rx_pds (rx_shift (Z.of_nat k) (u32 (num_descs l - Z.of_nat k)) (rx_pds d)) d)
           else mret ()) d1 =
    Ok (tt, set_ipackets (ipackets d + Z.of_nat (length mbs)) (set_waiting 0
      (set_rx_pds (rx_shift (Z.of_nat k) (Z.of_nat (length B)) l2) (set_store s2 d))))) as Estep.
  { destruct (Z.eqb_spec (Z.of_nat k) 0) as [Ek0 | Ek0]; cbn [negb].
    - assert (A = []) as -> by (destruct A; [done | cbn in Ek0; lia]).
      unfold l2. rewrite rx_shift_0 by (cbn; lia). rewrite Ed1, Hnil by done. done.
    - erewrite M_bind_Ok; [| apply (rx_deliver_none clock s2); rewrite Ed1; done].
      rewrite Hnl, wrap_u_id by (unfold k; lia).
      replace (Z.of_nat (length A + length B) - Z.of_nat k) with (Z.of_nat (length B)) by (unfold k; lia).
      rewrite Ed1. done. }
  erewrite M_bind_Ok by exact Estep. cbn beta. do 2 (erewrite M_bind_Ok by reflexivity; cbn beta).
  cbn. by case_bool_decide; case_decide.
Qed.

(** What the loop and the delivery do to the store, together. *)
Lemma attach_deliver ts ifp mbs T : ∀ L cis s,
  takes_over ifp cis → Forall2 (ready s) L cis → NoDup cis.*2 → Z.of_nat (length L) < 2 ^ 32 →
  let ds := dh_recv_pkts mbs in let n := length cis in let k := (n `min` length mbs)%nat in
  let A := zip_with received L ds in let B := drop k L in
  ∃ s1 s2 handed,
    rx_loop UINET_IF_TIMESTAMP_NONE ts 0 L ds s = Ok ((A ++ B, Z.of_nat k, false), s1) ∧
    uinet_pd_deliver_to_stack if_input ifp
      {| num_descs := Z.of_nat (length (A ++ B)); descs := A ++ B ++ T |} s1 = Ok (tt, s2) ∧
    (A = [] → s2 = s1) ∧
    if_inputs s2 = if_inputs s ++ handed ∧ length handed = k ∧
    (∀ j c i d, cis !! j = Some (c, i) → ds !! j = Some d →
       ∃ b, handed !! j = Some (ifp, i, to_stack_mbuf ifp (u16 (dh_data_len d)) (attached c d b))) ∧
    Forall2 (ready s2) B (drop k cis).
Proof.
  intros L cis s Hlaw Hready Hnd Hlt ds n k A B.
  assert (length ds = length mbs) as Hds by apply length_fmap.
  assert (length L = n) as Hn by (by eapply Forall2_length).
  destruct (rx_loop_spec UINET_IF_TIMESTAMP_NONE ts ltac:(done) L ds cis s Hready Hnd)
    as (s1 & E1 & C1 & I1 & K1 & O1 & A1).
  pose proof (received_all s s1 L ds cis K1 Hready) as HA.
  rewrite Hn, Hds in *. fold k in E1, O1, HA. fold A B in E1, HA.
  assert (Forall2 (ready s) B (drop k cis)) as HB by (by apply Forall2_drop).
  destruct (deliver_spec ifp B (drop k cis) A (take k cis) s1) as (s2 & handed & E2 & I2 & L2 & K2 & D2);
    [by rewrite take_drop | done | by rewrite take_drop |].
  assert (∀ s, deliver_loop if_input ifp B s = Ok (tt, s)) as Hnone.
  { intros s0. apply deliver_none, Forall_lookup. intros j pd Hj.
    destruct (Forall2_lookup_l _ _ _ _ _ HB Hj) as (? & _ & _ & H & _). done. }
  rewrite Hnone in E2. exists s1, s2, handed. split_and!; [done | | | | | |].
  - unfold uinet_pd_deliver_to_stack, live_descs. cbn [num_descs descs].
    rewrite app_assoc, (proj2 (Z.leb_le _ _)) by (rewrite !length_app; lia).
    rewrite Nat2Z.id, take_app_length. erewrite M_bind_Ok by reflexivity. exact E2.
  - intros HA0. rewrite HA0 in E2. cbn in E2. rewrite Hnone in E2. by injection E2.
  - by rewrite I2, I1.
  - rewrite L2, length_take. fold n. lia.
  - intros j c i d Hci Hd. destruct (A1 j c i d Hci Hd) as (b & _ & Hb1). exists b.
    destruct (Forall2_lookup_r _ _ _ _ _ Hready Hci) as (pd & Hpd & _).
    assert (A !! j = Some (received pd d)) as HAj by (apply lookup_zip_with_Some; eauto).
    apply (D2 j _ c i (attached c d b) HAj); [| exact Hb1].
    rewrite lookup_take_lt; [done |]. apply lookup_lt_Some in HAj. unfold A in HAj.
    rewrite length_zip_with in HAj. lia.
  - apply Forall2_same_length_lookup. split; [by eapply Forall2_length |]. intros j pd ci Hj Hci.
    destruct (Forall2_lookup_lr _ _ _ _ _ _ HB Hj Hci) as (H1 & H2 & H3). split_and!; [done.. |].
    apply K2; [by eapply list_elem_of_lookup_2 | auto].
Qed.

(** [C16] [if_dpdk_batch_receive] with packets from the NIC, after the list has been
    topped off, without first-look and batch handlers and without timestamps: the packets
    for which there is a descriptor are handed to the stack, each once, in the order of
    reception, as the mbuf of the descriptor, which at that moment has the data and the
    length of the DPDK mbuf, this one as its receiving interface, and a free routine that
    gives back both the DPDK mbuf and the context.  All packets are counted.  The
    descriptors not used move to the front of the list and are ready for the next batch.
    The result says whether all were used.  The stack may do what it likes with the mbufs
    it was handed and their contexts, and with all that is not the driver's
    ([takes_over]). *)
Theorem if_dpdk_batch_receive_delivers (pkthdr_error clock i0 ts0 cnt : Z) (d : rxdev)
    (mbs : list rx_rte) (l : uinet_pd_list) (s : store) (cis : list (nat * nat)) :
  takes_over (uif_ifp d) cis →
  x_rx_disabled d = false → rx_packet_waiting d = 0 → timestamp_mode d = UINET_IF_TIMESTAMP_NONE →
  (0 < length mbs)%nat →
  uinet_pd_mbuf_alloc_descs pkthdr_error (rx_pds d) (u32 (rx_batch_size d - num_descs (rx_pds d)))
    (x_store d) = Ok ((cnt, l), s) →
  0 <= num_descs l <= Z.of_nat (length (descs l)) → num_descs l < 2 ^ 32 → descs l ≠ [] →
  Forall2 (ready s) (live l) cis → NoDup cis.*2 →
  let n := length cis in
  let k := (n `min` length mbs)%nat in
  ∃ d' handed, if_dpdk_batch_receive if_input None None pkthdr_error clock i0 ts0 mbs d =
          Ok ((b2z (bool_decide (k = n)), Some (if decide (k = n) then -1 else rx_fd d), 0), d') ∧
    if_inputs (x_store d') = if_inputs s ++ handed ∧ length handed = k ∧
    (∀ j c i mb, cis !! j = Some (c, i) → mbs !! j = Some mb →
       ∃ b, handed !! j = Some (uif_ifp d, i, b) ∧ m_data b = r_buf_addr mb + r_data_off mb ∧
         m_len b = s32 (u16 (r_data_len mb)) ∧ m_pkthdr_len b = m_len b ∧
         m_rcvif b = Some (uif_ifp d) ∧ ext_free b = Some DpdkFreeRteBuf ∧
         ext_arg1 b = Some (r_base mb) ∧ ext_arg2 b = Some c ∧ ext_ref_cnt b = r_refcnt mb) ∧
    ipackets d' = ipackets d + Z.of_nat (length mbs) ∧
    live (rx_pds d') = drop k (live l) ∧ Forall2 (ready (x_store d')) (live (rx_pds d')) (drop k cis).
Proof.
  intros Hlaw Hdis Hwait Hmode Hmbs Halloc Hnum Hnum2 Hne Hready Hnd n k.
  assert (length (live l) = n) as Hn by (by eapply Forall2_length).
  assert (num_descs l = Z.of_nat n) as Hnl.
  { rewrite <- Hn. unfold live. rewrite length_take. lia. }
  set (T := drop n (descs l)).
  destruct (attach_deliver ts0 (uif_ifp d) mbs T (live l) cis s Hlaw Hready Hnd)
    as (s1 & s2 & handed & E1 & Hdel & Hnil & I2 & L2 & D2 & HB2); [lia |].
  cbn zeta in *. fold n k in E1, Hdel, Hnil, L2, HB2.
  set (A := zip_with received (live l) (dh_recv_pkts mbs)) in *. set (B := drop k (live l)) in *.
  assert (length A = k) as LA
    by (unfold A, dh_recv_pkts; rewrite length_zip_with, length_fmap; lia).
  assert (length (A ++ B) = n) as LAB by (unfold B; rewrite length_app, length_drop; lia).
  assert (B = [] ↔ k = n) as HBk.
  { rewrite <- length_zero_iff_nil. rewrite length_app in LAB. lia. }
  destruct (rx_shift_live A B T) as [Hs1 Hs2]; [rewrite LAB; lia |].
  pose proof (batch_run pkthdr_error clock i0 ts0 cnt d mbs l s A B T s1 s2) as Hrun.
  cbn zeta in Hrun. rewrite LAB, LA in *.
  assert (live (rx_shift (Z.of_nat k) (Z.of_nat (length B))
     {| num_descs := Z.of_nat n; descs := A ++ B ++ T |}) = B) as Hlive.
  { unfold live. by rewrite Hs1, Nat2Z.id. }
  eexists _, handed. split.
  { rewrite Hrun by (done || lia).
    rewrite (bool_decide_ext _ _ HBk), (decide_ext (B = []) (k = n) _ _ HBk). reflexivity. }
  cbn [x_store ipackets rx_pds set_ipackets set_waiting set_rx_pds set_store]. rewrite Hlive.
  split_and!; try done. intros j c i mb Hci Hmb.
  destruct (D2 j c i (mk_dh (r_base mb) (r_buf_addr mb + r_data_off mb) (r_data_len mb)
              (r_buf_len mb) (r_refcnt mb)) Hci) as (b & Hb).
  { apply list_lookup_fmap_Some. by exists mb. }
  eexists. split; [exact Hb |]. done.
Qed.

End Deliver.

(** Three packets arrive and there are two descriptors. *)
Definition ex_rx : rxdev :=
  mk_rxdev false 4 0 {| num_descs := 2; descs := [ex_pd 1 1; ex_pd 1 3; null_pd; null_pd] |} 9 7
    UINET_IF_TIMESTAMP_NONE 0 0 0 ex_store.

Definition ex_rte (n : nat) : rx_rte := mk_rx_rte n (Z.of_nat n * 4096) 128 (60 + Z.of_nat n) 2048 (100 + n).

(** A stack that frees the mbuf it is given at once. *)
Definition ex_input (ifp i : nat) : P unit := modify (fun s => set_mbufs (delete i (mbufs s)) s).

Lemma if_dpdk_batch_receive_delivers_witness :
  ∃ d' handed, if_dpdk_batch_receive ex_input None None 0 0 0 0 [ex_rte 1; ex_rte 2; ex_rte 3] ex_rx =
          Ok ((1, Some (-1), 0), d') ∧
    if_inputs (x_store d') = handed ∧ length handed = 2%nat ∧ ipackets d' = 3.
Proof.
  destruct (if_dpdk_batch_receive_delivers ex_input 0 0 0 0 0 ex_rx [ex_rte 1; ex_rte 2; ex_rte 3]
    {| num_descs := 2; descs := [ex_pd 1 1; ex_pd 1 3; null_pd; null_pd] |} ex_store
    [(1%nat, 11%nat); (3%nat, 13%nat)]) as (d' & handed & E & I & L & _ & C & _).
  1: { intros [| [| j]] c i s [= <- <-] _; (eexists; split; [reflexivity |]); (split; [reflexivity |]);
       intros c' i' Hin; cbn in Hin; rewrite ?elem_of_cons, elem_of_nil in Hin; [| done].
       destruct Hin as [[= -> ->] | []]. split; [done |]. cbn. by rewrite lookup_delete_ne. }
  1-3: reflexivity.
  1: (simpl; lia).
  1: reflexivity.
  1-2: (simpl; lia).
  1: discriminate.
  - repeat constructor; vm_compute; eauto; eexists; split; reflexivity.
  - by apply (bool_decide_unpack _).
  - exists d', handed. split; [exact E |]. split; [exact I |]. split; [exact L | exact C].
Defined.

End DpdkRxSpec.
