(* ===== verification/Printf.v ===== *)
(** The kernel's formatted output (src/src/lib/libuinet/uinet_subr_prf.c): number
    conversion, the interpreter of format strings, and the functions that put its
    output into a string, a bounded string or onto the console.  Characters are
    bytes; a string is the list of its bytes without the terminating NUL. *)
From S2P Require Import Prelude.

Module Printf.

Abbreviation str := (list Z).

(** The bytes of a literal. *)
Definition lit (s : string) : str :=
  (fun a => Z.of_nat (Ascii.nat_of_ascii a)) <$> String.list_ascii_of_string s.

(** ** Numbers *)

(** [sizeof(intmax_t) * NBBY + 1]. *)
Definition MAXNBUF : Z := 65.

Definition hex2ascii_data : str := lit "0123456789abcdefghijklmnopqrstuvwxyz".

(** The table is followed by its NUL. *)
Definition hex2ascii (i : Z) : result Z :=
  match (hex2ascii_data ++ [0]) !! Z.to_nat i with Some c => Ok c | None => Fault OutOfBounds end.

Definition toupper (c : Z) : Z := if (97 <=? c) && (c <=? 122) then c - 32 else c.

(** The loop of [ksprintn]: the characters in the order in which they are put
    into the buffer, which has room for [room] more. [base] is converted to
    [uintmax_t]; a zero divisor traps. *)
Fixpoint ksprintn_loop (room : nat) (num base : Z) (upper : bool) : result str :=
  match room with
  | O => Fault Overflow
  | S room' =>
      if base =? 0 then Fault Panic
      else
        c ← hex2ascii (num mod base);
        let c := if upper then toupper c else c in
        if num / base =? 0 then Ok [c]
        else t ← ksprintn_loop room' (num / base) base upper; Ok (c :: t)
  end.

(** The string read from the last character written back to the NUL. *)
Definition ksprintn (num base : Z) (upper : bool) : result str :=
  l ← ksprintn_loop (Z.to_nat (MAXNBUF - 1)) num (u64 base) upper; Ok (reverse l).

(** ** The arguments *)

(** What [va_arg] finds: an [int], a 64-bit integer, a string or NULL, a buffer of
    bytes, a pointer to an integer variable. *)
Inductive varg : Type :=
| AInt (z : Z) | ALong (z : Z) | AStr (s : option str) | ABytes (l : list Z) | AVar (v : nat).

(** A type mismatch or a missing argument has no defined behaviour. *)
Definition va_int (a : list varg) : result (Z * list varg) :=
  match a with AInt z :: t => Ok (z, t) | _ => Fault BadPointer end.
Definition va_long (a : list varg) : result (Z * list varg) :=
  match a with ALong z :: t => Ok (z, t) | _ => Fault BadPointer end.
Definition va_str (a : list varg) : result (option str * list varg) :=
  match a with AStr s :: t => Ok (s, t) | _ => Fault BadPointer end.
Definition va_bytes (a : list varg) : result (list Z * list varg) :=
  match a with ABytes l :: t => Ok (l, t) | _ => Fault BadPointer end.
Definition va_var (a : list varg) : result (nat * list varg) :=
  match a with AVar v :: t => Ok (v, t) | _ => Fault BadPointer end.

(** ** The interpreter *)

(** The variables reset at each conversion. *)
Record flags : Type := mk_flags {
  padc : Z; width : Z; dwidth : Z; ladjust : bool; sharpflag : bool; sign : bool; dot : bool;
  lflag : bool; qflag : bool; cflag : bool; hflag : bool; jflag : bool; tflag : bool; zflag : bool
}.

Definition no_flags : flags :=
  mk_flags 32 0 0 false false false false false false false false false false false.

Definition set_padc (v : Z) (f : flags) : flags :=
  mk_flags v (width f) (dwidth f) (ladjust f) (sharpflag f) (sign f) (dot f) (lflag f) (qflag f)
    (cflag f) (hflag f) (jflag f) (tflag f) (zflag f).
Definition set_width (v : Z) (f : flags) : flags :=
  mk_flags (padc f) v (dwidth f) (ladjust f) (sharpflag f) (sign f) (dot f) (lflag f) (qflag f)
    (cflag f) (hflag f) (jflag f) (tflag f) (zflag f).
Definition set_dwidth (v : Z) (f : flags) : flags :=
  mk_flags (padc f) (width f) v (ladjust f) (sharpflag f) (sign f) (dot f) (lflag f) (qflag f)
    (cflag f) (hflag f) (jflag f) (tflag f) (zflag f).
Definition set_ladjust (v : bool) (f : flags) : flags :=
  mk_flags (padc f) (width f) (dwidth f) v (sharpflag f) (sign f) (dot f) (lflag f) (qflag f)
    (cflag f) (hflag f) (jflag f) (tflag f) (zflag f).
Definition set_sharp (v : bool) (f : flags) : flags :=
  mk_flags (padc f) (width f) (dwidth f) (ladjust f) v (sign f) (dot f) (lflag f) (qflag f)
    (cflag f) (hflag f) (jflag f) (tflag f) (zflag f).
Definition set_sign (v : bool) (f : flags) : flags :=
  mk_flags (padc f) (width f) (dwidth f) (ladjust f) (sharpflag f) v (dot f) (lflag f) (qflag f)
    (cflag f) (hflag f) (jflag f) (tflag f) (zflag f).
Definition set_dot (f : flags) : flags :=
  mk_flags (padc f) (width f) (dwidth f) (ladjust f) (sharpflag f) (sign f) true (lflag f) (qflag f)
    (cflag f) (hflag f) (jflag f) (tflag f) (zflag f).
(** [l], [q], [h], [j], [t] and [z]; a second [l] means [q], a second [h] means [char]. *)
Definition set_l (f : flags) : flags :=
  mk_flags (padc f) (width f) (dwidth f) (ladjust f) (sharpflag f) (sign f) (dot f) (negb (lflag f))
    (lflag f || qflag f) (cflag f) (hflag f) (jflag f) (tflag f) (zflag f).
Definition set_q (f : flags) : flags :=
  mk_flags (padc f) (width f) (dwidth f) (ladjust f) (sharpflag f) (sign f) (dot f) (lflag f) true
    (cflag f) (hflag f) (jflag f) (tflag f) (zflag f).
Definition set_h (f : flags) : flags :=
  mk_flags (padc f) (width f) (dwidth f) (ladjust f) (sharpflag f) (sign f) (dot f) (lflag f) (qflag f)
    (hflag f || cflag f) (negb (hflag f)) (jflag f) (tflag f) (zflag f).
Definition set_j (f : flags) : flags :=
  mk_flags (padc f) (width f) (dwidth f) (ladjust f) (sharpflag f) (sign f) (dot f) (lflag f) (qflag f)
    (cflag f) (hflag f) true (tflag f) (zflag f).
Definition set_t (f : flags) : flags :=
  mk_flags (padc f) (width f) (dwidth f) (ladjust f) (sharpflag f) (sign f) (dot f) (lflag f) (qflag f)
    (cflag f) (hflag f) (jflag f) true (zflag f).
Definition set_z (f : flags) : flags :=
  mk_flags (padc f) (width f) (dwidth f) (ladjust f) (sharpflag f) (sign f) (dot f) (lflag f) (qflag f)
    (cflag f) (hflag f) (jflag f) (tflag f) true.

(** Where the interpreter is: in the text, in a conversion of which [pct] has been
    read, in the digits of a width with value [n], or past a conversion it does not
    know, after which everything is text ([stop]). *)
Inductive mode : Type :=
| Text
| Conv (pct : str) (f : flags)
| Digits (pct : str) (f : flags) (n : Z)
| Stopped.

(** The mode, the characters printed ([PCHAR]; [retval] is their number), the
    arguments left and what was stored to variables by [%n]. *)
Record kst : Type := mk_kst {
  k_mode : mode; k_out : str; k_args : list varg; k_vars : list (nat * Z)
}.

Definition emit (l : str) (m : mode) (args : list varg) (s : kst) : kst :=
  mk_kst m (k_out s ++ (u8 <$> l)) args (k_vars s).
Definition goto (m : mode) (s : kst) : kst := mk_kst m (k_out s) (k_args s) (k_vars s).

Definition is_digit (c : Z) : bool := (48 <=? c) && (c <=? 57).

(** [n] copies of [c], none when [n] is negative. *)
Definition pad (n c : Z) : str := replicate (Z.to_nat n) c.

(** The label [number] with [num] as read from the arguments. *)
Definition number (f : flags) (base : Z) (upper : bool) (num : Z) : result str :=
  let neg := sign f && (s64 num <? 0) in
  let num := if neg then u64 (- s64 num) else num in
  p ← ksprintn num base upper;
  let n := Z.of_nat (length p) in
  let sharp := sharpflag f && negb (num =? 0) in
  let prefix := if sharp then if base =? 8 then lit "0" else if base =? 16 then lit "0x" else [] else [] in
  let tmp := Z.of_nat (length prefix) + b2z neg in
  let dw := if negb (ladjust f) && (padc f =? 48) then width f - tmp else dwidth f in
  let w := width f - (tmp + Z.max dw n) in
  let dw := dw - n in
  Ok ((if ladjust f then [] else pad w 32) ++ (if neg then [45] else []) ++ prefix ++ pad dw 48 ++ p ++
      (if ladjust f then pad w 32 else [])).

(** The labels [handle_nosign] and [handle_sign]: the argument, as [uintmax_t]. *)
Definition fetch_nosign (f : flags) (a : list varg) : result (Z * list varg) :=
  if jflag f || qflag f || tflag f || lflag f || zflag f then '(z, a) ← va_long a; Ok (u64 z, a)
  else if hflag f then '(z, a) ← va_int a; Ok (u16 z, a)
  else if cflag f then '(z, a) ← va_int a; Ok (u8 z, a)
  else '(z, a) ← va_int a; Ok (u32 z, a).

Definition fetch_sign (f : flags) (a : list varg) : result (Z * list varg) :=
  if jflag f || qflag f || tflag f || lflag f || zflag f then '(z, a) ← va_long a; Ok (u64 z, a)
  else if hflag f then '(z, a) ← va_int a; Ok (u64 (s16 z), a)
  else if cflag f then '(z, a) ← va_int a; Ok (u64 (s8 z), a)
  else '(z, a) ← va_int a; Ok (u64 (s32 z), a).

Definition handle_nosign (f : flags) (base : Z) (upper : bool) (s : kst) : result kst :=
  '(num, a) ← fetch_nosign f (k_args s);
  l ← number (set_sign false f) base upper num;
  Ok (emit l Text a s).

Definition handle_sign (f : flags) (base : Z) (s : kst) : result kst :=
  '(num, a) ← fetch_sign f (k_args s);
  l ← number f base false num;
  Ok (emit l Text a s).

(** The names of [%b] up to a character that is not above the space. *)
Fixpoint span_name (p : str) : str * str :=
  match p with
  | c :: t => if 32 <? s8 c then let '(a, r) := span_name t in (c :: a, r) else ([], p)
  | [] => ([], [])
  end.

(** The bits of [%b]: [any] says that one has been printed. A shift by an amount
    outside an [int] has no defined behaviour. *)
Fixpoint bit_names (fuel : nat) (num : Z) (any : bool) (p : str) : result str :=
  match p with
  | [] => Ok (if any then [62] else [])
  | n :: t =>
      match fuel with
      | O => Fault Blocked
      | S fuel' =>
          if (1 <=? n) && (n <=? 32) then
            let '(name, rest) := span_name t in
            if Z.testbit num (n - 1) then
              r ← bit_names fuel' num true rest;
              Ok ((if any then 44 else 60) :: name ++ r)
            else bit_names fuel' num any rest
          else Fault OutOfBounds
      end
  end.

Definition conv_b (s : kst) : result kst :=
  '(z, a) ← va_int (k_args s);
  let num := u32 z in
  '(p, a) ← va_str a;
  p ← deref p;
  match p with
  | [] => Fault Panic
  | base :: p =>
      l ← ksprintn num (s8 base) false;
      if num =? 0 then Ok (emit l Text a s)
      else r ← bit_names (length p) num false p; Ok (emit (l ++ r) Text a s)
  end.

(** The bytes of [%D], [n] of them. *)
Fixpoint hexdump (n : nat) (up : list Z) (sep : str) : result str :=
  match n with
  | O => Ok []
  | S n' =>
      match up with
      | [] => Fault OutOfBounds
      | b :: t =>
          h ← hex2ascii (Z.shiftr b 4); l ← hex2ascii (Z.land b 0x0f);
          r ← hexdump n' t sep;
          Ok (h :: l :: (if Nat.eqb n' 0 then [] else sep) ++ r)
      end
  end.

Definition conv_D (f : flags) (s : kst) : result kst :=
  '(up, a) ← va_bytes (k_args s);
  '(p, a) ← va_str a;
  let w := if width f =? 0 then 16 else width f in
  sep ← (if w =? 1 then Ok [] else deref p);
  l ← hexdump (Z.to_nat w) up sep;
  Ok (emit l Text a s).

Definition conv_n (f : flags) (s : kst) : result kst :=
  '(v, a) ← va_var (k_args s);
  let retval := Z.of_nat (length (k_out s)) in
  let x := if jflag f || qflag f || lflag f || zflag f then retval
           else if hflag f then s16 retval else if cflag f then s8 retval else s32 retval in
  Ok (mk_kst Text (k_out s) a (k_vars s ++ [(v, x)])).

Definition conv_s (f : flags) (s : kst) : result kst :=
  '(p, a) ← va_str (k_args s);
  let p := default (lit "(null)") p in
  let p := if dot f then take (Z.to_nat (dwidth f)) p else p in
  let w := width f - Z.of_nat (length p) in
  Ok (emit ((if ladjust f then [] else pad w (padc f)) ++ p ++ (if ladjust f then pad w (padc f) else []))
        Text a s).

(** The switch at [reswitch] on the character [ch]; [pct] has been read before it. *)
Definition conv (radix : Z) (pct : str) (f : flags) (ch : Z) (s : kst) : result kst :=
  let pct := pct ++ [ch] in
  let again f := Ok (goto (Conv pct f) s) in
  if ch =? 46 then again (set_dot f)                                    (* . *)
  else if ch =? 35 then again (set_sharp true f)                         (* # *)
  else if ch =? 43 then again (set_sign true f)                          (* + *)
  else if ch =? 45 then again (set_ladjust true f)                       (* - *)
  else if ch =? 37 then Ok (emit [ch] Text (k_args s) s)                 (* % *)
  else if ch =? 42 then                                                  (* * *)
    '(z, a) ← va_int (k_args s);
    let s := mk_kst (k_mode s) (k_out s) a (k_vars s) in
    let f := if dot f then set_dwidth z f
             else if z <? 0 then set_width (- z) (set_ladjust (negb (ladjust f)) f)
             else set_width z f in
    Ok (goto (Conv pct f) s)
  else if (ch =? 48) && negb (dot f) then again (set_padc 48 f)          (* 0 *)
  else if is_digit ch then Ok (goto (Digits pct f (ch - 48)) s)
  else if ch =? 98 then conv_b s                                         (* b *)
  else if ch =? 99 then '(z, a) ← va_int (k_args s); Ok (emit [z] Text a s) (* c *)
  else if ch =? 68 then conv_D f s                                       (* D *)
  else if (ch =? 100) || (ch =? 105) then handle_sign (set_sign true f) 10 s (* d, i *)
  else if ch =? 104 then again (set_h f)                                 (* h *)
  else if ch =? 106 then again (set_j f)                                 (* j *)
  else if ch =? 108 then again (set_l f)                                 (* l *)
  else if ch =? 110 then conv_n f s                                      (* n *)
  else if ch =? 111 then handle_nosign f 8 false s                       (* o *)
  else if ch =? 112 then                                                 (* p *)
    '(z, a) ← va_long (k_args s);
    l ← number (set_sign false (set_sharp (width f =? 0) f)) 16 false (u64 z);
    Ok (emit l Text a s)
  else if ch =? 113 then again (set_q f)                                 (* q *)
  else if ch =? 114 then                                                 (* r *)
    if sign f then handle_sign f radix s else handle_nosign f radix false s
  else if ch =? 115 then conv_s f s                                      (* s *)
  else if ch =? 116 then again (set_t f)                                 (* t *)
  else if ch =? 117 then handle_nosign f 10 false s                      (* u *)
  else if ch =? 88 then handle_nosign f 16 true s                        (* X *)
  else if ch =? 120 then handle_nosign f 16 false s                      (* x *)
  else if ch =? 121 then handle_sign (set_sign true f) 16 s              (* y *)
  else if ch =? 122 then again (set_z f)                                 (* z *)
  else Ok (emit pct Stopped (k_args s) s).

(** One character of the format. *)
Definition step (radix : Z) (s : kst) (ch : Z) : result kst :=
  match k_mode s with
  | Text => if ch =? 37 then Ok (goto (Conv [ch] no_flags) s) else Ok (emit [ch] Text (k_args s) s)
  | Stopped => Ok (emit [ch] Stopped (k_args s) s)
  | Conv pct f => conv radix pct f ch s
  | Digits pct f n =>
      if is_digit ch then Ok (goto (Digits (pct ++ [ch]) f (s32 (n * 10 + ch - 48))) s)
      else conv radix pct (if dot f then set_dwidth n f else set_width n f) ch s
  end.

Fixpoint run (radix : Z) (fmt : str) (s : kst) : result kst :=
  match fmt with
  | [] => Ok s
  | ch :: t => s' ← step radix s ch; run radix t s'
  end.

(** The result is the characters printed and what [%n] stored. A format that ends
    within a conversion is read on past its NUL. *)
Definition kvprintf (fmt : option str) (radix : Z) (ap : list varg) : result (str * list (nat * Z)) :=
  let fmt := default (lit "(fmt null)" ++ [10]) fmt in
  let radix := if (radix <? 2) || (36 <? radix) then 10 else radix in
  s ← run radix fmt (mk_kst Text [] ap []);
  match k_mode s with
  | Text | Stopped => Ok (k_out s, k_vars s)
  | _ => Fault OutOfBounds
  end.

(** ** Strings *)

(** The buffer of [sprintf] after the call, and the result. *)
Definition vsprintf (cfmt : option str) (ap : list varg) : result (Z * str) :=
  '(o, _) ← kvprintf cfmt 10 ap; Ok (Z.of_nat (length o), o ++ [0]).
Definition sprintf (cfmt : option str) (ap : list varg) : result (Z * str) := vsprintf cfmt ap.

(** [struct snprintf_arg]: what has been written, and the room left. *)
Record snprintf_arg : Type := mk_snp { written : str; remain : Z }.

Definition snprintf_func (info : snprintf_arg) (ch : Z) : snprintf_arg :=
  if 2 <=? remain info then mk_snp (written info ++ [ch]) (remain info - 1) else info.

(** The result and the bytes written from [str] on. *)
Definition vsnrprintf (size radix : Z) (format : option str) (ap : list varg) : result (Z * str) :=
  '(o, _) ← kvprintf format radix ap;
  let info := foldl snprintf_func (mk_snp [] size) o in
  Ok (Z.of_nat (length o), if 1 <=? remain info then written info ++ [0] else written info).
Definition vsnprintf (size : Z) (format : option str) (ap : list varg) : result (Z * str) :=
  vsnrprintf size 10 format ap.
Definition snprintf (size : Z) (format : option str) (ap : list varg) : result (Z * str) :=
  vsnprintf size format ap.

(** ** The console *)

Definition TOCONS : Z := 0x01.
Definition TOLOG : Z := 0x04.

(** [struct putchar_arg] and what has reached the console: [putchar] prints a
    character, [puts] a string; [bufr] is [p_bufr] with the characters between it
    and [p_next], or NULL. *)
Record putchar_arg : Type := mk_pca {
  p_flags : Z; bufr : option str; n_bufr : Z; p_remain : Z; console : list str
}.

Definition putbuf (c : Z) (ap : putchar_arg) : putchar_arg :=
  match bufr ap with
  | None => if has_flag (p_flags ap) TOCONS
            then mk_pca (p_flags ap) None (n_bufr ap) (p_remain ap) (console ap ++ [[c]]) else ap
  | Some b =>
      let r := p_remain ap - 1 in
      if (r =? 2) || (c =? 10) then
        mk_pca (p_flags ap) (Some []) (n_bufr ap) (n_bufr ap)
          (if has_flag (p_flags ap) TOCONS then console ap ++ [b ++ [c]] else console ap)
      else mk_pca (p_flags ap) (Some (b ++ [c])) (n_bufr ap) r (console ap)
  end.

Definition kputchar (ap : putchar_arg) (c : Z) : putchar_arg :=
  if has_flag (p_flags ap) TOCONS then putbuf c ap
  else if has_flag (p_flags ap) TOLOG && negb (c =? 0) then putbuf c ap else ap.

(** Without [PRINTF_BUFR_SIZE]: output is not buffered. The result and what the
    console has received. *)
Definition vprintf (fmt : option str) (ap : list varg) : result (Z * list str) :=
  '(o, _) ← kvprintf fmt 10 ap;
  Ok (Z.of_nat (length o), console (foldl kputchar (mk_pca (Z.lor TOCONS TOLOG) None 0 0 []) o)).
Definition printf (fmt : option str) (ap : list varg) : result (Z * list str) := vprintf fmt ap.

End Printf.
