(* ===== verification/PrintfSpec.v ===== *)
(** Properties of the kernel's formatted output: numbers read back, bounded strings
    are cut and terminated within their size, formats compose. *)
From S2P Require Import Prelude Printf.
Import Printf.

Module PrintfSpec.

(** ** Numbers *)

(** The value of a digit, and of a string of digits in base [base]. *)
Definition digit_val (c : Z) : Z :=
  if is_digit c then c - 48
  else if (97 <=? c) && (c <=? 122) then c - 87
  else if (65 <=? c) && (c <=? 90) then c - 55 else -1.

Definition value (base : Z) (l : str) : Z := foldl (fun n c => n * base + digit_val c) 0 l.

(** A string of digits of base [base] without leading zeros that denotes [num]. *)
Definition numeral (base num : Z) (l : str) : Prop :=
  value base l = num ∧ (1 <= length l <= 64)%nat ∧ Forall (fun c => 0 <= digit_val c < base) l ∧
  (∀ c t, l = c :: t → digit_val c = 0 → num = 0 ∧ t = []).

Lemma hex2ascii_digit i (upper : bool) :
  0 <= i < 36 →
  ∃ c, hex2ascii i = Ok c ∧ digit_val (if upper then toupper c else c) = i.
Proof.
  intros Hi.
  assert (Forall (fun i => ∃ c, hex2ascii i = Ok c ∧ ∀ upper : bool, digit_val (if upper then toupper c else c) = i)
            (seqZ 0 36)) as H.
  { repeat constructor; (eexists; split; [reflexivity | intros []; reflexivity]). }
  rewrite Forall_forall in H. destruct (H i) as (c & E & Hc); [apply elem_of_seqZ; lia |]. eauto.
Qed.

(** The value of the digits from the least significant one on. *)
Definition value_rev (base : Z) (l : str) : Z := foldr (fun c n => n * base + digit_val c) 0 l.

Lemma value_reverse base l : value base (reverse l) = value_rev base l.
Proof.
  unfold value, value_rev. induction l as [| c l IH]; [done |].
  rewrite reverse_cons, foldl_app. cbn. by rewrite IH.
Qed.

Lemma ksprintn_loop_spec base upper : 2 <= base <= 36 → ∀ room num,
  (0 < room)%nat → 0 <= num < base ^ Z.of_nat room →
  ∃ l, ksprintn_loop room num base upper = Ok l ∧ value_rev base l = num ∧
    (1 <= length l <= room)%nat ∧ Forall (fun c => 0 <= digit_val c < base) l ∧
    (∀ t c, l = t ++ [c] → digit_val c = 0 → num = 0 ∧ t = []).
Proof.
  intros Hb. induction room as [| room IH]; intros num Hroom Hnum; [lia |].
  cbn [ksprintn_loop]. rewrite (proj2 (Z.eqb_neq base 0)) by lia.
  pose proof (Z.mod_pos_bound num base) as Hmod. pose proof (Z.div_mod num base) as Hdiv.
  destruct (hex2ascii_digit (num mod base) upper) as (c & Ec & Hc); [lia |]. rewrite Ec.
  unfold mbind, result_bind. set (c' := if upper then toupper c else c) in *.
  destruct (Z.eqb_spec (num / base) 0) as [E0 | E0].
  - exists [c']. rewrite E0 in Hdiv. split_and!; cbn; [done | lia | lia | lia | |].
    + constructor; [lia | done].
    + intros t x E Hx. destruct t as [| y t]; [| by destruct t]. injection E as <-.
      split; [lia | done].
  - rewrite Nat2Z.inj_succ, Z.pow_succ_r in Hnum by lia.
    assert (0 < num / base) by (pose proof (Z.div_pos num base); lia).
    destruct (IH (num / base)) as (l & E & V & L & F & N).
    { destruct room; [| lia]. cbn in Hnum. assert (num / base = 0) by (apply Z.div_small; lia). lia. }
    { split; [lia |]. apply Z.div_lt_upper_bound; lia. }
    rewrite E. exists (c' :: l). split; [done |]. split.
    { change (value_rev base l * base + digit_val c' = num). rewrite V. lia. }
    cbn [length]. split_and!; [lia | lia | |].
    + by constructor; [lia |].
    + intros t x Et Hx. destruct t as [| y t]; [destruct l; cbn in L; [lia | done] |].
      injection Et as _ ->. destruct (N t x eq_refl Hx). lia.
Qed.

Lemma ksprintn_spec num base upper :
  2 <= base <= 36 → 0 <= num < 2 ^ 64 →
  ∃ l, ksprintn num base upper = Ok l ∧ numeral base num l.
Proof.
  intros Hb Hn. unfold ksprintn. rewrite (wrap_u_id 64 base) by lia.
  change (Z.to_nat (MAXNBUF - 1)) with 64%nat.
  destruct (ksprintn_loop_spec base upper Hb 64 num) as (l & E & V & L & F & N); [lia | |].
  { split; [lia |]. apply (Z.lt_le_trans _ (2 ^ 64)); [lia |]. apply Z.pow_le_mono_l. lia. }
  rewrite E. exists (reverse l). split; [done |]. split_and!.
  - by rewrite value_reverse.
  - rewrite length_reverse. lia.
  - rewrite length_reverse. lia.
  - by apply Forall_reverse.
  - intros c t Et Hc. assert (l = reverse t ++ [c]) as El.
    { by rewrite <- (reverse_involutive l), Et, reverse_cons. }
    destruct (N _ _ El Hc) as [-> Ht]. split; [done |].
    by rewrite <- (reverse_involutive t), Ht.
Qed.

(** ** Bounded strings *)

Lemma snprintf_fold o : ∀ w r, 1 <= r →
  foldl snprintf_func (mk_snp w r) o =
    mk_snp (w ++ take (Z.to_nat (r - 1)) o) (Z.max 1 (r - Z.of_nat (length o))).
Proof.
  induction o as [| c o IH]; intros w r Hr; cbn [foldl].
  { rewrite take_nil, app_nil_r. f_equal. cbn. lia. }
  unfold snprintf_func at 2. cbn [remain written]. destruct (Z.leb_spec 2 r).
  - rewrite IH by lia. replace (Z.to_nat (r - 1)) with (S (Z.to_nat (r - 1 - 1))) by lia.
    cbn [take length]. rewrite <- app_assoc. f_equal. lia.
  - rewrite IH by lia. replace (Z.to_nat (r - 1)) with 0%nat by lia. cbn [length take].
    rewrite take_0. f_equal. lia.
Qed.

(** [vsnrprintf], and with it [vsnprintf] and [snprintf], for every format and
    arguments that [kvprintf] prints: the result is the length of the whole output;
    nothing is written when the size is zero, and otherwise the buffer receives as
    much of the output as leaves room for the terminating NUL, then the NUL, so that
    at most [size] bytes are written. *)
Theorem vsnrprintf_truncates (size radix : Z) (format : option str) (ap : list varg) (o : str)
    (vars : list (nat * Z)) :
  0 <= size → kvprintf format radix ap = Ok (o, vars) →
  ∃ bytes, vsnrprintf size radix format ap = Ok (Z.of_nat (length o), bytes) ∧
    bytes = (if size =? 0 then [] else take (Z.to_nat (size - 1)) o ++ [0]) ∧
    Z.of_nat (length bytes) <= size.
Proof.
  intros Hs Hk. unfold vsnrprintf. rewrite Hk. cbn [mbind result_bind]. eexists. split; [reflexivity |].
  destruct (Z.eqb_spec size 0) as [-> | Hne].
  - assert (foldl snprintf_func (mk_snp [] 0) o = mk_snp [] 0) as ->.
    { clear Hk. induction o; [done | exact IHo]. }
    by cbn.
  - rewrite snprintf_fold by lia. cbn [remain written app].
    rewrite (proj2 (Z.leb_le 1 _)) by lia. split; [done |].
    rewrite length_app, length_take. cbn. lia.
Qed.

Lemma vsnrprintf_truncates_witness :
  ∃ bytes, snprintf 4 (Some (lit "n=%d")) [AInt (-12)] = Ok (5, bytes) ∧ bytes = lit "n=-" ++ [0].
Proof.
  destruct (vsnrprintf_truncates 4 10 (Some (lit "n=%d")) [AInt (-12)] (lit "n=-12") [])
    as (bytes & E & Hb & _); [lia | reflexivity |].
  exists bytes. split; [exact E | exact Hb].
Defined.

(** ** Composition *)

(** [s'] is [s] after [p] had been printed, with the arguments [m] still to come. *)
Definition later (p : str) (m : list varg) (s s' : kst) : Prop :=
  k_mode s' = k_mode s ∧ k_out s' = p ++ k_out s ∧ k_args s' = k_args s ++ m.

Lemma later_emit p m s s' l md a : later p m s s' → later p m (emit l md a s) (emit l md (a ++ m) s').
Proof. intros (H1 & H2 & H3). split_and!; cbn; [done | by rewrite H2, app_assoc | done]. Qed.

Lemma later_goto p m s s' md : later p m s s' → later p m (goto md s) (goto md s').
Proof. intros (H1 & H2 & H3). by split_and!. Qed.

(** A [va_arg] that succeeds is not affected by further arguments. *)
Lemma fetch_nosign_app f a m z a' :
  fetch_nosign f a = Ok (z, a') → fetch_nosign f (a ++ m) = Ok (z, a' ++ m).
Proof. unfold fetch_nosign. intros H. split_ifs; by destruct a as [| []]; simplify_eq/=. Qed.

Lemma fetch_sign_app f a m z a' :
  fetch_sign f a = Ok (z, a') → fetch_sign f (a ++ m) = Ok (z, a' ++ m).
Proof. unfold fetch_sign. intros H. split_ifs; by destruct a as [| []]; simplify_eq/=. Qed.

Section Later.

Context (p : str) (m : list varg).

Abbreviation keeps F := (∀ s s' t, F s = Ok t → later p m s s' → ∃ t', F s' = Ok t' ∧ later p m t t').

Lemma handle_nosign_later f base upper : keeps (handle_nosign f base upper).
Proof.
  intros s s' t H Hl. unfold handle_nosign in *. destruct Hl as (H1 & H2 & H3) eqn:El. rewrite H3.
  destruct (fetch_nosign f (k_args s)) as [[num a] |] eqn:Ef; [| done].
  rewrite (fetch_nosign_app _ _ _ _ _ Ef). cbn in *.
  destruct (number _ _ _ _) as [l |]; [| done]. cbn in *. injection H as <-.
  eexists. split; [done |]. by apply later_emit.
Qed.

Lemma handle_sign_later f base : keeps (handle_sign f base).
Proof.
  intros s s' t H Hl. unfold handle_sign in *. destruct Hl as (H1 & H2 & H3) eqn:El. rewrite H3.
  destruct (fetch_sign f (k_args s)) as [[num a] |] eqn:Ef; [| done].
  rewrite (fetch_sign_app _ _ _ _ _ Ef). cbn in *.
  destruct (number _ _ _ _) as [l |]; [| done]. cbn in *. injection H as <-.
  eexists. split; [done |]. by apply later_emit.
Qed.

Lemma conv_b_later : keeps conv_b.
Proof.
  intros s s' t H Hl. pose proof Hl as (H1 & H2 & H3). unfold conv_b in *. rewrite H3.
  destruct (k_args s) as [| [z | | | |] a]; try done. cbn in *.
  destruct a as [| [| | q | |] a]; try done. cbn in *. destruct q as [[| base q] |]; try done. cbn in *.
  destruct (ksprintn _ _ _) as [l |]; [| done]. cbn in *.
  destruct (u32 z =? 0); [injection H as <-; eexists; split; [done | by apply later_emit] |].
  destruct (bit_names _ _ _ _) as [r |]; [| done]. cbn in *. injection H as <-.
  eexists. split; [done | by apply later_emit].
Qed.

Lemma conv_D_later f : keeps (conv_D f).
Proof.
  intros s s' t H Hl. pose proof Hl as (H1 & H2 & H3). unfold conv_D in *. rewrite H3.
  destruct (k_args s) as [| [| | | up |] a]; try done. cbn in *.
  destruct a as [| [| | q | |] a]; try done. cbn in *.
  destruct (if (if width f =? 0 then 16 else width f) =? 1 then Ok [] else deref q) as [sep |]; [| done].
  cbn in *. destruct (hexdump _ _ _) as [l |]; [| done]. cbn in *. injection H as <-.
  eexists. split; [done | by apply later_emit].
Qed.

Lemma conv_n_later f : keeps (conv_n f).
Proof.
  intros s s' t H Hl. pose proof Hl as (H1 & H2 & H3). unfold conv_n in *. rewrite H3.
  destruct (k_args s) as [| [] a]; try done. cbn in *. injection H as <-.
  eexists. split; [done |]. by split_and!.
Qed.

Lemma conv_s_later f : keeps (conv_s f).
Proof.
  intros s s' t H Hl. pose proof Hl as (H1 & H2 & H3). unfold conv_s in *. rewrite H3.
  destruct (k_args s) as [| [] a]; try done. cbn in *. injection H as <-.
  eexists. split; [done |]. by apply later_emit.
Qed.

Lemma conv_later radix pct f ch : keeps (conv radix pct f ch).
Proof.
  intros s s' t H Hl. pose proof Hl as (H1 & H2 & H3). unfold conv in *. cbn zeta in *.
  repeat match type of H with
  | (if ?b then _ else _) = Ok _ => destruct b
  end; try (eapply conv_b_later; eassumption); try (eapply conv_D_later; eassumption);
    try (eapply conv_n_later; eassumption); try (eapply conv_s_later; eassumption);
    try (eapply handle_sign_later; eassumption); try (eapply handle_nosign_later; eassumption);
    try (injection H as <-; eexists; split; [reflexivity |]; try rewrite H3;
         (apply later_goto || apply later_emit); exact Hl).
  all: rewrite H3; destruct (k_args s) as [| [] a]; try done; cbn in *.
  - injection H as <-. eexists. split; [reflexivity |]. by split_and!.
  - injection H as <-. eexists. split; [reflexivity |]. by apply later_emit.
  - destruct (number _ _ _ _) as [l |]; [| done]. cbn in *. injection H as <-.
    eexists. split; [reflexivity |]. by apply later_emit.
Qed.

Lemma step_later radix ch : keeps (fun s => step radix s ch).
Proof.
  intros s s' t H Hl. pose proof Hl as (H1 & H2 & H3). unfold step in *. rewrite H1.
  destruct (k_mode s) as [| pct f | pct f n |].
  - destruct (ch =? 37); injection H as <-; eexists; (split; [reflexivity |]); rewrite ?H3;
      (apply later_goto || apply later_emit); exact Hl.
  - by eapply conv_later.
  - destruct (is_digit ch); [| by eapply conv_later].
    injection H as <-. eexists. split; [reflexivity |]. by apply later_goto.
  - injection H as <-. rewrite H3. eexists. split; [reflexivity |]. by apply later_emit.
Qed.

Lemma run_later radix fmt : keeps (run radix fmt).
Proof.
  induction fmt as [| ch fmt IH]; intros s s' t H Hl; cbn [run] in *.
  { injection H as <-. eauto. }
  destruct (step radix s ch) as [s1 |] eqn:E; [| done].
  destruct (step_later radix ch s s' s1 E Hl) as (s1' & E' & Hl'). cbv beta in E'. rewrite E'. cbn in *.
  by eapply IH.
Qed.

End Later.

Lemma run_app radix f1 f2 s : run radix (f1 ++ f2) s = (s' ← run radix f1 s; run radix f2 s').
Proof.
  revert s. induction f1 as [| ch f1 IH]; intros s; [done |]. cbn [app run].
  destruct (step radix s ch); cbn; [apply IH | done].
Qed.

(** [prints radix fmt ap o]: the format prints [o], uses exactly the arguments [ap],
    and has only conversions that are known. *)
Definition prints (radix : Z) (fmt : str) (ap : list varg) (o : str) : Prop :=
  ∃ v, run (if (radix <? 2) || (36 <? radix) then 10 else radix) fmt (mk_kst Text [] ap []) =
       Ok (mk_kst Text o [] v).

(** A format that prints, followed by another: [kvprintf] of the whole, with the
    arguments of both, prints what the first prints and then what the second one
    prints by itself. *)
Theorem kvprintf_app (radix : Z) (f1 f2 : str) (a1 a2 : list varg) (o1 o2 : str) (v2 : list (nat * Z)) :
  prints radix f1 a1 o1 → kvprintf (Some f2) radix a2 = Ok (o2, v2) →
  ∃ v, kvprintf (Some (f1 ++ f2)) radix (a1 ++ a2) = Ok (o1 ++ o2, v).
Proof.
  intros (v1 & H1) H2. unfold kvprintf in *. cbn [default from_option id] in *.
  set (r := if (radix <? 2) || (36 <? radix) then 10 else radix) in *. rewrite run_app.
  destruct (run_later [] a2 r f1 (mk_kst Text [] a1 []) (mk_kst Text [] (a1 ++ a2) []) _ H1)
    as ([md o a v] & E1 & Hm & Ho & Ha); [by split_and! |]. cbn in Hm, Ho, Ha. subst.
  rewrite E1. cbn [mbind result_bind].
  destruct (run r f2 (mk_kst Text [] a2 [])) as [s2 |] eqn:E2; [| done]. cbn [mbind result_bind] in H2.
  destruct (run_later o1 [] r f2 (mk_kst Text [] a2 []) (mk_kst Text o1 a2 v) s2 E2)
    as ([md' o' a' v'] & E3 & Hm' & Ho' & Ha').
  { split_and!; cbn; [done | by rewrite app_nil_r | by rewrite app_nil_r]. }
  cbn in Hm', Ho', Ha'. rewrite E3. cbn [mbind result_bind k_mode k_out k_vars]. subst.
  destruct (k_mode s2); simplify_eq; eauto.
Qed.

Lemma kvprintf_app_witness :
  ∃ v, kvprintf (Some (lit "%s" ++ lit "=%x %w")) 10 [AStr (Some (lit "len")); AInt 255] =
       Ok (lit "len" ++ lit "=ff %w", v).
Proof.
  refine (kvprintf_app 10 (lit "%s") (lit "=%x %w") [AStr (Some (lit "len"))] [AInt 255]
            (lit "len") (lit "=ff %w") [] _ _); [exists []; reflexivity | reflexivity].
Defined.

(** A format that ends within a conversion is read past its end. *)
Lemma kvprintf_unterminated : kvprintf (Some (lit "100%")) 10 [] = Fault OutOfBounds.
Proof. reflexivity. Qed.

(** ** Decimal conversion *)

(** [%5d], [%-5d] and [%05d]. *)
Inductive style : Type := AlignRight | AlignLeft | ZeroPad.

Definition style_flag (st : style) : str :=
  match st with AlignRight => [] | AlignLeft => lit "-" | ZeroPad => lit "0" end.

Definition minus (z : Z) : str := if z <? 0 then [45] else [].

(** How [ds], the digits of [z], are laid out in a field of width [w]. *)
Definition layout (st : style) (w z : Z) (ds : str) : str :=
  let n := w - Z.of_nat (length (minus z ++ ds)) in
  match st with
  | AlignRight => pad n 32 ++ minus z ++ ds
  | AlignLeft => minus z ++ ds ++ pad n 32
  | ZeroPad => minus z ++ pad n 48 ++ ds
  end.

Lemma digit_val_dec c : 0 <= digit_val c < 10 → is_digit c = true ∧ digit_val c = c - 48.
Proof.
  unfold digit_val. destruct (is_digit c); [done |]. intros H. split_ifs_in H; lia.
Qed.

Lemma value_app base l1 l2 n : foldl (fun n c => n * base + digit_val c) n (l1 ++ l2) =
  foldl (fun n c => n * base + digit_val c) (foldl (fun n c => n * base + digit_val c) n l1) l2.
Proof. apply foldl_app. Qed.

Lemma value_mono l : ∀ n, 0 <= n → Forall (fun c => 0 <= digit_val c < 10) l →
  n <= foldl (fun n c => n * 10 + digit_val c) n l.
Proof.
  induction l as [| c l IH]; intros n Hn Hl; [done |]. apply Forall_cons in Hl as [Hc Hl]. cbn [foldl].
  specialize (IH (n * 10 + digit_val c) ltac:(lia) Hl). lia.
Qed.

(** The digits of a width are read to their value. *)
Lemma run_digits radix ds : ∀ pct f n s,
  Forall (fun c => 0 <= digit_val c < 10) ds → 0 <= n →
  foldl (fun n c => n * 10 + digit_val c) n ds < 2 ^ 31 → k_mode s = Digits pct f n →
  run radix ds s = Ok (goto (Digits (pct ++ ds) f (foldl (fun n c => n * 10 + digit_val c) n ds)) s).
Proof.
  induction ds as [| c ds IH]; intros pct f n s Hds Hn Hlt Hs; cbn [run foldl].
  { rewrite app_nil_r, <- Hs. by destruct s. }
  apply Forall_cons in Hds as [Hc Hds]. destruct (digit_val_dec c Hc) as [Hd Hv].
  pose proof (value_mono ds (n * 10 + digit_val c) ltac:(lia) Hds) as Hm. cbn [foldl] in Hlt.
  unfold step. rewrite Hs, Hd. cbn [mbind result_bind].
  replace (n * 10 + c - 48) with (n * 10 + digit_val c) by lia.
  rewrite wrap_s_id by (change (2 ^ (32 - 1)) with (2 ^ 31); lia).
  erewrite IH; [| done | | done | done]; [| lia]. by rewrite <- app_assoc.
Qed.

(** The flags once the style and the width have been read, and the [d]. *)
Definition style_flags (st : style) (w : Z) : flags :=
  set_sign true (set_width w match st with
    | AlignRight => no_flags | AlignLeft => set_ladjust true no_flags | ZeroPad => set_padc 48 no_flags
    end).

Lemma pad_neg n c : n <= 0 → pad n c = [].
Proof. intros. unfold pad. by replace (Z.to_nat n) with 0%nat by lia. Qed.

Lemma number_dec st w z ds :
  - 2 ^ 31 <= z < 2 ^ 31 → ksprintn (Z.abs z) 10 false = Ok ds → ds ≠ [] →
  number (style_flags st w) 10 false (u64 z) = Ok (layout st w z ds).
Proof.
  intros Hz Hds Hne. assert (s64 (u64 z) = z) as Es.
  { unfold wrap_s, wrap_u. rewrite Z.add_mod_idemp_l by lia. rewrite Z.mod_small; lia. }
  assert (0 < Z.of_nat (length ds)) by (destruct ds; [done | cbn; lia]).
  unfold number. replace (sign (style_flags st w)) with true by (by destruct st). rewrite Es.
  replace (sharpflag (style_flags st w)) with false by (by destruct st). cbn [andb].
  assert ((if z <? 0 then u64 (- z) else u64 z) = Z.abs z) as ->.
  { destruct (Z.ltb_spec z 0); rewrite wrap_u_id; lia. }
  rewrite Hds. cbn [mbind result_bind]. f_equal. unfold layout, minus.
  destruct st; cbn -[Z.mul Z.of_nat]; destruct (Z.ltb_spec z 0); cbn -[Z.mul Z.of_nat];
    rewrite ?app_nil_r;
    repeat match goal with |- context [pad ?n ?c] => rewrite (pad_neg n c) by lia end;
    cbn [app];
    match goal with |- context [pad ?n ?c] => match goal with |- context [pad ?n' c] =>
      assert_fails (unify n n'); replace n with n' by lia end end; reflexivity.
Qed.

(** All characters of the output are bytes. *)
Lemma layout_bytes st w z ds :
  Forall (fun c => 0 <= digit_val c < 10) ds → u8 <$> layout st w z ds = layout st w z ds.
Proof.
  intros Hds. assert (Forall (fun c => u8 c = c) ds) as Hd.
  { eapply Forall_impl; [exact Hds |]. intros c Hc. cbn beta in Hc.
    destruct (digit_val_dec c Hc) as [_ E]. apply wrap_u_id. lia. }
  assert (∀ n c, u8 c = c → Forall (fun c => u8 c = c) (pad n c)) as Hp.
  { intros. apply Forall_replicate. done. }
  assert (Forall (fun c => u8 c = c) (minus z)) as Hm.
  { unfold minus. destruct (z <? 0); repeat constructor. }
  rewrite <- (list_fmap_id (layout st w z ds)) at 2. apply Forall_fmap_ext.
  unfold layout. destruct st; rewrite !Forall_app; auto.
Qed.

Lemma layout_length st w z ds :
  Z.of_nat (length (layout st w z ds)) = Z.max w (Z.of_nat (length (minus z ++ ds))).
Proof. unfold layout, pad. destruct st; rewrite !length_app, length_replicate; lia. Qed.

Lemma conv_digit radix pct f c s :
  49 <= c <= 57 → conv radix pct f c s = Ok (goto (Digits (pct ++ [c]) f (c - 48)) s).
Proof.
  intros Hc. unfold conv, is_digit. cbn zeta.
  do 7 rewrite (proj2 (Z.eqb_neq c _)) by lia. cbn [andb].
  rewrite (proj2 (Z.leb_le 48 c)), (proj2 (Z.leb_le c 57)) by lia. done.
Qed.

(** Reading the flag and the width. *)
Lemma run_width st w ws args :
  0 < w < 2 ^ 31 → numeral 10 w ws →
  ∃ pct, run 10 (lit "%" ++ style_flag st ++ ws) (mk_kst Text [] args []) =
    Ok (mk_kst (Digits pct (match st with
      | AlignRight => no_flags | AlignLeft => set_ladjust true no_flags | ZeroPad => set_padc 48 no_flags
      end) w) [] args []).
Proof.
  intros Hw (Hval & Hlen & Hdig & Hlead). destruct ws as [| c t]; [cbn in Hlen; lia |].
  apply Forall_cons in Hdig as [Hc Ht]. destruct (digit_val_dec c Hc) as [_ Ec].
  assert (digit_val c ≠ 0) as Hc0 by (intros E; destruct (Hlead c t eq_refl E); lia).
  rewrite app_assoc, run_app. set (f := match st with AlignRight => _ | _ => _ end).
  assert (∃ pct, run 10 (lit "%" ++ style_flag st) (mk_kst Text [] args []) =
    Ok (mk_kst (Conv pct f) [] args [])) as [pct ->].
  { destruct st; eexists; reflexivity. }
  cbn [mbind result_bind run]. unfold step at 1. cbn [k_mode]. rewrite conv_digit by lia.
  cbn [mbind result_bind]. change (c :: t) with ([c] ++ t) in Hval.
  assert (foldl (fun n c => n * 10 + digit_val c) (c - 48) t = w) as Hw'.
  { rewrite <- Hval. unfold value. cbn [app foldl]. f_equal. lia. }
  erewrite run_digits; [| exact Ht | | | reflexivity]; [| lia | lia].
  rewrite Hw'. eexists. reflexivity.
Qed.

(** [C38] Decimal conversion with a field width: for every [int] and every width that
    fits one, written in the format in decimal, [%wd], [%-wd] and [%0wd] print the
    decimal numeral of the number, with a minus sign when it is negative, padded on
    the left with spaces, on the right with spaces, or with zeros between the sign
    and the digits; the output is as long as the wider of the field and the
    numeral. *)
Theorem kvprintf_decimal (st : style) (w z : Z) :
  0 < w < 2 ^ 31 → - 2 ^ 31 <= z < 2 ^ 31 →
  ∃ ws ds, numeral 10 w ws ∧ numeral 10 (Z.abs z) ds ∧
    kvprintf (Some (lit "%" ++ style_flag st ++ ws ++ lit "d")) 10 [AInt z] = Ok (layout st w z ds, []) ∧
    Z.of_nat (length (layout st w z ds)) = Z.max w (Z.of_nat (length (minus z ++ ds))).
Proof.
  intros Hw Hz.
  destruct (ksprintn_spec w 10 false) as (ws & _ & Hws); [lia | lia |].
  destruct (ksprintn_spec (Z.abs z) 10 false) as (ds & Eds & Hds); [lia | lia |].
  exists ws, ds. split; [done |]. split; [done |]. split; [| apply layout_length].
  destruct (run_width st w ws [AInt z] Hw Hws) as (pct & Erun).
  unfold kvprintf. cbn [default from_option id]. change ((10 <? 2) || (36 <? 10)) with false. cbn iota.
  rewrite !app_assoc, run_app, <- app_assoc, Erun. cbn [mbind result_bind].
  pose proof (number_dec st w z ds Hz Eds) as Hnum.
  assert (ds ≠ []) as Hne by (destruct Hds as (_ & Hl & _); by destruct ds; cbn in Hl; [lia |]).
  specialize (Hnum Hne). rewrite <- (wrap_s_id 32 z) in Hnum at 1 by (change (2 ^ (32 - 1)) with (2 ^ 31); lia).
  assert (∀ S, k_args S = [AInt z] → k_mode S = Digits pct (match st with
      | AlignRight => no_flags | AlignLeft => set_ladjust true no_flags | ZeroPad => set_padc 48 no_flags
      end) w → run 10 (lit "d") S = Ok (emit (layout st w z ds) Text [] S)) as Hd.
  { intros S. destruct S as [md o a v]; cbn [k_args k_mode]; intros -> ->. set (S := mk_kst _ _ _ _).
    assert (run 10 (lit "d") S = (t ← (l ← number (style_flags st w) 10 false (u64 (s32 z));
      Ok (emit l Text [] S)); Ok t)) as -> by (destruct st; reflexivity).
    rewrite Hnum. reflexivity. }
  rewrite Hd by done. cbn [mbind result_bind emit k_mode k_out k_vars app].
  rewrite layout_bytes by apply Hds. done.
Qed.

Lemma kvprintf_decimal_witness :
  kvprintf (Some (lit "%05d")) 10 [AInt (-42)] = Ok (lit "-0042", []) ∧
  ∃ ws ds, numeral 10 5 ws ∧ numeral 10 42 ds ∧
    kvprintf (Some (lit "%" ++ style_flag ZeroPad ++ ws ++ lit "d")) 10 [AInt (-42)] =
      Ok (layout ZeroPad 5 (-42) ds, []) ∧
    Z.of_nat (length (layout ZeroPad 5 (-42) ds)) = Z.max 5 (Z.of_nat (length (minus (-42) ++ ds))).
Proof. split; [reflexivity |]. apply (kvprintf_decimal ZeroPad 5 (-42)); lia. Defined.

End PrintfSpec.
