(* ===== verification/Uio.v ===== *)
(** Copying between buffers and scatter/gather lists
    (src/src/lib/libuinet/uinet_subr_uio.c) and the copy primitives below it
    (src/src/lib/libuinet/uinet_support.c), over a byte memory.  [struct uio] and
    [struct iovec] are those of src/src/sys/sys/uio.h and _iovec.h. *)
From S2P Require Import Prelude.

Module Uio.

Definition EINVAL : Z := 22.
Definition UIO_MAXIOV : Z := 1024.
Definition UIOFILL_MAXBUF : Z := 256.
Definition TDP_DEADLKTREAT : Z := 0x40.

(** ** Data *)

Inductive uio_seg : Type := UIO_USERSPACE | UIO_SYSSPACE | UIO_NOCOPY.
Inductive uio_rw_t : Type := UIO_READ | UIO_WRITE.

Record iovec : Type := mk_iovec { iov_base : Z; iov_len : Z }.

(** [uio_iov] is the array from the current element on. *)
Record uio : Type := mk_uio {
  uio_iov : list iovec; uio_iovcnt : Z; uio_offset : Z; uio_resid : Z;
  uio_segflg : uio_seg; uio_rw : uio_rw_t
}.

Abbreviation mem := (gmap Z Z).

(** The memory, the flags of the current thread, and the uio worked on. *)
Record ust : Type := mk_ust { u_mem : mem; td_pflags : Z; u_uio : uio }.

Abbreviation U := (M ust).

Definition set_mem (v : mem) (s : ust) : ust := mk_ust v (td_pflags s) (u_uio s).
Definition set_pflags (v : Z) (s : ust) : ust := mk_ust (u_mem s) v (u_uio s).
Definition set_uio (v : uio) (s : ust) : ust := mk_ust (u_mem s) (td_pflags s) v.

(** ** Memory *)

(** The [n] bytes from [a] on; an address that is not mapped faults. *)
Fixpoint load_bytes (n : nat) (a : Z) (m : mem) : result (list Z) :=
  match n with
  | O => Ok []
  | S n' => match m !! a with
            | Some b => t ← load_bytes n' (a + 1) m; Ok (b :: t)
            | None => Fault BadPointer
            end
  end.

Fixpoint store_bytes (l : list Z) (a : Z) (m : mem) : result mem :=
  match l with
  | [] => Ok m
  | b :: t => match m !! a with
              | Some _ => store_bytes t (a + 1) (<[a := b]> m)
              | None => Fault BadPointer
              end
  end.

(** [bcopy(src, dst, n)], and [memcpy] of regions that do not overlap. *)
Definition move_bytes (src dst n : Z) : U unit := fun s =>
  match load_bytes (Z.to_nat n) src (u_mem s) with
  | Ok l => match store_bytes l dst (u_mem s) with
            | Ok m => Ok (tt, set_mem m s)
            | Fault f => Fault f
            end
  | Fault f => Fault f
  end.

(** [memset(a, val, n)] with [val] a byte. *)
Definition memset (a val n : Z) : U unit := fun s =>
  match store_bytes (replicate (Z.to_nat n) (u8 val)) a (u_mem s) with
  | Ok m => Ok (tt, set_mem m s)
  | Fault f => Fault f
  end.

Definition copyin (uaddr kaddr len : Z) : U Z := _ ← move_bytes uaddr kaddr len; mret 0.
Definition copyout (kaddr uaddr len : Z) : U Z := _ ← move_bytes kaddr uaddr len; mret 0.
Definition copyout_nofault (kaddr udaddr len : Z) : U Z := copyout kaddr udaddr len.

Definition subyte (base byte : Z) : U Z := _ ← memset base byte 1; mret 0.
Definition fubyte (base : Z) : U Z := fun s =>
  match u_mem s !! base with Some b => Ok (b, s) | None => Fault BadPointer end.

(** ** Moving *)

(** [uio_iov++, uio_iovcnt--]. *)
Definition next_iov (u : uio) : uio :=
  mk_uio (tail (uio_iov u)) (uio_iovcnt u - 1) (uio_offset u) (uio_resid u) (uio_segflg u) (uio_rw u).

(** [cnt] bytes of the current element have been moved. *)
Definition advance (cnt : Z) (u : uio) : uio :=
  mk_uio (match uio_iov u with
          | v :: t => mk_iovec (iov_base v + cnt) (iov_len v - cnt) :: t
          | [] => []
          end)
    (uio_iovcnt u) (uio_offset u + cnt) (uio_resid u - cnt) (uio_segflg u) (uio_rw u).

(** The switch of [uiomove]. *)
Definition move_chunk (cp cnt : Z) (v : iovec) : U Z :=
  u ← gets u_uio;
  match uio_segflg u with
  | UIO_USERSPACE => match uio_rw u with
                     | UIO_READ => copyout cp (iov_base v) cnt
                     | UIO_WRITE => copyin (iov_base v) cp cnt
                     end
  | UIO_SYSSPACE => match uio_rw u with
                    | UIO_READ => _ ← move_bytes cp (iov_base v) cnt; mret 0
                    | UIO_WRITE => _ ← move_bytes (iov_base v) cp cnt; mret 0
                    end
  | UIO_NOCOPY => mret 0
  end.

(** The loop; [cnt] is a [u_int]. *)
Fixpoint uiomove_loop (fuel : nat) (cp n : Z) : U Z :=
  u ← gets u_uio;
  if (0 <? n) && negb (uio_resid u =? 0) then
    match fuel with
    | O => faultM Blocked
    | S fuel' =>
        match uio_iov u with
        | [] => faultM OutOfBounds
        | v :: _ =>
            let cnt := u32 (iov_len v) in
            if cnt =? 0 then _ ← modify (set_uio (next_iov u)); uiomove_loop fuel' cp n
            else
              let cnt := if n <? cnt then n else cnt in
              error ← move_chunk cp cnt v;
              if negb (error =? 0) then mret error
              else _ ← modify (fun s => set_uio (advance cnt (u_uio s)) s);
                   uiomove_loop fuel' (cp + cnt) (n - cnt)
        end
    end
  else mret 0.

(** The flag is set during the call and restored. *)
Definition with_deadlktreat (body : U Z) : U Z :=
  save ← gets (fun s => Z.land (td_pflags s) TDP_DEADLKTREAT);
  _ ← modify (fun s => set_pflags (Z.lor (td_pflags s) TDP_DEADLKTREAT) s);
  error ← body;
  _ ← (if save =? 0 then modify (fun s => set_pflags (clear_flag (td_pflags s) TDP_DEADLKTREAT) s)
       else mret ());
  mret error.

(** Every round moves a byte or drops an element. *)
Definition uiomove (cp n : Z) : U Z :=
  u ← gets u_uio;
  with_deadlktreat (uiomove_loop (Z.to_nat n + length (uio_iov u)) cp n).

(** ** Filling *)

(** [buf] is the array of the function, which holds [val]; in the user-space case
    it is filled, and copied from, beyond its end when [n] is larger than it. *)
Definition fill_chunk (val cnt : Z) (v : iovec) : U Z :=
  u ← gets u_uio;
  match uio_segflg u with
  | UIO_USERSPACE => _ ← memset (iov_base v) val cnt; mret 0
  | UIO_SYSSPACE => _ ← memset (iov_base v) val cnt; mret 0
  | UIO_NOCOPY => mret 0
  end.

(** Here [cnt] is a [size_t]. *)
Fixpoint uiofill_loop (fuel : nat) (val n : Z) : U Z :=
  u ← gets u_uio;
  if (0 <? n) && negb (uio_resid u =? 0) then
    match fuel with
    | O => faultM Blocked
    | S fuel' =>
        match uio_iov u with
        | [] => faultM OutOfBounds
        | v :: _ =>
            let cnt := iov_len v in
            if cnt =? 0 then _ ← modify (set_uio (next_iov u)); uiofill_loop fuel' val n
            else
              let cnt := if n <? cnt then n else cnt in
              error ← fill_chunk val cnt v;
              if negb (error =? 0) then mret error
              else _ ← modify (fun s => set_uio (advance cnt (u_uio s)) s);
                   uiofill_loop fuel' val (n - cnt)
        end
    end
  else mret 0.

Definition uiofill (val n : Z) : U Z :=
  u ← gets u_uio;
  with_deadlktreat
    (_ ← match uio_segflg u with
         | UIO_USERSPACE => if UIOFILL_MAXBUF <? Z.max UIOFILL_MAXBUF n then faultM Overflow else mret ()
         | _ => mret ()
         end;
     uiofill_loop (Z.to_nat n + length (uio_iov u)) val n).

(** ** Importing a list *)

(** The loop of [copyinuio]: the total, or [None] when it does not fit an [int]. *)
Fixpoint sum_iov (l : list iovec) (resid : Z) : option Z :=
  match l with
  | [] => Some resid
  | v :: t => if u64 (INT_MAX - resid) <? iov_len v then None else sum_iov t (resid + iov_len v)
  end.

(** [iovp] is the array at the user's address, [junk_rw] what the allocated
    structure holds in the field that is not assigned. *)
Definition copyinuio (iovp : list iovec) (iovcnt : Z) (junk_rw : uio_rw_t) : result (Z * option uio) :=
  if UIO_MAXIOV <? iovcnt then Ok (EINVAL, None)
  else if Z.of_nat (length iovp) <? iovcnt then Fault OutOfBounds
  else
    let iov := take (Z.to_nat iovcnt) iovp in
    match sum_iov iov 0 with
    | None => Ok (EINVAL, None)
    | Some r => Ok (0, Some (mk_uio iov iovcnt (-1) r UIO_USERSPACE junk_rw))
    end.

(** ** Strings *)

(** [strlcpy] of the string [s] to [dst]: at most [len - 1] bytes and a NUL; the
    result is the length of [s]. *)
Definition strlcpy (dst : Z) (s : list Z) (len : Z) : U Z := fun st =>
  if len =? 0 then Ok (Z.of_nat (length s), st)
  else match store_bytes (take (Z.to_nat (len - 1)) s ++ [0]) dst (u_mem st) with
       | Ok m => Ok (Z.of_nat (length s), set_mem m st)
       | Fault f => Fault f
       end.

(** The results are the error and what is stored to [*done]. *)
Definition copystr (kfaddr : list Z) (kdaddr len : Z) : U (Z * Z) :=
  bytes ← strlcpy kdaddr kfaddr len; mret (0, bytes).
Definition copyinstr (uaddr : list Z) (kaddr len : Z) : U (Z * Z) :=
  bytes ← strlcpy kaddr uaddr len; mret (0, bytes).

End Uio.
