(* ===== verification/UioSpec.v ===== *)
(** Properties of scatter/gather copying: which bytes move where, that the loops end,
    that a list built by [copyinuio] is fit for them, and that scattering a buffer
    and gathering it again gives it back. *)
From S2P Require Import Prelude Uio.
Import Uio.

Module UioSpec.

(** ** Memory *)

(** The addresses from [a] on. *)
Definition range (a : Z) (n : nat) : list Z := seqZ a (Z.of_nat n).

Lemma range_S a n : range a (S n) = a :: range (a + 1) n.
Proof.
  unfold range. rewrite seqZ_cons by lia. f_equal. f_equal; lia.
Qed.

Lemma length_range a n : length (range a n) = n.
Proof. unfold range. rewrite length_seqZ. lia. Qed.

Lemma elem_of_range x a n : x ∈ range a n ↔ a <= x < a + Z.of_nat n.
Proof. unfold range. rewrite elem_of_seqZ. lia. Qed.

Lemma range_app a n k : range a (n + k) = range a n ++ range (a + Z.of_nat n) k.
Proof. unfold range. rewrite Nat2Z.inj_add, seqZ_app by lia. done. Qed.

Lemma lookup_range a n j : (j < n)%nat → range a n !! j = Some (a + Z.of_nat j).
Proof. intros Hj. unfold range. apply lookup_seqZ. lia. Qed.

Lemma NoDup_range a n : NoDup (range a n).
Proof. apply NoDup_seqZ. Qed.

(** Every address of the list is mapped. *)
Definition mapped (m : mem) (l : list Z) : Prop := Forall (fun a => is_Some (m !! a)) l.

(** [m'] is [m] with the bytes at [S] copied to [D]. *)
Definition copied (D S : list Z) (m m' : mem) : Prop :=
  (∀ j d s, D !! j = Some d → S !! j = Some s → m' !! d = m !! s) ∧
  (∀ a, a ∉ D → m' !! a = m !! a).

Lemma load_bytes_ok m n : ∀ a, mapped m (range a n) →
  ∃ l, load_bytes n a m = Ok l ∧ length l = n ∧
       ∀ j b, l !! j = Some b → m !! (a + Z.of_nat j) = Some b.
Proof.
  induction n as [| n IH]; intros a Hm; cbn [load_bytes].
  { by exists []. }
  rewrite range_S in Hm. apply Forall_cons in Hm as [[b Hb] Hm]. rewrite Hb.
  destruct (IH (a + 1) Hm) as (l & E & Hl & Hlk). rewrite E. exists (b :: l). split; [done |].
  split; [cbn; lia |]. intros [| j] c Hj; cbn in Hj; simplify_eq; [by rewrite Z.add_0_r |].
  rewrite <- (Hlk j c Hj). f_equal. lia.
Qed.

Lemma store_bytes_ok l : ∀ a m, mapped m (range a (length l)) →
  ∃ m', store_bytes l a m = Ok m' ∧ dom m' = dom m ∧
    (∀ j b, l !! j = Some b → m' !! (a + Z.of_nat j) = Some b) ∧
    (∀ x, x ∉ range a (length l) → m' !! x = m !! x).
Proof.
  induction l as [| b l IH]; intros a m Hm; cbn [store_bytes length].
  { exists m. split_and!; done. }
  cbn [length] in Hm. rewrite range_S in Hm. apply Forall_cons in Hm as [[c Hc] Hm]. rewrite Hc.
  destruct (IH (a + 1) (<[a := b]> m)) as (m' & E & Hd & Hin & Hout).
  { eapply Forall_impl; [exact Hm |]. intros x [y Hy]. rewrite lookup_insert. by case_decide; eauto. }
  exists m'. split; [done |]. split_and!.
  - rewrite Hd, dom_insert_L. apply elem_of_dom_2 in Hc. set_solver.
  - intros [| j] y Hj; cbn in Hj; simplify_eq.
    + rewrite Z.add_0_r, Hout; [by rewrite lookup_insert_eq |]. rewrite elem_of_range. lia.
    + rewrite <- (Hin j y Hj). f_equal. lia.
  - intros x Hx. rewrite range_S in Hx. apply not_elem_of_cons in Hx as [Hx1 Hx2].
    rewrite Hout by done. by rewrite lookup_insert_ne.
Qed.

(** A store of bytes that are mapped keeps the same addresses mapped. *)
Lemma mapped_dom m m' l : dom m' = dom m → mapped m l → mapped m' l.
Proof.
  intros Hd Hm. eapply Forall_impl; [exact Hm |]. intros a Ha. apply elem_of_dom. rewrite Hd. by apply elem_of_dom.
Qed.

Lemma move_bytes_ok src dst n s :
  0 <= n → mapped (u_mem s) (range src (Z.to_nat n)) → mapped (u_mem s) (range dst (Z.to_nat n)) →
  ∃ m', move_bytes src dst n s = Ok (tt, set_mem m' s) ∧ dom m' = dom (u_mem s) ∧
    copied (range dst (Z.to_nat n)) (range src (Z.to_nat n)) (u_mem s) m'.
Proof.
  intros Hn Hs Hd. unfold move_bytes.
  destruct (load_bytes_ok (u_mem s) (Z.to_nat n) src Hs) as (l & -> & Hl & Hlk).
  destruct (store_bytes_ok l dst (u_mem s)) as (m' & -> & Hdom & Hin & Hout); [by rewrite Hl |].
  rewrite Hl in Hout. exists m'. split; [done |]. split; [done |]. split; [| done].
  intros j d x Hj Hx. pose proof (lookup_lt_Some _ _ _ Hj) as Hlt. rewrite length_range in Hlt.
  rewrite lookup_range in Hj, Hx by done. simplify_eq.
  destruct (lookup_lt_is_Some_2 l j) as [b Hb]; [lia |]. by rewrite (Hin j b Hb), (Hlk j b Hb).
Qed.

(** Copies one after the other. *)
Lemma copied_app D1 S1 D2 S2 m m1 m2 :
  copied D1 S1 m m1 → copied D2 S2 m1 m2 → length D1 = length S1 →
  (∀ a, a ∈ D1 → a ∉ D2) → (∀ a, a ∈ D1 → a ∉ S2) →
  copied (D1 ++ D2) (S1 ++ S2) m m2.
Proof.
  intros [H1 O1] [H2 O2] Hlen HD HS. split.
  - intros j d s Hd Hs. apply lookup_app_Some in Hd as [Hd | [Hge Hd]].
    + rewrite O2 by (apply HD; by eapply list_elem_of_lookup_2).
      apply (H1 j); [done |]. pose proof (lookup_lt_Some _ _ _ Hd).
      by rewrite lookup_app_l in Hs by lia.
    + rewrite lookup_app_r in Hs by lia. rewrite (H2 (j - length D1)%nat d s Hd) by (by rewrite Hlen).
      rewrite O1; [done |]. intros Hin. apply (HS s Hin). by eapply list_elem_of_lookup_2.
  - intros a [Ha1 Ha2]%not_elem_of_app. by rewrite O2, O1.
Qed.

Lemma mapped_copied D S m m' l :
  copied D S m m' → (length D <= length S)%nat → mapped m S → mapped m l → mapped m' l.
Proof.
  intros [C O] Hlen HS Hl. eapply Forall_impl; [exact Hl |]. intros a Ha.
  destruct (decide (a ∈ D)) as [[j Hj]%list_elem_of_lookup | Hn]; [| by rewrite O].
  destruct (lookup_lt_is_Some_2 S j) as [b Hb]; [apply lookup_lt_Some in Hj; lia |].
  rewrite (C j a b Hj Hb). by apply (proj1 (Forall_lookup _ _) HS j).
Qed.

Lemma copied_nil m : copied [] [] m m.
Proof. split; [by intros [] |]. done. Qed.

(** ** Lists of buffers *)

(** The addresses a list of buffers describes, in order. *)
Definition addrs (l : list iovec) : list Z :=
  concat ((fun v => range (iov_base v) (Z.to_nat (iov_len v))) <$> l).

(** A uio whose residual count is the size of its buffers. *)
Definition uio_wf (u : uio) : Prop :=
  Forall (fun v => 0 <= iov_len v < 2 ^ 32) (uio_iov u) ∧
  uio_resid u = Z.of_nat (length (addrs (uio_iov u))).

Lemma addrs_cons v l : addrs (v :: l) = range (iov_base v) (Z.to_nat (iov_len v)) ++ addrs l.
Proof. done. Qed.

(** What is left of a uio after [k] bytes. *)
Definition rest (k : nat) (u u' : uio) : Prop :=
  uio_wf u' ∧ addrs (uio_iov u') = drop k (addrs (uio_iov u)) ∧
  uio_resid u' = uio_resid u - Z.of_nat k ∧ uio_offset u' = uio_offset u + Z.of_nat k ∧
  uio_segflg u' = uio_segflg u ∧ uio_rw u' = uio_rw u.

Lemma rest_0 u : uio_wf u → rest 0 u u.
Proof. intros H. split; [done |]. split_and!; try done; lia. Qed.

Lemma rest_trans k k' u u1 u2 : rest k u u1 → rest k' u1 u2 → rest (k + k') u u2.
Proof.
  intros (W1 & A1 & R1 & O1 & S1 & Q1) (W2 & A2 & R2 & O2 & S2 & Q2).
  split; [done |]. split_and!; [| lia | lia | congruence | congruence].
  by rewrite A2, A1, drop_drop.
Qed.

Lemma next_iov_rest u v t :
  uio_wf u → uio_iov u = v :: t → iov_len v = 0 → rest 0 u (next_iov u).
Proof.
  intros [Hl Hr] E E0. rewrite E in Hl, Hr. apply Forall_cons in Hl as [_ Hl].
  rewrite addrs_cons, E0 in Hr. unfold rest, uio_wf, next_iov. rewrite E.
  cbn [uio_iov uio_resid uio_offset uio_segflg uio_rw tail]. rewrite drop_0, addrs_cons, E0.
  split_and!; try done; lia.
Qed.

Lemma addrs_advance u v t cnt :
  uio_iov u = v :: t → 0 <= cnt <= iov_len v →
  addrs (uio_iov u) = range (iov_base v) (Z.to_nat cnt) ++ addrs (uio_iov (advance cnt u)).
Proof.
  intros E Hc. unfold advance. rewrite E. cbn [uio_iov]. rewrite !addrs_cons, app_assoc. f_equal.
  cbn [iov_base iov_len].
  replace (Z.to_nat (iov_len v)) with (Z.to_nat cnt + Z.to_nat (iov_len v - cnt))%nat by lia.
  rewrite range_app. do 2 f_equal; lia.
Qed.

Lemma advance_rest u v t cnt :
  uio_wf u → uio_iov u = v :: t → 0 <= cnt <= iov_len v → rest (Z.to_nat cnt) u (advance cnt u).
Proof.
  intros [Hl Hr] E Hc. rewrite E in Hl, Hr. apply Forall_cons in Hl as [Hv Hl].
  pose proof (addrs_advance u v t cnt E Hc) as EA.
  rewrite addrs_cons, !length_app, !length_range in Hr.
  unfold rest, uio_wf, advance. rewrite E. cbn [uio_iov uio_resid uio_offset uio_segflg uio_rw].
  split_and!; try done; try lia.
  - constructor; [cbn; lia | done].
  - rewrite addrs_cons, length_app, length_range. cbn. lia.
  - rewrite <- E, EA. unfold advance. rewrite E. cbn [uio_iov].
    rewrite drop_app_length'; [done | by rewrite length_range].
Qed.

(** ** Moving *)

(** Which side is written, and which is read. *)
Definition to (rw : uio_rw_t) (A C : list Z) : list Z := match rw with UIO_READ => A | UIO_WRITE => C end.
Definition from (rw : uio_rw_t) (A C : list Z) : list Z := to rw C A.

Lemma to_app rw A1 A2 C1 C2 : to rw (A1 ++ A2) (C1 ++ C2) = to rw A1 C1 ++ to rw A2 C2.
Proof. by destruct rw. Qed.
Lemma from_app rw A1 A2 C1 C2 : from rw (A1 ++ A2) (C1 ++ C2) = from rw A1 C1 ++ from rw A2 C2.
Proof. by destruct rw. Qed.

Lemma move_chunk_ok cp cnt v s :
  uio_segflg (u_uio s) ≠ UIO_NOCOPY → 0 <= cnt →
  mapped (u_mem s) (range cp (Z.to_nat cnt)) → mapped (u_mem s) (range (iov_base v) (Z.to_nat cnt)) →
  ∃ m', move_chunk cp cnt v s = Ok (0, set_mem m' s) ∧ dom m' = dom (u_mem s) ∧
    copied (to (uio_rw (u_uio s)) (range (iov_base v) (Z.to_nat cnt)) (range cp (Z.to_nat cnt)))
           (from (uio_rw (u_uio s)) (range (iov_base v) (Z.to_nat cnt)) (range cp (Z.to_nat cnt)))
           (u_mem s) m'.
Proof.
  intros Hseg Hc Hcp Hv. unfold move_chunk, copyin, copyout, mbind, M_bind, gets. cbn.
  destruct (uio_rw (u_uio s)) eqn:Erw; cbn [to from].
  - destruct (move_bytes_ok cp (iov_base v) cnt s Hc Hcp Hv) as (m' & E & Hd & Hcop).
    exists m'. destruct (uio_segflg (u_uio s)); [by rewrite E | by rewrite E | done].
  - destruct (move_bytes_ok (iov_base v) cp cnt s Hc Hv Hcp) as (m' & E & Hd & Hcop).
    exists m'. destruct (uio_segflg (u_uio s)); [by rewrite E | by rewrite E | done].
Qed.

(** The buffers and the [n] bytes at [cp] are mapped and apart. *)
Definition apart (m : mem) (A : list Z) (cp n : Z) : Prop :=
  NoDup A ∧ (∀ a, a ∈ A → a ∉ range cp (Z.to_nat n)) ∧ mapped m A ∧ mapped m (range cp (Z.to_nat n)).

Lemma apart_step m m' A1 A2 cp n cnt :
  0 <= cnt <= n → dom m' = dom m → apart m (A1 ++ A2) cp n → apart m' A2 (cp + cnt) (n - cnt).
Proof.
  intros Hc Hd (Hnd & Hdis & Hm & Hcp). apply NoDup_app in Hnd as (_ & _ & Hnd).
  assert (∀ x, x ∈ range (cp + cnt) (Z.to_nat (n - cnt)) → x ∈ range cp (Z.to_nat n)) as Hsub.
  { intros x. rewrite !elem_of_range. lia. }
  split; [done |]. split_and!.
  - intros a Ha Hin. apply (Hdis a); [apply elem_of_app; by right | by apply Hsub].
  - apply (mapped_dom m); [done |]. by apply Forall_app in Hm as [_ Hm].
  - apply (mapped_dom m); [done |]. apply Forall_forall. intros x Hx. unfold mapped in Hcp.
    rewrite Forall_forall in Hcp. auto.
Qed.

(** A first chunk and what follows it, in either direction. *)
Lemma copied_chunks rw m m1 m2 R A' cp n cnt k :
  0 <= cnt → Z.of_nat (Z.to_nat cnt + k) <= n → length R = Z.to_nat cnt →
  apart m (R ++ A') cp n →
  copied (to rw R (range cp (Z.to_nat cnt))) (from rw R (range cp (Z.to_nat cnt))) m m1 →
  copied (to rw (take k A') (range (cp + cnt) k)) (from rw (take k A') (range (cp + cnt) k)) m1 m2 →
  copied (to rw (R ++ take k A') (range cp (Z.to_nat cnt + k)))
         (from rw (R ++ take k A') (range cp (Z.to_nat cnt + k))) m m2.
Proof.
  intros Hc Hle HR (Hnd & Hdis & _) C1 C2. rewrite range_app, to_app, from_app.
  replace (cp + Z.of_nat (Z.to_nat cnt)) with (cp + cnt) by lia.
  apply NoDup_app in Hnd as (_ & Hnd & _).
  assert (∀ a, a ∈ take k A' → a ∈ A') as Htake by (intros a; apply subseteq_take).
  assert (∀ a, a ∈ range cp (Z.to_nat cnt) ∨ a ∈ range (cp + cnt) k → a ∈ range cp (Z.to_nat n)) as Hr.
  { intros a. rewrite !elem_of_range. lia. }
  eapply copied_app; [exact C1 | exact C2 | | |]; destruct rw; cbn [to from].
  - by rewrite length_range.
  - by rewrite length_range.
  - intros a Ha Ha'. by apply (Hnd a), Htake.
  - intros a. rewrite !elem_of_range. lia.
  - intros a Ha Ha'. apply (Hdis a); [set_solver | auto].
  - intros a Ha Ha'. apply (Hdis a); [apply Htake in Ha'; set_solver | auto].
Qed.

Lemma uiomove_loop_end fuel cp n s :
  0 <= n → n = 0 ∨ uio_resid (u_uio s) = 0 → uiomove_loop fuel cp n s = Ok (0, s).
Proof.
  intros Hn Hor. assert ((0 <? n) && negb (uio_resid (u_uio s) =? 0) = false) as E.
  { destruct Hor as [-> | ->]; [done |]. by rewrite andb_false_r. }
  destruct fuel; cbn [uiomove_loop]; (erewrite M_bind_Ok by reflexivity); cbn beta; by rewrite E.
Qed.

Lemma uiomove_loop_spec : ∀ fuel cp n s,
  uio_wf (u_uio s) → uio_segflg (u_uio s) ≠ UIO_NOCOPY → 0 <= n →
  (Z.to_nat n + length (uio_iov (u_uio s)) <= fuel)%nat →
  apart (u_mem s) (addrs (uio_iov (u_uio s))) cp n →
  let k := Z.to_nat (Z.min n (uio_resid (u_uio s))) in
  let A := take k (addrs (uio_iov (u_uio s))) in
  ∃ m' u', uiomove_loop fuel cp n s = Ok (0, mk_ust m' (td_pflags s) u') ∧ rest k (u_uio s) u' ∧
    copied (to (uio_rw (u_uio s)) A (range cp k)) (from (uio_rw (u_uio s)) A (range cp k)) (u_mem s) m'.
Proof.
  induction fuel as [| fuel IH]; intros cp n s Hwf Hseg Hn Hfuel Hap k A.
  all: destruct (decide (n = 0 ∨ uio_resid (u_uio s) = 0)) as [Hz | Hnz].
  1,3: rewrite uiomove_loop_end by done; exists (u_mem s), (u_uio s);
    assert (k = 0%nat) as Ek by (unfold k; destruct Hwf; lia); subst A; rewrite Ek, take_0;
    (split; [by destruct s |]); (split; [by apply rest_0 |]); destruct (uio_rw _); apply copied_nil.
  { lia. }
  set (u := u_uio s) in *. cbn [uiomove_loop]. erewrite M_bind_Ok by reflexivity. cbn beta. fold u.
  rewrite (proj2 (Z.ltb_lt 0 n)), (proj2 (Z.eqb_neq (uio_resid u) 0)) by lia. cbn [andb negb].
  pose proof Hwf as [Hl Hr]. destruct (uio_iov u) as [| v t] eqn:Eiov; [cbn in Hr; lia |].
  apply Forall_cons in Hl as [Hv _]. rewrite wrap_u_id by lia. cbn zeta. rewrite length_cons in Hfuel.
  destruct (Z.eqb_spec (iov_len v) 0) as [E0 | Hv0].
  - erewrite M_bind_Ok by reflexivity. cbn beta.
    pose proof (next_iov_rest u v t Hwf Eiov E0) as Hrest. pose proof Hrest as (W1 & A1 & R1 & _ & S1 & Q1).
    rewrite Eiov, drop_0 in A1.
    destruct (IH cp n (set_uio (next_iov u) s)) as (m' & u' & E & R & C); cbn [u_uio set_uio u_mem].
    + done.
    + by rewrite S1.
    + done.
    + unfold next_iov. rewrite Eiov. cbn. lia.
    + by rewrite A1.
    + cbn [u_uio set_uio u_mem td_pflags] in E, R, C. rewrite A1, R1, Q1, Z.sub_0_r in C.
      rewrite R1, Z.sub_0_r in R. exists m', u'. split; [exact E |]. split; [| exact C].
      apply (rest_trans 0 k u (next_iov u) u' Hrest R).
  - set (cnt := if n <? iov_len v then n else iov_len v).
    assert (0 < cnt <= n ∧ cnt <= iov_len v) as [Hc1 Hc2].
    { unfold cnt. destruct (Z.ltb_spec n (iov_len v)); lia. }
    pose proof (advance_rest u v t cnt Hwf Eiov ltac:(lia)) as Hrest.
    pose proof Hrest as (W1 & A1 & R1 & _ & S1 & Q1).
    pose proof (addrs_advance u v t cnt Eiov ltac:(lia)) as EA.
    rewrite <- Eiov in Hap. rewrite EA in Hap. pose proof Hap as (_ & _ & Hm & Hcp).
    destruct (move_chunk_ok cp cnt v s) as (m1 & E1 & Hd1 & C1); [done | lia | | |].
    { eapply Forall_forall. unfold mapped in Hcp. rewrite Forall_forall in Hcp. intros x Hx.
      apply Hcp. rewrite elem_of_range in *. lia. }
    { by apply Forall_app in Hm as [Hm _]. }
    erewrite M_bind_Ok by exact E1. cbn [negb]. change (0 =? 0) with true. cbn [negb].
    erewrite M_bind_Ok by reflexivity. cbn beta.
    destruct (IH (cp + cnt) (n - cnt) (set_uio (advance cnt u) (set_mem m1 s))) as (m' & u' & E & R & C).
    + done.
    + exact Hseg.
    + lia.
    + cbn. unfold advance. rewrite Eiov. cbn. lia.
    + by apply (apart_step (u_mem s) m1 (range (iov_base v) (Z.to_nat cnt))); [lia | |].
    + cbn [u_uio set_uio set_mem u_mem td_pflags] in E, R, C. rewrite R1 in R, C. rewrite Q1 in C.
      set (k' := Z.to_nat (Z.min (n - cnt) (uio_resid u - Z.of_nat (Z.to_nat cnt)))) in *.
      rewrite addrs_cons, length_app, length_range in Hr.
      assert (k = (Z.to_nat cnt + k')%nat) as Ek by (unfold k, k'; lia).
      exists m', u'. split; [exact E |]. split; [rewrite Ek; by eapply rest_trans |].
      unfold A. rewrite <- Eiov, EA, Ek, take_app, take_ge, length_range by (rewrite length_range; lia).
      replace (Z.to_nat cnt + k' - Z.to_nat cnt)%nat with k' by lia.
      apply (copied_chunks _ _ m1 _ _ _ _ n); [lia | lia | by rewrite length_range | done | done | done].
Qed.

(** The thread's flag is as before the call. *)
Lemma pflags_restored f :
  (if Z.land f TDP_DEADLKTREAT =? 0 then clear_flag (Z.lor f TDP_DEADLKTREAT) TDP_DEADLKTREAT
   else Z.lor f TDP_DEADLKTREAT) = f.
Proof.
  unfold TDP_DEADLKTREAT. change 0x40 with (2 ^ 6). rewrite land_pow2 by lia.
  destruct (Z.testbit f 6) eqn:E.
  1: change (2 ^ 6 =? 0) with false; cbv iota. 2: change (0 =? 0) with true; cbv iota.
  all: apply Z.bits_inj'; intros i Hi; unfold clear_flag.
  - rewrite Z.lor_spec, Z.pow2_bits_eqb by lia. destruct (Z.eqb_spec 6 i) as [<- |]; [| apply orb_false_r].
    by rewrite E.
  - rewrite Z.land_spec, Z.lor_spec, Z.lnot_spec, Z.pow2_bits_eqb by lia.
    destruct (Z.eqb_spec 6 i) as [<- |]; [by rewrite E |]. by rewrite orb_false_r, andb_true_r.
Qed.

Lemma with_deadlktreat_ok body s e m' u' :
  body (set_pflags (Z.lor (td_pflags s) TDP_DEADLKTREAT) s) =
    Ok (e, mk_ust m' (Z.lor (td_pflags s) TDP_DEADLKTREAT) u') →
  with_deadlktreat body s = Ok (e, mk_ust m' (td_pflags s) u').
Proof.
  intros E. unfold with_deadlktreat. do 2 (erewrite M_bind_Ok by reflexivity; cbn beta).
  erewrite M_bind_Ok by exact E. cbn beta. pose proof (pflags_restored (td_pflags s)) as Hp.
  destruct (Z.land (td_pflags s) TDP_DEADLKTREAT =? 0); (erewrite M_bind_Ok by reflexivity);
    unfold set_pflags, mret, M_ret; cbn; by rewrite Hp.
Qed.

Lemma uiomove_spec cp n s :
  uio_wf (u_uio s) → uio_segflg (u_uio s) ≠ UIO_NOCOPY → 0 <= n →
  apart (u_mem s) (addrs (uio_iov (u_uio s))) cp n →
  let k := Z.to_nat (Z.min n (uio_resid (u_uio s))) in
  let A := take k (addrs (uio_iov (u_uio s))) in
  ∃ m' u', uiomove cp n s = Ok (0, mk_ust m' (td_pflags s) u') ∧ rest k (u_uio s) u' ∧
    copied (to (uio_rw (u_uio s)) A (range cp k)) (from (uio_rw (u_uio s)) A (range cp k)) (u_mem s) m'.
Proof.
  intros Hwf Hseg Hn Hap k A.
  destruct (uiomove_loop_spec (Z.to_nat n + length (uio_iov (u_uio s))) cp n
    (set_pflags (Z.lor (td_pflags s) TDP_DEADLKTREAT) s)) as (m' & u' & E & R & C); try done.
  exists m', u'. split; [| done]. unfold uiomove. erewrite M_bind_Ok by reflexivity. cbn beta.
  by apply with_deadlktreat_ok.
Qed.

(** [C25] [uiomove] on a uio whose residual count is the size of its buffers, with the
    buffers mapped, apart from each other and from the [n] bytes at [cp]: it returns
    0 having moved as many bytes as are asked for and fit, in the order of the
    buffers, into them when reading and out of them when writing; no other byte of
    memory changes, the uio describes exactly what is left and is well formed again,
    and the thread's flags are restored. *)
Theorem uiomove_copies (cp n : Z) (s : ust) :
  uio_wf (u_uio s) → uio_segflg (u_uio s) ≠ UIO_NOCOPY → 0 <= n →
  apart (u_mem s) (addrs (uio_iov (u_uio s))) cp n →
  let k := Z.to_nat (Z.min n (uio_resid (u_uio s))) in
  let A := take k (addrs (uio_iov (u_uio s))) in
  ∃ m' u', uiomove cp n s = Ok (0, mk_ust m' (td_pflags s) u') ∧ rest k (u_uio s) u' ∧
    copied (to (uio_rw (u_uio s)) A (range cp k)) (from (uio_rw (u_uio s)) A (range cp k)) (u_mem s) m'.
Proof. apply uiomove_spec. Qed.

(** ** Importing *)

Definition total (l : list iovec) : Z := foldr Z.add 0 (iov_len <$> l).

Lemma sum_iov_spec l : ∀ r,
  0 <= r <= INT_MAX → Forall (fun v => 0 <= iov_len v < 2 ^ 64) l →
  sum_iov l r = if r + total l <=? INT_MAX then Some (r + total l) else None.
Proof.
  induction l as [| v l IH]; intros r Hr Hl; cbn [sum_iov].
  { unfold total. cbn. rewrite Z.add_0_r. by rewrite (proj2 (Z.leb_le _ _)) by lia. }
  apply Forall_cons in Hl as [Hv Hl]. rewrite wrap_u_id by (unfold INT_MAX in *; lia).
  assert (0 <= total l) as Ht.
  { clear IH. unfold total. induction Hl; cbn in *; lia. }
  change (total (v :: l)) with (iov_len v + total l).
  destruct (Z.ltb_spec (INT_MAX - r) (iov_len v)).
  - by rewrite (proj2 (Z.leb_gt _ _)) by lia.
  - rewrite IH by (done || lia). by rewrite Z.add_assoc.
Qed.

Lemma total_addrs l : Forall (fun v => 0 <= iov_len v) l → Z.of_nat (length (addrs l)) = total l.
Proof.
  induction 1 as [| v l Hv _ IH]; [done |]. rewrite addrs_cons, length_app, length_range.
  change (total (v :: l)) with (iov_len v + total l). lia.
Qed.

Lemma total_bound l v : Forall (fun v => 0 <= iov_len v) l → v ∈ l → iov_len v <= total l.
Proof.
  induction 1 as [| w l Hw Hl IH]; intros Hv; [by apply not_elem_of_nil in Hv |].
  change (total (w :: l)) with (iov_len w + total l).
  assert (0 <= total l) by (rewrite <- total_addrs by done; lia).
  apply elem_of_cons in Hv as [-> | Hv]; [lia |]. specialize (IH Hv). lia.
Qed.

(** What [copyinuio] makes of a list. *)
Definition imported (iovs : list iovec) (rw : uio_rw_t) : uio :=
  mk_uio iovs (Z.of_nat (length iovs)) (-1) (total iovs) UIO_USERSPACE rw.

Lemma copyinuio_eq iovp iovcnt rw :
  0 <= iovcnt <= Z.of_nat (length iovp) → Forall (fun v => 0 <= iov_len v < 2 ^ 64) iovp →
  let iovs := take (Z.to_nat iovcnt) iovp in
  copyinuio iovp iovcnt rw =
    Ok (if (iovcnt <=? UIO_MAXIOV) && (total iovs <=? INT_MAX) then (0, Some (imported iovs rw))
        else (EINVAL, None)).
Proof.
  intros Hc Hl iovs. unfold copyinuio.
  destruct (Z.ltb_spec UIO_MAXIOV iovcnt).
  - by rewrite (proj2 (Z.leb_gt iovcnt _)) by lia.
  - rewrite (proj2 (Z.leb_le iovcnt _)), (proj2 (Z.ltb_ge _ _)) by lia. cbn [andb]. fold iovs.
    rewrite sum_iov_spec by (done || (apply Forall_take; done)). rewrite Z.add_0_l.
    destruct (total iovs <=? INT_MAX); [| done]. unfold imported, iovs.
    rewrite length_take, Nat.min_l, Z2Nat.id by lia. done.
Qed.

Lemma imported_wf iovs rw :
  Forall (fun v => 0 <= iov_len v < 2 ^ 64) iovs → total iovs <= INT_MAX → uio_wf (imported iovs rw).
Proof.
  intros Hl Ht. assert (Forall (fun v => 0 <= iov_len v) iovs) as Hl'.
  { eapply Forall_impl; [exact Hl |]. intros v Hv. cbn beta in Hv. lia. }
  split; cbn [imported uio_iov uio_resid]; [| by rewrite total_addrs].
  apply Forall_forall. intros v Hv. pose proof (total_bound _ _ Hl' Hv). unfold INT_MAX in *.
  rewrite Forall_forall in Hl'. specialize (Hl' v Hv). cbn beta in Hl'. lia.
Qed.

(** [C40] [copyinuio] accepts exactly the lists of at most 1024 buffers whose sizes add
    up to at most [INT_MAX], and gives for them a uio over those buffers whose
    residual count is their total size: the well-formedness [uiomove] relies on.
    All others are refused with [EINVAL] and no uio. *)
Theorem copyinuio_wf (iovp : list iovec) (iovcnt : Z) (rw : uio_rw_t) :
  0 <= iovcnt <= Z.of_nat (length iovp) → Forall (fun v => 0 <= iov_len v < 2 ^ 64) iovp →
  let iovs := take (Z.to_nat iovcnt) iovp in
  if decide (iovcnt <= UIO_MAXIOV ∧ total iovs <= INT_MAX) then
    ∃ u, copyinuio iovp iovcnt rw = Ok (0, Some u) ∧ uio_wf u ∧ uio_iov u = iovs ∧
         uio_resid u = total iovs ∧ uio_segflg u = UIO_USERSPACE
  else copyinuio iovp iovcnt rw = Ok (EINVAL, None).
Proof.
  intros Hc Hl iovs. rewrite copyinuio_eq by done. fold iovs. case_decide as Hd.
  - rewrite (proj2 (Z.leb_le iovcnt _)), (proj2 (Z.leb_le (total iovs) _)) by lia.
    eexists. split; [reflexivity |]. split_and!; [| done..].
    apply imported_wf; [by apply Forall_take | lia].
  - destruct (Z.leb_spec iovcnt UIO_MAXIOV), (Z.leb_spec (total iovs) INT_MAX); cbn [andb]; [| done..].
    lia.
Qed.

(** Scattering and gathering: when a list of buffers is imported, [n] bytes are
    moved into them, the list is imported again, and [n] bytes are moved out of it to
    another place, then the bytes that fit arrive there unchanged. *)
Theorem uiomove_roundtrip (iovp : list iovec) (iovcnt src dst n pf : Z) (m : mem) (r w : uio) :
  0 <= n → 0 <= iovcnt <= Z.of_nat (length iovp) → Forall (fun v => 0 <= iov_len v < 2 ^ 64) iovp →
  copyinuio iovp iovcnt UIO_READ = Ok (0, Some r) → copyinuio iovp iovcnt UIO_WRITE = Ok (0, Some w) →
  apart m (addrs (take (Z.to_nat iovcnt) iovp)) src n →
  apart m (addrs (take (Z.to_nat iovcnt) iovp)) dst n →
  ∃ m1 r1 m2 w1,
    uiomove src n (mk_ust m pf r) = Ok (0, mk_ust m1 pf r1) ∧
    uiomove dst n (mk_ust m1 pf w) = Ok (0, mk_ust m2 pf w1) ∧
    ∀ j, 0 <= j < Z.min n (uio_resid r) → m2 !! (dst + j) = m !! (src + j).
Proof.
  intros Hn Hc Hl Er Ew Hs Hd. set (iovs := take (Z.to_nat iovcnt) iovp) in *.
  rewrite copyinuio_eq in Er, Ew by done. fold iovs in Er, Ew.
  destruct (Z.leb_spec (total iovs) INT_MAX) as [Ht |]; rewrite ?andb_false_r in *; [| done].
  rewrite andb_true_r in *. destruct (iovcnt <=? UIO_MAXIOV); [| done]. simplify_eq.
  pose proof (Forall_take _ (Z.to_nat iovcnt) _ Hl) as Hl'. fold iovs in Hl'.
  destruct (uiomove_spec src n (mk_ust m pf (imported iovs UIO_READ))) as (m1 & r1 & E1 & R1 & C1);
    [by apply imported_wf | done | done | done |].
  cbn [u_uio u_mem td_pflags uio_rw imported uio_iov uio_resid to from] in *.
  set (k := Z.to_nat (Z.min n (total iovs))) in *. set (A := take k (addrs iovs)) in *.
  assert (Forall (fun v => 0 <= iov_len v) iovs) as Hl0.
  { eapply Forall_impl; [exact Hl' |]. intros v Hv. cbn beta in Hv. lia. }
  assert (length A = k) as HA.
  { unfold A. rewrite length_take. pose proof (total_addrs _ Hl0). lia. }
  assert (mapped m (range src k)) as Hsrc.
  { destruct Hs as (_ & _ & _ & Hs). unfold mapped in *. rewrite Forall_forall in Hs |- *.
    intros x Hx. apply Hs. rewrite elem_of_range in *. lia. }
  assert (apart m1 (addrs iovs) dst n) as Hd1.
  { destruct Hd as (H1 & H2 & H3 & H4).
    split_and!; [done | done | | ]; apply (mapped_copied A (range src k) m m1); rewrite ?length_range; done || lia. }
  destruct (uiomove_spec dst n (mk_ust m1 pf (imported iovs UIO_WRITE))) as (m2 & w1 & E2 & R2 & C2);
    [by apply imported_wf | done | done | done |].
  cbn [u_uio u_mem td_pflags uio_rw imported uio_iov uio_resid to from] in *.
  exists m1, r1, m2, w1. split; [done |]. split; [done |]. intros j Hj.
  destruct (lookup_lt_is_Some_2 A (Z.to_nat j)) as [a Ha]; [lia |].
  pose proof (lookup_range dst k (Z.to_nat j) ltac:(lia)) as Ldst.
  pose proof (lookup_range src k (Z.to_nat j) ltac:(lia)) as Lsrc. rewrite Z2Nat.id in Ldst, Lsrc by lia.
  destruct C2 as [C2 _], C1 as [C1 _]. by rewrite (C2 _ _ _ Ldst Ha), (C1 _ _ _ Ha Lsrc).
Qed.

(** ** Filling *)

(** [uiofill] of a user-space list with a count above 256 writes past its own
    256-byte buffer before anything is copied: [imax] where a minimum is meant. *)
Theorem uiofill_overflow (val n : Z) (s : ust) :
  uio_segflg (u_uio s) = UIO_USERSPACE → 256 < n → uiofill val n s = Fault Overflow.
Proof.
  intros Hseg Hn. unfold uiofill, with_deadlktreat. do 3 (erewrite M_bind_Ok by reflexivity; cbn beta).
  rewrite Hseg. rewrite (proj2 (Z.ltb_lt _ _)) by (unfold UIOFILL_MAXBUF; lia). done.
Qed.

(** ** Witnesses *)

(** Twenty bytes from 1000 on that hold their own offsets, and as many at 2000. *)
Definition ex_mem : mem :=
  list_to_map ((fun i => (1000 + i, i)) <$> seqZ 0 20) ∪ list_to_map ((fun i => (2000 + i, 255)) <$> seqZ 0 20).
Definition ex_iov : list iovec := [mk_iovec 2000 3; mk_iovec 2010 0; mk_iovec 2005 4].

#[local] Instance mapped_dec m l : Decision (mapped m l) := _.
#[local] Instance apart_dec m A cp n : Decision (apart m A cp n).
Proof.
  unfold apart. apply and_dec; [apply _ |]. apply and_dec; [| apply _].
  destruct (decide (Forall (fun a => a ∉ range cp (Z.to_nat n)) A)) as [H | H];
    [left | right]; rewrite Forall_forall in H; done.
Defined.

Lemma ex_iov_lens : Forall (fun v => 0 <= iov_len v < 2 ^ 64) ex_iov.
Proof. repeat constructor; cbn; lia. Qed.

Lemma uiomove_copies_witness :
  ∃ m' u', uiomove 1000 5 (mk_ust ex_mem 0 (imported ex_iov UIO_READ)) = Ok (0, mk_ust m' 0 u') ∧
    m' !! 2006 = Some 4 ∧ m' !! 2007 = Some 255.
Proof.
  destruct (uiomove_copies 1000 5 (mk_ust ex_mem 0 (imported ex_iov UIO_READ))) as (m' & u' & E & _ & C & O).
  - apply imported_wf; [apply ex_iov_lens | done].
  - done.
  - lia.
  - apply (bool_decide_unpack _). vm_compute. exact I.
  - exists m', u'. split; [exact E |]. cbn [u_uio u_mem imported uio_rw to from] in C, O. split.
    + rewrite (C 4%nat 2006 1004); reflexivity.
    + rewrite O; [reflexivity |]. apply (bool_decide_unpack _). vm_compute. exact I.
Defined.

Lemma copyinuio_wf_witness :
  (∃ u, copyinuio ex_iov 3 UIO_READ = Ok (0, Some u) ∧ uio_resid u = 7) ∧
  copyinuio [mk_iovec 0 INT_MAX; mk_iovec 0 1] 2 UIO_READ = Ok (EINVAL, None).
Proof.
  split.
  - destruct (copyinuio_wf ex_iov 3 UIO_READ ltac:(cbn; lia) ex_iov_lens) as (u & E & _ & _ & R & _).
    exists u. split; [exact E | exact R].
  - refine (copyinuio_wf [mk_iovec 0 INT_MAX; mk_iovec 0 1] 2 UIO_READ _ _); [cbn; lia |].
    rewrite !Forall_cons. cbn. unfold INT_MAX. split_and!; done || lia.
Defined.

Lemma uiomove_roundtrip_witness : ∃ m1 r1 m2 w1,
  uiomove 1000 5 (mk_ust ex_mem 0 (imported ex_iov UIO_READ)) = Ok (0, mk_ust m1 0 r1) ∧
  uiomove 1010 5 (mk_ust m1 0 (imported ex_iov UIO_WRITE)) = Ok (0, mk_ust m2 0 w1) ∧
  m2 !! 1014 = Some 4.
Proof.
  destruct (uiomove_roundtrip ex_iov 3 1000 1010 5 0 ex_mem (imported ex_iov UIO_READ)
    (imported ex_iov UIO_WRITE)) as (m1 & r1 & m2 & w1 & E1 & E2 & H).
  - lia.
  - cbn; lia.
  - apply ex_iov_lens.
  - reflexivity.
  - reflexivity.
  - apply (bool_decide_unpack _). vm_compute. exact I.
  - apply (bool_decide_unpack _). vm_compute. exact I.
  - exists m1, r1, m2, w1. split; [exact E1 |]. split; [exact E2 |]. etransitivity; [apply (H 4) | reflexivity].
    cbn. lia.
Defined.

Lemma uiofill_overflow_witness :
  uiofill 0 257 (mk_ust ∅ 0 (imported [mk_iovec 2000 300] UIO_READ)) = Fault Overflow.
Proof. apply uiofill_overflow; [reflexivity | lia]. Defined.

End UioSpec.
