(* ===== verification/SleepQ.v ===== *)
(** Sleeping and waking (src/src/lib/libuinet/uinet_kern_synch.c, over the condition
    variables of uinet_kern_condvar.c).  The hash table of sleep entries is only
    touched with [synch_lock] held, so a critical section of that lock is one step;
    between them threads interleave.  The local state of a thread inside [_sleep] or
    [msleep_spin] is a program point [pc]. *)
From S2P Require Import Prelude.

Module SleepQ.

Definition EWOULDBLOCK : Z := 35.

(** ** Data *)

Record sleep_entry : Type := mk_se { se_chan : Z; se_wmesg : string; se_waiters : Z }.

(** The live entries, the buckets of [se_active], and the owner of each mutex that is
    held (the caller's locks; [synch_lock] is never held between steps). *)
Record synch : Type := mk_synch {
  entries : gmap nat sleep_entry; se_active : list (list nat); owner : gmap Z nat
}.

Abbreviation Q := (M synch).

Definition set_entries (v : gmap nat sleep_entry) (q : synch) : synch := mk_synch v (se_active q) (owner q).
Definition set_active (v : list (list nat)) (q : synch) : synch := mk_synch (entries q) v (owner q).
Definition set_owner (v : gmap Z nat) (q : synch) : synch := mk_synch (entries q) (se_active q) v.

(** [hashinit(64, ...)] makes 64 lists and the mask 63. *)
Definition se_hashmask : Z := 63.
Definition SE_HASH (chan : Z) : nat := Z.to_nat (Z.land chan se_hashmask).
Definition synch_setup : synch := mk_synch ∅ (replicate 64 []) ∅.

(** ** The table *)

Definition get_se (se : nat) : Q sleep_entry := fun q =>
  match entries q !! se with Some e => Ok (e, q) | None => Fault BadPointer end.

(** [malloc] gave [p]. *)
Definition se_alloc (p : option nat) (chan : Z) (wmesg : string) : Q nat :=
  se ← liftR (deref p);
  _ ← modify (fun q => set_entries (<[se := mk_se chan wmesg 1]> (entries q)) q);
  _ ← modify (fun q => set_active (alter (cons se) (SE_HASH chan) (se_active q)) q);
  mret se.

(** [LIST_FOREACH]. *)
Fixpoint se_find (chan : Z) (l : list nat) : Q (option nat) :=
  match l with
  | [] => mret None
  | se :: t => e ← get_se se; if se_chan e =? chan then mret (Some se) else se_find chan t
  end.

Definition se_lookup (chan : Z) : Q (option nat) :=
  active ← gets se_active;
  match active !! SE_HASH chan with
  | Some hash_list => se_find chan hash_list
  | None => faultM OutOfBounds
  end.

(** [LIST_REMOVE] takes the entry off the list it is on. *)
Definition se_free (se : nat) : Q unit :=
  e ← get_se se;
  let w := s32 (se_waiters e - 1) in
  _ ← modify (fun q => set_entries (<[se := mk_se (se_chan e) (se_wmesg e) w]> (entries q)) q);
  if w =? 0 then
    _ ← modify (fun q => set_active (filter (fun x => x ≠ se) <$> se_active q) q);
    modify (fun q => set_entries (delete se (entries q)) q)
  else mret ().

(** The first critical section of [_sleep] and of [msleep_spin]. *)
Definition sleep_enter (p : option nat) (ident : Z) (wmesg : string) : Q nat :=
  o ← se_lookup ident;
  match o with
  | Some se =>
      e ← get_se se;
      _ ← modify (fun q =>
        set_entries (<[se := mk_se (se_chan e) (se_wmesg e) (s32 (se_waiters e + 1))]> (entries q)) q);
      mret se
  | None => se_alloc p ident wmesg
  end.

(** ** Threads *)

Inductive pc : Type :=
| Running                                          (** not in this file *)
| P_enter (ident m : Z) (wmesg : string) (timo : Z) (** before the first section *)
| P_wait (ident : Z) (se : nat) (m timo : Z)       (** before the wait, [m] held *)
| P_waiting (ident : Z) (se : nat) (m timo : Z)    (** on the condition variable *)
| P_relock (ident : Z) (se : nat) (m rv : Z)       (** woken, [m] to be taken again *)
| P_leave (ident : Z) (se : nat) (m rv : Z)        (** before the last section *)
| P_nano (nsecs rv : Z)                            (** in [uhi_nanosleep] *)
| P_ret (rv : Z).                                  (** the call returns [rv] *)

#[export] Instance pc_eq_dec : EqDecision pc.
Proof. solve_decision. Defined.

(** Ticks to nanoseconds, in [uint64_t]. *)
Definition timo_nsecs (hz timo : Z) : Z := u64 (u64 timo * (1000 * 1000 * 1000)) / hz.

(** Where a call of [_sleep] goes first; [priority] is not looked at. *)
Definition _sleep (hz ident : Z) (lock : option Z) (priority : Z) (wmesg : string) (timo : Z) : pc :=
  match lock with
  | Some m => P_enter ident m wmesg timo
  | None => if negb (timo =? 0) then P_nano (timo_nsecs hz timo) EWOULDBLOCK else P_ret 0
  end.

Definition msleep_spin (ident mtx : Z) (wmesg : string) (timo : Z) : pc := P_enter ident mtx wmesg timo.

Definition tsleep (hz chan pri : Z) (wmesg : string) (timo : Z) : pc := _sleep hz chan None pri wmesg timo.

Definition pause (hz pause_wchan : Z) (wmesg : string) (timo : Z) : pc :=
  let timo := if timo <? 1 then 1 else timo in tsleep hz pause_wchan 0 wmesg timo.

(** ** Waking *)

(** The threads on the condition variable of [se]. *)
Definition waits_on (se : nat) (p : pc) : bool :=
  match p with P_waiting _ se' _ _ => bool_decide (se' = se) | _ => false end.

Definition wake (p : pc) : pc :=
  match p with P_waiting ident se m _ => P_relock ident se m 0 | _ => p end.

Definition cv_broadcast (se : nat) (ts : list pc) : list pc :=
  (fun p => if waits_on se p then wake p else p) <$> ts.

(** [w] is the thread the host picks. *)
Definition cv_signal (se w : nat) (ts : list pc) : list pc :=
  match ts !! w with Some p => if waits_on se p then <[w := wake p]> ts else ts | None => ts end.

Definition wakeup (chan : Z) (q : synch) (ts : list pc) : result (synch * list pc) :=
  match se_lookup chan q with
  | Ok (Some se, q') => Ok (q', cv_broadcast se ts)
  | Ok (None, q') => Ok (q', ts)
  | Fault f => Fault f
  end.

Definition wakeup_one (chan : Z) (w : nat) (q : synch) (ts : list pc) : result (synch * list pc) :=
  match se_lookup chan q with
  | Ok (Some se, q') => Ok (q', cv_signal se w ts)
  | Ok (None, q') => Ok (q', ts)
  | Fault f => Fault f
  end.

(** ** The system *)

(** One step of one thread.  A caller of [_sleep] with a lock holds it, as the
    comment of the function asks; a wait can end for no reason, as POSIX allows. *)
Inductive step (hz : Z) : synch * list pc → synch * list pc → Prop :=
| s_lock q ts t m :
    ts !! t = Some Running → owner q !! m = None →
    step hz (q, ts) (set_owner (<[m := t]> (owner q)) q, ts)
| s_unlock q ts t m :
    ts !! t = Some Running → owner q !! m = Some t →
    step hz (q, ts) (set_owner (delete m (owner q)) q, ts)
| s_sleep q ts t ident lock pri wmesg timo :
    ts !! t = Some Running → (∀ m, lock = Some m → owner q !! m = Some t) →
    step hz (q, ts) (q, <[t := _sleep hz ident lock pri wmesg timo]> ts)
| s_enter q ts t ident m wmesg timo p se q' :
    ts !! t = Some (P_enter ident m wmesg timo) → entries q !! p = None →
    sleep_enter (Some p) ident wmesg q = Ok (se, q') →
    step hz (q, ts) (q', <[t := P_wait ident se m timo]> ts)
| s_wait q ts t ident se m timo :
    ts !! t = Some (P_wait ident se m timo) →
    step hz (q, ts) (set_owner (delete m (owner q)) q, <[t := P_waiting ident se m timo]> ts)
| s_timeout q ts t ident se m timo :
    ts !! t = Some (P_waiting ident se m timo) → timo ≠ 0 →
    step hz (q, ts) (q, <[t := P_relock ident se m EWOULDBLOCK]> ts)
| s_spurious q ts t ident se m timo :
    ts !! t = Some (P_waiting ident se m timo) →
    step hz (q, ts) (q, <[t := P_relock ident se m 0]> ts)
| s_relock q ts t ident se m rv :
    ts !! t = Some (P_relock ident se m rv) → owner q !! m = None →
    step hz (q, ts) (set_owner (<[m := t]> (owner q)) q, <[t := P_leave ident se m rv]> ts)
| s_leave q ts t ident se m rv q' :
    ts !! t = Some (P_leave ident se m rv) → se_free se q = Ok (tt, q') →
    step hz (q, ts) (q', <[t := P_ret rv]> ts)
| s_nano q ts t nsecs rv :
    ts !! t = Some (P_nano nsecs rv) → step hz (q, ts) (q, <[t := P_ret rv]> ts)
| s_return q ts t rv :
    ts !! t = Some (P_ret rv) → step hz (q, ts) (q, <[t := Running]> ts)
| s_wakeup q ts t chan q' ts' :
    ts !! t = Some Running → wakeup chan q ts = Ok (q', ts') → step hz (q, ts) (q', ts')
| s_wakeup_one q ts t chan w q' ts' :
    ts !! t = Some Running → wakeup_one chan w q ts = Ok (q', ts') → step hz (q, ts) (q', ts').

End SleepQ.
