(* ===== verification/SleepQSpec.v ===== *)
(** Properties of sleeping and waking: the sleep entries are reference counted by the
    threads that use them, every channel has at most one, no step touches a freed
    one, and a wakeup sent with the caller's lock held is not lost. *)
From stdpp Require Import relations.
From S2P Require Import Prelude SleepQ.
Import SleepQ.

Module SleepQSpec.

(** What a thread uses of the table: the channel and the entry. *)
Definition sleeping (p : pc) : option (Z * nat) :=
  match p with
  | P_wait ident se _ _ | P_waiting ident se _ _ | P_relock ident se _ _ | P_leave ident se _ _ =>
      Some (ident, se)
  | _ => None
  end.

(** The caller's lock, while the thread is in the call and has it. *)
Definition holds (p : pc) : option Z :=
  match p with
  | P_enter _ m _ _ | P_wait _ _ m _ | P_leave _ _ m _ => Some m
  | _ => None
  end.

Abbreviation uses := (list (option (Z * nat))).

(** The number of threads that use entry [se]. *)
Definition users (se : nat) (S : uses) : Z := count_if (fun o => bool_decide (snd <$> o = Some se)) S.

(** ** The table *)

Record table_ok (q : synch) : Prop := {
  tb_len : length (se_active q) = 64%nat;
  tb_in : ∀ p e, entries q !! p = Some e → ∃ b, se_active q !! SE_HASH (se_chan e) = Some b ∧ p ∈ b;
  tb_out : ∀ i b p, se_active q !! i = Some b → p ∈ b →
    ∃ e, entries q !! p = Some e ∧ SE_HASH (se_chan e) = i;
  tb_nodup : ∀ i b, se_active q !! i = Some b → NoDup b;
  tb_uniq : ∀ p e p' e', entries q !! p = Some e → entries q !! p' = Some e' →
    se_chan e = se_chan e' → p = p'
}.

(** The table and the threads that use it. *)
Record tab_inv (q : synch) (S : uses) : Prop := {
  ti_table : table_ok q;
  ti_count : ∀ p, match entries q !! p with
                  | Some e => se_waiters e = users p S ∧ 0 < users p S
                  | None => users p S = 0
                  end;
  ti_chan : ∀ t ident se, S !! t = Some (Some (ident, se)) →
    ∃ e, entries q !! se = Some e ∧ se_chan e = ident;
  ti_bound : Z.of_nat (length S) < 2 ^ 31
}.

Lemma SE_HASH_lt chan : (SE_HASH chan < 64)%nat.
Proof.
  unfold SE_HASH, se_hashmask. change 63 with (Z.ones 6). rewrite Z.land_ones by lia.
  pose proof (Z.mod_pos_bound chan (2 ^ 6)). lia.
Qed.

Lemma bucket_is q chan : table_ok q → is_Some (se_active q !! SE_HASH chan).
Proof. intros H. apply lookup_lt_is_Some_2. rewrite (tb_len q H). apply SE_HASH_lt. Qed.

Lemma se_find_spec chan q l :
  (∀ p, p ∈ l → is_Some (entries q !! p)) →
  ∃ o, se_find chan l q = Ok (o, q) ∧
    match o with
    | Some p => p ∈ l ∧ ∃ e, entries q !! p = Some e ∧ se_chan e = chan
    | None => ∀ p e, p ∈ l → entries q !! p = Some e → se_chan e ≠ chan
    end.
Proof.
  induction l as [| p l IH]; intros Hl; cbn [se_find].
  { exists None. split; [done |]. intros ? ? H. by apply not_elem_of_nil in H. }
  destruct (Hl p) as [e He]; [constructor |].
  erewrite M_bind_Ok by (unfold get_se; by rewrite He). cbn beta.
  destruct (Z.eqb_spec (se_chan e) chan) as [Ec | Hc].
  - exists (Some p). split; [done |]. split; [constructor | by eauto].
  - destruct IH as (o & E & Ho); [intros; apply Hl; by constructor |]. exists o. split; [done |].
    destruct o; [destruct Ho; split; [by constructor | done] |].
    intros p' e' [-> | Hp']%elem_of_cons He'; [by simplify_eq | by eapply Ho].
Qed.

(** The entry of a channel is found, and only that one. *)
Lemma se_lookup_spec q chan :
  table_ok q →
  ∃ o, se_lookup chan q = Ok (o, q) ∧
    match o with
    | Some p => ∃ e, entries q !! p = Some e ∧ se_chan e = chan
    | None => ∀ p e, entries q !! p = Some e → se_chan e ≠ chan
    end.
Proof.
  intros Ht. destruct (bucket_is q chan Ht) as [b Hb]. unfold se_lookup.
  erewrite M_bind_Ok by reflexivity. cbn beta. rewrite Hb.
  destruct (se_find_spec chan q b) as (o & E & Ho).
  { intros p Hp. destruct (tb_out q Ht _ _ _ Hb Hp) as (e & -> & _). done. }
  exists o. split; [done |]. destruct o; [by destruct Ho |]. intros p e He Hc.
  destruct (tb_in q Ht _ _ He) as (b' & Hb' & Hp). rewrite Hc, Hb in Hb'. simplify_eq. by eapply Ho.
Qed.

Lemma se_lookup_found q chan p e :
  table_ok q → entries q !! p = Some e → se_chan e = chan → se_lookup chan q = Ok (Some p, q).
Proof.
  intros Ht He Hc. destruct (se_lookup_spec q chan Ht) as ([p' |] & E & Ho); [| by destruct (Ho p e He)].
  destruct Ho as (e' & He' & Hc'). rewrite E. do 3 f_equal.
  apply (tb_uniq q Ht _ _ _ _ He' He). congruence.
Qed.

(** ** Entering *)

(** An update that keeps the channel keeps the table. *)
Lemma table_ok_update q p e w :
  table_ok q → entries q !! p = Some e →
  table_ok (set_entries (<[p := mk_se (se_chan e) (se_wmesg e) w]> (entries q)) q).
Proof.
  intros [H1 H2 H3 H4 H5] He. set (e1 := mk_se _ _ _).
  assert (∀ p' e', <[p := e1]> (entries q) !! p' = Some e' →
    ∃ e0, entries q !! p' = Some e0 ∧ se_chan e0 = se_chan e') as Hback.
  { intros p' e' [[<- <-] | [_ ?]]%lookup_insert_Some; eauto. }
  split; cbn [set_entries entries se_active] in *; try done.
  - intros p' e' (e0 & He0 & <-)%Hback. eauto.
  - intros i b p' Hb Hp'. destruct (H3 _ _ _ Hb Hp') as (e0 & He0 & <-).
    destruct (decide (p' = p)) as [-> | Hne].
    + exists e1. rewrite lookup_insert_eq. by simplify_eq.
    + exists e0. by rewrite lookup_insert_ne.
  - intros p1 e1' p2 e2' (e3 & E3 & <-)%Hback (e4 & E4 & <-)%Hback. by eapply H5.
Qed.

Lemma users_enter p S t ident se :
  S !! t = Some None → users p (<[t := Some (ident, se)]> S) = users p S + b2z (bool_decide (se = p)).
Proof.
  intros H. unfold users. rewrite (count_if_insert _ _ _ _ _ H). cbn -[bool_decide].
  rewrite (bool_decide_false (None = Some p)) by done.
  rewrite (bool_decide_ext (Some se = Some p) (se = p)) by naive_solver. cbn. lia.
Qed.

Lemma users_leave p S t ident se :
  S !! t = Some (Some (ident, se)) → users p (<[t := None]> S) = users p S - b2z (bool_decide (se = p)).
Proof.
  intros H. unfold users. rewrite (count_if_insert _ _ _ _ _ H). cbn -[bool_decide].
  rewrite (bool_decide_false (None = Some p)) by done.
  rewrite (bool_decide_ext (Some se = Some p) (se = p)) by naive_solver. cbn. lia.
Qed.

Lemma users_le p S : users p S <= Z.of_nat (length S).
Proof. apply count_if_le. Qed.

Lemma users_pos p S t ident : S !! t = Some (Some (ident, p)) → 0 < users p S.
Proof. intros H. apply count_if_pos. exists t, (Some (ident, p)). split; [done |]. by apply bool_decide_eq_true. Qed.

Lemma se_alloc_table q p chan w :
  table_ok q → entries q !! p = None → (∀ p e, entries q !! p = Some e → se_chan e ≠ chan) →
  ∃ q', se_alloc (Some p) chan w q = Ok (p, q') ∧ table_ok q' ∧ owner q' = owner q ∧
    entries q' = <[p := mk_se chan w 1]> (entries q).
Proof.
  intros Ht Hp Hc. pose proof Ht as [H1 H2 H3 H4 H5]. eexists. split; [reflexivity |].
  split; [| by split]. destruct (bucket_is q chan Ht) as [b0 Hb0].
  assert (p ∉ b0) as Hpb.
  { intros Hin. destruct (H3 _ _ _ Hb0 Hin) as (e & He & _). congruence. }
  split; cbn [set_entries set_active entries se_active].
  - by rewrite length_alter.
  - intros p' e' [[<- <-] | [Hne He']]%lookup_insert_Some; cbn [se_chan].
    + exists (p :: b0). rewrite list_lookup_alter_eq, Hb0. split; [done | constructor].
    + destruct (H2 _ _ He') as (b & Hb & Hin). rewrite list_lookup_alter.
      case_decide as Ei; [rewrite Ei |]; rewrite Hb; cbn; eexists; (split; [reflexivity |]); [by constructor | done].
  - intros i b p' Hb Hin. rewrite list_lookup_alter in Hb. case_decide as Ei.
    + rewrite Hb0 in Hb. cbn in Hb. simplify_eq.
      apply elem_of_cons in Hin as [-> | Hin]; [exists (mk_se chan w 1); by rewrite lookup_insert_eq |].
      destruct (H3 _ _ _ Hb0 Hin) as (e & He & Hh). exists e.
      by rewrite lookup_insert_ne by (intros ->; congruence).
    + destruct (H3 _ _ _ Hb Hin) as (e & He & Hh). exists e.
      by rewrite lookup_insert_ne by (intros ->; congruence).
  - intros i b Hb. rewrite list_lookup_alter in Hb. case_decide as Ei; [| by eapply H4].
    rewrite Hb0 in Hb. cbn in Hb. simplify_eq. constructor; [done | by eapply H4].
  - intros p1 e1 p2 e2 [[<- <-] | [? E1]]%lookup_insert_Some [[<- <-] | [? E2]]%lookup_insert_Some Hcc;
      cbn [se_chan] in *; [done | by destruct (Hc _ _ E2) | by destruct (Hc _ _ E1) | by eapply H5].
Qed.

Lemma sleep_enter_inv q S t p ident w :
  tab_inv q S → S !! t = Some None → entries q !! p = None →
  ∃ se q', sleep_enter (Some p) ident w q = Ok (se, q') ∧ owner q' = owner q ∧
    tab_inv q' (<[t := Some (ident, se)]> S).
Proof.
  intros [Ht Hcnt Hch Hb] HS Hp. unfold sleep_enter.
  destruct (se_lookup_spec q ident Ht) as (o & E & Ho). erewrite M_bind_Ok by exact E. cbn beta.
  destruct o as [se |].
  - destruct Ho as (e & He & Hc). erewrite M_bind_Ok by (unfold get_se; by rewrite He). cbn beta.
    erewrite M_bind_Ok by reflexivity. eexists _, _. split; [reflexivity |]. split; [done |].
    pose proof (users_le se (<[t := Some (ident, se)]> S)) as Hle.
    rewrite (users_enter _ _ _ _ _ HS), length_insert, bool_decide_true in Hle by done. cbn in Hle.
    pose proof (Hcnt se) as Hse. rewrite He in Hse.
    rewrite wrap_s_id by lia. split; cbn [entries set_entries].
    + by apply table_ok_update.
    + intros p'. rewrite (users_enter _ _ _ _ _ HS), lookup_insert. specialize (Hcnt p').
      destruct (decide (se = p')) as [<- | Hne].
      * rewrite He in Hcnt. rewrite bool_decide_true by done. cbn. lia.
      * rewrite bool_decide_false by done. cbn. by rewrite Z.add_0_r.
    + intros t' ident' se' [(-> & [=-> ->] & _) | [_ Ht']]%list_lookup_insert_Some.
      * rewrite lookup_insert_eq. by eexists.
      * destruct (Hch _ _ _ Ht') as (e' & He' & <-). rewrite lookup_insert.
        case_decide; [simplify_eq; by eexists | by eauto].
    + by rewrite length_insert.
  - destruct (se_alloc_table q p ident w Ht Hp Ho) as (q' & -> & Ht' & Hown & Hent).
    eexists _, _. split; [reflexivity |]. split; [done |]. split; [done | | | by rewrite length_insert].
    + intros p'. rewrite Hent, (users_enter _ _ _ _ _ HS), lookup_insert.
      pose proof (Hcnt p') as Hc'.
      destruct (decide (p = p')) as [<- | Hne].
      * rewrite Hp in Hc'. rewrite bool_decide_true by done. cbn. lia.
      * rewrite bool_decide_false by done. cbn. by rewrite Z.add_0_r.
    + intros t' ident' se' [(-> & [=-> ->] & _) | [_ Hs']]%list_lookup_insert_Some.
      * rewrite Hent, lookup_insert_eq. by eexists.
      * destruct (Hch _ _ _ Hs') as (e' & He' & <-). rewrite Hent.
        rewrite lookup_insert_ne by (intros ->; congruence). by eauto.
Qed.

(** ** Leaving *)

Lemma table_ok_remove q p e e1 :
  table_ok q → entries q !! p = Some e →
  table_ok (set_entries (delete p (<[p := e1]> (entries q))) (set_active (filter (fun x => x ≠ p) <$> se_active q) q)).
Proof.
  intros [H1 H2 H3 H4 H5] He. rewrite delete_insert_eq.
  split; cbn [set_entries set_active entries se_active].
  - by rewrite length_fmap.
  - intros p' e' [Hne He']%lookup_delete_Some. destruct (H2 _ _ He') as (b & Hb & Hin).
    rewrite list_lookup_fmap, Hb. eexists. split; [reflexivity |]. apply list_elem_of_filter. by split.
  - intros i b p' Hb Hin. rewrite list_lookup_fmap in Hb. apply fmap_Some in Hb as (b0 & Hb0 & ->).
    apply list_elem_of_filter in Hin as [Hne Hin]. destruct (H3 _ _ _ Hb0 Hin) as (e' & He' & <-).
    exists e'. by rewrite lookup_delete_ne.
  - intros i b Hb. rewrite list_lookup_fmap in Hb. apply fmap_Some in Hb as (b0 & Hb0 & ->).
    apply NoDup_filter. by eapply H4.
  - intros p1 e1' p2 e2' [_ E1]%lookup_delete_Some [_ E2]%lookup_delete_Some. by eapply H5.
Qed.

Lemma se_free_inv q S t ident se :
  tab_inv q S → S !! t = Some (Some (ident, se)) →
  ∃ q', se_free se q = Ok (tt, q') ∧ owner q' = owner q ∧ tab_inv q' (<[t := None]> S).
Proof.
  intros [Ht Hcnt Hch Hb] HS. destruct (Hch _ _ _ HS) as (e & He & Hc).
  pose proof (Hcnt se) as Hse. rewrite He in Hse. pose proof (users_le se S).
  pose proof (users_leave se S t ident se HS) as Hl. rewrite bool_decide_true in Hl by done. cbn in Hl.
  unfold se_free. erewrite M_bind_Ok by (unfold get_se; by rewrite He). cbn beta zeta.
  rewrite wrap_s_id by lia. erewrite M_bind_Ok by reflexivity.
  assert (∀ t' ident' se', <[t := None]> S !! t' = Some (Some (ident', se')) →
    S !! t' = Some (Some (ident', se')) ∧ 0 < users se' (<[t := None]> S)) as Hback.
  { intros t' i' s' Hs'. split; [| by eapply users_pos].
    by apply list_lookup_insert_Some in Hs' as [(_ & [=] & _) | [_ ?]]. }
  destruct (Z.eqb_spec (se_waiters e - 1) 0) as [Ew | Hw].
  - eexists. split; [reflexivity |]. split; [done |]. split; cbn [entries set_entries set_active].
    + by apply (table_ok_remove q se e).
    + intros p. rewrite (users_leave _ _ _ _ _ HS), delete_insert_eq, lookup_delete. specialize (Hcnt p).
      destruct (decide (se = p)) as [<- | Hne].
      * rewrite bool_decide_true by done. cbn. lia.
      * rewrite bool_decide_false by done. cbn. by rewrite Z.sub_0_r.
    + intros t' i' s' [Hs' Hp]%Hback. destruct (Hch _ _ _ Hs') as (e' & He' & <-). exists e'.
      rewrite delete_insert_eq, lookup_delete_ne; [done |]. intros <-. lia.
    + by rewrite length_insert.
  - eexists. split; [reflexivity |]. split; [done |]. split; cbn [entries set_entries set_active].
    + by apply table_ok_update.
    + intros p. rewrite (users_leave _ _ _ _ _ HS), lookup_insert. specialize (Hcnt p).
      destruct (decide (se = p)) as [<- | Hne].
      * rewrite He in Hcnt. rewrite bool_decide_true by done. cbn. lia.
      * rewrite bool_decide_false by done. cbn. by rewrite Z.sub_0_r.
    + intros t' i' s' [Hs' _]%Hback. destruct (Hch _ _ _ Hs') as (e' & He' & <-). rewrite lookup_insert.
      case_decide; [simplify_eq; by eexists | by eauto].
    + by rewrite length_insert.
Qed.

(** ** The system *)

(** A thread in a call with its lock held owns the lock. *)
Definition lock_inv (own : gmap Z nat) (H : list (option Z)) : Prop :=
  ∀ t m, H !! t = Some (Some m) → own !! m = Some t.

Definition inv (st : synch * list pc) : Prop :=
  tab_inv st.1 (sleeping <$> st.2) ∧ lock_inv (owner st.1) (holds <$> st.2).

(** The table does not depend on who owns which lock. *)
Lemma tab_inv_owner q S o : tab_inv q S → tab_inv (set_owner o q) S.
Proof. intros [[] ? ? ?]. by split. Qed.

Lemma lock_inv_none own H t : lock_inv own H → lock_inv own (<[t := None]> H).
Proof. intros HI t' m [(_ & [=] & _) | [_ ?]]%list_lookup_insert_Some. by apply HI. Qed.

Lemma lock_inv_take own H t m :
  own !! m = None → lock_inv own H → lock_inv (<[m := t]> own) (<[t := Some m]> H).
Proof.
  intros Hm HI t' m' [(-> & [=->] & _) | [Hne Ht']]%list_lookup_insert_Some; [by rewrite lookup_insert_eq |].
  apply HI in Ht'. rewrite lookup_insert_ne; [done | congruence].
Qed.

(** A thread gives up its lock; nobody else in a call has it. *)
Lemma lock_inv_drop own H t m :
  own !! m = Some t → lock_inv own H → lock_inv (delete m own) (<[t := None]> H).
Proof.
  intros Hm HI t' m' [(_ & [=] & _) | [Hne Ht']]%list_lookup_insert_Some.
  apply HI in Ht'. rewrite lookup_delete_ne; [done | congruence].
Qed.

(** A wakeup changes neither what threads use nor what they hold. *)
Lemma wake_same p : sleeping (wake p) = sleeping p ∧ holds (wake p) = holds p.
Proof. by destruct p. Qed.

Lemma cv_broadcast_same se ts :
  sleeping <$> cv_broadcast se ts = sleeping <$> ts ∧ holds <$> cv_broadcast se ts = holds <$> ts.
Proof.
  unfold cv_broadcast. rewrite <- !list_fmap_compose.
  split; apply list_fmap_ext; intros i p _; cbn; destruct (waits_on se p); [apply wake_same | done | apply wake_same | done].
Qed.

Lemma cv_signal_same se w ts :
  sleeping <$> cv_signal se w ts = sleeping <$> ts ∧ holds <$> cv_signal se w ts = holds <$> ts.
Proof.
  unfold cv_signal. destruct (ts !! w) as [p |] eqn:E; [| done]. destruct (waits_on se p); [| done].
  rewrite !list_fmap_insert. destruct (wake_same p) as [-> ->].
  split; apply list_insert_id; by rewrite list_lookup_fmap, E.
Qed.

Lemma inv_same q ts ts' :
  sleeping <$> ts' = sleeping <$> ts → holds <$> ts' = holds <$> ts → inv (q, ts) → inv (q, ts').
Proof. unfold inv. cbn. by intros -> ->. Qed.

Lemma inv_setup n : Z.of_nat n < 2 ^ 31 → inv (synch_setup, replicate n Running).
Proof.
  intros Hn. unfold inv, synch_setup. cbn [fst snd]. rewrite !fmap_replicate. cbn [sleeping holds].
  split; [split; [split |..] |]; cbn [entries se_active owner].
  - done.
  - done.
  - intros i b p [-> _]%lookup_replicate Hin. by apply not_elem_of_nil in Hin.
  - intros i b [-> _]%lookup_replicate. constructor.
  - done.
  - intros p. rewrite lookup_empty. assert (~ 0 < users p (replicate n None)); [| pose proof (count_if_nonneg
      (fun o : option (Z * nat) => bool_decide (snd <$> o = Some p)) (replicate n None)); unfold users in *; lia].
    intros (i & a & [-> _]%lookup_replicate & Ha)%count_if_pos. by apply bool_decide_eq_true in Ha.
  - by intros t ident se [[=] _]%lookup_replicate.
  - by rewrite length_replicate.
  - by intros t m [[=] _]%lookup_replicate.
Qed.

Lemma inv_step hz st st' : inv st → step hz st st' → inv st'.
Proof.
  intros [HT HL] Hs. destruct Hs as
    [q ts t m Ht Hm | q ts t m Ht Hm | q ts t ident lock pri wm timo Ht Hm | q ts t ident m wm timo p se q' Ht Hp E
    | q ts t ident se m timo Ht | q ts t ident se m timo Ht _ | q ts t ident se m timo Ht
    | q ts t ident se m rv Ht Hm | q ts t ident se m rv q' Ht E | q ts t ns rv Ht | q ts t rv Ht
    | q ts t chan q' ts' Ht E | q ts t chan w q' ts' Ht E]; cbn [fst snd] in *;
    pose proof (f_equal (fmap sleeping) Ht) as HSl; rewrite <- list_lookup_fmap in HSl; cbn in HSl;
    pose proof (f_equal (fmap holds) Ht) as HHl; rewrite <- list_lookup_fmap in HHl; cbn in HHl;
    unfold inv; cbn [fst snd]; rewrite ?list_fmap_insert; cbn [sleeping holds].
  - split; [by apply tab_inv_owner |]. intros t' m' Hl. apply HL in Hl. cbn.
    rewrite lookup_insert_ne; [done | congruence].
  - split; [by apply tab_inv_owner |]. cbn. rewrite <- (list_insert_id (holds <$> ts) t None HHl).
    by apply lock_inv_drop.
  - unfold _sleep. destruct lock as [m |]; [| case_match]; cbn [sleeping holds];
      rewrite list_insert_id by done; (split; [done |]); [| by apply lock_inv_none..].
    intros t' m' [(-> & [=->] & _) | [_ ?]]%list_lookup_insert_Some; [by apply Hm | by apply HL].
  - destruct (sleep_enter_inv q _ t p ident wm HT HSl Hp) as (se' & q'' & E' & Ho & HT').
    rewrite E in E'. simplify_eq. split; [done |]. rewrite Ho. by rewrite list_insert_id.
  - rewrite list_insert_id by done. split; [by apply tab_inv_owner |]. apply lock_inv_drop; [by apply HL | done].
  - rewrite list_insert_id by done. split; [done |]. by apply lock_inv_none.
  - rewrite list_insert_id by done. split; [done |]. by apply lock_inv_none.
  - rewrite list_insert_id by done. split; [by apply tab_inv_owner |]. by apply lock_inv_take.
  - destruct (se_free_inv q _ t ident se HT HSl) as (q'' & E' & Ho & HT'). rewrite E in E'. simplify_eq.
    split; [done |]. rewrite Ho. by apply lock_inv_none.
  - rewrite list_insert_id by done. split; [done |]. by apply lock_inv_none.
  - rewrite list_insert_id by done. split; [done |]. by apply lock_inv_none.
  - unfold wakeup in E. destruct (se_lookup_spec q chan (ti_table _ _ HT)) as (o & El & _). rewrite El in E.
    destruct o; simplify_eq; [| done]. by destruct (cv_broadcast_same n ts) as [-> ->].
  - unfold wakeup_one in E. destruct (se_lookup_spec q chan (ti_table _ _ HT)) as (o & El & _). rewrite El in E.
    destruct o; simplify_eq; [| done]. by destruct (cv_signal_same n w ts) as [-> ->].
Qed.

Lemma sleepq_inv_reachable hz n st :
  Z.of_nat n < 2 ^ 31 → rtc (step hz) (synch_setup, replicate n Running) st → inv st.
Proof. intros Hn. apply rtc_ind_r; [by apply inv_setup |]. intros x y _ Hxy Hx. by eapply inv_step. Qed.

(** ** Theorems *)

(** Nobody is in a call. *)
Definition quiet (ts : list pc) : Prop := ∀ t p, ts !! t = Some p → sleeping p = None.

Lemma tab_inv_quiet q ts :
  tab_inv q (sleeping <$> ts) → quiet ts → entries q = ∅ ∧ ∀ i b, se_active q !! i = Some b → b = [].
Proof.
  intros [Ht Hcnt _ _] Hq. assert (entries q = ∅) as E.
  { apply map_eq. intros p. rewrite lookup_empty. specialize (Hcnt p).
    destruct (entries q !! p) as [e |]; [| done]. destruct Hcnt as [_ (t & o & Ho & Hp)%count_if_pos].
    rewrite list_lookup_fmap in Ho. apply fmap_Some in Ho as (pc & Hpc & ->).
    rewrite (Hq _ _ Hpc) in Hp. by apply bool_decide_eq_true in Hp. }
  split; [done |]. intros i [| p b] Hb; [done |].
  destruct (tb_out q Ht i _ p Hb) as (e & He & _); [constructor |]. rewrite E in He. by rewrite lookup_empty in He.
Qed.

(** [C5] In every state that threads calling [_sleep], [wakeup] and [wakeup_one] and
    locking and unlocking can reach: the waiter count of every sleep entry is the
    number of threads in a call that use it, and not 0; a channel has at most one
    entry, and an entry is on the hash list of its channel, once, and on no other list,
    which hold no freed entry; every thread in a call has a live entry of its channel, so neither
    critical section, nor the wait between them, touches freed memory; and when no
    thread is in a call no entry is left in the table. *)
Theorem sleepq_safe (hz : Z) (n : nat) (q : synch) (ts : list pc) :
  Z.of_nat n < 2 ^ 31 → rtc (step hz) (synch_setup, replicate n Running) (q, ts) →
  (∀ p e, entries q !! p = Some e → se_waiters e = users p (sleeping <$> ts) ∧ 0 < se_waiters e) ∧
  (∀ p e p' e', entries q !! p = Some e → entries q !! p' = Some e' → se_chan e = se_chan e' → p = p') ∧
  (∀ i b, se_active q !! i = Some b →
     NoDup b ∧ ∀ p, p ∈ b ↔ ∃ e, entries q !! p = Some e ∧ SE_HASH (se_chan e) = i) ∧
  (∀ p e, entries q !! p = Some e → ∃ b, se_active q !! SE_HASH (se_chan e) = Some b ∧ p ∈ b) ∧
  (∀ t pc ident se, ts !! t = Some pc → sleeping pc = Some (ident, se) →
     (∃ e, entries q !! se = Some e ∧ se_chan e = ident) ∧ ∃ q', se_free se q = Ok (tt, q')) ∧
  (∀ t ident m w timo p, ts !! t = Some (P_enter ident m w timo) → entries q !! p = None →
     ∃ se q', sleep_enter (Some p) ident w q = Ok (se, q')) ∧
  (quiet ts → entries q = ∅ ∧ ∀ i b, se_active q !! i = Some b → b = []).
Proof.
  intros Hn Hr. destruct (sleepq_inv_reachable _ _ _ Hn Hr) as [HT _]. cbn [fst snd] in HT.
  pose proof HT as [Ht Hcnt Hch _]. split_and!.
  - intros p e He. specialize (Hcnt p). rewrite He in Hcnt. lia.
  - apply (tb_uniq q Ht).
  - intros i b Hb. split; [by apply (tb_nodup q Ht i) |]. intros p. split; [by apply (tb_out q Ht) |].
    intros (e & He & <-). destruct (tb_in q Ht p e He) as (b' & Hb' & Hp). by simplify_eq.
  - apply (tb_in q Ht).
  - intros t pc ident se Hpc Hs. assert ((sleeping <$> ts) !! t = Some (Some (ident, se))) as HS.
    { by rewrite list_lookup_fmap, Hpc, <- Hs. }
    split; [by eapply Hch |]. destruct (se_free_inv q _ t ident se HT HS) as (q' & E & _). by exists q'.
  - intros t ident m w timo p Hpc Hp. assert ((sleeping <$> ts) !! t = Some None) as HS.
    { by rewrite list_lookup_fmap, Hpc. }
    destruct (sleep_enter_inv q _ t p ident w HT HS Hp) as (se & q' & E & _). by exists se, q'.
  - by apply tab_inv_quiet.
Qed.

(** What a wakeup of [chan] does to one thread. *)
Definition wake_chan (chan : Z) (p : pc) : pc :=
  match p with
  | P_waiting ident se m timo => if ident =? chan then P_relock ident se m 0 else p
  | _ => p
  end.

Lemma wakeup_spec q ts chan :
  tab_inv q (sleeping <$> ts) → wakeup chan q ts = Ok (q, wake_chan chan <$> ts).
Proof.
  intros [Ht _ Hch _]. unfold wakeup. destruct (se_lookup_spec q chan Ht) as (o & El & Ho). rewrite El.
  assert (∀ t ident se m timo, ts !! t = Some (P_waiting ident se m timo) →
    bool_decide (o = Some se) = (ident =? chan)) as Hd.
  { intros t ident se m timo Hw. destruct (Hch t ident se) as (e & He & Hc).
    { by rewrite list_lookup_fmap, Hw. }
    destruct (Z.eqb_spec ident chan) as [Ei | Hne].
    - rewrite (se_lookup_found q chan se e Ht He) in El by congruence. simplify_eq. by apply bool_decide_eq_true.
    - apply bool_decide_eq_false. intros ->. destruct Ho as (e' & He' & Hc'). congruence. }
  destruct o as [se' |]; do 2 f_equal; unfold cv_broadcast.
  - apply list_fmap_ext. intros t p Hp. destruct p as [| | | ident se m timo | | | |]; try done. cbn.
    rewrite <- (Hd _ _ _ _ _ Hp). rewrite (bool_decide_ext (Some se' = Some se) (se = se')) by naive_solver. done.
  - rewrite <- (list_fmap_id ts) at 1. apply list_fmap_ext. intros t p Hp.
    destruct p as [| | | ident se m timo | | | |]; try done. cbn. by rewrite <- (Hd _ _ _ _ _ Hp).
Qed.

(** Before or in the wait of a call on [chan] with lock [m]. *)
Definition pending (chan m : Z) (p : pc) : bool :=
  match p with
  | P_enter ident m' _ _ | P_wait ident _ m' _ | P_waiting ident _ m' _ => (ident =? chan) && (m' =? m)
  | _ => false
  end.

(** [C34] No lost wakeup: [wakeup] called by a thread that holds [m] takes every thread
    that is waiting on the channel off its condition variable, with result 0,
    whatever lock it uses, and leaves no thread that called [_sleep] on the channel
    with [m] before or in its wait: none has yet to fall asleep.  The table is not
    changed and threads on other channels sleep on. *)
Theorem wakeup_not_lost (hz : Z) (n : nat) (q : synch) (ts : list pc) (t0 : nat) (chan m : Z) :
  Z.of_nat n < 2 ^ 31 → rtc (step hz) (synch_setup, replicate n Running) (q, ts) →
  ts !! t0 = Some Running → owner q !! m = Some t0 →
  ∃ ts', wakeup chan q ts = Ok (q, ts') ∧ length ts' = length ts ∧
    (∀ t p, ts !! t = Some p → ts' !! t = Some (wake_chan chan p)) ∧
    (∀ t p, ts' !! t = Some p → pending chan m p = false).
Proof.
  intros Hn Hr H0 Hm. destruct (sleepq_inv_reachable _ _ _ Hn Hr) as [HT HL]. cbn [fst snd] in HT, HL.
  exists (wake_chan chan <$> ts). split_and!.
  - by apply wakeup_spec.
  - apply length_fmap.
  - intros t p Hp. by rewrite list_lookup_fmap, Hp.
  - intros t p Hp. rewrite list_lookup_fmap in Hp. apply fmap_Some in Hp as (p0 & Hp0 & ->).
    assert (holds p0 = Some m → t = t0) as Hown.
    { intros Hh. assert (owner q !! m = Some t) as E; [| congruence].
      apply HL. by rewrite list_lookup_fmap, Hp0, <- Hh. }
    destruct p0 as [| ident m' w timo | ident se m' timo | ident se m' timo | | | |]; try done; cbn;
      destruct (Z.eqb_spec ident chan); try done; cbn.
    + destruct (Z.eqb_spec m' m) as [-> |]; [| done]. rewrite (Hown eq_refl) in Hp0. congruence.
    + destruct (Z.eqb_spec m' m) as [-> |]; [| done]. rewrite (Hown eq_refl) in Hp0. congruence.
    + by rewrite (proj2 (Z.eqb_neq _ _)).
Qed.

(** Without a lock [_sleep] does not wait for its channel: with no timeout it
    returns 0 at once, and with one it sleeps the time out and returns
    [EWOULDBLOCK], a wakeup on the channel passing it by.  [pause] always is of the
    second kind. *)
Theorem sleep_without_lock (hz ident pri : Z) (wmesg : string) (timo chan : Z) (q q' : synch) (ts ts' : list pc) (t : nat) :
  ts !! t = Some (tsleep hz ident pri wmesg timo) → wakeup chan q ts = Ok (q', ts') →
  tsleep hz ident pri wmesg 0 = P_ret 0 ∧
  (timo ≠ 0 → ts' !! t = Some (P_nano (timo_nsecs hz timo) EWOULDBLOCK)) ∧
  ∃ ns, pause hz ident wmesg timo = P_nano ns EWOULDBLOCK.
Proof.
  intros Ht E. split; [done |]. split.
  - intros Hz. unfold tsleep, _sleep in Ht. rewrite (proj2 (Z.eqb_neq timo 0)) in Ht by done. cbn [negb] in Ht.
    unfold wakeup in E. destruct (se_lookup chan q) as [[[se |] q1] |]; simplify_eq; [| done].
    unfold cv_broadcast. by rewrite list_lookup_fmap, Ht.
  - unfold pause, tsleep, _sleep. rewrite (proj2 (Z.eqb_neq _ 0)); [by eexists |].
    destruct (Z.ltb_spec timo 1); lia.
Qed.

(** ** Witnesses *)

(** Thread 0 takes lock 7 and sleeps on channel 100; thread 1 takes the lock. *)
Lemma ex_run : ∃ q, rtc (step 100) (synch_setup, replicate 2 Running) (q, [P_waiting 100 0 7 0; Running]) ∧
  owner q !! 7 = Some 1%nat.
Proof.
  eexists. split.
  - eapply rtc_l; [eapply (s_lock _ _ _ 0%nat 7); reflexivity |].
    eapply rtc_l.
    { eapply (s_sleep _ _ _ 0%nat 100 (Some 7) 0 "wait" 0); [reflexivity |]. intros m [= <-]. reflexivity. }
    eapply rtc_l; [eapply (s_enter _ _ _ 0%nat 100 7 "wait" 0 0%nat); reflexivity |].
    eapply rtc_l; [eapply (s_wait _ _ _ 0%nat); reflexivity |].
    eapply rtc_l; [eapply (s_lock _ _ _ 1%nat 7); reflexivity |]. apply rtc_refl.
  - reflexivity.
Defined.

Lemma sleepq_safe_witness : ∃ q e q',
  entries q !! 0%nat = Some e ∧ se_chan e = 100 ∧ se_waiters e = 1 ∧ se_free 0%nat q = Ok (tt, q').
Proof.
  destruct ex_run as (q & Hr & Ho).
  destruct (sleepq_safe 100 2 q _ ltac:(lia) Hr) as (H1 & _ & _ & _ & H3 & _).
  destruct (H3 0%nat _ 100 0%nat eq_refl eq_refl) as ((e & He & Hc) & q' & Hf).
  exists q, e, q'. split; [exact He |]. split; [exact Hc |]. split; [| exact Hf].
  destruct (H1 _ _ He) as [-> _]. reflexivity.
Defined.

Lemma wakeup_not_lost_witness :
  ∃ q, wakeup 100 q [P_waiting 100 0 7 0; Running] = Ok (q, [P_relock 100 0 7 0; Running]).
Proof.
  destruct ex_run as (q & Hr & Ho). exists q.
  destruct (wakeup_not_lost 100 2 q _ 1%nat 100 7 ltac:(lia) Hr eq_refl Ho) as (ts' & E & Hl & Hw & _).
  rewrite E. do 2 f_equal. destruct ts' as [| a [| b []]]; [done.. | | done].
  pose proof (Hw 0%nat _ eq_refl) as [= ->]. pose proof (Hw 1%nat _ eq_refl) as [= ->]. reflexivity.
Defined.

Lemma sleep_without_lock_witness :
  tsleep 100 5 0 "nap" 0 = P_ret 0 ∧ ∃ ns, pause 100 5 "nap" 3 = P_nano ns EWOULDBLOCK.
Proof.
  destruct (sleep_without_lock 100 5 0 "nap" 3 5 synch_setup synch_setup
    [tsleep 100 5 0 "nap" 3] [tsleep 100 5 0 "nap" 3] 0%nat) as (H1 & _ & H3); [reflexivity.. |].
  split; [exact H1 | exact H3].
Defined.

End SleepQSpec.
