(* ===== verification/HostIf.v ===== *)
(** The host interface (src/src/lib/libuinet/uinet_host_interface.c, constants of
    uinet_host_interface.h): the routines that compute something of their own on the
    way to a system call.  The system calls are inputs: what they return, in the
    order of the calls. *)
From S2P Require Import Prelude.

Module HostIf.

Definition UHI_NSEC_PER_SEC : Z := 1000 * 1000 * 1000.
Definition UHI_MAX_THREAD_HOOKS : Z := 16.
Definition UHI_THREAD_HOOK_START : Z := 0.
Definition UHI_THREAD_HOOK_FINISH : Z := 1.
Definition UHI_THREAD_NUM_HOOK_TYPES : Z := 2.

Record timespec : Type := mk_ts { tv_sec : Z; tv_nsec : Z }.

Definition ts_nsec (ts : timespec) : Z := tv_sec ts * UHI_NSEC_PER_SEC + tv_nsec ts.

(** ** Time *)

(** [now] is the host's clock. *)
Definition uhi_clock_gettime_ns (now : timespec) : Z := u64 (u64 (tv_sec now) * UHI_NSEC_PER_SEC + tv_nsec now).

(** What one [nanosleep] does: it sleeps [e] nanoseconds and returns, is interrupted
    after [e] nanoseconds, or fails. *)
Inductive ns_event : Type := Slept (e : Z) | Interrupted (e : Z) | Failed (err : Z).

(** The remaining time POSIX stores when a sleep of [ts] is interrupted. *)
Definition remaining (ts : timespec) (e : Z) : timespec :=
  let r := Z.max 0 (ts_nsec ts - e) in mk_ts (r / UHI_NSEC_PER_SEC) (r mod UHI_NSEC_PER_SEC).

(** The loop; [None] when the events run out. *)
Fixpoint nanosleep_loop (ts : timespec) (evs : list ns_event) : option Z :=
  match evs with
  | [] => None
  | Slept _ :: _ => Some 0
  | Interrupted e :: evs' => nanosleep_loop (remaining ts e) evs'
  | Failed err :: _ => Some err
  end.

Definition uhi_nanosleep (nsecs : Z) (evs : list ns_event) : option Z :=
  nanosleep_loop (mk_ts (nsecs / UHI_NSEC_PER_SEC) (nsecs mod UHI_NSEC_PER_SEC)) evs.

(** The absolute time passed to [pthread_cond_timedwait]. *)
Definition cond_abstime (now : timespec) (nsecs : Z) : timespec :=
  let sec := tv_sec now + nsecs / UHI_NSEC_PER_SEC in
  let total_nsec := u64 (tv_nsec now + nsecs mod UHI_NSEC_PER_SEC) in
  if UHI_NSEC_PER_SEC <=? total_nsec then mk_ts (sec + 1) (total_nsec - UHI_NSEC_PER_SEC)
  else mk_ts sec total_nsec.

(** [_cv_timedwait] of uinet_kern_condvar.c: the deadline and, from the result of the
    host's wait, the result of the call. *)
Definition EWOULDBLOCK : Z := 35.
Definition cv_nsecs (hz timo : Z) : Z := u64 (u64 timo * (1000 * 1000 * 1000)) / hz.
Definition _cv_timedwait (hz timo : Z) (now : timespec) (host : timespec → Z) : Z :=
  if negb (host (cond_abstime now (cv_nsecs hz timo)) =? 0) then EWOULDBLOCK else 0.

(** ** Flags *)

Definition if_flags (flags bits host : Z) : Z := if Z.land flags bits =? bits then host else 0.

(** With the values of Linux. *)
Definition uhi_open_flags (flags : Z) : Z :=
  let h := if_flags flags 0x0001 0x1 in
  let h := Z.lor h (if_flags flags 0x0002 0x2) in
  let h := Z.lor h (if_flags flags 0x0004 0x800) in
  let h := Z.lor h (if_flags flags 0x0008 0x400) in
  let h := Z.lor h (if_flags flags 0x0080 0x101000) in
  let h := Z.lor h (if_flags flags 0x0200 0x40) in
  let h := Z.lor h (if_flags flags 0x0400 0x200) in
  Z.lor h (if_flags flags 0x0800 0x80).

Definition uhi_mkdir_mode (mode : Z) : Z :=
  let u := if Z.land mode 448 =? 448 then 448
           else Z.lor (Z.lor (if_flags mode 256 256) (if_flags mode 128 128)) (if_flags mode 64 64) in
  let g := if Z.land mode 56 =? 56 then 56
           else Z.lor (Z.lor (if_flags mode 32 32) (if_flags mode 16 16)) (if_flags mode 8 8) in
  let o := if Z.land mode 7 =? 7 then 7
           else Z.lor (Z.lor (if_flags mode 4 4) (if_flags mode 2 2)) (if_flags mode 1 1) in
  Z.lor (Z.lor u g) o.

(** [mkdir] gives 0, or -1 and the [errno]. *)
Definition uhi_mkdir (mode : Z) (mkdir : Z → Z * Z) : Z :=
  let '(rv, errno) := mkdir (uhi_mkdir_mode mode) in if negb (rv =? 0) then errno else 0.

Definition uhi_mmap_prot (prot : Z) : Z := Z.lor (if_flags prot 0x01 0x1) (if_flags prot 0x02 0x2).
Definition uhi_mmap_flags (flags : Z) : Z :=
  Z.lor (Z.lor (if_flags flags 0x0001 0x1) (if_flags flags 0x0002 0x2)) (if_flags flags 0x1000 0x20).

(** [poll] gives its result and [errno]; [EINTR] is 4. *)
Definition uhi_poll (poll : Z * Z) : Z :=
  let '(rv, errno) := poll in if (rv =? -1) && (errno =? 4) then -2 else rv.

(** [realloc] is the host's. *)
Definition uhi_realloc (realloc : Z → Z → Z) (p size : Z) : Z :=
  if negb (size =? 0) then realloc p size else p.

(** ** CPUs and priorities *)

Definition CPU_SETSIZE : Z := 1024.

(** The affinity set [uhi_thread_bind] asks for. *)
Definition uhi_thread_bind (cpu : Z) : gset Z := {[cpu mod CPU_SETSIZE]}.

Fixpoint bound_cpu_loop (n : nat) (i bound : Z) (cpuset : gset Z) : Z :=
  match n with
  | O => bound
  | S n' =>
      if bool_decide (i ∈ cpuset) then
        if bound =? -1 then bound_cpu_loop n' (i + 1) i cpuset else -1
      else bound_cpu_loop n' (i + 1) bound cpuset
  end.

Definition uhi_thread_bound_cpu (uhi_num_cpus : nat) (cpuset : gset Z) : Z :=
  bound_cpu_loop uhi_num_cpus 0 (-1) cpuset.

(** [prio] is unsigned, and so is the arithmetic. *)
Definition sched_priority (pmin pmax prio : Z) : Z :=
  s32 (u32 (u32 pmin + u32 (u32 (pmax - pmin) * prio) / 100)).

(** [limits] and [setschedparam] are the host's, by policy (SCHED_OTHER 0, SCHED_FIFO 1,
    SCHED_RR 2). *)
Definition uhi_thread_setprio (limits : Z → Z * Z) (setschedparam : Z → Z → Z) (prio : Z) : Z :=
  setschedparam 0 (sched_priority (limits 0).1 (limits 0).2 prio).

Definition uhi_thread_setprio_rt (limits : Z → Z * Z) (setschedparam : Z → Z → Z) (prio : Z) : Z :=
  if negb (setschedparam 2 (sched_priority (limits 2).1 (limits 2).2 prio) =? 0)
  then setschedparam 1 (sched_priority (limits 1).1 (limits 1).2 prio)
  else 0.

(** ** Thread hooks *)

(** A hook is a function and its argument. *)
Abbreviation hook := (Z * Z)%type.

(** [uhi_thread_hook_table]; a null function pointer is [None]. *)
Abbreviation hook_table := (list (list (option hook))).

Definition no_hooks : hook_table :=
  replicate (Z.to_nat UHI_THREAD_NUM_HOOK_TYPES) (replicate (Z.to_nat UHI_MAX_THREAD_HOOKS) None).

Abbreviation K := (M hook_table).

(** [assert(which < UHI_THREAD_NUM_HOOK_TYPES)], and the row. *)
Definition hook_row (which : Z) : K (list (option hook)) := fun tbl =>
  if UHI_THREAD_NUM_HOOK_TYPES <=? which then Fault Panic
  else if which <? 0 then Fault OutOfBounds
  else match tbl !! Z.to_nat which with Some r => Ok (r, tbl) | None => Fault OutOfBounds end.

Definition set_slot (which : Z) (i : nat) (v : option hook) : K unit :=
  modify (alter (fun row => <[i := v]> row) (Z.to_nat which)).

(** The first free slot from [i] on. *)
Fixpoint free_slot (row : list (option hook)) (i : nat) : option nat :=
  match row with
  | [] => None
  | None :: _ => Some i
  | Some _ :: t => free_slot t (S i)
  end.

Definition uhi_thread_hook_add (which : Z) (h : hook) : K Z :=
  row ← hook_row which;
  match free_slot row 0 with
  | Some i => _ ← set_slot which i (Some h); mret (Z.of_nat i + 1)
  | None => mret 0
  end.

Definition uhi_thread_hook_remove (which id : Z) : K unit :=
  _ ← hook_row which;
  if UHI_MAX_THREAD_HOOKS <=? id then faultM Panic
  else if id <? 0 then faultM OutOfBounds
  else set_slot which (Z.to_nat id) None.

(** The calls it makes, in order. *)
Definition uhi_thread_run_hooks (which : Z) : K (list hook) :=
  row ← hook_row which; mret (omap id row).

(** ** Messages *)

(** The two directions of the socket pair, and the sizes. *)
Record uhi_msg : Type := mk_msg { to_1 : list Z; to_0 : list Z; msg_size : Z; msg_rsp_size : Z }.

Definition uhi_msg_init (size rsp_size : Z) : uhi_msg :=
  mk_msg [] [] (if negb (size =? 0) then size else 1) (if negb (rsp_size =? 0) then rsp_size else 1).

(** [write] takes the bytes; [payload] is the memory at the pointer, or NULL. *)
Definition uhi_msg_sock_write (q : list Z) (payload : option (list Z)) (size : Z) : result (Z * list Z) :=
  let write_size := match payload with Some _ => size | None => 1 end in
  let bytes := match payload with Some p => p | None => [0] end in
  if Z.of_nat (length bytes) <? write_size then Fault OutOfBounds
  else Ok (0, q ++ take (Z.to_nat write_size) bytes).

(** [read] blocks until there is something and takes what is there, up to the count;
    a shorter read is an error. *)
Definition uhi_msg_sock_read (q : list Z) (want : bool) (size : Z) : result (Z * list Z * list Z) :=
  let read_size := if want then size else 1 in
  match q with
  | [] => Fault Blocked
  | _ =>
      let got := take (Z.to_nat read_size) q in
      Ok (if Z.of_nat (length got) =? read_size then 0 else 1, got, drop (Z.to_nat read_size) q)
  end.

Abbreviation G := (M uhi_msg).

Definition uhi_msg_send (payload : option (list Z)) : G Z := fun m =>
  '(rv, q) ← uhi_msg_sock_write (to_1 m) payload (msg_size m);
  Ok (rv, mk_msg q (to_0 m) (msg_size m) (msg_rsp_size m)).

Definition uhi_msg_wait (want : bool) : G (Z * list Z) := fun m =>
  '(rv, got, q) ← uhi_msg_sock_read (to_1 m) want (msg_size m);
  Ok (rv, got, mk_msg q (to_0 m) (msg_size m) (msg_rsp_size m)).

Definition uhi_msg_rsp_send (payload : option (list Z)) : G Z := fun m =>
  '(rv, q) ← uhi_msg_sock_write (to_0 m) payload (msg_rsp_size m);
  Ok (rv, mk_msg (to_1 m) q (msg_size m) (msg_rsp_size m)).

Definition uhi_msg_rsp_wait (want : bool) : G (Z * list Z) := fun m =>
  '(rv, got, q) ← uhi_msg_sock_read (to_0 m) want (msg_rsp_size m);
  Ok (rv, got, mk_msg (to_1 m) q (msg_size m) (msg_rsp_size m)).

(** ** Lock log *)

Record lock_log : Type := mk_ll { ll_fp : option Z; ll_enabled : Z; ll_filename : option string }.

Abbreviation L := (M lock_log).

Definition uhi_lock_log_set_file (file : string) : L unit :=
  modify (fun l => mk_ll (ll_fp l) (ll_enabled l) (Some file)).

(** [fopen] is the host's. *)
Definition uhi_lock_log_enable (fopen : string → option Z) : L unit :=
  l ← get_st;
  if ll_enabled l =? 1 then mret ()
  else name ← liftR (deref (ll_filename l));
       modify (fun l => mk_ll (fopen name) 1 (ll_filename l)).

Definition uhi_lock_log_disable : L unit :=
  l ← get_st;
  if ll_enabled l =? 0 then mret ()
  else _ ← modify (fun l => mk_ll None 0 (ll_filename l));
       _ ← liftR (deref (ll_fp l)); mret ().

(** ** Interface addresses *)

(** An entry of [getifaddrs]; the address and the data may be null. *)
Record ifaddrs : Type := mk_ifa { ifa_name : string; ifa_addr : option (Z * list Z); ifa_data : bool }.

Definition AF_PACKET : Z := 17.

(** -1, or 0 and the address. *)
Fixpoint uhi_get_ifaddr (ifname : string) (l : list ifaddrs) : result (option (list Z)) :=
  match l with
  | [] => Ok None
  | ifa :: t =>
      if String.eqb (ifa_name ifa) ifname then
        '(family, addr) ← deref (ifa_addr ifa);
        if (AF_PACKET =? family) && ifa_data ifa then Ok (Some (take 6 addr)) else uhi_get_ifaddr ifname t
      else uhi_get_ifaddr ifname t
  end.

End HostIf.
