(* ===== verification/HostIfSpec.v ===== *)
(** Properties of the host interface. *)
From S2P Require Import Prelude HostIf.
Import HostIf.

Module HostIfSpec.

(** ** Time *)

(** Time slept over a sequence of events. *)
Definition slept (ev : ns_event) : Z :=
  match ev with Slept e | Interrupted e => e | Failed _ => 0 end.

Lemma ts_nsec_split n : ts_nsec (mk_ts (n / UHI_NSEC_PER_SEC) (n mod UHI_NSEC_PER_SEC)) = n.
Proof. unfold ts_nsec. cbn [tv_sec tv_nsec]. pose proof (Z.div_mod n UHI_NSEC_PER_SEC). unfold UHI_NSEC_PER_SEC in *. lia. Qed.

Lemma nanosleep_loop_spec es : ∀ ts e,
  Forall (fun x => 0 <= x) es → 0 <= ts_nsec ts →
  (∀ ts', ts_nsec ts' = Z.max 0 (ts_nsec ts - foldr Z.add 0 es) → ts_nsec ts' <= e) →
  nanosleep_loop ts ((Interrupted <$> es) ++ [Slept e]) = Some 0 ∧
  ts_nsec ts <= foldr Z.add 0 es + e.
Proof.
  induction es as [| x es IH]; intros ts e Hes Hts He; cbn.
  - split; [done |]. apply He. cbn. lia.
  - apply Forall_cons in Hes as [Hx Hes]. unfold remaining.
    set (r := Z.max 0 (ts_nsec ts - x)).
    destruct (IH (mk_ts (r / UHI_NSEC_PER_SEC) (r mod UHI_NSEC_PER_SEC)) e Hes) as [E Hle]; rewrite ?ts_nsec_split in *.
    + lia.
    + intros ts' Hts'. apply He. rewrite Hts'. cbn. assert (0 <= foldr Z.add 0 es) by (clear -Hes; induction Hes; cbn in *; lia). lia.
    + split; [done |]. lia.
Qed.

(** [uhi_nanosleep] interrupted any number of times and then left to sleep
    returns 0 and has slept, all in all, at least the time asked for: each
    interrupted sleep is resumed for the time that remained.  A failure other than
    an interruption is returned as it is. *)
Theorem uhi_nanosleep_sleeps (nsecs : Z) (es : list Z) (last : ns_event) :
  0 <= nsecs → Forall (fun x => 0 <= x) es →
  match last with
  | Slept e => Z.max 0 (nsecs - foldr Z.add 0 es) <= e →
      uhi_nanosleep nsecs ((Interrupted <$> es) ++ [last]) = Some 0 ∧ nsecs <= foldr Z.add 0 es + e
  | Interrupted _ => uhi_nanosleep nsecs ((Interrupted <$> es) ++ [last]) = None
  | Failed err => uhi_nanosleep nsecs ((Interrupted <$> es) ++ [last]) = Some err
  end.
Proof.
  intros Hn Hes. unfold uhi_nanosleep. set (ts := mk_ts _ _).
  assert (ts_nsec ts = nsecs) as Ets by apply ts_nsec_split.
  destruct last as [e | e | err].
  - intros He. destruct (nanosleep_loop_spec es ts e Hes) as [E Hle]; [lia | | by rewrite <- Ets].
    intros ts' ->. by rewrite Ets.
  - clear. generalize ts. induction es as [| x es IH]; intros ts'; [done | apply IH].
  - clear. generalize ts. induction es as [| x es IH]; intros ts'; [done | apply IH].
Qed.

(** The deadline of a timed wait of [timo] ticks is a normalised time exactly
    [timo] ticks, rounded down to a nanosecond, after now, for every non-negative
    [int] count of ticks: no intermediate result overflows.  The call returns 0 or
    [EWOULDBLOCK]. *)
Theorem cv_timedwait_deadline (hz timo : Z) (now : timespec) (host : timespec → Z) :
  0 < hz → 0 <= timo <= INT_MAX → 0 <= tv_nsec now < UHI_NSEC_PER_SEC →
  let abstime := cond_abstime now (cv_nsecs hz timo) in
  0 <= tv_nsec abstime < UHI_NSEC_PER_SEC ∧
  ts_nsec abstime = ts_nsec now + timo * UHI_NSEC_PER_SEC / hz ∧
  _cv_timedwait hz timo now host = if host abstime =? 0 then 0 else EWOULDBLOCK.
Proof.
  intros Hhz Ht Hn abstime.
  assert (cv_nsecs hz timo = timo * UHI_NSEC_PER_SEC / hz) as E.
  { unfold cv_nsecs. unfold INT_MAX, UHI_NSEC_PER_SEC in *. rewrite (wrap_u_id 64 timo), wrap_u_id by lia. done. }
  set (ns := timo * UHI_NSEC_PER_SEC / hz) in *.
  assert (0 <= ns mod UHI_NSEC_PER_SEC < UHI_NSEC_PER_SEC) as Hm by (apply Z.mod_pos_bound; done).
  pose proof (Z.div_mod ns UHI_NSEC_PER_SEC ltac:(done)) as Hd.
  split; [| split].
  - unfold abstime, cond_abstime. rewrite E, wrap_u_id by (unfold UHI_NSEC_PER_SEC in *; lia).
    destruct (Z.leb_spec UHI_NSEC_PER_SEC (tv_nsec now + ns mod UHI_NSEC_PER_SEC)); cbn [tv_nsec]; lia.
  - unfold abstime, cond_abstime, ts_nsec. rewrite E, wrap_u_id by (unfold UHI_NSEC_PER_SEC in *; lia).
    destruct (Z.leb_spec UHI_NSEC_PER_SEC (tv_nsec now + ns mod UHI_NSEC_PER_SEC)); cbn [tv_nsec tv_sec]; lia.
  - unfold _cv_timedwait. fold abstime. by destruct (host abstime =? 0).
Qed.

(** ** Modes, CPUs, priorities *)

Lemma if_flags_pow2 m n : 0 <= n → if_flags m (2 ^ n) (2 ^ n) = Z.land m (2 ^ n).
Proof.
  intros Hn. unfold if_flags. rewrite land_pow2 by done. assert (0 < 2 ^ n) by (by apply Z.pow_pos_nonneg).
  destruct (Z.testbit m n); [by rewrite Z.eqb_refl |]. by rewrite (proj2 (Z.eqb_neq 0 _)) by lia.
Qed.

Lemma mode_class m a b c :
  0 <= a → 0 <= b → 0 <= c → let all := Z.lor (Z.lor (2 ^ a) (2 ^ b)) (2 ^ c) in
  (if Z.land m all =? all then all
   else Z.lor (Z.lor (if_flags m (2 ^ a) (2 ^ a)) (if_flags m (2 ^ b) (2 ^ b))) (if_flags m (2 ^ c) (2 ^ c))) =
  Z.land m all.
Proof.
  intros Ha Hb Hc all. destruct (Z.eqb_spec (Z.land m all) all) as [-> | _]; [done |].
  rewrite !if_flags_pow2 by done. unfold all. by rewrite !Z.land_lor_distr_r.
Qed.

(** The mode [mkdir] is called with is the permission bits of the argument. *)
Lemma uhi_mkdir_mode_eq mode : uhi_mkdir_mode mode = Z.land mode 511.
Proof.
  unfold uhi_mkdir_mode.
  pose proof (mode_class mode 8 7 6 ltac:(lia) ltac:(lia) ltac:(lia)) as H1.
  pose proof (mode_class mode 5 4 3 ltac:(lia) ltac:(lia) ltac:(lia)) as H2.
  pose proof (mode_class mode 2 1 0 ltac:(lia) ltac:(lia) ltac:(lia)) as H3. cbn zeta in *.
  change (Z.lor (Z.lor (2 ^ 8) (2 ^ 7)) (2 ^ 6)) with 448 in H1.
  change (Z.lor (Z.lor (2 ^ 5) (2 ^ 4)) (2 ^ 3)) with 56 in H2.
  change (Z.lor (Z.lor (2 ^ 2) (2 ^ 1)) (2 ^ 0)) with 7 in H3.
  change 511 with (Z.lor (Z.lor 448 56) 7). rewrite !Z.land_lor_distr_r. f_equal; [f_equal |]; done.
Qed.

Lemma bound_cpu_loop_spec n : ∀ i b cpuset,
  0 <= i → -1 <= b →
  let l := filter (fun c => c ∈ cpuset) (seqZ i (Z.of_nat n)) in
  bound_cpu_loop n i b cpuset =
    match l with [] => b | [c] => if b =? -1 then c else -1 | _ => -1 end.
Proof.
  induction n as [| n IH]; intros i b cpuset Hi Hb l; cbn [bound_cpu_loop]; [done |].
  subst l. rewrite seqZ_cons by lia. replace (Z.pred (Z.of_nat (S n))) with (Z.of_nat n) by lia.
  replace (Z.succ i) with (i + 1) by lia. destruct (bool_decide_reflect (i ∈ cpuset)) as [Hin | Hin].
  - rewrite filter_cons_True by done. destruct (Z.eqb_spec b (-1)) as [-> | Hne].
    + rewrite IH by lia. rewrite (proj2 (Z.eqb_neq i (-1))) by lia. by destruct (filter _ _) as [| c []].
    + by destruct (filter _ _).
  - rewrite filter_cons_False by done. by rewrite IH by lia.
Qed.

(** A thread is reported bound to a CPU exactly when that is the only CPU of the
    machine in its affinity set. *)
Lemma uhi_thread_bound_cpu_spec n cpuset :
  uhi_thread_bound_cpu n cpuset =
    match filter (fun c => c ∈ cpuset) (seqZ 0 (Z.of_nat n)) with [c] => c | _ => -1 end.
Proof. unfold uhi_thread_bound_cpu. rewrite bound_cpu_loop_spec by lia. by destruct (filter _ _) as [| c []]. Qed.

(** Binding a thread to a CPU of the machine is seen by [uhi_thread_bound_cpu]. *)
Lemma bind_bound n cpu :
  0 <= cpu < Z.of_nat n → cpu < CPU_SETSIZE → uhi_thread_bound_cpu n (uhi_thread_bind cpu) = cpu.
Proof.
  intros Hc Hs. rewrite uhi_thread_bound_cpu_spec. unfold uhi_thread_bind. rewrite Z.mod_small by lia.
  replace (seqZ 0 (Z.of_nat n)) with (seqZ 0 cpu ++ cpu :: seqZ (cpu + 1) (Z.of_nat n - cpu - 1)).
  - rewrite filter_app, filter_cons_True by set_solver.
    assert (∀ a k, (cpu < a ∨ a + k <= cpu) → filter (fun c => c ∈ ({[cpu]} : gset Z)) (seqZ a k) = []) as Hnil.
    { intros a k Ho. destruct (filter _ (seqZ a k)) as [| x l] eqn:E; [done |].
      assert (x ∈ x :: l) as Hx by constructor. rewrite <- E in Hx.
      apply list_elem_of_filter in Hx as [->%elem_of_singleton Hin]. apply elem_of_seqZ in Hin. lia. }
    by rewrite !Hnil by lia.
  - replace (Z.of_nat n) with (cpu + (1 + (Z.of_nat n - cpu - 1))) at 2 by lia.
    rewrite seqZ_app by lia. f_equal. rewrite (seqZ_cons (0 + cpu)) by lia. f_equal. f_equal; lia.
Qed.

Lemma sched_priority_range pmin pmax prio :
  0 <= pmin <= pmax → pmax < 2 ^ 16 → 0 <= prio <= 100 → pmin <= sched_priority pmin pmax prio <= pmax.
Proof.
  intros H1 H2 H3. unfold sched_priority.
  rewrite (wrap_u_id 32 pmin), (wrap_u_id 32 (pmax - pmin)), (wrap_u_id 32 (_ * _)) by nia.
  assert (0 <= (pmax - pmin) * prio / 100 <= pmax - pmin).
  { split; [apply Z.div_pos; nia |]. apply Z.div_le_upper_bound; nia. }
  rewrite wrap_u_id, wrap_s_id by lia. lia.
Qed.

(** ** Hooks *)

Definition hooks_wf (tbl : hook_table) : Prop :=
  length tbl = 2%nat ∧ Forall (fun row => length row = 16%nat) tbl.

Lemma hook_row_ok which tbl :
  hooks_wf tbl → 0 <= which < UHI_THREAD_NUM_HOOK_TYPES →
  ∃ row, hook_row which tbl = Ok (row, tbl) ∧ tbl !! Z.to_nat which = Some row ∧ length row = 16%nat.
Proof.
  intros [Hl Hr] Hw. unfold hook_row. rewrite (proj2 (Z.leb_gt _ _)), (proj2 (Z.ltb_ge _ _)) by lia.
  destruct (lookup_lt_is_Some_2 tbl (Z.to_nat which)) as [row Hrow];
    [unfold UHI_THREAD_NUM_HOOK_TYPES in *; lia |].
  rewrite Hrow. exists row. split_and!; [done.. |]. by apply (proj1 (Forall_lookup _ _) Hr _ _ Hrow).
Qed.

Lemma free_slot_spec row : ∀ i0,
  match free_slot row i0 with
  | Some i => ∃ j, i = (i0 + j)%nat ∧ row !! j = Some None ∧ ∀ k, (k < j)%nat → ∃ h, row !! k = Some (Some h)
  | None => Forall (fun o => is_Some o) row
  end.
Proof.
  induction row as [| [h |] row IH]; intros i0; cbn; [by constructor | |].
  - specialize (IH (S i0)). destruct (free_slot row (S i0)) as [i |].
    + destruct IH as (j & -> & Hj & Hk). exists (S j). split; [lia |]. split; [done |].
      intros [| k] Hlt; [by exists h | apply Hk; lia].
    + by constructor.
  - exists 0%nat. split; [lia |]. split; [done |]. lia.
Qed.

(** Storing in a slot, as seen by the rows and by the next run. *)
Lemma set_slot_run which i v tbl row :
  hooks_wf tbl → 0 <= which < UHI_THREAD_NUM_HOOK_TYPES → tbl !! Z.to_nat which = Some row →
  ∃ tbl', set_slot which i v tbl = Ok (tt, tbl') ∧ hooks_wf tbl' ∧
    tbl' !! Z.to_nat which = Some (<[i := v]> row) ∧
    uhi_thread_run_hooks which tbl' = Ok (omap id (<[i := v]> row), tbl').
Proof.
  intros Hwf Hw Hrow. eexists. split; [reflexivity |].
  set (tbl' := alter _ _ tbl). assert (hooks_wf tbl') as Hwf'.
  { destruct Hwf as [Hl Hr]. split; [unfold tbl'; by rewrite length_alter |].
    apply Forall_alter; [done |]. intros r Hr' <-. by rewrite length_insert. }
  assert (tbl' !! Z.to_nat which = Some (<[i := v]> row)) as Hrow'.
  { unfold tbl'. by rewrite list_lookup_alter_eq, Hrow. }
  split; [done |]. split; [done |].
  destruct (hook_row_ok which tbl' Hwf' Hw) as (row' & E & Hl' & _).
  unfold uhi_thread_run_hooks. erewrite M_bind_Ok by exact E. cbn. by rewrite Hrow' in Hl'; simplify_eq.
Qed.

Lemma elem_of_omap_id (h : hook) (row : list (option hook)) (i : nat) : row !! i = Some (Some h) → h ∈ omap id row.
Proof. intros H. apply list_elem_of_omap. exists (Some h). split; [by eapply list_elem_of_lookup_2 | done]. Qed.

(** A hook that was added is called by every later run, and stays so when it is
    removed with the number that [uhi_thread_hook_add] returned: that number is the
    slot plus one, and [uhi_thread_hook_remove] clears the slot of that number (or
    fails its assertion when the hook was in the last slot). *)
Theorem hook_remove_misses (which : Z) (h : hook) (tbl tbl' : hook_table) (hid : Z) :
  hooks_wf tbl → 0 <= which < UHI_THREAD_NUM_HOOK_TYPES →
  uhi_thread_hook_add which h tbl = Ok (hid, tbl') → hid ≠ 0 →
  (∃ calls, uhi_thread_run_hooks which tbl' = Ok (calls, tbl') ∧ h ∈ calls) ∧
  match uhi_thread_hook_remove which hid tbl' with
  | Ok (_, tbl'') => ∃ calls, uhi_thread_run_hooks which tbl'' = Ok (calls, tbl'') ∧ h ∈ calls
  | Fault f => f = Panic ∧ hid = UHI_MAX_THREAD_HOOKS
  end.
Proof.
  intros Hwf Hw E Hid. destruct (hook_row_ok which tbl Hwf Hw) as (row & Er & Hrow & Hlen).
  unfold uhi_thread_hook_add in E. erewrite M_bind_Ok in E by exact Er. cbn beta in E.
  pose proof (free_slot_spec row 0) as Hfree. destruct (free_slot row 0) as [i |]; [| by unfold mret, M_ret in E; simplify_eq].
  destruct Hfree as (j & -> & Hj & _). cbn [Nat.add] in *. apply lookup_lt_Some in Hj.
  destruct (set_slot_run which j (Some h) tbl row Hwf Hw Hrow) as (t1 & E1 & Hwf1 & Hrow1 & Hrun1).
  erewrite M_bind_Ok in E by exact E1. unfold mret, M_ret in E. simplify_eq.
  assert (<[j := Some h]> row !! j = Some (Some h)) as Hh by (apply list_lookup_insert_eq; lia).
  split; [eexists; split; [exact Hrun1 | by eapply elem_of_omap_id] |].
  unfold uhi_thread_hook_remove. destruct (hook_row_ok which tbl' Hwf1 Hw) as (? & Er1 & _).
  erewrite M_bind_Ok by exact Er1. cbn beta.
  destruct (Z.leb_spec UHI_MAX_THREAD_HOOKS (Z.of_nat j + 1)).
  { split; [done |]. unfold UHI_MAX_THREAD_HOOKS in *. lia. }
  rewrite (proj2 (Z.ltb_ge _ _)) by lia.
  destruct (set_slot_run which (Z.to_nat (Z.of_nat j + 1)) None tbl' _ Hwf1 Hw Hrow1) as (t2 & E2 & _ & _ & Hrun2).
  rewrite E2. eexists. split; [exact Hrun2 |]. apply (elem_of_omap_id _ _ j).
  rewrite list_lookup_insert_ne by lia. exact Hh.
Qed.

(** ** Messages *)

Fixpoint send_all (ps : list (list Z)) : G unit :=
  match ps with
  | [] => mret ()
  | p :: t => _ ← uhi_msg_send (Some p); send_all t
  end.

Fixpoint wait_all (n : nat) : G (list (Z * list Z)) :=
  match n with
  | O => mret []
  | S n' => r ← uhi_msg_wait true; t ← wait_all n'; mret (r :: t)
  end.

Definition msg_wf (m : uhi_msg) : Prop := 0 < msg_size m ∧ 0 < msg_rsp_size m.

Lemma send_all_ok ps : ∀ m,
  msg_wf m → Forall (fun p => Z.of_nat (length p) = msg_size m) ps →
  send_all ps m = Ok (tt, mk_msg (to_1 m ++ concat ps) (to_0 m) (msg_size m) (msg_rsp_size m)).
Proof.
  induction ps as [| p ps IH]; intros m Hm Hps; cbn [send_all concat].
  { rewrite app_nil_r. by destruct m. }
  apply Forall_cons in Hps as [Hp Hps]. unfold uhi_msg_send, uhi_msg_sock_write.
  erewrite M_bind_Ok.
  2: { rewrite (proj2 (Z.ltb_ge _ _)) by lia. cbn. rewrite take_ge by lia. reflexivity. }
  rewrite IH by done. cbn. by rewrite <- app_assoc.
Qed.

Lemma wait_all_ok ps : ∀ m,
  msg_wf m → Forall (fun p => Z.of_nat (length p) = msg_size m) ps → to_1 m = concat ps →
  wait_all (length ps) m = Ok ((pair 0) <$> ps, mk_msg [] (to_0 m) (msg_size m) (msg_rsp_size m)).
Proof.
  induction ps as [| p ps IH]; intros m Hm Hps Hq; cbn [wait_all length concat] in *.
  { destruct m; cbn in *; by subst. }
  apply Forall_cons in Hps as [Hp Hps]. pose proof Hm as [Hs _].
  erewrite M_bind_Ok.
  2: { unfold uhi_msg_wait, uhi_msg_sock_read. rewrite Hq.
       destruct (p ++ concat ps) as [| x q] eqn:E; [destruct p; cbn in *; [lia | done] |]. rewrite <- E.
       cbn. rewrite take_app_length', drop_app_length' by lia. rewrite Hp, Z.eqb_refl. reflexivity. }
  erewrite M_bind_Ok by (apply IH; done). reflexivity.
Qed.

(** Messages sent one after the other arrive one after the other, each whole and
    with status 0, and the queue is empty again; the responses, in the other
    direction, are not touched. *)
Theorem uhi_msg_fifo (size rsp_size : Z) (ps : list (list Z)) :
  0 < size → 0 <= rsp_size → Forall (fun p => Z.of_nat (length p) = size) ps →
  ∃ m, send_all ps (uhi_msg_init size rsp_size) = Ok (tt, m) ∧
    wait_all (length ps) m = Ok ((pair 0) <$> ps, uhi_msg_init size rsp_size) ∧ to_0 m = [].
Proof.
  intros Hs Hr Hps. assert (msg_wf (uhi_msg_init size rsp_size) ∧ msg_size (uhi_msg_init size rsp_size) = size) as [Hm Hz].
  { unfold uhi_msg_init, msg_wf. cbn. rewrite (proj2 (Z.eqb_neq size 0)) by lia. cbn.
    destruct (Z.eqb_spec rsp_size 0); cbn; lia. }
  eexists. split; [apply send_all_ok; [done | by rewrite Hz] |]. split; [| done].
  rewrite (wait_all_ok ps); [done | done | cbn [msg_size]; by rewrite Hz | done].
Qed.

(** ** Lock log *)

(** Enabling the log on a file that cannot be opened and disabling it again closes a
    null stream. *)
Lemma lock_log_close_null (name : string) (fopen : string → option Z) :
  fopen name = None →
  (_ ← uhi_lock_log_set_file name; _ ← uhi_lock_log_enable fopen; uhi_lock_log_disable) (mk_ll None 0 None)
    = Fault NullDeref.
Proof.
  intros Hf. do 2 (erewrite M_bind_Ok by reflexivity; cbn beta). cbn. by rewrite Hf.
Qed.

(** ** Addresses *)

(** The first packet-family entry of the interface is used, if the entries before it
    have addresses. *)
Lemma uhi_get_ifaddr_first ifname l1 ifa addr l2 :
  Forall (fun x => ifa_name x ≠ ifname ∨ ∃ f a, ifa_addr x = Some (f, a) ∧ (f ≠ AF_PACKET ∨ ifa_data x = false)) l1 →
  ifa_name ifa = ifname → ifa_addr ifa = Some (AF_PACKET, addr) → ifa_data ifa = true →
  uhi_get_ifaddr ifname (l1 ++ ifa :: l2) = Ok (Some (take 6 addr)).
Proof.
  intros Hl Hn Ha Hd. induction Hl as [| x l1 Hx Hl IH]; cbn [app uhi_get_ifaddr].
  - rewrite Hn, String.eqb_refl, Ha. cbn [deref mbind result_bind]. rewrite Z.eqb_refl. by rewrite Hd.
  - destruct (String.eqb_spec (ifa_name x) ifname) as [E | _]; [| done].
    destruct Hx as [? | (f & a & -> & [Hf | Hf])]; [done | |]; cbn [deref mbind result_bind].
    + by rewrite (proj2 (Z.eqb_neq _ _)) by congruence.
    + by rewrite Hf, andb_false_r.
Qed.

(** ** Witnesses *)

Lemma uhi_nanosleep_sleeps_witness :
  uhi_nanosleep 2500000000 [Interrupted 1000000000; Interrupted 700000000; Slept 800000000] = Some 0.
Proof.
  refine (proj1 (uhi_nanosleep_sleeps 2500000000 [1000000000; 700000000] (Slept 800000000) _ _ _));
    [lia | repeat constructor; lia | cbn; lia].
Defined.

Lemma cv_timedwait_deadline_witness :
  ts_nsec (cond_abstime (mk_ts 10 999999999) (cv_nsecs 100 150)) = 12 * UHI_NSEC_PER_SEC + 499999999.
Proof.
  destruct (cv_timedwait_deadline 100 150 (mk_ts 10 999999999) (fun _ => 0)) as (_ & H & _);
    [lia | unfold INT_MAX; lia | cbn; unfold UHI_NSEC_PER_SEC; lia | exact H].
Defined.

Lemma hook_remove_misses_witness :
  ∃ tbl', uhi_thread_hook_add 0 (5, 6) no_hooks = Ok (1, tbl') ∧
    match uhi_thread_hook_remove 0 1 tbl' with
    | Ok (_, tbl'') => ∃ calls, uhi_thread_run_hooks 0 tbl'' = Ok (calls, tbl'') ∧ (5, 6) ∈ calls
    | Fault f => f = Panic ∧ 1 = UHI_MAX_THREAD_HOOKS
    end.
Proof.
  eexists. split; [reflexivity |].
  refine (proj2 (hook_remove_misses 0 (5, 6) no_hooks _ 1 _ _ eq_refl _)).
  - split; [reflexivity | repeat constructor].
  - unfold UHI_THREAD_NUM_HOOK_TYPES. lia.
  - discriminate.
Defined.

Lemma uhi_msg_fifo_witness : ∃ m,
  send_all [[1; 2]; [3; 4]] (uhi_msg_init 2 0) = Ok (tt, m) ∧
  wait_all 2 m = Ok ([(0, [1; 2]); (0, [3; 4])], uhi_msg_init 2 0).
Proof.
  destruct (uhi_msg_fifo 2 0 [[1; 2]; [3; 4]]) as (m & H1 & H2 & _); [lia.. | repeat constructor |].
  exists m. split; [exact H1 | exact H2].
Defined.

End HostIfSpec.
