(* ===== verification/KThread.v ===== *)
(** Kernel threads (src/src/lib/libuinet/uinet_kern_kthread.c, with
    [pthread_start_routine] and [uhi_thread_create] of uinet_host_interface.c):
    creating a thread and waiting until it has started, and the protocol by which a
    thread is asked to stop.  The build defines [HAS_NATIVE_TLS]. *)
From S2P Require Import Prelude.

Module KThread.

Definition ENOMEM : Z := 12.
Definition TDP_KTHREAD : Z := 0x00200000.

(** ** Thread structures *)

(** A [struct uinet_thread]; [td_ready] says that its lock and condition variable are
    initialised, [td_ucred] is the process whose credentials are held. *)
Record uinet_thread : Type := mk_utd {
  td_proc : Z; td_ready : bool; td_stop_req : option nat; td_last_stop_check : Z;
  td_stop_check_ticks : Z; td_pflags : Z; td_ucred : option Z; td_wchan : Z; td_oncpu : Z
}.

Definition zero_utd : uinet_thread := mk_utd 0 false None 0 0 0 None 0 0.

Definition set_proc (v : Z) (u : uinet_thread) : uinet_thread :=
  mk_utd v (td_ready u) (td_stop_req u) (td_last_stop_check u) (td_stop_check_ticks u) (td_pflags u)
    (td_ucred u) (td_wchan u) (td_oncpu u).
Definition set_stop_req (v : option nat) (u : uinet_thread) : uinet_thread :=
  mk_utd (td_proc u) (td_ready u) v (td_last_stop_check u) (td_stop_check_ticks u) (td_pflags u)
    (td_ucred u) (td_wchan u) (td_oncpu u).
Definition set_last_check (v : Z) (u : uinet_thread) : uinet_thread :=
  mk_utd (td_proc u) (td_ready u) (td_stop_req u) v (td_stop_check_ticks u) (td_pflags u)
    (td_ucred u) (td_wchan u) (td_oncpu u).

(** A pointer to one: allocated, or the thread-local variable of a host thread. *)
Inductive utdp : Type := Heap (p : nat) | Native (t : nat).

#[export] Instance utdp_eq_dec : EqDecision utdp.
Proof. solve_decision. Defined.

(** The structures, what the thread-local key of each thread holds, the references to
    the credentials of each process, and [uinet_thread0]. *)
Record kworld : Type := mk_kworld {
  k_utds : gmap nat uinet_thread; k_native : gmap nat uinet_thread; k_tls : gmap nat utdp;
  k_crefs : gmap Z Z; uinet_thread0 : option utdp
}.

Abbreviation K := (M kworld).

Definition set_utds v w := mk_kworld v (k_native w) (k_tls w) (k_crefs w) (uinet_thread0 w).
Definition set_native v w := mk_kworld (k_utds w) v (k_tls w) (k_crefs w) (uinet_thread0 w).
Definition set_tls v w := mk_kworld (k_utds w) (k_native w) v (k_crefs w) (uinet_thread0 w).
Definition set_crefs v w := mk_kworld (k_utds w) (k_native w) (k_tls w) v (uinet_thread0 w).
Definition set_thread0 v w := mk_kworld (k_utds w) (k_native w) (k_tls w) (k_crefs w) v.

(** A thread-local variable starts out zero. *)
Definition native (t : nat) (w : kworld) : uinet_thread := default zero_utd (k_native w !! t).

Definition get_utd (p : utdp) : K uinet_thread := fun w =>
  match p with
  | Heap n => match k_utds w !! n with Some u => Ok (u, w) | None => Fault BadPointer end
  | Native t => Ok (native t w, w)
  end.

Definition uhi_tls_get (t : nat) : K (option utdp) := gets (fun w => k_tls w !! t).
Definition uhi_tls_set (t : nat) (p : utdp) : K unit := modify (fun w => set_tls (<[t := p]> (k_tls w)) w).

Definition crhold (proc : Z) : K unit :=
  modify (fun w => set_crefs (<[proc := default 0 (k_crefs w !! proc) + 1]> (k_crefs w)) w).
Definition crfree (proc : Z) : K unit :=
  modify (fun w => set_crefs (<[proc := default 0 (k_crefs w !! proc) - 1]> (k_crefs w)) w).

(** What the host and the kernel say when a thread starts. *)
Record startenv : Type := mk_env { e_ticks : Z; e_hz : Z; e_cpuid : Z; e_ncpus : Z }.

(** [uinet_thread_start_hook] in thread [t]. *)
Definition uinet_thread_start_hook (t : nat) (env : startenv) : K unit :=
  o ← uhi_tls_get t;
  utd ← liftR (deref o);
  thread0 ← gets uinet_thread0;
  let is_thread_zero := bool_decide (Some utd = thread0) in
  u ← get_utd utd;
  _ ← modify (fun w => set_native (<[t := set_proc (td_proc u) (native t w)]> (k_native w)) w);
  _ ← uhi_tls_set t (Native t);
  _ ← match utd with
      | Heap n => modify (fun w => set_utds (delete n (k_utds w)) w)
      | Native _ => faultM BadPointer
      end;
  td ← gets (native t);
  let td := mk_utd (td_proc td) true None (e_ticks env) (Z.quot (e_hz env) 2)
              (Z.lor (td_pflags td) TDP_KTHREAD) (td_ucred td) (td_wchan td) (td_oncpu td) in
  td ← (if negb is_thread_zero then
          _ ← crhold (td_proc td);
          mret (mk_utd (td_proc td) (td_ready td) (td_stop_req td) (td_last_stop_check td)
                  (td_stop_check_ticks td) (td_pflags td) (Some (td_proc td)) (td_wchan td) (td_oncpu td))
        else mret td);
  let td := mk_utd (td_proc td) (td_ready td) (td_stop_req td) (td_last_stop_check td)
              (td_stop_check_ticks td) (td_pflags td) (td_ucred td) (Z.of_nat t)
              (u8 (if e_cpuid env =? -1 then 0 else Z.rem (e_cpuid env) (e_ncpus env))) in
  modify (fun w => set_native (<[t := td]> (k_native w)) w).

(** [malloc] gave [p]; [proc0] stands for the null process. *)
Definition uinet_thread_alloc (p : option nat) (proc : option Z) (proc0 : Z) : K (option utdp) :=
  match p with
  | None => mret None
  | Some n =>
      _ ← modify (fun w => set_utds (<[n := set_proc (default proc0 proc) zero_utd]> (k_utds w)) w);
      mret (Some (Heap n))
  end.

(** The destructor of the key, in a thread that ends. *)
Definition uinet_thread_free (utd : utdp) : K unit :=
  u ← get_utd utd;
  if negb (td_ready u) then faultM BadPointer
  else
    _ ← crfree (td_proc u);
    match utd with
    | Native t =>
        modify (fun w => set_native (<[t := mk_utd (td_proc u) false (td_stop_req u) (td_last_stop_check u)
          (td_stop_check_ticks u) (td_pflags u) (td_ucred u) (td_wchan u) (td_oncpu u)]> (k_native w)) w)
    | Heap _ => mret ()
    end.

(** ** Creating *)

(** [pthread_start_routine] in the new thread [t] up to the notification, which hands
    the pointer of the key to the creator. *)
Definition pthread_start_routine (t : nat) (tls_data : utdp) (env : startenv) : K (option utdp) :=
  _ ← uhi_tls_set t tls_data;
  _ ← uinet_thread_start_hook t env;
  uhi_tls_get t.

(** What [pthread_create] does: it starts thread [t], or fails. *)
Inductive created : Type := Created (t : nat) | NotCreated (error : Z).

(** Both calls; the creator waits until the new thread has set [notice.utd]. *)
Definition kthread_add (p : option nat) (create : created) (proc : option Z) (proc0 : Z)
    (env : startenv) : K (Z * option utdp) :=
  o ← uinet_thread_alloc p proc proc0;
  match o with
  | None => mret (ENOMEM, None)
  | Some utd =>
      match create with
      | Created t =>
          notice ← pthread_start_routine t utd env;
          match notice with
          | Some td => mret (0, Some td)
          | None => faultM Blocked
          end
      | NotCreated error => faultM Blocked
      end
  end.

(** [kproc_kthread_add] also stores the process of the new thread to [*p]. *)
Definition kproc_kthread_add (p : option nat) (create : created) (proc : option Z) (proc0 : Z)
    (env : startenv) : K (Z * option utdp * option Z) :=
  match p with
  | None => mret (ENOMEM, None, proc)
  | Some _ =>
      r ← kthread_add p create proc proc0 env;
      mret (r.1, r.2, Some (default proc0 proc))
  end.

(** Thread 0 sets itself up. *)
Definition uinet_init_thread0 (p t : nat) (proc0 : Z) (env : startenv) : K unit :=
  o ← uinet_thread_alloc (Some p) (Some proc0) proc0;
  utd ← liftR (deref o);
  _ ← modify (set_thread0 (Some utd));
  _ ← uhi_tls_set t utd;
  _ ← uinet_thread_start_hook t env;
  td ← uhi_tls_get t;
  modify (set_thread0 td).

(** ** Stopping *)

(** The worker's structure and the live stop requests with their acknowledgement. *)
Record kstop : Type := mk_kstop { s_td : uinet_thread; s_tsrs : gmap nat Z }.

Abbreviation P := (M kstop).

Definition tsr_load (tsr : nat) : P Z := fun s =>
  match s_tsrs s !! tsr with Some a => Ok (a, s) | None => Fault BadPointer end.
Definition tsr_store (tsr : nat) (a : Z) : P unit :=
  _ ← tsr_load tsr; modify (fun s => mk_kstop (s_td s) (<[tsr := a]> (s_tsrs s))).

(** The two halves of [kthread_stop]: the request is initialised, then posted. *)
Definition tsr_init (tsr : nat) : P unit := modify (fun s => mk_kstop (s_td s) (<[tsr := 0]> (s_tsrs s))).
Definition stop_post (tsr : nat) : P unit :=
  modify (fun s => mk_kstop (set_stop_req (Some tsr) (s_td s)) (s_tsrs s)).
Definition kthread_stop (tsr : nat) : P unit := _ ← tsr_init tsr; stop_post tsr.

(** One test of the loop of [kthread_stop_wait], and what follows the loop. *)
Definition stop_acked (tsr : nat) : P bool := a ← tsr_load tsr; mret (negb (a =? 0)).
Definition tsr_destroy (tsr : nat) : P unit :=
  _ ← tsr_load tsr; modify (fun s => mk_kstop (s_td s) (delete tsr (s_tsrs s))).

(** At time [ticks]. *)
Definition kthread_stop_check (ticks : Z) : P Z :=
  td ← gets s_td;
  if td_stop_check_ticks td <=? s32 (ticks - td_last_stop_check td) then
    _ ← modify (fun s => mk_kstop (set_last_check ticks (s_td s)) (s_tsrs s));
    td ← gets s_td;
    mret (match td_stop_req td with Some _ => 1 | None => 0 end)
  else mret 0.

(** [tsr] is read before the lock is taken. *)
Definition stop_ack_section (tsr : nat) : P unit := tsr_store tsr 1.
Definition kthread_stop_ack : P unit :=
  td ← gets s_td; tsr ← liftR (deref (td_stop_req td)); stop_ack_section tsr.

(** The requester: before [kthread_stop], between its halves, about to test, on the
    condition variable, about to destroy, done. *)
Inductive rpc : Type := R_start | R_init | R_test | R_waiting | R_acked | R_done.
(** The worker: running, told to stop, past the read of the request, gone. *)
Inductive wpc : Type := W_run | W_stop | W_ack (tsr : nat) | W_gone.

Record stopsys : Type := mk_sys { y_st : kstop; y_ticks : Z; y_r : rpc; y_w : wpc }.

(** One step of the requester, whose request is [tsr], of the worker, or of time. *)
Inductive stop_step (tsr : nat) : stopsys → stopsys → Prop :=
| st_tick s n r w : stop_step tsr (mk_sys s n r w) (mk_sys s (s32 (n + 1)) r w)
| st_init s s' n w : tsr_init tsr s = Ok (tt, s') → stop_step tsr (mk_sys s n R_start w) (mk_sys s' n R_init w)
| st_post s s' n w : stop_post tsr s = Ok (tt, s') → stop_step tsr (mk_sys s n R_init w) (mk_sys s' n R_test w)
| st_test s s' n w b : stop_acked tsr s = Ok (b, s') →
    stop_step tsr (mk_sys s n R_test w) (mk_sys s' n (if b then R_acked else R_waiting) w)
| st_spurious s n w : stop_step tsr (mk_sys s n R_waiting w) (mk_sys s n R_test w)
| st_destroy s s' n w : tsr_destroy tsr s = Ok (tt, s') →
    stop_step tsr (mk_sys s n R_acked w) (mk_sys s' n R_done w)
| st_check s s' n r v : kthread_stop_check n s = Ok (v, s') →
    stop_step tsr (mk_sys s n r W_run) (mk_sys s' n r (if v =? 1 then W_stop else W_run))
| st_read s n r p : td_stop_req (s_td s) = Some p →
    stop_step tsr (mk_sys s n r W_stop) (mk_sys s n r (W_ack p))
| st_ack s s' n r p : stop_ack_section p s = Ok (tt, s') →
    stop_step tsr (mk_sys s n r (W_ack p)) (mk_sys s' n (match r with R_waiting => R_test | _ => r end) W_gone).

End KThread.
