(* ===== verification/KThreadSpec.v ===== *)
(** Properties of kernel threads: what a created thread starts with, and the safety
    and completion of the stop protocol under every interleaving. *)
From stdpp Require Import relations.
From S2P Require Import Prelude KThread.
Import KThread.

Module KThreadSpec.

(** ** Creating *)

(** The structure of a thread that has just started. *)
Definition started (t : nat) (proc : Z) (env : startenv) : uinet_thread :=
  mk_utd proc true None (e_ticks env) (Z.quot (e_hz env) 2) TDP_KTHREAD (Some proc) (Z.of_nat t)
    (u8 (if e_cpuid env =? -1 then 0 else Z.rem (e_cpuid env) (e_ncpus env))).

(** The references to the credentials of [proc]. *)
Definition crefs (proc : Z) (w : kworld) : Z := default 0 (k_crefs w !! proc).

Lemma start_hook_ok t n u env w :
  k_tls w !! t = Some (Heap n) → k_utds w !! n = Some u → k_native w !! t = None →
  uinet_thread0 w ≠ Some (Heap n) →
  uinet_thread_start_hook t env w =
    Ok (tt, mk_kworld (delete n (k_utds w)) (<[t := started t (td_proc u) env]> (k_native w))
              (<[t := Native t]> (k_tls w)) (<[td_proc u := crefs (td_proc u) w + 1]> (k_crefs w))
              (uinet_thread0 w)).
Proof.
  intros Ht Hn Hnat H0. unfold uinet_thread_start_hook, uhi_tls_get.
  erewrite M_bind_Ok by reflexivity. cbn beta. rewrite Ht. do 2 (erewrite M_bind_Ok by reflexivity; cbn beta).
  rewrite bool_decide_false by congruence. cbn zeta.
  erewrite M_bind_Ok by (unfold get_utd; rewrite Hn; reflexivity). cbn beta.
  do 4 (erewrite M_bind_Ok by reflexivity; cbn beta zeta). cbn [negb].
  erewrite M_bind_Ok by (erewrite M_bind_Ok by reflexivity; reflexivity). unfold modify, native, crefs.
  cbn. rewrite Hnat, lookup_insert_eq, insert_insert_eq. done.
Qed.

(** [kthread_add] with a process (the kernel's own when none is named): when the host
    starts the thread, the call returns 0 and the thread's structure, which is the
    thread-local one, complete: no stop request, the time of its last check and the
    interval set, one more reference held on the process's credentials.  The
    structure allocated for the start is freed, and the end of the thread gives the
    reference back.  When there is no memory the call is refused; when the host
    refuses the thread, the call never returns. *)
Theorem kthread_add_starts (n t : nat) (proc : option Z) (proc0 : Z) (env : startenv) (w : kworld) (error : Z) :
  k_utds w !! n = None → k_native w !! t = None → uinet_thread0 w ≠ Some (Heap n) →
  let p := default proc0 proc in
  (∃ w', kthread_add (Some n) (Created t) proc proc0 env w = Ok ((0, Some (Native t)), w') ∧
     k_utds w' = k_utds w ∧ native t w' = started t p env ∧ crefs p w' = crefs p w + 1 ∧
     k_tls w' !! t = Some (Native t) ∧
     ∃ w'', uinet_thread_free (Native t) w' = Ok (tt, w'') ∧ crefs p w'' = crefs p w) ∧
  kthread_add None (Created t) proc proc0 env w = Ok ((ENOMEM, None), w) ∧
  kthread_add (Some n) (NotCreated error) proc proc0 env w = Fault Blocked.
Proof.
  intros Hn Ht H0 p. split; [| by split]. unfold kthread_add, uinet_thread_alloc.
  erewrite M_bind_Ok by (erewrite M_bind_Ok by reflexivity; reflexivity). cbn beta iota. fold p.
  set (w1 := set_utds _ w).
  assert (∃ w', pthread_start_routine t (Heap n) env w1 = Ok (Some (Native t), w') ∧
    k_utds w' = k_utds w ∧ native t w' = started t p env ∧ crefs p w' = crefs p w + 1 ∧
    k_tls w' !! t = Some (Native t)) as (w' & E & Hu & Hnat & Hcr & Htls).
  { unfold pthread_start_routine. erewrite M_bind_Ok by reflexivity. cbn beta.
    erewrite M_bind_Ok.
    2: { apply (start_hook_ok t n (set_proc p zero_utd)); cbn; [by rewrite lookup_insert_eq.. | done | done]. }
    eexists. split; [unfold uhi_tls_get, gets; cbn; by rewrite lookup_insert_eq |]. cbn.
    unfold native, crefs. cbn. rewrite !lookup_insert_eq, delete_insert_id by done. done. }
  erewrite M_bind_Ok by exact E. exists w'. split_and!; [done.. |].
  unfold uinet_thread_free. erewrite M_bind_Ok by reflexivity. cbn beta. rewrite Hnat. cbn [td_ready started negb].
  erewrite M_bind_Ok by reflexivity. eexists. split; [reflexivity |].
  unfold crefs in *. cbn. rewrite lookup_insert_eq. cbn. lia.
Qed.

(** ** Stopping *)

(** At the start nobody has asked the worker to stop. *)
Definition stop_start (tsr : nat) (c : Z) (y : stopsys) : Prop :=
  y_r y = R_start ∧ y_w y = W_run ∧ td_stop_req (s_td (y_st y)) = None ∧
  s_tsrs (y_st y) !! tsr = None ∧ td_stop_check_ticks (s_td (y_st y)) = c.

(** The request, its acknowledgement and the two threads. *)
Definition stop_inv (tsr : nat) (c : Z) (y : stopsys) : Prop :=
  let a := s_tsrs (y_st y) !! tsr in
  let req := td_stop_req (s_td (y_st y)) in
  let told := y_w y = W_run ∨ y_w y = W_stop ∨ y_w y = W_ack tsr in
  td_stop_check_ticks (s_td (y_st y)) = c ∧
  match y_r y with
  | R_start => a = None ∧ req = None ∧ y_w y = W_run
  | R_init => a = Some 0 ∧ req = None ∧ y_w y = W_run
  | R_test => req = Some tsr ∧ ((a = Some 0 ∧ told) ∨ (a = Some 1 ∧ y_w y = W_gone))
  | R_waiting => req = Some tsr ∧ a = Some 0 ∧ told
  | R_acked => a = Some 1 ∧ y_w y = W_gone
  | R_done => a = None ∧ y_w y = W_gone
  end.

Lemma stop_inv_start tsr c y : stop_start tsr c y → stop_inv tsr c y.
Proof. intros (Hr & Hw & Hq & Ha & Hc). unfold stop_inv. rewrite Hr. done. Qed.

Lemma tsr_load_inv tsr s a s' : tsr_load tsr s = Ok (a, s') → s_tsrs s !! tsr = Some a ∧ s' = s.
Proof. unfold tsr_load. case_match; naive_solver. Qed.

(** A check changes nothing but the time of the last one, and sees a posted request. *)
Lemma stop_check_inv n s v s' :
  kthread_stop_check n s = Ok (v, s') →
  s_tsrs s' = s_tsrs s ∧ td_stop_req (s_td s') = td_stop_req (s_td s) ∧
  td_stop_check_ticks (s_td s') = td_stop_check_ticks (s_td s) ∧
  (v = 1 → is_Some (td_stop_req (s_td s))).
Proof.
  unfold kthread_stop_check. erewrite M_bind_Ok by reflexivity. cbn beta.
  destruct (_ <=? _).
  - do 2 (erewrite M_bind_Ok by reflexivity; cbn beta). unfold mret, M_ret. cbn. intros [= <- <-].
    split_and!; try done. by destruct (td_stop_req (s_td s)).
  - unfold mret, M_ret. intros [= <- <-]. by split_and!.
Qed.

Lemma stop_inv_step tsr c y y' : stop_inv tsr c y → stop_step tsr y y' → stop_inv tsr c y'.
Proof.
  intros HI Hs. destruct Hs as [s n r w | s s' n w E | s s' n w E | s s' n w b E | s n w | s s' n w E
    | s s' n r v E | s n r p Hp | s s' n r p E]; unfold stop_inv in *; cbn [y_st y_ticks y_r y_w] in *;
    destruct HI as [Hc HI].
  - done.
  - unfold tsr_init, modify in E. simplify_eq. cbn. rewrite lookup_insert_eq. naive_solver.
  - unfold stop_post, modify in E. simplify_eq. cbn. naive_solver.
  - unfold stop_acked, mbind, M_bind in E. destruct (tsr_load tsr s) as [[a s1] |] eqn:El; [| done].
    apply tsr_load_inv in El as [Ha ->]. unfold mret, M_ret in E. simplify_eq. split; [done |]. rewrite Ha in *.
    destruct HI as [Hq [[[= ->] Ht] | [[= ->] Hw]]]; cbn; naive_solver.
  - naive_solver.
  - unfold tsr_destroy, mbind, M_bind in E. destruct (tsr_load tsr s) as [[a s1] |] eqn:El; [| done].
    apply tsr_load_inv in El as [Ha ->]. unfold modify in E. simplify_eq. cbn. rewrite lookup_delete_eq. naive_solver.
  - apply stop_check_inv in E as (E1 & E2 & E3 & Hv). rewrite E1, E2, E3. split; [done |].
    destruct (Z.eqb_spec v 1) as [-> | _]; [| done]. destruct (Hv eq_refl) as [p Hp]. destruct r; naive_solver.
  - split; [done |]. destruct r; naive_solver.
  - unfold stop_ack_section, tsr_store, mbind, M_bind in E. destruct (tsr_load p s) as [[a s1] |] eqn:El; [| done].
    apply tsr_load_inv in El as [Ha ->]. unfold modify in E. simplify_eq. cbn. split; [done |].
    destruct r; cbn; try (by naive_solver); destruct HI as [Hq HI];
      (assert (p = tsr) as -> by naive_solver); rewrite lookup_insert_eq; naive_solver.
Qed.

Lemma stop_inv_steps tsr c y y' : stop_inv tsr c y → rtc (stop_step tsr) y y' → stop_inv tsr c y'.
Proof. intros H Hr. induction Hr; [done |]. by eauto using stop_inv_step. Qed.

(** The request can be noticed: after enough ticks a check returns 1. *)
Lemma ticks_pass tsr k : ∀ s n r w, ∃ n', rtc (stop_step tsr) (mk_sys s (s32 n) r w) (mk_sys s n' r w) ∧ n' = s32 (n + Z.of_nat k).
Proof.
  induction k as [| k IH]; intros s n r w.
  - exists (s32 n). rewrite Z.add_0_r. by split; [apply rtc_refl |].
  - destruct (IH s (n + 1) r w) as (n' & Hr & ->). eexists. split; [| reflexivity].
    eapply rtc_l; [apply st_tick |]. rewrite wrap_s_add by lia. replace (n + Z.of_nat (S k)) with (n + 1 + Z.of_nat k) by lia. done.
Qed.

Lemma check_after tsr s n r p :
  td_stop_req (s_td s) = Some p → 0 <= td_stop_check_ticks (s_td s) < 2 ^ 31 →
  ∃ s' n', rtc (stop_step tsr) (mk_sys s n r W_run) (mk_sys s' n' r W_stop) ∧
    s_tsrs s' = s_tsrs s ∧ td_stop_req (s_td s') = Some p.
Proof.
  intros Hq Hc. set (c := td_stop_check_ticks (s_td s)) in *. set (last := td_last_stop_check (s_td s)).
  set (k := Z.to_nat ((c + last - (n + 1)) mod 2 ^ 32)).
  destruct (ticks_pass tsr k s (n + 1) r W_run) as (n' & Hr & Hn').
  assert (s32 (n' - last) = c) as Hdue.
  { rewrite Hn'. replace (s32 (n + 1 + Z.of_nat k) - last) with (s32 (n + 1 + Z.of_nat k) + - last) by lia.
    rewrite wrap_s_add by lia. unfold k. rewrite Z2Nat.id by (apply Z.mod_pos_bound; lia).
    set (x := c + last - (n + 1)). transitivity (s32 c); [| apply wrap_s_id; lia]. unfold wrap_s. f_equal.
    replace (n + 1 + x mod 2 ^ 32 + - last + 2 ^ (32 - 1)) with (x mod 2 ^ 32 + (n + 1 - last + 2 ^ (32 - 1))) by lia.
    rewrite Z.add_mod_idemp_l by lia. f_equal. unfold x. lia. }
  eexists _, n'. split.
  - eapply rtc_l; [apply st_tick |]. etransitivity; [exact Hr |]. apply rtc_once.
    refine (st_check tsr s _ n' r 1 _). unfold kthread_stop_check. erewrite M_bind_Ok by reflexivity. cbn beta.
    fold c last. rewrite Hdue, Z.leb_refl. do 2 (erewrite M_bind_Ok by reflexivity; cbn beta). cbn. by rewrite Hq.
  - done.
Qed.

(** The worker, once told, acknowledges. *)
Lemma told_acks tsr c s n r w :
  stop_inv tsr c (mk_sys s n r w) → r = R_test ∨ r = R_waiting → s_tsrs s !! tsr = Some 0 → 0 <= c < 2 ^ 31 →
  ∃ s' n', rtc (stop_step tsr) (mk_sys s n r w) (mk_sys s' n' R_test W_gone) ∧ s_tsrs s' !! tsr = Some 1.
Proof.
  intros [Hc HI] Hr Ha Hb. cbn in Hc, HI.
  assert (td_stop_req (s_td s) = Some tsr ∧ (w = W_run ∨ w = W_stop ∨ w = W_ack tsr)) as [Hq Hw].
  { destruct Hr as [-> | ->]; rewrite Ha in HI; naive_solver. }
  assert (∃ s1 n1, rtc (stop_step tsr) (mk_sys s n r w) (mk_sys s1 n1 r (W_ack tsr)) ∧
    s_tsrs s1 !! tsr = Some 0) as (s1 & n1 & R1 & Ha1).
  { destruct Hw as [-> | [-> | ->]].
    - destruct (check_after tsr s n r tsr Hq) as (s1 & n1 & R1 & E1 & Q1); [lia |].
      exists s1, n1. split; [| by rewrite E1]. eapply rtc_r; [exact R1 | by apply st_read].
    - exists s, n. split; [| done]. by apply rtc_once, st_read.
    - exists s, n. split; [apply rtc_refl | done]. }
  eexists _, n1. split.
  - eapply rtc_r; [exact R1 |]. replace R_test with (match r with R_waiting => R_test | _ => r end) by (by destruct Hr as [-> | ->]).
    apply st_ack. unfold stop_ack_section, tsr_store. erewrite M_bind_Ok; [reflexivity |]. unfold tsr_load. by rewrite Ha1.
  - cbn. by rewrite lookup_insert_eq.
Qed.

Definition stopped (y : stopsys) : Prop := y_r y = R_done ∧ y_w y = W_gone.

Definition can_stop (tsr : nat) (y : stopsys) : Prop := ∃ y', rtc (stop_step tsr) y y' ∧ stopped y'.

Lemma can_stop_rtc tsr y y' : rtc (stop_step tsr) y y' → can_stop tsr y' → can_stop tsr y.
Proof. intros Hr (y'' & Hr' & S). exists y''. split; [by etransitivity | done]. Qed.

Lemma can_stop_acked tsr c s n w : stop_inv tsr c (mk_sys s n R_acked w) → can_stop tsr (mk_sys s n R_acked w).
Proof.
  intros (_ & Ha & Hw). cbn in Ha, Hw. subst w. set (s' := mk_kstop (s_td s) (delete tsr (s_tsrs s))).
  exists (mk_sys s' n R_done W_gone). split; [| by split]. apply rtc_once, st_destroy.
  unfold tsr_destroy. by erewrite M_bind_Ok by (unfold tsr_load; by rewrite Ha).
Qed.

Lemma can_stop_gone tsr c s n :
  stop_inv tsr c (mk_sys s n R_test W_gone) → s_tsrs s !! tsr = Some 1 → can_stop tsr (mk_sys s n R_test W_gone).
Proof.
  intros HI Ha. assert (stop_step tsr (mk_sys s n R_test W_gone) (mk_sys s n R_acked W_gone)) as Hst.
  { refine (st_test tsr s s n W_gone true _). unfold stop_acked. by erewrite M_bind_Ok by (unfold tsr_load; by rewrite Ha). }
  eapply can_stop_rtc; [by apply rtc_once |]. eapply can_stop_acked, stop_inv_step; [exact HI | done].
Qed.

Lemma can_stop_test tsr c s n r w :
  stop_inv tsr c (mk_sys s n r w) → 0 <= c < 2 ^ 31 → r = R_test ∨ r = R_waiting → can_stop tsr (mk_sys s n r w).
Proof.
  intros HI Hc Hr. destruct (decide (s_tsrs s !! tsr = Some 0)) as [Ha | Hna].
  - destruct (told_acks tsr c s n r w HI Hr Ha Hc) as (s1 & n1 & R1 & Ha1).
    eapply can_stop_rtc; [exact R1 |]. eapply can_stop_gone; [by eapply stop_inv_steps | done].
  - pose proof HI as [_ Hm]. cbn in Hm. destruct Hr as [-> | ->]; [| naive_solver].
    destruct Hm as [Hq [[? _] | [Ha ->]]]; [done |]. by eapply can_stop_gone.
Qed.

Lemma can_stop_init tsr c s n w :
  stop_inv tsr c (mk_sys s n R_init w) → 0 <= c < 2 ^ 31 → can_stop tsr (mk_sys s n R_init w).
Proof.
  intros HI Hc. eapply can_stop_rtc; [by eapply rtc_once, st_post |].
  eapply can_stop_test; [eapply stop_inv_step; [exact HI | by apply st_post] | done | by left].
Qed.

Lemma stop_completes tsr c y : stop_inv tsr c y → 0 <= c < 2 ^ 31 → can_stop tsr y.
Proof.
  intros HI Hc. destruct y as [s n r w]. destruct r.
  - eapply can_stop_rtc; [by eapply rtc_once, st_init |].
    eapply can_stop_init; [eapply stop_inv_step; [exact HI | by apply st_init] | done].
  - by eapply can_stop_init.
  - eapply can_stop_test; eauto.
  - eapply can_stop_test; eauto.
  - by eapply can_stop_acked.
  - destruct HI as (_ & _ & Hw). exists (mk_sys s n R_done w). split; [apply rtc_refl | done].
Qed.

(** [C28] The stop protocol, with the request on the stack of the thread that asks: under
    every interleaving the worker's acknowledgement finds the request alive, it is
    destroyed only after the worker is done with it, and the asking thread never
    waits for an acknowledgement that has been given; and whatever has happened,
    the protocol can still run to its end, also when the tick counter wraps. *)
Theorem kthread_stop_safe (tsr : nat) (c : Z) (y0 y : stopsys) :
  stop_start tsr c y0 → 0 <= c < 2 ^ 31 → rtc (stop_step tsr) y0 y →
  (∀ p, y_w y = W_ack p → p = tsr ∧ ∃ s', stop_ack_section p (y_st y) = Ok (tt, s')) ∧
  (y_r y = R_acked ∨ y_r y = R_done → y_w y = W_gone) ∧
  (y_r y = R_waiting → y_w y ≠ W_gone) ∧
  (y_w y = W_stop → td_stop_req (s_td (y_st y)) = Some tsr) ∧
  ∃ y', rtc (stop_step tsr) y y' ∧ stopped y'.
Proof.
  intros H0 Hc Hr. pose proof (stop_inv_steps _ _ _ _ (stop_inv_start _ _ _ H0) Hr) as HI. pose proof HI as [Hct Hm].
  split_and!.
  - intros p Hp. rewrite Hp in Hm. destruct (y_r y); try naive_solver.
    all: (assert (p = tsr ∧ s_tsrs (y_st y) !! tsr = Some 0) as [-> Ha] by naive_solver); split; [done |];
      eexists; unfold stop_ack_section, tsr_store; (erewrite M_bind_Ok by (unfold tsr_load; by rewrite Ha)); reflexivity.
  - destruct (y_r y); intros []; try done; by destruct Hm.
  - intros E. rewrite E in Hm. destruct Hm as (_ & _ & Hw); intros Hg; rewrite Hg in Hw; naive_solver.
  - intros E. rewrite E in Hm. destruct (y_r y); naive_solver.
  - by eapply stop_completes.
Qed.

(** ** Witnesses *)

Definition ex_env : startenv := mk_env 100 1000 3 2.
Definition ex_world : kworld := mk_kworld ∅ ∅ ∅ ∅ (Some (Native 0)).

Lemma kthread_add_starts_witness : ∃ w',
  kthread_add (Some 5%nat) (Created 7) None 9 ex_env ex_world = Ok ((0, Some (Native 7)), w') ∧
  td_stop_check_ticks (native 7 w') = 500 ∧ td_oncpu (native 7 w') = 1.
Proof.
  destruct (kthread_add_starts 5 7 None 9 ex_env ex_world 11 eq_refl eq_refl) as ((w' & E & _ & Hn & _) & _);
    [discriminate |].
  exists w'. split; [exact E |]. rewrite Hn. split; reflexivity.
Defined.

Definition ex_stop : stopsys := mk_sys (mk_kstop (started 7 9 ex_env) ∅) 2147483647 R_start W_run.

Lemma kthread_stop_safe_witness : ∃ y', rtc (stop_step 3) ex_stop y' ∧ stopped y'.
Proof.
  refine (proj2 (proj2 (proj2 (proj2 (kthread_stop_safe 3 500 ex_stop ex_stop _ _ (rtc_refl _ _)))))).
  - split_and!; reflexivity.
  - lia.
Defined.

End KThreadSpec.
