(* ===== verification/Kenv.v ===== *)
(** The kernel environment (src/src/lib/libuinet/uinet_kern_environment.c) and the
    number parser below it (src/src/sys/libkern/strtoq.c).  Strings are lists of bytes
    without the terminating NUL; [getenv] is the host's.  Module KenvSpec: the numbers the
    kernel's own formatted output writes are read back. *)
From S2P Require Import Prelude Printf PrintfSpec.
Import Printf.

Module Kenv.

Definition QUAD_MAX : Z := 2 ^ 63 - 1.
Definition QUAD_MIN : Z := - 2 ^ 63.

(** ** strtoq *)

(** The tests of sys/ctype.h. *)
Definition isspace (c : Z) : bool := (c =? 32) || ((9 <=? c) && (c <=? 13)).
Definition isupper (c : Z) : bool := (65 <=? c) && (c <=? 90).
Definition islower (c : Z) : bool := (97 <=? c) && (c <=? 122).
Definition isalpha (c : Z) : bool := isupper c || islower c.
Definition isascii (c : Z) : bool := c <=? 127.

Fixpoint skip_space (s : str) : str :=
  match s with c :: t => if isspace c then skip_space t else s | [] => [] end.

(** The body of the loop up to [c >= base]: the digit, or the end of the number. *)
Definition digit_in (base c : Z) : option Z :=
  if negb (isascii c) then None
  else
    let d := if is_digit c then Some (c - 48)
             else if isalpha c then Some (c - (if isupper c then 65 - 10 else 97 - 10))
             else None in
    match d with Some d => if base <=? d then None else Some d | None => None end.

(** The accumulated number, [any], and what is left at the character that ends the
    loop. *)
Fixpoint strtoq_loop (base cutoff cutlim : Z) (s : str) (acc any : Z) : Z * Z * str :=
  match s with
  | [] => (acc, any, [])
  | c :: t =>
      match digit_in base c with
      | None => (acc, any, s)
      | Some d =>
          if (any <? 0) || (cutoff <? acc) || ((acc =? cutoff) && (cutlim <? d))
          then strtoq_loop base cutoff cutlim t acc (-1)
          else strtoq_loop base cutoff cutlim t (u64 (u64 (acc * base) + d)) 1
      end
  end.

(** The sign. *)
Definition take_sign (s : str) : bool * str :=
  match s with
  | c :: t => if c =? 45 then (true, t) else if c =? 43 then (false, t) else (false, s)
  | [] => (false, [])
  end.

(** The prefix and the base it stands for. *)
Definition take_base (base : Z) (s : str) : Z * str :=
  let '(base, s) :=
    match s with
    | c :: x :: t =>
        if ((base =? 0) || (base =? 16)) && (c =? 48) && ((x =? 120) || (x =? 88)) then (16, t) else (base, s)
    | _ => (base, s)
    end in
  if base =? 0 then (match s with c :: _ => if c =? 48 then 8 else 10 | [] => 10 end, s) else (base, s).

(** The value and, unless there are no digits and [*endptr] is [nptr], the string
    [*endptr] points to. *)
Definition strtoq (nptr : str) (base : Z) : Z * option str :=
  let '(neg, s) := take_sign (skip_space nptr) in
  let '(base, s) := take_base base s in
  let lim := if neg then u64 (- (QUAD_MIN + QUAD_MAX)) + QUAD_MAX else QUAD_MAX in
  let '(acc, any, rest) := strtoq_loop base (lim / base) (lim mod base) s 0 0 in
  let acc := if any <? 0 then u64 (if neg then QUAD_MIN else QUAD_MAX)
             else if neg then u64 (- acc) else acc in
  (s64 acc, if any =? 0 then None else Some rest).

(** ** The environment *)

Section Env.

Context (getenv : str → option str).

Definition testenv (name : str) : Z := b2z (bool_decide (is_Some (getenv name))).

(** [iv *= 1024], as often as the suffix says. *)
Definition times1024 (iv : Z) : Z := s64 (iv * 1024).

Definition getenv_quad (name : str) : option Z :=
  match getenv name with
  | None => None
  | Some value =>
      match strtoq value 0 with
      | (_, None) => None
      | (iv, Some vtp) =>
          match vtp with
          | [] => Some iv
          | [c] =>
              if (c =? 116) || (c =? 84) then Some (times1024 (times1024 (times1024 (times1024 iv))))
              else if (c =? 103) || (c =? 71) then Some (times1024 (times1024 (times1024 iv)))
              else if (c =? 109) || (c =? 77) then Some (times1024 (times1024 iv))
              else if (c =? 107) || (c =? 75) then Some (times1024 iv)
              else None
          | _ => None
          end
      end
  end.

Definition getenv_int (name : str) : option Z := s32 <$> getenv_quad name.
Definition getenv_uint (name : str) : option Z := u32 <$> getenv_quad name.
Definition getenv_long (name : str) : option Z := s64 <$> getenv_quad name.
Definition getenv_ulong (name : str) : option Z := u64 <$> getenv_quad name.

(** [strlcpy(data, tmp, size)]: what is in [data] afterwards up to the NUL; nothing is
    stored when [size] is 0. *)
Definition getenv_string (name : str) (data : str) (size : Z) : option str :=
  match getenv name with
  | Some tmp => Some (if size =? 0 then data else take (Z.to_nat (size - 1)) tmp)
  | None => None
  end.

(** The initialisers of tunables leave the variable when there is no value. *)
Definition tunable_int_init (path : str) (var : Z) : Z := default var (getenv_int path).
Definition tunable_long_init (path : str) (var : Z) : Z := default var (getenv_long path).
Definition tunable_ulong_init (path : str) (var : Z) : Z := default var (getenv_ulong path).
Definition tunable_quad_init (path : str) (var : Z) : Z := default var (getenv_quad path).
Definition tunable_str_init (path : str) (var : str) (size : Z) : str :=
  default var (getenv_string path var size).

End Env.

End Kenv.

Import PrintfSpec Kenv.

Module KenvSpec.

Lemma digit_in_val base c : base <= 36 → 0 <= digit_val c < base → digit_in base c = Some (digit_val c).
Proof.
  intros Hb Hc. unfold digit_in, digit_val, isascii, isalpha, isupper, islower in *.
  destruct (is_digit c) eqn:Ed; unfold is_digit in Ed; bool_to_prop.
  - rewrite (proj2 (Z.leb_le c 127)) by lia. cbn. by rewrite (proj2 (Z.leb_gt _ _)) by lia.
  - destruct ((97 <=? c) && (c <=? 122)) eqn:El; bool_to_prop.
    + rewrite (proj2 (Z.leb_le c 127)), (proj2 (Z.leb_gt c 90)), andb_false_r by lia. cbn [negb orb].
      replace (c - (97 - 10)) with (c - 87) by lia. by rewrite (proj2 (Z.leb_gt _ _)) by lia.
    + destruct ((65 <=? c) && (c <=? 90)) eqn:Eu; bool_to_prop; [| lia].
      rewrite (proj2 (Z.leb_le c 127)) by lia. cbn [negb orb].
      replace (c - (65 - 10)) with (c - 55) by lia. by rewrite (proj2 (Z.leb_gt _ _)) by lia.
Qed.

(** Nothing of the number is left to read. *)
Definition stops (base : Z) (rest : str) : Prop :=
  match rest with [] => True | c :: _ => digit_in base c = None end.

Lemma foldl_mono base l : 1 <= base → ∀ n, 0 <= n → Forall (fun c => 0 <= digit_val c < base) l →
  n <= foldl (fun n c => n * base + digit_val c) n l.
Proof.
  intros Hb. induction l as [| c l IH]; intros n Hn Hl; [done |]. apply Forall_cons in Hl as [Hc Hl].
  cbn [foldl]. specialize (IH (n * base + digit_val c) ltac:(nia) Hl). nia.
Qed.

(** Digits whose value is within the limit are accumulated. *)
Lemma strtoq_loop_spec base lim rest : 2 <= base <= 36 → 0 <= lim < 2 ^ 64 → stops base rest →
  ∀ ds acc any, Forall (fun c => 0 <= digit_val c < base) ds → 0 <= acc → 0 <= any →
  foldl (fun n c => n * base + digit_val c) acc ds <= lim →
  strtoq_loop base (lim / base) (lim mod base) (ds ++ rest) acc any =
    (foldl (fun n c => n * base + digit_val c) acc ds, match ds with [] => any | _ => 1 end, rest).
Proof.
  intros Hb Hlim Hstop. induction ds as [| c ds IH]; intros acc any Hds Hacc Hany Hle; cbn [app foldl].
  { destruct rest as [| c t]; [done |]. cbn [strtoq_loop]. cbn in Hstop. by rewrite Hstop. }
  apply Forall_cons in Hds as [Hc Hds]. cbn [strtoq_loop foldl] in *. rewrite digit_in_val by lia.
  pose proof (foldl_mono base ds ltac:(lia) (acc * base + digit_val c) ltac:(nia) Hds) as Hm.
  pose proof (Z.div_mod lim base ltac:(lia)) as Hdm. pose proof (Z.mod_pos_bound lim base ltac:(lia)) as Hmb.
  assert ((any <? 0) || (lim / base <? acc) || ((acc =? lim / base) && (lim mod base <? digit_val c)) = false) as ->.
  { rewrite (proj2 (Z.ltb_ge any 0)) by lia. cbn [orb].
    rewrite (proj2 (Z.ltb_ge (lim / base) acc)) by nia. cbn [orb].
    destruct (Z.eqb_spec acc (lim / base)); [| done]. cbn [andb]. apply Z.ltb_ge. nia. }
  rewrite (wrap_u_id 64 (acc * base)), wrap_u_id by lia. rewrite IH by (done || lia). by destruct ds.
Qed.

(** The text of a number: sign, prefix, digits. *)
Definition radix_prefix (base : Z) : str := if base =? 16 then lit "0x" else if base =? 8 then lit "0" else [].

Definition number_text (base z : Z) (ds : str) : str :=
  minus z ++ (if z =? 0 then [] else radix_prefix base) ++ ds.

(** The bases a prefix or its absence stands for. *)
Definition known_base (base : Z) : Prop := base = 8 ∨ base = 10 ∨ base = 16.

Lemma digit_range base c : base <= 36 → 0 <= digit_val c < base → 48 <= c <= 57 ∨ 65 <= c <= 90 ∨ 97 <= c <= 122.
Proof. unfold digit_val, is_digit. intros Hb Hc. split_ifs_in Hc; lia. Qed.

(** A suffix and what it multiplies by. *)
Inductive suffix : Type := NoSuffix | Kilo | Mega | Giga | Tera.

Definition suffix_text (x : suffix) (upper : bool) : str :=
  match x with
  | NoSuffix => []
  | Kilo => if upper then lit "K" else lit "k"
  | Mega => if upper then lit "M" else lit "m"
  | Giga => if upper then lit "G" else lit "g"
  | Tera => if upper then lit "T" else lit "t"
  end.

Definition suffix_mult (x : suffix) : Z :=
  match x with NoSuffix => 1 | Kilo => 2 ^ 10 | Mega => 2 ^ 20 | Giga => 2 ^ 30 | Tera => 2 ^ 40 end.

Lemma suffix_stops x upper base : base <= 16 → 8 <= base → stops base (suffix_text x upper).
Proof.
  intros H1 H2. assert (Forall (fun b => stops b (suffix_text x upper)) (seqZ 8 9)) as H.
  { destruct x, upper; repeat constructor. }
  rewrite Forall_forall in H. apply H, elem_of_seqZ. lia.
Qed.

Lemma suffix_head x upper c t : suffix_text x upper = c :: t → (c =? 120) || (c =? 88) = false.
Proof. by destruct x, upper; intros [= <- <-]. Qed.

(** The sign of a number is taken off its text. *)
Lemma take_sign_number base z ds rest :
  known_base base → numeral base (Z.abs z) ds →
  take_sign (skip_space (number_text base z ds ++ rest)) =
    (z <? 0, (if z =? 0 then [] else radix_prefix base) ++ ds ++ rest).
Proof.
  intros Hb (_ & Hl & Hd & _). unfold number_text, minus. rewrite <- !app_assoc.
  destruct (Z.ltb_spec z 0); [done |]. cbn [app].
  destruct ((if z =? 0 then [] else radix_prefix base) ++ ds ++ rest) as [| c t] eqn:E.
  { destruct ds; [cbn in Hl; lia |]. by destruct (if z =? 0 then [] else radix_prefix base). }
  assert (48 <= c) as Hc.
  { destruct ds as [| d ds]; [cbn in Hl; lia |]. apply Forall_cons in Hd as [Hd _].
    assert (48 <= d) by (destruct (digit_range base d) as [? | [? | ?]]; try done; destruct Hb as [-> | [-> | ->]]; lia).
    destruct (z =? 0); [by cbn in E; simplify_eq |]. unfold radix_prefix in E.
    change (lit "0x") with [48; 120] in E. change (lit "0") with [48] in E.
    destruct (base =? 16), (base =? 8); cbn in E; simplify_eq; lia. }
  cbn [skip_space take_sign]. unfold isspace.
  rewrite (proj2 (Z.eqb_neq c 32)), (proj2 (Z.leb_gt c 13)), andb_false_r by lia. cbn [orb take_sign].
  by rewrite (proj2 (Z.eqb_neq c 45)), (proj2 (Z.eqb_neq c 43)) by lia.
Qed.

(** The prefix is taken off and gives the base, or octal for a lone zero. *)
Lemma take_base_number base z ds x upper :
  known_base base → numeral base (Z.abs z) ds →
  ∃ base' zs, take_base 0 ((if z =? 0 then [] else radix_prefix base) ++ ds ++ suffix_text x upper) =
      (base', (zs ++ ds) ++ suffix_text x upper) ∧ 8 <= base' <= 16 ∧
    Forall (fun c => 0 <= digit_val c < base') (zs ++ ds) ∧ value base' (zs ++ ds) = Z.abs z.
Proof.
  intros Hb (Hv & Hl & Hd & Hlead). destruct ds as [| d ds]; [cbn in Hl; lia |].
  destruct (Z.eqb_spec z 0) as [-> | Hz].
  { assert (d = 48 ∧ ds = []) as [-> ->].
    { apply Forall_cons in Hd as [Hd Hds]. destruct (decide (digit_val d = 0)) as [E | E].
      - destruct (Hlead d ds eq_refl E) as [_ ->]. split; [| done]. unfold digit_val, is_digit in E. split_ifs_in E; lia.
      - exfalso. unfold value in Hv. cbn [foldl] in Hv.
        pose proof (foldl_mono base ds ltac:(destruct Hb as [-> | [-> | ->]]; lia) (0 * base + digit_val d) ltac:(lia) Hds). lia. }
    exists 8, []. cbn [app]. split; [| by split; [lia |]; split; [by repeat constructor |]].
    unfold take_base. destruct (suffix_text x upper) as [| c t] eqn:E; [done |].
    rewrite (suffix_head _ _ _ _ E), andb_false_r. done. }
  destruct Hb as [-> | [-> | ->]]; cbn [radix_prefix].
  - exists 8, [48]. split; [| split; [lia |]; split; [constructor; [done |]; done | by rewrite <- Hv]].
    unfold take_base. cbn. apply Forall_cons in Hd as [Hd _].
    destruct (digit_val_dec d ltac:(lia)) as [_ Ed].
    by rewrite (proj2 (Z.eqb_neq d 120)), (proj2 (Z.eqb_neq d 88)) by lia.
  - exists 10, []. split; [| by split; [lia |]]. cbn [app]. unfold take_base. apply Forall_cons in Hd as [Hd _].
    destruct (digit_val_dec d Hd) as [_ Ed].
    assert (d ≠ 48) as Hd0.
    { intros ->. destruct (Hlead 48 ds eq_refl eq_refl). lia. }
    change (radix_prefix 10) with (@nil Z). cbn [app].
    assert ((d =? 48) = false) as E48 by (by apply Z.eqb_neq).
    destruct (ds ++ suffix_text x upper) as [| y t].
    + by rewrite E48.
    + rewrite E48, andb_false_r. cbn [andb].
      by rewrite E48.
  - exists 16, []. split; [| by split; [lia |]]. done.
Qed.

(** What was written is read back, up to a suffix. *)
Lemma strtoq_number base z ds x upper :
  known_base base → QUAD_MIN <= z <= QUAD_MAX → numeral base (Z.abs z) ds →
  strtoq (number_text base z ds ++ suffix_text x upper) 0 = (z, Some (suffix_text x upper)).
Proof.
  intros Hb Hz Hn. unfold strtoq. rewrite take_sign_number by done.
  destruct (take_base_number base z ds x upper Hb Hn) as (base' & zs & E & Hb' & Hd & Hv). rewrite E.
  set (lim := if z <? 0 then _ else _).
  assert (lim = if z <? 0 then 2 ^ 63 else 2 ^ 63 - 1) as Elim by (unfold lim; by destruct (z <? 0)).
  rewrite (strtoq_loop_spec base' lim); [| lia | | by apply suffix_stops; lia | done | lia | lia |].
  2: { rewrite Elim. destruct (z <? 0); lia. }
  2: { change (value base' (zs ++ ds) <= lim). rewrite Hv, Elim. unfold QUAD_MIN, QUAD_MAX in Hz.
       destruct (Z.ltb_spec z 0); lia. }
  change (foldl _ 0 (zs ++ ds)) with (value base' (zs ++ ds)). rewrite Hv.
  destruct (zs ++ ds) as [| c t] eqn:Ec.
  { destruct Hn as (_ & Hl & _). apply app_nil in Ec as [_ ->]. cbn in Hl. lia. }
  cbn beta iota. f_equal. change (1 <? 0) with false. cbv iota. unfold QUAD_MIN, QUAD_MAX in Hz.
  destruct (Z.ltb_spec z 0).
  - rewrite Z.abs_neq, Z.opp_involutive by lia. unfold wrap_s, wrap_u.
    rewrite Z.add_mod_idemp_l by lia. rewrite Z.mod_small; lia.
  - rewrite Z.abs_eq by lia. apply wrap_s_id; lia.
Qed.

(** ** Writing *)

Definition number_format (base : Z) : str :=
  if base =? 16 then lit "%#lx" else if base =? 8 then lit "%#lo" else lit "%ld".

(** The flags of the three formats. *)
Definition number_flags (base : Z) : flags :=
  if base =? 10 then set_sign true (set_l no_flags) else set_l (set_sharp true no_flags).

Lemma number_plain base z ds :
  known_base base → QUAD_MIN <= z <= QUAD_MAX → (base ≠ 10 → 0 <= z) →
  ksprintn (Z.abs z) base false = Ok ds →
  number (number_flags base) base false (u64 z) = Ok (number_text base z ds).
Proof.
  intros Hb Hz Hpos Hds. unfold QUAD_MIN, QUAD_MAX in Hz.
  assert (s64 (u64 z) = z) as Es.
  { unfold wrap_s, wrap_u. rewrite Z.add_mod_idemp_l by lia. rewrite Z.mod_small; lia. }
  assert (sign (number_flags base) = (base =? 10) ∧ sharpflag (number_flags base) = negb (base =? 10) ∧
    ladjust (number_flags base) = false ∧ padc (number_flags base) = 32 ∧ width (number_flags base) = 0 ∧
    dwidth (number_flags base) = 0) as (F1 & F2 & F3 & F4 & F5 & F6).
  { unfold number_flags. by destruct (base =? 10). }
  unfold number. rewrite F1, F2, F3, F4, F5, F6, Es. change (32 =? 48) with false. cbn [negb andb].
  assert ((if (base =? 10) && (z <? 0) then u64 (- z) else u64 z) = Z.abs z) as ->.
  { destruct (Z.eqb_spec base 10); destruct (Z.ltb_spec z 0); cbn [andb]; rewrite wrap_u_id; lia. }
  rewrite Hds. cbn [mbind result_bind]. f_equal.
  assert (0 <= b2z ((base =? 10) && (z <? 0))) by (by destruct (_ && _)).
  rewrite !pad_neg by lia.
  rewrite app_nil_r. cbn [app]. unfold number_text, minus, radix_prefix. f_equal; [| f_equal].
  - destruct (Z.eqb_spec base 10); [done |]. by rewrite (proj2 (Z.ltb_ge z 0)) by auto.
  - destruct Hb as [-> | [-> | ->]]; cbn; destruct (Z.eqb_spec z 0) as [-> |]; try done;
      by rewrite (proj2 (Z.eqb_neq (Z.abs z) 0)) by lia.
Qed.

Lemma number_text_bytes base z ds :
  known_base base → Forall (fun c => 0 <= digit_val c < base) ds →
  u8 <$> number_text base z ds = number_text base z ds.
Proof.
  intros Hb Hds. rewrite <- (list_fmap_id (number_text base z ds)) at 2. apply Forall_fmap_ext.
  unfold number_text, minus, radix_prefix. rewrite !Forall_app. split_and!.
  - destruct (z <? 0); repeat constructor.
  - destruct (z =? 0), (base =? 16), (base =? 8); repeat constructor.
  - eapply Forall_impl; [exact Hds |]. intros c Hc. cbn beta in Hc.
    change (u8 c = c). apply wrap_u_id. assert (base <= 36) as Hb' by (destruct Hb as [-> | [-> | ->]]; lia).
    destruct (digit_range base c Hb' Hc) as [? | [? | ?]]; lia.
Qed.

Lemma kvprintf_number base z ds :
  known_base base → QUAD_MIN <= z <= QUAD_MAX → (base ≠ 10 → 0 <= z) →
  ksprintn (Z.abs z) base false = Ok ds → numeral base (Z.abs z) ds →
  kvprintf (Some (number_format base)) 10 [ALong z] = Ok (number_text base z ds, []).
Proof.
  intros Hb Hz Hpos Hds (_ & _ & Hd & _). pose proof (number_plain base z ds Hb Hz Hpos Hds) as Hn.
  set (S := mk_kst Text [] [ALong z] []).
  assert (run 10 (number_format base) S =
    (t ← (l ← number (number_flags base) base false (u64 z); Ok (emit l Text [] S)); Ok t)) as E.
  { destruct Hb as [-> | [-> | ->]]; reflexivity. }
  unfold kvprintf. change ((10 <? 2) || (36 <? 10)) with false. cbn [default from_option id]. cbv iota. fold S.
  rewrite E, Hn. cbn [mbind result_bind emit k_mode k_out k_vars S app]. by rewrite number_text_bytes.
Qed.

(** Multiplying by 1024 does not wrap on the way to a result that fits. *)
Lemma times1024_id iv : QUAD_MIN <= iv * 1024 <= QUAD_MAX → times1024 iv = iv * 1024.
Proof. intros H. apply wrap_s_id; unfold QUAD_MIN, QUAD_MAX in H; lia. Qed.

Lemma getenv_quad_suffix getenv name value z x upper :
  getenv name = Some value → strtoq value 0 = (z, Some (suffix_text x upper)) →
  QUAD_MIN <= z * suffix_mult x <= QUAD_MAX → getenv_quad getenv name = Some (z * suffix_mult x).
Proof.
  intros Hg Hs Hz. unfold getenv_quad. rewrite Hg, Hs. unfold QUAD_MIN, QUAD_MAX in Hz.
  destruct x, upper; cbn -[times1024 Z.mul] in Hz |- *; f_equal;
    repeat match goal with
    | |- context [times1024 ?t] =>
        lazymatch t with context [times1024 _] => fail | _ => rewrite (times1024_id t) by (unfold QUAD_MIN, QUAD_MAX; lia) end
    end; lia.
Qed.

(** [C37] A number and its text: for every 64-bit number, the text that the kernel's
    formatted output gives for it in decimal, or for a non-negative one in octal or
    hexadecimal with its prefix, followed by one of the suffixes k, m, g and t in
    either case, is read by [getenv_quad] as the number times the power of 1024 the
    suffix stands for, when that is a 64-bit number; [getenv_int] gives it cut to 32
    bits. *)
Theorem getenv_quad_roundtrip (base z : Z) (x : suffix) (upper : bool) :
  known_base base → QUAD_MIN <= z <= QUAD_MAX → (base ≠ 10 → 0 <= z) →
  QUAD_MIN <= z * suffix_mult x <= QUAD_MAX →
  ∃ o, kvprintf (Some (number_format base)) 10 [ALong z] = Ok (o, []) ∧
    ∀ getenv name, getenv name = Some (o ++ suffix_text x upper) →
      getenv_quad getenv name = Some (z * suffix_mult x) ∧
      getenv_int getenv name = Some (s32 (z * suffix_mult x)).
Proof.
  intros Hb Hz Hpos Hm. destruct (ksprintn_spec (Z.abs z) base false) as (ds & Eds & Hds).
  { destruct Hb as [-> | [-> | ->]]; lia. }
  { unfold QUAD_MIN, QUAD_MAX in Hz. lia. }
  exists (number_text base z ds). split; [by apply kvprintf_number |]. intros getenv name Hg.
  assert (getenv_quad getenv name = Some (z * suffix_mult x)) as E.
  { apply (getenv_quad_suffix _ _ _ _ _ upper Hg); [by apply strtoq_number | done]. }
  split; [done |]. unfold getenv_int. by rewrite E.
Qed.

Lemma getenv_quad_roundtrip_witness :
  ∃ o, kvprintf (Some (number_format 16)) 10 [ALong 255] = Ok (o, []) ∧
    getenv_quad (fun _ => Some (o ++ lit "M")) (lit "kern.maxbcache") = Some 267386880.
Proof.
  destruct (getenv_quad_roundtrip 16 255 Mega true) as (o & E & H).
  - right; right; reflexivity.
  - unfold QUAD_MIN, QUAD_MAX; lia.
  - lia.
  - unfold QUAD_MIN, QUAD_MAX; cbn; lia.
  - exists o. split; [exact E |]. exact (proj1 (H (fun _ => Some (o ++ lit "M")) (lit "kern.maxbcache") eq_refl)).
Defined.

(** A number out of range is cut to the largest or the smallest one. *)
Lemma getenv_quad_saturates :
  getenv_quad (fun _ => Some (lit "99999999999999999999")) [] = Some QUAD_MAX ∧
  getenv_quad (fun _ => Some (lit "-99999999999999999999")) [] = Some QUAD_MIN.
Proof. split; reflexivity. Qed.

End KenvSpec.
