(* ===== verification/LatProf.v ===== *)
(** The latency profiler (src/src/lib/liblatprof/latprof.c): a ring of the last
    timestamps and a report of them in order. *)
From S2P Require Import Prelude.

Module LatProf.

Definition YTS_NSEC_PER_SEC : Z := 1000 * 1000 * 1000.
Definition MAX_LP_ENTRY : Z := 1000.

Record t_latprof : Type := mk_lp { func_name : list Z; lp_ts : Z; lp_la : Z }.

(** [data], [count], [prev], [wrap] and [stop]. *)
Record latprof : Type := mk_latprof {
  lp_data : list t_latprof; lp_count : Z; lp_prev : Z; lp_wrap : Z; lp_stop : Z
}.

Definition latprof_init : latprof :=
  mk_latprof (replicate (Z.to_nat MAX_LP_ENTRY) (mk_lp [] 0 0)) 0 0 0 0.

(** The host's clock says [sec] and [nsec]; [snprintf] keeps 63 characters. *)
Definition store_timestamp (func : list Z) (sec nsec : Z) (s : latprof) : result latprof :=
  if lp_stop s =? 1 then Ok s
  else if Z.of_nat (length (lp_data s)) <=? lp_count s then Fault OutOfBounds
  else
    let ts := u64 (u64 (sec * YTS_NSEC_PER_SEC) + nsec) in
    let e := mk_lp (take 63 func) ts (u64 (ts - lp_prev s)) in
    let data := <[Z.to_nat (lp_count s) := e]> (lp_data s) in
    let count := u32 (lp_count s + 1) in
    if MAX_LP_ENTRY <=? count then Ok (mk_latprof data (count mod MAX_LP_ENTRY) ts 1 (lp_stop s))
    else Ok (mk_latprof data count ts (lp_wrap s) (lp_stop s)).

(** The entries it prints, in order. *)
Definition print_latprof (s : latprof) : list t_latprof * latprof :=
  let first := if negb (lp_wrap s =? 0) then drop (Z.to_nat (lp_count s)) (lp_data s) else [] in
  (first ++ take (Z.to_nat (lp_count s)) (lp_data s),
   mk_latprof (lp_data s) (lp_count s) (lp_prev s) (lp_wrap s) 1).

(** ** What it keeps *)

(** A sequence of calls: function, seconds, nanoseconds. *)
Abbreviation call := (list Z * Z * Z)%type.

Fixpoint store_all (l : list call) (s : latprof) : result latprof :=
  match l with
  | [] => Ok s
  | (f, sec, nsec) :: t => s' ← store_timestamp f sec nsec s; store_all t s'
  end.

Definition stamp (c : call) : Z := u64 (u64 (c.1.2 * YTS_NSEC_PER_SEC) + c.2).

(** The full history: every call with its time and the time since the one before. *)
Fixpoint history (prev : Z) (l : list call) : list t_latprof :=
  match l with
  | [] => []
  | c :: t => mk_lp (take 63 c.1.1) (stamp c) (u64 (stamp c - prev)) :: history (stamp c) t
  end.

Lemma length_history l : ∀ prev, length (history prev l) = length l.
Proof. induction l as [| c l IH]; intros prev; [done |]. cbn. by rewrite IH. Qed.

(** The ring holds the last entries of the history [H], the newest before [lp_count]. *)
Definition ring_of (H : list t_latprof) (s : latprof) : Prop :=
  let n := Z.of_nat (length H) in
  length (lp_data s) = 1000%nat ∧ lp_stop s = 0 ∧ lp_count s = n mod MAX_LP_ENTRY ∧
  lp_wrap s = b2z (MAX_LP_ENTRY <=? n) ∧
  ∀ k, n - MAX_LP_ENTRY <= Z.of_nat k < n → lp_data s !! Z.to_nat (Z.of_nat k mod MAX_LP_ENTRY) = H !! k.

Lemma ring_of_init : ring_of [] latprof_init.
Proof. split_and!; try done. cbn. lia. Qed.

Lemma mod_step n : 0 <= n →
  let c := n mod MAX_LP_ENTRY in
  (n + 1) mod MAX_LP_ENTRY = (if MAX_LP_ENTRY <=? c + 1 then (c + 1) mod MAX_LP_ENTRY else c + 1).
Proof.
  intros Hn c. pose proof (Z.mod_pos_bound n MAX_LP_ENTRY) as Hc. fold c in Hc. unfold MAX_LP_ENTRY in *.
  rewrite <- (Z.add_mod_idemp_l n 1) by lia. fold c. destruct (Z.leb_spec 1000 (c + 1)); [done |]. apply Z.mod_small. lia.
Qed.

(** Two places of the history less than a turn apart are in different slots. *)
Lemma slots_differ k n : 0 <= k → k < n → n - k < MAX_LP_ENTRY →
  Z.to_nat (k mod MAX_LP_ENTRY) ≠ Z.to_nat (n mod MAX_LP_ENTRY).
Proof.
  intros Hk Hlt Hd E. unfold MAX_LP_ENTRY in *. pose proof (Z.mod_pos_bound k 1000). pose proof (Z.mod_pos_bound n 1000).
  assert (k mod 1000 = n mod 1000) as E' by lia.
  pose proof (Z.div_mod k 1000). pose proof (Z.div_mod n 1000). nia.
Qed.

Lemma store_ring H s f sec nsec :
  ring_of H s → ∃ s', store_timestamp f sec nsec s = Ok s' ∧ lp_prev s' = stamp (f, sec, nsec) ∧
    ring_of (H ++ [mk_lp (take 63 f) (stamp (f, sec, nsec)) (u64 (stamp (f, sec, nsec) - lp_prev s))]) s'.
Proof.
  intros (Hl & Hs & Hc & Hw & Hd). unfold store_timestamp. rewrite Hs. change (0 =? 1) with false. cbv iota.
  set (n := Z.of_nat (length H)) in *. assert (0 <= n) as Hn by lia.
  pose proof (Z.mod_pos_bound n MAX_LP_ENTRY ltac:(done)) as Hb. rewrite <- Hc in Hb.
  rewrite (proj2 (Z.leb_gt _ _)) by (rewrite Hl; unfold MAX_LP_ENTRY in *; lia).
  rewrite (wrap_u_id 32 (lp_count s + 1)) by (unfold MAX_LP_ENTRY in *; lia). cbv zeta.
  change (u64 (u64 (sec * YTS_NSEC_PER_SEC) + nsec)) with (stamp (f, sec, nsec)).
  set (e := mk_lp _ _ _). pose proof (mod_step n Hn) as Hms. cbv zeta in Hms. rewrite <- Hc in Hms.
  assert (∀ c w, c = (n + 1) mod MAX_LP_ENTRY → w = b2z (MAX_LP_ENTRY <=? n + 1) →
    ring_of (H ++ [e]) (mk_latprof (<[Z.to_nat (lp_count s) := e]> (lp_data s)) c (stamp (f, sec, nsec)) w 0)) as Hring.
  { intros c w -> ->. unfold ring_of. rewrite length_app. cbn [length lp_data lp_stop lp_count lp_wrap].
    replace (Z.of_nat (length H + 1)) with (n + 1) by lia. split_and!; [by rewrite length_insert | done.. |].
    intros k Hk. rewrite Hc. destruct (decide (Z.of_nat k = n)) as [E | Hne].
    - rewrite E, list_lookup_insert_eq by (rewrite Hl; unfold MAX_LP_ENTRY in *; lia).
      rewrite lookup_app_r by lia. by replace (k - length H)%nat with 0%nat by lia.
    - rewrite list_lookup_insert_ne by (intros E; symmetry in E; revert E; apply slots_differ; lia).
      rewrite Hd by lia. by rewrite lookup_app_l by lia. }
  destruct (Z.leb_spec MAX_LP_ENTRY (lp_count s + 1)) as [Hfull | Hroom]; (eexists; split; [reflexivity |]); (split; [done |]);
    rewrite ?Hs; apply Hring; rewrite ?Hms; try done.
  - rewrite (proj2 (Z.leb_le _ _)); [done |]. unfold MAX_LP_ENTRY in *.
    pose proof (Z.mod_le n 1000). lia.
  - rewrite Hw. f_equal. destruct (Z.leb_spec MAX_LP_ENTRY n), (Z.leb_spec MAX_LP_ENTRY (n + 1)); try lia; try done.
    assert (n mod MAX_LP_ENTRY = n) by (apply Z.mod_small; lia). lia.
Qed.

Lemma store_all_ring l : ∀ H s, ring_of H s →
  ∃ s', store_all l s = Ok s' ∧ ring_of (H ++ history (lp_prev s) l) s'.
Proof.
  induction l as [| [[f sec] nsec] l IH]; intros H s HR; cbn [store_all history].
  { exists s. by rewrite app_nil_r. }
  destruct (store_ring H s f sec nsec HR) as (s1 & E1 & Hp & HR1).
  destruct (IH _ s1 HR1) as (s2 & E2 & HR2). exists s2. rewrite E1. split; [exact E2 |].
  rewrite Hp, <- app_assoc in HR2. exact HR2.
Qed.

Lemma print_ring H s : ring_of H s → (print_latprof s).1 = drop (length H - 1000) H.
Proof.
  intros (Hl & Hs & Hc & Hw & Hd). set (n := Z.of_nat (length H)) in *.
  pose proof (Z.mod_pos_bound n MAX_LP_ENTRY ltac:(done)) as Hb. rewrite <- Hc in Hb.
  unfold print_latprof. rewrite Hw. destruct (Z.leb_spec MAX_LP_ENTRY n) as [Hfull | Hroom]; cbn [b2z negb fst];
    unfold MAX_LP_ENTRY in *; cbn [Z.eqb negb].
  - apply (list_eq_same_length _ _ 1000); [by rewrite length_drop; lia | rewrite length_app, length_take, length_drop; lia |].
    intros i x y Hi Hx Hy. rewrite lookup_drop in Hy. rewrite <- Hd in Hy by lia.
    assert (Z.to_nat (Z.of_nat (length H - 1000 + i) mod 1000) = Z.to_nat ((lp_count s + Z.of_nat i) mod 1000)) as E.
    { f_equal. rewrite Hc, Z.add_mod_idemp_l by lia. replace (Z.of_nat (length H - 1000 + i)) with (n + Z.of_nat i + (-1) * 1000) by lia.
      by rewrite Z.mod_add by lia. }
    rewrite E in Hy. destruct (decide (lp_count s + Z.of_nat i < 1000)) as [Hlt | Hge].
    + rewrite Z.mod_small in Hy by lia. rewrite lookup_app_l, lookup_drop in Hx by (rewrite length_drop; lia).
      replace (Z.to_nat (lp_count s) + i)%nat with (Z.to_nat (lp_count s + Z.of_nat i)) in Hx by lia. congruence.
    + replace (lp_count s + Z.of_nat i) with (lp_count s + Z.of_nat i - 1000 + 1 * 1000) in Hy by lia.
      rewrite Z.mod_add, Z.mod_small in Hy by lia.
      rewrite lookup_app_r, length_drop, lookup_take_lt in Hx by (rewrite ?length_drop; lia).
      replace (i - (length (lp_data s) - Z.to_nat (lp_count s)))%nat with (Z.to_nat (lp_count s + Z.of_nat i - 1000)) in Hx by lia.
      congruence.
  - replace (length H - 1000)%nat with 0%nat by lia. rewrite drop_0. cbn [app].
    assert (lp_count s = n) as En by (rewrite Hc; apply Z.mod_small; lia).
    apply (list_eq_same_length _ _ (length H)); [done | rewrite length_take; lia |].
    intros i x y Hi Hx Hy. rewrite lookup_take_lt in Hx by lia. rewrite <- Hd, Z.mod_small, Nat2Z.id in Hy by lia. congruence.
Qed.

(** However many times [store_timestamp] was called, [print_latprof] prints the
    last thousand calls, or all when there were fewer, oldest first, each with its
    time in nanoseconds and the time since the call before it. *)
Theorem print_latprof_last (l : list call) :
  ∃ s, store_all l latprof_init = Ok s ∧ (print_latprof s).1 = drop (length l - 1000) (history 0 l).
Proof.
  destruct (store_all_ring l [] latprof_init ring_of_init) as (s & E & HR). exists s. split; [done |].
  cbn [app lp_prev latprof_init] in HR. by rewrite (print_ring _ _ HR), length_history.
Qed.

End LatProf.
