(* ===== verification/DpdkAttach.v ===== *)
(** Attaching and detaching a DPDK interface ([if_dpdk_attach],
    [if_dpdk_setup_interface] and [if_dpdk_detach] of
    src/src/lib/libuinet/uinet_if_dpdk.c, [if_dpdk_create_handle] and
    [if_dpdk_destroy_handle] of uinet_if_dpdk_host.c): which resources are acquired,
    and which are given back on the way out and at the end. *)
From S2P Require Import Prelude Printf Dpdk KThread KThreadSpec.
Import Printf Dpdk.

Module DpdkAttach.

Definition ENOMEM : Z := 12.

(** What is acquired: memory of the softc and of what it points to, the [ifnet] and its
    registration with the stack, and for each direction a mutex with its condition
    variable and a thread. *)
Inductive res : Type :=
| Softc | RxName | TxName | RxPds | TxPds | HostCtx | InjectRing | PdctxToFree
| Ifnet | EtherAttached | TxLock | TxThread | RxLock | RxThread.

#[export] Instance res_eq_dec : EqDecision res.
Proof. solve_decision. Defined.

(** The resources held, newest first, and [interface_count]. *)
Record att : Type := mk_att { held : list res; interface_count : Z }.

Abbreviation A := (M att).

Definition acquire (r : res) : A unit := modify (fun a => mk_att (r :: held a) (interface_count a)).

(** Giving back what is not held is a double free. *)
Definition release (r : res) : A unit := fun a =>
  if bool_decide (r ∈ held a) then Ok (tt, mk_att (filter (fun x => x ≠ r) (held a)) (interface_count a))
  else Fault BadPointer.

(** What the surroundings decide: whether there is, sooner or later, memory for a resource
    (for an [ifnet]: an index), what the host does when a thread is created, whether
    [dh_init_dpdk] succeeds, and whether the instance is in STS mode. *)
Record surroundings : Type := mk_sur {
  ok : res → bool; create : res → KThread.created; dh_init_ok : bool; uifsts : bool
}.

Section Attach.

Context (e : surroundings).

Definition try_acquire (r : res) : A bool := if ok e r then _ ← acquire r; mret true else mret false.

(** [malloc] with [M_WAITOK] returns when there is memory. *)
Definition malloc_waitok (r : res) : A bool := if ok e r then _ ← acquire r; mret true else faultM Blocked.

(** [kthread_add]: it waits for memory for the thread's structure and its arguments, and
    then, also when the host has refused the thread, for the notice of its start. *)
Definition start_thread (r : res) : A Z :=
  if negb (ok e r) then faultM Blocked
  else match create e r with
       | KThread.Created _ => _ ← acquire r; mret 0
       | KThread.NotCreated _ => faultM Blocked
       end.

(** On failure the variable [ctx] that is tested and freed was never set. *)
Definition if_dpdk_create_handle : A bool :=
  if negb (dh_init_ok e) then faultM BadPointer else try_acquire HostCtx.

Definition if_dpdk_destroy_handle : A unit := release HostCtx.

(** The result is the C value: 0, or 1 for failure. *)
Definition if_dpdk_setup_interface (tx_use_thread : bool) : A Z :=
  got ← try_acquire Ifnet;
  if negb got then faultM NullDeref
  else
    _ ← acquire EtherAttached;
    error ← (if tx_use_thread then _ ← acquire TxLock; start_thread TxThread else mret 0);
    if negb (error =? 0) then _ ← release EtherAttached; _ ← release Ifnet; mret 1
    else
      error ← (if negb (uifsts e) then _ ← acquire RxLock; start_thread RxThread else mret 0);
      if negb (error =? 0) then _ ← release EtherAttached; _ ← release Ifnet; mret 1 else mret 0.

(** The copies of the names [if_dpdk_process_configstr] leaves in the softc. *)
Definition acquire_names (c : config) : A unit :=
  _ ← (if bool_decide (is_Some (rx_ifname c)) then acquire RxName else mret ());
  (if bool_decide (is_Some (tx_ifname c)) then acquire TxName else mret ()).

Definition release_names (c : config) : A unit :=
  _ ← (if bool_decide (is_Some (rx_ifname c)) then release RxName else mret ());
  (if bool_decide (is_Some (tx_ifname c)) then release TxName else mret ()).

Definition release_if (got : bool) (r : res) : A unit := if got then release r else mret ().

(** The label [fail] with a softc; the flags say which pointers are set. *)
Definition fail_softc (c : config) (host rxp txp ring pdctx : bool) : A unit :=
  _ ← release_names c;
  _ ← release_if host HostCtx;
  _ ← release_if rxp RxPds;
  _ ← release_if txp TxPds;
  _ ← release_if ring InjectRing;
  _ ← release_if pdctx PdctxToFree;
  release Softc.

(** [snprintf(uif->name, sizeof(uif->name), "dpdk%u", interface_count)]. *)
Definition dpdk_name (count : Z) : result str :=
  '(_, bytes) ← snprintf IF_NAMESIZE (Some (lit "dpdk%u")) [AInt count]; Ok (removelast bytes).

Definition uses_tx_thread (use_file_io_thread : bool) : bool := negb (uifsts e) || use_file_io_thread.

(** The result is the error, the name given to the interface, and the configuration
    parsed. *)
Definition if_dpdk_attach (configstr : option cstr) (use_file_io_thread : bool)
    : A (Z * str * config) :=
  match configstr with
  | None => mret (EINVAL, [], zero_config)
  | Some cs =>
      count ← gets interface_count;
      name ← liftR (dpdk_name count);
      _ ← modify (fun a => mk_att (held a) (u32 (count + 1)));
      sc ← malloc_waitok Softc;
      if negb sc then mret (ENOMEM, name, zero_config)
      else
        '(error, c) ← liftR (if_dpdk_process_configstr cs);
        _ ← acquire_names c;
        if negb (error =? 0) then
          _ ← fail_softc c false false false false false; mret (error, name, c)
        else
          rxp ← malloc_waitok RxPds;
          if negb rxp then _ ← fail_softc c false false false false false; mret (ENOMEM, name, c)
          else
            txp ← malloc_waitok TxPds;
            if negb txp then _ ← fail_softc c false true false false false; mret (ENOMEM, name, c)
            else
              host ← if_dpdk_create_handle;
              if negb host then _ ← fail_softc c false true true false false; mret (ENXIO, name, c)
              else
                ring ← malloc_waitok InjectRing;
                if negb ring then _ ← fail_softc c true true true false false; mret (ENOMEM, name, c)
                else
                  pdctx ← malloc_waitok PdctxToFree;
                  if negb pdctx then _ ← fail_softc c true true true true false; mret (ENOMEM, name, c)
                  else
                    rv ← if_dpdk_setup_interface (uses_tx_thread use_file_io_thread);
                    if negb (rv =? 0) then
                      _ ← fail_softc c true true true true true; mret (ENXIO, name, c)
                    else mret (0, name, c)
  end.

(** The threads acknowledge before the locks are destroyed. *)
Definition if_dpdk_detach (c : config) (tx_use_thread : bool) : A Z :=
  _ ← (if negb (uifsts e) then _ ← release RxThread; release RxLock else mret ());
  _ ← (if tx_use_thread then _ ← release TxThread; release TxLock else mret ());
  _ ← release_names c;
  _ ← if_dpdk_destroy_handle;
  _ ← release RxPds;
  _ ← release TxPds;
  _ ← release InjectRing;
  _ ← release PdctxToFree;
  _ ← release Softc;
  mret 0.

End Attach.

(** ** What is held *)

(** Everything of a running interface. *)
Definition running (sts thr : bool) (c : config) : list res :=
  (if sts then [] else [RxThread; RxLock]) ++ (if thr then [TxThread; TxLock] else []) ++
  [EtherAttached; Ifnet; PdctxToFree; InjectRing; HostCtx; TxPds; RxPds] ++
  (if bool_decide (is_Some (tx_ifname c)) then [TxName] else []) ++
  (if bool_decide (is_Some (rx_ifname c)) then [RxName] else []) ++ [Softc].

(** A thread that starts, or any other resource that can be had. *)
Definition to_be_had (e : surroundings) (r : res) : bool :=
  ok e r && match r with
            | TxThread | RxThread => match create e r with KThread.Created _ => true | _ => false end
            | _ => true
            end.

(** The resources in the order they are asked for once the configuration is accepted, and
    the first that cannot be had. *)
Definition asked_for (e : surroundings) (thr : bool) : list res :=
  [RxPds; TxPds; HostCtx; InjectRing; PdctxToFree; Ifnet] ++
  (if thr then [TxThread] else []) ++ (if uifsts e then [] else [RxThread]).

Definition first_missing (e : surroundings) (thr : bool) : option res :=
  List.find (fun r => negb (to_be_had e r)) (asked_for e thr).

(** What attaching an interface comes to: [err] is the verdict on the configuration, [c] what
    was read from it, [name] the name that is given, [attached] what [if_dpdk_attach] does. *)
Definition attach_outcome (e : surroundings) (thr : bool) (err : Z) (c : config) (count : Z) (name : str)
    (attached : result ((Z * str * config) * att)) : Prop :=
  let returns error h := attached = Ok ((error, name, c), mk_att h (u32 (count + 1))) in
  if negb (ok e Softc) then attached = Fault Blocked
  else if negb (err =? 0) then returns err []
  else match first_missing e thr with
       | None => returns 0 (running (uifsts e) thr c)
       | Some HostCtx => returns ENXIO []
       | Some Ifnet => attached = Fault NullDeref
       | Some _ => attached = Fault Blocked
       end.

(** [start_thread] is [kthread_add] as far as its return goes. *)
Lemma start_thread_kthread_add e r n proc0 env a w :
  ok e r = true → KThread.k_utds w !! n = None → (∀ t, create e r = KThread.Created t → KThread.k_native w !! t = None) →
  KThread.uinet_thread0 w ≠ Some (KThread.Heap n) →
  match KThread.kthread_add (Some n) (create e r) None proc0 env w with
  | Ok ((error, _), _) => start_thread e r a = Ok (error, mk_att (r :: held a) (interface_count a))
  | Fault f => start_thread e r a = Fault f
  end.
Proof.
  intros Hok Hn Hnat H0. unfold start_thread. rewrite Hok. cbn [negb]. destruct (create e r) as [t | er]; [| done].
  destruct (KThreadSpec.kthread_add_starts n t None proc0 env w 0 Hn (Hnat t eq_refl) H0) as ((w' & E & _) & _).
  by rewrite E.
Qed.

#[local] Ltac leaf := vm_compute; reflexivity.

Lemma attach_resources (e : surroundings) (cs : cstr) (err : Z) (c : config) (thr_cfg : bool) (count : Z) (name : str) :
  if_dpdk_process_configstr cs = Ok (err, c) → dpdk_name count = Ok name → dh_init_ok e = true →
  attach_outcome e (uses_tx_thread e thr_cfg) err c count name (if_dpdk_attach e (Some cs) thr_cfg (mk_att [] count)).
Proof.
  intros Hc Hname Hdh. unfold attach_outcome, if_dpdk_attach.
  erewrite M_bind_Ok by reflexivity. cbn beta. cbn [interface_count].
  erewrite M_bind_Ok by (unfold liftR; rewrite Hname; reflexivity). cbn beta.
  erewrite M_bind_Ok by reflexivity. cbn beta.
  set (a1 := mk_att _ _).
  assert (∀ x : att, liftR (if_dpdk_process_configstr cs) x = Ok ((err, c), x)) as Hl by (intros x; unfold liftR; by rewrite Hc).
  unfold first_missing, asked_for, to_be_had, uses_tx_thread.
  unfold malloc_waitok. destruct (ok e Softc); cbn [andb negb]; [| done].
  erewrite M_bind_Ok by reflexivity. cbn [negb]. erewrite M_bind_Ok by apply Hl. cbn beta iota.
  unfold acquire_names, fail_softc, release_names, running, if_dpdk_create_handle,
    if_dpdk_setup_interface, start_thread, try_acquire. rewrite Hdh.
  subst a1. clear Hl Hc Hname Hdh. generalize (u32 (count + 1)) as cnt. intros cnt.
  destruct (Z.eqb_spec err 0) as [-> | Hne]; cbn [negb]; cbv iota; [| by destruct (rx_ifname c), (tx_ifname c)].
  cbn [app List.find].
  destruct (rx_ifname c), (tx_ifname c); (destruct (ok e RxPds); [| leaf]);
    (destruct (ok e TxPds); [| leaf]); (destruct (ok e HostCtx); [| leaf]); (destruct (ok e InjectRing); [| leaf]);
    (destruct (ok e PdctxToFree); [| leaf]); (destruct (ok e Ifnet); [| leaf]);
    (destruct (uifsts e), thr_cfg; cbn [orb negb app List.find];
     repeat (match goal with |- context [ok e ?r] => destruct (ok e r); [destruct (create e r) |]; [| leaf..] end);
     leaf).
Qed.


Lemma detach_leaves (e : surroundings) (thr : bool) (c : config) (count : Z) :
  if_dpdk_detach e c thr (mk_att (running (uifsts e) thr c) count) = Ok (0, mk_att [EtherAttached; Ifnet] count).
Proof.
  unfold if_dpdk_detach, release_names, running.
  by destruct (uifsts e), thr, (rx_ifname c), (tx_ifname c).
Qed.

(** Detaching a running interface gives everything back except the interface of the
    stack: the [ifnet] stays registered, and its softc is freed memory. *)
Theorem if_dpdk_detach_leaves (e : surroundings) (thr : bool) (c : config) (count : Z) :
  if_dpdk_detach e c thr (mk_att (running (uifsts e) thr c) count) = Ok (0, mk_att [EtherAttached; Ifnet] count).
Proof. apply detach_leaves. Qed.

(** The port that does not initialise. *)
Lemma create_handle_uninitialised e a : dh_init_ok e = false → if_dpdk_create_handle e a = Fault BadPointer.
Proof. intros H. unfold if_dpdk_create_handle. by rewrite H. Qed.

(** ** What a successful attachment means *)

(** [m] moves the interface counter as [R] allows, and its results satisfy [P]. *)
Definition post (R : relation Z) {X} (m : A X) (P : X → Prop) : Prop :=
  ∀ a x a', m a = Ok (x, a') → R (interface_count a) (interface_count a') ∧ P x.

Section Post.

Context (R : relation Z) `{!PreOrder R}.

Lemma post_bind {X Y} (m : A X) (k : X → A Y) P Q :
  post R m P → (∀ x, P x → post R (k x) Q) → post R (m ≫= k) Q.
Proof.
  intros Hm Hk a y a' E. unfold mbind, M_bind in E. destruct (m a) as [[x a1] |] eqn:Em; [| done].
  destruct (Hm _ _ _ Em) as [H1 Hx]. destruct (Hk x Hx _ _ _ E) as [H2 Hy]. split; [by etransitivity | done].
Qed.

Lemma post_mret {X} (x : X) (P : X → Prop) : P x → post R (mret x) P.
Proof. intros Hx a y a' E. unfold mret, M_ret in E. simplify_eq. by split. Qed.

Lemma post_acquire r : post R (acquire r) (fun _ => True).
Proof. intros a x a' E. unfold acquire, modify in E. simplify_eq. by split. Qed.

Lemma post_release r : post R (release r) (fun _ => True).
Proof. intros a x a' E. unfold release in E. case_bool_decide; simplify_eq. by split. Qed.

Lemma post_fault {X} f (P : X → Prop) : post R (faultM f) P.
Proof. by intros a x a' E. Qed.

Lemma post_liftR {X} (r : result X) : post R (liftR r) (fun x => r = Ok x).
Proof. intros a x a' E. unfold liftR in E. destruct r; simplify_eq. by split. Qed.

Lemma post_true {X} (m : A X) P : post R m P → post R m (fun _ => True).
Proof. intros H a x a' E. by destruct (H _ _ _ E). Qed.

End Post.

#[local] Ltac post_step :=
  first [ apply post_acquire; apply _ | apply post_release; apply _ | apply post_fault
        | apply post_mret; [apply _ | done] | eapply post_true, post_liftR; apply _
        | match goal with |- post _ (if ?b then _ else _) _ => destruct b end
        | match goal with |- post _ (match ?k with KThread.Created _ => _ | _ => _ end) _ => destruct k end
        | match goal with |- post _ (_ ≫= _) _ => apply (post_bind _ _ _ (fun _ => True)); [| intros ? _] end
        | match goal with |- post _ (match ?p with (_, _) => _ end) _ => destruct p end ].

(** The name is the one of the counter, which moves on by one. *)
Lemma post_attach e cs thr a err name c a' :
  if_dpdk_attach e (Some cs) thr a = Ok ((err, name, c), a') →
  dpdk_name (interface_count a) = Ok name ∧ interface_count a' = u32 (interface_count a + 1).
Proof.
  unfold if_dpdk_attach. erewrite M_bind_Ok by reflexivity. cbn beta.
  destruct (dpdk_name (interface_count a)) as [nm |] eqn:En; [| done].
  erewrite M_bind_Ok by reflexivity. erewrite M_bind_Ok by reflexivity. cbn beta. intros E.
  assert (∀ m : A (Z * str * config), post eq m (fun x => x.1.2 = nm) →
    m (mk_att (held a) (u32 (interface_count a + 1))) = Ok ((err, name, c), a') →
    Ok nm = Ok name ∧ interface_count a' = u32 (interface_count a + 1)) as Hgo.
  { intros m Hm Em. destruct (Hm _ _ _ Em) as [H1 H2]. cbn in H1, H2. by subst. }
  revert E. apply Hgo. unfold acquire_names, fail_softc, release_names, release_if, if_dpdk_create_handle,
    if_dpdk_setup_interface, start_thread, malloc_waitok, try_acquire.
  by repeat post_step.
Qed.

(** Any move of the counter. *)
Definition any_count : relation Z := fun _ _ => True.
#[local] Instance any_count_preorder : PreOrder any_count.
Proof. by split. Qed.

(** A string that is refused, a port that does not initialise or an interface of the
    stack that cannot be allocated: the attachment does not succeed. *)
Lemma attach_refused e cs thr :
  (∀ c, if_dpdk_process_configstr cs ≠ Ok (0, c)) ∨ dh_init_ok e = false ∨ ok e Ifnet = false →
  post any_count (if_dpdk_attach e (Some cs) thr) (fun x => x.1.1 ≠ 0).
Proof.
  intros Hno. unfold if_dpdk_attach.
  apply (post_bind _ _ _ (fun _ => True)); [by intros ? ? ? ? | intros count _].
  apply (post_bind _ _ _ (fun _ => True)); [by post_step | intros name _].
  apply (post_bind _ _ _ (fun _ => True)); [by intros ? ? ? ? | intros _ _].
  apply (post_bind _ _ _ (fun _ => True)); [unfold malloc_waitok; by repeat post_step | intros sc _].
  destruct (negb sc); [by post_step |].
  apply (post_bind _ _ _ (fun x => if_dpdk_process_configstr cs = Ok x)); [apply post_liftR, _ |].
  intros [error c] Hc. apply (post_bind _ _ _ (fun _ => True)); [unfold acquire_names; by repeat post_step | intros _ _].
  assert (∀ h r t g p err, err ≠ 0 →
    post any_count (_ ← fail_softc c h r t g p; mret (err, name, c)) (fun x => x.1.1 ≠ 0)) as Hfail.
  { intros h r t g p err He. apply (post_bind _ _ _ (fun _ => True)); [| intros _ _; by apply post_mret; [apply _ |]].
    unfold fail_softc, release_names, release_if. by repeat post_step. }
  destruct (Z.eqb_spec error 0) as [-> | Hne]; cbn [negb]; [| by apply Hfail].
  assert (post any_count (if_dpdk_create_handle e) (fun _ => dh_init_ok e = true)) as Hcreate.
  { intros b x b' Eb. unfold if_dpdk_create_handle in Eb. by destruct (dh_init_ok e). }
  assert (post any_count (if_dpdk_setup_interface e (uses_tx_thread e thr)) (fun _ => ok e Ifnet = true)) as Hsetup.
  { intros b x b' Eb. unfold if_dpdk_setup_interface, try_acquire in Eb. by destruct (ok e Ifnet). }
  assert (∀ r, post any_count (malloc_waitok e r) (fun _ => True)) as Htry by (intros r; unfold malloc_waitok; by repeat post_step).
  apply (post_bind _ _ _ _ _ (Htry RxPds)). intros rxp _. destruct (negb rxp); [by apply Hfail |].
  apply (post_bind _ _ _ _ _ (Htry TxPds)). intros txp _. destruct (negb txp); [by apply Hfail |].
  apply (post_bind _ _ _ _ _ Hcreate). intros host Hdh. destruct (negb host); [by apply Hfail |].
  apply (post_bind _ _ _ _ _ (Htry InjectRing)). intros ring _. destruct (negb ring); [by apply Hfail |].
  apply (post_bind _ _ _ _ _ (Htry PdctxToFree)). intros pdctx _. destruct (negb pdctx); [by apply Hfail |].
  apply (post_bind _ _ _ _ _ Hsetup). intros rv Hif. destruct (negb (rv =? 0)); [by apply Hfail |].
  exfalso. destruct Hno as [Hno | [Hno | Hno]]; [by apply (Hno c) | congruence..].
Qed.

(** An interface that was attached holds what it uses. *)
Lemma attach_success e cs thr_cfg count name c a :
  if_dpdk_attach e cs thr_cfg (mk_att [] count) = Ok ((0, name, c), a) →
  held a = running (uifsts e) (uses_tx_thread e thr_cfg) c.
Proof.
  destruct cs as [cs |]; [| done]. intros E. pose proof (post_attach _ _ _ _ _ _ _ _ E) as [Hname _]. cbn [interface_count] in Hname.
  destruct (if_dpdk_process_configstr cs) as [[err c0] |] eqn:Hc.
  2: { exfalso. eapply (attach_refused e cs thr_cfg); [| exact E | done]. left. intros ?. by rewrite Hc. }
  destruct (decide (err = 0 ∧ dh_init_ok e = true ∧ ok e Ifnet = true)) as [(-> & Hdh & Hif) | Hno].
  2: { exfalso. eapply (attach_refused e cs thr_cfg); [| exact E | done].
       destruct (decide (err = 0)) as [-> |]; [right | left; intros ? ?; congruence].
       destruct (dh_init_ok e); [right | by left]. destruct (ok e Ifnet); naive_solver. }
  pose proof (attach_resources e cs 0 c0 thr_cfg count name Hc Hname Hdh) as Hres. unfold attach_outcome in Hres.
  rewrite E in Hres. cbn [Z.eqb negb] in Hres. destruct (negb (ok e Softc)); [done |].
  destruct (first_missing e _) as [[] |]; try done. by injection Hres as -> ->.
Qed.

(** ** Witnesses *)

Definition ex_sur (create : res → KThread.created) : surroundings := mk_sur (fun _ => true) create true false.
Definition eth0 : cstr := String.list_ascii_of_string "eth0".
Definition ex_config : config := mk_config false false false false true (Some eth0) (Some eth0) eth0.


End DpdkAttach.
