(* ===== verification/IfRegistry.v ===== *)
(** The interfaces of an instance (src/src/lib/libuinet/uinet_config.c and the type
    table of uinet_if.c): creating, finding, enumerating and destroying them.  What
    the registry needs of a driver is a class with its laws; the DPDK driver is the
    instance the build has. *)
From S2P Require Import Prelude Printf PrintfSpec Dpdk DpdkAttach.
Import Printf.

Module IfRegistry.

Definition ENXIO : Z := 6.
Definition ENOMEM : Z := 12.
Definition EEXIST : Z := 17.
Definition EINVAL : Z := 22.
Definition IF_NAMESIZE : Z := 16.
Definition UINET_IFTYPE_DPDK : Z := 2.
Definition UINET_IFTYPE_COUNT : Z := 3.

(** ** Data *)

(** The fields the registry and the drivers' attachment use; strings without their
    NUL, NULL as [None]. *)
Record uinet_if : Type := mk_uif {
  uif_type : Z; uif_configstr : option (list Ascii.ascii); uif_name : str; uif_alias : str;
  uif_rx_cpu : Z; uif_tx_cpu : Z; uif_rx_batch_size : Z; uif_tx_inject_queue_len : Z;
  uif_timestamp_mode : Z; uif_use_file_io_thread : bool; uif_sts_evifctx : option Z
}.

(** [struct uinet_if_cfg]. *)
Record uinet_if_cfg : Type := mk_cfg {
  cfg_type : Z; cfg_configstr : option (list Ascii.ascii); cfg_alias : option str;
  cfg_rx_cpu : Z; cfg_tx_cpu : Z; cfg_rx_batch_size : Z; cfg_tx_inject_queue_len : Z;
  cfg_timestamp_mode : Z; cfg_use_file_io_thread : bool
}.

Definition set_sts_ctx (v : option Z) (u : uinet_if) : uinet_if :=
  mk_uif (uif_type u) (uif_configstr u) (uif_name u) (uif_alias u) (uif_rx_cpu u) (uif_tx_cpu u)
    (uif_rx_batch_size u) (uif_tx_inject_queue_len u) (uif_timestamp_mode u) (uif_use_file_io_thread u) v.
Definition set_name (v : str) (u : uinet_if) : uinet_if :=
  mk_uif (uif_type u) (uif_configstr u) v (uif_alias u) (uif_rx_cpu u) (uif_tx_cpu u)
    (uif_rx_batch_size u) (uif_tx_inject_queue_len u) (uif_timestamp_mode u) (uif_use_file_io_thread u)
    (uif_sts_evifctx u).

(** What a driver does: attaching gives an error and the interface with its name,
    detaching an error. *)
Class IfDriver (D : Type) : Type := {
  drv_attach : uinet_if → D → result (Z * uinet_if * D);
  drv_detach : uinet_if → D → result (Z * D)
}.

(** The instance's interfaces in order ([V_uinet_if_list]), the structures, and the
    driver's state. *)
Record registry (D : Type) : Type := mk_reg { r_ifs : gmap nat uinet_if; r_list : list nat; r_drv : D }.
Arguments mk_reg {D}.
Arguments r_ifs {D}.
Arguments r_list {D}.
Arguments r_drv {D}.

Section Registry.

Context {D : Type} `{IfDriver D}.

Abbreviation reg := (registry D).
Abbreviation R := (M (registry D)).

Definition uif_load (p : nat) : R uinet_if := fun r =>
  match r_ifs r !! p with Some u => Ok (u, r) | None => Fault BadPointer end.

(** ** Finding *)

(** The two [strcmp] of the loop. *)
Definition name_matches (ifname : str) (u : uinet_if) : bool :=
  bool_decide (ifname = uif_name u) || (negb (bool_decide (uif_alias u = [])) && bool_decide (ifname = uif_alias u)).

Fixpoint find_loop (ifname : str) (l : list nat) : R (option nat) :=
  match l with
  | [] => mret None
  | p :: t => u ← uif_load p; if name_matches ifname u then mret (Some p) else find_loop ifname t
  end.

Definition uinet_iffind_byname_internal (ifname : str) : R (option nat) :=
  l ← gets r_list; find_loop ifname l.

Definition uinet_iffind_byname (ifname : str) : R (option nat) := uinet_iffind_byname_internal ifname.

(** ** Creating *)

(** The checks on the alias: 0 or the error. *)
Definition check_alias (alias : option str) : R Z :=
  match alias with
  | None => mret 0
  | Some a =>
      if IF_NAMESIZE <=? Z.of_nat (length a) then mret EINVAL
      else if 0 <? Z.of_nat (length a) then
        o ← uinet_iffind_byname_internal a; mret (match o with Some _ => EEXIST | None => 0 end)
      else mret 0
  end.

Definition new_uif (cfg : uinet_if_cfg) : uinet_if :=
  mk_uif (cfg_type cfg) (cfg_configstr cfg) [] (default [] (cfg_alias cfg)) (cfg_rx_cpu cfg) (cfg_tx_cpu cfg)
    (cfg_rx_batch_size cfg) (cfg_tx_inject_queue_len cfg) (cfg_timestamp_mode cfg)
    (cfg_use_file_io_thread cfg) None.

(** In the driver's state. *)
Definition attach (u : uinet_if) : R (Z * uinet_if) := fun r =>
  '(e, u', d) ← drv_attach u (r_drv r); Ok ((e, u'), mk_reg (r_ifs r) (r_list r) d).
Definition detach (u : uinet_if) : R Z := fun r =>
  '(e, d) ← drv_detach u (r_drv r); Ok (e, mk_reg (r_ifs r) (r_list r) d).

(** [p] is what [malloc] gave; [sts] is, for an instance in STS mode, what the
    application's callback returned.  The result is the error and what is stored to
    [*uif]. *)
Definition uinet_ifcreate (p : option nat) (sts : option (option Z)) (cfg : uinet_if_cfg) : R (Z * option nat) :=
  error ← check_alias (cfg_alias cfg);
  if negb (error =? 0) then mret (error, None)
  else match p with
  | None => mret (ENOMEM, None)
  | Some n =>
      let u := new_uif cfg in
      let u := match sts with Some ctx => set_sts_ctx ctx u | None => u end in
      if bool_decide (sts = Some None) then mret (ENXIO, None)
      else
        '(error, u) ← (if uif_type u =? UINET_IFTYPE_DPDK then attach u else mret (ENXIO, u));
        if error =? 0 then
          _ ← modify (fun r => mk_reg (<[n := u]> (r_ifs r)) (r_list r ++ [n]) (r_drv r));
          mret (0, Some n)
        else mret (error, None)
  end.

(** ** Destroying *)

Definition uinet_ifdestroy_internal (p : nat) : R Z :=
  u ← uif_load p;
  error ← (if uif_type u =? UINET_IFTYPE_DPDK then detach u else mret ENXIO);
  _ ← modify (fun r => mk_reg (delete p (r_ifs r)) (filter (fun x => x ≠ p) (r_list r)) (r_drv r));
  mret error.

Definition uinet_ifdestroy (p : nat) : R Z := uinet_ifdestroy_internal p.

Fixpoint destroy_loop (l : list nat) : R unit :=
  match l with
  | [] => mret ()
  | p :: t => _ ← uinet_ifdestroy_internal p; destroy_loop t
  end.
Definition uinet_ifdestroy_all : R unit := l ← gets r_list; destroy_loop l.

Definition uinet_ifdestroy_byname (ifname : str) : R Z :=
  o ← uinet_iffind_byname_internal ifname;
  match o with Some p => uinet_ifdestroy_internal p | None => mret EINVAL end.

(** ** Names and enumeration *)

Definition uinet_ifaliasname (p : option nat) : R str :=
  match p with Some n => u ← uif_load n; mret (uif_alias u) | None => mret [] end.
Definition uinet_ifgenericname (p : option nat) : R str :=
  match p with Some n => u ← uif_load n; mret (uif_name u) | None => mret [] end.

(** [TAILQ_NEXT]: what follows [cur]; [None] when [cur] is not on the list. *)
Fixpoint tailq_next (cur : nat) (l : list nat) : option (option nat) :=
  match l with
  | [] => None
  | p :: t => if bool_decide (p = cur) then Some (head t) else tailq_next cur t
  end.

Definition uinet_ifnext (cur : option nat) : R (option nat) :=
  l ← gets r_list;
  match cur with
  | None => mret (head l)
  | Some c => match tailq_next c l with
              | None => faultM BadPointer
              | Some None => mret (head l)
              | Some (Some n) => mret (Some n)
              end
  end.

End Registry.

(** ** Types *)

(** [uinet_if_types], by type. *)
Definition uinet_if_register_type (ty : Z) (info : str) (types : list (option str)) : result (list (option str)) :=
  if (0 <=? ty) && (ty <? Z.of_nat (length types)) then Ok (<[Z.to_nat ty := Some info]> types) else Fault OutOfBounds.

Definition uinet_if_get_type_info (ty : Z) (types : list (option str)) : option str :=
  if u32 ty <? UINET_IFTYPE_COUNT then mjoin (types !! Z.to_nat (u32 ty)) else None.

Definition uinet_iftypename (ty : Z) (types : list (option str)) : str :=
  match uinet_if_get_type_info ty types with None => lit "<unknown>" | Some t => t end.

(** ** The DPDK driver *)

(** The softc of an attached interface: its configuration, [tx_use_thread], and what
    it holds. *)
Record softc : Type := mk_softc { sc_config : Dpdk.config; sc_thread : bool; sc_held : list DpdkAttach.res }.

(** [interface_count] and the softc of each attached interface, by name. *)
Record dpdk_drv : Type := mk_ddrv { dd_count : Z; dd_softc : list (str * softc) }.

Fixpoint softc_of (name : str) (l : list (str * softc)) : option softc :=
  match l with
  | [] => None
  | (n, x) :: t => if bool_decide (n = name) then Some x else softc_of name t
  end.

Section DpdkDriver.

Context (e : DpdkAttach.surroundings).

Definition dpdk_attach (u : uinet_if) (d : dpdk_drv) : result (Z * uinet_if * dpdk_drv) :=
  '((error, name, c), a) ←
    DpdkAttach.if_dpdk_attach e (uif_configstr u) (uif_use_file_io_thread u) (DpdkAttach.mk_att [] (dd_count d));
  Ok (error, set_name name u,
      mk_ddrv (DpdkAttach.interface_count a)
        (if error =? 0
         then (name, mk_softc c (DpdkAttach.uses_tx_thread e (uif_use_file_io_thread u)) (DpdkAttach.held a)) :: dd_softc d
         else dd_softc d)).

Definition dpdk_detach (u : uinet_if) (d : dpdk_drv) : result (Z * dpdk_drv) :=
  match softc_of (uif_name u) (dd_softc d) with
  | None => Ok (0, d)
  | Some sc =>
      '(rv, _) ← DpdkAttach.if_dpdk_detach e (sc_config sc) (sc_thread sc)
                   (DpdkAttach.mk_att (sc_held sc) (dd_count d));
      Ok (rv, mk_ddrv (dd_count d) (filter (fun x => x.1 ≠ uif_name u) (dd_softc d)))
  end.

#[export] Instance dpdk_driver : IfDriver dpdk_drv := { drv_attach := dpdk_attach; drv_detach := dpdk_detach }.

End DpdkDriver.

End IfRegistry.
