(* ===== verification/IfRegistrySpec.v ===== *)
(** Properties of the interface registry, proved of every driver that keeps its laws,
    and the laws of the DPDK driver. *)
From S2P Require Import Prelude Printf PrintfSpec Dpdk DpdkAttach IfRegistry.
Import Printf PrintfSpec IfRegistry.

Module IfRegistrySpec.

(** What the registry relies on: a driver numbers the interfaces it attaches and
    names each after its number, touches neither the alias nor the type, and a
    failed attachment uses up at most a number; in a state the driver is left in by
    these operations an interface can be detached. *)
Class IfDriverLaws (D : Type) `{IfDriver D} : Type := {
  drv_count : D → Z;
  drv_name : Z → str;
  drv_ok : D → Prop;
  drv_name_inj : ∀ i j, 0 <= i < 2 ^ 32 → 0 <= j < 2 ^ 32 → drv_name i = drv_name j → i = j;
  attach_law : ∀ u d e u' d', 0 <= drv_count d < 2 ^ 32 - 1 → drv_attach u d = Ok (e, u', d') →
    uif_alias u' = uif_alias u ∧ uif_type u' = uif_type u ∧
    drv_count d <= drv_count d' <= drv_count d + 1 ∧
    (e = 0 → uif_name u' = drv_name (drv_count d) ∧ drv_count d' = drv_count d + 1) ∧
    (drv_ok d → drv_ok d');
  detach_law : ∀ u d, drv_ok d → ∃ e d', drv_detach u d = Ok (e, d') ∧ drv_count d' = drv_count d ∧ drv_ok d'
}.

Section Spec.

Context {D : Type} `{IfDriverLaws D}.

Abbreviation reg := (registry D).

(** ** The invariant *)

Record reg_ok (r : reg) : Prop := {
  ro_nodup : NoDup (r_list r);
  ro_live : ∀ p, p ∈ r_list r ↔ is_Some (r_ifs r !! p);
  ro_count : 0 <= drv_count (r_drv r);
  ro_drv : drv_ok (r_drv r);
  ro_names : ∀ p u, r_ifs r !! p = Some u → ∃ i, 0 <= i < drv_count (r_drv r) ∧ uif_name u = drv_name i;
  ro_distinct : ∀ p q u v, r_ifs r !! p = Some u → r_ifs r !! q = Some v → uif_name u = uif_name v → p = q;
  ro_alias : ∀ p q u v, r_ifs r !! p = Some u → r_ifs r !! q = Some v → uif_alias u ≠ [] →
    uif_alias u = uif_alias v → p = q;
  ro_alias_len : ∀ p u, r_ifs r !! p = Some u → Z.of_nat (length (uif_alias u)) < IF_NAMESIZE
}.

(** Only the driver's counter has moved on. *)
Lemma reg_ok_drv r d :
  reg_ok r → drv_count (r_drv r) <= drv_count d → drv_ok d → reg_ok (mk_reg (r_ifs r) (r_list r) d).
Proof.
  intros [] Hle Hok. split; cbn; try done; [lia |]. intros p u Hu. destruct (ro_names0 p u Hu) as (i & Hi & ->).
  exists i. split; [lia | done].
Qed.

(** ** Finding *)

Lemma find_loop_spec s (r : reg) l :
  (∀ p, p ∈ l → is_Some (r_ifs r !! p)) →
  ∃ o, find_loop s l r = Ok (o, r) ∧
    match o with
    | Some p => ∃ u, p ∈ l ∧ r_ifs r !! p = Some u ∧ name_matches s u = true
    | None => ∀ p u, p ∈ l → r_ifs r !! p = Some u → name_matches s u = false
    end.
Proof.
  induction l as [| p l IH]; intros Hl; cbn [find_loop].
  { exists None. split; [done |]. intros ? ? Hp. by apply not_elem_of_nil in Hp. }
  destruct (Hl p) as [u Hu]; [constructor |]. erewrite M_bind_Ok by (unfold uif_load; by rewrite Hu). cbn beta.
  destruct (name_matches s u) eqn:E.
  - exists (Some p). split; [done |]. exists u. split; [constructor | done].
  - destruct IH as (o & Ef & Ho); [intros; apply Hl; by constructor |]. exists o. split; [done |].
    destruct o as [q |].
    + destruct Ho as (v & Hq & Hv & Hm). exists v. split; [by constructor | done].
    + intros q v [-> | Hq]%elem_of_cons Hv; [by simplify_eq | by eapply Ho].
Qed.

Lemma find_spec s (r : reg) :
  reg_ok r →
  ∃ o, uinet_iffind_byname s r = Ok (o, r) ∧
    match o with
    | Some p => ∃ u, r_ifs r !! p = Some u ∧ name_matches s u = true
    | None => ∀ p u, r_ifs r !! p = Some u → name_matches s u = false
    end.
Proof.
  intros Hr. destruct (find_loop_spec s r (r_list r)) as (o & E & Ho); [intros p; by apply (ro_live r Hr) |].
  exists o. split; [exact E |]. destruct o; [naive_solver |]. intros p u Hu. apply (Ho p); [| done].
  apply (ro_live r Hr). by rewrite Hu.
Qed.

(** The loop over a longer list, when the first part decides or does not. *)
Lemma find_loop_app s (r r' : reg) l1 l2 o :
  find_loop s l1 r = Ok (o, r) → (∀ p, p ∈ l1 → r_ifs r' !! p = r_ifs r !! p) →
  find_loop s (l1 ++ l2) r' = match o with Some p => Ok (Some p, r') | None => find_loop s l2 r' end.
Proof.
  induction l1 as [| p l1 IH]; intros E Hsame; cbn [find_loop app] in *; [by unfold mret, M_ret in E; simplify_eq |].
  unfold mbind, M_bind, uif_load in *. rewrite (Hsame p) by constructor.
  destruct (r_ifs r !! p) as [u |]; [| done]. destruct (name_matches s u).
  - unfold mret, M_ret in *. by simplify_eq.
  - apply IH; [done |]. intros q Hq. apply Hsame. by constructor.
Qed.

(** ** Creating *)

(** The aliases that are accepted: short enough, and not the name or alias of an
    interface. *)
Definition alias_ok (alias : option str) (r : reg) : Prop :=
  Z.of_nat (length (default [] alias)) < IF_NAMESIZE ∧
  (default [] alias ≠ [] → ∀ p u, r_ifs r !! p = Some u → name_matches (default [] alias) u = false).

Lemma check_alias_spec alias (r : reg) :
  reg_ok r → ∃ e, check_alias alias r = Ok (e, r) ∧ (e = 0 ↔ alias_ok alias r).
Proof.
  intros Hr. unfold alias_ok. destruct alias as [a |]; cbn [check_alias default from_option id].
  2: { exists 0. split; [done |]. split; [by split | done]. }
  destruct (Z.leb_spec IF_NAMESIZE (Z.of_nat (length a))).
  { exists EINVAL. split; [done |]. split; [done | lia]. }
  destruct (Z.ltb_spec 0 (Z.of_nat (length a))).
  - destruct (find_spec a r Hr) as (o & E & Ho). unfold uinet_iffind_byname in E.
    erewrite M_bind_Ok by exact E. destruct o as [p |].
    + exists EEXIST. split; [done |]. split; [done |]. intros [_ Hno]. destruct Ho as (u & Hu & Hm).
      rewrite (Hno ltac:(by intros ->) p u Hu) in Hm. done.
    + exists 0. split; [done |]. split; [| done]. intros _. by split.
  - exists 0. split; [done |]. split; [| done]. intros _. split; [lia |]. by destruct a; cbn in *; [| lia].
Qed.

Lemma matches_name u : name_matches (uif_name u) u = true.
Proof. unfold name_matches. by rewrite bool_decide_true. Qed.

Lemma matches_alias u : uif_alias u ≠ [] → name_matches (uif_alias u) u = true.
Proof. intros Ha. unfold name_matches. rewrite (bool_decide_false (_ = [])), (bool_decide_true (uif_alias u = uif_alias u)) by done. apply orb_true_r. Qed.

Lemma matches_false s u : name_matches s u = false → s ≠ uif_name u ∧ (uif_alias u ≠ [] → s ≠ uif_alias u).
Proof.
  unfold name_matches. intros [H1 H2]%orb_false_iff. apply bool_decide_eq_false in H1. split; [done |].
  intros Ha. rewrite (bool_decide_false (_ = [])) in H2 by done. by apply bool_decide_eq_false in H2.
Qed.

(** A new interface at the end of the list. *)
Definition with_new (n : nat) (u : uinet_if) (d : D) (r : reg) : reg :=
  mk_reg (<[n := u]> (r_ifs r)) (r_list r ++ [n]) d.

Lemma with_new_ok n u d r :
  reg_ok r → r_ifs r !! n = None → drv_count d = drv_count (r_drv r) + 1 → drv_count (r_drv r) < 2 ^ 32 - 1 → drv_ok d →
  uif_name u = drv_name (drv_count (r_drv r)) → Z.of_nat (length (uif_alias u)) < IF_NAMESIZE →
  (uif_alias u ≠ [] → ∀ p v, r_ifs r !! p = Some v → name_matches (uif_alias u) v = false) →
  reg_ok (with_new n u d r).
Proof.
  intros [] Hn Hd Hc Hok Hname Hlen Halias.
  assert (∀ p v, r_ifs r !! p = Some v → uif_name v ≠ uif_name u) as Hfresh.
  { intros p v Hv E. destruct (ro_names0 p v Hv) as (i & Hi & En). rewrite En, Hname in E.
    apply drv_name_inj in E; lia. }
  split; cbn [with_new r_ifs r_list r_drv].
  - apply NoDup_app. split; [done |]. split; [| apply NoDup_singleton].
    intros x Hx ->%list_elem_of_singleton. apply ro_live0 in Hx. rewrite Hn in Hx. by destruct Hx.
  - intros p. rewrite elem_of_app, list_elem_of_singleton, lookup_insert, ro_live0. case_decide; naive_solver.
  - lia.
  - done.
  - intros p v [[<- <-] | [_ Hv]]%lookup_insert_Some; [exists (drv_count (r_drv r)); split; [lia | done] |].
    destruct (ro_names0 p v Hv) as (i & Hi & ->). exists i. split; [lia | done].
  - intros p q v w [[<- <-] | [_ Hv]]%lookup_insert_Some [[<- <-] | [_ Hw]]%lookup_insert_Some E.
    + done.
    + by destruct (Hfresh q w Hw).
    + by destruct (Hfresh p v Hv).
    + by eapply ro_distinct0.
  - intros p q v w [[<- <-] | [_ Hv]]%lookup_insert_Some [[<- <-] | [_ Hw]]%lookup_insert_Some Ha E.
    + done.
    + destruct (matches_false _ _ (Halias Ha q w Hw)) as [_ Hne]. destruct Hne; [congruence | done].
    + rewrite E in Ha. destruct (matches_false _ _ (Halias Ha p v Hv)) as [_ Hne]. destruct Hne; congruence.
    + by eapply ro_alias0.
  - intros p v [[<- <-] | [_ Hv]]%lookup_insert_Some; [done | by eapply ro_alias_len0].
Qed.

(** The interface the driver is asked to attach. *)
Definition requested (sts : option (option Z)) (cfg : uinet_if_cfg) : uinet_if :=
  match sts with Some ctx => set_sts_ctx ctx (new_uif cfg) | None => new_uif cfg end.

(** The requests that are granted, when the driver answers [err]. *)
Definition granted (sts : option (option Z)) (cfg : uinet_if_cfg) (err : Z) (r : reg) : Prop :=
  alias_ok (cfg_alias cfg) r ∧ sts ≠ Some None ∧ cfg_type cfg = UINET_IFTYPE_DPDK ∧ err = 0.

(** What a call of [uinet_ifcreate] does. *)
Lemma ifcreate_cases n sts cfg (r : reg) err u d :
  reg_ok r → r_ifs r !! n = None → drv_count (r_drv r) < 2 ^ 32 - 1 →
  drv_attach (requested sts cfg) (r_drv r) = Ok (err, u, d) →
  (¬ granted sts cfg err r ∧ ∃ e r', uinet_ifcreate (Some n) sts cfg r = Ok ((e, None), r') ∧
     e ≠ 0 ∧ r_ifs r' = r_ifs r ∧ r_list r' = r_list r ∧ reg_ok r') ∨
  (granted sts cfg err r ∧ uinet_ifcreate (Some n) sts cfg r = Ok ((0, Some n), with_new n u d r) ∧
     reg_ok (with_new n u d r) ∧ uif_alias u = default [] (cfg_alias cfg) ∧
     uif_name u = drv_name (drv_count (r_drv r)) ∧
     (uif_alias u ≠ [] → ∀ p v, r_ifs r !! p = Some v → name_matches (uif_alias u) v = false)).
Proof.
  intros Hr Hn Hc Ed. unfold uinet_ifcreate, granted.
  destruct (check_alias_spec (cfg_alias cfg) r Hr) as (e0 & Ec & Hal).
  erewrite M_bind_Ok by exact Ec. cbn beta.
  destruct (Z.eqb_spec e0 0) as [-> | He0]; cbn [negb].
  2: { left. split; [naive_solver |]. by exists e0, r. }
  destruct (proj1 Hal eq_refl) as [Hlen Hno]. fold (requested sts cfg).
  assert (uif_alias (requested sts cfg) = default [] (cfg_alias cfg)) as Ha0 by (by destruct sts).
  assert (uif_type (requested sts cfg) = cfg_type cfg) as Ht0 by (by destruct sts).
  case_bool_decide as Hsts. { left. split; [naive_solver |]. by exists ENXIO, r. }
  rewrite Ht0. destruct (Z.eqb_spec (cfg_type cfg) UINET_IFTYPE_DPDK) as [Et | Et].
  2: { left. split; [naive_solver |]. by exists ENXIO, r. }
  erewrite M_bind_Ok by (unfold attach; rewrite Ed; reflexivity). cbn beta iota.
  pose proof (ro_count r Hr) as H0c. assert (0 <= drv_count (r_drv r) < 2 ^ 32 - 1) as Hrange by lia.
  destruct (attach_law (requested sts cfg) (r_drv r) err u d Hrange Ed) as (La & Lt & Lc & Ln & Lok).
  specialize (Lok (ro_drv r Hr)).
  destruct (Z.eqb_spec err 0) as [-> | He1].
  - destruct (Ln eq_refl) as [Ln1 Ln2]. right. rewrite ?La, ?Ha0. split_and!; try done.
    apply with_new_ok; rewrite ?La, ?Ha0; done.
  - left. split; [naive_solver |]. exists err, (mk_reg (r_ifs r) (r_list r) d). split_and!; try done.
    apply reg_ok_drv; [done | lia | done].
Qed.

(** [C27] Creating an interface, for every driver that keeps its laws.  The call is
    granted exactly when the alias is short enough and not in use as a name or alias,
    the event system accepts the interface, the type is known and the driver attaches
    it.  Otherwise the registry is as before and no interface is returned.  On success
    the new interface is the last of the list, the registry stays well formed (names
    and aliases are each unique), the alias, if any, finds the new interface, the
    driver's name finds it too unless an older interface has that name as its alias,
    and whatever was found before is still found. *)
Theorem uinet_ifcreate_find (n : nat) (sts : option (option Z)) (cfg : uinet_if_cfg) (r : reg) (err : Z) (u : uinet_if) (d : D) :
  reg_ok r → r_ifs r !! n = None → drv_count (r_drv r) < 2 ^ 32 - 1 →
  drv_attach (requested sts cfg) (r_drv r) = Ok (err, u, d) →
  ∃ e o r', uinet_ifcreate (Some n) sts cfg r = Ok ((e, o), r') ∧ reg_ok r' ∧ (e = 0 ↔ granted sts cfg err r) ∧
  if decide (e = 0) then
    o = Some n ∧ r_list r' = r_list r ++ [n] ∧ r_ifs r' !! n = Some u ∧
    (∀ a, cfg_alias cfg = Some a → a ≠ [] → uinet_iffind_byname a r' = Ok (Some n, r')) ∧
    ((∀ p v, r_ifs r !! p = Some v → uif_alias v ≠ uif_name u) → uinet_iffind_byname (uif_name u) r' = Ok (Some n, r')) ∧
    (∀ s p, uinet_iffind_byname s r = Ok (Some p, r) → uinet_iffind_byname s r' = Ok (Some p, r'))
  else o = None ∧ r_list r' = r_list r ∧ r_ifs r' = r_ifs r.
Proof.
  intros Hr Hn Hc Ed. destruct (ifcreate_cases n sts cfg r err u d Hr Hn Hc Ed)
    as [(Hg & e & r' & E & He & H1 & H2 & Hr') | (Hg & E & Hr' & Ha & Hname & Hno)].
  { exists e, None, r'. rewrite decide_False by done. by split_and!. }
  exists 0, (Some n), (with_new n u d r). rewrite decide_True by done. do 3 (split; [done |]). cbn [with_new r_list r_ifs].
  assert (∀ p, p ∈ r_list r → r_ifs (with_new n u d r) !! p = r_ifs r !! p) as Hsame.
  { intros p Hp. cbn. apply lookup_insert_ne. intros ->. apply (ro_live r Hr) in Hp. rewrite Hn in Hp. by destruct Hp. }
  assert (∀ s, name_matches s u = true → (∀ p v, r_ifs r !! p = Some v → name_matches s v = false) →
    uinet_iffind_byname s (with_new n u d r) = Ok (Some n, with_new n u d r)) as Hfind.
  { intros s Hm Hnone. destruct (find_loop_spec s r (r_list r)) as (o & Ef & Ho); [intros p; by apply (ro_live r Hr) |].
    unfold uinet_iffind_byname, uinet_iffind_byname_internal. erewrite M_bind_Ok by reflexivity. cbn [with_new r_list].
    rewrite (find_loop_app _ _ _ _ _ _ Ef Hsame). destruct o as [p |].
    - destruct Ho as (v & _ & Hv & Hmv). by rewrite (Hnone p v Hv) in Hmv.
    - cbn [find_loop]. erewrite M_bind_Ok by (unfold uif_load; cbn; by rewrite lookup_insert_eq). by rewrite Hm. }
  split; [done |]. split; [done |]. split; [apply lookup_insert_eq |]. split_and!.
  - intros a Ea Hne. rewrite Ea in Ha. cbn in Ha. subst a. apply Hfind; [by apply matches_alias | by apply Hno].
  - intros Hnoalias. apply Hfind; [apply matches_name |].
    intros p w Hw. unfold name_matches. apply orb_false_iff. split.
    + apply bool_decide_eq_false. intros E'. destruct (ro_names r Hr p w Hw) as (i & Hi & Ei).
      rewrite Hname, Ei in E'. apply drv_name_inj in E'; [lia | pose proof (ro_count r Hr); lia | lia].
    + apply andb_false_iff. right. apply bool_decide_eq_false. intros E'. by destruct (Hnoalias p w Hw).
  - intros s p Ef. unfold uinet_iffind_byname, uinet_iffind_byname_internal in Ef |- *.
    erewrite M_bind_Ok in Ef by reflexivity. erewrite M_bind_Ok by reflexivity. cbn [with_new r_list].
    by rewrite (find_loop_app _ _ _ _ _ _ Ef Hsame).
Qed.

(** ** Destroying *)

(** The interface is gone, the others are as they were. *)
Definition without (p : nat) (d : D) (r : reg) : reg :=
  mk_reg (delete p (r_ifs r)) (filter (fun x => x ≠ p) (r_list r)) d.

Lemma without_ok p d r :
  reg_ok r → drv_count d = drv_count (r_drv r) → drv_ok d → reg_ok (without p d r).
Proof.
  intros [] Hc Hok. split; cbn [without r_ifs r_list r_drv]; try done.
  - by apply NoDup_filter.
  - intros q. rewrite list_elem_of_filter, ro_live0. destruct (decide (q = p)) as [-> |].
    + rewrite lookup_delete_eq. split; [naive_solver | by intros []].
    + rewrite lookup_delete_ne by done. naive_solver.
  - lia.
  - intros q u [_ Hu]%lookup_delete_Some. rewrite Hc. by eapply ro_names0.
  - intros q q' u v [_ Hu]%lookup_delete_Some [_ Hv]%lookup_delete_Some. by eapply ro_distinct0.
  - intros q q' u v [_ Hu]%lookup_delete_Some [_ Hv]%lookup_delete_Some. by eapply ro_alias0.
  - intros q u [_ Hu]%lookup_delete_Some. by eapply ro_alias_len0.
Qed.

Lemma ifdestroy_spec p (r : reg) :
  reg_ok r → p ∈ r_list r →
  ∃ e d, uinet_ifdestroy p r = Ok (e, without p d r) ∧ reg_ok (without p d r) ∧
    drv_count d = drv_count (r_drv r).
Proof.
  intros Hr Hp. apply (ro_live r Hr) in Hp as [u Hu]. unfold uinet_ifdestroy, uinet_ifdestroy_internal.
  erewrite M_bind_Ok by (unfold uif_load; by rewrite Hu). cbn beta.
  destruct (uif_type u =? UINET_IFTYPE_DPDK).
  - destruct (detach_law u (r_drv r) (ro_drv r Hr)) as (e & d & Ed & Hc & Hok).
    exists e, d. split; [| split; [by apply without_ok | done]]. unfold mbind, M_bind, detach. by rewrite Ed.
  - exists ENXIO, (r_drv r). split; [done |]. split; [| done]. apply without_ok; [done | done | apply Hr].
Qed.

Lemma destroy_loop_spec l : ∀ r : reg,
  reg_ok r → NoDup l → (∀ p, p ∈ l → p ∈ r_list r) →
  ∃ r', destroy_loop l r = Ok (tt, r') ∧ reg_ok r' ∧ r_list r' = filter (fun x => x ∉ l) (r_list r).
Proof.
  induction l as [| p l IH]; intros r Hr Hnd Hin; cbn [destroy_loop].
  { exists r. split; [done |]. split; [done |]. symmetry. apply filter_id. intros x _. apply not_elem_of_nil. }
  apply NoDup_cons in Hnd as [Hp Hnd].
  destruct (ifdestroy_spec p r Hr) as (e & d & E & Hr' & _); [apply Hin; constructor |].
  destruct (IH (without p d r) Hr' Hnd) as (r' & E' & Hok & Hl).
  { intros q Hq. cbn. apply list_elem_of_filter. split; [by intros -> | apply Hin; by constructor]. }
  exists r'. unfold uinet_ifdestroy in E. erewrite M_bind_Ok by exact E. split; [done |]. split; [done |]. rewrite Hl.
  cbn [without r_list]. rewrite list_filter_filter. apply list_filter_iff. intros x. rewrite not_elem_of_cons. naive_solver.
Qed.

(** Destroying undoes creating: a request that is granted gives an interface that
    is destroyed without a fault, and the structures and the list are then what they
    were before.  Destroying all interfaces leaves none, whatever their number. *)
Theorem uinet_ifdestroy_undoes (n : nat) (sts : option (option Z)) (cfg : uinet_if_cfg) (r : reg) (err : Z) (u : uinet_if) (d : D) :
  reg_ok r → r_ifs r !! n = None → drv_count (r_drv r) < 2 ^ 32 - 1 →
  drv_attach (requested sts cfg) (r_drv r) = Ok (err, u, d) → granted sts cfg err r →
  ∃ r', uinet_ifcreate (Some n) sts cfg r = Ok ((0, Some n), r') ∧
  (∃ e r'', uinet_ifdestroy n r' = Ok (e, r'') ∧ reg_ok r'' ∧ r_list r'' = r_list r ∧ r_ifs r'' = r_ifs r) ∧
  (∃ r'', uinet_ifdestroy_all r' = Ok (tt, r'') ∧ reg_ok r'' ∧ r_list r'' = [] ∧ r_ifs r'' = ∅).
Proof.
  intros Hr Hn Hc Ed Hg. destruct (ifcreate_cases n sts cfg r err u d Hr Hn Hc Ed)
    as [[Hng _] | (_ & E & Hr' & _)]; [done |]. exists (with_new n u d r). split; [done |]. split.
  - destruct (ifdestroy_spec n (with_new n u d r) Hr') as (e & d' & Ed' & Hok & _).
    { cbn. apply elem_of_app. right. by apply list_elem_of_singleton. }
    exists e, (without n d' (with_new n u d r)). split; [done |]. split; [done |].
    cbn [without with_new r_list r_ifs]. rewrite delete_insert_id by done. split; [| done].
    rewrite filter_app, filter_cons_False by naive_solver. rewrite filter_nil, app_nil_r. apply filter_id.
    intros x Hx ->. apply (ro_live r Hr) in Hx. rewrite Hn in Hx. by destruct Hx.
  - destruct (destroy_loop_spec (r_list (with_new n u d r)) (with_new n u d r) Hr') as (r'' & E'' & Hok & Hl);
      [apply Hr' | done |].
    exists r''. split; [exact E'' |]. split; [done |].
    assert (r_list r'' = []) as Hnil.
    { rewrite Hl. destruct (filter _ _) as [| x l] eqn:Ef; [done |]. assert (x ∈ x :: l) as Hx by constructor.
      rewrite <- Ef in Hx. apply list_elem_of_filter in Hx as [H1 H2]. done. }
    split; [done |]. apply map_eq. intros p. rewrite lookup_empty. destruct (r_ifs r'' !! p) eqn:Ep; [| done].
    assert (p ∈ r_list r'') as Hp by (apply (ro_live r'' Hok); by rewrite Ep). rewrite Hnil in Hp. by apply not_elem_of_nil in Hp.
Qed.

(** ** Enumerating *)

Lemma tailq_next_spec l : ∀ i p, NoDup l → l !! i = Some p → tailq_next p l = Some (l !! S i).
Proof.
  induction l as [| q l IH]; intros i p Hnd Hi; [done |]. apply NoDup_cons in Hnd as [Hq Hnd]. cbn [tailq_next].
  destruct i as [| i]; cbn in Hi.
  - simplify_eq. rewrite bool_decide_true by done. by rewrite head_lookup.
  - rewrite bool_decide_false; [by apply IH |]. intros ->. apply Hq. by eapply list_elem_of_lookup_2.
Qed.

(** The enumeration goes round: the last interface is followed by the first. *)
Lemma uinet_ifnext_cycles (r : reg) i p :
  reg_ok r → r_list r !! i = Some p →
  uinet_ifnext (Some p) r = Ok (r_list r !! (S i mod length (r_list r))%nat, r).
Proof.
  intros Hr Hi. unfold uinet_ifnext. erewrite M_bind_Ok by reflexivity. cbn beta.
  rewrite (tailq_next_spec _ i p (ro_nodup r Hr) Hi). pose proof (lookup_lt_Some _ _ _ Hi) as Hlt.
  destruct (decide (S i = length (r_list r))) as [E | Hne].
  - rewrite (lookup_ge_None_2 _ (S i)) by lia. rewrite E, Nat.Div0.mod_same. by rewrite head_lookup.
  - rewrite Nat.mod_small by lia. destruct (lookup_lt_is_Some_2 (r_list r) (S i)) as [q Hq]; [lia |]. by rewrite Hq.
Qed.

End Spec.

(** ** The DPDK driver *)

Section DpdkLaws.

Context (e : DpdkAttach.surroundings).

#[local] Existing Instance dpdk_driver.

Lemma number_unsigned num ds :
  0 <= num < 2 ^ 64 → ksprintn num 10 false = Ok ds → number (set_sign false no_flags) 10 false num = Ok ds.
Proof.
  intros Hn Hds. unfold number. cbn [sign sharpflag ladjust padc width dwidth set_sign no_flags andb negb]. rewrite Hds.
  cbn [mbind result_bind]. f_equal. change (32 =? 48) with false. cbn [b2z length Z.of_nat].
  rewrite !pad_neg by lia. cbn [app]. by rewrite app_nil_r.
Qed.

Lemma kvprintf_dpdk i ds :
  0 <= i < 2 ^ 32 → ksprintn i 10 false = Ok ds → Forall (fun c => 0 <= digit_val c < 10) ds →
  kvprintf (Some (lit "dpdk%u")) 10 [AInt i] = Ok (lit "dpdk" ++ ds, []).
Proof.
  intros Hi Hds Hd. set (S0 := mk_kst Text [] [AInt i] []).
  assert (run 10 (lit "dpdk%u") S0 =
    (t ← (l ← number (set_sign false no_flags) 10 false (u32 i); Ok (emit l Text [] (emit (lit "dpdk") Text [AInt i] S0))); Ok t)) as E by reflexivity.
  unfold kvprintf. change ((10 <? 2) || (36 <? 10)) with false. cbn [default from_option id]. cbv iota. fold S0.
  rewrite E, wrap_u_id, (number_unsigned i ds) by (done || lia). cbn [mbind result_bind emit k_mode k_out k_vars S0].
  change ([] ++ (u8 <$> lit "dpdk")) with (lit "dpdk"). do 3 f_equal. rewrite <- (list_fmap_id ds) at 2. apply Forall_fmap_ext.
  eapply Forall_impl; [exact Hd |]. intros c Hc. cbn beta in Hc. destruct (digit_val_dec c Hc) as [_ Ec].
  change (u8 c = c). apply wrap_u_id. lia.
Qed.

(** The digits of a 32-bit number fit the name. *)
Lemma numeral_short n ds : 0 <= n < 10 ^ 10 → numeral 10 n ds → (length ds <= 10)%nat.
Proof.
  intros Hn (Hv & Hl & Hd & Hlead). destruct ds as [| c t]; [cbn; lia |].
  apply Forall_cons in Hd as [Hc Ht].
  assert (∀ t m, 0 <= m → Forall (fun c => 0 <= digit_val c < 10) t →
    m * 10 ^ Z.of_nat (length t) <= foldl (fun n c => n * 10 + digit_val c) m t) as Hge.
  { clear. induction t as [| c t IH]; intros m Hm Ht; cbn [foldl length]; [lia |].
    apply Forall_cons in Ht as [Hc Ht]. specialize (IH (m * 10 + digit_val c) ltac:(lia) Ht).
    rewrite Nat2Z.inj_succ, Z.pow_succ_r by lia. assert (0 < 10 ^ Z.of_nat (length t)) by (apply Z.pow_pos_nonneg; lia). nia. }
  destruct (decide (digit_val c = 0)) as [E | E]; [destruct (Hlead c t eq_refl E) as [_ ->]; cbn; lia |].
  unfold value in Hv. cbn [foldl] in Hv. specialize (Hge t (0 * 10 + digit_val c) ltac:(lia) Ht).
  assert (10 ^ Z.of_nat (length t) < 10 ^ 10) as Hp.
  { assert (0 < 10 ^ Z.of_nat (length t)) by (apply Z.pow_pos_nonneg; lia). nia. }
  apply Z.pow_lt_mono_r_iff in Hp; [cbn; lia | lia | lia].
Qed.

Lemma dpdk_name_spec i :
  0 <= i < 2 ^ 32 → ∃ ds, DpdkAttach.dpdk_name i = Ok (lit "dpdk" ++ ds) ∧ numeral 10 i ds.
Proof.
  intros Hi. destruct (ksprintn_spec i 10 false) as (ds & Eds & Hds); [lia | lia |]. exists ds. split; [| done].
  pose proof (numeral_short i ds ltac:(lia) Hds) as Hlen. unfold DpdkAttach.dpdk_name, snprintf, vsnprintf, vsnrprintf.
  rewrite (kvprintf_dpdk i ds Hi Eds) by apply Hds. cbn [mbind result_bind].
  rewrite snprintf_fold by done. set (o := lit "dpdk" ++ ds).
  assert (length o <= 14)%nat as Ho by (unfold o; rewrite length_app; cbn; lia).
  cbn [written remain app]. rewrite (proj2 (Z.leb_le 1 _)) by lia. rewrite take_ge by (unfold Dpdk.IF_NAMESIZE; lia).
  f_equal. apply removelast_last.
Qed.

Definition dpdk_drv_name (i : Z) : str := match DpdkAttach.dpdk_name i with Ok s => s | Fault _ => [] end.

Lemma dpdk_drv_name_inj i j :
  0 <= i < 2 ^ 32 → 0 <= j < 2 ^ 32 → dpdk_drv_name i = dpdk_drv_name j → i = j.
Proof.
  intros Hi Hj. unfold dpdk_drv_name. destruct (dpdk_name_spec i Hi) as (ds & -> & Hds & _).
  destruct (dpdk_name_spec j Hj) as (ds' & -> & Hds' & _). intros E. apply app_inv_head in E. congruence.
Qed.

(** Every softc holds what its interface uses. *)
Definition dpdk_ok (d : dpdk_drv) : Prop :=
  Forall (fun x => sc_held x.2 = DpdkAttach.running (DpdkAttach.uifsts e) (sc_thread x.2) (sc_config x.2)) (dd_softc d).

Lemma softc_of_ok name d sc :
  dpdk_ok d → softc_of name (dd_softc d) = Some sc →
  sc_held sc = DpdkAttach.running (DpdkAttach.uifsts e) (sc_thread sc) (sc_config sc).
Proof.
  unfold dpdk_ok. induction 1 as [| [n x] l Hx _ IH]; cbn [softc_of]; [done |].
  case_bool_decide; [by intros [= ->] | done].
Qed.

Lemma dpdk_attach_law u d err u' d' :
  0 <= dd_count d < 2 ^ 32 - 1 → dpdk_attach e u d = Ok (err, u', d') →
  uif_alias u' = uif_alias u ∧ uif_type u' = uif_type u ∧
  dd_count d <= dd_count d' <= dd_count d + 1 ∧
  (err = 0 → uif_name u' = dpdk_drv_name (dd_count d) ∧ dd_count d' = dd_count d + 1) ∧
  (dpdk_ok d → dpdk_ok d').
Proof.
  intros Hc E. unfold dpdk_attach in E.
  destruct (DpdkAttach.if_dpdk_attach e (uif_configstr u) (uif_use_file_io_thread u) (DpdkAttach.mk_att [] (dd_count d)))
    as [[[[er name] c] a] |] eqn:Ea; [| done]. cbn [mbind result_bind] in E. simplify_eq.
  split; [done |]. split; [done |].
  destruct (uif_configstr u) as [cs |]; cbn [dd_count].
  2: { cbn in Ea. unfold mret, M_ret in Ea. simplify_eq. cbn. split_and!; [lia | lia | done |]. done. }
  destruct (DpdkAttach.post_attach _ _ _ _ _ _ _ _ Ea) as [Hname Hcount]. cbn [DpdkAttach.interface_count] in Hname, Hcount.
  rewrite Hcount, wrap_u_id by lia. split; [lia |]. split.
  - intros _. split; [| done]. cbn. unfold dpdk_drv_name. by rewrite Hname.
  - intros Hok. unfold dpdk_ok. cbn [dd_softc]. destruct (Z.eqb_spec err 0) as [-> |]; [| done].
    constructor; [| done]. cbn. by eapply DpdkAttach.attach_success.
Qed.

Lemma dpdk_detach_law u d :
  dpdk_ok d → ∃ err d', dpdk_detach e u d = Ok (err, d') ∧ dd_count d' = dd_count d ∧ dpdk_ok d'.
Proof.
  intros Hok. unfold dpdk_detach. destruct (softc_of (uif_name u) (dd_softc d)) as [sc |] eqn:Es.
  - rewrite (softc_of_ok _ _ _ Hok Es), DpdkAttach.detach_leaves. eexists _, _. split; [reflexivity |]. split; [done |].
    unfold dpdk_ok in *. rewrite Forall_forall in Hok |- *. intros x [_ Hx]%list_elem_of_filter. by apply Hok.
  - by eexists _, _.
Qed.

#[export] Instance dpdk_laws : @IfDriverLaws dpdk_drv (dpdk_driver e) :=
  @Build_IfDriverLaws dpdk_drv (dpdk_driver e) dd_count dpdk_drv_name dpdk_ok
    dpdk_drv_name_inj dpdk_attach_law dpdk_detach_law.

End DpdkLaws.

(** ** Witnesses *)

Definition ex_env : DpdkAttach.surroundings := DpdkAttach.mk_sur (fun _ => true) (fun _ => KThread.KThread.Created 7) true false.

#[local] Existing Instance dpdk_driver.
#[local] Existing Instance dpdk_laws.

Definition ex_reg0 : registry dpdk_drv := mk_reg ∅ [] (mk_ddrv 0 []).
Definition ex_cfg (alias : string) : uinet_if_cfg :=
  mk_cfg UINET_IFTYPE_DPDK (Some (String.list_ascii_of_string "eth0")) (Some (lit alias)) 0 0 32 64 0 false.

Lemma ex_reg0_ok : @reg_ok _ (dpdk_driver ex_env) (dpdk_laws ex_env) ex_reg0.
Proof. split; try done; cbn; [constructor | | constructor]. intros p. split; [by intros ?%not_elem_of_nil | by intros []]. Qed.

Definition ex_created : result ((Z * option nat) * registry dpdk_drv) :=
  @uinet_ifcreate _ (dpdk_driver ex_env) (Some 5%nat) None (ex_cfg "wan") ex_reg0.

(** What the driver answers. *)
Definition ex_answer : Z * uinet_if * dpdk_drv :=
  match @drv_attach _ (dpdk_driver ex_env) (requested None (ex_cfg "wan")) (mk_ddrv 0 []) with
  | Ok x => x
  | Fault _ => (ENXIO, new_uif (ex_cfg ""), mk_ddrv 0 [])
  end.

Lemma ex_granted : @granted _ None (ex_cfg "wan") ex_answer.1.1 ex_reg0.
Proof.
  split; [| split; [done | split; [done | vm_compute; reflexivity]]]. split; [vm_compute; reflexivity |].
  intros _ p u Hu. change (r_ifs ex_reg0) with (∅ : gmap nat uinet_if) in Hu. by rewrite lookup_empty in Hu.
Qed.

Lemma uinet_ifcreate_find_witness : ∃ o r,
  ex_created = Ok ((0, o), r) ∧
  uinet_iffind_byname (lit "wan") r = Ok (Some 5%nat, r) ∧
  uinet_iffind_byname (uif_name ex_answer.1.2) r = Ok (Some 5%nat, r).
Proof.
  destruct (@uinet_ifcreate_find _ (dpdk_driver ex_env) (dpdk_laws ex_env) 5 None (ex_cfg "wan") ex_reg0
    ex_answer.1.1 ex_answer.1.2 ex_answer.2) as (e & o & r & E & _ & Hg & H);
    [exact ex_reg0_ok | reflexivity | cbn; lia | vm_compute; reflexivity |].
  pose proof (proj2 Hg ex_granted) as He. subst e. destruct (decide (0 = 0)) as [_ | Hne]; [| contradiction].
  destruct H as (-> & _ & _ & Ha & Hn & _). exists (Some 5%nat), r. split; [exact E |].
  split; [apply (Ha (lit "wan")); [reflexivity | discriminate] |].
  apply Hn. intros p v Hv. change (r_ifs ex_reg0) with (∅ : gmap nat uinet_if) in Hv. rewrite lookup_empty in Hv. discriminate.
Defined.

Lemma uinet_ifdestroy_undoes_witness : ∃ r' err r,
  ex_created = Ok ((0, Some 5%nat), r') ∧
  @uinet_ifdestroy _ (dpdk_driver ex_env) 5 r' = Ok (err, r) ∧ r_list r = [] ∧ r_ifs r = ∅.
Proof.
  destruct (@uinet_ifdestroy_undoes _ (dpdk_driver ex_env) (dpdk_laws ex_env) 5 None (ex_cfg "wan") ex_reg0
    ex_answer.1.1 ex_answer.1.2 ex_answer.2) as (r' & Ec & (err & r & E & _ & Hl & Hi) & _);
    [exact ex_reg0_ok | reflexivity | cbn; lia | vm_compute; reflexivity | exact ex_granted |].
  exists r', err, r. split; [exact Ec |]. split; [exact E |]. split; [exact Hl | exact Hi].
Defined.

(** An alias chosen before the driver gives that name hides the interface named so:
    the first interface is called "dpdk1", the second gets the name dpdk1 and cannot
    be found by it. *)
Definition created_reg (x : result ((Z * option nat) * registry dpdk_drv)) : registry dpdk_drv :=
  match x with Ok (_, r) => r | Fault _ => ex_reg0 end.
Definition ex_shadow1 : registry dpdk_drv :=
  created_reg (@uinet_ifcreate _ (dpdk_driver ex_env) (Some 5%nat) None (ex_cfg "dpdk1") ex_reg0).
Definition ex_shadow2 : registry dpdk_drv :=
  created_reg (@uinet_ifcreate _ (dpdk_driver ex_env) (Some 6%nat) None (ex_cfg "lan") ex_shadow1).

Lemma alias_shadows_name :
  @uinet_ifcreate _ (dpdk_driver ex_env) (Some 5%nat) None (ex_cfg "dpdk1") ex_reg0 = Ok ((0, Some 5%nat), ex_shadow1) ∧
  @uinet_ifcreate _ (dpdk_driver ex_env) (Some 6%nat) None (ex_cfg "lan") ex_shadow1 = Ok ((0, Some 6%nat), ex_shadow2) ∧
  uif_name <$> r_ifs ex_shadow2 !! 6%nat = Some (lit "dpdk1") ∧
  uinet_iffind_byname (lit "dpdk1") ex_shadow2 = Ok (Some 5%nat, ex_shadow2).
Proof. split_and!; vm_compute; reflexivity. Qed.

End IfRegistrySpec.
