(* ===== verification/Bridge.v ===== *)
(** The bridge and span interfaces (src/src/lib/libuinet/uinet_if_bridge.c and
    uinet_if_span.c, which differ in the option names, in the direction a member is
    given, and in that a span only receives): membership, the distribution of a
    received frame, and the parser of the configuration string. *)
From S2P Require Import Prelude Printf.
Import Printf.

Module Bridge.

Definition ENOENT : Z := 2.
Definition ENOMEM : Z := 12.
Definition EBUSY : Z := 16.
Definition EINVAL : Z := 22.
Definition ENOBUFS : Z := 55.
Definition IF_NAMESIZE : Z := 16.

Inductive kind : Type := BRIDGE | SPAN.

(** ** Data *)

(** What the member code uses of a [struct ifnet]: its references, the bridge it is
    in, and whether it can be, and is, promiscuous. *)
Record ifnet : Type := mk_ifnet {
  if_refs : Z; if_bridge : option nat; if_promisc_ok : bool; if_promisc : Z
}.

(** [struct if_bridge_member]; a direction that was not stored is [None]. *)
Record member : Type := mk_member { bif_ifp : nat; is_inside : option bool }.

(** The softc [sc]: its own interface, its members, its mutex, its address. *)
Record softc : Type := mk_sc { sc_ifp : nat; sc_iflist : list member; sc_locked : bool; sc_addr : list Z }.

(** The softc, the interfaces of the stack by number and by name, the frames
    transmitted, and those handed to an interface's input. *)
Record bst : Type := mk_bst {
  b_sc : softc; ifnets : gmap nat ifnet; ifunits : str → option nat;
  sent : list (nat * nat); received : list (nat * nat)
}.

Abbreviation B := (M bst).

Definition set_sc (v : softc) (s : bst) : bst := mk_bst v (ifnets s) (ifunits s) (sent s) (received s).
Definition set_ifnets (v : gmap nat ifnet) (s : bst) : bst := mk_bst (b_sc s) v (ifunits s) (sent s) (received s).

Definition lock_sc : B unit := fun s =>
  if sc_locked (b_sc s) then Fault Blocked
  else Ok (tt, set_sc (mk_sc (sc_ifp (b_sc s)) (sc_iflist (b_sc s)) true (sc_addr (b_sc s))) s).
Definition unlock_sc : B unit := fun s =>
  if sc_locked (b_sc s)
  then Ok (tt, set_sc (mk_sc (sc_ifp (b_sc s)) (sc_iflist (b_sc s)) false (sc_addr (b_sc s))) s)
  else Fault BadUnlock.

Definition get_ifnet (n : nat) : B ifnet := fun s =>
  match ifnets s !! n with Some i => Ok (i, s) | None => Fault BadPointer end.
Definition put_ifnet (n : nat) (i : ifnet) : B unit := modify (fun s => set_ifnets (<[n := i]> (ifnets s)) s).

Definition set_iflist (v : list member) : B unit :=
  modify (fun s => set_sc (mk_sc (sc_ifp (b_sc s)) v (sc_locked (b_sc s)) (sc_addr (b_sc s))) s).

(** [ifunit_ref] takes a reference, [if_rele] gives it back. *)
Definition ifunit_ref (name : str) : B (option nat) :=
  s ← get_st;
  match ifunits s name with
  | None => mret None
  | Some n =>
      i ← get_ifnet n;
      _ ← put_ifnet n (mk_ifnet (if_refs i + 1) (if_bridge i) (if_promisc_ok i) (if_promisc i));
      mret (Some n)
  end.
Definition if_rele (n : nat) : B unit :=
  i ← get_ifnet n; put_ifnet n (mk_ifnet (if_refs i - 1) (if_bridge i) (if_promisc_ok i) (if_promisc i)).

Definition ifpromisc (n : nat) : B Z :=
  i ← get_ifnet n;
  if if_promisc_ok i then
    _ ← put_ifnet n (mk_ifnet (if_refs i) (if_bridge i) (if_promisc_ok i) (if_promisc i + 1)); mret 0
  else mret EINVAL.

(** ** Frames *)

(** [dup] says for which members [m_dup] finds memory. *)
Definition if_bridge_input (dup : nat → bool) (ifp m : nat) : B unit :=
  _ ← lock_sc;
  s ← get_st;
  let out := List.filter (fun bif => negb (bool_decide (bif_ifp bif = ifp)) && dup (bif_ifp bif)) (sc_iflist (b_sc s)) in
  _ ← modify (fun s => mk_bst (b_sc s) (ifnets s) (ifunits s) (sent s ++ ((fun bif => (bif_ifp bif, m)) <$> out)) (received s));
  _ ← unlock_sc;
  modify (fun s => mk_bst (b_sc s) (ifnets s) (ifunits s) (sent s) (received s ++ [(sc_ifp (b_sc s), m)])).

Definition if_span_input (ifp m : nat) : B unit :=
  modify (fun s => mk_bst (b_sc s) (ifnets s) (ifunits s) (sent s) (received s ++ [(sc_ifp (b_sc s), m)])).

(** Both consume the frame. *)
Definition if_bridge_transmit (m : nat) : Z := ENOBUFS.
Definition if_bridge_output (m : nat) : Z := 0.

Definition IFF_DRV_RUNNING : Z := 0x40.
Definition IFF_DRV_OACTIVE : Z := 0x400.
Definition if_bridge_init (if_drv_flags : Z) : Z := clear_flag IFF_DRV_RUNNING IFF_DRV_OACTIVE.
Definition if_bridge_stop (if_drv_flags : Z) : Z :=
  clear_flag if_drv_flags (Z.lor IFF_DRV_RUNNING IFF_DRV_OACTIVE).
Definition if_bridge_ioctl (if_up : bool) (if_drv_flags : Z) : Z :=
  if if_up then if_bridge_init if_drv_flags
  else if has_flag if_drv_flags IFF_DRV_RUNNING then if_bridge_stop if_drv_flags else if_drv_flags.

(** ** Members *)

Definition if_bridge_existsm_locked (sc : softc) (nifp : nat) : bool :=
  existsb (fun bif => bool_decide (bif_ifp bif = nifp)) (sc_iflist sc).

(** The label [fail]. *)
Definition addm_fail (nifp : nat) (error : Z) : B Z := _ ← unlock_sc; _ ← if_rele nifp; mret error.

(** [me] is the address of the softc; [mem] says that [malloc] succeeds. *)
Definition if_bridge_addm (me : nat) (mem : bool) (ifname : str) (isin : option bool) : B Z :=
  o ← ifunit_ref ifname;
  match o with
  | None => mret ENOENT
  | Some nifp =>
      _ ← lock_sc;
      sc ← gets b_sc;
      if if_bridge_existsm_locked sc nifp then addm_fail nifp EINVAL
      else
        i ← get_ifnet nifp;
        if bool_decide (is_Some (if_bridge i)) then addm_fail nifp EBUSY
        else if negb mem then addm_fail nifp ENOMEM
        else
          _ ← set_iflist (mk_member nifp None :: sc_iflist sc);
          _ ← put_ifnet nifp (mk_ifnet (if_refs i) (Some me) (if_promisc_ok i) (if_promisc i));
          _ ← unlock_sc;
          error ← ifpromisc nifp;
          if negb (error =? 0) then
            _ ← lock_sc; _ ← set_iflist (sc_iflist sc); _ ← unlock_sc;
            addm_fail nifp EINVAL
          else
            _ ← set_iflist (mk_member nifp isin :: sc_iflist sc);
            mret 0
  end.

(** ** The configuration string *)

(** [strsep(&s, delim)] repeated: the pieces between the delimiters. *)
Fixpoint split_at (d : Z) (s : str) : list str :=
  match s with
  | [] => [[]]
  | c :: t =>
      if c =? d then [] :: split_at d t
      else match split_at d t with p :: ps => (c :: p) :: ps | [] => [[c]] end
  end.

Definition comma : Z := 44.
Definition equals : Z := 61.

(** An option with a member, and its direction. *)
Definition member_option (k : kind) (a : str) : option (option bool) :=
  match k with
  | BRIDGE => if bool_decide (a = lit "ifin") then Some (Some true)
              else if bool_decide (a = lit "ifout") then Some (Some false) else None
  | SPAN => if bool_decide (a = lit "if") then Some None else None
  end.

(** [i_ether_aton_r]; [sscanf] gives the numbers it converts. *)
Definition i_ether_aton_r (sscanf : str → list Z) (a : str) : option (list Z) :=
  let o := sscanf a in if Z.of_nat (length o) =? 6 then Some (u8 <$> o) else None.

Definition set_addr (v : list Z) : B unit :=
  modify (fun s => set_sc (mk_sc (sc_ifp (b_sc s)) (sc_iflist (b_sc s)) (sc_locked (b_sc s)) v) s).

(** [free(ss)]: after two pieces [ss] is NULL, or points into the copy. *)
Definition free_rest (pieces : list str) : B unit :=
  if (2 <? Z.of_nat (length pieces)) then faultM BadPointer else mret ().

(** The label [fail]: [cstr] is NULL, or points into the copy, once a chunk has been
    taken off it. *)
Definition attach_fail (todo : list str) (error : Z) : B Z :=
  match todo with [] => mret error | _ => faultM BadPointer end.

(** What the attachment asks of its surroundings: which allocations succeed, the
    interface [if_alloc] gives, three random bytes, and [sscanf]. *)
Record attach_env : Type := mk_env {
  strdup_ok : bool; softc_ok : bool; if_alloc : option nat; arc4random : list Z;
  chunk_ok : bool; member_ok : bool; sscanf : str → list Z
}.

(** The loop over the chunks; the result is the error, and whether the loop came to
    its end. *)
Fixpoint attach_loop (k : kind) (e : attach_env) (me : nat) (chunks : list str) : B (Z * bool) :=
  match chunks with
  | [] => mret (0, true)
  | s :: todo =>
      if negb (chunk_ok e) then err ← attach_fail todo ENOMEM; mret (err, false)
      else
        match split_at equals s with
        | a :: v :: r =>
            match member_option k a with
            | Some isin =>
                _ ← if_bridge_addm me (member_ok e) v isin;
                _ ← free_rest (a :: v :: r); attach_loop k e me todo
            | None =>
                if bool_decide (a = lit "mac") then
                  _ ← match i_ether_aton_r (sscanf e) v with Some ea => set_addr ea | None => mret () end;
                  _ ← free_rest (a :: v :: r); attach_loop k e me todo
                else
                  _ ← free_rest (a :: v :: r);
                  err ← attach_fail todo 0; mret (err, false)
            end
        | _ => err ← attach_fail todo ENOMEM; mret (err, false)
        end
  end.

(** [snprintf(uif->name, sizeof(uif->name), "bridge%u", bridge_if_count)]. *)
Definition unit_name (k : kind) (count : Z) : result str :=
  '(_, bytes) ← snprintf IF_NAMESIZE (Some (match k with BRIDGE => lit "bridge%u" | SPAN => lit "span%u" end)) [AInt count];
  Ok (removelast bytes).

(** [sc] set up, with no members. *)
Definition new_sc (e : attach_env) (ifp : nat) : softc :=
  mk_sc ifp [] false ([0x62; 0x73; 0x64] ++ (u8 <$> arc4random e)).

(** The result is the error, whether the interface was attached to the stack, the name
    it was given and the new [bridge_if_count]. *)
Definition if_bridge_attach (k : kind) (e : attach_env) (me : nat) (configstr : option str) (count : Z)
    : B (Z * bool * str * Z) :=
  match configstr with
  | None => mret (EINVAL, false, [], count)
  | Some cs =>
      if negb (strdup_ok e && softc_ok e) then mret (ENOMEM, false, [], count)
      else
        name ← liftR (unit_name k count);
        let count := u32 (count + 1) in
        match if_alloc e with
        | None => mret (ENOMEM, false, name, count)
        | Some ifp =>
            _ ← modify (set_sc (new_sc e ifp));
            '(error, attached) ← attach_loop k e me (split_at comma cs);
            mret (error, attached, name, count)
        end
  end.

Definition if_bridge_detach : Z := 0.

End Bridge.
