(* ===== verification/BridgeSpec.v ===== *)
(** Properties of the bridge: membership stays consistent, frames go to every other
    member once, and what the configuration parser accepts and does. *)
From S2P Require Import Prelude Printf Bridge.
Import Printf Bridge.

Module BridgeSpec.

(** The bridge [me]: no interface is a member twice, every member exists and points
    back to the bridge, no other interface does, and the mutex is free. *)
Record bridge_ok (me : nat) (s : bst) : Prop := {
  bo_nodup : NoDup (bif_ifp <$> sc_iflist (b_sc s));
  bo_member : ∀ n, n ∈ bif_ifp <$> sc_iflist (b_sc s) ↔ ∃ i, ifnets s !! n = Some i ∧ if_bridge i = Some me;
  bo_free : sc_locked (b_sc s) = false;
  bo_units : ∀ name n, ifunits s name = Some n → is_Some (ifnets s !! n)
}.

(** The members as [if_bridge_existsm_locked] sees them. *)
Lemma existsm_spec sc n : if_bridge_existsm_locked sc n = bool_decide (n ∈ bif_ifp <$> sc_iflist sc).
Proof.
  unfold if_bridge_existsm_locked. induction (sc_iflist sc) as [| b l IH]; cbn; [done |]. rewrite IH.
  destruct (decide (bif_ifp b = n)) as [<- | Hne].
  - rewrite bool_decide_true by done. cbn. symmetry. apply bool_decide_eq_true. by left.
  - rewrite bool_decide_false by done. cbn. apply bool_decide_ext. rewrite elem_of_cons. naive_solver.
Qed.

(** A frame that arrives on a member of a bridge is sent once to every other member
    for which a copy can be made, never back to where it came from, in the order of
    the list, and is handed to the bridge's own interface; membership, the other
    frames and the mutex are not touched. *)
Theorem if_bridge_input_floods (me : nat) (dup : nat → bool) (ifp m : nat) (s : bst) :
  bridge_ok me s →
  ∃ out, if_bridge_input dup ifp m s =
      Ok (tt, mk_bst (b_sc s) (ifnets s) (ifunits s) (sent s ++ ((fun n => (n, m)) <$> out)) (received s ++ [(sc_ifp (b_sc s), m)])) ∧
    NoDup out ∧ out `sublist_of` (bif_ifp <$> sc_iflist (b_sc s)) ∧
    ∀ n, n ∈ out ↔ n ∈ bif_ifp <$> sc_iflist (b_sc s) ∧ n ≠ ifp ∧ dup n = true.
Proof.
  intros [Hnd _ Hfree _]. set (keep := fun bif => negb (bool_decide (bif_ifp bif = ifp)) && dup (bif_ifp bif)).
  exists (bif_ifp <$> List.filter keep (sc_iflist (b_sc s))).
  assert ((bif_ifp <$> List.filter keep (sc_iflist (b_sc s))) `sublist_of` (bif_ifp <$> sc_iflist (b_sc s))) as Hsub.
  { induction (sc_iflist (b_sc s)) as [| b l IH]; cbn; [constructor |].
    apply NoDup_cons in Hnd as [_ Hnd]. specialize (IH Hnd). destruct (keep b); cbn; by constructor. }
  split_and!.
  - unfold if_bridge_input. erewrite M_bind_Ok by (unfold lock_sc; by rewrite Hfree).
    do 2 (erewrite M_bind_Ok by reflexivity; cbn beta). erewrite M_bind_Ok by reflexivity. cbn.
    unfold modify, set_sc. cbn. fold keep. rewrite <- list_fmap_compose.
    destruct s as [[] ? ? ? ?]. cbn in *. by subst.
  - by eapply sublist_NoDup.
  - done.
  - intros n. rewrite !list_elem_of_fmap. split.
    + intros (b & -> & [Hb Hk]%list_elem_of_In%filter_In). apply andb_prop in Hk as [H1 H2].
      apply negb_true_iff, bool_decide_eq_false in H1. split; [| done]. exists b. split; [done | by apply list_elem_of_In].
    + intros ((b & -> & Hb) & Hne & Hd). exists b. split; [done |]. apply list_elem_of_In, filter_In.
      split; [by apply list_elem_of_In |]. unfold keep. by rewrite bool_decide_false, Hd by done.
Qed.

(** ** Members *)

Lemma lock_sc_ok s : sc_locked (b_sc s) = false →
  lock_sc s = Ok (tt, set_sc (mk_sc (sc_ifp (b_sc s)) (sc_iflist (b_sc s)) true (sc_addr (b_sc s))) s).
Proof. intros H. unfold lock_sc. by rewrite H. Qed.

(** The state after a member was added. *)
Definition joined (me n : nat) (i : ifnet) (isin : option bool) (s : bst) : bst :=
  mk_bst (mk_sc (sc_ifp (b_sc s)) (mk_member n isin :: sc_iflist (b_sc s)) false (sc_addr (b_sc s)))
    (<[n := mk_ifnet (if_refs i + 1) (Some me) (if_promisc_ok i) (if_promisc i + 1)]> (ifnets s))
    (ifunits s) (sent s) (received s).

Lemma joined_ok me n i isin s :
  bridge_ok me s → ifnets s !! n = Some i → if_bridge i = None → bridge_ok me (joined me n i isin s).
Proof.
  intros [H1 H2 H3 H4] Hn Hb. split; cbn [joined b_sc sc_iflist ifnets ifunits sc_locked].
  - rewrite fmap_cons. constructor; [| done]. intros Hin. apply H2 in Hin as (i' & Hi' & Hb'). cbn in Hi'. rewrite Hn in Hi'. injection Hi' as <-. by rewrite Hb in Hb'.
  - intros m. rewrite fmap_cons, elem_of_cons, H2, lookup_insert. cbn. case_decide; naive_solver.
  - done.
  - intros name m Hm. rewrite lookup_insert. case_decide; [by eexists | by eapply H4].
Qed.

(** The way out through [fail] undoes the reference. *)
Lemma addm_fail_ok s n i (e : Z) :
  sc_locked (b_sc s) = false → ifnets s !! n = Some i →
  addm_fail n e (set_sc (mk_sc (sc_ifp (b_sc s)) (sc_iflist (b_sc s)) true (sc_addr (b_sc s)))
    (set_ifnets (<[n := mk_ifnet (if_refs i + 1) (if_bridge i) (if_promisc_ok i) (if_promisc i)]> (ifnets s)) s)) = Ok (e, s).
Proof.
  intros Hf Hn. unfold addm_fail. erewrite M_bind_Ok by reflexivity. unfold if_rele.
  rewrite <- M_bind_assoc. erewrite M_bind_Ok by (unfold get_ifnet; cbn; by rewrite lookup_insert_eq). cbn beta.
  erewrite M_bind_Ok by reflexivity. unfold mret, M_ret, set_sc, set_ifnets. cbn.
  rewrite insert_insert_eq, Z.add_simpl_r, insert_id by (by destruct i).
  destruct s as [[] ? ? ? ?]. cbn in *. by subst.
Qed.

(** Adding a member by name, completely: an unknown name, an interface that is
    already in this bridge or in another one, and a lack of memory are each refused
    with their error and leave everything as it was, the reference taken on the way
    included.  An interface that can be made promiscuous becomes a member, counted
    and linked back, and the bridge stays consistent.  One that cannot leads to a
    second unlock of the mutex. *)
Theorem if_bridge_addm_spec (me : nat) (mem : bool) (ifname : str) (isin : option bool) (s : bst) :
  bridge_ok me s →
  match ifunits s ifname with
  | None => if_bridge_addm me mem ifname isin s = Ok (ENOENT, s)
  | Some n => ∃ i, ifnets s !! n = Some i ∧
      if decide (n ∈ bif_ifp <$> sc_iflist (b_sc s)) then if_bridge_addm me mem ifname isin s = Ok (EINVAL, s)
      else if decide (if_bridge i = None) then
        if mem then
          if if_promisc_ok i then
            if_bridge_addm me mem ifname isin s = Ok (0, joined me n i isin s) ∧ bridge_ok me (joined me n i isin s)
          else if_bridge_addm me mem ifname isin s = Fault BadUnlock
        else if_bridge_addm me mem ifname isin s = Ok (ENOMEM, s)
      else if_bridge_addm me mem ifname isin s = Ok (EBUSY, s)
  end.
Proof.
  intros Hok. pose proof Hok as [H1 H2 H3 H4]. unfold if_bridge_addm, ifunit_ref.
  destruct (ifunits s ifname) as [n |] eqn:En.
  2: { rewrite <- M_bind_assoc. erewrite M_bind_Ok by reflexivity. cbn beta. rewrite En. by erewrite M_bind_Ok by reflexivity. }
  destruct (H4 _ _ En) as [i Hn]. exists i. split; [done |].
  rewrite <- M_bind_assoc. erewrite M_bind_Ok by reflexivity. cbn beta. rewrite En.
  rewrite <- M_bind_assoc. erewrite M_bind_Ok by (unfold get_ifnet; by rewrite Hn). cbn beta.
  rewrite <- M_bind_assoc. erewrite M_bind_Ok by reflexivity. cbn beta.
  erewrite M_bind_Ok by reflexivity. cbn beta iota.
  erewrite M_bind_Ok by (apply lock_sc_ok; done). cbn beta.
  erewrite M_bind_Ok by reflexivity. cbn beta. rewrite existsm_spec. cbn [b_sc set_sc sc_iflist set_ifnets].
  case_decide as Hin.
  { rewrite bool_decide_true by done. by apply addm_fail_ok. }
  rewrite bool_decide_false by done.
  erewrite M_bind_Ok by (unfold get_ifnet; cbn; by rewrite lookup_insert_eq). cbn beta. cbn [if_bridge].
  case_decide as Hb.
  2: { rewrite bool_decide_true by (by apply not_eq_None_Some). by apply addm_fail_ok. }
  rewrite bool_decide_false by (rewrite Hb; by intros []). destruct mem; cbn [negb]; [| by apply addm_fail_ok].
  do 3 (erewrite M_bind_Ok by reflexivity; cbn beta). unfold ifpromisc. cbn [if_promisc_ok].
  rewrite <- M_bind_assoc. erewrite M_bind_Ok by (unfold get_ifnet; cbn; by rewrite lookup_insert_eq). cbn beta.
  cbn [if_promisc_ok]. destruct (if_promisc_ok i) eqn:Ep.
  - split; [| by apply joined_ok]. rewrite <- M_bind_assoc. erewrite M_bind_Ok by reflexivity. cbn beta.
    do 2 (erewrite M_bind_Ok by reflexivity; cbn [negb Z.eqb]). unfold mret, M_ret, joined, set_sc, set_ifnets. cbn.
    by rewrite !insert_insert_eq, Ep.
  - erewrite M_bind_Ok by reflexivity. cbn. done.
Qed.

(** ** The configuration string *)

Section Attach.

Context (k : kind) (e : attach_env) (me : nat) (s : bst) (count : Z) (name : str) (ifp : nat).
Hypothesis (Hmem : strdup_ok e && softc_ok e = true) (Hchunk : chunk_ok e = true)
  (Hifp : if_alloc e = Some ifp) (Hname : unit_name k count = Ok name).

(** The attachment from the configuration string on. *)
Lemma attach_parse cs :
  if_bridge_attach k e me (Some cs) count s =
    match attach_loop k e me (split_at comma cs) (set_sc (new_sc e ifp) s) with
    | Ok ((error, attached), s') => Ok ((error, attached, name, u32 (count + 1)), s')
    | Fault f => Fault f
    end.
Proof.
  unfold if_bridge_attach. rewrite Hmem, Hifp. cbn [negb].
  erewrite M_bind_Ok by (unfold liftR; by rewrite Hname). cbv zeta. erewrite M_bind_Ok by reflexivity.
  unfold mbind, M_bind at 1. by destruct attach_loop as [[[??]?] |].
Qed.

(** An option that is not known ends the attachment with error 0, so that the caller
    takes the interface for attached although its softc has been freed. *)
Lemma attach_unknown_option :
  if_bridge_attach k e me (Some (lit "mtu=9000")) count s =
    Ok ((0, false, name, u32 (count + 1)), set_sc (new_sc e ifp) s).
Proof.
  rewrite attach_parse. change (split_at comma (lit "mtu=9000")) with [lit "mtu=9000"].
  cbn [attach_loop]. rewrite Hchunk. by destruct k.
Qed.

(** A chunk without a value before the end of the string frees a pointer into the
    copy. *)
Lemma attach_bad_chunk : if_bridge_attach k e me (Some (lit "ifin,ifout=em1")) count s = Fault BadPointer.
Proof.
  rewrite attach_parse. change (split_at comma (lit "ifin,ifout=em1")) with [lit "ifin"; lit "ifout=em1"].
  cbn [attach_loop]. rewrite Hchunk. by destruct k.
Qed.

End Attach.

(** ** Witnesses *)

Definition ex_bridge : bst :=
  mk_bst (mk_sc 9 [mk_member 2 (Some false); mk_member 1 (Some true)] false [])
    (<[1%nat := mk_ifnet 1 (Some 7%nat) true 1]> (<[2%nat := mk_ifnet 1 (Some 7%nat) true 1]>
      (<[3%nat := mk_ifnet 0 None true 0]> ∅)))
    (fun name => if bool_decide (name = lit "em3") then Some 3%nat else None) [] [].

Lemma ex_bridge_ok : bridge_ok 7 ex_bridge.
Proof.
  split; cbn.
  - apply (bool_decide_unpack _). vm_compute. exact I.
  - intros n. rewrite !elem_of_cons. split.
    + intros [-> | [-> | ?%not_elem_of_nil]]; [eexists; split; [reflexivity | done].. | done].
    + intros (i & Hi & Hb). apply lookup_insert_Some in Hi as [[<- <-] | [_ Hi]]; [by auto |].
      apply lookup_insert_Some in Hi as [[<- <-] | [_ Hi]]; [by auto |].
      apply lookup_insert_Some in Hi as [[<- <-] | [_ Hi]]; [done |]. by rewrite lookup_empty in Hi.
  - done.
  - intros name n. case_bool_decide; [| done]. intros [= <-]. by eexists.
Qed.

Lemma if_bridge_input_floods_witness : ∃ out,
  if_bridge_input (fun _ => true) 1 44 ex_bridge =
    Ok (tt, mk_bst (b_sc ex_bridge) (ifnets ex_bridge) (ifunits ex_bridge) ((fun n => (n, 44%nat)) <$> out) [(9, 44)]%nat) ∧ 2%nat ∈ out.
Proof.
  destruct (if_bridge_input_floods 7 (fun _ => true) 1 44 ex_bridge ex_bridge_ok) as (out & E & _ & _ & H).
  exists out. split; [exact E |]. apply H. split; [by left | done].
Defined.

Lemma if_bridge_addm_spec_witness : ∃ s', if_bridge_addm 7 true (lit "em3") (Some false) ex_bridge = Ok (0, s') ∧ bridge_ok 7 s'.
Proof.
  destruct (if_bridge_addm_spec 7 true (lit "em3") (Some false) ex_bridge ex_bridge_ok) as (i & Hi & H).
  eexists. change (ifnets ex_bridge !! 3%nat) with (Some (mk_ifnet 0 None true 0)) in Hi. injection Hi as <-. exact H.
Defined.

End BridgeSpec.
