(* ===== verification/Promisc.v ===== *)
(** The link-layer identity of promiscuous sockets (src/src/sys/netinet/in_promisc.c
    and .h, with the wrappers of src/src/lib/libuinet/uinet_api.c): addresses, the
    stack of VLAN tags with its comparison and hash, and the parser of addresses.
    Words are integers with the wrap-around of the C types written out. *)
From S2P Require Import Prelude Printf Kenv.
Import Printf Kenv.

Module Promisc.

Definition IN_L2INFO_MAX_TAGS : Z := 16.
Definition ETHER_ADDR_LEN : Z := 6.
Definition INL2I_TAG_ANY : Z := 1.
Definition ULONG_MAX : Z := 2 ^ 64 - 1.
Definition EINVAL : Z := 22.

(** ** Data *)

(** The arrays hold [IN_L2INFO_MAX_TAGS] words; [inl2t_cnt] says how many are used. *)
Record in_l2tagstack : Type := mk_tags { inl2t_cnt : Z; inl2t_masks : list Z; inl2t_tags : list Z }.

Record in_l2info : Type := mk_l2i {
  inl2i_local_addr : list Z; inl2i_foreign_addr : list Z; inl2i_flags : Z; inl2i_tagstack : in_l2tagstack
}.

(** What the arrays and the 16-bit count can hold. *)
Definition arr_u32 (l : list Z) : Prop :=
  length l = Z.to_nat IN_L2INFO_MAX_TAGS ∧ Forall (fun w => 0 <= w < 2 ^ 32) l.
Record tags_wf (ts : in_l2tagstack) : Prop := {
  tw_cnt : 0 <= inl2t_cnt ts <= IN_L2INFO_MAX_TAGS;
  tw_masks : arr_u32 (inl2t_masks ts);
  tw_tags : arr_u32 (inl2t_tags ts)
}.

Definition zero_addr : list Z := replicate 6 0.
Definition zero_tags : in_l2tagstack := mk_tags 0 (replicate 16 0) (replicate 16 0).
Definition zero_l2info : in_l2info := mk_l2i zero_addr zero_addr 0 zero_tags.

(** ** Copies *)

Definition in_promisc_l2tagstack_copy (src : in_l2tagstack) : in_l2tagstack := src.

(** What [*dst] holds after the call. *)
Definition in_promisc_l2info_copy (src : in_l2info) : in_l2info :=
  mk_l2i (inl2i_local_addr src) (inl2i_foreign_addr src) (inl2i_flags src)
    (in_promisc_l2tagstack_copy (inl2i_tagstack src)).

Definition in_promisc_l2info_copy_swap (src : in_l2info) : in_l2info :=
  mk_l2i (inl2i_foreign_addr src) (inl2i_local_addr src) (inl2i_flags src)
    (in_promisc_l2tagstack_copy (inl2i_tagstack src)).

(** ** Comparison *)

Definition idx (l : list Z) (i : nat) : result Z :=
  match l !! i with Some w => Ok w | None => Fault OutOfBounds end.

(** [while (tagcnt && !masks[i]) { tagcnt--; i++; }] *)
Fixpoint skip_zero (masks : list Z) (tagcnt i : nat) : result (nat * nat) :=
  match tagcnt with
  | O => Ok (O, i)
  | S n => m ← idx masks i; if m =? 0 then skip_zero masks n (S i) else Ok (tagcnt, i)
  end.

(** The loop of [in_promisc_tagcmp]; each turn takes a tag of the first stack. *)
Fixpoint tagcmp_loop (fuel : nat) (ts1 ts2 : in_l2tagstack) (tagcnt1 i1 tagcnt2 i2 : nat) : result Z :=
  match fuel with
  | O => Fault Blocked
  | S fuel =>
      '(tagcnt1, i1) ← skip_zero (inl2t_masks ts1) tagcnt1 i1;
      '(tagcnt2, i2) ← skip_zero (inl2t_masks ts2) tagcnt2 i2;
      match tagcnt1, tagcnt2 with
      | O, O => Ok 0
      | O, S _ | S _, O => Ok 1
      | S n1, S n2 =>
          t1 ← idx (inl2t_tags ts1) i1; m1 ← idx (inl2t_masks ts1) i1;
          t2 ← idx (inl2t_tags ts2) i2; m2 ← idx (inl2t_masks ts2) i2;
          if negb (Z.land t1 m1 =? Z.land t2 m2) then Ok 1
          else tagcmp_loop fuel ts1 ts2 n1 (S i1) n2 (S i2)
      end
  end.

(** A NULL stack counts no tags. *)
Definition in_promisc_tagcmp (l2ts1 l2ts2 : option in_l2tagstack) : result Z :=
  let tagcnt1 := match l2ts1 with Some ts => inl2t_cnt ts | None => 0 end in
  let tagcnt2 := match l2ts2 with Some ts => inl2t_cnt ts | None => 0 end in
  if u32 (tagcnt1 + tagcnt2) =? 0 then Ok 0
  else tagcmp_loop (S (Z.to_nat tagcnt1)) (default zero_tags l2ts1) (default zero_tags l2ts2)
         (Z.to_nat tagcnt1) 0 (Z.to_nat tagcnt2) 0.

Definition uinet_l2tagstack_cmp (ts1 ts2 : option in_l2tagstack) : result Z := in_promisc_tagcmp ts1 ts2.

(** ** Hash *)

Definition rotl32 (x r : Z) : Z := Z.lor (u32 (Z.shiftl x r)) (Z.shiftr x (32 - r)).

Definition fmix32 (h : Z) : Z :=
  let h := Z.lxor h (Z.shiftr h 16) in
  let h := u32 (h * 0x85ebca6b) in
  let h := Z.lxor h (Z.shiftr h 13) in
  let h := u32 (h * 0xc2b2ae35) in
  Z.lxor h (Z.shiftr h 16).

Definition c1 : Z := 0xcc9e2d51.
Definition c2 : Z := 0x1b873593.

(** What one block does to [h1]. *)
Definition hash_block (k1 h1 : Z) : Z :=
  let k1 := u32 (k1 * c1) in
  let k1 := rotl32 k1 15 in
  let k1 := u32 (k1 * c2) in
  let h1 := Z.lxor h1 k1 in
  let h1 := rotl32 h1 13 in
  u32 (u32 (h1 * 5) + 0xe6546b64).

(** The loop over the [n] blocks from block [i]; [nblocks] loses the ignored ones. *)
Fixpoint hash_loop (key masks : list Z) (n i : nat) (h1 nblocks : Z) : result (Z * Z) :=
  match n with
  | O => Ok (h1, nblocks)
  | S n =>
      m ← idx masks i;
      if negb (m =? 0) then
        k ← idx key i; hash_loop key masks n (S i) (hash_block (Z.land k m) h1) nblocks
      else hash_loop key masks n (S i) h1 (nblocks - 1)
  end.

Definition in_promisc_hash32 (key masks : list Z) (nblocks seed : Z) : result Z :=
  '(h1, nblocks) ← hash_loop key masks (Z.to_nat nblocks) 0 seed nblocks;
  Ok (fmix32 (Z.lxor h1 (u32 (Z.shiftl nblocks 2)))).

Definition uinet_l2tagstack_hash (ts : in_l2tagstack) : result Z :=
  if negb (inl2t_cnt ts =? 0) then in_promisc_hash32 (inl2t_tags ts) (inl2t_masks ts) (inl2t_cnt ts) 0 else Ok 0.

(** ** The socket option *)

(** [SO_L2INFO] of [sosetopt], for an internet socket of a kernel with
    PROMISCUOUS_INET: the error and what the socket's information becomes. *)
Definition so_set_l2info (l2info so_l2info : in_l2info) : Z * in_l2info :=
  if IN_L2INFO_MAX_TAGS <? inl2t_cnt (inl2i_tagstack l2info) then (EINVAL, so_l2info)
  else (0, in_promisc_l2info_copy l2info).

Definition so_get_l2info (so_l2info : in_l2info) : Z * in_l2info := (0, in_promisc_l2info_copy so_l2info).

Definition uinet_setl2info (l2i so_l2info : in_l2info) : Z * in_l2info := so_set_l2info l2i so_l2info.
Definition uinet_getl2info (so_l2info : in_l2info) : Z * in_l2info := so_get_l2info so_l2info.

Definition uinet_setl2info2 (local_addr foreign_addr : option (list Z)) (flags : Z)
    (tagstack : option in_l2tagstack) (so_l2info : in_l2info) : Z * in_l2info :=
  uinet_setl2info
    (mk_l2i (default zero_addr local_addr) (default zero_addr foreign_addr) flags (default zero_tags tagstack))
    so_l2info.

(** A connection inherits the listener's tags, and its flags without INL2I_TAG_ANY. *)
Definition in_promisc_socket_newconn (head so : in_l2info) : in_l2info :=
  mk_l2i (inl2i_local_addr so) (inl2i_foreign_addr so) (clear_flag (inl2i_flags head) INL2I_TAG_ANY)
    (in_promisc_l2tagstack_copy (inl2i_tagstack head)).

(** ** Addresses in text *)

(** [strtoul]: the value and, unless there are no digits and [*endptr] is [nptr], the
    string [*endptr] points to. *)
Definition strtoul (nptr : str) (base : Z) : Z * option str :=
  let '(neg, s) := take_sign (skip_space nptr) in
  let '(base, s) := take_base base s in
  let '(acc, any, rest) := strtoq_loop base (ULONG_MAX / base) (ULONG_MAX mod base) s 0 0 in
  let acc := if any <? 0 then ULONG_MAX else if neg then u64 (- acc) else acc in
  (acc, if any =? 0 then None else Some rest).

(** The loop from byte [i] of the address, with [n] to go; the bytes of [macout] from
    there on. *)
Fixpoint mac_loop (n : nat) (p : str) (macout : list Z) : Z * list Z :=
  match n, macout with
  | S n', m :: macout =>
      let '(v, endp) := strtoul p 16 in
      match endp with
      | None => (1, u8 v :: macout)
      | Some endp =>
          if negb (Nat.eqb (length p) (length endp + 2)) then (1, u8 v :: macout)
          else match n', endp with
          | S _, c :: p =>
              if c =? 58 then let '(r, out) := mac_loop n' p macout in (r, u8 v :: out)
              else (1, u8 v :: macout)
          | S _, [] => (1, u8 v :: macout)
          | O, [] => (0, u8 v :: macout)
          | O, _ :: _ => (1, u8 v :: macout)
          end
      end
  | _, _ => (0, macout)
  end.

(** The result and the six bytes of [macout] after the call. *)
Definition uinet_mac_aton (macstr : option str) (macout : list Z) : Z * list Z :=
  match macstr with
  | None | Some [] => (0, zero_addr)
  | Some p => mac_loop 6 p macout
  end.

End Promisc.
