(* ===== verification/PromiscSpec.v ===== *)
(** Properties of the link-layer identity: the comparison and the hash of tag stacks
    against their meaning, and the text form of addresses. *)
From S2P Require Import Prelude Printf PrintfSpec Kenv Promisc.
Import Printf PrintfSpec Kenv KenvSpec Promisc.

Module PromiscSpec.

(** ** What a tag stack means *)

(** The tag a slot contributes: none under a zero mask. *)
Definition visible (s : Z * Z) : option Z := if fst s =? 0 then None else Some (Z.land (snd s) (fst s)).

(** The masked tags of [n] slots from slot [i]. *)
Definition view_from (ts : in_l2tagstack) (n i : nat) : list Z :=
  omap visible (zip (take n (drop i (inl2t_masks ts))) (take n (drop i (inl2t_tags ts)))).

(** The masked tags of the stack, without the zero-masked slots. *)
Definition view (ts : in_l2tagstack) : list Z :=
  omap visible (zip (take (Z.to_nat (inl2t_cnt ts)) (inl2t_masks ts)) (take (Z.to_nat (inl2t_cnt ts)) (inl2t_tags ts))).

(** MurmurHash3_x86_32 of a sequence of words. *)
Definition murmur3 (words : list Z) (seed : Z) : Z :=
  fmix32 (Z.lxor (foldl (fun h k => hash_block k h) seed words) (u32 (4 * Z.of_nat (length words)))).

Lemma view_from_view ts : view ts = view_from ts (Z.to_nat (inl2t_cnt ts)) 0.
Proof. done. Qed.

Lemma view_from_S ts n i m t :
  inl2t_masks ts !! i = Some m → inl2t_tags ts !! i = Some t →
  view_from ts (S n) i = if m =? 0 then view_from ts n (S i) else Z.land t m :: view_from ts n (S i).
Proof.
  intros Hm Ht. unfold view_from. rewrite (drop_S _ _ _ Hm), (drop_S _ _ _ Ht). cbn. unfold visible at 1. cbn.
  by destruct (m =? 0).
Qed.

(** The slots [i .. i + n) are in the arrays. *)
Definition in_range (ts : in_l2tagstack) (n i : nat) : Prop :=
  length (inl2t_masks ts) = 16%nat ∧ length (inl2t_tags ts) = 16%nat ∧ (i + n <= 16)%nat.

Lemma in_range_start ts : tags_wf ts → in_range ts (Z.to_nat (inl2t_cnt ts)) 0.
Proof. intros [Hc [Hm _] [Ht _]]. unfold in_range, IN_L2INFO_MAX_TAGS in *. lia. Qed.

Lemma in_range_slot ts n i :
  in_range ts (S n) i →
  ∃ m t, inl2t_masks ts !! i = Some m ∧ inl2t_tags ts !! i = Some t ∧
    idx (inl2t_masks ts) i = Ok m ∧ idx (inl2t_tags ts) i = Ok t.
Proof.
  intros (Hm & Ht & Hi).
  destruct (lookup_lt_is_Some_2 (inl2t_masks ts) i) as [m Em]; [lia |].
  destruct (lookup_lt_is_Some_2 (inl2t_tags ts) i) as [t Et]; [lia |].
  exists m, t. unfold idx. by rewrite Em, Et.
Qed.

Lemma in_range_S ts n i : in_range ts (S n) i → in_range ts n (S i).
Proof. unfold in_range. lia. Qed.

(** ** The comparison *)

(** Skipping stops at the head of what is visible, or at the end. *)
Lemma skip_zero_spec ts n : ∀ i, in_range ts n i →
  ∃ n' i', skip_zero (inl2t_masks ts) n i = Ok (n', i') ∧ in_range ts n' i' ∧ (n' <= n)%nat ∧
    view_from ts n i = view_from ts n' i' ∧
    match n' with
    | O => view_from ts n i = []
    | S k => ∃ m t, idx (inl2t_masks ts) i' = Ok m ∧ idx (inl2t_tags ts) i' = Ok t ∧
               view_from ts n i = Z.land t m :: view_from ts k (S i')
    end.
Proof.
  induction n as [| n IH]; intros i Hr; cbn [skip_zero].
  { exists 0%nat, i. unfold view_from. rewrite take_0. done. }
  destruct (in_range_slot _ _ _ Hr) as (m & t & Em & Et & Im & It). rewrite Im. cbn.
  rewrite (view_from_S ts n i m t) by done. destruct (m =? 0) eqn:E0.
  - destruct (IH (S i)) as (n' & i' & Es & Hr' & Hle & Hv & Hc); [by apply in_range_S |].
    exists n', i'. repeat split; [done | apply Hr' | apply Hr' | apply Hr' | lia | done | done].
  - exists (S n), i. repeat split; [apply Hr | apply Hr | apply Hr | lia | |].
    + by rewrite (view_from_S ts n i m t), E0 by done.
    + by exists m, t.
Qed.

Lemma tagcmp_loop_spec ts1 ts2 fuel : ∀ n1 i1 n2 i2,
  in_range ts1 n1 i1 → in_range ts2 n2 i2 → (n1 < fuel)%nat →
  tagcmp_loop fuel ts1 ts2 n1 i1 n2 i2 =
    Ok (b2z (negb (bool_decide (view_from ts1 n1 i1 = view_from ts2 n2 i2)))).
Proof.
  induction fuel as [| fuel IH]; intros n1 i1 n2 i2 H1 H2 Hf; [lia |]. cbn [tagcmp_loop].
  destruct (skip_zero_spec ts1 n1 i1 H1) as (n1' & i1' & -> & R1 & Hle1 & _ & C1). cbn [mbind result_bind].
  destruct (skip_zero_spec ts2 n2 i2 H2) as (n2' & i2' & -> & R2 & Hle2 & _ & C2). cbn [mbind result_bind].
  destruct n1' as [| k1], n2' as [| k2].
  - by rewrite C1, C2, bool_decide_eq_true_2.
  - destruct C2 as (m & t & _ & _ & ->). by rewrite C1, bool_decide_eq_false_2.
  - destruct C1 as (m & t & _ & _ & ->). by rewrite C2, bool_decide_eq_false_2.
  - destruct C1 as (m1 & t1 & -> & -> & ->), C2 as (m2 & t2 & -> & -> & ->). cbn [mbind result_bind].
    destruct (Z.eqb_spec (Z.land t1 m1) (Z.land t2 m2)) as [-> | Hne]; cbn [negb].
    + rewrite IH by (try lia; by apply in_range_S). do 3 f_equal. apply bool_decide_ext. split; congruence.
    + rewrite bool_decide_eq_false_2; [done | congruence].
Qed.

Lemma tagcmp_Some ts1 ts2 : tags_wf ts1 → tags_wf ts2 →
  in_promisc_tagcmp (Some ts1) (Some ts2) = Ok (b2z (negb (bool_decide (view ts1 = view ts2)))).
Proof.
  intros W1 W2. unfold in_promisc_tagcmp. cbn [default].
  pose proof (tw_cnt _ W1) as B1. pose proof (tw_cnt _ W2) as B2. unfold IN_L2INFO_MAX_TAGS in *.
  rewrite wrap_u_id by lia. destruct (Z.eqb_spec (inl2t_cnt ts1 + inl2t_cnt ts2) 0) as [E | E].
  - unfold view. assert (inl2t_cnt ts1 = 0 ∧ inl2t_cnt ts2 = 0) as [-> ->] by lia.
    cbn. by rewrite bool_decide_eq_true_2.
  - rewrite !view_from_view. apply tagcmp_loop_spec; [by apply in_range_start | by apply in_range_start | lia].
Qed.

(** ** The hash *)

Lemma hash_loop_spec ts n : ∀ i h nb, in_range ts n i →
  hash_loop (inl2t_tags ts) (inl2t_masks ts) n i h nb =
    Ok (foldl (fun h k => hash_block k h) h (view_from ts n i),
        nb - (Z.of_nat n - Z.of_nat (length (view_from ts n i)))).
Proof.
  induction n as [| n IH]; intros i h nb Hr; cbn [hash_loop].
  { unfold view_from. rewrite take_0. cbn. do 2 f_equal. lia. }
  destruct (in_range_slot _ _ _ Hr) as (m & t & Em & Et & -> & ->). cbn [mbind result_bind].
  rewrite (view_from_S ts n i m t) by done. destruct (m =? 0); cbn [negb].
  - rewrite IH by (by apply in_range_S). do 2 f_equal. lia.
  - rewrite IH by (by apply in_range_S). cbn. do 2 f_equal. lia.
Qed.

Lemma fmix32_0 : fmix32 0 = 0.
Proof. done. Qed.

Lemma tagstack_hash_murmur ts : tags_wf ts → uinet_l2tagstack_hash ts = Ok (murmur3 (view ts) 0).
Proof.
  intros W. unfold uinet_l2tagstack_hash. pose proof (tw_cnt _ W) as B. unfold IN_L2INFO_MAX_TAGS in B.
  destruct (Z.eqb_spec (inl2t_cnt ts) 0) as [E | E]; cbn [negb].
  { unfold view. by rewrite E. }
  unfold in_promisc_hash32. rewrite hash_loop_spec by (by apply in_range_start). cbn [mbind result_bind].
  rewrite view_from_view. unfold murmur3. do 5 f_equal. rewrite Z.shiftl_mul_pow2 by lia. lia.
Qed.

(** ** The hash separates stacks that differ in one tag *)

Definition word (x : Z) : Prop := 0 <= x < 2 ^ 32.

Lemma u32_word x : word (u32 x).
Proof. by apply wrap_u_range. Qed.

Lemma word_bits x i : word x → 32 <= i → Z.testbit x i = false.
Proof.
  intros Hx Hi. rewrite <- (Z.mod_small x (2 ^ 32)) by done. by apply Z.mod_pow2_bits_high.
Qed.

Lemma word_of_bits x : 0 <= x → (∀ i, 32 <= i → Z.testbit x i = false) → word x.
Proof.
  intros H0 Hb. split; [done |].
  assert (x = x mod 2 ^ 32) as ->; [| by apply Z.mod_pos_bound].
  apply Z.bits_inj'. intros i Hi. destruct (Z.lt_ge_cases i 32).
  - by rewrite Z.mod_pow2_bits_low.
  - by rewrite Z.mod_pow2_bits_high, Hb.
Qed.

Lemma lxor_word a b : word a → word b → word (Z.lxor a b).
Proof.
  intros Ha Hb. apply word_of_bits; [apply Z.lxor_nonneg; unfold word in *; lia |].
  intros i Hi. by rewrite Z.lxor_spec, !word_bits.
Qed.

Lemma shiftr_word a s : word a → 0 <= s → word (Z.shiftr a s).
Proof.
  intros Ha Hs. apply word_of_bits; [apply Z.shiftr_nonneg; unfold word in *; lia |].
  intros i Hi. rewrite Z.shiftr_spec by lia. apply word_bits; [done | lia].
Qed.

(** A multiplication by a unit of the ring of words. *)
Lemma mul_unit_inj c ci a b :
  (c * ci) mod 2 ^ 32 = 1 → word a → word b → u32 (a * c) = u32 (b * c) → a = b.
Proof.
  intros Hc Ha Hb E.
  assert (∀ x, word x → u32 (u32 (x * c) * ci) = x) as Inv.
  { intros x Hx. unfold wrap_u. rewrite Z.mul_mod_idemp_l, <- Z.mul_assoc, <- Z.mul_mod_idemp_r, Hc by done.
    rewrite Z.mul_1_r. by apply Z.mod_small. }
  rewrite <- (Inv a), <- (Inv b), E by done. done.
Qed.

Lemma lxor_inj_r c a b : Z.lxor c a = Z.lxor c b → a = b.
Proof.
  intros E. apply (f_equal (Z.lxor c)) in E. by rewrite <- !Z.lxor_assoc, Z.lxor_nilpotent, !Z.lxor_0_l in E.
Qed.

(** [h ^= h >> s] is a bijection. *)
Lemma xorshift_inj s a b :
  0 < s → word a → word b → Z.lxor a (Z.shiftr a s) = Z.lxor b (Z.shiftr b s) → a = b.
Proof.
  intros Hs Ha Hb E. set (d := Z.lxor a b).
  assert (0 <= d) as Hd by (apply Z.lxor_nonneg; unfold word in *; lia).
  assert (d = Z.shiftr d s) as Ed.
  { unfold d. rewrite Z.shiftr_lxor by lia. apply (lxor_inj_r (Z.lxor b (Z.shiftr a s))).
    transitivity (Z.lxor a (Z.shiftr a s)).
    - apply Z.bits_inj'. intros i _. rewrite !Z.lxor_spec.
      by destruct (Z.testbit a i), (Z.testbit b i), (Z.testbit (Z.shiftr a s) i).
    - rewrite E. apply Z.bits_inj'. intros i _. rewrite !Z.lxor_spec.
      by destruct (Z.testbit b i), (Z.testbit (Z.shiftr a s) i), (Z.testbit (Z.shiftr b s) i). }
  rewrite Z.shiftr_div_pow2 in Ed by lia.
  assert (d = 0) as Hz.
  { destruct (Z.eq_dec d 0) as [| Hne]; [done |]. exfalso.
    assert (1 < 2 ^ s) by (apply Z.pow_gt_1; lia). pose proof (Z.div_lt d (2 ^ s)). lia. }
  by apply Z.lxor_eq.
Qed.

Lemma rotl32_bit x r j :
  word x → 0 < r < 32 → 0 <= j < 32 → Z.testbit (rotl32 x r) ((j + r) mod 32) = Z.testbit x j.
Proof.
  intros Hx Hr Hj. unfold rotl32, wrap_u. rewrite Z.lor_spec.
  pose proof (Z.mod_pos_bound (j + r) 32) as Hb.
  rewrite Z.mod_pow2_bits_low, Z.shiftl_spec, Z.shiftr_spec by lia.
  destruct (Z.lt_ge_cases (j + r) 32) as [Hlt | Hge].
  - rewrite Z.mod_small by lia. rewrite (word_bits x (j + r + (32 - r))) by (done || lia).
    rewrite orb_false_r. f_equal. lia.
  - assert ((j + r) mod 32 = j + r - 32) as ->.
    { symmetry. apply Z.mod_unique with 1; lia. }
    rewrite Z.testbit_neg_r by lia. cbn. f_equal. lia.
Qed.

Lemma rotl32_inj r a b : 0 < r < 32 → word a → word b → rotl32 a r = rotl32 b r → a = b.
Proof.
  intros Hr Ha Hb E. apply Z.bits_inj'. intros i Hi. destruct (Z.lt_ge_cases i 32).
  - rewrite <- (rotl32_bit a r i), <- (rotl32_bit b r i), E by (done || lia). done.
  - by rewrite !word_bits.
Qed.

Lemma rotl32_word x r : word x → 0 < r < 32 → word (rotl32 x r).
Proof.
  intros Hx Hr. unfold rotl32. apply word_of_bits.
  - apply Z.lor_nonneg. split; [apply u32_word | apply shiftr_word; [done | lia]].
  - intros i Hi. rewrite Z.lor_spec, (word_bits (u32 _)) by (done || apply u32_word).
    rewrite word_bits; [done | apply shiftr_word; [done | lia] | done].
Qed.

#[local] Hint Resolve u32_word lxor_word rotl32_word : core.
#[local] Hint Extern 2 (word (Z.shiftr _ _)) => apply shiftr_word; [| lia] : core.
#[local] Hint Extern 1 (0 < _ < 32) => lia : core.

Lemma fmix32_inj a b : word a → word b → fmix32 a = fmix32 b → a = b.
Proof.
  intros Ha Hb E. unfold fmix32 in E.
  apply xorshift_inj in E; [| lia | auto | auto].
  apply (mul_unit_inj _ 0x7ed1b41d) in E; [| done | auto 6 | auto 6].
  apply xorshift_inj in E; [| lia | auto | auto].
  apply (mul_unit_inj _ 0xa5cb9243) in E; [| done | auto | auto].
  by apply xorshift_inj in E; [| lia | auto | auto].
Qed.

Lemma hash_block_word k h : word (hash_block k h).
Proof. unfold hash_block. auto. Qed.

Lemma u32_add_inj c p q : word p → word q → u32 (p + c) = u32 (q + c) → p = q.
Proof.
  unfold word, wrap_u. change (2 ^ 32) with 4294967296. intros Hp Hq E. Z.div_mod_to_equations. lia.
Qed.

(** The last three steps of a block. *)
Lemma hash_tail_inj x y : word x → word y →
  u32 (u32 (rotl32 x 13 * 5) + 0xe6546b64) = u32 (u32 (rotl32 y 13 * 5) + 0xe6546b64) → x = y.
Proof.
  intros Hx Hy E. apply (rotl32_inj 13); [auto | done | done |].
  apply (mul_unit_inj 5 0xcccccccd); [done | auto | auto |].
  by apply u32_add_inj in E.
Qed.

Lemma hash_block_inj_h k h h' : word h → word h' → hash_block k h = hash_block k h' → h = h'.
Proof.
  intros Hh Hh' E. unfold hash_block in E. apply hash_tail_inj in E; [| auto | auto].
  rewrite !(Z.lxor_comm _ (u32 _)) in E. by apply lxor_inj_r in E.
Qed.

Lemma hash_block_inj_k h k k' : word h → word k → word k' → hash_block k h = hash_block k' h → k = k'.
Proof.
  intros Hh Hk Hk' E. unfold hash_block in E. apply hash_tail_inj in E; [| auto | auto].
  apply lxor_inj_r in E. unfold c1, c2 in E.
  apply (mul_unit_inj _ 0x56ed309b) in E; [| done | auto | auto].
  apply rotl32_inj in E; [| auto | auto | auto].
  by apply (mul_unit_inj _ 0xdee13bb1) in E.
Qed.

Lemma fold_word ks h : word h → word (foldl (fun h k => hash_block k h) h ks).
Proof. revert h. induction ks as [| k ks IH]; intros h Hh; [done |]. cbn. apply IH, hash_block_word. Qed.

Lemma fold_inj ks h h' : word h → word h' →
  foldl (fun h k => hash_block k h) h ks = foldl (fun h k => hash_block k h) h' ks → h = h'.
Proof.
  revert h h'. induction ks as [| k ks IH]; intros h h' Hh Hh' E; [done |]. cbn in E.
  apply IH in E; [| apply hash_block_word | apply hash_block_word]. by apply hash_block_inj_h in E.
Qed.

Lemma murmur3_one_tag p q a b seed :
  word seed → word a → word b → murmur3 (p ++ a :: q) seed = murmur3 (p ++ b :: q) seed → a = b.
Proof.
  intros Hs Ha Hb E. unfold murmur3 in E.
  apply fmix32_inj in E; [| auto using fold_word | auto using fold_word].
  rewrite !length_app in E. cbn [length] in E. rewrite !(Z.lxor_comm _ (u32 _)) in E. apply lxor_inj_r in E.
  rewrite !foldl_app in E. cbn [foldl] in E.
  apply fold_inj in E; [| apply hash_block_word | apply hash_block_word].
  by apply hash_block_inj_k in E; [| apply fold_word | |].
Qed.

Lemma view_word ts : tags_wf ts → Forall word (view ts).
Proof.
  intros [_ _ [_ Ht]]. apply Forall_forall. intros w (s & Hs & Hv)%list_elem_of_omap.
  destruct s as [m t]. unfold visible in Hv. cbn in Hv. destruct (m =? 0) eqn:Em; [done |]. injection Hv as <-.
  apply elem_of_zip_r in Hs. rewrite Forall_forall in Ht.
  assert (word t) as Hw by (apply Ht; eapply subseteq_take; exact Hs).
  apply word_of_bits.
  - apply Z.land_nonneg. left. unfold word in Hw. lia.
  - intros i Hi. by rewrite Z.land_spec, (word_bits t).
Qed.

(** [C35] Two tag stacks compare equal exactly when the masked tags that are left after
    the zero-masked slots are dropped are the same sequence; the hash is MurmurHash3 of
    that sequence, so stacks that compare equal have the same hash, and stacks that
    differ in exactly one of these tags never do. *)
Theorem uinet_l2tagstack_cmp_hash (ts1 ts2 : in_l2tagstack) :
  tags_wf ts1 → tags_wf ts2 →
  uinet_l2tagstack_cmp (Some ts1) (Some ts2) = Ok (b2z (negb (bool_decide (view ts1 = view ts2)))) ∧
  uinet_l2tagstack_hash ts1 = Ok (murmur3 (view ts1) 0) ∧
  uinet_l2tagstack_hash ts2 = Ok (murmur3 (view ts2) 0) ∧
  (∀ p q a b, view ts1 = p ++ a :: q → view ts2 = p ++ b :: q → a ≠ b →
     uinet_l2tagstack_hash ts1 ≠ uinet_l2tagstack_hash ts2).
Proof.
  intros W1 W2. split; [by apply tagcmp_Some |].
  rewrite !tagstack_hash_murmur by done. do 2 (split; [done |]).
  intros p q a b E1 E2 Hne E. apply Hne.
  pose proof (view_word ts1 W1) as F1. pose proof (view_word ts2 W2) as F2. rewrite E1 in F1. rewrite E2 in F2.
  apply Forall_app in F1 as [_ [Ha _]%Forall_cons]. apply Forall_app in F2 as [_ [Hb _]%Forall_cons].
  injection E as E. rewrite E1, E2 in E. by apply murmur3_one_tag in E.
Qed.

Definition ts_a : in_l2tagstack := mk_tags 3 (0xfff :: 0 :: 0xffff :: replicate 13 0) (0x64 :: 7 :: 0x8100 :: replicate 13 0).
Definition ts_b : in_l2tagstack := mk_tags 2 (0xffff :: 0xffff :: replicate 14 0) (0x64 :: 0x8101 :: replicate 14 0).

Lemma tags_wf_dec ts :
  bool_decide (0 <= inl2t_cnt ts <= 16 ∧ length (inl2t_masks ts) = 16%nat ∧ length (inl2t_tags ts) = 16%nat ∧
    Forall (fun w => 0 <= w < 2 ^ 32) (inl2t_masks ts) ∧ Forall (fun w => 0 <= w < 2 ^ 32) (inl2t_tags ts)) = true →
  tags_wf ts.
Proof. intros (Hc & Hm & Ht & Fm & Ft)%bool_decide_eq_true. exact (Build_tags_wf ts Hc (conj Hm Fm) (conj Ht Ft)). Qed.

Lemma uinet_l2tagstack_cmp_hash_witness :
  uinet_l2tagstack_cmp (Some ts_a) (Some ts_b) = Ok 1 ∧ uinet_l2tagstack_hash ts_a ≠ uinet_l2tagstack_hash ts_b.
Proof.
  destruct (uinet_l2tagstack_cmp_hash ts_a ts_b) as (Hc & _ & _ & Hd); [by apply tags_wf_dec | by apply tags_wf_dec |].
  split; [by rewrite Hc |]. by apply (Hd [0x64] [] 0x8100 0x8101).
Defined.

(** ** Swapping *)

(** Copying with the addresses swapped, twice, copies; the tags and the flags stay. *)
Lemma copy_swap_involutive l2i :
  in_promisc_l2info_copy_swap (in_promisc_l2info_copy_swap l2i) = in_promisc_l2info_copy l2i.
Proof. done. Qed.

(** ** Addresses in text *)

(** The two digits [%D] prints for a byte are read back, whatever ends them. *)
Definition pair_ok (b : Z) : bool :=
  match hex2ascii (Z.shiftr b 4), hex2ascii (Z.land b 0x0f) with
  | Ok h, Ok l =>
      (u8 h =? h) && (u8 l =? l) && negb (isspace h) && negb (h =? 45) && negb (h =? 43) && negb (l =? 120) && negb (l =? 88) &&
      match digit_in 16 h, digit_in 16 l with
      | Some x, Some y => (0 <=? x) && (x <? 16) && (0 <=? y) && (y <? 16) && (x * 16 + y =? b)
      | _, _ => false
      end
  | _, _ => false
  end.

Lemma pairs_ok : forallb pair_ok (seqZ 0 256) = true.
Proof. vm_compute. reflexivity. Qed.

Definition ends16 (rest : str) : Prop := match rest with c :: _ => digit_in 16 c = None | [] => True end.

Lemma strtoq_loop_stop cutoff cutlim rest acc any :
  ends16 rest → strtoq_loop 16 cutoff cutlim rest acc any = (acc, any, rest).
Proof. intros He. destruct rest as [| c t]; [done |]. cbn [strtoq_loop]. cbn in He. by rewrite He. Qed.

Lemma hex_pair b : 0 <= b < 256 →
  ∃ h l, hex2ascii (Z.shiftr b 4) = Ok h ∧ hex2ascii (Z.land b 0x0f) = Ok l ∧ u8 h = h ∧ u8 l = l ∧
    ∀ rest, ends16 rest → strtoul (h :: l :: rest) 16 = (b, Some rest).
Proof.
  intros Hb. pose proof pairs_ok as Hall. rewrite forallb_forall in Hall.
  specialize (Hall b). rewrite <- list_elem_of_In, elem_of_seqZ in Hall. specialize (Hall ltac:(lia)).
  unfold pair_ok in Hall. destruct (hex2ascii (Z.shiftr b 4)) as [h |] eqn:Eh; [| done].
  destruct (hex2ascii (Z.land b 0x0f)) as [l |] eqn:El; [| done]. exists h, l. do 2 (split; [done |]).
  destruct (digit_in 16 h) as [x |] eqn:Dh; [| by rewrite andb_false_r in Hall].
  destruct (digit_in 16 l) as [y |] eqn:Dl; [| by rewrite andb_false_r in Hall].
  repeat (apply andb_prop in Hall as [Hall ?]). rewrite !negb_true_iff in *. bool_to_prop. do 2 (split; [done |]).
  intros rest He. unfold strtoul. cbn [skip_space].
  rewrite (proj1 (not_true_iff_false (isspace h))) by congruence. cbn [take_sign].
  rewrite !(proj2 (Z.eqb_neq _ _)) by done. unfold take_base. rewrite !(proj2 (Z.eqb_neq l _)) by done.
  cbn [orb]. rewrite andb_false_r. change (16 =? 0) with false. cbn iota.
  change (ULONG_MAX / 16) with (2 ^ 60 - 1). change (ULONG_MAX mod 16) with 15.
  cbn [strtoq_loop]. rewrite Dh, Dl.
  change (0 <? 0) with false. change (1 <? 0) with false. cbn [orb].
  rewrite (wrap_u_id 64 (0 * 16)) by lia. rewrite (wrap_u_id 64 (0 * 16 + x)) by lia.
  change (0 * 16 + x) with x. 
  rewrite (proj2 (Z.ltb_ge (2 ^ 60 - 1) x)) by lia. rewrite (proj2 (Z.eqb_neq x (2 ^ 60 - 1))) by lia.
  change (2 ^ 60 - 1 <? 0) with false. change (0 =? 2 ^ 60 - 1) with false. cbn [orb andb].
  rewrite strtoq_loop_stop by done. cbn. 
  rewrite (wrap_u_id 64 (x * 16)), (wrap_u_id 64 (x * 16 + y)) by lia. by subst b.
Qed.

Lemma kvprintf_6D mac sep :
  kvprintf (Some (lit "%6D")) 10 [ABytes mac; AStr (Some sep)] = match hexdump 6 mac sep with Ok l => Ok (u8 <$> l, []) | Fault f => Fault f end.
Proof.
  unfold kvprintf. change (default _ (Some (lit "%6D"))) with ([37; 54] ++ [68]).
  change ((10 <? 2) || (36 <? 10)) with false. cbn iota. rewrite run_app.
  set (s0 := mk_kst _ _ _ _). let t := eval vm_compute in (run 10 [37; 54] s0) in
    change (run 10 [37; 54] s0) with t. cbn [mbind result_bind run].
  match goal with |- context [step 10 ?s 68] =>
    change (step 10 s 68) with (l ← hexdump 6 mac sep; Ok (emit l Text [] s)) end.
  by destruct (hexdump 6 mac sep).
Qed.

Definition mac_ok (mac : list Z) : Prop := length mac = 6%nat ∧ Forall (fun b => 0 <= b < 256) mac.

(** The text of the bytes of an address, from any of them on. *)
Lemma mac_loop_hexdump mac : ∀ out,
  mac ≠ [] → Forall (fun b => 0 <= b < 256) mac → length out = length mac →
  ∃ text, hexdump (length mac) mac [58] = Ok text ∧ text ≠ [] ∧ u8 <$> text = text ∧ mac_loop (length mac) text out = (0, mac).
Proof.
  induction mac as [| b mac IH]; intros out Hne Hf Hl; [done |]. apply Forall_cons in Hf as [Hb Hf].
  destruct out as [| o out]; [done |]. injection Hl as Hl.
  destruct (hex_pair b Hb) as (h & l & Eh & El & Bh & Bl & Hs). cbn [length hexdump]. rewrite Eh, El. cbn [mbind result_bind].
  destruct mac as [| b' mac].
  - exists [h; l]. do 2 (split; [done |]). split; [by cbn; rewrite Bh, Bl |]. cbn [mac_loop length]. rewrite Hs by done. cbn.
    rewrite wrap_u_id by lia. by destruct out.
  - destruct (IH out) as (text & Et & Hnt & Bt & Em); [done | done | done |]. rewrite Et. cbn [mbind result_bind].
    exists (h :: l :: 58 :: text). do 2 (split; [done |]). split; [by cbn; rewrite Bh, Bl; f_equal; f_equal; f_equal |].
    cbn [length] in *. cbn [mac_loop]. rewrite Hs by done. cbn [length].
    rewrite (proj2 (Nat.eqb_eq _ _)) by lia. cbn [negb]. change (58 =? 58) with true. cbn iota.
    cbn [mac_loop] in Em. rewrite Em. rewrite wrap_u_id by lia. done.
Qed.

(** [C39] Reading an address inverts printing it: the text that the kernel's printf
    gives for a six-byte address under [%6D] with colons is accepted by
    [uinet_mac_aton], which stores the same six bytes. *)
Theorem uinet_mac_aton_roundtrip (mac out : list Z) :
  mac_ok mac → length out = 6%nat →
  ∃ text, kvprintf (Some (lit "%6D")) 10 [ABytes mac; AStr (Some (lit ":"))] = Ok (text, []) ∧
    uinet_mac_aton (Some text) out = (0, mac).
Proof.
  intros [Hl Hf] Ho. destruct (mac_loop_hexdump mac out) as (text & Et & Hne & Bt & Em); [by intros -> | done | lia |].
  exists text. split.
  - rewrite Hl in Et. rewrite kvprintf_6D. change (lit ":") with [58]. rewrite Et. cbn. by rewrite Bt.
  - unfold uinet_mac_aton. rewrite Hl in Em. by destruct text.
Qed.

Lemma uinet_mac_aton_roundtrip_witness :
  ∃ text, kvprintf (Some (lit "%6D")) 10 [ABytes [0; 0x1b; 0x21; 0xa0; 0x0f; 0xff]; AStr (Some (lit ":"))] = Ok (text, []) ∧
    uinet_mac_aton (Some text) zero_addr = (0, [0; 0x1b; 0x21; 0xa0; 0x0f; 0xff]).
Proof. apply uinet_mac_aton_roundtrip; [by apply (bool_decide_unpack _) | done]. Defined.

(** Malformed text is refused, and NULL and the empty string stand for the zero
    address. *)
Lemma uinet_mac_aton_refuses :
  fst (uinet_mac_aton (Some (lit "00:1b:21:a0:0f")) zero_addr) = 1 ∧
  fst (uinet_mac_aton (Some (lit "00:1b:21:a0:0f:ff:01")) zero_addr) = 1 ∧
  fst (uinet_mac_aton (Some (lit "0:1b:21:a0:0f:ff")) zero_addr) = 1 ∧
  fst (uinet_mac_aton (Some (lit "00-1b-21-a0-0f-ff")) zero_addr) = 1 ∧
  uinet_mac_aton (Some []) [1;2;3;4;5;6] = (0, zero_addr) ∧ uinet_mac_aton None [1;2;3;4;5;6] = (0, zero_addr).
Proof. vm_compute. done. Qed.

(** The test for two digits counts characters: a pair may be a space or a sign and a
    single digit. *)
Lemma uinet_mac_aton_lenient :
  uinet_mac_aton (Some (lit " 1:+2:-1:04:05:06")) zero_addr = (0, [1; 2; 255; 4; 5; 6]).
Proof. vm_compute. done. Qed.

End PromiscSpec.
