(* ===== verification/SynFilter.v ===== *)
(** SYN filters (src/src/sys/netinet/in_promisc.c): the registry of filters with its
    reference counts, the instances attached to protocol control blocks, the socket
    options that attach, query and remove them and deliver deferred decisions; and
    libuinet's own filter (src/src/lib/libuinet/uinet_api.c), which hands the decision
    to a callback of the application.  Of a kernel built with PROMISCUOUS_INET, the
    only one whose IP layer passes these options on. *)
From S2P Require Import Prelude Printf Promisc.
Import Printf Promisc.

Module SynFilter.

Definition ENOENT : Z := 2.
Definition ENOMEM : Z := 12.
Definition EEXIST : Z := 17.
Definition EOPNOTSUPP : Z := 45.
Definition SYNF_NAME_MAX : nat := 16.
Definition SYNF_ARG_MAX : nat := 240.
Definition SYNF_ACCEPT : Z := 0.
Definition SYNF_ACCEPT_PASSIVE : Z := 1.
Definition SYNF_REJECT_RST : Z := 2.
Definition SYNF_REJECT_SILENT : Z := 3.
Definition SYNF_DEFER : Z := 4.
Definition INP_PROMISC : Z := 0x20.
Definition INP_SYNFILTER : Z := 0x40.
Definition INC_CONVONTMO : Z := 0x10.

(** ** Data *)

(** A filter function: the null callback, a function of libuinet's filter, or a
    function of another filter. *)
Inductive fn : Type := FNull | FApi | FOther (n : nat).

#[export] Instance fn_eq_dec : EqDecision fn.
Proof. solve_decision. Defined.

Record syn_filter : Type := mk_sf {
  synf_name : str; synf_callback : fn; synf_create : option fn; synf_destroy : option fn
}.

Record syn_filter_internal : Type := mk_sfi { params : syn_filter; refcount : Z }.

Record syn_filter_instance : Type := mk_inst { sfi : nat; ctor_arg : list Z; instance_arg : option Z }.

(** [struct syn_filter_optarg]: its two arrays. *)
Record syn_filter_optarg : Type := mk_optarg { sfa_name : list Z; sfa_arg : list Z }.

(** The fields of [struct syn_filter_cbarg] the code uses; the mbuf by its identity. *)
Record syn_filter_cbarg : Type := mk_cbarg {
  cb_inc_flags : Z; cb_m : nat; cb_l2i : nat; cb_decision : Z; cb_initial_timeout : Z; cb_txif : option nat
}.

(** The control block of a TCP socket, with its socket's SO_PROMISC. *)
Record inpcb : Type := mk_inp { so_promisc : bool; inp_synf : option nat; inp_flags2 : Z; inp_l2info : option in_l2info }.

(** [struct uinet_api_synfilter_ctx]. *)
Record api_ctx : Type := mk_ctx { ctx_callback : nat; ctx_arg : Z }.

(** What becomes of the mbuf of a deferred SYN. *)
Inductive disposal : Type := MFreed (m : nat) | MResponded (m : nat) | MSyncache (m : nat).

(** The registry ([syn_filter_head] and its entries), the instances (an instance just
    allocated is [None]), the control blocks, the contexts of libuinet's filter by
    address, the deferrals, whether [syn_filter_mtx] is held, and the next address
    [malloc] gives. *)
Record state : Type := mk_st {
  st_filters : gmap nat syn_filter_internal; st_head : list nat;
  st_insts : gmap nat (option syn_filter_instance);
  st_inps : gmap nat inpcb; st_ctx : gmap nat api_ctx; st_defer : gmap nat syn_filter_cbarg;
  st_unloadable : bool; st_locked : bool; st_next : nat; st_mbufs : list disposal
}.

Definition set_filters v s := mk_st v (st_head s) (st_insts s) (st_inps s) (st_ctx s) (st_defer s) (st_unloadable s) (st_locked s) (st_next s) (st_mbufs s).
Definition set_head v s := mk_st (st_filters s) v (st_insts s) (st_inps s) (st_ctx s) (st_defer s) (st_unloadable s) (st_locked s) (st_next s) (st_mbufs s).
Definition set_insts v s := mk_st (st_filters s) (st_head s) v (st_inps s) (st_ctx s) (st_defer s) (st_unloadable s) (st_locked s) (st_next s) (st_mbufs s).
Definition set_inps v s := mk_st (st_filters s) (st_head s) (st_insts s) v (st_ctx s) (st_defer s) (st_unloadable s) (st_locked s) (st_next s) (st_mbufs s).
Definition set_ctx v s := mk_st (st_filters s) (st_head s) (st_insts s) (st_inps s) v (st_defer s) (st_unloadable s) (st_locked s) (st_next s) (st_mbufs s).
Definition set_defer v s := mk_st (st_filters s) (st_head s) (st_insts s) (st_inps s) (st_ctx s) v (st_unloadable s) (st_locked s) (st_next s) (st_mbufs s).
Definition set_locked v s := mk_st (st_filters s) (st_head s) (st_insts s) (st_inps s) (st_ctx s) (st_defer s) (st_unloadable s) v (st_next s) (st_mbufs s).
Definition set_next v s := mk_st (st_filters s) (st_head s) (st_insts s) (st_inps s) (st_ctx s) (st_defer s) (st_unloadable s) (st_locked s) v (st_mbufs s).
Definition set_mbufs v s := mk_st (st_filters s) (st_head s) (st_insts s) (st_inps s) (st_ctx s) (st_defer s) (st_unloadable s) (st_locked s) (st_next s) v.

Definition init (unloadable : bool) : state := mk_st ∅ [] ∅ ∅ ∅ ∅ unloadable false 1 [].

Abbreviation F := (M state).

(** ** Memory and the lock *)

Definition malloc : F nat := fun s => Ok (st_next s, set_next (S (st_next s)) s).

Definition filter_load (p : nat) : F syn_filter_internal := fun s =>
  match st_filters s !! p with Some f => Ok (f, s) | None => Fault BadPointer end.
Definition filter_store (p : nat) (f : syn_filter_internal) : F unit :=
  _ ← filter_load p; modify (fun s => set_filters (<[p := f]> (st_filters s)) s).
Definition inst_load (q : nat) : F syn_filter_instance := fun s =>
  match st_insts s !! q with Some (Some i) => Ok (i, s) | _ => Fault BadPointer end.
Definition inp_load (i : nat) : F inpcb := fun s =>
  match st_inps s !! i with Some p => Ok (p, s) | None => Fault BadPointer end.
Definition inp_store (i : nat) (p : inpcb) : F unit := modify (fun s => set_inps (<[i := p]> (st_inps s)) s).
Definition inst_store (q : nat) (v : syn_filter_instance) : F unit :=
  modify (fun s => set_insts (<[q := Some v]> (st_insts s)) s).

Definition SYN_FILTER_LOCK : F unit := fun s =>
  if st_locked s then Fault Blocked else Ok (tt, set_locked true s).
Definition SYN_FILTER_UNLOCK : F unit := fun s =>
  if st_locked s then Ok (tt, set_locked false s) else Fault BadUnlock.

(** ** The functions of libuinet's filter *)

(** A pointer in the first bytes of a buffer. *)
Fixpoint put_ptr (n : nat) (v : Z) : list Z :=
  match n with O => [] | S n => v mod 256 :: put_ptr n (v / 256) end.
Fixpoint get_ptr (l : list Z) : Z :=
  match l with [] => 0 | b :: l => b + 256 * get_ptr l end.

Section Filters.

(** The functions of other filters: the callback's decision and the constructor's
    result. *)
Context (other_callback : nat → nat → option Z → syn_filter_cbarg → Z).
Context (other_create : nat → nat → list Z → option Z).
(** The application's callback: function, socket, argument, cookie. *)
Context (app_callback : nat → nat → Z → syn_filter_cbarg → Z).

Definition ctx_load (p : option Z) : F api_ctx := fun s =>
  match p with
  | None => Fault NullDeref
  | Some a => match st_ctx s !! Z.to_nat a with Some c => Ok (c, s) | None => Fault BadPointer end
  end.

Definition uinet_api_synfilter_callback (inp : nat) (inst_arg : option Z) (arg : syn_filter_cbarg) : F Z :=
  ctx ← ctx_load inst_arg; mret (app_callback (ctx_callback ctx) inp (ctx_arg ctx) arg).

Definition uinet_api_synfilter_ctor (inp : nat) (arg : list Z) : option Z :=
  let result := get_ptr (take 8 arg) in if result =? 0 then None else Some result.

(** [free] of NULL does nothing. *)
Definition uinet_api_synfilter_dtor (inp : nat) (arg : option Z) : F unit :=
  match arg with
  | None => mret ()
  | Some a => _ ← ctx_load arg; modify (fun s => set_ctx (delete (Z.to_nat a) (st_ctx s)) s)
  end.

(** Calls through the pointers of [params]. *)
Definition call_callback (f : fn) (inp : nat) (inst_arg : option Z) (arg : syn_filter_cbarg) : F Z :=
  match f with
  | FNull => mret SYNF_REJECT_SILENT
  | FApi => uinet_api_synfilter_callback inp inst_arg arg
  | FOther n => mret (other_callback n inp inst_arg arg)
  end.
Definition call_create (f : fn) (inp : nat) (arg : list Z) : option Z :=
  match f with
  | FNull => None
  | FApi => uinet_api_synfilter_ctor inp arg
  | FOther n => other_create n inp arg
  end.
Definition call_destroy (f : fn) (inp : nat) (arg : option Z) : F unit :=
  match f with FApi => uinet_api_synfilter_dtor inp arg | _ => mret () end.

(** ** The registry *)

Fixpoint get_loop (name : str) (l : list nat) : F (option nat) :=
  match l with
  | [] => mret None
  | p :: t => f ← filter_load p; if bool_decide (synf_name (params f) = name) then mret (Some p) else get_loop name t
  end.
Definition syn_filter_get_locked (name : str) : F (option nat) := l ← gets st_head; get_loop name l.

Definition syn_filter_alloc (sf : syn_filter) : F nat :=
  p ← malloc; _ ← modify (fun s => set_filters (<[p := mk_sfi sf 1]> (st_filters s)) s); mret p.

Definition syn_filter_free (p : nat) : F unit :=
  _ ← filter_load p; modify (fun s => set_filters (delete p (st_filters s)) s).

Definition refcount_acquire (p : nat) : F unit :=
  f ← filter_load p; filter_store p (mk_sfi (params f) (u32 (refcount f + 1))).
Definition refcount_release (p : nat) : F bool :=
  f ← filter_load p; _ ← filter_store p (mk_sfi (params f) (u32 (refcount f - 1))); mret (refcount f =? 1).

Definition syn_filter_attach (name : str) : F (option nat) :=
  _ ← SYN_FILTER_LOCK;
  o ← syn_filter_get_locked name;
  _ ← match o with Some p => refcount_acquire p | None => mret () end;
  _ ← SYN_FILTER_UNLOCK;
  mret o.

(** [SLIST_REMOVE] of an element that is not on the list runs off its end. *)
Definition slist_remove (p : nat) : F unit := fun s =>
  if bool_decide (p ∈ st_head s) then Ok (tt, set_head (filter (fun x => x ≠ p) (st_head s)) s) else Fault NullDeref.

Definition syn_filter_detach_locked (p : nat) : F unit :=
  last ← refcount_release p;
  if (last : bool) then _ ← slist_remove p; syn_filter_free p else mret ().

Definition syn_filter_detach (p : nat) : F unit :=
  _ ← SYN_FILTER_LOCK; _ ← syn_filter_detach_locked p; SYN_FILTER_UNLOCK.

(** The body of the search loop of [syn_filter_add] that returns from it: the result,
    or [None] when the list is exhausted. *)
Fixpoint add_loop (sf : syn_filter) (l : list nat) : F (option Z) :=
  match l with
  | [] => mret None
  | p :: t =>
      f ← filter_load p;
      if bool_decide (synf_name (params f) = synf_name sf) then
        if negb (bool_decide (synf_callback (params f) = FNull)) then mret (Some EEXIST)
        else
          _ ← filter_store p (mk_sfi (mk_sf (synf_name (params f)) (synf_callback sf) (synf_create (params f))
                                        (synf_destroy (params f))) (refcount f));
          mret (Some 0)
      else add_loop sf t
  end.

Definition syn_filter_add (sf : syn_filter) : F Z :=
  _ ← SYN_FILTER_LOCK;
  l ← gets st_head;
  o ← add_loop sf l;
  match o with
  | Some r => _ ← SYN_FILTER_UNLOCK; mret r
  | None =>
      p ← syn_filter_alloc sf;
      _ ← modify (fun s => set_head (p :: st_head s) s);
      _ ← SYN_FILTER_UNLOCK; mret 0
  end.

Definition syn_filter_del (name : str) : F Z :=
  _ ← SYN_FILTER_LOCK;
  o ← syn_filter_get_locked name;
  _ ← match o with
      | Some p =>
          f ← filter_load p;
          _ ← filter_store p (mk_sfi (mk_sf (synf_name (params f)) FNull (synf_create (params f))
                                        (synf_destroy (params f))) (refcount f));
          syn_filter_detach_locked p
      | None => mret ()
      end;
  _ ← SYN_FILTER_UNLOCK;
  mret 0.

Inductive mod_event : Type := MOD_LOAD | MOD_UNLOAD | MOD_SHUTDOWN | MOD_QUIESCE.

Definition syn_filter_generic_mod_event (event : mod_event) (sf : syn_filter) : F Z :=
  match event with
  | MOD_LOAD => syn_filter_add sf
  | MOD_UNLOAD =>
      u ← gets st_unloadable; if (u : bool) then syn_filter_del (synf_name sf) else mret EOPNOTSUPP
  | MOD_SHUTDOWN => mret 0
  | MOD_QUIESCE => mret EOPNOTSUPP
  end.

(** ** Instances *)

Definition syn_filter_run_callback (inp : nat) (arg : syn_filter_cbarg) : F Z :=
  ip ← inp_load inp;
  match inp_synf ip with
  | None => mret SYNF_ACCEPT
  | Some q =>
      i ← inst_load q; u ← gets st_unloadable;
      if (u : bool) then
        _ ← SYN_FILTER_LOCK;
        f ← filter_load (sfi i); r ← call_callback (synf_callback (params f)) inp (instance_arg i) arg;
        _ ← SYN_FILTER_UNLOCK; mret r
      else
        f ← filter_load (sfi i); call_callback (synf_callback (params f)) inp (instance_arg i) arg
  end.

(** The default result is the address of the control block. *)
Definition syn_filter_run_constructor (inp : nat) : F (option Z) :=
  ip ← inp_load inp;
  match inp_synf ip with
  | None => faultM NullDeref
  | Some q =>
      i ← inst_load q; u ← gets st_unloadable;
      let body : F (option Z) :=
        f ← filter_load (sfi i);
        mret (match synf_create (params f) with
              | Some c => call_create c inp (ctor_arg i)
              | None => Some (Z.of_nat inp)
              end) in
      if (u : bool) then _ ← SYN_FILTER_LOCK; r ← body; _ ← SYN_FILTER_UNLOCK; mret r else body
  end.

Definition run_destroy (f : syn_filter_internal) (inp : nat) (arg : option Z) : F unit :=
  match synf_destroy (params f) with Some d => call_destroy d inp arg | None => mret () end.

Definition syn_filter_run_destructor (inp : nat) : F unit :=
  ip ← inp_load inp;
  _ ← match inp_synf ip with
      | None => mret ()
      | Some q =>
          i ← inst_load q; u ← gets st_unloadable;
          _ ← (if (u : bool) then
                 _ ← SYN_FILTER_LOCK;
                 f ← filter_load (sfi i); _ ← run_destroy f inp (instance_arg i);
                 _ ← syn_filter_detach_locked (sfi i);
                 SYN_FILTER_UNLOCK
               else
                 f ← filter_load (sfi i); _ ← run_destroy f inp (instance_arg i);
                 syn_filter_detach (sfi i));
          _ ← modify (fun s => set_insts (delete q (st_insts s)) s);
          inp_store inp (mk_inp (so_promisc ip) None (inp_flags2 ip) (inp_l2info ip))
      end;
  ip ← inp_load inp;
  inp_store inp (mk_inp (so_promisc ip) (inp_synf ip) (clear_flag (inp_flags2 ip) INP_SYNFILTER) (inp_l2info ip)).

(** ** Control blocks *)

(** [alloc] is what the zone gives. *)
Definition in_promisc_inpcb_init (inp : nat) (alloc : bool) : F Z :=
  ip ← inp_load inp;
  if negb alloc then _ ← inp_store inp (mk_inp (so_promisc ip) (inp_synf ip) (inp_flags2 ip) None); mret ENOMEM
  else
    _ ← inp_store inp (mk_inp (so_promisc ip) (inp_synf ip)
          (if so_promisc ip then Z.lor (inp_flags2 ip) INP_PROMISC else inp_flags2 ip) (Some zero_l2info));
    mret 0.

Definition in_promisc_inpcb_destroy (inp : nat) : F unit :=
  ip ← inp_load inp;
  _ ← inp_store inp (mk_inp (so_promisc ip) (inp_synf ip) (inp_flags2 ip) None);
  syn_filter_run_destructor inp.

(** ** The socket options *)

(** The string in a character array. *)
Fixpoint cstr (l : list Z) : str :=
  match l with [] => [] | c :: t => if c =? 0 then [] else c :: cstr t end.

(** What is copied out: the name and the argument; the error is [sooptcopyout]'s. *)
Definition syn_filter_getopt (inp : nat) : F (Z * option (str * list Z)) :=
  ip ← inp_load inp;
  if negb (so_promisc ip) then mret (EINVAL, None)
  else match inp_synf ip with
  | None => faultM NullDeref
  | Some q =>
      i ← inst_load q; f ← filter_load (sfi i);
      mret (0, Some (synf_name (params f), ctor_arg i))
  end.

(** IP_SYNFILTER without a value. *)
Definition setopt_remove (inp : nat) : F Z := _ ← syn_filter_run_destructor inp; mret 0.

(** The part of IP_SYNFILTER under the control block's lock: the error, and whether
    [sfinst] was handed over. *)
Definition setopt_attach (inp sfinst : nat) (sfa : syn_filter_optarg) : F (Z * bool) :=
  ip ← inp_load inp;
  match inp_synf ip with
  | Some _ => mret (EINVAL, false)
  | None =>
      o ← syn_filter_attach (cstr (take (SYNF_NAME_MAX - 1) (sfa_name sfa)));
      match o with
      | None => mret (ENOENT, false)
      | Some p =>
          let carg := take (SYNF_ARG_MAX - 1) (sfa_arg sfa) ++ [0] in
          _ ← inst_store sfinst (mk_inst p carg None);
          _ ← inp_store inp (mk_inp (so_promisc ip) (Some sfinst) (inp_flags2 ip) (inp_l2info ip));
          r ← syn_filter_run_constructor inp;
          _ ← inst_store sfinst (mk_inst p carg r);
          match r with
          | None =>
              _ ← syn_filter_detach p;
              _ ← inp_store inp (mk_inp (so_promisc ip) None (inp_flags2 ip) (inp_l2info ip));
              mret (EINVAL, false)
          | Some _ =>
              _ ← inp_store inp (mk_inp (so_promisc ip) (Some sfinst) (Z.lor (inp_flags2 ip) INP_SYNFILTER) (inp_l2info ip));
              mret (0, true)
          end
      end
  end.

(** IP_SYNFILTER with a value; [copyin] is what [sooptcopyin] gives. *)
Definition setopt_install (inp : nat) (copyin : Z + syn_filter_optarg) : F Z :=
  sfinst ← malloc;
  _ ← modify (fun s => set_insts (<[sfinst := None]> (st_insts s)) s);
  match copyin with
  | inl error => mret error
  | inr sfa =>
      '(error, given) ← setopt_attach inp sfinst sfa;
      _ ← (if (given : bool) then mret () else modify (fun s => set_insts (delete sfinst (st_insts s)) s));
      mret error
  end.

(** IP_SYNFILTER_RESULT; [bandlim] is what [badport_bandlim] returns. *)
Definition setopt_result (bandlim : Z) (copyin : Z + syn_filter_cbarg) : F Z :=
  match copyin with
  | inl error => mret error
  | inr cbarg =>
      let m := cb_m cbarg in
      let dispose (d : disposal) : F Z := _ ← modify (fun s => set_mbufs (d :: st_mbufs s) s); mret 0 in
      if cb_decision cbarg =? SYNF_REJECT_SILENT then dispose (MFreed m)
      else if cb_decision cbarg =? SYNF_REJECT_RST then
        dispose (if bandlim <? 0 then MFreed m else MResponded m)
      else if cb_decision cbarg =? SYNF_ACCEPT then dispose (MSyncache m)
      else mret EINVAL
  end.

Inductive sockopt : Type :=
| IP_SYNFILTER (val : option (Z + syn_filter_optarg))
| IP_SYNFILTER_RESULT (val : Z + syn_filter_cbarg).

Definition syn_filter_setopt (bandlim : Z) (inp : nat) (sopt : sockopt) : F Z :=
  ip ← inp_load inp;
  if negb (so_promisc ip) then mret EINVAL
  else match sopt with
  | IP_SYNFILTER None => setopt_remove inp
  | IP_SYNFILTER (Some v) => setopt_install inp v
  | IP_SYNFILTER_RESULT v => setopt_result bandlim v
  end.

(** ** libuinet's interface *)

Definition synf_uinet_api : syn_filter := mk_sf (lit "uinet_api") FApi (Some FApi) (Some FApi).

(** The name and the pointer in their zero-filled arrays. *)
Definition api_optarg (ctx : nat) : syn_filter_optarg :=
  let name := synf_name synf_uinet_api in
  mk_optarg (name ++ replicate (SYNF_NAME_MAX - length name) 0) (put_ptr 8 (Z.of_nat ctx) ++ replicate (SYNF_ARG_MAX - 8) 0).

Definition uinet_synfilter_install (inp : nat) (callback : nat) (arg : Z) : F Z :=
  ctx ← malloc;
  _ ← modify (fun s => set_ctx (<[ctx := mk_ctx callback arg]> (st_ctx s)) s);
  error ← syn_filter_setopt 0 inp (IP_SYNFILTER (Some (inr (api_optarg ctx))));
  _ ← (if negb (error =? 0) then modify (fun s => set_ctx (delete ctx (st_ctx s)) s) else mret ());
  mret error.

Definition uinet_synfilter_deferral_alloc (cookie : syn_filter_cbarg) : F nat :=
  p ← malloc; _ ← modify (fun s => set_defer (<[p := cookie]> (st_defer s)) s); mret p.

Definition defer_load (p : nat) : F syn_filter_cbarg := fun s =>
  match st_defer s !! p with Some c => Ok (c, s) | None => Fault BadPointer end.

Definition uinet_synfilter_deferral_free (p : nat) : F unit :=
  _ ← defer_load p; modify (fun s => set_defer (delete p (st_defer s)) s).

Definition uinet_synfilter_deferral_deliver (bandlim : Z) (inp p : nat) (decision : Z) : F Z :=
  c ← defer_load p;
  let c := mk_cbarg (cb_inc_flags c) (cb_m c) (cb_l2i c) decision (cb_initial_timeout c) (cb_txif c) in
  error ← syn_filter_setopt bandlim inp (IP_SYNFILTER_RESULT (inr c));
  _ ← uinet_synfilter_deferral_free p;
  mret error.

Definition uinet_synfilter_set_txif (c : syn_filter_cbarg) (ifp : nat) : syn_filter_cbarg :=
  mk_cbarg (cb_inc_flags c) (cb_m c) (cb_l2i c) (cb_decision c) (cb_initial_timeout c) (Some ifp).

(** [hz] is the tick rate; [ms] and the product are unsigned. *)
Definition uinet_synfilter_go_active_on_timeout (hz : Z) (c : syn_filter_cbarg) (ms : Z) : syn_filter_cbarg :=
  mk_cbarg (Z.lor (cb_inc_flags c) INC_CONVONTMO) (cb_m c) (cb_l2i c) (cb_decision c)
    (if INT_MAX / hz <? ms then INT_MAX / 1000 else u32 (ms * hz) / 1000) (cb_txif c).

End Filters.

End SynFilter.
