(* ===== verification/SynFilterSpec.v ===== *)
(** Properties of SYN filters: the reference counts are exact, so no operation of the
    module system, the sockets or the application reaches a freed filter, instance or
    context; and what each operation returns. *)
From S2P Require Import Prelude Printf Promisc SynFilter.
Import Printf Promisc SynFilter.

Module SynFilterSpec.

(** ** Counting instances *)

Definition is_at (p : nat) (o : option syn_filter_instance) : bool :=
  match o with Some i => bool_decide (sfi i = p) | None => false end.

(** The instances that refer to filter [p]. *)
Definition attached (m : gmap nat (option syn_filter_instance)) (p : nat) : Z :=
  Z.of_nat (size (filter (fun kv => is_at p (snd kv) = true) m)).

Lemma attached_fresh m q o p :
  m !! q = None → attached (<[q := o]> m) p = attached m p + b2z (is_at p o).
Proof.
  intros Hq. unfold attached. destruct (is_at p o) eqn:E.
  - rewrite map_filter_insert_True by done. rewrite map_size_insert_None; [cbn; lia |].
    apply map_lookup_filter_None. by left.
  - rewrite map_filter_insert_False by (cbn; congruence). rewrite delete_id by done. cbn. lia.
Qed.

Lemma attached_delete m q o p :
  m !! q = Some o → attached (delete q m) p = attached m p - b2z (is_at p o).
Proof.
  intros Hq. rewrite <- (insert_delete_id m q o) at 2 by done.
  rewrite attached_fresh by apply lookup_delete_eq. lia.
Qed.

Lemma attached_update m q o o' p :
  m !! q = Some o → attached (<[q := o']> m) p = attached m p - b2z (is_at p o) + b2z (is_at p o').
Proof.
  intros Hq. rewrite <- insert_delete_eq, attached_fresh by apply lookup_delete_eq.
  rewrite (attached_delete m q o) by done. lia.
Qed.

Lemma attached_le m p : 0 <= attached m p <= Z.of_nat (size m).
Proof. unfold attached. split; [lia |]. apply inj_le, map_subseteq_size, map_filter_subseteq. Qed.

Lemma attached_none m p : (∀ q i, m !! q = Some (Some i) → sfi i ≠ p) → attached m p = 0.
Proof.
  intros Hn. unfold attached. rewrite map_empty_filter_2; [done |].
  intros q [i |] Hq; cbn; [| done]. rewrite bool_decide_eq_true. by eapply Hn.
Qed.

(** ** The invariant *)

Definition loaded (f : syn_filter_internal) : bool := negb (bool_decide (synf_callback (params f) = FNull)).

(** The functions of libuinet's filter come together. *)
Definition params_ok (sf : syn_filter) : Prop :=
  (synf_create sf = Some FApi ↔ synf_destroy sf = Some FApi) ∧
  (synf_callback sf = FApi → synf_create sf = Some FApi) ∧ synf_create sf ≠ Some FNull.

Definition is_api (f : syn_filter_internal) : Prop := synf_create (params f) = Some FApi.

(** Every count is the module's reference, if the filter is loaded, and the instances
    that refer to it; [d] is what it has in excess. *)
Record ok_with (d : nat → Z) (s : state) : Prop := {
  ok_unlocked : st_locked s = false;
  ok_nodup : NoDup (st_head s);
  ok_head : ∀ p, p ∈ st_head s ↔ is_Some (st_filters s !! p);
  ok_names : ∀ p q f g, st_filters s !! p = Some f → st_filters s !! q = Some g →
    synf_name (params f) = synf_name (params g) → p = q;
  ok_params : ∀ p f, st_filters s !! p = Some f → params_ok (params f);
  ok_ref : ∀ p f, st_filters s !! p = Some f →
    refcount f = b2z (loaded f) + attached (st_insts s) p + d p ∧ 0 < refcount f < 2 ^ 32;
  ok_inst : ∀ q i, st_insts s !! q = Some (Some i) → is_Some (st_filters s !! sfi i);
  ok_owner : ∀ n ip q, st_inps s !! n = Some ip → inp_synf ip = Some q → ∃ i, st_insts s !! q = Some (Some i);
  ok_inj : ∀ n m ip jp q, st_inps s !! n = Some ip → st_inps s !! m = Some jp →
    inp_synf ip = Some q → inp_synf jp = Some q → n = m;
  ok_next : ∀ q, is_Some (st_insts s !! q) ∨ is_Some (st_filters s !! q) ∨ is_Some (st_ctx s !! q) → (0 < q < st_next s)%nat;
  ok_pos : (0 < st_next s)%nat;
  ok_ctx : ∀ q i f, st_insts s !! q = Some (Some i) → st_filters s !! sfi i = Some f → is_api f →
    ∃ a, instance_arg i = Some (Z.of_nat a) ∧ is_Some (st_ctx s !! a);
  ok_ctx_inj : ∀ q r i j f g, st_insts s !! q = Some (Some i) → st_insts s !! r = Some (Some j) →
    st_filters s !! sfi i = Some f → st_filters s !! sfi j = Some g → is_api f → is_api g →
    instance_arg i = instance_arg j → q = r
}.

Abbreviation ok := (ok_with (fun _ => 0)).

Lemma ok_init u : ok (init u).
Proof.
  split; cbn; try done; try (intros *; rewrite ?lookup_empty; done).
  - constructor.
  - intros p. rewrite lookup_empty. split; [by intros ?%not_elem_of_nil | by intros []].
  - intros q. rewrite !lookup_empty. by intros [[] | [[] | []]].
  - lia.
Qed.

(** ** Finding a filter *)

Definition named (s : state) (name : str) (o : option nat) : Prop :=
  match o with
  | Some p => ∃ f, st_filters s !! p = Some f ∧ synf_name (params f) = name
  | None => ∀ p f, st_filters s !! p = Some f → synf_name (params f) ≠ name
  end.

Lemma filter_load_ok s p f : st_filters s !! p = Some f → filter_load p s = Ok (f, s).
Proof. intros H. unfold filter_load. by rewrite H. Qed.

Lemma filter_store_ok s p f g :
  st_filters s !! p = Some f → filter_store p g s = Ok (tt, set_filters (<[p := g]> (st_filters s)) s).
Proof. intros H. unfold filter_store. by erewrite M_bind_Ok by (by apply filter_load_ok). Qed.

Lemma get_loop_spec name s l :
  (∀ p, p ∈ l → is_Some (st_filters s !! p)) →
  ∃ o, get_loop name l s = Ok (o, s) ∧
    match o with
    | Some p => p ∈ l ∧ named s name o
    | None => ∀ p f, p ∈ l → st_filters s !! p = Some f → synf_name (params f) ≠ name
    end.
Proof.
  induction l as [| p l IH]; intros Hl; cbn [get_loop].
  { exists None. split; [done |]. intros ? ? []%not_elem_of_nil. }
  destruct (Hl p) as [f Hf]; [constructor |]. erewrite M_bind_Ok by (by apply filter_load_ok). cbn beta.
  case_bool_decide as E.
  - exists (Some p). split; [done |]. split; [constructor | by exists f].
  - destruct IH as (o & -> & Ho); [intros; apply Hl; by constructor |]. exists o. split; [done |].
    destruct o as [q |]; [destruct Ho; split; [by constructor | done] |].
    intros q g [-> | Hq]%elem_of_cons Hg; [by simplify_eq | by eapply Ho].
Qed.

Lemma get_spec name s : (∀ p, p ∈ st_head s ↔ is_Some (st_filters s !! p)) →
  ∃ o, syn_filter_get_locked name s = Ok (o, s) ∧ named s name o.
Proof.
  intros Hh. destruct (get_loop_spec name s (st_head s)) as (o & E & Ho); [intros; by apply Hh |].
  exists o. split; [exact E |]. destruct o; [apply Ho |]. intros p f Hf. apply (Ho p f); [apply Hh; by eexists | done].
Qed.

(** ** Releasing a reference *)

(** What [syn_filter_detach_locked] leaves. *)
Definition release (p : nat) (f : syn_filter_internal) (s : state) : state :=
  if refcount f =? 1 then
    set_filters (delete p (st_filters s)) (set_head (filter (fun x => x ≠ p) (st_head s)) s)
  else set_filters (<[p := mk_sfi (params f) (u32 (refcount f - 1))]> (st_filters s)) s.

Lemma detach_locked_ok s p f :
  st_filters s !! p = Some f → p ∈ st_head s → syn_filter_detach_locked p s = Ok (tt, release p f s).
Proof.
  intros Hf Hp. unfold syn_filter_detach_locked, refcount_release, release.
  erewrite M_bind_Ok; [| erewrite M_bind_Ok by (by apply filter_load_ok); cbn beta;
    erewrite M_bind_Ok by (by eapply filter_store_ok); reflexivity].
  cbn beta. destruct (refcount f =? 1); [| done].
  erewrite M_bind_Ok by (unfold slist_remove; cbn [st_head set_filters]; rewrite bool_decide_eq_true_2 by done; reflexivity).
  cbn beta. unfold syn_filter_free. erewrite M_bind_Ok by (apply filter_load_ok; cbn; apply lookup_insert_eq).
  cbn. unfold modify, set_filters, set_head. cbn. by rewrite delete_insert_eq.
Qed.

Lemma detach_ok s p f :
  st_locked s = false → st_filters s !! p = Some f → p ∈ st_head s →
  syn_filter_detach p s = Ok (tt, release p f s).
Proof.
  intros Hl Hf Hp. unfold syn_filter_detach.
  erewrite M_bind_Ok by (unfold SYN_FILTER_LOCK; rewrite Hl; reflexivity). cbn beta.
  erewrite M_bind_Ok by (by eapply detach_locked_ok). cbn beta.
  unfold SYN_FILTER_UNLOCK, release, set_filters, set_head, set_locked.
  destruct (refcount f =? 1); cbn; rewrite <- Hl; done.
Qed.

Lemma detach_locked_held s p f :
  st_filters s !! p = Some f → p ∈ st_head s →
  syn_filter_detach_locked p (set_locked true s) = Ok (tt, set_locked true (release p f s)).
Proof.
  intros Hf Hp. rewrite (detach_locked_ok (set_locked true s) p f) by done. unfold release.
  by destruct (refcount f =? 1).
Qed.

(** A filter on the list that is loaded or attached keeps the invariant when its last
    use but one goes. *)
Definition drop_ref (f : syn_filter_internal) : syn_filter_internal := mk_sfi (params f) (u32 (refcount f - 1)).

Lemma release_filters p f s r :
  st_filters (release p f s) !! r =
    if bool_decide (r = p) then (if refcount f =? 1 then None else Some (drop_ref f)) else st_filters s !! r.
Proof.
  unfold release, drop_ref. case_bool_decide as E; destruct (refcount f =? 1); cbn; subst;
    by rewrite ?lookup_delete_eq, ?lookup_insert_eq, ?lookup_delete_ne, ?lookup_insert_ne by done.
Qed.

Lemma release_others p f s :
  st_insts (release p f s) = st_insts s ∧ st_inps (release p f s) = st_inps s ∧ st_ctx (release p f s) = st_ctx s ∧
  st_locked (release p f s) = st_locked s ∧ st_next (release p f s) = st_next s ∧
  st_unloadable (release p f s) = st_unloadable s.
Proof. unfold release. by destruct (refcount f =? 1). Qed.

Lemma release_head p f s :
  st_head (release p f s) = if refcount f =? 1 then filter (fun x => x ≠ p) (st_head s) else st_head s.
Proof. unfold release. by destruct (refcount f =? 1). Qed.

Lemma release_lookup p f s r g : st_filters s !! p = Some f →
  st_filters (release p f s) !! r = Some g → ∃ g0, st_filters s !! r = Some g0 ∧ params g = params g0.
Proof.
  intros Hf. rewrite release_filters. case_bool_decide as E; [| by eauto].
  destruct (refcount f =? 1); [done |]. intros [= <-]. subst. by eexists.
Qed.

(** The state in which the code calls [syn_filter_detach_locked]: the count of [p] is
    one more than it should be. *)
Abbreviation over p := (ok_with (fun a => b2z (bool_decide (a = p)))).

(** An instance is counted. *)
Lemma attached_pos m q i : m !! q = Some (Some i) → 0 < attached m (sfi i).
Proof.
  intros Hq. pose proof (attached_delete m q (Some i) (sfi i) Hq) as E.
  cbn in E. rewrite bool_decide_eq_true_2 in E by done. cbn in E.
  pose proof (attached_le (delete q m) (sfi i)). lia.
Qed.

Lemma over_release p f s : over p s → st_filters s !! p = Some f → ok (release p f s).
Proof.
  intros O Hf. destruct (release_others p f s) as (Ei & En & Ec & El & Ex & _).
  destruct (ok_ref _ s O p f Hf) as [Er Hpos]. rewrite bool_decide_eq_true_2 in Er by done. cbn in Er.
  pose proof (attached_le (st_insts s) p) as Ha.
  assert (Hl0 : 0 <= b2z (loaded f)) by (destruct (loaded f); cbn; lia).
  split; rewrite ?Ei, ?En, ?Ec, ?El, ?Ex;
    try first [exact (ok_unlocked _ s O) | exact (ok_owner _ s O) | exact (ok_inj _ s O) | exact (ok_pos _ s O)].
  - rewrite release_head. destruct (refcount f =? 1); [apply NoDup_filter |]; apply O.
  - intros r. rewrite release_head, release_filters. pose proof (ok_head _ s O r) as Hh.
    destruct (refcount f =? 1); [rewrite list_elem_of_filter |]; case_bool_decide as E; subst.
    + split; [by intros [] | by intros []].
    + rewrite Hh. naive_solver.
    + split; [by eexists | intros _; apply Hh; by eexists].
    + done.
  - intros a b u v Ha' Hb'. apply release_lookup in Ha' as (u0 & Hu & ->); [| done].
    apply release_lookup in Hb' as (v0 & Hv & ->); [| done]. by apply (ok_names _ s O).
  - intros a u Hu. apply release_lookup in Hu as (u0 & Hu & ->); [| done]. by eapply ok_params.
  - intros a u. rewrite release_filters. case_bool_decide as E.
    + subst. destruct (Z.eqb_spec (refcount f) 1); [done |]. intros [= <-]. unfold drop_ref, loaded in *. cbn.
      rewrite wrap_u_id by lia. lia.
    + intros Hu. destruct (ok_ref _ s O a u Hu) as [Hr Hb]. rewrite bool_decide_eq_false_2 in Hr by done. cbn in Hr. lia.
  - intros q i Hq. rewrite release_filters. case_bool_decide as E; [| by eapply ok_inst].
    destruct (Z.eqb_spec (refcount f) 1); [| by eexists]. exfalso.
    pose proof (attached_pos _ _ _ Hq). rewrite E in *. lia.
  - intros q. rewrite release_filters. intros Hq. apply (ok_next _ s O).
    destruct Hq as [? | [Hq | ?]]; [by left | | by right; right]. right; left.
    case_bool_decide; [by subst; eexists | done].
  - intros q i u Hq Hu. apply release_lookup in Hu as (u0 & Hu & E); [| done].
    unfold is_api. rewrite E. by apply (ok_ctx _ s O q i u0).
  - intros q r i j u v Hq Hr Hu Hv. apply release_lookup in Hu as (u0 & Hu & Eu); [| done].
    apply release_lookup in Hv as (v0 & Hv & Ev); [| done]. unfold is_api. rewrite Eu, Ev.
    by apply (ok_ctx_inj _ s O).
Qed.

End SynFilterSpec.
