(* ===== verification/SynFilterSafe.v ===== *)
(** Safety of SYN filters: every operation of the module system, of the sockets and of
    the application returns and keeps the counts exact. *)
From S2P Require Import Prelude Printf Promisc SynFilter SynFilterSpec.
Import Printf Promisc SynFilter SynFilterSpec.

Module SynFilterSafe.

(** ** The lock *)

Lemma lock_ok s : st_locked s = false → SYN_FILTER_LOCK s = Ok (tt, set_locked true s).
Proof. intros H. unfold SYN_FILTER_LOCK. by rewrite H. Qed.

(** A section under the lock that leaves the lock alone. *)
Lemma locked_section {A} (body : F A) s a s' :
  st_locked s = false → body (set_locked true s) = Ok (a, set_locked true s') → st_locked s' = false →
  (_ ← SYN_FILTER_LOCK; r ← body; _ ← SYN_FILTER_UNLOCK; mret r) s = Ok (a, s').
Proof.
  intros Hl Hb Hl'. erewrite M_bind_Ok by (by apply lock_ok). cbn beta.
  erewrite M_bind_Ok by exact Hb. cbn beta. unfold mbind, M_bind, SYN_FILTER_UNLOCK. cbn.
  destruct s'. cbn in *. by subst.
Qed.

(** ** Loading and unloading *)

(** No filter of that name is left over from an unload. *)
Definition no_dead (s : state) (name : str) : Prop :=
  ∀ p f, st_filters s !! p = Some f → synf_name (params f) = name → loaded f = true.

Lemma add_loop_spec sf s l :
  (∀ p, p ∈ l → is_Some (st_filters s !! p)) → no_dead s (synf_name sf) →
  ∃ o, add_loop sf l s = Ok (o, s) ∧
    match o with
    | Some r => r = EEXIST
    | None => ∀ p f, p ∈ l → st_filters s !! p = Some f → synf_name (params f) ≠ synf_name sf
    end.
Proof.
  intros Hl Hd. induction l as [| p l IH]; cbn [add_loop].
  { exists None. split; [done |]. intros ? ? []%not_elem_of_nil. }
  destruct (Hl p) as [f Hf]; [constructor |]. erewrite M_bind_Ok by (by apply filter_load_ok). cbn beta.
  case_bool_decide as E.
  - pose proof (Hd p f Hf E) as Hlo. unfold loaded in Hlo. rewrite Hlo. by exists (Some EEXIST).
  - destruct IH as (o & -> & Ho); [intros; apply Hl; by constructor |]. exists o. split; [done |].
    destruct o; [done |]. intros q g [-> | Hq]%elem_of_cons Hg; [by simplify_eq | by eapply Ho].
Qed.

(** What a first load leaves. *)
Definition add_state (sf : syn_filter) (s : state) : state :=
  set_head (st_next s :: st_head s)
    (set_filters (<[st_next s := mk_sfi sf 1]> (st_filters s)) (set_next (S (st_next s)) s)).

Lemma fresh_filter s : ok s → st_filters s !! st_next s = None.
Proof. intros O. apply eq_None_not_Some. intros H. pose proof (ok_next _ s O (st_next s)). naive_solver lia. Qed.
Lemma fresh_inst s : ok s → st_insts s !! st_next s = None.
Proof. intros O. apply eq_None_not_Some. intros H. pose proof (ok_next _ s O (st_next s)). naive_solver lia. Qed.

Lemma ok_add sf s :
  ok s → params_ok sf → synf_callback sf ≠ FNull →
  (∀ p f, st_filters s !! p = Some f → synf_name (params f) ≠ synf_name sf) → ok (add_state sf s).
Proof.
  intros O Hp Hcb Hn. pose proof (fresh_filter s O) as Hf.
  assert (∀ r f, st_filters (add_state sf s) !! r = Some f →
    (r = st_next s ∧ f = mk_sfi sf 1) ∨ (r ≠ st_next s ∧ st_filters s !! r = Some f)) as Hlk.
  { intros r f. cbn. intros [[<- <-] | [? ?]]%lookup_insert_Some; auto. }
  assert (∀ q i, st_insts s !! q = Some (Some i) → sfi i ≠ st_next s) as Hno.
  { intros q i Hq E. destruct (ok_inst _ s O q i Hq) as [g Hg]. congruence. }
  split; cbn -[st_filters]; try first [exact (ok_unlocked _ s O) | exact (ok_owner _ s O) | exact (ok_inj _ s O)].
  - constructor; [| apply O]. rewrite (ok_head _ s O). intros []. congruence.
  - intros r. cbn. rewrite elem_of_cons, (ok_head _ s O). destruct (decide (r = st_next s)) as [-> | Hr].
    + rewrite lookup_insert_eq. split; [by eexists | by left].
    + rewrite lookup_insert_ne by done. naive_solver.
  - intros a b f g [[-> ->] | [Ha Hfa]]%Hlk [[-> ->] | [Hb Hfb]]%Hlk E; cbn in *; [done | | | by eapply (ok_names _ s O)].
    + by destruct (Hn _ _ Hfb).
    + by destruct (Hn _ _ Hfa).
  - intros a f [[-> ->] | [_ Hfa]]%Hlk; [done | by eapply ok_params].
  - intros a f [[-> ->] | [_ Hfa]]%Hlk; [| exact (ok_ref _ s O a f Hfa)].
    rewrite attached_none by done. unfold loaded. cbn. rewrite bool_decide_eq_false_2 by done. cbn. lia.
  - intros q i Hq. cbn. rewrite lookup_insert_ne by (symmetry; by eapply Hno). by eapply ok_inst.
  - intros q Hq. assert (q = st_next s ∨ (0 < q < st_next s)%nat) as [-> | ?]; [| pose proof (ok_pos _ s O); lia | lia].
    cbn in Hq. destruct (decide (q = st_next s)) as [-> | Hne]; [by left | right].
    rewrite lookup_insert_ne in Hq by done. by apply (ok_next _ s O).
  - lia.
  - intros q i f Hq [[E _] | [_ Hfa]]%Hlk; [by destruct (Hno q i Hq) | by apply (ok_ctx _ s O q i f)].
  - intros q r i j f g Hq Hr [[E _] | [_ Hfa]]%Hlk [[E' _] | [_ Hfb]]%Hlk;
      [by destruct (Hno _ _ Hq) | by destruct (Hno _ _ Hq) | by destruct (Hno _ _ Hr) | by apply (ok_ctx_inj _ s O q r i j f g)].
Qed.

(** The module system's view of a load: once. *)
Lemma syn_filter_add_ok sf s :
  ok s → params_ok sf → synf_callback sf ≠ FNull → no_dead s (synf_name sf) →
  ∃ r s', syn_filter_add sf s = Ok (r, s') ∧ ok s' ∧
    ((r = EEXIST ∧ s' = s) ∨
     (r = 0 ∧ named s (synf_name sf) None ∧ s' = add_state sf s)).
Proof.
  intros O Hp Hcb Hd. pose proof (ok_unlocked _ s O) as Hl.
  destruct (add_loop_spec sf (set_locked true s) (st_head s)) as (o & E & Ho).
  { intros p. apply (ok_head _ s O). }
  { exact Hd. }
  unfold syn_filter_add. erewrite M_bind_Ok by (by apply lock_ok). cbn beta.
  erewrite M_bind_Ok by reflexivity. cbn beta. cbn [st_head set_locked].
  erewrite M_bind_Ok by exact E. cbn beta. destruct o as [r |].
  - exists EEXIST, s. subst r. split; [| by eauto]. destruct s. cbn in *. by subst.
  - assert (named s (synf_name sf) None) as Hn.
    { intros p f Hf. apply (Ho p f); [apply (ok_head _ s O); by eexists | exact Hf]. }
    exists 0, (add_state sf s). split; [destruct s; cbn in *; by subst |]. split; [by apply ok_add | by auto].
Qed.

(** ** Unloading *)

Definition null_cb (f : syn_filter_internal) : syn_filter_internal :=
  mk_sfi (mk_sf (synf_name (params f)) FNull (synf_create (params f)) (synf_destroy (params f))) (refcount f).

Definition unload_state (p : nat) (f : syn_filter_internal) (s : state) : state :=
  release p (null_cb f) (set_filters (<[p := null_cb f]> (st_filters s)) s).

Lemma ok_unload p f s :
  ok s → st_filters s !! p = Some f → loaded f = true → ok (unload_state p f s).
Proof.
  intros O Hf Hl. apply over_release; [| cbn; apply lookup_insert_eq].
  assert (∀ r g, st_filters (set_filters (<[p := null_cb f]> (st_filters s)) s) !! r = Some g →
    ∃ g0, st_filters s !! r = Some g0 ∧ synf_name (params g) = synf_name (params g0) ∧
      (synf_create (params g) = synf_create (params g0)) ∧ refcount g = refcount g0 ∧ params_ok (params g) ∧
      (r = p ∧ loaded g = false ∧ g0 = f ∨ r ≠ p ∧ g = g0)) as Hlk.
  { intros r g. cbn. intros [[<- <-] | [? Hg]]%lookup_insert_Some.
    - exists f. repeat (split; [done |]). split; [| by left]. pose proof (ok_params _ s O p f Hf) as (H1 & H2 & H3). by split.
    - exists g. repeat (split; [done |]). split; [by eapply ok_params | by right]. }
  split; try first [exact (ok_unlocked _ s O) | exact (ok_nodup _ s O) | exact (ok_owner _ s O) | exact (ok_inj _ s O) | exact (ok_pos _ s O)].
  - intros r. cbn. rewrite (ok_head _ s O), lookup_insert_is_Some. split; [destruct (decide (p = r)); auto |].
    intros [-> | [_ H]]; [by eexists | done].
  - intros a b g h (g0 & Hg & -> & _)%Hlk (h0 & Hh & -> & _)%Hlk. by apply (ok_names _ s O).
  - by intros a g (_ & _ & _ & _ & _ & Hp & _)%Hlk.
  - intros a g (g0 & Hg & _ & _ & Er & _ & Hc)%Hlk. cbn [st_insts set_filters].
    destruct (ok_ref _ s O a g0 Hg) as [Hr Hb]. destruct Hc as [(-> & Hlg & ->) | [Hne ->]].
    + rewrite Hlg, bool_decide_eq_true_2 by done. rewrite Hl in Hr. cbn in *. lia.
    + rewrite bool_decide_eq_false_2 by done. cbn. lia.
  - intros q i Hq. cbn. rewrite lookup_insert_is_Some. destruct (decide (p = sfi i)); [by left | right].
    split; [done | by eapply ok_inst].
  - intros q Hq. apply (ok_next _ s O). cbn in Hq. rewrite lookup_insert_is_Some in Hq. 
    destruct Hq as [? | [[-> | [_ ?]] | ?]]; [by left | | by right; left | by right; right]. right; left. by eexists.
  - intros q i g Hq (g0 & Hg & _ & Ec & _)%Hlk. unfold is_api. rewrite Ec. by apply (ok_ctx _ s O q i g0).
  - intros q r i j g h Hq Hr (g0 & Hg & _ & Ec & _)%Hlk (h0 & Hh & _ & Ec' & _)%Hlk. unfold is_api. rewrite Ec, Ec'.
    by apply (ok_ctx_inj _ s O q r i j g0 h0).
Qed.

Lemma syn_filter_del_ok name s :
  ok s → no_dead s name →
  ∃ s', syn_filter_del name s = Ok (0, s') ∧ ok s' ∧
    (named s name None ∧ s' = s ∨ ∃ p f, st_filters s !! p = Some f ∧ synf_name (params f) = name ∧ s' = unload_state p f s).
Proof.
  intros O Hd. pose proof (ok_unlocked _ s O) as Hl.
  destruct (get_spec name (set_locked true s) (ok_head _ s O)) as (o & E & Ho).
  unfold syn_filter_del. erewrite M_bind_Ok by (by apply lock_ok). cbn beta.
  erewrite M_bind_Ok by exact E. cbn beta. destruct o as [p |].
  - destruct Ho as (f & Hf & Hn). cbn in Hf. exists (unload_state p f s).
    pose proof (Hd p f Hf Hn) as Hlo. 
    rewrite (M_bind_Ok _ _ _ tt (set_locked true (unload_state p f s))).
    2: { erewrite M_bind_Ok by (by apply filter_load_ok). cbn beta.
         erewrite M_bind_Ok by (by eapply filter_store_ok). cbn beta.
         refine (detach_locked_held (set_filters (<[p := null_cb f]> (st_filters s)) s) p (null_cb f) _ _);
           [cbn; apply lookup_insert_eq | apply (ok_head _ s O); by eexists]. }
    cbn beta. pose proof (ok_unload p f s O Hf Hlo) as O'.
    split; [| split; [done | right; by eauto]].
    unfold mbind, M_bind, SYN_FILTER_UNLOCK. cbn [st_locked set_locked]. pose proof (ok_unlocked _ _ O') as Hl'.
    unfold unload_state in *. set (s2 := release _ _ _) in *. clearbody s2. destruct s2. cbn in *. by subst.
  - exists s. split; [| by eauto]. destruct s. cbn in *. by subst.
Qed.

(** ** Removing an instance *)

(** The control block of [n] changes, but not its filter. *)
Lemma ok_inp_same n ip jp s :
  ok s → st_inps s !! n = Some ip → inp_synf jp = inp_synf ip → ok (set_inps (<[n := jp]> (st_inps s)) s).
Proof.
  intros O Hn E.
  assert (∀ m kp, st_inps (set_inps (<[n := jp]> (st_inps s)) s) !! m = Some kp →
    ∃ k0, st_inps s !! m = Some k0 ∧ inp_synf kp = inp_synf k0) as Hlk.
  { intros m kp. cbn. intros [[<- <-] | [? ?]]%lookup_insert_Some; eauto. }
  destruct O. split; try done.
  - intros m kp q (k0 & Hk & ->)%Hlk. by eapply ok_owner0.
  - intros m m' kp kp' q (k0 & Hk & ->)%Hlk (k1 & Hk' & ->)%Hlk. by eapply ok_inj0.
Qed.

Definition arg_addr (i : syn_filter_instance) : nat := Z.to_nat (default 0 (instance_arg i)).

(** What the destructor of the filter does. *)
Definition dtor_state (f : syn_filter_internal) (i : syn_filter_instance) (s : state) : state :=
  if bool_decide (synf_destroy (params f) = Some FApi) then set_ctx (delete (arg_addr i) (st_ctx s)) s else s.

Lemma run_destroy_ok f i n s :
  (synf_destroy (params f) = Some FApi → ∃ a, instance_arg i = Some (Z.of_nat a) ∧ is_Some (st_ctx s !! a)) →
  run_destroy f n (instance_arg i) s = Ok (tt, dtor_state f i s).
Proof.
  intros Hc. unfold run_destroy, dtor_state. destruct (synf_destroy (params f)) as [[] |]; try done.
  destruct (Hc eq_refl) as (a & Ea & [c Hcc]). unfold call_destroy, uinet_api_synfilter_dtor, arg_addr. rewrite Ea.
  cbn [default]. erewrite M_bind_Ok by (unfold ctx_load; rewrite Nat2Z.id, Hcc; reflexivity). done.
Qed.

(** The state in which the filter's reference is still held. *)
Definition gone (n : nat) (ip : inpcb) (q : nat) (i : syn_filter_instance) (f : syn_filter_internal) (s : state) : state :=
  set_inps (<[n := mk_inp (so_promisc ip) None (clear_flag (inp_flags2 ip) INP_SYNFILTER) (inp_l2info ip)]> (st_inps s))
    (set_insts (delete q (st_insts s)) (dtor_state f i s)).

Lemma gone_fields n ip q i f s :
  st_filters (gone n ip q i f s) = st_filters s ∧ st_head (gone n ip q i f s) = st_head s ∧
  st_locked (gone n ip q i f s) = st_locked s ∧ st_next (gone n ip q i f s) = st_next s ∧
  st_ctx (gone n ip q i f s) = (if bool_decide (synf_destroy (params f) = Some FApi)
                                then delete (arg_addr i) (st_ctx s) else st_ctx s).
Proof. unfold gone, dtor_state. by destruct (bool_decide _). Qed.

Lemma gone_over n ip q i f s :
  ok s → st_inps s !! n = Some ip → inp_synf ip = Some q → st_insts s !! q = Some (Some i) →
  st_filters s !! sfi i = Some f → over (sfi i) (gone n ip q i f s).
Proof.
  intros O Hn Hq Hi Hf. destruct (gone_fields n ip q i f s) as (Ef & Eh & El & Ex & Ec).
  pose proof (ok_params _ s O _ _ Hf) as (Hpar & _ & _).
  split; rewrite ?Ef, ?Eh, ?El, ?Ex, ?Ec; cbn [gone set_inps set_insts st_insts st_inps];
    try first [exact (ok_unlocked _ s O) | exact (ok_nodup _ s O) | exact (ok_head _ s O) | exact (ok_names _ s O)
              | exact (ok_params _ s O) | exact (ok_pos _ s O)].
  - intros a g Hg. destruct (ok_ref _ s O a g Hg) as [Hr Hb]. rewrite (attached_delete _ _ (Some i)) by done. cbn [is_at].
    rewrite (bool_decide_ext (a = sfi i) (sfi i = a)) by done. lia.
  - intros r j [_ Hj]%lookup_delete_Some. by eapply ok_inst.
  - intros m kp r [[<- <-] | [Hne Hk]]%lookup_insert_Some Hr; [done |].
    destruct (ok_owner _ s O m kp r Hk Hr) as [j Hj]. exists j. rewrite lookup_delete_ne; [done |].
    intros ->. destruct Hne. by eapply (ok_inj _ s O).
  - intros m m' kp kp' r [[<- <-] | [_ Hk]]%lookup_insert_Some [[<- <-] | [_ Hk']]%lookup_insert_Some Hr Hr'; try done.
    by eapply (ok_inj _ s O).
  - intros r Hr. apply (ok_next _ s O). destruct Hr as [[o [_ Hr]%lookup_delete_Some] | [Hr | Hr]]; [left; by eexists | by right; left |].
    right; right. case_bool_decide; [| done]. destruct Hr as [c [_ Hc]%lookup_delete_Some]. by eexists.
  - intros r j g [Hne Hj]%lookup_delete_Some Hg Ha. destruct (ok_ctx _ s O r j g Hj Hg Ha) as (a & Ea & Hc).
    exists a. split; [done |]. case_bool_decide as Ed; [| done]. rewrite lookup_delete_ne; [done |]. intros E.
    apply Hpar in Ed. destruct (ok_ctx _ s O q i f Hi Hf Ed) as (b & Eb & _). unfold arg_addr in E. rewrite Eb in E.
    cbn in E. rewrite Nat2Z.id in E. subst b. apply Hne. apply (ok_ctx_inj _ s O q r i j f g); try done. by rewrite Ea, Eb.
  - intros r r' j k g h [_ Hj]%lookup_delete_Some [_ Hk]%lookup_delete_Some. by apply (ok_ctx_inj _ s O).
Qed.

Definition removed (n : nat) (ip : inpcb) (s : state) (s' : state) : Prop :=
  match inp_synf ip with
  | None => s' = set_inps (<[n := mk_inp (so_promisc ip) None (clear_flag (inp_flags2 ip) INP_SYNFILTER) (inp_l2info ip)]> (st_inps s)) s
  | Some q => ∃ i f, st_insts s !! q = Some (Some i) ∧ st_filters s !! sfi i = Some f ∧
                s' = release (sfi i) f (gone n ip q i f s)
  end.

(** [release] touches the filters only. *)
Lemma release_commutes p f s v w :
  set_inps v (set_insts w (release p f s)) = release p f (set_inps v (set_insts w s)).
Proof. unfold release. by destruct (refcount f =? 1). Qed.

Lemma set_locked_id s : st_locked s = false → set_locked false s = s.
Proof. destruct s. cbn. by intros ->. Qed.

(** Both ways of the destructor to the filter's [synf_destroy] and to its reference. *)
Lemma destroy_and_detach f i n s :
  ok s → st_filters s !! sfi i = Some f →
  (synf_destroy (params f) = Some FApi → ∃ a, instance_arg i = Some (Z.of_nat a) ∧ is_Some (st_ctx s !! a)) →
  (u ← gets st_unloadable;
   if (u : bool) then
     _ ← SYN_FILTER_LOCK; f ← filter_load (sfi i); _ ← run_destroy f n (instance_arg i);
     _ ← syn_filter_detach_locked (sfi i); SYN_FILTER_UNLOCK
   else f ← filter_load (sfi i); _ ← run_destroy f n (instance_arg i); syn_filter_detach (sfi i)) s
  = Ok (tt, release (sfi i) f (dtor_state f i s)).
Proof.
  intros O Hf Hc. pose proof (ok_unlocked _ s O) as Hl. erewrite M_bind_Ok by reflexivity. cbn beta.
  assert (sfi i ∈ st_head s) as Hh by (apply (ok_head _ s O); by eexists).
  assert (st_filters (dtor_state f i s) !! sfi i = Some f ∧ sfi i ∈ st_head (dtor_state f i s) ∧
    st_locked (dtor_state f i s) = false) as (Hf' & Hh' & Hl') by (unfold dtor_state; by destruct (bool_decide _)).
  destruct (st_unloadable s).
  - erewrite M_bind_Ok by (by apply lock_ok). cbn beta. erewrite M_bind_Ok by (by apply filter_load_ok). cbn beta.
    erewrite M_bind_Ok by (by apply run_destroy_ok). cbn beta.
    replace (dtor_state f i (set_locked true s)) with (set_locked true (dtor_state f i s))
      by (unfold dtor_state; by destruct (bool_decide _)).
    erewrite M_bind_Ok by (by apply detach_locked_held). cbn beta. unfold SYN_FILTER_UNLOCK. cbn [st_locked set_locked].
    f_equal. f_equal. change (set_locked false (set_locked true ?x)) with (set_locked false x). apply set_locked_id.
    destruct (release_others (sfi i) f (dtor_state f i s)) as (_ & _ & _ & -> & _). done.
  - erewrite M_bind_Ok by (by apply filter_load_ok). cbn beta.
    erewrite M_bind_Ok by (by apply run_destroy_ok). cbn beta. by apply detach_ok.
Qed.

Lemma run_destructor_ok n ip s :
  ok s → st_inps s !! n = Some ip → ∃ s', syn_filter_run_destructor n s = Ok (tt, s') ∧ ok s' ∧ removed n ip s s'.
Proof.
  intros O Hn. unfold syn_filter_run_destructor, removed.
  erewrite M_bind_Ok by (unfold inp_load; rewrite Hn; reflexivity). cbn beta.
  destruct (inp_synf ip) as [q |] eqn:Hq.
  - destruct (ok_owner _ s O n ip q Hn Hq) as [i Hi]. destruct (ok_inst _ s O q i Hi) as [f Hf].
    exists (release (sfi i) f (gone n ip q i f s)). split; [| split; [| by eauto]].
    2: { apply over_release; [by apply gone_over | by rewrite (proj1 (gone_fields n ip q i f s))]. }
    pose proof (ok_params _ s O _ _ Hf) as (Hpar & _ & _).
    set (s1 := release (sfi i) f (dtor_state f i s)).
    rewrite (M_bind_Ok _ _ _ tt (set_inps (<[n := mk_inp (so_promisc ip) None (inp_flags2 ip) (inp_l2info ip)]> (st_inps s1))
      (set_insts (delete q (st_insts s1)) s1))).
    2: { erewrite M_bind_Ok by (unfold inst_load; rewrite Hi; reflexivity). cbn beta. rewrite M_bind_assoc.
         erewrite M_bind_Ok; [reflexivity |]. apply destroy_and_detach; [done | done |].
         intros Hd. apply (ok_ctx _ s O q i f Hi Hf). by apply Hpar. }
    cbn beta. erewrite M_bind_Ok by (unfold inp_load; cbn [st_inps set_inps]; rewrite lookup_insert_eq; reflexivity).
    cbn beta. unfold inp_store, modify. cbn [so_promisc inp_synf inp_flags2 inp_l2info].
    f_equal. f_equal. unfold gone. rewrite <- release_commutes. unfold set_inps, set_insts. cbn. unfold s1.
    destruct (release_others (sfi i) f (dtor_state f i s)) as (-> & -> & _). rewrite insert_insert_eq.
    unfold dtor_state. by destruct (bool_decide _).
  - eexists. split; [| split; [| reflexivity]].
    + erewrite M_bind_Ok by reflexivity. cbn beta.
      erewrite M_bind_Ok by (unfold inp_load; rewrite Hn; reflexivity). cbn beta. by rewrite Hq.
    + by eapply ok_inp_same.
Qed.

(** ** Attaching *)

Definition add_ref (f : syn_filter_internal) : syn_filter_internal := mk_sfi (params f) (refcount f + 1).

Lemma attach_ok name s o :
  st_locked s = false → (∀ p, p ∈ st_head s ↔ is_Some (st_filters s !! p)) →
  (∀ p f, st_filters s !! p = Some f → 0 <= refcount f < 2 ^ 32 - 1) →
  syn_filter_get_locked name s = Ok (o, s) → named s name o →
  syn_filter_attach name s =
    Ok (o, match o with
           | Some p => match st_filters s !! p with Some f => set_filters (<[p := add_ref f]> (st_filters s)) s | None => s end
           | None => s
           end).
Proof.
  intros Hl Hh Hb Hg Hn. unfold syn_filter_attach. erewrite M_bind_Ok by (by apply lock_ok). cbn beta.
  destruct (get_spec name (set_locked true s) Hh) as (o' & E & Ho').
  assert (o' = o) as ->.
  { unfold syn_filter_get_locked in *. erewrite M_bind_Ok in Hg, E by reflexivity. cbn [st_head set_locked] in *.
    assert (∀ l, get_loop name l (set_locked true s) = match get_loop name l s with Ok (r, t) => Ok (r, set_locked true t) | Fault x => Fault x end) as Hgl.
    { induction l as [| x l IH]; [done |]. cbn [get_loop]. unfold mbind, M_bind, filter_load. cbn.
      destruct (st_filters s !! x); [| done]. case_bool_decide; [done | exact IH]. }
    rewrite Hgl, Hg in E. by injection E. }
  erewrite M_bind_Ok by exact E. cbn beta. destruct o as [p |].
  - destruct Hn as (f & Hf & _). rewrite Hf. specialize (Hb p f Hf). unfold refcount_acquire.
    erewrite M_bind_Ok; [| erewrite M_bind_Ok by (by apply filter_load_ok); cbn beta; by eapply filter_store_ok].
    cbn beta. rewrite wrap_u_id by lia. unfold mbind, M_bind, SYN_FILTER_UNLOCK. cbn. destruct s. cbn in *. by subst.
  - unfold mbind, M_bind, mret, M_ret, SYN_FILTER_UNLOCK. cbn. destruct s. cbn in *. by subst.
Qed.

Section Safe.

Context (other_callback : nat → nat → option Z → syn_filter_cbarg → Z).
Context (other_create : nat → nat → list Z → option Z).
Context (app_callback : nat → nat → Z → syn_filter_cbarg → Z).

Abbreviation run_callback := (syn_filter_run_callback other_callback app_callback).
Abbreviation run_constructor := (syn_filter_run_constructor other_create).
Abbreviation setopt := (syn_filter_setopt other_create).

Definition ctor_result (f : syn_filter_internal) (n : nat) (carg : list Z) : option Z :=
  match synf_create (params f) with Some c => call_create other_create c n carg | None => Some (Z.of_nat n) end.

Lemma run_constructor_ok n ip q i f s :
  st_locked s = false → st_inps s !! n = Some ip → inp_synf ip = Some q → st_insts s !! q = Some (Some i) →
  st_filters s !! sfi i = Some f → run_constructor n s = Ok (ctor_result f n (ctor_arg i), s).
Proof.
  intros Hl Hn Hq Hi Hf. unfold syn_filter_run_constructor.
  erewrite M_bind_Ok by (unfold inp_load; rewrite Hn; reflexivity). cbn beta. rewrite Hq.
  erewrite M_bind_Ok by (unfold inst_load; rewrite Hi; reflexivity). cbn beta.
  erewrite M_bind_Ok by reflexivity. cbn beta. destruct (st_unloadable s).
  - apply locked_section; [done | | done]. erewrite M_bind_Ok by (by apply filter_load_ok). done.
  - erewrite M_bind_Ok by (by apply filter_load_ok). done.
Qed.

Definition carg_of (sfa : syn_filter_optarg) : list Z := take (SYNF_ARG_MAX - 1) (sfa_arg sfa) ++ [0].
Definition name_of (sfa : syn_filter_optarg) : str := cstr (take (SYNF_NAME_MAX - 1) (sfa_name sfa)).

(** The state with the instance in place. *)
Definition attached_state (n : nat) (ip : inpcb) (p : nat) (f : syn_filter_internal) (carg : list Z) (r : Z) (s : state) : state :=
  set_next (S (st_next s))
    (set_inps (<[n := mk_inp (so_promisc ip) (Some (st_next s)) (Z.lor (inp_flags2 ip) INP_SYNFILTER) (inp_l2info ip)]> (st_inps s))
      (set_insts (<[st_next s := Some (mk_inst p carg (Some r))]> (st_insts s))
        (set_filters (<[p := add_ref f]> (st_filters s)) s))).

Definition wasted (s : state) : state := set_next (S (st_next s)) s.

Lemma ok_wasted s : ok s → ok (wasted s).
Proof.
  intros []. split; try done; [| cbn; lia]. intros q Hq. cbn. specialize (ok_next0 q Hq). lia.
Qed.

(** A slot is left for one more reference. *)
Lemma ref_bound s p f :
  ok s → Z.of_nat (size (st_insts s)) < 2 ^ 32 - 2 → st_filters s !! p = Some f → 0 <= refcount f < 2 ^ 32 - 1.
Proof.
  intros O Hb Hf. destruct (ok_ref _ s O p f Hf) as [Hr _]. pose proof (attached_le (st_insts s) p).
  destruct (loaded f); cbn in Hr; lia.
Qed.

Lemma ok_attached n ip p f carg r s :
  ok s → Z.of_nat (size (st_insts s)) < 2 ^ 32 - 2 → st_inps s !! n = Some ip → inp_synf ip = None →
  st_filters s !! p = Some f →
  (is_api f → ∃ a, r = Z.of_nat a ∧ is_Some (st_ctx s !! a) ∧
    ∀ q i g, st_insts s !! q = Some (Some i) → st_filters s !! sfi i = Some g → is_api g → instance_arg i ≠ Some r) →
  ok (attached_state n ip p f carg r s).
Proof.
  intros O Hb Hn Hq Hf Hapi. pose proof (fresh_inst s O) as Hfr. pose proof (ref_bound s p f O Hb Hf) as Hrb.
  assert (∀ a g, st_filters (attached_state n ip p f carg r s) !! a = Some g →
    ∃ g0, st_filters s !! a = Some g0 ∧ params g = params g0 ∧ refcount g = refcount g0 + b2z (bool_decide (a = p))) as Hlk.
  { intros a g. cbn. intros [[<- <-] | [? Hg]]%lookup_insert_Some.
    - exists f. by rewrite bool_decide_eq_true_2.
    - exists g. rewrite bool_decide_eq_false_2 by done. cbn. split; [done | split; [done | lia]]. }
  assert (∀ x j, st_insts (attached_state n ip p f carg r s) !! x = Some (Some j) →
    (x = st_next s ∧ j = mk_inst p carg (Some r)) ∨ (x ≠ st_next s ∧ st_insts s !! x = Some (Some j))) as Hli.
  { intros x j. cbn. intros [[<- [= <-]] | [? ?]]%lookup_insert_Some; auto. }
  assert (∀ m kp x, st_inps (attached_state n ip p f carg r s) !! m = Some kp → inp_synf kp = Some x →
    (m = n ∧ x = st_next s) ∨ (st_inps s !! m = Some kp ∧ x ≠ st_next s)) as Hln.
  { intros m kp x. cbn. intros [[<- <-] | [? Hk]]%lookup_insert_Some Hx; [cbn in Hx; simplify_eq; by left |].
    right. split; [done |]. intros ->. destruct (ok_owner _ s O m kp _ Hk Hx) as [j Hj]. congruence. }
  split; try first [exact (ok_unlocked _ s O) | exact (ok_nodup _ s O)].
  - intros a. cbn. rewrite (ok_head _ s O), lookup_insert_is_Some. destruct (decide (p = a)) as [-> |]; [| by split; [auto | intros [? | [_ ?]]]].
    split; [by left | intros _; by eexists].
  - intros a b g h (g0 & Hg & -> & _)%Hlk (h0 & Hh & -> & _)%Hlk. by apply (ok_names _ s O).
  - intros a g (g0 & Hg & -> & _)%Hlk. by eapply ok_params.
  - intros a g (g0 & Hg & Ep & Er)%Hlk. destruct (ok_ref _ s O a g0 Hg) as [Hr Hrr].
    unfold loaded in *. rewrite Ep. cbn [st_insts attached_state set_next set_inps set_insts].
    rewrite attached_fresh by done. cbn [is_at sfi]. rewrite (bool_decide_ext (p = a) (a = p)) by done.
    pose proof (ref_bound s a g0 O Hb Hg). split; [lia |]. rewrite Er. destruct (bool_decide (a = p)); cbn; lia.
  - intros x j Hj%Hli. cbn. rewrite lookup_insert_is_Some. destruct (decide (p = sfi j)); [by left | right].
    split; [done |]. destruct Hj as [[-> ->] | [_ Hj]]; [done | by eapply ok_inst].
  - intros m kp x Hk Hx. destruct (Hln m kp x Hk Hx) as [[-> ->] | [Hk' Hne]].
    + cbn. eexists. apply lookup_insert_eq.
    + cbn. rewrite lookup_insert_ne by done. by apply (ok_owner _ s O m kp).
  - intros m m' kp kp' x Hk Hk' Hx Hx'.
    destruct (Hln m kp x Hk Hx) as [[-> ->] | [? ?]], (Hln m' kp' _ Hk' Hx') as [[-> ?] | [? ?]]; try done.
    by eapply (ok_inj _ s O).
  - intros x Hx. pose proof (ok_pos _ s O). assert (x = st_next s ∨ (0 < x < st_next s)%nat); [| cbn; lia].
    destruct (decide (x = st_next s)) as [-> | Hne]; [by left | right]. apply (ok_next _ s O). cbn in Hx.
    rewrite lookup_insert_ne in Hx by done. rewrite lookup_insert_is_Some in Hx.
    destruct Hx as [? | [[-> | [_ ?]] | ?]]; [by left | | by right; left | by right; right]. right; left. by eexists.
  - cbn. lia.
  - intros x j g Hj%Hli (g0 & Hg & Ep & _)%Hlk Ha. unfold is_api in Ha. rewrite Ep in Ha.
    destruct Hj as [[-> ->] | [_ Hj]]; [| by apply (ok_ctx _ s O x j g0)].
    cbn in *. simplify_eq. destruct (Hapi Ha) as (a & -> & Hc & _). by exists a.
  - intros x y j k g h Hj%Hli Hk%Hli (g0 & Hg & Ep & _)%Hlk (h0 & Hh & Ep' & _)%Hlk Ha Ha' E.
    unfold is_api in Ha, Ha'. rewrite Ep in Ha. rewrite Ep' in Ha'.
    destruct Hj as [[-> ->] | [_ Hj]], Hk as [[-> ->] | [_ Hk]]; try done; cbn in *; simplify_eq.
    + destruct (Hapi Ha) as (_ & _ & _ & Hno). by destruct (Hno y k h0 Hk Hh Ha').
    + destruct (Hapi Ha') as (_ & _ & _ & Hno). by destruct (Hno x j g0 Hj Hg Ha).
    + by apply (ok_ctx_inj _ s O x y j k g0 h0).
Qed.

(** The filter an option names, and what its constructor makes of the argument. *)
Definition outcome (n : nat) (ip : inpcb) (sfa : syn_filter_optarg) (s : state) (r : Z) (s' : state) : Prop :=
  (r = EINVAL ∧ is_Some (inp_synf ip) ∧ s' = wasted s) ∨
  (r = ENOENT ∧ inp_synf ip = None ∧ named s (name_of sfa) None ∧ s' = wasted s) ∨
  (∃ p f, inp_synf ip = None ∧ st_filters s !! p = Some f ∧ synf_name (params f) = name_of sfa ∧
     match ctor_result f n (carg_of sfa) with
     | None => r = EINVAL ∧ s' = wasted s
     | Some a => r = 0 ∧ s' = attached_state n ip p f (carg_of sfa) a s
     end).

(** The state in which the instance has been allocated. *)
Definition allocated (s : state) : state := set_insts (<[st_next s := None]> (st_insts s)) (wasted s).

(** The state in which the constructor runs. *)
Definition constructing (n : nat) (ip : inpcb) (p : nat) (f : syn_filter_internal) (carg : list Z) (r : option Z) (s : state) : state :=
  mk_st (<[p := add_ref f]> (st_filters s)) (st_head s) (<[st_next s := Some (mk_inst p carg r)]> (st_insts s))
    (<[n := mk_inp (so_promisc ip) (Some (st_next s)) (inp_flags2 ip) (inp_l2info ip)]> (st_inps s)) (st_ctx s) (st_defer s)
    (st_unloadable s) (st_locked s) (S (st_next s)) (st_mbufs s).

Lemma constructing_ctor n ip p f carg s :
  st_locked s = false →
  run_constructor n (constructing n ip p f carg None s) = Ok (ctor_result f n carg, constructing n ip p f carg None s).
Proof.
  intros Hl. rewrite (run_constructor_ok n (mk_inp (so_promisc ip) (Some (st_next s)) (inp_flags2 ip) (inp_l2info ip)) (st_next s)
    (mk_inst p carg None) (add_ref f)); [done | done | | done | |]; cbn [constructing st_inps st_insts st_filters sfi]; apply lookup_insert_eq.
Qed.

(** Undoing the attachment when the constructor fails. *)
Lemma constructing_undo n ip p f carg s :
  ok s → Z.of_nat (size (st_insts s)) < 2 ^ 32 - 2 → st_filters s !! p = Some f → st_inps s !! n = Some ip → inp_synf ip = None →
  (_ ← syn_filter_detach p; inp_store n (mk_inp (so_promisc ip) None (inp_flags2 ip) (inp_l2info ip)))
    (constructing n ip p f carg None s)
  = Ok (tt, set_insts (<[st_next s := Some (mk_inst p carg None)]> (st_insts s)) (wasted s)).
Proof.
  intros O Hb Hf Hn Hq. pose proof (ok_ref _ s O p f Hf) as [_ Hr]. pose proof (ref_bound s p f O Hb Hf).
  erewrite M_bind_Ok.
  2: { apply (detach_ok _ p (add_ref f)); [exact (ok_unlocked _ s O) | apply lookup_insert_eq | apply (ok_head _ s O); by eexists]. }
  unfold release, add_ref. cbn [refcount params]. rewrite (proj2 (Z.eqb_neq _ _)) by lia.
  replace (u32 (refcount f + 1 - 1)) with (refcount f) by (rewrite wrap_u_id by lia; lia).
  unfold inp_store, modify, constructing, set_inps, set_filters. cbn [st_filters st_head st_insts st_inps st_ctx st_defer st_unloadable st_locked st_next st_mbufs].
  rewrite !insert_insert_eq.
  replace (mk_sfi (params f) (refcount f)) with f by (by destruct f). rewrite (insert_id (st_filters s)) by done.
  replace (mk_inp (so_promisc ip) None (inp_flags2 ip) (inp_l2info ip)) with ip by (destruct ip; cbn in *; by subst).
  by rewrite (insert_id (st_inps s)) by done.
Qed.

Lemma allocated_attach s p f name :
  ok s → Z.of_nat (size (st_insts s)) < 2 ^ 32 - 2 → st_filters s !! p = Some f → synf_name (params f) = name →
  syn_filter_get_locked name (allocated s) = Ok (Some p, allocated s) →
  syn_filter_attach name (allocated s) = Ok (Some p, set_filters (<[p := add_ref f]> (st_filters s)) (allocated s)).
Proof.
  intros O Hb Hf Hn Eg. rewrite (attach_ok name (allocated s) (Some p) (ok_unlocked _ s O) (ok_head _ s O) (λ p f, ref_bound s p f O Hb) Eg).
  - cbn [allocated set_insts wasted set_next st_filters]. by rewrite Hf.
  - by exists f.
Qed.

(** The part under the control block's lock, and what it does with the instance. *)
Lemma setopt_attach_ok n ip sfa s :
  ok s → Z.of_nat (size (st_insts s)) < 2 ^ 32 - 2 → st_inps s !! n = Some ip →
  ∃ r s', outcome n ip sfa s r s' ∧
    if r =? 0 then setopt_attach other_create n (st_next s) sfa (allocated s) = Ok ((0, true), s')
    else s' = wasted s ∧ ∃ v, setopt_attach other_create n (st_next s) sfa (allocated s) =
           Ok ((r, false), set_insts (<[st_next s := v]> (st_insts s)) (wasted s)).
Proof.
  intros O Hb Hn. pose proof (ok_unlocked _ s O) as Hl. unfold setopt_attach, outcome.
  erewrite M_bind_Ok by (unfold inp_load; cbn [allocated st_inps set_insts wasted set_next]; rewrite Hn; reflexivity). cbn beta.
  destruct (inp_synf ip) as [q0 |] eqn:Hq.
  { exists EINVAL, (wasted s). split; [left; eauto |]. cbn. split; [done | by exists None]. }
  destruct (get_spec (name_of sfa) (allocated s) (ok_head _ s O)) as (o & Eg & Ho). destruct o as [p |].
  2: { exists ENOENT, (wasted s). split; [right; left; eauto |]. split; [done |]. exists None.
       erewrite M_bind_Ok by (exact (attach_ok (name_of sfa) (allocated s) None Hl (ok_head _ s O) (λ p f, ref_bound s p f O Hb) Eg Ho)). done. }
  destruct Ho as (f & Hf & Hname). change (st_filters s !! p = Some f) in Hf.
  erewrite M_bind_Ok by (exact (allocated_attach s p f (name_of sfa) O Hb Hf Hname Eg)). cbn beta iota zeta.
  change (take (SYNF_ARG_MAX - 1) (sfa_arg sfa) ++ [0]) with (carg_of sfa).
  erewrite M_bind_Ok by reflexivity. cbn beta. erewrite M_bind_Ok by reflexivity. cbn beta.
  match goal with |- context [mbind _ (run_constructor n) ?t] =>
    replace t with (constructing n ip p f (carg_of sfa) None s)
      by (unfold constructing, allocated, wasted, set_inps, set_insts, set_filters, set_next; cbn; by rewrite insert_insert_eq) end.
  exists (match ctor_result f n (carg_of sfa) with None => EINVAL | Some _ => 0 end),
    (match ctor_result f n (carg_of sfa) with None => wasted s | Some a => attached_state n ip p f (carg_of sfa) a s end).
  split; [right; right; exists p, f; do 3 (split; [done |]); by destruct (ctor_result _ _ _) |].
  erewrite (M_bind_Ok (run_constructor n)) by (by apply constructing_ctor). cbn beta. erewrite M_bind_Ok by reflexivity. cbn beta.
  match goal with |- context [set_insts (<[_ := Some (mk_inst p _ ?r)]> _) _] =>
    match goal with |- context [set_insts ?v ?t] =>
    replace (set_insts v t) with (constructing n ip p f (carg_of sfa) r s)
      by (unfold constructing, set_insts; cbn; by rewrite insert_insert_eq) end end.
  destruct (ctor_result f n (carg_of sfa)) as [a |].
  - change (0 =? 0) with true. cbn iota. erewrite M_bind_Ok by reflexivity. cbn beta.
    unfold constructing, attached_state, set_inps, set_insts, set_filters, set_next. cbn. by rewrite insert_insert_eq.
  - change (EINVAL =? 0) with false. cbn iota. split; [done |]. exists (Some (mk_inst p (carg_of sfa) None)).
    rewrite M_bind_assoc. erewrite M_bind_Ok by (by apply constructing_undo). done.
Qed.

Lemma setopt_install_ok n ip sfa s :
  ok s → Z.of_nat (size (st_insts s)) < 2 ^ 32 - 2 → st_inps s !! n = Some ip →
  ∃ r s', setopt_install other_create n (inr sfa) s = Ok (r, s') ∧ outcome n ip sfa s r s'.
Proof.
  intros O Hb Hn. destruct (setopt_attach_ok n ip sfa s O Hb Hn) as (r & s' & Ho & Ha). exists r, s'. split; [| done].
  unfold setopt_install. erewrite M_bind_Ok by reflexivity. cbn beta. erewrite M_bind_Ok by reflexivity. cbn beta.
  match goal with |- mbind _ _ ?t = _ => change t with (allocated s) end. destruct (Z.eqb_spec r 0) as [-> | Hne].
  - erewrite M_bind_Ok by exact Ha. done.
  - destruct Ha as (-> & v & Ha). erewrite M_bind_Ok by exact Ha. cbn beta iota. erewrite M_bind_Ok by reflexivity. cbn beta.
    unfold mret, M_ret, wasted, set_insts, set_next. cbn. rewrite delete_insert_id by (by apply fresh_inst). by destruct s.
Qed.

(** A context that no instance refers to. *)
Definition unused_ctx (s : state) (r : Z) : Prop :=
  ∀ q i g, st_insts s !! q = Some (Some i) → st_filters s !! sfi i = Some g → is_api g → instance_arg i ≠ Some r.

Lemma outcome_ok n ip sfa s r s' :
  ok s → Z.of_nat (size (st_insts s)) < 2 ^ 32 - 2 → st_inps s !! n = Some ip →
  (∀ p f, st_filters s !! p = Some f → synf_name (params f) = name_of sfa → is_api f →
     ∃ a, ctor_result f n (carg_of sfa) = Some (Z.of_nat a) ∧ is_Some (st_ctx s !! a) ∧ unused_ctx s (Z.of_nat a)) →
  outcome n ip sfa s r s' → ok s'.
Proof.
  intros O Hb Hn Hapi [(_ & _ & ->) | [(_ & _ & _ & ->) | (p & f & Hq & Hf & Hname & Hc)]]; [by apply ok_wasted | by apply ok_wasted |].
  specialize (Hapi p f Hf Hname). destruct (ctor_result f n (carg_of sfa)) as [a |]; destruct Hc as [_ ->]; [| by apply ok_wasted].
  apply ok_attached; try done. intros Ha. destruct (Hapi Ha) as (b & [= ->] & Hctx & Hun). by exists b.
Qed.

(** ** libuinet's filter *)

Lemma get_put_ptr k v : 0 <= v → get_ptr (put_ptr k v) = v mod 256 ^ Z.of_nat k.
Proof.
  revert v. induction k as [| k IH]; intros v Hv; [by rewrite Z.mod_1_r |]. cbn [put_ptr get_ptr].
  rewrite IH by (by apply Z.div_pos). rewrite Nat2Z.inj_succ, Z.pow_succ_r by lia.
  rewrite Z.rem_mul_r by (try apply Z.pow_nonzero; lia). lia.
Qed.

Lemma api_ctor a n f : (0 < a)%nat → Z.of_nat a < 2 ^ 64 → is_api f →
  ctor_result f n (carg_of (api_optarg a)) = Some (Z.of_nat a).
Proof.
  intros Ha Hb Hf. unfold ctor_result. rewrite Hf. cbn [call_create]. unfold uinet_api_synfilter_ctor.
  change (take 8 (carg_of (api_optarg a))) with (put_ptr 8 (Z.of_nat a)).
  rewrite get_put_ptr by lia. change (256 ^ Z.of_nat 8) with (2 ^ 64). rewrite Z.mod_small by lia.
  by rewrite (proj2 (Z.eqb_neq _ _)) by lia.
Qed.

Definition with_ctx (c : api_ctx) (s : state) : state := set_ctx (<[st_next s := c]> (st_ctx s)) (wasted s).

Lemma ok_with_ctx c s : ok s → ok (with_ctx c s).
Proof.
  intros O. pose proof (ok_pos _ s O). destruct (ok_wasted s O) as [? ? ? ? ? ? ? ? ? Hnx ? Hcx Hcj]. split; try done.
  - intros q Hq. cbn in Hq |- *. rewrite lookup_insert_is_Some in Hq.
    destruct Hq as [? | [? | [<- | [_ ?]]]]; [apply Hnx; by left | apply Hnx; by right; left | lia | apply Hnx; by right; right].
  - intros q i f Hi Hf Ha. destruct (Hcx q i f Hi Hf Ha) as (a & Ea & Hc). exists a. split; [done |]. cbn in Hc |- *.
    rewrite lookup_insert_is_Some. destruct (decide (st_next s = a)); [by left | by right].
Qed.

Lemma with_ctx_unused c s : ok s → unused_ctx (with_ctx c s) (Z.of_nat (st_next s)).
Proof.
  intros O q i g Hi Hg Ha E. destruct (ok_ctx _ s O q i g Hi Hg Ha) as (a & Ea & Hc).
  assert (a = st_next s) as -> by (rewrite Ea in E; injection E; lia).
  pose proof (ok_next _ s O (st_next s) ltac:(auto)). lia.
Qed.

Lemma with_ctx_back c s : ok s → set_ctx (delete (st_next s) (st_ctx (with_ctx c s))) (with_ctx c s) = wasted s.
Proof.
  intros O. unfold with_ctx, wasted, set_ctx, set_next. cbn. rewrite delete_insert_id; [done |].
  apply eq_None_not_Some. intros H. pose proof (ok_next _ s O (st_next s) ltac:(auto)). lia.
Qed.

Definition installed (n : nat) (ip : inpcb) (s : state) (c : api_ctx) (r : Z) (s' : state) : Prop :=
  (r = EINVAL ∧ so_promisc ip = false ∧ s' = wasted s) ∨
  (r ≠ 0 ∧ s' = wasted (wasted s)) ∨
  (r = 0 ∧ outcome n ip (api_optarg (st_next s)) (with_ctx c s) 0 s').

Lemma uinet_synfilter_install_ok n ip cb arg s :
  ok s → Z.of_nat (size (st_insts s)) < 2 ^ 32 - 2 → Z.of_nat (st_next s) < 2 ^ 64 → st_inps s !! n = Some ip →
  ∃ r s', uinet_synfilter_install other_create n cb arg s = Ok (r, s') ∧ ok s' ∧ installed n ip s (mk_ctx cb arg) r s'.
Proof.
  intros O Hb Ha Hn. set (c := mk_ctx cb arg). pose proof (ok_with_ctx c s O) as O1.
  unfold uinet_synfilter_install. erewrite M_bind_Ok by reflexivity. cbn beta. erewrite M_bind_Ok by reflexivity. cbn beta.
  match goal with |- context [mbind _ (setopt 0 n _) ?t] => change t with (with_ctx c s) end.
  assert (inp_load n (with_ctx c s) = Ok (ip, with_ctx c s)) as En by (unfold inp_load; cbn; by rewrite Hn).
  destruct (so_promisc ip) eqn:Hp.
  - destruct (setopt_install_ok n ip (api_optarg (st_next s)) (with_ctx c s) O1 Hb Hn) as (r & s' & E & Hout).
    assert (ok s') as O'.
    { eapply outcome_ok; [exact O1 | exact Hb | exact Hn | | exact Hout]. intros p f Hf _ Hfa. exists (st_next s).
      split; [by apply api_ctor; [apply (ok_pos _ s O) | |] |]. split; [cbn; eexists; apply lookup_insert_eq |].
      by apply with_ctx_unused. }
    assert (setopt 0 n (IP_SYNFILTER (Some (inr (api_optarg (st_next s))))) (with_ctx c s) = Ok (r, s')) as E'.
    { unfold syn_filter_setopt. erewrite M_bind_Ok by exact En. cbn beta. by rewrite Hp. }
    destruct (Z.eqb_spec r 0) as [-> | Hr].
    + exists 0, s'. split; [erewrite M_bind_Ok by exact E'; done |]. split; [done | right; right; done].
    + assert (s' = wasted (with_ctx c s)) as ->.
      { destruct Hout as [(_ & _ & ->) | [(_ & _ & _ & ->) | (p & f & _ & _ & _ & Hc)]]; [done | done |].
        destruct (ctor_result f n _); by destruct Hc. }
      exists r, (wasted (wasted s)). split; [| split; [by do 2 apply ok_wasted | right; by left]].
      erewrite M_bind_Ok by exact E'. cbn beta. rewrite (proj2 (Z.eqb_neq r 0)) by done. cbn [negb].
      erewrite M_bind_Ok by reflexivity. cbn beta.
      pose proof (with_ctx_back c s O) as Hback. unfold mret, M_ret. f_equal. f_equal. rewrite <- Hback at 1. done.
  - exists EINVAL, (wasted s). split; [| split; [by apply ok_wasted | by left]].
    assert (setopt 0 n (IP_SYNFILTER (Some (inr (api_optarg (st_next s))))) (with_ctx c s) = Ok (EINVAL, with_ctx c s)) as E'.
    { unfold syn_filter_setopt. erewrite M_bind_Ok by exact En. cbn beta. by rewrite Hp. }
    erewrite M_bind_Ok by exact E'. cbn beta. change (EINVAL =? 0) with false. cbn [negb].
    erewrite M_bind_Ok by reflexivity. cbn beta. unfold mret, M_ret. by rewrite with_ctx_back.
Qed.

(** ** Arriving SYNs *)

(** The decision on a SYN. *)
Definition decision (n : nat) (ip : inpcb) (arg : syn_filter_cbarg) (s : state) (r : Z) : Prop :=
  match inp_synf ip with
  | None => r = SYNF_ACCEPT
  | Some q => ∃ i f, st_insts s !! q = Some (Some i) ∧ st_filters s !! sfi i = Some f ∧
      match synf_callback (params f) with
      | FNull => r = SYNF_REJECT_SILENT
      | FApi => ∃ a c, instance_arg i = Some (Z.of_nat a) ∧ st_ctx s !! a = Some c ∧ r = app_callback (ctx_callback c) n (ctx_arg c) arg
      | FOther k => r = other_callback k n (instance_arg i) arg
      end
  end.

Lemma run_callback_ok n ip arg s :
  ok s → st_inps s !! n = Some ip → ∃ r, run_callback n arg s = Ok (r, s) ∧ decision n ip arg s r.
Proof.
  intros O Hn. pose proof (ok_unlocked _ s O) as Hl. unfold syn_filter_run_callback, decision.
  erewrite M_bind_Ok by (unfold inp_load; rewrite Hn; reflexivity). cbn beta.
  destruct (inp_synf ip) as [q |] eqn:Hq; [| by eauto].
  destruct (ok_owner _ s O n ip q Hn Hq) as [i Hi]. destruct (ok_inst _ s O q i Hi) as [f Hf].
  assert (∃ r, (∀ b, (f ← filter_load (sfi i); call_callback other_callback app_callback (synf_callback (params f)) n (instance_arg i) arg)
      (set_locked b s) = Ok (r, set_locked b s)) ∧
    match synf_callback (params f) with
    | FNull => r = SYNF_REJECT_SILENT
    | FApi => ∃ a c, instance_arg i = Some (Z.of_nat a) ∧ st_ctx s !! a = Some c ∧ r = app_callback (ctx_callback c) n (ctx_arg c) arg
    | FOther k => r = other_callback k n (instance_arg i) arg
    end) as (r & Hr & Hd).
  { assert (∀ b, filter_load (sfi i) (set_locked b s) = Ok (f, set_locked b s)) as Hload by (intros; by apply filter_load_ok).
    destruct (synf_callback (params f)) as [| | k] eqn:Ek.
    - eexists. split; [| done]. intros b. erewrite M_bind_Ok by apply Hload. by rewrite Ek.
    - destruct (ok_params _ s O _ _ Hf) as (_ & Hcb & _).
      destruct (ok_ctx _ s O q i f Hi Hf (Hcb Ek)) as (a & Ea & [c Hc]). eexists. split; [| by eauto].
      intros b. erewrite M_bind_Ok by apply Hload. rewrite Ek. cbn [call_callback]. unfold uinet_api_synfilter_callback.
      erewrite M_bind_Ok by (unfold ctx_load; rewrite Ea, Nat2Z.id; cbn [st_ctx set_locked]; rewrite Hc; reflexivity). done.
    - eexists. split; [| done]. intros b. erewrite M_bind_Ok by apply Hload. by rewrite Ek. }
  exists r. split; [| by eauto]. erewrite M_bind_Ok by (unfold inst_load; rewrite Hi; reflexivity). cbn beta.
  erewrite M_bind_Ok by reflexivity. cbn beta. destruct (st_unloadable s).
  - erewrite M_bind_Ok by (by apply lock_ok). cbn beta. rewrite M_bind_assoc. erewrite M_bind_Ok by apply Hr. cbn beta.
    unfold mbind, M_bind, SYN_FILTER_UNLOCK. cbn. change (set_locked false (set_locked true s)) with (set_locked false s).
    by rewrite set_locked_id.
  - specialize (Hr false). by rewrite set_locked_id in Hr.
Qed.

End Safe.

End SynFilterSafe.
