(* ===== verification/SynFilterRun.v ===== *)
(** Histories of the SYN filter module: safety of all of them, the life of a filter of
    an application, deferred decisions, and the histories the code does not survive. *)
From S2P Require Import Prelude Printf Promisc SynFilter SynFilterSpec SynFilterSafe.
Import Printf Promisc SynFilter SynFilterSpec SynFilterSafe.

Module SynFilterRun.

Section Run.

Context (other_callback : nat → nat → option Z → syn_filter_cbarg → Z).
Context (other_create : nat → nat → list Z → option Z).
Context (app_callback : nat → nat → Z → syn_filter_cbarg → Z).

(** ** Histories *)

(** What the module system, the sockets, the application and the TCP input do. *)
Inductive op : Type :=
| Load (sf : syn_filter) | Unload (sf : syn_filter)
| Socket (n : nat) (promisc alloc : bool) | Free (n : nat)
| Install (n cb : nat) (arg : Z) | SetFilter (n : nat) (sfa : syn_filter_optarg) | SetFault (n : nat) (error : Z)
| Unset (n : nat) | GetFilter (n : nat) | Syn (n : nat) (arg : syn_filter_cbarg)
| Defer (arg : syn_filter_cbarg) | Deliver (bandlim : Z) (n p : nat) (decision : Z).

Definition op_run (o : op) : F Z :=
  match o with
  | Load sf => syn_filter_generic_mod_event MOD_LOAD sf
  | Unload sf => syn_filter_generic_mod_event MOD_UNLOAD sf
  | Socket n promisc alloc =>
      _ ← modify (fun s => set_inps (<[n := mk_inp promisc None 0 None]> (st_inps s)) s); in_promisc_inpcb_init n alloc
  | Free n => _ ← in_promisc_inpcb_destroy n; _ ← modify (fun s => set_inps (delete n (st_inps s)) s); mret 0
  | Install n cb arg => uinet_synfilter_install other_create n cb arg
  | SetFilter n sfa => syn_filter_setopt other_create 0 n (IP_SYNFILTER (Some (inr sfa)))
  | SetFault n error => syn_filter_setopt other_create 0 n (IP_SYNFILTER (Some (inl error)))
  | Unset n => syn_filter_setopt other_create 0 n (IP_SYNFILTER None)
  | GetFilter n => '(r, _) ← syn_filter_getopt n; mret r
  | Syn n arg => syn_filter_run_callback other_callback app_callback n arg
  | Defer arg => p ← uinet_synfilter_deferral_alloc arg; mret (Z.of_nat p)
  | Deliver bandlim n p d => uinet_synfilter_deferral_deliver other_create bandlim n p d
  end.

(** The room for one more instance: counts and pointers have their width. *)
Definition room (s : state) : Prop := Z.of_nat (size (st_insts s)) < 2 ^ 32 - 2 ∧ Z.of_nat (st_next s) < 2 ^ 64.

(** Modules are not loaded or unloaded over what is left of an unload under the same
    name; sockets exist; the argument of libuinet's filter comes from its own
    interface; a promiscuous socket is asked for its filter when it has one; a deferral is
    delivered once. *)
Definition pre (o : op) (s : state) : Prop :=
  match o with
  | Load sf => params_ok sf ∧ synf_callback sf ≠ FNull ∧ no_dead s (synf_name sf)
  | Unload sf => no_dead s (synf_name sf)
  | Socket n _ _ => st_inps s !! n = None
  | Install n _ _ => is_Some (st_inps s !! n) ∧ room s
  | SetFilter n sfa => is_Some (st_inps s !! n) ∧ room s ∧
      ∀ p f, st_filters s !! p = Some f → synf_name (params f) = name_of sfa → ¬ is_api f
  | Free n | Unset n | SetFault n _ | Syn n _ => is_Some (st_inps s !! n)
  | GetFilter n => ∃ ip, st_inps s !! n = Some ip ∧ (so_promisc ip = true → is_Some (inp_synf ip))
  | Defer _ => True
  | Deliver _ n p _ => is_Some (st_inps s !! n) ∧ is_Some (st_defer s !! p)
  end.

Definition step (s s' : state) : Prop := ∃ o r, pre o s ∧ op_run o s = Ok (r, s').

(** ** Safety *)

Lemma ok_new_inp n ip s :
  ok s → st_inps s !! n = None → inp_synf ip = None → ok (set_inps (<[n := ip]> (st_inps s)) s).
Proof.
  intros [] Hn Hip. split; try done; cbn.
  - intros m kp q [[<- <-] | [? Hk]]%lookup_insert_Some Hq; [congruence | by eapply ok_owner0].
  - intros m m' kp kp' q [[<- <-] | [? Hk]]%lookup_insert_Some [[<- <-] | [? Hk']]%lookup_insert_Some Hq Hq'; try congruence.
    by eapply ok_inj0.
Qed.

Lemma ok_del_inp n s : ok s → ok (set_inps (delete n (st_inps s)) s).
Proof.
  intros []. split; try done; cbn.
  - intros m kp q [_ Hk]%lookup_delete_Some Hq. by eapply ok_owner0.
  - intros m m' kp kp' q [_ Hk]%lookup_delete_Some [_ Hk']%lookup_delete_Some Hq Hq'. by eapply ok_inj0.
Qed.

(** An instance that stays allocated and unused. *)
Lemma ok_allocated s : ok s → ok (allocated s).
Proof.
  intros O. pose proof (fresh_inst s O) as Hf. pose proof (ok_pos _ s O). destruct (ok_wasted s O).
  assert (∀ q i, st_insts (allocated s) !! q = Some (Some i) → st_insts s !! q = Some (Some i)) as Hli.
  { intros q i. cbn. by intros [[_ ?] | [_ ?]]%lookup_insert_Some. }
  split; try done; cbn -[allocated].
  - intros p f Hp. cbn. rewrite attached_fresh by done. destruct (ok_ref0 p f Hp) as [Hr ?]. cbn [is_at b2z]. split; [| done]. change (st_insts (wasted s)) with (st_insts s) in Hr. lia.
  - intros q i Hq%Hli. by eapply ok_inst0.
  - intros n ip q Hn Hq. destruct (ok_owner0 n ip q Hn Hq) as [i Hi]. exists i. cbn. rewrite lookup_insert_ne; [done |].
    intros <-. cbn in Hi. congruence.
  - intros q Hq. cbn in Hq |- *. rewrite lookup_insert_is_Some in Hq.
    destruct Hq as [[<- | [_ ?]] | [? | ?]]; [lia | apply ok_next0; by left | apply ok_next0; by right; left | apply ok_next0; by right; right].
  - intros q i f Hi%Hli. exact (ok_ctx0 q i f Hi).
  - intros q r i j f g Hi%Hli Hj%Hli. exact (ok_ctx_inj0 q r i j f g Hi Hj).
Qed.

(** Changes to what the invariant does not mention. *)
Lemma ok_frame s d m : ok s → ok (set_defer d (set_mbufs m s)).
Proof. intros []. by split. Qed.

Lemma setopt_result_ok bandlim v s : ∃ r m, setopt_result bandlim v s = Ok (r, set_mbufs m s).
Proof.
  assert (set_mbufs (st_mbufs s) s = s) as Hid by (by destruct s).
  destruct v as [e | c]; [exists e, (st_mbufs s); by rewrite Hid |]. unfold setopt_result.
  destruct (cb_decision c =? SYNF_REJECT_SILENT); [do 2 eexists; reflexivity |].
  destruct (cb_decision c =? SYNF_REJECT_RST); [do 2 eexists; reflexivity |].
  destruct (cb_decision c =? SYNF_ACCEPT); [do 2 eexists; reflexivity |].
  exists EINVAL, (st_mbufs s). by rewrite Hid.
Qed.

Lemma setopt_enter bandlim n ip o s :
  st_inps s !! n = Some ip →
  syn_filter_setopt other_create bandlim n o s =
    if negb (so_promisc ip) then Ok (EINVAL, s)
    else match o with
    | IP_SYNFILTER None => setopt_remove n s
    | IP_SYNFILTER (Some v) => setopt_install other_create n v s
    | IP_SYNFILTER_RESULT v => setopt_result bandlim v s
    end.
Proof.
  intros Hn. unfold syn_filter_setopt. erewrite M_bind_Ok by (unfold inp_load; rewrite Hn; reflexivity). cbn beta.
  destruct (negb (so_promisc ip)); [done |]. by destruct o as [[] |].
Qed.

Lemma remove_ok n ip s : ok s → st_inps s !! n = Some ip → ∃ s', setopt_remove n s = Ok (0, s') ∧ ok s' ∧ removed n ip s s'.
Proof.
  intros O Hn. destruct (run_destructor_ok n ip s O Hn) as (s' & E & H). exists s'. split; [| done].
  unfold setopt_remove. by erewrite M_bind_Ok by exact E.
Qed.

Lemma free_ok n ip s : ok s → st_inps s !! n = Some ip → ∃ s', op_run (Free n) s = Ok (0, s') ∧ ok s'.
Proof.
  intros O Hn. cbn [op_run]. unfold in_promisc_inpcb_destroy.
  set (jp := mk_inp (so_promisc ip) (inp_synf ip) (inp_flags2 ip) None).
  destruct (run_destructor_ok n jp (set_inps (<[n := jp]> (st_inps s)) s)) as (s' & E & O' & _).
  { by eapply ok_inp_same. }
  { cbn. apply lookup_insert_eq. }
  eexists. split; [| apply (ok_del_inp n s' O')].
  erewrite M_bind_Ok; [| erewrite M_bind_Ok by (unfold inp_load; rewrite Hn; reflexivity); cbn beta;
    erewrite M_bind_Ok by reflexivity; cbn beta; exact E]. done.
Qed.

Lemma deliver_ok bandlim n ip p c d s :
  ok s → st_inps s !! n = Some ip → st_defer s !! p = Some c → ∃ r s', op_run (Deliver bandlim n p d) s = Ok (r, s') ∧ ok s'.
Proof.
  intros O Hn Hp. cbn [op_run]. unfold uinet_synfilter_deferral_deliver.
  erewrite M_bind_Ok by (unfold defer_load; rewrite Hp; reflexivity). cbn beta zeta.
  assert (∃ r m, syn_filter_setopt other_create bandlim n
    (IP_SYNFILTER_RESULT (inr (mk_cbarg (cb_inc_flags c) (cb_m c) (cb_l2i c) d (cb_initial_timeout c) (cb_txif c)))) s
    = Ok (r, set_mbufs m s)) as (r & m & E).
  { rewrite (setopt_enter bandlim n ip) by done. destruct (so_promisc ip); cbn [negb]; [apply setopt_result_ok |].
    exists EINVAL, (st_mbufs s). by destruct s. }
  exists r. eexists. split; [| apply (ok_frame s (delete p (st_defer s)) m O)].
  erewrite M_bind_Ok by exact E. cbn beta. unfold uinet_synfilter_deferral_free.
  erewrite M_bind_Ok; [| erewrite M_bind_Ok by (unfold defer_load; cbn; rewrite Hp; reflexivity); reflexivity]. done.
Qed.

Lemma op_ok o s : ok s → pre o s → ∃ r s', op_run o s = Ok (r, s') ∧ ok s'.
Proof.
  intros O Hp. destruct o as [sf | sf | n pr al | n | n cb arg | n sfa | n e | n | n | n arg | arg | bl n p d]; cbn [pre] in Hp.
  - destruct Hp as (Hpar & Hcb & Hd). destruct (syn_filter_add_ok sf s O Hpar Hcb Hd) as (r & s' & E & O' & _). eauto.
  - cbn [op_run syn_filter_generic_mod_event]. destruct (st_unloadable s) eqn:Hu.
    + destruct (syn_filter_del_ok (synf_name sf) s O Hp) as (s' & E & O' & _). exists 0, s'. split; [| done].
      erewrite M_bind_Ok by reflexivity. cbn beta. by rewrite Hu.
    + exists EOPNOTSUPP, s. split; [| done]. erewrite M_bind_Ok by reflexivity. cbn beta. by rewrite Hu.
  - set (ip := mk_inp pr None 0 None). pose proof (ok_new_inp n ip s O Hp eq_refl) as O1.
    cbn [op_run]. erewrite M_bind_Ok by reflexivity. cbn beta. unfold in_promisc_inpcb_init.
    erewrite M_bind_Ok by (unfold inp_load; cbn [set_inps st_inps]; rewrite lookup_insert_eq; reflexivity). cbn beta.
    destruct al; cbn [negb].
    + eexists 0, _. split; [reflexivity |]. by eapply ok_inp_same; [exact O1 | apply lookup_insert_eq |].
    + eexists ENOMEM, _. split; [reflexivity |]. by eapply ok_inp_same; [exact O1 | apply lookup_insert_eq |].
  - destruct Hp as [ip Hn]. destruct (free_ok n ip s O Hn) as (s' & E & O'). eauto.
  - destruct Hp as [[ip Hn] [Hb Ha]]. destruct (uinet_synfilter_install_ok other_create n ip cb arg s O Hb Ha Hn) as (r & s' & E & O' & _). eauto.
  - destruct Hp as ([ip Hn] & [Hb _] & Hno). cbn [op_run]. rewrite (setopt_enter 0 n ip) by done.
    destruct (so_promisc ip); cbn [negb]; [| by eauto].
    destruct (setopt_install_ok other_create n ip sfa s O Hb Hn) as (r & s' & E & Hout). exists r, s'. split; [done |].
    eapply outcome_ok; [exact O | exact Hb | exact Hn | | exact Hout]. intros p f Hf Hname Ha. by destruct (Hno p f Hf Hname).
  - destruct Hp as [ip Hn]. cbn [op_run]. rewrite (setopt_enter 0 n ip) by done. destruct (so_promisc ip); cbn [negb]; [| by eauto].
    exists e, (allocated s). split; [done | by apply ok_allocated].
  - destruct Hp as [ip Hn]. cbn [op_run]. rewrite (setopt_enter 0 n ip) by done. destruct (so_promisc ip); cbn [negb]; [| by eauto].
    destruct (remove_ok n ip s O Hn) as (s' & E & O' & _). eauto.
  - destruct Hp as (ip & Hn & Hq). cbn [op_run]. unfold syn_filter_getopt.
    destruct (so_promisc ip) eqn:Ep.
    + destruct (Hq eq_refl) as [q Eq]. destruct (ok_owner _ s O n ip q Hn Eq) as [i Hi]. destruct (ok_inst _ s O q i Hi) as [f Hf].
      exists 0, s. split; [| done]. unfold mbind, M_bind, inp_load, inst_load, filter_load. rewrite Hn, Ep. cbn [negb]. by rewrite Eq, Hi, Hf.
    + exists EINVAL, s. split; [| done]. unfold mbind, M_bind, inp_load. by rewrite Hn, Ep.
  - destruct Hp as [ip Hn]. destruct (run_callback_ok other_callback app_callback n ip arg s O Hn) as (r & E & _). eauto.
  - eexists _, _. split; [reflexivity |].
    exact (ok_frame (wasted s) (<[st_next s := arg]> (st_defer s)) (st_mbufs s) (ok_wasted s O)).
  - destruct Hp as [[ip Hn] [c Hc]]. by apply (deliver_ok bl n ip p c d s).
Qed.

Lemma run_ok u s : rtc step (init u) s → ok s.
Proof.
  intros H. remember (init u) as s0 eqn:E. assert (ok s0) as O by (subst; apply ok_init). clear E.
  induction H as [| x y z (o & r & Hp & Hr) _ IH]; [done |]. apply IH.
  destruct (op_ok o x O Hp) as (r' & y' & E & O'). congruence.
Qed.

(** [C9] In every history of loading and unloading filters, creating and freeing
    sockets, attaching, querying and removing filters, judging SYNs and delivering
    deferred decisions, in which no filter is loaded or unloaded under the name of one that
    was unloaded while sockets still use it, libuinet's own filter is attached through
    [uinet_synfilter_install] only, a promiscuous socket is asked for its filter only when
    it has one, and a deferred decision is delivered once ([pre]; the first three are what
    [syn_filter_reload_dangles], the trust in the argument and [syn_filter_getopt_none] are
    about), each operation returns: no freed filter, instance or context is
    touched and the lock is released.  Afterwards a filter is counted once for its
    module, if loaded, and once for every instance that refers to it, a filter with no
    use left is gone, and the instance of every socket and its filter are live. *)
Theorem syn_filter_safe (u : bool) (s : state) (o : op) :
  rtc step (init u) s → pre o s →
  ∃ r s', op_run o s = Ok (r, s') ∧ st_locked s' = false ∧
    (∀ p f, st_filters s' !! p = Some f →
       refcount f = b2z (loaded f) + attached (st_insts s') p ∧ 0 < refcount f) ∧
    (∀ n ip q, st_inps s' !! n = Some ip → inp_synf ip = Some q →
       ∃ i f, st_insts s' !! q = Some (Some i) ∧ st_filters s' !! sfi i = Some f).
Proof.
  intros Hr Hp. destruct (op_ok o s (run_ok u s Hr) Hp) as (r & s' & E & O). exists r, s'.
  split; [done |]. split; [exact (ok_unlocked _ s' O) |]. split.
  - intros p f Hf. destruct (ok_ref _ s' O p f Hf) as [H1 H2]. lia.
  - intros n ip q Hn Hq. destruct (ok_owner _ s' O n ip q Hn Hq) as [i Hi]. destruct (ok_inst _ s' O q i Hi) as [f Hf]. by exists i, f.
Qed.

(** ** The life of an application's filter *)

Lemma api_name a : name_of (api_optarg a) = lit "uinet_api".
Proof. vm_compute. reflexivity. Qed.

(** The state an installation leaves. *)
Lemma install_success n p cb arg f ip s :
  ok s → Z.of_nat (size (st_insts s)) < 2 ^ 32 - 2 → Z.of_nat (st_next s) < 2 ^ 64 →
  st_inps s !! n = Some ip → so_promisc ip = true → inp_synf ip = None →
  st_filters s !! p = Some f → params f = synf_uinet_api →
  ∃ s', uinet_synfilter_install other_create n cb arg s = Ok (0, s') ∧ ok s' ∧
    s' = attached_state n ip p f (carg_of (api_optarg (st_next s))) (Z.of_nat (st_next s)) (with_ctx (mk_ctx cb arg) s).
Proof.
  intros O Hb Ha Hn Hpr Hq Hf Hpar. set (c := mk_ctx cb arg).
  assert (is_api f) as Hapi by (unfold is_api; by rewrite Hpar).
  destruct (uinet_synfilter_install_ok other_create n ip cb arg s O Hb Ha Hn) as (r & s' & E & O' & _).
  pose proof (setopt_install_ok other_create n ip (api_optarg (st_next s)) (with_ctx c s) (ok_with_ctx c s O) Hb Hn) as (r1 & s1 & E1 & Hout).
  assert (r1 = 0 ∧ s1 = attached_state n ip p f (carg_of (api_optarg (st_next s))) (Z.of_nat (st_next s)) (with_ctx c s)) as [-> ->].
  { destruct Hout as [(_ & [? ?] & _) | [(_ & _ & Hno & _) | (p' & f' & _ & Hf' & Hname & Hc)]]; [congruence | |].
    - destruct (Hno p f Hf). by rewrite Hpar, api_name.
    - cbn in Hf'. assert (p' = p) as -> by (apply (ok_names _ s O p' p f' f Hf' Hf); by rewrite Hname, Hpar, api_name).
      simplify_eq. rewrite (api_ctor other_create _ n f (ok_pos _ s O) Ha Hapi) in Hc. done. }
  unfold uinet_synfilter_install in *. erewrite M_bind_Ok in E |- * by reflexivity. cbn beta in E |- *.
  erewrite M_bind_Ok in E |- * by reflexivity. cbn beta in E |- *.
  rewrite (M_bind_Ok _ _ _ 0 (attached_state n ip p f (carg_of (api_optarg (st_next s))) (Z.of_nat (st_next s)) (with_ctx c s))) in E |- *
    by (rewrite (setopt_enter 0 n ip) by done; by rewrite Hpr).
  injection E as <- <-. by eauto.
Qed.

(** An application that installs its callback on a promiscuous socket without a
    filter, while libuinet's filter is loaded, gets 0; from then on the decision on
    every SYN for that socket is what the callback returns for it and the argument
    given; and removing the filter succeeds and frees the context, leaving the contexts
    as they were. *)
Theorem uinet_synfilter_install_decides (u : bool) (s : state) (n p cb : nat) (arg : Z) (f : syn_filter_internal) (ip : inpcb) :
  rtc step (init u) s → room s →
  st_inps s !! n = Some ip → so_promisc ip = true → inp_synf ip = None →
  st_filters s !! p = Some f → params f = synf_uinet_api →
  ∃ s', uinet_synfilter_install other_create n cb arg s = Ok (0, s') ∧
    (∀ cbarg, syn_filter_run_callback other_callback app_callback n cbarg s' = Ok (app_callback cb n arg cbarg, s')) ∧
    ∃ s'', syn_filter_setopt other_create 0 n (IP_SYNFILTER None) s' = Ok (0, s'') ∧ st_ctx s'' = st_ctx s ∧
      ∀ cbarg, syn_filter_run_callback other_callback app_callback n cbarg s'' = Ok (SYNF_ACCEPT, s'').
Proof.
  intros Hrun [Hb Ha] Hn Hpr Hq Hf Hpar. pose proof (run_ok u s Hrun) as O. set (c := mk_ctx cb arg).
  assert (is_api f) as Hapi by (unfold is_api; by rewrite Hpar).
  destruct (install_success n p cb arg f ip s O Hb Ha Hn Hpr Hq Hf Hpar) as (s' & E & O' & Hs').
  exists s'. split; [done |].
  set (ip' := mk_inp (so_promisc ip) (Some (st_next (with_ctx c s))) (Z.lor (inp_flags2 ip) INP_SYNFILTER) (inp_l2info ip)).
  assert (st_inps s' !! n = Some ip') as Hn' by (subst s'; cbn; apply lookup_insert_eq).
  set (i := mk_inst p (carg_of (api_optarg (st_next s))) (Some (Z.of_nat (st_next s)))).
  assert (st_insts s' !! st_next (with_ctx c s) = Some (Some i)) as Hi' by (subst s'; apply lookup_insert_eq).
  assert (st_filters s' !! p = Some (add_ref f)) as Hf' by (subst s'; apply lookup_insert_eq).
  assert (st_ctx s' = <[st_next s := c]> (st_ctx s)) as Hc' by (by subst s').
  split.
  - intros cbarg. destruct (run_callback_ok other_callback app_callback n ip' cbarg s' O' Hn') as (r & Er & Hd).
    rewrite Er. unfold decision in Hd. cbn [inp_synf ip'] in Hd. destruct Hd as (j & g & Hj & Hg & Hm).
    rewrite Hi' in Hj. injection Hj as <-. change (sfi i) with p in Hg. rewrite Hf' in Hg. injection Hg as <-. cbn [params add_ref] in Hm. rewrite Hpar in Hm.
    destruct Hm as (a & c0 & Ea & Hc0 & ->). cbn in Ea. assert (a = st_next s) as -> by (injection Ea; lia).
    rewrite Hc', lookup_insert_eq in Hc0. by simplify_eq.
  - destruct (remove_ok n ip' s' O' Hn') as (s'' & Er & O'' & Hrm). exists s''.
    split; [rewrite (setopt_enter 0 n ip') by done; cbn [so_promisc ip']; by rewrite Hpr |].
    unfold removed in Hrm. cbn [inp_synf ip'] in Hrm. destruct Hrm as (j & g & Hj & Hg & ->).
    rewrite Hi' in Hj. injection Hj as <-. change (sfi i) with p in *. rewrite Hf' in Hg. injection Hg as <-.
    destruct (release_others p (add_ref f) (gone n ip' (st_next (with_ctx c s)) i (add_ref f) s')) as (_ & Ein & -> & _).
    destruct (gone_fields n ip' (st_next (with_ctx c s)) i (add_ref f) s') as (_ & _ & _ & _ & ->).
    split.
    + cbn [params add_ref]. rewrite Hpar. unfold arg_addr. cbn. rewrite Nat2Z.id, Hc', delete_insert_id; [done |].
      apply eq_None_not_Some. intros H. pose proof (ok_next _ s O (st_next s) ltac:(auto)). lia.
    + intros cbarg. edestruct (run_callback_ok other_callback app_callback n) as (r & Er' & Hd); [exact O'' | rewrite Ein; apply lookup_insert_eq |].
      unfold decision in Hd. cbn in Hd. by rewrite Er', Hd.
Qed.

(** ** Deferred decisions *)

(** Delivering a deferred decision on a promiscuous socket frees the deferral.  A
    decision to accept hands the SYN to the syncache, one to reject silently frees it,
    and one to reject with RST answers it or, over the rate limit, frees it, each
    exactly once and with result 0; any other decision is EINVAL and leaves the SYN
    with no owner. *)
Theorem uinet_synfilter_deferral_deliver_spec (bandlim : Z) (n p : nat) (d : Z) (c : syn_filter_cbarg) (ip : inpcb) (s : state) :
  st_inps s !! n = Some ip → so_promisc ip = true → st_defer s !! p = Some c →
  ∃ r m, uinet_synfilter_deferral_deliver other_create bandlim n p d s =
      Ok (r, set_defer (delete p (st_defer s)) (set_mbufs (m ++ st_mbufs s) s)) ∧
    ((d = SYNF_ACCEPT ∧ r = 0 ∧ m = [MSyncache (cb_m c)]) ∨
     (d = SYNF_REJECT_SILENT ∧ r = 0 ∧ m = [MFreed (cb_m c)]) ∨
     (d = SYNF_REJECT_RST ∧ r = 0 ∧ m = [if bandlim <? 0 then MFreed (cb_m c) else MResponded (cb_m c)]) ∨
     (d ∉ [SYNF_ACCEPT; SYNF_REJECT_SILENT; SYNF_REJECT_RST] ∧ r = EINVAL ∧ m = [])).
Proof.
  intros Hn Hpr Hp. unfold uinet_synfilter_deferral_deliver.
  erewrite M_bind_Ok by (unfold defer_load; rewrite Hp; reflexivity). cbn beta zeta.
  set (c' := mk_cbarg _ _ _ _ _ _).
  assert (∀ r m, setopt_result bandlim (inr c') s = Ok (r, set_mbufs m s) →
    (error ← syn_filter_setopt other_create bandlim n (IP_SYNFILTER_RESULT (inr c'));
     _ ← uinet_synfilter_deferral_free p; mret error) s = Ok (r, set_defer (delete p (st_defer s)) (set_mbufs m s))) as Hgo.
  { intros r m E. erewrite M_bind_Ok by (rewrite (setopt_enter bandlim n ip) by done; rewrite Hpr; exact E). cbn beta.
    unfold uinet_synfilter_deferral_free.
    erewrite M_bind_Ok; [| erewrite M_bind_Ok by (unfold defer_load; cbn; rewrite Hp; reflexivity); reflexivity]. done. }
  unfold setopt_result in Hgo. cbn [cb_decision cb_m c'] in Hgo.
  destruct (Z.eqb_spec d SYNF_REJECT_SILENT); [exists 0, [MFreed (cb_m c)]; split; [by apply Hgo | by right; left] |].
  destruct (Z.eqb_spec d SYNF_REJECT_RST);
    [exists 0, [if bandlim <? 0 then MFreed (cb_m c) else MResponded (cb_m c)]; split; [by apply Hgo | by right; right; left] |].
  destruct (Z.eqb_spec d SYNF_ACCEPT); [exists 0, [MSyncache (cb_m c)]; split; [by apply Hgo | by left] |].
  exists EINVAL, []. split; [apply Hgo; by destruct s |]. right; right; right. split; [| done].
  rewrite !elem_of_cons, elem_of_nil. by intros [? | [? | [? | ?]]].
Qed.

(** The timeout never exceeds what its type holds, and is exact as long as the product
    fits. *)
Lemma go_active_bounds hz c ms :
  0 < hz <= INT_MAX → 0 <= ms < 2 ^ 32 →
  0 <= cb_initial_timeout (uinet_synfilter_go_active_on_timeout hz c ms) <= INT_MAX / 1000 ∧
  (ms * hz <= INT_MAX → cb_initial_timeout (uinet_synfilter_go_active_on_timeout hz c ms) = ms * hz / 1000).
Proof.
  intros Hhz Hms. unfold uinet_synfilter_go_active_on_timeout. cbn [cb_initial_timeout]. unfold INT_MAX in *.
  destruct (Z.ltb_spec (2147483647 / hz) ms) as [Hlt | Hge].
  - split; [split; [by apply Z.div_pos | done] |]. intros Hle. exfalso.
    assert (ms <= 2147483647 / hz) by (apply Z.div_le_lower_bound; lia). lia.
  - assert (ms * hz <= 2147483647).
    { pose proof (Z.mul_div_le 2147483647 hz). nia. }
    rewrite wrap_u_id by nia. split; [| done]. split; [apply Z.div_pos; nia | by apply Z.div_le_mono].
Qed.

End Run.

(** ** Concrete histories *)

Definition cb0 : nat → nat → option Z → syn_filter_cbarg → Z := fun _ _ _ _ => SYNF_ACCEPT.
Definition create0 : nat → nat → list Z → option Z := fun _ _ _ => None.
Definition app0 : nat → nat → Z → syn_filter_cbarg → Z := fun _ _ arg c => if Nat.eqb (cb_m c) 7 then SYNF_DEFER else arg.
Definition arg0 : syn_filter_cbarg := mk_cbarg 0 5 0 0 0 None.

Definition run_ops (l : list op) (s : state) : result state :=
  foldl (fun r o => match r with Ok t => match op_run cb0 create0 app0 o t with Ok (_, t') => Ok t' | Fault f => Fault f end | e => e end) (Ok s) l.

Definition the {A} (d : A) (r : result A) : A := match r with Ok a => a | Fault _ => d end.

(** libuinet's filter loaded, and with a promiscuous socket. *)
Definition s_loaded : state := Eval vm_compute in the (init true) (run_ops [Load synf_uinet_api] (init true)).
Definition s_ready : state := Eval vm_compute in the (init true) (run_ops [Load synf_uinet_api; Socket 100 true true] (init true)).

Lemma s_ready_run : rtc (step cb0 create0 app0) (init true) s_ready.
Proof.
  eapply rtc_l with (y := s_loaded).
  - exists (Load synf_uinet_api), 0. split; [| vm_compute; reflexivity].
    split; [split; [done | done] |]. split; [done |]. intros p f. cbn. by rewrite lookup_empty.
  - apply rtc_once. exists (Socket 100 true true), 0. split; vm_compute; reflexivity.
Qed.

Lemma syn_filter_safe_witness :
  pre (Install 100 3 2) s_ready ∧ ∃ r s', op_run cb0 create0 app0 (Install 100 3 2) s_ready = Ok (r, s') ∧ st_locked s' = false.
Proof.
  assert (pre (Install 100 3 2) s_ready) as Hp.
  { split; [by eexists |]. split; vm_compute; reflexivity. }
  split; [exact Hp |]. destruct (syn_filter_safe cb0 create0 app0 true s_ready (Install 100 3 2) s_ready_run Hp) as (r & s' & E & Hl & _).
  by exists r, s'.
Defined.

Lemma uinet_synfilter_install_decides_witness :
  ∃ s', uinet_synfilter_install create0 100 3 2 s_ready = Ok (0, s') ∧
    syn_filter_run_callback cb0 app0 100 arg0 s' = Ok (SYNF_REJECT_RST, s').
Proof.
  edestruct (uinet_synfilter_install_decides cb0 create0 app0 true s_ready 100 1 3 2) as (s' & E & Hd & _).
  - exact s_ready_run.
  - split; vm_compute; reflexivity.
  - vm_compute; reflexivity.
  - reflexivity.
  - reflexivity.
  - vm_compute; reflexivity.
  - reflexivity.
  - exists s'. split; [exact E | exact (Hd arg0)].
Defined.

Definition ip0 : inpcb := mk_inp true None INP_PROMISC (Some zero_l2info).
Definition s_deferred : state := Eval vm_compute in the (init true) (run_ops [Defer arg0] s_ready).

Lemma uinet_synfilter_deferral_deliver_spec_witness :
  ∃ s', uinet_synfilter_deferral_deliver create0 0 100 2 SYNF_ACCEPT s_deferred = Ok (0, s') ∧ st_mbufs s' = [MSyncache 5].
Proof.
  edestruct (uinet_synfilter_deferral_deliver_spec create0 0 100 2 SYNF_ACCEPT arg0 ip0 s_deferred) as (r & m & E & H);
    [vm_compute; reflexivity | reflexivity | vm_compute; reflexivity |].
  destruct H as [(_ & -> & ->) | [(H & _) | [(H & _) | (H & _)]]]; [| discriminate H | discriminate H |].
  - eexists. split; [exact E | reflexivity].
  - exfalso. apply H. constructor.
Defined.

(** ** Histories the code does not survive *)

(** Asking a promiscuous socket without a filter for its filter follows a null pointer. *)
Lemma syn_filter_getopt_none : syn_filter_getopt 100 s_ready = Fault NullDeref.
Proof. vm_compute. reflexivity. Qed.

(** A filter loaded again while a socket still uses what an unload left is given no
    reference of its own: unloading it once more frees it under the socket. *)
Lemma syn_filter_reload_dangles :
  (s ← run_ops [Install 100 3 2; Unload synf_uinet_api; Load synf_uinet_api; Unload synf_uinet_api] s_ready; Ok (length (st_head s))) = Ok 0%nat ∧
  run_ops [Install 100 3 2; Unload synf_uinet_api; Load synf_uinet_api; Unload synf_uinet_api; Syn 100 arg0] s_ready = Fault BadPointer.
Proof. split; vm_compute; reflexivity. Qed.

(** And if instead the socket goes, the loaded filter goes with it: the next socket to
    ask for it gets ENOENT. *)
Lemma syn_filter_reload_lost :
  (s ← run_ops [Install 100 3 2; Unload synf_uinet_api; Load synf_uinet_api; Unset 100] s_ready;
   '(r, _) ← uinet_synfilter_install create0 100 3 2 s; Ok r) = Ok ENOENT.
Proof. vm_compute. reflexivity. Qed.

(** An option whose value cannot be copied in leaves the instance allocated. *)
Lemma syn_filter_setopt_leaks :
  (s ← run_ops [SetFault 100 EINVAL; Free 100] s_ready; Ok (st_insts s !! 2%nat)) = Ok (Some None).
Proof. vm_compute. reflexivity. Qed.

End SynFilterRun.
