(* ===== verification/InCopy.v ===== *)
(** Copying the packets of a connection to an interface (src/src/sys/netinet/in_copy.c
    and the IP_COPY options of src/src/sys/netinet/ip_output.c): received packets are
    queued as descriptors in extensible lists of 16, which are handed to the interface
    when they fill or when the connection ends. *)
From S2P Require Import Prelude PktDesc.
Import PktDesc.

Module InCopy.

Definition EINVAL : Z := 22.
Definition UINET_PD_FLUSH_FLOW : Z := 0x0100.
Definition IP_COPY_MODE_OFF : Z := 0x00.
Definition IP_COPY_MODE_MAYBE : Z := 0x01.
Definition IP_COPY_MODE_ON : Z := 0x02.
Definition IP_COPY_MODE_RX : Z := 0x04.
Definition IP_COPY_MODE_TX : Z := 0x08.

(** The copy fields of [struct inpcb]. *)
Record inpcb : Type := mk_inp {
  inp_copyq : option nat; inp_copyq_tail : option nat; inp_copyif : option nat;
  inp_copy_limit : Z; inp_copy_total : Z; inp_copy_mode : Z; inp_serialno : Z
}.

(** The descriptors' store, the control block, and the lists handed to [UIF_INJECT_TX],
    with the interface, in order. *)
Record state : Type := mk_st { st_store : store; st_inp : inpcb; st_tx : list (nat * list uinet_pd) }.

Definition set_q (h t : option nat) (i : inpcb) : inpcb :=
  mk_inp h t (inp_copyif i) (inp_copy_limit i) (inp_copy_total i) (inp_copy_mode i) (inp_serialno i).
Definition set_total (v : Z) (i : inpcb) : inpcb :=
  mk_inp (inp_copyq i) (inp_copyq_tail i) (inp_copyif i) (inp_copy_limit i) v (inp_copy_mode i) (inp_serialno i).
Definition set_mode (v : Z) (i : inpcb) : inpcb :=
  mk_inp (inp_copyq i) (inp_copyq_tail i) (inp_copyif i) (inp_copy_limit i) (inp_copy_total i) v (inp_serialno i).
Definition set_limit (v : Z) (i : inpcb) : inpcb :=
  mk_inp (inp_copyq i) (inp_copyq_tail i) (inp_copyif i) v (inp_copy_total i) (inp_copy_mode i) (inp_serialno i).
Definition set_if (v : option nat) (i : inpcb) : inpcb :=
  mk_inp (inp_copyq i) (inp_copyq_tail i) v (inp_copy_limit i) (inp_copy_total i) (inp_copy_mode i) (inp_serialno i).

Abbreviation C := (M state).

Definition on_store {A} (m : P A) : C A := fun s =>
  match m (st_store s) with Ok (a, st) => Ok (a, mk_st st (st_inp s) (st_tx s)) | Fault f => Fault f end.
Definition inp : C inpcb := gets st_inp.
Definition on_inp (f : inpcb → inpcb) : C unit := modify (fun s => mk_st (st_store s) (f (st_inp s)) (st_tx s)).

(** [UIF_INJECT_TX]: the interface takes the descriptors. *)
Definition UIF_INJECT_TX (uif : nat) (l : uinet_pd_list) : C unit :=
  d ← liftR (live_descs l); modify (fun s => mk_st (st_store s) (st_inp s) (st_tx s ++ [(uif, d)])).

Definition or_flags (v : Z) (pd : uinet_pd) : uinet_pd :=
  {| pd_flags := u16 (Z.lor (pd_flags pd) v); pd_length := pd_length pd; pd_pool_id := pd_pool_id pd; pd_ref := pd_ref pd;
     pd_data := pd_data pd; pd_ctx := pd_ctx pd; pd_serialno := pd_serialno pd |}.

(** [cur->list.descs[cur->list.num_descs - 1].flags |= UINET_PD_FLUSH_FLOW] *)
Definition mark_last (i : nat) : C unit :=
  '(_, x) ← on_store (xlist_load (Some i));
  let k := Z.to_nat (num_descs (x_list x) - 1) in
  match descs (x_list x) !! k with
  | None => faultM OutOfBounds
  | Some pd =>
      on_store (xlist_store i {| x_next := x_next x;
        x_list := {| num_descs := num_descs (x_list x); descs := <[k := or_flags UINET_PD_FLUSH_FLOW pd]> (descs (x_list x)) |} |})
  end.

(** The loop of [in_copy_flush]: where it stopped, and [injected]. *)
Fixpoint flush_loop (fuel : nat) (uif : option nat) (finished : bool) (cur : option nat) (injected : bool)
    : C (option nat * bool) :=
  match cur with
  | None => mret (None, injected)
  | Some i =>
      '(_, x) ← on_store (xlist_load (Some i));
      if (num_descs (x_list x) =? UINET_PD_XLIST_MAX_DESCS) || finished then
        match fuel with
        | O => faultM Blocked
        | S fuel =>
            injected ← (if 0 <? num_descs (x_list x) then
                match uif with
                | Some u =>
                    _ ← (if finished && bool_decide (x_next x = None) then mark_last i else mret ());
                    '(_, x) ← on_store (xlist_load (Some i));
                    _ ← UIF_INJECT_TX u (x_list x);
                    mret true
                | None => _ ← on_store (uinet_pd_xlist_release (Some i)); mret injected
                end
              else mret injected);
            '(_, x) ← on_store (xlist_load (Some i));
            flush_loop fuel uif finished (x_next x) injected
        end
      else mret (cur, injected)
  end.

(** The descriptor that only carries the flush flag. *)
Definition flush_pd (serialno : Z) : uinet_pd :=
  {| pd_flags := Z.lor (Z.lor UINET_PD_INJECT UINET_PD_FLUSH_FLOW) UINET_PD_MGMT_ONLY; pd_length := 0; pd_pool_id := 0;
     pd_ref := 0; pd_data := 0; pd_ctx := None; pd_serialno := serialno |}.

(** The chain has at most as many lists as there are in the store. *)
Definition chain_fuel : C nat := gets (fun s => S (size (xlists (st_store s)))).

Definition in_copy_flush (finished : bool) : C unit :=
  i ← inp; fuel ← chain_fuel;
  let uif := inp_copyif i in
  '(cur, injected) ← flush_loop fuel uif finished (inp_copyq i) false;
  q ← on_store (uinet_pd_xlist_free fuel (inp_copyq i) cur);
  _ ← on_inp (set_q q q);
  match uif with
  | Some u =>
      if finished && negb (injected : bool) && (0 <? inp_copy_total i) then
        UIF_INJECT_TX u {| num_descs := 1; descs := [flush_pd (inp_serialno i)] |}
      else mret ()
  | None => mret ()
  end.

Definition in_copy_dispose : C unit :=
  i ← inp; fuel ← chain_fuel;
  _ ← on_store (uinet_pd_xlist_release_all fuel (inp_copyq i));
  q ← on_store (uinet_pd_xlist_free fuel (inp_copyq i) None);
  on_inp (set_q q q).

(** The head of the queue is a full list. *)
Definition head_full : C bool :=
  i ← inp;
  match inp_copyq i with
  | None => mret false
  | Some h => '(_, x) ← on_store (xlist_load (Some h)); mret (num_descs (x_list x) =? UINET_PD_XLIST_MAX_DESCS)
  end.

(** The loop over the mbufs of a packet. *)
Fixpoint in_copy_loop (fuel : nat) (m : option nat) : C unit :=
  match m with
  | None => mret ()
  | Some mi =>
      i ← inp;
      if (inp_copy_limit i =? 0) || (inp_copy_total i <? inp_copy_limit i) then
        match fuel with
        | O => faultM Blocked
        | S fuel =>
            '(r, h, t) ← on_store (uinet_pd_xlist_add_mbuf (inp_copyq i) (inp_copyq_tail i) mi UINET_PD_INJECT (inp_serialno i));
            _ ← on_inp (fun i => set_total (u64 (inp_copy_total i + r)) (set_q h t i));
            full ← head_full;
            _ ← (if has_flag (inp_copy_mode i) IP_COPY_MODE_ON && full then in_copy_flush false else mret ());
            '(_, b) ← on_store (mbuf_load (Some mi));
            in_copy_loop fuel (m_next b)
        end
      else mret ()
  end.

Definition in_copy (m : option nat) : C unit :=
  i ← inp;
  if has_flag (inp_copy_mode i) IP_COPY_MODE_RX then
    fuel ← gets (fun s => S (size (mbufs (st_store s)))); in_copy_loop fuel m
  else mret ().

(** ** The options *)

Definition IP_COPY_MODE (optval : Z) : C Z :=
  let either := Z.lor IP_COPY_MODE_MAYBE IP_COPY_MODE_ON in
  let dir := Z.lor IP_COPY_MODE_TX IP_COPY_MODE_RX in
  if has_flag optval IP_COPY_MODE_TX then mret EINVAL
  else if (has_flag optval either && negb (has_flag optval dir)) || (negb (has_flag optval either) && has_flag optval dir)
  then mret EINVAL
  else
    let optval := if has_flag optval IP_COPY_MODE_ON then clear_flag optval IP_COPY_MODE_MAYBE else optval in
    i ← inp;
    _ ← (if has_flag optval IP_COPY_MODE_ON then
           if inp_copy_mode i =? IP_COPY_MODE_OFF then on_inp (set_mode optval)
           else if has_flag (inp_copy_mode i) IP_COPY_MODE_MAYBE then
             _ ← on_inp (set_mode (Z.lor (clear_flag (inp_copy_mode i) IP_COPY_MODE_MAYBE) IP_COPY_MODE_ON));
             in_copy_flush false
           else mret ()
         else if optval =? IP_COPY_MODE_OFF then
           if has_flag (inp_copy_mode i) IP_COPY_MODE_MAYBE then in_copy_dispose
           else if has_flag (inp_copy_mode i) IP_COPY_MODE_ON then in_copy_flush true
           else mret ()
         else mret ());
    _ ← on_inp (set_mode optval);
    mret 0.

Definition IP_COPY_LIMIT (optval64 : Z) : C Z := _ ← on_inp (set_limit optval64); mret 0.

(** [ifp] is what [ifnet_byindex] gives. *)
Definition IP_COPY_IF (ifp : option nat) : C Z :=
  match ifp with None => mret EINVAL | Some n => _ ← on_inp (set_if (Some n)); mret 0 end.

(** The end of [in_pcbdrop]. *)
Definition pcbdrop_copy : C unit :=
  i ← inp; if has_flag (inp_copy_mode i) IP_COPY_MODE_ON then in_copy_flush true else in_copy_dispose.

End InCopy.
