(* ===== verification/InCopySpec.v ===== *)
(** Properties of packet copying: the queue of lists is a FIFO of descriptors. *)
From S2P Require Import Prelude PktDesc InCopy.
Import PktDesc InCopy.

Module InCopySpec.

(** ** The chain of lists *)

Definition full (ds : list uinet_pd) : Prop := length ds = 16%nat.

(** List [i] holds the descriptors [ds]. *)
Definition node (s : store) (i : nat) (nxt : option nat) (ds : list uinet_pd) : Prop :=
  ∃ arr, xlists s !! i = Some {| x_next := nxt; x_list := {| num_descs := Z.of_nat (length ds); descs := arr |} |} ∧
    length arr = 16%nat ∧ (length ds <= 16)%nat ∧ take (length ds) arr = ds.

Definition ptr (ls : list (nat * list uinet_pd)) : option nat := fst <$> head ls.

(** The lists from the one [ptr] points to, with their descriptors. *)
Fixpoint chain (s : store) (ls : list (nat * list uinet_pd)) : Prop :=
  match ls with
  | [] => True
  | (i, ds) :: t => node s i (ptr t) ds ∧ chain s t
  end.

(** The descriptors, in order. *)
Definition queue (ls : list (nat * list uinet_pd)) : list uinet_pd := concat (snd <$> ls).

Lemma node_load s i nxt ds :
  node s i nxt ds → ∃ x, xlist_load (Some i) s = Ok ((i, x), s) ∧ xlists s !! i = Some x ∧ x_next x = nxt ∧
    num_descs (x_list x) = Z.of_nat (length ds) ∧ live_descs (x_list x) = Ok ds ∧ length (descs (x_list x)) = 16%nat.
Proof.
  intros (arr & Hi & Hl & Hb & Ht). eexists. unfold xlist_load. rewrite Hi. split; [done |]. cbn. do 3 (split; [done |]).
  unfold live_descs. cbn. rewrite (proj2 (Z.leb_le _ _)) by lia. rewrite Nat2Z.id, Ht. done.
Qed.

Lemma on_store_Ok {A} (m : P A) s a t : m (st_store s) = Ok (a, t) → on_store m s = Ok (a, mk_st t (st_inp s) (st_tx s)).
Proof. intros E. unfold on_store. by rewrite E. Qed.

Lemma load_node s i nxt ds :
  node (st_store s) i nxt ds → ∃ x, on_store (xlist_load (Some i)) s = Ok ((i, x), s) ∧ xlists (st_store s) !! i = Some x ∧ x_next x = nxt ∧
    num_descs (x_list x) = Z.of_nat (length ds) ∧ live_descs (x_list x) = Ok ds ∧ length (descs (x_list x)) = 16%nat.
Proof.
  intros H. destruct (node_load _ _ _ _ H) as (x & E & Hx). exists x. split; [| done].
  erewrite on_store_Ok by exact E. by destruct s.
Qed.

(** ** Handing over full lists *)

(** The lists before the first that is not full go to the interface. *)
Lemma flush_loop_full u A B : ∀ fuel inj s,
  chain (st_store s) (A ++ B) → Forall (fun l => full (snd l)) A →
  match B with [] => True | (_, ds) :: _ => ¬ full ds end → (length A < fuel)%nat →
  flush_loop fuel (Some u) false (ptr (A ++ B)) inj s =
    Ok ((ptr B, inj || negb (bool_decide (A = []))),
        mk_st (st_store s) (st_inp s) (st_tx s ++ ((fun l => (u, snd l)) <$> A))).
Proof.
  induction A as [| [i ds] A IH]; intros fuel inj s Hc HA HB Hf.
  - cbn [app fmap list_fmap]. rewrite app_nil_r, orb_false_r. destruct B as [| [j es] B]; [destruct fuel; by destruct s |].
    cbn in Hc. destruct Hc as [Hn _]. destruct (load_node s j _ es Hn) as (x & E & _ & Hx & Hnum & _).
    assert ((num_descs (x_list x) =? UINET_PD_XLIST_MAX_DESCS) = false) as Hne.
    { rewrite Hnum. apply Z.eqb_neq. unfold full, UINET_PD_XLIST_MAX_DESCS in *. lia. }
    destruct fuel; cbn; erewrite M_bind_Ok by exact E; cbn beta iota; rewrite Hne; by destruct s.
  - apply Forall_cons in HA as [Hful HA]. cbn in Hful. destruct fuel as [| fuel]; [cbn in Hf; lia |].
    cbn [app chain] in Hc. destruct Hc as [Hn Hc]. destruct (load_node s i _ ds Hn) as (x & E & _ & Hx & Hnum & Hlive & _).
    cbn [app ptr head fmap option_fmap option_map fst flush_loop]. erewrite M_bind_Ok by exact E. cbn beta iota.
    rewrite Hnum. replace (Z.of_nat (length ds)) with 16 by (unfold full in Hful; lia). cbn [Z.eqb Pos.eqb UINET_PD_XLIST_MAX_DESCS orb Z.ltb Z.compare andb].
    set (s1 := mk_st (st_store s) (st_inp s) (st_tx s ++ [(u, ds)])).
    erewrite M_bind_Ok.
    2: { erewrite M_bind_Ok by reflexivity. cbn beta. erewrite M_bind_Ok by exact E. cbn beta iota.
         erewrite M_bind_Ok by (unfold UIF_INJECT_TX; erewrite M_bind_Ok by (unfold liftR; rewrite Hlive; reflexivity); reflexivity).
         reflexivity. }
    cbn beta. change (mk_st (st_store s) (st_inp s) (st_tx s ++ [(u, ds)])) with s1.
    destruct (load_node s1 i _ ds Hn) as (x' & E' & _ & Hx' & _). erewrite M_bind_Ok by exact E'. cbn beta iota. rewrite Hx'.
    rewrite (IH fuel true s1 Hc HA HB) by (cbn in Hf; lia). unfold s1. cbn [st_store st_inp st_tx fmap list_fmap snd orb].
    rewrite <- app_assoc. rewrite (bool_decide_eq_false_2 (_ :: _ = [])) by done. cbn [negb]. by rewrite orb_true_r.
Qed.

(** ** Returning lists to the zone *)

Lemma chain_xzone s z ls : chain s ls → chain (set_xzone z s) ls.
Proof. induction ls as [| [i ds] ls IH]; [done |]. intros [Hn Hc]. split; [exact Hn | by apply IH]. Qed.

Lemma xlist_free_spec A B : ∀ fuel s,
  chain s (A ++ B) → NoDup (fst <$> (A ++ B)) → (length A < fuel)%nat →
  uinet_pd_xlist_free fuel (ptr (A ++ B)) (ptr B) s =
    Ok (ptr B, set_xzone (reverse (fst <$> A) ++ zone_pd_xlist s) s).
Proof.
  induction A as [| [i ds] A IH]; intros fuel s Hc Hnd Hf.
  - cbn [app fmap list_fmap reverse]. change (reverse [] ++ zone_pd_xlist s) with (zone_pd_xlist s).
    assert (set_xzone (zone_pd_xlist s) s = s) as -> by (by destruct s).
    destruct B as [| [j es] B]; [by destruct fuel |]. destruct fuel; cbn; by rewrite decide_True.
  - destruct fuel as [| fuel]; [cbn in Hf; lia |]. cbn [app chain] in Hc. destruct Hc as [Hn Hc].
    cbn [app fmap list_fmap] in Hnd. apply NoDup_cons in Hnd as [Hi Hnd]. cbn [fst] in Hi.
    cbn [app ptr head fmap option_fmap option_map fst uinet_pd_xlist_free].
    destruct (node_load _ _ _ _ Hn) as (x & E & _ & Hx & _).
    rewrite decide_False.
    2: { destruct B as [| [j es] B]; [done |]. cbn. intros [= ->]. apply Hi. rewrite fmap_app. apply elem_of_app. right. constructor. }
    erewrite M_bind_Ok by exact E. cbn beta iota. erewrite M_bind_Ok by reflexivity. cbn beta. rewrite Hx.
    change (fst <$> head B) with (ptr B).
    rewrite (IH fuel (set_xzone (i :: zone_pd_xlist s) s)) by (try (by apply chain_xzone); try done; cbn in Hf; lia).
    cbn [zone_pd_xlist set_xzone fmap list_fmap fst]. rewrite reverse_cons, <- app_assoc. done.
Qed.

(** ** Changing one list *)

(** A store that differs from [s] in list [i] only. *)
Definition put (i : nat) (x : uinet_pd_xlist) (s : store) : store := set_xlists (<[i := x]> (xlists s)) s.

Lemma node_put_ne s i x j nxt ds : i ≠ j → node s j nxt ds → node (put i x s) j nxt ds.
Proof. intros Hne (arr & Hj & H). exists arr. split; [| done]. cbn. by rewrite lookup_insert_ne. Qed.

Lemma chain_put_ne s i x ls : i ∉ (fst <$> ls) → chain s ls → chain (put i x s) ls.
Proof.
  induction ls as [| [j ds] ls IH]; [done |]. cbn. intros Hi [Hn Hc]. rewrite not_elem_of_cons in Hi. cbn in Hi.
  destruct Hi as [Hne Hi]. split; [by apply node_put_ne | by apply IH].
Qed.

Lemma chain_replace s A i x ds es :
  i ∉ (fst <$> A) → chain s (A ++ [(i, ds)]) → node (put i x s) i None es → chain (put i x s) (A ++ [(i, es)]).
Proof.
  intros Hi Hc Hn. revert Hi Hc. induction A as [| [j us] A IH]; cbn; [done |].
  intros Hi [Hj Hc]. rewrite not_elem_of_cons in Hi. cbn in Hi. destruct Hi as [Hne Hi]. split; [| by apply IH].
  apply node_put_ne; [done |]. replace (ptr (A ++ [(i, es)])) with (ptr (A ++ [(i, ds)])); [done |]. by destruct A.
Qed.

(** Appending a list [j] behind list [i]. *)
Lemma chain_link s A i x ds j es :
  i ∉ (fst <$> A) → i ≠ j → chain s (A ++ [(i, ds)]) →
  node (put i x s) i (Some j) ds → node s j None es → chain (put i x s) (A ++ [(i, ds); (j, es)]).
Proof.
  intros Hi Hij Hc Hn Hj. revert Hi Hc. induction A as [| [k us] A IH]; cbn.
  - intros _ _. split; [done |]. split; [by apply node_put_ne | done].
  - intros Hi [Hk Hc]. rewrite not_elem_of_cons in Hi. cbn in Hi. destruct Hi as [Hne Hi]. split; [| by apply IH].
    apply node_put_ne; [done |]. replace (ptr (A ++ [(i, ds); (j, es)])) with (ptr (A ++ [(i, ds)])); [done |]. by destruct A.
Qed.

(** ** The last flush *)

Definition mark (ds : list uinet_pd) : list uinet_pd :=
  match ds !! Nat.pred (length ds) with
  | Some pd => <[Nat.pred (length ds) := or_flags UINET_PD_FLUSH_FLOW pd]> ds
  | None => ds
  end.

Lemma mark_length ds : length (mark ds) = length ds.
Proof. unfold mark. destruct (ds !! _); [apply length_insert | done]. Qed.

Lemma mark_snoc ds pd : mark (ds ++ [pd]) = ds ++ [or_flags UINET_PD_FLUSH_FLOW pd].
Proof.
  unfold mark. rewrite length_app. cbn [length]. replace (Nat.pred (length ds + 1)) with (length ds) by lia.
  rewrite lookup_app_r, Nat.sub_diag by lia. cbn. rewrite insert_app_r_alt, Nat.sub_diag by lia. done.
Qed.

Lemma mark_last_ok s i ds :
  node (st_store s) i None ds → ds ≠ [] →
  ∃ x, mark_last i s = Ok (tt, mk_st (put i x (st_store s)) (st_inp s) (st_tx s)) ∧ node (put i x (st_store s)) i None (mark ds).
Proof.
  intros Hn Hne. destruct (load_node s i None ds Hn) as (x & E & Hx & Hnx & Hnum & _).
  destruct Hn as (arr & Hi & Hl & Hb & Ht). rewrite Hx in Hi. simplify_eq. cbn in *.
  unfold mark_last. erewrite M_bind_Ok by exact E. cbn beta iota zeta. cbn [x_list num_descs descs x_next].
  assert (Hpos : (0 < length ds)%nat) by (destruct ds; [done | cbn; lia]).
  set (k := Nat.pred (length ds)). replace (Z.to_nat (Z.of_nat (length ds) - 1)) with k by (unfold k; lia).
  destruct (lookup_lt_is_Some_2 arr k) as [pd Hpd]; [unfold k; lia |]. rewrite Hpd. eexists. split; [reflexivity |].
  exists (<[k := or_flags UINET_PD_FLUSH_FLOW pd]> arr). cbn. rewrite lookup_insert_eq, mark_length, length_insert.
  do 3 (split; [done |]). assert (ds !! k = Some pd) as Hdk by (rewrite <- Ht, lookup_take_lt by (unfold k; lia); done).
  unfold mark. fold k. rewrite Hdk. rewrite <- Ht at 2. by rewrite take_insert_lt by (unfold k; lia).
Qed.

Lemma flush_loop_finish u i ds A : ∀ fuel inj s,
  chain (st_store s) (A ++ [(i, ds)]) → i ∉ (fst <$> A) → Forall (fun l => snd l ≠ []) (A ++ [(i, ds)]) → (S (length A) < fuel)%nat →
  ∃ x, flush_loop fuel (Some u) true (ptr (A ++ [(i, ds)])) inj s =
      Ok ((None, true), mk_st (put i x (st_store s)) (st_inp s)
        (st_tx s ++ ((fun l => (u, snd l)) <$> A) ++ [(u, mark ds)])) ∧
    chain (put i x (st_store s)) (A ++ [(i, mark ds)]).
Proof.
  induction A as [| [j es] A IH]; intros fuel inj s Hc Hi Hne Hf; (destruct fuel as [| fuel]; [cbn in Hf; lia |]).
  - destruct Hc as [Hn _]. apply Forall_cons in Hne as [Hne _]. cbn in Hne.
    destruct (mark_last_ok s i ds Hn Hne) as (x & Em & Hn'). exists x. split; [| done].
    destruct (load_node s i None ds Hn) as (x0 & E0 & _ & Hnx0 & Hnum0 & _).
    set (s1 := mk_st (put i x (st_store s)) (st_inp s) (st_tx s)) in *.
    destruct (load_node s1 i None (mark ds) Hn') as (x1 & E1 & _ & Hnx1 & _ & Hl1 & _).
    set (s2 := mk_st (put i x (st_store s)) (st_inp s) (st_tx s ++ [(u, mark ds)])).
    destruct (load_node s2 i None (mark ds) Hn') as (x2 & E2 & _ & Hnx2 & _).
    cbn [app ptr head fmap option_fmap option_map fst flush_loop]. erewrite M_bind_Ok by exact E0. cbn beta iota.
    rewrite orb_true_r. rewrite (proj2 (Z.ltb_lt 0 _)) by (rewrite Hnum0; destruct ds; [done | cbn; lia]).
    rewrite Hnx0, bool_decide_eq_true_2 by done. cbn [andb].
    erewrite M_bind_Ok.
    2: { erewrite M_bind_Ok by exact Em. cbn beta. erewrite M_bind_Ok by exact E1. cbn beta iota.
         erewrite M_bind_Ok by (unfold UIF_INJECT_TX; erewrite M_bind_Ok by (unfold liftR; rewrite Hl1; reflexivity); reflexivity).
         reflexivity. }
    cbn beta. match goal with |- mbind _ _ ?t = _ => change t with s2 end.
    erewrite M_bind_Ok by exact E2. cbn beta iota. rewrite Hnx2. destruct fuel; cbn; by rewrite ?app_nil_r.
  - cbn [app chain] in Hc. destruct Hc as [Hn Hc]. cbn [fmap list_fmap fst] in Hi. rewrite not_elem_of_cons in Hi. destruct Hi as [Hij Hi].
    cbn [app] in Hne. apply Forall_cons in Hne as [He Hne]. cbn in He.
    destruct (load_node s j _ es Hn) as (x0 & E0 & _ & Hnx0 & Hnum0 & Hl0 & _).
    set (s1 := mk_st (st_store s) (st_inp s) (st_tx s ++ [(u, es)])).
    destruct (IH fuel true s1 Hc Hi Hne) as (x & E & Hc'); [cbn in Hf; lia |]. exists x. split.
    2: { split; [| exact Hc']. apply node_put_ne; [congruence |].
         replace (ptr (A ++ [(i, mark ds)])) with (ptr (A ++ [(i, ds)])); [done |]. by destruct A. }
    cbn [app ptr head fmap option_fmap option_map fst flush_loop]. erewrite M_bind_Ok by exact E0. cbn beta iota.
    rewrite orb_true_r. rewrite (proj2 (Z.ltb_lt 0 _)) by (rewrite Hnum0; destruct es; [done | cbn; lia]).
    rewrite Hnx0, bool_decide_eq_false_2 by (by destruct A). cbn [andb].
    erewrite M_bind_Ok.
    2: { erewrite M_bind_Ok by reflexivity. cbn beta. erewrite M_bind_Ok by exact E0. cbn beta iota.
         erewrite M_bind_Ok by (unfold UIF_INJECT_TX; erewrite M_bind_Ok by (unfold liftR; rewrite Hl0; reflexivity); reflexivity).
         reflexivity. }
    cbn beta. match goal with |- mbind _ _ ?t = _ => change t with s1 end.
    destruct (load_node s1 j _ es Hn) as (x1 & E1 & _ & Hnx1 & _). erewrite M_bind_Ok by exact E1. cbn beta iota. rewrite Hnx1.
    etransitivity; [exact E |]. cbn [s1 st_inp st_tx st_store fmap list_fmap snd]. by rewrite <- app_assoc.
Qed.

(** ** Queueing a packet *)

(** What the queue means: the lists of the chain, of which all but the last are full
    and none is empty, apart from the free ones. *)
Record rep (s : store) (h t : option nat) (ls : list (nat * list uinet_pd)) : Prop := {
  rp_chain : chain s ls;
  rp_head : h = ptr ls;
  rp_tail : t = fst <$> last ls;
  rp_nodup : NoDup ((fst <$> ls) ++ zone_pd_xlist s);
  rp_zone : ∀ j, j ∈ zone_pd_xlist s → ∃ x, xlists s !! j = Some x ∧ length (descs (x_list x)) = 16%nat;
  rp_some : Forall (fun l => snd l ≠ []) ls;
  rp_full : ∀ A l, ls = A ++ [l] → Forall (fun l => full (snd l)) A
}.

(** An mbuf that carries a descriptor's context. *)
Definition carries (s : store) (m : nat) (b : mbuf) (c : nat) (x : uinet_pd_ctx) : Prop :=
  mbufs s !! m = Some b ∧ ext_arg2 b = Some c ∧ ctxs s !! c = Some x ∧ is_Some (cells s !! ext_ref_cnt b).

(** The descriptor of a packet. *)
Definition pd_of (b : mbuf) (c : nat) (x : uinet_pd_ctx) (flags serialno : Z) : uinet_pd :=
  {| pd_flags := u16 (Z.lor UINET_PD_CTX_MBUF_USED flags); pd_length := m_orig_len x; pd_pool_id := c_pool_id x;
     pd_ref := c_ref x; pd_data := ext_buf b; pd_ctx := Some c; pd_serialno := serialno |}.

(** One more reference to the packet. *)
Definition ref_up (b : mbuf) (s : store) : store :=
  set_cells (<[ext_ref_cnt b := u32 (default 0 (cells s !! ext_ref_cnt b) + 1)]> (cells s)) s.

Lemma chain_ref_up b s ls : chain s ls → chain (ref_up b s) ls.
Proof. induction ls as [| [i ds] ls IH]; [done |]. intros [Hn Hc]. split; [exact Hn | by apply IH]. Qed.

Lemma append_ok s i nxt ds m b c x fl sn :
  carries s m b c x → node s i nxt ds → (length ds < 16)%nat →
  ∃ y, uinet_pd_xlist_append i m fl sn s = Ok (tt, ref_up b (put i y s)) ∧ node (put i y s) i nxt (ds ++ [pd_of b c x fl sn]).
Proof.
  intros (Hm & Ha & Hc & [v Hv]) Hn Hl. destruct (node_load s i nxt ds Hn) as (y & E & Hy & Hnx & Hnum & _).
  destruct Hn as (arr & Hi & Hla & Hb & Ht). rewrite Hy in Hi. injection Hi as ->. cbn [x_next x_list num_descs descs] in *.
  unfold uinet_pd_xlist_append. erewrite M_bind_Ok by (unfold mbuf_load; rewrite Hm; reflexivity). cbn beta iota.
  erewrite M_bind_Ok by exact E. cbn beta iota zeta. cbn [x_list num_descs descs x_next].
  erewrite M_bind_Ok by (unfold ctx_load; rewrite Ha, Hc; reflexivity). cbn beta iota.
  rewrite Nat2Z.id.
  destruct (lookup_lt_is_Some_2 arr (length ds)) as [old Hold]; [lia |]. rewrite Hold.
  eexists. split.
  - erewrite M_bind_Ok by reflexivity. cbn beta.
    erewrite M_bind_Ok by (unfold cell_load; cbn [cells set_xlists]; rewrite Hv; reflexivity). cbn beta.
    unfold cell_store, modify, ref_up, put. cbn [cells set_xlists]. rewrite Hv. reflexivity.
  - exists (<[length ds := pd_of b c x fl sn]> arr). cbn. rewrite lookup_insert_eq, length_app, length_insert. cbn [length].
    split; [| split; [done |]].
    + do 3 f_equal. rewrite wrap_u_id by lia. lia.
    + split; [lia |].
      replace (length ds + 1)%nat with (S (length ds)) by lia.
      rewrite (take_S_r _ _ (pd_of b c x fl sn)) by (apply list_lookup_insert_eq; lia).
      rewrite take_insert_ge by lia. by rewrite Ht.
Qed.

(** Queueing keeps everything the mbufs refer to. *)
Lemma carries_ref_up s i y b0 m b c x : carries s m b c x → carries (ref_up b0 (put i y s)) m b c x.
Proof.
  intros (Hm & Ha & Hc & Hv). do 3 (split; [done |]). cbn. rewrite lookup_insert_is_Some.
  destruct (decide (ext_ref_cnt b0 = ext_ref_cnt b)); [by left | by right].
Qed.

(** A list taken from the zone, empty. *)
Lemma pool_alloc_ok s h t ls j z :
  rep s h t ls → zone_pd_xlist s = j :: z →
  ∃ y, uinet_pd_xlist_pool_alloc s = Ok (Some j, put j y (set_xzone z s)) ∧ node (put j y (set_xzone z s)) j None [].
Proof.
  intros R Hz. destruct (rp_zone _ _ _ _ R j) as (x & Hx & Hl); [rewrite Hz; constructor |].
  unfold uinet_pd_xlist_pool_alloc. erewrite M_bind_Ok by reflexivity. cbn beta. rewrite Hz.
  erewrite M_bind_Ok by reflexivity. cbn beta. unfold uinet_pd_xlist_pool_ctor. eexists. split.
  - erewrite M_bind_Ok; [| erewrite M_bind_Ok by (unfold xlist_load; cbn [xlists set_xzone]; rewrite Hx; reflexivity); reflexivity]. reflexivity.
  - exists (descs (x_list x)). cbn. rewrite lookup_insert_eq. split; [done |]. split; [done |]. split; [lia | done].
Qed.

(** There is room in the last list, or a free list. *)
Definition room (s : store) (ls : list (nat * list uinet_pd)) : Prop :=
  (∃ A i ds, ls = A ++ [(i, ds)] ∧ (length ds < 16)%nat) ∨ zone_pd_xlist s ≠ [].

Lemma queue_snoc A i ds pd : queue (A ++ [(i, ds ++ [pd])]) = queue (A ++ [(i, ds)]) ++ [pd].
Proof. unfold queue. rewrite !fmap_app, !concat_app. cbn. by rewrite !app_nil_r, app_assoc. Qed.

Lemma rep_ref_up s b h t ls : rep s h t ls → rep (ref_up b s) h t ls.
Proof. intros []. split; try done. by apply chain_ref_up. Qed.

(** The same lists, the last one longer. *)
Lemma rep_grow s A i ds y pd h t :
  rep s h t (A ++ [(i, ds)]) → node (put i y s) i None (ds ++ [pd]) → rep (put i y s) h t (A ++ [(i, ds ++ [pd])]).
Proof.
  intros [Hc Hh Ht Hnd Hz Hs Hfl] Hn.
  assert (i ∉ (fst <$> A) ∧ i ∉ zone_pd_xlist s) as [HiA HiZ].
  { rewrite fmap_app in Hnd. cbn in Hnd. rewrite <- app_assoc in Hnd. apply NoDup_app in Hnd as (_ & Hd & Hnd').
    cbn in Hnd'. apply NoDup_cons in Hnd' as [Hi _]. split; [| done]. intros Hin. apply (Hd i Hin). constructor. }
  split.
  - by eapply chain_replace.
  - rewrite Hh. by destruct A.
  - rewrite Ht, !last_snoc. done.
  - rewrite fmap_app in Hnd |- *. exact Hnd.
  - intros j Hj. destruct (Hz j Hj) as (x & Hx & Hl). exists x. cbn. rewrite lookup_insert_ne; [done |]. intros ->. done.
  - apply Forall_app in Hs as [HsA _]. apply Forall_app. split; [done |]. apply Forall_singleton. by destruct ds.
  - intros B l [-> _]%app_inj_tail. by eapply Hfl.
Qed.

Lemma add_room s h t A i ds m b c x fl sn :
  rep s h t (A ++ [(i, ds)]) → (length ds < 16)%nat → carries s m b c x →
  ∃ s', uinet_pd_xlist_add_mbuf h t m fl sn s = Ok ((0, h, t), s') ∧ rep s' h t (A ++ [(i, ds ++ [pd_of b c x fl sn])]) ∧
    zone_pd_xlist s' = zone_pd_xlist s ∧ mbufs s' = mbufs s ∧ (∀ m b c x, carries s m b c x → carries s' m b c x).
Proof.
  intros R Hl Hm. pose proof (rp_tail _ _ _ _ R) as Ht. rewrite last_snoc in Ht. cbn in Ht.
  assert (node s i None ds) as Hn.
  { pose proof (rp_chain _ _ _ _ R) as Hc. clear -Hc. induction A as [| [j es] A IH]; [apply Hc | apply IH, Hc]. }
  destruct (append_ok s i None ds m b c x fl sn Hm Hn Hl) as (y & E & Hn').
  destruct (node_load s i None ds Hn) as (x0 & E0 & _ & _ & Hnum & _).
  exists (ref_up b (put i y s)). split; [| split; [| split; [done | split; [done | by intros; apply carries_ref_up]]]].
  - unfold uinet_pd_xlist_add_mbuf. rewrite Ht. erewrite M_bind_Ok; [| erewrite M_bind_Ok by exact E0; reflexivity]. cbn beta.
    rewrite Hnum, (proj2 (Z.eqb_neq _ _)) by (unfold UINET_PD_XLIST_MAX_DESCS; lia). cbn [negb].
    erewrite M_bind_Ok by reflexivity. cbn beta. erewrite M_bind_Ok by exact E. done.
  - apply rep_ref_up. by apply rep_grow.
Qed.

(** The lists with a new one behind them. *)
Lemma rep_new s h t ls j z y s1 pd :
  rep s h t ls → zone_pd_xlist s = j :: z → (∀ A l, ls = A ++ [l] → full (snd l)) →
  zone_pd_xlist s1 = z → (∀ k, k ∉ (fst <$> ls) → k ≠ j → xlists s1 !! k = xlists s !! k) →
  j ∉ (fst <$> ls) → chain (put j y s1) (ls ++ [(j, [pd])]) →
  rep (put j y s1) (match h with None => Some j | Some _ => h end) (Some j) (ls ++ [(j, [pd])]).
Proof.
  intros [Hc Hh Ht Hnd Hz Hs Hfl] Hzj Hlast Hz1 Hx Hj Hch. rewrite Hzj in *. split.
  - done.
  - rewrite Hh. by destruct ls as [| [k ds] ls].
  - by rewrite last_snoc.
  - cbn [zone_pd_xlist put set_xlists]. rewrite Hz1, fmap_app. cbn. rewrite <- app_assoc. exact Hnd.
  - cbn [zone_pd_xlist put set_xlists]. rewrite Hz1. intros k Hk. apply NoDup_app in Hnd as (_ & Hd & Hnz).
    apply NoDup_cons in Hnz as [Hjz _]. destruct (Hz k) as (x & Hxk & Hl); [by constructor |]. exists x. cbn.
    assert (k ≠ j) by (by intros ->). rewrite lookup_insert_ne, Hx by (try done; intros Hin; apply (Hd k Hin); by constructor). done.
  - apply Forall_app. split; [done |]. by apply Forall_singleton.
  - intros B l [-> _]%app_inj_tail. destruct B as [| l' B _] using rev_ind; [constructor |]. apply Forall_app. split.
    + by eapply Hfl.
    + apply Forall_singleton. by eapply Hlast.
Qed.

Lemma carries_put s i y z m b c x : carries s m b c x → carries (put i y (set_xzone z s)) m b c x.
Proof. done. Qed.

(** Linking the new list [j] behind the last one. *)
Definition linked (t : option nat) (j : nat) (s1 s2 : store) : Prop :=
  match t with
  | None => s2 = s1
  | Some i => ∃ x, s2 = put i {| x_next := Some j; x_list := x_list x |} s1 ∧ xlists s1 !! i = Some x
  end.

Lemma link_chain s1 s2 ls j t :
  chain s1 ls → NoDup (fst <$> ls) → t = fst <$> last ls → j ∉ (fst <$> ls) → node s1 j None [] → linked t j s1 s2 →
  chain s2 (ls ++ [(j, [])]).
Proof.
  intros Hc Hnd Ht Hj Hn Hl. destruct ls as [| [i ds] A _] using rev_ind; [cbn in Ht; subst t; cbn in Hl; by subst |].
  rewrite last_snoc in Ht. cbn in Ht. subst t. destruct Hl as (x & -> & Hx).
  rewrite fmap_app in Hnd, Hj. cbn in Hnd, Hj. apply NoDup_app in Hnd as (_ & Hd & _).
  rewrite not_elem_of_app in Hj. destruct Hj as [HjA Hji]. assert (i ≠ j) as Hij by (intros ->; apply Hji; constructor).
  assert (i ∉ (fst <$> A)) as HiA by (intros Hin; apply (Hd i Hin); constructor).
  rewrite <- app_assoc. apply chain_link; try done.
  assert (node s1 i None ds) as (arr & Hi & Hlen & Hb & Htk).
  { clear -Hc. induction A as [| [k es] A IH]; [apply Hc | apply IH, Hc]. }
  rewrite Hx in Hi. injection Hi as ->. exists arr. cbn. by rewrite lookup_insert_eq.
Qed.

Lemma add_new s h t ls j z m b c x fl sn :
  rep s h t ls → zone_pd_xlist s = j :: z → (∀ A l, ls = A ++ [l] → full (snd l)) → carries s m b c x →
  ∃ s' h', uinet_pd_xlist_add_mbuf h t m fl sn s = Ok ((0, h', Some j), s') ∧ rep s' h' (Some j) (ls ++ [(j, [pd_of b c x fl sn])]) ∧
    zone_pd_xlist s' = z ∧ mbufs s' = mbufs s ∧ (∀ m b c x, carries s m b c x → carries s' m b c x).
Proof.
  intros R Hz Hlast Hm. destruct (pool_alloc_ok s h t ls j z R Hz) as (y & Ea & Hn1). set (s1 := put j y (set_xzone z s)) in *.
  pose proof (rp_nodup _ _ _ _ R) as Hnd. rewrite Hz in Hnd. apply NoDup_app in Hnd as (Hnd & Hd & Hnz).
  assert (j ∉ (fst <$> ls)) as Hj by (intros Hin; apply (Hd j Hin); constructor).
  assert (chain s1 ls) as Hc1 by (apply chain_put_ne; [done | apply chain_xzone, R]).
  assert (∃ s2, linked t j s1 s2 ∧ (∀ k, k ∉ (fst <$> ls) → k ≠ j → xlists s2 !! k = xlists s !! k) ∧ zone_pd_xlist s2 = z ∧ mbufs s2 = mbufs s ∧
    (∀ m b c x, carries s m b c x → carries s2 m b c x) ∧
    match t with None => mret () | Some t0 => '(_, x) ← xlist_load (Some t0); xlist_store t0 {| x_next := Some j; x_list := x_list x |} end s1 = Ok ((), s2) ∧
    (room ← match t with None => mret false | Some i => '(_, x) ← xlist_load (Some i); mret (negb (num_descs (x_list x) =? UINET_PD_XLIST_MAX_DESCS)) end; mret room) s = Ok (false, s))
    as (s2 & Hlk & Hx2 & Hz2 & Hm2 & Hca2 & E2 & Er).
  { pose proof (rp_tail _ _ _ _ R) as Ht. destruct ls as [| [i ds] A _] using rev_ind.
    - cbn in Ht. subst t. exists s1. do 2 (split; [try done |]); [| done]. intros k _ Hk. cbn. by rewrite lookup_insert_ne.
    - rewrite last_snoc in Ht. cbn in Ht. subst t. pose proof (Hlast A _ eq_refl) as Hful. cbn in Hful.
      assert (∀ q, chain q (A ++ [(i, ds)]) → node q i None ds) as Hnode.
      { intros q Hc. clear -Hc. induction A as [| [k es] A IH]; [apply Hc | apply IH, Hc]. }
      destruct (node_load s1 i None ds (Hnode _ Hc1)) as (x1 & E1 & Hx1 & _).
      destruct (node_load s i None ds (Hnode _ (rp_chain _ _ _ _ R))) as (x0 & E0 & _ & _ & Hnum & _).
      eexists. split; [exists x1; split; [reflexivity | done] |]. split.
      { intros k Hk Hkj. cbn. rewrite !lookup_insert_ne; [done | done |]. intros ->. apply Hk. rewrite fmap_app. apply elem_of_app. right. constructor. }
      split; [done |]. split; [done |]. split; [done |]. split.
      + erewrite M_bind_Ok by exact E1. done.
      + erewrite M_bind_Ok; [| erewrite M_bind_Ok by exact E0; reflexivity]. cbn beta. rewrite Hnum.
        unfold full in Hful. by rewrite Hful. }
  pose proof (link_chain s1 s2 ls j t Hc1 Hnd (rp_tail _ _ _ _ R) Hj Hn1 Hlk) as Hc2.
  assert (node s2 j None []) as Hn2.
  { clear -Hc2. induction ls as [| [k es] ls IH]; [apply Hc2 | apply IH, Hc2]. }
  destruct (append_ok s2 j None [] m b c x fl sn (Hca2 _ _ _ _ Hm) Hn2) as (y2 & E3 & Hn3); [cbn; lia |].
  exists (ref_up b (put j y2 s2)), (match h with None => Some j | Some _ => h end).
  split; [| split; [| split; [done | split; [done | by intros; apply carries_ref_up, Hca2]]]].
  - unfold uinet_pd_xlist_add_mbuf. unfold mbind, M_bind in Er |- *.
    match type of Er with match ?r with _ => _ end = _ => destruct r as [[rm s0] |]; [| done] end.
    injection Er as -> ->. cbn iota. rewrite Ea. cbn iota. unfold mbind, M_bind in E2. rewrite E2. cbn iota. by rewrite E3.
  - apply rep_ref_up. eapply rep_new; try done. by eapply chain_replace.
Qed.

End InCopySpec.
