(* ===== verification/InCopyRun.v ===== *)
(** The queue of copied packets over the life of a connection: every packet reaches the
    interface, once and in order. *)
From S2P Require Import Prelude PktDesc InCopy InCopySpec.
Import PktDesc InCopy InCopySpec.

Module InCopyRun.

(** ** Flushing full lists *)

Lemma chain_size s ls : chain s ls → NoDup (fst <$> ls) → (length ls <= size (xlists s))%nat.
Proof.
  intros Hc Hnd. rewrite <- (length_fmap fst ls), <- (size_dom (D := gset nat) (xlists s)).
  rewrite <- (size_list_to_set (C := gset nat)) by done. apply subseteq_size. intros i Hi%elem_of_list_to_set.
  apply list_elem_of_fmap in Hi as (l & -> & Hl).
  apply elem_of_dom. clear Hnd. induction ls as [| [j ds] ls IH]; [by apply not_elem_of_nil in Hl |].
  destruct Hc as [(arr & Hj & _) Hc]. apply elem_of_cons in Hl as [-> | Hl]; [by eexists | by apply IH].
Qed.

Definition rep_st (s : state) (ls : list (nat * list uinet_pd)) : Prop :=
  rep (st_store s) (inp_copyq (st_inp s)) (inp_copyq_tail (st_inp s)) ls.

Definition to_if (u : nat) (A : list (nat * list uinet_pd)) : list (nat * list uinet_pd) := (fun l => (u, snd l)) <$> A.

Definition flushed (u : nat) (A B : list (nat * list uinet_pd)) (s : state) : state :=
  mk_st (set_xzone (reverse (fst <$> A) ++ zone_pd_xlist (st_store s)) (st_store s)) (set_q (ptr B) (ptr B) (st_inp s)) (st_tx s ++ to_if u A).

Lemma in_copy_flush_full u A B s :
  rep_st s (A ++ B) → inp_copyif (st_inp s) = Some u → Forall (fun l => full (snd l)) A →
  match B with [] => True | (_, ds) :: _ => ¬ full ds end →
  in_copy_flush false s = Ok (tt, flushed u A B s).
Proof.
  intros R Hu HA HB. unfold in_copy_flush. erewrite M_bind_Ok by reflexivity. cbn beta. erewrite M_bind_Ok by reflexivity. cbn beta zeta.
  pose proof (rp_chain _ _ _ _ R) as Hc. pose proof (rp_nodup _ _ _ _ R) as Hnd. apply NoDup_app in Hnd as (Hnd & _ & _).
  pose proof (chain_size _ _ Hc Hnd) as Hsz. rewrite length_app in Hsz.
  rewrite (rp_head _ _ _ _ R), Hu. erewrite M_bind_Ok by (apply flush_loop_full; [done | done | done | lia]). cbn beta iota.
  erewrite M_bind_Ok by (erewrite on_store_Ok by (apply xlist_free_spec; [exact Hc | exact Hnd | lia]); reflexivity). cbn beta.
  erewrite M_bind_Ok by reflexivity. cbn beta. done.
Qed.

Lemma chain_suffix s A B : chain s (A ++ B) → chain s B.
Proof. induction A as [| [i ds] A IH]; [done |]. intros [_ H]. by apply IH. Qed.

Lemma chain_known s ls i : chain s ls → i ∈ (fst <$> ls) → ∃ x, xlists s !! i = Some x ∧ length (descs (x_list x)) = 16%nat.
Proof.
  induction ls as [| [j ds] ls IH]; cbn; [by intros _ ?%not_elem_of_nil |]. intros [(arr & Hj & Hl & _) Hc] [-> | Hi]%elem_of_cons; [| by apply IH].
  eexists. split; [exact Hj | exact Hl].
Qed.

Lemma flushed_rep u A B s :
  rep_st s (A ++ B) → match B with [] | [_] => True | _ => False end → rep_st (flushed u A B s) B.
Proof.
  intros [Hc Hh Ht Hnd Hz Hs Hfl] HB. split; cbn.
  - apply chain_xzone. by eapply chain_suffix.
  - done.
  - by destruct B as [| l [|]].
  - rewrite fmap_app in Hnd. rewrite app_assoc. eapply NoDup_Permutation_proper; [| exact Hnd].
    rewrite reverse_Permutation, (Permutation_app_comm (fst <$> B)). done.
  - intros j [Hj | Hj]%elem_of_app; [| by apply Hz]. rewrite elem_of_reverse in Hj.
    apply (chain_known (st_store s) (A ++ B)); [done |]. rewrite fmap_app. apply elem_of_app. by left.
  - by apply Forall_app in Hs as [_ Hs].
  - intros C l E. destruct B as [| l' [|]]; [by destruct C | | done]. destruct C as [| ? [|]]; [constructor | done | done].
Qed.

(** ** One packet *)

(** At most one list, not full; and a list can be had. *)
Definition ready (s : state) (ls : list (nat * list uinet_pd)) : Prop :=
  rep_st s ls ∧ match ls with [] => zone_pd_xlist (st_store s) ≠ [] | [(_, ds)] => ¬ full ds | _ => False end.

(** What was and will be handed over. *)
Definition output (s : state) (ls : list (nat * list uinet_pd)) : list uinet_pd := concat (snd <$> st_tx s) ++ queue ls.

Definition lists (s : state) (ls : list (nat * list uinet_pd)) : list nat := (fst <$> ls) ++ zone_pd_xlist (st_store s).

(** Copying is on and goes to interface [u]; the limit, if any, is not reached. *)
Record enabled (u : nat) (i : inpcb) : Prop := {
  en_mode : inp_copy_mode i = Z.lor IP_COPY_MODE_ON IP_COPY_MODE_RX;
  en_if : inp_copyif i = Some u;
  en_limit : inp_copy_limit i = 0 ∨ inp_copy_total i < inp_copy_limit i;
  en_total : 0 <= inp_copy_total i < 2 ^ 64
}.

(** The queue's fields apart. *)
Definition same_but_q (i j : inpcb) : Prop :=
  inp_copyif i = inp_copyif j ∧ inp_copy_limit i = inp_copy_limit j ∧ inp_copy_total i = inp_copy_total j ∧
  inp_copy_mode i = inp_copy_mode j ∧ inp_serialno i = inp_serialno j.

Definition entry : Type := nat * mbuf * nat * uinet_pd_ctx.
Definition e_ok (s : store) (e : entry) : Prop := let '(m, b, c, x) := e in carries s m b c x.
Definition e_pd (sn : Z) (e : entry) : uinet_pd := let '(m, b, c, x) := e in pd_of b c x UINET_PD_INJECT sn.
Definition e_m (e : entry) : nat := let '(m, _, _, _) := e in m.
Definition e_next (e : entry) : option nat := let '(_, b, _, _) := e in m_next b.

(** What one turn of the loop leaves. *)
Record turn (u : nat) (s s' : state) (ls ls' : list (nat * list uinet_pd)) (pds : list uinet_pd) : Prop := {
  tn_ready : ready s' ls';
  tn_out : output s' ls' = output s ls ++ pds;
  tn_lists : lists s' ls' ≡ₚ lists s ls;
  tn_inp : same_but_q (st_inp s') (st_inp s);
  tn_mbufs : mbufs (st_store s') = mbufs (st_store s);
  tn_keep : ∀ e, e_ok (st_store s) e → e_ok (st_store s') e;
  tn_tx : ∃ new, st_tx s' = st_tx s ++ new ∧ Forall (fun l => fst l = u ∧ full (snd l)) new
}.

(** Queueing one packet on a queue that is ready: the lists it gives. *)
Lemma add_ready s ls e :
  ready s ls → e_ok (st_store s) e →
  ∃ t h' t' ls', uinet_pd_xlist_add_mbuf (inp_copyq (st_inp s)) (inp_copyq_tail (st_inp s)) (e_m e) UINET_PD_INJECT
      (inp_serialno (st_inp s)) (st_store s) = Ok ((0, h', t'), t) ∧ rep t h' t' ls' ∧
    (∃ i ds, ls' = [(i, ds)]) ∧ queue ls' = queue ls ++ [e_pd (inp_serialno (st_inp s)) e] ∧
    (fst <$> ls') ++ zone_pd_xlist t ≡ₚ lists s ls ∧ mbufs t = mbufs (st_store s) ∧
    (∀ e, e_ok (st_store s) e → e_ok t e).
Proof.
  intros [R Hr] He. destruct e as [[[m b] c] x]. cbn in He. destruct ls as [| [i ds] [|]]; [| | done].
  - destruct (zone_pd_xlist (st_store s)) as [| j z] eqn:Hz; [done |].
    destruct (add_new _ _ _ [] j z m b c x UINET_PD_INJECT (inp_serialno (st_inp s)) R Hz) as (t & h' & E & R' & Hz' & Hm' & Hk).
    { intros A l H. by destruct A. }
    { done. }
    exists t, h', (Some j), [(j, [pd_of b c x UINET_PD_INJECT (inp_serialno (st_inp s))])].
    do 2 (split; [done |]). split; [by eauto |]. split; [done |]. unfold lists. rewrite Hz, Hz'. do 2 (split; [done |]).
    intros [[[? ?] ?] ?]. apply Hk.
  - assert ((length ds < 16)%nat) as Hl.
    { destruct (rp_chain _ _ _ _ R) as [(arr & _ & _ & Hb & _) _]. unfold full in Hr. lia. }
    destruct (add_room _ _ _ [] i ds m b c x UINET_PD_INJECT (inp_serialno (st_inp s)) R Hl He) as (t & E & R' & Hz' & Hm' & Hk).
    exists t, (inp_copyq (st_inp s)), (inp_copyq_tail (st_inp s)), [(i, ds ++ [pd_of b c x UINET_PD_INJECT (inp_serialno (st_inp s))])].
    do 2 (split; [done |]). split; [by eauto |]. split; [by apply (queue_snoc [] i ds) |]. unfold lists. rewrite Hz'. do 2 (split; [done |]).
    intros [[[? ?] ?] ?]. apply Hk.
Qed.

Lemma head_full_ok s i ds : rep_st s [(i, ds)] → head_full s = Ok (bool_decide (full ds), s).
Proof.
  intros R. unfold head_full. erewrite M_bind_Ok by reflexivity. cbn beta. rewrite (rp_head _ _ _ _ R). cbn.
  destruct (rp_chain _ _ _ _ R) as [Hn _]. destruct (load_node s i _ ds Hn) as (x & E & _ & _ & Hnum & _).
  erewrite M_bind_Ok by exact E. cbn beta iota. unfold mret, M_ret. do 2 f_equal. rewrite Hnum. unfold full, UINET_PD_XLIST_MAX_DESCS.
  destruct (Z.eqb_spec (Z.of_nat (length ds)) 16); [rewrite bool_decide_eq_true_2 | rewrite bool_decide_eq_false_2]; [done | lia | done | lia].
Qed.

Lemma in_copy_turn u s ls e fuel :
  enabled u (st_inp s) → ready s ls → e_ok (st_store s) e →
  ∃ s' ls', in_copy_loop (S fuel) (Some (e_m e)) s = in_copy_loop fuel (e_next e) s' ∧
    turn u s s' ls ls' [e_pd (inp_serialno (st_inp s)) e].
Proof.
  intros [Hmode Hif Hlim Htot] Hr He. destruct (add_ready s ls e Hr He) as (t & h' & t' & ls' & Ea & R' & (i & ds & ->) & Hq & Hls & Hm & Hk).
  set (s1 := mk_st t (set_total (u64 (inp_copy_total (st_inp s) + 0)) (set_q h' t' (st_inp s))) (st_tx s)).
  assert (rep_st s1 [(i, ds)]) as R1 by exact R'.
  assert (same_but_q (st_inp s1) (st_inp s)) as Hsame.
  { cbn. rewrite Z.add_0_r, wrap_u_id by done. by split. }
  set (s2 := if bool_decide (full ds) then flushed u [(i, ds)] [] s1 else s1).
  assert ((if has_flag (inp_copy_mode (st_inp s)) IP_COPY_MODE_ON && bool_decide (full ds) then in_copy_flush false else mret ()) s1 = Ok ((), s2)) as Ef.
  { rewrite Hmode. change (has_flag _ _) with true. cbn [andb]. unfold s2. case_bool_decide as Hf; [| done].
    apply (in_copy_flush_full u [(i, ds)] []); [done | done | by apply Forall_singleton | done]. }
  assert (e_ok (st_store s2) e ∧ mbufs (st_store s2) = mbufs (st_store s) ∧ (∀ e, e_ok (st_store s) e → e_ok (st_store s2) e) ∧
    same_but_q (st_inp s2) (st_inp s)) as (He2 & Hm2 & Hk2 & Hsame2).
  { unfold s2. case_bool_decide; [| by auto]. split; [destruct e as [[[m b] c] x]; by apply (Hk (m, b, c, x)) |]. split; [done |].
    split; [| done]. intros [[[m b] c] x] H'. by apply (Hk (m, b, c, x)). }
  exists s2, (if bool_decide (full ds) then [] else [(i, ds)]). split.
  - destruct e as [[[m b] c] x]. cbn [e_m e_next] in *. cbn [in_copy_loop]. erewrite M_bind_Ok by reflexivity. cbn beta.
    replace ((inp_copy_limit (st_inp s) =? 0) || (inp_copy_total (st_inp s) <? inp_copy_limit (st_inp s))) with true
      by (destruct (Z.eqb_spec (inp_copy_limit (st_inp s)) 0); [done |]; symmetry; apply Z.ltb_lt; lia).
    erewrite M_bind_Ok by (erewrite on_store_Ok by exact Ea; reflexivity). cbn beta iota. erewrite M_bind_Ok by reflexivity. cbn beta.
    match goal with |- mbind _ _ ?x = _ => change x with s1 end. erewrite M_bind_Ok by (exact (head_full_ok s1 i ds R1)). cbn beta.
    erewrite M_bind_Ok by exact Ef. cbn beta. destruct He2 as (Hmm & _).
    erewrite M_bind_Ok by (erewrite on_store_Ok by (unfold mbuf_load; rewrite Hmm; reflexivity); reflexivity). cbn beta iota. by destruct s2.
  - split; try done; unfold s2; case_bool_decide as Hf.
    + split; [apply (flushed_rep u [(i, ds)] [] s1 R1 I) |]. cbn. done.
    + by split.
    + unfold output. cbn. rewrite fmap_app, concat_app. cbn. rewrite !app_nil_r.
      cbn in Hq. rewrite app_nil_r in Hq. rewrite Hq. by rewrite app_assoc.
    + unfold output. cbn. cbn in Hq. rewrite Hq. by rewrite app_assoc.
    + unfold lists at 1. cbn. rewrite <- Hls. done.
    + rewrite <- Hls. done.
    + exists [(u, ds)]. split; [done |]. by apply Forall_singleton.
    + exists []. split; [cbn; by rewrite app_nil_r | constructor].
Qed.

(** ** A packet of several mbufs *)

(** The mbufs linked by [m_next]. *)
Fixpoint linked_mbufs (es : list entry) : Prop :=
  match es with
  | [] => True
  | e :: t => e_next e = (e_m <$> head t) ∧ linked_mbufs t
  end.

Lemma turn_refl u s ls : ready s ls → turn u s s ls ls [].
Proof. intros H. split; try done; [by rewrite app_nil_r | exists []; by rewrite app_nil_r]. Qed.

Lemma turn_trans u s1 s2 s3 l1 l2 l3 p q :
  turn u s1 s2 l1 l2 p → turn u s2 s3 l2 l3 q → turn u s1 s3 l1 l3 (p ++ q).
Proof.
  intros [R1 O1 L1 I1 M1 K1 (n1 & T1 & F1)] [R2 O2 L2 I2 M2 K2 (n2 & T2 & F2)]. split.
  - done.
  - by rewrite O2, O1, app_assoc.
  - by rewrite L2, L1.
  - destruct I1 as (? & ? & ? & ? & ?), I2 as (? & ? & ? & ? & ?). repeat split; congruence.
  - congruence.
  - auto.
  - exists (n1 ++ n2). rewrite T2, T1, app_assoc. split; [done | by apply Forall_app].
Qed.

Lemma enabled_same u i j : same_but_q j i → enabled u i → enabled u j.
Proof. intros (H1 & H2 & H3 & H4 & _) []. split; congruence || (rewrite ?H2, ?H3; done). Qed.

Lemma in_copy_loop_ok u es : ∀ fuel s ls,
  enabled u (st_inp s) → ready s ls → Forall (e_ok (st_store s)) es → linked_mbufs es → (length es <= fuel)%nat →
  ∃ s' ls', in_copy_loop fuel (e_m <$> head es) s = Ok (tt, s') ∧ turn u s s' ls ls' (e_pd (inp_serialno (st_inp s)) <$> es).
Proof.
  induction es as [| e es IH]; intros fuel s ls Hen Hr Hok Hlk Hf.
  - exists s, ls. split; [by destruct fuel | by apply turn_refl].
  - destruct fuel as [| fuel]; [cbn in Hf; lia |]. apply Forall_cons in Hok as [He Hok]. destruct Hlk as [Hnx Hlk].
    destruct (in_copy_turn u s ls e fuel Hen Hr He) as (s1 & ls1 & E1 & T1). pose proof (tn_inp _ _ _ _ _ _ T1) as Hi.
    destruct (IH fuel s1 ls1) as (s2 & ls2 & E2 & T2).
    + by eapply enabled_same.
    + apply T1.
    + eapply Forall_impl; [exact Hok |]. intros e'. apply T1.
    + done.
    + cbn in Hf. lia.
    + exists s2, ls2. cbn [head fmap option_fmap option_map]. rewrite E1, Hnx. split; [exact E2 |].
      assert (inp_serialno (st_inp s1) = inp_serialno (st_inp s)) as Hs by apply Hi. rewrite Hs in T2.
      exact (turn_trans u s s1 s2 ls ls1 ls2 _ _ T1 T2).
Qed.

Lemma in_copy_ok u es s ls :
  enabled u (st_inp s) → ready s ls → Forall (e_ok (st_store s)) es → linked_mbufs es → NoDup (e_m <$> es) →
  ∃ s' ls', in_copy (e_m <$> head es) s = Ok (tt, s') ∧ turn u s s' ls ls' (e_pd (inp_serialno (st_inp s)) <$> es).
Proof.
  intros Hen Hr Hok Hlk Hnd. unfold in_copy. erewrite M_bind_Ok by reflexivity. cbn beta.
  rewrite (en_mode _ _ Hen). change (has_flag _ IP_COPY_MODE_RX) with true. cbn iota. erewrite M_bind_Ok by reflexivity. cbn beta.
  apply in_copy_loop_ok; try done. apply Nat.le_le_succ_r.
  rewrite <- (length_fmap e_m es), <- (size_dom (D := gset nat) (mbufs (st_store s))).
  rewrite <- (size_list_to_set (C := gset nat)) by done. apply subseteq_size. intros m Hm%elem_of_list_to_set.
  apply list_elem_of_fmap in Hm as (e & -> & He). apply elem_of_dom. rewrite Forall_forall in Hok. specialize (Hok e He).
  destruct e as [[[m b] c] x]. destruct Hok as [Hm _]. by eexists.
Qed.

(** Several packets, one after the other. *)
Fixpoint copy_all (ps : list (list entry)) : C unit :=
  match ps with [] => mret () | es :: ps => _ ← in_copy (e_m <$> head es); copy_all ps end.

Definition packet_ok (s : store) (es : list entry) : Prop :=
  Forall (e_ok s) es ∧ linked_mbufs es ∧ NoDup (e_m <$> es).

Lemma copy_all_ok u ps : ∀ s ls,
  enabled u (st_inp s) → ready s ls → Forall (packet_ok (st_store s)) ps →
  ∃ s' ls', copy_all ps s = Ok (tt, s') ∧ turn u s s' ls ls' (e_pd (inp_serialno (st_inp s)) <$> concat ps).
Proof.
  induction ps as [| es ps IH]; intros s ls Hen Hr Hp.
  - exists s, ls. split; [done | by apply turn_refl].
  - apply Forall_cons in Hp as [(Hok & Hlk & Hnd) Hp].
    destruct (in_copy_ok u es s ls Hen Hr Hok Hlk Hnd) as (s1 & ls1 & E1 & T1). pose proof (tn_inp _ _ _ _ _ _ T1) as Hi.
    destruct (IH s1 ls1) as (s2 & ls2 & E2 & T2).
    + by eapply enabled_same.
    + apply T1.
    + eapply Forall_impl; [exact Hp |]. intros q (Hq & Hl & Hn). split; [| done]. eapply Forall_impl; [exact Hq |]. intros e'. apply T1.
    + exists s2, ls2. cbn [copy_all]. erewrite M_bind_Ok by exact E1. split; [exact E2 |].
      assert (inp_serialno (st_inp s1) = inp_serialno (st_inp s)) as Hs by apply Hi. rewrite Hs in T2.
      cbn [concat]. rewrite fmap_app. by eapply turn_trans.
Qed.

(** ** The end of the connection *)

Definition finished (u : nat) (s s' : state) (ls : list (nat * list uinet_pd)) : Prop :=
  inp_copyq (st_inp s') = None ∧ zone_pd_xlist (st_store s') ≡ₚ lists s ls ∧
  st_tx s' = st_tx s ++ match ls with [(_, ds)] => [(u, mark ds)] | _ => [] end.

Lemma pcbdrop_ok u s ls :
  enabled u (st_inp s) → inp_copy_total (st_inp s) = 0 → ready s ls → ∃ s', pcbdrop_copy s = Ok (tt, s') ∧ finished u s s' ls.
Proof.
  intros Hen Htot [R Hr]. unfold pcbdrop_copy. erewrite M_bind_Ok by reflexivity. cbn beta.
  rewrite (en_mode _ _ Hen). change (has_flag _ IP_COPY_MODE_ON) with true. cbn iota. unfold in_copy_flush.
  erewrite M_bind_Ok by reflexivity. cbn beta. erewrite M_bind_Ok by reflexivity. cbn beta zeta.
  rewrite (en_if _ _ Hen), Htot. change (0 <? 0) with false. rewrite (rp_head _ _ _ _ R).
  pose proof (rp_nodup _ _ _ _ R) as Hnd. apply NoDup_app in Hnd as (Hnd & _ & _).
  destruct ls as [| [i ds] [|]]; [| | done].
  - eexists. split.
    + erewrite M_bind_Ok by (cbn; destruct s; reflexivity). cbn beta iota.
      erewrite M_bind_Ok by (cbn; reflexivity). cbn beta. erewrite M_bind_Ok by reflexivity. cbn beta. rewrite andb_false_r. reflexivity.
    + unfold finished, lists. cbn. by rewrite app_nil_r.
  - destruct (flush_loop_finish u i ds [] (S (size (xlists (st_store s)))) false s) as (x & E & Hc).
    + apply R.
    + apply not_elem_of_nil.
    + apply R.
    + cbn. pose proof (chain_size _ _ (rp_chain _ _ _ _ R) Hnd). cbn in *. lia.
    + eexists. split.
      * erewrite M_bind_Ok by exact E. cbn beta iota.
        erewrite M_bind_Ok by (erewrite on_store_Ok by (apply (xlist_free_spec [(i, mark ds)] []); [exact Hc | exact Hnd | cbn; pose proof (chain_size _ _ (rp_chain _ _ _ _ R) Hnd); cbn in *; lia]); reflexivity).
        cbn beta. erewrite M_bind_Ok by reflexivity. cbn beta. rewrite andb_false_r. reflexivity.
      * unfold finished, lists. cbn. done.
Qed.

(** The first [k] groups of 16. *)
Fixpoint groups (k : nat) (l : list uinet_pd) : list (list uinet_pd) :=
  match k with O => [] | S k => take 16 l :: groups k (drop 16 l) end.

Lemma full_groups (new : list (nat * list uinet_pd)) u rest :
  Forall (fun l => fst l = u ∧ full (snd l)) new → (length rest < 16)%nat →
  let l := concat (snd <$> new) ++ rest in
  length new = (length l / 16)%nat ∧ new = (u,.) <$> groups (length l / 16) l ∧ rest = drop (16 * (length l / 16)) l.
Proof.
  intros Hn Hr l. assert (length l = 16 * length new + length rest)%nat as Hlen.
  { unfold l. rewrite length_app. f_equal. clear l. induction Hn as [| [v ds] new [_ Hf] _ IH]; [done |]. cbn in *. rewrite length_app, IH. unfold full in Hf. lia. }
  assert (length l / 16 = length new)%nat as Hd.
  { symmetry. apply (Nat.div_unique _ _ _ (length rest)); lia. }
  rewrite Hd. split; [done |]. clear Hd Hlen. subst l. split.
  - induction Hn as [| [v ds] new [Hu Hf] _ IH]; [done |]. cbn in *. subst v. unfold full in Hf.
    rewrite <- app_assoc, take_app_length' by lia. rewrite drop_app_length' by lia. by rewrite <- IH.
  - induction Hn as [| [v ds] new [_ Hf] _ IH]; [done |]. cbn [length fmap list_fmap concat snd]. unfold full in Hf. cbn in Hf.
    replace (16 * S (length new))%nat with (16 + 16 * length new)%nat by lia. rewrite <- drop_drop, <- app_assoc.
    by rewrite drop_app_length' by lia.
Qed.

(** [C11] While copying is on and no limit is set, every mbuf of every received packet is
    handed to the copy interface exactly once and in order, in lists of 16, each handed
    over when it is full; when the connection ends with some left over, these follow in
    one more list whose last descriptor is marked to flush the flow; and the queue is
    empty then and all lists are back in their pool.  (Nothing is said of the flush when
    the last list was full, where the code does not send the one its comment promises, nor
    of the limit, which the code does not enforce: [in_copy_flush_missing],
    [in_copy_limit_ignored].) *)
Theorem in_copy_delivers (u : nat) (s : state) (ps : list (list entry)) :
  enabled u (st_inp s) → inp_copy_limit (st_inp s) = 0 → inp_copy_total (st_inp s) = 0 →
  rep_st s [] → zone_pd_xlist (st_store s) ≠ [] → Forall (packet_ok (st_store s)) ps →
  let pds := e_pd (inp_serialno (st_inp s)) <$> concat ps in
  let k := (length pds / 16)%nat in
  ∃ s1 s2, copy_all ps s = Ok (tt, s1) ∧ st_tx s1 = st_tx s ++ ((u,.) <$> groups k pds) ∧
    pcbdrop_copy s1 = Ok (tt, s2) ∧ inp_copyq (st_inp s2) = None ∧
    zone_pd_xlist (st_store s2) ≡ₚ zone_pd_xlist (st_store s) ∧
    ((length pds mod 16 ≠ 0)%nat → st_tx s2 = st_tx s1 ++ [(u, mark (drop (16 * k) pds))]).
Proof.
  intros Hen _ Htot R Hz Hp pds k. destruct (copy_all_ok u ps s [] Hen (conj R Hz) Hp) as (s1 & ls & E1 & T).
  pose proof (tn_inp _ _ _ _ _ _ T) as Hi. assert (inp_copy_total (st_inp s1) = 0) as Ht1 by (destruct Hi as (_ & _ & -> & _); done).
  destruct (pcbdrop_ok u s1 ls (enabled_same u _ _ Hi Hen) Ht1 (tn_ready _ _ _ _ _ _ T)) as (s2 & E2 & Hq & Hzn & Htx).
  destruct (tn_tx _ _ _ _ _ _ T) as (new & Hnew & Hful). pose proof (tn_out _ _ _ _ _ _ T) as Hout. fold pds in Hout.
  unfold output in Hout. cbn [queue fmap list_fmap concat] in Hout. rewrite app_nil_r in Hout.
  rewrite Hnew, fmap_app, concat_app, <- app_assoc in Hout. apply app_inv_head in Hout.
  destruct (tn_ready _ _ _ _ _ _ T) as [R1 Hr1].
  assert (length (queue ls) < 16)%nat as Hlt.
  { unfold queue. destruct ls as [| [i ds] [|]]; [cbn; lia | | done]. destruct (rp_chain _ _ _ _ R1) as [(arr & _ & _ & Hb & _) _].
    cbn. rewrite app_nil_r. unfold full in Hr1. lia. }
  destruct (full_groups new u (queue ls) Hful Hlt) as (Hk & Hg & Hrest). cbv zeta in *. rewrite Hout in Hk, Hg, Hrest. fold k in Hk, Hg, Hrest.
  exists s1, s2. split; [done |]. split; [by rewrite Hnew, Hg at 1 |]. do 2 (split; [done |]). split.
  - rewrite Hzn, (tn_lists _ _ _ _ _ _ T). done.
  - intros Hmod. rewrite Htx. f_equal. unfold queue in *. destruct ls as [| [i ds] [|]]; [| | done].
    + destruct Hmod. apply (f_equal length) in Hrest. rewrite length_drop in Hrest. cbn [length fmap list_fmap concat] in Hrest. unfold k in Hrest.
      pose proof (Nat.div_mod_eq (length pds) 16). lia.
    + cbn in Hrest. rewrite app_nil_r in Hrest. by rewrite Hrest.
Qed.

(** ** A connection *)

Definition ex_mbuf (next : option nat) (c : nat) : mbuf :=
  {| m_next := next; m_nextpkt := None; m_data := 0; m_len := 60; m_flags := M_EXT; m_type := MT_DATA; m_pkthdr_len := 60;
     m_rcvif := None; m_tags := []; ext_buf := 4096 * Z.of_nat c; ext_type := EXT_EXTREF; ext_free := None; ext_arg1 := None;
     ext_arg2 := Some c; ext_ref_cnt := c |}.
Definition ex_ctx (c : nat) : uinet_pd_ctx :=
  {| timestamp := 0; c_m := Some c; c_ref := Z.of_nat c; m_orig_len := 60; c_flags := 0; c_pool_id := 0; refcnt := c |}.
Definition ex_entry (next : option nat) (c : nat) : entry := (c, ex_mbuf next c, c, ex_ctx c).

(** Packets of one mbuf each, numbered from 1. *)
Definition ex_store (n : nat) : store :=
  let ids := seq 1 n in
  mk_store (list_to_map ((fun c => (c, ex_ctx c)) <$> ids)) (list_to_map ((fun c => (c, 1)) <$> ids))
    (list_to_map ((fun c => (c, ex_mbuf None c)) <$> ids)) [] [] [] []
    {[ 50%nat := {| x_next := None; x_list := {| num_descs := 0; descs := replicate 16 null_pd |} |} ]} [50%nat].
Definition ex_inp (limit : Z) : inpcb := mk_inp None None (Some 9%nat) limit 0 (Z.lor IP_COPY_MODE_ON IP_COPY_MODE_RX) 77.
Definition ex_state (n : nat) (limit : Z) : state := mk_st (ex_store n) (ex_inp limit) [].
Definition ex_packets (n : nat) : list (list entry) := (fun c => [ex_entry None c]) <$> seq 1 n.

Lemma in_copy_delivers_witness :
  ∃ s1 s2, copy_all (ex_packets 3) (ex_state 3 0) = Ok (tt, s1) ∧ pcbdrop_copy s1 = Ok (tt, s2) ∧
    (fst <$> st_tx s2) = [9%nat] ∧ length (concat (snd <$> st_tx s2)) = 3%nat.
Proof.
  edestruct (in_copy_delivers 9 (ex_state 3 0) (ex_packets 3)) as (s1 & s2 & E1 & T1 & E2 & _ & _ & Ht).
  - split; [reflexivity | reflexivity | left; reflexivity | cbn; lia].
  - reflexivity.
  - reflexivity.
  - split; cbn; try done.
    + repeat constructor. apply not_elem_of_nil.
    + intros j [-> | []%not_elem_of_nil]%elem_of_cons. eexists. split; [apply lookup_insert_eq | reflexivity].
    + intros A l H. by destruct A.
  - done.
  - repeat constructor; try (apply not_elem_of_nil); try (by vm_compute; eauto); by eexists; vm_compute.
  - exists s1, s2. split; [exact E1 |]. split; [exact E2 |]. rewrite Ht, T1 by (vm_compute; lia). vm_compute. by split.
Defined.

(** A limit of one byte stops nothing. *)
Lemma in_copy_limit_ignored :
  (r ← copy_all (ex_packets 20) (ex_state 20 1); Ok (length (concat (snd <$> st_tx (snd r))), inp_copy_total (st_inp (snd r)))) = Ok (16%nat, 0).
Proof. vm_compute. reflexivity. Qed.

(** When the packets fill their lists exactly, the flow is never flushed: the flush
    descriptor depends on the running total as well. *)
Lemma in_copy_flush_missing :
  (r ← copy_all (ex_packets 16) (ex_state 16 0); r ← pcbdrop_copy (snd r);
   Ok (length (concat (snd <$> st_tx (snd r))), existsb (fun pd => has_flag (pd_flags pd) UINET_PD_FLUSH_FLOW) (concat (snd <$> st_tx (snd r))))) = Ok (16%nat, false).
Proof. vm_compute. reflexivity. Qed.

(** Without a free list a packet is lost, and the total counts it as a byte. *)
Lemma in_copy_total_counts_failures :
  (r ← copy_all (ex_packets 1) (mk_st (set_xzone [] (ex_store 1)) (ex_inp 0) []); Ok (length (st_tx (snd r)), inp_copyq (st_inp (snd r)), inp_copy_total (st_inp (snd r)))) = Ok (0%nat, None, 1).
Proof. vm_compute. reflexivity. Qed.

End InCopyRun.
