(* ===== verification/InPassive.v ===== *)
(** Coupled sockets of passive reassembly (src/src/sys/netinet/in_passive.c): the two
    ends of an observed connection, the order in which their locks are taken, and the
    conversion of one end into an active endpoint. *)
From S2P Require Import Prelude.

Module InPassive.

Definition SO_PASSIVE : Z := 0x00020000.
Definition SO_PASSIVECLNT : Z := 0x00040000.
Definition INP_PASSIVE : Z := 0x10.
Definition TF_RCVD_TSTMP : Z := 0x100.
Definition ECONNABORTED : Z := 53.

(** The fields used: a socket with its control block and peer, a control block with
    its TCP state. *)
Record socket : Type := mk_so { so_options : Z; so_passive_peer : option nat; so_pcb : nat }.
Record tcpcb : Type := mk_tp { snd_una : Z; snd_max : Z; snd_nxt : Z; rcv_nxt : Z; t_flags : Z }.
Record inpcb : Type := mk_inp { inp_socket : nat; inp_flags2 : Z; inp_tp : tcpcb }.

(** Sockets, control blocks, the control-block locks and socket locks this thread
    holds, and the connections dropped with an error. *)
Record state : Type := mk_st {
  socks : gmap nat socket; inps : gmap nat inpcb; inp_locks : list nat; sock_locks : list nat; dropped : list (nat * Z)
}.

Abbreviation T := (M state).

Definition so_load (p : option nat) : T (nat * socket) := fun s =>
  match p with
  | None => Fault NullDeref
  | Some i => match socks s !! i with Some x => Ok ((i, x), s) | None => Fault BadPointer end
  end.
Definition so_store (i : nat) (x : socket) : T unit :=
  modify (fun s => mk_st (<[i := x]> (socks s)) (inps s) (inp_locks s) (sock_locks s) (dropped s)).
Definition inp_load (i : nat) : T inpcb := fun s =>
  match inps s !! i with Some x => Ok (x, s) | None => Fault BadPointer end.
Definition inp_store (i : nat) (x : inpcb) : T unit :=
  modify (fun s => mk_st (socks s) (<[i := x]> (inps s)) (inp_locks s) (sock_locks s) (dropped s)).

(** Locks of this thread: taking one twice never returns. *)
Definition INP_WLOCK (i : nat) : T unit := fun s =>
  if bool_decide (i ∈ inp_locks s) then Fault Blocked
  else Ok (tt, mk_st (socks s) (inps s) (i :: inp_locks s) (sock_locks s) (dropped s)).
Definition INP_WUNLOCK (i : nat) : T unit := fun s =>
  if bool_decide (i ∈ inp_locks s) then
    Ok (tt, mk_st (socks s) (inps s) (filter (fun x => x ≠ i) (inp_locks s)) (sock_locks s) (dropped s))
  else Fault BadUnlock.
Definition SOCK_LOCK (i : nat) : T unit := fun s =>
  if bool_decide (i ∈ sock_locks s) then Fault Blocked
  else Ok (tt, mk_st (socks s) (inps s) (inp_locks s) (i :: sock_locks s) (dropped s)).
Definition SOCK_UNLOCK (i : nat) : T unit := fun s =>
  if bool_decide (i ∈ sock_locks s) then
    Ok (tt, mk_st (socks s) (inps s) (inp_locks s) (filter (fun x => x ≠ i) (sock_locks s)) (dropped s))
  else Fault BadUnlock.

Definition in_passive_inpcb_init (inp : nat) : T Z :=
  i ← inp_load inp; '(_, so) ← so_load (Some (inp_socket i));
  _ ← (if has_flag (so_options so) SO_PASSIVE then inp_store inp (mk_inp (inp_socket i) (Z.lor (inp_flags2 i) INP_PASSIVE) (inp_tp i)) else mret ());
  mret 0.

(** ** Order *)

(** The primary and the secondary socket. *)
Definition in_passive_ordered_socks (so : nat) : T (option nat * option nat) :=
  '(_, x) ← so_load (Some so);
  if has_flag (so_options x) SO_PASSIVECLNT then mret (so_passive_peer x, Some so)
  else mret (Some so, so_passive_peer x).

Definition in_passive_ordered_inps (so : nat) : T (nat * nat) :=
  '(p, q) ← in_passive_ordered_socks so;
  '(_, x) ← so_load p; '(_, y) ← so_load q;
  mret (so_pcb x, so_pcb y).

Definition in_passive_acquire_locks (so : nat) : T unit :=
  '(p, q) ← in_passive_ordered_inps so; _ ← INP_WLOCK p; INP_WLOCK q.
Definition in_passive_release_locks (so : nat) : T unit :=
  '(p, q) ← in_passive_ordered_inps so; _ ← INP_WUNLOCK q; INP_WUNLOCK p.

Definition in_passive_acquire_sock_locks (so : nat) : T unit :=
  '(p, q) ← in_passive_ordered_socks so;
  '(p, _) ← so_load p; '(q, _) ← so_load q; _ ← SOCK_LOCK p; SOCK_LOCK q.
Definition in_passive_release_sock_locks (so : nat) : T unit :=
  '(p, q) ← in_passive_ordered_socks so;
  '(p, _) ← so_load p; '(q, _) ← so_load q; _ ← SOCK_UNLOCK q; SOCK_UNLOCK p.

(** ** Conversion *)

Definition clear_so (i : nat) : T unit :=
  '(_, x) ← so_load (Some i);
  so_store i (mk_so (clear_flag (so_options x) (Z.lor SO_PASSIVE SO_PASSIVECLNT)) (so_passive_peer x) (so_pcb x)).
Definition clear_inp (i : nat) : T unit :=
  x ← inp_load i; inp_store i (mk_inp (inp_socket x) (clear_flag (inp_flags2 x) INP_PASSIVE) (inp_tp x)).

(** The three assignments to the send state and the one to [t_flags]. *)
Definition takeover (i : nat) (seq : Z) : T unit :=
  x ← inp_load i;
  inp_store i (mk_inp (inp_socket x) (inp_flags2 x)
    (mk_tp seq seq seq (rcv_nxt (inp_tp x)) (clear_flag (t_flags (inp_tp x)) TF_RCVD_TSTMP))).

(** [alive] is whether [tcp_drop] returns the connection; when it does not, it has
    released the lock of the control block itself. *)
Definition tcp_drop (alive : bool) (i : nat) (err : Z) : T bool :=
  _ ← modify (fun s => mk_st (socks s) (inps s) (inp_locks s) (sock_locks s) (dropped s ++ [(i, err)]));
  _ ← (if alive then mret () else INP_WUNLOCK i);
  mret alive.

Definition in_passive_convert_to_active (alive : bool) (so : nat) : T unit :=
  '(_, x) ← so_load (Some so);
  '(peer, y) ← so_load (so_passive_peer x);
  let inp := so_pcb x in let peer_inp := so_pcb y in
  _ ← clear_inp inp; _ ← clear_inp peer_inp;
  _ ← in_passive_acquire_sock_locks so;
  _ ← clear_so so; _ ← clear_so peer;
  _ ← in_passive_release_sock_locks so;
  p ← inp_load peer_inp; _ ← takeover inp (rcv_nxt (inp_tp p));
  i ← inp_load inp; _ ← takeover peer_inp (rcv_nxt (inp_tp i));
  left ← tcp_drop alive peer_inp ECONNABORTED;
  if (left : bool) then INP_WUNLOCK peer_inp else mret ().

End InPassive.
