(* ===== verification/InPassiveSpec.v ===== *)
(** Properties of coupled sockets: the order of their locks does not depend on the end
    one starts from, and what the conversion to an active endpoint does, with the locks
    taken before it and left after it. *)
From S2P Require Import Prelude InPassive.
Import InPassive.

Module InPassiveSpec.

Definition clnt (x : socket) : bool := has_flag (so_options x) SO_PASSIVECLNT.

(** [a] and [b] are the two ends of a connection. *)
Record couple (ss : gmap nat socket) (a b : nat) (x y : socket) : Prop := {
  cp_a : ss !! a = Some x; cp_b : ss !! b = Some y;
  cp_ab : so_passive_peer x = Some b; cp_ba : so_passive_peer y = Some a;
  cp_client : clnt x = negb (clnt y); cp_ne : a ≠ b; cp_pcb : so_pcb x ≠ so_pcb y
}.

Lemma couple_sym ss a b x y : couple ss a b x y → couple ss b a y x.
Proof. intros []. split; try done. by rewrite cp_client0, negb_involutive. Qed.

(** The server's end first. *)
Definition order (a b : nat) (x y : socket) : nat * nat := if clnt x then (so_pcb y, so_pcb x) else (so_pcb x, so_pcb y).

Lemma order_sym ss a b x y : couple ss a b x y → order a b x y = order b a y x.
Proof. intros C. unfold order. rewrite (cp_client _ _ _ _ _ C). by destruct (clnt y). Qed.

Lemma ordered_inps_ok s a b x y :
  couple (socks s) a b x y → in_passive_ordered_inps a s = Ok (order a b x y, s).
Proof.
  intros C. unfold in_passive_ordered_inps, in_passive_ordered_socks, order, clnt.
  assert (so_load (Some a) s = Ok ((a, x), s)) as Ea by (unfold so_load; by rewrite (cp_a _ _ _ _ _ C)).
  assert (so_load (Some b) s = Ok ((b, y), s)) as Eb by (unfold so_load; by rewrite (cp_b _ _ _ _ _ C)).
  destruct (has_flag (so_options x) SO_PASSIVECLNT) eqn:Ef.
  - erewrite M_bind_Ok; [| erewrite M_bind_Ok by exact Ea; cbn beta iota; rewrite Ef; reflexivity]. cbn beta iota.
    rewrite (cp_ab _ _ _ _ _ C). erewrite M_bind_Ok by exact Eb. cbn beta iota. by erewrite M_bind_Ok by exact Ea.
  - erewrite M_bind_Ok; [| erewrite M_bind_Ok by exact Ea; cbn beta iota; rewrite Ef; reflexivity]. cbn beta iota.
    rewrite (cp_ab _ _ _ _ _ C). erewrite M_bind_Ok by exact Ea. cbn beta iota. by erewrite M_bind_Ok by exact Eb.
Qed.

Definition ex_socks : gmap nat socket :=
  {[ 1%nat := mk_so SO_PASSIVE (Some 2%nat) 11; 2%nat := mk_so (Z.lor SO_PASSIVE SO_PASSIVECLNT) (Some 1%nat) 12 ]}.

(** ** Conversion *)

Lemma so_load_ok s i x : socks s !! i = Some x → so_load (Some i) s = Ok ((i, x), s).
Proof. intros H. unfold so_load. by rewrite H. Qed.
Lemma inp_load_ok s i x : inps s !! i = Some x → inp_load i s = Ok (x, s).
Proof. intros H. unfold inp_load. by rewrite H. Qed.

Lemma ordered_socks_ok s a b x y :
  couple (socks s) a b x y → in_passive_ordered_socks a s = Ok (if clnt x then (Some b, Some a) else (Some a, Some b), s).
Proof.
  intros C. unfold in_passive_ordered_socks, clnt. erewrite M_bind_Ok by (apply so_load_ok, C). cbn beta iota.
  rewrite (cp_ab _ _ _ _ _ C). by destruct (has_flag (so_options x) SO_PASSIVECLNT).
Qed.

Definition with_sock_locks (l : list nat) (s : state) : state := mk_st (socks s) (inps s) (inp_locks s) l (dropped s).

Lemma acquire_sock_locks_ok s a b x y :
  couple (socks s) a b x y → sock_locks s = [] →
  ∃ l, in_passive_acquire_sock_locks a s = Ok (tt, with_sock_locks l s) ∧ (l = [a; b] ∨ l = [b; a]).
Proof.
  intros C Hl. pose proof (cp_ne _ _ _ _ _ C) as Hne. unfold in_passive_acquire_sock_locks.
  erewrite M_bind_Ok by (by eapply ordered_socks_ok). cbn beta iota.
  destruct (clnt x); cbn beta iota; [exists [a; b] | exists [b; a]]; (split; [| by auto]).
  - erewrite M_bind_Ok by (apply so_load_ok, C). cbn beta iota. erewrite M_bind_Ok by (apply so_load_ok, C). cbn beta iota.
    erewrite M_bind_Ok by (unfold SOCK_LOCK; rewrite Hl; reflexivity). cbn beta. unfold SOCK_LOCK. cbn.
    by rewrite bool_decide_eq_false_2 by set_solver.
  - erewrite M_bind_Ok by (apply so_load_ok, C). cbn beta iota. erewrite M_bind_Ok by (apply so_load_ok, C). cbn beta iota.
    erewrite M_bind_Ok by (unfold SOCK_LOCK; rewrite Hl; reflexivity). cbn beta. unfold SOCK_LOCK. cbn.
    by rewrite bool_decide_eq_false_2 by set_solver.
Qed.

(** After the client flag is gone, the locks are released in the other order. *)
Lemma release_sock_locks_ok s a b x y :
  socks s !! a = Some x → socks s !! b = Some y → so_passive_peer x = Some b → a ≠ b → clnt x = false →
  sock_locks s = [a; b] ∨ sock_locks s = [b; a] →
  in_passive_release_sock_locks a s = Ok (tt, with_sock_locks [] s).
Proof.
  intros Ha Hb Hp Hne Hc Hl. unfold in_passive_release_sock_locks, in_passive_ordered_socks.
  erewrite M_bind_Ok; [| erewrite M_bind_Ok by (by apply so_load_ok); cbn beta iota; unfold clnt in Hc; rewrite Hc, Hp; reflexivity].
  cbn beta iota. erewrite M_bind_Ok by (by apply so_load_ok). cbn beta iota. erewrite M_bind_Ok by (by apply so_load_ok). cbn beta iota.
  assert (filter (fun z => z ≠ b) (sock_locks s) = [a]) as Hf.
  { destruct Hl as [-> | ->].
    - rewrite filter_cons_True, filter_cons_False by (done || (intros H; by apply H)). done.
    - rewrite filter_cons_False, filter_cons_True by (done || (intros H; by apply H)). done. }
  erewrite M_bind_Ok by (unfold SOCK_UNLOCK; rewrite bool_decide_eq_true_2 by (destruct Hl as [-> | ->]; set_solver); reflexivity).
  cbn beta. unfold SOCK_UNLOCK. cbn [sock_locks]. rewrite Hf, bool_decide_eq_true_2 by constructor.
  rewrite filter_cons_False by (intros H; by apply H). done.
Qed.

Definition active (i : inpcb) (seq : Z) : inpcb :=
  mk_inp (inp_socket i) (clear_flag (inp_flags2 i) INP_PASSIVE)
    (mk_tp seq seq seq (rcv_nxt (inp_tp i)) (clear_flag (t_flags (inp_tp i)) TF_RCVD_TSTMP)).
Definition plain (x : socket) : socket :=
  mk_so (clear_flag (so_options x) (Z.lor SO_PASSIVE SO_PASSIVECLNT)) (so_passive_peer x) (so_pcb x).

Lemma clnt_plain x : clnt (plain x) = false.
Proof.
  unfold clnt, plain, has_flag, clear_flag. cbn [so_options]. rewrite <- Z.land_assoc.
  change (Z.land (Z.lnot (Z.lor SO_PASSIVE SO_PASSIVECLNT)) SO_PASSIVECLNT) with 0. by rewrite Z.land_0_r.
Qed.

(** Converting an end of a passive connection, with both control blocks locked:
    each end goes on sending where the other expects to receive, neither is passive any
    more nor sends timestamps, the peer is dropped with ECONNABORTED and its lock
    released, the lock of the converted end is kept, and the socket locks taken
    meanwhile are all released. *)
Theorem in_passive_convert_to_active_spec (alive : bool) (s : state) (a b : nat) (x y : socket) (i j : inpcb) :
  couple (socks s) a b x y → inps s !! so_pcb x = Some i → inps s !! so_pcb y = Some j →
  inp_locks s = [so_pcb x; so_pcb y] ∨ inp_locks s = [so_pcb y; so_pcb x] → sock_locks s = [] →
  in_passive_convert_to_active alive a s =
    Ok (tt, mk_st (<[b := plain y]> (<[a := plain x]> (socks s)))
              (<[so_pcb y := active j (rcv_nxt (inp_tp i))]> (<[so_pcb x := active i (rcv_nxt (inp_tp j))]> (inps s)))
              [so_pcb x] [] (dropped s ++ [(so_pcb y, ECONNABORTED)])).
Proof.
  intros C Hi Hj Hl Hsl. pose proof (cp_ne _ _ _ _ _ C) as Hne. pose proof (cp_pcb _ _ _ _ _ C) as Hpne.
  pose proof (cp_a _ _ _ _ _ C) as Ha. pose proof (cp_b _ _ _ _ _ C) as Hb.
  unfold in_passive_convert_to_active. erewrite M_bind_Ok by (by apply so_load_ok). cbn beta iota. rewrite (cp_ab _ _ _ _ _ C).
  erewrite M_bind_Ok by (by apply so_load_ok). cbn beta iota zeta.
  unfold clear_inp. erewrite M_bind_Ok; [| erewrite M_bind_Ok by (by apply inp_load_ok); reflexivity]. cbn beta.
  erewrite M_bind_Ok; [| erewrite M_bind_Ok by (apply inp_load_ok; cbn; rewrite lookup_insert_ne by done; exact Hj); reflexivity]. cbn beta.
  set (i1 := mk_inp (inp_socket i) _ _). set (j1 := mk_inp (inp_socket j) _ _).
  set (s1 := mk_st _ _ _ _ _). assert (couple (socks s1) a b x y) as C1 by exact C.
  destruct (acquire_sock_locks_ok s1 a b x y C1 Hsl) as (l & El & Hab). erewrite M_bind_Ok by exact El. cbn beta.
  unfold clear_so. erewrite M_bind_Ok; [| erewrite M_bind_Ok by (by apply so_load_ok); reflexivity]. cbn beta.
  erewrite M_bind_Ok; [| erewrite M_bind_Ok by (apply so_load_ok; cbn; rewrite lookup_insert_ne by done; exact Hb); reflexivity]. cbn beta.
  set (s2 := mk_st _ _ _ _ _).
  erewrite M_bind_Ok.
  2: { apply (release_sock_locks_ok s2 a b (plain x) (plain y)); try done.
       - cbn. rewrite lookup_insert_ne by done. apply lookup_insert_eq.
       - cbn. apply lookup_insert_eq.
       - apply (cp_ab _ _ _ _ _ C).
       - apply clnt_plain. }
  cbn beta. set (s3 := with_sock_locks [] s2).
  assert (inps s3 !! so_pcb x = Some i1) as Hi1 by (cbn; rewrite lookup_insert_ne by done; apply lookup_insert_eq).
  assert (inps s3 !! so_pcb y = Some j1) as Hj1 by (cbn; apply lookup_insert_eq).
  erewrite M_bind_Ok by (by apply inp_load_ok). cbn beta. unfold takeover.
  erewrite M_bind_Ok; [| erewrite M_bind_Ok by (by apply inp_load_ok); reflexivity]. cbn beta.
  erewrite M_bind_Ok by (apply inp_load_ok; cbn; apply lookup_insert_eq). cbn beta.
  erewrite M_bind_Ok; [| erewrite M_bind_Ok by (apply inp_load_ok; cbn [inps]; rewrite lookup_insert_ne by done; exact Hj1); reflexivity]. cbn beta.
  assert (filter (fun z => z ≠ so_pcb y) (inp_locks s) = [so_pcb x]) as Hf.
  { destruct Hl as [-> | ->].
    - rewrite filter_cons_True, filter_cons_False by (done || (intros H; by apply H)). done.
    - rewrite filter_cons_False, filter_cons_True by (done || (intros H; by apply H)). done. }
  assert (so_pcb y ∈ inp_locks s) as Hin by (destruct Hl as [-> | ->]; set_solver).
  unfold tcp_drop, INP_WUNLOCK, mbind, M_bind, mret, M_ret, modify. destruct alive; cbn [inp_locks s3 s2 s1 with_sock_locks];
    rewrite bool_decide_eq_true_2 by done; rewrite Hf; cbn [socks inps sock_locks dropped]; do 3 f_equal.
  all: unfold s3, s2, s1; cbn [inps with_sock_locks]; rewrite (insert_insert_ne _ (so_pcb x) (so_pcb y)) by done;
    by rewrite !insert_insert_eq.
Qed.

(** ** Locks *)

Definition with_inp_locks (l : list nat) (s : state) : state := mk_st (socks s) (inps s) l (sock_locks s) (dropped s).

(** The client's lock on top of the server's. *)
Definition both (x y : socket) : list nat := if clnt x then [so_pcb x; so_pcb y] else [so_pcb y; so_pcb x].

Lemma acquire_locks_ok s a b x y :
  couple (socks s) a b x y → inp_locks s = [] → in_passive_acquire_locks a s = Ok (tt, with_inp_locks (both x y) s).
Proof.
  intros C Hl. pose proof (cp_pcb _ _ _ _ _ C) as Hne. unfold in_passive_acquire_locks, both.
  erewrite M_bind_Ok by (by apply (ordered_inps_ok s a b x y)). unfold order.
  destruct (clnt x); cbn beta iota; (erewrite M_bind_Ok by (unfold INP_WLOCK; rewrite Hl; reflexivity)); cbn beta;
    unfold INP_WLOCK; cbn; by rewrite bool_decide_eq_false_2 by set_solver.
Qed.

Lemma release_locks_ok s a b x y :
  couple (socks s) a b x y → in_passive_release_locks a (with_inp_locks (both x y) s) = Ok (tt, with_inp_locks [] s).
Proof.
  intros C. pose proof (cp_pcb _ _ _ _ _ C) as Hne. unfold in_passive_release_locks, both.
  erewrite M_bind_Ok by (by apply (ordered_inps_ok (with_inp_locks _ s) a b x y)). unfold order.
  assert (∀ p q, p ≠ q → (_ ← INP_WUNLOCK q; INP_WUNLOCK p) (with_inp_locks [q; p] s) = Ok (tt, with_inp_locks [] s)) as Hun.
  { intros p q Hpq. erewrite M_bind_Ok by (unfold INP_WUNLOCK; cbn [inp_locks with_inp_locks]; rewrite bool_decide_eq_true_2 by set_solver; reflexivity).
    cbn beta. rewrite filter_cons_False, filter_cons_True by (done || (intros H; by apply H)). unfold INP_WUNLOCK. cbn [inp_locks].
    rewrite bool_decide_eq_true_2 by set_solver. cbn. by rewrite decide_False by (intros H; by apply H). }
  destruct (clnt x); cbn beta iota; by apply Hun.
Qed.


Definition ex_conv : state :=
  mk_st ex_socks {[ 11%nat := mk_inp 1 INP_PASSIVE (mk_tp 0 0 0 5000 TF_RCVD_TSTMP); 12%nat := mk_inp 2 INP_PASSIVE (mk_tp 0 0 0 900 TF_RCVD_TSTMP) ]}
    [12; 11]%nat [] [].


Lemma in_passive_convert_to_active_spec_witness :
  ∃ s', in_passive_convert_to_active true 1 ex_conv = Ok (tt, s') ∧ inp_locks s' = [11%nat] ∧
    inps s' !! 11%nat = Some (mk_inp 1 0 (mk_tp 900 900 900 5000 0)).
Proof.
  eexists. split.
  - apply (in_passive_convert_to_active_spec true ex_conv 1 2 (mk_so SO_PASSIVE (Some 2%nat) 11)
      (mk_so (Z.lor SO_PASSIVE SO_PASSIVECLNT) (Some 1%nat) 12) (mk_inp 1 INP_PASSIVE (mk_tp 0 0 0 5000 TF_RCVD_TSTMP))
      (mk_inp 2 INP_PASSIVE (mk_tp 0 0 0 900 TF_RCVD_TSTMP))); [by split | done | done | by right | done].
  - split; [done | vm_compute; reflexivity].
Defined.

(** The order is kept by the client flag alone: once the conversion has cleared it, the
    two ends disagree on it. *)
Lemma order_after_conversion :
  (r ← in_passive_convert_to_active true 1 ex_conv; p ← in_passive_ordered_inps 1 (snd r); q ← in_passive_ordered_inps 2 (snd r);
   Ok (fst p, fst q)) = Ok ((11, 12), (12, 11))%nat.
Proof. vm_compute. reflexivity. Qed.

End InPassiveSpec.
