(* ===== verification/Locks.v ===== *)
(** Locks (src/src/lib/libuinet/uinet_kern_mutex.c, uinet_kern_rwlock.c, uinet_kern_sx.c
    and uinet_kern_rmlock.c over uinet_host_interface.c): the kernel's mutexes, reader
    and writer locks, shared and exclusive locks and read-mostly locks, all built from
    mutexes of the host. *)
From S2P Require Import Prelude.

Module Locks.

Definition ENOMEM : Z := 12.
Definition UHI_MTX_RECURSE : Z := 1.
Definition UHI_RW_WRECURSE : Z := 1.
Definition MTX_RECURSE : Z := 4.
Definition RW_RECURSE : Z := 0x10.
Definition SX_RECURSE : Z := 0x20.
Definition RM_RECURSE : Z := 2.

(** ** Mutexes of the host *)

Inductive mutex_kind : Type := PTHREAD_MUTEX_NORMAL | PTHREAD_MUTEX_RECURSIVE.

(** The holder and how often it has taken the mutex. *)
Record pthread_mutex : Type := mk_pm { pm_kind : mutex_kind; pm_owner : option nat; pm_depth : Z }.

(** The mutexes by address, and the next address [malloc] gives. *)
Record host : Type := mk_host { mutexes : gmap nat pthread_mutex; next : nat }.

Abbreviation H := (M host).

Definition pm_load (p : nat) : H pthread_mutex := fun h =>
  match mutexes h !! p with Some m => Ok (m, h) | None => Fault BadPointer end.
Definition pm_store (p : nat) (m : pthread_mutex) : H unit :=
  modify (fun h => mk_host (<[p := m]> (mutexes h)) (next h)).

Section Thread.

(** The calling thread. *)
Context (td : nat).

(** A mutex held by another thread is waited for; a normal mutex the thread holds
    itself is waited for without end. *)
Definition pthread_mutex_lock (p : nat) : H unit :=
  m ← pm_load p;
  match pm_owner m with
  | None => pm_store p (mk_pm (pm_kind m) (Some td) 1)
  | Some o =>
      if bool_decide (o = td) then
        match pm_kind m with
        | PTHREAD_MUTEX_RECURSIVE => pm_store p (mk_pm (pm_kind m) (Some td) (pm_depth m + 1))
        | PTHREAD_MUTEX_NORMAL => faultM Blocked
        end
      else faultM Blocked
  end.

(** 0, or EBUSY. *)
Definition pthread_mutex_trylock (p : nat) : H Z :=
  m ← pm_load p;
  match pm_owner m with
  | None => _ ← pm_store p (mk_pm (pm_kind m) (Some td) 1); mret 0
  | Some o =>
      if bool_decide (o = td) then
        match pm_kind m with
        | PTHREAD_MUTEX_RECURSIVE => _ ← pm_store p (mk_pm (pm_kind m) (Some td) (pm_depth m + 1)); mret 0
        | PTHREAD_MUTEX_NORMAL => mret 16
        end
      else mret 16
  end.

Definition pthread_mutex_unlock (p : nat) : H unit :=
  m ← pm_load p;
  if bool_decide (pm_owner m = Some td) then
    if pm_depth m =? 1 then pm_store p (mk_pm (pm_kind m) None 0)
    else pm_store p (mk_pm (pm_kind m) (Some td) (pm_depth m - 1))
  else faultM BadUnlock.

(** ** The host interface *)

(** [mem] is whether [malloc] succeeds and [error] the result of [pthread_mutex_init];
    the outcome is the error and [*m].  Without recursion the mutex is an adaptive one,
    which differs from a normal one in how it waits. *)
Definition uhi_mutex_init (mem : bool) (error opts : Z) : H (Z * option nat) :=
  if negb mem then mret (ENOMEM, None)
  else if negb (error =? 0) then p ← gets next; mret (error, Some p)
  else
    p ← gets next;
    let kind := if has_flag opts UHI_MTX_RECURSE then PTHREAD_MUTEX_RECURSIVE else PTHREAD_MUTEX_NORMAL in
    _ ← modify (fun h => mk_host (<[p := mk_pm kind None 0]> (mutexes h)) (S p));
    mret (0, Some p).

Definition uhi_mutex_destroy (p : nat) : H unit :=
  _ ← pm_load p; modify (fun h => mk_host (delete p (mutexes h)) (next h)).

Definition _uhi_mutex_lock (p : nat) : H unit := pthread_mutex_lock p.
Definition _uhi_mutex_trylock (p : nat) : H Z := r ← pthread_mutex_trylock p; mret (b2z (r =? 0)).
Definition _uhi_mutex_unlock (p : nat) : H unit := pthread_mutex_unlock p.

(** A reader and writer lock is a recursive mutex, whatever the options. *)
Definition uhi_rwlock_init (mem : bool) (error opts : Z) : H (Z * option nat) :=
  if negb mem then mret (ENOMEM, None)
  else if negb (error =? 0) then p ← gets next; mret (error, Some p)
  else
    p ← gets next;
    _ ← modify (fun h => mk_host (<[p := mk_pm PTHREAD_MUTEX_RECURSIVE None 0]> (mutexes h)) (S p));
    mret (0, Some p).

Definition uhi_rwlock_destroy (p : nat) : H unit :=
  _ ← pm_load p; modify (fun h => mk_host (delete p (mutexes h)) (next h)).

Definition _uhi_rwlock_wlock (p : nat) : H unit := pthread_mutex_lock p.
Definition _uhi_rwlock_trywlock (p : nat) : H Z := r ← pthread_mutex_trylock p; mret (b2z (r =? 0)).
Definition _uhi_rwlock_wunlock (p : nat) : H unit := pthread_mutex_unlock p.
Definition _uhi_rwlock_rlock (p : nat) : H unit := pthread_mutex_lock p.
Definition _uhi_rwlock_tryrlock (p : nat) : H Z := r ← pthread_mutex_trylock p; mret (b2z (r =? 0)).
Definition _uhi_rwlock_runlock (p : nat) : H unit := pthread_mutex_unlock p.
Definition _uhi_rwlock_tryupgrade (p : nat) : H Z := mret 1.
Definition _uhi_rwlock_downgrade (p : nat) : H unit := mret ().

(** ** The kernel's locks *)

(** The lock created, or a panic. *)
Definition or_panic (r : Z * option nat) : H nat :=
  match r with (0, Some p) => mret p | _ => faultM Panic end.

Definition mtx_init (mem : bool) (error opts : Z) : H nat :=
  r ← uhi_mutex_init mem error (if has_flag opts MTX_RECURSE then UHI_MTX_RECURSE else 0); or_panic r.
Definition mtx_destroy (m : nat) : H unit := uhi_mutex_destroy m.
Definition _mtx_lock_flags (m : nat) : H unit := _uhi_mutex_lock m.
Definition _mtx_unlock_flags (m : nat) : H unit := _uhi_mutex_unlock m.
Definition _mtx_trylock (m : nat) : H Z := _uhi_mutex_trylock m.
Definition _mtx_lock_spin_flags (m : nat) : H unit := _uhi_mutex_lock m.
Definition _mtx_unlock_spin_flags (m : nat) : H unit := _uhi_mutex_unlock m.

Definition rw_init_flags (mem : bool) (error opts : Z) : H nat :=
  r ← uhi_rwlock_init mem error (if has_flag opts RW_RECURSE then UHI_RW_WRECURSE else 0); or_panic r.
Definition rw_destroy (rw : nat) : H unit := uhi_rwlock_destroy rw.
Definition _rw_wlock (rw : nat) : H unit := _uhi_rwlock_wlock rw.
Definition _rw_try_wlock (rw : nat) : H Z := _uhi_rwlock_trywlock rw.
Definition _rw_wunlock (rw : nat) : H unit := _uhi_rwlock_wunlock rw.
Definition _rw_rlock (rw : nat) : H unit := _uhi_rwlock_rlock rw.
Definition _rw_try_rlock (rw : nat) : H Z := _uhi_rwlock_tryrlock rw.
Definition _rw_runlock (rw : nat) : H unit := _uhi_rwlock_runlock rw.
Definition _rw_try_upgrade (rw : nat) : H Z := _uhi_rwlock_tryupgrade rw.
Definition _rw_downgrade (rw : nat) : H unit := _uhi_rwlock_downgrade rw.

Definition sx_init_flags (mem : bool) (error opts : Z) : H nat :=
  r ← uhi_rwlock_init mem error (if has_flag opts SX_RECURSE then UHI_RW_WRECURSE else 0); or_panic r.
Definition sx_destroy (sx : nat) : H unit := uhi_rwlock_destroy sx.
Definition _sx_xlock (sx : nat) : H Z := _ ← _uhi_rwlock_wlock sx; mret 0.
Definition _sx_slock (sx : nat) : H Z := _ ← _uhi_rwlock_rlock sx; mret 0.
Definition _sx_xunlock (sx : nat) : H unit := _uhi_rwlock_wunlock sx.
Definition _sx_sunlock (sx : nat) : H unit := _uhi_rwlock_runlock sx.
Definition _sx_try_slock (sx : nat) : H Z := _uhi_rwlock_trywlock sx.
Definition _sx_try_xlock (sx : nat) : H Z := _uhi_rwlock_trywlock sx.

Definition rm_init_flags (mem : bool) (error opts : Z) : H nat :=
  r ← uhi_rwlock_init mem error (if has_flag opts RM_RECURSE then UHI_RW_WRECURSE else 0); or_panic r.
Definition rm_init (mem : bool) (error : Z) : H nat := rm_init_flags mem error 0.
Definition rm_destroy (rm : nat) : H unit := uhi_rwlock_destroy rm.
Definition _rm_wlock (rm : nat) : H unit := _uhi_rwlock_wlock rm.
Definition _rm_wunlock (rm : nat) : H unit := _uhi_rwlock_wunlock rm.
Definition _rm_rlock (rm : nat) (trylock : bool) : H Z :=
  if trylock then _uhi_rwlock_tryrlock rm else _ ← _uhi_rwlock_rlock rm; mret 1.
Definition _rm_runlock (rm : nat) : H unit := _uhi_rwlock_runlock rm.

End Thread.

End Locks.
