(* ===== verification/LocksSpec.v ===== *)
(** Correctness of the locks of Locks.v: whatever the family of the lock and the
    interleaving of threads, the host mutex behind it implements the abstract reader and
    writer lock, and a caller waits only for another thread. *)
From S2P Require Import Prelude Locks.

Module LocksSpec.

Import Locks.

(** ** The abstract lock *)

Inductive grade : Type := Shared | Exclusive.

#[export] Instance grade_eq_dec : EqDecision grade.
Proof. solve_decision. Defined.

(** Who holds the lock, and how; a thread may occur more than once. *)
Abbreviation holds := (list (nat * grade)).

Definition by_other (t : nat) (a : holds) : Prop := ∃ t' m, (t', m) ∈ a ∧ t' ≠ t.
Definition writer_other (t : nat) (a : holds) : Prop := ∃ t', (t', Exclusive) ∈ a ∧ t' ≠ t.

(** An exclusive hold is incompatible with holds of other threads. *)
Definition exclusion (a : holds) : Prop := ∀ t, (t, Exclusive) ∈ a → ¬ by_other t a.

Inductive family : Type := MTX | RW | SX | RM.

Inductive call : Type :=
| Lock (m : grade)
| Try (m : grade)
| Unlock (m : grade)
| Upgrade
| Downgrade.

(** What a thread may observe of an abstract lock: the value returned and the holds
    afterwards.  An attempt may fail only while someone else holds the lock, or for a lock
    without recursion when the caller does. *)
Inductive a_step (recursive : bool) (t : nat) : call → Z → holds → holds → Prop :=
| a_lock_shared v a : ¬ writer_other t a → a_step recursive t (Lock Shared) v a ((t, Shared) :: a)
| a_lock_exclusive v a : ¬ by_other t a → a_step recursive t (Lock Exclusive) v a ((t, Exclusive) :: a)
| a_try_shared a : ¬ writer_other t a → a_step recursive t (Try Shared) 1 a ((t, Shared) :: a)
| a_try_exclusive a : ¬ by_other t a → a_step recursive t (Try Exclusive) 1 a ((t, Exclusive) :: a)
| a_try_busy m a : by_other t a → a_step recursive t (Try m) 0 a a
| a_try_self m a : recursive = false → a ≠ [] → a_step recursive t (Try m) 0 a a
| a_unlock m v a1 a2 : a_step recursive t (Unlock m) v (a1 ++ (t, m) :: a2) (a1 ++ a2)
| a_upgrade a1 a2 : ¬ by_other t (a1 ++ a2) →
    a_step recursive t Upgrade 1 (a1 ++ (t, Shared) :: a2) (a1 ++ (t, Exclusive) :: a2)
| a_downgrade v a1 a2 : a_step recursive t Downgrade v (a1 ++ (t, Exclusive) :: a2) (a1 ++ (t, Shared) :: a2).

(** ** The implementations *)

Definition create (f : family) (mem : bool) (error opts : Z) : H nat :=
  match f with
  | MTX => mtx_init mem error opts
  | RW => rw_init_flags mem error opts
  | SX => sx_init_flags mem error opts
  | RM => rm_init_flags mem error opts
  end.

Definition is_recursive (f : family) (opts : Z) : bool :=
  match f with MTX => has_flag opts MTX_RECURSE | _ => true end.

Definition nothing (k : H unit) : H Z := _ ← k; mret 0.

(** The call of a family by thread [t]; [None] where the family has no such call. *)
Definition call_of (f : family) (t : nat) (c : call) (p : nat) : option (H Z) :=
  match f, c with
  | MTX, Lock Exclusive => Some (nothing (_mtx_lock_flags t p))
  | MTX, Try Exclusive => Some (_mtx_trylock t p)
  | MTX, Unlock Exclusive => Some (nothing (_mtx_unlock_flags t p))
  | RW, Lock Exclusive => Some (nothing (_rw_wlock t p))
  | RW, Lock Shared => Some (nothing (_rw_rlock t p))
  | RW, Try Exclusive => Some (_rw_try_wlock t p)
  | RW, Try Shared => Some (_rw_try_rlock t p)
  | RW, Unlock Exclusive => Some (nothing (_rw_wunlock t p))
  | RW, Unlock Shared => Some (nothing (_rw_runlock t p))
  | RW, Upgrade => Some (_rw_try_upgrade p)
  | RW, Downgrade => Some (nothing (_rw_downgrade p))
  | SX, Lock Exclusive => Some (_sx_xlock t p)
  | SX, Lock Shared => Some (_sx_slock t p)
  | SX, Try Exclusive => Some (_sx_try_xlock t p)
  | SX, Try Shared => Some (_sx_try_slock t p)
  | SX, Unlock Exclusive => Some (nothing (_sx_xunlock t p))
  | SX, Unlock Shared => Some (nothing (_sx_sunlock t p))
  | RM, Lock Exclusive => Some (nothing (_rm_wlock t p))
  | RM, Lock Shared => Some (_rm_rlock t p false)
  | RM, Try Shared => Some (_rm_rlock t p true)
  | RM, Unlock Exclusive => Some (nothing (_rm_wunlock t p))
  | RM, Unlock Shared => Some (nothing (_rm_runlock t p))
  | _, _ => None
  end.

(** What a client must respect: it releases, upgrades and downgrades what it holds, and
    takes a lock it holds again only if the lock may recurse. *)
Definition legal (recursive : bool) (t : nat) (c : call) (a : holds) : Prop :=
  match c with
  | Lock _ => recursive = false → ∀ m, (t, m) ∉ a
  | Try _ => True
  | Unlock m => (t, m) ∈ a
  | Upgrade => (t, Shared) ∈ a
  | Downgrade => (t, Exclusive) ∈ a
  end.

(** Histories of one lock among others: after its creation the threads make legal calls
    in any order, and the rest of the host changes at will. *)
Inductive history (f : family) (opts : Z) (p : nat) : host → holds → Prop :=
| history_create h h' : create f true 0 opts h = Ok (p, h') → history f opts p h' []
| history_other h a h' :
    history f opts p h a → mutexes h' !! p = mutexes h !! p → history f opts p h' a
| history_call h a t c k v h' a' :
    history f opts p h a → legal (is_recursive f opts) t c a → call_of f t c p = Some k →
    k h = Ok (v, h') → a_step (is_recursive f opts) t c v a a' → history f opts p h' a'.

(** ** The simulation relation *)

Definition kind_of (recursive : bool) : mutex_kind :=
  if recursive then PTHREAD_MUTEX_RECURSIVE else PTHREAD_MUTEX_NORMAL.

(** The mutex of the lock: free when nobody holds it; otherwise every hold is its
    owner's, and counted. *)
Record sim (recursive : bool) (m : pthread_mutex) (a : holds) : Prop := {
  sim_kind : pm_kind m = kind_of recursive;
  sim_free : pm_owner m = None → a = [];
  sim_owner : ∀ t, pm_owner m = Some t → a ≠ [] ∧ ∀ t' md, (t', md) ∈ a → t' = t;
  sim_depth : pm_depth m = Z.of_nat (length a) }.

Lemma by_other_owner t o a :
  (∀ t' md, (t', md) ∈ a → t' = o) → o = t → ¬ by_other t a.
Proof. intros Hall -> (t' & m & Hin & Hne). by apply Hne, (Hall _ m). Qed.

Lemma writer_other_other t a : writer_other t a → by_other t a.
Proof. intros (t' & Hin & Hne). by exists t', Exclusive. Qed.

Lemma by_other_held t o a :
  a ≠ [] → (∀ t' md, (t', md) ∈ a → t' = o) → o ≠ t → by_other t a.
Proof.
  intros Hne Hall Ho. destruct a as [|[t' md] a]; [done|].
  exists t', md. split; [apply list_elem_of_here|].
  rewrite (Hall t' md); [done|apply list_elem_of_here].
Qed.

Lemma sim_taken recursive m a t (md : grade) :
  sim recursive m a → ¬ by_other t a →
  sim recursive (mk_pm (pm_kind m) (Some t) (pm_depth m + 1)) ((t, md) :: a).
Proof.
  intros [] Hno. split; cbn [pm_kind pm_owner pm_depth]; [done|done| |].
  - intros t' [= <-]. split; [done|]. intros t' md' [[= -> ->]|Hin]%elem_of_cons; [done|].
    destruct (decide (t' = t)) as [|Hne]; [done|]. by destruct Hno; exists t', md'.
  - rewrite sim_depth0. cbn. lia.
Qed.

Lemma sim_free_depth recursive m a : sim recursive m a → pm_owner m = None → pm_depth m = 0.
Proof. intros [] Hn. by rewrite sim_depth0, (sim_free0 Hn). Qed.

(** What a thread sees of the mutex: it can have it, another has it, or it has it itself
    and may not have it twice. *)
Lemma sim_cases recursive m a t :
  sim recursive m a →
  (pm_owner m = None ∧ a = [] ∧ pm_depth m = 0)
  ∨ (∃ o, pm_owner m = Some o ∧ o ≠ t ∧ by_other t a)
  ∨ (pm_owner m = Some t ∧ a ≠ [] ∧ ∀ t' md, (t', md) ∈ a → t' = t).
Proof.
  intros Hs. destruct (pm_owner m) as [o|] eqn:Ho.
  - right. destruct (sim_owner _ _ _ Hs o Ho) as [Hne Hall].
    destruct (decide (o = t)) as [->|Hot]; [by right|].
    left. exists o. eauto using by_other_held.
  - left. repeat split; [by apply (sim_free _ _ _ Hs)|by apply (sim_free_depth _ _ _ Hs)].
Qed.

Lemma pm_load_Ok p h m : mutexes h !! p = Some m → pm_load p h = Ok (m, h).
Proof. unfold pm_load. by intros ->. Qed.

Section Mutex.

Context (recursive : bool) (p : nat) (t : nat) (h : host) (m : pthread_mutex) (a : holds).
Context (Hp : mutexes h !! p = Some m) (Hsim : sim recursive m a).

(** The state after the mutex has been taken. *)
Definition taken : host :=
  mk_host (<[p := mk_pm (pm_kind m) (Some t) (pm_depth m + 1)]> (mutexes h)) (next h).

Lemma taken_sim md :
  ¬ by_other t a →
  ∃ m', mutexes taken !! p = Some m' ∧ sim recursive m' ((t, md) :: a).
Proof. intros Hno. eexists. split; [apply lookup_insert_eq|]. by apply sim_taken. Qed.

Lemma nil_no_other : ¬ by_other t [].
Proof. intros (? & ? & Hin & _). by apply not_elem_of_nil in Hin. Qed.

Lemma pthread_mutex_lock_sim :
  (recursive = false → ∀ md, (t, md) ∉ a) →
  (pthread_mutex_lock t p h = Ok ((), taken) ∧ ¬ by_other t a)
  ∨ (pthread_mutex_lock t p h = Fault Blocked ∧ by_other t a).
Proof.
  intros Hrec. unfold pthread_mutex_lock, mbind, M_bind. rewrite (pm_load_Ok _ _ _ Hp). cbn [result_bind].
  destruct (sim_cases _ _ _ t Hsim) as [(Ho & -> & Hd)|[(o & Ho & Hne & Hby)|(Ho & Hne & Hall)]]; rewrite Ho.
  - left. unfold taken. rewrite Hd. split; [done|apply nil_no_other].
  - right. by rewrite bool_decide_false.
  - left. rewrite bool_decide_true by done. rewrite (sim_kind _ _ _ Hsim). split.
    + destruct recursive; cbn; [unfold taken; by rewrite (sim_kind _ _ _ Hsim)|].
      destruct a as [|[t' md] a']; [done|]. exfalso.
      rewrite <- (Hall t' md) in Hrec by apply list_elem_of_here. eapply Hrec; [done|apply list_elem_of_here].
    + by apply (by_other_owner t t).
Qed.

Lemma pthread_mutex_trylock_sim :
  (pthread_mutex_trylock t p h = Ok (0, taken) ∧ ¬ by_other t a)
  ∨ (pthread_mutex_trylock t p h = Ok (16, h) ∧ (by_other t a ∨ (recursive = false ∧ a ≠ []))).
Proof.
  unfold pthread_mutex_trylock, mbind, M_bind. rewrite (pm_load_Ok _ _ _ Hp). cbn [result_bind].
  destruct (sim_cases _ _ _ t Hsim) as [(Ho & -> & Hd)|[(o & Ho & Hne & Hby)|(Ho & Hne & Hall)]]; rewrite Ho.
  - left. unfold taken. rewrite Hd. split; [done|apply nil_no_other].
  - right. rewrite bool_decide_false by done. auto.
  - rewrite bool_decide_true by done. rewrite (sim_kind _ _ _ Hsim).
    destruct recursive; cbn; [left|right; auto].
    unfold taken. rewrite (sim_kind _ _ _ Hsim). split; [done|]. by apply (by_other_owner t t).
Qed.

Lemma pthread_mutex_unlock_sim md :
  (t, md) ∈ a →
  ∃ a1 a2 h' m', a = a1 ++ (t, md) :: a2 ∧ pthread_mutex_unlock t p h = Ok ((), h')
    ∧ mutexes h' !! p = Some m' ∧ sim recursive m' (a1 ++ a2).
Proof.
  intros Hin. destruct (list_elem_of_split _ _ Hin) as (a1 & a2 & ->).
  destruct (pm_owner m) as [o|] eqn:Ho; [|by rewrite (sim_free _ _ _ Hsim Ho) in Hin; apply not_elem_of_nil in Hin].
  destruct (sim_owner _ _ _ Hsim o Ho) as [_ Hall]. rewrite <- (Hall t md Hin) in Ho.
  pose proof (sim_depth _ _ _ Hsim) as Hd. rewrite length_app in Hd. cbn in Hd.
  exists a1, a2. unfold pthread_mutex_unlock, mbind, M_bind. rewrite (pm_load_Ok _ _ _ Hp). cbn [result_bind].
  rewrite bool_decide_true by done. destruct (Z.eqb_spec (pm_depth m) 1) as [H1|H1].
  - destruct a1, a2; cbn in Hd; [|lia|lia|lia].
    eexists _, _. split; [done|]. split; [done|]. split; [apply lookup_insert_eq|].
    split; cbn; [apply Hsim|done|done|done].
  - eexists _, _. split; [done|]. split; [done|]. split; [apply lookup_insert_eq|].
    split; cbn; [apply Hsim|done| |rewrite Hd, length_app; lia].
    intros t' [= <-]. split; [destruct a1, a2; cbn in *; congruence || lia|].
    intros t' md' Hin'. assert (t' = o) as ->; [|by rewrite (Hall t md Hin)].
    apply (Hall t' md'). set_solver.
Qed.

End Mutex.

(** ** Every call is one on the mutex *)

Ltac one_family f md := destruct f; try destruct md; cbn; intros [= <-]; eexists; reflexivity.

Lemma call_of_lock f t md p k :
  call_of f t (Lock md) p = Some k → ∃ v, k = (_ ← pthread_mutex_lock t p; mret v).
Proof. one_family f md. Qed.

Lemma call_of_unlock f t md p k :
  call_of f t (Unlock md) p = Some k → ∃ v, k = (_ ← pthread_mutex_unlock t p; mret v).
Proof. one_family f md. Qed.

Lemma call_of_try f t md p k :
  call_of f t (Try md) p = Some k → k = (r ← pthread_mutex_trylock t p; mret (b2z (r =? 0))).
Proof. destruct f, md; cbn; by intros [= <-]. Qed.

Lemma call_of_grade f t c p k :
  (c = Upgrade ∨ c = Downgrade) → call_of f t c p = Some k →
  ∀ h, k h = Ok (if c is Upgrade then 1 else 0, h).
Proof. intros [-> | ->]; destruct f; cbn; by intros [= <-]. Qed.

Lemma sim_regrade recursive m a1 a2 t md md' :
  sim recursive m (a1 ++ (t, md) :: a2) → sim recursive m (a1 ++ (t, md') :: a2).
Proof.
  intros []. split; [done| | |].
  - intros Ho. specialize (sim_free0 Ho). by destruct a1.
  - intros o Ho. destruct (sim_owner0 o Ho) as [_ Hall]. split; [by destruct a1|].
    intros t' m' Hin. destruct (decide ((t', m') = (t, md'))) as [[= -> ->]|Hne].
    + apply (Hall t md). set_solver.
    + apply (Hall t' m'). set_solver.
  - rewrite sim_depth0, !length_app. done.
Qed.

(** The owner of the mutex is the only thread that holds the lock. *)
Lemma sim_alone recursive m a t md : sim recursive m a → (t, md) ∈ a → ¬ by_other t a.
Proof.
  intros Hs Hin. destruct (pm_owner m) as [o|] eqn:Ho.
  - destruct (sim_owner _ _ _ Hs o Ho) as [_ Hall]. apply (by_other_owner t o); [done|].
    by rewrite (Hall t md Hin).
  - rewrite (sim_free _ _ _ Hs Ho) in Hin. by apply not_elem_of_nil in Hin.
Qed.

Lemma by_other_mono t a a' : (∀ x, x ∈ a → x ∈ a') → by_other t a → by_other t a'.
Proof. intros Hsub (t' & md & Hin & Hne). exists t', md. auto. Qed.

Definition outcome recursive t c p k (h : host) (a : holds) : Prop :=
  (∃ v h' a' m', k h = Ok (v, h') ∧ a_step recursive t c v a a'
     ∧ mutexes h' !! p = Some m' ∧ sim recursive m' a')
  ∨ (k h = Fault Blocked ∧ by_other t a).

(** One legal call from related states. *)
Lemma call_sim f recursive t c p k h m a :
  mutexes h !! p = Some m → sim recursive m a → legal recursive t c a →
  call_of f t c p = Some k → outcome recursive t c p k h a.
Proof.
  intros Hp Hs Hl Hk. destruct c as [md|md|md| |]; cbn in Hl.
  - destruct (call_of_lock _ _ _ _ _ Hk) as [v ->].
    destruct (pthread_mutex_lock_sim _ p t h m a Hp Hs Hl) as [[Hr Hno]|[Hr Hby]].
    + destruct (taken_sim _ p t h m a Hs md Hno) as (m' & Hp' & Hs').
      left. eexists v, _, _, m'. split; [by rewrite (M_bind_Ok _ _ _ _ _ Hr)|]. split; [|done].
      destruct md; constructor; auto using writer_other_other.
    + right. split; [|done]. unfold mbind, M_bind. by rewrite Hr.
  - rewrite (call_of_try _ _ _ _ _ Hk).
    destruct (pthread_mutex_trylock_sim _ p t h m a Hp Hs) as [[Hr Hno]|[Hr Hby]]; left.
    + destruct (taken_sim _ p t h m a Hs md Hno) as (m' & Hp' & Hs').
      eexists 1, _, _, m'. split; [by rewrite (M_bind_Ok _ _ _ _ _ Hr)|]. split; [|done].
      destruct md; constructor; auto using writer_other_other.
    + exists 0, h, a, m. split; [by rewrite (M_bind_Ok _ _ _ _ _ Hr)|]. split; [|done].
      destruct Hby as [Hby|[Hrec Hne]]; by constructor.
  - destruct (call_of_unlock _ _ _ _ _ Hk) as [v ->].
    destruct (pthread_mutex_unlock_sim _ p t h m a Hp Hs md Hl) as (a1 & a2 & h' & m' & -> & Hr & Hp' & Hs').
    left. exists v, h', (a1 ++ a2), m'. split; [by rewrite (M_bind_Ok _ _ _ _ _ Hr)|]. split; [constructor|done].
  - left. pose proof (sim_alone _ _ _ _ _ Hs Hl) as Hno.
    destruct (list_elem_of_split _ _ Hl) as (a1 & a2 & ->).
    exists 1, h, (a1 ++ (t, Exclusive) :: a2), m. rewrite (call_of_grade _ _ _ _ _ (or_introl eq_refl) Hk h).
    split; [done|]. split; [|by eauto using sim_regrade]. constructor.
    intros Hby. apply Hno. revert Hby. apply by_other_mono. set_solver.
  - left. destruct (list_elem_of_split _ _ Hl) as (a1 & a2 & ->).
    exists 0, h, (a1 ++ (t, Shared) :: a2), m. rewrite (call_of_grade _ _ _ _ _ (or_intror eq_refl) Hk h).
    split; [done|]. split; [constructor|by eauto using sim_regrade].
Qed.

(** Which of a thread's equal holds is given up does not matter: the abstract lock is
    determined up to the order of its holds, and so is the relation to the mutex. *)
Lemma a_step_perm recursive t c v a a' a'' :
  a_step recursive t c v a a' → a_step recursive t c v a a'' → a' ≡ₚ a''.
Proof.
  assert (Hsplit : ∀ x (a1 a2 b1 b2 : holds), a1 ++ x :: a2 = b1 ++ x :: b2 → a1 ++ a2 ≡ₚ b1 ++ b2).
  { intros x a1 a2 b1 b2 He. apply (Permutation_cons_inv (a := x)).
    by rewrite !Permutation_middle, He. }
  intros H1 H2. destruct H1; inversion H2; subst; try done.
  - by apply (Hsplit (t, m)).
  - rewrite <- !Permutation_middle. f_equiv. by apply (Hsplit (t, Shared)).
  - rewrite <- !Permutation_middle. f_equiv. by apply (Hsplit (t, Exclusive)).
Qed.

#[export] Instance sim_proper recursive m : Proper ((≡ₚ) ==> iff) (sim recursive m).
Proof.
  assert (Hone : ∀ a a', a ≡ₚ a' → sim recursive m a → sim recursive m a').
  { intros a a' Hp []. split; [done| | |by rewrite <- Hp].
    - intros Ho. apply Permutation_nil. by rewrite <- (sim_free0 Ho).
    - intros o Ho. destruct (sim_owner0 o Ho) as [Hne Hall]. split.
      + intros ->. by apply Hne, Permutation_nil.
      + intros t' md Hin. apply (Hall t' md). by rewrite Hp. }
  intros a a' Hp. split; by apply Hone.
Qed.

Lemma create_sim f opts p h h' :
  create f true 0 opts h = Ok (p, h') →
  ∃ m, mutexes h' !! p = Some m ∧ sim (is_recursive f opts) m [].
Proof.
  destruct f; cbn; intros [= <- <-]; eexists;
    (split; [apply lookup_insert_eq|split; cbn; [|done|done|done]]); try done.
  by destruct (has_flag opts MTX_RECURSE) eqn:E.
Qed.

Lemma history_sim f opts p h a :
  history f opts p h a → ∃ m, mutexes h !! p = Some m ∧ sim (is_recursive f opts) m a.
Proof.
  induction 1 as [h h' Hc|h a h' _ (m & Hp & Hs) He|h a t c k v h' a' _ (m & Hp & Hs) Hl Hk Hr Ha].
  - by apply (create_sim f opts p h).
  - exists m. by rewrite He.
  - destruct (call_sim _ _ _ _ _ _ _ _ _ Hp Hs Hl Hk) as [(v' & h'' & a'' & m' & Hr' & Ha' & Hp' & Hs')|[Hr' _]].
    + rewrite Hr in Hr'. injection Hr' as <- <-. exists m'. split; [done|].
      by rewrite (a_step_perm _ _ _ _ _ _ _ Ha Ha').
    + by rewrite Hr in Hr'.
Qed.

Lemma sim_exclusion recursive m a : sim recursive m a → exclusion a.
Proof. intros Hs t Hin. by apply (sim_alone _ _ _ _ _ Hs Hin). Qed.

(** [C7] Mutexes, reader and writer locks, shared and exclusive locks and read-mostly locks
    implement the abstract reader and writer lock: in every history of legal calls by any
    number of threads, the next legal call either returns with a result and an effect the
    abstract lock permits, or waits, and then another thread holds the lock; while a
    thread holds it exclusively no other holds it at all. *)
Theorem locks_refine f opts p h a t c k :
  history f opts p h a → legal (is_recursive f opts) t c a → call_of f t c p = Some k →
  ((∃ v h' a', k h = Ok (v, h') ∧ a_step (is_recursive f opts) t c v a a' ∧ history f opts p h' a')
   ∨ (k h = Fault Blocked ∧ by_other t a))
  ∧ exclusion a.
Proof.
  intros Hh Hl Hk. destruct (history_sim _ _ _ _ _ Hh) as (m & Hp & Hs).
  destruct (call_sim _ _ _ _ _ _ _ _ _ Hp Hs Hl Hk) as [(v & h' & a' & m' & Hr & Ha & Hp' & Hs')|[Hr Hby]].
  - split; [|by eapply sim_exclusion].
    left. exists v, h', a'. split; [done|]. split; [done|].
    by apply (history_call f opts p h a t c k v).
  - split; [by right|by eapply sim_exclusion].
Qed.

Definition h_free : host := mk_host {[0%nat := mk_pm PTHREAD_MUTEX_RECURSIVE None 0]} 1.
Definition h_read : host := mk_host {[0%nat := mk_pm PTHREAD_MUTEX_RECURSIVE (Some 1%nat) 1]} 1.

(** A reader waits for another reader. *)
Lemma locks_refine_witness :
  create RW true 0 0 (mk_host ∅ 0) = Ok (0%nat, h_free)
  ∧ nothing (_rw_rlock 1 0) h_free = Ok (0, h_read)
  ∧ nothing (_rw_rlock 2 0) h_read = Fault Blocked
  ∧ ((∃ v h' a', nothing (_rw_rlock 2 0) h_read = Ok (v, h')
        ∧ a_step true 2 (Lock Shared) v [(1%nat, Shared)] a' ∧ history RW 0 0 h' a')
     ∨ (nothing (_rw_rlock 2 0) h_read = Fault Blocked ∧ by_other 2 [(1%nat, Shared)]))
  ∧ exclusion [(1%nat, Shared)].
Proof.
  split; [reflexivity|]. split; [reflexivity|]. split; [reflexivity|].
  refine (locks_refine RW 0 0 h_read [(1%nat, Shared)] 2 (Lock Shared) _ _ _ eq_refl); [|done].
  refine (history_call RW 0 0 h_free [] 1 (Lock Shared) (nothing (_rw_rlock 1 0)) 0 h_read _ _ _ eq_refl eq_refl _).
  - by apply (history_create RW 0 0 (mk_host ∅ 0)).
  - done.
  - constructor. intros (? & Hin & _). by apply not_elem_of_nil in Hin.
Defined.

End LocksSpec.
