(* ===== verification/Intr.v ===== *)
(** Interrupt events and their threads (src/src/lib/libuinet/uinet_kern_intr.c): the
    handlers of an event in order of priority, its thread, and software interrupts.  The
    build does not define [INTR_FILTER] or [INVARIANTS].  A kernel thread runs one call at
    a time here; IntrConc.v interleaves them. *)
From S2P Require Import Prelude Printf.

Module Intr.

Import Printf.

Definition EINVAL : Z := 22.
Definition EBUSY : Z := 16.
Definition EOPNOTSUPP : Z := 45.
Definition MAXCOMLEN : Z := 19.

Definition IE_SOFT : Z := 1.
Definition IE_ADDING_THREAD : Z := 4.
Definition IH_EXCLUSIVE : Z := 2.
Definition IH_DEAD : Z := 8.
Definition IH_MPSAFE : Z := 0x80000000.
Definition INTR_EXCL : Z := 256.
Definition INTR_MPSAFE : Z := 512.
Definition FILTER_SCHEDULE_THREAD : Z := 4.
Definition SWI_DELAY : Z := 2.
Definition RQ_PPQ : Z := 4.
Definition PI_SOFT : Z := 24.
Definition intr_storm_threshold : Z := 1000.

(** ** State *)

(** Functions and arguments are identified by number. *)
Record intr_handler : Type := mk_ih {
  ih_filter : option Z; ih_handler : option Z; ih_argument : option Z; ih_flags : Z;
  ih_name : str; ih_event : nat; ih_need : Z; ih_pri : Z }.

Record intr_event : Type := mk_ie {
  ie_handlers : list nat; ie_name : str; ie_fullname : str; ie_source : Z; ie_thread : option nat;
  ie_pre_ithread : option Z; ie_post_ithread : option Z; ie_post_filter : option Z;
  ie_flags : Z; ie_count : Z; ie_irq : Z }.

(** An interrupt thread with the kernel thread that runs it: [td_iwait] is
    [TD_AWAITING_INTR], [td_asleep] that it waits for its condition variable, and [it_ie]
    the event its loop works on, once it has read it. *)
Record intr_thread : Type := mk_it {
  it_event : nat; it_need : Z; td_name : str; td_iwait : bool; td_asleep : bool; it_ie : option nat }.

Inductive lock : Type := event_lock | ie_lock (e : nat) | td_lock (t : nat) | Giant.

#[export] Instance lock_eq_dec : EqDecision lock.
Proof. solve_decision. Defined.

(** What other parts of the system see happen. *)
Inductive action : Type :=
| Handler (f : Z) (arg : option Z)
| Filter (f : Z) (arg : option Z)
| Hook (f : Z) (source : Z)
| Wakeup_event (e : nat)
| Wakeup_handler (h : nat).

(** The structures by address, the next address [malloc] gives, the list of events, the
    locks held, and what has happened, in order. *)
Record state : Type := mk_st {
  hs : gmap nat intr_handler; es : gmap nat intr_event; ts : gmap nat intr_thread;
  fresh : nat; event_list : list nat; held : list lock; log : list action }.

Abbreviation I := (M state).

Definition set_hs v s := mk_st v (es s) (ts s) (fresh s) (event_list s) (held s) (log s).
Definition set_es v s := mk_st (hs s) v (ts s) (fresh s) (event_list s) (held s) (log s).
Definition set_ts v s := mk_st (hs s) (es s) v (fresh s) (event_list s) (held s) (log s).
Definition set_fresh v s := mk_st (hs s) (es s) (ts s) v (event_list s) (held s) (log s).
Definition set_event_list v s := mk_st (hs s) (es s) (ts s) (fresh s) v (held s) (log s).
Definition set_held v s := mk_st (hs s) (es s) (ts s) (fresh s) (event_list s) v (log s).
Definition set_log v s := mk_st (hs s) (es s) (ts s) (fresh s) (event_list s) (held s) v.

Definition get_ih (h : nat) : I intr_handler := fun s =>
  match hs s !! h with Some ih => Ok (ih, s) | None => Fault BadPointer end.
Definition get_ie (e : nat) : I intr_event := fun s =>
  match es s !! e with Some ie => Ok (ie, s) | None => Fault BadPointer end.
Definition get_it (t : nat) : I intr_thread := fun s =>
  match ts s !! t with Some it => Ok (it, s) | None => Fault BadPointer end.

Definition put_ih (h : nat) (ih : intr_handler) : I unit := modify (fun s => set_hs (<[h := ih]> (hs s)) s).
Definition put_ie (e : nat) (ie : intr_event) : I unit := modify (fun s => set_es (<[e := ie]> (es s)) s).
Definition put_it (t : nat) (it : intr_thread) : I unit := modify (fun s => set_ts (<[t := it]> (ts s)) s).
Definition free_ih (h : nat) : I unit := modify (fun s => set_hs (delete h (hs s)) s).
Definition free_ie (e : nat) : I unit := modify (fun s => set_es (delete e (es s)) s).
Definition act (a : action) : I unit := modify (fun s => set_log (log s ++ [a]) s).

(** [malloc] with [M_WAITOK] always gives memory. *)
Definition malloc : I nat := p ← gets fresh; _ ← modify (set_fresh (S p)); mret p.

Definition mtx_lock (l : lock) : I unit := fun s =>
  if bool_decide (l ∈ held s) then Fault Blocked else Ok ((), set_held (l :: held s) s).
Definition mtx_unlock (l : lock) : I unit := fun s =>
  if bool_decide (l ∈ held s) then Ok ((), set_held (filter (λ l', l' ≠ l) (held s)) s) else Fault BadUnlock.

Definition ie_with_handlers v ie := mk_ie v (ie_name ie) (ie_fullname ie) (ie_source ie) (ie_thread ie)
  (ie_pre_ithread ie) (ie_post_ithread ie) (ie_post_filter ie) (ie_flags ie) (ie_count ie) (ie_irq ie).
Definition ie_with_fullname v ie := mk_ie (ie_handlers ie) (ie_name ie) v (ie_source ie) (ie_thread ie)
  (ie_pre_ithread ie) (ie_post_ithread ie) (ie_post_filter ie) (ie_flags ie) (ie_count ie) (ie_irq ie).
Definition ie_with_thread v ie := mk_ie (ie_handlers ie) (ie_name ie) (ie_fullname ie) (ie_source ie) v
  (ie_pre_ithread ie) (ie_post_ithread ie) (ie_post_filter ie) (ie_flags ie) (ie_count ie) (ie_irq ie).
Definition ie_with_flags v ie := mk_ie (ie_handlers ie) (ie_name ie) (ie_fullname ie) (ie_source ie) (ie_thread ie)
  (ie_pre_ithread ie) (ie_post_ithread ie) (ie_post_filter ie) v (ie_count ie) (ie_irq ie).
Definition ie_with_count v ie := mk_ie (ie_handlers ie) (ie_name ie) (ie_fullname ie) (ie_source ie) (ie_thread ie)
  (ie_pre_ithread ie) (ie_post_ithread ie) (ie_post_filter ie) (ie_flags ie) v (ie_irq ie).
Definition ih_with_flags v ih := mk_ih (ih_filter ih) (ih_handler ih) (ih_argument ih) v (ih_name ih)
  (ih_event ih) (ih_need ih) (ih_pri ih).
Definition ih_with_need v ih := mk_ih (ih_filter ih) (ih_handler ih) (ih_argument ih) (ih_flags ih) (ih_name ih)
  (ih_event ih) v (ih_pri ih).
Definition it_with_event v it := mk_it v (it_need it) (td_name it) (td_iwait it) (td_asleep it) (it_ie it).
Definition it_with_need v it := mk_it (it_event it) v (td_name it) (td_iwait it) (td_asleep it) (it_ie it).
Definition it_with_name v it := mk_it (it_event it) (it_need it) v (td_iwait it) (td_asleep it) (it_ie it).
Definition it_with_wait iw sl it := mk_it (it_event it) (it_need it) (td_name it) iw sl (it_ie it).
Definition it_with_ie v it := mk_it (it_event it) (it_need it) (td_name it) (td_iwait it) (td_asleep it) v.

(** ** Priorities and names *)

(** [INTR_TYPE_TTY], [BIO], [NET], [CAM], [MISC], [CLK] and [AV]. *)
Definition intr_priority (flags : Z) : result Z :=
  let flags := Z.land flags 127 in
  if flags =? 1 then Ok 16
  else if flags =? 2 then Ok 12
  else if flags =? 4 then Ok 8
  else if flags =? 8 then Ok 12
  else if flags =? 64 then Ok 4
  else if flags =? 32 then Ok 0
  else if flags =? 16 then Ok 20
  else Fault Panic.

Definition strlen (s : str) : Z := Z.of_nat (length s).

(** Into an array of [MAXCOMLEN + 1]. *)
Definition strlcpy (s : str) : str := take (Z.to_nat MAXCOMLEN) s.

(** [strcat] into the same; the terminator must fit as well. *)
Definition strcat (s t : str) : result str :=
  if MAXCOMLEN + 1 <=? strlen s + strlen t then Fault Overflow else Ok (s ++ t).

(** The names of the handlers that fit; [missed] counts the others, [space] says that
    none has been added yet. *)
Fixpoint add_names (names : list str) (full : str) (missed : Z) (space : bool) : result (str * Z * bool) :=
  match names with
  | [] => Ok (full, missed, space)
  | n :: names =>
      if strlen full + strlen n + 1 <? MAXCOMLEN + 1 then
        full ← strcat full (lit " ");
        full ← strcat full n;
        add_names names full missed false
      else add_names names full (missed + 1) space
  end.

(** [*last], the last character of the array before the terminator. *)
Definition set_last (full : str) (c : Z) : str := removelast full ++ [c].

Fixpoint add_pluses (missed : nat) (full : str) (space : bool) : result str :=
  match missed with
  | O => Ok full
  | S missed =>
      if strlen full + 1 =? MAXCOMLEN + 1 then
        if default 0 (last full) =? 43 then Ok (set_last full 42)
        else add_pluses missed (set_last full 43) space
      else if space then
        full ← strcat full (lit " +"); add_pluses missed full false
      else
        full ← strcat full (lit "+"); add_pluses missed full space
  end.

(** The name [intr_event_update] gives an event. *)
Definition fullname (name : str) (names : list str) : result str :=
  '(full, missed, space) ← add_names names (strlcpy name) 0 true;
  add_pluses (Z.to_nat missed) full space.

Definition ithread_update (t : nat) : I unit :=
  it ← get_it t;
  ie ← get_ie (it_event it);
  put_it t (it_with_name (strlcpy (ie_fullname ie)) it).

Fixpoint handler_names (l : list nat) : I (list str) :=
  match l with
  | [] => mret []
  | h :: l => ih ← get_ih h; ns ← handler_names l; mret (ih_name ih :: ns)
  end.

Definition intr_event_update (e : nat) : I unit :=
  ie ← get_ie e;
  ns ← handler_names (ie_handlers ie);
  full ← liftR (fullname (ie_name ie) ns);
  let ie := ie_with_fullname full ie in
  _ ← put_ie e ie;
  match ie_thread ie with Some t => ithread_update t | None => mret () end.

(** ** Events *)

Definition intr_event_create (source flags irq : Z) (pre post post_filter : option Z) (fmt : str) (ap : list varg) :
    I (Z * option nat) :=
  if negb (clear_flag flags IE_SOFT =? 0) then mret (EINVAL, None)
  else
    e ← malloc;
    '(_, bytes) ← liftR (vsnprintf (MAXCOMLEN + 1) (Some fmt) ap);
    let name := removelast bytes in
    _ ← put_ie e (mk_ie [] name (strlcpy name) source None pre post post_filter flags 0 irq);
    _ ← mtx_lock event_lock;
    _ ← modify (fun s => set_event_list (event_list s ++ [e]) s);
    _ ← mtx_unlock event_lock;
    mret (0, Some e).

Definition intr_event_bind (e : nat) (cpu : Z) : I Z := mret EOPNOTSUPP.

(** [ithread_destroy] does nothing. *)
Definition intr_event_destroy (e : nat) : I Z :=
  _ ← mtx_lock event_lock;
  _ ← mtx_lock (ie_lock e);
  ie ← get_ie e;
  match ie_handlers ie with
  | _ :: _ =>
      _ ← mtx_unlock (ie_lock e);
      _ ← mtx_unlock event_lock;
      mret EBUSY
  | [] =>
      _ ← modify (fun s => set_event_list (filter (λ e', e' ≠ e) (event_list s)) s);
      _ ← put_ie e (ie_with_thread None ie);
      _ ← mtx_unlock (ie_lock e);
      _ ← mtx_unlock event_lock;
      _ ← free_ie e;
      mret 0
  end.

(** ** Interrupt threads *)

Definition zero_ie : intr_event := mk_ie [] [] [] 0 None None None None 0 0 0.

(** The first lines of [ithread_loop]: the thread reads its event, once. *)
Definition ithread_start (t : nat) : I unit :=
  it ← get_it t;
  ie ← get_ie (it_event it);
  _ ← put_ie (it_event it) (ie_with_count 0 ie);
  put_it t (it_with_ie (Some (it_event it)) it).

(** [error] is what [kproc_kthread_add] returns; [early] says that the new thread gets as
    far as reading its event before the call returns. *)
Definition ithread_create (error : Z) (early : bool) (name : str) : I nat :=
  t ← malloc;
  d ← malloc;
  _ ← put_ie d zero_ie;
  _ ← put_it t (mk_it d 0 name false false None);
  if negb (error =? 0) then faultM Panic
  else _ ← (if early then ithread_start t else mret ()); mret t.

(** The position of a new handler: before the first one of a greater priority value. *)
Fixpoint insert_pri (h : nat) (pri : Z) (l : list nat) : I (list nat) :=
  match l with
  | [] => mret [h]
  | h' :: l' =>
      ih ← get_ih h';
      if pri <? ih_pri ih then mret (h :: l)
      else r ← insert_pri h pri l'; mret (h' :: r)
  end.

Definition first_exclusive (l : list nat) : I bool :=
  match l with
  | [] => mret false
  | h :: _ => ih ← get_ih h; mret (has_flag (ih_flags ih) IH_EXCLUSIVE)
  end.

(** Creating the thread of an event that has none; another thread that is about to do so
    is waited for. *)
Definition add_thread (e : nat) (name : str) (error : Z) (early : bool) : I unit :=
  ie ← get_ie e;
  match ie_thread ie with
  | Some _ => mret ()
  | None =>
      if has_flag (ie_flags ie) IE_ADDING_THREAD then faultM Blocked
      else
        _ ← put_ie e (ie_with_flags (Z.lor (ie_flags ie) IE_ADDING_THREAD) ie);
        _ ← mtx_unlock (ie_lock e);
        t ← ithread_create error early name;
        _ ← mtx_lock (ie_lock e);
        ie ← get_ie e;
        _ ← put_ie e (ie_with_thread (Some t) (ie_with_flags (clear_flag (ie_flags ie) IE_ADDING_THREAD) ie));
        it ← get_it t;
        _ ← put_it t (it_with_event e it);
        _ ← ithread_update t;
        act (Wakeup_event e)
  end.

Definition intr_event_add_handler (e : option nat) (name : option str) (flt handler arg : option Z) (pri flags : Z)
    (error : Z) (early : bool) : I (Z * option nat) :=
  match e, name, flt, handler with
  | None, _, _, _ | _, None, _, _ | _, _, None, None => mret (EINVAL, None)
  | Some e, Some name, _, _ =>
      h ← malloc;
      let fl := Z.lor (if has_flag flags INTR_EXCL then IH_EXCLUSIVE else 0)
                      (if has_flag flags INTR_MPSAFE then IH_MPSAFE else 0) in
      let ih := mk_ih flt handler arg fl (take (Z.to_nat MAXCOMLEN) name) e 0 (u8 pri) in
      _ ← put_ih h ih;
      _ ← mtx_lock (ie_lock e);
      ie ← get_ie e;
      excl ← first_exclusive (ie_handlers ie);
      if negb (bool_decide (ie_handlers ie = [])) && (has_flag flags INTR_EXCL || excl) then
        _ ← mtx_unlock (ie_lock e);
        _ ← free_ih h;
        mret (EINVAL, None)
      else
        l ← insert_pri h (u8 pri) (ie_handlers ie);
        _ ← put_ie e (ie_with_handlers l ie);
        _ ← intr_event_update e;
        _ ← (if handler is Some _ then add_thread e (ih_name ih) error early else mret ());
        _ ← mtx_unlock (ie_lock e);
        mret (0, Some h)
  end.

Definition intr_handler_source (cookie : option nat) : I (option Z) :=
  match cookie with
  | None => mret None
  | Some h => ih ← get_ih h; ie ← get_ie (ih_event ih); mret (Some (ie_source ie))
  end.

(** ** Scheduling *)

(** [cv_signal] wakes the thread if it waits. *)
Definition intr_event_schedule_thread (e : option nat) : I Z :=
  match e with
  | None => mret EINVAL
  | Some e =>
      ie ← get_ie e;
      match ie_handlers ie, ie_thread ie with
      | _ :: _, Some t =>
          it ← get_it t;
          _ ← put_it t (it_with_need 1 it);
          _ ← mtx_lock (td_lock t);
          it ← get_it t;
          _ ← (if td_iwait it then put_it t (it_with_wait false false it) else mret ());
          _ ← mtx_unlock (td_lock t);
          mret 0
      | _, _ => mret EINVAL
      end
  end.

(** The priority is passed as [u_char]. *)
Definition swi_add (eventp : option (option nat)) (name : option str) (handler arg : option Z) (pri flags : Z)
    (error : Z) (early : bool) : I (Z * option nat * option nat) :=
  match mjoin eventp with
  | Some e =>
      ie ← get_ie e;
      if negb (has_flag (ie_flags ie) IE_SOFT) then mret (EINVAL, Some e, None)
      else
        '(err, cookie) ← intr_event_add_handler (Some e) name None handler arg (pri * RQ_PPQ + PI_SOFT) flags error early;
        mret (err, Some e, cookie)
  | None =>
      '(err, o) ← intr_event_create 0 IE_SOFT 0 None None None (lit "swi%d:") [AInt pri];
      if negb (err =? 0) then mret (err, None, None)
      else
        '(err, cookie) ← intr_event_add_handler o name None handler arg (pri * RQ_PPQ + PI_SOFT) flags error early;
        mret (err, o, cookie)
  end.

Definition swi_sched (cookie : nat) (flags : Z) : I unit :=
  ih ← get_ih cookie;
  _ ← put_ih cookie (ih_with_need 1 ih);
  if negb (has_flag flags SWI_DELAY) then
    _ ← intr_event_schedule_thread (Some (ih_event ih)); mret ()
  else mret ().

(** ** Running handlers *)

Definition execute_handler (e : nat) (h : nat) : I unit :=
  ih ← get_ih h;
  if has_flag (ih_flags ih) IH_DEAD then
    _ ← mtx_lock (ie_lock e);
    ie ← get_ie e;
    _ ← put_ie e (ie_with_handlers (filter (λ h', h' ≠ h) (ie_handlers ie)) ie);
    _ ← put_ih h (ih_with_flags (clear_flag (ih_flags ih) IH_DEAD) ih);
    _ ← act (Wakeup_handler h);
    mtx_unlock (ie_lock e)
  else
    match ih_handler ih with
    | None => mret ()
    | Some f =>
        ie ← get_ie e;
        if has_flag (ie_flags ie) IE_SOFT && (ih_need ih =? 0) then mret ()
        else
          _ ← (if has_flag (ie_flags ie) IE_SOFT then put_ih h (ih_with_need 0 ih) else mret ());
          if negb (has_flag (ih_flags ih) IH_MPSAFE) then
            _ ← mtx_lock Giant; _ ← act (Handler f (ih_argument ih)); mtx_unlock Giant
          else act (Handler f (ih_argument ih))
    end.

Fixpoint execute_list (e : nat) (l : list nat) : I unit :=
  match l with [] => mret () | h :: l => _ ← execute_handler e h; execute_list e l end.

(** [TAILQ_FOREACH_SAFE]: the next handler is read before this one is run. *)
Definition intr_event_execute_handlers (e : nat) : I unit :=
  ie ← get_ie e; execute_list e (ie_handlers ie).

(** A storm of interrupts that are not soft makes the thread pause for a tick; the
    message it prints is left out. *)
Definition ithread_execute_handlers (e : nat) : I unit :=
  _ ← intr_event_execute_handlers e;
  ie ← get_ie e;
  _ ← (if negb (intr_storm_threshold <=? ie_count ie) || has_flag (ie_flags ie) IE_SOFT
       then put_ie e (ie_with_count (s32 (ie_count ie + 1)) ie) else mret ());
  match ie_post_ithread ie with Some f => act (Hook f (ie_source ie)) | None => mret () end.

(** [while (ithd->it_need)] with the event [e] of the loop; [fuel] bounds the passes. *)
Fixpoint ithread_service (fuel : nat) (t e : nat) : I unit :=
  it ← get_it t;
  if it_need it =? 0 then mret ()
  else
    match fuel with
    | O => faultM Blocked
    | S fuel =>
        _ ← put_it t (it_with_need 0 it);
        _ ← ithread_execute_handlers e;
        ithread_service fuel t e
    end.

(** One round of [ithread_loop], from the service of interrupts to the wait, and its first
    lines before the first round; [IT_DEAD] is never set. *)
Definition ithread_round (fuel : nat) (t : nat) : I unit :=
  it ← get_it t;
  _ ← (if it_ie it is None then ithread_start t else mret ());
  it ← get_it t;
  e ← liftR (deref (it_ie it));
  _ ← ithread_service fuel t e;
  _ ← mtx_lock (td_lock t);
  it ← get_it t;
  _ ← (if it_need it =? 0 then
         _ ← put_it t (it_with_wait true true it);
         ie ← get_ie e;
         put_ie e (ie_with_count 0 ie)
       else mret ());
  mtx_unlock (td_lock t).

(** ** Removing handlers *)

(** [msleep] of a thread that removes handler [h]: the lock of the event is given up while
    the interrupt thread makes a round. *)
Definition iev_rmh (fuel : nat) (e t h : nat) : I unit :=
  ih ← get_ih h;
  if has_flag (ih_flags ih) IH_DEAD then
    _ ← mtx_unlock (ie_lock e);
    _ ← ithread_round fuel t;
    _ ← mtx_lock (ie_lock e);
    ih ← get_ih h;
    if has_flag (ih_flags ih) IH_DEAD then faultM Blocked else mret ()
  else mret ().

Definition intr_event_remove_handler (fuel : nat) (cookie : option nat) : I Z :=
  match cookie with
  | None => mret EINVAL
  | Some h =>
      ih ← get_ih h;
      let e := ih_event ih in
      _ ← mtx_lock (ie_lock e);
      ie ← get_ie e;
      match ie_thread ie with
      | None =>
          _ ← put_ie e (ie_with_handlers (filter (λ h', h' ≠ h) (ie_handlers ie)) ie);
          _ ← mtx_unlock (ie_lock e);
          _ ← free_ih h;
          mret 0
      | Some t =>
          _ ← mtx_lock (td_lock t);
          it ← get_it t;
          _ ← (if negb (td_iwait it) then
                 _ ← put_ih h (ih_with_flags (Z.lor (ih_flags ih) IH_DEAD) ih);
                 put_it t (it_with_need 1 it)
               else mret ());
          _ ← mtx_unlock (td_lock t);
          _ ← iev_rmh fuel e t h;
          _ ← intr_event_update e;
          _ ← mtx_unlock (ie_lock e);
          _ ← free_ih h;
          mret 0
      end
  end.

Definition swi_remove (fuel : nat) (cookie : option nat) : I Z := intr_event_remove_handler fuel cookie.

(** ** Interrupts of devices *)

(** The filters in order; a handler without one needs the thread. [ret] is what the filter
    with this argument returns, [frame] the argument of handlers without one. *)
Fixpoint filter_loop (ret : Z → option Z → Z) (frame : option Z) (l : list nat) (thread : bool) : I bool :=
  match l with
  | [] => mret thread
  | h :: l =>
      ih ← get_ih h;
      match ih_filter ih with
      | None => filter_loop ret frame l true
      | Some f =>
          let arg := match ih_argument ih with None => frame | a => a end in
          _ ← act (Filter f arg);
          filter_loop ret frame l (thread || (ret f arg =? FILTER_SCHEDULE_THREAD))
      end
  end.

(** [critical_enter] takes the mutex of the calling thread's processor, which no other
    function of this file takes. *)
Definition intr_event_handle (ret : Z → option Z → Z) (e : option nat) (frame : option Z) : I Z :=
  match e with
  | None => mret EINVAL
  | Some e =>
      ie ← get_ie e;
      match ie_handlers ie with
      | [] => mret EINVAL
      | l =>
          thread ← filter_loop ret frame l false;
          _ ← match (if thread : bool then ie_pre_ithread ie else ie_post_filter ie) with
              | Some f => act (Hook f (ie_source ie)) | None => mret () end;
          _ ← (if thread : bool then intr_event_schedule_thread (Some e) else mret 0);
          mret 0
      end
  end.

End Intr.
