(* ===== verification/IntrSpec.v ===== *)
(** Correctness of the interrupt events of Intr.v: the names of events fit their arrays,
    handlers are kept in order of priority, exclusive handlers are alone; and what goes
    wrong when handlers are removed and threads start. *)
From Stdlib Require Import Sorted.
From S2P Require Import Prelude Printf Intr.

Module IntrSpec.

Import Printf Intr.

(** ** Names *)

(** What an event is called when nothing is left out. *)
Definition base_name (name : str) (kept : list str) : str := strlcpy name ++ concat ((cons 32) <$> kept).

Lemma strlen_app s t : strlen (s ++ t) = strlen s + strlen t.
Proof. unfold strlen. rewrite length_app. lia. Qed.

Lemma strlen_cons c s : strlen (c :: s) = strlen s + 1.
Proof. unfold strlen. cbn [length]. lia. Qed.

Lemma strlen_nonneg s : 0 <= strlen s.
Proof. unfold strlen. lia. Qed.

(** Lengths of names. *)
Ltac slen :=
  rewrite ?strlen_app, ?strlen_cons in *;
  change (strlen (lit " ")) with 1 in *; change (strlen (lit " +")) with 2 in *; change (strlen (lit "+")) with 1 in *;
  unfold MAXCOMLEN in *;
  repeat match goal with
  | |- context [strlen ?s] => lazymatch goal with _ : 0 <= strlen s |- _ => fail | _ => pose proof (strlen_nonneg s) end
  | H : context [strlen ?s] |- _ => lazymatch goal with _ : 0 <= strlen s |- _ => fail | _ => pose proof (strlen_nonneg s) end
  end; lia.

Lemma strlen_strlcpy s : strlen (strlcpy s) = Z.min MAXCOMLEN (strlen s).
Proof. unfold strlen, strlcpy, MAXCOMLEN. rewrite length_take. lia. Qed.

Lemma base_name_snoc name kept n : base_name name (kept ++ [n]) = base_name name kept ++ (32 :: n).
Proof. unfold base_name. rewrite fmap_app, concat_app. cbn. by rewrite app_nil_r, app_assoc. Qed.

(** The loop over the handlers: it keeps names as long as they fit. *)
Lemma add_names_spec name names kept missed :
  strlen (base_name name kept) <= MAXCOMLEN →
  ∃ more, add_names names (base_name name kept) missed (bool_decide (kept = []))
            = Ok (base_name name (kept ++ more), missed + Z.of_nat (length names - length more), bool_decide (kept ++ more = []))
  ∧ more `sublist_of` names ∧ strlen (base_name name (kept ++ more)) <= MAXCOMLEN.
Proof.
  revert kept missed. induction names as [|n names IH]; intros kept missed Hfit; cbn [add_names].
  - exists []. rewrite app_nil_r. split_and!; [f_equal; repeat f_equal; cbn; lia|done|done].
  - destruct (Z.ltb_spec (strlen (base_name name kept) + strlen n + 1) (MAXCOMLEN + 1)) as [Hl|Hl].
    + assert (strlen (base_name name (kept ++ [n])) <= MAXCOMLEN) as Hfit'.
      { rewrite base_name_snoc. slen. }
      destruct (IH (kept ++ [n]) missed Hfit') as (more & He & Hs & Hf).
      exists (n :: more). rewrite <- app_assoc in He, Hf. cbn [app] in He, Hf.
      split_and!; [|by apply sublist_skip|done].
      unfold strcat. rewrite (proj2 (Z.leb_gt _ _)) by slen. cbn [mbind result_bind].
      rewrite (proj2 (Z.leb_gt _ _)) by slen. cbn [mbind result_bind].
      rewrite <- app_assoc. change (lit " " ++ n) with (32 :: n). rewrite <- base_name_snoc.
      rewrite (bool_decide_false (kept ++ [n] = [])) in He by (by destruct kept).
      rewrite He. by repeat f_equal.
    + destruct (IH kept (missed + 1) Hfit) as (more & He & Hs & Hf). exists more.
      split_and!; [|by apply sublist_cons|done]. rewrite He. apply sublist_length in Hs. do 3 f_equal. cbn [length]. lia.
Qed.

Lemma last_set_last full c : last (set_last full c) = Some c.
Proof. unfold set_last. by rewrite last_snoc. Qed.

Lemma strlen_set_last full c : full ≠ [] → strlen (set_last full c) = strlen full.
Proof.
  intros Hne. unfold set_last, strlen. destruct (exists_last Hne) as (l & x & ->).
  by rewrite removelast_last, !length_app.
Qed.

Definition marked (full : str) : Prop := last full = Some 43 ∨ last full = Some 42.

(** Marks for the names left out: always some, and never past the end unless there is
    room for one character and two are needed. *)
Lemma add_pluses_spec missed full space :
  strlen full <= MAXCOMLEN → (0 < strlen full) → (space = true → strlen full ≠ MAXCOMLEN - 1) →
  ∃ full', add_pluses missed full space = Ok full' ∧ strlen full' <= MAXCOMLEN
    ∧ (missed ≠ O → marked full') ∧ (missed = O → full' = full) ∧ (marked full → marked full').
Proof.
  revert full space. induction missed as [|missed IH]; intros full space Hfit Hpos Hsp; cbn [add_pluses].
  { by exists full. }
  assert (full ≠ []) as Hne by (intros ->; unfold strlen in Hpos; cbn in Hpos; lia).
  assert (Hrec : ∀ full1 space1, strlen full1 <= MAXCOMLEN → 0 < strlen full1 → space1 = false → marked full1 →
    ∃ full', add_pluses missed full1 space1 = Ok full' ∧ strlen full' <= MAXCOMLEN
      ∧ (S missed ≠ O → marked full') ∧ (S missed = O → full' = full) ∧ (marked full → marked full')).
  { intros full1 space1 Hf1 Hp1 -> Hm1. destruct (IH full1 false Hf1 Hp1 ltac:(done)) as (f & He & Hl & _ & _ & Hk).
    exists f. split_and!; auto. done. }
  destruct (Z.eqb_spec (strlen full + 1) (MAXCOMLEN + 1)) as [Hfull|Hfull].
  - destruct (Z.eqb_spec (default 0 (last full)) 43) as [Hplus|Hplus].
    + exists (set_last full 42). rewrite strlen_set_last by done.
      split_and!; [done|done| |done|]; intros _; right; apply last_set_last.
    + destruct (IH (set_last full 43) space) as (f & He & Hl & _ & _ & Hk).
      { by rewrite strlen_set_last. } { by rewrite strlen_set_last. } { rewrite strlen_set_last by done. lia. }
      exists f. assert (marked (set_last full 43)) by (left; apply last_set_last).
      split_and!; auto. done.
  - destruct space; unfold strcat.
    + rewrite (proj2 (Z.leb_gt _ _)) by (specialize (Hsp eq_refl); slen).
      cbn [mbind result_bind]. apply Hrec; [| |done|].
      * specialize (Hsp eq_refl). slen.
      * slen.
      * left. change (lit " +") with ([32] ++ [43]). by rewrite app_assoc, last_snoc.
    + rewrite (proj2 (Z.leb_gt _ _)) by slen.
      cbn [mbind result_bind]. apply Hrec; [| |done|].
      * slen.
      * slen.
      * left. change (lit "+") with [43]. by rewrite last_snoc.
Qed.

Lemma sublist_same_length {A} (l l' : list A) : l `sublist_of` l' → length l = length l' → l = l'.
Proof.
  induction 1 as [|x l l' Hs IH|x l l' Hs IH]; cbn; [done|intros [= Hl]; by rewrite IH|].
  intros Hl. apply sublist_length in Hs. lia.
Qed.

(** The name of an event never outgrows its array, unless the event's own name has
    exactly one character of room: it is the event's name followed by the names of the
    handlers that fit, in order, and ends in a mark exactly when some are left out. *)
Lemma fullname_spec name names :
  0 < strlen name → strlen name ≠ MAXCOMLEN - 1 →
  ∃ kept full, fullname name names = Ok full ∧ strlen full <= MAXCOMLEN ∧ kept `sublist_of` names
    ∧ (kept = names → full = base_name name names) ∧ (kept ≠ names → marked full).
Proof.
  intros Hpos Hroom. unfold fullname.
  assert (strlen (base_name name []) = Z.min MAXCOMLEN (strlen name)) as Hb.
  { unfold base_name. cbn. rewrite app_nil_r. apply strlen_strlcpy. }
  destruct (add_names_spec name names [] 0) as (kept & He & Hs & Hf); [lia|].
  cbn [app] in *. replace (strlcpy name) with (base_name name []) by apply app_nil_r.
  change true with (bool_decide (@nil str = [])). rewrite He. cbn [mbind result_bind].
  pose proof (sublist_length _ _ Hs) as Hlen.
  destruct (add_pluses_spec (Z.to_nat (0 + Z.of_nat (length names - length kept))) (base_name name kept)
              (bool_decide (kept = []))) as (full & Hp & Hl & Hm & Hz & _).
  - done.
  - unfold base_name. rewrite strlen_app, strlen_strlcpy. slen.
  - intros ->%bool_decide_eq_true. rewrite Hb. unfold MAXCOMLEN in *. lia.
  - exists kept, full. split_and!; [done|done|done| |].
    + intros ->. apply Hz. lia.
    + intros Hne. apply Hm. assert (length kept ≠ length names); [|lia].
      intros Heq. apply Hne. by apply sublist_same_length.
Qed.

(** One character of room, and the names of the handlers do not fit: the mark is written
    one character past the end. *)
Lemma intr_event_update_overflow name n :
  strlen name = MAXCOMLEN - 1 → n ≠ [] → fullname name [n] = Fault Overflow.
Proof.
  intros Hn Hne. unfold fullname. cbn [add_names]. rewrite strlen_strlcpy, Hn.
  rewrite (proj2 (Z.ltb_ge _ _)) by (destruct n; [done|]; unfold strlen, MAXCOMLEN; cbn [length]; lia).
  cbn [mbind result_bind add_names]. change (Z.to_nat (0 + 1)) with 1%nat. cbn [add_pluses].
  rewrite strlen_strlcpy, Hn. cbn. unfold strcat. rewrite strlen_strlcpy, Hn. reflexivity.
Qed.

(** ** Handlers *)

Definition pri_le (a b : intr_handler) : Prop := ih_pri a <= ih_pri b.

(** The event [e] of state [s] with its handlers [ihs]: they are allocated and its own, in
    order of priority, and an exclusive one is alone; its thread, if it has one, is
    allocated and works for it; nobody is creating one. *)
Record wf_event (s : state) (e : nat) (ie : intr_event) (ihs : list intr_handler) : Prop := {
  we_event : es s !! e = Some ie;
  we_handlers : Forall2 (λ h ih, hs s !! h = Some ih) (ie_handlers ie) ihs;
  we_fresh : Forall (λ h, h < fresh s)%nat (ie_handlers ie) ∧ (e < fresh s)%nat;
  we_own : Forall (λ ih, ih_event ih = e) ihs;
  we_nodup : NoDup (ie_handlers ie);
  we_sorted : StronglySorted pri_le ihs;
  we_exclusive : ∀ ih, ih ∈ ihs → has_flag (ih_flags ih) IH_EXCLUSIVE = true → ihs = [ih];
  we_name : 0 < strlen (ie_name ie) <= MAXCOMLEN ∧ strlen (ie_name ie) ≠ MAXCOMLEN - 1;
  we_adding : has_flag (ie_flags ie) IE_ADDING_THREAD = false;
  we_thread : ∀ t, ie_thread ie = Some t → (t < fresh s)%nat ∧ ∃ it, ts s !! t = Some it ∧ it_event it = e }.

Lemma get_ih_Ok s h ih : hs s !! h = Some ih → get_ih h s = Ok (ih, s).
Proof. unfold get_ih. by intros ->. Qed.
Lemma get_ie_Ok s e ie : es s !! e = Some ie → get_ie e s = Ok (ie, s).
Proof. unfold get_ie. by intros ->. Qed.
Lemma get_it_Ok s t it : ts s !! t = Some it → get_it t s = Ok (it, s).
Proof. unfold get_it. by intros ->. Qed.

Lemma mtx_lock_Ok s l : l ∉ held s → mtx_lock l s = Ok ((), set_held (l :: held s) s).
Proof. intros Hl. unfold mtx_lock. by rewrite bool_decide_false. Qed.
Lemma mtx_unlock_Ok s l ls :
  held s = l :: ls → l ∉ ls → mtx_unlock l s = Ok ((), set_held ls s).
Proof.
  intros Hh Hn. unfold mtx_unlock. rewrite Hh, bool_decide_true by apply list_elem_of_here.
  rewrite filter_cons_False by (intros Hc; by apply Hc). do 3 f_equal.
  clear Hh. induction ls as [|l' ls IH]; [done|]. apply not_elem_of_cons in Hn as [Hne Hn].
  rewrite filter_cons_True by congruence. f_equal. by apply IH.
Qed.

Definition split_pri (pri : Z) (l1 l2 : list intr_handler) : Prop :=
  Forall (λ ih, ih_pri ih <= pri) l1 ∧ match l2 with [] => True | ih :: _ => pri < ih_pri ih end.

(** The position of a new handler. *)
Lemma insert_pri_spec s h pri l ihs :
  Forall2 (λ h ih, hs s !! h = Some ih) l ihs →
  ∃ l1 l2 ihs1 ihs2, insert_pri h pri l s = Ok (l1 ++ h :: l2, s) ∧ l = l1 ++ l2 ∧ ihs = ihs1 ++ ihs2
    ∧ length l1 = length ihs1 ∧ split_pri pri ihs1 ihs2.
Proof.
  induction 1 as [|h' ih l ihs Hh Hl IH]; cbn [insert_pri].
  { by exists [], [], [], []. }
  rewrite (M_bind_Ok _ _ _ _ _ (get_ih_Ok _ _ _ Hh)). destruct (Z.ltb_spec pri (ih_pri ih)) as [Hp|Hp].
  - by exists [], (h' :: l), [], (ih :: ihs).
  - destruct IH as (l1 & l2 & ihs1 & ihs2 & He & -> & -> & Hlen & Hs1 & Hs2).
    exists (h' :: l1), l2, (ih :: ihs1), ihs2. rewrite (M_bind_Ok _ _ _ _ _ He).
    split_and!; [done|done|done|cbn; congruence|]. split; [by constructor|done].
Qed.

Lemma sorted_insert pri ihs1 ihs2 (new : intr_handler) :
  StronglySorted pri_le (ihs1 ++ ihs2) → split_pri pri ihs1 ihs2 → ih_pri new = pri →
  StronglySorted pri_le (ihs1 ++ new :: ihs2).
Proof.
  intros Hs [H1 H2] <-. induction ihs1 as [|a ihs1 IH]; cbn in *.
  - constructor; [done|]. destruct ihs2 as [|b ihs2]; constructor; [unfold pri_le; lia|].
    apply StronglySorted_inv in Hs as [_ Hb]. eapply Forall_impl; [exact Hb|]. unfold pri_le. lia.
  - apply StronglySorted_inv in Hs as [Hs Ha]. apply Forall_cons in H1 as [Hp H1].
    constructor; [by apply IH|]. apply Forall_app in Ha as [Ha1 Ha2].
    apply Forall_app. split; [done|]. by constructor.
Qed.

Lemma handler_names_Ok s l ihs :
  Forall2 (λ h ih, hs s !! h = Some ih) l ihs → handler_names l s = Ok (ih_name <$> ihs, s).
Proof.
  induction 1 as [|h ih l ihs Hh Hl IH]; [done|]. cbn [handler_names].
  rewrite (M_bind_Ok _ _ _ _ _ (get_ih_Ok _ _ _ Hh)), (M_bind_Ok _ _ _ _ _ IH). done.
Qed.

(** What the operations on one event leave alone. *)
Record same_frame (s s' : state) (e : nat) : Prop := {
  sf_hs : hs s' = hs s;
  sf_held : held s' = held s;
  sf_fresh : (fresh s <= fresh s')%nat;
  sf_es : ∀ e', e' ≠ e → (e' < fresh s)%nat → es s' !! e' = es s !! e';
  sf_ts : ∀ t it, ts s !! t = Some it → (t < fresh s)%nat → ∃ nm, ts s' !! t = Some (it_with_name nm it) }.

Lemma it_with_name_self it : it_with_name (td_name it) it = it.
Proof. by destruct it. Qed.

Lemma same_frame_ts_eq s s' : ts s' = ts s →
  ∀ t it, ts s !! t = Some it → (t < fresh s)%nat → ∃ nm, ts s' !! t = Some (it_with_name nm it).
Proof. intros He t it Ht _. exists (td_name it). by rewrite He, it_with_name_self. Qed.

Lemma ithread_update_Ok s t it ie :
  ts s !! t = Some it → es s !! it_event it = Some ie →
  ithread_update t s = Ok ((), set_ts (<[t := it_with_name (strlcpy (ie_fullname ie)) it]> (ts s)) s).
Proof.
  intros Ht He. unfold ithread_update.
  rewrite (M_bind_Ok _ _ _ _ _ (get_it_Ok _ _ _ Ht)), (M_bind_Ok _ _ _ _ _ (get_ie_Ok _ _ _ He)). done.
Qed.

Lemma ts_insert_name (m : gmap nat intr_thread) t it nm0 :
  m !! t = Some it →
  ∀ t' it', m !! t' = Some it' → ∃ nm, <[t := it_with_name nm0 it]> m !! t' = Some (it_with_name nm it').
Proof.
  intros Ht t' it' Ht'. destruct (decide (t' = t)) as [->|Hne].
  - rewrite lookup_insert_eq. simplify_eq. by exists nm0.
  - rewrite lookup_insert_ne by done. exists (td_name it'). by rewrite it_with_name_self.
Qed.

Lemma intr_event_update_Ok s e ie ihs :
  es s !! e = Some ie → Forall2 (λ h ih, hs s !! h = Some ih) (ie_handlers ie) ihs →
  0 < strlen (ie_name ie) <= MAXCOMLEN ∧ strlen (ie_name ie) ≠ MAXCOMLEN - 1 →
  (∀ t, ie_thread ie = Some t → ∃ it, ts s !! t = Some it ∧ it_event it = e) →
  ∃ full s', intr_event_update e s = Ok ((), s') ∧ fullname (ie_name ie) (ih_name <$> ihs) = Ok full
    ∧ es s' !! e = Some (ie_with_fullname full ie) ∧ same_frame s s' e.
Proof.
  intros He Hl [[Hn _] Hn'] Ht. unfold intr_event_update.
  destruct (fullname_spec (ie_name ie) (ih_name <$> ihs) Hn Hn') as (kept & full & Hf & _).
  rewrite (M_bind_Ok _ _ _ _ _ (get_ie_Ok _ _ _ He)), (M_bind_Ok _ _ _ _ _ (handler_names_Ok _ _ _ Hl)).
  rewrite (M_bind_Ok _ _ _ full s) by (unfold liftR; by rewrite Hf). cbn zeta.
  erewrite M_bind_Ok by reflexivity. cbn [ie_thread ie_with_fullname].
  set (s1 := set_es (<[e := ie_with_fullname full ie]> (es s)) s).
  assert (es s1 !! e = Some (ie_with_fullname full ie)) as He1 by apply lookup_insert_eq.
  destruct (ie_thread ie) as [t|] eqn:Hth.
  - destruct (Ht t eq_refl) as (it & Hit & Hev).
    rewrite (ithread_update_Ok s1 t it (ie_with_fullname full ie)) by (by rewrite ?Hev).
    eexists full, _. split; [done|]. split; [done|]. split; [done|]. split; [done|done|done| |].
    + intros e' Hne _. cbn. by rewrite lookup_insert_ne.
    + intros t' it' Ht' _. by apply ts_insert_name.
  - exists full, s1. split; [done|]. split; [done|]. split; [done|]. split; [done|done|done| |].
    + intros e' Hne _. cbn. by rewrite lookup_insert_ne.
    + by apply same_frame_ts_eq.
Qed.

(** A new thread: its own structure and an event of zeros, which a thread that starts
    early reads. *)
Lemma ithread_create_Ok s early name :
  let t := fresh s in let d := S t in
  ithread_create 0 early name s =
    Ok (t, mk_st (hs s) (<[d := zero_ie]> (es s)) (<[t := mk_it d 0 name false false (if early then Some d else None)]> (ts s))
         (S (S (fresh s))) (event_list s) (held s) (log s)).
Proof.
  cbn zeta. unfold ithread_create, malloc, put_ie, put_it.
  repeat (erewrite M_bind_Ok by reflexivity). cbn [Z.eqb negb].
  destruct early; [|reflexivity].
  unfold ithread_start. unfold mbind, M_bind at 1 2.
  set (s1 := set_ts _ _).
  assert (Ht : ts s1 !! fresh s = Some (mk_it (S (fresh s)) 0 name false false None)) by apply lookup_insert_eq.
  assert (He : es s1 !! S (fresh s) = Some zero_ie) by apply lookup_insert_eq.
  rewrite (get_it_Ok _ _ _ Ht). cbn beta iota. unfold M_bind at 1. cbn [it_event].
  rewrite (get_ie_Ok _ _ _ He). cbn. by rewrite !insert_insert_eq.
Qed.

Lemma has_flag_adding f : has_flag (clear_flag (Z.lor f IE_ADDING_THREAD) IE_ADDING_THREAD) IE_ADDING_THREAD = false.
Proof.
  change IE_ADDING_THREAD with (2 ^ 2). rewrite has_flag_pow2 by done. unfold clear_flag.
  rewrite Z.land_spec, Z.lor_spec, Z.lnot_spec, Z.pow2_bits_true by done. by rewrite andb_false_r.
Qed.

(** The flags of an event, once the thread has been created. *)
Definition done_adding (f : Z) : Z := clear_flag (Z.lor f IE_ADDING_THREAD) IE_ADDING_THREAD.

Lemma add_thread_Ok s e ie name early :
  es s !! e = Some ie → ie_thread ie = None → has_flag (ie_flags ie) IE_ADDING_THREAD = false →
  held s = [ie_lock e] → (e < fresh s)%nat →
  ∃ s' t it, add_thread e name 0 early s = Ok ((), s') ∧ same_frame s s' e
    ∧ es s' !! e = Some (ie_with_thread (Some t) (ie_with_flags (done_adding (ie_flags ie)) ie))
    ∧ ts s' !! t = Some it ∧ it_event it = e ∧ it_ie it = (if early then Some (S (fresh s)) else None)
    ∧ (t < fresh s')%nat.
Proof.
  intros He Hno Hadd Hheld Hlt. unfold add_thread.
  rewrite (M_bind_Ok _ _ _ _ _ (get_ie_Ok _ _ _ He)). cbn beta. rewrite Hno, Hadd.
  erewrite M_bind_Ok by reflexivity.
  rewrite (M_bind_Ok _ _ _ _ _ (mtx_unlock_Ok (set_es _ s) (ie_lock e) [] Hheld (not_elem_of_nil _))).
  rewrite (M_bind_Ok _ _ _ _ _ (ithread_create_Ok _ early name)). cbn [hs es ts fresh event_list held log set_es set_held].
  match goal with |- context [mbind _ (mtx_lock _) ?t] =>
    rewrite (M_bind_Ok _ _ _ _ _ (mtx_lock_Ok t (ie_lock e) (not_elem_of_nil _))) end. cbn [held set_held].
  set (ie1 := ie_with_flags (Z.lor (ie_flags ie) IE_ADDING_THREAD) ie).
  assert (Hne : S (fresh s) ≠ e) by lia.
  match goal with |- context [mbind _ (get_ie e) ?t] =>
    assert (He1 : es t !! e = Some ie1) by (cbn; rewrite lookup_insert_ne by done; apply lookup_insert_eq) end.
  rewrite (M_bind_Ok _ _ _ _ _ (get_ie_Ok _ _ _ He1)). erewrite M_bind_Ok by reflexivity.
  cbn [hs es ts fresh event_list held log set_es set_held].
  set (it0 := mk_it _ _ _ _ _ _).
  match goal with |- context [mbind _ (get_it (fresh s)) ?t] =>
    assert (Ht1 : ts t !! fresh s = Some it0) by apply lookup_insert_eq end.
  rewrite (M_bind_Ok _ _ _ _ _ (get_it_Ok _ _ _ Ht1)). erewrite M_bind_Ok by reflexivity.
  cbn [hs es ts fresh event_list held log set_es set_held set_ts].
  match goal with |- context [mbind _ (ithread_update (fresh s)) ?t] =>
    rewrite (M_bind_Ok _ _ _ _ _ (ithread_update_Ok t (fresh s) (it_with_event e it0) _ (lookup_insert_eq _ _ _) (lookup_insert_eq _ _ _))) end.
  eexists _, (fresh s), _. split; [reflexivity|]. cbn [hs es ts fresh event_list held log set_es set_held set_ts set_log].
  split_and!; [|apply lookup_insert_eq|apply lookup_insert_eq|done|done|cbn; lia].
  split; [done|done|cbn; lia| |].
  - intros e' Hne' Hlt'. cbn. rewrite !lookup_insert_ne by (lia || done). done.
  - intros t' it' Ht' Hlt'. exists (td_name it'). cbn. rewrite !lookup_insert_ne by lia. by rewrite it_with_name_self.
Qed.

Lemma same_frame_refl s e : same_frame s s e.
Proof. split; [done|done|lia|done|by apply same_frame_ts_eq]. Qed.

Lemma same_frame_trans s1 s2 s3 e : same_frame s1 s2 e → same_frame s2 s3 e → same_frame s1 s3 e.
Proof.
  intros [] []. split; [congruence|congruence|lia| |].
  - intros e' Hne Hlt. rewrite sf_es1 by (done || lia). by apply sf_es0.
  - intros t it Ht Hlt. destruct (sf_ts0 t it Ht Hlt) as [nm Ht2].
    destruct (sf_ts1 t _ Ht2 ltac:(lia)) as [nm' Ht3]. by exists nm'.
Qed.

(** The thread of the event, if it needs one. *)
Lemma maybe_thread_Ok s e ie name early (need : bool) :
  es s !! e = Some ie → has_flag (ie_flags ie) IE_ADDING_THREAD = false → held s = [ie_lock e] → (e < fresh s)%nat →
  (∀ t, ie_thread ie = Some t → (t < fresh s)%nat ∧ ∃ it, ts s !! t = Some it ∧ it_event it = e) →
  ∃ s' ie', (if need then add_thread e name 0 early else mret ()) s = Ok ((), s') ∧ same_frame s s' e
    ∧ es s' !! e = Some ie' ∧ ie_handlers ie' = ie_handlers ie ∧ ie_name ie' = ie_name ie
    ∧ has_flag (ie_flags ie') IE_ADDING_THREAD = false ∧ (need = true → ie_thread ie' ≠ None)
    ∧ ∀ t, ie_thread ie' = Some t → (t < fresh s')%nat ∧ ∃ it, ts s' !! t = Some it ∧ it_event it = e.
Proof.
  intros He Hadd Hheld Hlt Hth. destruct need; cbn [ie_thread].
  - destruct (ie_thread ie) as [t|] eqn:Hno.
    + exists s, ie. unfold add_thread. rewrite (M_bind_Ok _ _ _ _ _ (get_ie_Ok _ _ _ He)). cbn beta. rewrite Hno.
      split_and!; try done. apply same_frame_refl.
    + destruct (add_thread_Ok s e ie name early He Hno Hadd Hheld Hlt) as (s' & t & it & Hr & Hf & He' & Ht & Hev & _ & Hl').
      eexists s', _. split; [exact Hr|]. split; [done|]. split; [exact He'|].
      split_and!; try done; [apply has_flag_adding|].
      intros t' [= <-]. split; [done|]. by exists it.
  - exists s, ie. split_and!; try done. apply same_frame_refl.
Qed.

(** The structure of a new handler. *)
Definition new_handler (e : nat) (name : str) (flt handler arg : option Z) (pri flags : Z) : intr_handler :=
  mk_ih flt handler arg
    (Z.lor (if has_flag flags INTR_EXCL then IH_EXCLUSIVE else 0) (if has_flag flags INTR_MPSAFE then IH_MPSAFE else 0))
    (take (Z.to_nat MAXCOMLEN) name) e 0 (u8 pri).

Lemma new_handler_exclusive e name flt handler arg pri flags :
  has_flag (ih_flags (new_handler e name flt handler arg pri flags)) IH_EXCLUSIVE = has_flag flags INTR_EXCL.
Proof. cbn. by destruct (has_flag flags INTR_EXCL), (has_flag flags INTR_MPSAFE). Qed.

(** Whether a handler that wants the event for itself meets another. *)
Definition conflict (flags : Z) (ihs : list intr_handler) : bool :=
  match ihs with [] => false | ih :: _ => has_flag flags INTR_EXCL || has_flag (ih_flags ih) IH_EXCLUSIVE end.

Lemma first_exclusive_Ok s l ihs :
  Forall2 (λ h ih, hs s !! h = Some ih) l ihs →
  first_exclusive l s = Ok (match ihs with [] => false | ih :: _ => has_flag (ih_flags ih) IH_EXCLUSIVE end, s).
Proof.
  destruct 1 as [|h ih l ihs Hh Hl]; [done|]. cbn [first_exclusive].
  by rewrite (M_bind_Ok _ _ _ _ _ (get_ih_Ok _ _ _ Hh)).
Qed.

(** No conflict: the exclusive handlers stay alone. *)
Lemma exclusive_insert flags ihs1 ihs2 (new : intr_handler) :
  conflict flags (ihs1 ++ ihs2) = false → has_flag (ih_flags new) IH_EXCLUSIVE = has_flag flags INTR_EXCL →
  (∀ ih, ih ∈ ihs1 ++ ihs2 → has_flag (ih_flags ih) IH_EXCLUSIVE = true → ihs1 ++ ihs2 = [ih]) →
  ∀ ih, ih ∈ ihs1 ++ new :: ihs2 → has_flag (ih_flags ih) IH_EXCLUSIVE = true → ihs1 ++ new :: ihs2 = [ih].
Proof.
  intros Hc Hn Hold ih Hin Hex. assert (ih = new ∨ ih ∈ ihs1 ++ ihs2) as [->|Hin'] by set_solver.
  - rewrite Hn in Hex. destruct (ihs1 ++ ihs2) as [|a l] eqn:E; [by apply app_eq_nil in E as [-> ->]|].
    cbn in Hc. by rewrite Hex in Hc.
  - rewrite (Hold ih Hin' Hex) in Hc. cbn in Hc. by rewrite Hex, orb_true_r in Hc.
Qed.

Lemma Forall2_lookup_mono (P Q : nat → intr_handler → Prop) l ihs :
  Forall2 P l ihs → (∀ h ih, h ∈ l → P h ih → Q h ih) → Forall2 Q l ihs.
Proof.
  induction 1 as [|h ih l ihs Hh Hl IH]; intros Hpq; constructor.
  - apply Hpq; [apply list_elem_of_here|done].
  - apply IH. intros h' ih' Hin. apply Hpq. by apply list_elem_of_further.
Qed.

Section AddHandler.

Context (s : state) (e : nat) (ie : intr_event) (ihs : list intr_handler).
Context (name : str) (flt handler arg : option Z) (pri flags : Z) (early : bool).
Context (Hwf : wf_event s e ie ihs) (Hheld : held s = []) (Hsome : flt ≠ None ∨ handler ≠ None).

Let h := fresh s.
Let new := new_handler e name flt handler arg pri flags.

(** The state in which the list is examined: the handler allocated, the event locked. *)
Let s1 : state := mk_st (<[h := new]> (hs s)) (es s) (ts s) (S h) (event_list s) [ie_lock e] (log s).

Lemma s1_handlers : Forall2 (λ h ih, hs s1 !! h = Some ih) (ie_handlers ie) ihs.
Proof.
  apply (Forall2_lookup_mono _ _ _ _ (we_handlers _ _ _ _ Hwf)). intros h' ih Hin Hl.
  destruct (we_fresh _ _ _ _ Hwf) as [Hf _]. rewrite Forall_forall in Hf. specialize (Hf _ Hin).
  cbn. rewrite lookup_insert_ne; [done|]. unfold h. lia.
Qed.

(** The rest of the call from there. *)
Lemma add_handler_enter :
  intr_event_add_handler (Some e) (Some name) flt handler arg pri flags 0 early s =
  (if conflict flags ihs then
     _ ← mtx_unlock (ie_lock e); _ ← free_ih h; mret (EINVAL, None)
   else
     l ← insert_pri h (u8 pri) (ie_handlers ie);
     _ ← put_ie e (ie_with_handlers l ie);
     _ ← intr_event_update e;
     _ ← (if handler is Some _ then add_thread e (ih_name new) 0 early else mret ());
     _ ← mtx_unlock (ie_lock e);
     mret (0, Some h)) s1.
Proof.
  pose proof s1_handlers as Hl.
  assert (Hgo : ∀ k : I (Z * option nat),
    (h ← malloc; _ ← put_ih h new; _ ← mtx_lock (ie_lock e); k) s = k s1).
  { intros k. unfold malloc, put_ih. repeat (erewrite M_bind_Ok by reflexivity).
    match goal with |- context [mbind _ (mtx_lock _) ?t] =>
      rewrite (M_bind_Ok _ _ _ _ _ (mtx_lock_Ok t (ie_lock e) ltac:(cbn; rewrite Hheld; apply not_elem_of_nil))) end.
    cbn. by rewrite Hheld. }
  assert (He : es s1 !! e = Some ie) by apply Hwf.
  transitivity ((ie ← get_ie e; excl ← first_exclusive (ie_handlers ie);
      if negb (bool_decide (ie_handlers ie = [])) && (has_flag flags INTR_EXCL || excl) then
        _ ← mtx_unlock (ie_lock e); _ ← free_ih h; mret (EINVAL, None)
      else
        l ← insert_pri h (u8 pri) (ie_handlers ie);
        _ ← put_ie e (ie_with_handlers l ie);
        _ ← intr_event_update e;
        _ ← (if handler is Some _ then add_thread e (ih_name new) 0 early else mret ());
        _ ← mtx_unlock (ie_lock e);
        mret (0, Some h)) s1).
  { rewrite <- Hgo. unfold intr_event_add_handler, h. destruct flt, handler; try reflexivity. by destruct Hsome. }
  rewrite (M_bind_Ok _ _ _ _ _ (get_ie_Ok _ _ _ He)), (M_bind_Ok _ _ _ _ _ (first_exclusive_Ok _ _ _ Hl)).
  destruct Hl; cbn [conflict]; [done|]. rewrite bool_decide_false by done. by rewrite andb_true_l.
Qed.

Lemma add_handler_conflict :
  conflict flags ihs = true →
  ∃ s', intr_event_add_handler (Some e) (Some name) flt handler arg pri flags 0 early s = Ok ((EINVAL, None), s')
    ∧ es s' = es s ∧ ts s' = ts s ∧ hs s' = delete h (hs s) ∧ held s' = [] ∧ log s' = log s.
Proof.
  intros Hc. rewrite add_handler_enter, Hc.
  rewrite (M_bind_Ok _ _ _ _ _ (mtx_unlock_Ok s1 (ie_lock e) [] eq_refl (not_elem_of_nil _))).
  eexists. split; [reflexivity|]. cbn. by rewrite delete_insert_eq.
Qed.

Lemma Forall2_insert_mid {A B} (P : A → B → Prop) l1 l2 k1 k2 x y :
  Forall2 P (l1 ++ l2) (k1 ++ k2) → length l1 = length k1 → P x y → Forall2 P (l1 ++ x :: l2) (k1 ++ y :: k2).
Proof.
  intros H Hlen Hxy. apply Forall2_app_inv in H as [H1 H2]; [|done].
  apply Forall2_app; [done|]. by constructor.
Qed.

Lemma add_handler_added :
  conflict flags ihs = false →
  ∃ s' ie' ihs1 ihs2,
    intr_event_add_handler (Some e) (Some name) flt handler arg pri flags 0 early s = Ok ((0, Some h), s')
    ∧ ihs = ihs1 ++ ihs2 ∧ split_pri (u8 pri) ihs1 ihs2 ∧ wf_event s' e ie' (ihs1 ++ new :: ihs2)
    ∧ held s' = [] ∧ (handler ≠ None → ie_thread ie' ≠ None)
    ∧ (∀ e', e' ≠ e → (e' < fresh s)%nat → es s' !! e' = es s !! e').
Proof.
  intros Hc. rewrite add_handler_enter, Hc.
  destruct (insert_pri_spec s1 h (u8 pri) _ _ s1_handlers) as (l1 & l2 & ihs1 & ihs2 & Hi & Hl & Hihs & Hlen & Hsp).
  pose proof Hwf as Hwf'. rewrite Hihs in Hwf', Hc.
  rewrite (M_bind_Ok _ _ _ _ _ Hi). erewrite M_bind_Ok by reflexivity.
  set (ie2 := ie_with_handlers (l1 ++ h :: l2) ie). set (s2 := set_es _ s1).
  assert (He2 : es s2 !! e = Some ie2) by apply lookup_insert_eq.
  assert (Hh2 : Forall2 (λ h ih, hs s2 !! h = Some ih) (ie_handlers ie2) (ihs1 ++ new :: ihs2)).
  { apply Forall2_insert_mid; [|done|apply lookup_insert_eq]. pose proof s1_handlers as Hs1. by rewrite Hl, Hihs in Hs1. }
  assert (Ht2 : ∀ t, ie_thread ie2 = Some t → (t < fresh s2)%nat ∧ ∃ it, ts s2 !! t = Some it ∧ it_event it = e).
  { intros t Ht. destruct (we_thread _ _ _ _ Hwf t Ht) as [Hlt Hit]. split; [cbn; unfold h; lia|done]. }
  destruct (we_fresh _ _ _ _ Hwf) as [Hfh Hfe].
  destruct (intr_event_update_Ok s2 e ie2 _ He2 Hh2 (we_name _ _ _ _ Hwf) ltac:(intros t Ht; apply Ht2, Ht))
    as (full & s3 & Hr3 & _ & He3 & Hf3).
  rewrite (M_bind_Ok _ _ _ _ _ Hr3). cbn beta.
  destruct (maybe_thread_Ok s3 e _ (ih_name new) early (bool_decide (handler ≠ None)) He3 (we_adding _ _ _ _ Hwf))
    as (s4 & ie4 & Hr4 & Hf4 & He4 & Hhd4 & Hn4 & Ha4 & Hth4 & Ht4).
  { by rewrite (sf_held _ _ _ Hf3). }
  { pose proof (sf_fresh _ _ _ Hf3). cbn in *. unfold h in *. lia. }
  { intros t Ht. destruct (Ht2 t Ht) as [Hlt (it & Hit & Hev)]. split; [pose proof (sf_fresh _ _ _ Hf3); lia|].
    destruct (sf_ts _ _ _ Hf3 t it Hit Hlt) as [nm Hnm]. by exists (it_with_name nm it). }
  pose proof (same_frame_trans _ _ _ _ Hf3 Hf4) as Hf. clear Hf3 Hf4.
  assert (Hr4' : (if handler is Some _ then add_thread e (ih_name new) 0 early else mret ()) s3 = Ok ((), s4)).
  { destruct handler; exact Hr4. }
  rewrite (M_bind_Ok _ _ _ _ _ Hr4').
  rewrite (M_bind_Ok _ _ _ _ _ (mtx_unlock_Ok s4 (ie_lock e) [] (sf_held _ _ _ Hf) (not_elem_of_nil _))).
  pose proof (sf_fresh _ _ _ Hf) as Hfr. cbn in Hfr.
  exists (set_held [] s4), ie4, ihs1, ihs2. split; [reflexivity|]. split; [done|]. split; [done|].
  split; [|split_and!; [done|intros Hn; apply Hth4; by apply bool_decide_true|]].
  - split; try done; rewrite ?Hhd4, ?Hn4; cbn [ie_with_fullname ie_handlers ie2 ie_with_handlers].
    + cbn [set_held hs]. rewrite (sf_hs _ _ _ Hf). exact Hh2.
    + cbn. split; [|lia]. rewrite Hl in Hfh. apply Forall_app in Hfh as [Hf1 Hf2].
      apply Forall_app. split; [|constructor].
      * eapply Forall_impl; [exact Hf1|]. cbn. lia.
      * unfold h in *. lia.
      * eapply Forall_impl; [exact Hf2|]. cbn. lia.
    + pose proof (we_own _ _ _ _ Hwf') as Ho. apply Forall_app in Ho as [Ho1 Ho2].
      apply Forall_app. split; [done|]. by constructor.
    + pose proof (we_nodup _ _ _ _ Hwf) as Hnd. rewrite Hl in Hnd, Hfh. rewrite <- Permutation_middle.
      constructor; [|done]. intros Hin. rewrite Forall_forall in Hfh. specialize (Hfh _ Hin). unfold h in *. lia.
    + eapply sorted_insert; [apply Hwf'|exact Hsp|done].
    + eapply exclusive_insert; [exact Hc|apply new_handler_exclusive|apply Hwf'].
    + apply Hwf.
  - intros e' Hne Hlt. cbn [set_held es]. rewrite (sf_es _ _ _ Hf e' Hne) by (cbn; unfold h; lia). cbn. by rewrite lookup_insert_ne.
Qed.

End AddHandler.

(** Adding a handler to an event: an exclusive handler and any other exclude each other,
    and the call then fails with EINVAL and leaves the event and its handlers as they were;
    otherwise the handler is put after those of smaller or equal priority value and before
    those of greater, so that the event keeps its order and exclusiveness, it has a thread
    if the handler is not a filter only, other events are untouched, and every lock has
    been released. *)
Theorem intr_event_add_handler_spec s e ie ihs name flt handler arg pri flags early :
  wf_event s e ie ihs → held s = [] → flt ≠ None ∨ handler ≠ None →
  let new := new_handler e name flt handler arg pri flags in
  (conflict flags ihs = true →
   ∃ s', intr_event_add_handler (Some e) (Some name) flt handler arg pri flags 0 early s = Ok ((EINVAL, None), s')
     ∧ es s' = es s ∧ ts s' = ts s ∧ hs s' = delete (fresh s) (hs s) ∧ held s' = [] ∧ log s' = log s)
  ∧ (conflict flags ihs = false →
   ∃ s' ie' ihs1 ihs2,
     intr_event_add_handler (Some e) (Some name) flt handler arg pri flags 0 early s = Ok ((0, Some (fresh s)), s')
     ∧ ihs = ihs1 ++ ihs2 ∧ split_pri (u8 pri) ihs1 ihs2 ∧ wf_event s' e ie' (ihs1 ++ new :: ihs2)
     ∧ held s' = [] ∧ (handler ≠ None → ie_thread ie' ≠ None)
     ∧ (∀ e', e' ≠ e → (e' < fresh s)%nat → es s' !! e' = es s !! e')).
Proof.
  intros Hwf Hheld Hsome new. split; [by apply (add_handler_conflict s e ie ihs)|by apply (add_handler_added s e ie ihs)].
Qed.

(** An event of software interrupts with two handlers, of priorities 40 and 44. *)
Definition h40 : intr_handler := mk_ih None (Some 100) None IH_MPSAFE (lit "clock") 0 0 40.
Definition h44 : intr_handler := mk_ih None (Some 200) None IH_MPSAFE (lit "vm") 0 0 44.
Definition two_handlers : state :=
  mk_st {[1%nat := h40; 2%nat := h44]}
    {[0%nat := mk_ie [1%nat; 2%nat] (lit "swi4:") (lit "swi4: clock vm") 0 (Some 3%nat) None None None IE_SOFT 0 0]}
    {[3%nat := mk_it 0 0 (lit "swi4: clock vm") true true (Some 0%nat)]} 5 [0%nat] [] [].

(** Another handler of priority 40 goes between the two. *)
Lemma intr_event_add_handler_spec_witness :
  ∃ s' ie' ihs1 ihs2,
    intr_event_add_handler (Some 0%nat) (Some (lit "net")) None (Some 300) None 40 INTR_MPSAFE 0 false two_handlers
      = Ok ((0, Some 5%nat), s')
    ∧ [h40; h44] = ihs1 ++ ihs2 ∧ split_pri (u8 40) ihs1 ihs2
    ∧ wf_event s' 0 ie' (ihs1 ++ new_handler 0 (lit "net") None (Some 300) None 40 INTR_MPSAFE :: ihs2)
    ∧ held s' = [] ∧ (Some 300 ≠ None → ie_thread ie' ≠ None)
    ∧ (∀ e', e' ≠ 0%nat → (e' < 5)%nat → es s' !! e' = es two_handlers !! e').
Proof.
  refine (proj2 (intr_event_add_handler_spec two_handlers 0
    (mk_ie [1%nat; 2%nat] (lit "swi4:") (lit "swi4: clock vm") 0 (Some 3%nat) None None None IE_SOFT 0 0)
    [h40; h44] (lit "net") None (Some 300) None 40 INTR_MPSAFE false _ eq_refl (or_intror _)) eq_refl); [|done].
  split; try done.
  - repeat constructor.
  - split; [repeat constructor; cbn; lia|cbn; lia].
  - repeat constructor.
  - apply (bool_decide_unpack (NoDup [1%nat; 2%nat])). vm_compute. exact Logic.I.
  - repeat constructor; unfold pri_le; cbn; lia.
  - intros ih Hin. rewrite !elem_of_cons in Hin. destruct Hin as [-> |[-> |Hin]]; [done|done|by apply not_elem_of_nil in Hin].
  - intros t [= <-]. split; [cbn; lia|]. by eexists.
Defined.

(** Regenerating the name of an event returns and stays within the array, unless the
    event's own name has exactly one character of room: the result is the event's name
    followed by the names of the handlers that fit, in order, whole if all fit, and ends
    in a plus or star otherwise. *)
Theorem intr_event_update_fits s e ie ihs :
  es s !! e = Some ie → Forall2 (λ h ih, hs s !! h = Some ih) (ie_handlers ie) ihs →
  0 < strlen (ie_name ie) <= MAXCOMLEN ∧ strlen (ie_name ie) ≠ MAXCOMLEN - 1 →
  (∀ t, ie_thread ie = Some t → ∃ it, ts s !! t = Some it ∧ it_event it = e) →
  ∃ s' full kept, intr_event_update e s = Ok ((), s') ∧ es s' !! e = Some (ie_with_fullname full ie)
    ∧ strlen full <= MAXCOMLEN ∧ kept `sublist_of` (ih_name <$> ihs)
    ∧ (kept = ih_name <$> ihs → full = base_name (ie_name ie) kept)
    ∧ (kept ≠ ih_name <$> ihs → marked full).
Proof.
  intros He Hl Hn Ht. destruct (intr_event_update_Ok s e ie ihs He Hl Hn Ht) as (full & s' & Hr & Hf & He' & _).
  destruct (fullname_spec (ie_name ie) (ih_name <$> ihs) ltac:(lia) ltac:(lia)) as (kept & full' & Hf' & Hlen & Hk & Hall & Hm).
  rewrite Hf in Hf'. injection Hf' as <-. exists s', full, kept.
  split_and!; [done|done|done|done| |done]. intros Heq. rewrite Heq. by apply Hall.
Qed.

Lemma intr_event_update_fits_witness :
  ∃ s' full kept, intr_event_update 0 two_handlers = Ok ((), s')
    ∧ es s' !! 0%nat = Some (ie_with_fullname full
        (mk_ie [1%nat; 2%nat] (lit "swi4:") (lit "swi4: clock vm") 0 (Some 3%nat) None None None IE_SOFT 0 0))
    ∧ strlen full <= MAXCOMLEN ∧ kept `sublist_of` [lit "clock"; lit "vm"]
    ∧ (kept = [lit "clock"; lit "vm"] → full = base_name (lit "swi4:") kept)
    ∧ (kept ≠ [lit "clock"; lit "vm"] → marked full).
Proof.
  refine (intr_event_update_fits two_handlers 0 _ [h40; h44] eq_refl _ _ _).
  - repeat constructor.
  - vm_compute. repeat split; congruence.
  - intros t [= <-]. by eexists.
Defined.

(** ** What goes wrong *)

(** A handler is removed while the thread of its event waits for interrupts: it is freed
    but stays on the list, and the next interrupt of the event reads freed memory. *)
Lemma intr_event_remove_asleep :
  match (r ← intr_event_remove_handler 3 (Some 1%nat); ie ← get_ie 0; mret (r, ie_handlers ie)) two_handlers with
  | Ok (r, s) => r = (0, [1%nat; 2%nat]) ∧ hs s !! 1%nat = None
  | Fault _ => False
  end
  ∧ (_ ← intr_event_remove_handler 3 (Some 1%nat); _ ← swi_sched 2 0; ithread_round 3 3) two_handlers = Fault BadPointer.
Proof. split; [split|]; vm_compute; reflexivity. Qed.

Definition empty_state : state := mk_st ∅ ∅ ∅ 0 [] [] [].

(** The handlers that run when one is added to a new event and scheduled, and the event's
    thread (address 2) makes a round. *)
Definition add_sched_round (early : bool) : result (list action) :=
  match (r ← swi_add None (Some (lit "clock")) (Some 100) (Some 7) 4 INTR_MPSAFE 0 early;
         let '(_, _, cookie) := r in
         c ← liftR (deref cookie); _ ← swi_sched c 0; ithread_round 3 2) empty_state with
  | Ok (_, s) => Ok (List.filter (λ a, if a is Handler _ _ then true else false) (log s))
  | Fault f => Fault f
  end.

(** A thread that gets to its loop before its creator has set its event works on an event
    of zeros for ever: the handler never runs. *)
Lemma ithread_starts_early :
  add_sched_round false = Ok [Handler 100 (Some 7)] ∧ add_sched_round true = Ok [].
Proof. split; vm_compute; reflexivity. Qed.

End IntrSpec.
