(* ===== verification/IntrConc.v ===== *)
(** Software interrupts under concurrency ([swi_sched], [intr_event_schedule_thread],
    [intr_event_execute_handlers] and [ithread_loop] of
    src/src/lib/libuinet/uinet_kern_intr.c): any number of threads schedule the handlers
    of one event while its thread runs them.  One step is one access to shared memory or
    one operation on the lock and condition variable of the thread, and the accesses are
    sequentially consistent: the store that clears [it_need] is in memory before the flags
    of the handlers are read, as the comment at that store asks.  On amd64, where
    [atomic_store_rel_int] is a plain store that waits in the store buffer, a request can
    be lost ([swi_lost_store_buffer]). *)
From S2P Require Import Prelude.

Module IntrConc.

(** Where the interrupt thread is: at the test of [it_need], at the store that clears it,
    in the list of handlers with those still to visit, past the test of [ih_need], about to
    call a handler, at [thread_lock], at the second test, in [cv_wait], woken and about to
    have the lock again, and at [thread_unlock]. *)
Inductive ipc : Type :=
| I_test
| I_clear
| I_handler (rest : list nat)
| I_seen (h : nat) (rest : list nat)
| I_call (h : nat) (rest : list nat)
| I_lock
| I_check
| I_asleep
| I_woken
| I_unlock.

(** Where a call of [swi_sched] for handler [h] is: at the store to [ih_need], at the store
    to [it_need], at [thread_lock], at the test of [TD_AWAITING_INTR], at [thread_unlock],
    returned. *)
Inductive spc : Type :=
| S_need (h : nat)
| S_it (h : nat)
| S_lock (h : nat)
| S_test (h : nat)
| S_unlock (h : nat)
| S_done.

(** Who has the lock of the interrupt thread. *)
Inductive who : Type := Ithread | Sched (i : nat).

(** The handlers whose [ih_need] is set, [it_need], [TD_AWAITING_INTR], the lock, the
    threads, the handlers called so far; and for the statements: the requests made so far,
    and the handlers [owed] a call, those scheduled since their flag was last cleared. *)
Record conf : Type := mk_conf {
  need : gset nat; it_need : bool; iwait : bool; td_lock : option who;
  pc : ipc; scheds : list spc; runs : list nat; asked : list nat; owed : gset nat }.

Section Event.

(** The handlers of the event, in order, and those that are also requested with
    [SWI_DELAY]. *)
Context (handlers : list nat) (delays : nat → Prop).

Definition set_pc (p : ipc) (c : conf) : conf :=
  mk_conf (need c) (it_need c) (iwait c) (td_lock c) p (scheds c) (runs c) (asked c) (owed c).
Definition set_lock (l : option who) (p : ipc) (c : conf) : conf :=
  mk_conf (need c) (it_need c) (iwait c) l p (scheds c) (runs c) (asked c) (owed c).

(** One step of the interrupt thread; [None] where it waits. *)
Definition ithread_step (c : conf) : option conf :=
  match pc c with
  | I_test => Some (set_pc (if it_need c then I_clear else I_lock) c)
  | I_clear => Some (mk_conf (need c) false (iwait c) (td_lock c) (I_handler handlers) (scheds c) (runs c) (asked c) (owed c))
  | I_handler [] => Some (set_pc I_test c)
  | I_handler (h :: rest) => Some (set_pc (if bool_decide (h ∈ need c) then I_seen h rest else I_handler rest) c)
  | I_seen h rest => Some (mk_conf (need c ∖ {[h]}) (it_need c) (iwait c) (td_lock c) (I_call h rest) (scheds c) (runs c)
                             (asked c) (owed c ∖ {[h]}))
  | I_call h rest => Some (mk_conf (need c) (it_need c) (iwait c) (td_lock c) (I_handler rest) (scheds c) (runs c ++ [h])
                             (asked c) (owed c))
  | I_lock => if td_lock c is None then Some (set_lock (Some Ithread) I_check c) else None
  | I_check =>
      if it_need c then Some (set_pc I_unlock c)
      else Some (mk_conf (need c) (it_need c) true None I_asleep (scheds c) (runs c) (asked c) (owed c))
  | I_asleep => None
  | I_woken => if td_lock c is None then Some (set_lock (Some Ithread) I_unlock c) else None
  | I_unlock => Some (set_lock None I_test c)
  end.

(** [cv_signal]. *)
Definition signalled (p : ipc) : ipc := if p is I_asleep then I_woken else p.

(** One step of the call [i] of [swi_sched]. *)
Definition sched_step (i : nat) (c : conf) : option conf :=
  match scheds c !! i with
  | Some (S_need h) =>
      Some (mk_conf (need c ∪ {[h]}) (it_need c) (iwait c) (td_lock c) (pc c) (<[i := S_it h]> (scheds c)) (runs c)
              (asked c ++ [h]) (owed c))
  | Some (S_it h) =>
      Some (mk_conf (need c) true (iwait c) (td_lock c) (pc c) (<[i := S_lock h]> (scheds c)) (runs c) (asked c)
              (owed c ∪ (need c ∩ {[h]})))
  | Some (S_lock h) =>
      if td_lock c is None then
        Some (mk_conf (need c) (it_need c) (iwait c) (Some (Sched i)) (pc c) (<[i := S_test h]> (scheds c)) (runs c)
                (asked c) (owed c))
      else None
  | Some (S_test h) =>
      Some (mk_conf (need c) (it_need c) false (td_lock c) (if iwait c then signalled (pc c) else pc c)
              (<[i := S_unlock h]> (scheds c)) (runs c) (asked c) (owed c))
  | Some (S_unlock h) =>
      Some (mk_conf (need c) (it_need c) (iwait c) None (pc c) (<[i := S_done]> (scheds c)) (runs c) (asked c) (owed c))
  | Some S_done | None => None
  end.

(** A new call, a call with [SWI_DELAY], and a wakeup without a signal happen at any time. *)
Inductive step : conf → conf → Prop :=
| step_ithread c c' : ithread_step c = Some c' → step c c'
| step_sched c i c' : sched_step i c = Some c' → step c c'
| step_call c h : h ∈ handlers →
    step c (mk_conf (need c) (it_need c) (iwait c) (td_lock c) (pc c) (scheds c ++ [S_need h]) (runs c) (asked c) (owed c))
| step_delay c h : h ∈ handlers → delays h →
    step c (mk_conf (need c ∪ {[h]}) (it_need c) (iwait c) (td_lock c) (pc c) (scheds c) (runs c) (asked c ++ [h]) (owed c))
| step_spurious c : pc c = I_asleep → step c (set_pc I_woken c).

Definition start : conf := mk_conf ∅ false false None I_test [] [] [] ∅.

(** ** The invariant *)

(** The handlers the current pass will still test. *)
Definition remaining (p : ipc) : list nat :=
  match p with I_handler r | I_call _ r => r | I_seen h r => h :: r | _ => [] end.

(** Being called right now. *)
Definition calling (h : nat) (p : ipc) : Z := if p is I_call h' _ then b2z (bool_decide (h' = h)) else 0.

Definition in_lock (p : ipc) : bool := match p with I_check | I_unlock => true | _ => false end.
Definition sched_in_lock (p : spc) : bool := match p with S_test _ | S_unlock _ => true | _ => false end.

(** On its way to wake the thread. *)
Definition will_signal (p : spc) : bool := match p with S_lock _ | S_test _ => true | _ => false end.

Definition flag (h : nat) (n : gset nat) : Z := b2z (bool_decide (h ∈ n)).

(** How often [h] occurs. *)
Definition times (h : nat) (l : list nat) : Z := count_if (λ x, bool_decide (x = h)) l.

Record inv (c : conf) : Prop := {
  iv_owed : owed c ⊆ need c;
  iv_need : ∀ h, h ∈ need c → h ∈ handlers;
  iv_calls : ∀ i h, scheds c !! i = Some (S_need h) → h ∈ handlers;
  iv_why : ∀ h, h ∈ need c → h ∈ owed c ∨ delays h ∨ ∃ i, scheds c !! i = Some (S_it h);
  iv_pass : ∀ h, h ∈ owed c → it_need c = true ∨ h ∈ remaining (pc c);
  iv_clear : pc c = I_clear → it_need c = true;
  iv_seen : ∀ h r, pc c = I_seen h r → h ∈ need c;
  iv_suffix : ∃ pre, handlers = pre ++ remaining (pc c);
  iv_iwait : pc c = I_asleep → iwait c = true;
  iv_asleep : pc c = I_asleep → it_need c = true → ∃ i p, scheds c !! i = Some p ∧ will_signal p = true;
  iv_lock : td_lock c = Some Ithread ↔ in_lock (pc c) = true;
  iv_sched_lock : ∀ i, td_lock c = Some (Sched i) ↔ ∃ p, scheds c !! i = Some p ∧ sched_in_lock p = true;
  iv_count : ∀ h, times h (runs c) + calling h (pc c) + flag h (need c) <= times h (asked c) }.

Lemma times_app h l l' : times h (l ++ l') = times h l + times h l'.
Proof. unfold times, count_if. rewrite List.filter_app, length_app. lia. Qed.

Lemma times_one h x : times h [x] = b2z (bool_decide (x = h)).
Proof. unfold times, count_if. cbn. by case_bool_decide. Qed.

Lemma flag_diff h x n : flag h (n ∖ {[x]}) = if bool_decide (x = h) then 0 else flag h n.
Proof.
  unfold flag. destruct (decide (x = h)) as [->|Hx].
  - rewrite bool_decide_false by set_solver. by rewrite bool_decide_true.
  - rewrite (bool_decide_false (x = h)) by done. f_equal. apply bool_decide_ext. set_solver.
Qed.

Lemma flag_union h x n : flag h (n ∪ {[x]}) <= flag h n + b2z (bool_decide (x = h)).
Proof. unfold flag. repeat case_bool_decide; cbn; try lia. set_solver. Qed.

Lemma inv_start : inv start.
Proof.
  split; cbn; try done.
  - by exists handlers; rewrite app_nil_r.
  - intros i. split; [done|]. by intros (p & Hp & _).
Qed.

Ltac fields := cbn [need it_need iwait td_lock pc scheds runs asked owed set_pc set_lock remaining calling in_lock] in *.

Lemma suffix_nil : ∃ pre, handlers = pre ++ [].
Proof. exists handlers. by rewrite app_nil_r. Qed.

Lemma suffix_tail (h : nat) r : (∃ pre, handlers = pre ++ h :: r) → ∃ pre, handlers = pre ++ r.
Proof. intros [pre ->]. exists (pre ++ [h]). by rewrite <- app_assoc. Qed.

#[local] Hint Resolve suffix_nil suffix_tail : core.

(** A lock taken, or given up, by the interrupt thread. *)
Lemma lock_taken (sc : list spc) : (∀ i, None = Some (Sched i) ↔ ∃ p, sc !! i = Some p ∧ sched_in_lock p = true) →
  ∀ i, Some Ithread = Some (Sched i) ↔ ∃ p, sc !! i = Some p ∧ sched_in_lock p = true.
Proof. intros H i. rewrite <- H. done. Qed.

Lemma lock_dropped (sc : list spc) : (∀ i, Some Ithread = Some (Sched i) ↔ ∃ p, sc !! i = Some p ∧ sched_in_lock p = true) →
  ∀ i, None = Some (Sched i) ↔ ∃ p, sc !! i = Some p ∧ sched_in_lock p = true.
Proof. intros H i. rewrite <- H. done. Qed.

Lemma inv_ithread c c' : inv c → ithread_step c = Some c' → inv c'.
Proof.
  intros [] Hs. destruct c as [nd itn iw lk p sc rn ak ow]. unfold ithread_step in Hs. fields.
  destruct p as [| |[|h r]|h r|h r| | | | |]; fields.
  - injection Hs as <-. split; fields; try done; by destruct itn.
  - injection Hs as <-. split; fields; try done; [|by exists []].
    intros h Hh. right. apply iv_need0. set_solver.
  - injection Hs as <-. split; fields; try done; eauto 3.
  - injection Hs as <-. destruct (decide (h ∈ nd)) as [Hh|Hh].
    + rewrite bool_decide_true by done. split; fields; try done. by intros ? ? [= <- <-].
    + rewrite bool_decide_false by done. split; fields; try done; eauto 3.
      intros h' Hh'. destruct (iv_pass0 h' Hh') as [|[-> |]%elem_of_cons]; [by left| |by right].
      destruct Hh. set_solver.
  - injection Hs as <-. specialize (iv_seen0 h r eq_refl). split; fields; try done; eauto 3.
    + set_solver.
    + intros h'. specialize (iv_need0 h'). set_solver.
    + intros h' [Hh' Hne]%elem_of_difference. destruct (iv_why0 h' Hh') as [|[|]]; set_solver.
    + intros h' Hh'. destruct (iv_pass0 h' ltac:(set_solver)) as [|[-> |]%elem_of_cons]; [by left| |by right].
      set_solver.
    + intros h'. specialize (iv_count0 h'). rewrite flag_diff.
      destruct (decide (h = h')) as [->|Hne].
      * rewrite !(bool_decide_true (h' = h')) by done. unfold flag in iv_count0.
        rewrite bool_decide_true in iv_count0 by done. cbn in *. lia.
      * rewrite !(bool_decide_false (h = h')) by done. cbn. lia.
  - injection Hs as <-. split; fields; try done; eauto 3.
    intros h'. specialize (iv_count0 h'). rewrite times_app, times_one. lia.
  - destruct lk as [|]; [done|]. injection Hs as <-. split; fields; try done; eauto 3 using lock_taken.
  - assert (lk = Some Ithread) as -> by by apply iv_lock0.
    destruct itn; injection Hs as <-; split; fields; try done; eauto 3 using lock_dropped.
  - done.
  - destruct lk as [|]; [done|]. injection Hs as <-. split; fields; try done; eauto 3 using lock_taken.
  - assert (lk = Some Ithread) as -> by by apply iv_lock0.
    injection Hs as <-. split; fields; try done; eauto 3 using lock_dropped.
Qed.

Lemma calls_insert (sc : list spc) i p :
  (∀ i h, sc !! i = Some (S_need h) → h ∈ handlers) → (∀ h, p ≠ S_need h) →
  ∀ j h, <[i := p]> sc !! j = Some (S_need h) → h ∈ handlers.
Proof.
  intros Hc Hp j h Hj. apply list_lookup_insert_Some in Hj as [(_ & He & _)|[_ Hj]]; [by destruct (Hp h)|by apply (Hc j)].
Qed.

(** Why a flag is set, when a call past the store to [it_need] moves. *)
Lemma why_insert (sc : list spc) i p q (ow : gset nat) h :
  sc !! i = Some p → (∀ h', p ≠ S_it h') →
  h ∈ ow ∨ delays h ∨ (∃ j, sc !! j = Some (S_it h)) →
  h ∈ ow ∨ delays h ∨ ∃ j, <[i := q]> sc !! j = Some (S_it h).
Proof.
  intros Hi Hp [Ho|[Hd|[j Hj]]]; [by left|by right; left|right; right]. exists j.
  rewrite list_lookup_insert_ne; [done|]. intros <-. rewrite Hi in Hj. injection Hj as ->. by destruct (Hp h).
Qed.

Lemma sched_lock_insert (sc : list spc) (lk : option who) i p q :
  (∀ j, lk = Some (Sched j) ↔ ∃ p, sc !! j = Some p ∧ sched_in_lock p = true) →
  sc !! i = Some p → sched_in_lock q = sched_in_lock p →
  ∀ j, lk = Some (Sched j) ↔ ∃ p, <[i := q]> sc !! j = Some p ∧ sched_in_lock p = true.
Proof.
  intros Hl Hi Hq j. rewrite Hl. pose proof (lookup_lt_Some _ _ _ Hi) as Hlt.
  destruct (decide (i = j)) as [<-|Hne].
  - rewrite list_lookup_insert_eq by done. rewrite Hi.
    split; intros (? & [= <-] & ?); eexists; (split; [done|congruence]).
  - by rewrite list_lookup_insert_ne.
Qed.

Lemma sched_lock_take (sc : list spc) i q :
  (∀ j, None = Some (Sched j) ↔ ∃ p, sc !! j = Some p ∧ sched_in_lock p = true) →
  (i < length sc)%nat → sched_in_lock q = true →
  ∀ j, Some (Sched i) = Some (Sched j) ↔ ∃ p, <[i := q]> sc !! j = Some p ∧ sched_in_lock p = true.
Proof.
  intros Hl Hlt Hq j. destruct (decide (i = j)) as [<-|Hne].
  - rewrite list_lookup_insert_eq by done. split; [|done]. intros _. by exists q.
  - rewrite list_lookup_insert_ne by done. rewrite <- Hl. split; [congruence|done].
Qed.

Lemma sched_lock_drop (sc : list spc) i q :
  (∀ j, Some (Sched i) = Some (Sched j) ↔ ∃ p, sc !! j = Some p ∧ sched_in_lock p = true) →
  (i < length sc)%nat → sched_in_lock q = false →
  ∀ j, None = Some (Sched j) ↔ ∃ p, <[i := q]> sc !! j = Some p ∧ sched_in_lock p = true.
Proof.
  intros Hl Hlt Hq j. split; [done|]. destruct (decide (i = j)) as [<-|Hne].
  - rewrite list_lookup_insert_eq by done. intros (? & [= <-] & ?). congruence.
  - rewrite list_lookup_insert_ne by done. rewrite <- Hl. congruence.
Qed.

(** A call that is not on its way to a signal moves. *)
Lemma asleep_insert (sc : list spc) i p q :
  sc !! i = Some p → will_signal p = false →
  (∃ j p, sc !! j = Some p ∧ will_signal p = true) → ∃ j p, <[i := q]> sc !! j = Some p ∧ will_signal p = true.
Proof.
  intros Hi Hp (j & p' & Hj & Hs). exists j, p'. split; [|done].
  rewrite list_lookup_insert_ne; [done|]. intros <-. congruence.
Qed.

(** It gets there. *)
Lemma asleep_new (sc : list spc) i p q :
  sc !! i = Some p → will_signal q = true → ∃ j p, <[i := q]> sc !! j = Some p ∧ will_signal p = true.
Proof. intros Hi Hq. exists i, q. split; [|done]. apply list_lookup_insert_eq. by eapply lookup_lt_Some. Qed.

Definition waked (iw : bool) (p : ipc) : ipc := if iw then signalled p else p.

Lemma waked_remaining iw p : remaining (waked iw p) = remaining p.
Proof. by destruct iw, p. Qed.
Lemma waked_calling h iw p : calling h (waked iw p) = calling h p.
Proof. by destruct iw, p. Qed.
Lemma waked_in_lock iw p : in_lock (waked iw p) = in_lock p.
Proof. by destruct iw, p. Qed.
Lemma waked_same iw p q : waked iw p = q → q ≠ I_woken → q ≠ I_asleep → p = q.
Proof. destruct iw, p; cbn; congruence. Qed.

Lemma inv_sched c i c' : inv c → sched_step i c = Some c' → inv c'.
Proof.
  intros [] Hs. destruct c as [nd itn iw lk p sc rn ak ow]. unfold sched_step in Hs. fields.
  destruct (sc !! i) as [[h|h|h|h|h|]|] eqn:Hi; try done; pose proof (lookup_lt_Some _ _ _ Hi) as Hlt.
  - injection Hs as <-. split; fields; try done.
    + set_solver.
    + intros h' [Hh| ->%elem_of_singleton]%elem_of_union; [by apply iv_need0|by apply (iv_calls0 i)].
    + by apply calls_insert.
    + intros h' [Hh| ->%elem_of_singleton]%elem_of_union; [by eapply why_insert; [done|done|apply iv_why0]|].
      right; right. exists i. by apply list_lookup_insert_eq.
    + intros h' r Hp. specialize (iv_seen0 h' r Hp). set_solver.
    + intros Ha Hn. eapply asleep_insert; [done|done|auto].
    + by eapply sched_lock_insert.
    + intros h'. specialize (iv_count0 h'). rewrite times_app, times_one. pose proof (flag_union h' h nd). lia.
  - injection Hs as <-. split; fields; try done.
    + set_solver.
    + by apply calls_insert.
    + intros h' Hh. destruct (iv_why0 h' Hh) as [Ho|[Hd|[j Hj]]]; [left; set_solver|by right; left|].
      destruct (decide (i = j)) as [<-|Hne].
      * left. rewrite Hi in Hj. injection Hj as ->. set_solver.
      * right; right. exists j. by rewrite list_lookup_insert_ne.
    + by left.
    + intros _ _. by eapply asleep_new.
    + by eapply sched_lock_insert.
  - destruct lk; [done|]. injection Hs as <-. split; fields; try done.
    + by apply calls_insert.
    + intros h' Hh. by eapply why_insert; [done|done|apply iv_why0].
    + intros _ _. by eapply asleep_new.
    + rewrite <- iv_lock0. done.
    + by eapply sched_lock_take.
  - injection Hs as <-. change (if iw then signalled p else p) with (waked iw p).
    split; fields; rewrite ?waked_remaining, ?waked_in_lock; try done.
    + by apply calls_insert.
    + intros h' Hh. by eapply why_insert; [done|done|apply iv_why0].
    + intros Hp. apply iv_clear0. by apply (waked_same iw).
    + intros h' r Hp. apply (iv_seen0 h' r). by apply (waked_same iw).
    + intros Hp. destruct iw; [by destruct p|]. by apply iv_iwait0.
    + intros Hp. destruct iw; [by destruct p|]. by specialize (iv_iwait0 Hp).
    + by eapply sched_lock_insert.
    + intros h'. rewrite waked_calling. apply iv_count0.
  - assert (lk = Some (Sched i)) as -> by (apply iv_sched_lock0; by eexists).
    injection Hs as <-. split; fields; try done.
    + by apply calls_insert.
    + intros h' Hh. by eapply why_insert; [done|done|apply iv_why0].
    + intros Ha Hn. eapply asleep_insert; [done|done|auto].
    + rewrite <- iv_lock0. done.
    + by eapply sched_lock_drop.
Qed.

Lemma ithread_inv_step c c' : inv c → step c c' → inv c'.
Proof.
  intros Hi Hs. destruct Hs as [c c' Hs|c i c' Hs|c h Hh|c h Hh Hdl|c Hp].
  - by eapply inv_ithread.
  - by eapply inv_sched.
  - destruct Hi. split; fields; try done.
    + intros i h' Hl. apply lookup_snoc_Some in Hl as [[_ Hl]|[_ [= <-]]]; [by apply (iv_calls0 i)|done].
    + intros h' Hh'. destruct (iv_why0 h' Hh') as [|[|[j Hj]]]; [by left|by right; left|right; right].
      exists j. by apply lookup_app_l_Some.
    + intros Ha Hn. destruct (iv_asleep0 Ha Hn) as (i & p & Hp & Hw). exists i, p. split; [|done]. by apply lookup_app_l_Some.
    + intros i. rewrite iv_sched_lock0. split; intros (p & Hp & Hl); exists p; (split; [|done]).
      * by apply lookup_app_l_Some.
      * apply lookup_snoc_Some in Hp as [[_ Hp]|[_ <-]]; [done|done].
  - destruct Hi. split; fields; try done.
    + set_solver.
    + intros h' [Hh'| ->%elem_of_singleton]%elem_of_union; [by apply iv_need0|done].
    + intros h' [Hh'| ->%elem_of_singleton]%elem_of_union; [by apply iv_why0|by right; left].
    + intros h' r Hp. specialize (iv_seen0 h' r Hp). set_solver.
    + intros h'. specialize (iv_count0 h'). rewrite times_app, times_one. pose proof (flag_union h' h (need c)). lia.
  - destruct Hi. rewrite Hp in *. split; fields; rewrite ?Hp in *; try done.
Qed.

Lemma ithread_inv_reachable c : rtc step start c → inv c.
Proof. revert c. apply (rtc_ind_r inv); [apply inv_start|intros c c' _ Hs Hi; by eapply ithread_inv_step]. Qed.

(** ** Progress *)

(** The interrupt thread alone, [n] times. *)
Fixpoint ithread_run (n : nat) (c : conf) : option conf :=
  match n with O => Some c | S n => ithread_step c ≫= ithread_run n end.

Definition quiet (c : conf) : Prop := ∀ i p, scheds c !! i = Some p → p = S_done.

(** How far the thread is from the end of the pass that calls [h]. *)
Definition pass : Z := 3 * Z.of_nat (length handlers) + 3.
Definition extra (h : nat) (p : ipc) : Z := if bool_decide (h ∈ remaining p) then 0 else pass.
Definition distance (h : nat) (p : ipc) : Z :=
  match p with
  | I_test => pass
  | I_clear => pass - 1
  | I_handler r => 3 * Z.of_nat (length r) + 1 + extra h p
  | I_seen _ r => 3 * Z.of_nat (length r) + 3 + extra h p
  | I_call h' r => 3 * Z.of_nat (length r) + 2 + (if bool_decide (h' = h) then 0 else extra h p)
  | I_lock => pass + 3
  | I_check => pass + 2
  | I_asleep => 0
  | I_woken => pass + 2
  | I_unlock => pass + 1
  end.

(** A call of [h] is outstanding. *)
Definition due (h : nat) (c : conf) : Prop := h ∈ owed c ∨ ∃ r, pc c = I_call h r.

Lemma remaining_length c : inv c → (length (remaining (pc c)) <= length handlers)%nat.
Proof. intros Hi. destruct (iv_suffix _ Hi) as [pre ->]. rewrite length_app. lia. Qed.

Lemma quiet_lock c : inv c → quiet c → in_lock (pc c) = false → td_lock c = None.
Proof.
  intros Hi Hq Hl. destruct (td_lock c) as [[|i]|] eqn:E; [| |done].
  - apply (iv_lock _ Hi) in E. congruence.
  - apply (iv_sched_lock _ Hi) in E as (p & Hp & Hs). by rewrite (Hq _ _ Hp) in Hs.
Qed.

Lemma quiet_awake c h : inv c → quiet c → due h c → pc c ≠ I_asleep.
Proof.
  intros Hi Hq [Ho|[r Hr]] Ha; [|congruence].
  destruct (iv_pass _ Hi h Ho) as [Hn|Hr]; [|by rewrite Ha in Hr; apply not_elem_of_nil in Hr].
  destruct (iv_asleep _ Hi Ha Hn) as (i & p & Hp & Hw). by rewrite (Hq _ _ Hp) in Hw.
Qed.

Lemma extra_cons h a r (p q : ipc) :
  remaining p = a :: r → remaining q = r → a ≠ h → extra h q = extra h p.
Proof.
  intros Hp Hq Hne. unfold extra. rewrite Hp, Hq.
  rewrite (bool_decide_ext (h ∈ a :: r) (h ∈ r)); [done|]. rewrite elem_of_cons. naive_solver.
Qed.

Lemma extra_nil h p : remaining p = [] → extra h p = pass.
Proof. intros Hp. unfold extra. by rewrite Hp. Qed.

(** One step brings the call closer, or is the call. *)
Lemma ithread_closer c h :
  inv c → quiet c → due h c →
  ∃ c', ithread_step c = Some c' ∧ quiet c' ∧
    ((∃ r, pc c = I_call h r ∧ runs c' = runs c ++ [h])
     ∨ (due h c' ∧ distance h (pc c') < distance h (pc c) ∧ ∃ l, runs c' = runs c ++ l)).
Proof.
  intros Hi Hq Hd. pose proof (quiet_awake c h Hi Hq Hd) as Haw.
  pose proof (quiet_lock c Hi Hq) as Hlock.
  pose proof (iv_owed _ Hi) as Hon. pose proof (iv_need _ Hi) as Hnh. pose proof (iv_pass _ Hi h) as Hpass. clear Hi.
  destruct c as [nd itn iw lk p sc rn ak ow]. unfold due in Hd. fields.
  assert (Hsame : ∃ l, rn = rn ++ l) by (exists []; by rewrite app_nil_r).
  destruct p as [| |[|a r]|a r|a r| | | | |]; unfold ithread_step; fields;
    try (assert (Ho : h ∈ ow) by (destruct Hd as [|[? ?]]; [done|congruence]);
         specialize (Hpass Ho));
    try (assert (itn = true) as -> by (destruct Hpass as [|Hin]; [done|by apply not_elem_of_nil in Hin]));
    try rewrite (Hlock eq_refl).
  - eexists. split; [done|]. split; [done|]. right. fields. split_and!; [by left|cbn; lia|done].
  - eexists. split; [done|]. split; [done|]. right. fields. split_and!; [by left| |done].
    cbn. unfold extra, pass. cbn. rewrite bool_decide_true by auto. lia.
  - eexists. split; [done|]. split; [done|]. right. fields. split_and!; [by left| |done].
    cbn [distance]. rewrite extra_nil by done. cbn. lia.
  - eexists. split; [done|]. split; [done|]. right. fields. split_and!; [by left| |done].
    destruct (decide (a ∈ nd)) as [Ha|Ha].
    + rewrite bool_decide_true by done. cbn [distance length]. unfold extra. cbn [remaining]. lia.
    + rewrite bool_decide_false by done. cbn [distance length].
      rewrite (extra_cons h a r (I_handler (a :: r)) (I_handler r)) by (done || set_solver). lia.
  - eexists. split; [done|]. split; [done|]. right. fields. destruct (decide (a = h)) as [->|Hne].
    + split_and!; [right; by eexists| |done]. cbn [distance]. rewrite bool_decide_true by done.
      unfold extra. cbn [remaining]. rewrite bool_decide_true by apply list_elem_of_here. lia.
    + split_and!; [left; cbn; set_solver| |done]. cbn [distance]. rewrite bool_decide_false by done.
      rewrite (extra_cons h a r (I_seen a r) (I_call a r)) by done. lia.
  - eexists. split; [done|]. split; [done|]. fields. destruct (decide (a = h)) as [->|Hne].
    + left. by exists r.
    + right. split_and!; [left; destruct Hd as [|[? ?]]; [done|congruence]| |by eexists].
      cbn [distance]. rewrite bool_decide_false by done. unfold extra. cbn [remaining]. lia.
  - eexists. split; [done|]. split; [done|]. right. fields. split_and!; [by left|cbn; lia|done].
  - eexists. split; [done|]. split; [done|]. right. fields. split_and!; [by left|cbn; lia|done].
  - done.
  - eexists. split; [done|]. split; [done|]. right. fields. split_and!; [by left|cbn; lia|done].
  - eexists. split; [done|]. split; [done|]. right. fields. split_and!; [by left|cbn; lia|done].
Qed.

Lemma distance_pos h p : p ≠ I_asleep → 0 < distance h p.
Proof.
  intros Hp. destruct p; cbn; try done; unfold extra, pass; repeat case_bool_decide; lia.
Qed.

Lemma distance_bound c h : inv c → distance h (pc c) <= 6 * Z.of_nat (length handlers) + 6.
Proof.
  intros Hi. pose proof (remaining_length c Hi) as Hl.
  destruct (pc c) as [| |r|a r|a r| | | | |]; cbn in *; unfold extra, pass; repeat case_bool_decide; lia.
Qed.

(** The call is made within that many steps. *)
Lemma ithread_calls n c h :
  inv c → quiet c → due h c → distance h (pc c) <= Z.of_nat n →
  ∃ m c' l, (m <= n)%nat ∧ ithread_run m c = Some c' ∧ runs c' = runs c ++ l ∧ h ∈ l.
Proof.
  revert c. induction n as [|n IH]; intros c Hi Hq Hd Hn.
  { pose proof (distance_pos h (pc c) (quiet_awake c h Hi Hq Hd)). lia. }
  destruct (ithread_closer c h Hi Hq Hd) as (c1 & Hs & Hq1 & [(r & Hr & Hl)|(Hd1 & Hlt & l & Hl)]).
  - exists 1%nat, c1, [h]. split_and!; [lia| |done|apply list_elem_of_here]. cbn. by rewrite Hs.
  - destruct (IH c1) as (m & c' & l' & Hm & Hrun & Hl' & Hin); [by eapply inv_ithread|done|done|lia|].
    exists (S m), c', (l ++ l'). split_and!; [lia| | |set_solver].
    + cbn. by rewrite Hs.
    + by rewrite Hl', Hl, app_assoc.
Qed.

(** A schedule: whose turn it is. *)
Inductive turn : Type := T_ithread | T_sched (i : nat) | T_call (h : nat).

Definition take_turn (t : turn) (c : conf) : option conf :=
  match t with
  | T_ithread => ithread_step c
  | T_sched i => sched_step i c
  | T_call h =>
      if bool_decide (h ∈ handlers) then
        Some (mk_conf (need c) (it_need c) (iwait c) (td_lock c) (pc c) (scheds c ++ [S_need h]) (runs c) (asked c) (owed c))
      else None
  end.

Fixpoint play (ts : list turn) (c : conf) : option conf :=
  match ts with [] => Some c | t :: ts => take_turn t c ≫= play ts end.

Lemma play_steps ts c c' : play ts c = Some c' → rtc step c c'.
Proof.
  revert c. induction ts as [|t ts IH]; intros c; cbn; [intros [= ->]; apply rtc_refl|].
  destruct (take_turn t c) as [c1|] eqn:E; [|done]. intros Hp. apply rtc_l with c1; [|by apply IH].
  destruct t as [|i|h]; cbn in E; [by apply step_ithread|by apply (step_sched _ i)|].
  case_bool_decide; [|done]. injection E as <-. by apply step_call.
Qed.

(** With a full barrier at the store that clears [it_need], no software interrupt is lost,
    in any interleaving: no handler is called more often
    than it was asked for; a call of [swi_sched] that has not returned can take a step, or
    the thread that holds the lock can; and once all calls have returned, every handler
    whose flag is set and that is not asked for with a delay is called by the interrupt
    thread within a bounded number of its own steps. *)
Theorem swi_not_lost c :
  rtc step start c →
  (∀ h, times h (runs c) <= times h (asked c))
  ∧ (∀ i p, scheds c !! i = Some p → p ≠ S_done →
       is_Some (sched_step i c) ∨ (td_lock c = Some Ithread ∧ is_Some (ithread_step c))
       ∨ ∃ j, td_lock c = Some (Sched j) ∧ is_Some (sched_step j c))
  ∧ (quiet c → ∀ h, h ∈ need c → ¬ delays h →
       ∃ m c' l, (m <= 6 * length handlers + 6)%nat ∧ ithread_run m c = Some c' ∧ runs c' = runs c ++ l ∧ h ∈ l).
Proof.
  intros Hi%ithread_inv_reachable. split; [|split].
  - intros h. pose proof (iv_count _ Hi h). assert (0 <= calling h (pc c)).
    { destruct (pc c); cbn; try lia. case_bool_decide; cbn; lia. }
    assert (0 <= flag h (need c)) by (unfold flag; case_bool_decide; cbn; lia). lia.
  - intros i p Hp Hnd. unfold sched_step at 1. rewrite Hp. destruct p; eauto; [|done].
    destruct (td_lock c) as [[|j]|] eqn:El; [right; left|right; right|eauto].
    + split; [done|]. apply (iv_lock _ Hi) in El. unfold ithread_step. destruct (pc c); try done; destruct (it_need c); eauto.
    + exists j. split; [done|]. apply (iv_sched_lock _ Hi) in El as (q & Hq & Hl). unfold sched_step.
      rewrite Hq. destruct q; try done; eauto.
  - intros Hq h Hn Hnd. assert (h ∈ owed c) as Ho.
    { destruct (iv_why _ Hi h Hn) as [|[|[i Hs]]]; [done|done|]. by apply Hq in Hs. }
    apply (ithread_calls _ c h Hi Hq (or_introl Ho)). pose proof (distance_bound c h Hi). lia.
Qed.

End Event.

(** Two handlers; the second is scheduled while the thread is about to sleep. *)
Definition sleepy : conf :=
  mk_conf {[7%nat]} true false None I_woken [S_done] [] [7%nat] {[7%nat]}.

Lemma swi_not_lost_witness :
  (∃ m c' l, (m <= 6 * 2 + 6)%nat ∧ ithread_run [5%nat; 7%nat] m sleepy = Some c' ∧ runs c' = runs sleepy ++ l ∧ 7%nat ∈ l)
  ∧ (runs <$> ithread_run [5%nat; 7%nat] 8 sleepy) = Some [7%nat].
Proof.
  split; [|vm_compute; reflexivity].
  refine (proj2 (proj2 (swi_not_lost [5%nat; 7%nat] (λ _, False) sleepy _)) _ 7%nat _ _).
  - apply (play_steps _ _ [T_ithread; T_ithread; T_ithread; T_call 7; T_sched 0; T_sched 0; T_sched 0; T_sched 0; T_sched 0]).
    vm_compute. reflexivity.
  - intros [|i] p [= <-]. done.
  - set_solver.
  - by intros [].
Defined.

(** ** The store buffer *)

(** The configuration, and whether the store that clears [it_need] is still in the buffer of the
    processor of the interrupt thread, whose own loads see it; [thread_lock] drains it. *)
Definition buffered_step (handlers : list nat) (x : conf * bool) : option (conf * bool) :=
  let '(c, buf) := x in
  match pc c with
  | I_clear => Some (set_pc (I_handler handlers) c, true)
  | I_test => Some (set_pc (if it_need c && negb buf then I_clear else I_lock) c, buf)
  | I_lock => if buf then None else (., buf) <$> ithread_step handlers c
  | _ => (., buf) <$> ithread_step handlers c
  end.

(** The buffered store reaches the memory. *)
Definition drain (x : conf * bool) : option (conf * bool) :=
  let '(c, buf) := x in
  if buf then Some (mk_conf (need c) false (iwait c) (td_lock c) (pc c) (scheds c) (runs c) (asked c) (owed c), false) else None.

Inductive buffered_turn : Type := B_ithread | B_drain | B_other (t : turn).

Definition take_buffered (handlers : list nat) (t : buffered_turn) (x : conf * bool) : option (conf * bool) :=
  match t with
  | B_ithread => buffered_step handlers x
  | B_drain => drain x
  | B_other t => (., x.2) <$> take_turn handlers t x.1
  end.

Fixpoint play_buffered (handlers : list nat) (ts : list buffered_turn) (x : conf * bool) : option (conf * bool) :=
  match ts with [] => Some x | t :: ts => take_buffered handlers t x ≫= play_buffered handlers ts end.

Definition ex_lost : list buffered_turn :=
  (B_other <$> [T_call 7; T_sched 0; T_sched 0; T_sched 0; T_sched 0; T_sched 0]) ++
  [B_ithread; B_ithread; B_ithread; B_ithread; B_ithread; B_ithread] ++
  (B_other <$> [T_call 5; T_sched 1; T_sched 1; T_sched 1; T_sched 1; T_sched 1]) ++
  [B_ithread; B_drain; B_ithread; B_ithread; B_ithread].

(** The second request is lost: both calls of [swi_sched] have returned, the flag of
    handler 5 is set, and the interrupt thread is asleep. *)
Lemma swi_lost_store_buffer :
  (λ x, (elements (need x.1), it_need x.1, pc x.1, scheds x.1, runs x.1)) <$> play_buffered [5%nat; 7%nat] ex_lost (start, false) =
  Some ([5%nat], false, I_asleep, [S_done; S_done], [7%nat]).
Proof. vm_compute. reflexivity. Qed.

End IntrConc.
