(* ===== verification/InetText.v ===== *)
(** Text of internet addresses: [inet_pton], [inet_ntop] and [inet_ntoa_r]
    (src/src/sys/libkern) as libuinet offers them ([uinet_inet_pton], [uinet_inet_ntop]
    and [uinet_inet_ntoa] of src/src/lib/libuinet/uinet_api.c).  Addresses are lists of
    bytes, texts lists of characters without the terminator. *)
From S2P Require Import Prelude Printf.

Module InetText.

Import Printf.

Definition AF_INET : Z := 2.
Definition AF_INET6 : Z := 28.
Definition NS_INADDRSZ : nat := 4.
Definition NS_IN6ADDRSZ : nat := 16.

(** [strchr(s, ch) - s], or nothing. *)
Fixpoint strchr (s : str) (ch : Z) : option Z :=
  match s with
  | [] => None
  | c :: s => if c =? ch then Some 0 else Z.succ <$> strchr s ch
  end.

Definition digits : str := lit "0123456789".
Definition xdigits_l : str := lit "0123456789abcdef".
Definition xdigits_u : str := lit "0123456789ABCDEF".

(** ** Internet addresses *)

(** The loop of [inet_pton4]: [prev] are the bytes of [tmp] before [tp], [cur] is the byte
    at [tp]. *)
Fixpoint pton4_loop (src : str) (saw_digit : bool) (octets : Z) (prev : list Z) (cur : Z) : option (list Z) :=
  match src with
  | [] => if octets <? 4 then None else Some (prev ++ [cur])
  | ch :: src =>
      match strchr digits ch with
      | Some d =>
          let new := u32 (cur * 10 + d) in
          if saw_digit && (cur =? 0) then None
          else if 255 <? new then None
          else if negb saw_digit then
            if 4 <? octets + 1 then None else pton4_loop src true (octets + 1) prev new
          else pton4_loop src saw_digit octets prev new
      | None =>
          if (ch =? 46) && saw_digit then
            if octets =? 4 then None else pton4_loop src false octets (prev ++ [cur]) 0
          else None
      end
  end.

(** The address, or [None] for the result 0. *)
Definition inet_pton4 (src : str) : option (list Z) := pton4_loop src false 0 [] 0.

(** The text, or [None] for a null pointer. *)
Definition inet_ntop4 (src : list Z) (size : Z) : result (option str) :=
  match src with
  | [a; b; c; d] =>
      '(l, tmp) ← snprintf 16 (Some (lit "%u.%u.%u.%u")) [AInt a; AInt b; AInt c; AInt d];
      if (l <=? 0) || (size <=? u32 l) then Ok None
      else Ok (Some (take (Z.to_nat (size - 1)) (removelast tmp)))
  | _ => Fault OutOfBounds
  end.

(** Into a buffer of [room] bytes, which the function does not know. *)
Definition inet_ntoa_r (ina : list Z) (room : Z) : result str :=
  match ina with
  | [a; b; c; d] =>
      '(_, buf) ← sprintf (Some (lit "%d.%d.%d.%d"))
        [AInt (Z.land a 255); AInt (Z.land b 255); AInt (Z.land c 255); AInt (Z.land d 255)];
      if room <? Z.of_nat (length buf) then Fault Overflow else Ok (removelast buf)
  | _ => Fault OutOfBounds
  end.

(** ** Internet version 6 addresses *)

Definition xdigit (ch : Z) : option Z :=
  match strchr xdigits_l ch with Some d => Some d | None => strchr xdigits_u ch end.

(** A word as it is stored at [tp]. *)
Definition word_bytes (val : Z) : list Z := [Z.land (u8 (Z.shiftr val 8)) 255; Z.land (u8 val) 255].

Definition has_room (out : list Z) (n : nat) : bool := bool_decide (length out + n <= NS_IN6ADDRSZ)%nat.

(** The loop of [inet_pton6]: [out] are the bytes of [tmp] before [tp], [colonp] the place
    of the double colon.  The result is [out], [colonp], [seen_xdigits] and [val]. *)
Fixpoint pton6_loop (src curtok : str) (seen_xdigits val : Z) (out : list Z) (colonp : option nat) :
    option (list Z * option nat * Z * Z) :=
  match src with
  | [] => Some (out, colonp, seen_xdigits, val)
  | ch :: src =>
      match xdigit ch with
      | Some d =>
          let val := Z.lor (u32 (Z.shiftl val 4)) d in
          if 4 <? seen_xdigits + 1 then None
          else pton6_loop src curtok (seen_xdigits + 1) val out colonp
      | None =>
          if ch =? 58 then
            if seen_xdigits =? 0 then
              match colonp with
              | Some _ => None
              | None => pton6_loop src src seen_xdigits val out (Some (length out))
              end
            else if bool_decide (src = []) then None
            else if negb (has_room out 2) then None
            else pton6_loop src src 0 0 (out ++ word_bytes val) colonp
          else if (ch =? 46) && has_room out NS_INADDRSZ then
            match inet_pton4 curtok with
            | Some b => Some (out ++ b, colonp, 0, val)
            | None => None
            end
          else None
      end
  end.

(** The bytes after the double colon move to the end of [tmp], from the last one on:
    [i] runs from [n - k + 1] to [n]. *)
Fixpoint shift_loop (k : nat) (n colonp : nat) (tmp : list Z) : list Z :=
  match k with
  | O => tmp
  | S k' =>
      let i := (n - k')%nat in
      let tmp := <[(NS_IN6ADDRSZ - i)%nat := default 0 (tmp !! (colonp + n - i)%nat)]> tmp in
      let tmp := <[(colonp + n - i)%nat := 0]> tmp in
      shift_loop k' n colonp tmp
  end.

Definition inet_pton6 (src : str) : option (list Z) :=
  src ← (match src with
         | 58 :: src => match src with 58 :: _ => Some src | _ => None end
         | _ => Some src
         end);
  '(out, colonp, seen_xdigits, val) ← pton6_loop src src 0 0 [] None;
  out ← (if seen_xdigits =? 0 then Some out
         else if negb (has_room out 2) then None else Some (out ++ word_bytes val));
  match colonp with
  | Some c =>
      let n := (length out - c)%nat in
      if bool_decide (length out = NS_IN6ADDRSZ) then None
      else Some (shift_loop n n c (out ++ replicate (NS_IN6ADDRSZ - length out) 0))
  | None => if bool_decide (length out = NS_IN6ADDRSZ) then Some out else None
  end.

(** The bytes of an address as words. *)
Fixpoint words_of (src : list Z) : list Z :=
  match src with a :: b :: src => Z.lor (Z.shiftl a 8) b :: words_of src | _ => [] end.

(** A run of zero words: where it starts, [-1] for none, and how long it is. *)
Record zrun : Type := mk_run { base : Z; len : Z }.

Definition better (best cur : zrun) : zrun :=
  if (base best =? -1) || (len best <? len cur) then cur else best.

(** The loop over the words from [i] on. *)
Fixpoint find_best (words : list Z) (i : Z) (best cur : zrun) : zrun :=
  match words with
  | [] => if negb (base cur =? -1) then better best cur else best
  | w :: words =>
      if w =? 0 then
        find_best words (i + 1) best (if base cur =? -1 then mk_run i 1 else mk_run (base cur) (len cur + 1))
      else if negb (base cur =? -1) then find_best words (i + 1) (better best cur) (mk_run (-1) (len cur))
      else find_best words (i + 1) best cur
  end.

Definition best_run (words : list Z) : zrun :=
  let best := find_best words 0 (mk_run (-1) 0) (mk_run (-1) 0) in
  if negb (base best =? -1) && (len best <? 2) then mk_run (-1) (len best) else best.

Definition in_run (best : zrun) (i : Z) : bool :=
  negb (base best =? -1) && (base best <=? i) && (i <? base best + len best).

(** An Internet address in the last words. *)
Definition encapsulated (best : zrun) (words : list Z) : bool :=
  (base best =? 0) &&
  ((len best =? 6) || ((len best =? 7) && negb (default 0 (words !! 7%nat) =? 1))
   || ((len best =? 5) && (default 0 (words !! 5%nat) =? 0xffff))).

Definition TMP6 : Z := 46.

(** The loop that writes the words [ws] from [i] on after [tp]; [None] where [inet_ntop4]
    has no room. *)
Fixpoint format6 (ws : list Z) (i : Z) (src words : list Z) (best : zrun) (tp : str) : result (option str) :=
  match ws with
  | [] => Ok (Some tp)
  | w :: ws =>
      if in_run best i then
        format6 ws (i + 1) src words best (if i =? base best then tp ++ [58] else tp)
      else
        let tp := if negb (i =? 0) then tp ++ [58] else tp in
        if (i =? 6) && encapsulated best words then
          o ← inet_ntop4 (drop 12 src) (TMP6 - Z.of_nat (length tp));
          match o with None => Ok None | Some t => Ok (Some (tp ++ t)) end
        else
          '(_, t) ← sprintf (Some (lit "%x")) [AInt w];
          format6 ws (i + 1) src words best (tp ++ removelast t)
  end.

Definition inet_ntop6 (src : list Z) (size : Z) : result (option str) :=
  let words := words_of src in
  let best := best_run words in
  o ← format6 words 0 src words best [];
  match o with
  | None => Ok None
  | Some tp =>
      let tp := if negb (base best =? -1) && (base best + len best =? 8) then tp ++ [58] else tp in
      if size <? Z.of_nat (length tp) + 1 then Ok None else Ok (Some tp)
  end.

(** ** The calls of the library *)

Inductive pton_result : Type := Valid (addr : list Z) | Invalid | BadFamily.

Definition inet_pton (af : Z) (src : str) : pton_result :=
  if af =? AF_INET then match inet_pton4 src with Some a => Valid a | None => Invalid end
  else if af =? AF_INET6 then match inet_pton6 src with Some a => Valid a | None => Invalid end
  else BadFamily.

Definition inet_ntop (af : Z) (src : list Z) (size : Z) : result (option str) :=
  if af =? AF_INET then inet_ntop4 src size
  else if af =? AF_INET6 then inet_ntop6 src size
  else Ok None.

Definition uinet_inet_pton (af : Z) (src : str) : pton_result := inet_pton af src.
Definition uinet_inet_ntop (af : Z) (src : list Z) (size : Z) : result (option str) := inet_ntop af src size.

(** The size of the buffer is ignored. *)
Definition uinet_inet_ntoa (ina : list Z) (size : Z) : result str := inet_ntoa_r ina size.

End InetText.
