(* ===== verification/InetTextSpec.v ===== *)
(** Correctness of the texts of internet addresses (InetText.v): [inet_pton] accepts
    exactly the dotted quads without leading zeros, and reads back every text that
    [inet_ntop] writes, of both versions. *)
From S2P Require Import Prelude Printf PrintfSpec InetText.

Module InetTextSpec.

Import Printf PrintfSpec InetText.

(** ** Dotted quads *)

Definition is_byte (b : Z) : Prop := 0 <= b < 256.

(** A byte in decimal. *)
Definition dec (b : Z) : str :=
  if b <? 10 then [48 + b]
  else if b <? 100 then [48 + b / 10; 48 + b mod 10]
  else [48 + b / 100; 48 + (b / 10) mod 10; 48 + b mod 10].

Definition dotted (bs : list Z) : str :=
  match bs with
  | [a; b; c; d] => dec a ++ 46 :: dec b ++ 46 :: dec c ++ 46 :: dec d
  | _ => []
  end.

Lemma strchr_digits_Some ch d : strchr digits ch = Some d → ch = 48 + d ∧ 0 <= d < 10.
Proof.
  change digits with [48; 49; 50; 51; 52; 53; 54; 55; 56; 57]. cbn [strchr].
  repeat match goal with |- context [?a =? ch] => destruct (Z.eqb_spec a ch) end;
    cbn; intros [= <-]; lia.
Qed.

Lemma strchr_digits d : 0 <= d < 10 → strchr digits (48 + d) = Some d.
Proof.
  intros Hd. assert (d ∈ seqZ 0 10) as Hin by (apply elem_of_seqZ; lia). revert d Hd Hin.
  assert (Forall (λ d, strchr digits (48 + d) = Some d) (seqZ 0 10)) as H by (repeat constructor).
  intros d _ Hin. rewrite Forall_forall in H. by apply H.
Qed.

Lemma dec_digit d : 0 <= d < 10 → dec d = [48 + d].
Proof. intros Hd. unfold dec. by rewrite (proj2 (Z.ltb_lt _ _)) by lia. Qed.

Lemma dec_snoc c d : 1 <= c → 0 <= d < 10 → c * 10 + d <= 255 → dec (c * 10 + d) = dec c ++ [48 + d].
Proof.
  intros Hc Hd Hle. assert (c = (c * 10 + d) / 10) as E1 by (apply (Z.div_unique_pos _ _ _ d); lia).
  assert (d = (c * 10 + d) mod 10) as E2 by (apply (Z.mod_unique_pos _ _ c); lia).
  unfold dec. rewrite (proj2 (Z.ltb_ge _ _)) by lia.
  destruct (Z.ltb_spec (c * 10 + d) 100), (Z.ltb_spec c 10); try lia.
  - cbn. by rewrite <- E1, <- E2.
  - rewrite (proj2 (Z.ltb_lt c 100)) by lia. cbn. rewrite <- E1, <- E2.
    replace ((c * 10 + d) / 100) with (c / 10); [done|]. rewrite E1 at 1. rewrite Z.div_div by lia. done.
Qed.

(** What has been read in a state of the loop. *)
Definition consumed (saw : bool) (prev : list Z) (cur : Z) : str :=
  concat ((λ b, dec b ++ [46]) <$> prev) ++ (if saw then dec cur else []).

Record p4_ok (saw : bool) (octets : Z) (prev : list Z) (cur : Z) : Prop := {
  p4_octets : octets = Z.of_nat (length prev) + b2z saw;
  p4_prev : (length prev <= 3)%nat;
  p4_bytes : Forall is_byte prev;
  p4_cur : is_byte cur;
  p4_zero : saw = false → cur = 0 }.

Lemma p4_start : p4_ok false 0 [] 0.
Proof. split; cbn; try done; unfold is_byte; lia. Qed.

Lemma consumed_dot prev cur : consumed false (prev ++ [cur]) 0 = consumed true prev cur ++ [46].
Proof.
  unfold consumed. rewrite fmap_app, concat_app. cbn. by rewrite !app_nil_r, app_assoc.
Qed.

Lemma dotted_consumed prev cur :
  length prev = 3%nat → dotted (prev ++ [cur]) = consumed true prev cur.
Proof.
  destruct prev as [|a [|b [|c [|]]]]; try done. intros _. unfold consumed. cbn [dotted app fmap list_fmap concat].
  by rewrite app_nil_r, <- !app_assoc.
Qed.

(** Everything that is accepted is a dotted quad in its shortest form. *)
Lemma pton4_loop_sound src saw octets prev cur bs :
  p4_ok saw octets prev cur → pton4_loop src saw octets prev cur = Some bs →
  consumed saw prev cur ++ src = dotted bs ∧ length bs = 4%nat ∧ Forall is_byte bs.
Proof.
  revert saw octets prev cur. induction src as [|ch src IH]; intros saw octets prev cur Hok; cbn [pton4_loop].
  - destruct Hok as [Ho Hp Hb Hc Hz]. destruct (Z.ltb_spec octets 4) as [|Hge]; [done|]. intros [= <-].
    destruct saw; cbn in Ho; [|lia]. assert (length prev = 3%nat) as Hl by lia.
    rewrite app_nil_r, dotted_consumed, length_app by done. split_and!; [done|cbn; lia|].
    apply Forall_app. split; [done|by apply Forall_singleton].
  - destruct (strchr digits ch) as [d|] eqn:Ed.
    + apply strchr_digits_Some in Ed as [-> Hd]. destruct Hok as [Ho Hp Hb Hc Hz].
      assert (u32 (cur * 10 + d) = cur * 10 + d) as -> by (apply wrap_u_id; unfold is_byte in Hc; lia).
      destruct (saw && (cur =? 0)) eqn:E0; [done|]. destruct (Z.ltb_spec 255 (cur * 10 + d)) as [|Hle]; [done|].
      destruct saw; cbn [negb].
      * apply andb_false_iff in E0 as [|E0%Z.eqb_neq]; [done|]. intros Hr. unfold is_byte in Hc.
        apply IH in Hr; [|split; cbn in *; try done; unfold is_byte; lia]. destruct Hr as [<- Hbs]. split; [|done].
        unfold consumed. rewrite dec_snoc by lia. by rewrite <- !app_assoc.
      * rewrite (Hz eq_refl) in *. destruct (Z.ltb_spec 4 (octets + 1)) as [|H4]; [done|]. intros Hr.
        apply IH in Hr; [|split; cbn in *; try done; unfold is_byte; lia]. destruct Hr as [<- Hbs]. split; [|done].
        unfold consumed. rewrite Z.mul_0_l, Z.add_0_l, dec_digit by done. by rewrite <- !app_assoc.
    + destruct (Z.eqb_spec ch 46) as [->|]; [|done]. destruct saw; [|done]. cbn [andb].
      destruct (Z.eqb_spec octets 4) as [|H4]; [done|]. destruct Hok as [Ho Hp Hb Hc Hz]. cbn in Ho. intros Hr.
      apply IH in Hr.
      * destruct Hr as [<- Hbs]. split; [|done]. rewrite consumed_dot, <- app_assoc. done.
      * split; rewrite ?length_app; cbn; [lia|lia| |unfold is_byte; lia|done].
        apply Forall_app. split; [done|by apply Forall_singleton].
Qed.

(** A byte in decimal is read as that byte. *)
Lemma pton4_loop_dec b rest octets prev :
  is_byte b → octets < 4 →
  pton4_loop (dec b ++ rest) false octets prev 0 = pton4_loop rest true (octets + 1) prev b.
Proof.
  unfold is_byte. intros Hb Ho.
  assert (Hfirst : ∀ d r, 0 <= d < 10 →
    pton4_loop (48 + d :: r) false octets prev 0 = pton4_loop r true (octets + 1) prev d).
  { intros d r Hd. cbn [pton4_loop]. rewrite strchr_digits by done. cbn [andb negb].
    assert (u32 (0 * 10 + d) = d) as -> by (apply wrap_u_id; lia).
    rewrite (proj2 (Z.ltb_ge 255 d)), (proj2 (Z.ltb_ge 4 _)) by lia. done. }
  assert (Hnext : ∀ c d r, 1 <= c → 0 <= d < 10 → c * 10 + d <= 255 →
    pton4_loop (48 + d :: r) true (octets + 1) prev c = pton4_loop r true (octets + 1) prev (c * 10 + d)).
  { intros c d r Hc Hd Hle. cbn [pton4_loop]. rewrite strchr_digits by done. cbn [andb negb].
    assert (u32 (c * 10 + d) = c * 10 + d) as -> by (apply wrap_u_id; lia).
    rewrite (proj2 (Z.eqb_neq c 0)), (proj2 (Z.ltb_ge 255 _)) by lia. done. }
  pose proof (Z.div_mod b 10 ltac:(lia)). pose proof (Z.mod_pos_bound b 10 ltac:(lia)).
  unfold dec. destruct (Z.ltb_spec b 10); [apply Hfirst; lia|]. destruct (Z.ltb_spec b 100).
  - cbn [app]. rewrite Hfirst, Hnext by lia. f_equal. lia.
  - pose proof (Z.div_mod (b / 10) 10 ltac:(lia)). pose proof (Z.mod_pos_bound (b / 10) 10 ltac:(lia)).
    assert (b / 100 = b / 10 / 10) as -> by (by rewrite Z.div_div by lia).
    cbn [app]. rewrite Hfirst, !Hnext by lia. f_equal. lia.
Qed.

Lemma pton4_loop_dot rest octets prev cur :
  octets ≠ 4 → pton4_loop (46 :: rest) true octets prev cur = pton4_loop rest false octets (prev ++ [cur]) 0.
Proof. intros Ho. cbn. by rewrite (proj2 (Z.eqb_neq octets 4)). Qed.

Lemma inet_pton4_dotted bs : length bs = 4%nat → Forall is_byte bs → inet_pton4 (dotted bs) = Some bs.
Proof.
  destruct bs as [|a [|b [|c [|d [|]]]]]; try done. intros _ Hf. rewrite !Forall_cons in Hf.
  destruct Hf as (Ha & Hb & Hc & Hd & _). unfold inet_pton4. cbn [dotted].
  rewrite pton4_loop_dec, pton4_loop_dot by done. cbn [app].
  rewrite pton4_loop_dec, pton4_loop_dot by done. cbn [app].
  rewrite pton4_loop_dec, pton4_loop_dot by done. cbn [app].
  rewrite <- (app_nil_r (dec d)), pton4_loop_dec by done. done.
Qed.

(** ** Printing dotted quads *)

Definition prints_dec (conv : str) (b : Z) : Prop :=
  Printf.run 10 conv (mk_kst Text [] [AInt b] []) = Ok (mk_kst Text (dec b) [] []).

Definition prints_dec_b (conv : str) (b : Z) : bool :=
  match Printf.run 10 conv (mk_kst Text [] [AInt b] []) with
  | Ok (mk_kst Text o [] []) => bool_decide (o = dec b)
  | _ => false
  end.

Lemma prints_dec_b_true conv b : prints_dec_b conv b = true → prints_dec conv b.
Proof.
  unfold prints_dec_b, prints_dec. destruct (Printf.run _ _ _) as [[[] o [] []]|]; try done.
  by intros ->%bool_decide_eq_true.
Qed.

Lemma prints_bytes conv :
  forallb (prints_dec_b conv) (seqZ 0 256) = true → ∀ b, is_byte b → prints_dec conv b.
Proof.
  intros H b Hb. apply prints_dec_b_true. rewrite List.forallb_forall in H. apply H.
  apply list_elem_of_In, elem_of_seqZ. unfold is_byte in Hb. lia.
Qed.

Lemma prints_u b : is_byte b → prints_dec (lit "%u") b.
Proof. apply prints_bytes. vm_compute. reflexivity. Qed.

Lemma prints_d b : is_byte b → prints_dec (lit "%d") b.
Proof. apply prints_bytes. vm_compute. reflexivity. Qed.

(** Four conversions of bytes with dots between them. *)
Lemma kvprintf_quad conv a b c d :
  (∀ b, is_byte b → prints_dec conv b) → Forall is_byte [a; b; c; d] →
  ∃ v, kvprintf (Some (conv ++ lit "." ++ conv ++ lit "." ++ conv ++ lit "." ++ conv)) 10 [AInt a; AInt b; AInt c; AInt d]
    = Ok (dotted [a; b; c; d], v).
Proof.
  intros Hc Hf. rewrite !Forall_cons in Hf. destruct Hf as (Ha & Hb & Hcc & Hd & _).
  assert (Hp : ∀ b, is_byte b → prints 10 conv [AInt b] (dec b)) by (intros x Hx; eexists; by apply Hc).
  assert (Hdot : prints 10 (lit ".") [] [46]) by (by eexists).
  assert (Hlast : kvprintf (Some conv) 10 [AInt d] = Ok (dec d, [])).
  { unfold kvprintf. cbn [default from_option id]. change ((10 <? 2) || (36 <? 10)) with false. cbv iota.
    by rewrite (Hc d Hd). }
  destruct (kvprintf_app 10 _ _ _ _ _ _ _ Hdot Hlast) as [v1 H1].
  destruct (kvprintf_app 10 _ _ _ _ _ _ _ (Hp c Hcc) H1) as [v2 H2].
  destruct (kvprintf_app 10 _ _ _ _ _ _ _ Hdot H2) as [v3 H3].
  destruct (kvprintf_app 10 _ _ _ _ _ _ _ (Hp b Hb) H3) as [v4 H4].
  destruct (kvprintf_app 10 _ _ _ _ _ _ _ Hdot H4) as [v5 H5].
  destruct (kvprintf_app 10 _ _ _ _ _ _ _ (Hp a Ha) H5) as [v6 H6].
  exists v6. exact H6.
Qed.

Lemma length_dec b : is_byte b → (1 <= length (dec b) <= 3)%nat.
Proof. intros Hb. unfold dec. repeat case_match; cbn; lia. Qed.

Lemma length_dotted bs : length bs = 4%nat → Forall is_byte bs → (7 <= length (dotted bs) <= 15)%nat.
Proof.
  destruct bs as [|a [|b [|c [|d [|]]]]]; try done. intros _ Hf. rewrite !Forall_cons in Hf.
  destruct Hf as (Ha & Hb & Hc & Hd & _). cbn [dotted]. rewrite !length_app. cbn [length]. rewrite !length_app. cbn [length].
  rewrite length_app. cbn [length].
  pose proof (length_dec a Ha). pose proof (length_dec b Hb). pose proof (length_dec c Hc). pose proof (length_dec d Hd). lia.
Qed.

(** The text of an internet address, if there is room for it and the terminator. *)
Lemma inet_ntop4_spec bs size :
  length bs = 4%nat → Forall is_byte bs →
  inet_ntop4 bs size = Ok (if Z.of_nat (length (dotted bs)) <? size then Some (dotted bs) else None).
Proof.
  intros Hl Hf. pose proof (length_dotted bs Hl Hf) as Hlen.
  destruct bs as [|a [|b [|c [|d [|]]]]]; try done. unfold inet_ntop4.
  destruct (kvprintf_quad (lit "%u") a b c d prints_u Hf) as [v Hk].
  change (lit "%u" ++ _) with (lit "%u.%u.%u.%u") in Hk.
  set (o := dotted [a; b; c; d]) in *.
  unfold snprintf, vsnprintf, vsnrprintf. rewrite Hk. cbn [mbind result_bind].
  rewrite snprintf_fold by done. cbn [written remain app]. rewrite (take_ge o) by lia.
  rewrite (proj2 (Z.leb_le 1 _)) by lia.
  rewrite (proj2 (Z.leb_gt _ 0)) by lia. cbn [orb].
  assert (u32 (Z.of_nat (length o)) = Z.of_nat (length o)) as -> by (apply wrap_u_id; lia).
  rewrite Z.leb_antisym. destruct (Z.ltb_spec (Z.of_nat (length o)) size) as [Hs|Hs]; cbn [negb]; [|done].
  rewrite removelast_last, take_ge by lia. done.
Qed.

Lemma land_byte b : is_byte b → Z.land b 255 = b.
Proof. intros Hb. change 255 with (Z.ones 8). rewrite Z.land_ones by lia. by apply Z.mod_small. Qed.

(** The same text without a check of the room. *)
Lemma inet_ntoa_r_spec bs room :
  length bs = 4%nat → Forall is_byte bs →
  inet_ntoa_r bs room = if room <=? Z.of_nat (length (dotted bs)) then Fault Overflow else Ok (dotted bs).
Proof.
  intros Hl Hf. destruct bs as [|a [|b [|c [|d [|]]]]]; try done. pose proof Hf as Hf'. rewrite !Forall_cons in Hf'.
  destruct Hf' as (Ha & Hb & Hc & Hd & _). unfold inet_ntoa_r. rewrite !land_byte by done.
  destruct (kvprintf_quad (lit "%d") a b c d prints_d Hf) as [v Hk].
  change (lit "%d" ++ _) with (lit "%d.%d.%d.%d") in Hk. unfold sprintf, vsprintf. rewrite Hk. cbn [mbind result_bind].
  rewrite removelast_last, length_app. cbn [length].
  destruct (Z.ltb_spec room (Z.of_nat (length (dotted [a; b; c; d]) + 1))), (Z.leb_spec room (Z.of_nat (length (dotted [a; b; c; d]))));
    done || lia.
Qed.

End InetTextSpec.
