(* ===== verification/Inet6TextSpec.v ===== *)
(** Texts of internet version 6 addresses (InetText.v): what [inet_ntop6] writes, the
    longest run of zero words shortened and internet addresses in dotted form,
    [inet_pton6] reads back. *)
From S2P Require Import Prelude Printf PrintfSpec InetText InetTextSpec.

Module Inet6TextSpec.

Import Printf PrintfSpec InetText InetTextSpec.

(** ** Words *)

Definition is_word (w : Z) : Prop := 0 <= w < 65536.

Lemma lor_shift a b n : 0 <= n → 0 <= b < 2 ^ n → Z.lor (Z.shiftl a n) b = a * 2 ^ n + b.
Proof.
  intros Hn Hb. rewrite <- Z.add_nocarry_lor, Z.shiftl_mul_pow2 by
    (done || (apply Z.bits_inj'; intros i Hi; rewrite Z.land_spec, Z.bits_0;
      destruct (Z.lt_ge_cases i n); [by rewrite Z.shiftl_spec_low|];
      rewrite (proj1 (Z.bounded_iff_bits_nonneg n b Hn ltac:(lia))) by lia; apply andb_false_r)).
  done.
Qed.

(** The text of a word in hexadecimal. *)
Definition hexw (w : Z) : str := match ksprintn w 16 false with Ok l => l | Fault _ => [] end.

Lemma hexw_numeral w : is_word w → ksprintn w 16 false = Ok (hexw w) ∧ numeral 16 w (hexw w).
Proof.
  intros Hw. unfold hexw. unfold is_word in Hw. destruct (ksprintn_spec w 16 false) as (l & -> & Hl); [lia|lia|]. done.
Qed.

Lemma xdigit_val c : 0 <= digit_val c < 16 → xdigit c = Some (digit_val c).
Proof.
  intros Hc. assert (Forall (λ c, xdigit c = Some (digit_val c)) (seqZ 48 10 ++ seqZ 97 6 ++ seqZ 65 6)) as H.
  { repeat constructor. }
  rewrite Forall_forall in H. apply H. rewrite !elem_of_app, !elem_of_seqZ.
  unfold digit_val, is_digit in Hc. revert Hc. split_ifs; bool_to_prop; lia.
Qed.

Lemma value_from base (l : str) n :
  foldl (λ n c, n * base + digit_val c) n l = n * base ^ Z.of_nat (length l) + value base l.
Proof.
  unfold value. revert n. induction l as [|c l IH]; intros n; cbn [foldl length]; [cbn; lia|].
  rewrite IH, (IH (0 * base + _)). rewrite Nat2Z.inj_succ, Z.pow_succ_r by lia. lia.
Qed.

Lemma value_nonneg base (l : str) : 0 <= base → Forall (λ c, 0 <= digit_val c < base) l → 0 <= value base l.
Proof.
  intros Hb. induction 1 as [|c l Hc Hl IH]; [done|]. unfold value. cbn [foldl]. rewrite value_from.
  assert (0 <= base ^ Z.of_nat (length l)) by (apply Z.pow_nonneg; lia). nia.
Qed.

Lemma hexw_length w : is_word w → (1 <= length (hexw w) <= 4)%nat.
Proof.
  intros Hw. destruct (hexw_numeral w Hw) as [_ (Hv & Hl & Hd & Hlead)].
  destruct (hexw w) as [|c t]; [cbn in Hl; lia|]. split; [lia|].
  destruct (decide (digit_val c = 0)) as [H0|H0]; [by destruct (Hlead c t eq_refl H0) as [_ ->]; cbn; lia|].
  apply Forall_cons in Hd as [Hc Ht]. unfold value in Hv. cbn [foldl] in Hv. rewrite value_from in Hv.
  pose proof (value_nonneg 16 t ltac:(lia) Ht). cbn [length].
  destruct (decide (length t <= 3)%nat) as [|Hlong]; [lia|]. exfalso.
  assert (16 ^ 4 <= 16 ^ Z.of_nat (length t)) by (apply Z.pow_le_mono_r; lia).
  change (16 ^ 4) with 65536 in *. unfold is_word in Hw. nia.
Qed.

Lemma hexw_cons w : is_word w → ∃ c t, hexw w = c :: t ∧ c ≠ 58 ∧ 0 <= digit_val c < 16.
Proof.
  intros Hw. destruct (hexw_numeral w Hw) as [_ (_ & Hl & Hd & _)].
  destruct (hexw w) as [|c t]; [cbn in Hl; lia|]. apply Forall_cons in Hd as [Hc _].
  exists c, t. split_and!; [done| |lia|lia]. intros ->. by destruct Hc.
Qed.

(** [sprintf] of [%x]. *)
Lemma sprintf_hexw w : is_word w → ∃ l, sprintf (Some (lit "%x")) [AInt w] = Ok (l, hexw w ++ [0]).
Proof.
  intros Hw. destruct (hexw_numeral w Hw) as [Hk (_ & _ & Hd & _)].
  set (S0 := mk_kst Text [] [AInt w] []).
  assert (Printf.run 10 (lit "%x") S0 =
    (t ← (l ← number (set_sign false no_flags) 16 false (u32 w); Ok (emit l Text [] S0)); Ok t)) as E by reflexivity.
  unfold sprintf, vsprintf, kvprintf. change ((10 <? 2) || (36 <? 10)) with false. cbn [default from_option id]. cbv iota.
  fold S0. rewrite E, wrap_u_id by (unfold is_word in Hw; lia).
  assert (number (set_sign false no_flags) 16 false w = Ok (hexw w)) as ->.
  { unfold number. cbn [sign sharpflag ladjust padc width dwidth set_sign no_flags andb negb]. rewrite Hk.
    cbn [mbind result_bind]. f_equal. change (32 =? 48) with false. cbn [b2z length Z.of_nat].
    rewrite !pad_neg by lia. cbn [app]. by rewrite app_nil_r. }
  cbn [mbind result_bind emit k_mode k_out k_vars S0 app].
  assert (u8 <$> hexw w = hexw w) as ->; [|by eexists].
  rewrite <- (list_fmap_id (hexw w)) at 2. apply Forall_fmap_ext.
  eapply Forall_impl; [exact Hd|]. intros c Hc. cbn beta in Hc. apply wrap_u_id. unfold id.
  unfold digit_val, is_digit in Hc. revert Hc. split_ifs; bool_to_prop; lia.
Qed.

(** ** Reading words *)

Lemma pton6_loop_hex (ds : str) : ∀ rest ct seen val out col,
  Forall (λ c, 0 <= digit_val c < 16) ds → 0 <= seen → seen + Z.of_nat (length ds) <= 4 → 0 <= val < 16 ^ seen →
  pton6_loop (ds ++ rest) ct seen val out col =
  pton6_loop rest ct (seen + Z.of_nat (length ds)) (foldl (λ n c, n * 16 + digit_val c) val ds) out col.
Proof.
  induction ds as [|c ds IH]; intros rest ct seen val out col Hd Hs Hl Hv; cbn [app length foldl].
  { by rewrite Z.add_0_r. }
  apply Forall_cons in Hd as [Hc Hd]. cbn [length] in Hl. cbn [pton6_loop]. rewrite xdigit_val by done.
  assert (16 ^ seen <= 16 ^ 3) by (apply Z.pow_le_mono_r; lia). change (16 ^ 3) with 4096 in *.
  assert (u32 (Z.shiftl val 4) = Z.shiftl val 4) as ->.
  { apply wrap_u_id. rewrite Z.shiftl_mul_pow2 by lia. lia. }
  rewrite lor_shift by (cbn; lia). change (2 ^ 4) with 16.
  rewrite (proj2 (Z.ltb_ge 4 _)) by lia. rewrite IH; [f_equal; lia|done|lia|lia|].
  rewrite Z.pow_add_r, Z.pow_1_r by lia. lia.
Qed.

Lemma pton6_loop_word w rest ct out col :
  is_word w →
  pton6_loop (hexw w ++ rest) ct 0 0 out col = pton6_loop rest ct (Z.of_nat (length (hexw w))) w out col.
Proof.
  intros Hw. pose proof (hexw_length w Hw) as Hl. destruct (hexw_numeral w Hw) as [_ (Hv & _ & Hd & _)].
  rewrite pton6_loop_hex by (done || lia). change (foldl _ 0 (hexw w)) with (value 16 (hexw w)). by rewrite Hv.
Qed.

(** Words, each followed by a colon. *)
Definition prefix (ws : list Z) : str := concat ((λ w, hexw w ++ [58]) <$> ws).
Definition bytes_of (ws : list Z) : list Z := concat (word_bytes <$> ws).

Lemma length_bytes_of ws : length (bytes_of ws) = (2 * length ws)%nat.
Proof.
  induction ws as [|w ws IH]; [done|]. change (bytes_of (w :: ws)) with (word_bytes w ++ bytes_of ws).
  rewrite length_app, IH. change (length (word_bytes w)) with 2%nat. cbn [length]. lia.
Qed.

Lemma pton6_loop_prefix ws rest : ∀ out col,
  Forall is_word ws → rest ≠ [] → (length out + 2 * length ws <= 16)%nat →
  pton6_loop (prefix ws ++ rest) (prefix ws ++ rest) 0 0 out col = pton6_loop rest rest 0 0 (out ++ bytes_of ws) col.
Proof.
  induction ws as [|w ws IH]; intros out col Hw Hr Hl; [by cbn; rewrite app_nil_r|].
  change (prefix (w :: ws)) with ((hexw w ++ [58]) ++ prefix ws). change (bytes_of (w :: ws)) with (word_bytes w ++ bytes_of ws).
  apply Forall_cons in Hw as [Hw Hws]. cbn [length] in Hl. rewrite <- !app_assoc.
  rewrite pton6_loop_word by done. cbn [app pton6_loop]. change (xdigit 58) with (@None Z). cbn iota.
  change (58 =? 58) with true. cbn iota. pose proof (hexw_length w Hw).
  rewrite (proj2 (Z.eqb_neq _ 0)) by lia.
  rewrite bool_decide_false by (by destruct (prefix ws)).
  unfold has_room, NS_IN6ADDRSZ. rewrite bool_decide_true by lia. cbn [negb].
  rewrite IH by (done || rewrite length_app; cbn; lia). by rewrite <- app_assoc.
Qed.

(** Words with colons between them. *)
Fixpoint join (ws : list Z) : str :=
  match ws with [] => [] | [w] => hexw w | w :: ws => hexw w ++ 58 :: join ws end.

Lemma join_snoc ws w : join (ws ++ [w]) = prefix ws ++ hexw w.
Proof.
  induction ws as [|v ws IH]; [done|]. change (prefix (v :: ws)) with ((hexw v ++ [58]) ++ prefix ws). cbn [app].
  destruct (ws ++ [w]) as [|x l] eqn:E; [by destruct ws|].
  change (join (v :: x :: l)) with (hexw v ++ 58 :: join (x :: l)). rewrite IH, <- !app_assoc. done.
Qed.

(** The words after the last colon of a text, and the bytes stored at its end. *)
Definition finish (r : option (list Z * option nat * Z * Z)) : option (list Z * option nat) :=
  '(out, colonp, seen, val) ← r;
  out ← (if seen =? 0 then Some out else if negb (has_room out 2) then None else Some (out ++ word_bytes val));
  Some (out, colonp).

Lemma pton6_loop_join ws out col :
  Forall is_word ws → (length out + 2 * length ws <= 16)%nat →
  finish (pton6_loop (join ws) (join ws) 0 0 out col) = Some (out ++ bytes_of ws, col).
Proof.
  intros Hw Hl. destruct ws as [|w ws _] using rev_ind; [cbn; by rewrite app_nil_r|].
  rewrite join_snoc. apply Forall_app in Hw as [Hws [Hw _]%Forall_cons].
  rewrite length_app in Hl. cbn [length] in Hl. pose proof (hexw_length w Hw).
  rewrite pton6_loop_prefix by (done || lia || (destruct (hexw w); cbn in *; lia || done)).
  rewrite <- (app_nil_r (hexw w)) at 1. rewrite pton6_loop_word by done. cbn [pton6_loop finish].
  unfold finish. cbn [mbind option_bind]. rewrite (proj2 (Z.eqb_neq _ 0)) by lia.
  unfold has_room, NS_IN6ADDRSZ. rewrite bool_decide_true by (rewrite length_app, length_bytes_of; lia). cbn [negb mbind option_bind].
  unfold bytes_of. rewrite fmap_app, concat_app. cbn. by rewrite <- app_assoc.
Qed.

Lemma dec_digits b : is_byte b → Forall (λ c, 0 <= digit_val c < 16) (dec b).
Proof.
  intros Hb. assert (∀ d, 0 <= d < 10 → 0 <= digit_val (48 + d) < 16) as Hd.
  { intros d Hd. unfold digit_val, is_digit. split_ifs; lia. }
  unfold is_byte in Hb. pose proof (Z.mod_pos_bound b 10 ltac:(lia)). pose proof (Z.mod_pos_bound (b / 10) 10 ltac:(lia)).
  unfold dec. destruct (Z.ltb_spec b 10); [|destruct (Z.ltb_spec b 100)];
    rewrite ?Forall_cons; split_and?; try apply Forall_nil; try done; apply Hd; try lia;
    (split; [apply Z.div_pos; lia|apply Z.div_lt_upper_bound; lia]).
Qed.

(** An internet address at the end of the text. *)
Lemma pton6_loop_dotted bs out col :
  length bs = 4%nat → Forall is_byte bs → (length out + 4 <= 16)%nat →
  finish (pton6_loop (dotted bs) (dotted bs) 0 0 out col) = Some (out ++ bs, col).
Proof.
  intros Hl Hf Ho. pose proof (inet_pton4_dotted bs Hl Hf) as H4. revert H4. generalize (dotted bs) at 1 3 as ct. intros ct H4.
  destruct bs as [|a [|b [|c [|d [|]]]]]; try done. rewrite !Forall_cons in Hf. destruct Hf as (Ha & _).
  cbn [dotted]. pose proof (length_dec a Ha).
  rewrite pton6_loop_hex by (apply dec_digits || lia; done). cbn [pton6_loop]. change (xdigit 46) with (@None Z).
  cbn iota. change (46 =? 58) with false. cbn iota. unfold has_room, NS_INADDRSZ, NS_IN6ADDRSZ.
  rewrite bool_decide_true by lia. cbn [andb Z.eqb]. rewrite H4. done.
Qed.

(** ** The shift *)

(** The bytes [m1] are still to move over the zeros, [m2] have moved. *)
Lemma shift_loop_zeros (a : list Z) z k : ∀ m1 m2 n,
  length m1 = k → n = (k + length m2)%nat → (length a + n + S z = 16)%nat →
  shift_loop k n (length a) (a ++ m1 ++ replicate (S z) 0 ++ m2) = a ++ replicate (S z) 0 ++ m1 ++ m2.
Proof.
  induction k as [|k IH]; intros m1 m2 n Hm Hn Hz; [by destruct m1|].
  destruct m1 as [|x m1 _] using rev_ind; [done|]. rewrite length_app in Hm. cbn in Hm. assert (length m1 = k) as Hk by lia.
  cbn [shift_loop]. unfold NS_IN6ADDRSZ.
  replace (16 - (n - k))%nat with (length (a ++ (m1 ++ [x]) ++ replicate z 0%Z) + 0)%nat
    by (rewrite !length_app, length_replicate; cbn; lia).
  replace (length a + n - (n - k))%nat with (length (a ++ m1) + 0)%nat by (rewrite length_app; lia).
  assert (E : a ++ (m1 ++ [x]) ++ replicate (S z) 0 ++ m2 = (a ++ (m1 ++ [x]) ++ replicate z 0) ++ 0 :: m2).
  { rewrite <- !app_assoc. do 3 f_equal. by rewrite replicate_S_end, <- app_assoc. }
  rewrite E, insert_app_r. cbn [insert list_insert].
  assert (E2 : ∀ y, (a ++ (m1 ++ [x]) ++ replicate z 0) ++ y :: m2 = (a ++ m1) ++ x :: replicate z 0 ++ y :: m2).
  { intros y. by rewrite <- !app_assoc. }
  rewrite !E2, lookup_app_r, Nat.add_0_r, Nat.sub_diag by lia. cbn [lookup list_lookup default from_option id].
  rewrite <- (Nat.add_0_r (length (a ++ m1))), insert_app_r. cbn [insert list_insert].
  rewrite <- (app_assoc a m1). change (m1 ++ 0 :: replicate z 0 ++ x :: m2) with (m1 ++ replicate (S z) 0 ++ (x :: m2)).
  rewrite IH by (done || cbn; lia). by rewrite <- !app_assoc.
Qed.

Lemma shift_loop_spec (out : list Z) c :
  (c <= length out < 16)%nat →
  shift_loop (length out - c) (length out - c) c (out ++ replicate (NS_IN6ADDRSZ - length out) 0)
    = take c out ++ replicate (16 - length out) 0 ++ drop c out.
Proof.
  intros [Hc Ho]. unfold NS_IN6ADDRSZ. destruct (16 - length out)%nat as [|z] eqn:Ez; [lia|].
  rewrite <- (take_drop c out) at 3.
  pose proof (shift_loop_zeros (take c out) z (length (drop c out)) (drop c out) [] (length (drop c out))) as H.
  rewrite !app_nil_r, length_take, length_drop, Nat.min_l in H by lia. rewrite <- app_assoc. apply H; cbn; lia.
Qed.

(** What becomes of the bytes read. *)
Definition place (out : list Z) (colonp : option nat) : option (list Z) :=
  match colonp with
  | Some c => if bool_decide (length out = 16)%nat then None
              else Some (take c out ++ replicate (16 - length out) 0 ++ drop c out)
  | None => if bool_decide (length out = 16)%nat then Some out else None
  end.

Lemma inet_pton6_place src src' out col :
  match src with 58 :: s => match s with 58 :: _ => Some s | _ => None end | _ => Some src end = Some src' →
  finish (pton6_loop src' src' 0 0 [] None) = Some (out, col) →
  (∀ c, col = Some c → c <= length out)%nat → (length out <= 16)%nat →
  inet_pton6 src = place out col.
Proof.
  intros Hs Hf Hc Ho. unfold inet_pton6. rewrite Hs. cbn [mbind option_bind]. unfold finish in Hf.
  destruct (pton6_loop src' src' 0 0 [] None) as [[[[o cp] seen] val]|]; [|done]. cbn [mbind option_bind] in *.
  destruct (if seen =? 0 then _ else _) as [out'|]; [|done]. cbn [mbind option_bind] in *. injection Hf as <- <-.
  unfold place, NS_IN6ADDRSZ. destruct cp as [c|]; [|done]. case_bool_decide; [done|]. f_equal.
  specialize (Hc c eq_refl). apply shift_loop_spec. lia.
Qed.

(** ** The run of zeros *)

Definition zeros_at (ws : list Z) (b l : Z) : Prop :=
  0 <= b ∧ 1 <= l ∧ ∀ j, b <= j < b + l → ws !! Z.to_nat j = Some 0.

Definition zero_run (ws : list Z) (r : zrun) : Prop := base r = -1 ∨ zeros_at ws (base r) (len r).

Lemma zero_run_better ws best cur : zero_run ws best → zero_run ws cur → zero_run ws (better best cur).
Proof. unfold better. by destruct (_ || _). Qed.

Lemma find_best_zeros all : ∀ words pre best cur,
  all = pre ++ words → zero_run all best → zero_run all cur →
  (base cur ≠ -1 → base cur + len cur = Z.of_nat (length pre)) →
  zero_run all (find_best words (Z.of_nat (length pre)) best cur).
Proof.
  intros words. induction words as [|w words IH]; intros pre best cur Hall Hb Hc Hend; cbn [find_best].
  { destruct (negb _); [by apply zero_run_better|done]. }
  replace (Z.of_nat (length pre) + 1) with (Z.of_nat (length (pre ++ [w]))) by (rewrite length_app; cbn; lia).
  assert (Hall' : all = (pre ++ [w]) ++ words) by (by rewrite <- app_assoc).
  assert (Hw : all !! length pre = Some w) by (by rewrite Hall, list_lookup_middle).
  destruct (Z.eqb_spec w 0) as [->|Hw0].
  - apply IH; [done|done| |].
    + destruct (Z.eqb_spec (base cur) (-1)) as [|Hne]; right; cbn.
      * split; [lia|]. split; [lia|]. intros j Hj. by replace (Z.to_nat j) with (length pre) by lia.
      * destruct Hc as [|(H1 & H2 & H3)]; [done|]. split; [done|]. split; [lia|]. intros j Hj.
        destruct (decide (j = base cur + len cur)) as [->|]; [|apply H3; lia].
        rewrite (Hend Hne). by rewrite Nat2Z.id.
    + rewrite length_app. destruct (Z.eqb_spec (base cur) (-1)); cbn; [lia|]. intros _. rewrite <- (Nat2Z.id (length pre)).
      specialize (Hend ltac:(done)). lia.
  - destruct (Z.eqb_spec (base cur) (-1)) as [He|Hne]; cbn [negb].
    + by apply IH.
    + apply IH; [done|by apply zero_run_better|by left|done].
Qed.

Lemma best_run_zeros ws :
  base (best_run ws) = -1 ∨ (zeros_at ws (base (best_run ws)) (len (best_run ws)) ∧ 2 <= len (best_run ws)).
Proof.
  unfold best_run. pose proof (find_best_zeros ws ws [] (mk_run (-1) 0) (mk_run (-1) 0) eq_refl) as H.
  cbn [length Z.of_nat] in H. specialize (H ltac:(by left) ltac:(by left) ltac:(done)).
  set (best := find_best _ _ _ _) in *. destruct (Z.eqb_spec (base best) (-1)) as [|Hne]; cbn [negb andb]; [by left|].
  destruct (Z.ltb_spec (len best) 2); [by left|]. destruct H as [|H]; [done|]. right. done.
Qed.

Lemma zeros_prefix l : ∀ ws : list Z, (∀ j, (j < l)%nat → ws !! j = Some 0) → ws = replicate l 0 ++ drop l ws.
Proof.
  induction l as [|l IH]; intros ws H; [by rewrite drop_0|].
  destruct ws as [|w ws]; [by specialize (H 0%nat ltac:(lia))|].
  pose proof (H 0%nat ltac:(lia)) as [= ->]. cbn [replicate drop app]. f_equal. apply IH.
  intros j Hj. apply (H (S j)). lia.
Qed.

(** The words around the run. *)
Lemma zeros_split ws b l :
  zeros_at ws b l → ∃ p q, ws = p ++ replicate (Z.to_nat l) 0 ++ q ∧ Z.of_nat (length p) = b.
Proof.
  intros (Hb & Hl & Hz). exists (take (Z.to_nat b) ws), (drop (Z.to_nat l) (drop (Z.to_nat b) ws)).
  rewrite <- zeros_prefix, take_drop.
  - split; [done|]. specialize (Hz b ltac:(lia)). apply lookup_lt_Some in Hz. rewrite length_take. lia.
  - intros j Hj. rewrite lookup_drop. specialize (Hz (b + Z.of_nat j) ltac:(lia)). rewrite <- Hz. f_equal. lia.
Qed.

(** ** Writing *)

(** Words, each after a colon. *)
Definition suffix (ws : list Z) : str := concat ((λ w, 58 :: hexw w) <$> ws).

Lemma join_cons w ws : join (w :: ws) = hexw w ++ suffix ws.
Proof.
  revert w. induction ws as [|v ws IH]; intros w; [by cbn; rewrite app_nil_r|].
  change (join (w :: v :: ws)) with (hexw w ++ 58 :: join (v :: ws)). rewrite IH. done.
Qed.

Section Format.

Context (src words : list Z) (best : zrun).

Lemma format6_words ws rest : ∀ i tp,
  Forall is_word ws → 1 <= i →
  (∀ k, i <= k < i + Z.of_nat (length ws) → in_run best k = false ∧ (k = 6 → encapsulated best words = false)) →
  format6 (ws ++ rest) i src words best tp = format6 rest (i + Z.of_nat (length ws)) src words best (tp ++ suffix ws).
Proof.
  induction ws as [|w ws IH]; intros i tp Hw Hi Hk; [cbn; by rewrite Z.add_0_r, app_nil_r|].
  apply Forall_cons in Hw as [Hw Hws]. cbn [length] in Hk. destruct (Hk i) as [Hr He]; [lia|].
  cbn [app format6]. rewrite Hr. rewrite (proj2 (Z.eqb_neq i 0)) by lia. cbn [negb].
  replace ((i =? 6) && encapsulated best words) with false
    by (destruct (Z.eqb_spec i 6); [by rewrite (He ltac:(done))|done]).
  destruct (sprintf_hexw w Hw) as [l ->]. cbn [mbind result_bind]. rewrite removelast_last.
  rewrite IH by (done || lia || (intros k Hk'; apply Hk; lia)). cbn [length]. f_equal; [lia|].
  change (suffix (w :: ws)) with ((58 :: hexw w) ++ suffix ws). by rewrite <- !app_assoc.
Qed.

(** The first words, before which there is no colon. *)
Lemma format6_first ws rest :
  Forall is_word ws →
  (∀ k, 0 <= k < Z.of_nat (length ws) → in_run best k = false ∧ (k = 6 → encapsulated best words = false)) →
  format6 (ws ++ rest) 0 src words best [] = format6 rest (Z.of_nat (length ws)) src words best (join ws).
Proof.
  intros Hw Hk. destruct ws as [|w ws]; [done|]. apply Forall_cons in Hw as [Hw Hws]. cbn [length] in Hk.
  destruct (Hk 0) as [Hr _]; [lia|]. cbn [app format6]. rewrite Hr. cbn [Z.eqb negb andb].
  destruct (sprintf_hexw w Hw) as [l ->]. cbn [mbind result_bind]. rewrite removelast_last. cbn [app].
  rewrite format6_words by (done || (intros k Hk'; apply Hk; lia)). rewrite join_cons. f_equal. cbn [length]. lia.
Qed.

Lemma format6_rest l rest : ∀ i tp,
  base best < i → (∀ k, i <= k < i + Z.of_nat l → in_run best k = true) →
  format6 (replicate l 0 ++ rest) i src words best tp = format6 rest (i + Z.of_nat l) src words best tp.
Proof.
  induction l as [|l IH]; intros i tp Hi Hk; [by rewrite Z.add_0_r|]. cbn [replicate app format6].
  rewrite Hk by lia. rewrite (proj2 (Z.eqb_neq i (base best))) by lia.
  rewrite IH by (lia || (intros k Hk'; apply Hk; lia)). f_equal. lia.
Qed.

(** The run of zeros leaves one colon. *)
Lemma format6_run l rest tp :
  Z.of_nat (S l) = len best → 0 <= base best →
  format6 (replicate (S l) 0 ++ rest) (base best) src words best tp =
  format6 rest (base best + len best) src words best (tp ++ [58]).
Proof.
  intros Hl Hb. assert (Hin : ∀ k, base best <= k < base best + len best → in_run best k = true).
  { intros k Hk. unfold in_run. rewrite (proj2 (Z.eqb_neq _ _)), (proj2 (Z.leb_le _ _)), (proj2 (Z.ltb_lt _ _)) by lia. done. }
  cbn [replicate app format6]. rewrite Hin, Z.eqb_refl by lia. rewrite format6_rest by (lia || (intros k Hk; apply Hin; lia)).
  f_equal. lia.
Qed.

End Format.

(** ** Both ways *)

Lemma bytes_of_app ws vs : bytes_of (ws ++ vs) = bytes_of ws ++ bytes_of vs.
Proof. unfold bytes_of. by rewrite fmap_app, concat_app. Qed.

Lemma bytes_of_zeros l : bytes_of (replicate l 0) = replicate (2 * l) 0.
Proof.
  induction l as [|l IH]; [done|]. replace (2 * S l)%nat with (S (S (2 * l))) by lia.
  change (bytes_of (replicate (S l) 0)) with (word_bytes 0 ++ bytes_of (replicate l 0)). by rewrite IH.
Qed.

Lemma word_of_bytes a b :
  is_byte a → is_byte b → is_word (Z.lor (Z.shiftl a 8) b) ∧ word_bytes (Z.lor (Z.shiftl a 8) b) = [a; b].
Proof.
  unfold is_byte, is_word. intros Ha Hb. rewrite lor_shift by (cbn; lia). change (2 ^ 8) with 256. split; [lia|].
  unfold word_bytes. rewrite Z.shiftr_div_pow2 by lia. change (2 ^ 8) with 256. change 255 with (Z.ones 8).
  rewrite !Z.land_ones by lia. unfold wrap_u. change (2 ^ 8) with 256.
  rewrite !Z.mod_mod by lia. f_equal; [|f_equal].
  - rewrite Z.div_add_l, (Z.div_small b), Z.add_0_r, Z.mod_small by lia. done.
  - rewrite Z.add_comm, Z.mod_add, Z.mod_small by lia. done.
Qed.

Lemma words_of_bytes n : ∀ src, length src = (2 * n)%nat → Forall is_byte src →
  bytes_of (words_of src) = src ∧ Forall is_word (words_of src) ∧ length (words_of src) = n.
Proof.
  induction n as [|n IH]; intros src Hl Hf; [by destruct src|].
  destruct src as [|a [|b src]]; cbn in Hl; [lia|lia|]. rewrite !Forall_cons in Hf. destruct Hf as (Ha & Hb & Hf).
  destruct (IH src ltac:(lia) Hf) as (H1 & H2 & H3). destruct (word_of_bytes a b Ha Hb) as [Hw Hwb].
  cbn [words_of length]. split_and!; [|by apply Forall_cons|by rewrite H3].
  change (bytes_of (?w :: ?l)) with (word_bytes w ++ bytes_of l).
  by rewrite Hwb, H1.
Qed.

Definition skip_colon (src : str) : option str :=
  match src with 58 :: s => match s with 58 :: _ => Some s | _ => None end | _ => Some src end.

Lemma skip_colon_other c (t : str) : c ≠ 58 → skip_colon (c :: t) = Some (c :: t).
Proof. intros Hc. unfold skip_colon. destruct c as [|c|c]; try done. repeat (destruct c as [c|c|]; try done). Qed.

(** The text of words with a run of zeros left out is read back. *)
Lemma inet_pton6_run p q l :
  Forall is_word p → Forall is_word q → (length p + l + length q = 8)%nat → (1 <= l)%nat →
  inet_pton6 (join p ++ 58 :: 58 :: join q) = Some (bytes_of (p ++ replicate l 0 ++ q)).
Proof.
  intros Hp Hq Hlen Hl.
  assert (Hq' : ∀ out, length out = (2 * length p)%nat →
    finish (pton6_loop (58 :: join q) (58 :: join q) 0 0 out None) = Some (out ++ bytes_of q, Some (length out))).
  { intros out Ho. cbn [pton6_loop]. change (xdigit 58) with (@None Z). cbn iota. cbn [Z.eqb Pos.eqb].
    apply pton6_loop_join; [done|lia]. }
  assert (Hplace : place (bytes_of p ++ bytes_of q) (Some (length (bytes_of p))) = Some (bytes_of (p ++ replicate l 0 ++ q))).
  { unfold place. rewrite bool_decide_false by (rewrite length_app, !length_bytes_of; lia).
    rewrite take_app_length, drop_app_length, !bytes_of_app, bytes_of_zeros, length_app, !length_bytes_of. do 4 f_equal. lia. }
  destruct p as [|w p].
  - rewrite <- Hplace. eapply (inet_pton6_place _ (58 :: join q)); [done|by apply (Hq' [])| |].
    + intros c [= <-]. cbn. lia.
    + rewrite length_app, !length_bytes_of. cbn [length] in *. lia.
  - rewrite <- Hplace. destruct (hexw_cons w) as (c & t & Hw & Hc & _); [by apply Forall_cons in Hp as [? _]|].
    assert (Hj : join (w :: p) ++ 58 :: 58 :: join q = prefix (w :: p) ++ 58 :: join q).
    { destruct p as [|v p _] using rev_ind; [cbn; by rewrite <- !app_assoc|].
      rewrite (app_comm_cons p [v] w), join_snoc. unfold prefix. rewrite (fmap_app _ (w :: p)), concat_app. cbn [fmap list_fmap concat].
      by rewrite app_nil_r, <- !app_assoc. }
    eapply (inet_pton6_place _ (join (w :: p) ++ 58 :: 58 :: join q)).
    + rewrite join_cons, Hw. cbn [app]. by apply skip_colon_other.
    + rewrite Hj, pton6_loop_prefix by (done || cbn [length] in *; lia). apply (Hq' (bytes_of (w :: p))). apply length_bytes_of.
    + intros c0 Hc0. apply (f_equal (default 0%nat)) in Hc0. cbn [default from_option id] in Hc0. rewrite length_app. lia.
    + rewrite length_app, !length_bytes_of. lia.
Qed.

Lemma inet_pton6_plain ws :
  Forall is_word ws → length ws = 8%nat → inet_pton6 (join ws) = Some (bytes_of ws).
Proof.
  intros Hw Hl. destruct ws as [|w ws]; [done|].
  destruct (hexw_cons w) as (c & t & Hc & Hne & _); [by apply Forall_cons in Hw as [? _]|].
  rewrite (inet_pton6_place (join (w :: ws)) (join (w :: ws)) (bytes_of (w :: ws)) None).
  - unfold place. by rewrite bool_decide_true by (rewrite length_bytes_of; lia).
  - rewrite join_cons, Hc. cbn [app]. by apply skip_colon_other.
  - rewrite pton6_loop_join by (done || cbn [length] in *; lia). done.
  - done.
  - rewrite length_bytes_of. lia.
Qed.

(** An internet address at the end, after [head] words. *)
Lemma inet_pton6_encapsulated head bs :
  Forall is_word head → (length head <= 1)%nat → length bs = 4%nat → Forall is_byte bs →
  inet_pton6 (58 :: 58 :: prefix head ++ dotted bs) = Some (replicate (12 - 2 * length head) 0 ++ bytes_of head ++ bs).
Proof.
  intros Hh Hhl Hl Hf. pose proof (length_dotted bs Hl Hf) as Hld.
  rewrite (inet_pton6_place _ (58 :: prefix head ++ dotted bs) (bytes_of head ++ bs) (Some 0%nat)).
  - unfold place. rewrite bool_decide_false by (rewrite length_app, length_bytes_of; lia).
    rewrite take_0, drop_0, length_app, length_bytes_of. cbn [app]. do 3 f_equal. lia.
  - done.
  - cbn [pton6_loop]. change (xdigit 58) with (@None Z). cbn iota. cbn [Z.eqb Pos.eqb length].
    rewrite pton6_loop_prefix by (done || (cbn; lia) || (intros E; rewrite E in Hld; cbn in Hld; lia)).
    apply pton6_loop_dotted; [done|done|]. cbn [app]. rewrite length_bytes_of. lia.
  - intros c [= <-]. lia.
  - rewrite length_app, length_bytes_of. lia.
Qed.

Lemma length_suffix ws : Forall is_word ws → (length (suffix ws) <= 5 * length ws)%nat.
Proof.
  induction 1 as [|w ws Hw Hws IH]; [done|]. change (suffix (w :: ws)) with ((58 :: hexw w) ++ suffix ws).
  rewrite length_app. pose proof (hexw_length w Hw). cbn [length]. lia.
Qed.

Lemma length_join ws : Forall is_word ws → (length (join ws) <= 5 * length ws)%nat.
Proof.
  destruct ws as [|w ws]; [done|]. intros Hf. apply Forall_cons in Hf as [Hw Hws]. rewrite join_cons, length_app.
  pose proof (hexw_length w Hw). pose proof (length_suffix ws Hws). cbn [length]. lia.
Qed.

(** The colon after a run at the end. *)
Definition trailing (best : zrun) : str :=
  if negb (base best =? -1) && (base best + len best =? 8) then [58] else [].

Lemma inet_ntop6_formatted src tp size :
  format6 (words_of src) 0 src (words_of src) (best_run (words_of src)) [] = Ok (Some tp) →
  let t := tp ++ trailing (best_run (words_of src)) in
  inet_ntop6 src size = Ok (if Z.of_nat (length t) <? size then Some t else None).
Proof.
  intros Hf t. unfold inet_ntop6. rewrite Hf. cbn [mbind result_bind].
  replace (if negb (base (best_run (words_of src)) =? -1) && (base (best_run (words_of src)) + len (best_run (words_of src)) =? 8)
           then tp ++ [58] else tp) with t
    by (unfold t, trailing; destruct (_ && _); [done|by rewrite app_nil_r]).
  destruct (Z.ltb_spec size (Z.of_nat (length t) + 1)), (Z.ltb_spec (Z.of_nat (length t)) size); try lia; done.
Qed.

Lemma not_in_run best k : base best = -1 ∨ k < base best ∨ base best + len best <= k → in_run best k = false.
Proof.
  intros H. unfold in_run. destruct (Z.eqb_spec (base best) (-1)) as [|Hne]; [done|].
  destruct (Z.leb_spec (base best) k), (Z.ltb_spec k (base best + len best)); cbn; try done. lia.
Qed.

(** An internet address is written in dotted form. *)
Definition special (best : zrun) (ws : list Z) : Prop :=
  base best = 0 ∧ (len best = 6 ∨ (len best = 5 ∧ ws !! 5%nat = Some 0xffff)).

Lemma not_special_6 best ws k :
  ¬ special best ws → k < base best ∨ base best + len best <= k → 0 <= k → k = 6 → encapsulated best ws = false.
Proof.
  intros Hs Hk Hk0 ->. unfold encapsulated. destruct (Z.eqb_spec (base best) 0) as [Hb|]; [|done]. cbn [andb].
  apply not_true_iff_false. intros H. apply Hs. split; [done|].
  apply orb_true_iff in H as [[H%Z.eqb_eq|[H%Z.eqb_eq _]%andb_true_iff]%orb_true_iff|[H%Z.eqb_eq H5%Z.eqb_eq]%andb_true_iff].
  - by left.
  - lia.
  - right. split; [done|]. by destruct (ws !! 5%nat); cbn in H5; subst.
Qed.

Section Text.

Context (src : list Z) (Hlen : length src = 16%nat) (Hbytes : Forall is_byte src).

Let ws := words_of src.
Let best := best_run ws.

Definition readable (t : str) : Prop := inet_pton6 t = Some src ∧ (length t <= 45)%nat.

Lemma ws_words : bytes_of ws = src ∧ Forall is_word ws ∧ length ws = 8%nat.
Proof. by apply words_of_bytes. Qed.

Lemma text_plain :
  base best = -1 → ∃ tp, format6 ws 0 src ws best [] = Ok (Some tp) ∧ readable (tp ++ trailing best).
Proof.
  intros Hb. destruct ws_words as (H1 & H2 & H3). exists (join ws). split.
  - rewrite <- (app_nil_r ws) at 1. rewrite format6_first; [done|done|]. intros k Hk. split; [by apply not_in_run; left|].
    intros ->. unfold encapsulated. by rewrite Hb.
  - unfold trailing. rewrite Hb. cbn [Z.eqb negb andb]. rewrite app_nil_r. split.
    + by rewrite inet_pton6_plain, H1.
    + pose proof (length_join ws H2). lia.
Qed.

Lemma text_run :
  base best ≠ -1 → ¬ special best ws →
  ∃ tp, format6 ws 0 src ws best [] = Ok (Some tp) ∧ readable (tp ++ trailing best).
Proof.
  intros Hb Hs. destruct ws_words as (H1 & H2 & H3). destruct (best_run_zeros ws) as [|[Hz Hl]]; [done|]. fold best in Hz, Hl.
  destruct (zeros_split _ _ _ Hz) as (p & q & Hws & Hp). destruct Hz as (Hb0 & _ & _).
  destruct (Z.to_nat (len best)) as [|l] eqn:El; [lia|].
  assert (Hn : (length p + S l + length q = 8)%nat) by (rewrite <- H3, Hws, !length_app, length_replicate; lia).
  rewrite Hws in H2. apply Forall_app in H2 as [Hp2 H2]. apply Forall_app in H2 as [_ Hq2].
  exists ((join p ++ [58]) ++ suffix q). split.
  - rewrite Hws at 1. rewrite format6_first; [|done|].
    2:{ intros k Hk. split; [apply not_in_run; lia|]. apply (not_special_6 best ws k Hs); lia. }
    rewrite Hp, format6_run by lia. rewrite <- (app_nil_r q) at 1. rewrite format6_words; [done|done|lia|].
    intros k Hk. split; [apply not_in_run; lia|]. apply (not_special_6 best ws k Hs); lia.
  - assert (Ht : ((join p ++ [58]) ++ suffix q) ++ trailing best = join p ++ 58 :: 58 :: join q).
    { unfold trailing. rewrite (proj2 (Z.eqb_neq (base best) (-1))) by done. cbn [negb andb]. rewrite <- !app_assoc.
      destruct q as [|w q]; [by rewrite (proj2 (Z.eqb_eq _ _)) by (cbn [length] in *; lia)|].
      rewrite (proj2 (Z.eqb_neq _ _)) by (cbn [length] in *; lia). rewrite join_cons, app_nil_r. done. }
    rewrite Ht. split.
    + rewrite (inet_pton6_run p q (S l)) by (done || lia). by rewrite <- Hws, H1.
    + pose proof (length_join p Hp2). pose proof (length_join q Hq2). rewrite length_app. cbn [length]. lia.
Qed.

Lemma last_four : ∃ bs, drop 12 src = bs ∧ length bs = 4%nat ∧ Forall is_byte bs.
Proof. exists (drop 12 src). split; [done|]. rewrite length_drop. split; [lia|by apply Forall_drop]. Qed.

(** The step that writes the address. *)
Lemma format6_address w rest tp :
  encapsulated best ws = true → in_run best 6 = false → (length tp <= 20)%nat →
  format6 (w :: rest) 6 src ws best tp = Ok (Some ((tp ++ [58]) ++ dotted (drop 12 src))).
Proof.
  intros He Hr Htp. destruct last_four as (bs & Hd & Hl & Hf). rewrite Hd. pose proof (length_dotted bs Hl Hf).
  cbn [format6]. rewrite Hr, He. cbn [Z.eqb negb Pos.eqb andb]. rewrite Hd, inet_ntop4_spec by done.
  cbn [mbind result_bind]. rewrite (proj2 (Z.ltb_lt _ _)); [done|]. unfold TMP6. rewrite length_app. cbn. lia.
Qed.

Lemma text_special :
  special best ws → ∃ tp, format6 ws 0 src ws best [] = Ok (Some tp) ∧ readable (tp ++ trailing best).
Proof.
  intros [Hb Hs]. destruct ws_words as (H1 & H2 & H3). destruct (best_run_zeros ws) as [|[Hz Hl2]]; [fold best in H; lia|].
  fold best in Hz, Hl2. destruct (zeros_split _ _ _ Hz) as (p & q & Hws & Hp). rewrite Hb in Hp. destruct p; [|cbn in Hp; lia].
  destruct last_four as (bs & Hd & Hl & Hf). pose proof (length_dotted bs Hl Hf) as Hld.
  assert (Hsrc : src = bytes_of (take 6 ws) ++ bs).
  { rewrite <- Hd, <- (take_drop 12 src) at 1. f_equal. rewrite <- H1 at 1. rewrite <- (take_drop 6 ws) at 1.
    rewrite bytes_of_app, take_app_length'; [done|]. rewrite length_bytes_of, length_take. lia. }
  assert (Htr : trailing best = []).
  { unfold trailing. rewrite Hb. cbn [Z.eqb negb andb]. rewrite (proj2 (Z.eqb_neq _ _)); [done|]. lia. }
  assert (He : encapsulated best ws = true).
  { unfold encapsulated. rewrite Hb. destruct Hs as [->|[-> ->]]; [done|]. done. }
  rewrite Htr. setoid_rewrite app_nil_r. cbn [app] in Hws. destruct Hs as [Hl6|[Hl5 Hf5]].
  - rewrite Hl6 in Hws. destruct q as [|w6 q]; [by rewrite Hws in H3|]. eexists. split.
    + rewrite Hws at 1. change (Z.to_nat 6) with 6%nat.
      pose proof (format6_run src ws best 5 (w6 :: q) [] ltac:(lia) ltac:(lia)) as Hrun. rewrite Hb, Hl6 in Hrun. rewrite Hrun.
      change (0 + 6) with 6. rewrite format6_address by (done || (apply not_in_run; lia) || (vm_compute; lia)). reflexivity.
    + rewrite Hd. cbn [app]. split.
      * change (58 :: 58 :: dotted bs) with (58 :: 58 :: prefix [] ++ dotted bs).
        rewrite inet_pton6_encapsulated by (done || cbn; lia). rewrite Hsrc, Hws. done.
      * cbn [length]. lia.
  - rewrite Hl5 in Hws. destruct q as [|w5 [|w6 q]]; [by rewrite Hws in H3|by rewrite Hws in H3|].
    rewrite Hws in Hf5. injection Hf5 as ->. eexists. split.
    + rewrite Hws at 1. change (Z.to_nat 5) with 5%nat.
      pose proof (format6_run src ws best 4 (0xffff :: w6 :: q) [] ltac:(lia) ltac:(lia)) as Hrun. rewrite Hb, Hl5 in Hrun. rewrite Hrun.
      change (0 + 5) with 5. rewrite (format6_words src ws best [0xffff] (w6 :: q) 5 _); [|by repeat constructor|lia|].
      2:{ intros k Hk. cbn in Hk. split; [apply not_in_run; lia|lia]. }
      cbn [length Z.of_nat Z.add]. rewrite format6_address by (done || (apply not_in_run; lia) || (vm_compute; lia)). reflexivity.
    + rewrite Hd. split.
      * change ((([] ++ [58]) ++ suffix [65535]) ++ [58]) with (58 :: 58 :: prefix [65535]).
        change ((58 :: 58 :: prefix [65535]) ++ dotted bs) with (58 :: 58 :: prefix [65535] ++ dotted bs).
        rewrite inet_pton6_encapsulated by (done || (by repeat constructor) || cbn; lia). rewrite Hsrc, Hws. done.
      * rewrite length_app. assert (length ((([] ++ [58]) ++ suffix [65535]) ++ [58]) = 7%nat) as -> by (vm_compute; reflexivity). lia.
Qed.

End Text.

Lemma inet_ntop6_spec src :
  length src = 16%nat → Forall is_byte src →
  ∃ t, inet_pton6 t = Some src ∧ (length t <= 45)%nat
    ∧ ∀ size, inet_ntop6 src size = Ok (if Z.of_nat (length t) <? size then Some t else None).
Proof.
  intros Hl Hf.
  assert (∃ tp, format6 (words_of src) 0 src (words_of src) (best_run (words_of src)) [] = Ok (Some tp)
    ∧ readable src (tp ++ trailing (best_run (words_of src)))) as (tp & Hr & Hp & Ht).
  { destruct (decide (base (best_run (words_of src)) = -1)) as [|Hb]; [by apply text_plain|].
    destruct (decide (special (best_run (words_of src)) (words_of src))) as [|Hs]; [by apply text_special|by apply text_run]. }
  exists (tp ++ trailing (best_run (words_of src))). split_and!; [done|done|]. intros size.
  by apply inet_ntop6_formatted.
Qed.

(** Addresses of a family. *)
Definition address (af : Z) (a : list Z) : Prop :=
  Forall is_byte a ∧ ((af = AF_INET ∧ length a = 4%nat) ∨ (af = AF_INET6 ∧ length a = 16%nat)).

(** [INET_ADDRSTRLEN] and [INET6_ADDRSTRLEN] of an address. *)
Definition ADDRSTRLEN (af : Z) : Z := if af =? AF_INET then 16 else 46.

(** [C24] Every address has a text that fits the documented size and is read back as the same
    address; [uinet_inet_ntop] gives that text whenever the buffer can hold it and its
    terminator, and a null pointer otherwise.  Of internet addresses, [uinet_inet_pton]
    accepts nothing but these texts. *)
Theorem uinet_inet_roundtrip af a :
  address af a →
  ∃ t, uinet_inet_pton af t = Valid a ∧ Z.of_nat (length t) < ADDRSTRLEN af
    ∧ (∀ size, uinet_inet_ntop af a size = Ok (if Z.of_nat (length t) <? size then Some t else None))
    ∧ (af = AF_INET → ∀ t', uinet_inet_pton af t' = Valid a → t' = t).
Proof.
  intros [Hf [[-> Hl]|[-> Hl]]]; unfold uinet_inet_pton, uinet_inet_ntop, inet_pton, inet_ntop; cbn [Z.eqb Pos.eqb AF_INET AF_INET6].
  - exists (dotted a). rewrite inet_pton4_dotted by done. pose proof (length_dotted a Hl Hf). split_and!; [done|cbn; lia| |].
    + intros size. by apply inet_ntop4_spec.
    + intros _ t' Ht'. destruct (inet_pton4 t') as [bs|] eqn:E; [|done]. injection Ht' as ->.
      destruct (pton4_loop_sound t' false 0 [] 0 a p4_start E) as [<- _]. done.
  - destruct (inet_ntop6_spec a Hl Hf) as (t & Hp & Ht & Hn). exists t. rewrite Hp. split_and!; [done|cbn; lia|done|done].
Qed.

(** A link-local address, shortened. *)
Definition fe80 : list Z := [0xfe; 0x80; 0; 0; 0; 0; 0; 0; 0; 0; 0; 0; 0; 1; 0; 2].

Lemma uinet_inet_roundtrip_witness :
  uinet_inet_ntop AF_INET6 fe80 46 = Ok (Some (lit "fe80::1:2"))
  ∧ ∃ t, uinet_inet_pton AF_INET6 t = Valid fe80 ∧ Z.of_nat (length t) < ADDRSTRLEN AF_INET6
    ∧ (∀ size, uinet_inet_ntop AF_INET6 fe80 size = Ok (if Z.of_nat (length t) <? size then Some t else None))
    ∧ (AF_INET6 = AF_INET → ∀ t', uinet_inet_pton AF_INET6 t' = Valid fe80 → t' = t).
Proof.
  split; [vm_compute; reflexivity|]. apply (uinet_inet_roundtrip AF_INET6 fe80). split; [|by right].
  repeat (apply Forall_cons; split; [unfold is_byte; lia|]). apply Forall_nil. done.
Defined.

(** [uinet_inet_ntoa] does not look at the size it is given. *)
Lemma uinet_inet_ntoa_overflow : uinet_inet_ntoa [255; 255; 255; 255] 12 = Fault Overflow.
Proof. vm_compute. reflexivity. Qed.

End Inet6TextSpec.
