(* ===== verification/Time.v ===== *)
(** Time arithmetic and rate limits (src/src/lib/libuinet/uinet_kern_time.c), the time
    counter (uinet_timecounter.c) and the rounding of table sizes (uinet_init.c).  A
    [struct timeval] holds two 64-bit numbers. *)
From S2P Require Import Prelude.

Module Time.

Definition EINVAL : Z := 22.

Record timeval : Type := mk_tv { tv_sec : Z; tv_usec : Z }.
Record itimerval : Type := mk_itv { it_interval : timeval; it_value : timeval }.

Definition timevalisset (t : timeval) : bool := negb (tv_sec t =? 0) || negb (tv_usec t =? 0).

(** [timevalcmp(t, u, >=)]. *)
Definition timevalcmp_ge (t u : timeval) : bool :=
  if tv_sec t =? tv_sec u then tv_usec u <=? tv_usec t else tv_sec u <=? tv_sec t.

(** ** Timers *)

(** [tick] is the length of a tick in microseconds; the result is the error and the value. *)
Definition itimerfix (tick : Z) (tv : timeval) : Z * timeval :=
  if (tv_sec tv <? 0) || (tv_usec tv <? 0) || (1000000 <=? tv_usec tv) then (EINVAL, tv)
  else if (tv_sec tv =? 0) && negb (tv_usec tv =? 0) && (tv_usec tv <? tick) then (0, mk_tv (tv_sec tv) tick)
  else (0, tv).

(** The label [expire], with the microseconds that have passed since the timer expired. *)
Definition expire (itp : itimerval) (usec : Z) : Z * itimerval :=
  if timevalisset (it_interval itp) then
    let v := mk_tv (tv_sec (it_interval itp)) (s64 (tv_usec (it_interval itp) - usec)) in
    let v := if tv_usec v <? 0 then mk_tv (s64 (tv_sec v - 1)) (s64 (tv_usec v + 1000000)) else v in
    (0, mk_itv (it_interval itp) v)
  else (0, mk_itv (it_interval itp) (mk_tv (tv_sec (it_value itp)) 0)).

Definition itimerdecr (itp : itimerval) (usec : Z) : Z * itimerval :=
  if (tv_usec (it_value itp) <? usec) && (tv_sec (it_value itp) =? 0) then
    expire itp (s32 (usec - tv_usec (it_value itp)))
  else
    let v := if tv_usec (it_value itp) <? usec
             then mk_tv (s64 (tv_sec (it_value itp) - 1)) (s64 (tv_usec (it_value itp) + 1000000))
             else it_value itp in
    let v := mk_tv (tv_sec v) (s64 (tv_usec v - usec)) in
    let itp := mk_itv (it_interval itp) v in
    if timevalisset v then (1, itp) else expire itp 0.

(** ** Sums and differences *)

Definition timevalfix (t : timeval) : timeval :=
  let t := if tv_usec t <? 0 then mk_tv (s64 (tv_sec t - 1)) (s64 (tv_usec t + 1000000)) else t in
  if 1000000 <=? tv_usec t then mk_tv (s64 (tv_sec t + 1)) (s64 (tv_usec t - 1000000)) else t.

Definition timevaladd (t1 t2 : timeval) : timeval :=
  timevalfix (mk_tv (s64 (tv_sec t1 + tv_sec t2)) (s64 (tv_usec t1 + tv_usec t2))).

Definition timevalsub (t1 t2 : timeval) : timeval :=
  timevalfix (mk_tv (s64 (tv_sec t1 - tv_sec t2)) (s64 (tv_usec t1 - tv_usec t2))).

(** ** Rate limits *)

(** [tv] is what [getmicrouptime] says; the result and [*lasttime]. *)
Definition ratecheck (tv lasttime mininterval : timeval) : Z * timeval :=
  let delta := timevalsub tv lasttime in
  if timevalcmp_ge delta mininterval || ((tv_sec lasttime =? 0) && (tv_usec lasttime =? 0)) then (1, tv)
  else (0, lasttime).

(** At tick [now]; the result, [lasttime->tv_sec] and [*curpps].  The difference is one of
    64-bit numbers, of which the low 32 bits are compared with [hz]. *)
Definition ppsratecheck (now hz : Z) (lasttime curpps maxpps : Z) : Z * Z * Z :=
  if (lasttime =? 0) || (u32 hz <=? u32 (now - lasttime)) then (b2z (negb (maxpps =? 0)), now, 1)
  else
    let curpps := s32 (curpps + 1) in
    (b2z ((maxpps <? 0) || (curpps <? maxpps)), lasttime, curpps).

(** ** The time counter *)

Definition UHI_NSEC_PER_SEC : Z := 1000000000.

(** [ns] is the monotonic clock of the host. *)
Definition uinet_tc_get_timecount (HZ ns : Z) : Z := u32 (u64 (ns * HZ) / UHI_NSEC_PER_SEC).

(** ** Table sizes *)

Definition powerof2 (x : Z) : bool := Z.land (u32 (x - 1)) x =? 0.

(** [while (n != 1)], for at most [fuel] rounds; every round halves [n], so that 32 are
    enough. *)
Fixpoint shift_count (fuel : nat) (n shift : Z) : option Z :=
  if n =? 1 then Some shift
  else match fuel with O => None | S fuel => shift_count fuel (Z.shiftr n 1) (shift + 1) end.

Definition roundup_nearest_power_of_2 (n : Z) : option Z :=
  if powerof2 n then Some n
  else shift ← shift_count 32 n 0; Some (u32 (Z.shiftl 1 shift)).

End Time.
