(* ===== verification/TimeSpec.v ===== *)
(** Correctness of Time.v: interval timers do not drift, rate limits admit what they say,
    differences are exact, table sizes are powers of two. *)
From S2P Require Import Prelude Time.

Module TimeSpec.

Import Time.

(** A time in microseconds, and the times of the kernel: not before the beginning, far from
    overflow, with the microseconds in range. *)
Definition usecs (t : timeval) : Z := tv_sec t * 1000000 + tv_usec t.
Definition normal (t : timeval) : Prop := 0 <= tv_sec t < 1152921504606846976 ∧ 0 <= tv_usec t < 1000000.

Ltac no_wrap :=
  repeat match goal with
  | |- context [wrap_s 64 ?z] => rewrite (wrap_s_id 64 z) by (change (2 ^ (64 - 1)) with 9223372036854775808; lia)
  | |- context [wrap_s 32 ?z] => rewrite (wrap_s_id 32 z) by (change (2 ^ (32 - 1)) with 2147483648; lia)
  end.

Lemma timevalisset_usecs t : normal t → timevalisset t = negb (usecs t =? 0).
Proof.
  intros [Hs Hu]. unfold timevalisset, usecs.
  destruct (Z.eqb_spec (tv_sec t) 0), (Z.eqb_spec (tv_usec t) 0), (Z.eqb_spec (tv_sec t * 1000000 + tv_usec t) 0); cbn; lia.
Qed.

(** Differences of times in order are exact. *)
Lemma timevalsub_exact t1 t2 :
  normal t1 → normal t2 → usecs t2 <= usecs t1 →
  normal (timevalsub t1 t2) ∧ usecs (timevalsub t1 t2) = usecs t1 - usecs t2.
Proof.
  destruct t1 as [s1 u1], t2 as [s2 u2]. unfold normal, usecs, timevalsub, timevalfix. cbn [tv_sec tv_usec].
  intros [H1 H2] [H3 H4] Hle. no_wrap. destruct (Z.ltb_spec (u1 - u2) 0); cbn [tv_sec tv_usec]; no_wrap;
    (rewrite (proj2 (Z.leb_gt _ _)) by lia); cbn [tv_sec tv_usec]; lia.
Qed.

Lemma timevaladd_exact t1 t2 :
  normal t1 → normal t2 →
  usecs (timevaladd t1 t2) = usecs t1 + usecs t2 ∧ 0 <= tv_usec (timevaladd t1 t2) < 1000000.
Proof.
  destruct t1 as [s1 u1], t2 as [s2 u2]. unfold normal, usecs, timevaladd, timevalfix. cbn [tv_sec tv_usec].
  intros [H1 H2] [H3 H4]. no_wrap. rewrite (proj2 (Z.ltb_ge _ 0)) by lia. cbn [tv_sec tv_usec].
  destruct (Z.leb_spec 1000000 (u1 + u2)); cbn [tv_sec tv_usec]; no_wrap; lia.
Qed.

Lemma timevalcmp_ge_usecs t u : normal t → normal u → timevalcmp_ge t u = (usecs u <=? usecs t).
Proof.
  destruct t as [s1 u1], u as [s2 u2]. unfold normal, usecs, timevalcmp_ge. cbn. intros [] [].
  destruct (Z.eqb_spec s1 s2), (Z.leb_spec u2 u1), (Z.leb_spec s2 s1), (Z.leb_spec (s2 * 1000000 + u2) (s1 * 1000000 + u1)); lia.
Qed.

(** ** Timers *)

(** The reload: [over] microseconds of the next interval have passed. *)
Lemma expire_spec iv v over :
  normal iv → 0 < usecs iv → 0 <= over < 1000000 → over <= usecs iv →
  ∃ v', expire (mk_itv iv v) over = (0, mk_itv iv v') ∧ normal v' ∧ usecs v' = usecs iv - over.
Proof.
  intros Hn Hset Ho Hle. unfold expire. cbn [it_interval it_value]. rewrite timevalisset_usecs, (proj2 (Z.eqb_neq _ 0)) by (done || lia).
  cbn [negb]. destruct iv as [s u]. unfold normal, usecs in *. cbn [tv_sec tv_usec] in *. no_wrap.
  eexists. split; [reflexivity|]. destruct (Z.ltb_spec (u - over) 0); cbn [tv_sec tv_usec]; no_wrap; lia.
Qed.

(** One decrement of a periodic timer. *)
Lemma itimerdecr_step iv v u :
  normal iv → normal v → 0 < usecs iv → 0 <= u < 1000000 → u <= usecs iv →
  ∃ v', normal v' ∧
    if u <? usecs v then itimerdecr (mk_itv iv v) u = (1, mk_itv iv v') ∧ usecs v' = usecs v - u
    else itimerdecr (mk_itv iv v) u = (0, mk_itv iv v') ∧ usecs v' = usecs v - u + usecs iv.
Proof.
  intros Hiv Hv Hset Hu Hle. unfold itimerdecr. cbn [it_interval it_value].
  destruct v as [s m]. unfold normal in Hv. cbn [tv_sec tv_usec] in *. change (usecs (mk_tv s m)) with (s * 1000000 + m) in *.
  destruct (Z.ltb_spec m u) as [Hm|Hm], (Z.eqb_spec s 0) as [->|Hs]; cbn [andb].
  - rewrite (proj2 (Z.ltb_ge u _)) by lia. no_wrap.
    destruct (expire_spec iv (mk_tv 0 m) (u - m) Hiv Hset) as (v' & He & Hn & Hus); [lia|lia|].
    exists v'. split; [done|]. split; [done|lia].
  - rewrite (proj2 (Z.ltb_lt u _)) by lia. cbn [tv_sec tv_usec]. no_wrap.
    exists (mk_tv (s - 1) (m + 1000000 - u)). split; [split; cbn; lia|].
    rewrite timevalisset_usecs by (split; cbn; lia). unfold usecs. cbn [tv_sec tv_usec].
    rewrite (proj2 (Z.eqb_neq _ 0)) by lia. split; [done|lia].
  - cbn [tv_sec tv_usec]. no_wrap. rewrite timevalisset_usecs by (split; cbn; lia). change (usecs (mk_tv ?a ?b)) with (a * 1000000 + b).
    destruct (Z.eqb_spec (0 * 1000000 + (m - u)) 0) as [He0|He0]; cbn [negb].
    + rewrite (proj2 (Z.ltb_ge u _)) by lia.
      destruct (expire_spec iv (mk_tv 0 (m - u)) 0 Hiv Hset) as (v' & He & Hn & Hus); [lia|lia|].
      exists v'. split; [done|]. split; [done|lia].
    + rewrite (proj2 (Z.ltb_lt u _)) by lia. exists (mk_tv 0 (m - u)). split; [split; cbn; lia|].
      split; [done|]. unfold usecs. cbn. lia.
  - cbn [tv_sec tv_usec]. no_wrap. rewrite timevalisset_usecs by (split; cbn; lia). change (usecs (mk_tv ?a ?b)) with (a * 1000000 + b).
    rewrite (proj2 (Z.eqb_neq _ 0)) by lia. cbn [negb].
    rewrite (proj2 (Z.ltb_lt u _)) by lia. exists (mk_tv s (m - u)). split; [split; cbn; lia|].
    split; [done|]. unfold usecs. cbn. lia.
Qed.

(** A timer decremented again and again: how often it expires, and what is left. *)
Fixpoint decr_all (itp : itimerval) (us : list Z) : Z * itimerval :=
  match us with
  | [] => (0, itp)
  | u :: us =>
      let '(r, itp) := itimerdecr itp u in
      let '(e, itp) := decr_all itp us in
      ((1 - r) + e, itp)
  end.

Definition sum (l : list Z) : Z := foldr Z.add 0 l.

(** A periodic timer does not drift: whatever the steps in which time passes, each shorter
    than a second and than the interval, what is left of it and the time passed make up its
    first value and one interval for each time it expired, exactly; so that it expires for
    the n-th time when the first value and [n - 1] intervals have passed. *)
Theorem itimerdecr_no_drift iv v us :
  normal iv → normal v → 0 < usecs iv → Forall (λ u, 0 <= u < 1000000 ∧ u <= usecs iv) us →
  ∃ e v', decr_all (mk_itv iv v) us = (e, mk_itv iv v') ∧ normal v' ∧ 0 <= e
    ∧ usecs v' + sum us = usecs v + e * usecs iv ∧ usecs v' <= Z.max (usecs v) (usecs iv).
Proof.
  intros Hiv Hv Hset Hus. revert v Hv. induction Hus as [|u us [Hu Hle] Hus IH]; intros v Hv; cbn [decr_all].
  { exists 0, v. split; [done|]. split; [done|]. cbn. lia. }
  destruct (itimerdecr_step iv v u Hiv Hv Hset Hu Hle) as (v1 & Hv1 & Hr).
  destruct (IH v1 Hv1) as (e & v' & Hd & Hn & He & Hsum & Hmax).
  destruct (Z.ltb_spec u (usecs v)); destruct Hr as [-> Hu1]; rewrite Hd; (eexists _, v'; split; [reflexivity|]);
    cbn [sum foldr]; fold (sum us); (split; [done|]); lia.
Qed.

Lemma itimerdecr_no_drift_witness :
  ∃ e v', decr_all (mk_itv (mk_tv 0 25000) (mk_tv 0 10000)) [10000; 10000; 10000; 10000; 10000; 10000]
            = (e, mk_itv (mk_tv 0 25000) v') ∧ normal v' ∧ 0 <= e
    ∧ usecs v' + sum [10000; 10000; 10000; 10000; 10000; 10000] = usecs (mk_tv 0 10000) + e * usecs (mk_tv 0 25000)
    ∧ usecs v' <= Z.max (usecs (mk_tv 0 10000)) (usecs (mk_tv 0 25000)).
Proof.
  refine (itimerdecr_no_drift (mk_tv 0 25000) (mk_tv 0 10000) _ _ _ _ _); [split; cbn; lia|split; cbn; lia|unfold usecs; cbn; lia|].
  repeat (apply Forall_cons; split; [unfold usecs; cbn; lia|]). apply Forall_nil. done.
Defined.

(** ** Rate limits *)

(** [ratecheck] admits the first call, and later exactly those at least the interval after
    the last one admitted. *)
Lemma ratecheck_spec tv lasttime mininterval :
  normal tv → normal lasttime → normal mininterval → usecs lasttime <= usecs tv →
  ratecheck tv lasttime mininterval =
    if (usecs lasttime =? 0) || (usecs mininterval <=? usecs tv - usecs lasttime) then (1, tv) else (0, lasttime).
Proof.
  intros Ht Hl Hm Hle. unfold ratecheck. destruct (timevalsub_exact tv lasttime Ht Hl Hle) as [Hn Hd].
  rewrite timevalcmp_ge_usecs, Hd by done.
  assert ((tv_sec lasttime =? 0) && (tv_usec lasttime =? 0) = (usecs lasttime =? 0)) as ->.
  { destruct Hl. unfold usecs. destruct (Z.eqb_spec (tv_sec lasttime) 0), (Z.eqb_spec (tv_usec lasttime) 0),
      (Z.eqb_spec (tv_sec lasttime * 1000000 + tv_usec lasttime) 0); cbn; lia. }
  by rewrite orb_comm.
Qed.

(** Calls of [ppsratecheck] at the ticks of a list: how many are admitted. *)
Fixpoint pps_calls (nows : list Z) (hz lasttime curpps maxpps : Z) : Z :=
  match nows with
  | [] => 0
  | now :: nows =>
      let '(r, lasttime, curpps) := ppsratecheck now hz lasttime curpps maxpps in
      r + pps_calls nows hz lasttime curpps maxpps
  end.

(** Within a second of tick [t0]. *)
Definition within (hz t0 now : Z) : Prop := u32 (now - t0) < u32 hz.

Lemma pps_within nows hz t0 curpps maxpps :
  Forall (within hz t0) nows → t0 ≠ 0 → 1 <= curpps → curpps + Z.of_nat (length nows) < 2 ^ 31 →
  pps_calls nows hz t0 curpps maxpps =
    if maxpps <? 0 then Z.of_nat (length nows)
    else Z.max 0 (Z.min (Z.of_nat (length nows)) (maxpps - 1 - curpps)).
Proof.
  intros Hw Ht. change (2 ^ 31) with 2147483648. revert curpps. induction Hw as [|now nows Hn Hw IH]; intros curpps Hc Hlt; cbn [pps_calls].
  { destruct (maxpps <? 0); cbn; lia. }
  cbn [length] in Hlt. unfold ppsratecheck. rewrite (proj2 (Z.eqb_neq t0 0)) by done. unfold within in Hn.
  rewrite (proj2 (Z.leb_gt _ _)) by done. cbn [orb]. no_wrap. rewrite IH by lia. cbn [length].
  destruct (Z.ltb_spec maxpps 0); cbn [orb]; [cbn; lia|]. destruct (Z.ltb_spec (curpps + 1) maxpps); cbn [b2z]; lia.
Qed.

(** The calls of one second, the first of which opens it: all are admitted without a limit
    and none with a limit of zero; otherwise one call is admitted and then as many as make
    one less than the limit. *)
Theorem ppsratecheck_admits now nows hz lasttime curpps maxpps :
  lasttime = 0 ∨ u32 hz <= u32 (now - lasttime) → now ≠ 0 → Forall (within hz now) nows →
  Z.of_nat (length nows) + 1 < 2 ^ 31 →
  pps_calls (now :: nows) hz lasttime curpps maxpps =
    let n := Z.of_nat (length nows) + 1 in
    if maxpps <? 0 then n else if maxpps =? 0 then 0 else Z.min n (Z.max 1 (maxpps - 1)).
Proof.
  intros Hfirst Hnow Hw Hlt. cbn [pps_calls]. unfold ppsratecheck.
  replace ((lasttime =? 0) || (u32 hz <=? u32 (now - lasttime))) with true.
  2:{ destruct Hfirst as [->|H]; [done|]. rewrite (proj2 (Z.leb_le _ _)) by done. by rewrite orb_true_r. }
  rewrite pps_within by (done || lia). destruct (Z.ltb_spec maxpps 0), (Z.eqb_spec maxpps 0); cbn [negb b2z]; lia.
Qed.

(** A limit of three admits two calls of four. *)
Lemma ppsratecheck_admits_witness :
  pps_calls [500; 510; 520; 599] 100 0 0 3 = 2
  ∧ pps_calls [500; 510; 520; 599] 100 0 0 3 =
    let n := Z.of_nat (length [510; 520; 599]) + 1 in
    if 3 <? 0 then n else if 3 =? 0 then 0 else Z.min n (Z.max 1 (3 - 1)).
Proof.
  split; [reflexivity|]. apply (ppsratecheck_admits 500 [510; 520; 599] 100 0 0 3); [by left|lia| |cbn; lia].
  repeat constructor.
Defined.

(** ** The time counter *)

(** The counter is the clock of the host in ticks, as long as the product fits. *)
Lemma uinet_tc_get_timecount_spec HZ ns :
  0 <= ns → 0 < HZ → ns * HZ < 2 ^ 64 →
  uinet_tc_get_timecount HZ ns = u32 (ns * HZ / 1000000000).
Proof. intros Hn Hz Hlt. unfold uinet_tc_get_timecount. by rewrite (wrap_u_id 64) by nia. Qed.

(** With 100 ticks a second it falls back to zero after 2135 days. *)
Lemma uinet_tc_get_timecount_wraps :
  uinet_tc_get_timecount 100 184467440737095516 = 1266874889 ∧ uinet_tc_get_timecount 100 184467440737095517 = 0.
Proof. split; reflexivity. Qed.

(** ** Table sizes *)

Lemma shift_count_spec fuel : ∀ n s, 0 < n < 2 ^ Z.of_nat fuel → shift_count fuel n s = Some (s + Z.log2 n).
Proof.
  induction fuel as [|fuel IH]; intros n s Hn; cbn [shift_count]; [cbn in Hn; lia|].
  destruct (Z.eqb_spec n 1) as [->|H1]; [cbn; f_equal; lia|].
  rewrite Z.shiftr_div_pow2 by lia. change (2 ^ 1) with 2. rewrite Nat2Z.inj_succ, Z.pow_succ_r in Hn by lia.
  rewrite IH.
  - f_equal. replace n with (2 * (n / 2) + n mod 2) at 2 by (symmetry; apply Z.div_mod; lia).
    assert (0 < n / 2) by (apply Z.div_str_pos; lia). destruct (Z.mod_pos_bound n 2 ltac:(lia)).
    assert (n mod 2 = 0 ∨ n mod 2 = 1) as [->| ->] by lia.
    + rewrite Z.add_0_r, Z.log2_double by lia. lia.
    + rewrite Z.log2_succ_double by lia. lia.
  - split; [apply Z.div_str_pos; lia|apply Z.div_lt_upper_bound; lia].
Qed.

(** A number whose bits and its predecessor's have nothing in common is a power of two. *)
Lemma powerof2_inv n : 0 < n < 2 ^ 32 → powerof2 n = true → n = 2 ^ Z.log2 n.
Proof.
  intros Hn Hp. unfold powerof2 in Hp. rewrite wrap_u_id in Hp by lia. apply Z.eqb_eq in Hp.
  destruct (Z.log2_spec n ltac:(lia)) as [Hlo Hhi]. set (k := Z.log2 n) in *.
  assert (0 <= k) as Hk by apply Z.log2_nonneg.
  destruct (decide (n = 2 ^ k)) as [|Hne]; [done|]. exfalso.
  assert (Z.log2 (n - 1) = k) as Hl by (apply Z.log2_unique; lia).
  assert (Z.testbit (Z.land (n - 1) n) k = true) as Hb.
  { rewrite Z.land_spec. rewrite <- Hl at 1. rewrite Z.bit_log2 by lia. unfold k. by rewrite Z.bit_log2 by lia. }
  by rewrite Hp, Z.bits_0 in Hb.
Qed.

(** The size given to a hash table is the power of two that does not exceed the number
    asked for and more than half of it; [0] stays [0]. *)
Theorem roundup_nearest_power_of_2_spec n :
  0 <= n < 2 ^ 32 →
  ∃ r, roundup_nearest_power_of_2 n = Some r ∧
    (n = 0 → r = 0) ∧ (0 < n → ∃ k, 0 <= k < 32 ∧ r = 2 ^ k ∧ r <= n < 2 * r).
Proof.
  intros Hn. unfold roundup_nearest_power_of_2. destruct (decide (n = 0)) as [->|H0]; [by exists 0|].
  destruct (Z.log2_spec n ltac:(lia)) as [Hlo Hhi]. rewrite Z.pow_succ_r in Hhi by apply Z.log2_nonneg.
  assert (0 <= Z.log2 n < 32) as Hk by (split; [apply Z.log2_nonneg|apply Z.log2_lt_pow2; lia]).
  destruct (powerof2 n) eqn:Hp.
  - exists n. split; [done|]. split; [lia|]. intros _. exists (Z.log2 n). pose proof (powerof2_inv n ltac:(lia) Hp). split_and!; lia.
  - rewrite shift_count_spec by (cbn; lia). cbn [mbind option_bind]. rewrite Z.shiftl_mul_pow2, Z.mul_1_l, Z.add_0_l by lia.
    rewrite wrap_u_id by (split; [apply Z.pow_nonneg; lia|lia]).
    exists (2 ^ Z.log2 n). split; [done|]. split; [lia|]. intros _. exists (Z.log2 n). split_and!; lia.
Qed.

Lemma roundup_nearest_power_of_2_spec_witness :
  roundup_nearest_power_of_2 1000 = Some 512
  ∧ ∃ r, roundup_nearest_power_of_2 1000 = Some r ∧
    (1000 = 0 → r = 0) ∧ (0 < 1000 → ∃ k, 0 <= k < 32 ∧ r = 2 ^ k ∧ r <= 1000 < 2 * r).
Proof. split; [reflexivity|]. apply (roundup_nearest_power_of_2_spec 1000). lia. Defined.

End TimeSpec.
