(* ===== verification/Pfil.v ===== *)
(** Packet filter hooks (src/src/sys/net/pfil.c) and the hooks of libuinet
    ([uinet_pfil_add_hook], [uinet_pfil_remove_hook], [uinet_register_pfil_in] and the
    functions they install, src/src/lib/libuinet/uinet_api.c), in one network stack
    instance. *)
From S2P Require Import Prelude.

Module Pfil.

Definition EINVAL : Z := 22.
Definition EEXIST : Z := 17.
Definition ENOENT : Z := 2.
Definition ENOMEM : Z := 12.
Definition ENOBUFS : Z := 55.
Definition PFIL_IN : Z := 1.
Definition PFIL_OUT : Z := 2.
Definition PFIL_WAITOK : Z := 4.
Definition PFIL_TYPE_AF : Z := 1.
Definition AF_INET : Z := 2.

(** The functions that can be a hook: libuinet's two and those of others. *)
Inductive func : Type := uinet_hook_wrapper | uinet_in_hook_v4 | other_func (n : nat).

#[export] Instance func_eq_dec : EqDecision func.
Proof. solve_decision. Defined.

(** [struct packet_filter_hook]; the argument of the wrapper is the address of the
    application's [struct uinet_pfil_cb]. *)
Record hook : Type := mk_hook { pfil_func : func; pfil_arg : option nat }.

#[export] Instance hook_eq_dec : EqDecision hook.
Proof. solve_decision. Defined.

(** [struct pfil_head]; its lists hold the addresses of hooks. *)
Record pfil_head : Type := mk_head {
  ph_type : Z; ph_val : Z; ph_nhooks : Z; ph_in : list nat; ph_out : list nat; ph_locked : bool }.

(** [struct uinet_pfil_cb]. *)
Record uinet_pfil_cb : Type := mk_cb { cb_f : option Z; cb_arg : Z; cb_flags : Z }.

(** What an application's function is called with: packet, interface, direction and link
    layer information. *)
Record pcall : Type := mk_pcall { pc_f : Z; pc_arg : Z; pc_m : nat; pc_if : option nat; pc_dir : Z; pc_l2 : option Z }.

(** The hooks and heads by address, the next address [malloc] gives, the list of heads, the
    callbacks of the application, the single hook of the instance, the references held to
    interfaces, and the calls made. *)
Record state : Type := mk_ps {
  hooks : gmap nat hook; heads : gmap nat pfil_head; fresh : nat; head_list : list nat;
  cbs : gmap nat uinet_pfil_cb; V_cb : option Z; V_cbdata : Z; V_ifp : option nat;
  ifrefs : list nat; calls : list pcall }.

Abbreviation P := (M state).

Definition set_hooks v s := mk_ps v (heads s) (fresh s) (head_list s) (cbs s) (V_cb s) (V_cbdata s) (V_ifp s) (ifrefs s) (calls s).
Definition set_heads v s := mk_ps (hooks s) v (fresh s) (head_list s) (cbs s) (V_cb s) (V_cbdata s) (V_ifp s) (ifrefs s) (calls s).
Definition set_fresh v s := mk_ps (hooks s) (heads s) v (head_list s) (cbs s) (V_cb s) (V_cbdata s) (V_ifp s) (ifrefs s) (calls s).
Definition set_head_list v s := mk_ps (hooks s) (heads s) (fresh s) v (cbs s) (V_cb s) (V_cbdata s) (V_ifp s) (ifrefs s) (calls s).
Definition set_single cb data s := mk_ps (hooks s) (heads s) (fresh s) (head_list s) (cbs s) cb data (V_ifp s) (ifrefs s) (calls s).
Definition set_ifp v refs s := mk_ps (hooks s) (heads s) (fresh s) (head_list s) (cbs s) (V_cb s) (V_cbdata s) v refs (calls s).
Definition set_calls v s := mk_ps (hooks s) (heads s) (fresh s) (head_list s) (cbs s) (V_cb s) (V_cbdata s) (V_ifp s) (ifrefs s) v.

Definition get_hook (p : nat) : P hook := fun s =>
  match hooks s !! p with Some h => Ok (h, s) | None => Fault BadPointer end.
Definition get_head (ph : nat) : P pfil_head := fun s =>
  match heads s !! ph with Some h => Ok (h, s) | None => Fault BadPointer end.
Definition put_head (ph : nat) (h : pfil_head) : P unit := modify (fun s => set_heads (<[ph := h]> (heads s)) s).

(** A hook is freed once. *)
Definition free_hook (p : nat) : P unit := _ ← get_hook p; modify (fun s => set_hooks (delete p (hooks s)) s).
Definition free_if (p : option nat) : P unit := match p with Some p => free_hook p | None => mret () end.

(** [malloc]: [mem] is whether there is memory for a caller that will not wait. *)
Definition malloc_hook (waitok mem : bool) (h : hook) : P (option nat) :=
  if waitok || mem then
    p ← gets fresh;
    _ ← modify (fun s => set_hooks (<[p := h]> (hooks s)) (set_fresh (S p) s));
    mret (Some p)
  else mret None.

Definition with_in v n h := mk_head (ph_type h) (ph_val h) n v (ph_out h) (ph_locked h).
Definition with_out v n h := mk_head (ph_type h) (ph_val h) n (ph_in h) v (ph_locked h).
Definition with_lock v h := mk_head (ph_type h) (ph_val h) (ph_nhooks h) (ph_in h) (ph_out h) v.

Definition PFIL_WLOCK (ph : nat) : P unit :=
  h ← get_head ph; if ph_locked h then faultM Blocked else put_head ph (with_lock true h).
Definition PFIL_WUNLOCK (ph : nat) : P unit :=
  h ← get_head ph; if ph_locked h then put_head ph (with_lock false h) else faultM BadUnlock.

(** ** Lists of hooks *)

(** Whether a list has a hook with this function and argument, and which one. *)
Fixpoint list_find_hook (l : list nat) (f : func) (arg : option nat) : P (option nat) :=
  match l with
  | [] => mret None
  | p :: l =>
      h ← get_hook p;
      if bool_decide (pfil_func h = f) && bool_decide (pfil_arg h = arg) then mret (Some p)
      else list_find_hook l f arg
  end.

(** The error and the list. *)
Definition pfil_list_add (l : list nat) (p : nat) (flags : Z) : P (Z * list nat) :=
  h ← get_hook p;
  o ← list_find_hook l (pfil_func h) (pfil_arg h);
  match o with
  | Some _ => mret (EEXIST, l)
  | None => mret (0, if has_flag flags PFIL_IN then p :: l else l ++ [p])
  end.

Definition pfil_list_remove (l : list nat) (f : func) (arg : option nat) : P (Z * list nat) :=
  o ← list_find_hook l f arg;
  match o with
  | Some p => _ ← free_hook p; mret (0, filter (λ p', p' ≠ p) l)
  | None => mret (ENOENT, l)
  end.

(** ** Heads *)

Fixpoint find_head (l : list nat) (type val : Z) : P (option nat) :=
  match l with
  | [] => mret None
  | ph :: l =>
      h ← get_head ph;
      if (ph_type h =? type) && (ph_val h =? val) then mret (Some ph) else find_head l type val
  end.

Definition pfil_head_get (type val : Z) : P (option nat) := l ← gets head_list; find_head l type val.

(** [ph] is the structure of the caller. *)
Definition pfil_head_register (ph : nat) (type val : Z) : P Z :=
  o ← pfil_head_get type val;
  match o with
  | Some _ => mret EEXIST
  | None =>
      _ ← put_head ph (mk_head type val 0 [] [] false);
      _ ← modify (fun s => set_head_list (ph :: head_list s) s);
      mret 0
  end.

Fixpoint free_hooks (l : list nat) : P unit :=
  match l with [] => mret () | p :: l => _ ← free_hook p; free_hooks l end.

Definition pfil_head_unregister (ph : nat) : P Z :=
  h ← get_head ph;
  _ ← modify (fun s => set_head_list (filter (λ q, q ≠ ph) (head_list s)) s);
  _ ← free_hooks (ph_in h);
  _ ← free_hooks (ph_out h);
  mret 0.

(** ** Adding and removing *)

(** The outgoing half: [p1] is the hook just put on the incoming list, if any. *)
Definition add_out (f : func) (arg : option nat) (flags : Z) (ph : nat) (p1 p2 : option nat) : P Z :=
  if has_flag flags PFIL_OUT then
    p ← liftR (deref p2);
    h ← get_head ph;
    '(err, l) ← pfil_list_add (ph_out h) p (clear_flag flags PFIL_IN);
    if negb (err =? 0) then
      _ ← (if has_flag flags PFIL_IN then
             '(_, l) ← pfil_list_remove (ph_in h) f arg;
             put_head ph (with_in l (ph_nhooks h) h)
           else mret ());
      _ ← PFIL_WUNLOCK ph;
      _ ← free_if p1;
      _ ← free_if p2;
      mret err
    else
      _ ← put_head ph (with_out l (s32 (ph_nhooks h + 1)) h);
      _ ← PFIL_WUNLOCK ph;
      mret 0
  else _ ← PFIL_WUNLOCK ph; mret 0.

(** From [PFIL_WLOCK] on. *)
Definition add_locked (f : func) (arg : option nat) (flags : Z) (ph : nat) (p1 p2 : option nat) : P Z :=
  _ ← PFIL_WLOCK ph;
  if has_flag flags PFIL_IN then
    p ← liftR (deref p1);
    h ← get_head ph;
    '(err, l) ← pfil_list_add (ph_in h) p (clear_flag flags PFIL_OUT);
    if negb (err =? 0) then
      _ ← PFIL_WUNLOCK ph;
      _ ← free_if p1;
      _ ← free_if p2;
      mret err
    else
      _ ← put_head ph (with_in l (s32 (ph_nhooks h + 1)) h);
      add_out f arg flags ph p1 p2
  else add_out f arg flags ph p1 p2.

(** [mem1] and [mem2] are whether there is memory for callers that will not wait. *)
Definition pfil_add_hook (mem1 mem2 : bool) (f : func) (arg : option nat) (flags : Z) (ph : nat) : P Z :=
  let waitok := has_flag flags PFIL_WAITOK in
  p1 ← (if has_flag flags PFIL_IN then malloc_hook waitok mem1 (mk_hook f arg) else mret None);
  if has_flag flags PFIL_IN && bool_decide (p1 = None) then mret ENOMEM
  else
    p2 ← (if has_flag flags PFIL_OUT then malloc_hook waitok mem2 (mk_hook f arg) else mret None);
    if has_flag flags PFIL_OUT && bool_decide (p2 = None) then _ ← free_if p1; mret ENOMEM
    else add_locked f arg flags ph p1 p2.

Definition pfil_remove_hook (f : func) (arg : option nat) (flags : Z) (ph : nat) : P Z :=
  _ ← PFIL_WLOCK ph;
  err ← (if has_flag flags PFIL_IN then
           h ← get_head ph;
           '(err, l) ← pfil_list_remove (ph_in h) f arg;
           _ ← put_head ph (with_in l (if err =? 0 then s32 (ph_nhooks h - 1) else ph_nhooks h) h);
           mret err
         else mret 0);
  err ← (if (err =? 0) && has_flag flags PFIL_OUT then
           h ← get_head ph;
           '(err, l) ← pfil_list_remove (ph_out h) f arg;
           _ ← put_head ph (with_out l (if err =? 0 then s32 (ph_nhooks h - 1) else ph_nhooks h) h);
           mret err
         else mret err);
  _ ← PFIL_WUNLOCK ph;
  mret err.

(** ** Running *)

Section Run.

(** What the functions of others and of the application do with a packet: the result, and
    the packet unless they took it; the tag of a packet with link layer information; the
    interface of libuinet for one of the stack. *)
Context (others : nat → option nat → nat → Z → Z * option nat).
Context (app : Z → Z → nat → Z → Z * option nat).
Context (l2tag : nat → option Z) (iftouif : nat → nat).

Definition uinet_pfil_hook_wrapper (arg : option nat) (m : nat) (ifp : option nat) (dir : Z) : P (Z * option nat) :=
  a ← liftR (deref arg);
  o ← gets (λ s, cbs s !! a);
  cb ← liftR (match o with Some cb => Ok cb | None => Fault BadPointer end);
  f ← liftR (deref (cb_f cb));
  _ ← modify (fun s => set_calls (calls s ++ [mk_pcall f (cb_arg cb) m (iftouif <$> ifp) dir (l2tag m)]) s);
  let '(result, m') := app f (cb_arg cb) m dir in
  mret (match m' with None => ENOBUFS | Some _ => result end, m').

(** The application's function is called with the packet and its link layer information
    only. *)
Definition uinet_pfil_in_hook_v4 (m : nat) (ifp : option nat) (dir : Z) : P (Z * option nat) :=
  cb ← gets V_cb;
  vifp ← gets V_ifp;
  match cb with
  | None => mret (0, Some m)
  | Some f =>
      if bool_decide (vifp ≠ None) && negb (bool_decide (vifp = ifp)) then mret (0, Some m)
      else
        _ ← modify (fun s => set_calls (calls s ++ [mk_pcall f 0 m None dir (l2tag m)]) s);
        mret (0, Some m)
  end.

Definition call_hook (h : hook) (m : nat) (ifp : option nat) (dir : Z) : P (Z * option nat) :=
  match pfil_func h with
  | uinet_hook_wrapper => uinet_pfil_hook_wrapper (pfil_arg h) m ifp dir
  | uinet_in_hook_v4 => uinet_pfil_in_hook_v4 m ifp dir
  | other_func n => mret (others n (pfil_arg h) m dir)
  end.

Fixpoint run_list (l : list nat) (m : nat) (ifp : option nat) (dir : Z) : P (Z * option nat) :=
  match l with
  | [] => mret (0, Some m)
  | p :: l =>
      h ← get_hook p;
      '(rv, m') ← call_hook h m ifp dir;
      match m' with
      | Some m' => if negb (rv =? 0) then mret (rv, Some m') else run_list l m' ifp dir
      | None => mret (rv, None)
      end
  end.

Definition pfil_hook_get (dir : Z) (h : pfil_head) : list nat :=
  if dir =? PFIL_IN then ph_in h else if dir =? PFIL_OUT then ph_out h else [].

Definition pfil_run_hooks (ph : nat) (m : nat) (ifp : option nat) (dir : Z) : P (Z * option nat) :=
  h ← get_head ph; if ph_locked h then faultM Blocked else run_list (pfil_hook_get dir h) m ifp dir.

End Run.

(** ** The library's calls *)

Definition uinet_pfil_add_hook (cb : option nat) (af : Z) : P Z :=
  match cb with
  | None => mret EINVAL
  | Some a =>
      o ← gets (λ s, cbs s !! a);
      c ← liftR (match o with Some c => Ok c | None => Fault BadPointer end);
      if bool_decide (cb_f c = None) then mret EINVAL
      else
        o ← pfil_head_get PFIL_TYPE_AF af;
        match o with
        | None => mret EINVAL
        | Some ph => pfil_add_hook true true uinet_hook_wrapper (Some a) (Z.lor (cb_flags c) PFIL_WAITOK) ph
        end
  end.

Definition uinet_pfil_remove_hook (cb : option nat) (af : Z) : P Z :=
  match cb with
  | None => mret EINVAL
  | Some a =>
      o ← gets (λ s, cbs s !! a);
      c ← liftR (match o with Some c => Ok c | None => Fault BadPointer end);
      if bool_decide (cb_f c = None) then mret EINVAL
      else
        o ← pfil_head_get PFIL_TYPE_AF af;
        match o with
        | None => mret EINVAL
        | Some ph => pfil_remove_hook uinet_hook_wrapper (Some a) (cb_flags c) ph
        end
  end.

(** [ifp] is the interface [ifunit_ref] finds for [ifname], if the name is given and known.
    The error of [pfil_add_hook] is dropped. *)
Definition uinet_register_pfil_in (cb : option Z) (arg : Z) (ifname : bool) (ifp : option nat) : P Z :=
  v ← gets V_cb;
  match v with
  | Some _ => mret (-1)
  | None =>
      _ ← modify (set_single cb arg);
      _ ← (if ifname then modify (fun s => set_ifp ifp (match ifp with Some i => i :: ifrefs s | None => ifrefs s end) s) else mret ());
      o ← pfil_head_get PFIL_TYPE_AF AF_INET;
      ph ← liftR (deref o);
      _ ← pfil_add_hook true true uinet_in_hook_v4 None (Z.lor PFIL_IN PFIL_WAITOK) ph;
      mret 0
  end.

End Pfil.
