(* ===== verification/PfilSpec.v ===== *)
(** Correctness of the packet filter hooks of Pfil.v: callbacks for both directions are
    kept in opposite orders on the two lists of a head, a callback is there once, and a
    packet passes them in that order until one refuses or takes it. *)
From S2P Require Import Prelude Pfil.

Module PfilSpec.

Import Pfil.

(** The key of an application's callback. *)
Definition key (a : nat) : hook := mk_hook uinet_hook_wrapper (Some a).

Definition is_hook (s : state) (p : nat) (k : hook) : Prop := hooks s !! p = Some k.

(** The head [ph] of state [s] carries the callbacks [L], the latest first. *)
Record carries (s : state) (ph : nat) (L : list nat) : Prop := {
  ca_head : ∃ h, heads s !! ph = Some h ∧ ph_locked h = false ∧ ph_type h = PFIL_TYPE_AF
      ∧ Forall2 (is_hook s) (ph_in h) (key <$> L) ∧ Forall2 (is_hook s) (ph_out h) (key <$> reverse L)
      ∧ NoDup (ph_in h ++ ph_out h) ∧ ph_nhooks h = s32 (2 * Z.of_nat (length L));
  ca_once : NoDup L;
  ca_fresh : ∀ p, (fresh s <= p)%nat → hooks s !! p = None }.

Lemma get_hook_Ok s p k : is_hook s p k → get_hook p s = Ok (k, s).
Proof. unfold is_hook, get_hook. by intros ->. Qed.
Lemma get_head_Ok s ph h : heads s !! ph = Some h → get_head ph s = Ok (h, s).
Proof. unfold get_head. by intros ->. Qed.

(** Searching a list of hooks. *)
Lemma list_find_hook_spec s ps L a :
  Forall2 (is_hook s) ps (key <$> L) →
  (a ∉ L ∧ list_find_hook ps uinet_hook_wrapper (Some a) s = Ok (None, s))
  ∨ ∃ l1 p l2 L1 L2, ps = l1 ++ p :: l2 ∧ L = L1 ++ a :: L2 ∧ a ∉ L1 ∧ length l1 = length L1
      ∧ list_find_hook ps uinet_hook_wrapper (Some a) s = Ok (Some p, s).
Proof.
  revert ps. induction L as [|b L IH]; intros ps Hf.
  { apply Forall2_nil_inv_r in Hf as ->. left. split; [apply not_elem_of_nil|done]. }
  apply Forall2_cons_inv_r in Hf as (p & ps' & Hp & Hf & ->). cbn [list_find_hook].
  rewrite (M_bind_Ok _ _ _ _ _ (get_hook_Ok _ _ _ Hp)). cbn [key pfil_func pfil_arg]. rewrite (bool_decide_true (uinet_hook_wrapper = _)) by done.
  cbn [andb]. destruct (decide (b = a)) as [->|Hne].
  - right. exists [], p, ps', [], L. rewrite bool_decide_true by done. split_and!; try done. apply not_elem_of_nil.
  - rewrite bool_decide_false by congruence. destruct (IH ps' Hf) as [[Hn ->]|(l1 & q & l2 & L1 & L2 & -> & -> & Hn & Hl & ->)].
    + left. split; [|done]. apply not_elem_of_cons. done.
    + right. exists (p :: l1), q, l2, (b :: L1), L2. split_and!; try done; [apply not_elem_of_cons; done|cbn; congruence].
Qed.

Lemma hooks_mono s s' ps ks :
  Forall2 (is_hook s) ps ks → (∀ p k, p ∈ ps → is_hook s p k → is_hook s' p k) → Forall2 (is_hook s') ps ks.
Proof.
  induction 1 as [|p k ps ks Hp Hps IH]; intros Hm; constructor.
  - apply Hm; [apply list_elem_of_here|done].
  - apply IH. intros p' k' Hin. apply Hm. by apply list_elem_of_further.
Qed.

Lemma hooks_fresh s ps ks : Forall2 (is_hook s) ps ks → (∀ p, (fresh s <= p)%nat → hooks s !! p = None) →
  ∀ p, p ∈ ps → (p < fresh s)%nat.
Proof.
  intros Hf Hn. induction Hf as [|p k ps ks Hp Hps IH]; intros q Hq; [by apply not_elem_of_nil in Hq|].
  apply elem_of_cons in Hq as [->|Hq]; [|by apply IH].
  destruct (decide (p < fresh s)%nat) as [|Hge]; [done|]. unfold is_hook in Hp. rewrite Hn in Hp by lia. done.
Qed.

Lemma filter_middle (l1 : list nat) p l2 : NoDup (l1 ++ p :: l2) → filter (λ q, q ≠ p) (l1 ++ p :: l2) = l1 ++ l2.
Proof.
  intros (_ & H1 & H2)%NoDup_app. apply NoDup_cons in H2 as [H2 _].
  rewrite filter_app, filter_cons_False by (intros Hc; by apply Hc).
  f_equal; apply filter_id; intros x Hx ->; [apply (H1 p Hx); apply list_elem_of_here|done].
Qed.

Lemma filter_reverse_ne (a : nat) L : filter (λ b, b ≠ a) (reverse L) = reverse (filter (λ b, b ≠ a) L).
Proof.
  induction L as [|b L IH]; [done|]. rewrite reverse_cons, filter_app, IH. destruct (decide (b ≠ a)) as [Hb|Hb].
  - rewrite !filter_cons_True, reverse_cons by done. done.
  - rewrite !filter_cons_False by done. cbn. by rewrite app_nil_r.
Qed.

Lemma NoDup_middle (l1 : list nat) p l2 : NoDup (l1 ++ p :: l2) ↔ p ∉ l1 ++ l2 ∧ NoDup (l1 ++ l2).
Proof. by rewrite <- Permutation_middle, NoDup_cons. Qed.

(** ** The abstract list *)

Inductive op : Type := Add (a : nat) | Remove (a : nat).

Definition a_op (o : op) (L : list nat) : Z * list nat :=
  match o with
  | Add a => if bool_decide (a ∈ L) then (EEXIST, L) else (0, a :: L)
  | Remove a => if bool_decide (a ∈ L) then (0, filter (λ b, b ≠ a) L) else (ENOENT, L)
  end.

Fixpoint a_ops (os : list op) (L : list nat) : list Z * list nat :=
  match os with
  | [] => ([], L)
  | o :: os => let '(r, L) := a_op o L in let '(rs, L) := a_ops os L in (r :: rs, L)
  end.

Definition do_op (af : Z) (o : op) : P Z :=
  match o with Add a => uinet_pfil_add_hook (Some a) af | Remove a => uinet_pfil_remove_hook (Some a) af end.

Fixpoint do_ops (af : Z) (os : list op) : P (list Z) :=
  match os with
  | [] => mret []
  | o :: os => r ← do_op af o; rs ← do_ops af os; mret (r :: rs)
  end.

Definition subject (o : op) : nat := match o with Add a | Remove a => a end.

Definition head_key (h : pfil_head) : Z * Z := (ph_type h, ph_val h).

(** What the operations leave alone. *)
Record same_rest (s s' : state) : Prop := {
  sr_keys : ∀ ph, head_key <$> heads s' !! ph = head_key <$> heads s !! ph;
  sr_cbs : cbs s' = cbs s;
  sr_list : head_list s' = head_list s;
  sr_calls : calls s' = calls s }.

Lemma same_rest_refl s : same_rest s s.
Proof. by split. Qed.

Lemma find_head_same s s' l type val o :
  same_rest s s' → find_head l type val s = Ok (o, s) → find_head l type val s' = Ok (o, s').
Proof.
  intros Hr. induction l as [|ph l IH]; cbn [find_head]; [by intros [= <-]|]. pose proof (sr_keys _ _ Hr ph) as Hk.
  unfold get_head at 1 2, mbind, M_bind. destruct (heads s !! ph) as [h|]; [|done]. destruct (heads s' !! ph) as [h'|]; [|done].
  cbn in Hk. injection Hk as Ht Hv. rewrite Ht, Hv. destruct (_ && _); [by intros [= <-]|apply IH].
Qed.

Section Head.

Context (ph : nat) (af : Z).

(** The head is the one of the address family. *)
Definition serves (s : state) : Prop := find_head (head_list s) PFIL_TYPE_AF af s = Ok (Some ph, s).

(** A callback of the application for both directions. *)
Definition both_ways (s : state) (a : nat) : Prop := ∃ c, cbs s !! a = Some c ∧ cb_f c ≠ None ∧ cb_flags c = Z.lor PFIL_IN PFIL_OUT.

(** The calls reach the head. *)
Lemma uinet_pfil_add_hook_enter s a :
  serves s → both_ways s a →
  uinet_pfil_add_hook (Some a) af s = pfil_add_hook true true uinet_hook_wrapper (Some a) 7 ph s.
Proof.
  intros Hs (c & Hc & Hf & Hfl). unfold uinet_pfil_add_hook. erewrite M_bind_Ok by reflexivity. rewrite Hc.
  erewrite M_bind_Ok by reflexivity. rewrite bool_decide_false, Hfl by done.
  rewrite (M_bind_Ok _ _ _ (Some ph) s); [done|]. unfold pfil_head_get. by erewrite M_bind_Ok by reflexivity.
Qed.

Lemma uinet_pfil_remove_hook_enter s a :
  serves s → both_ways s a →
  uinet_pfil_remove_hook (Some a) af s = pfil_remove_hook uinet_hook_wrapper (Some a) 3 ph s.
Proof.
  intros Hs (c & Hc & Hf & Hfl). unfold uinet_pfil_remove_hook. erewrite M_bind_Ok by reflexivity. rewrite Hc.
  erewrite M_bind_Ok by reflexivity. rewrite bool_decide_false, Hfl by done.
  rewrite (M_bind_Ok _ _ _ (Some ph) s); [done|]. unfold pfil_head_get. by erewrite M_bind_Ok by reflexivity.
Qed.

(** Both hooks allocated and the head locked. *)
Definition entered (s : state) (a : nat) (h : pfil_head) : state :=
  let s1 := set_hooks (<[fresh s := key a]> (hooks s)) (set_fresh (S (fresh s)) s) in
  let s2 := set_hooks (<[S (fresh s) := key a]> (hooks s1)) (set_fresh (S (S (fresh s))) s1) in
  set_heads (<[ph := with_lock true h]> (heads s)) s2.

Lemma pfil_add_hook_enter s a h :
  heads s !! ph = Some h → ph_locked h = false →
  pfil_add_hook true true uinet_hook_wrapper (Some a) 7 ph s =
  (h ← get_head ph;
   '(err, l) ← pfil_list_add (ph_in h) (fresh s) (clear_flag 7 PFIL_OUT);
   if negb (err =? 0) then
     _ ← PFIL_WUNLOCK ph; _ ← free_if (Some (fresh s)); _ ← free_if (Some (S (fresh s))); mret err
   else
     _ ← put_head ph (with_in l (s32 (ph_nhooks h + 1)) h);
     add_out uinet_hook_wrapper (Some a) 7 ph (Some (fresh s)) (Some (S (fresh s)))) (entered s a h).
Proof.
  intros Hh Hl. unfold pfil_add_hook. change (has_flag 7 PFIL_WAITOK) with true. change (has_flag 7 PFIL_IN) with true.
  change (has_flag 7 PFIL_OUT) with true. cbn [andb].
  erewrite M_bind_Ok by (unfold malloc_hook; cbn [orb]; repeat (erewrite M_bind_Ok by reflexivity); reflexivity).
  rewrite bool_decide_false by done.
  erewrite M_bind_Ok by (unfold malloc_hook; cbn [orb]; repeat (erewrite M_bind_Ok by reflexivity); reflexivity).
  rewrite bool_decide_false by done. cbn [fresh set_hooks set_fresh]. unfold add_locked, PFIL_WLOCK. rewrite <- M_bind_assoc.
  match goal with |- context [mbind _ (get_head ph) ?t] => rewrite (M_bind_Ok _ _ _ h t (get_head_Ok t ph h Hh)) end.
  rewrite Hl. erewrite M_bind_Ok by reflexivity. change (has_flag 7 PFIL_IN) with true. cbv iota.
  erewrite M_bind_Ok by reflexivity. reflexivity.
Qed.

Lemma entered_head s a h : heads (entered s a h) !! ph = Some (with_lock true h).
Proof. apply lookup_insert_eq. Qed.

Lemma entered_first s a h : is_hook (entered s a h) (fresh s) (key a).
Proof. unfold is_hook. cbn. rewrite lookup_insert_ne by lia. apply lookup_insert_eq. Qed.

Lemma entered_second s a h : is_hook (entered s a h) (S (fresh s)) (key a).
Proof. apply lookup_insert_eq. Qed.

Lemma entered_old s a h ps ks :
  Forall2 (is_hook s) ps ks → (∀ p, (fresh s <= p)%nat → hooks s !! p = None) → Forall2 (is_hook (entered s a h)) ps ks.
Proof.
  intros Hf Hn. apply (hooks_mono s); [done|]. intros p k Hin Hp. pose proof (hooks_fresh s ps ks Hf Hn p Hin).
  unfold is_hook in *. cbn. by rewrite !lookup_insert_ne by lia.
Qed.

Lemma entered_keys s a h h' :
  heads s !! ph = Some h → head_key h' = head_key h →
  ∀ ph', head_key <$> <[ph := h']> (heads (entered s a h)) !! ph' = head_key <$> heads s !! ph'.
Proof.
  intros Hh Hk ph'. destruct (decide (ph' = ph)) as [->|Hne].
  - rewrite lookup_insert_eq, Hh. cbn. by rewrite Hk.
  - rewrite lookup_insert_ne by done. cbn. by rewrite lookup_insert_ne.
Qed.

Lemma pfil_list_add_spec s ps L p a flags :
  Forall2 (is_hook s) ps (key <$> L) → is_hook s p (key a) →
  pfil_list_add ps p flags s =
    Ok (if bool_decide (a ∈ L) then (EEXIST, ps) else (0, if has_flag flags PFIL_IN then p :: ps else ps ++ [p]), s).
Proof.
  intros Hf Hp. unfold pfil_list_add. rewrite (M_bind_Ok _ _ _ _ _ (get_hook_Ok _ _ _ Hp)). cbn [key pfil_func pfil_arg].
  destruct (list_find_hook_spec s ps L a Hf) as [[Hn Hr]|(l1 & q & l2 & L1 & L2 & _ & -> & _ & _ & Hr)];
    rewrite (M_bind_Ok _ _ _ _ _ Hr).
  - by rewrite bool_decide_false.
  - rewrite bool_decide_true by set_solver. done.
Qed.

Lemma PFIL_WUNLOCK_Ok s h :
  heads s !! ph = Some h → ph_locked h = true →
  PFIL_WUNLOCK ph s = Ok ((), set_heads (<[ph := with_lock false h]> (heads s)) s).
Proof.
  intros Hh Hl. unfold PFIL_WUNLOCK. rewrite (M_bind_Ok _ _ _ _ _ (get_head_Ok _ _ _ Hh)). by rewrite Hl.
Qed.

(** A callback that is not there is added to both lists. *)
Lemma pfil_add_hook_new s L a :
  carries s ph L → a ∉ L →
  ∃ s', pfil_add_hook true true uinet_hook_wrapper (Some a) 7 ph s = Ok (0, s') ∧ carries s' ph (a :: L) ∧ same_rest s s'.
Proof.
  intros [(h & Hh & Hlk & Hty & Hin & Hout & Hnd & Hn) Hone Hfr] Ha.
  rewrite (pfil_add_hook_enter s a h Hh Hlk). set (s1 := entered s a h).
  pose proof (entered_old s a h _ _ Hin Hfr) as Hin1. pose proof (entered_old s a h _ _ Hout Hfr) as Hout1.
  pose proof (hooks_fresh s _ _ Hin Hfr) as Hlt1. pose proof (hooks_fresh s _ _ Hout Hfr) as Hlt2.
  rewrite (M_bind_Ok _ _ _ _ _ (get_head_Ok _ _ _ (entered_head s a h))). cbn [with_lock ph_in ph_nhooks].
  rewrite (M_bind_Ok _ _ _ _ _ (pfil_list_add_spec s1 _ L _ a _ Hin1 (entered_first s a h))).
  rewrite bool_decide_false by done. change (has_flag (clear_flag 7 PFIL_OUT) PFIL_IN) with true. cbn [Z.eqb negb].
  erewrite M_bind_Ok by reflexivity. unfold add_out. change (has_flag 7 PFIL_OUT) with true. cbv iota.
  erewrite M_bind_Ok by reflexivity.
  set (h1 := with_in (fresh s :: ph_in h) (s32 (ph_nhooks h + 1)) (with_lock true h)).
  set (s2 := set_heads (<[ph := h1]> (heads s1)) s1).
  rewrite (M_bind_Ok _ _ _ _ _ (get_head_Ok s2 ph h1 (lookup_insert_eq _ _ _))).
  rewrite (M_bind_Ok _ _ _ _ _ (pfil_list_add_spec s2 (ph_out h) (reverse L) _ a _ Hout1 (entered_second s a h))).
  rewrite bool_decide_false by (by rewrite elem_of_reverse).
  change (has_flag (clear_flag 7 PFIL_IN) PFIL_IN) with false. cbn [Z.eqb negb]. erewrite M_bind_Ok by reflexivity.
  set (h2 := with_out (ph_out h ++ [S (fresh s)]) (s32 (ph_nhooks h1 + 1)) h1).
  set (s3 := set_heads (<[ph := h2]> (heads s2)) s2).
  rewrite (M_bind_Ok _ _ _ _ _ (PFIL_WUNLOCK_Ok s3 h2 (lookup_insert_eq _ _ _) eq_refl)).
  eexists. split; [reflexivity|]. split; [split|].
  - exists (with_lock false h2). split; [apply lookup_insert_eq|]. split; [done|]. split; [done|].
    cbn [with_lock h2 with_out h1 with_in ph_in ph_out ph_nhooks]. split_and!.
    + rewrite fmap_cons. constructor; [exact (entered_first s a h)|exact Hin1].
    + rewrite reverse_cons, fmap_app. apply Forall2_app; [exact Hout1|]. constructor; [exact (entered_second s a h)|constructor].
    + cbn [app]. constructor.
      * intros Hi. rewrite !elem_of_app, elem_of_cons in Hi. destruct Hi as [Hi|[Hi|[Hi|Hi]]].
        -- specialize (Hlt1 _ Hi). lia.
        -- specialize (Hlt2 _ Hi). lia.
        -- lia.
        -- by apply not_elem_of_nil in Hi.
      * rewrite app_assoc. apply NoDup_app. split; [done|]. split; [|apply NoDup_singleton].
        intros p Hp. rewrite list_elem_of_singleton. intros ->. rewrite elem_of_app in Hp. destruct Hp as [Hp|Hp]; [specialize (Hlt1 _ Hp)|specialize (Hlt2 _ Hp)]; lia.
    + rewrite Hn, wrap_s_add, <- Z.add_assoc, wrap_s_add by lia. cbn [length]. f_equal. lia.
  - by constructor.
  - intros p Hp. cbn in Hp |- *. rewrite !lookup_insert_ne by lia. apply Hfr. lia.
  - split; try done. intros ph'. cbn [heads set_heads s3 s2]. rewrite !insert_insert_eq. by apply entered_keys.
Qed.

(** A callback that is there already is refused, and nothing changes. *)
Lemma pfil_add_hook_again s L a :
  carries s ph L → a ∈ L →
  ∃ s', pfil_add_hook true true uinet_hook_wrapper (Some a) 7 ph s = Ok (EEXIST, s') ∧ carries s' ph L ∧ same_rest s s'.
Proof.
  intros [(h & Hh & Hlk & Hty & Hin & Hout & Hnd & Hn) Hone Hfr] Ha.
  rewrite (pfil_add_hook_enter s a h Hh Hlk). set (s1 := entered s a h).
  pose proof (entered_old s a h _ _ Hin Hfr) as Hin1.
  rewrite (M_bind_Ok _ _ _ _ _ (get_head_Ok _ _ _ (entered_head s a h))). cbn [with_lock ph_in ph_nhooks].
  rewrite (M_bind_Ok _ _ _ _ _ (pfil_list_add_spec s1 _ L _ a _ Hin1 (entered_first s a h))).
  rewrite bool_decide_true by done. cbn [Z.eqb negb EEXIST].
  rewrite (M_bind_Ok _ _ _ _ _ (PFIL_WUNLOCK_Ok s1 (with_lock true h) (entered_head s a h) eq_refl)).
  unfold free_if, free_hook. rewrite <- !M_bind_assoc.
  set (s2 := set_heads _ s1). rewrite (M_bind_Ok _ _ _ _ _ (get_hook_Ok s2 _ _ (entered_first s a h))).
  erewrite M_bind_Ok by reflexivity. rewrite <- M_bind_assoc. set (s3 := set_hooks _ s2).
  assert (is_hook s3 (S (fresh s)) (key a)) as H2.
  { unfold is_hook. cbn. rewrite lookup_delete_ne by lia. apply lookup_insert_eq. }
  rewrite (M_bind_Ok _ _ _ _ _ (get_hook_Ok s3 _ _ H2)). erewrite M_bind_Ok by reflexivity.
  eexists. split; [reflexivity|].
  assert (Hback : delete (S (fresh s)) (hooks s3) = hooks s).
  { cbn. rewrite insert_insert_ne by lia. rewrite delete_insert_eq, delete_insert_ne by lia.
    rewrite delete_insert_eq. rewrite !delete_id; [done|by apply Hfr; lia|]. rewrite lookup_delete_ne by lia. apply Hfr. lia. }
  split; [split; [|done|]|].
  - exists (with_lock false (with_lock true h)). split; [apply lookup_insert_eq|]. split; [done|]. split; [done|].
    cbn [with_lock ph_in ph_out ph_nhooks].
    assert (Hsame : ∀ ps ks, Forall2 (is_hook s) ps ks → Forall2 (is_hook (set_hooks (delete (S (fresh s)) (hooks s3)) s3)) ps ks).
    { intros ps ks Hf. apply (hooks_mono s); [done|]. intros p k _ Hp. unfold is_hook. cbn [hooks set_hooks]. by rewrite Hback. }
    split_and!; auto.
  - intros p Hp. cbn [hooks set_hooks]. rewrite Hback. cbn in Hp. apply Hfr. lia.
  - split; try done. intros ph'. by apply entered_keys.
Qed.

Lemma pfil_list_remove_spec s ps L a :
  Forall2 (is_hook s) ps (key <$> L) → NoDup ps →
  (a ∉ L ∧ pfil_list_remove ps uinet_hook_wrapper (Some a) s = Ok ((ENOENT, ps), s))
  ∨ ∃ l1 p l2 L1 L2, ps = l1 ++ p :: l2 ∧ L = L1 ++ a :: L2 ∧ length l1 = length L1 ∧ is_hook s p (key a)
      ∧ pfil_list_remove ps uinet_hook_wrapper (Some a) s = Ok ((0, l1 ++ l2), set_hooks (delete p (hooks s)) s).
Proof.
  intros Hf Hnd. unfold pfil_list_remove.
  destruct (list_find_hook_spec s ps L a Hf) as [[Hn Hr]|(l1 & p & l2 & L1 & L2 & -> & -> & _ & Hl & Hr)];
    rewrite (M_bind_Ok _ _ _ _ _ Hr); [by left|right].
  assert (Hp : is_hook s p (key a)).
  { rewrite fmap_app, fmap_cons in Hf. apply Forall2_app_inv in Hf as [_ Hf]; [|by rewrite length_fmap]. by inversion Hf. }
  exists l1, p, l2, L1, L2. split_and!; try done. unfold free_hook. rewrite <- M_bind_assoc.
  rewrite (M_bind_Ok _ _ _ _ _ (get_hook_Ok _ _ _ Hp)). erewrite M_bind_Ok by reflexivity. by rewrite filter_middle.
Qed.

Lemma Forall2_remove {A B} (R : A → B → Prop) l1 x l2 k1 y k2 :
  Forall2 R (l1 ++ x :: l2) (k1 ++ y :: k2) → length l1 = length k1 → Forall2 R (l1 ++ l2) (k1 ++ k2).
Proof.
  intros H Hl. apply Forall2_app_inv in H as [H1 H2]; [|done]. inversion H2; subst. by apply Forall2_app.
Qed.

Lemma deleted_hooks s s' p ps ks :
  Forall2 (is_hook s) ps ks → p ∉ ps → hooks s' = delete p (hooks s) → Forall2 (is_hook s') ps ks.
Proof.
  intros Hf Hp He. apply (hooks_mono s); [done|]. intros q k Hin Hq. unfold is_hook. rewrite He, lookup_delete_ne; [done|].
  by intros ->.
Qed.

(** The head locked. *)
Definition locked (s : state) (h : pfil_head) : state := set_heads (<[ph := with_lock true h]> (heads s)) s.

Lemma pfil_remove_hook_enter s a h :
  heads s !! ph = Some h → ph_locked h = false →
  pfil_remove_hook uinet_hook_wrapper (Some a) 3 ph s =
  ('(err, l) ← pfil_list_remove (ph_in h) uinet_hook_wrapper (Some a);
   _ ← put_head ph (with_in l (if err =? 0 then s32 (ph_nhooks h - 1) else ph_nhooks h) (with_lock true h));
   err ← (if err =? 0 then
            h ← get_head ph;
            '(err, l) ← pfil_list_remove (ph_out h) uinet_hook_wrapper (Some a);
            _ ← put_head ph (with_out l (if err =? 0 then s32 (ph_nhooks h - 1) else ph_nhooks h) h);
            mret err
          else mret err);
   _ ← PFIL_WUNLOCK ph;
   mret err) (locked s h).
Proof.
  intros Hh Hl. unfold pfil_remove_hook, PFIL_WLOCK. rewrite <- M_bind_assoc.
  rewrite (M_bind_Ok _ _ _ _ _ (get_head_Ok _ _ _ Hh)). rewrite Hl. erewrite M_bind_Ok by reflexivity.
  change (has_flag 3 PFIL_IN) with true. change (has_flag 3 PFIL_OUT) with true. cbv iota.
  fold (locked s h). rewrite <- M_bind_assoc.
  rewrite (M_bind_Ok _ _ _ _ _ (get_head_Ok (locked s h) ph (with_lock true h) (lookup_insert_eq _ _ _))).
  cbn [with_lock ph_in ph_nhooks]. unfold mbind, M_bind.
  destruct (pfil_list_remove (ph_in h) uinet_hook_wrapper (Some a) (locked s h)) as [[[err l] s2]|]; [|done].
  cbn. by rewrite andb_true_r.
Qed.

Lemma locked_keys s h h' :
  heads s !! ph = Some h → head_key h' = head_key h →
  ∀ ph', head_key <$> <[ph := h']> (heads s) !! ph' = head_key <$> heads s !! ph'.
Proof.
  intros Hh Hk ph'. destruct (decide (ph' = ph)) as [->|Hne].
  - rewrite lookup_insert_eq, Hh. cbn. by rewrite Hk.
  - by rewrite lookup_insert_ne.
Qed.

(** A callback that is not there. *)
Lemma pfil_remove_hook_none s L a :
  carries s ph L → a ∉ L →
  ∃ s', pfil_remove_hook uinet_hook_wrapper (Some a) 3 ph s = Ok (ENOENT, s') ∧ carries s' ph L ∧ same_rest s s'.
Proof.
  intros [(h & Hh & Hlk & Hty & Hin & Hout & Hnd & Hn) Hone Hfr] Ha. rewrite (pfil_remove_hook_enter s a h Hh Hlk).
  destruct (pfil_list_remove_spec (locked s h) (ph_in h) L a Hin) as [[_ Hr]|(? & ? & ? & L1 & L2 & _ & -> & _)];
    [by apply NoDup_app in Hnd as [? _]| |set_solver].
  rewrite (M_bind_Ok _ _ _ _ _ Hr). cbn [Z.eqb ENOENT]. erewrite M_bind_Ok by reflexivity. erewrite M_bind_Ok by reflexivity.
  set (h1 := with_in _ _ _). set (s1 := set_heads _ (locked s h)).
  rewrite (M_bind_Ok _ _ _ _ _ (PFIL_WUNLOCK_Ok s1 h1 (lookup_insert_eq _ _ _) eq_refl)).
  eexists. split; [reflexivity|]. split; [split; [|done|done]|].
  - exists (with_lock false h1). split; [apply lookup_insert_eq|]. done.
  - split; try done. intros ph'. cbn. rewrite !insert_insert_eq. by apply (locked_keys s h).
Qed.

(** A callback that is there is taken off both lists. *)
Lemma pfil_remove_hook_some s L a :
  carries s ph L → a ∈ L →
  ∃ s', pfil_remove_hook uinet_hook_wrapper (Some a) 3 ph s = Ok (0, s') ∧ carries s' ph (filter (λ b, b ≠ a) L) ∧ same_rest s s'.
Proof.
  intros [(h & Hh & Hlk & Hty & Hin & Hout & Hnd & Hn) Hone Hfr] Ha. rewrite (pfil_remove_hook_enter s a h Hh Hlk).
  pose proof Hnd as (Hnd1 & Hdis & Hnd2)%NoDup_app.
  destruct (pfil_list_remove_spec (locked s h) (ph_in h) L a Hin Hnd1) as [[Hno _]|(l1 & p & l2 & L1 & L2 & Ein & EL & Hl & Hp & Hr)]; [done|].
  rewrite (M_bind_Ok _ _ _ _ _ Hr). cbn [Z.eqb]. erewrite M_bind_Ok by reflexivity. rewrite <- M_bind_assoc.
  set (h1 := with_in _ _ _). set (s1 := set_heads _ _).
  rewrite (M_bind_Ok _ _ _ _ _ (get_head_Ok s1 ph h1 (lookup_insert_eq _ _ _))). rewrite <- M_bind_assoc.
  assert (Hpo : p ∉ ph_out h) by (apply Hdis; rewrite Ein; set_solver).
  assert (Hout1 : Forall2 (is_hook s1) (ph_out h1) (key <$> reverse L)) by (by apply (deleted_hooks s s1 p)).
  destruct (pfil_list_remove_spec s1 (ph_out h1) (reverse L) a Hout1 Hnd2) as [[Hno _]|(o1 & q & o2 & R1 & R2 & Eout & ER & Hlo & Hq & Hr2)].
  { by rewrite elem_of_reverse in Hno. }
  rewrite (M_bind_Ok _ _ _ _ _ Hr2). cbn [Z.eqb]. rewrite <- M_bind_assoc. erewrite M_bind_Ok by reflexivity. erewrite M_bind_Ok by reflexivity.
  set (h2 := with_out _ _ _). set (s2 := set_heads _ _).
  rewrite (M_bind_Ok _ _ _ _ _ (PFIL_WUNLOCK_Ok s2 h2 (lookup_insert_eq _ _ _) eq_refl)).
  eexists. split; [reflexivity|].
  assert (EL' : filter (λ b, b ≠ a) L = L1 ++ L2) by (rewrite EL in Hone |- *; by apply filter_middle).
  assert (ER' : reverse (L1 ++ L2) = R1 ++ R2).
  { rewrite <- EL', <- (filter_middle R1 a R2), <- ER; [by rewrite filter_reverse_ne|]. by rewrite <- ER, reverse_Permutation. }
  rewrite EL'. split; [split|].
  - exists (with_lock false h2). split; [apply lookup_insert_eq|]. split; [done|]. split; [done|].
    cbn [with_lock h2 with_out h1 with_in ph_in ph_out ph_nhooks].
    assert (Hqi : q ∉ l1 ++ l2).
    { intros Hc. apply (Hdis q); [rewrite Ein; set_solver|]. change (ph_out h) with (ph_out h1). rewrite Eout. set_solver. }
    split_and!.
    + apply (deleted_hooks s1 _ q); [|done|done]. apply (deleted_hooks s s1 p); [| |done].
      * rewrite fmap_app. rewrite Ein, EL, fmap_app, fmap_cons in Hin. eapply Forall2_remove; [exact Hin|by rewrite length_fmap].
      * rewrite Ein in Hnd1. apply NoDup_middle in Hnd1 as [? _]. done.
    + rewrite ER'. apply (deleted_hooks s1 _ q); [| |done].
      * rewrite fmap_app. rewrite Eout, ER, fmap_app, fmap_cons in Hout1. eapply Forall2_remove; [exact Hout1|by rewrite length_fmap].
      * change (ph_out h) with (ph_out h1) in Hnd2. rewrite Eout in Hnd2. apply NoDup_middle in Hnd2 as [? _]. done.
    + change (ph_out h) with (ph_out h1) in Hnd. rewrite Ein, Eout in Hnd.
      rewrite <- (Permutation_middle l1), <- (Permutation_middle o1) in Hnd. cbn [app] in Hnd. apply NoDup_cons in Hnd as [_ Hnd].
      rewrite <- Permutation_middle in Hnd. by apply NoDup_cons in Hnd as [_ Hnd].
    + assert (Hm : ∀ x, x - 1 = x + -1) by (intros; lia). rewrite Hn, !Hm, wrap_s_add, <- Z.add_assoc, wrap_s_add by lia.
      rewrite EL, !length_app. cbn [length]. f_equal. lia.
  - rewrite EL in Hone. by apply NoDup_middle in Hone as [_ ?].
  - intros x Hx. cbn in Hx |- *. rewrite !lookup_delete_None. right. right. by apply Hfr.
  - split; try done. intros ph'. cbn. rewrite !insert_insert_eq. by apply (locked_keys s h).
Qed.

(** One operation does what it does to the abstract list. *)
Lemma do_op_spec s L o :
  serves s → both_ways s (subject o) → carries s ph L →
  ∃ s', do_op af o s = Ok ((a_op o L).1, s') ∧ carries s' ph (a_op o L).2 ∧ same_rest s s'.
Proof.
  intros Hs Hb Hc. destruct o as [a|a]; cbn [do_op a_op subject] in *.
  - rewrite (uinet_pfil_add_hook_enter s a Hs Hb). case_bool_decide; [by apply pfil_add_hook_again|by apply pfil_add_hook_new].
  - rewrite (uinet_pfil_remove_hook_enter s a Hs Hb). case_bool_decide; [by apply pfil_remove_hook_some|by apply pfil_remove_hook_none].
Qed.

Lemma same_rest_serves s s' : same_rest s s' → serves s → serves s'.
Proof. intros Hr Hs. unfold serves. rewrite (sr_list _ _ Hr). by apply (find_head_same s). Qed.

Lemma same_rest_both s s' a : same_rest s s' → both_ways s a → both_ways s' a.
Proof. intros Hr. unfold both_ways. by rewrite (sr_cbs _ _ Hr). Qed.

Lemma do_ops_spec os : ∀ s L,
  serves s → Forall (λ o, both_ways s (subject o)) os → carries s ph L →
  ∃ s', do_ops af os s = Ok ((a_ops os L).1, s') ∧ carries s' ph (a_ops os L).2 ∧ same_rest s s'.
Proof.
  induction os as [|o os IH]; intros s L Hs Hb Hc; [exists s; split_and!; [done|done|apply same_rest_refl]|].
  apply Forall_cons in Hb as [Hb Hbs]. destruct (do_op_spec s L o Hs Hb Hc) as (s1 & Hr & Hc1 & Hr1).
  cbn [do_ops a_ops]. destruct (a_op o L) as [r L1]. cbn [fst snd] in *. rewrite (M_bind_Ok _ _ _ _ _ Hr).
  destruct (IH s1 L1) as (s2 & Hrs & Hc2 & Hr2); [by eapply same_rest_serves| |done|].
  { apply (Forall_impl _ _ _ Hbs). intros o' Ho. by eapply same_rest_both. }
  destruct (a_ops os L1) as [rs L2]. cbn [fst snd] in *. rewrite (M_bind_Ok _ _ _ _ _ Hrs).
  exists s2. split_and!; [done|done|]. destruct Hr1 as [K1 C1 L1' A1], Hr2 as [K2 C2 L2' A2]. split; [|congruence..].
  intros p. by rewrite K2, K1.
Qed.

End Head.

(** ** Running *)

Section Run.

Context (others : nat → option nat → nat → Z → Z * option nat) (app : Z → Z → nat → Z → Z * option nat).
Context (l2tag : nat → option Z) (iftouif : nat → nat).

(** The abstract pass of a packet through callbacks: what comes back and the calls made. A
    callback that takes the packet is reported as [ENOBUFS], whatever it returned. *)
Fixpoint a_pass (C : gmap nat uinet_pfil_cb) (L : list nat) (m : nat) (ifp : option nat) (dir : Z) : (Z * option nat) * list pcall :=
  match L with
  | [] => ((0, Some m), [])
  | a :: L =>
      match C !! a with
      | Some (mk_cb (Some f) arg _) =>
          let call := mk_pcall f arg m (iftouif <$> ifp) dir (l2tag m) in
          match app f arg m dir with
          | (rv, None) => ((ENOBUFS, None), [call])
          | (rv, Some m') =>
              if rv =? 0 then let '(r, cs) := a_pass C L m' ifp dir in (r, call :: cs) else ((rv, Some m'), [call])
          end
      | _ => ((0, None), [])
      end
  end.

Lemma run_list_spec ps L : ∀ s m ifp dir,
  Forall2 (is_hook s) ps (key <$> L) → Forall (λ a, ∃ c, cbs s !! a = Some c ∧ cb_f c ≠ None) L →
  run_list others app l2tag iftouif ps m ifp dir s =
    Ok ((a_pass (cbs s) L m ifp dir).1, set_calls (calls s ++ (a_pass (cbs s) L m ifp dir).2) s).
Proof.
  revert ps. induction L as [|a L IH]; intros ps s m ifp dir Hf Hc.
  { apply Forall2_nil_inv_r in Hf as ->. cbn. rewrite app_nil_r. by destruct s. }
  apply Forall2_cons_inv_r in Hf as (p & ps' & Hp & Hf & ->). apply Forall_cons in Hc as [(c & Ha & Hcb) Hc].
  cbn [run_list]. rewrite (M_bind_Ok _ _ _ _ _ (get_hook_Ok _ _ _ Hp)). destruct c as [[f|] arg fl]; [|done]. clear Hcb.
  cbn [call_hook key pfil_func pfil_arg]. unfold uinet_pfil_hook_wrapper. repeat rewrite <- M_bind_assoc.
  erewrite M_bind_Ok by reflexivity. rewrite <- M_bind_assoc. erewrite M_bind_Ok by reflexivity. rewrite Ha. rewrite <- M_bind_assoc.
  erewrite M_bind_Ok by reflexivity. rewrite <- M_bind_assoc. erewrite M_bind_Ok by reflexivity. rewrite <- M_bind_assoc.
  erewrite M_bind_Ok by reflexivity. cbn [a_pass cb_arg]. rewrite Ha. destruct (app f arg m dir) as [rv [m'|]].
  - erewrite M_bind_Ok by reflexivity. cbv beta iota. destruct (rv =? 0); cbn [negb]; [|done]. rewrite IH; [|exact Hf|exact Hc].
    cbn [cbs set_calls]. destruct (a_pass (cbs s) L m' ifp dir) as [r cs]. cbn. by rewrite <- app_assoc.
  - by erewrite M_bind_Ok by reflexivity.
Qed.

Lemma a_op_known (K : nat → Prop) o L : K (subject o) → Forall K L → Forall K (a_op o L).2.
Proof.
  intros Ho HL. destruct o as [a|a]; cbn [a_op]; case_bool_decide; cbn [snd]; try done; [by apply Forall_cons|].
  apply Forall_forall. intros b Hb. apply list_elem_of_filter in Hb as [_ Hb]. rewrite Forall_forall in HL. by apply HL.
Qed.

Lemma a_ops_known (K : nat → Prop) os : ∀ L, Forall (λ o, K (subject o)) os → Forall K L → Forall K (a_ops os L).2.
Proof.
  induction os as [|o os IH]; intros L Ho HL; [done|]. apply Forall_cons in Ho as [Ho Hos]. cbn [a_ops].
  pose proof (a_op_known K o L Ho HL) as H1. destruct (a_op o L) as [r L1]. specialize (IH L1 Hos H1).
  by destruct (a_ops os L1) as [rs L2].
Qed.

(** The order in which the callbacks [L] see packets of a direction. *)
Definition path (dir : Z) (L : list nat) : list nat :=
  if dir =? PFIL_IN then L else if dir =? PFIL_OUT then reverse L else [].

Lemma pfil_run_hooks_spec s ph L m ifp dir :
  carries s ph L → Forall (both_ways s) L →
  pfil_run_hooks others app l2tag iftouif ph m ifp dir s =
    Ok ((a_pass (cbs s) (path dir L) m ifp dir).1, set_calls (calls s ++ (a_pass (cbs s) (path dir L) m ifp dir).2) s).
Proof.
  intros [(h & Hh & Hlk & _ & Hin & Hout & _) _ _] HL. unfold pfil_run_hooks.
  rewrite (M_bind_Ok _ _ _ _ _ (get_head_Ok _ _ _ Hh)). rewrite Hlk.
  assert (HL' : Forall (λ a, ∃ c, cbs s !! a = Some c ∧ cb_f c ≠ None) L).
  { apply (Forall_impl _ _ _ HL). intros a (c & ? & ? & _). by exists c. }
  apply run_list_spec; unfold pfil_hook_get, path; destruct (dir =? PFIL_IN), (dir =? PFIL_OUT); cbn; try done.
  - by rewrite Forall_reverse.
Qed.

(** [C17] After any sequence of [uinet_pfil_add_hook] and [uinet_pfil_remove_hook] of callbacks for
    both directions, each call returned what it returns on a plain list of callbacks (no
    callback twice; [EEXIST], [ENOENT] and success exactly then), no hook was used after it
    was freed or freed twice, the head is unlocked, and a packet that [pfil_run_hooks] is
    given passes the callbacks in that order inwards and in the opposite order outwards,
    each called once with its argument, the packet the one before left and its link layer
    information, until one refuses or takes it. *)
Theorem uinet_pfil_refines s ph af L os m ifp dir :
  serves ph af s → carries s ph L → Forall (both_ways s) L → Forall (λ o, both_ways s (subject o)) os →
  ∃ s', do_ops af os s = Ok ((a_ops os L).1, s')
    ∧ (let pass := a_pass (cbs s) (path dir (a_ops os L).2) m ifp dir in
       pfil_run_hooks others app l2tag iftouif ph m ifp dir s' = Ok (pass.1, set_calls (calls s ++ pass.2) s')).
Proof.
  intros Hs Hc HL Ho. destruct (do_ops_spec ph af os s L Hs Ho Hc) as (s' & Hr & Hc' & Hrest). exists s'. split; [done|].
  rewrite (pfil_run_hooks_spec s' ph _ m ifp dir Hc'); [by rewrite (sr_cbs _ _ Hrest), (sr_calls _ _ Hrest)|].
  apply (Forall_impl (both_ways s)); [by apply a_ops_known|]. intros a. by apply same_rest_both.
Qed.

End Run.

(** ** Examples *)

Definition two_cbs : gmap nat uinet_pfil_cb := {[ 1%nat := mk_cb (Some 100) 7 3; 2%nat := mk_cb (Some 200) 8 3 ]}.
Definition start : state := mk_ps ∅ {[ 0%nat := mk_head PFIL_TYPE_AF AF_INET 0 [] [] false ]} 0 [0%nat] two_cbs None 0 None [] [].

Lemma carries_start : carries start 0 [].
Proof.
  split; [|constructor|done]. exists (mk_head PFIL_TYPE_AF AF_INET 0 [] [] false). split_and!; try done; constructor.
Qed.

Lemma uinet_pfil_refines_witness :
  ∃ s', do_ops AF_INET [Add 1; Add 2; Add 1; Remove 1; Remove 1] start = Ok ([0; 0; EEXIST; 0; ENOENT], s')
    ∧ pfil_run_hooks (λ _ _ m _, (0, Some m)) (λ f _ m _, (0, Some (S m))) (λ _, None) id 0 10 None PFIL_IN s'
      = Ok ((0, Some 11%nat), set_calls [mk_pcall 200 8 10 None PFIL_IN None] s').
Proof.
  assert (H1 : both_ways start 1) by (eexists; repeat split; done).
  assert (H2 : both_ways start 2) by (eexists; repeat split; done).
  apply (uinet_pfil_refines (λ _ _ m _, (0, Some m)) (λ f _ m _, (0, Some (S m))) (λ _, None) id start 0 AF_INET []
           [Add 1; Add 2; Add 1; Remove 1; Remove 1] 10 None PFIL_IN).
  - reflexivity.
  - exact carries_start.
  - constructor.
  - repeat (apply Forall_cons; split; [done|]). apply Forall_nil. done.
Defined.

(** A callback that is on the outgoing list already and is added for both directions: its
    hook on the incoming list is freed by [pfil_list_remove] and again at the end. *)
Lemma pfil_add_hook_double_free :
  (_ ← pfil_add_hook true true uinet_hook_wrapper (Some 1%nat) PFIL_OUT 0;
   pfil_add_hook true true uinet_hook_wrapper (Some 1%nat) (Z.lor PFIL_IN PFIL_OUT) 0) start = Fault BadPointer.
Proof. vm_compute. reflexivity. Qed.

(** An interface name that is not known: the application's function sees the packets of
    every interface. *)
Lemma uinet_register_pfil_in_unknown_if :
  match (_ ← uinet_register_pfil_in (Some 100) 7 true None;
         pfil_run_hooks (λ _ _ m _, (0, Some m)) (λ f _ m _, (0, Some m)) (λ _, None) id 0 10 (Some 4%nat) PFIL_IN) start with
  | Ok (_, s) => calls s = [mk_pcall 100 0 10 None PFIL_IN None]
  | _ => False
  end.
Proof. vm_compute. reflexivity. Qed.

(** After an application cleared its function ([uinet_register_pfil_in] of a null one first)
    the hook is there already; the second registration's [EEXIST] is dropped. *)
Lemma uinet_register_pfil_in_drops_error :
  match (_ ← uinet_register_pfil_in None 0 false None; uinet_register_pfil_in (Some 100) 7 false None) start with
  | Ok (r, s) => r = 0 ∧ heads s !! 0%nat = Some (mk_head PFIL_TYPE_AF AF_INET 1 [0%nat] [] false)
  | _ => False
  end.
Proof. vm_compute. split; reflexivity. Qed.

End PfilSpec.
