(* ===== verification/SysInit.v ===== *)
(** Start-up of the kernel environment ([sysinit_add] and [mi_startup],
    src/src/lib/libuinet/uinet_init_main.c): the initialisation tasks of all subsystems are
    sorted and run, and tasks can add others. *)
From S2P Require Import Prelude.

Module SysInit.

Definition SI_SUB_DUMMY : Z := 0.
Definition SI_SUB_DONE : Z := 1.
Definition RB_VERBOSE : Z := 2048.

(** [struct sysinit]; functions and their arguments are named by numbers. *)
Record sysinit : Type := mk_si { subsystem : Z; order : Z; func : nat; udata : nat }.

(** A task's function called: the task, and how often the caller holds [Giant]. *)
Record call : Type := mk_call { c_task : nat; c_func : nat; c_udata : nat; c_giant : Z }.

(** The tasks by address; the arrays of pointers to tasks by address, where an array's end is
    its length; the next address [malloc] gives; the variables [sysinit] and [newsysinit]
    with their ends; [Giant]; the calls made. *)
Record state : Type := mk_sy {
  objs : gmap nat sysinit; arrays : gmap nat (list nat); next : nat;
  v_sysinit : option nat; newsysinit : option nat; giant : Z; calls : list call;
  boothowto : Z; bootverbose : Z }.

Abbreviation P := (M state).

Definition set_objs v s := mk_sy v (arrays s) (next s) (v_sysinit s) (newsysinit s) (giant s) (calls s) (boothowto s) (bootverbose s).
Definition set_arrays v s := mk_sy (objs s) v (next s) (v_sysinit s) (newsysinit s) (giant s) (calls s) (boothowto s) (bootverbose s).
Definition set_next v s := mk_sy (objs s) (arrays s) v (v_sysinit s) (newsysinit s) (giant s) (calls s) (boothowto s) (bootverbose s).
Definition set_sysinit v s := mk_sy (objs s) (arrays s) (next s) v (newsysinit s) (giant s) (calls s) (boothowto s) (bootverbose s).
Definition set_newsysinit v s := mk_sy (objs s) (arrays s) (next s) (v_sysinit s) v (giant s) (calls s) (boothowto s) (bootverbose s).
Definition set_giant v s := mk_sy (objs s) (arrays s) (next s) (v_sysinit s) (newsysinit s) v (calls s) (boothowto s) (bootverbose s).
Definition set_calls v s := mk_sy (objs s) (arrays s) (next s) (v_sysinit s) (newsysinit s) (giant s) v (boothowto s) (bootverbose s).
Definition set_verbose v s := mk_sy (objs s) (arrays s) (next s) (v_sysinit s) (newsysinit s) (giant s) (calls s) (boothowto s) v.

(** The linker's array of tasks, [SET_BEGIN(sysinit_set)]. *)
Definition SET_BEGIN : nat := 0.

Definition get_obj (q : nat) : P sysinit := fun s =>
  match objs s !! q with Some o => Ok (o, s) | None => Fault BadPointer end.
Definition get_array (p : nat) : P (list nat) := fun s =>
  match arrays s !! p with Some l => Ok (l, s) | None => Fault BadPointer end.
Definition put_array (p : nat) (l : list nat) : P unit := modify (fun s => set_arrays (<[p := l]> (arrays s)) s).
Definition free_array (p : nat) : P unit := _ ← get_array p; modify (fun s => set_arrays (delete p (arrays s)) s).
Definition new_array (l : list nat) : P nat :=
  p ← gets next;
  _ ← modify (fun s => set_arrays (<[p := l]> (arrays s)) (set_next (S p) s));
  mret p.

Definition elem (l : list nat) (i : nat) : P nat :=
  liftR (match l !! i with Some q => Ok q | None => Fault OutOfBounds end).

Section Startup.

(** The sets of tasks a function adds, one per call of [sysinit_add], and whether there is
    memory for the array it makes ([M_NOWAIT]). *)
Context (adds : nat → nat → list (list nat)) (mem : nat → bool).

Definition sysinit_add (set : list nat) : P unit :=
  n ← gets newsysinit;
  old ← (match n with
         | Some p => get_array p
         | None => c ← gets v_sysinit; p ← liftR (deref c); get_array p
         end);
  a ← gets next;
  if negb (mem a) then faultM Panic
  else
    newset ← new_array (old ++ set);
    _ ← (match n with Some p => free_array p | None => mret () end);
    modify (set_newsysinit (Some newset)).

(** ** The sort *)

(** The condition under which two tasks are left in place. *)
Definition in_order (a b : sysinit) : bool :=
  (subsystem a <? subsystem b) || ((subsystem a =? subsystem b) && (order a <=? order b)).

(** The interior loop: [n] turns from [j] on. *)
Fixpoint sort_inner (n i j : nat) (l : list nat) : P (list nat) :=
  match n with
  | O => mret l
  | S n =>
      x ← elem l i;
      y ← elem l j;
      ox ← get_obj x;
      oy ← get_obj y;
      if in_order ox oy then sort_inner n i (S j) l
      else sort_inner n i (S j) (<[j := x]> (<[i := y]> l))
  end.

Fixpoint sort_outer (n i : nat) (l : list nat) : P (list nat) :=
  match n with
  | O => mret l
  | S n => l ← sort_inner (length l - S i) i (S i) l; sort_outer n (S i) l
  end.

Definition sort_tasks : P (list nat) :=
  c ← gets v_sysinit;
  p ← liftR (deref c);
  l ← get_array p;
  l ← sort_outer (length l) 0 l;
  _ ← put_array p l;
  mret l.

(** ** The run *)

Fixpoint add_all (sets : list (list nat)) : P unit :=
  match sets with [] => mret () | set :: sets => _ ← sysinit_add set; add_all sets end.

Definition call_func (q : nat) : P unit :=
  o ← get_obj q;
  _ ← modify (fun s => set_giant (giant s + 1) s);
  _ ← modify (fun s => set_calls (calls s ++ [mk_call q (func o) (udata o) (giant s)]) s);
  _ ← add_all (adds (func o) (udata o));
  modify (fun s => set_giant (giant s - 1) s).

(** Check off the one we're just done. *)
Definition check_off (q : nat) : P unit :=
  o ← get_obj q;
  modify (fun s => set_objs (<[q := mk_si SI_SUB_DONE (order o) (func o) (udata o)]> (objs s)) s).

(** More tasks were installed: the new array takes the place of the old one. *)
Definition install_new (p : nat) : P unit :=
  c ← gets v_sysinit;
  old ← liftR (deref c);
  _ ← (if bool_decide (old ≠ SET_BEGIN) then free_array old else mret ());
  modify (fun s => set_newsysinit None (set_sysinit (Some p) s)).

(** The traversal from some element on; the result says whether to restart. *)
Fixpoint traverse (l : list nat) : P bool :=
  match l with
  | [] => mret false
  | q :: l =>
      o ← get_obj q;
      if subsystem o =? SI_SUB_DUMMY then traverse l
      else if subsystem o =? SI_SUB_DONE then traverse l
      else
        _ ← call_func q;
        _ ← check_off q;
        n ← gets newsysinit;
        match n with
        | Some p => _ ← install_new p; mret true
        | None => traverse l
        end
  end.

(** From the label [restart] on; [fuel] bounds the number of restarts. *)
Fixpoint restart (fuel : nat) : P unit :=
  match fuel with
  | O => faultM Blocked
  | S fuel =>
      l ← sort_tasks;
      again ← traverse l;
      if (again : bool) then restart fuel else mret ()
  end.

Definition mi_startup (fuel : nat) : P unit :=
  _ ← modify (fun s => if has_flag (boothowto s) RB_VERBOSE then set_verbose (s32 (bootverbose s + 1)) s else s);
  c ← gets v_sysinit;
  _ ← (match c with
       | None =>
           l ← get_array SET_BEGIN;
           p ← new_array l;
           modify (set_sysinit (Some p))
       | Some _ => mret ()
       end);
  restart fuel.

End Startup.

End SysInit.
