(* ===== verification/SysInitSpec.v ===== *)
(** Correctness of the start-up of SysInit.v: every task that is known, from the start or
    from a task that ran, is run once, and always one that comes first among those that are
    left. *)
From S2P Require Import Prelude SysInit.
From Stdlib Require Import Sorting.Sorted.

Module SysInitSpec.

Import SysInit.

(** ** The order *)

Definition before (o : gmap nat sysinit) (x y : nat) : Prop :=
  match o !! x, o !! y with Some a, Some b => in_order a b = true | _, _ => False end.

Definition known (o : gmap nat sysinit) (l : list nat) : Prop := Forall (λ q, is_Some (o !! q)) l.

Lemma in_order_total a b : in_order a b = false → in_order b a = true.
Proof.
  unfold in_order. rewrite orb_false_iff, andb_false_iff, orb_true_iff, andb_true_iff, !Z.ltb_lt, !Z.ltb_ge, !Z.eqb_eq, !Z.eqb_neq, !Z.leb_le, !Z.leb_gt.
  lia.
Qed.

Lemma in_order_trans a b c : in_order a b = true → in_order b c = true → in_order a c = true.
Proof. unfold in_order. rewrite !orb_true_iff, !andb_true_iff, !Z.ltb_lt, !Z.eqb_eq, !Z.leb_le. lia. Qed.

Lemma before_trans o x y z : before o x y → before o y z → before o x z.
Proof.
  unfold before. destruct (o !! x), (o !! y), (o !! z); try done. apply in_order_trans.
Qed.

Lemma get_obj_Ok s q o : objs s !! q = Some o → get_obj q s = Ok (o, s).
Proof. unfold get_obj. by intros ->. Qed.
Lemma get_array_Ok s p l : arrays s !! p = Some l → get_array p s = Ok (l, s).
Proof. unfold get_array. by intros ->. Qed.
Lemma elem_Ok s l i q : l !! i = Some q → elem l i s = Ok (q, s).
Proof. unfold elem. by intros ->. Qed.

(** ** The sort *)

Lemma insert_here (pre : list nat) x y r i : i = length pre → <[i := y]> (pre ++ x :: r) = pre ++ y :: r.
Proof. intros ->. rewrite insert_app_r_alt by lia. by rewrite Nat.sub_diag. Qed.

Lemma swap_lists (pre : list nat) x mid y r i j :
  i = length pre → j = (i + S (length mid))%nat →
  <[j := x]> (<[i := y]> (pre ++ x :: mid ++ y :: r)) = pre ++ y :: (mid ++ [x]) ++ r.
Proof.
  intros Hi Hj. rewrite (insert_here pre x y) by done. change (y :: mid ++ y :: r) with ((y :: mid) ++ y :: r).
  rewrite app_assoc, (insert_here _ y x) by (rewrite length_app; cbn; lia). by rewrite <- !app_assoc.
Qed.

(** The interior loop moves a first task to the front of what it looks at. *)
Lemma sort_inner_spec s rest : ∀ pre x mid i j,
  i = length pre → j = (i + S (length mid))%nat → known (objs s) (pre ++ x :: mid ++ rest) →
  Forall (before (objs s) x) mid →
  ∃ x' rest', sort_inner (length rest) i j (pre ++ x :: mid ++ rest) s = Ok (pre ++ x' :: rest', s)
    ∧ Permutation (x :: mid ++ rest) (x' :: rest') ∧ Forall (before (objs s) x') rest'.
Proof.
  induction rest as [|y r IH]; intros pre x mid i j -> -> Hk Hx.
  { exists x, mid. rewrite app_nil_r. done. }
  cbn [length sort_inner].
  assert (Hlx : (pre ++ x :: mid ++ y :: r) !! length pre = Some x) by (by apply list_lookup_middle).
  assert (Hly : (pre ++ x :: mid ++ y :: r) !! (length pre + S (length mid))%nat = Some y).
  { change (x :: mid ++ y :: r) with ((x :: mid) ++ y :: r).
    rewrite app_assoc. apply list_lookup_middle. by rewrite length_app. }
  rewrite (M_bind_Ok _ _ _ _ _ (elem_Ok _ _ _ _ Hlx)), (M_bind_Ok _ _ _ _ _ (elem_Ok _ _ _ _ Hly)).
  unfold known in Hk. rewrite Forall_app, Forall_cons, Forall_app, Forall_cons in Hk.
  destruct Hk as (Hpre & [ox Hox] & Hmid & [oy Hoy] & Hr).
  rewrite (M_bind_Ok _ _ _ _ _ (get_obj_Ok _ _ _ Hox)), (M_bind_Ok _ _ _ _ _ (get_obj_Ok _ _ _ Hoy)).
  destruct (in_order ox oy) eqn:E.
  - destruct (IH pre x (mid ++ [y]) (length pre) (S (length pre + S (length mid)))) as (x' & rest' & Hr' & Hp & Hf).
    + done.
    + rewrite length_app. cbn. lia.
    + unfold known. rewrite Forall_app, Forall_cons, <- app_assoc, Forall_app. cbn. rewrite Forall_cons. eauto 10.
    + rewrite Forall_app, Forall_singleton. split; [done|]. unfold before. by rewrite Hox, Hoy.
    + rewrite <- app_assoc in Hr', Hp. cbn [app] in Hr', Hp. eauto.
  - rewrite swap_lists by done. assert (Hyx : before (objs s) y x).
    { unfold before. rewrite Hoy, Hox. by apply in_order_total. }
    destruct (IH pre y (mid ++ [x]) (length pre) (S (length pre + S (length mid)))) as (x' & rest' & Hr' & Hp & Hf).
    + done.
    + rewrite length_app. cbn. lia.
    + unfold known. rewrite Forall_app, Forall_cons, <- app_assoc, Forall_app. cbn. rewrite Forall_cons. eauto 10.
    + rewrite Forall_app, Forall_singleton. split; [|done]. apply (Forall_impl _ _ _ Hx). intros z. by apply before_trans.
    + exists x', rest'. split_and!; [done| |done]. rewrite <- Hp. rewrite <- app_assoc. cbn [app].
      rewrite <- !Permutation_middle. apply perm_swap.
Qed.

Lemma sort_outer_spec s n : ∀ pre rest i,
  i = length pre → n = length rest → known (objs s) (pre ++ rest) →
  ∃ rest', sort_outer n i (pre ++ rest) s = Ok (pre ++ rest', s)
    ∧ Permutation rest rest' ∧ StronglySorted (before (objs s)) rest'.
Proof.
  induction n as [|n IH]; intros pre rest i -> Hn Hk.
  { destruct rest; [|done]. exists []. split_and!; [done|done|constructor]. }
  destruct rest as [|x r]; [done|]. cbn [sort_outer].
  replace (length (pre ++ x :: r) - S (length pre))%nat with (length r) by (rewrite length_app; cbn; lia).
  destruct (sort_inner_spec s r pre x [] (length pre) (S (length pre))) as (x' & r' & Hr & Hp & Hf); [done|cbn; lia|done|constructor|].
  cbn [app] in Hr, Hp. rewrite (M_bind_Ok _ _ _ _ _ Hr). change (pre ++ x' :: r') with (pre ++ [x'] ++ r'). rewrite app_assoc.
  assert (Hl : length r = length r') by (by apply Permutation_length in Hp as [=]).
  destruct (IH (pre ++ [x']) r' (S (length pre))) as (r'' & Hr2 & Hp2 & Hs).
  - rewrite length_app. cbn. lia.
  - cbn in Hn. lia.
  - unfold known in *. rewrite <- app_assoc. cbn [app]. rewrite <- Hp. done.
  - exists (x' :: r''). split_and!; [by rewrite Hr2, <- app_assoc|by rewrite Hp, Hp2|].
    constructor; [done|]. by rewrite <- Hp2.
Qed.

(** ** The abstract run *)

Section Run.

Context (adds : nat → nat → list (list nat)).
(** The tasks as they are at the start. *)
Context (K : gmap nat sysinit).

(** A task that is neither a placeholder nor checked off. *)
Definition runnable (q : nat) : Prop :=
  match K !! q with Some o => subsystem o ≠ SI_SUB_DUMMY ∧ subsystem o ≠ SI_SUB_DONE | None => False end.

(** What a task adds. *)
Definition sets_of (q : nat) : list (list nat) :=
  match K !! q with Some o => adds (func o) (udata o) | None => [] end.
Definition adds_of (q : nat) : gset nat := list_to_set (concat (sets_of q)).

(** With the tasks [A] known and [D] done, the tasks [qs] run one after the other: each is
    known, was not run, and comes before all others that are left. *)
Inductive a_steps : gset nat → gset nat → list nat → gset nat → gset nat → Prop :=
| a_none D A : a_steps D A [] D A
| a_step D A q qs D' A' :
    q ∈ A → q ∉ D → runnable q → (∀ q', q' ∈ A → q' ∉ D → runnable q' → before K q q') →
    a_steps ({[q]} ∪ D) (A ∪ adds_of q) qs D' A' → a_steps D A (q :: qs) D' A'.

(** Nothing is left to run. *)
Definition finished (D A : gset nat) : Prop := ∀ q, q ∈ A → runnable q → q ∈ D.

Lemma a_steps_app D A qs D1 A1 qs' D2 A2 :
  a_steps D A qs D1 A1 → a_steps D1 A1 qs' D2 A2 → a_steps D A (qs ++ qs') D2 A2.
Proof. induction 1; [done|]. intros. cbn. apply a_step; auto. Qed.

Lemma a_steps_done D A qs D' A' : a_steps D A qs D' A' → D' = D ∪ list_to_set qs ∧ NoDup qs ∧ (∀ q, q ∈ qs → q ∉ D ∧ runnable q).
Proof.
  induction 1 as [|D A q qs D' A' Hin Hn Hr Hmin _ (-> & Hnd & Hall)]; [split_and!; [set_solver|constructor|set_solver]|].
  split_and!; [set_solver| |].
  - constructor; [|done]. intros Hq. apply Hall in Hq as [Hq _]. set_solver.
  - intros q' Hq'. apply elem_of_cons in Hq' as [->|Hq']; [done|]. destruct (Hall q' Hq'). set_solver.
Qed.

Lemma a_steps_known D A qs D' A' : a_steps D A qs D' A' → A ⊆ A' ∧ ∀ q, q ∈ qs → adds_of q ⊆ A'.
Proof. induction 1 as [|D A q qs D' A' ???? _ [H1 H2]]; set_solver. Qed.

(** ** The state between tasks *)

Definition checked (o : sysinit) : sysinit := mk_si SI_SUB_DONE (order o) (func o) (udata o).

Definition agree (D : gset nat) (o : gmap nat sysinit) : Prop :=
  ∀ q, o !! q = (λ i, if decide (q ∈ D) then checked i else i) <$> K !! q.

Lemma agree_known D o l : agree D o → known K l → known o l.
Proof. intros Ha Hl. apply (Forall_impl _ _ _ Hl). intros q [i Hi]. rewrite (Ha q), Hi. by eexists. Qed.

Lemma agree_before D o q q' :
  agree D o → q ∉ D → q' ∉ D → before o q q' → before K q q'.
Proof.
  intros Ha Hq Hq'. unfold before. rewrite (Ha q), (Ha q'). destruct (K !! q), (K !! q'); try done. cbn. by rewrite !decide_False.
Qed.

(** The array [c] holds the tasks [l]; the linker's array and it are all there is. *)
Record ready (s : state) (D : gset nat) (c : nat) (l : list nat) : Prop := {
  rd_cur : v_sysinit s = Some c;
  rd_arr : arrays s !! c = Some l;
  rd_dom : dom (arrays s) = {[SET_BEGIN; c]};
  rd_set : c ≠ SET_BEGIN;
  rd_next : ∀ p, p ∈ dom (arrays s) → (p < next s)%nat;
  rd_new : newsysinit s = None;
  rd_agree : agree D (objs s);
  rd_known : known K l }.

(** What [sysinit_add] changes: [e] was added to [l]. *)
Record grown (s s' : state) (l e : list nat) : Prop := {
  gr_objs : objs s' = objs s;
  gr_cur : v_sysinit s' = v_sysinit s;
  gr_rest : giant s' = giant s ∧ calls s' = calls s ∧ boothowto s' = boothowto s ∧ bootverbose s' = bootverbose s;
  gr_next : (next s <= next s')%nat;
  gr_new : match newsysinit s' with
           | None => arrays s' = arrays s ∧ e = []
           | Some p => arrays s' = <[p := l ++ e]> (arrays s) ∧ (next s <= p < next s')%nat
           end }.

Context (mem : nat → bool) (Hmem : ∀ n, mem n = true).

Lemma sysinit_add_spec s s1 D c l e set :
  ready s D c l → grown s s1 l e → ∃ s2, sysinit_add mem set s1 = Ok (tt, s2) ∧ grown s s2 l (e ++ set) ∧ newsysinit s2 ≠ None.
Proof.
  intros [Hc Ha Hd Hs Hn _ _ _] [Go Gc Gr Gn Gw]. unfold sysinit_add. erewrite M_bind_Ok by reflexivity.
  destruct (newsysinit s1) as [p|] eqn:En.
  - destruct Gw as [Ga Gp]. assert (Hp : arrays s1 !! p = Some (l ++ e)) by (rewrite Ga; apply lookup_insert_eq).
    rewrite (M_bind_Ok _ _ _ _ _ (get_array_Ok _ _ _ Hp)). erewrite M_bind_Ok by reflexivity. rewrite Hmem. cbn [negb].
    unfold new_array. rewrite <- M_bind_assoc. erewrite M_bind_Ok by reflexivity. rewrite <- M_bind_assoc. erewrite M_bind_Ok by reflexivity.
    erewrite M_bind_Ok by reflexivity. unfold free_array. rewrite <- M_bind_assoc. match goal with |- context [mbind _ (get_array p) ?t] => rewrite (M_bind_Ok _ _ t (l ++ e) t) end.
    2: { apply get_array_Ok. cbn. rewrite lookup_insert_ne by lia. done. }
    erewrite M_bind_Ok by reflexivity. eexists. split; [reflexivity|]. split; [|done]. split; [done..|cbn; lia|]. cbn.
    split; [|lia]. rewrite Ga, <- app_assoc. rewrite delete_insert_ne, delete_insert_eq by lia. rewrite delete_id; [done|].
    apply not_elem_of_dom. intros Hi. apply Hn in Hi. lia.
  - destruct Gw as [Ga ->]. rewrite <- M_bind_assoc. erewrite M_bind_Ok by reflexivity. rewrite Gc, Hc. rewrite <- M_bind_assoc.
    erewrite M_bind_Ok by reflexivity. rewrite (M_bind_Ok _ _ _ l s1) by (apply get_array_Ok; by rewrite Ga).
    erewrite M_bind_Ok by reflexivity. rewrite Hmem. cbn [negb].
    unfold new_array. rewrite <- M_bind_assoc. erewrite M_bind_Ok by reflexivity. rewrite <- M_bind_assoc. erewrite M_bind_Ok by reflexivity.
    erewrite M_bind_Ok by reflexivity. erewrite M_bind_Ok by reflexivity. eexists. split; [reflexivity|]. split; [|done].
    split; [done..|cbn; lia|]. cbn. rewrite Ga. split; [done|lia].
Qed.

Lemma add_all_spec s D c l sets : ∀ s1 e,
  ready s D c l → grown s s1 l e → ∃ s2, add_all mem sets s1 = Ok (tt, s2) ∧ grown s s2 l (e ++ concat sets).
Proof.
  induction sets as [|set sets IH]; intros s1 e Hr Hg; [exists s1; cbn; by rewrite app_nil_r|].
  destruct (sysinit_add_spec s s1 D c l e set Hr Hg) as (s2 & Hr2 & Hg2 & _). cbn [add_all]. rewrite (M_bind_Ok _ _ _ _ _ Hr2).
  destruct (IH s2 (e ++ set) Hr Hg2) as (s3 & Hr3 & Hg3). exists s3. cbn [concat]. by rewrite app_assoc.
Qed.

(** What tasks add are tasks. *)
Context (Hsets : ∀ q, Forall (known K) (sets_of q)).

Lemma known_concat sets : Forall (known K) sets → known K (concat sets).
Proof. unfold known. induction 1; [done|]. cbn. by apply Forall_app. Qed.

Definition call_of (g : Z) (q : nat) : call :=
  match K !! q with Some o => mk_call q (func o) (udata o) (g + 1) | None => mk_call q 0 0 0 end.

Lemma agree_check D o q i : agree D o → K !! q = Some i → q ∉ D → agree ({[q]} ∪ D) (<[q := checked i]> o).
Proof.
  intros Ha Hi Hq q'. destruct (decide (q' = q)) as [->|Hne].
  - rewrite lookup_insert_eq, Hi. cbn. rewrite decide_True by set_solver. done.
  - rewrite lookup_insert_ne, (Ha q') by done. destruct (K !! q'); [|done]. cbn. f_equal.
    destruct (decide (q' ∈ D)); [rewrite decide_True by set_solver|rewrite decide_False by set_solver]; done.
Qed.

(** One task run and checked off, up to the test for new tasks. *)
Lemma run_task s D c l q i :
  ready s D c l → K !! q = Some i → q ∉ D →
  ∃ s1, (_ ← call_func adds mem q; check_off q) s = Ok (tt, s1) ∧ calls s1 = calls s ++ [call_of (giant s) q] ∧ giant s1 = giant s
    ∧ agree ({[q]} ∪ D) (objs s1) ∧ v_sysinit s1 = v_sysinit s ∧ (next s <= next s1)%nat
    ∧ match newsysinit s1 with
      | None => arrays s1 = arrays s ∧ adds_of q = ∅
      | Some p => arrays s1 = <[p := l ++ concat (sets_of q)]> (arrays s) ∧ (next s <= p < next s1)%nat
      end.
Proof.
  intros Hr Hi Hq. unfold call_func. rewrite <- M_bind_assoc. pose proof (rd_agree _ _ _ _ Hr q) as Hoq. rewrite Hi in Hoq.
  cbn in Hoq. rewrite decide_False in Hoq by done. rewrite (M_bind_Ok _ _ _ _ _ (get_obj_Ok _ _ _ Hoq)).
  rewrite <- M_bind_assoc. erewrite M_bind_Ok by reflexivity. rewrite <- M_bind_assoc. erewrite M_bind_Ok by reflexivity.
  set (s0 := set_calls _ _). assert (Hr0 : ready s0 D c l) by (by destruct Hr; split).
  assert (Hg0 : grown s0 s0 l []).
  { split; [done..|]. destruct Hr as [_ _ _ _ _ Hnew _ _]. change (newsysinit s0) with (newsysinit s). by rewrite Hnew. }
  destruct (add_all_spec s0 D c l (adds (func i) (udata i)) s0 [] Hr0 Hg0) as (s1 & Hr1 & [Go Gc Gr Gn Gw]).
  cbn [app] in Gw. rewrite <- M_bind_assoc, (M_bind_Ok _ _ _ _ _ Hr1). erewrite M_bind_Ok by reflexivity. unfold check_off.
  erewrite M_bind_Ok by (apply get_obj_Ok; cbn; rewrite Go; exact Hoq). eexists. split; [reflexivity|].
  cbn. destruct Gr as (-> & -> & _). unfold sets_of, adds_of, call_of, sets_of. rewrite Hi. cbn. split_and!; try done.
  - lia.
  - rewrite Go. apply agree_check; [by destruct Hr|done|done].
  - destruct (newsysinit s1) as [p|]; [done|]. destruct Gw as [? He]. by rewrite He.
Qed.

(** The new array in place. *)
Lemma install_new_spec s s1 D D' c l p l' :
  ready s D c l → agree D' (objs s1) → v_sysinit s1 = v_sysinit s → (next s <= next s1)%nat → known K l' →
  arrays s1 = <[p := l']> (arrays s) → (next s <= p < next s1)%nat →
  ∃ s2, install_new p s1 = Ok (tt, s2) ∧ ready s2 D' p l' ∧ calls s2 = calls s1 ∧ giant s2 = giant s1.
Proof.
  intros [Hc Ha Hd Hs Hn _ _ _] Hag Hv Hnx Hk Harr Hp. unfold install_new. erewrite M_bind_Ok by reflexivity.
  rewrite Hv, Hc. erewrite M_bind_Ok by reflexivity. rewrite bool_decide_true by done.
  assert (Hpc : p ≠ c). { intros ->. assert (c ∈ dom (arrays s)) as Hi by (rewrite Hd; set_solver). apply Hn in Hi. lia. }
  assert (Hp0 : p ≠ SET_BEGIN). { intros ->. assert (SET_BEGIN ∈ dom (arrays s)) as Hi by (rewrite Hd; set_solver). apply Hn in Hi. lia. }
  unfold free_array. rewrite <- M_bind_assoc. rewrite (M_bind_Ok _ _ s1 l s1) by (apply get_array_Ok; by rewrite Harr, lookup_insert_ne).
  erewrite M_bind_Ok by reflexivity. eexists. split; [reflexivity|]. split; [|done]. split; try done.
  - cbn. rewrite Harr, lookup_delete_ne by done. apply lookup_insert_eq.
  - cbn. rewrite Harr, dom_delete_L, dom_insert_L, Hd. set_solver.
  - cbn. intros q. rewrite Harr, dom_delete_L, dom_insert_L. intros [Hq _]%elem_of_difference.
    apply elem_of_union in Hq as [Hq|Hq]; [set_solver by lia|]. apply Hn in Hq. lia.
Qed.

(** The traversal. *)
Lemma traverse_spec D0 o0 c l rest : ∀ s D,
  ready s D c l → (∀ q, q ∈ rest → q ∈ l) → (∀ q, q ∈ l → runnable q → q ∉ D → q ∈ rest) →
  StronglySorted (before o0) rest → agree D0 o0 → D0 ⊆ D →
  ∃ b s' qs D' c' l', traverse adds mem rest s = Ok (b, s') ∧ a_steps D (list_to_set l) qs D' (list_to_set l')
    ∧ ready s' D' c' l' ∧ calls s' = calls s ++ (call_of (giant s) <$> qs) ∧ giant s' = giant s
    ∧ (if b then qs ≠ [] else finished D' (list_to_set l')).
Proof.
  induction rest as [|q rest IH]; intros s D Hr Hsub Hall Hs Ha0 HD.
  { exists false, s, [], D, c, l. split_and!; [done|constructor|done|by rewrite app_nil_r|done|].
    intros q Hq Hrun. destruct (decide (q ∈ D)) as [|Hn]; [done|]. exfalso. apply elem_of_list_to_set in Hq.
    by apply (not_elem_of_nil q), Hall. }
  apply StronglySorted_inv in Hs as [Hs Hmin]. cbn [traverse].
  assert (Hql : q ∈ l) by (apply Hsub, list_elem_of_here).
  pose proof (rd_known _ _ _ _ Hr) as Hk. unfold known in Hk. rewrite Forall_forall in Hk. destruct (Hk q Hql) as [i Hi]. clear Hk.
  pose proof (rd_agree _ _ _ _ Hr q) as Hoq. rewrite Hi in Hoq. cbn in Hoq.
  rewrite (M_bind_Ok _ _ _ _ _ (get_obj_Ok _ _ _ Hoq)).
  assert (Hskip : (q ∈ D ∨ ¬ runnable q) → ∀ q', q' ∈ l → runnable q' → q' ∉ D → q' ∈ rest).
  { intros Hq q' H1 H2 H3. specialize (Hall q' H1 H2 H3). apply elem_of_cons in Hall as [->|]; [|done]. destruct Hq; done. }
  assert (Hsub' : ∀ q', q' ∈ rest → q' ∈ l) by (intros q' Hq'; apply Hsub; by apply list_elem_of_further).
  destruct (decide (q ∈ D)) as [Hd|Hd]; [cbn; apply IH; auto|].
  destruct (subsystem i =? SI_SUB_DUMMY) eqn:E1.
  { apply IH; auto. apply Hskip. right. unfold runnable. rewrite Hi. bool_to_prop. tauto. }
  destruct (subsystem i =? SI_SUB_DONE) eqn:E2.
  { apply IH; auto. apply Hskip. right. unfold runnable. rewrite Hi. bool_to_prop. tauto. }
  assert (Hrun : runnable q) by (unfold runnable; rewrite Hi; bool_to_prop; done).
  assert (Hfirst : ∀ q', q' ∈ list_to_set (C:=gset nat) l → q' ∉ D → runnable q' → before K q q').
  { intros q' Hq' Hn' Hr'. apply elem_of_list_to_set in Hq'. specialize (Hall q' Hq' Hr' Hn'). apply elem_of_cons in Hall as [->|Hin].
    - unfold before. rewrite Hi. unfold in_order. rewrite Z.ltb_irrefl, Z.eqb_refl, Z.leb_refl. done.
    - rewrite Forall_forall in Hmin. apply (agree_before D0 o0); [done|set_solver|set_solver|by apply Hmin]. }
  destruct (run_task s D c l q i Hr Hi Hd) as (s1 & Hr1 & Hcalls & Hg & Hag & Hv & Hnx & Hnew).
  rewrite M_bind_assoc, (M_bind_Ok _ _ _ _ _ Hr1). erewrite M_bind_Ok by reflexivity.
  destruct (newsysinit s1) as [p|] eqn:En.
  - destruct Hnew as [Harr Hp].
    destruct (install_new_spec s s1 D ({[q]} ∪ D) c l p (l ++ concat (sets_of q)) Hr Hag Hv Hnx) as (s2 & Hr2 & Hrd & Hc2 & Hg2); [|done|done|].
    { apply Forall_app. split; [by destruct Hr|]. apply known_concat, Hsets. }
    rewrite (M_bind_Ok _ _ _ _ _ Hr2). exists true, s2, [q], ({[q]} ∪ D), p, (l ++ concat (sets_of q)).
    split_and!; [done| |done|by rewrite Hc2|congruence|done].
    apply a_step; [by apply elem_of_list_to_set|done|done|done|]. unfold adds_of. rewrite list_to_set_app_L. constructor.
  - destruct Hnew as [Harr Hadd].
    assert (Hrd : ready s1 ({[q]} ∪ D) c l). { destruct Hr. split; try done; try congruence. intros p. rewrite Harr. intros Hp%rd_next0. lia. }
    destruct (IH s1 ({[q]} ∪ D) Hrd Hsub') as (b & s' & qs & D' & c' & l' & Ht & Hst & Hrd' & Hc' & Hg' & Hb); [|done|done|set_solver|].
    { intros q' H1 H2 H3. specialize (Hall q' H1 H2). rewrite elem_of_cons in Hall. set_solver. }
    exists b, s', (q :: qs), D', c', l'. split_and!; [done| |done| |congruence|by destruct b].
    + apply a_step; [by apply elem_of_list_to_set|done|done|done|]. by rewrite Hadd, union_empty_r_L.
    + rewrite Hc', Hcalls, Hg, <- app_assoc. done.
Qed.

Lemma sort_tasks_spec s D c l :
  ready s D c l →
  ∃ l1 s1, sort_tasks s = Ok (l1, s1) ∧ Permutation l l1 ∧ StronglySorted (before (objs s)) l1 ∧ ready s1 D c l1
    ∧ calls s1 = calls s ∧ giant s1 = giant s.
Proof.
  intros Hr. unfold sort_tasks. erewrite M_bind_Ok by reflexivity. rewrite (rd_cur _ _ _ _ Hr). erewrite M_bind_Ok by reflexivity.
  rewrite (M_bind_Ok _ _ _ _ _ (get_array_Ok _ _ _ (rd_arr _ _ _ _ Hr))).
  destruct (sort_outer_spec s (length l) [] l 0) as (l1 & Hs1 & Hp & Hso); [done|done| |].
  { apply (agree_known D); [by destruct Hr|by destruct Hr]. }
  cbn [app] in Hs1. rewrite (M_bind_Ok _ _ _ _ _ Hs1). erewrite M_bind_Ok by reflexivity. eexists _, _. split; [reflexivity|].
  split_and!; [done|done| |done|done]. destruct Hr as [Hc Ha Hd Hb Hn Hw Hg Hk].
  assert (Hdom : dom (<[c := l1]> (arrays s)) = dom (arrays s)) by (apply dom_insert_lookup_L; by eexists).
  split; try done.
  - apply lookup_insert_eq.
  - cbn. by rewrite Hdom.
  - cbn. by rewrite Hdom.
  - unfold known. by rewrite <- Hp.
Qed.

#[local] Instance runnable_dec q : Decision (runnable q).
Proof. unfold runnable. destruct (K !! q); apply _. Defined.

(** The tasks that have not run. *)
Definition left_over (D : gset nat) : gset nat := filter (λ q, runnable q ∧ q ∉ D) (dom K).

Lemma left_over_less D A qs D' A' : a_steps D A qs D' A' → qs ≠ [] → (size (left_over D') < size (left_over D))%nat.
Proof.
  intros Hst Hne. destruct (a_steps_done _ _ _ _ _ Hst) as (-> & _ & Hall). apply subset_size.
  destruct qs as [|q qs]; [done|]. destruct (Hall q (list_elem_of_here _ _)) as [Hq Hrun]. split.
  - intros x. unfold left_over. rewrite !elem_of_filter. set_solver.
  - intros Hsub. assert (Hin : q ∈ left_over D).
    { apply elem_of_filter. split; [done|]. apply elem_of_dom. unfold runnable in Hrun. destruct (K !! q); [by eexists|done]. }
    apply Hsub, elem_of_filter in Hin as [[_ Hin] _]. set_solver.
Qed.

Lemma restart_spec fuel : ∀ s D c l,
  ready s D c l → (size (left_over D) < fuel)%nat →
  ∃ s' qs D' c' l', restart adds mem fuel s = Ok (tt, s') ∧ a_steps D (list_to_set l) qs D' (list_to_set l')
    ∧ ready s' D' c' l' ∧ calls s' = calls s ++ (call_of (giant s) <$> qs) ∧ giant s' = giant s ∧ finished D' (list_to_set l').
Proof.
  induction fuel as [|fuel IH]; intros s D c l Hr Hf; [lia|]. cbn [restart].
  destruct (sort_tasks_spec s D c l Hr) as (l1 & s1 & Hs1 & Hp & Hso & Hr1 & Hc1 & Hg1). rewrite (M_bind_Ok _ _ _ _ _ Hs1).
  assert (Hset : list_to_set (C:=gset nat) l = list_to_set l1) by (apply set_eq; intros x; by rewrite !elem_of_list_to_set, Hp).
  destruct (traverse_spec D (objs s) c l1 l1 s1 D Hr1) as (b & s2 & qs & D2 & c2 & l2 & Ht & Hst & Hr2 & Hc2 & Hg2 & Hb);
    [done|done|done|by destruct Hr|done|].
  rewrite (M_bind_Ok _ _ _ _ _ Ht), Hset. rewrite Hc1, Hg1 in Hc2. rewrite Hg1 in Hg2. destruct b.
  - assert (Hless := left_over_less _ _ _ _ _ Hst Hb).
    destruct (IH s2 D2 c2 l2 Hr2) as (s' & qs' & D' & c' & l' & Hre & Hst' & Hr' & Hc' & Hg' & Hfin); [lia|].
    exists s', (qs ++ qs'), D', c', l'. split_and!; [done|by eapply a_steps_app|done| |congruence|done].
    by rewrite Hc', Hc2, Hg2, <- app_assoc, fmap_app.
  - exists s2, qs, D2, c2, l2. done.
Qed.

End Run.

(** [C18] Started with the linker's tasks, [mi_startup] returns after at most one restart per task.
    The tasks [qs] were called in this order, each with its argument and [Giant] held; each
    of them was known, had not run, and came first by subsystem and order among those known
    and left; no task ran twice; every task that is no placeholder, and was there at the start
    or added by one that ran, did run. [Giant] is released as often as taken, and of the
    arrays made on the way only the last is left. *)
Theorem mi_startup_runs_all adds mem s l :
  v_sysinit s = None → newsysinit s = None → arrays s = {[SET_BEGIN := l]} → (SET_BEGIN < next s)%nat →
  known (objs s) l → (∀ n, mem n = true) → (∀ q, Forall (known (objs s)) (sets_of adds (objs s) q)) →
  ∃ s' qs A c, mi_startup adds mem (S (size (objs s))) s = Ok (tt, s')
    ∧ calls s' = calls s ++ (call_of (objs s) (giant s) <$> qs)
    ∧ a_steps adds (objs s) ∅ (list_to_set l) qs (list_to_set qs) A ∧ NoDup qs
    ∧ (∀ q, runnable (objs s) q → q ∈ l ∨ (∃ p, p ∈ qs ∧ q ∈ adds_of adds (objs s) p) → q ∈ qs)
    ∧ giant s' = giant s ∧ dom (arrays s') = {[SET_BEGIN; c]}.
Proof.
  intros Hv Hn Ha Hx Hk Hmem Hsets. unfold mi_startup. erewrite M_bind_Ok by reflexivity. set (s0 := if has_flag _ _ then _ else s).
  assert (Hs0 : v_sysinit s0 = None ∧ newsysinit s0 = None ∧ arrays s0 = {[SET_BEGIN := l]} ∧ next s0 = next s ∧ objs s0 = objs s
     ∧ calls s0 = calls s ∧ giant s0 = giant s) by (unfold s0; by destruct (has_flag _ _)).
  clearbody s0. destruct Hs0 as (Hv0 & Hn0 & Ha0 & Hx0 & Ho0 & Hc0 & Hg0). erewrite M_bind_Ok by reflexivity. rewrite Hv0.
  rewrite <- M_bind_assoc, (M_bind_Ok _ _ _ l s0) by (apply get_array_Ok; by rewrite Ha0, lookup_singleton_eq).
  unfold new_array. rewrite <- !M_bind_assoc. erewrite M_bind_Ok by reflexivity. rewrite <- M_bind_assoc. erewrite M_bind_Ok by reflexivity.
  erewrite M_bind_Ok by reflexivity. erewrite M_bind_Ok by reflexivity. rewrite Hx0. set (s1 := set_sysinit _ _).
  assert (Hr1 : ready (objs s) s1 ∅ (next s) l).
  { split; cbn; try done.
    - apply lookup_insert_eq.
    - rewrite Ha0, dom_insert_L, dom_singleton_L. set_solver.
    - lia.
    - intros p. rewrite Ha0, dom_insert_L, dom_singleton_L. intros [Hp|Hp]%elem_of_union; apply elem_of_singleton in Hp; subst; lia.
    - intros q. rewrite Ho0. destruct (objs s !! q); done. }
  destruct (restart_spec adds (objs s) mem Hmem Hsets (S (size (objs s))) s1 ∅ (next s) l Hr1) as (s' & qs & D' & c' & l' & Hre & Hst & Hr' & Hc' & Hg' & Hfin).
  { unfold left_over. apply Nat.lt_succ_r. rewrite <- size_dom. apply subseteq_size. set_solver. }
  pose proof Hst as (HD & Hnd & Hall)%a_steps_done. rewrite union_empty_l_L in HD. subst D'.
  pose proof Hst as [Hkn1 Hkn2]%a_steps_known.
  exists s', qs, (list_to_set l'), c'. split_and!; [done| |done|done| | |by destruct Hr'].
  - rewrite Hc'. change (calls s1) with (calls s0). change (giant s1) with (giant s0). rewrite Hc0, Hg0. done.
  - intros q Hq Hin. assert (q ∈ list_to_set (C:=gset nat) l') as Hin'; [|apply (elem_of_list_to_set (C:=gset nat)); by apply Hfin].
    destruct Hin as [Hin|(p & Hp & Hin)]; [apply Hkn1; by apply elem_of_list_to_set|by apply (Hkn2 p Hp)].
  - rewrite Hg'. done.
Qed.

(** ** An example: a task that adds one of an earlier subsystem *)

Definition four : gmap nat sysinit := {[ 1%nat := mk_si 30 0 1 1; 2%nat := mk_si 20 5 2 2; 3%nat := mk_si 20 1 3 3; 4%nat := mk_si 10 0 4 4; 5%nat := mk_si 0 0 5 5 ]}.
Definition at_start : state := mk_sy four {[ SET_BEGIN := [1; 2; 5; 3]%nat ]} 1 None None 0 [] 0 0.
Definition second_adds (f u : nat) : list (list nat) := if bool_decide (f = 3%nat) then [[4; 1]%nat] else [].

Lemma mi_startup_runs_all_witness :
  match mi_startup second_adds (λ _, true) 6 at_start with
  | Ok (_, s) => c_task <$> calls s = [3; 4; 2; 1]%nat
  | _ => False
  end ∧
  ∃ s' qs A c, mi_startup second_adds (λ _, true) (S (size (objs at_start))) at_start = Ok (tt, s')
    ∧ calls s' = calls at_start ++ (call_of (objs at_start) (giant at_start) <$> qs)
    ∧ a_steps second_adds (objs at_start) ∅ (list_to_set [1; 2; 5; 3]%nat) qs (list_to_set qs) A ∧ NoDup qs
    ∧ (∀ q, runnable (objs at_start) q → q ∈ [1; 2; 5; 3]%nat ∨ (∃ p, p ∈ qs ∧ q ∈ adds_of second_adds (objs at_start) p) → q ∈ qs)
    ∧ giant s' = giant at_start ∧ dom (arrays s') = {[SET_BEGIN; c]}.
Proof.
  split; [vm_compute; reflexivity|]. apply mi_startup_runs_all; [done|done|done|unfold SET_BEGIN; cbn; lia| |done|].
  - unfold known. repeat (apply Forall_cons; split; [by eexists|]). by apply Forall_nil.
  - intros q. unfold sets_of. destruct (objs at_start !! q) as [o|]; [|by apply Forall_nil]. unfold second_adds.
    destruct (bool_decide _); [|by apply Forall_nil]. apply Forall_singleton. unfold known.
    repeat (apply Forall_cons; split; [by eexists|]). by apply Forall_nil.
Defined.

End SysInitSpec.
