(* ===== verification/NmRing.v ===== *)
(** The rings of netmap as the driver's host side uses them
    (src/src/lib/libuinet/uinet_if_netmap_host.c, the branches for [NETMAP_API >= 10]).
    What the netmap headers and the kernel module provide is a parameter. *)
From S2P Require Import Prelude.

Module NmRing.

Definition NS_BUF_CHANGED : Z := 1.
Definition NS_REPORT : Z := 2.

(** [struct netmap_slot] and [struct netmap_ring]. *)
Record netmap_slot : Type := mk_slot { buf_idx : Z; s_len : Z; s_flags : Z; s_ptr : option nat }.
Record netmap_ring : Type := mk_ring {
  num_slots : Z; nr_buf_size : Z; head : Z; cur : Z; tail : Z; slot : list netmap_slot }.

(** What [struct if_netmap_host_context] gives access to: the two rings, [ni_bufs_head],
    the sizes of the request, and the memory, as strings of bytes by address. *)
Record host : Type := mk_host {
  hw_rx_ring : netmap_ring; hw_tx_ring : netmap_ring; ni_bufs_head : Z;
  nr_rx_slots : Z; nr_tx_slots : Z; mem : gmap Z (list Z) }.

Abbreviation H := (M host).

Definition set_rx v s := mk_host v (hw_tx_ring s) (ni_bufs_head s) (nr_rx_slots s) (nr_tx_slots s) (mem s).
Definition set_tx v s := mk_host (hw_rx_ring s) v (ni_bufs_head s) (nr_rx_slots s) (nr_tx_slots s) (mem s).
Definition set_bufs_head v s := mk_host (hw_rx_ring s) (hw_tx_ring s) v (nr_rx_slots s) (nr_tx_slots s) (mem s).
Definition set_mem v s := mk_host (hw_rx_ring s) (hw_tx_ring s) (ni_bufs_head s) (nr_rx_slots s) (nr_tx_slots s) v.

Definition with_slot v r := mk_ring (num_slots r) (nr_buf_size r) (head r) (cur r) (tail r) v.
Definition with_cur h c r := mk_ring (num_slots r) (nr_buf_size r) h c (tail r) (slot r).

(** ** Memory *)

Definition load (a : Z) : H (list Z) :=
  m ← gets mem; liftR (match m !! a with Some b => Ok b | None => Fault BadPointer end).

(** [n] bytes at [a]. *)
Definition read (a n : Z) : H (list Z) :=
  b ← load a; if n <=? Z.of_nat (length b) then mret (take (Z.to_nat n) b) else faultM OutOfBounds.

(** [bs] is written at [a]. *)
Definition write (a : Z) (bs : list Z) : H unit :=
  b ← load a;
  if Z.of_nat (length bs) <=? Z.of_nat (length b)
  then modify (fun s => set_mem (<[a := bs ++ drop (length bs) b]> (mem s)) s) else faultM Overflow.

(** A [uint32_t] in memory. *)
Definition le32 (bs : list Z) : Z := foldr (λ b v, b + 256 * v) 0 bs.
Definition bytes32 (v : Z) : list Z := [v mod 256; v / 256 mod 256; v / 65536 mod 256; v / 16777216 mod 256].

(** A slot of a ring; past the array there is none. *)
Definition slot_at (r : netmap_ring) (i : Z) : result netmap_slot :=
  match slot r !! Z.to_nat i with Some x => Ok x | None => Fault OutOfBounds end.

(** ** Settings of the network card *)

Definition EOPNOTSUPP : Z := 95.
Definition IFF_PROMISC : Z := 0x100.

(** [got] is what [ETHTOOL_GFLAGS] returned, if it succeeded, [set_errno] the error of
    [ETHTOOL_SFLAGS]; the result is the return value and the flags that are set, if any. *)
Definition if_netmap_ethtool_set_flag (got : option Z) (flag : Z) (on : bool) (set_errno : Z) : Z * option Z :=
  match got with
  | None => (-1, None)
  | Some data =>
      if negb (Z.lxor data flag =? 0) then
        (if (set_errno =? 0) || (set_errno =? EOPNOTSUPP) then 0 else -1,
         Some (if on then Z.lor data flag else clear_flag data flag))
      else (0, None)
  end.

(** As above for a setting of its own; the command, and not the value read, is tested. *)
Definition if_netmap_ethtool_set_discrete (got : option Z) (getcmd : Z) (on : bool) (set_errno : Z) : Z * option Z :=
  match got with
  | None => (-1, None)
  | Some _ =>
      if ((getcmd =? 0) && on) || (negb (getcmd =? 0) && negb on) then
        (if (set_errno =? 0) || (set_errno =? EOPNOTSUPP) then 0 else -1, Some (b2z on))
      else (0, None)
  end.

(** On Linux; [got] are the flags of the interface, and whether they could be set. *)
Definition if_netmap_set_promisc (got : option Z) (on : bool) (set_ok : bool) : Z * option Z :=
  match got with
  | None => (-1, None)
  | Some flags => (if set_ok then 0 else -1, Some (Z.lor flags IFF_PROMISC))
  end.

Section Api.

(** [NETMAP_BUF], [nm_ring_next] and [nm_ring_space] of the netmap headers. *)
Context (NETMAP_BUF : Z → Z) (nm_ring_next : netmap_ring → Z → Z) (nm_ring_space : netmap_ring → Z).
(** What the kernel module does to a ring in a call of [NIOCRXSYNC] or [NIOCTXSYNC]. *)
Context (kern_rx kern_tx : netmap_ring → netmap_ring).

(** ** Buffers *)

Definition if_netmap_get_bufshead : H Z := gets ni_bufs_head.
Definition if_netmap_set_bufshead (v : Z) : H unit := modify (set_bufs_head v).
Definition if_netmap_buffer_address (index : Z) : Z := NETMAP_BUF index.
Definition if_netmap_buffer_get_next (index : Z) : H Z := b ← read (if_netmap_buffer_address index) 4; mret (le32 b).
Definition if_netmap_buffer_set_next (index next_index : Z) : H unit :=
  write (if_netmap_buffer_address index) (bytes32 next_index).

(** ** The receive ring *)

(** [err] is what the system call returns. *)
Definition if_netmap_rxsync (err : Z) (c reserved : option Z) : H Z :=
  rxr ← gets hw_rx_ring;
  let c := default (cur rxr) c in
  let h := match reserved with
           | Some n => let h := u32 (c - n) in if s32 h <? 0 then u32 (h + num_slots rxr) else h
           | None => c
           end in
  _ ← modify (set_rx (kern_rx (with_cur h c rxr)));
  mret err.

Definition if_netmap_rxavail : H Z := r ← gets hw_rx_ring; mret (nm_ring_space r).
Definition if_netmap_rxcur : H Z := r ← gets hw_rx_ring; mret (cur r).
Definition if_netmap_rxreserved : H Z :=
  r ← gets hw_rx_ring;
  let ret := s32 (cur r - head r) in
  mret (u32 (if ret <? 0 then s32 (ret + num_slots r) else ret)).
Definition if_netmap_rxslots : H Z := gets nr_rx_slots.
Definition if_netmap_rxbufsize : H Z := r ← gets hw_rx_ring; mret (nr_buf_size r).

(** The address of the buffer, its index, the pointer and the length. *)
Definition if_netmap_rxslot (slotno : Z) : H (Z * Z * option nat * Z) :=
  r ← gets hw_rx_ring;
  x ← liftR (slot_at r slotno);
  mret (NETMAP_BUF (buf_idx x), buf_idx x, s_ptr x, s_len x).

Definition if_netmap_rxslotnext (curslot : Z) : H Z := r ← gets hw_rx_ring; mret (nm_ring_next r curslot).

Definition if_netmap_rxslotaddn (curslot n : Z) : H Z :=
  r ← gets hw_rx_ring;
  let next := u32 (curslot + n) in
  mret (if num_slots r <=? next then u32 (next - num_slots r) else next).

(** A slot given a buffer and a pointer. *)
Definition put_buf (index : Z) (ptr : option nat) (x : netmap_slot) : netmap_slot :=
  mk_slot index (s_len x) (if buf_idx x =? index then s_flags x else Z.lor (s_flags x) NS_BUF_CHANGED) ptr.

(** The next slot is returned. *)
Definition if_netmap_rxsetslot (slotno index : Z) (ptr : option nat) : H Z :=
  r ← gets hw_rx_ring;
  x ← liftR (slot_at r slotno);
  _ ← modify (set_rx (with_slot (<[Z.to_nat slotno := put_buf index ptr x]> (slot r)) r));
  mret (nm_ring_next r slotno).

Definition if_netmap_rxsetslotptr (slotno : Z) (ptr : option nat) : H unit :=
  r ← gets hw_rx_ring;
  x ← liftR (slot_at r slotno);
  modify (set_rx (with_slot (<[Z.to_nat slotno := mk_slot (buf_idx x) (s_len x) (s_flags x) ptr]> (slot r)) r)).

(** ** The transmit ring *)

Definition if_netmap_txupdate (c : option Z) : H unit :=
  match c with Some c => modify (fun s => set_tx (with_cur c c (hw_tx_ring s)) s) | None => mret () end.

Definition if_netmap_txsync (err : Z) (c : option Z) : H Z :=
  _ ← if_netmap_txupdate c;
  _ ← modify (fun s => set_tx (kern_tx (hw_tx_ring s)) s);
  mret err.

Definition if_netmap_txavail : H Z := r ← gets hw_tx_ring; mret (nm_ring_space r).
Definition if_netmap_txcur : H Z := r ← gets hw_tx_ring; mret (cur r).
Definition if_netmap_txslots : H Z := gets nr_tx_slots.

Definition if_netmap_txslot (slotno : Z) : H (Z * Z * option nat) :=
  r ← gets hw_tx_ring;
  x ← liftR (slot_at r slotno);
  mret (NETMAP_BUF (buf_idx x), buf_idx x, s_ptr x).

Definition if_netmap_txslotnext (curslot : Z) : H Z := r ← gets hw_tx_ring; mret (nm_ring_next r curslot).

(** The assertion on the length stops the program. *)
Definition if_netmap_txsetslot (slotno index : Z) (ptr : option nat) (len : Z) (report : bool) : H Z :=
  r ← gets hw_tx_ring;
  if negb (len <=? nr_buf_size r) then faultM Panic
  else
    x ← liftR (slot_at r slotno);
    let y := put_buf index ptr x in
    let y := mk_slot (buf_idx y) len (if report then Z.lor (s_flags y) NS_REPORT else s_flags y) (s_ptr y) in
    _ ← modify (set_tx (with_slot (<[Z.to_nat slotno := y]> (slot r)) r));
    mret (nm_ring_next r slotno).

Definition if_netmap_txsetslotptr (slotno : Z) (ptr : option nat) : H unit :=
  r ← gets hw_tx_ring;
  x ← liftR (slot_at r slotno);
  modify (set_tx (with_slot (<[Z.to_nat slotno := mk_slot (buf_idx x) (s_len x) (s_flags x) ptr]> (slot r)) r)).

End Api.

End NmRing.
