(* ===== verification/Netmap.v ===== *)
(** The netmap interface driver (src/src/lib/libuinet/uinet_if_netmap.c): its pool of packet
    descriptors over netmap buffers, reception and transmission by exchange of buffers
    between the rings and the pool, start and stop. The pool can be shared by several
    interfaces; the state below is that of one interface with the pool it uses. *)
From S2P Require Import Prelude PktDesc Dpdk DpdkRx NmRing.
Import PktDesc NmRing.

Module Netmap.

Definition UINET_PD_TYPE_NETMAP : Z := 0.
Definition UINET_PD_TYPE_MASK : Z := 7.
Definition EBUSY : Z := 16.
Definition uinet_pd_type (pd : uinet_pd) : Z := Z.land (pd_flags pd) UINET_PD_TYPE_MASK.

(** [struct if_netmap_pd_pool]; [free_list] is the array, of which the first [num_free]
    entries count. *)
Record if_netmap_pd_pool : Type := mk_pool {
  free_list : list nat; num_free : Z; pool_id : Z; pool_bufsize : Z;
  num_extra : Z; extra_indices : list Z; num_interfaces : Z }.

(** The counters of the interface. *)
Record counters : Type := mk_cnt {
  izcopies : Z; icopies : Z; iqdrops : Z; ipackets : Z; ibytes : Z;
  oerrors : Z; opackets : Z; ozcopies : Z; ocopies : Z; obytes : Z }.

(** [struct if_netmap_softc] with what the driver uses of the interface: [if_snd] is the
    queue of the stack, [m_freed] the packets given to [m_freem]; [pdctx_to_free_size] is the
    number of entries of the array [tx_pdctx_to_free]. *)
Record if_netmap_softc : Type := mk_sc {
  uif_ifp : nat; uifsts : bool; fd : Z;
  rx_batch_size : Z; rx_new_pd_ctx_max : Z; num_new_pd_ctx : Z; rx_avail : Z;
  rx_new_pd_ctx : list nat; rx_pkts : uinet_pd_list;
  timestamp_mode : timestamp_mode_t; timestamp_counter : Z; global_timestamp_counter : Z;
  tx_pkts_to_send : Z; cv_signals : Z; tx_inject_ring : uinet_pd_ring; pdctx_to_free_size : Z;
  cnt : counters; if_snd : list nat; m_freed : list nat;
  rx_ring_bufs : list Z; tx_ring_bufs : list Z; if_drv_flags : Z }.

Record nm : Type := mk_nm { h : host; pds : store; pool : if_netmap_pd_pool; sc : if_netmap_softc }.

Abbreviation N := (M nm).

Definition set_h v s := mk_nm v (pds s) (pool s) (sc s).
Definition set_pds v s := mk_nm (h s) v (pool s) (sc s).
Definition set_pool v s := mk_nm (h s) (pds s) v (sc s).
Definition set_sc v s := mk_nm (h s) (pds s) (pool s) v.

Definition on_h {A} (p : H A) : N A := fun s =>
  match p (h s) with Ok (a, v) => Ok (a, set_h v s) | Fault f => Fault f end.
Definition on_pds {A} (p : P A) : N A := fun s =>
  match p (pds s) with Ok (a, v) => Ok (a, set_pds v s) | Fault f => Fault f end.
Definition on_sc (f : if_netmap_softc → if_netmap_softc) : N unit := modify (fun s => set_sc (f (sc s)) s).

(** Updates of the softc: what reception changes, what transmission changes. *)
Definition sc_rx num_new avail pkts x := mk_sc (uif_ifp x) (uifsts x) (fd x) (rx_batch_size x) (rx_new_pd_ctx_max x)
  num_new avail (rx_new_pd_ctx x) pkts (timestamp_mode x) (timestamp_counter x) (global_timestamp_counter x)
  (tx_pkts_to_send x) (cv_signals x) (tx_inject_ring x) (pdctx_to_free_size x) (cnt x) (if_snd x) (m_freed x)
  (rx_ring_bufs x) (tx_ring_bufs x) (if_drv_flags x).
Definition sc_new l x := mk_sc (uif_ifp x) (uifsts x) (fd x) (rx_batch_size x) (rx_new_pd_ctx_max x)
  (num_new_pd_ctx x) (rx_avail x) l (rx_pkts x) (timestamp_mode x) (timestamp_counter x) (global_timestamp_counter x)
  (tx_pkts_to_send x) (cv_signals x) (tx_inject_ring x) (pdctx_to_free_size x) (cnt x) (if_snd x) (m_freed x)
  (rx_ring_bufs x) (tx_ring_bufs x) (if_drv_flags x).
Definition sc_stamps t g x := mk_sc (uif_ifp x) (uifsts x) (fd x) (rx_batch_size x) (rx_new_pd_ctx_max x)
  (num_new_pd_ctx x) (rx_avail x) (rx_new_pd_ctx x) (rx_pkts x) (timestamp_mode x) t g
  (tx_pkts_to_send x) (cv_signals x) (tx_inject_ring x) (pdctx_to_free_size x) (cnt x) (if_snd x) (m_freed x)
  (rx_ring_bufs x) (tx_ring_bufs x) (if_drv_flags x).
Definition sc_tx n sig ring x := mk_sc (uif_ifp x) (uifsts x) (fd x) (rx_batch_size x) (rx_new_pd_ctx_max x)
  (num_new_pd_ctx x) (rx_avail x) (rx_new_pd_ctx x) (rx_pkts x) (timestamp_mode x) (timestamp_counter x) (global_timestamp_counter x)
  n sig ring (pdctx_to_free_size x) (cnt x) (if_snd x) (m_freed x)
  (rx_ring_bufs x) (tx_ring_bufs x) (if_drv_flags x).
Definition sc_cnt v x := mk_sc (uif_ifp x) (uifsts x) (fd x) (rx_batch_size x) (rx_new_pd_ctx_max x)
  (num_new_pd_ctx x) (rx_avail x) (rx_new_pd_ctx x) (rx_pkts x) (timestamp_mode x) (timestamp_counter x) (global_timestamp_counter x)
  (tx_pkts_to_send x) (cv_signals x) (tx_inject_ring x) (pdctx_to_free_size x) v (if_snd x) (m_freed x)
  (rx_ring_bufs x) (tx_ring_bufs x) (if_drv_flags x).
Definition sc_queue q fr x := mk_sc (uif_ifp x) (uifsts x) (fd x) (rx_batch_size x) (rx_new_pd_ctx_max x)
  (num_new_pd_ctx x) (rx_avail x) (rx_new_pd_ctx x) (rx_pkts x) (timestamp_mode x) (timestamp_counter x) (global_timestamp_counter x)
  (tx_pkts_to_send x) (cv_signals x) (tx_inject_ring x) (pdctx_to_free_size x) (cnt x) q fr
  (rx_ring_bufs x) (tx_ring_bufs x) (if_drv_flags x).
Definition sc_bufs rb tb x := mk_sc (uif_ifp x) (uifsts x) (fd x) (rx_batch_size x) (rx_new_pd_ctx_max x)
  (num_new_pd_ctx x) (rx_avail x) (rx_new_pd_ctx x) (rx_pkts x) (timestamp_mode x) (timestamp_counter x) (global_timestamp_counter x)
  (tx_pkts_to_send x) (cv_signals x) (tx_inject_ring x) (pdctx_to_free_size x) (cnt x) (if_snd x) (m_freed x)
  rb tb (if_drv_flags x).
Definition sc_flags v x := mk_sc (uif_ifp x) (uifsts x) (fd x) (rx_batch_size x) (rx_new_pd_ctx_max x)
  (num_new_pd_ctx x) (rx_avail x) (rx_new_pd_ctx x) (rx_pkts x) (timestamp_mode x) (timestamp_counter x) (global_timestamp_counter x)
  (tx_pkts_to_send x) (cv_signals x) (tx_inject_ring x) (pdctx_to_free_size x) (cnt x) (if_snd x) (m_freed x)
  (rx_ring_bufs x) (tx_ring_bufs x) v.

Definition pool_free v n p := mk_pool v n (pool_id p) (pool_bufsize p) (num_extra p) (extra_indices p) (num_interfaces p).
Definition pool_refs n p := mk_pool (free_list p) (num_free p) (pool_id p) (pool_bufsize p) (num_extra p) (extra_indices p) n.

(** The array [l] with [bs] stored from [i] on; past its end is a fault. *)
Definition array_put {A} (i : Z) (bs l : list A) : result (list A) :=
  if i + Z.of_nat (length bs) <=? Z.of_nat (length l)
  then Ok (take (Z.to_nat i) l ++ bs ++ drop (Z.to_nat i + length bs) l) else Fault Overflow.

Section Driver.

(** The netmap headers and the kernel module, as in NmRing. *)
Context (NETMAP_BUF : Z → Z) (nm_ring_next : netmap_ring → Z → Z) (nm_ring_space : netmap_ring → Z)
  (kern_rx kern_tx : netmap_ring → netmap_ring).
(** The error of [m_pkthdr_init], the address of the counter that is part of a context, the
    mbuf [m_gethdr] gives for a context. *)
Context (pkthdr_error : Z) (builtin_refcnt : nat → nat) (m_gethdr : nat → option nat).
(** The interface's input routine and handlers, the clock, and the bytes of a packet of the
    stack. *)
Context (if_input : nat → nat → P unit) (batch_event : option (Z → P unit))
  (first_look : option (uinet_pd_list → P uinet_pd_list)) (clock_ns : Z) (m_bytes : nat → list Z).

(** ** Descriptors *)

Definition if_netmap_pd_ctx_init_mutables (c : nat) : P Z :=
  '(_, x) ← ctx_load (Some c);
  '(i, m) ← mbuf_load (c_m x);
  let tags := if has_flag (m_flags m) M_PKTHDR then [] else m_tags m in
  if negb (pkthdr_error =? 0) then
    _ ← mbuf_store i {| m_next := m_next m; m_nextpkt := m_nextpkt m; m_data := m_data m; m_len := m_len m;
           m_flags := m_flags m; m_type := m_type m; m_pkthdr_len := m_pkthdr_len m; m_rcvif := m_rcvif m; m_tags := tags;
           ext_buf := ext_buf m; ext_type := ext_type m; ext_free := ext_free m;
           ext_arg1 := ext_arg1 m; ext_arg2 := ext_arg2 m; ext_ref_cnt := ext_ref_cnt m |};
    mret pkthdr_error
  else
    _ ← mbuf_store i {| m_next := None; m_nextpkt := None; m_data := ext_buf m; m_len := 0;
           m_flags := Z.lor M_PKTHDR (Z.lor M_NOFREE M_EXT); m_type := MT_DATA;
           m_pkthdr_len := 0; m_rcvif := None; m_tags := [];
           ext_buf := ext_buf m; ext_type := ext_type m; ext_free := ext_free m;
           ext_arg1 := ext_arg1 m; ext_arg2 := ext_arg2 m; ext_ref_cnt := ext_ref_cnt m |};
    _ ← cell_store (refcnt x) 1;
    mret 0.

(** The context [c] for the buffer [slotindex] at [slotbuf]; the address of the pool is 0. *)
Definition if_netmap_pd_ctx_init (id : Z) (c : nat) (slotindex slotbuf : Z) : P Z :=
  '(_, x) ← ctx_load (Some c);
  _ ← ctx_store c {| timestamp := timestamp x; c_m := c_m x; c_ref := slotindex; m_orig_len := m_orig_len x;
         c_flags := UINET_PD_CTX_SINGLE_REF; c_pool_id := u16 id; refcnt := builtin_refcnt c |};
  match m_gethdr c with
  | None => mret (-1)
  | Some i =>
      _ ← ctx_store c {| timestamp := timestamp x; c_m := Some i; c_ref := slotindex; m_orig_len := m_orig_len x;
             c_flags := UINET_PD_CTX_SINGLE_REF; c_pool_id := u16 id; refcnt := builtin_refcnt c |};
      '(_, m) ← mbuf_load (Some i);
      _ ← mbuf_store i (DpdkRx.set_ref_cnt (builtin_refcnt c) m);
      _ ← DpdkRx.m_extadd i slotbuf NetmapFree (Some 0%nat) (Some c) M_NOFREE;
      if_netmap_pd_ctx_init_mutables c
  end.

(** The loop over the slots of the transmit ring, [n] left: the context of slot [i] is
    [base + i]. The result is the error and the indices of the buffers. *)
Fixpoint txring_loop (n : nat) (c : nat) (curslot : Z) : N (Z * list Z) :=
  match n with
  | O => mret (0, [])
  | S n =>
      '(slotbuf, curindex, _) ← on_h (if_netmap_txslot NETMAP_BUF curslot);
      id ← gets (λ s, pool_id (pool s));
      e ← on_pds (if_netmap_pd_ctx_init id c curindex slotbuf);
      if negb (e =? 0) then mret (-1, [curindex])
      else
        _ ← on_h (if_netmap_txsetslotptr curslot (Some c));
        curslot ← on_h (if_netmap_txslotnext nm_ring_next curslot);
        '(e, l) ← txring_loop n (S c) curslot;
        mret (e, curindex :: l)
  end.

(** [base] is the address of the contexts [malloc] returned, which it does. *)
Definition if_netmap_pd_ctx_pool_init_txring (base : nat) : N Z :=
  n ← on_h if_netmap_txslots;
  '(e, l) ← txring_loop (Z.to_nat n) base 0;
  _ ← on_sc (λ x, sc_bufs (rx_ring_bufs x) (l ++ drop (length l) (tx_ring_bufs x)) x);
  mret e.

Fixpoint rxring_loop (n : nat) (c : nat) (curslot : Z) : N (Z * list Z) :=
  match n with
  | O => mret (0, [])
  | S n =>
      '(slotbuf, curindex, _, _) ← on_h (if_netmap_rxslot NETMAP_BUF curslot);
      id ← gets (λ s, pool_id (pool s));
      e ← on_pds (if_netmap_pd_ctx_init id c curindex slotbuf);
      if negb (e =? 0) then mret (-1, [curindex])
      else
        _ ← on_h (if_netmap_rxsetslotptr curslot (Some c));
        curslot ← on_h (if_netmap_rxslotnext nm_ring_next curslot);
        '(e, l) ← rxring_loop n (S c) curslot;
        mret (e, curindex :: l)
  end.

Definition if_netmap_pd_ctx_pool_init_rxring (base : nat) : N Z :=
  n ← on_h if_netmap_rxslots;
  '(e, l) ← rxring_loop (Z.to_nat n) base 0;
  _ ← on_sc (λ x, sc_bufs (l ++ drop (length l) (rx_ring_bufs x)) (tx_ring_bufs x) x);
  mret e.

(** The extra buffers, [n] left from [curindex]: the error and the indices. *)
Fixpoint extra_loop (n : nat) (c : nat) (curindex : Z) : N (Z * list Z) :=
  match n with
  | O => mret (0, [])
  | S n =>
      if curindex =? 0 then mret (-1, [])
      else
        id ← gets (λ s, pool_id (pool s));
        e ← on_pds (if_netmap_pd_ctx_init id c curindex (if_netmap_buffer_address NETMAP_BUF curindex));
        if negb (e =? 0) then mret (-1, [])
        else
          next ← on_h (if_netmap_buffer_get_next NETMAP_BUF curindex);
          '(e, l) ← extra_loop n (S c) next;
          mret (e, curindex :: l)
  end.

(** [extra] buffers are asked for; the contexts are at [base]. *)
Definition if_netmap_pd_ctx_pool_init (base : nat) (bufsize extra : Z) : N Z :=
  id ← on_pds (uinet_pd_pool_register {| pool_type := UINET_PD_TYPE_NETMAP; bufsize := bufsize; pool_ctx := 0; p_free := OtherFree |});
  if id =? -1 then mret (-1)
  else
    _ ← modify (fun s => set_pool (mk_pool (seq base (Z.to_nat extra)) 0 (u32 id) bufsize extra [] 1) s);
    head ← on_h if_netmap_get_bufshead;
    _ ← on_h (if_netmap_set_bufshead 0);
    '(e, l) ← extra_loop (Z.to_nat extra) base head;
    if negb (e =? 0) then mret (-1)
    else
      _ ← modify (fun s => set_pool (mk_pool (free_list (pool s)) extra (pool_id (pool s)) bufsize extra l 1) s);
      mret 0.

(** The contexts for the extra buffers, the receive and the transmit ring are at [base],
    [base_rx] and [base_tx]; for a pool in use only the rings are set up. *)
Definition if_netmap_pd_ctx_pool_init_global (base base_rx base_tx : nat) (bufsize num_extra_bufs : Z) : N Z :=
  n ← gets (λ s, num_interfaces (pool s));
  e ← (if n =? 0 then if_netmap_pd_ctx_pool_init base bufsize num_extra_bufs
       else _ ← modify (fun s => set_pool (pool_refs (n + 1) (pool s)) s); mret 0);
  if negb (e =? 0) then mret (-1)
  else
    e ← if_netmap_pd_ctx_pool_init_rxring base_rx;
    if negb (e =? 0) then mret (-1)
    else
      e ← if_netmap_pd_ctx_pool_init_txring base_tx;
      if negb (e =? 0) then mret (-1) else mret 0.

Definition if_netmap_pd_ctx_pool_init_vale (base base_rx base_tx : nat) (bufsize num_extra_bufs : Z) : N Z :=
  e ← if_netmap_pd_ctx_pool_init base bufsize num_extra_bufs;
  if negb (e =? 0) then mret (-1)
  else
    e ← if_netmap_pd_ctx_pool_init_rxring base_rx;
    if negb (e =? 0) then mret (-1)
    else
      e ← if_netmap_pd_ctx_pool_init_txring base_tx;
      if negb (e =? 0) then mret (-1) else mret 0.

(** ** Allocation *)

(** The descriptors taken from the end of the free list. *)
Definition if_netmap_pd_alloc (n : Z) : N (list nat) :=
  p ← gets pool;
  let alloc_size := if num_free p <? n then num_free p else n in
  if num_free p <=? Z.of_nat (length (free_list p)) then
    let l := take (Z.to_nat alloc_size) (drop (Z.to_nat (num_free p - alloc_size)) (free_list p)) in
    _ ← modify (set_pool (pool_free (free_list p) (u32 (num_free p - alloc_size)) p));
    mret l
  else faultM OutOfBounds.

(** The first descriptors of a list are set up for contexts. *)
Fixpoint user_loop (p : if_netmap_pd_pool) (cs : list nat) (l : list uinet_pd) : P (list uinet_pd) :=
  match cs with
  | [] => mret l
  | c :: cs =>
      match l with
      | [] => faultM OutOfBounds
      | pd :: l =>
          '(_, x) ← ctx_load (Some c);
          let pd := {| pd_flags := UINET_PD_TYPE_NETMAP; pd_length := pool_bufsize p; pd_pool_id := u16 (pool_id p); pd_ref := c_ref x;
                       pd_data := if_netmap_buffer_address NETMAP_BUF (u32 (c_ref x)); pd_ctx := Some c; pd_serialno := pd_serialno pd |} in
          l ← user_loop p cs l;
          mret (pd :: l)
      end
  end.

Definition if_netmap_pd_alloc_user (pkts : uinet_pd_list) : N uinet_pd_list :=
  p ← gets pool;
  cs ← if_netmap_pd_alloc (num_descs pkts);
  l ← on_pds (user_loop p cs (descs pkts));
  mret {| num_descs := Z.of_nat (length cs); descs := l |}.

(** Contexts made ready for their next use. *)
Fixpoint pd_reset_loop (cs : list nat) : P unit :=
  match cs with
  | [] => mret ()
  | c :: cs =>
      '(_, x) ← ctx_load (Some c);
      _ ← (if has_flag (c_flags x) UINET_PD_CTX_MBUF_USED
           then _ ← if_netmap_pd_ctx_init_mutables c; mret () else mret ());
      _ ← ctx_store c (set_timestamp 0 (set_cflags UINET_PD_CTX_SINGLE_REF x));
      pd_reset_loop cs
  end.

Definition if_netmap_pd_free (cs : list nat) : N unit :=
  _ ← on_pds (pd_reset_loop cs);
  p ← gets pool;
  l ← liftR (array_put (num_free p) cs (free_list p));
  modify (set_pool (pool_free l (u32 (num_free p + Z.of_nat (length cs))) p)).

(** The pool is that of the first context; [cs] are from the pool of this state. *)
Definition if_netmap_pd_pool_free (cs : list nat) : N unit :=
  match cs with
  | [] => faultM OutOfBounds
  | c :: _ =>
      '(_, x) ← on_pds (ctx_load (Some c));
      info ← on_pds (uinet_pd_pool_get (c_pool_id x));
      _ ← liftR (deref info);
      if_netmap_pd_free cs
  end.

(** The last reference to the mbuf of [c] was released. *)
Definition if_netmap_free (c : nat) : N unit :=
  '(_, x) ← on_pds (ctx_load (Some c));
  _ ← on_pds (ctx_store c (set_cflags UINET_PD_CTX_SINGLE_REF x));
  _ ← on_pds (if_netmap_pd_ctx_init_mutables c);
  p ← gets pool;
  l ← liftR (array_put (num_free p) [c] (free_list p));
  modify (set_pool (pool_free l (u32 (num_free p + 1)) p)).

(** [uinet_pd_ref_release]; the calls of the free routine of this pool, which the release
    lists in order, are carried out. *)
Fixpoint run_frees (calls : list (Z * list nat)) : N unit :=
  match calls with
  | [] => mret ()
  | (id, cs) :: calls =>
      p ← gets pool;
      _ ← (if id =? pool_id p then if_netmap_pd_pool_free cs else mret ());
      run_frees calls
  end.

Definition ref_release (l : list (option nat)) : N unit :=
  n ← gets (λ s, length (free_calls (pds s)));
  _ ← on_pds (uinet_pd_ref_release l);
  calls ← gets (λ s, drop n (free_calls (pds s)));
  run_frees calls.

(** ** Reception *)

(** Descriptor [k] of the list of received packets. *)
Definition set_desc (k : nat) (f : uinet_pd → uinet_pd) : N unit :=
  x ← gets sc;
  match descs (rx_pkts x) !! k with
  | None => faultM OutOfBounds
  | Some old =>
      on_sc (sc_rx (num_new_pd_ctx x) (rx_avail x)
        {| num_descs := num_descs (rx_pkts x); descs := <[k := f old]> (descs (rx_pkts x)) |})
  end.

(** The packets in the slots from [curslot] on go to the descriptors from [k] on, and the
    contexts [new] replace theirs in the ring. *)
Fixpoint rx_zero_copy (new : list nat) (k : nat) (curslot total_bytes : Z) : N (Z * Z) :=
  match new with
  | [] => mret (curslot, total_bytes)
  | c :: new =>
      '(slotbuf, bufindex, slot_pdctx, pktlen) ← on_h (if_netmap_rxslot NETMAP_BUF curslot);
      '(_, x) ← on_pds (ctx_load (Some c));
      curslot ← on_h (if_netmap_rxsetslot nm_ring_next curslot (u32 (c_ref x)) (Some c));
      id ← gets (λ s, pool_id (pool s));
      _ ← set_desc k (λ old, {| pd_flags := Z.lor UINET_PD_TYPE_NETMAP UINET_PD_TO_STACK; pd_length := u16 pktlen;
             pd_pool_id := u16 id; pd_ref := bufindex; pd_data := slotbuf; pd_ctx := slot_pdctx; pd_serialno := pd_serialno old |});
      rx_zero_copy new (S k) curslot (u32 (total_bytes + pktlen))
  end.

(** The packets in the next [n] slots are copied. *)
Fixpoint rx_copy (n : nat) (k : nat) (curslot total_bytes : Z) : N (Z * Z) :=
  match n with
  | O => mret (curslot, total_bytes)
  | S n =>
      '(slotbuf, _, _, pktlen) ← on_h (if_netmap_rxslot NETMAP_BUF curslot);
      curslot ← on_h (if_netmap_rxslotnext nm_ring_next curslot);
      _ ← set_desc k (λ old, {| pd_flags := Z.lor (pd_flags old) UINET_PD_TO_STACK; pd_length := u16 pktlen;
             pd_pool_id := pd_pool_id old; pd_ref := pd_ref old; pd_data := pd_data old; pd_ctx := pd_ctx old;
             pd_serialno := pd_serialno old |});
      l ← gets (λ s, descs (rx_pkts (sc s)));
      d ← liftR (match l !! k with Some pd => Ok pd | None => Fault OutOfBounds end);
      bs ← on_h (read slotbuf pktlen);
      _ ← on_h (write (pd_data d) bs);
      rx_copy n (S k) curslot (u32 (total_bytes + pktlen))
  end.

(** [while (EBUSY == (rv = sync))], where [errs] are the results of the system calls. *)
Fixpoint rxsync_loop (errs : list Z) (curslot : Z) : N Z :=
  match errs with
  | [] => faultM Blocked
  | e :: errs =>
      rv ← on_h (if_netmap_rxsync kern_rx e (Some curslot) None);
      if rv =? EBUSY then rxsync_loop errs curslot else mret rv
  end.

Definition rx_counters (nz nc nd n bytes : Z) (c : counters) : counters :=
  mk_cnt (izcopies c + nz) (icopies c + nc) (iqdrops c + nd) (ipackets c + n) (ibytes c + bytes)
    (oerrors c) (opackets c) (ozcopies c) (ocopies c) (obytes c).

(** Timestamps, handlers and delivery. *)
Definition rx_process : N unit :=
  x ← gets sc;
  '(tc, gc) ← on_pds (uinet_if_pd_timestamp (timestamp_mode x) clock_ns (timestamp_counter x) (global_timestamp_counter x) (rx_pkts x));
  _ ← on_sc (sc_stamps tc gc);
  _ ← match batch_event with Some f => on_pds (f 0) | None => mret () end;
  pkts ← match first_look with Some f => on_pds (f (rx_pkts x)) | None => mret (rx_pkts x) end;
  _ ← on_sc (λ x, sc_rx (num_new_pd_ctx x) (rx_avail x) pkts x);
  _ ← on_pds (uinet_pd_deliver_to_stack if_input (uif_ifp x) pkts);
  match batch_event with Some f => on_pds (f 1) | None => mret () end.

(** More contexts, if there are less than the batch needs; they go to the end of the array. *)
Definition rx_fill (batch_size : Z) : N Z :=
  x ← gets sc;
  let num_new := num_new_pd_ctx x in
  if num_new <? batch_size then
    l ← if_netmap_pd_alloc (u32 (rx_new_pd_ctx_max x - num_new));
    arr ← liftR (array_put num_new l (rx_new_pd_ctx x));
    _ ← on_sc (sc_new arr);
    mret (u32 (num_new + Z.of_nat (length l)))
  else mret num_new.

(** The zero-copy input: the last [n_zero_copy] of the [num_new] contexts go to the ring. *)
Definition rx_exchange (num_new n_zero_copy curslot : Z) : N (Z * Z) :=
  arr ← gets (λ s, rx_new_pd_ctx (sc s));
  if num_new <=? Z.of_nat (length arr) then
    r ← rx_zero_copy (take (Z.to_nat n_zero_copy) (drop (Z.to_nat (num_new - n_zero_copy)) arr)) 0 curslot 0;
    _ ← on_sc (λ x, sc_rx (u32 (num_new - n_zero_copy)) (rx_avail x) (rx_pkts x) x);
    mret r
  else faultM OutOfBounds.

(** The results are the return value, [*fd] and [*wait_ns]. *)
Definition if_netmap_batch_receive (errs : list Z) : N (Z * Z * Z) :=
  x ← gets sc;
  curslot ← on_h if_netmap_rxcur;
  let avail := rx_avail x in
  let batch_size := if avail <? rx_batch_size x then avail else rx_batch_size x in
  num_new ← rx_fill batch_size;
  let n_zero_copy := if num_new <? batch_size then num_new else batch_size in
  let n_copy := u32 (batch_size - n_zero_copy) in
  let pkts := {| num_descs := n_zero_copy; descs := descs (rx_pkts x) |} in
  '(n, pkts) ← (if n_copy =? 0 then mret (0, pkts) else on_pds (uinet_pd_mbuf_alloc_descs pkthdr_error pkts n_copy));
  let n_drop := u32 (n_copy - n) in
  let n_copy := n in
  _ ← on_sc (λ x, sc_rx (num_new_pd_ctx x) (rx_avail x) pkts x);
  '(curslot, total_bytes) ← rx_exchange num_new n_zero_copy curslot;
  '(curslot, total_bytes) ← rx_copy (Z.to_nat n_copy) (Z.to_nat n_zero_copy) curslot total_bytes;
  curslot ← (if 0 <? n_drop then on_h (if_netmap_rxslotaddn curslot n_drop) else mret curslot);
  _ ← on_sc (λ x, sc_cnt (rx_counters n_zero_copy n_copy n_drop batch_size total_bytes (cnt x)) x);
  let avail := u32 (avail - batch_size) in
  _ ← rxsync_loop errs curslot;
  a ← on_h (if_netmap_rxavail nm_ring_space);
  _ ← on_sc (λ x, sc_rx (num_new_pd_ctx x) a (rx_pkts x) x);
  _ ← rx_process;
  mret (b2z (0 <? avail), if a =? 0 then fd x else -1, 0).

(** ** Transmission *)

Definition if_netmap_send_queue_has_grown_locked : N unit :=
  on_sc (λ x, if uifsts x then x
              else let n := s32 (tx_pkts_to_send x + 1) in
                   sc_tx n (if n =? 1 then cv_signals x + 1 else cv_signals x) (tx_inject_ring x) x).

Definition if_netmap_start : N unit := if_netmap_send_queue_has_grown_locked.
Definition if_netmap_sts_start : N unit := mret ().

(** The loop is that of the DPDK driver. The descriptors from the first one dropped on are
    looked through after the lock is released. *)
Definition if_netmap_inject_tx_pkts (pkts : uinet_pd_list) : N unit :=
  l ← liftR (live_descs pkts);
  x ← gets sc;
  let txr := tx_inject_ring x in
  '(arr, c, num_drops, first) ← liftR (Dpdk.inject_loop txr l 0 (r_descs txr) (uinet_pd_ring_space txr) (r_put txr) 0 None);
  _ ← on_sc (sc_tx (tx_pkts_to_send x) (cv_signals x)
        {| r_num_descs := r_num_descs txr; r_put := c; r_take := r_take txr; r_drops := u32 (r_drops txr + num_drops); r_descs := arr |});
  _ ← if_netmap_send_queue_has_grown_locked;
  match first with
  | Some i => n ← gets (λ s, length (free_calls (pds s)));
              _ ← on_pds (uinet_pd_drop_injected (drop i l));
              calls ← gets (λ s, drop n (free_calls (pds s)));
              run_frees calls
  | None => mret ()
  end.

(** The variables of [if_netmap_process_tx_inject_ring]. *)
Record txv : Type := mk_txv {
  v_avail : Z; v_curslot : Z; v_take : Z; v_free : list (option nat); v_zero_copy : Z; v_copy : Z; v_bytes : Z }.

(** One descriptor: exchanged with that of the slot if it is from the same pool, else
    copied. *)
Definition tx_one (cur_pd : uinet_pd) (v : txv) : N txv :=
  if has_flag (pd_flags cur_pd) UINET_PD_MGMT_ONLY then mret v
  else
    let pktlen := pd_length cur_pd in
    '(slotbuf, bufindex, slot_pdctx) ← on_h (if_netmap_txslot NETMAP_BUF (v_curslot v));
    id ← gets (λ s, pool_id (pool s));
    size ← gets (λ s, pdctx_to_free_size (sc s));
    if negb (Z.of_nat (length (v_free v)) <? size) then faultM OutOfBounds
    else if (uinet_pd_type cur_pd =? UINET_PD_TYPE_NETMAP) && (pd_pool_id cur_pd =? id) then
      next ← on_h (if_netmap_txsetslot nm_ring_next (v_curslot v) (u32 (pd_ref cur_pd)) (pd_ctx cur_pd) pktlen false);
      mret (mk_txv (u32 (v_avail v - 1)) next (v_take v) (v_free v ++ [slot_pdctx]) (u32 (v_zero_copy v + 1)) (v_copy v)
              (u32 (v_bytes v + pktlen)))
    else
      bs ← on_h (read (pd_data cur_pd) pktlen);
      _ ← on_h (write slotbuf bs);
      next ← on_h (if_netmap_txsetslot nm_ring_next (v_curslot v) bufindex slot_pdctx pktlen false);
      mret (mk_txv (u32 (v_avail v - 1)) next (v_take v) (v_free v ++ [pd_ctx cur_pd]) (v_zero_copy v) (u32 (v_copy v + 1))
              (u32 (v_bytes v + pktlen))).

(** The loop; [fuel] bounds its rounds. *)
Fixpoint if_netmap_process_tx_inject_ring (fuel : nat) (put : Z) (v : txv) : N txv :=
  if (v_avail v =? 0) || (v_take v =? put) then mret v
  else match fuel with
       | O => faultM Blocked
       | S fuel =>
           txr ← gets (λ s, tx_inject_ring (sc s));
           match r_descs txr !! Z.to_nat (v_take v) with
           | None => faultM OutOfBounds
           | Some pd =>
               v ← tx_one pd v;
               if_netmap_process_tx_inject_ring fuel put
                 (mk_txv (v_avail v) (v_curslot v) (uinet_pd_ring_next txr (v_take v)) (v_free v) (v_zero_copy v) (v_copy v) (v_bytes v))
           end
       end.

(** [IFQ_DRV_DEQUEUE]: the first packet of the stack's queue. *)
Definition set_nextpkt (v : option nat) (b : mbuf) : mbuf :=
  {| m_next := m_next b; m_nextpkt := v; m_data := m_data b; m_len := m_len b;
     m_flags := m_flags b; m_type := m_type b; m_pkthdr_len := m_pkthdr_len b;
     m_rcvif := m_rcvif b; m_tags := m_tags b; ext_buf := ext_buf b; ext_type := ext_type b;
     ext_free := ext_free b; ext_arg1 := ext_arg1 b; ext_arg2 := ext_arg2 b; ext_ref_cnt := ext_ref_cnt b |}.

Definition IFQ_DRV_DEQUEUE : N (option nat) :=
  x ← gets sc;
  match if_snd x with
  | [] => mret None
  | m :: q =>
      '(_, b) ← on_pds (mbuf_load (Some m));
      _ ← on_pds (mbuf_store m (set_nextpkt None b));
      _ ← on_sc (sc_queue q (m_freed x));
      mret (Some m)
  end.

(** The packet [m] and what follows in the queue are copied to the slots; the packets are
    chained by [m_nextpkt] from [last_m] on. The results are [avail], the slot, the number of
    packets and the packet that is left. *)
Fixpoint if_netmap_process_drv_queue (fuel : nat) (last_m m : option nat) (avail curslot n_copy : Z) (always_dequeue : bool)
    : N (Z * Z * Z * option nat) :=
  match m with
  | None => mret (avail, curslot, n_copy, None)
  | Some i =>
      if avail =? 0 then mret (avail, curslot, n_copy, Some i)
      else match fuel with
           | O => faultM Blocked
           | S fuel =>
               let bs := m_bytes i in
               let pktlen := Z.of_nat (length bs) in
               '(slotbuf, bufindex, slot_pdctx) ← on_h (if_netmap_txslot NETMAP_BUF curslot);
               _ ← on_h (write slotbuf bs);
               next ← on_h (if_netmap_txsetslot nm_ring_next curslot bufindex slot_pdctx pktlen false);
               _ ← match last_m with
                   | Some j => '(_, b) ← on_pds (mbuf_load (Some j)); on_pds (mbuf_store j (set_nextpkt (Some i) b))
                   | None => mret ()
                   end;
               let avail := u32 (avail - 1) in
               m ← (if negb (avail =? 0) || always_dequeue then IFQ_DRV_DEQUEUE else mret (Some i));
               if_netmap_process_drv_queue fuel (Some i) m avail next (u32 (n_copy + 1)) always_dequeue
           end
  end.

(** The chain of packets from [m] on is freed; [fuel] bounds its length. *)
Fixpoint free_chain (fuel : nat) (m : option nat) : N unit :=
  match m with
  | None => mret ()
  | Some i =>
      match fuel with
      | O => faultM Blocked
      | S fuel =>
          '(_, b) ← on_pds (mbuf_load (Some i));
          _ ← on_sc (λ x, sc_queue (if_snd x) (m_freed x ++ [i]) x);
          free_chain fuel (m_nextpkt b)
      end
  end.

Definition if_netmap_tx_release_packets (fuel : nat) (l : list (option nat)) (m_to_free : option nat) : N unit :=
  _ ← ref_release l; free_chain fuel m_to_free.

Fixpoint txsync_loop (errs : list Z) (curslot : Z) : N Z :=
  match errs with
  | [] => faultM Blocked
  | e :: errs =>
      rv ← on_h (if_netmap_txsync kern_tx e (Some curslot));
      if rv =? EBUSY then txsync_loop errs curslot else mret rv
  end.

Definition tx_counters (drops nz nc bytes : Z) (c : counters) : counters :=
  if 0 <? u32 (nz + nc) then
    mk_cnt (izcopies c) (icopies c) (iqdrops c) (ipackets c) (ibytes c)
      (oerrors c + drops) (opackets c + u32 (nz + nc)) (ozcopies c + nz) (ocopies c + nc) (obytes c + bytes)
  else mk_cnt (izcopies c) (icopies c) (iqdrops c) (ipackets c) (ibytes c)
      (oerrors c + drops) (opackets c) (ozcopies c) (ocopies c) (obytes c).

(** The results are the return value, [*fd] and [*wait_ns]. *)
Definition if_netmap_batch_send (fuel : nat) (errs : list Z) : N (Z * Z * Z) :=
  x ← gets sc;
  curslot ← on_h if_netmap_txcur;
  avail ← on_h (if_netmap_txavail nm_ring_space);
  let txr := tx_inject_ring x in
  _ ← on_sc (sc_tx (tx_pkts_to_send x) (cv_signals x) (Dpdk.ring_clear_drops txr));
  v ← if_netmap_process_tx_inject_ring fuel (r_put txr) (mk_txv avail curslot (r_take txr) [] 0 0 0);
  _ ← on_sc (λ x, sc_tx (tx_pkts_to_send x) (cv_signals x) (Dpdk.ring_set_take (v_take v) (tx_inject_ring x)) x);
  '(avail, curslot, n_m_copy, m_to_free) ←
    (if negb (v_avail v =? 0) then
       m ← IFQ_DRV_DEQUEUE;
       '(avail, curslot, n, _) ← if_netmap_process_drv_queue fuel None m (v_avail v) (v_curslot v) 0 false;
       mret (avail, curslot, n, m)
     else mret (v_avail v, v_curslot v, 0, None));
  let n_copy := u32 (v_copy v + n_m_copy) in
  _ ← on_sc (λ x, sc_cnt (tx_counters (r_drops txr) (v_zero_copy v) n_copy (v_bytes v) (cnt x)) x);
  _ ← (if 0 <? u32 (v_zero_copy v + n_copy) then
         _ ← txsync_loop errs curslot;
         if_netmap_tx_release_packets fuel (v_free v) m_to_free
       else mret ());
  mret (0, if avail =? 0 then fd x else -1, 0).

(** ** The transmit thread *)

(** A poll: its result, the tail of the ring as the kernel leaves it, and what
    [kthread_stop_check] says after it. *)
Record poll : Type := mk_poll { p_rv : Z; p_tail : Z; p_stop : bool }.

Definition set_tail (t : Z) (r : netmap_ring) : netmap_ring := mk_ring (num_slots r) (nr_buf_size r) (head r) (cur r) t (slot r).

Fixpoint wait_loop (polls : list poll) (avail : Z) : N (Z * bool * list poll) :=
  if negb (avail =? 0) then mret (avail, false, polls)
  else match polls with
       | [] => faultM Blocked
       | p :: polls =>
           _ ← on_h (modify (fun s => set_tx (set_tail (p_tail p) (hw_tx_ring s)) s));
           a ← (if (p_rv p =? -1) || (p_rv p =? -2) then mret avail else on_h (if_netmap_txavail nm_ring_space));
           if p_stop p then mret (a, true, polls) else wait_loop polls a
       end.

(** For the transmit ring; with slots available only the stop is looked at. The results are
    [avail], whether to stop, and the polls to come. *)
Definition if_netmap_wait_for_avail (polls : list poll) (avail : Z) : N (Z * bool * list poll) :=
  if negb (avail =? 0) then
    match polls with [] => faultM Blocked | p :: polls => mret (avail, p_stop p, polls) end
  else wait_loop polls avail.

(** The injected descriptors up to [put]; nothing if the thread is to stop. *)
Fixpoint send_inject (fuel : nat) (polls : list poll) (put : Z) (v : txv) : N (option (txv * list poll)) :=
  if v_take v =? put then mret (Some (v, polls))
  else match fuel with
       | O => faultM Blocked
       | S fuel' =>
           '(avail, done, polls) ← if_netmap_wait_for_avail polls (v_avail v);
           if (done : bool) then mret None
           else
             v ← if_netmap_process_tx_inject_ring fuel put
                   (mk_txv avail (v_curslot v) (v_take v) (v_free v) (v_zero_copy v) (v_copy v) (v_bytes v));
             _ ← on_h (if_netmap_txupdate (Some (v_curslot v)));
             send_inject fuel' polls put v
       end.

(** The packets of the stack from [m] on: [avail], the slot and the number of packets. *)
Fixpoint send_drv (fuel : nat) (polls : list poll) (m : option nat) (avail curslot n_copy : Z) : N (option (Z * Z * Z)) :=
  match m with
  | None => mret (Some (avail, curslot, n_copy))
  | Some _ =>
      match fuel with
      | O => faultM Blocked
      | S fuel' =>
          '(avail, done, polls) ← if_netmap_wait_for_avail polls avail;
          if (done : bool) then mret None
          else
            '(avail, curslot, n_copy, m) ← if_netmap_process_drv_queue fuel None m avail curslot n_copy true;
            _ ← on_h (if_netmap_txupdate (Some curslot));
            send_drv fuel' polls m avail curslot n_copy
      end
  end.

(** A round of [if_netmap_send] after the wait for packets, with its index into the injection
    ring, [avail] and slot; none if the thread is to stop. *)
Definition send_round (fuel : nat) (polls : list poll) (errs : list Z) (take avail curslot : Z) : N (option (Z * Z * Z)) :=
  x ← gets sc;
  let txr := Dpdk.ring_set_take take (tx_inject_ring x) in
  _ ← on_sc (sc_tx 0 (cv_signals x) (Dpdk.ring_clear_drops txr));
  r ← send_inject fuel polls (r_put txr) (mk_txv avail curslot take [] 0 0 0);
  match r with
  | None => mret None
  | Some (v, polls) =>
      m_to_free ← IFQ_DRV_DEQUEUE;
      r ← send_drv fuel polls m_to_free (v_avail v) (v_curslot v) (v_copy v);
      match r with
      | None => mret None
      | Some (avail, curslot, n_copy) =>
          _ ← on_sc (λ x, sc_cnt (tx_counters (r_drops txr) (v_zero_copy v) n_copy (v_bytes v) (cnt x)) x);
          avail ← (if 0 <? u32 (v_zero_copy v + n_copy) then
                     _ ← txsync_loop errs curslot; on_h (if_netmap_txavail nm_ring_space)
                   else mret avail);
          _ ← if_netmap_tx_release_packets fuel (v_free v) m_to_free;
          mret (Some (v_take v, avail, curslot))
      end
  end.

(** ** Start and stop *)

Definition if_netmap_init : N unit := on_sc (λ x, sc_flags (Dpdk.if_dpdk_init (if_drv_flags x)) x).
Definition if_netmap_sts_init : N unit := on_sc (λ x, sc_flags (Dpdk.if_dpdk_sts_init (if_drv_flags x)) x).
Definition if_netmap_stop : N unit := on_sc (λ x, sc_flags (Dpdk.if_dpdk_stop (if_drv_flags x)) x).

(** [SIOCSIFFLAGS]. *)
Definition if_netmap_ioctl (if_flags : Z) : N Z :=
  x ← gets sc;
  _ ← (if has_flag if_flags Dpdk.IFF_UP then (if uifsts x then if_netmap_sts_init else if_netmap_init)
       else if has_flag (if_drv_flags x) Dpdk.IFF_DRV_RUNNING then if_netmap_stop else mret ());
  mret 0.

(** The rings get their first buffers back: [do ... while (slotindex)]. *)
Fixpoint restore_rx (fuel : nat) (i : Z) : N unit :=
  match fuel with
  | O => faultM Blocked
  | S fuel =>
      l ← gets (λ s, rx_ring_bufs (sc s));
      b ← liftR (match l !! Z.to_nat i with Some b => Ok b | None => Fault OutOfBounds end);
      i ← on_h (if_netmap_rxsetslot nm_ring_next i b None);
      if i =? 0 then mret () else restore_rx fuel i
  end.
Fixpoint restore_tx (fuel : nat) (i : Z) : N unit :=
  match fuel with
  | O => faultM Blocked
  | S fuel =>
      l ← gets (λ s, tx_ring_bufs (sc s));
      b ← liftR (match l !! Z.to_nat i with Some b => Ok b | None => Fault OutOfBounds end);
      i ← on_h (if_netmap_txsetslot nm_ring_next i b None 0 false);
      if i =? 0 then mret () else restore_tx fuel i
  end.

(** The list of the extra buffers is made again: each names the next one, the last none. *)
Fixpoint relink (l : list Z) : N unit :=
  match l with
  | [] => mret ()
  | [a] => on_h (if_netmap_buffer_set_next NETMAP_BUF a 0)
  | a :: ((b :: _) as l) => _ ← on_h (if_netmap_buffer_set_next NETMAP_BUF a b); relink l
  end.

(** The threads have stopped. *)
Definition if_netmap_detach (fuel : nat) : N Z :=
  _ ← restore_rx fuel 0;
  _ ← restore_tx fuel 0;
  p ← gets pool;
  let n := u32 (num_interfaces p - 1) in
  _ ← modify (set_pool (pool_refs n p));
  _ ← (if (n =? 0) && negb (num_extra p =? 0) then
         l ← liftR (match extra_indices p with a :: _ => Ok a | [] => Fault OutOfBounds end);
         _ ← on_h (if_netmap_set_bufshead l);
         relink (extra_indices p)
       else mret ());
  mret 0.

End Driver.

End Netmap.
