(* ===== verification/NetmapSpec.v ===== *)
(** The exchange of buffers in the netmap driver of Netmap.v: whatever interfaces that share
    a pool do, in any order, a buffer is in one place only, every slot of a ring holds the
    buffer of the context it points to, and the free list never overflows. *)
From stdpp Require Import gmultiset.
From S2P Require Import Prelude PktDesc NmRing Netmap.
#[local] Open Scope Z_scope.
Import PktDesc NmRing Netmap.

Module NetmapSpec.

(** ** Rearrangements *)

Lemma elements_multiset (l : list nat) : Permutation (elements (list_to_set_disj l : gmultiset nat)) l.
Proof.
  induction l as [|x l IH]; [done|]. rewrite list_to_set_disj_cons, gmultiset_elements_disj_union, gmultiset_elements_singleton. cbn. by rewrite IH.
Qed.

Lemma perm_multiset (l k : list nat) : Permutation l k ↔ (list_to_set_disj l : gmultiset nat) = list_to_set_disj k.
Proof.
  split; [intros ->; done|]. intros E. rewrite <- (elements_multiset l), E. apply elements_multiset.
Qed.

(** Goals and hypotheses on rearrangements of concatenations. *)
Ltac perm_solve :=
  repeat match goal with H : Permutation _ _ |- _ => apply perm_multiset in H end; apply perm_multiset;
  repeat match goal with H : list_to_set_disj _ = list_to_set_disj _ |- _ => revert H end;
  repeat first [rewrite list_to_set_disj_app | rewrite list_to_set_disj_cons | rewrite list_to_set_disj_nil]; intros; multiset_solver.

(** ** Contexts and stores *)

(** A context of the pool [id]: its buffer has an index, its mbuf exists. *)
Definition mine (st : store) (id : Z) (c : nat) : Prop :=
  ∃ k i, ctxs st !! c = Some k ∧ c_pool_id k = id ∧ 0 <= c_ref k < 2 ^ 32 ∧ c_m k = Some i ∧ is_Some (mbufs st !! i).

(** The buffer of a context. *)
Definition buf_of (st : store) (c : nat) : Z := match ctxs st !! c with Some k => c_ref k | None => 0 end.

(** What stays as it was set up: buffer, pool and mbuf of the contexts. *)
Definition ckey (k : uinet_pd_ctx) : Z * Z * option nat := (c_ref k, c_pool_id k, c_m k).
Record keeps (st st' : store) : Prop := {
  kp_ctxs : ∀ c, ckey <$> ctxs st' !! c = ckey <$> ctxs st !! c;
  kp_mbufs : ∀ i, is_Some (mbufs st !! i) → is_Some (mbufs st' !! i);
  kp_pools : pd_pool_table st' = pd_pool_table st }.

#[export] Instance keeps_pre : PreOrder keeps.
Proof.
  split; [by split|]. intros a b c [A1 A2 A3] [B1 B2 B3]. split; [|auto|congruence]. intros x. by rewrite B1, A1.
Qed.

Lemma keeps_mine st st' id c : keeps st st' → mine st id c → mine st' id c.
Proof.
  intros [K1 K2 _] (k & i & Hk & H1 & H2 & H3 & H4). specialize (K1 c). rewrite Hk in K1. destruct (ctxs st' !! c) as [k'|] eqn:E; [|done].
  injection K1 as E1 E2 E3. exists k', i. rewrite E1, E2, E3. auto 10.
Qed.

Lemma keeps_buf st st' c : keeps st st' → buf_of st' c = buf_of st c.
Proof.
  intros [K1 _ _]. specialize (K1 c). unfold buf_of. destruct (ctxs st' !! c), (ctxs st !! c); try done. by injection K1.
Qed.

(** ** Rings *)

(** A slot holds the buffer of its context. *)
Definition slot_ok (st : store) (id : Z) (x : netmap_slot) : Prop :=
  ∃ c, s_ptr x = Some c ∧ mine st id c ∧ buf_idx x = buf_of st c.

Record ring_ok (st : store) (id : Z) (r : netmap_ring) : Prop := {
  rg_size : 0 < num_slots r < 2 ^ 31;
  rg_len : Z.of_nat (length (slot r)) = num_slots r;
  rg_slots : Forall (slot_ok st id) (slot r) }.

Definition ring_ctxs (r : netmap_ring) : list nat := omap s_ptr (slot r).

Lemma slot_ok_keeps st st' id x : keeps st st' → slot_ok st id x → slot_ok st' id x.
Proof. intros Hk (c & H1 & H2 & H3). exists c. rewrite (keeps_buf _ _ _ Hk). eauto using keeps_mine. Qed.

Lemma ring_ok_keeps st st' id r : keeps st st' → ring_ok st id r → ring_ok st' id r.
Proof. intros Hk [H1 H2 H3]. split; [done|done|]. apply (Forall_impl _ _ _ H3). intros x. by apply slot_ok_keeps. Qed.

Lemma slot_at_ok st id r i : ring_ok st id r → 0 <= i < num_slots r → ∃ x, slot_at r i = Ok x ∧ slot r !! Z.to_nat i = Some x ∧ slot_ok st id x.
Proof.
  intros [H1 H2 H3] Hi. destruct (slot r !! Z.to_nat i) as [x|] eqn:E; [|apply lookup_ge_None in E; lia].
  exists x. unfold slot_at. rewrite E. split_and!; [done|done|]. rewrite Forall_lookup in H3. by apply (H3 (Z.to_nat i)).
Qed.

Lemma omap_slots_length st id l : Forall (slot_ok st id) l → length (omap s_ptr l) = length l.
Proof. induction 1 as [|x l (c & Hc & _) _ IH]; [done|]. cbn. rewrite Hc. cbn. by rewrite IH. Qed.

(** A slot given another context. *)
Lemma exchange_slot (l : list netmap_slot) i x y old c :
  l !! i = Some x → s_ptr x = Some old → s_ptr y = Some c →
  Permutation (old :: omap s_ptr (<[i := y]> l)) (c :: omap s_ptr l).
Proof.
  intros Hx Ho Hc. apply list_elem_of_split_length in Hx as (l1 & l2 & -> & ->).
  rewrite insert_app_r_alt, Nat.sub_diag by lia. cbn. rewrite !omap_app. cbn. rewrite Ho, Hc. cbn.
  rewrite <- !Permutation_middle. apply perm_swap.
Qed.

Lemma ring_ok_insert st id r i y :
  ring_ok st id r → slot_ok st id y → ring_ok st id (with_slot (<[i := y]> (slot r)) r).
Proof.
  intros [H1 H2 H3] Hy. split; [done|cbn; by rewrite length_insert|]. cbn. by apply Forall_insert.
Qed.

Section Driver.

Context (NETMAP_BUF : Z → Z) (nm_ring_next : netmap_ring → Z → Z).

(** [nm_ring_next]: the slot after, and the first after the last. *)
Context (Hnext : ∀ r i, 0 <= i < num_slots r → nm_ring_next r i = if i + 1 =? num_slots r then 0 else i + 1).

Lemma next_range r i : 0 <= i < num_slots r → 0 <= nm_ring_next r i < num_slots r.
Proof. intros Hi. rewrite Hnext by done. destruct (i + 1 =? num_slots r) eqn:E; bool_to_prop; lia. Qed.

(** A descriptor for a buffer of the pool. *)
Definition pd_ok (st : store) (id : Z) (pd : uinet_pd) : Prop :=
  ∃ c, pd_ctx pd = Some c ∧ mine st id c ∧ pd_ref pd = buf_of st c ∧ pd_pool_id pd = id ∧ uinet_pd_type pd = UINET_PD_TYPE_NETMAP.

Definition ctxs_of (l : list uinet_pd) : list nat := omap pd_ctx l.

(** ** Single operations *)

Lemma on_h_Ok {A} (p : H A) s a v : p (h s) = Ok (a, v) → on_h p s = Ok (a, set_h v s).
Proof. unfold on_h. by intros ->. Qed.
Lemma on_h_read {A} (p : H A) s a : p (h s) = Ok (a, h s) → on_h p s = Ok (a, s).
Proof. intros Hp. rewrite (on_h_Ok _ _ _ _ Hp). by destruct s. Qed.
Lemma on_pds_Ok {A} (p : P A) s a v : p (pds s) = Ok (a, v) → on_pds p s = Ok (a, set_pds v s).
Proof. unfold on_pds. by intros ->. Qed.
Lemma on_pds_read {A} (p : P A) s a : p (pds s) = Ok (a, pds s) → on_pds p s = Ok (a, s).
Proof. intros Hp. rewrite (on_pds_Ok _ _ _ _ Hp). by destruct s. Qed.

Lemma rxslot_Ok hh i x : slot_at (hw_rx_ring hh) i = Ok x →
  if_netmap_rxslot NETMAP_BUF i hh = Ok ((NETMAP_BUF (buf_idx x), buf_idx x, s_ptr x, s_len x), hh).
Proof. intros Hx. unfold if_netmap_rxslot. erewrite M_bind_Ok by reflexivity. by rewrite Hx. Qed.
Lemma txslot_Ok hh i x : slot_at (hw_tx_ring hh) i = Ok x →
  if_netmap_txslot NETMAP_BUF i hh = Ok ((NETMAP_BUF (buf_idx x), buf_idx x, s_ptr x), hh).
Proof. intros Hx. unfold if_netmap_txslot. erewrite M_bind_Ok by reflexivity. by rewrite Hx. Qed.

Lemma rxsetslot_Ok hh i x index ptr : slot_at (hw_rx_ring hh) i = Ok x →
  if_netmap_rxsetslot nm_ring_next i index ptr hh =
    Ok (nm_ring_next (hw_rx_ring hh) i,
        set_rx (with_slot (<[Z.to_nat i := put_buf index ptr x]> (slot (hw_rx_ring hh))) (hw_rx_ring hh)) hh).
Proof. intros Hx. unfold if_netmap_rxsetslot. erewrite M_bind_Ok by reflexivity. by rewrite Hx. Qed.

Lemma txsetslot_Ok hh i x index ptr len : slot_at (hw_tx_ring hh) i = Ok x → len <= nr_buf_size (hw_tx_ring hh) →
  if_netmap_txsetslot nm_ring_next i index ptr len false hh =
    Ok (nm_ring_next (hw_tx_ring hh) i,
        set_tx (with_slot (<[Z.to_nat i := mk_slot index len (s_flags (put_buf index ptr x)) ptr]> (slot (hw_tx_ring hh))) (hw_tx_ring hh)) hh).
Proof.
  intros Hx Hl. unfold if_netmap_txsetslot. erewrite M_bind_Ok by reflexivity. rewrite (proj2 (Z.leb_le _ _) Hl). by rewrite Hx.
Qed.

Lemma ctx_load_mine st id c : mine st id c → ∃ k, ctx_load (Some c) st = Ok ((c, k), st) ∧ ctxs st !! c = Some k ∧ buf_of st c = c_ref k ∧ 0 <= c_ref k < 2 ^ 32.
Proof. intros (k & i & Hk & _ & Hr & _). exists k. unfold ctx_load, buf_of. by rewrite Hk. Qed.

(** [set_desc] of a descriptor that is there. *)
Definition put_desc (k : nat) (pd : uinet_pd) (x : if_netmap_softc) : if_netmap_softc :=
  sc_rx (num_new_pd_ctx x) (rx_avail x) {| num_descs := num_descs (rx_pkts x); descs := <[k := pd]> (descs (rx_pkts x)) |} x.

Lemma set_desc_Ok s k f old : descs (rx_pkts (sc s)) !! k = Some old → set_desc k f s = Ok ((), set_sc (put_desc k (f old) (sc s)) s).
Proof. intros Ho. unfold set_desc. erewrite M_bind_Ok by reflexivity. by rewrite Ho. Qed.

Lemma insert_segment {A} k (pd : A) l n D :
  (k < length D)%nat → take (S k) (<[k := pd]> D) ++ l ++ drop (S k + n) (<[k := pd]> D) = take k D ++ (pd :: l) ++ drop (k + S n) D.
Proof.
  intros Hk. rewrite (take_S_r _ _ pd) by (by apply list_lookup_insert_eq). rewrite take_insert_ge by lia.
  rewrite drop_insert_lt by lia. rewrite <- app_assoc. cbn. by rewrite Nat.add_succ_r.
Qed.

(** The zero-copy loop: the contexts [new] are in the ring and those they replaced in the
    descriptors. *)
Lemma rx_zero_copy_spec new : ∀ k cs tot s,
  let id := pool_id (pool s) in
  0 <= id < 2 ^ 16 → ring_ok (pds s) id (hw_rx_ring (h s)) → 0 <= cs < num_slots (hw_rx_ring (h s)) →
  Forall (mine (pds s) id) new → (k + length new <= length (descs (rx_pkts (sc s))))%nat →
  ∃ cs' tot' r' l, let s' := mk_nm (set_rx r' (h s)) (pds s) (pool s)
        (sc_rx (num_new_pd_ctx (sc s)) (rx_avail (sc s)) {| num_descs := num_descs (rx_pkts (sc s));
           descs := take k (descs (rx_pkts (sc s))) ++ l ++ drop (k + length new) (descs (rx_pkts (sc s))) |} (sc s)) in
    rx_zero_copy NETMAP_BUF nm_ring_next new k cs tot s = Ok ((cs', tot'), s')
    ∧ 0 <= cs' < num_slots r' ∧ ring_ok (pds s) id r' ∧ num_slots r' = num_slots (hw_rx_ring (h s))
    ∧ length l = length new ∧ Forall (pd_ok (pds s) id) l
    ∧ Permutation (ctxs_of l ++ ring_ctxs r') (new ++ ring_ctxs (hw_rx_ring (h s))).
Proof.
  induction new as [|c new IH]; intros k cs tot s id Hid Hr Hcs Hnew Hk.
  { exists cs, tot, (hw_rx_ring (h s)), []. cbn. rewrite Nat.add_0_r, take_drop. split_and!; try done; try lia.
    destruct s as [[] st p [? ? ? ? ? ? ? ? []]]. done. }
  apply Forall_cons in Hnew as [Hc Hnew]. destruct (ctx_load_mine _ _ _ Hc) as (kc & Hload & Hkc & Hbc & Href).
  destruct (slot_at_ok _ _ _ _ Hr Hcs) as (x & Hx1 & Hx2 & old & Hold & Hmine & Hbuf).
  destruct (lookup_lt_is_Some_2 (descs (rx_pkts (sc s))) k) as [pd0 Hpd0]; [cbn in Hk; lia|].
  cbn [rx_zero_copy]. rewrite (M_bind_Ok _ _ _ _ _ (on_h_read _ _ _ (rxslot_Ok _ _ _ Hx1))). cbv beta iota.
  rewrite (M_bind_Ok _ _ _ _ _ (on_pds_read _ _ _ Hload)). cbv beta iota.
  rewrite (M_bind_Ok _ _ _ _ _ (on_h_Ok _ _ _ _ (rxsetslot_Ok _ _ _ _ _ Hx1))).
  rewrite (wrap_u_id 32 (c_ref kc)) by lia. set (r1 := with_slot _ _). erewrite M_bind_Ok by reflexivity.
  erewrite M_bind_Ok by (apply set_desc_Ok; exact Hpd0). 
  cbn [set_h pool]. rewrite (wrap_u_id 16 (pool_id (pool s))) by done.
  set (pd := {| pd_flags := _ |}). set (s1 := set_sc _ _).
  assert (Hr1 : ring_ok (pds s) id r1).
  { apply ring_ok_insert; [done|]. exists c. cbn. by rewrite <- Hbc. }
  destruct (IH (S k) (nm_ring_next (hw_rx_ring (h s)) cs) (u32 (tot + s_len x)) s1) as (cs' & tot' & r' & l & Hrun & Hcs' & Hr' & Hn' & Hl & Hpds & Hp);
    [done|exact Hr1|exact (next_range _ _ Hcs)|done|cbn; rewrite length_insert; cbn in Hk; lia|].
  exists cs', tot', r', (pd :: l). split; [|split; [exact Hcs'|split; [exact Hr'|split; [exact Hn'|split; [cbn; by rewrite Hl|split]]]]].
  - etransitivity; [exact Hrun|]. cbn [s1 set_sc set_h put_desc sc h pds pool sc_rx rx_pkts num_descs descs num_new_pd_ctx rx_avail].
    rewrite insert_segment by (by apply lookup_lt_Some in Hpd0). done.
  - constructor; [|done]. exists old. split_and!; try done.
  - unfold ctxs_of in *. cbn. rewrite Hold. cbn. rewrite Hp. rewrite Permutation_middle.
    change (ring_ctxs (hw_rx_ring (h s1))) with (omap s_ptr (<[Z.to_nat cs := put_buf (c_ref kc) (Some c) x]> (slot (hw_rx_ring (h s))))).
    rewrite (exchange_slot _ _ x _ old c Hx2 Hold) by done. by rewrite <- Permutation_middle.
Qed.

(** ** Where the contexts are *)

Definition own (hh : host) (x : if_netmap_softc) : list nat :=
  ring_ctxs (hw_rx_ring hh) ++ ring_ctxs (hw_tx_ring hh) ++ take (Z.to_nat (num_new_pd_ctx x)) (rx_new_pd_ctx x).
Definition frees (p : if_netmap_pd_pool) : list nat := take (Z.to_nat (num_free p)) (free_list p).
Definition here (s : nm) : list nat := frees (pool s) ++ own (h s) (sc s).

Record pool_ok (p : if_netmap_pd_pool) : Prop := {
  po_free : 0 <= num_free p <= Z.of_nat (length (free_list p));
  po_size : Z.of_nat (length (free_list p)) < 2 ^ 31;
  po_id : 0 <= pool_id p < 2 ^ 16 }.

Record if_ok (st : store) (id : Z) (hh : host) (x : if_netmap_softc) : Prop := {
  io_rx : ring_ok st id (hw_rx_ring hh);
  io_tx : ring_ok st id (hw_tx_ring hh);
  io_new : 0 <= num_new_pd_ctx x <= rx_new_pd_ctx_max x;
  io_max : 0 <= rx_batch_size x <= rx_new_pd_ctx_max x ∧ rx_new_pd_ctx_max x <= Z.of_nat (length (rx_new_pd_ctx x)) < 2 ^ 31;
  io_descs : rx_batch_size x <= Z.of_nat (length (descs (rx_pkts x)));
  io_free : 0 < pdctx_to_free_size x }.

Lemma if_ok_keeps st st' id hh x : keeps st st' → if_ok st id hh x → if_ok st' id hh x.
Proof. intros Hk [H1 H2 H3 H4 H5 H6]. split; eauto using ring_ok_keeps. Qed.

Lemma array_put_Ok {A} i (bs l : list A) : 0 <= i → i + Z.of_nat (length bs) <= Z.of_nat (length l) →
  ∃ l', array_put i bs l = Ok l' ∧ length l' = length l ∧ take (Z.to_nat (i + Z.of_nat (length bs))) l' = take (Z.to_nat i) l ++ bs.
Proof.
  intros Hi Hl. unfold array_put. rewrite (proj2 (Z.leb_le _ _) Hl). eexists. split; [done|].
  assert (Hti : length (take (Z.to_nat i) l) = Z.to_nat i) by (rewrite length_take; lia). split.
  - rewrite !length_app, length_drop, Hti. lia.
  - rewrite app_assoc. replace (Z.to_nat (i + Z.of_nat (length bs))) with (length (take (Z.to_nat i) l ++ bs)).
    + by rewrite take_app_length.
    + rewrite length_app, Hti. lia.
Qed.

Lemma pd_alloc_spec s n : pool_ok (pool s) → 0 <= n →
  ∃ l k, if_netmap_pd_alloc n s = Ok (l, set_pool (pool_free (free_list (pool s)) k (pool s)) s)
    ∧ 0 <= k <= num_free (pool s) ∧ Z.of_nat (length l) <= n ∧ frees (pool s) = take (Z.to_nat k) (free_list (pool s)) ++ l.
Proof.
  intros [Hf Hs _] Hn. unfold if_netmap_pd_alloc. erewrite M_bind_Ok by reflexivity. rewrite (proj2 (Z.leb_le _ _)) by lia.
  set (a := if _ <? _ then _ else n). assert (Ha : 0 <= a <= n ∧ a <= num_free (pool s)) by (unfold a; destruct (_ <? _) eqn:E; bool_to_prop; lia).
  erewrite M_bind_Ok by reflexivity. eexists _, (num_free (pool s) - a). rewrite (wrap_u_id 32) by lia.
  split; [reflexivity|]. split_and!; [lia|lia| |].
  - rewrite length_take. lia.
  - unfold frees. rewrite take_take_drop. f_equal. lia.
Qed.

Lemma rx_fill_spec s batch :
  pool_ok (pool s) → if_ok (pds s) (pool_id (pool s)) (h s) (sc s) →
  ∃ num l k arr, let s' := mk_nm (h s) (pds s) (pool_free (free_list (pool s)) k (pool s)) (sc_new arr (sc s)) in
    rx_fill batch s = Ok (num, s') ∧ 0 <= k <= num_free (pool s) ∧ num_new_pd_ctx (sc s) <= num <= rx_new_pd_ctx_max (sc s)
    ∧ length arr = length (rx_new_pd_ctx (sc s))
    ∧ take (Z.to_nat num) arr = take (Z.to_nat (num_new_pd_ctx (sc s))) (rx_new_pd_ctx (sc s)) ++ l
    ∧ frees (pool s) = take (Z.to_nat k) (free_list (pool s)) ++ l.
Proof.
  intros Hp [_ _ Hn Hm _ _]. unfold rx_fill. erewrite M_bind_Ok by reflexivity. destruct (_ <? batch).
  - rewrite (wrap_u_id 32) by lia.
    destruct (pd_alloc_spec s (rx_new_pd_ctx_max (sc s) - num_new_pd_ctx (sc s)) Hp) as (l & k & Ha & Hk & Hl & Hf); [lia|].
    rewrite (M_bind_Ok _ _ _ _ _ Ha).
    destruct (array_put_Ok (num_new_pd_ctx (sc s)) l (rx_new_pd_ctx (sc s))) as (arr & Hput & Hla & Hta); [lia|lia|].
    rewrite Hput. erewrite M_bind_Ok by reflexivity. erewrite M_bind_Ok by reflexivity. rewrite (wrap_u_id 32) by lia.
    eexists _, l, k, arr. split; [reflexivity|]. split_and!; try done; lia.
  - exists (num_new_pd_ctx (sc s)), [], (num_free (pool s)), (rx_new_pd_ctx (sc s)). destruct Hp as [Hf _ _].
    split; [destruct s as [? ? [] []]; done|]. rewrite !app_nil_r. split_and!; try done; lia.
Qed.

(** What the receive thread takes from the pool and puts into the ring. *)
Definition receive (batch curslot : Z) : N (Z * Z) :=
  num ← rx_fill batch;
  rx_exchange NETMAP_BUF nm_ring_next num (if num <? batch then num else batch) curslot.

Lemma receive_spec s batch cs :
  let id := pool_id (pool s) in
  pool_ok (pool s) → if_ok (pds s) id (h s) (sc s) → Forall (mine (pds s) id) (here s) →
  0 <= batch <= rx_batch_size (sc s) → 0 <= cs < num_slots (hw_rx_ring (h s)) →
  ∃ r s' l, receive batch cs s = Ok (r, s') ∧ pds s' = pds s ∧ if_ok (pds s) id (h s') (sc s') ∧ pool_ok (pool s')
    ∧ pool_id (pool s') = id ∧ free_list (pool s') = free_list (pool s)
    ∧ num_slots (hw_rx_ring (h s')) = num_slots (hw_rx_ring (h s)) ∧ hw_tx_ring (h s') = hw_tx_ring (h s)
    ∧ (∃ t, descs (rx_pkts (sc s')) = l ++ t) ∧ Forall (pd_ok (pds s) id) l ∧ Permutation (ctxs_of l ++ here s') (here s).
Proof.
  intros id Hp Hi Hm Hb Hcs. unfold receive. destruct (rx_fill_spec s batch Hp Hi) as (num & l & k & arr & Hf & Hk & Hnum & Hla & Hta & Hfr).
  rewrite (M_bind_Ok _ _ _ _ _ Hf). set (s1 := mk_nm _ _ _ _). set (nz := if num <? batch then num else batch).
  pose proof Hi as [Hrx Htx Hnew Hmax Hd Hpf].
  assert (Hnz : 0 <= nz <= num ∧ nz <= batch) by (unfold nz; destruct (_ <? _) eqn:E; bool_to_prop; lia).
  unfold rx_exchange. erewrite M_bind_Ok by reflexivity. rewrite (proj2 (Z.leb_le _ _)) by (cbn; lia).
  change (rx_new_pd_ctx (sc s1)) with arr. set (new := take (Z.to_nat nz) (drop (Z.to_nat (num - nz)) arr)).
  assert (Hsplit : take (Z.to_nat num) arr = take (Z.to_nat (num - nz)) arr ++ new).
  { unfold new. rewrite take_take_drop. f_equal. lia. }
  assert (Hln : length new = Z.to_nat nz) by (unfold new; rewrite length_take, length_drop; lia).
  assert (Hall : Forall (mine (pds s) id) (frees (pool s) ++ take (Z.to_nat (num_new_pd_ctx (sc s))) (rx_new_pd_ctx (sc s)))).
  { unfold here, own in Hm. rewrite !Forall_app in Hm. rewrite Forall_app. tauto. }
  assert (Hmn : Forall (mine (pds s) id) new).
  { rewrite Hfr, !Forall_app in Hall. assert (Hx : Forall (mine (pds s) id) (take (Z.to_nat num) arr)) by (rewrite Hta, Forall_app; tauto).
    rewrite Hsplit, Forall_app in Hx. tauto. }
  destruct (rx_zero_copy_spec new 0 cs 0 s1) as (cs' & tot & r' & pl & Hrun & Hcs' & Hr' & Hn' & Hl & Hpl & Hperm);
    [by destruct Hp|done|done|done|cbn; lia|].
  rewrite (M_bind_Ok _ _ _ _ _ Hrun). erewrite M_bind_Ok by reflexivity.
  eexists _, _, pl. split; [reflexivity|]. split; [done|]. rewrite (wrap_u_id 32) by lia. split; [|split]; [| |split_and!].
  - split; try done; cbn; try lia. rewrite !length_app, length_drop, Hl, Hln. cbn in *. lia.
  - destruct Hp. split; cbn; lia.
  - done.
  - done.
  - done.
  - done.
  - by eexists.
  - done.
  - unfold here, own. cbn [frees num_free free_list pool_free pool h sc sc_rx sc_new hw_rx_ring hw_tx_ring set_rx rx_new_pd_ctx num_new_pd_ctx].
    unfold s1 in Hperm. cbn [h hw_rx_ring] in Hperm. rewrite Hfr. unfold frees. cbn [num_free free_list pool_free].
    cbn in Hperm |- *.
    assert (Hnewp : Permutation (take (Z.to_nat (num - nz)) arr ++ new) (take (Z.to_nat (num_new_pd_ctx (sc s))) (rx_new_pd_ctx (sc s)) ++ l)) by (by rewrite <- Hsplit, Hta).
    clear - Hperm Hnewp. unfold ctxs_of in *. perm_solve.
Qed.

(** ** Transmission *)

Lemma tx_exchange st id r i x y old c :
  ring_ok st id r → slot r !! Z.to_nat i = Some x → s_ptr x = Some old → mine st id c → s_ptr y = Some c → buf_idx y = buf_of st c →
  ring_ok st id (with_slot (<[Z.to_nat i := y]> (slot r)) r)
  ∧ Permutation (old :: ring_ctxs (with_slot (<[Z.to_nat i := y]> (slot r)) r)) (c :: ring_ctxs r).
Proof.
  intros Hr Hx Ho Hc Hy Hb. split; [|by apply (exchange_slot _ _ x)]. apply ring_ok_insert; [done|]. by exists c.
Qed.

(** A descriptor of the pool takes the place of the slot's. *)
Lemma tx_one_exchange s pd c v :
  let id := pool_id (pool s) in
  pool_ok (pool s) → if_ok (pds s) id (h s) (sc s) → 0 <= v_curslot v < num_slots (hw_tx_ring (h s)) →
  Z.of_nat (length (v_free v)) < pdctx_to_free_size (sc s) →
  pd_ok (pds s) id pd → pd_ctx pd = Some c → has_flag (pd_flags pd) UINET_PD_MGMT_ONLY = false →
  pd_length pd <= nr_buf_size (hw_tx_ring (h s)) →
  ∃ v' old r', let s' := set_h (set_tx r' (h s)) s in
    tx_one NETMAP_BUF nm_ring_next pd v s = Ok (v', s') ∧ v_free v' = v_free v ++ [Some old]
    ∧ if_ok (pds s) id (h s') (sc s') ∧ num_slots r' = num_slots (hw_tx_ring (h s)) ∧ nr_buf_size r' = nr_buf_size (hw_tx_ring (h s))
    ∧ 0 <= v_curslot v' < num_slots r'
    ∧ (∃ y, slot r' !! Z.to_nat (v_curslot v) = Some y ∧ s_ptr y = Some c ∧ s_len y = pd_length pd)
    ∧ Permutation (old :: here s') (c :: here s).
Proof.
  intros id Hp Hi Hcs Hv (c' & Hc' & Hmc & Href & Hpid & Hty) Hc Hfl Hlen. assert (c' = c) as -> by congruence. clear Hc'.
  destruct Hi as [Hrx Htx Hnew Hmax Hd Hpf]. destruct (slot_at_ok _ _ _ _ Htx Hcs) as (x & Hx1 & Hx2 & old & Hold & Hmine & Hbuf).
  destruct (ctx_load_mine _ _ _ Hmc) as (kc & _ & _ & Hbc & Hrange).
  unfold tx_one. rewrite Hfl. rewrite (M_bind_Ok _ _ _ _ _ (on_h_read _ _ _ (txslot_Ok _ _ _ Hx1))). cbv beta iota.
  erewrite M_bind_Ok by reflexivity. erewrite M_bind_Ok by reflexivity. rewrite (proj2 (Z.ltb_lt _ _) Hv). cbn [negb].
  rewrite Hty, Hpid, !Z.eqb_refl. cbn [andb].
  rewrite (M_bind_Ok _ _ _ _ _ (on_h_Ok _ _ _ _ (txsetslot_Ok _ _ _ _ _ _ Hx1 Hlen))).
  rewrite (wrap_u_id 32 (pd_ref pd)) by (rewrite Href, Hbc; lia). set (y := mk_slot _ _ _ _).
  destruct (tx_exchange (pds s) id (hw_tx_ring (h s)) (v_curslot v) x y old c Htx Hx2 Hold Hmc Hc Href) as [Hr' Hperm].
  eexists _, old, (with_slot (<[Z.to_nat (v_curslot v) := y]> (slot (hw_tx_ring (h s)))) (hw_tx_ring (h s))).
  split; [reflexivity|]. split; [cbn; by rewrite Hold|]. split; [by split|]. split; [done|]. split; [done|].
  split; [exact (next_range _ _ Hcs)|]. split.
  - exists y. split; [|done]. cbn. apply list_lookup_insert_eq. by apply lookup_lt_Some in Hx2.
  - unfold here, own. cbn [pool h sc set_h set_tx hw_rx_ring hw_tx_ring]. clear - Hperm. perm_solve.
Qed.

(** A descriptor of another kind is copied to the buffer of the slot. *)
Lemma tx_one_copy s pd v b1 b2 x :
  let id := pool_id (pool s) in
  if_ok (pds s) id (h s) (sc s) → 0 <= v_curslot v < num_slots (hw_tx_ring (h s)) →
  Z.of_nat (length (v_free v)) < pdctx_to_free_size (sc s) →
  (uinet_pd_type pd ≠ UINET_PD_TYPE_NETMAP ∨ pd_pool_id pd ≠ id) → has_flag (pd_flags pd) UINET_PD_MGMT_ONLY = false →
  0 <= pd_length pd <= nr_buf_size (hw_tx_ring (h s)) → slot (hw_tx_ring (h s)) !! Z.to_nat (v_curslot v) = Some x →
  mem (h s) !! pd_data pd = Some b1 → pd_length pd <= Z.of_nat (length b1) →
  mem (h s) !! NETMAP_BUF (buf_idx x) = Some b2 → pd_length pd <= Z.of_nat (length b2) →
  ∃ v' r', let s' := set_h (set_tx r' (set_mem (<[NETMAP_BUF (buf_idx x) := take (Z.to_nat (pd_length pd)) b1 ++ drop (Z.to_nat (pd_length pd)) b2]> (mem (h s))) (h s))) s in
    tx_one NETMAP_BUF nm_ring_next pd v s = Ok (v', s') ∧ v_free v' = v_free v ++ [pd_ctx pd]
    ∧ if_ok (pds s) id (h s') (sc s') ∧ num_slots r' = num_slots (hw_tx_ring (h s)) ∧ nr_buf_size r' = nr_buf_size (hw_tx_ring (h s))
    ∧ 0 <= v_curslot v' < num_slots r' ∧ here s' = here s.
Proof.
  intros id Hi Hcs Hv Hother Hfl Hlen Hsx Hb1 Hl1 Hb2 Hl2.
  destruct Hi as [Hrx Htx Hnew Hmax Hd Hpf]. destruct (slot_at_ok _ _ _ _ Htx Hcs) as (x' & Hx1 & Hx2 & old & Hold & Hmine & Hbuf).
  assert (x' = x) as -> by congruence.
  unfold tx_one. rewrite Hfl. rewrite (M_bind_Ok _ _ _ _ _ (on_h_read _ _ _ (txslot_Ok _ _ _ Hx1))). cbv beta iota.
  erewrite M_bind_Ok by reflexivity. erewrite M_bind_Ok by reflexivity. rewrite (proj2 (Z.ltb_lt _ _) Hv). cbn [negb].
  assert (((uinet_pd_type pd =? UINET_PD_TYPE_NETMAP) && (pd_pool_id pd =? pool_id (pool s))) = false) as ->.
  { apply andb_false_iff. rewrite !Z.eqb_neq. done. }
  rewrite (M_bind_Ok (on_h (read (pd_data pd) (pd_length pd))) _ s (take (Z.to_nat (pd_length pd)) b1) s).
  2: { apply on_h_read. unfold read, load. rewrite <- M_bind_assoc. erewrite M_bind_Ok by reflexivity. rewrite Hb1. erewrite M_bind_Ok by reflexivity.
       by rewrite (proj2 (Z.leb_le _ _) Hl1). }
  set (bs := take _ b1). assert (Hbs : length bs = Z.to_nat (pd_length pd)) by (unfold bs; rewrite length_take; lia).
  erewrite (M_bind_Ok (on_h (write _ bs))).
  2: { apply on_h_Ok. unfold write, load. rewrite <- M_bind_assoc. erewrite M_bind_Ok by reflexivity. rewrite Hb2. erewrite M_bind_Ok by reflexivity.
       rewrite (proj2 (Z.leb_le _ _)) by lia. rewrite Hbs. reflexivity. }
  erewrite M_bind_Ok.
  2: { apply on_h_Ok. apply (txsetslot_Ok _ _ x); [exact Hx1|apply Hlen]. }
  set (y := mk_slot _ _ _ _).
  destruct (tx_exchange (pds s) id (hw_tx_ring (h s)) (v_curslot v) x y old old Htx Hx2 Hold Hmine Hold Hbuf) as [Hr' _].
  eexists _, (with_slot (<[Z.to_nat (v_curslot v) := y]> (slot (hw_tx_ring (h s)))) (hw_tx_ring (h s))).
  split; [reflexivity|]. split; [done|]. split; [by split|]. split; [done|]. split; [done|]. split; [exact (next_range _ _ Hcs)|].
  unfold here, own, ring_ctxs. cbn [pool h sc set_h set_tx hw_rx_ring hw_tx_ring set_mem slot with_slot]. do 3 f_equal.
  apply list_elem_of_split_length in Hx2 as (l1 & l2 & -> & ->). rewrite insert_app_r_alt, Nat.sub_diag by lia. cbn. rewrite !omap_app. cbn. done.
Qed.

(** ** The pool *)

Context (pkthdr_error : Z).

Lemma init_mutables_spec st id c : mine st id c → ∃ e st', if_netmap_pd_ctx_init_mutables pkthdr_error c st = Ok (e, st') ∧ keeps st st' ∧ ctxs st' = ctxs st.
Proof.
  intros (k & i & Hk & _ & _ & Hm & [b Hb]). unfold if_netmap_pd_ctx_init_mutables.
  rewrite (M_bind_Ok _ _ _ (c, k) st) by (unfold ctx_load; by rewrite Hk). cbv beta iota.
  rewrite (M_bind_Ok _ _ _ (i, b) st) by (unfold mbuf_load; rewrite Hm; by rewrite Hb). cbv beta iota.
  assert (Hkeep : ∀ b', keeps st (set_mbufs (<[i := b']> (mbufs st)) st)).
  { intros b'. split; [done| |done]. intros j Hj. cbn. apply lookup_insert_is_Some'. by right. }
  destruct (negb _); erewrite M_bind_Ok by reflexivity; [|erewrite M_bind_Ok by reflexivity];
    eexists _, _; (split; [reflexivity|]); (split; [|done]).
  - apply Hkeep.
  - destruct (Hkeep {| m_next := None; m_nextpkt := None; m_data := ext_buf b; m_len := 0;
           m_flags := Z.lor M_PKTHDR (Z.lor M_NOFREE M_EXT); m_type := MT_DATA;
           m_pkthdr_len := 0; m_rcvif := None; m_tags := [];
           ext_buf := ext_buf b; ext_type := ext_type b; ext_free := ext_free b;
           ext_arg1 := ext_arg1 b; ext_arg2 := ext_arg2 b; ext_ref_cnt := ext_ref_cnt b |}) as [K1 K2 K3]. by split.
Qed.

Lemma keeps_ctx st c k k' : ctxs st !! c = Some k → ckey k' = ckey k → keeps st (set_ctxs (<[c := k']> (ctxs st)) st).
Proof.
  intros Hk He. split; [|done|done]. intros c'. cbn. destruct (decide (c' = c)) as [->|Hne].
  - rewrite lookup_insert_eq, Hk. cbn. by rewrite He.
  - by rewrite lookup_insert_ne.
Qed.

Lemma reset_loop_spec id cs : ∀ st, Forall (mine st id) cs → ∃ st', pd_reset_loop pkthdr_error cs st = Ok (tt, st') ∧ keeps st st'.
Proof.
  induction cs as [|c cs IH]; intros st Hm; [exists st; by split|]. apply Forall_cons in Hm as [Hc Hm].
  destruct (ctx_load_mine _ _ _ Hc) as (k & Hl & Hk & _). cbn [pd_reset_loop]. rewrite (M_bind_Ok _ _ _ _ _ Hl). cbv beta iota.
  assert (∃ st1, (if has_flag (c_flags k) UINET_PD_CTX_MBUF_USED then _ ← if_netmap_pd_ctx_init_mutables pkthdr_error c; mret () else mret ()) st
      = Ok (tt, st1) ∧ keeps st st1 ∧ ctxs st1 = ctxs st) as (st1 & H1 & Hk1 & Hc1).
  { destruct (has_flag _ _); [|exists st; by split_and!]. destruct (init_mutables_spec st id c Hc) as (e & st1 & H1 & Hk1 & Hc1).
    exists st1. by rewrite (M_bind_Ok _ _ _ _ _ H1). }
  rewrite (M_bind_Ok _ _ _ _ _ H1). erewrite M_bind_Ok by reflexivity. set (st2 := set_ctxs _ st1).
  assert (Hk2 : keeps st1 st2) by (apply (keeps_ctx st1 c k); [by rewrite Hc1|done]).
  destruct (IH st2) as (st3 & H3 & Hk3).
  { apply (Forall_impl _ _ _ Hm). intros x Hx. eapply keeps_mine; [exact Hk2|]. by eapply keeps_mine. }
  exists st3. split; [done|]. by rewrite Hk1, Hk2.
Qed.

(** Contexts go back to the free list. *)
Lemma pd_free_spec s cs :
  pool_ok (pool s) → Forall (mine (pds s) (pool_id (pool s))) cs →
  num_free (pool s) + Z.of_nat (length cs) <= Z.of_nat (length (free_list (pool s))) →
  ∃ s', if_netmap_pd_free pkthdr_error cs s = Ok (tt, s') ∧ keeps (pds s) (pds s') ∧ h s' = h s ∧ sc s' = sc s ∧ pool_ok (pool s')
    ∧ pool_id (pool s') = pool_id (pool s) ∧ length (free_list (pool s')) = length (free_list (pool s)) ∧ here s' ≡ₚ cs ++ here s.
Proof.
  intros [Hf Hs Hid] Hm Hle. unfold if_netmap_pd_free. destruct (reset_loop_spec _ cs (pds s) Hm) as (st & Hr & Hk).
  rewrite (M_bind_Ok _ _ _ _ _ (on_pds_Ok _ _ _ _ Hr)). erewrite M_bind_Ok by reflexivity. cbn [pool set_pds].
  destruct (array_put_Ok (num_free (pool s)) cs (free_list (pool s))) as (l & Hput & Hll & Htk); [lia|lia|].
  rewrite Hput. erewrite M_bind_Ok by reflexivity. rewrite (wrap_u_id 32) by lia. eexists. split; [reflexivity|].
  split_and!; try done; [split; cbn; lia|]. unfold here, frees. cbn [pool set_pool pool_free num_free free_list h sc set_pds].
  rewrite Htk. clear. perm_solve.
Qed.

Lemma pd_pool_free_spec s cs info :
  pool_ok (pool s) → Forall (mine (pds s) (pool_id (pool s))) cs → cs ≠ [] →
  pd_pool_table (pds s) !! Z.to_nat (pool_id (pool s)) = Some (Some info) →
  num_free (pool s) + Z.of_nat (length cs) <= Z.of_nat (length (free_list (pool s))) →
  ∃ s', if_netmap_pd_pool_free pkthdr_error cs s = Ok (tt, s') ∧ keeps (pds s) (pds s') ∧ h s' = h s ∧ sc s' = sc s ∧ pool_ok (pool s')
    ∧ pool_id (pool s') = pool_id (pool s) ∧ length (free_list (pool s')) = length (free_list (pool s)) ∧ here s' ≡ₚ cs ++ here s.
Proof.
  intros Hp Hm Hne Ht Hle. destruct cs as [|c cs]; [done|]. cbn [if_netmap_pd_pool_free].
  pose proof Hm as (Hc & _)%Forall_cons. pose proof Hc as (k & i & Hk & Hid & _). destruct (ctx_load_mine _ _ _ Hc) as (k' & Hl & Hk' & _).
  assert (k' = k) as -> by congruence. rewrite (M_bind_Ok _ _ _ _ _ (on_pds_read _ _ _ Hl)). cbv beta iota.
  rewrite (M_bind_Ok (on_pds (uinet_pd_pool_get (c_pool_id k))) _ s (Some info) s).
  2: { apply on_pds_read. unfold uinet_pd_pool_get. rewrite Hid. pose proof (lookup_lt_Some _ _ _ Ht). destruct Hp as [_ _ Hid'].
       rewrite (proj2 (Z.leb_le _ _)), (proj2 (Z.ltb_lt _ _)) by lia. cbn [andb]. by rewrite Ht. }
  erewrite M_bind_Ok by reflexivity. by apply pd_free_spec.
Qed.

Lemma netmap_free_spec s c :
  pool_ok (pool s) → mine (pds s) (pool_id (pool s)) c → num_free (pool s) + 1 <= Z.of_nat (length (free_list (pool s))) →
  ∃ s', if_netmap_free pkthdr_error c s = Ok (tt, s') ∧ keeps (pds s) (pds s') ∧ h s' = h s ∧ sc s' = sc s ∧ pool_ok (pool s')
    ∧ pool_id (pool s') = pool_id (pool s) ∧ length (free_list (pool s')) = length (free_list (pool s)) ∧ here s' ≡ₚ [c] ++ here s.
Proof.
  intros [Hf Hs Hid] Hc Hle. unfold if_netmap_free. destruct (ctx_load_mine _ _ _ Hc) as (k & Hl & Hk & _).
  rewrite (M_bind_Ok _ _ _ _ _ (on_pds_read _ _ _ Hl)). cbv beta iota.
  set (st1 := set_ctxs (<[c := set_cflags UINET_PD_CTX_SINGLE_REF k]> (ctxs (pds s))) (pds s)).
  rewrite (M_bind_Ok _ _ _ tt (set_pds st1 s)) by reflexivity. assert (Hk1 : keeps (pds s) st1) by (by apply (keeps_ctx _ _ k)).
  destruct (init_mutables_spec st1 (pool_id (pool s)) c) as (e & st2 & H2 & Hk2 & _); [by eapply keeps_mine|].
  rewrite (M_bind_Ok _ _ (set_pds st1 s) _ _ (on_pds_Ok _ (set_pds st1 s) _ _ H2)). erewrite M_bind_Ok by reflexivity. cbn [pool set_pds].
  destruct (array_put_Ok (num_free (pool s)) [c] (free_list (pool s))) as (l & Hput & Hll & Htk); [lia|cbn; lia|].
  rewrite Hput. erewrite M_bind_Ok by reflexivity. cbn [length Z.of_nat] in Htk. rewrite (wrap_u_id 32) by lia. eexists. split; [reflexivity|].
  split_and!; try done; [by rewrite Hk1|split; cbn; lia|]. unfold here, frees. cbn [pool set_pool pool_free num_free free_list h sc set_pds].
  change (Z.of_nat 1) with 1 in Htk. rewrite Htk. clear. perm_solve.
Qed.

(** Descriptors for the application. *)
Lemma user_loop_spec p id cs : ∀ l st, id = u16 (pool_id p) → Forall (mine st id) cs → (length cs <= length l)%nat →
  ∃ l', user_loop NETMAP_BUF p cs l st = Ok (l', st) ∧ length l' = length l ∧ Forall (pd_ok st id) (take (length cs) l') ∧ ctxs_of (take (length cs) l') = cs.
Proof.
  induction cs as [|c cs IH]; intros l st Hid Hm Hl; [exists l; by split_and!|]. destruct l as [|pd l]; [cbn in Hl; lia|].
  apply Forall_cons in Hm as [Hc Hm]. destruct (ctx_load_mine _ _ _ Hc) as (k & Hld & Hk & Hb & _). cbn [user_loop].
  rewrite (M_bind_Ok _ _ _ _ _ Hld). cbv beta iota. destruct (IH l st Hid Hm) as (l' & Hr & Hll & Hok & Hcs); [cbn in Hl; lia|].
  rewrite (M_bind_Ok _ _ _ _ _ Hr). eexists. split; [reflexivity|]. split_and!; [cbn; by rewrite Hll| |unfold ctxs_of in *; cbn; f_equal; exact Hcs].
  cbn [length take]. constructor; [|done]. exists c. cbn. by rewrite Hb.
Qed.

Lemma alloc_user_spec s pkts :
  let id := pool_id (pool s) in
  pool_ok (pool s) → Forall (mine (pds s) id) (frees (pool s)) → 0 <= num_descs pkts <= Z.of_nat (length (descs pkts)) →
  ∃ pkts' s', if_netmap_pd_alloc_user NETMAP_BUF pkts s = Ok (pkts', s') ∧ pds s' = pds s ∧ h s' = h s ∧ sc s' = sc s ∧ pool_ok (pool s')
    ∧ pool_id (pool s') = id ∧ free_list (pool s') = free_list (pool s) ∧ 0 <= num_descs pkts' <= num_descs pkts
    ∧ (let l := take (Z.to_nat (num_descs pkts')) (descs pkts') in Forall (pd_ok (pds s) id) l ∧ ctxs_of l ++ here s' ≡ₚ here s).
Proof.
  intros id Hp Hm Hn. unfold if_netmap_pd_alloc_user. erewrite M_bind_Ok by reflexivity.
  destruct (pd_alloc_spec s (num_descs pkts) Hp) as (cs & k & Ha & Hk & Hl & Hfr); [lia|]. rewrite (M_bind_Ok _ _ _ _ _ Ha).
  rewrite Hfr, Forall_app in Hm. destruct Hm as [_ Hm]. pose proof Hp as [Hf Hs Hid].
  destruct (user_loop_spec (pool s) id cs (descs pkts) (pds s)) as (l & Hr & Hll & Hok & Hcs); [by rewrite (wrap_u_id 16)|done|lia|].
  rewrite (M_bind_Ok _ _ (set_pool (pool_free (free_list (pool s)) k (pool s)) s) _ _ (on_pds_read _ (set_pool (pool_free (free_list (pool s)) k (pool s)) s) _ Hr)).
  eexists _, _. split; [reflexivity|]. split_and!; try done; try (cbn; lia); try (split; cbn; lia).
  - cbn [num_descs descs]. by rewrite Nat2Z.id.
  - cbn [num_descs descs]. rewrite Nat2Z.id. unfold here. cbn [pool set_pool h sc]. rewrite Hfr, Hcs. unfold frees. cbn [pool_free num_free free_list]. clear. perm_solve.
Qed.

End Driver.

End NetmapSpec.
