(* ===== verification/NetmapSafe.v ===== *)
(** The system of the netmap interfaces that share a pool (Netmap.v): any order of receiving,
    sending, allocating and freeing by any of them keeps every buffer in one place. *)
From stdpp Require Import gmultiset.
From S2P Require Import Prelude PktDesc NmRing Netmap NetmapSpec.
Import PktDesc NmRing Netmap NetmapSpec.
#[local] Open Scope Z_scope.

Module NetmapSafe.

(** The pool, the packet descriptors, and each interface's rings and softc. *)
Record sys : Type := mk_sys { y_pool : if_netmap_pd_pool; y_pds : store; y_ifs : list (host * if_netmap_softc) }.

Definition focus (y : sys) (x : host * if_netmap_softc) : nm := mk_nm x.1 (y_pds y) (y_pool y) x.2.
Definition put (y : sys) (i : nat) (s : nm) : sys := mk_sys (pool s) (pds s) (<[i := (h s, sc s)]> (y_ifs y)).

Definition own_if (x : host * if_netmap_softc) : list nat := own x.1 x.2.
Definition slots_of (x : host * if_netmap_softc) : nat := (length (slot (hw_rx_ring x.1)) + length (slot (hw_tx_ring x.1)))%nat.

(** The contexts that are free, in a ring or kept ready by a receive thread. *)
Definition everywhere (y : sys) : list nat := frees (y_pool y) ++ concat (own_if <$> y_ifs y).

(** [U] are the contexts of the pool; as many as the rings have slots and the free list has
    room for. *)
Record safe (U : list nat) (y : sys) : Prop := {
  sf_pool : pool_ok (y_pool y);
  sf_table : ∃ info, pd_pool_table (y_pds y) !! Z.to_nat (pool_id (y_pool y)) = Some (Some info);
  sf_ifs : Forall (λ x, if_ok (y_pds y) (pool_id (y_pool y)) x.1 x.2) (y_ifs y);
  sf_mine : Forall (mine (y_pds y) (pool_id (y_pool y))) U;
  sf_inj : ∀ c c', c ∈ U → c' ∈ U → buf_of (y_pds y) c = buf_of (y_pds y) c' → c = c';
  sf_once : NoDup (everywhere y);
  sf_known : ∀ c, c ∈ everywhere y → c ∈ U;
  sf_count : length U = (length (free_list (y_pool y)) + sum_list (slots_of <$> y_ifs y))%nat }.

(** A context someone else holds: the stack or the application. *)
Definition outstanding (U : list nat) (y : sys) (c : nat) : Prop := c ∈ U ∧ c ∉ everywhere y.

Lemma ifs_split (l : list (host * if_netmap_softc)) i x x' :
  l !! i = Some x → ∃ l1 l2, l = l1 ++ x :: l2 ∧ <[i := x']> l = l1 ++ x' :: l2.
Proof.
  intros Hi. apply list_elem_of_split_length in Hi as (l1 & l2 & -> & ->). exists l1, l2. split; [done|].
  rewrite insert_app_r_alt, Nat.sub_diag by lia. done.
Qed.

(** One interface in the system. *)
Lemma everywhere_split y i x x' p st : y_ifs y !! i = Some x →
  ∃ R, everywhere y ≡ₚ here (focus y x) ++ R
    ∧ ∀ hh xx, x' = (hh, xx) → everywhere (mk_sys p st (<[i := x']> (y_ifs y))) ≡ₚ here (mk_nm hh st p xx) ++ R.
Proof.
  intros Hi. destruct (ifs_split (y_ifs y) i x x' Hi) as (l1 & l2 & E1 & E2). exists (concat (own_if <$> l1) ++ concat (own_if <$> l2)).
  unfold everywhere, here, focus. cbn [y_ifs y_pool pool h sc]. split.
  - rewrite E1, fmap_app, fmap_cons, concat_app. cbn [concat]. unfold own_if at 2. clear. perm_solve.
  - intros hh xx ->. rewrite E2, fmap_app, fmap_cons, concat_app. cbn [concat]. unfold own_if at 2. cbn [fst snd]. clear. perm_solve.
Qed.

Lemma slots_split y i x x' : y_ifs y !! i = Some x → slots_of x' = slots_of x →
  sum_list (slots_of <$> <[i := x']> (y_ifs y)) = sum_list (slots_of <$> y_ifs y).
Proof.
  intros Hi Hs. rewrite list_fmap_insert, Hs. f_equal. apply list_insert_id. rewrite list_lookup_fmap, Hi. done.
Qed.

(** ** The bound on the free list *)

Lemma own_length st id x : if_ok st id x.1 x.2 → (slots_of x <= length (own_if x))%nat.
Proof.
  intros [[_ _ H1] [_ _ H2] _ _ _ _]. unfold own_if, own, ring_ctxs, slots_of. rewrite !length_app.
  rewrite (omap_slots_length _ _ _ H1), (omap_slots_length _ _ _ H2). lia.
Qed.

Lemma concat_own_length st id l : Forall (λ x, if_ok st id x.1 x.2) l → (sum_list (slots_of <$> l) <= length (concat (own_if <$> l)))%nat.
Proof.
  induction 1 as [|x l Hx _ IH]; [done|]. cbn. rewrite length_app. pose proof (own_length _ _ _ Hx). lia.
Qed.

Lemma room U y cs : safe U y → NoDup cs → Forall (outstanding U y) cs →
  num_free (y_pool y) + Z.of_nat (length cs) <= Z.of_nat (length (free_list (y_pool y))).
Proof.
  intros [Hp _ Hif _ _ Honce Hkn Hcnt] Hnd Hout. rewrite Forall_forall in Hout.
  assert (Hsub : cs ++ everywhere y ⊆+ U).
  { apply NoDup_submseteq; [|intros c [Hc|Hc]%elem_of_app; [by apply Hout|by apply Hkn]].
    apply NoDup_app. split_and!; [done| |done]. intros c Hc. by apply Hout. }
  apply submseteq_length in Hsub. unfold everywhere in Hsub. rewrite !length_app in Hsub.
  pose proof (concat_own_length _ _ _ Hif). destruct Hp as [Hf _ _]. unfold frees in Hsub. rewrite length_take in Hsub. lia.
Qed.

(** ** Effects *)

(** A change by one interface: [inn] came in, [out] went out. *)
Lemma effect_safe U y i x s' inn out :
  safe U y → y_ifs y !! i = Some x →
  keeps (y_pds y) (pds s') → pool_ok (pool s') → pool_id (pool s') = pool_id (y_pool y) →
  length (free_list (pool s')) = length (free_list (y_pool y)) → if_ok (pds s') (pool_id (y_pool y)) (h s') (sc s') →
  slots_of (h s', sc s') = slots_of x → NoDup inn → Forall (outstanding U y) inn →
  out ++ here s' ≡ₚ inn ++ here (focus y x) → safe U (put y i s').
Proof.
  intros [Hp Ht Hif Hmi Hinj Honce Hkn Hcnt] Hi Hk Hp' Hid Hfl Hok Hsl Hnd Hin Hperm.
  destruct (everywhere_split y i x (h s', sc s') (pool s') (pds s') Hi) as (R & HR & HR').
  specialize (HR' _ _ eq_refl). replace (mk_nm (h s') (pds s') (pool s') (sc s')) with s' in HR' by (by destruct s').
  assert (Hall : out ++ everywhere (put y i s') ≡ₚ inn ++ everywhere y).
  { unfold put. rewrite HR', HR. clear - Hperm. perm_solve. }
  rewrite Forall_forall in Hin.
  assert (Hnd' : NoDup (inn ++ everywhere y)) by (apply NoDup_app; split_and!; [done|intros c Hc; by apply Hin|done]).
  rewrite <- Hall in Hnd'. split; cbn [put y_pool y_pds y_ifs]; rewrite ?Hid.
  - done.
  - destruct Ht as [info Ht]. exists info. by rewrite (kp_pools _ _ Hk).
  - apply Forall_insert; [|done]. apply (Forall_impl _ _ _ Hif). intros z. by apply if_ok_keeps.
  - apply (Forall_impl _ _ _ Hmi). intros c. by apply keeps_mine.
  - intros c c' Hc Hc'. rewrite !(keeps_buf _ _ _ Hk). by apply Hinj.
  - by apply NoDup_app in Hnd' as (_ & _ & ?).
  - intros c Hc. assert (Hc' : c ∈ inn ++ everywhere y) by (rewrite <- Hall; apply elem_of_app; by right).
    apply elem_of_app in Hc' as [Hc'|Hc']; [by apply Hin|by apply Hkn].
  - rewrite Hfl, (slots_split _ _ _ _ Hi Hsl). done.
Qed.

Section Steps.

Context (NETMAP_BUF : Z → Z) (nm_ring_next : netmap_ring → Z → Z) (kern_rx kern_tx : netmap_ring → netmap_ring) (pkthdr_error : Z).
Context (Hnext : ∀ r i, 0 <= i < num_slots r → nm_ring_next r i = if i + 1 =? num_slots r then 0 else i + 1).

(** What the kernel and the other threads leave alone of a ring: its size and which buffer
    and context are in which slot. *)
Record same_slots (r r' : netmap_ring) : Prop := {
  ss_num : num_slots r' = num_slots r;
  ss_size : nr_buf_size r' = nr_buf_size r;
  ss_slots : (λ x, (buf_idx x, s_ptr x)) <$> slot r' = (λ x, (buf_idx x, s_ptr x)) <$> slot r }.

(** The kernel's synchronisation of a ring: lengths and flags of slots, and the ring's tail. *)
Context (Hkrx : ∀ r, same_slots r (kern_rx r)) (Hktx : ∀ r, same_slots r (kern_tx r)).

(** What an interface does: a batch of zero-copy input, one injected descriptor, the return
    of descriptors and of mbufs, descriptors for the application, and the calls of the
    kernel. *)
Inductive action : Type :=
| Receive (batch curslot : Z) | Send (pd : uinet_pd) (v : txv) | Recycle (cs : list nat) | Free (c : nat)
| Alloc (pkts : uinet_pd_list) | RxSync (err c : Z) | TxSync (err c : Z).

Definition act (a : action) : N unit :=
  match a with
  | Receive batch cs => _ ← receive NETMAP_BUF nm_ring_next batch cs; mret ()
  | Send pd v => _ ← tx_one NETMAP_BUF nm_ring_next pd v; mret ()
  | Recycle cs => if_netmap_pd_pool_free pkthdr_error cs
  | Free c => if_netmap_free pkthdr_error c
  | Alloc pkts => _ ← if_netmap_pd_alloc_user NETMAP_BUF pkts; mret ()
  | RxSync err c => _ ← on_h (if_netmap_rxsync kern_rx err (Some c) None); mret ()
  | TxSync err c => _ ← on_h (if_netmap_txsync kern_tx err (Some c)); mret ()
  end.

(** A descriptor the sender may inject: one of the pool, or another with its packet in
    memory. *)
Definition sendable (U : list nat) (y : sys) (s : nm) (pd : uinet_pd) (v : txv) : Prop :=
  (∃ c, pd_ok (y_pds y) (pool_id (y_pool y)) pd ∧ pd_ctx pd = Some c ∧ c ∈ U)
  ∨ ((uinet_pd_type pd ≠ UINET_PD_TYPE_NETMAP ∨ pd_pool_id pd ≠ pool_id (y_pool y))
     ∧ ∃ x b1 b2, slot (hw_tx_ring (h s)) !! Z.to_nat (v_curslot v) = Some x ∧ mem (h s) !! pd_data pd = Some b1
         ∧ pd_length pd <= Z.of_nat (length b1) ∧ mem (h s) !! NETMAP_BUF (buf_idx x) = Some b2 ∧ pd_length pd <= Z.of_nat (length b2)).

(** The contexts of the pool that an action gives to the driver. *)
Definition given (y : sys) (a : action) : list nat :=
  match a with
  | Send pd _ =>
      if (uinet_pd_type pd =? UINET_PD_TYPE_NETMAP) && (pd_pool_id pd =? pool_id (y_pool y)) then option_list (pd_ctx pd) else []
  | Recycle cs => cs
  | Free c => [c]
  | _ => []
  end.

(** Whoever gives contexts to the driver holds the only reference to each: none is given
    twice, is free, or is in a ring already.  (The packet descriptors also allow a
    descriptor with extra references to be injected into several interfaces; such a
    context is in several rings.) *)
Definition exclusive (y : sys) (a : action) : Prop :=
  NoDup (given y a) ∧ ∀ c, c ∈ given y a → c ∉ everywhere y.

(** When an action may be taken. *)
Definition may (U : list nat) (y : sys) (s : nm) (a : action) : Prop :=
  match a with
  | Receive batch cs => 0 <= batch <= rx_batch_size (sc s) ∧ 0 <= cs < num_slots (hw_rx_ring (h s))
  | Send pd v => 0 <= v_curslot v < num_slots (hw_tx_ring (h s)) ∧ Z.of_nat (length (v_free v)) < pdctx_to_free_size (sc s)
      ∧ has_flag (pd_flags pd) UINET_PD_MGMT_ONLY = false ∧ 0 <= pd_length pd <= nr_buf_size (hw_tx_ring (h s)) ∧ sendable U y s pd v
  | Recycle cs => cs ≠ [] ∧ Forall (.∈ U) cs
  | Free c => c ∈ U
  | Alloc pkts => 0 <= num_descs pkts <= Z.of_nat (length (descs pkts))
  | RxSync _ _ | TxSync _ _ => True
  end.

Lemma same_slots_ring st id r r' : same_slots r r' → ring_ok st id r → ring_ok st id r' ∧ ring_ctxs r' = ring_ctxs r ∧ length (slot r') = length (slot r).
Proof.
  intros [H1 H2 H3] [Hs Hl Hf]. assert (Hlen : length (slot r') = length (slot r)).
  { apply (f_equal length) in H3. by rewrite !length_fmap in H3. }
  split_and!; [|unfold ring_ctxs|done].
  - split; [by rewrite H1|by rewrite H1, Hlen|]. clear - H3 Hf. revert H3 Hf. generalize (slot r) (slot r').
    intros l l'. revert l. induction l' as [|x' l' IH]; intros [|x l] H3 Hf; try done.
    apply Forall_cons in Hf as [(c & Hc1 & Hc2 & Hc3) Hf]. injection H3 as E1 E2 E3. apply Forall_cons. split; [|by apply (IH l)].
    exists c. by rewrite E1, E2.
  - clear - H3. revert H3. generalize (slot r) (slot r'). intros l l'. revert l. induction l' as [|x' l' IH]; intros [|x l] H3; try done.
    injection H3 as E1 E2 E3. cbn. rewrite E2, (IH l) by done. done.
Qed.

Lemma rings_ok st id hh hh' x :
  if_ok st id hh x → same_slots (hw_rx_ring hh) (hw_rx_ring hh') → same_slots (hw_tx_ring hh) (hw_tx_ring hh') →
  if_ok st id hh' x ∧ own hh' x = own hh x ∧ slots_of (hh', x) = slots_of (hh, x).
Proof.
  intros [H1 H2 H3 H4 H5 H6] Hrx Htx. destruct (same_slots_ring _ _ _ _ Hrx H1) as (R1 & R2 & R3).
  destruct (same_slots_ring _ _ _ _ Htx H2) as (T1 & T2 & T3). split_and!; [by split| |].
  - unfold own. by rewrite R2, T2.
  - unfold slots_of. cbn [fst]. by rewrite R3, T3.
Qed.

Lemma ring_length st id r : ring_ok st id r → length (slot r) = Z.to_nat (num_slots r).
Proof. intros [_ H _]. lia. Qed.

Lemma slots_same st id st' id' hh x hh' x' :
  if_ok st id hh x → if_ok st' id' hh' x' → num_slots (hw_rx_ring hh') = num_slots (hw_rx_ring hh) →
  num_slots (hw_tx_ring hh') = num_slots (hw_tx_ring hh) → slots_of (hh', x') = slots_of (hh, x).
Proof.
  intros [R1 T1 _ _ _ _] [R2 T2 _ _ _ _] Hr Ht. unfold slots_of. cbn [fst].
  by rewrite (ring_length _ _ _ R1), (ring_length _ _ _ T1), (ring_length _ _ _ R2), (ring_length _ _ _ T2), Hr, Ht.
Qed.

(** An action that may be taken is carried out, and the system is safe after it. *)
Lemma act_safe U y i x a :
  safe U y → y_ifs y !! i = Some x → may U y (focus y x) a → exclusive y a → ∃ s', act a (focus y x) = Ok (tt, s') ∧ safe U (put y i s').
Proof.
  intros Hs Hi Hm [Hx1 Hx2]. pose proof Hs as [Hp Ht Hif Hmi Hinj Honce Hkn Hcnt]. destruct x as [hh x].
  assert (Hok : if_ok (y_pds y) (pool_id (y_pool y)) hh x) by (rewrite Forall_lookup in Hif; by apply (Hif i (hh, x))).
  assert (Hmine : ∀ c, outstanding U y c → mine (y_pds y) (pool_id (y_pool y)) c).
  { intros c [Hc _]. rewrite Forall_forall in Hmi. by apply Hmi. }
  assert (Hhere : Forall (mine (y_pds y) (pool_id (y_pool y))) (here (focus y (hh, x)))).
  { destruct (everywhere_split y i (hh, x) (hh, x) (y_pool y) (y_pds y) Hi) as (R & HR & _). apply Forall_forall. intros c Hc. rewrite Forall_forall in Hmi.
    apply Hmi, Hkn. rewrite HR. apply elem_of_app. by left. }
  pose proof (λ s' inn out, effect_safe U y i (hh, x) s' inn out Hs Hi) as Heff. cbn [focus pds pool h sc fst snd] in *.
  destruct a as [batch cs|pd v|cs|c|pkts|err c|err c]; cbn [may act] in *.
  - destruct Hm as [Hb Hcs]. destruct (receive_spec NETMAP_BUF nm_ring_next Hnext (focus y (hh, x)) batch cs Hp Hok Hhere Hb Hcs)
      as (r & s' & l & Hrun & Hpds & Hif' & Hp' & Hid & Hfl & Hn1 & Hn2 & _ & _ & Hperm).
    exists s'. split; [by rewrite (M_bind_Ok _ _ _ _ _ Hrun)|]. cbn in Hpds, Hfl, Hn1, Hn2.
    apply (Heff s' [] (ctxs_of l)); rewrite ?Hpds, ?Hfl; try done; auto using NoDup_nil_2.
    apply (slots_same _ _ _ _ _ _ _ _ Hok Hif'); [done|by rewrite Hn2].
  - destruct Hm as (Hcs & Hv & Hfl & Hlen & [(c & Hpd & Hc & HcU)|[Hother (sl & b1 & b2 & Hsl & Hb1 & Hl1 & Hb2 & Hl2)]]).
    + assert (Hout : outstanding U y c).
      { split; [done|]. apply Hx2. unfold given. destruct Hpd as (? & _ & _ & _ & -> & ->). rewrite !Z.eqb_refl, Hc. cbn. set_solver. }
      destruct (tx_one_exchange NETMAP_BUF nm_ring_next Hnext (focus y (hh, x)) pd c v Hp Hok Hcs Hv Hpd Hc Hfl (proj2 Hlen))
        as (v' & old & r' & Hrun & _ & Hif' & Hn & _ & _ & _ & Hperm).
      eexists. split; [by rewrite (M_bind_Ok _ _ _ _ _ Hrun)|].
      apply (Heff _ [c] [old]); try done; [by apply (slots_same _ _ _ _ _ _ _ _ Hok Hif')|apply NoDup_singleton|by apply Forall_singleton].
    + destruct (tx_one_copy NETMAP_BUF nm_ring_next Hnext (focus y (hh, x)) pd v b1 b2 sl Hok Hcs Hv Hother Hfl Hlen Hsl Hb1 Hl1 Hb2 Hl2)
        as (v' & r' & Hrun & _ & Hif' & Hn & _ & _ & Hsame).
      eexists. split; [by rewrite (M_bind_Ok _ _ _ _ _ Hrun)|].
      apply (Heff _ [] []); try done; [by apply (slots_same _ _ _ _ _ _ _ _ Hok Hif')|constructor|by rewrite Hsame].
  - destruct Hm as (Hne & HU). destruct Ht as [info Ht]. pose proof Hx1 as Hnd.
    assert (Hout : Forall (outstanding U y) cs).
    { rewrite Forall_forall in HU |- *. intros c Hc. split; [by apply HU|by apply Hx2]. }
    assert (Hcm : Forall (mine (y_pds y) (pool_id (y_pool y))) cs) by (by apply (Forall_impl _ _ _ Hout)).
    destruct (pd_pool_free_spec pkthdr_error (focus y (hh, x)) cs info Hp Hcm Hne Ht (room U y cs Hs Hnd Hout)) as (s' & Hrun & Hk & Hh & Hsc & Hp' & Hid & Hfl & Hperm).
    exists s'. split; [done|]. cbn in Hh, Hsc. apply (Heff s' cs []); rewrite ?Hh, ?Hsc; try done; auto. by apply (if_ok_keeps (y_pds y)).
  - assert (Ho : outstanding U y c) by (split; [done|apply Hx2; cbn; set_solver]). clear Hm. rename Ho into Hm.
    assert (Hroom : num_free (y_pool y) + 1 <= Z.of_nat (length (free_list (y_pool y)))).
    { apply (room U y [c] Hs); [apply NoDup_singleton|by apply Forall_singleton]. }
    destruct (netmap_free_spec pkthdr_error (focus y (hh, x)) c Hp (Hmine c Hm) Hroom) as (s' & Hrun & Hk & Hh & Hsc & Hp' & Hid & Hfl & Hperm).
    exists s'. split; [done|]. cbn in Hh, Hsc. apply (Heff s' [c] []); rewrite ?Hh, ?Hsc; try done; [by apply (if_ok_keeps (y_pds y))|by apply Forall_singleton].
  - assert (Hfm : Forall (mine (y_pds y) (pool_id (y_pool y))) (frees (y_pool y))) by (unfold here in Hhere; by apply Forall_app in Hhere as [? _]).
    destruct (alloc_user_spec NETMAP_BUF (focus y (hh, x)) pkts Hp Hfm Hm) as (pk' & s' & Hrun & Hpds & Hh & Hsc & Hp' & Hid & Hfl & _ & _ & Hperm).
    exists s'. split; [by rewrite (M_bind_Ok _ _ _ _ _ Hrun)|]. cbn in Hh, Hsc, Hpds, Hfl.
    apply (Heff s' [] (ctxs_of (take (Z.to_nat (num_descs pk')) (descs pk')))); rewrite ?Hh, ?Hsc, ?Hpds, ?Hfl; try done; auto using NoDup_nil_2.
  - set (r := kern_rx (with_cur c c (hw_rx_ring hh))). assert (Hss : same_slots (hw_rx_ring hh) r) by (by destruct (Hkrx (with_cur c c (hw_rx_ring hh)))).
    destruct (rings_ok _ _ hh (set_rx r hh) x Hok Hss) as (Hif' & Hown & Hsl); [done|].
    exists (focus y (set_rx r hh, x)). split; [done|]. apply (Heff _ [] []); try done; auto using NoDup_nil_2.
    unfold here. cbn. by rewrite Hown.
  - set (r := kern_tx (with_cur c c (hw_tx_ring hh))). assert (Hss : same_slots (hw_tx_ring hh) r) by (by destruct (Hktx (with_cur c c (hw_tx_ring hh)))).
    destruct (rings_ok _ _ hh (set_tx r hh) x Hok) as (Hif' & Hown & Hsl); [done|done|].
    exists (focus y (set_tx r hh, x)). split; [done|]. apply (Heff _ [] []); try done; auto using NoDup_nil_2.
    unfold here. cbn. by rewrite Hown.
Qed.

End Steps.

End NetmapSafe.
