(* ===== verification/NetmapInit.v ===== *)
(** Setting up the pool and the rings of a netmap interface (Netmap.v): afterwards every slot
    and every extra buffer has a context of its own. *)
From stdpp Require Import gmultiset.
From S2P Require Import Prelude PktDesc PktDescPool DpdkRx NmRing Netmap NetmapSpec NetmapSafe.
Import PktDesc PktDescPool NmRing Netmap NetmapSpec NetmapSafe.
#[local] Open Scope Z_scope.

Module NetmapInit.

Section Init.

Context (NETMAP_BUF : Z → Z) (nm_ring_next : netmap_ring → Z → Z) (builtin_refcnt : nat → nat) (m_gethdr : nat → option nat).
Context (Hnext : ∀ r i, 0 <= i < num_slots r → nm_ring_next r i = if i + 1 =? num_slots r then 0 else i + 1).

(** ** One context *)

(** The contexts outside [cs] are as they were. *)
Record keeps_but (cs : list nat) (st st' : store) : Prop := {
  kb_ctxs : ∀ c, c ∉ cs → ctxs st' !! c = ctxs st !! c;
  kb_mbufs : ∀ i, is_Some (mbufs st !! i) → is_Some (mbufs st' !! i);
  kb_pools : pd_pool_table st' = pd_pool_table st }.

Lemma keeps_but_refl st : keeps_but [] st st.
Proof. by split. Qed.

Lemma keeps_but_trans cs cs' st1 st2 st3 : keeps_but cs st1 st2 → keeps_but cs' st2 st3 → keeps_but (cs ++ cs') st1 st3.
Proof.
  intros [A1 A2 A3] [B1 B2 B3]. split; [|auto|congruence]. intros c Hc. rewrite not_elem_of_app in Hc. rewrite B1, A1; tauto.
Qed.

Lemma keeps_but_mine cs st st' id c : keeps_but cs st st' → c ∉ cs → mine st id c → mine st' id c ∧ buf_of st' c = buf_of st c.
Proof.
  intros [A1 A2 _] Hc (k & i & Hk & H1 & H2 & H3 & H4). unfold buf_of. rewrite (A1 c Hc). split; [|done].
  exists k, i. rewrite (A1 c Hc). auto 10.
Qed.

(** Memory for a context, and an mbuf for it. *)
Definition fresh_ctx (st : store) (c : nat) : Prop :=
  is_Some (ctxs st !! c) ∧ ∃ i, m_gethdr c = Some i ∧ is_Some (mbufs st !! i).

Lemma keeps_but_fresh cs st st' c : keeps_but cs st st' → c ∉ cs → fresh_ctx st c → fresh_ctx st' c.
Proof. intros [A1 A2 _] Hc [[k Hk] (i & Hi & Hb)]. split; [rewrite (A1 c Hc); by eexists|]. exists i. auto. Qed.

Lemma ctx_init_spec st id c idx buf :
  fresh_ctx st c → 0 <= id < 2 ^ 16 → 0 <= idx < 2 ^ 32 →
  ∃ st', if_netmap_pd_ctx_init 0 builtin_refcnt m_gethdr id c idx buf st = Ok (0, st')
    ∧ mine st' id c ∧ buf_of st' c = idx ∧ keeps_but [c] st st'.
Proof.
  intros [[k Hk] (i & Hi & [b Hb])] Hid Hidx. unfold if_netmap_pd_ctx_init. rewrite Hi.
  rewrite (M_bind_Ok _ _ _ (c, k) st) by (unfold ctx_load; by rewrite Hk). cbv beta iota.
  erewrite M_bind_Ok by reflexivity. erewrite M_bind_Ok by reflexivity.
  erewrite M_bind_Ok by (unfold mbuf_load; cbn; by rewrite Hb). cbv beta iota. erewrite M_bind_Ok by reflexivity.
  unfold DpdkRx.m_extadd. rewrite <- M_bind_assoc.
  erewrite M_bind_Ok by (unfold mbuf_load; cbn; rewrite lookup_insert_eq; reflexivity). cbv beta iota. rewrite <- M_bind_assoc.
  erewrite M_bind_Ok by reflexivity. erewrite M_bind_Ok by reflexivity. unfold if_netmap_pd_ctx_init_mutables.
  erewrite M_bind_Ok by (unfold ctx_load; cbn; rewrite lookup_insert_eq; reflexivity). cbv beta iota.
  erewrite M_bind_Ok by (unfold mbuf_load; cbn; rewrite lookup_insert_eq; reflexivity). cbv beta iota.
  change (negb (0 =? 0)) with false. cbv iota. erewrite M_bind_Ok by reflexivity. erewrite M_bind_Ok by reflexivity.
  eexists. split; [reflexivity|]. rewrite (wrap_u_id 16 id) by done. split_and!.
  - eexists _, i. cbn. rewrite lookup_insert_eq. split; [reflexivity|split; [done|split; [done|split; [done|]]]]. apply lookup_insert_is_Some'. by left.
  - unfold buf_of. cbn. by rewrite lookup_insert_eq.
  - split; [|intros j Hj; cbn; rewrite !lookup_insert_is_Some'; tauto|done].
    intros c' Hc'. rewrite list_elem_of_singleton in Hc'. cbn. by rewrite !lookup_insert_ne.
Qed.

(** ** The rings *)

Fixpoint give (c : nat) (l : list netmap_slot) : list netmap_slot :=
  match l with
  | [] => []
  | x :: l => mk_slot (buf_idx x) (s_len x) (s_flags x) (Some c) :: give (S c) l
  end.

Lemma give_length c l : length (give c l) = length l.
Proof. revert c. induction l; intros; cbn; auto. Qed.
Lemma give_ctxs c l : omap s_ptr (give c l) = seq c (length l).
Proof. revert c. induction l; intros; cbn; [done|]. by f_equal. Qed.
Lemma give_bufs c l : buf_idx <$> give c l = buf_idx <$> l.
Proof. revert c. induction l as [|x l IH]; intros; cbn; [done|]. f_equal. apply IH. Qed.

(** The slots [l] with the contexts from [c] on. *)
Lemma give_ok st id l : ∀ c,
  (∀ j x, l !! j = Some x → mine st id (c + j) ∧ buf_of st (c + j)%nat = buf_idx x) → Forall (slot_ok st id) (give c l).
Proof.
  induction l as [|x l IH]; intros c Hl; [constructor|]. cbn. constructor.
  - exists c. destruct (Hl 0%nat x eq_refl) as [H1 H2]. rewrite Nat.add_0_r in H1, H2. done.
  - apply IH. intros j y Hj. specialize (Hl (S j) y Hj). by rewrite Nat.add_succ_r in Hl.
Qed.

Lemma rxring_loop_spec post : ∀ pre c s,
  let r := hw_rx_ring (h s) in let id := pool_id (pool s) in
  slot r = pre ++ post → num_slots r = Z.of_nat (length (slot r)) → 0 <= id < 2 ^ 16 → NoDup (seq c (length post)) →
  Forall (fresh_ctx (pds s)) (seq c (length post)) → Forall (λ x, 0 <= buf_idx x < 2 ^ 32) post →
  ∃ st', rxring_loop NETMAP_BUF nm_ring_next 0 builtin_refcnt m_gethdr (length post) c (Z.of_nat (length pre)) s
      = Ok ((0, buf_idx <$> post), mk_nm (set_rx (with_slot (pre ++ give c post) r) (h s)) st' (pool s) (sc s))
    ∧ keeps_but (seq c (length post)) (pds s) st'
    ∧ ∀ j x, post !! j = Some x → mine st' id (c + j) ∧ buf_of st' (c + j)%nat = buf_idx x.
Proof.
  induction post as [|x post IH]; intros pre c s r id Hsl Hn Hid Hnd Hfr Hbuf.
  { exists (pds s). split; [|split; [apply keeps_but_refl|done]]. cbn. rewrite <- Hsl. by destruct s as [[[] ] ]. }
  cbn [length seq] in *. apply NoDup_cons in Hnd as [Hni Hnd]. apply Forall_cons in Hfr as [Hc Hfr]. apply Forall_cons in Hbuf as [Hx Hbuf].
  assert (Hat : slot_at r (Z.of_nat (length pre)) = Ok x).
  { unfold slot_at. rewrite Nat2Z.id, Hsl, list_lookup_middle by done. done. }
  destruct (ctx_init_spec (pds s) id c (buf_idx x) (NETMAP_BUF (buf_idx x)) Hc Hid Hx) as (st1 & Hi & Hm & Hb & Hkb).
  cbn [rxring_loop]. rewrite (M_bind_Ok _ _ _ _ _ (on_h_read _ _ _ (rxslot_Ok NETMAP_BUF _ _ _ Hat))). cbv beta iota.
  erewrite M_bind_Ok by reflexivity. rewrite (M_bind_Ok _ _ _ _ _ (on_pds_Ok _ _ _ _ Hi)). cbn [Z.eqb negb].
  set (r1 := with_slot (pre ++ mk_slot (buf_idx x) (s_len x) (s_flags x) (Some c) :: post) r).
  erewrite (M_bind_Ok (on_h (if_netmap_rxsetslotptr _ _))).
  2: { apply (on_h_Ok _ (set_pds st1 s) _ (set_rx r1 (h s))). unfold if_netmap_rxsetslotptr. erewrite M_bind_Ok by reflexivity.
       cbn [h set_pds]. fold r. rewrite Hat. erewrite M_bind_Ok by reflexivity. unfold modify, r1. rewrite Hsl, Nat2Z.id.
       by rewrite insert_app_r_alt, Nat.sub_diag by lia. }
  assert (Hlen : length (slot r) = (length pre + S (length post))%nat) by (rewrite Hsl, length_app; done).
  erewrite (M_bind_Ok (on_h (if_netmap_rxslotnext _ _))) by (apply on_h_read; reflexivity).
  set (s1 := set_h _ _).
  destruct post as [|y post].
  { cbn [rxring_loop length]. erewrite M_bind_Ok by reflexivity. exists st1. split; [done|]. split; [done|].
    intros [|j] z Hz; [|done]. injection Hz as <-. by rewrite Nat.add_0_r. }
  destruct (IH (pre ++ [mk_slot (buf_idx x) (s_len x) (s_flags x) (Some c)]) (S c) s1) as (st' & Hrun & Hkb' & Hall).
  - cbn. by rewrite <- app_assoc.
  - cbn. rewrite Hn, Hlen, length_app. cbn. lia.
  - done.
  - done.
  - apply Forall_forall. intros c' Hc'. rewrite Forall_forall in Hfr. apply (keeps_but_fresh [c] (pds s)); [done| |by apply Hfr].
    rewrite list_elem_of_singleton. intros ->. done.
  - done.
  - change (hw_rx_ring (h s1)) with r1 in Hrun. assert (Hnx : nm_ring_next r1 (Z.of_nat (length pre)) = Z.of_nat (length (pre ++ [mk_slot (buf_idx x) (s_len x) (s_flags x) (Some c)]))).
    { rewrite Hnext by (cbn; lia). rewrite length_app. cbn in *. destruct (_ =? num_slots r) eqn:E; bool_to_prop; lia. }
    cbn [h set_h set_pds s1 hw_rx_ring set_rx] in *. rewrite Hnx, (M_bind_Ok _ _ _ _ _ Hrun). exists st'. split; [|split].
    + cbn. rewrite <- app_assoc. done.
    + change (c :: seq (S c) (length (y :: post))) with ([c] ++ seq (S c) (length (y :: post))). by eapply keeps_but_trans.
    + intros [|j] z Hz.
      * injection Hz as <-. rewrite Nat.add_0_r. rewrite <- Hb. by eapply keeps_but_mine.
      * rewrite Nat.add_succ_r. by apply (Hall j).
Qed.

Lemma txring_loop_spec post : ∀ pre c s,
  let r := hw_tx_ring (h s) in let id := pool_id (pool s) in
  slot r = pre ++ post → num_slots r = Z.of_nat (length (slot r)) → 0 <= id < 2 ^ 16 → NoDup (seq c (length post)) →
  Forall (fresh_ctx (pds s)) (seq c (length post)) → Forall (λ x, 0 <= buf_idx x < 2 ^ 32) post →
  ∃ st', txring_loop NETMAP_BUF nm_ring_next 0 builtin_refcnt m_gethdr (length post) c (Z.of_nat (length pre)) s
      = Ok ((0, buf_idx <$> post), mk_nm (set_tx (with_slot (pre ++ give c post) r) (h s)) st' (pool s) (sc s))
    ∧ keeps_but (seq c (length post)) (pds s) st'
    ∧ ∀ j x, post !! j = Some x → mine st' id (c + j) ∧ buf_of st' (c + j)%nat = buf_idx x.
Proof.
  induction post as [|x post IH]; intros pre c s r id Hsl Hn Hid Hnd Hfr Hbuf.
  { exists (pds s). split; [|split; [apply keeps_but_refl|done]]. cbn. rewrite <- Hsl. by destruct s as [[? [] ?]]. }
  cbn [length seq] in *. apply NoDup_cons in Hnd as [Hni Hnd]. apply Forall_cons in Hfr as [Hc Hfr]. apply Forall_cons in Hbuf as [Hx Hbuf].
  assert (Hat : slot_at r (Z.of_nat (length pre)) = Ok x).
  { unfold slot_at. rewrite Nat2Z.id, Hsl, list_lookup_middle by done. done. }
  destruct (ctx_init_spec (pds s) id c (buf_idx x) (NETMAP_BUF (buf_idx x)) Hc Hid Hx) as (st1 & Hi & Hm & Hb & Hkb).
  cbn [txring_loop]. rewrite (M_bind_Ok _ _ _ _ _ (on_h_read _ _ _ (txslot_Ok NETMAP_BUF _ _ _ Hat))). cbv beta iota.
  erewrite M_bind_Ok by reflexivity. rewrite (M_bind_Ok _ _ _ _ _ (on_pds_Ok _ _ _ _ Hi)). cbn [Z.eqb negb].
  set (r1 := with_slot (pre ++ mk_slot (buf_idx x) (s_len x) (s_flags x) (Some c) :: post) r).
  erewrite (M_bind_Ok (on_h (if_netmap_txsetslotptr _ _))).
  2: { apply (on_h_Ok _ (set_pds st1 s) _ (set_tx r1 (h s))). unfold if_netmap_txsetslotptr. erewrite M_bind_Ok by reflexivity.
       cbn [h set_pds]. fold r. rewrite Hat. erewrite M_bind_Ok by reflexivity. unfold modify, r1. rewrite Hsl, Nat2Z.id.
       by rewrite insert_app_r_alt, Nat.sub_diag by lia. }
  assert (Hlen : length (slot r) = (length pre + S (length post))%nat) by (rewrite Hsl, length_app; done).
  erewrite (M_bind_Ok (on_h (if_netmap_txslotnext _ _))) by (apply on_h_read; reflexivity).
  set (s1 := set_h _ _).
  destruct post as [|y post].
  { cbn [txring_loop length]. erewrite M_bind_Ok by reflexivity. exists st1. split; [done|]. split; [done|].
    intros [|j] z Hz; [|done]. injection Hz as <-. by rewrite Nat.add_0_r. }
  destruct (IH (pre ++ [mk_slot (buf_idx x) (s_len x) (s_flags x) (Some c)]) (S c) s1) as (st' & Hrun & Hkb' & Hall).
  - cbn. by rewrite <- app_assoc.
  - cbn. rewrite Hn, Hlen, length_app. cbn. lia.
  - done.
  - done.
  - apply Forall_forall. intros c' Hc'. rewrite Forall_forall in Hfr. apply (keeps_but_fresh [c] (pds s)); [done| |by apply Hfr].
    rewrite list_elem_of_singleton. intros ->. done.
  - done.
  - change (hw_tx_ring (h s1)) with r1 in Hrun. assert (Hnx : nm_ring_next r1 (Z.of_nat (length pre)) = Z.of_nat (length (pre ++ [mk_slot (buf_idx x) (s_len x) (s_flags x) (Some c)]))).
    { rewrite Hnext by (cbn; lia). rewrite length_app. cbn in *. destruct (_ =? num_slots r) eqn:E; bool_to_prop; lia. }
    cbn [h set_h set_pds s1 hw_tx_ring set_tx] in *. rewrite Hnx, (M_bind_Ok _ _ _ _ _ Hrun). exists st'. split; [|split].
    + cbn. rewrite <- app_assoc. done.
    + change (c :: seq (S c) (length (y :: post))) with ([c] ++ seq (S c) (length (y :: post))). by eapply keeps_but_trans.
    + intros [|j] z Hz.
      * injection Hz as <-. rewrite Nat.add_0_r. rewrite <- Hb. by eapply keeps_but_mine.
      * rewrite Nat.add_succ_r. by apply (Hall j).
Qed.

(** ** The pool *)

(** The buffers [l] as the kernel hands them over: the first has index [i], each names the
    next. *)
Fixpoint chained (m : gmap Z (list Z)) (i : Z) (l : list Z) : Prop :=
  match l with
  | [] => True
  | a :: l => i = a ∧ a ≠ 0 ∧ ∃ b, m !! NETMAP_BUF a = Some b ∧ (4 <= length b)%nat ∧ chained m (le32 (take 4 b)) l
  end.

Lemma get_next_Ok hh a b : mem hh !! NETMAP_BUF a = Some b → (4 <= length b)%nat →
  if_netmap_buffer_get_next NETMAP_BUF a hh = Ok (le32 (take 4 b), hh).
Proof.
  intros Hb Hl. unfold if_netmap_buffer_get_next, read, load, if_netmap_buffer_address. rewrite <- !M_bind_assoc.
  erewrite M_bind_Ok by reflexivity. rewrite Hb. erewrite M_bind_Ok by reflexivity.
  rewrite (proj2 (Z.leb_le 4 _)) by lia. done.
Qed.

Lemma extra_loop_spec l : ∀ c i s,
  let id := pool_id (pool s) in
  chained (mem (h s)) i l → 0 <= id < 2 ^ 16 → Forall (fresh_ctx (pds s)) (seq c (length l)) → Forall (λ a, 0 <= a < 2 ^ 32) l →
  ∃ st', extra_loop NETMAP_BUF 0 builtin_refcnt m_gethdr (length l) c i s = Ok ((0, l), set_pds st' s)
    ∧ keeps_but (seq c (length l)) (pds s) st'
    ∧ ∀ j a, l !! j = Some a → mine st' id (c + j) ∧ buf_of st' (c + j)%nat = a.
Proof.
  induction l as [|a l IH]; intros c i s id Hch Hid Hfr Hr.
  { exists (pds s). split; [by destruct s|]. split; [apply keeps_but_refl|done]. }
  cbn [length seq chained] in *. destruct Hch as (-> & Ha0 & b & Hb & Hlb & Hch).
  apply Forall_cons in Hfr as [Hc Hfr]. apply Forall_cons in Hr as [Ha Hr].
  destruct (ctx_init_spec (pds s) id c a (if_netmap_buffer_address NETMAP_BUF a) Hc Hid Ha) as (st1 & Hi & Hm & Hbuf & Hkb).
  cbn [extra_loop]. rewrite (proj2 (Z.eqb_neq _ _) Ha0). erewrite M_bind_Ok by reflexivity.
  rewrite (M_bind_Ok _ _ _ _ _ (on_pds_Ok _ _ _ _ Hi)). cbn [Z.eqb negb].
  rewrite (M_bind_Ok _ _ (set_pds st1 s) _ _ (on_h_read _ (set_pds st1 s) _ (get_next_Ok _ _ _ Hb Hlb))).
  destruct (IH (S c) (le32 (take 4 b)) (set_pds st1 s)) as (st' & Hrun & Hkb' & Hall); [done|done| |done|].
  { apply Forall_forall. intros c' Hc'. rewrite Forall_forall in Hfr. apply (keeps_but_fresh [c] (pds s)); [done| |by apply Hfr].
    rewrite list_elem_of_singleton. intros ->. apply elem_of_seq in Hc'. lia. }
  rewrite (M_bind_Ok _ _ _ _ _ Hrun). exists st'. split; [done|]. split.
  - change (c :: seq (S c) (length l)) with ([c] ++ seq (S c) (length l)). by eapply keeps_but_trans.
  - intros [|j] z Hz.
    + injection Hz as <-. rewrite Nat.add_0_r. rewrite <- Hbuf. eapply keeps_but_mine; [done| |done].
      intros Hin. apply elem_of_seq in Hin. lia.
    + rewrite Nat.add_succ_r. by apply (Hall j).
Qed.

(** The pool with its extra buffers, before any ring. *)
Lemma pool_init_spec base bufsize l s k :
  pd_pool_table (pds s) !! k = Some None → (length (pd_pool_table (pds s)) <= 32)%nat →
  chained (mem (h s)) (ni_bufs_head (h s)) l → Forall (fresh_ctx (pds s)) (seq base (length l)) →
  Forall (λ a, 0 <= a < 2 ^ 32) l → NoDup l → Z.of_nat (length l) < 2 ^ 31 →
  ∃ s', if_netmap_pd_ctx_pool_init NETMAP_BUF 0 builtin_refcnt m_gethdr base bufsize (Z.of_nat (length l)) s = Ok (0, s')
    ∧ h s' = set_bufs_head 0 (h s) ∧ sc s' = sc s ∧ extra_indices (pool s') = l ∧ num_interfaces (pool s') = 1
    ∧ safe (seq base (length l)) (mk_sys (pool s') (pds s') [])
    ∧ (∀ c, c ∉ seq base (length l) → fresh_ctx (pds s) c → fresh_ctx (pds s') c)
    ∧ (∀ j a, l !! j = Some a → buf_of (pds s') (base + j)%nat = a).
Proof.
  intros Hk Ht Hch Hfr Hr Hnd Hlen. unfold if_netmap_pd_ctx_pool_init. set (info := {| pool_type := _ |}).
  destruct (register_from_spec (pd_pool_table (pds s)) info 0) as [(id & Hid & _ & E)|[Hno _]]; [|by destruct (Hno k)].
  rewrite (M_bind_Ok _ _ s (Z.of_nat id) (set_pds (set_pools (<[id := Some info]> (pd_pool_table (pds s))) (pds s)) s)).
  2: { apply on_pds_Ok. unfold uinet_pd_pool_register. by rewrite E. }
  rewrite (proj2 (Z.eqb_neq _ _)) by lia. pose proof (lookup_lt_Some _ _ _ Hid) as Hlt. rewrite (wrap_u_id 32) by lia.
  erewrite M_bind_Ok by reflexivity. erewrite M_bind_Ok by (apply on_h_read; reflexivity).
  erewrite M_bind_Ok by (by apply on_h_Ok). rewrite Nat2Z.id. set (s1 := set_h _ _).
  destruct (extra_loop_spec l base (ni_bufs_head (h s)) s1) as (st' & Hrun & Hkb & Hall); [done|cbn; lia|done|done|].
  cbn [h set_pool set_pds] in Hrun |- *. rewrite (M_bind_Ok _ _ _ _ _ Hrun). cbv beta iota. cbn [Z.eqb negb]. erewrite M_bind_Ok by reflexivity.
  eexists. split; [reflexivity|]. split; [done|]. split; [done|]. split; [done|]. split; [done|]. cbn [pds pool set_pds set_pool s1 set_h] in *.
  assert (Hseq : ∀ c, c ∈ seq base (length l) → ∃ j a, c = (base + j)%nat ∧ l !! j = Some a).
  { intros c Hc. apply elem_of_seq in Hc. destruct (lookup_lt_is_Some_2 l (c - base)%nat) as [a Ha]; [lia|]. exists (c - base)%nat, a. split; [lia|done]. }
  split; [|split].
  - split; cbn [y_pool y_pds y_ifs free_list num_free pool_id].
    + split; cbn; rewrite ?length_seq; lia.
    + exists info. rewrite (kb_pools _ _ _ Hkb). cbn. rewrite Nat2Z.id. by apply list_lookup_insert_eq.
    + constructor.
    + apply Forall_forall. intros c Hc. destruct (Hseq c Hc) as (j & a & -> & Ha). by apply (Hall j a).
    + intros c c' Hc Hc' Heq. destruct (Hseq c Hc) as (j & a & -> & Ha), (Hseq c' Hc') as (j' & a' & -> & Ha').
      destruct (Hall j a Ha) as [_ Hb], (Hall j' a' Ha') as [_ Hb']. rewrite Hb, Hb' in Heq. subst a'. f_equal. by apply (NoDup_lookup l j j' a).
    + unfold everywhere, frees. cbn. rewrite app_nil_r, Nat2Z.id, firstn_all2 by (by rewrite length_seq). apply NoDup_seq.
    + intros c. unfold everywhere, frees. cbn. by rewrite app_nil_r, Nat2Z.id, firstn_all2 by (by rewrite length_seq).
    + cbn. rewrite !length_seq. lia.
  - intros c Hc Hf. eapply (keeps_but_fresh (seq base (length l))); [exact Hkb|done|exact Hf].
  - intros j a Ha. by apply (Hall j a).
Qed.

(** ** An interface joins *)

(** A softc before its first packet. *)
Record sc_ready (x : if_netmap_softc) : Prop := {
  sr_new : num_new_pd_ctx x = 0;
  sr_max : 0 <= rx_batch_size x <= rx_new_pd_ctx_max x ∧ rx_new_pd_ctx_max x <= Z.of_nat (length (rx_new_pd_ctx x)) < 2 ^ 31;
  sr_descs : rx_batch_size x <= Z.of_nat (length (descs (rx_pkts x)));
  sr_free : 0 < pdctx_to_free_size x }.

(** A ring from the kernel. *)
Record ring_new (r : netmap_ring) : Prop := {
  rn_num : num_slots r = Z.of_nat (length (slot r));
  rn_size : 0 < num_slots r < 2 ^ 31;
  rn_idx : Forall (λ x, 0 <= buf_idx x < 2 ^ 32) (slot r) }.

Definition ring_bufs (hh : host) : list Z := (buf_idx <$> slot (hw_rx_ring hh)) ++ (buf_idx <$> slot (hw_tx_ring hh)).

Definition set_up_rings (base_rx base_tx : nat) : N Z :=
  e ← if_netmap_pd_ctx_pool_init_rxring NETMAP_BUF nm_ring_next 0 builtin_refcnt m_gethdr base_rx;
  if negb (e =? 0) then mret (-1)
  else
    e ← if_netmap_pd_ctx_pool_init_txring NETMAP_BUF nm_ring_next 0 builtin_refcnt m_gethdr base_tx;
    if negb (e =? 0) then mret (-1) else mret 0.

Lemma seq_lookup_mem c n d : d ∈ seq c n → ∃ j, d = (c + j)%nat ∧ (j < n)%nat.
Proof. intros Hd. apply elem_of_seq in Hd. exists (d - c)%nat. lia. Qed.

(** The state of one interface after its rings were set up. *)
Lemma set_up_rings_spec brx btx s :
  let id := pool_id (pool s) in let r := hw_rx_ring (h s) in let t := hw_tx_ring (h s) in
  0 <= id < 2 ^ 16 → ring_new r → ring_new t → nr_rx_slots (h s) = num_slots r → nr_tx_slots (h s) = num_slots t →
  NoDup (seq brx (length (slot r)) ++ seq btx (length (slot t))) →
  Forall (fresh_ctx (pds s)) (seq brx (length (slot r)) ++ seq btx (length (slot t))) →
  ∃ st', let hh := set_tx (with_slot (give btx (slot t)) t) (set_rx (with_slot (give brx (slot r)) r) (h s)) in
    set_up_rings brx btx s = Ok (0, mk_nm hh st' (pool s) (sc_bufs ((buf_idx <$> slot r) ++ drop (length (slot r)) (rx_ring_bufs (sc s)))
                                     ((buf_idx <$> slot t) ++ drop (length (slot t)) (tx_ring_bufs (sc s))) (sc s)))
    ∧ keeps_but (seq brx (length (slot r)) ++ seq btx (length (slot t))) (pds s) st'
    ∧ (∀ j x, slot r !! j = Some x → mine st' id (brx + j) ∧ buf_of st' (brx + j)%nat = buf_idx x)
    ∧ (∀ j x, slot t !! j = Some x → mine st' id (btx + j) ∧ buf_of st' (btx + j)%nat = buf_idx x).
Proof.
  intros id r t Hid [Hnr _ Hir] [Hnt _ Hit] Hsr Hst Hnd Hfr. apply NoDup_app in Hnd as (Hnd1 & Hdis & Hnd2). apply Forall_app in Hfr as [Hf1 Hf2].
  unfold set_up_rings, if_netmap_pd_ctx_pool_init_rxring, if_netmap_pd_ctx_pool_init_txring.
  rewrite <- M_bind_assoc. erewrite M_bind_Ok by (by apply on_h_read). rewrite Hsr, Hnr, Nat2Z.id.
  destruct (rxring_loop_spec (slot r) [] brx s) as (st1 & Hr1 & Hk1 & Hall1); [done|done|done|done|done|done|].
  rewrite <- M_bind_assoc, (M_bind_Ok _ _ _ _ _ Hr1). cbv beta iota. rewrite <- M_bind_assoc. erewrite M_bind_Ok by reflexivity.
  erewrite M_bind_Ok by reflexivity. cbn [Z.eqb negb]. rewrite <- M_bind_assoc. erewrite M_bind_Ok by (by apply on_h_read).

  set (s1 := set_sc _ _). change (nr_tx_slots (h s1)) with (nr_tx_slots (h s)). rewrite Hst, Hnt, Nat2Z.id.
  destruct (txring_loop_spec (slot t) [] btx s1) as (st2 & Hr2 & Hk2 & Hall2); [done|done|done|done| |done|].
  { apply Forall_forall. intros c Hc. rewrite Forall_forall in Hf2. apply (keeps_but_fresh _ (pds s) st1 c Hk1); [|by apply Hf2]. intros Hi. by apply (Hdis c). }
  rewrite <- M_bind_assoc. change (hw_tx_ring (h s1)) with t in Hr2. rewrite (M_bind_Ok _ _ _ _ _ Hr2). cbv beta iota. rewrite <- M_bind_assoc.
  erewrite M_bind_Ok by reflexivity. erewrite M_bind_Ok by reflexivity. cbn [Z.eqb negb].
  exists st2. split; [|split; [by eapply keeps_but_trans|split]].
  - cbn [app]. unfold s1. cbn. by rewrite !length_fmap.
  - intros j x Hj. destruct (Hall1 j x Hj) as [Hm Hb]. rewrite <- Hb. eapply keeps_but_mine; [exact Hk2| |exact Hm].
    intros Hi. apply (Hdis (brx + j)%nat); [|done]. apply elem_of_seq. apply lookup_lt_Some in Hj. fold r in Hj. lia.
  - done.
Qed.

End Init.

End NetmapInit.
