(* ===== verification/NetmapRun.v ===== *)
(** The netmap driver from the first interface on (Netmap.v): the pool is set up, interfaces
    join, and all of them run. *)
From stdpp Require Import gmultiset.
From S2P Require Import Prelude PktDesc NmRing Netmap NetmapSpec NetmapSafe NetmapInit.
Import PktDesc NmRing Netmap NetmapSpec NetmapSafe NetmapInit.
#[local] Open Scope Z_scope.

Module NetmapRun.

Lemma NoDup_fmap_inj {A B} (f : A → B) l x y : NoDup (f <$> l) → x ∈ l → y ∈ l → f x = f y → x = y.
Proof.
  intros Hnd [i Hi]%list_elem_of_lookup [j Hj]%list_elem_of_lookup Hf.
  assert (i = j) as ->; [|congruence]. apply (NoDup_lookup (f <$> l) i j (f x)); [done| |]; rewrite list_lookup_fmap; [by rewrite Hi|].
  by rewrite Hj, Hf.
Qed.

Lemma sum_list_app l k : sum_list (l ++ k) = (sum_list l + sum_list k)%nat.
Proof. induction l as [|x l IH]; cbn; [done|]. rewrite IH. lia. Qed.

Section Run.

Context (NETMAP_BUF : Z → Z) (nm_ring_next : netmap_ring → Z → Z) (builtin_refcnt : nat → nat) (m_gethdr : nat → option nat)
  (kern_rx kern_tx : netmap_ring → netmap_ring).
Context (Hnext : ∀ r i, 0 <= i < num_slots r → nm_ring_next r i = if i + 1 =? num_slots r then 0 else i + 1).
Context (Hkrx : ∀ r, same_slots r (kern_rx r)) (Hktx : ∀ r, same_slots r (kern_tx r)).

(** ** An interface joins *)

Lemma if_ok_but st st' id cs hh x :
  keeps_but cs st st' → (∀ c, c ∈ own hh x → c ∉ cs) → if_ok st id hh x → if_ok st' id hh x.
Proof.
  intros Hk Hd [Hrx Htx H3 H4 H5 H6].
  assert (Hring : ∀ r, ring_ok st id r → (∀ c, c ∈ ring_ctxs r → c ∉ cs) → ring_ok st' id r).
  { intros r [Hs Hl Hf] Hc. split; [done|done|]. apply Forall_forall. intros sl Hsl. rewrite Forall_forall in Hf.
    destruct (Hf sl Hsl) as (c & Hp & Hm & Hb). exists c.
    assert (Hn : c ∉ cs) by (apply Hc, list_elem_of_omap; by exists sl).
    destruct (keeps_but_mine _ _ _ _ _ Hk Hn Hm) as [Hm' Hb']. by rewrite Hb'. }
  split; [apply Hring; [done|]|apply Hring; [done|]|done|done|done|done]; intros c Hc; apply Hd; unfold own; set_solver.
Qed.

(** The contexts for the rings of a new interface. *)
Definition joining (hh : host) (brx btx : nat) : list nat :=
  seq brx (length (slot (hw_rx_ring hh))) ++ seq btx (length (slot (hw_tx_ring hh))).

(** What an interface brings along: rings from the kernel with buffers of their own, memory
    for contexts, and a softc. *)
Record may_join (U : list nat) (y : sys) (hh : host) (x : if_netmap_softc) (brx btx : nat) : Prop := {
  mj_rx : ring_new (hw_rx_ring hh);
  mj_tx : ring_new (hw_tx_ring hh);
  mj_nrx : nr_rx_slots hh = num_slots (hw_rx_ring hh);
  mj_ntx : nr_tx_slots hh = num_slots (hw_tx_ring hh);
  mj_ctxs : NoDup (joining hh brx btx ++ U);
  mj_fresh : Forall (fresh_ctx m_gethdr (y_pds y)) (joining hh brx btx);
  mj_bufs : NoDup (ring_bufs hh ++ (buf_of (y_pds y) <$> U));
  mj_sc : sc_ready x }.

Lemma join_safe U y hh x brx btx n :
  safe U y → may_join U y hh x brx btx →
  ∃ s', set_up_rings NETMAP_BUF nm_ring_next builtin_refcnt m_gethdr brx btx (mk_nm hh (y_pds y) (pool_refs n (y_pool y)) x) = Ok (0, s')
    ∧ safe (joining hh brx btx ++ U) (mk_sys (pool s') (pds s') (y_ifs y ++ [(h s', sc s')])).
Proof.
  intros [Hp Ht Hif Hmi Hinj Honce Hkn Hcnt] [Hrx Htx Hnr Hnt Hnd Hfr Hbufs Hsc].
  set (s := mk_nm hh (y_pds y) (pool_refs n (y_pool y)) x). set (C := joining hh brx btx) in *.
  destruct (set_up_rings_spec NETMAP_BUF nm_ring_next builtin_refcnt m_gethdr Hnext brx btx s) as (st' & Hrun & Hkb & Hall1 & Hall2);
    [by destruct Hp|done|done|done|done|by apply NoDup_app in Hnd as [? _]|done|].
  fold (joining hh brx btx) in Hkb. change (joining (h s) brx btx) with C in Hkb. cbn [s h pds pool sc] in *.
  eexists. split; [exact Hrun|]. pose proof Hnd as (HndC & Hdis & HndU)%NoDup_app.
  assert (HU : ∀ c, c ∈ U → mine st' (pool_id (y_pool y)) c ∧ buf_of st' c = buf_of (y_pds y) c).
  { intros c Hc. rewrite Forall_forall in Hmi. eapply keeps_but_mine; [exact Hkb| |by apply Hmi]. intros Hi. by apply (Hdis c). }
  assert (Hev : ∀ c, c ∈ everywhere y → c ∉ C) by (intros c Hc Hi; apply (Hdis c); auto).
  assert (HC : ∀ c, c ∈ C → mine st' (pool_id (y_pool y)) c).
  { intros c Hc. apply elem_of_app in Hc as [Hc|Hc]; apply seq_lookup_mem in Hc as (j & -> & Hj); apply lookup_lt_is_Some_2 in Hj as [z Hz];
      [by apply (Hall1 j z)|by apply (Hall2 j z)]. }
  assert (Hmap : buf_of st' <$> (C ++ U) = ring_bufs hh ++ (buf_of (y_pds y) <$> U)).
  { assert (Hseq : ∀ (l : list netmap_slot) b, (∀ j z, l !! j = Some z → buf_of st' (b + j)%nat = buf_idx z) → buf_of st' <$> seq b (length l) = buf_idx <$> l).
    { induction l as [|z l IH]; intros b Hb; [done|]. cbn. f_equal.
      - specialize (Hb 0%nat z eq_refl). by rewrite Nat.add_0_r in Hb.
      - apply IH. intros j w Hj. specialize (Hb (S j) w Hj). by rewrite Nat.add_succ_r in Hb. }
    unfold C, joining, ring_bufs. rewrite !fmap_app. f_equal; [f_equal; apply Hseq|].
    - intros j z Hz. by apply (Hall1 j z).
    - intros j z Hz. by apply (Hall2 j z).
    - apply list_fmap_ext. intros j c Hj. apply HU. by apply list_elem_of_lookup_2 in Hj. }
  rewrite <- Hmap in Hbufs. clear Hmap.
  assert (Hnew : Z.to_nat (num_new_pd_ctx x) = 0%nat) by (destruct Hsc as [-> _ _ _]; done).
  match goal with |- safe _ ?z => set (y' := z) end.
  assert (Hevn : everywhere y' = everywhere y ++ C).
  { unfold everywhere, y'. cbn [y_ifs y_pool pool]. rewrite fmap_app, concat_app, <- app_assoc. f_equal. f_equal.
    cbn [fmap list_fmap concat]. rewrite app_nil_r. unfold own_if, own, ring_ctxs. cbn [h sc fst snd hw_rx_ring hw_tx_ring set_tx set_rx slot with_slot num_new_pd_ctx rx_new_pd_ctx sc_bufs].
    rewrite !give_ctxs, Hnew. cbn [take]. by rewrite app_nil_r. }
  split; rewrite ?Hevn; unfold y'; cbn [y_pool y_pds y_ifs pool pds pool_id pool_refs free_list].
  - by destruct Hp.
  - destruct Ht as [info Ht]. exists info. by rewrite (kb_pools _ _ _ Hkb).
  - apply Forall_app. split.
    + apply Forall_forall. intros z Hz. rewrite Forall_forall in Hif. apply (if_ok_but (y_pds y) _ _ C); [done| |by apply Hif].
      intros c Hc. apply Hev. unfold everywhere. apply elem_of_app. right. apply list_elem_of_In, in_concat. exists (own_if z).
      rewrite <- !list_elem_of_In. split; [|done]. apply list_elem_of_fmap. by exists z.
    + apply Forall_singleton. destruct Hsc as [S1 S2 S3 S4]. destruct Hrx as [N1 N2 N3], Htx as [M1 M2 M3].
      split; cbn; try done; try lia.
      * split; cbn; [done|by rewrite give_length|]. by apply give_ok.
      * split; cbn; [done|by rewrite give_length|]. by apply give_ok.
  - apply Forall_app. split; apply Forall_forall; [done|]. intros c Hc. by apply HU.
  - intros c c' Hc Hc'. by apply (NoDup_fmap_inj _ (C ++ U)).
  - apply NoDup_app. split; [done|]. split; [apply Hev|done].
  - intros c Hc. apply elem_of_app in Hc as [Hc|Hc]; apply elem_of_app; [right; by apply Hkn|by left].
  - rewrite fmap_app, sum_list_app, length_app, Hcnt. unfold C, joining, slots_of. cbn. rewrite length_app, !length_seq, !give_length. lia.
Qed.

(** ** The system in motion *)

(** What the rest of the driver does to a softc between the actions. *)
Record same_sc (x x' : if_netmap_softc) : Prop := {
  sm_new : num_new_pd_ctx x' = num_new_pd_ctx x ∧ rx_new_pd_ctx x' = rx_new_pd_ctx x;
  sm_max : rx_batch_size x' = rx_batch_size x ∧ rx_new_pd_ctx_max x' = rx_new_pd_ctx_max x;
  sm_descs : length (descs (rx_pkts x')) = length (descs (rx_pkts x));
  sm_free : pdctx_to_free_size x' = pdctx_to_free_size x }.

(** Between actions the kernel moves its side of the rings and fills buffers, and the stack
    works on packets. *)
Definition env_if (x x' : host * if_netmap_softc) : Prop :=
  same_slots (hw_rx_ring x.1) (hw_rx_ring x'.1) ∧ same_slots (hw_tx_ring x.1) (hw_tx_ring x'.1) ∧ same_sc x.2 x'.2.

Inductive step : list nat * sys → list nat * sys → Prop :=
| step_act U y i x a s' :
    y_ifs y !! i = Some x → may NETMAP_BUF U y (focus y x) a → exclusive y a →
    act NETMAP_BUF nm_ring_next kern_rx kern_tx 0 a (focus y x) = Ok (tt, s') → step (U, y) (U, put y i s')
| step_join U y hh x base brx btx bufsize extra s' :
    num_interfaces (y_pool y) ≠ 0 → may_join U y hh x brx btx →
    if_netmap_pd_ctx_pool_init_global NETMAP_BUF nm_ring_next 0 builtin_refcnt m_gethdr base brx btx bufsize extra
      (mk_nm hh (y_pds y) (y_pool y) x) = Ok (0, s') →
    step (U, y) (joining hh brx btx ++ U, mk_sys (pool s') (pds s') (y_ifs y ++ [(h s', sc s')]))
| step_env U y st' ifs' :
    keeps (y_pds y) st' → Forall2 env_if (y_ifs y) ifs' → step (U, y) (U, mk_sys (y_pool y) st' ifs').

Lemma init_global_join base brx btx bufsize extra s : num_interfaces (pool s) ≠ 0 →
  if_netmap_pd_ctx_pool_init_global NETMAP_BUF nm_ring_next 0 builtin_refcnt m_gethdr base brx btx bufsize extra s =
  set_up_rings NETMAP_BUF nm_ring_next builtin_refcnt m_gethdr brx btx (set_pool (pool_refs (num_interfaces (pool s) + 1) (pool s)) s).
Proof.
  intros Hn. unfold if_netmap_pd_ctx_pool_init_global. erewrite M_bind_Ok by reflexivity. rewrite (proj2 (Z.eqb_neq _ _) Hn).
  rewrite <- M_bind_assoc. erewrite M_bind_Ok by reflexivity. erewrite M_bind_Ok by reflexivity. done.
Qed.

Lemma env_if_ok st st' id x x' : keeps st st' → env_if x x' → if_ok st id x.1 x.2 →
  if_ok st' id x'.1 x'.2 ∧ own_if x' = own_if x ∧ slots_of x' = slots_of x.
Proof.
  intros Hk (Hr & Ht & [[H1 H2] [H3 H4] H5 H6]) Hok. destruct (rings_ok _ _ _ _ _ Hok Hr Ht) as (Hok' & Hown & Hsl).
  destruct x as [hh x], x' as [hh' x']. cbn [fst snd] in *. split_and!.
  - apply (if_ok_keeps st); [done|]. destruct Hok' as [A1 A2 A3 A4 A5 A6]. split; rewrite ?H1, ?H2, ?H3, ?H4, ?H5, ?H6; done.
  - unfold own_if. cbn [fst snd]. rewrite <- Hown. unfold own. by rewrite H1, H2.
  - done.
Qed.

Lemma env_ifs st st' id l l' : keeps st st' → Forall2 env_if l l' → Forall (λ x, if_ok st id x.1 x.2) l →
  Forall (λ x, if_ok st' id x.1 x.2) l' ∧ own_if <$> l' = own_if <$> l ∧ slots_of <$> l' = slots_of <$> l.
Proof.
  intros Hk. induction 1 as [|x x' l l' Hx _ IH]; intros Hf; [done|]. apply Forall_cons in Hf as [Hok Hf].
  destruct (env_if_ok _ _ _ _ _ Hk Hx Hok) as (H1 & H2 & H3). destruct (IH Hf) as (I1 & I2 & I3).
  split_and!; [by constructor|cbn; by rewrite H2, I2|cbn; by rewrite H3, I3].
Qed.

Lemma step_safe z z' : step z z' → safe z.1 z.2 → safe z'.1 z'.2.
Proof.
  destruct 1 as [U y i x a s' Hi Hm Hx Ha|U y hh x base brx btx bufsize extra s' Hn Hj Hr|U y st' ifs' Hk He]; cbn [fst snd]; intros Hs.
  - destruct (act_safe NETMAP_BUF nm_ring_next kern_rx kern_tx 0 Hnext Hkrx Hktx U y i x a Hs Hi Hm Hx) as (s2 & Ha2 & Hs2). congruence.
  - rewrite init_global_join in Hr by done. destruct (join_safe U y hh x brx btx (num_interfaces (y_pool y) + 1) Hs Hj) as (s2 & Hr2 & Hs2).
    unfold set_pool in Hr. cbn in Hr. congruence.
  - destruct Hs as [Hp Ht Hif Hmi Hinj Honce Hkn Hcnt]. destruct (env_ifs _ _ _ _ _ Hk He Hif) as (I1 & I2 & I3).
    assert (Hev : everywhere (mk_sys (y_pool y) st' ifs') = everywhere y) by (unfold everywhere; cbn; by rewrite I2).
    split; rewrite ?Hev; cbn [y_pool y_pds y_ifs]; try done.
    + destruct Ht as [info Ht]. exists info. by rewrite (kp_pools _ _ Hk).
    + apply (Forall_impl _ _ _ Hmi). intros c. by apply keeps_mine.
    + intros c c' Hc Hc'. rewrite !(keeps_buf _ _ _ Hk). by apply Hinj.
    + by rewrite I3.
Qed.

(** The buffers that are free or in a ring. *)
Definition all_bufs (y : sys) : list Z := (buf_of (y_pds y) <$> frees (y_pool y)) ++ concat ((λ x, ring_bufs x.1) <$> y_ifs y).

Lemma slots_bufs st id l : Forall (slot_ok st id) l → buf_idx <$> l = buf_of st <$> omap s_ptr l.
Proof. induction 1 as [|x l (c & Hc & _ & Hb) _ IH]; [done|]. cbn. rewrite Hc. cbn. by rewrite Hb, IH. Qed.

Lemma safe_bufs U y : safe U y → NoDup (all_bufs y).
Proof.
  intros [_ _ Hif _ Hinj Honce Hkn _].
  assert (Hr : ∀ l, Forall (λ x, if_ok (y_pds y) (pool_id (y_pool y)) x.1 x.2) l → ∃ k, k `sublist_of` concat (own_if <$> l)
      ∧ concat ((λ x, ring_bufs x.1) <$> l) = buf_of (y_pds y) <$> k).
  { induction 1 as [|x l [[_ _ Hrx] [_ _ Htx] _ _ _ _] _ (k & Hk1 & Hk2)]; [by exists []|].
    exists ((ring_ctxs (hw_rx_ring x.1) ++ ring_ctxs (hw_tx_ring x.1)) ++ k). cbn. split.
    - apply sublist_app; [|done]. unfold own_if, own. rewrite app_assoc. by apply sublist_inserts_r.
    - rewrite Hk2, !fmap_app. unfold ring_bufs, ring_ctxs. by rewrite (slots_bufs _ _ _ Hrx), (slots_bufs _ _ _ Htx). }
  destruct (Hr _ Hif) as (k & Hk1 & Hk2). unfold all_bufs. rewrite Hk2, <- fmap_app.
  assert (Hsub : frees (y_pool y) ++ k `sublist_of` everywhere y) by (by apply sublist_app).
  apply NoDup_fmap_2_strong; [|by eapply sublist_NoDup].
  intros c c' Hc Hc'. apply Hinj; apply Hkn; by eapply elem_of_sublist.
Qed.

(** Before the first interface: the extra buffers [l] and the rings, with buffers of their own,
    and memory for all contexts. *)
Record first (s : nm) (base brx btx : nat) (l : list Z) : Prop := {
  fi_none : num_interfaces (pool s) = 0;
  fi_table : (∃ k, pd_pool_table (pds s) !! k = Some None) ∧ (length (pd_pool_table (pds s)) <= 32)%nat;
  fi_extra : chained NETMAP_BUF (mem (h s)) (ni_bufs_head (h s)) l;
  fi_range : Forall (λ a, 0 <= a < 2 ^ 32) l ∧ Z.of_nat (length l) < 2 ^ 31;
  fi_rings : ring_new (hw_rx_ring (h s)) ∧ ring_new (hw_tx_ring (h s))
      ∧ nr_rx_slots (h s) = num_slots (hw_rx_ring (h s)) ∧ nr_tx_slots (h s) = num_slots (hw_tx_ring (h s));
  fi_ctxs : NoDup (joining (h s) brx btx ++ seq base (length l));
  fi_fresh : Forall (fresh_ctx m_gethdr (pds s)) (joining (h s) brx btx ++ seq base (length l));
  fi_bufs : NoDup (ring_bufs (h s) ++ l);
  fi_sc : sc_ready (sc s) }.

Lemma first_safe s base brx btx bufsize l : first s base brx btx l →
  ∃ s', if_netmap_pd_ctx_pool_init_global NETMAP_BUF nm_ring_next 0 builtin_refcnt m_gethdr base brx btx bufsize (Z.of_nat (length l)) s = Ok (0, s')
    ∧ safe (joining (h s) brx btx ++ seq base (length l)) (mk_sys (pool s') (pds s') [(h s', sc s')]).
Proof.
  intros [Hn [[k Hk] Htl] Hch [Hra Hlen] (Hr & Ht & Hnr & Hnt) Hnd Hfr Hbufs Hsc].
  apply Forall_app in Hfr as [Hf1 Hf2]. pose proof Hbufs as (_ & _ & Hndl)%NoDup_app. pose proof Hnd as (_ & Hdis & _)%NoDup_app.
  destruct (pool_init_spec NETMAP_BUF builtin_refcnt m_gethdr base bufsize l s k Hk Htl Hch Hf2 Hra Hndl Hlen) as (s1 & Hrun & Hh & Hsc1 & _ & Hn1 & Hs1 & Hfresh & Hbuf).
  set (y1 := mk_sys (pool s1) (pds s1) []).
  assert (Hj : may_join (seq base (length l)) y1 (h s1) (sc s1) brx btx).
  { rewrite Hh, Hsc1. split; try done.
    - apply Forall_forall. intros c Hc. apply Hfresh; [by apply Hdis|]. rewrite Forall_forall in Hf1. by apply Hf1.
    - replace (buf_of (y_pds y1) <$> seq base (length l)) with l; [done|]. apply list_eq_same_length with (length l); [by rewrite length_fmap, length_seq|done|].
      intros i a b Hi Ha. rewrite list_lookup_fmap, lookup_seq_lt by done. cbn. rewrite (Hbuf i a Ha). by intros [= ->]. }
  destruct (join_safe _ y1 (h s1) (sc s1) brx btx 1 Hs1 Hj) as (s2 & Hr2 & Hs2).
  exists s2. split.
  - unfold if_netmap_pd_ctx_pool_init_global. erewrite M_bind_Ok by reflexivity. rewrite Hn. cbn [Z.eqb]. rewrite (M_bind_Ok _ _ _ _ _ Hrun). cbn [Z.eqb negb].
    etransitivity; [|exact Hr2]. f_equal. destruct s1 as [? ? [] ?]. cbn in Hn1. by subst.
  - by rewrite Hh in Hs2.
Qed.


End Run.

(** ** Examples *)

Definition buf_addr (i : Z) : Z := i * 4096.
Definition ex_next (r : netmap_ring) (i : Z) : Z := if i + 1 =? num_slots r then 0 else i + 1.
Definition ex_space (r : netmap_ring) : Z := if tail r <? cur r then tail r - cur r + num_slots r else tail r - cur r.

Definition ex_slot (i : Z) : netmap_slot := mk_slot i 60 0 None.
Definition ex_ring (l : list Z) (t : Z) : netmap_ring := mk_ring (Z.of_nat (length l)) 2048 0 0 t (ex_slot <$> l).
Definition ex_mem : gmap Z (list Z) :=
  list_to_map ((λ i, (buf_addr i, bytes32 (if i =? 30 then 31 else 0) ++ replicate 60 0)) <$> [10; 11; 20; 21; 30; 31]).
Definition ex_host : host := mk_host (ex_ring [10; 11] 1) (ex_ring [20; 21] 1) 30 2 2 ex_mem.
Definition ex_ctx0 : uinet_pd_ctx := {| timestamp := 0; c_m := None; c_ref := 0; m_orig_len := 0; c_flags := 0; c_pool_id := 0; refcnt := 0 |}.
Definition ex_mbuf0 : mbuf :=
  {| m_next := None; m_nextpkt := None; m_data := 0; m_len := 0; m_flags := M_PKTHDR; m_type := MT_DATA; m_pkthdr_len := 0; m_rcvif := None;
     m_tags := []; ext_buf := 0; ext_type := 0; ext_free := None; ext_arg1 := None; ext_arg2 := None; ext_ref_cnt := 0 |}.
Definition ex_pds : store :=
  mk_store (list_to_map ((λ c, (c, ex_ctx0)) <$> seq 0 6)) ∅ (list_to_map ((λ c, (c, ex_mbuf0)) <$> seq 0 8)) [None; None] [] [] [] ∅ [].
Definition ex_pd0 : uinet_pd := null_pd.
Definition ex_inject : uinet_pd_ring := {| r_num_descs := 4; r_put := 0; r_take := 0; r_drops := 0; r_descs := replicate 4 ex_pd0 |}.
Definition ex_sc : if_netmap_softc :=
  mk_sc 1 false 5 2 2 0 1 [0; 0]%nat {| num_descs := 2; descs := [ex_pd0; ex_pd0] |} UINET_IF_TIMESTAMP_NONE 0 0 0 0 ex_inject 4
    (mk_cnt 0 0 0 0 0 0 0 0 0 0) [] [] [] [] 0.
Definition ex_start : nm := mk_nm ex_host ex_pds (mk_pool [] 0 0 0 0 [] 0) ex_sc.

Lemma ex_ring_new l t : (0 < length l)%nat → Z.of_nat (length l) < 2 ^ 31 → Forall (λ a, 0 <= a < 2 ^ 32) l → ring_new (ex_ring l t).
Proof.
  intros H1 H2 H3. split; cbn; [by rewrite length_fmap|lia|]. rewrite Forall_fmap. exact H3.
Qed.

Lemma ex_first : first buf_addr Some ex_start 0 2 4 [30; 31].
Proof.
  assert (Hsmall : ∀ a, a ∈ [10; 11; 20; 21; 30; 31] → 0 <= a < 2 ^ 32) by (intros a Ha; rewrite !elem_of_cons, elem_of_nil in Ha; lia).
  assert (Hrange : ∀ l, l ⊆ [10; 11; 20; 21; 30; 31] → Forall (λ a, 0 <= a < 2 ^ 32) l) by (intros l Hl; apply Forall_forall; intros a Ha; by apply Hsmall, Hl).
  split.
  - done.
  - split; [by exists 0%nat|cbn; lia].
  - split; [done|]. split; [done|]. eexists. split; [vm_compute; reflexivity|]. split; [cbn; lia|].
    split; [vm_compute; reflexivity|]. split; [done|]. eexists. split; [vm_compute; reflexivity|]. split; [cbn; lia|done].
  - split; [apply Hrange; set_solver|cbn; lia].
  - split_and!; [apply ex_ring_new; [cbn; lia|cbn; lia|apply Hrange; set_solver]|apply ex_ring_new; [cbn; lia|cbn; lia|apply Hrange; set_solver]|done|done].
  - apply (bool_decide_unpack _). vm_compute. done.
  - apply Forall_forall. intros c Hc. assert (Hlt : (c < 6)%nat) by (cbn in Hc; rewrite !elem_of_cons, elem_of_nil in Hc; lia).
    do 6 (destruct c as [|c]; [split; [by eexists|]; eexists; split; [reflexivity|by eexists]|]). lia.
  - apply (bool_decide_unpack _). vm_compute. done.
  - split; cbn; lia.
Qed.


(** Two interfaces of one pool: a descriptor taken from the pool, given one extra
    reference and injected into both is carried out by both, and its buffer is then in a
    slot of each. *)
Definition ex_pds2 : store :=
  mk_store (list_to_map ((λ c, (c, ex_ctx0)) <$> seq 0 10)) ∅ (list_to_map ((λ c, (c, ex_mbuf0)) <$> seq 0 10)) [None; None] [] [] [] ∅ [].
Definition ex_host2 : host := mk_host (ex_ring [12; 13] 1) (ex_ring [22; 23] 1) 0 2 2 ex_mem.
Definition ex_v : txv := mk_txv 1 0 0 [] 0 0 0.

Definition ex_shared : result sys :=
  '(_, s1) ← if_netmap_pd_ctx_pool_init_global buf_addr ex_next 0 id Some 0 2 4 2048 2 (mk_nm ex_host ex_pds2 (mk_pool [] 0 0 0 0 [] 0) ex_sc);
  '(_, s2) ← if_netmap_pd_ctx_pool_init_global buf_addr ex_next 0 id Some 0 6 8 2048 0 (mk_nm ex_host2 (pds s1) (pool s1) ex_sc);
  '(l, s3) ← if_netmap_pd_alloc_user buf_addr {| num_descs := 1; descs := [null_pd] |} s2;
  let pd := default null_pd (descs l !! 0%nat) in
  '(_, s4) ← tx_one buf_addr ex_next pd ex_v s3;
  '(_, s5) ← tx_one buf_addr ex_next pd ex_v (mk_nm (h s1) (pds s4) (pool s4) (sc s1));
  Ok (mk_sys (pool s5) (pds s5) [(h s5, sc s5); (h s4, sc s4)]).

Lemma shared_injection : match ex_shared with Ok y => ~ NoDup (all_bufs y) | Fault _ => False end.
Proof. vm_compute. intros Hnd. apply (bool_decide_pack (NoDup _)) in Hnd. vm_compute in Hnd. done. Qed.

(** The transmit thread with two packets of the stack and one free slot at a time: both are
    sent, and only the first is freed. *)
Definition ex_queue : nm :=
  mk_nm ex_host ex_pds (mk_pool [] 0 0 0 0 [] 0) (sc_queue [6; 7]%nat [] ex_sc).

Lemma send_round_leaks :
  match send_round buf_addr ex_next ex_space id 0 (λ _, replicate 60 1) 9 [mk_poll 0 0 false; mk_poll 0 0 false; mk_poll 0 0 false] [0] 0 1 0 ex_queue with
  | Ok (Some _, s) => if_snd (sc s) = [] ∧ opackets (cnt (sc s)) = 2 ∧ m_freed (sc s) = [6%nat]
  | _ => False
  end.
Proof. vm_compute. done. Qed.

(** A flag that is the only one set is not cleared. *)
Lemma set_flag_keeps_only_flag flag : if_netmap_ethtool_set_flag (Some flag) flag false 0 = (0, None).
Proof. unfold if_netmap_ethtool_set_flag. by rewrite Z.lxor_nilpotent. Qed.

(** A setting is never turned on. *)
Lemma set_discrete_never_on got getcmd e : getcmd ≠ 0 → (if_netmap_ethtool_set_discrete got getcmd true e).2 = None.
Proof. intros Hc. unfold if_netmap_ethtool_set_discrete. destruct got; [|done]. by rewrite (proj2 (Z.eqb_neq _ _) Hc). Qed.

(** The promiscuous mode is never left. *)
Lemma set_promisc_never_off flags ok : ∃ v, (if_netmap_set_promisc (Some flags) false ok).2 = Some v ∧ has_flag v IFF_PROMISC = true.
Proof.
  eexists. split; [reflexivity|]. change IFF_PROMISC with (2 ^ 8). rewrite has_flag_pow2 by lia. rewrite Z.lor_spec, Z.pow2_bits_true by lia.
  apply orb_true_r.
Qed.

End NetmapRun.
