(* ===== verification/NetmapDetach.v ===== *)
(** Detaching a netmap interface (Netmap.v): the kernel gets back the buffers it gave. *)
From S2P Require Import Prelude PktDesc NmRing Netmap NetmapSpec NetmapRun.
Import PktDesc NmRing Netmap NetmapSpec.

Module NetmapDetach.

Section Detach.

Context (NETMAP_BUF : Z → Z) (nm_ring_next : netmap_ring → Z → Z).
Context (Hnext : ∀ r i, 0 <= i < num_slots r → nm_ring_next r i = if i + 1 =? num_slots r then 0 else i + 1).
(** Different buffers are at different addresses. *)
Context (Hbuf : ∀ i j, NETMAP_BUF i = NETMAP_BUF j → i = j).

(** ** The rings *)

(** A slot with its first buffer and no context. *)
Definition reset_rx (x : netmap_slot) (b : Z) : netmap_slot := put_buf b None x.
Definition reset_tx (x : netmap_slot) (b : Z) : netmap_slot := mk_slot b 0 (s_flags (put_buf b None x)) None.

Lemma slot_at_middle r pre x post : slot r = pre ++ x :: post → slot_at r (Z.of_nat (length pre)) = Ok x.
Proof. intros E. unfold slot_at. by rewrite Nat2Z.id, E, list_lookup_middle. Qed.

Lemma next_middle r (pre : list netmap_slot) x post :
  num_slots r = Z.of_nat (length (pre ++ x :: post)) →
  nm_ring_next r (Z.of_nat (length pre)) = if decide (post = []) then 0 else Z.of_nat (length (pre ++ [x])).
Proof.
  intros Hn. rewrite length_app in Hn. cbn in Hn. rewrite Hnext by lia. rewrite length_app. cbn.
  destruct post as [|y post]; [rewrite decide_True by done|rewrite decide_False by done]; cbn in Hn; destruct (_ =? _) eqn:E; bool_to_prop; lia.
Qed.

Lemma insert_middle {A} (pre : list A) x y post : <[length pre := y]> (pre ++ x :: post) = (pre ++ [y]) ++ post.
Proof. rewrite insert_app_r_alt, Nat.sub_diag by lia. cbn. by rewrite <- app_assoc. Qed.

Lemma restore_rx_spec post : ∀ pre bpre bpost fuel s,
  let r := hw_rx_ring (h s) in
  post ≠ [] → slot r = pre ++ post → num_slots r = Z.of_nat (length (slot r)) → rx_ring_bufs (sc s) = bpre ++ bpost →
  length bpre = length pre → length bpost = length post → (length post <= fuel)%nat →
  restore_rx nm_ring_next fuel (Z.of_nat (length pre)) s
    = Ok (tt, set_h (set_rx (with_slot (pre ++ zip_with reset_rx post bpost) r) (h s)) s).
Proof.
  induction post as [|x post IH]; intros pre bpre bpost fuel s r Hne Hsl Hn Hb Hlp Hlb Hf; [done|]. clear Hne.
  destruct fuel as [|fuel]; [cbn in Hf; lia|]. destruct bpost as [|b bpost]; [done|]. cbn [restore_rx]. erewrite M_bind_Ok by reflexivity.
  rewrite Nat2Z.id, Hb, <- Hlp, list_lookup_middle by done. erewrite M_bind_Ok by reflexivity. rewrite Hlp.
  rewrite (M_bind_Ok _ _ _ _ _ (on_h_Ok _ _ _ _ (rxsetslot_Ok nm_ring_next _ _ _ _ _ (slot_at_middle _ _ _ _ Hsl)))).
  fold r. rewrite (next_middle r pre x post) by (by rewrite <- Hsl). rewrite Nat2Z.id, Hsl, insert_middle. fold (reset_rx x b).
  destruct (decide (post = [])) as [->|Hne].
  { destruct bpost; [|done]. cbn [Z.eqb zip_with]. by rewrite app_nil_r. }
  rewrite (proj2 (Z.eqb_neq _ _)) by (rewrite length_app; cbn; lia).
  replace (length (pre ++ [x])) with (length (pre ++ [reset_rx x b])) by (by rewrite !length_app).
  set (s1 := set_h _ s). rewrite (IH (pre ++ [reset_rx x b]) (bpre ++ [b]) bpost fuel s1); [|done|done| | | | |].
  - cbn. by rewrite <- app_assoc.
  - cbn. rewrite Hn, Hsl, !length_app. cbn. lia.
  - cbn. by rewrite <- app_assoc.
  - rewrite !length_app. cbn. lia.
  - cbn in Hlb. lia.
  - cbn in Hf. lia.
Qed.

Lemma restore_tx_spec post : ∀ pre bpre bpost fuel s,
  let r := hw_tx_ring (h s) in
  post ≠ [] → slot r = pre ++ post → num_slots r = Z.of_nat (length (slot r)) → tx_ring_bufs (sc s) = bpre ++ bpost → 0 <= nr_buf_size r →
  length bpre = length pre → length bpost = length post → (length post <= fuel)%nat →
  restore_tx nm_ring_next fuel (Z.of_nat (length pre)) s
    = Ok (tt, set_h (set_tx (with_slot (pre ++ zip_with reset_tx post bpost) r) (h s)) s).
Proof.
  induction post as [|x post IH]; intros pre bpre bpost fuel s r Hne Hsl Hn Hb Hz Hlp Hlb Hf; [done|]. clear Hne.
  destruct fuel as [|fuel]; [cbn in Hf; lia|]. destruct bpost as [|b bpost]; [done|]. cbn [restore_tx]. erewrite M_bind_Ok by reflexivity.
  rewrite Nat2Z.id, Hb, <- Hlp, list_lookup_middle by done. erewrite M_bind_Ok by reflexivity. rewrite Hlp.
  rewrite (M_bind_Ok _ _ _ _ _ (on_h_Ok _ _ _ _ (txsetslot_Ok nm_ring_next _ _ _ _ _ _ (slot_at_middle _ _ _ _ Hsl) Hz))).
  fold r. rewrite (next_middle r pre x post) by (by rewrite <- Hsl). rewrite Nat2Z.id, Hsl, insert_middle. fold (reset_tx x b).
  destruct (decide (post = [])) as [->|Hne].
  { destruct bpost; [|done]. cbn [Z.eqb zip_with]. by rewrite app_nil_r. }
  rewrite (proj2 (Z.eqb_neq _ _)) by (rewrite length_app; cbn; lia).
  replace (length (pre ++ [x])) with (length (pre ++ [reset_tx x b])) by (by rewrite !length_app).
  set (s1 := set_h _ s). rewrite (IH (pre ++ [reset_tx x b]) (bpre ++ [b]) bpost fuel s1); [|done|done| | |done| | |].
  - cbn. by rewrite <- app_assoc.
  - cbn. rewrite Hn, Hsl, !length_app. cbn. lia.
  - cbn. by rewrite <- app_assoc.
  - rewrite !length_app. cbn. lia.
  - cbn in Hlb. lia.
  - cbn in Hf. lia.
Qed.

(** ** The extra buffers *)

Lemma le32_bytes32 v : 0 <= v < 2 ^ 32 → le32 (bytes32 v) = v.
Proof.
  intros Hv. unfold le32, bytes32. cbn [foldr].
  pose proof (Z.div_mod v 256). pose proof (Z.div_mod (v / 256) 256). pose proof (Z.div_mod (v / 65536) 256).
  assert (v / 65536 = v / 256 / 256) by (rewrite Z.div_div by lia; done).
  assert (v / 16777216 = v / 65536 / 256) by (rewrite Z.div_div by lia; done).
  assert (v / 16777216 mod 256 = v / 16777216) by (apply Z.mod_small; split; [apply Z.div_pos; lia|apply Z.div_lt_upper_bound; lia]).
  lia.
Qed.

(** The list the kernel expects: from [i] on the buffers [l], the last names none. *)
Fixpoint chain (m : gmap Z (list Z)) (i : Z) (l : list Z) : Prop :=
  match l with
  | [] => i = 0
  | a :: l => i = a ∧ ∃ b, m !! NETMAP_BUF a = Some b ∧ (4 <= length b)%nat ∧ chain m (le32 (take 4 b)) l
  end.

Lemma chain_ext m m' l : ∀ i, (∀ a, a ∈ l → m' !! NETMAP_BUF a = m !! NETMAP_BUF a) → chain m i l → chain m' i l.
Proof.
  induction l as [|a l IH]; intros i Hm; [done|]. intros (-> & b & Hb & Hl & Hc). split; [done|]. exists b.
  rewrite Hm by apply list_elem_of_here. split_and!; [done|done|]. apply IH; [|done]. intros c Hc'. apply Hm. by apply list_elem_of_further.
Qed.

Definition linkable (m : gmap Z (list Z)) (l : list Z) : Prop :=
  Forall (λ a, 0 <= a < 2 ^ 32 ∧ ∃ b, m !! NETMAP_BUF a = Some b ∧ (4 <= length b)%nat) l.

Lemma set_next_Ok s a b v : mem (h s) !! NETMAP_BUF a = Some b → (4 <= length b)%nat →
  on_h (if_netmap_buffer_set_next NETMAP_BUF a v) s = Ok (tt, set_h (set_mem (<[NETMAP_BUF a := bytes32 v ++ drop 4 b]> (mem (h s))) (h s)) s).
Proof.
  intros Hb Hl. apply on_h_Ok. unfold if_netmap_buffer_set_next, write, load, if_netmap_buffer_address. rewrite <- M_bind_assoc.
  erewrite M_bind_Ok by reflexivity. rewrite Hb. erewrite M_bind_Ok by reflexivity.
  rewrite (proj2 (Z.leb_le _ _)) by (cbn; lia). done.
Qed.

Lemma relink_spec l : ∀ a s, linkable (mem (h s)) (a :: l) → NoDup (a :: l) →
  ∃ m', relink NETMAP_BUF (a :: l) s = Ok (tt, set_h (set_mem m' (h s)) s) ∧ chain m' a (a :: l)
    ∧ ∀ c, c ∉ a :: l → m' !! NETMAP_BUF c = mem (h s) !! NETMAP_BUF c.
Proof.
  induction l as [|b l IH]; intros a s Hl Hnd; apply Forall_cons in Hl as [[Ha (ba & Hba & Hla)] Hl].
  - cbn [relink]. rewrite (set_next_Ok s a ba 0 Hba Hla). eexists. split; [reflexivity|]. split.
    + split; [done|]. eexists. split; [apply lookup_insert_eq|]. split; [rewrite length_app, length_drop; cbn; lia|]. done.
    + intros c Hc. rewrite lookup_insert_ne; [done|]. intros E%Hbuf. subst. by apply Hc, list_elem_of_here.
  - apply NoDup_cons in Hnd as [Hni Hnd]. cbn [relink]. rewrite (M_bind_Ok _ _ _ _ _ (set_next_Ok s a ba b Hba Hla)).
    set (s1 := set_h _ s).
    assert (Hne : ∀ c, c ∈ b :: l → mem (h s1) !! NETMAP_BUF c = mem (h s) !! NETMAP_BUF c).
    { intros c Hc. cbn. rewrite lookup_insert_ne; [done|]. intros E%Hbuf. by subst. }
    destruct (IH b s1) as (m' & Hr & Hch & Hrest); [|done|].
    { unfold linkable in *. rewrite Forall_forall in Hl. apply Forall_forall. intros c Hc. rewrite Hne by done. by apply Hl. }
    exists m'. split; [exact Hr|]. split.
    + split; [done|]. exists (bytes32 b ++ drop 4 ba). rewrite (Hrest a Hni). split; [apply lookup_insert_eq|].
      split; [rewrite length_app, length_drop; cbn; lia|]. rewrite take_app_le by (cbn; lia). change (take 4 (bytes32 b)) with (bytes32 b).
      apply Forall_cons in Hl as [[Hb _] _]. by rewrite le32_bytes32.
    + intros c Hc. apply not_elem_of_cons in Hc as [Hc1 Hc2]. rewrite (Hrest c Hc2). cbn. rewrite lookup_insert_ne; [done|]. by intros E%Hbuf.
Qed.

(** [C26] [if_netmap_detach] returns; each slot of both rings has the buffer it had when the
    interface was attached and no context; the last interface of a pool leaves the list of
    the extra buffers, complete and in their order, where the kernel looks for it. *)
Theorem if_netmap_detach_restores s fuel :
  let r := hw_rx_ring (h s) in let t := hw_tx_ring (h s) in let p := pool s in
  0 < num_slots r → num_slots r = Z.of_nat (length (slot r)) → 0 < num_slots t → num_slots t = Z.of_nat (length (slot t)) → 0 <= nr_buf_size t →
  length (rx_ring_bufs (sc s)) = length (slot r) → length (tx_ring_bufs (sc s)) = length (slot t) →
  1 <= num_interfaces p < 2 ^ 32 → num_extra p = Z.of_nat (length (extra_indices p)) →
  linkable (mem (h s)) (extra_indices p) → NoDup (extra_indices p) → (length (slot r) + length (slot t) <= fuel)%nat →
  ∃ s', if_netmap_detach NETMAP_BUF nm_ring_next fuel s = Ok (0, s')
    ∧ buf_idx <$> slot (hw_rx_ring (h s')) = rx_ring_bufs (sc s) ∧ buf_idx <$> slot (hw_tx_ring (h s')) = tx_ring_bufs (sc s)
    ∧ ring_ctxs (hw_rx_ring (h s')) = [] ∧ ring_ctxs (hw_tx_ring (h s')) = []
    ∧ num_interfaces (pool s') = num_interfaces p - 1
    ∧ (num_interfaces p = 1 → extra_indices p ≠ [] → chain (mem (h s')) (ni_bufs_head (h s')) (extra_indices p)).
Proof.
  intros r t p Hr0 Hrn Ht0 Htn Hz Hlr Hlt Hp He Hlink Hnd Hf. unfold if_netmap_detach.
  rewrite (M_bind_Ok _ _ _ _ _ (restore_rx_spec (slot r) [] [] (rx_ring_bufs (sc s)) fuel s ltac:(intros E; fold r in E; rewrite E in Hrn; cbn in Hrn; lia) eq_refl Hrn eq_refl eq_refl Hlr ltac:(lia))).
  set (s1 := set_h _ s).
  rewrite (M_bind_Ok _ _ _ _ _ (restore_tx_spec (slot t) [] [] (tx_ring_bufs (sc s)) fuel s1 ltac:(intros E; fold t in E; rewrite E in Htn; cbn in Htn; lia) eq_refl Htn eq_refl Hz eq_refl Hlt ltac:(lia))).
  set (s2 := set_h _ s1). erewrite M_bind_Ok by reflexivity. change (pool s2) with p. rewrite (wrap_u_id 32) by lia.
  erewrite M_bind_Ok by reflexivity. set (s3 := set_pool _ s2).
  assert (Hz1 : ∀ l k, length l = length k → buf_idx <$> zip_with reset_rx l k = k ∧ omap s_ptr (zip_with reset_rx l k) = []).
  { induction l as [|x l IH]; intros [|k ks] E; try done. destruct (IH ks) as [E1 E2]; [cbn in E; lia|]. cbn. rewrite E1, E2. done. }
  assert (Hz2 : ∀ l k, length l = length k → buf_idx <$> zip_with reset_tx l k = k ∧ omap s_ptr (zip_with reset_tx l k) = []).
  { induction l as [|x l IH]; intros [|k ks] E; try done. destruct (IH ks) as [E1 E2]; [cbn in E; lia|]. cbn. rewrite E1, E2. done. }
  destruct (Hz1 (slot r) (rx_ring_bufs (sc s))) as [R1 R2]; [done|]. destruct (Hz2 (slot t) (tx_ring_bufs (sc s))) as [T1 T2]; [done|].
  destruct ((num_interfaces p - 1 =? 0) && negb (num_extra p =? 0)) eqn:E.
  - bool_to_prop. destruct (extra_indices p) as [|a l] eqn:El; [cbn in He; lia|]. rewrite <- M_bind_assoc. erewrite M_bind_Ok by reflexivity.
    rewrite <- M_bind_assoc. erewrite M_bind_Ok by (by apply on_h_Ok). set (s4 := set_h _ s3).
    destruct (relink_spec l a s4 Hlink Hnd) as (m' & Hrun & Hch & _). rewrite (M_bind_Ok _ _ _ _ _ Hrun). eexists. split; [reflexivity|].
    split_and!; done.
  - erewrite M_bind_Ok by reflexivity. eexists. split; [reflexivity|]. split_and!; try done.
    intros Hp1 Hne. rewrite Hp1, He in E. rewrite (proj2 (Z.eqb_neq (Z.of_nat _) 0)) in E; [done|]. by destruct (extra_indices p).
Qed.

End Detach.

(** The interface of the example, attached and detached. *)
Definition attached : nm :=
  match if_netmap_pd_ctx_pool_init_global NetmapRun.buf_addr NetmapRun.ex_next 0 id Some 0 2 4 2048 2 NetmapRun.ex_start with
  | Ok (_, s) => s | _ => NetmapRun.ex_start end.

Lemma if_netmap_detach_restores_witness :
  rx_ring_bufs (sc attached) = [10; 11] ∧ extra_indices (pool attached) = [30; 31]
  ∧ ∃ s', if_netmap_detach NetmapRun.buf_addr NetmapRun.ex_next 4 attached = Ok (0, s')
    ∧ buf_idx <$> slot (hw_rx_ring (h s')) = rx_ring_bufs (sc attached) ∧ buf_idx <$> slot (hw_tx_ring (h s')) = tx_ring_bufs (sc attached)
    ∧ ring_ctxs (hw_rx_ring (h s')) = [] ∧ ring_ctxs (hw_tx_ring (h s')) = []
    ∧ num_interfaces (pool s') = num_interfaces (pool attached) - 1
    ∧ (num_interfaces (pool attached) = 1 → extra_indices (pool attached) ≠ [] →
       chain NetmapRun.buf_addr (mem (h s')) (ni_bufs_head (h s')) (extra_indices (pool attached))).
Proof.
  split; [vm_compute; reflexivity|]. split; [vm_compute; reflexivity|].
  assert (Hlink : linkable NetmapRun.buf_addr (mem (h attached)) (extra_indices (pool attached))).
  { change (extra_indices (pool attached)) with [30; 31]. apply Forall_cons. split; [split; [lia|eexists; split; [vm_compute; reflexivity|cbn; lia]]|].
    apply Forall_cons. split; [split; [lia|eexists; split; [vm_compute; reflexivity|cbn; lia]]|]. by apply Forall_nil. }
  apply (if_netmap_detach_restores NetmapRun.buf_addr NetmapRun.ex_next).
  - done.
  - intros i j. unfold NetmapRun.buf_addr. lia.
  - vm_compute. done.
  - vm_compute. done.
  - vm_compute. done.
  - vm_compute. done.
  - vm_compute. done.
  - vm_compute. done.
  - vm_compute. done.
  - change (num_interfaces (pool attached)) with 1. lia.
  - vm_compute. done.
  - exact Hlink.
  - change (extra_indices (pool attached)) with [30; 31]. apply (bool_decide_unpack _). vm_compute. done.
  - change (length (slot (hw_rx_ring (h attached)))) with 2%nat. change (length (slot (hw_tx_ring (h attached)))) with 2%nat. lia.
Defined.

End NetmapDetach.
