(* ===== verification/Nv.v ===== *)
(** * Name-value lists: src/src/lib/libuinetnv (nvlist.c, nvpair.c)

    The lists of named, typed values in which the statistics services talk to their
    clients.  A list is a value here: the sanity pointers from a pair to its list and
    the magic numbers, which only assertions read, are left out, and memory allocation
    succeeds.  Descriptors are kept, since lists own them: the state holds the table of
    open descriptors and [errno].  A failed assertion aborts the process ([Panic]).
    The host is little-endian.  The variants of an operation that take a printf-like
    format, and those that take a name, differ in how they make the name; the
    definitions take the name that results. *)
From stdpp Require Import numbers.
From S2P Require Import Prelude.

Module Nv.

(** The codes of errno.h on FreeBSD, the host this library is built for. *)
Definition ENOENT : Z := 2.
Definition EBADF : Z := 9.
Definition ENOMEM : Z := 12.
Definition EEXIST : Z := 17.
Definition EINVAL : Z := 22.
Definition EMFILE : Z := 24.
Definition EOPNOTSUPP : Z := 45.
Definition ENAMETOOLONG : Z := 63.

Definition NV_NAME_MAX : Z := 2048.
Definition NV_TYPE_NONE : Z := 0.
Definition NV_TYPE_NULL : Z := 1.
Definition NV_TYPE_BOOL : Z := 2.
Definition NV_TYPE_NUMBER : Z := 3.
Definition NV_TYPE_STRING : Z := 4.
Definition NV_TYPE_NVLIST : Z := 5.
Definition NV_TYPE_DESCRIPTOR : Z := 6.
Definition NV_TYPE_BINARY : Z := 7.
Definition NV_TYPE_FIRST : Z := NV_TYPE_NULL.
Definition NV_TYPE_LAST : Z := NV_TYPE_BINARY.

Definition NV_FLAG_IGNORE_CASE : Z := 1.
Definition NV_FLAG_BIG_ENDIAN : Z := 128.
Definition NV_FLAG_PUBLIC_MASK : Z := NV_FLAG_IGNORE_CASE.
Definition NV_FLAG_ALL_MASK : Z := 129.

(** * Data

    [nvp_type] and [nvp_data] of the C structure are one field: the type says what the
    64 bits of data are.  Texts and blocks are the bytes pointed to, a text without its
    terminator. *)
Inductive nvdata : Type :=
| NvNull
| NvBool (d : Z)
| NvNumber (d : Z)
| NvString (s : list Z)
| NvNvlist (l : nvlist)
| NvDescriptor (d : Z)
| NvBinary (b : list Z)
with nvpair : Type :=
| mk_nvp (name : list Z) (data : nvdata) (datasize : Z)
with nvlist : Type :=
| mk_nvl (error flags : Z) (head : list nvpair).

Definition nvp_name (p : nvpair) : list Z := let '(mk_nvp n _ _) := p in n.
Definition nvp_data (p : nvpair) : nvdata := let '(mk_nvp _ d _) := p in d.
Definition nvp_datasize (p : nvpair) : Z := let '(mk_nvp _ _ z) := p in z.
Definition nvl_error (l : nvlist) : Z := let '(mk_nvl e _ _) := l in e.
Definition nvl_flags (l : nvlist) : Z := let '(mk_nvl _ f _) := l in f.
Definition nvl_head (l : nvlist) : list nvpair := let '(mk_nvl _ _ h) := l in h.
Definition set_error (e : Z) (l : nvlist) : nvlist := mk_nvl e (nvl_flags l) (nvl_head l).
Definition set_head (h : list nvpair) (l : nvlist) : nvlist := mk_nvl (nvl_error l) (nvl_flags l) h.

(** The process: [errno], the open descriptors with the files they are for, and the
    limit of their number. *)
Record host := mk_host { errno : Z; files : gmap Z nat; nofile : Z }.
Definition N := M host.
Definition set_errno (e : Z) : N unit := modify (λ s, mk_host e (files s) (nofile s)).
Definition set_files (f : gmap Z nat) : N unit := modify (λ s, mk_host (errno s) f (nofile s)).

(** [PJDLOG_ASSERT]. *)
Definition assertM (b : bool) : N unit := if b then mret () else faultM Panic.

(** The error exits: [errno] is set and NULL returned. *)
Definition fail {A} (e : Z) : N (option A) := _ ← set_errno e; mret None.

(** ** Descriptors *)

Definition fd_is_valid (fd : Z) : N bool :=
  s ← get_st;
  if bool_decide (is_Some (files s !! fd)) then mret true else _ ← set_errno EBADF; mret false.

(** The lowest descriptor that is not open. *)
Definition lowest_fd (f : gmap Z nat) : Z :=
  match list_find (λ i, f !! Z.of_nat i = None) (seq 0 (S (size f))) with
  | Some (_, i) => Z.of_nat i
  | None => -1
  end.

Definition dup_fd (fd : Z) : N Z :=
  s ← get_st;
  match files s !! fd with
  | None => _ ← set_errno EBADF; mret (-1)
  | Some file =>
      let n := lowest_fd (files s) in
      if n <? nofile s then _ ← set_files (<[n := file]> (files s)); mret n
      else _ ← set_errno EMFILE; mret (-1)
  end.

Definition close (fd : Z) : N unit :=
  s ← get_st;
  match files s !! fd with
  | None => set_errno EBADF
  | Some _ => set_files (delete fd (files s))
  end.

(** * Pairs *)

Definition nvpair_type (p : nvpair) : Z :=
  match nvp_data p with
  | NvNull => NV_TYPE_NULL
  | NvBool _ => NV_TYPE_BOOL
  | NvNumber _ => NV_TYPE_NUMBER
  | NvString _ => NV_TYPE_STRING
  | NvNvlist _ => NV_TYPE_NVLIST
  | NvDescriptor _ => NV_TYPE_DESCRIPTOR
  | NvBinary _ => NV_TYPE_BINARY
  end.

Definition nvpair_name : nvpair → list Z := nvp_name.
Definition nvpair_header_size : Z := 11.
Definition nvpair_size : nvpair → Z := nvp_datasize.

Definition nvpair_get_bool (p : nvpair) : result bool :=
  match nvp_data p with NvBool d | NvNumber d | NvDescriptor d => Ok (d =? 1) | NvNull => Ok false | _ => Fault BadPointer end.
Definition nvpair_get_number (p : nvpair) : result Z :=
  match nvp_data p with NvBool d | NvNumber d | NvDescriptor d => Ok d | NvNull => Ok 0 | _ => Fault BadPointer end.
Definition nvpair_get_string (p : nvpair) : result (list Z) :=
  match nvp_data p with NvString s => Ok s | _ => Fault Panic end.
Definition nvpair_get_nvlist (p : nvpair) : result nvlist :=
  match nvp_data p with NvNvlist l => Ok l | _ => Fault Panic end.
Definition nvpair_get_descriptor (p : nvpair) : result Z :=
  match nvp_data p with NvDescriptor d => Ok (s32 d) | _ => Fault Panic end.
Definition nvpair_get_binary (p : nvpair) : result (list Z * Z) :=
  match nvp_data p with NvBinary b => Ok (b, nvp_datasize p) | _ => Fault Panic end.

(** [nvpair_allocv]; the type is that of the data. *)
Definition nvpair_allocv (data : nvdata) (datasize : Z) (name : list Z) : N (option nvpair) :=
  let namelen := Z.of_nat (length name) in
  _ ← assertM (0 <? namelen);
  if NV_NAME_MAX <=? namelen then fail ENAMETOOLONG
  else mret (Some (mk_nvp name data datasize)).

Definition nvpair_createv_null (name : list Z) : N (option nvpair) := nvpair_allocv NvNull 0 name.
Definition nvpair_createv_bool (value : bool) (name : list Z) : N (option nvpair) :=
  nvpair_allocv (NvBool (b2z value)) 1 name.
Definition nvpair_createv_number (value : Z) (name : list Z) : N (option nvpair) :=
  nvpair_allocv (NvNumber value) 8 name.

(** A pointer that may be NULL is an [option]. *)
Definition nvpair_createv_string (value : option (list Z)) (name : list Z) : N (option nvpair) :=
  match value with
  | None => fail EINVAL
  | Some data => nvpair_allocv (NvString data) (Z.of_nat (length data) + 1) name
  end.

Definition nvpair_createv_binary (value : option (list Z)) (name : list Z) : N (option nvpair) :=
  match value with
  | None => fail EINVAL
  | Some data =>
      let size := Z.of_nat (length data) in
      if size =? 0 then fail EINVAL else nvpair_allocv (NvBinary data) size name
  end.

Definition nvpair_createv_descriptor (value : Z) (name : list Z) : N (option nvpair) :=
  valid ← (if value <? 0 then mret false else fd_is_valid value);
  if negb valid then fail EBADF
  else
    value ← dup_fd value;
    if value <? 0 then mret None
    else
      nvp ← nvpair_allocv (NvDescriptor (u64 value)) 8 name;
      match nvp with
      | None => _ ← close value; mret None
      | Some _ => mret nvp
      end.

(** The variants that take their argument over. *)
Definition nvpair_movev_string (value : option (list Z)) (name : list Z) : N (option nvpair) :=
  match value with
  | None => fail EINVAL
  | Some data => nvpair_allocv (NvString data) (Z.of_nat (length data) + 1) name
  end.

Definition nvpair_movev_descriptor (value : Z) (name : list Z) : N (option nvpair) :=
  valid ← (if value <? 0 then mret false else fd_is_valid value);
  if negb valid then fail EBADF else nvpair_allocv (NvDescriptor (u64 value)) 8 name.

Definition nvpair_movev_binary (value : option (list Z)) (name : list Z) : N (option nvpair) :=
  match value with
  | None => fail EINVAL
  | Some data =>
      let size := Z.of_nat (length data) in
      if size =? 0 then fail EINVAL else nvpair_allocv (NvBinary data) size name
  end.

(** * Lists *)

Definition nvlist_create (flags : Z) : N nvlist :=
  _ ← assertM (clear_flag flags NV_FLAG_PUBLIC_MASK =? 0);
  mret (mk_nvl 0 flags []).

(** Of a list that may be NULL. *)
Definition nvlist_error (nvl : option nvlist) : Z :=
  match nvl with None => ENOMEM | Some l => nvl_error l end.

Definition nvlist_first_nvpair (nvl : nvlist) : option nvpair := head (nvl_head nvl).

Definition nvlist_empty (nvl : nvlist) : N bool :=
  _ ← assertM (nvl_error nvl =? 0);
  mret (match nvlist_first_nvpair nvl with None => true | Some _ => false end).

(** ** Destruction *)

Definition for_each {A} (f : A → N unit) : list A → N unit :=
  fix go l := match l with [] => mret () | a :: l => _ ← f a; go l end.

Definition free_data (destroy : nvlist → N unit) (p : nvpair) : N unit :=
  match nvp_data p with
  | NvDescriptor d => close (s32 d)
  | NvNvlist l => destroy l
  | _ => mret ()
  end.

Fixpoint nvlist_destroy (nvl : nvlist) : N unit :=
  let '(mk_nvl _ _ head) := nvl in
  serrno ← gets errno;
  _ ← for_each (free_data nvlist_destroy) head;
  set_errno serrno.

Definition nvpair_free : nvpair → N unit := free_data nvlist_destroy.

(** ** Search *)

Definition tolower (c : Z) : Z := if (65 <=? c) && (c <=? 90) then c + 32 else c.
Definition strcmp_eq (a b : list Z) : bool := bool_decide (a = b).
Definition strcasecmp_eq (a b : list Z) : bool := bool_decide (tolower <$> a = tolower <$> b).

(** Whether two names are the same in a list with these flags. *)
Definition same_name (flags : Z) (a b : list Z) : bool :=
  if has_flag flags NV_FLAG_IGNORE_CASE then strcasecmp_eq a b else strcmp_eq a b.

(** Whether the scan of [nvlist_findv] stops at this pair. *)
Definition matches (flags type : Z) (name : list Z) (p : nvpair) : bool :=
  if negb (type =? NV_TYPE_NONE) && negb (nvpair_type p =? type) then false
  else same_name flags (nvpair_name p) name.

(** The pair found is given with its position. *)
Definition nvlist_findv (nvl : nvlist) (type : Z) (name : list Z) : N (option (nat * nvpair)) :=
  _ ← assertM (nvl_error nvl =? 0);
  _ ← assertM ((type =? NV_TYPE_NONE) || (NV_TYPE_FIRST <=? type) && (type <=? NV_TYPE_LAST));
  match list_find (λ p, matches (nvl_flags nvl) type name p = true) (nvl_head nvl) with
  | None => fail ENOENT
  | Some r => mret (Some r)
  end.

Definition nvlist_existsv_type (nvl : nvlist) (type : Z) (name : list Z) : N bool :=
  r ← nvlist_findv nvl type name;
  mret (match r with Some _ => true | None => false end).

Definition nvlist_exists (nvl : nvlist) (name : list Z) : N bool := nvlist_existsv_type nvl NV_TYPE_NONE name.

(** [nvlist_remove_nvpair]: the pair at this position leaves the list. *)
Definition nvlist_remove_nvpair (nvl : nvlist) (i : nat) : nvlist := set_head (delete i (nvl_head nvl)) nvl.

(** ** Insertion *)

Definition nvpair_insert (nvp : nvpair) (nvl : nvlist) : N nvlist :=
  e ← nvlist_exists nvl (nvpair_name nvp);
  _ ← assertM (negb e);
  mret (set_head (nvl_head nvl ++ [nvp]) nvl).

Definition nvlist_move_nvpair (nvl : nvlist) (nvp : nvpair) : N nvlist :=
  if negb (nvl_error nvl =? 0) then
    _ ← nvpair_free nvp; _ ← set_errno (nvl_error nvl); mret nvl
  else
    e ← nvlist_exists nvl (nvpair_name nvp);
    if (e : bool) then _ ← nvpair_free nvp; _ ← set_errno EEXIST; mret (set_error EEXIST nvl)
    else nvpair_insert nvp nvl.

(** ** Copies *)

Definition clone_loop (clone : nvpair → N (option nvpair)) : list nvpair → nvlist → N (bool * nvlist) :=
  fix go head newnvl :=
    match head with
    | [] => mret (true, newnvl)
    | p :: head =>
        newnvp ← clone p;
        match newnvp with
        | None => mret (false, newnvl)
        | Some q => newnvl ← nvlist_move_nvpair newnvl q; go head newnvl
        end
    end.

Definition create_nvlist (clone : nvlist → N (option nvlist)) (value : nvlist) (name : list Z) : N (option nvpair) :=
  nvl ← clone value;
  match nvl with
  | None => mret None
  | Some l =>
      nvp ← nvpair_allocv (NvNvlist l) 0 name;
      match nvp with
      | None => _ ← nvlist_destroy l; mret None
      | Some _ => mret nvp
      end
  end.

Definition clone_pair (clone : nvlist → N (option nvlist)) (p : nvpair) : N (option nvpair) :=
  let name := nvpair_name p in
  match nvp_data p with
  | NvNull => nvpair_createv_null name
  | NvBool d => nvpair_createv_bool (d =? 1) name
  | NvNumber d => nvpair_createv_number d name
  | NvString s => nvpair_createv_string (Some s) name
  | NvNvlist l => create_nvlist clone l name
  | NvDescriptor d => nvpair_createv_descriptor (s32 d) name
  | NvBinary b => nvpair_createv_binary (Some b) name
  end.

Fixpoint nvlist_clone (nvl : nvlist) : N (option nvlist) :=
  let '(mk_nvl error flags head) := nvl in
  if negb (error =? 0) then fail error
  else
    newnvl ← nvlist_create (Z.land flags NV_FLAG_PUBLIC_MASK);
    '(all, newnvl) ← clone_loop (clone_pair nvlist_clone) head newnvl;
    if (all : bool) then mret (Some newnvl) else _ ← nvlist_destroy newnvl; mret None.

Definition nvpair_clone : nvpair → N (option nvpair) := clone_pair nvlist_clone.

Definition nvpair_createv_nvlist (value : option nvlist) (name : list Z) : N (option nvpair) :=
  match value with
  | None => fail EINVAL
  | Some l => create_nvlist nvlist_clone l name
  end.

Definition nvpair_movev_nvlist (value : option nvlist) (name : list Z) : N (option nvpair) :=
  match value with
  | None => fail EINVAL
  | Some l =>
      nvp ← nvpair_allocv (NvNvlist l) 0 name;
      match nvp with
      | None => _ ← nvlist_destroy l; mret None
      | Some _ => mret nvp
      end
  end.

(** ** Operations that add a pair

    All have the same body around the making of the pair; those that take their
    argument over release it, when the list has an error already, with [release]. *)
Definition add_with (release : N unit) (make : N (option nvpair)) (nvl : nvlist) : N nvlist :=
  if negb (nvl_error nvl =? 0) then _ ← release; _ ← set_errno (nvl_error nvl); mret nvl
  else
    nvp ← make;
    match nvp with
    | None =>
        e ← gets (λ s, if negb (errno s =? 0) then errno s else ENOMEM);
        _ ← set_errno e; mret (set_error e nvl)
    | Some p => nvlist_move_nvpair nvl p
    end.

Definition nvlist_addv_null (nvl : nvlist) (name : list Z) : N nvlist :=
  add_with (mret ()) (nvpair_createv_null name) nvl.
Definition nvlist_addv_bool (nvl : nvlist) (value : bool) (name : list Z) : N nvlist :=
  add_with (mret ()) (nvpair_createv_bool value name) nvl.
Definition nvlist_addv_number (nvl : nvlist) (value : Z) (name : list Z) : N nvlist :=
  add_with (mret ()) (nvpair_createv_number value name) nvl.
Definition nvlist_addv_string (nvl : nvlist) (value : option (list Z)) (name : list Z) : N nvlist :=
  add_with (mret ()) (nvpair_createv_string value name) nvl.
Definition nvlist_addv_nvlist (nvl : nvlist) (value : option nvlist) (name : list Z) : N nvlist :=
  add_with (mret ()) (nvpair_createv_nvlist value name) nvl.
Definition nvlist_addv_descriptor (nvl : nvlist) (value : Z) (name : list Z) : N nvlist :=
  add_with (mret ()) (nvpair_createv_descriptor value name) nvl.
Definition nvlist_addv_binary (nvl : nvlist) (value : option (list Z)) (name : list Z) : N nvlist :=
  add_with (mret ()) (nvpair_createv_binary value name) nvl.

Definition nvlist_movev_string (nvl : nvlist) (value : option (list Z)) (name : list Z) : N nvlist :=
  add_with (mret ()) (nvpair_movev_string value name) nvl.
Definition nvlist_movev_nvlist (nvl : nvlist) (value : option nvlist) (name : list Z) : N nvlist :=
  add_with (match value with Some l => nvlist_destroy l | None => mret () end) (nvpair_movev_nvlist value name) nvl.
Definition nvlist_movev_descriptor (nvl : nvlist) (value : Z) (name : list Z) : N nvlist :=
  add_with (close value) (nvpair_movev_descriptor value name) nvl.
Definition nvlist_movev_binary (nvl : nvlist) (value : option (list Z)) (name : list Z) : N nvlist :=
  add_with (mret ()) (nvpair_movev_binary value name) nvl.

(** A pair that is not in a list yet is copied. *)
Definition nvlist_add_nvpair (nvl : nvlist) (nvp : nvpair) : N nvlist :=
  if negb (nvl_error nvl =? 0) then _ ← set_errno (nvl_error nvl); mret nvl
  else
    e ← nvlist_exists nvl (nvpair_name nvp);
    if (e : bool) then _ ← set_errno EEXIST; mret (set_error EEXIST nvl)
    else
      newnvp ← nvpair_clone nvp;
      match newnvp with
      | None =>
          e ← gets (λ s, if negb (errno s =? 0) then errno s else ENOMEM);
          _ ← set_errno e; mret (set_error e nvl)
      | Some q => nvpair_insert q nvl
      end.

(** ** Operations that read, take and free

    A pair that does not exist is reported and the process aborted. *)
Definition get_with {A} (type : Z) (get : nvpair → result A) (nvl : nvlist) (name : list Z) : N A :=
  r ← nvlist_findv nvl type name;
  match r with
  | None => faultM Panic
  | Some (_, p) => liftR (get p)
  end.

Definition nvlist_getv_bool : nvlist → list Z → N bool := get_with NV_TYPE_BOOL nvpair_get_bool.
Definition nvlist_getv_number : nvlist → list Z → N Z := get_with NV_TYPE_NUMBER nvpair_get_number.
Definition nvlist_getv_string : nvlist → list Z → N (list Z) := get_with NV_TYPE_STRING nvpair_get_string.
Definition nvlist_getv_nvlist : nvlist → list Z → N nvlist := get_with NV_TYPE_NVLIST nvpair_get_nvlist.
Definition nvlist_getv_descriptor : nvlist → list Z → N Z := get_with NV_TYPE_DESCRIPTOR nvpair_get_descriptor.
Definition nvlist_getv_binary : nvlist → list Z → N (list Z * Z) := get_with NV_TYPE_BINARY nvpair_get_binary.

Definition take_with {A} (type : Z) (get : nvpair → result A) (nvl : nvlist) (name : list Z) : N (A * nvlist) :=
  r ← nvlist_findv nvl type name;
  match r with
  | None => faultM Panic
  | Some (i, p) => a ← liftR (get p); mret (a, nvlist_remove_nvpair nvl i)
  end.

Definition nvlist_takev_bool : nvlist → list Z → N (bool * nvlist) := take_with NV_TYPE_BOOL nvpair_get_bool.
Definition nvlist_takev_number : nvlist → list Z → N (Z * nvlist) := take_with NV_TYPE_NUMBER nvpair_get_number.
Definition nvlist_takev_string : nvlist → list Z → N (list Z * nvlist) := take_with NV_TYPE_STRING nvpair_get_string.
Definition nvlist_takev_nvlist : nvlist → list Z → N (nvlist * nvlist) := take_with NV_TYPE_NVLIST nvpair_get_nvlist.
Definition nvlist_takev_descriptor : nvlist → list Z → N (Z * nvlist) := take_with NV_TYPE_DESCRIPTOR nvpair_get_descriptor.
Definition nvlist_takev_binary : nvlist → list Z → N ((list Z * Z) * nvlist) := take_with NV_TYPE_BINARY nvpair_get_binary.

(** With a value for pairs that are not there (dnvlist.c). *)
Definition default_get {A} (type : Z) (get : nvlist → list Z → N A) (nvl : nvlist) (defval : A) (name : list Z) : N A :=
  e ← nvlist_existsv_type nvl type name;
  if (e : bool) then get nvl name else mret defval.

Definition dnvlist_getv_bool : nvlist → bool → list Z → N bool := default_get NV_TYPE_BOOL nvlist_getv_bool.
Definition dnvlist_getv_number : nvlist → Z → list Z → N Z := default_get NV_TYPE_NUMBER nvlist_getv_number.
Definition dnvlist_getv_string : nvlist → list Z → list Z → N (list Z) := default_get NV_TYPE_STRING nvlist_getv_string.
Definition dnvlist_getv_nvlist : nvlist → nvlist → list Z → N nvlist := default_get NV_TYPE_NVLIST nvlist_getv_nvlist.
Definition dnvlist_getv_descriptor : nvlist → Z → list Z → N Z := default_get NV_TYPE_DESCRIPTOR nvlist_getv_descriptor.
Definition dnvlist_getv_binary : nvlist → list Z * Z → list Z → N (list Z * Z) := default_get NV_TYPE_BINARY nvlist_getv_binary.

Definition default_take {A} (type : Z) (take : nvlist → list Z → N (A * nvlist)) (nvl : nvlist) (defval : A) (name : list Z) :
    N (A * nvlist) :=
  e ← nvlist_existsv_type nvl type name;
  if (e : bool) then take nvl name else mret (defval, nvl).

Definition dnvlist_takev_bool : nvlist → bool → list Z → N (bool * nvlist) := default_take NV_TYPE_BOOL nvlist_takev_bool.
Definition dnvlist_takev_number : nvlist → Z → list Z → N (Z * nvlist) := default_take NV_TYPE_NUMBER nvlist_takev_number.
Definition dnvlist_takev_string : nvlist → list Z → list Z → N (list Z * nvlist) := default_take NV_TYPE_STRING nvlist_takev_string.
Definition dnvlist_takev_nvlist : nvlist → nvlist → list Z → N (nvlist * nvlist) := default_take NV_TYPE_NVLIST nvlist_takev_nvlist.
Definition dnvlist_takev_descriptor : nvlist → Z → list Z → N (Z * nvlist) := default_take NV_TYPE_DESCRIPTOR nvlist_takev_descriptor.
Definition dnvlist_takev_binary : nvlist → list Z * Z → list Z → N ((list Z * Z) * nvlist) := default_take NV_TYPE_BINARY nvlist_takev_binary.

Definition nvlist_takev_nvpair (nvl : nvlist) (name : list Z) : N (option nvpair * nvlist) :=
  r ← nvlist_findv nvl NV_TYPE_NONE name;
  match r with
  | None => mret (None, nvl)
  | Some (i, p) => mret (Some p, nvlist_remove_nvpair nvl i)
  end.

Definition nvlist_freev_type (nvl : nvlist) (type : Z) (name : list Z) : N nvlist :=
  _ ← assertM (nvl_error nvl =? 0);
  r ← nvlist_findv nvl type name;
  match r with
  | None => faultM Panic
  | Some (i, p) => _ ← nvpair_free p; mret (nvlist_remove_nvpair nvl i)
  end.

End Nv.
