(* ===== verification/NvPack.v ===== *)
(** * Packing and unpacking name-value lists: src/src/lib/libuinetnv (nvlist.c, nvpair.c)

    A packed list is a header of 19 bytes and the pairs, each a header of 11 bytes, the
    name with its terminator and the data; a list within a list is packed in its place.
    Packing writes at the end of what is there ([p_out]) and keeps count of the room
    that is left ([p_left]); unpacking reads from the bytes that follow the pointer up to
    the end of the memory, of which the first [leftp] belong to the list, so that a read
    too far is a fault. *)
From S2P Require Import Prelude Nv.

Module NvPack.
Import Nv.

(** * Integers in memory *)

Fixpoint le_bytes (n : nat) (v : Z) : list Z :=
  match n with O => [] | S n => v mod 256 :: le_bytes n (v / 256) end.

Definition le_val (bs : list Z) : Z := foldr (λ b v, b + 256 * v) 0 bs.

(** A field of a header: [be16toh] and [be64toh] reverse it when the sender was
    big-endian. *)
Definition get_int (flags : Z) (bs : list Z) : Z :=
  le_val (if has_flag flags NV_FLAG_BIG_ENDIAN then rev bs else bs).

(** * Sizes and descriptors *)

Definition xsize_pair (xsize : nvlist → N Z) (size : Z) (p : nvpair) : N Z :=
  let size := u64 (u64 (size + nvpair_header_size) + (Z.of_nat (length (nvpair_name p)) + 1)) in
  match nvp_data p with
  | NvNvlist l => z ← xsize l; mret (u64 (size + z))
  | _ => mret (u64 (size + nvpair_size p))
  end.

Definition fold_pairs {B} (f : B → nvpair → N B) : list nvpair → B → N B :=
  fix go l b := match l with [] => mret b | p :: l => b ← f b p; go l b end.

Definition nvlist_header_size : Z := 19.

Fixpoint nvlist_xsize (nvl : nvlist) (level : Z) : N Z :=
  let '(mk_nvl error _ head) := nvl in
  _ ← assertM (error =? 0);
  _ ← assertM (level <? 3);
  fold_pairs (xsize_pair (λ l, nvlist_xsize l (level + 1))) head nvlist_header_size.

Definition nvlist_size (nvl : nvlist) : N Z := nvlist_xsize nvl 0.

Definition xdescriptors_pair (xdesc : nvlist → list Z → N (list Z)) (descs : list Z) (p : nvpair) : N (list Z) :=
  match nvp_data p with
  | NvDescriptor d => mret (descs ++ [s32 d])
  | NvNvlist l => xdesc l descs
  | _ => mret descs
  end.

(** The descriptors are put behind those that are in the array already. *)
Fixpoint nvlist_xdescriptors (nvl : nvlist) (level : Z) (descs : list Z) : N (list Z) :=
  let '(mk_nvl error _ head) := nvl in
  _ ← assertM (error =? 0);
  _ ← assertM (level <? 3);
  fold_pairs (xdescriptors_pair (λ l, nvlist_xdescriptors l (level + 1))) head descs.

Definition xndescriptors_pair (xnd : nvlist → N Z) (n : Z) (p : nvpair) : N Z :=
  match nvp_data p with
  | NvDescriptor _ => mret (u64 (n + 1))
  | NvNvlist l => z ← xnd l; mret (u64 (n + z))
  | _ => mret n
  end.

Fixpoint nvlist_xndescriptors (nvl : nvlist) (level : Z) : N Z :=
  let '(mk_nvl error _ head) := nvl in
  _ ← assertM (error =? 0);
  _ ← assertM (level <? 3);
  fold_pairs (xndescriptors_pair (λ l, nvlist_xndescriptors l (level + 1))) head 0.

Definition nvlist_ndescriptors (nvl : nvlist) : N Z := nvlist_xndescriptors nvl 0.

(** The array has room for one more than the descriptors counted, for the [-1] at its
    end. *)
Definition nvlist_descriptors (nvl : nvlist) : N (list Z * Z) :=
  nitems ← nvlist_ndescriptors nvl;
  fds ← (if 0 <? nitems then nvlist_xdescriptors nvl 0 [] else mret []);
  if Z.of_nat (length fds) <=? nitems + 1 then mret (fds, nitems) else faultM Overflow.

(** * Packing *)

Record out := mk_out { p_out : list Z; p_left : Z }.

(** [memcpy] to the pointer, which moves on. *)
Definition put (bs : list Z) (o : out) : N out :=
  let n := Z.of_nat (length bs) in
  _ ← assertM (n <=? p_left o);
  mret (mk_out (p_out o ++ bs) (p_left o - n)).

Definition nvlist_pack_header (nvl : nvlist) (o : out) : N out :=
  ndescs ← nvlist_ndescriptors nvl;
  let size := u64 (p_left o - nvlist_header_size) in
  put ([108; 0; u8 (nvl_flags nvl)] ++ le_bytes 8 ndescs ++ le_bytes 8 size) o.

Definition nvpair_pack_header (p : nvpair) (datasize : Z) (o : out) : N out :=
  let namesize := Z.of_nat (length (nvp_name p)) + 1 in
  _ ← assertM ((0 <? namesize) && (namesize <=? 65535));
  o ← put ([u8 (nvpair_type p)] ++ le_bytes 2 namesize ++ le_bytes 8 datasize) o;
  put (nvp_name p ++ [0]) o.

Definition nvpair_pack_null (o : out) : N out := mret o.
Definition nvpair_pack_bool (d : Z) (o : out) : N out := put [u8 d] o.
Definition nvpair_pack_number (d : Z) (o : out) : N out := put (le_bytes 8 d) o.
Definition nvpair_pack_string (s : list Z) (o : out) : N out := put (s ++ [0]) o.
Definition nvpair_pack_binary (b : list Z) (o : out) : N out := put b o.

(** A descriptor becomes its position in the array of descriptors that is sent; [None]
    is a NULL pointer to the position. *)
Definition nvpair_pack_descriptor (d : Z) (fdidx : option Z) (o : out) : N (out * option Z) :=
  if negb (s64 d =? -1) then
    match fdidx with
    | None => faultM Panic
    | Some i => o ← put (le_bytes 8 i) o; mret (o, Some (s64 (i + 1)))
    end
  else o ← put (le_bytes 8 d) o; mret (o, fdidx).

Definition nvpair_pack_nvlist (xpack : nvlist → option Z → N (option (list Z) * option Z))
    (l : nvlist) (datasize : Z) (fdidx : option Z) (o : out) : N (option out * option Z) :=
  if datasize =? 0 then mret (Some o, fdidx)
  else
    '(data, fdidx) ← xpack l fdidx;
    match data with
    | None => mret (None, fdidx)
    | Some bytes =>
        _ ← assertM (Z.of_nat (length bytes) =? datasize);
        o ← put bytes o;
        mret (Some o, fdidx)
    end.

(** The size of a list is computed on every packing. *)
Definition nvpair_pack (xpack : nvlist → option Z → N (option (list Z) * option Z))
    (p : nvpair) (fdidx : option Z) (o : out) : N (option out * option Z) :=
  datasize ← match nvp_data p with NvNvlist l => nvlist_size l | _ => mret (nvp_datasize p) end;
  o ← nvpair_pack_header p datasize o;
  match nvp_data p with
  | NvNull => o ← nvpair_pack_null o; mret (Some o, fdidx)
  | NvBool d => o ← nvpair_pack_bool d o; mret (Some o, fdidx)
  | NvNumber d => o ← nvpair_pack_number d o; mret (Some o, fdidx)
  | NvString s => o ← nvpair_pack_string s o; mret (Some o, fdidx)
  | NvNvlist l => nvpair_pack_nvlist xpack l datasize fdidx o
  | NvDescriptor d => '(o, fdidx) ← nvpair_pack_descriptor d fdidx o; mret (Some o, fdidx)
  | NvBinary b => o ← nvpair_pack_binary b o; mret (Some o, fdidx)
  end.

Definition pack_loop (pack : nvpair → option Z → out → N (option out * option Z)) :
    list nvpair → option Z → out → N (option out * option Z) :=
  fix go head fdidx o :=
    match head with
    | [] => mret (Some o, fdidx)
    | p :: head =>
        '(r, fdidx) ← pack p fdidx o;
        match r with
        | None => mret (None, fdidx)
        | Some o => go head fdidx o
        end
    end.

(** The buffer has exactly the size of the list; memory that stays unwritten would be
    indeterminate, which is a fault here. *)
Fixpoint nvlist_xpack (nvl : nvlist) (fdidx : option Z) : N (option (list Z) * option Z) :=
  let '(mk_nvl error flags head) := nvl in
  if negb (error =? 0) then _ ← set_errno error; mret (None, fdidx)
  else
    size ← nvlist_size (mk_nvl error flags head);
    o ← nvlist_pack_header (mk_nvl error flags head) (mk_out [] size);
    '(r, fdidx) ← pack_loop (nvpair_pack nvlist_xpack) head fdidx o;
    match r with
    | None => mret (None, fdidx)
    | Some o =>
        if p_left o =? 0 then mret (Some (p_out o), fdidx) else faultM OutOfBounds
    end.

Definition nvlist_pack (nvl : nvlist) : N (option (list Z)) :=
  if negb (nvl_error nvl =? 0) then fail (nvl_error nvl)
  else
    n ← nvlist_ndescriptors nvl;
    if 0 <? n then fail EOPNOTSUPP
    else '(r, _) ← nvlist_xpack nvl None; mret r.

(** * Unpacking *)

(** [memcpy] from the pointer. *)
Definition fetch (n : Z) (ptr : list Z) : N (list Z * list Z) :=
  if n <=? Z.of_nat (length ptr) then mret (take (Z.to_nat n) ptr, drop (Z.to_nat n) ptr)
  else faultM OutOfBounds.

Fixpoint strnlen (ptr : list Z) (n : nat) : result Z :=
  match n with
  | O => Ok 0
  | S n =>
      match ptr with
      | [] => Fault OutOfBounds
      | c :: ptr => if c =? 0 then Ok 0 else k ← strnlen ptr n; mret (k + 1)
      end
  end.

Fixpoint strdup (ptr : list Z) : result (list Z) :=
  match ptr with
  | [] => Fault OutOfBounds
  | c :: ptr => if c =? 0 then Ok [] else s ← strdup ptr; mret (c :: s)
  end.

(** The header of a list, [struct nvlist_header]. *)
Record nvlist_header := mk_hdr { nvlh_magic : Z; nvlh_version : Z; nvlh_flags : Z; nvlh_descriptors : Z; nvlh_size : Z }.

Definition read_header (h : list Z) : nvlist_header :=
  mk_hdr (le_val (take 1 h)) (le_val (take 1 (drop 1 h))) (le_val (take 1 (drop 2 h)))
    (le_val (take 8 (drop 3 h))) (le_val (take 8 (drop 11 h))).

(** The two words of the header of a big-endian sender are reversed. *)
Definition bswap64 (v : Z) : Z := le_val (rev (le_bytes 8 v)).

Definition nvlist_check_header (h : nvlist_header) : N (option nvlist_header) :=
  if negb (nvlh_magic h =? 108) then fail EINVAL
  else if negb (clear_flag (nvlh_flags h) NV_FLAG_ALL_MASK =? 0) then fail EINVAL
  else if has_flag (nvlh_flags h) NV_FLAG_BIG_ENDIAN then
    mret (Some (mk_hdr (nvlh_magic h) (nvlh_version h) (nvlh_flags h) (bswap64 (nvlh_descriptors h)) (bswap64 (nvlh_size h))))
  else mret (Some h).

(** The result is the flags for the list, the flags of the header, and what is left. *)
Definition nvlist_unpack_header (ptr : list Z) (leftp nfds : Z) : N (option (Z * Z * list Z * Z)) :=
  if leftp <? nvlist_header_size then fail EINVAL
  else
    '(bs, ptr) ← fetch nvlist_header_size ptr;
    h ← nvlist_check_header (read_header bs);
    match h with
    | None => fail EINVAL
    | Some h =>
        if negb (nvlh_size h =? u64 (leftp - nvlist_header_size)) then fail EINVAL
        else if nfds <? nvlh_descriptors h then fail EINVAL
        else if negb (clear_flag (nvlh_flags h) NV_FLAG_ALL_MASK =? 0) then fail EINVAL
        else mret (Some (Z.land (nvlh_flags h) NV_FLAG_PUBLIC_MASK, nvlh_flags h, ptr, leftp - nvlist_header_size))
    end.

(** What [nvpair_unpack_header] finds: name, type and size of the data. *)
Record pair_header := mk_ph { ph_name : list Z; ph_type : Z; ph_datasize : Z }.

Definition nvpair_unpack_header (flags : Z) (ptr : list Z) (leftp : Z) : N (option (pair_header * list Z * Z)) :=
  if leftp <? nvpair_header_size then fail EINVAL
  else
    '(h, ptr) ← fetch nvpair_header_size ptr;
    let leftp := leftp - nvpair_header_size in
    let type := le_val (take 1 h) in
    if (type <? NV_TYPE_FIRST) || (NV_TYPE_LAST <? type) then fail EINVAL
    else
      let namesize := get_int flags (take 2 (drop 1 h)) in
      let datasize := get_int flags (take 8 (drop 3 h)) in
      if NV_NAME_MAX <? namesize then fail EINVAL
      else if leftp <? namesize then fail EINVAL
      else if namesize <? 1 then fail EINVAL
      else
        n ← liftR (strnlen ptr (Z.to_nat namesize));
        if negb (n =? namesize - 1) then fail EINVAL
        else
          '(name, ptr) ← fetch namesize ptr;
          if NV_NAME_MAX <? namesize then faultM Overflow
          else
            let leftp := leftp - namesize in
            if leftp <? datasize then fail EINVAL
            else mret (Some (mk_ph (take (Z.to_nat (namesize - 1)) name) type datasize, ptr, leftp)).

(** What the functions for the types return: the data, the pointer and the room left. *)
Definition unpacked : Type := option (nvdata * list Z * Z).

Definition nvpair_unpack_null (datasize : Z) (ptr : list Z) (leftp : Z) : N unpacked :=
  if negb (datasize =? 0) then fail EINVAL else mret (Some (NvNull, ptr, leftp)).

Definition nvpair_unpack_bool (datasize : Z) (ptr : list Z) (leftp : Z) : N unpacked :=
  if negb (datasize =? 1) then fail EINVAL
  else if leftp <? 1 then fail EINVAL
  else
    '(b, ptr) ← fetch 1 ptr;
    let value := le_val b in
    if negb (value =? 0) && negb (value =? 1) then fail EINVAL
    else mret (Some (NvBool value, ptr, leftp - 1)).

Definition nvpair_unpack_number (flags datasize : Z) (ptr : list Z) (leftp : Z) : N unpacked :=
  if negb (datasize =? 8) then fail EINVAL
  else if leftp <? 8 then fail EINVAL
  else
    '(b, ptr) ← fetch 8 ptr;
    mret (Some (NvNumber (get_int flags b), ptr, leftp - 8)).

Definition nvpair_unpack_string (datasize : Z) (ptr : list Z) (leftp : Z) : N unpacked :=
  if (leftp <? datasize) || (datasize =? 0) then fail EINVAL
  else
    n ← liftR (strnlen ptr (Z.to_nat datasize));
    if negb (n =? datasize - 1) then fail EINVAL
    else
      s ← liftR (strdup ptr);
      mret (Some (NvString s, drop (Z.to_nat datasize) ptr, leftp - datasize)).

Definition nvpair_unpack_nvlist (xunpack : list Z → Z → N (option nvlist)) (datasize : Z) (ptr : list Z) (leftp : Z) : N unpacked :=
  if (leftp <? datasize) || (datasize =? 0) then fail EINVAL
  else
    value ← xunpack ptr datasize;
    match value with
    | None => mret None
    | Some l => mret (Some (NvNvlist l, drop (Z.to_nat datasize) ptr, leftp - datasize))
    end.

Definition nvpair_unpack_descriptor (flags datasize : Z) (fds : list Z) (ptr : list Z) (leftp : Z) : N unpacked :=
  if negb (datasize =? 8) then fail EINVAL
  else if leftp <? 8 then fail EINVAL
  else
    '(b, ptr) ← fetch 8 ptr;
    let idx := s64 (get_int flags b) in
    if idx <? 0 then fail EINVAL
    else if Z.of_nat (length fds) <=? idx then fail EINVAL
    else
      fd ← liftR (match fds !! Z.to_nat idx with Some fd => Ok fd | None => Fault OutOfBounds end);
      mret (Some (NvDescriptor (u64 fd), ptr, leftp - 8)).

Definition nvpair_unpack_binary (datasize : Z) (ptr : list Z) (leftp : Z) : N unpacked :=
  if (leftp <? datasize) || (datasize =? 0) then fail EINVAL
  else
    '(b, ptr) ← fetch datasize ptr;
    mret (Some (NvBinary b, ptr, leftp - datasize)).

Definition nvpair_unpack (xunpack : list Z → Z → N (option nvlist)) (flags : Z) (fds : list Z)
    (ptr : list Z) (leftp : Z) : N (option (nvpair * list Z * Z)) :=
  h ← nvpair_unpack_header flags ptr leftp;
  match h with
  | None => mret None
  | Some (mk_ph name type datasize, ptr, leftp) =>
      r ← (if type =? NV_TYPE_NULL then nvpair_unpack_null datasize ptr leftp
           else if type =? NV_TYPE_BOOL then nvpair_unpack_bool datasize ptr leftp
           else if type =? NV_TYPE_NUMBER then nvpair_unpack_number flags datasize ptr leftp
           else if type =? NV_TYPE_STRING then nvpair_unpack_string datasize ptr leftp
           else if type =? NV_TYPE_NVLIST then nvpair_unpack_nvlist xunpack datasize ptr leftp
           else if type =? NV_TYPE_DESCRIPTOR then nvpair_unpack_descriptor flags datasize fds ptr leftp
           else if type =? NV_TYPE_BINARY then nvpair_unpack_binary datasize ptr leftp
           else faultM Panic);
      match r with
      | None => mret None
      | Some (d, ptr, leftp) => mret (Some (mk_nvp name d datasize, ptr, leftp))
      end
  end.

(** The loop over the pairs; one unit of fuel for each. *)
Fixpoint unpack_loop (unpack : list Z → Z → N (option (nvpair * list Z * Z))) (fuel : nat)
    (ptr : list Z) (leftp : Z) (nvl : nvlist) : N (option nvlist) :=
  match fuel with
  | O => faultM Blocked
  | S fuel =>
      if 0 <? leftp then
        r ← unpack ptr leftp;
        match r with
        | None => _ ← nvlist_destroy nvl; mret None
        | Some (nvp, ptr, leftp) =>
            nvl ← nvlist_move_nvpair nvl nvp;
            unpack_loop unpack fuel ptr leftp nvl
        end
      else mret (Some nvl)
  end.

(** [fuel] bounds the depth and the number of pairs in a list. *)
Fixpoint xunpack_fuel (fuel : nat) (fds : list Z) (buf : list Z) (size : Z) : N (option nvlist) :=
  match fuel with
  | O => faultM Blocked
  | S fuel =>
      nvl ← nvlist_create 0;
      h ← nvlist_unpack_header buf size (Z.of_nat (length fds));
      match h with
      | None => _ ← nvlist_destroy nvl; mret None
      | Some (lflags, flags, ptr, leftp) =>
          unpack_loop (nvpair_unpack (xunpack_fuel fuel fds) flags fds) (S fuel) ptr leftp
            (mk_nvl (nvl_error nvl) lflags (nvl_head nvl))
      end
  end.

(** A pair and a header take more than one byte, so that the size is enough. *)
Definition nvlist_xunpack (buf : list Z) (size : Z) (fds : list Z) : N (option nvlist) :=
  xunpack_fuel (S (Z.to_nat size)) fds buf size.

Definition nvlist_unpack (buf : list Z) (size : Z) : N (option nvlist) := nvlist_xunpack buf size [].

End NvPack.
