(* ===== verification/NvSpec.v ===== *)
(** * Packed name-value lists

    The bytes of a packed list as a function of the list ([bytes]), with what packing
    does to well-formed lists, and the list that a reader of these bytes gets
    ([received]).  Lists are at most [d] deep in the functions and lemmas that recurse. *)
From S2P Require Import Prelude Nv NvPack.

Module NvSpec.
Import Nv NvPack.

(** * Integers *)

Lemma length_le_bytes n v : length (le_bytes n v) = n.
Proof. revert v. induction n as [|n IH]; intros v; [done|]. cbn. by rewrite IH. Qed.

Lemma le_val_bytes n v : 0 <= v < 2 ^ (8 * Z.of_nat n) → le_val (le_bytes n v) = v.
Proof.
  revert v. induction n as [|n IH]; intros v Hv; [cbn in *; lia|].
  cbn [le_bytes]. unfold le_val. cbn [foldr]. fold (le_val (le_bytes n (v / 256))).
  assert (2 ^ (8 * Z.of_nat (S n)) = 256 * 2 ^ (8 * Z.of_nat n)) as E.
  { replace (8 * Z.of_nat (S n)) with (8 + 8 * Z.of_nat n) by lia. rewrite Z.pow_add_r by lia. done. }
  rewrite IH; [pose proof (Z.div_mod v 256); lia|].
  split; [apply Z.div_pos; lia|]. apply Z.div_lt_upper_bound; lia.
Qed.

Lemma le_bytes_range n v : Forall (λ b, 0 <= b < 256) (le_bytes n v).
Proof. revert v. induction n as [|n IH]; intros v; constructor; [apply Z.mod_pos_bound; lia|apply IH]. Qed.

Lemma le_val_one b : le_val [b] = b.
Proof. unfold le_val. cbn. lia. Qed.

Lemma N_bind_Ok {A B} (m : N A) (k : A → N B) s a s' : m s = Ok (a, s') → (a ← m; k a) s = k a s'.
Proof. apply M_bind_Ok. Qed.

Lemma N_bind_assoc {A B C} (m : N A) (k : A → N B) (h : B → N C) s :
  (a ← m; b ← k a; h b) s = (b ← (a ← m; k a); h b) s.
Proof. apply M_bind_assoc. Qed.

Lemma assert_bind {A} b (k : N A) s : b = true → (_ ← assertM b; k) s = k s.
Proof. by intros ->. Qed.

(** * Well-formed lists *)

Definition chars (s : list Z) : Prop := Forall (λ c, 0 < c < 256) s.
Definition name_ok (n : list Z) : Prop := n ≠ [] ∧ Z.of_nat (length n) < NV_NAME_MAX ∧ chars n.

(** No two of the names are the same. *)
Fixpoint uniq (flags : Z) (l : list nvpair) : Prop :=
  match l with
  | [] => True
  | p :: l => Forall (λ q, same_name flags (nvpair_name p) (nvpair_name q) = false) l ∧ uniq flags l
  end.

Definition data_ok (W : nvlist → Prop) (d : nvdata) (datasize : Z) : Prop :=
  match d with
  | NvNull => datasize = 0
  | NvBool v => (v = 0 ∨ v = 1) ∧ datasize = 1
  | NvNumber v => 0 <= v < 2 ^ 64 ∧ datasize = 8
  | NvString s => chars s ∧ datasize = Z.of_nat (length s) + 1
  | NvNvlist l => W l
  | NvDescriptor v => 0 <= v < 2 ^ 31 ∧ datasize = 8
  | NvBinary b => b ≠ [] ∧ Forall (λ c, 0 <= c < 256) b ∧ datasize = Z.of_nat (length b)
  end.

Definition pair_ok (W : nvlist → Prop) (p : nvpair) : Prop :=
  name_ok (nvp_name p) ∧ data_ok W (nvp_data p) (nvp_datasize p).

(** At most [d] lists within each other. *)
Fixpoint wf (d : nat) (l : nvlist) : Prop :=
  match d with
  | O => False
  | S d =>
      nvl_error l = 0 ∧ (nvl_flags l = 0 ∨ nvl_flags l = NV_FLAG_IGNORE_CASE) ∧
      uniq (nvl_flags l) (nvl_head l) ∧ Forall (pair_ok (wf d)) (nvl_head l)
  end.

(** * The packed form *)

Definition ndesc_pair (R : nvlist → Z) (p : nvpair) : Z :=
  match nvp_data p with NvDescriptor _ => 1 | NvNvlist l => R l | _ => 0 end.

Definition ndesc_pairs (R : nvlist → Z) (l : list nvpair) : Z := foldr (λ p n, ndesc_pair R p + n) 0 l.

(** The number of descriptors. *)
Fixpoint ndesc (d : nat) (l : nvlist) : Z :=
  match d with O => 0 | S d => ndesc_pairs (ndesc d) (nvl_head l) end.

Definition payload (B : Z → nvlist → list Z) (i : Z) (p : nvpair) : list Z :=
  match nvp_data p with
  | NvNull => []
  | NvBool v => [v]
  | NvNumber v => le_bytes 8 v
  | NvString s => s ++ [0]
  | NvNvlist l => B i l
  | NvDescriptor _ => le_bytes 8 i
  | NvBinary b => b
  end.

Definition pair_bytes (B : Z → nvlist → list Z) (i : Z) (p : nvpair) : list Z :=
  [nvpair_type p] ++ le_bytes 2 (Z.of_nat (length (nvp_name p)) + 1) ++
  le_bytes 8 (Z.of_nat (length (payload B i p))) ++ nvp_name p ++ [0] ++ payload B i p.

(** The pairs, the first descriptor having position [i]. *)
Fixpoint pairs_bytes (B : Z → nvlist → list Z) (R : nvlist → Z) (i : Z) (l : list nvpair) : list Z :=
  match l with
  | [] => []
  | p :: l => pair_bytes B i p ++ pairs_bytes B R (i + ndesc_pair R p) l
  end.

Definition header_bytes (flags n size : Z) : list Z := [108; 0; flags] ++ le_bytes 8 n ++ le_bytes 8 size.

Fixpoint bytes (d : nat) (i : Z) (l : nvlist) : list Z :=
  match d with
  | O => []
  | S d =>
      let body := pairs_bytes (bytes d) (ndesc d) i (nvl_head l) in
      header_bytes (nvl_flags l) (ndesc_pairs (ndesc d) (nvl_head l)) (Z.of_nat (length body)) ++ body
  end.

(** * The list that is received: descriptor [i] is the [i]-th of those that came *)

Definition recv_pair (B : Z → nvlist → list Z) (V : Z → nvlist → nvlist) (fds : list Z) (i : Z) (p : nvpair) : nvpair :=
  mk_nvp (nvp_name p)
    (match nvp_data p with
     | NvDescriptor _ => NvDescriptor (u64 (nth (Z.to_nat i) fds 0))
     | NvNvlist l => NvNvlist (V i l)
     | d => d
     end)
    (Z.of_nat (length (payload B i p))).

Fixpoint recv_pairs (B : Z → nvlist → list Z) (V : Z → nvlist → nvlist) (R : nvlist → Z) (fds : list Z) (i : Z) (l : list nvpair) :
    list nvpair :=
  match l with
  | [] => []
  | p :: l => recv_pair B V fds i p :: recv_pairs B V R fds (i + ndesc_pair R p) l
  end.

Fixpoint received (d : nat) (fds : list Z) (i : Z) (l : nvlist) : nvlist :=
  match d with
  | O => l
  | S d => mk_nvl 0 (nvl_flags l) (recv_pairs (bytes d) (received d fds) (ndesc d) fds i (nvl_head l))
  end.

(** * Sizes *)

Lemma payload_length B i j p :
  (∀ l, nvp_data p = NvNvlist l → length (B i l) = length (B j l)) → length (payload B i p) = length (payload B j p).
Proof. intros HB. unfold payload. destruct (nvp_data p) eqn:E; try done. by apply HB. Qed.

Lemma pair_bytes_length B i p :
  Z.of_nat (length (pair_bytes B i p)) = 11 + (Z.of_nat (length (nvp_name p)) + 1) + Z.of_nat (length (payload B i p)).
Proof. unfold pair_bytes. rewrite !length_app, !length_le_bytes. cbn [length]. lia. Qed.

Lemma pairs_bytes_length B R i j l :
  (∀ a b x, length (B a x) = length (B b x)) → length (pairs_bytes B R i l) = length (pairs_bytes B R j l).
Proof.
  intros HB. revert i j. induction l as [|p l IH]; intros i j; [done|]. cbn [pairs_bytes]. rewrite !length_app.
  rewrite (IH (i + ndesc_pair R p) (j + ndesc_pair R p)). f_equal.
  pose proof (pair_bytes_length B i p). pose proof (pair_bytes_length B j p).
  pose proof (payload_length B i j p ltac:(eauto)). lia.
Qed.

Lemma bytes_length d i j l : length (bytes d i l) = length (bytes d j l).
Proof.
  revert i j l. induction d as [|d IH]; intros i j l; [done|]. cbn [bytes]. unfold header_bytes.
  rewrite !length_app, !length_le_bytes. f_equal. by apply pairs_bytes_length.
Qed.

Lemma bytes_header d i l :
  Z.of_nat (length (bytes (S d) i l)) = 19 + Z.of_nat (length (pairs_bytes (bytes d) (ndesc d) i (nvl_head l))).
Proof. cbn [bytes]. unfold header_bytes. rewrite !length_app, !length_le_bytes. cbn [length]. lia. Qed.

(** For all but a list, the size that the pair knows. *)
Lemma payload_datasize W B i p :
  data_ok W (nvp_data p) (nvp_datasize p) → (∀ l, nvp_data p ≠ NvNvlist l) → Z.of_nat (length (payload B i p)) = nvp_datasize p.
Proof.
  unfold data_ok, payload. intros H Hn. destruct (nvp_data p) eqn:E; cbn in *; try lia.
  - rewrite length_app. cbn. lia.
  - exfalso. by eapply Hn.
Qed.

(** Descriptors take eight bytes each, lists at least those of the descriptors in them. *)
Lemma ndesc_pairs_bound d i l :
  (∀ i x, 0 <= ndesc d x <= Z.of_nat (length (bytes d i x))) →
  0 <= ndesc_pairs (ndesc d) l <= Z.of_nat (length (pairs_bytes (bytes d) (ndesc d) i l)).
Proof.
  intros IH. revert i. induction l as [|p l IHl]; intros i; [done|]. cbn [pairs_bytes]. unfold ndesc_pairs. cbn [foldr].
  fold (ndesc_pairs (ndesc d) l). rewrite length_app, Nat2Z.inj_add, pair_bytes_length.
  specialize (IHl (i + ndesc_pair (ndesc d) p)).
  assert (0 <= ndesc_pair (ndesc d) p <= 1 + Z.of_nat (length (payload (bytes d) i p))); [|lia].
  unfold ndesc_pair, payload. destruct (nvp_data p); try lia. specialize (IH i l0). lia.
Qed.

Lemma ndesc_bound d i l : 0 <= ndesc d l <= Z.of_nat (length (bytes d i l)).
Proof.
  revert i l. induction d as [|d IH]; intros i l; [done|]. rewrite bytes_header. cbn [ndesc].
  pose proof (ndesc_pairs_bound d i (nvl_head l) IH). lia.
Qed.

(** A list within a list is one of the pairs. *)
Lemma payload_nvlist B i p l : nvp_data p = NvNvlist l → payload B i p = B i l.
Proof. unfold payload. by intros ->. Qed.

Lemma fold_size d level i l acc s :
  (∀ x level i s, wf d x → level + Z.of_nat d <= 3 → Z.of_nat (length (bytes d i x)) < 2 ^ 64 →
     nvlist_xsize x level s = Ok (Z.of_nat (length (bytes d i x)), s)) →
  Forall (pair_ok (wf d)) l → level + 1 + Z.of_nat d <= 3 → 0 <= acc →
  acc + Z.of_nat (length (pairs_bytes (bytes d) (ndesc d) i l)) < 2 ^ 64 →
  fold_pairs (xsize_pair (λ x, nvlist_xsize x (level + 1))) l acc s
  = Ok (acc + Z.of_nat (length (pairs_bytes (bytes d) (ndesc d) i l)), s).
Proof.
  intros IH Hl Hd. revert i acc. induction Hl as [|p l [Hn Hp] Hl IHl]; intros i acc Ha Hz; cbn [fold_pairs pairs_bytes] in *.
  { cbn. by rewrite Z.add_0_r. }
  rewrite length_app, Nat2Z.inj_add, pair_bytes_length in *.
  set (z := Z.of_nat (length (payload (bytes d) i p))) in *.
  assert (xsize_pair (λ x, nvlist_xsize x (level + 1)) acc p s
          = Ok (acc + 11 + (Z.of_nat (length (nvp_name p)) + 1) + z, s)) as E.
  { unfold xsize_pair, nvpair_header_size, nvpair_name, nvpair_size.
    rewrite (wrap_u_id 64 (acc + 11)), (wrap_u_id 64 (acc + 11 + _)) by lia.
    destruct (nvp_data p) eqn:Ed.
    5: { assert (z = Z.of_nat (length (bytes d i l0))) as -> by (unfold z; by rewrite (payload_nvlist _ _ _ _ Ed)).
         rewrite (N_bind_Ok _ _ _ _ _ (IH l0 (level + 1) i s Hp Hd ltac:(lia))). cbn. by rewrite wrap_u_id by lia. }
    all: assert (z = nvp_datasize p) as <- by (unfold z; apply (payload_datasize (wf d)); [by rewrite Ed|by rewrite Ed]);
         cbn; by rewrite wrap_u_id by lia. }
  rewrite (N_bind_Ok _ _ _ _ _ E). rewrite (IHl (i + ndesc_pair (ndesc d) p)) by lia. do 2 f_equal. lia.
Qed.

Lemma xsize_spec d x level i s :
  wf d x → level + Z.of_nat d <= 3 → Z.of_nat (length (bytes d i x)) < 2 ^ 64 →
  nvlist_xsize x level s = Ok (Z.of_nat (length (bytes d i x)), s).
Proof.
  revert x level i s. induction d as [|d IH]; intros [e f h] level i s Hw Hd Hz; [done|].
  destruct Hw as (He & _ & _ & Hl). cbn in He. subst e. rewrite bytes_header in *. cbn [nvl_head] in *.
  cbn [nvlist_xsize]. rewrite !assert_bind by (try apply Z.ltb_lt; done || lia).
  apply (fold_size d level i h 19 s); [apply IH|done|lia|lia|]. lia.
Qed.

Lemma fold_ndesc d level l acc s :
  (∀ x level s, wf d x → level + Z.of_nat d <= 3 → ndesc d x < 2 ^ 64 → nvlist_xndescriptors x level s = Ok (ndesc d x, s)) →
  Forall (pair_ok (wf d)) l → level + 1 + Z.of_nat d <= 3 → 0 <= acc → acc + ndesc_pairs (ndesc d) l < 2 ^ 64 →
  fold_pairs (xndescriptors_pair (λ x, nvlist_xndescriptors x (level + 1))) l acc s = Ok (acc + ndesc_pairs (ndesc d) l, s).
Proof.
  intros IH Hl Hd. revert acc. induction Hl as [|p l [Hn Hp] Hl IHl]; intros acc Ha Hz; cbn [fold_pairs].
  { cbn. by rewrite Z.add_0_r. }
  unfold ndesc_pairs in *. cbn [foldr] in *. fold (ndesc_pairs (ndesc d) l) in *.
  pose proof (ndesc_pairs_bound d 0 l (ndesc_bound d)) as Hb.
  assert (0 <= ndesc_pair (ndesc d) p) as H0.
  { unfold ndesc_pair. destruct (nvp_data p); try lia. pose proof (ndesc_bound d 0 l0). lia. }
  assert (xndescriptors_pair (λ x, nvlist_xndescriptors x (level + 1)) acc p s = Ok (acc + ndesc_pair (ndesc d) p, s)) as E.
  { unfold xndescriptors_pair, ndesc_pair in *. destruct (nvp_data p) eqn:Ed; try (cbn; by rewrite Z.add_0_r).
    - rewrite (N_bind_Ok _ _ _ _ _ (IH l0 (level + 1) s Hp Hd ltac:(lia))). cbn. by rewrite wrap_u_id by lia.
    - cbn. by rewrite wrap_u_id by lia. }
  rewrite (N_bind_Ok _ _ _ _ _ E). rewrite IHl by lia. do 2 f_equal. lia.
Qed.

Lemma xndescriptors_spec d x level s :
  wf d x → level + Z.of_nat d <= 3 → ndesc d x < 2 ^ 64 → nvlist_xndescriptors x level s = Ok (ndesc d x, s).
Proof.
  revert x level s. induction d as [|d IH]; intros [e f h] level s Hw Hd Hz; [done|].
  destruct Hw as (He & _ & _ & Hl). cbn in He. subst e. cbn [nvl_head ndesc] in *.
  cbn [nvlist_xndescriptors]. rewrite !assert_bind by (try apply Z.ltb_lt; done || lia).
  rewrite (fold_ndesc d level h 0 s); [done|apply IH|done|lia|lia|lia].
Qed.

(** * Packing *)

Lemma put_Ok bs out z s :
  Z.of_nat (length bs) <= z → put bs (mk_out out z) s = Ok (mk_out (out ++ bs) (z - Z.of_nat (length bs)), s).
Proof. intros H. unfold put. cbn [p_left p_out]. rewrite (proj2 (Z.leb_le _ _)) by done. done. Qed.

Lemma nvpair_type_range p : 1 <= nvpair_type p <= 7.
Proof. unfold nvpair_type. destruct (nvp_data p); cbv; split; congruence. Qed.

(** The name of a well-formed pair fits its field. *)
Lemma pack_pair_header p n out z s :
  name_ok (nvp_name p) → 12 + Z.of_nat (length (nvp_name p)) <= z →
  nvpair_pack_header p n (mk_out out z) s
  = Ok (mk_out (out ++ [nvpair_type p] ++ le_bytes 2 (Z.of_nat (length (nvp_name p)) + 1) ++ le_bytes 8 n ++ nvp_name p ++ [0])
          (z - (12 + Z.of_nat (length (nvp_name p)))), s).
Proof.
  intros (_ & Hlen & _) Hz. unfold NV_NAME_MAX in Hlen. unfold nvpair_pack_header.
  rewrite assert_bind by (apply andb_true_intro; split; [apply Z.ltb_lt|apply Z.leb_le]; lia). rewrite (wrap_u_id 8) by (pose proof (nvpair_type_range p); lia).
  erewrite N_bind_Ok by (apply put_Ok; rewrite !length_app, !length_le_bytes; cbn [length]; lia).
  rewrite put_Ok by (rewrite !length_app, !length_le_bytes; cbn [length]; lia).
  do 3 f_equal; [by rewrite <- !app_assoc|]. rewrite !length_app, !length_le_bytes. cbn [length]. lia.
Qed.

Definition packs (d : nat) : Prop := ∀ x i s,
  wf d x → Z.of_nat d <= 3 → 0 <= i → i + ndesc d x < 2 ^ 63 → Z.of_nat (length (bytes d i x)) < 2 ^ 63 →
  nvlist_xpack x (Some i) s = Ok ((Some (bytes d i x), Some (i + ndesc d x)), s).

Lemma pack_pair d p i out z s :
  packs d → pair_ok (wf d) p → Z.of_nat d <= 3 → 0 <= i → i + ndesc_pair (ndesc d) p < 2 ^ 63 →
  Z.of_nat (length (pair_bytes (bytes d) i p)) <= z < 2 ^ 63 →
  nvpair_pack nvlist_xpack p (Some i) (mk_out out z) s
  = Ok ((Some (mk_out (out ++ pair_bytes (bytes d) i p) (z - Z.of_nat (length (pair_bytes (bytes d) i p)))),
         Some (i + ndesc_pair (ndesc d) p)), s).
Proof.
  intros IH [Hn Hp] Hd Hi Hnd Hz. rewrite pair_bytes_length in *. unfold nvpair_pack.
  set (n := Z.of_nat (length (payload (bytes d) i p))) in *.
  assert (match nvp_data p with NvNvlist l => nvlist_size l | _ => mret (nvp_datasize p) end s = Ok (n, s)) as Esz.
  { destruct (nvp_data p) eqn:Ed.
    5: { unfold nvlist_size, n. rewrite (payload_nvlist _ _ _ _ Ed). apply xsize_spec; [done|lia|].
         assert (Z.of_nat (length (bytes d i l)) = n) as -> by (unfold n; by rewrite (payload_nvlist _ _ _ _ Ed)). lia. }
    all: change (Ok (nvp_datasize p, s) = Ok (n, s)); do 2 f_equal; symmetry; apply (payload_datasize (wf d)); by rewrite Ed. }
  rewrite (N_bind_Ok _ _ _ _ _ Esz). rewrite (N_bind_Ok _ _ _ _ _ (pack_pair_header p n out z s Hn ltac:(lia))).
  set (out1 := out ++ _). set (z1 := z - _).
  assert (∀ m, put (payload (bytes d) i p) (mk_out out1 z1) s = Ok (m, s) →
    m = mk_out (out ++ pair_bytes (bytes d) i p) (z - (11 + (Z.of_nat (length (nvp_name p)) + 1) + n))) as Hput.
  { intros m. rewrite put_Ok by (unfold z1; fold n; lia). intros [= <-]. unfold out1, z1, pair_bytes. f_equal; [|fold n; lia].
    fold n. by rewrite <- !app_assoc. }
  destruct (put (payload (bytes d) i p) (mk_out out1 z1) s) as [[m s']|] eqn:Eput; [|rewrite put_Ok in Eput by (unfold z1; fold n; lia); done].
  assert (s' = s) as -> by (rewrite put_Ok in Eput by (unfold z1; fold n; lia); congruence).
  rewrite <- (Hput m eq_refl). clear Hput. unfold ndesc_pair in *. unfold payload in Eput. unfold data_ok in Hp.
  destruct (nvp_data p) eqn:Ed; rewrite ?Z.add_0_r.
  - unfold put in Eput. cbn in Eput. rewrite app_nil_r, Z.sub_0_r in Eput. cbn.
    rewrite assert_bind in Eput by (apply Z.leb_le; unfold z1; lia). by inversion Eput.
  - unfold nvpair_pack_bool. rewrite wrap_u_id by lia. by rewrite (N_bind_Ok _ _ _ _ _ Eput).
  - unfold nvpair_pack_number. by rewrite (N_bind_Ok _ _ _ _ _ Eput).
  - unfold nvpair_pack_string. by rewrite (N_bind_Ok _ _ _ _ _ Eput).
  - assert (n = Z.of_nat (length (bytes d i l))) as En by (unfold n; by rewrite (payload_nvlist _ _ _ _ Ed)).
    unfold nvpair_pack_nvlist. destruct d as [|d]; [done|].
    rewrite (proj2 (Z.eqb_neq n 0)) by (rewrite En, bytes_header; lia).
    rewrite (N_bind_Ok _ _ _ _ _ (IH l i s Hp Hd Hi Hnd ltac:(lia))). cbv beta iota.
    rewrite assert_bind by (apply Z.eqb_eq; lia). by rewrite (N_bind_Ok _ _ _ _ _ Eput).
  - unfold nvpair_pack_descriptor. rewrite wrap_s_id by lia. rewrite (proj2 (Z.eqb_neq d0 (-1))) by lia. cbn [negb].
    rewrite <- N_bind_assoc. rewrite (N_bind_Ok _ _ _ _ _ Eput). cbn. by rewrite wrap_s_id by lia.
  - unfold nvpair_pack_binary. by rewrite (N_bind_Ok _ _ _ _ _ Eput).
Qed.

Lemma ndesc_pair_nonneg d p : 0 <= ndesc_pair (ndesc d) p.
Proof. unfold ndesc_pair. destruct (nvp_data p); try lia. pose proof (ndesc_bound d 0 l). lia. Qed.

Lemma ndesc_pairs_nonneg d l : 0 <= ndesc_pairs (ndesc d) l.
Proof. apply (ndesc_pairs_bound d 0 l), ndesc_bound. Qed.

Lemma ndesc_pairs_cons R p l : ndesc_pairs R (p :: l) = ndesc_pair R p + ndesc_pairs R l.
Proof. done. Qed.

Lemma pack_pairs d l i out z s :
  packs d → Forall (pair_ok (wf d)) l → Z.of_nat d <= 3 → 0 <= i → i + ndesc_pairs (ndesc d) l < 2 ^ 63 →
  Z.of_nat (length (pairs_bytes (bytes d) (ndesc d) i l)) <= z < 2 ^ 63 →
  pack_loop (nvpair_pack nvlist_xpack) l (Some i) (mk_out out z) s
  = Ok ((Some (mk_out (out ++ pairs_bytes (bytes d) (ndesc d) i l) (z - Z.of_nat (length (pairs_bytes (bytes d) (ndesc d) i l)))),
         Some (i + ndesc_pairs (ndesc d) l)), s).
Proof.
  intros IH Hl Hd. revert i out z. induction Hl as [|p l Hp Hl IHl]; intros i out z Hi Hnd Hz; cbn [pack_loop pairs_bytes] in *.
  { unfold ndesc_pairs. cbn. by rewrite app_nil_r, Z.sub_0_r, Z.add_0_r. }
  rewrite length_app, Nat2Z.inj_add in *. rewrite ndesc_pairs_cons in *.
  pose proof (ndesc_pair_nonneg d p). pose proof (ndesc_pairs_nonneg d l).
  rewrite (N_bind_Ok _ _ _ _ _ (pack_pair d p i out z s IH Hp Hd Hi ltac:(lia) ltac:(lia))). cbv beta iota.
  rewrite IHl by lia. rewrite <- app_assoc. f_equal. f_equal. f_equal; f_equal; [f_equal|]; lia.
Qed.

Lemma header_bytes_length f n z : Z.of_nat (length (header_bytes f n z)) = 19.
Proof. unfold header_bytes. by rewrite !length_app, !length_le_bytes. Qed.

(** Packing writes exactly these bytes. *)
Lemma xpack_spec d : packs d.
Proof.
  induction d as [|d IH]; intros [e f h] i s Hw Hd Hi Hnd Hz; [done|].
  pose proof (bytes_header d i (mk_nvl e f h)) as Hlen.
  pose proof (xsize_spec (S d) _ 0 i s Hw ltac:(lia) ltac:(lia)) as Hsize.
  pose proof (ndesc_bound (S d) i (mk_nvl e f h)) as Hbound.
  pose proof (xndescriptors_spec (S d) _ 0 s Hw ltac:(lia) ltac:(lia)) as Hdesc.
  destruct Hw as (He & Hf & _ & Hl). cbn in He, Hf. subst e. cbn [nvlist_xpack Z.eqb negb].
  unfold nvlist_size. rewrite (N_bind_Ok _ _ _ _ _ Hsize). cbn [nvl_head] in *.
  set (body := pairs_bytes (bytes d) (ndesc d) i h) in *. cbn [ndesc nvl_head] in *. rewrite Hlen.
  assert (nvlist_pack_header (mk_nvl 0 f h) (mk_out [] (19 + Z.of_nat (length body))) s
          = Ok (mk_out (header_bytes f (ndesc_pairs (ndesc d) h) (Z.of_nat (length body))) (Z.of_nat (length body)), s)) as Hh.
  { unfold nvlist_pack_header, nvlist_ndescriptors. rewrite (N_bind_Ok _ _ _ _ _ Hdesc). cbn [p_left nvl_flags].
    unfold nvlist_header_size. rewrite (wrap_u_id 8) by (destruct Hf as [-> | ->]; cbv; split; congruence).
    replace (19 + Z.of_nat (length body) - 19) with (Z.of_nat (length body)) by lia. rewrite wrap_u_id by lia.
    change ([108; 0; f] ++ ?a ++ ?b) with (header_bytes f (ndesc_pairs (ndesc d) h) (Z.of_nat (length body))).
    rewrite put_Ok by (rewrite header_bytes_length; lia). rewrite header_bytes_length. cbn [app]. f_equal. f_equal. f_equal. lia. }
  rewrite (N_bind_Ok _ _ _ _ _ Hh).
  rewrite (N_bind_Ok _ _ _ _ _ (pack_pairs d h i _ (Z.of_nat (length body)) s IH Hl ltac:(lia) Hi Hnd ltac:(fold body; lia))). cbv beta iota.
  fold body. cbn [p_left p_out]. by rewrite Z.sub_diag.
Qed.

(** ** The descriptors of a list, in the order in which they get positions *)

Definition desc_pair (D : nvlist → list Z) (p : nvpair) : list Z :=
  match nvp_data p with NvDescriptor v => [v] | NvNvlist l => D l | _ => [] end.

Fixpoint descs (d : nat) (l : nvlist) : list Z :=
  match d with O => [] | S d => concat (desc_pair (descs d) <$> nvl_head l) end.

Lemma fold_descs d level l acc s :
  (∀ x level acc s, wf d x → level + Z.of_nat d <= 3 → nvlist_xdescriptors x level acc s = Ok (acc ++ descs d x, s)) →
  Forall (pair_ok (wf d)) l → level + 1 + Z.of_nat d <= 3 →
  fold_pairs (xdescriptors_pair (λ x, nvlist_xdescriptors x (level + 1))) l acc s
  = Ok (acc ++ concat (desc_pair (descs d) <$> l), s).
Proof.
  intros IH Hl Hd. revert acc. induction Hl as [|p l [Hn Hp] Hl IHl]; intros acc; cbn [fold_pairs].
  { by rewrite app_nil_r. }
  assert (xdescriptors_pair (λ x, nvlist_xdescriptors x (level + 1)) acc p s = Ok (acc ++ desc_pair (descs d) p, s)) as E.
  { unfold xdescriptors_pair, desc_pair. destruct (nvp_data p) eqn:Ed; try (by rewrite app_nil_r); [by apply IH|].
    destruct Hp as [Hv _]. by rewrite wrap_s_id by lia. }
  rewrite (N_bind_Ok _ _ _ _ _ E), IHl. cbn. by rewrite app_assoc.
Qed.

Lemma xdescriptors_spec d x level acc s :
  wf d x → level + Z.of_nat d <= 3 → nvlist_xdescriptors x level acc s = Ok (acc ++ descs d x, s).
Proof.
  revert x level acc s. induction d as [|d IH]; intros [e f h] level acc s Hw Hd; [done|].
  destruct Hw as (He & _ & _ & Hl). cbn in He. subst e. cbn [nvlist_xdescriptors].
  rewrite !assert_bind by (try apply Z.ltb_lt; done || lia). by apply (fold_descs d level h acc s); [apply IH|done|lia].
Qed.

Lemma descs_length d x : Z.of_nat (length (descs d x)) = ndesc d x.
Proof.
  revert x. induction d as [|d IH]; intros x; [done|]. cbn [descs ndesc].
  induction (nvl_head x) as [|p l IHl]; [done|]. rewrite fmap_cons, ndesc_pairs_cons. cbn [concat].
  rewrite length_app, Nat2Z.inj_add, <- IHl.
  f_equal. unfold desc_pair, ndesc_pair. by destruct (nvp_data p).
Qed.

Lemma nvlist_descriptors_spec d x i s :
  wf d x → Z.of_nat d <= 3 → Z.of_nat (length (bytes d i x)) < 2 ^ 63 → nvlist_descriptors x s = Ok ((descs d x, ndesc d x), s).
Proof.
  intros Hw Hd Hz. pose proof (ndesc_bound d i x). unfold nvlist_descriptors, nvlist_ndescriptors.
  rewrite (N_bind_Ok _ _ _ _ _ (xndescriptors_spec d x 0 s Hw ltac:(lia) ltac:(lia))).
  pose proof (descs_length d x) as Hlen.
  assert ((if 0 <? ndesc d x then nvlist_xdescriptors x 0 [] else mret []) s = Ok (descs d x, s)) as E.
  { destruct (0 <? ndesc d x) eqn:E; [by apply (xdescriptors_spec d x 0 [] s)|].
    apply Z.ltb_ge in E. destruct (descs d x); [done|cbn in Hlen; lia]. }
  rewrite (N_bind_Ok _ _ _ _ _ E), (proj2 (Z.leb_le _ _)) by lia. done.
Qed.

End NvSpec.
