(* ===== verification/NvRound.v ===== *)
(** * Unpacking what was packed

    A reader of the bytes of a packed list, with descriptors in the place of the
    sender's, gets the list back. *)
From S2P Require Import Prelude Nv NvPack NvSpec.

Module NvRound.
Import Nv NvPack NvSpec.

(** Only [errno] differs. *)
Definition quiet (s s' : host) : Prop := files s' = files s ∧ nofile s' = nofile s.

#[export] Instance quiet_refl : Reflexive quiet.
Proof. done. Qed.

#[export] Instance quiet_trans : Transitive quiet.
Proof. intros a b c [] []. split; congruence. Qed.

(** * Reading *)

Lemma fetch_app n a b s : n = Z.of_nat (length a) → fetch n (a ++ b) s = Ok ((a, b), s).
Proof.
  intros ->. unfold fetch. rewrite length_app, (proj2 (Z.leb_le _ _)) by lia. rewrite Nat2Z.id.
  by rewrite take_app_length, drop_app_length.
Qed.

Lemma strnlen_app t r : chars t → strnlen (t ++ 0 :: r) (S (length t)) = Ok (Z.of_nat (length t)).
Proof.
  induction 1 as [|c t Hc Ht IH]; [done|]. cbn [app length strnlen]. rewrite (proj2 (Z.eqb_neq c 0)) by lia.
  cbn [length] in IH. rewrite IH. cbn. f_equal. lia.
Qed.

Lemma strdup_app t r : chars t → strdup (t ++ 0 :: r) = Ok t.
Proof.
  induction 1 as [|c t Hc Ht IH]; [done|]. cbn [app strdup]. rewrite (proj2 (Z.eqb_neq c 0)) by lia. by rewrite IH.
Qed.

Lemma public_flags f : f = 0 ∨ f = NV_FLAG_IGNORE_CASE →
  has_flag f NV_FLAG_BIG_ENDIAN = false ∧ clear_flag f NV_FLAG_ALL_MASK = 0 ∧ Z.land f NV_FLAG_PUBLIC_MASK = f.
Proof. by intros [-> | ->]. Qed.

Lemma read_header_bytes f n z :
  0 <= f < 256 → 0 <= n < 2 ^ 64 → 0 <= z < 2 ^ 64 → read_header (header_bytes f n z) = mk_hdr 108 0 f n z.
Proof.
  intros Hf Hn Hz.
  change (mk_hdr (le_val [108]) (le_val [0]) (le_val [f]) (le_val (le_bytes 8 n)) (le_val (le_bytes 8 z)) = mk_hdr 108 0 f n z).
  rewrite !le_val_bytes by (cbn; lia). by rewrite !le_val_one.
Qed.

Lemma unpack_header_spec f n z rest nfds s :
  f = 0 ∨ f = NV_FLAG_IGNORE_CASE → 0 <= n <= nfds → nfds < 2 ^ 63 → 0 <= z < 2 ^ 63 →
  nvlist_unpack_header (header_bytes f n z ++ rest) (19 + z) nfds s = Ok (Some (f, f, rest, z), s).
Proof.
  intros Hf Hn Hnf Hz. destruct (public_flags f Hf) as (Hbe & Hall & Hpub).
  unfold nvlist_unpack_header, nvlist_header_size. rewrite (proj2 (Z.ltb_ge _ _)) by lia.
  erewrite N_bind_Ok by (apply fetch_app; by rewrite header_bytes_length). cbv beta iota.
  rewrite read_header_bytes by (destruct Hf as [-> | ->]; unfold NV_FLAG_IGNORE_CASE; lia).
  unfold nvlist_check_header. cbn [nvlh_magic nvlh_flags]. rewrite Hall, Hbe. cbn [Z.eqb negb Pos.eqb].
  erewrite N_bind_Ok by reflexivity. cbv beta iota. cbn [nvlh_size nvlh_descriptors nvlh_flags].
  replace (19 + z - 19) with z by lia. rewrite wrap_u_id by lia. rewrite Z.eqb_refl.
  rewrite (proj2 (Z.ltb_ge nfds n)) by lia. by rewrite Hall, Hpub.
Qed.

Lemma get_int_le f bs : has_flag f NV_FLAG_BIG_ENDIAN = false → get_int f bs = le_val bs.
Proof. unfold get_int. by intros ->. Qed.

Lemma unpack_pair_header f ty name m rest z s :
  has_flag f NV_FLAG_BIG_ENDIAN = false → name_ok name → 1 <= ty <= 7 → 0 <= m < 2 ^ 63 →
  12 + Z.of_nat (length name) + m <= z →
  nvpair_unpack_header f ([ty] ++ le_bytes 2 (Z.of_nat (length name) + 1) ++ le_bytes 8 m ++ name ++ [0] ++ rest) z s
  = Ok (Some (mk_ph name ty m, rest, z - (12 + Z.of_nat (length name))), s).
Proof.
  intros Hbe (Hne & Hlen & Hc) Hty Hm Hz. unfold NV_NAME_MAX in Hlen. unfold nvpair_unpack_header, nvpair_header_size.
  rewrite (proj2 (Z.ltb_ge _ _)) by lia.
  set (h := [ty] ++ le_bytes 2 (Z.of_nat (length name) + 1) ++ le_bytes 8 m).
  replace ([ty] ++ le_bytes 2 (Z.of_nat (length name) + 1) ++ le_bytes 8 m ++ name ++ [0] ++ rest)
    with (h ++ name ++ [0] ++ rest) by (unfold h; by rewrite <- !app_assoc).
  erewrite N_bind_Ok by (apply fetch_app; unfold h; by rewrite !length_app, !length_le_bytes). cbv beta iota.
  change (le_val (take 1 h)) with (le_val [ty]). rewrite le_val_one.
  change (take 2 (drop 1 h)) with (le_bytes 2 (Z.of_nat (length name) + 1)). change (take 8 (drop 3 h)) with (le_bytes 8 m).
  rewrite !get_int_le, !le_val_bytes by (done || (cbn; lia)).
  unfold NV_TYPE_FIRST, NV_TYPE_LAST, NV_TYPE_NULL, NV_TYPE_BINARY, NV_NAME_MAX.
  rewrite (proj2 (Z.ltb_ge ty 1)), (proj2 (Z.ltb_ge 7 ty)) by lia. cbn [orb].
  rewrite (proj2 (Z.ltb_ge 2048 _)), (proj2 (Z.ltb_ge (z - 11) _)), (proj2 (Z.ltb_ge (Z.of_nat (length name) + 1) 1)) by lia.
  replace (Z.to_nat (Z.of_nat (length name) + 1)) with (S (length name)) by lia.
  change ([0] ++ rest) with (0 :: rest). rewrite strnlen_app by done.
  erewrite N_bind_Ok by reflexivity. replace (Z.of_nat (length name) + 1 - 1) with (Z.of_nat (length name)) by lia.
  rewrite Z.eqb_refl. cbn [negb]. replace (name ++ 0 :: rest) with ((name ++ [0]) ++ rest) by (by rewrite <- app_assoc).
  erewrite N_bind_Ok by (apply fetch_app; rewrite length_app; cbn; lia). cbv beta iota.
  rewrite (proj2 (Z.ltb_ge (z - 11 - _) m)) by lia. rewrite Nat2Z.id, take_app_length.
  change (Ok (Some (mk_ph name ty m, rest, z - 11 - (Z.of_nat (length name) + 1)), s)
          = Ok (Some (mk_ph name ty m, rest, z - (12 + Z.of_nat (length name))), s)). do 4 f_equal. lia.
Qed.

(** * Insertion of new names *)

Definition with_errno (e : Z) (s : host) : host := mk_host e (files s) (nofile s).

Lemma with_errno_quiet e s : quiet s (with_errno e s).
Proof. done. Qed.

Lemma find_none f name acc :
  Forall (λ q, same_name f (nvpair_name q) name = false) acc →
  list_find (λ p, matches f NV_TYPE_NONE name p = true) acc = None.
Proof.
  intros H. apply list_find_None. eapply Forall_impl; [exact H|]. intros q Hq. unfold matches. cbn. by rewrite Hq.
Qed.

Lemma exists_none f acc name s :
  Forall (λ q, same_name f (nvpair_name q) name = false) acc →
  nvlist_exists (mk_nvl 0 f acc) name s = Ok (false, with_errno ENOENT s).
Proof.
  intros H. unfold nvlist_exists, nvlist_existsv_type, nvlist_findv. cbn [nvl_error nvl_flags nvl_head].
  rewrite (find_none f name acc H). done.
Qed.

Lemma move_new f acc p s :
  Forall (λ q, same_name f (nvpair_name q) (nvpair_name p) = false) acc →
  nvlist_move_nvpair (mk_nvl 0 f acc) p s = Ok (mk_nvl 0 f (acc ++ [p]), with_errno ENOENT s).
Proof.
  intros H. unfold nvlist_move_nvpair. cbn [nvl_error Z.eqb negb].
  rewrite (N_bind_Ok _ _ _ _ _ (exists_none f acc _ s H)). unfold nvpair_insert.
  rewrite (N_bind_Ok _ _ _ _ _ (exists_none f acc _ _ H)). done.
Qed.

(** * Pairs and lists *)

Definition unpacks (d : nat) : Prop := ∀ x i fds rest fuel s,
  wf d x → 0 <= i → i + ndesc d x <= Z.of_nat (length fds) → Z.of_nat (length fds) < 2 ^ 63 →
  Z.of_nat (length (bytes d i x)) < 2 ^ 63 → (length (bytes d i x) < fuel)%nat →
  ∃ s', xunpack_fuel fuel fds (bytes d i x ++ rest) (Z.of_nat (length (bytes d i x))) s = Ok (Some (received d fds i x), s') ∧ quiet s s'.

(** The functions for the types, on the bytes of a well-formed value. *)
Lemma unpack_data d p i fds fuel f rest z s :
  unpacks d → data_ok (wf d) (nvp_data p) (nvp_datasize p) → has_flag f NV_FLAG_BIG_ENDIAN = false → 0 <= i →
  i + ndesc_pair (ndesc d) p <= Z.of_nat (length fds) → Z.of_nat (length fds) < 2 ^ 63 →
  (length (payload (bytes d) i p) < fuel)%nat → Z.of_nat (length (payload (bytes d) i p)) <= z < 2 ^ 63 →
  let n := Z.of_nat (length (payload (bytes d) i p)) in
  let ptr := payload (bytes d) i p ++ rest in
  let ty := nvpair_type p in
  ∃ s', (if ty =? NV_TYPE_NULL then nvpair_unpack_null n ptr z
         else if ty =? NV_TYPE_BOOL then nvpair_unpack_bool n ptr z
         else if ty =? NV_TYPE_NUMBER then nvpair_unpack_number f n ptr z
         else if ty =? NV_TYPE_STRING then nvpair_unpack_string n ptr z
         else if ty =? NV_TYPE_NVLIST then nvpair_unpack_nvlist (xunpack_fuel fuel fds) n ptr z
         else if ty =? NV_TYPE_DESCRIPTOR then nvpair_unpack_descriptor f n fds ptr z
         else if ty =? NV_TYPE_BINARY then nvpair_unpack_binary n ptr z
         else faultM Panic) s
        = Ok (Some (nvp_data (recv_pair (bytes d) (received d fds) fds i p), rest, z - n), s') ∧ quiet s s'.
Proof.
  intros IH Hp Hbe Hi Hnd Hfds Hfuel Hz. cbn zeta. unfold nvpair_type, recv_pair, ndesc_pair in *. cbn [nvp_data].
  destruct (nvp_data p) eqn:Ed; unfold payload in *; rewrite Ed in *; unfold data_ok in Hp; cbn [Z.eqb Pos.eqb NV_TYPE_NULL NV_TYPE_BOOL NV_TYPE_NUMBER
    NV_TYPE_STRING NV_TYPE_NVLIST NV_TYPE_DESCRIPTOR NV_TYPE_BINARY].
  - exists s. cbn. by rewrite Z.sub_0_r.
  - exists s. split; [|done]. unfold nvpair_unpack_bool. cbn [length] in *. change (Z.of_nat 1) with 1 in *. cbn [Z.eqb Pos.eqb negb].
    rewrite (proj2 (Z.ltb_ge z 1)) by lia. erewrite N_bind_Ok by (by apply fetch_app). cbv beta iota. rewrite le_val_one.
    destruct Hp as [[-> | ->] _]; done.
  - exists s. split; [|done]. unfold nvpair_unpack_number. rewrite length_le_bytes in *. change (Z.of_nat 8) with 8 in *. cbn [Z.eqb Pos.eqb negb].
    rewrite (proj2 (Z.ltb_ge z 8)) by lia. erewrite N_bind_Ok by (apply fetch_app; by rewrite length_le_bytes). cbv beta iota.
    rewrite get_int_le, le_val_bytes by (done || (cbn; lia)). done.
  - exists s. split; [|done]. destruct Hp as [Hc _]. unfold nvpair_unpack_string. rewrite length_app in *. cbn [length] in *.
    rewrite (proj2 (Z.ltb_ge z _)), (proj2 (Z.eqb_neq _ 0)) by lia. cbn [orb]. rewrite Nat2Z.id, <- app_assoc.
    change ([0] ++ rest) with (0 :: rest). replace (length s0 + 1)%nat with (S (length s0)) by lia.
    rewrite strnlen_app by done. erewrite N_bind_Ok by reflexivity. rewrite (proj2 (Z.eqb_eq _ _)) by lia. cbn [negb].
    rewrite strdup_app by done. erewrite N_bind_Ok by reflexivity.
    replace (s0 ++ 0 :: rest) with ((s0 ++ [0]) ++ rest) by (by rewrite <- app_assoc).
    rewrite drop_app_length' by (rewrite length_app; cbn; lia). done.
  - unfold nvpair_unpack_nvlist. destruct d as [|d]; [done|]. pose proof (bytes_header d i l) as Hlen.
    rewrite (proj2 (Z.ltb_ge z _)), (proj2 (Z.eqb_neq _ 0)) by lia. cbn [orb].
    destruct (IH l i fds rest fuel s Hp Hi Hnd Hfds ltac:(lia) Hfuel) as (s' & Hrun & Hq).
    exists s'. split; [|done]. rewrite (N_bind_Ok _ _ _ _ _ Hrun). rewrite Nat2Z.id, drop_app_length. done.
  - exists s. split; [|done]. unfold nvpair_unpack_descriptor. rewrite length_le_bytes in *.
    change (Z.of_nat 8) with 8 in *. cbn [Z.eqb Pos.eqb negb].
    rewrite (proj2 (Z.ltb_ge z 8)) by lia. erewrite N_bind_Ok by (apply fetch_app; by rewrite length_le_bytes). cbv beta iota.
    rewrite get_int_le, le_val_bytes by (done || (cbn; lia)). rewrite wrap_s_id by lia.
    rewrite (proj2 (Z.ltb_ge i 0)), (proj2 (Z.leb_gt _ i)) by lia.
    destruct (lookup_lt_is_Some_2 fds (Z.to_nat i)) as [fd Hfd]; [lia|]. rewrite Hfd.
    erewrite N_bind_Ok by reflexivity. by rewrite (nth_lookup_Some _ _ 0 _ Hfd).
  - exists s. split; [|done]. destruct Hp as (Hne & _ & _). unfold nvpair_unpack_binary.
    assert (0 < Z.of_nat (length b)) by (destruct b; [done|cbn; lia]).
    rewrite (proj2 (Z.ltb_ge z _)), (proj2 (Z.eqb_neq _ 0)) by lia. cbn [orb].
    erewrite N_bind_Ok by (by apply fetch_app). done.
Qed.

Lemma unpack_pair d p i fds fuel f rest z s :
  unpacks d → pair_ok (wf d) p → has_flag f NV_FLAG_BIG_ENDIAN = false → 0 <= i →
  i + ndesc_pair (ndesc d) p <= Z.of_nat (length fds) → Z.of_nat (length fds) < 2 ^ 63 →
  (length (pair_bytes (bytes d) i p) <= fuel)%nat → Z.of_nat (length (pair_bytes (bytes d) i p)) <= z < 2 ^ 63 →
  ∃ s', nvpair_unpack (xunpack_fuel fuel fds) f fds (pair_bytes (bytes d) i p ++ rest) z s
        = Ok (Some (recv_pair (bytes d) (received d fds) fds i p, rest, z - Z.of_nat (length (pair_bytes (bytes d) i p))), s') ∧ quiet s s'.
Proof.
  intros IH [Hn Hp] Hbe Hi Hnd Hfds Hfuel Hz. pose proof (pair_bytes_length (bytes d) i p) as Hlen.
  destruct (unpack_data d p i fds fuel f rest (z - (12 + Z.of_nat (length (nvp_name p)))) s) as (s' & Hrun & Hq);
    [done..|lia|lia|]. exists s'. split; [|done]. unfold nvpair_unpack, pair_bytes. rewrite <- !app_assoc.
  erewrite N_bind_Ok by (apply unpack_pair_header; [done|done|apply nvpair_type_range|lia|lia]). cbv beta iota.
  rewrite (N_bind_Ok _ _ _ _ _ Hrun). cbv beta iota. unfold recv_pair at 1 2. cbn [nvp_data nvp_name].
  fold (pair_bytes (bytes d) i p). rewrite Hlen. unfold recv_pair.
  match goal with |- _ = Ok (Some (?a, ?b, ?c), ?t) => change (Ok (Some (a, b, z - (12 + Z.of_nat (length (nvp_name p))) - Z.of_nat (length (payload (bytes d) i p))), t) = Ok (Some (a, b, c), t)) end.
  do 4 f_equal. lia.
Qed.

(** None of the names of [l] is in [acc]. *)
Definition fresh (f : Z) (acc l : list nvpair) : Prop :=
  Forall (λ p, Forall (λ q, same_name f (nvpair_name q) (nvpair_name p) = false) acc) l.

Lemma fresh_snoc f acc p q l :
  nvpair_name q = nvpair_name p → Forall (λ r, same_name f (nvpair_name p) (nvpair_name r) = false) l →
  fresh f acc l → fresh f (acc ++ [q]) l.
Proof.
  intros Hq Hp Hf. unfold fresh in *. rewrite Forall_forall in *. intros r Hr. apply Forall_app. split; [by apply Hf|].
  constructor; [|done]. rewrite Hq. by apply Hp.
Qed.

Lemma unpack_pairs d fds fuel f l acc i rest n s :
  unpacks d → Forall (pair_ok (wf d)) l → uniq f l → fresh f acc l → has_flag f NV_FLAG_BIG_ENDIAN = false → 0 <= i →
  i + ndesc_pairs (ndesc d) l <= Z.of_nat (length fds) → Z.of_nat (length fds) < 2 ^ 63 →
  (length (pairs_bytes (bytes d) (ndesc d) i l) <= fuel)%nat → (length l < n)%nat →
  Z.of_nat (length (pairs_bytes (bytes d) (ndesc d) i l)) < 2 ^ 63 →
  ∃ s', unpack_loop (nvpair_unpack (xunpack_fuel fuel fds) f fds) n (pairs_bytes (bytes d) (ndesc d) i l ++ rest)
          (Z.of_nat (length (pairs_bytes (bytes d) (ndesc d) i l))) (mk_nvl 0 f acc) s
        = Ok (Some (mk_nvl 0 f (acc ++ recv_pairs (bytes d) (received d fds) (ndesc d) fds i l)), s') ∧ quiet s s'.
Proof.
  intros IH Hl Hu Hfr Hbe. revert i acc n s Hu Hfr.
  induction Hl as [|p l Hp Hl IHl]; intros i acc n s Hu Hfr Hi Hnd Hfds Hfuel Hn Hz; destruct n as [|n]; try (cbn in Hn; lia).
  { exists s. cbn. by rewrite app_nil_r. }
  cbn [pairs_bytes recv_pairs unpack_loop] in *. rewrite length_app, Nat2Z.inj_add in *. rewrite ndesc_pairs_cons in *.
  pose proof (ndesc_pair_nonneg d p). pose proof (ndesc_pairs_nonneg d l). pose proof (pair_bytes_length (bytes d) i p).
  rewrite (proj2 (Z.ltb_lt 0 _)) by lia. rewrite <- app_assoc.
  destruct (unpack_pair d p i fds fuel f (pairs_bytes (bytes d) (ndesc d) (i + ndesc_pair (ndesc d) p) l ++ rest)
    (Z.of_nat (length (pair_bytes (bytes d) i p)) + Z.of_nat (length (pairs_bytes (bytes d) (ndesc d) (i + ndesc_pair (ndesc d) p) l))) s)
    as (s1 & Hrun & Hq1); [done|done|done|done|lia|done|lia|lia|].
  rewrite (N_bind_Ok _ _ _ _ _ Hrun). cbv beta iota. apply Forall_cons in Hfr as [Hfp Hfr]. destruct Hu as [Hup Hu].
  rewrite (N_bind_Ok _ _ _ _ _ (move_new f acc (recv_pair (bytes d) (received d fds) fds i p) s1 Hfp)).
  set (q := recv_pair (bytes d) (received d fds) fds i p).
  destruct (IHl (i + ndesc_pair (ndesc d) p) (acc ++ [q]) n (with_errno ENOENT s1)) as (s2 & Hrun2 & Hq2);
    [done|by apply (fresh_snoc f acc p q)|lia|lia|done|lia|cbn in Hn; lia|lia|].
  exists s2. split; [|etrans; [exact Hq1|]; etrans; [apply (with_errno_quiet ENOENT)|exact Hq2]].
  rewrite Z.add_simpl_l, Hrun2. by rewrite <- app_assoc.
Qed.

Lemma pairs_bytes_many B R i l : (length l <= length (pairs_bytes B R i l))%nat.
Proof.
  revert i. induction l as [|p l IH]; intros i; [done|]. cbn [pairs_bytes length]. rewrite length_app.
  pose proof (pair_bytes_length B i p). specialize (IH (i + ndesc_pair R p)). lia.
Qed.

Lemma xunpack_spec d : unpacks d.
Proof.
  induction d as [|d IH]; intros [e f h] i fds rest fuel s Hw Hi Hnd Hfds Hz Hfuel; [done|].
  pose proof (bytes_header d i (mk_nvl e f h)) as Hlen. destruct Hw as (He & Hf & Hu & Hl). cbn in He, Hf, Hu, Hl. subst e.
  destruct (public_flags f Hf) as (Hbe & _ & _). destruct fuel as [|fuel]; [lia|].
  pose proof (ndesc_pairs_bound d i h (ndesc_bound d)) as Hnb. cbn [nvl_head ndesc received nvl_flags] in *.
  pose proof (pairs_bytes_many (bytes d) (ndesc d) i h) as Hm.
  set (body := pairs_bytes (bytes d) (ndesc d) i h) in *.
  assert (length (bytes (S d) i (mk_nvl 0 f h)) = 19 + length body)%nat as Hlen' by lia.
  cbn [xunpack_fuel]. unfold nvlist_create. rewrite <- N_bind_assoc, assert_bind by done. erewrite N_bind_Ok by reflexivity.
  rewrite Hlen. cbn [bytes nvl_head nvl_flags]. fold body. rewrite <- app_assoc.
  erewrite N_bind_Ok by (apply unpack_header_spec; [done|lia|lia|lia]). cbv beta iota. cbn [nvl_error nvl_head].
  destruct (unpack_pairs d fds fuel f h [] i rest (S fuel) s) as (s' & Hrun & Hq);
    [done|done|done|apply Forall_true; constructor|done|done|lia|done|fold body; lia|lia|fold body; lia|].
  fold body in Hrun. exists s'. split; [|done]. by rewrite Hrun.
Qed.

(** [C13] A well-formed list that fits the address space, with at most three lists within
    each other, is packed without an assertion failing into exactly as many bytes as
    [nvlist_size] says, and without touching the descriptors.  Unpacking these bytes,
    whatever follows them in memory, with as many descriptors as the list has, returns the
    same list: same flags, same pairs in the same order with the same names and values,
    and every descriptor, in lists within it too, replaced by the one at its position. *)
Theorem nvlist_roundtrip x fds rest s :
  wf 3 x → Z.of_nat (length (bytes 3 0 x)) < 2 ^ 63 → length fds = length (descs 3 x) →
  ∃ buf s', nvlist_size x s = Ok (Z.of_nat (length buf), s) ∧
    nvlist_descriptors x s = Ok ((descs 3 x, Z.of_nat (length fds)), s) ∧
    nvlist_xpack x (Some 0) s = Ok ((Some buf, Some (Z.of_nat (length fds))), s) ∧
    nvlist_xunpack (buf ++ rest) (Z.of_nat (length buf)) fds s = Ok (Some (received 3 fds 0 x), s') ∧ quiet s s'.
Proof.
  intros Hw Hz Hfds. pose proof (descs_length 3 x) as Hd. pose proof (ndesc_bound 3 0 x) as Hb.
  assert (Z.of_nat (length fds) = ndesc 3 x) as En by lia.
  destruct (xunpack_spec 3 x 0 fds rest (S (Z.to_nat (Z.of_nat (length (bytes 3 0 x))))) s) as (s' & Hrun & Hq);
    [done|lia|lia|lia|done|lia|].
  exists (bytes 3 0 x), s'. split; [by apply (xsize_spec 3 x 0 0 s); [done|lia|lia]|].
  split; [rewrite En; by apply (nvlist_descriptors_spec 3 x 0 s); [done|lia|done]|].
  split; [rewrite En; apply (xpack_spec 3 x 0 s); done || lia|]. done.
Qed.

(** A list with a list in it, which has a descriptor. *)
Definition ex_inner : nvlist := mk_nvl 0 NV_FLAG_IGNORE_CASE [mk_nvp [102; 100] (NvDescriptor 7) 8; mk_nvp [98] (NvBinary [0; 255]) 2].
Definition ex_list : nvlist :=
  mk_nvl 0 0 [mk_nvp [97] (NvNumber 300) 8; mk_nvp [98] (NvNvlist ex_inner) 0; mk_nvp [99] (NvString [104; 105]) 3; mk_nvp [100] NvNull 0].

Lemma ex_list_wf : wf 3 ex_list.
Proof.
  cbn. unfold pair_ok, name_ok, chars, NV_NAME_MAX, NV_FLAG_IGNORE_CASE. cbn.
  repeat first [done | lia | by right | split | constructor].
Qed.

Lemma nvlist_roundtrip_witness :
  ∃ buf s', nvlist_size ex_list (mk_host 0 ∅ 64) = Ok (Z.of_nat (length buf), mk_host 0 ∅ 64) ∧
    nvlist_descriptors ex_list (mk_host 0 ∅ 64) = Ok (([7], 1), mk_host 0 ∅ 64) ∧
    nvlist_xpack ex_list (Some 0) (mk_host 0 ∅ 64) = Ok ((Some buf, Some 1), mk_host 0 ∅ 64) ∧
    nvlist_xunpack (buf ++ [1; 2; 3]) (Z.of_nat (length buf)) [9] (mk_host 0 ∅ 64) = Ok (Some (received 3 [9] 0 ex_list), s') ∧
    quiet (mk_host 0 ∅ 64) s'.
Proof. apply (nvlist_roundtrip ex_list [9] [1; 2; 3] (mk_host 0 ∅ 64)); [apply ex_list_wf|vm_compute; reflexivity|reflexivity]. Defined.

End NvRound.
