(* ===== verification/NvSafe.v ===== *)
(** * Unpacking bytes from anywhere

    Whatever bytes arrive, unpacking reads only the memory it was given, aborts on no
    assertion, ends, and gives an error or a list that has the form of one built with the
    library. *)
From S2P Require Import Prelude Nv NvPack NvSpec NvRound.

Module NvSafe.
Import Nv NvPack NvSpec NvRound.

(** The call returns and what holds of its result. *)
Definition safe {A} (m : N A) (s : host) (P : A → host → Prop) : Prop := ∃ a s', m s = Ok (a, s') ∧ P a s'.

Lemma safe_bind {A B} (m : N A) (k : A → N B) s P Q :
  safe m s P → (∀ a s', P a s' → safe (k a) s' Q) → safe (a ← m; k a) s Q.
Proof. intros (a & s' & E & HP) HQ. destruct (HQ a s' HP) as (b & s'' & E' & HQ'). exists b, s''. by rewrite (N_bind_Ok _ _ _ _ _ E). Qed.

Lemma safe_ret {A} (a : A) s P : P a s → safe (mret a) s P.
Proof. intros H. by exists a, s. Qed.

Lemma safe_liftR {A} (r : result A) a s P : r = Ok a → P a s → safe (liftR r) s P.
Proof. intros -> H. by exists a, s. Qed.

Lemma safe_impl {A} (m : N A) s (P Q : A → host → Prop) : safe m s P → (∀ a s', P a s' → Q a s') → safe m s Q.
Proof. intros (a & s' & E & HP) H. exists a, s'. auto. Qed.

(** * Bytes *)

Definition octets (l : list Z) : Prop := Forall (λ b, 0 <= b < 256) l.

Lemma le_val_nonneg l : octets l → 0 <= le_val l.
Proof. unfold octets, le_val. induction 1; cbn; lia. Qed.

Lemma le_val_bound l : octets l → le_val l < 2 ^ (8 * Z.of_nat (length l)).
Proof.
  unfold octets. induction 1 as [|b l Hb Hl IH]; [done|]. unfold le_val in *. cbn [foldr length].
  replace (8 * Z.of_nat (S (length l))) with (8 + 8 * Z.of_nat (length l)) by lia. rewrite Z.pow_add_r by lia. lia.
Qed.

Lemma get_int_range f l : octets l → 0 <= get_int f l < 2 ^ (8 * Z.of_nat (length l)).
Proof.
  intros H. unfold get_int. assert (octets (rev l)) as Hr by (by apply Forall_rev).
  destruct (has_flag f NV_FLAG_BIG_ENDIAN); [|split; [by apply le_val_nonneg|by apply le_val_bound]].
  rewrite <- (rev_length l). split; [by apply le_val_nonneg|by apply le_val_bound].
Qed.

Lemma octets_take n l : octets l → octets (take n l).
Proof. apply Forall_take. Qed.

Lemma octets_drop n l : octets l → octets (drop n l).
Proof. apply Forall_drop. Qed.

Lemma safe_fetch n ptr s P :
  0 <= n <= Z.of_nat (length ptr) → P (take (Z.to_nat n) ptr, drop (Z.to_nat n) ptr) s → safe (fetch n ptr) s P.
Proof. intros Hn HP. unfold fetch. rewrite (proj2 (Z.leb_le _ _)) by lia. by apply safe_ret. Qed.

Lemma strnlen_safe ptr n :
  (n <= length ptr)%nat →
  ∃ k, strnlen ptr n = Ok (Z.of_nat k) ∧ (k <= n)%nat ∧ Forall (λ c, c ≠ 0) (take k ptr) ∧ ((k < n)%nat → ptr !! k = Some 0).
Proof.
  revert n. induction ptr as [|c ptr IH]; intros n Hn.
  { destruct n; [|cbn in Hn; lia]. exists O. cbn. repeat split; [lia|constructor|lia]. }
  destruct n as [|n]; [exists O; cbn; repeat split; [lia|constructor|lia]|]. cbn [strnlen]. destruct (c =? 0) eqn:E.
  { apply Z.eqb_eq in E as ->. exists O. cbn. repeat split; [lia|constructor]. }
  apply Z.eqb_neq in E. destruct (IH n ltac:(cbn in Hn; lia)) as (k & Hk & Hle & Hnz & H0). exists (S k). rewrite Hk. cbn.
  split; [f_equal; lia|]. split; [lia|]. split; [by constructor|]. intros. apply H0. lia.
Qed.

Lemma strdup_safe ptr k :
  Forall (λ c, c ≠ 0) (take k ptr) → ptr !! k = Some 0 → strdup ptr = Ok (take k ptr).
Proof.
  revert k. induction ptr as [|c ptr IH]; intros k Hnz H0; [done|]. destruct k as [|k]; cbn in *.
  { by simplify_eq. }
  apply Forall_cons in Hnz as [Hc Hnz]. rewrite (proj2 (Z.eqb_neq c 0)) by done. by rewrite (IH k).
Qed.

Lemma chars_take k ptr : octets ptr → Forall (λ c, c ≠ 0) (take k ptr) → chars (take k ptr).
Proof.
  intros Ho Hnz. apply (octets_take k) in Ho. unfold chars, octets in *. rewrite Forall_forall in *.
  intros c Hc. specialize (Ho c Hc). specialize (Hnz c Hc). cbn in *. lia.
Qed.

Lemma land_public f : Z.land f NV_FLAG_PUBLIC_MASK = 0 ∨ Z.land f NV_FLAG_PUBLIC_MASK = NV_FLAG_IGNORE_CASE.
Proof.
  unfold NV_FLAG_PUBLIC_MASK, NV_FLAG_IGNORE_CASE. assert (Z.land f 1 = f mod 2 ^ 1) as -> by (apply (Z.land_ones f 1); lia).
  pose proof (Z.mod_pos_bound f (2 ^ 1)). change (2 ^ 1) with 2 in *. lia.
Qed.

(** * Lists that may come out

    A name may be empty, which those of the library's own lists are not.  A name that came twice leaves the error [EEXIST] in the list; the descriptors are
    those that came with the bytes. *)
Section Received.
Variable fds : list Z.
Hypothesis fds_ok : Forall (λ v, 0 <= v < 2 ^ 31) fds.

Definition name_in (n : list Z) : Prop := Z.of_nat (length n) < NV_NAME_MAX ∧ chars n.

Definition pair_in (W : nvlist → Prop) (p : nvpair) : Prop :=
  (name_in (nvp_name p) ∧ data_ok W (nvp_data p) (nvp_datasize p)) ∧ ∀ v, nvp_data p = NvDescriptor v → v ∈ fds.

Fixpoint good (d : nat) (x : nvlist) : Prop :=
  match d with
  | O => False
  | S d =>
      (nvl_error x = 0 ∨ nvl_error x = EEXIST) ∧ (nvl_flags x = 0 ∨ nvl_flags x = NV_FLAG_IGNORE_CASE) ∧
      uniq (nvl_flags x) (nvl_head x) ∧ Forall (pair_in (good d)) (nvl_head x)
  end.

(** At most, descriptors that came have been closed. *)
Definition eff (s s' : host) : Prop :=
  nofile s' = nofile s ∧ files s' ⊆ files s ∧ ∀ fd, fd ∉ fds → files s' !! fd = files s !! fd.

#[local] Instance eff_refl : Reflexive eff.
Proof. by intros s. Qed.

#[local] Instance eff_trans : Transitive eff.
Proof. intros a b c (? & ? & H1) (? & ? & H2). split; [congruence|]. split; [by etrans|]. intros fd Hfd. by rewrite H2, H1. Qed.

Lemma eff_quiet s s' : quiet s s' → eff s s'.
Proof. intros [E1 E2]. split; [done|]. by rewrite E1. Qed.

Lemma safe_fail {A} e s : safe (@fail A e) s (λ r s', r = None ∧ eff s s' ∧ errno s' = e).
Proof. exists None, (with_errno e s). split; [done|]. split; [done|]. split; [by apply eff_quiet|done]. Qed.

Lemma safe_close v s : v ∈ fds → safe (close v) s (λ _ s', eff s s').
Proof.
  intros Hv. unfold close. destruct (files s !! v) eqn:E.
  - exists (), (mk_host (errno s) (delete v (files s)) (nofile s)). split; [cbn; unfold mbind, M_bind; cbn; by rewrite E|].
    split; [done|]. cbn. split; [apply delete_subseteq|]. intros fd Hfd. apply lookup_delete_ne. by intros ->.
  - exists (), (with_errno EBADF s). split; [cbn; unfold mbind, M_bind; cbn; by rewrite E|]. by apply eff_quiet.
Qed.

Lemma safe_for_each {A} (f : A → N unit) l s :
  (∀ a s, a ∈ l → safe (f a) s (λ _ s', eff s s')) → safe (for_each f l) s (λ _ s', eff s s').
Proof.
  revert s. induction l as [|a l IH]; intros s Hf; [by apply safe_ret|]. cbn [for_each].
  eapply safe_bind; [apply Hf; left|]. intros [] s1 H1. eapply safe_impl; [apply IH; intros b t Hb; apply Hf; by right|].
  intros [] s2 H2. by etrans.
Qed.

Lemma safe_destroy d x s : good d x → safe (nvlist_destroy x) s (λ _ s', eff s s' ∧ errno s' = errno s).
Proof.
  revert x s. induction d as [|d IH]; intros [e f h] s Hg; [done|]. destruct Hg as (_ & _ & _ & Hh). cbn in Hh.
  cbn [nvlist_destroy]. eapply (safe_bind _ _ _ (λ a t, a = errno s ∧ t = s)); [by exists (errno s), s|]. intros se s1 [-> ->].
  eapply safe_bind; [apply (safe_for_each (free_data nvlist_destroy) h s)|].
  - intros p t Hp. rewrite Forall_forall in Hh. specialize (Hh p Hp) as [[_ Hd] Hin]. unfold free_data, data_ok in *.
    destruct (nvp_data p) eqn:Ed; try (by apply safe_ret).
    + eapply safe_impl; [by apply IH|]. by intros [] t' [? _].
    + rewrite wrap_s_id by lia. by apply safe_close, Hin.
  - intros [] s2 H2. exists (), (with_errno (errno s) s2). split; [done|]. split; [|done].
    etrans; [exact H2|]. by apply eff_quiet.
Qed.

Lemma safe_free d p s : pair_in (good d) p → safe (nvpair_free p) s (λ _ s', eff s s').
Proof.
  intros [[_ Hd] Hin]. unfold nvpair_free, free_data, data_ok in *. destruct (nvp_data p) eqn:Ed; try (by apply safe_ret).
  - eapply safe_impl; [by eapply safe_destroy|]. by intros [] t' [? _].
  - rewrite wrap_s_id by lia. by apply safe_close, Hin.
Qed.

Lemma uniq_snoc f l p :
  uniq f l → Forall (λ q, same_name f (nvpair_name q) (nvpair_name p) = false) l → uniq f (l ++ [p]).
Proof.
  induction l as [|q l IH]; intros Hu Hf; [by repeat constructor|]. destruct Hu as [Hq Hu]. apply Forall_cons in Hf as [Hqp Hf].
  split; [apply Forall_app; split; [done|by constructor]|by apply IH].
Qed.

Lemma find_some_bool f name acc :
  { r | list_find (λ p, matches f NV_TYPE_NONE name p = true) acc = Some r } +
  { Forall (λ q, same_name f (nvpair_name q) name = false) acc }.
Proof.
  destruct (list_find (λ p, matches f NV_TYPE_NONE name p = true) acc) as [r|] eqn:E; [left; eauto|right].
  apply list_find_None in E. eapply Forall_impl; [exact E|]. intros q Hq. unfold matches in Hq. cbn in Hq.
  by destruct (same_name f (nvpair_name q) name).
Qed.

Lemma safe_move d x p s :
  good (S d) x → pair_in (good d) p → safe (nvlist_move_nvpair x p) s (λ x' s', good (S d) x' ∧ eff s s').
Proof.
  intros Hg Hp. unfold nvlist_move_nvpair. destruct x as [e f h]. cbn [nvl_error]. destruct (e =? 0) eqn:Ee; cbn [negb].
  - apply Z.eqb_eq in Ee as ->. destruct (find_some_bool f (nvpair_name p) h) as [[r Hr]|Hn].
    + assert (nvlist_exists (mk_nvl 0 f h) (nvpair_name p) s = Ok (true, s)) as Hx.
      { unfold nvlist_exists, nvlist_existsv_type, nvlist_findv. cbn [nvl_error nvl_flags nvl_head]. by rewrite Hr. }
      unfold safe. rewrite (N_bind_Ok _ _ _ _ _ Hx). fold (safe (A:=nvlist)). eapply safe_bind; [by eapply safe_free|].
      intros [] s1 H1. exists (mk_nvl EEXIST f h), (with_errno EEXIST s1). split; [done|].
      split; [|etrans; [exact H1|by apply eff_quiet]]. destruct Hg as (_ & Hf & Hu & Hh). by repeat split; [right|..].
    + destruct Hg as (_ & Hf & Hu & Hh). cbn in Hf, Hu, Hh.
      exists (mk_nvl 0 f (h ++ [p])), (with_errno ENOENT s).
      pose proof (move_new f h p s Hn) as Hm. unfold nvlist_move_nvpair in Hm. cbn [nvl_error Z.eqb negb] in Hm.
      split; [exact Hm|]. split; [|by apply eff_quiet]. split; [by left|]. split; [done|]. split; [by apply uniq_snoc|].
      apply Forall_app. split; [done|]. by constructor.
  - eapply safe_bind; [by eapply safe_free|]. intros [] s1 H1. exists (mk_nvl e f h), (with_errno e s1). split; [done|].
    split; [done|]. etrans; [exact H1|by apply eff_quiet].
Qed.

(** * Headers *)

(** A failure sets [errno] to [EINVAL]. *)
Definition ends {A} (s : host) (Q : A → Prop) (r : option A) (s' : host) : Prop :=
  eff s s' ∧ match r with None => errno s' = EINVAL | Some a => Q a end.

Lemma safe_einval {A} s (Q : A → Prop) : safe (fail EINVAL) s (ends s Q).
Proof. eapply safe_impl; [apply safe_fail|]. by intros r s' (-> & He & Hn). Qed.

Lemma safe_some {A} (a : A) s (Q : A → Prop) : Q a → safe (mret (Some a)) s (ends s Q).
Proof. intros H. by apply safe_ret. Qed.

Lemma safe_unpack_header ptr z nfds s :
  z <= Z.of_nat (length ptr) →
  safe (nvlist_unpack_header ptr z nfds) s (ends s (λ '(lf, _, ptr', z'),
    (lf = 0 ∨ lf = NV_FLAG_IGNORE_CASE) ∧ ptr' = drop 19 ptr ∧ z' = z - 19 ∧ 0 <= z')).
Proof.
  intros Hz. unfold nvlist_unpack_header, nvlist_header_size. destruct (z <? 19) eqn:E; [apply safe_einval|]. apply Z.ltb_ge in E.
  eapply safe_bind; [apply (safe_fetch 19 ptr s (λ r t, r = (take 19 ptr, drop 19 ptr) ∧ t = s)); [lia|done]|].
  intros [bs ptr'] t [[= -> ->] ->]. unfold nvlist_check_header. set (h := read_header (take 19 ptr)).
  destruct (negb (nvlh_magic h =? 108)).
  { eapply safe_bind; [apply (@safe_fail nvlist_header)|]. intros o t (-> & Ht & _).
    eapply safe_impl; [apply (@safe_fail (Z * Z * list Z * Z))|]. intros r t' (-> & Ht' & He). split; [by etrans|done]. }
  destruct (negb (clear_flag (nvlh_flags h) NV_FLAG_ALL_MASK =? 0)).
  { eapply safe_bind; [apply (@safe_fail nvlist_header)|]. intros o t (-> & Ht & _).
    eapply safe_impl; [apply (@safe_fail (Z * Z * list Z * Z))|]. intros r t' (-> & Ht' & He). split; [by etrans|done]. }
  eapply (safe_bind _ _ _ (λ o t, t = s ∧ ∃ h', o = Some h')); [by destruct (has_flag _ _); apply safe_ret; eauto|].
  intros o t (-> & h' & ->). split_ifs; try apply safe_einval. apply safe_some. repeat split; [apply land_public|lia].
Qed.

Lemma safe_pair_header f ptr z s :
  octets ptr → z <= Z.of_nat (length ptr) →
  safe (nvpair_unpack_header f ptr z) s (ends s (λ '(h, ptr', z'),
    name_in (ph_name h) ∧ 1 <= ph_type h <= 7 ∧ 0 <= ph_datasize h <= z' ∧ octets ptr' ∧ z' <= Z.of_nat (length ptr') ∧ z' < z)).
Proof.
  intros Ho Hz. unfold nvpair_unpack_header, nvpair_header_size. destruct (z <? 11) eqn:E; [apply safe_einval|]. apply Z.ltb_ge in E.
  eapply safe_bind; [apply (safe_fetch 11 ptr s (λ r t, r = (take 11 ptr, drop 11 ptr) ∧ t = s)); [lia|done]|].
  intros [h ptr1] t [[= -> ->] ->]. set (ptr1 := drop 11 ptr). assert (octets ptr1) as Ho1 by (by apply octets_drop).
  assert (z - 11 <= Z.of_nat (length ptr1)) as Hz1 by (unfold ptr1; rewrite length_drop; lia).
  destruct (_ || _) eqn:Ety; [apply safe_einval|]. unfold NV_TYPE_FIRST, NV_TYPE_LAST, NV_TYPE_NULL, NV_TYPE_BINARY in Ety.
  pose proof (get_int_range f (take 2 (drop 1 (take 11 ptr))) ltac:(by apply octets_take, octets_drop, octets_take)) as Hns.
  pose proof (get_int_range f (take 8 (drop 3 (take 11 ptr))) ltac:(by apply octets_take, octets_drop, octets_take)) as Hds.
  set (ns := get_int f (take 2 _)) in *. set (ds := get_int f (take 8 _)) in *. set (ty := le_val (take 1 (take 11 ptr))) in *.
  destruct (NV_NAME_MAX <? ns) eqn:E1; [apply safe_einval|]. destruct (z - 11 <? ns) eqn:E2; [apply safe_einval|].
  destruct (ns <? 1) eqn:E3; [apply safe_einval|]. bool_to_prop. unfold NV_NAME_MAX in *.
  destruct (strnlen_safe ptr1 (Z.to_nat ns) ltac:(lia)) as (k & Hk & Hle & Hnz & _).
  eapply safe_bind; [apply (safe_liftR _ _ s (λ n t, n = Z.of_nat k ∧ t = s) Hk); done|]. intros n t [-> ->].
  destruct (negb (Z.of_nat k =? ns - 1)) eqn:E4; [apply safe_einval|]. bool_to_prop.
  eapply safe_bind; [apply (safe_fetch ns ptr1 s (λ r t, r = (take (Z.to_nat ns) ptr1, drop (Z.to_nat ns) ptr1) ∧ t = s)); [lia|done]|].
  intros [name ptr2] t [[= -> ->] ->]. destruct (z - 11 - ns <? ds) eqn:E5; [apply safe_einval|]. bool_to_prop.
  apply safe_some. cbn [ph_name ph_type ph_datasize]. rewrite take_take. replace (Z.to_nat (ns - 1) `min` Z.to_nat ns)%nat with k by lia.
  split; [|split; [lia|split; [lia|split; [by apply octets_drop|rewrite length_drop; lia]]]].
  split; [rewrite length_take; unfold NV_NAME_MAX; lia|by apply chars_take].
Qed.

(** * Values, pairs and lists *)

Definition xsafe (fuel : nat) : Prop := ∀ buf z s,
  octets buf → 0 <= z <= Z.of_nat (length buf) → (Z.to_nat z < fuel)%nat →
  safe (xunpack_fuel fuel fds buf z) s (ends s (good fuel)).

(** What a function for a type leaves. *)
Definition value_in (fuel : nat) (ds z : Z) (r : nvdata * list Z * Z) : Prop :=
  let '(d, ptr', z') := r in
  data_ok (good fuel) d ds ∧ (∀ v, d = NvDescriptor v → v ∈ fds) ∧ octets ptr' ∧ 0 <= z' <= Z.of_nat (length ptr') ∧ z' <= z.

Lemma safe_fixed n ptr z s P :
  octets ptr → 0 <= n <= z → z <= Z.of_nat (length ptr) →
  (∀ b ptr', octets b → length b = Z.to_nat n → octets ptr' → z - n <= Z.of_nat (length ptr') → P (b, ptr') s) → safe (fetch n ptr) s P.
Proof.
  intros Ho Hn Hz HP. apply safe_fetch; [lia|]. apply HP; [by apply octets_take|rewrite length_take; lia|by apply octets_drop|].
  rewrite length_drop. lia.
Qed.

Lemma safe_unpack_bool fuel ds ptr z s :
  octets ptr → 0 <= ds <= z → z <= Z.of_nat (length ptr) → safe (nvpair_unpack_bool ds ptr z) s (ends s (value_in fuel ds z)).
Proof.
  intros Ho Hd Hz. unfold nvpair_unpack_bool. destruct (negb (ds =? 1)) eqn:E1; [apply safe_einval|].
  destruct (z <? 1) eqn:E2; [apply safe_einval|]. bool_to_prop. subst ds.
  eapply safe_bind; [apply (safe_fixed 1 ptr z s (λ r t, t = s ∧ octets (snd r) ∧ z - 1 <= Z.of_nat (length (snd r)))); [done|lia|done|]|].
  { intros b ptr' _ _ Ho' Hz'. done. }
  intros [b ptr'] t (-> & Ho' & Hz'). cbn in Ho', Hz'. destruct (_ && _) eqn:E3; [apply safe_einval|]. bool_to_prop.
  apply safe_some. repeat split; try done; try lia.
Qed.

Lemma safe_unpack_number fuel f ds ptr z s :
  octets ptr → 0 <= ds <= z → z <= Z.of_nat (length ptr) → safe (nvpair_unpack_number f ds ptr z) s (ends s (value_in fuel ds z)).
Proof.
  intros Ho Hd Hz. unfold nvpair_unpack_number. destruct (negb (ds =? 8)) eqn:E1; [apply safe_einval|].
  destruct (z <? 8) eqn:E2; [apply safe_einval|]. bool_to_prop. subst ds.
  eapply safe_bind; [apply (safe_fixed 8 ptr z s (λ r t, t = s ∧ octets (fst r) ∧ length (fst r) = 8%nat ∧ octets (snd r) ∧ z - 8 <= Z.of_nat (length (snd r)))); [done|lia|done|]|].
  { done. }
  intros [b ptr'] t (-> & Hb & Hlen & Ho' & Hz'). cbn in *. apply safe_some. pose proof (get_int_range f b Hb) as Hr. rewrite Hlen in Hr.
  repeat split; try done; try lia.
Qed.

Lemma safe_unpack_descriptor fuel f ds ptr z s :
  octets ptr → 0 <= ds <= z → z <= Z.of_nat (length ptr) → safe (nvpair_unpack_descriptor f ds fds ptr z) s (ends s (value_in fuel ds z)).
Proof.
  intros Ho Hd Hz. unfold nvpair_unpack_descriptor. destruct (negb (ds =? 8)) eqn:E1; [apply safe_einval|].
  destruct (z <? 8) eqn:E2; [apply safe_einval|]. bool_to_prop. subst ds.
  eapply safe_bind; [apply (safe_fixed 8 ptr z s (λ r t, t = s ∧ octets (snd r) ∧ z - 8 <= Z.of_nat (length (snd r)))); [done|lia|done|]|].
  { done. }
  intros [b ptr'] t (-> & Ho' & Hz'). cbn in Ho', Hz'. set (i := s64 _). destruct (i <? 0) eqn:E3; [apply safe_einval|].
  destruct (_ <=? i) eqn:E4; [apply safe_einval|]. bool_to_prop.
  destruct (lookup_lt_is_Some_2 fds (Z.to_nat i)) as [fd Hfd]; [lia|]. rewrite Hfd.
  eapply safe_bind; [by apply (safe_liftR _ fd s (λ a t, a = fd ∧ t = s))|]. intros a t [-> ->]. apply safe_some.
  assert (0 <= fd < 2 ^ 31) as Hr by (rewrite Forall_lookup in fds_ok; by eapply fds_ok). rewrite wrap_u_id by lia.
  repeat split; try done; try lia. intros v [= <-]. by eapply list_elem_of_lookup_2.
Qed.

Lemma safe_unpack_string fuel ds ptr z s :
  octets ptr → 0 <= ds <= z → z <= Z.of_nat (length ptr) → safe (nvpair_unpack_string ds ptr z) s (ends s (value_in fuel ds z)).
Proof.
  intros Ho Hd Hz. unfold nvpair_unpack_string. destruct (_ || _) eqn:E1; [apply safe_einval|]. bool_to_prop.
  destruct (strnlen_safe ptr (Z.to_nat ds) ltac:(lia)) as (k & Hk & Hle & Hnz & Hnul).
  eapply safe_bind; [by apply (safe_liftR _ _ s (λ n t, n = Z.of_nat k ∧ t = s) Hk)|]. intros n t [-> ->].
  destruct (negb _) eqn:E2; [apply safe_einval|]. bool_to_prop.
  eapply safe_bind; [by apply (safe_liftR _ _ s (λ r t, r = take k ptr ∧ t = s) (strdup_safe ptr k Hnz (Hnul ltac:(lia))))|].
  intros r t [-> ->]. apply safe_some. repeat split; try lia; try done; [by apply chars_take| | |].
  - rewrite length_take. lia.
  - by apply octets_drop.
  - rewrite length_drop. lia.
Qed.

Lemma safe_unpack_binary fuel ds ptr z s :
  octets ptr → 0 <= ds <= z → z <= Z.of_nat (length ptr) → safe (nvpair_unpack_binary ds ptr z) s (ends s (value_in fuel ds z)).
Proof.
  intros Ho Hd Hz. unfold nvpair_unpack_binary. destruct (_ || _) eqn:E1; [apply safe_einval|]. bool_to_prop.
  eapply safe_bind; [apply (safe_fixed ds ptr z s (λ r t, t = s ∧ octets (fst r) ∧ length (fst r) = Z.to_nat ds ∧ octets (snd r) ∧ z - ds <= Z.of_nat (length (snd r)))); [done|lia|done|]|].
  { done. }
  intros [b ptr'] t (-> & Hb & Hlen & Ho' & Hz'). cbn in *. apply safe_some. repeat split; try done; try lia.
  intros ->. cbn in Hlen. lia.
Qed.

Lemma safe_unpack_nvlist fuel ds ptr z s :
  xsafe fuel → octets ptr → 0 <= ds <= z → z <= Z.of_nat (length ptr) → (Z.to_nat ds < fuel)%nat →
  safe (nvpair_unpack_nvlist (xunpack_fuel fuel fds) ds ptr z) s (ends s (value_in fuel ds z)).
Proof.
  intros IH Ho Hd Hz Hf. unfold nvpair_unpack_nvlist. destruct (_ || _) eqn:E1; [apply safe_einval|]. bool_to_prop.
  eapply safe_bind; [apply (IH ptr ds s Ho); [lia|done]|]. intros [x|] t [Ht Hx]; [|by apply safe_ret].
  apply safe_ret. split; [done|]. repeat split; try done; [by apply octets_drop|lia|rewrite length_drop; lia|lia].
Qed.

Lemma safe_unpack_pair fuel f ptr z s :
  xsafe fuel → octets ptr → z <= Z.of_nat (length ptr) → (Z.to_nat z <= fuel)%nat →
  safe (nvpair_unpack (xunpack_fuel fuel fds) f fds ptr z) s (ends s (λ '(p, ptr', z'),
    pair_in (good fuel) p ∧ octets ptr' ∧ 0 <= z' <= Z.of_nat (length ptr') ∧ z' < z)).
Proof.
  intros IH Ho Hz Hf. unfold nvpair_unpack. eapply safe_bind; [by apply safe_pair_header|].
  intros [[[h ptr1] z1]|] t [Ht Hh]; [|by apply safe_ret]. destruct Hh as (Hn & Hty & Hd & Ho1 & Hz1 & Hlt).
  destruct h as [name ty ds]. cbn [ph_name ph_type ph_datasize] in *.
  eapply (safe_bind _ _ _ (ends t (value_in fuel ds z1))).
  - destruct (ty =? NV_TYPE_NULL) eqn:E1.
    { unfold nvpair_unpack_null. destruct (negb (ds =? 0)) eqn:E; [apply safe_einval|]. bool_to_prop.
      apply safe_some. repeat split; done || lia. }
    destruct (ty =? NV_TYPE_BOOL) eqn:E2; [by apply safe_unpack_bool|].
    destruct (ty =? NV_TYPE_NUMBER) eqn:E3; [by apply safe_unpack_number|].
    destruct (ty =? NV_TYPE_STRING) eqn:E4; [by apply safe_unpack_string|].
    destruct (ty =? NV_TYPE_NVLIST) eqn:E5; [apply safe_unpack_nvlist; done || lia|].
    destruct (ty =? NV_TYPE_DESCRIPTOR) eqn:E6; [by apply safe_unpack_descriptor|].
    destruct (ty =? NV_TYPE_BINARY) eqn:E7; [by apply safe_unpack_binary|].
    unfold NV_TYPE_NULL, NV_TYPE_BOOL, NV_TYPE_NUMBER, NV_TYPE_STRING, NV_TYPE_NVLIST, NV_TYPE_DESCRIPTOR, NV_TYPE_BINARY in *.
    bool_to_prop. lia.
  - intros [[[d ptr2] z2]|] t2 [Ht2 Hv]; [|apply safe_ret; split; [by etrans|done]].
    destruct Hv as (Hdo & Hin & Ho2 & Hz2 & Hle). apply safe_ret. split; [by etrans|].
    split; [done|]. split; [done|]. lia.
Qed.

Lemma safe_loop fuel f n ptr z x s :
  xsafe fuel → octets ptr → z <= Z.of_nat (length ptr) → (Z.to_nat z <= fuel)%nat → (Z.to_nat z < n)%nat → good (S fuel) x →
  safe (unpack_loop (nvpair_unpack (xunpack_fuel fuel fds) f fds) n ptr z x) s (ends s (good (S fuel))).
Proof.
  intros IH. revert ptr z x s. induction n as [|n IHn]; intros ptr z x s Ho Hz Hf Hn Hg; [lia|]. cbn [unpack_loop].
  destruct (0 <? z) eqn:E; [|by apply safe_some]. bool_to_prop. eapply safe_bind; [by apply safe_unpack_pair|].
  intros [[[p ptr'] z']|] t [Ht Hp].
  - destruct Hp as (Hp & Ho' & Hz' & Hlt). eapply safe_bind; [by eapply safe_move|]. intros x' t' [Hg' Ht'].
    eapply safe_impl; [apply IHn; done || lia|]. intros r t'' [Ht'' Hr]. split; [etrans; [exact Ht|]; by etrans|done].
  - eapply safe_bind; [by eapply safe_destroy|]. intros [] t' [Ht' He]. apply safe_ret. split; [by etrans|by rewrite He].
Qed.

Lemma xunpack_safe fuel : xsafe fuel.
Proof.
  induction fuel as [|fuel IH]; intros buf z s Ho Hz Hf; [lia|]. cbn [xunpack_fuel].
  eapply (safe_bind _ _ _ (λ x t, x = mk_nvl 0 0 [] ∧ t = s)); [by exists (mk_nvl 0 0 []), s|]. intros x t [-> ->].
  eapply safe_bind; [apply safe_unpack_header; lia|]. intros [[[[lf f] ptr] z']|] t [Ht Hh].
  - destruct Hh as (Hlf & -> & -> & Hz'). eapply safe_impl.
    + apply (safe_loop fuel f (S fuel)); [done|by apply octets_drop|rewrite length_drop; lia|lia|lia|].
      split; [by left|]. split; [done|]. split; constructor.
    + intros r t' [Ht' Hr]. split; [by etrans|done].
  - eapply safe_bind; [apply (safe_destroy 1 (mk_nvl 0 0 [])); split; [by left|]; split; [by left|]; split; constructor|].
    intros [] t' [Ht' He]. apply safe_ret. split; [by etrans|by rewrite He].
Qed.

End Received.

(** [C8] Unpacking arbitrary bytes with arbitrary descriptors never reads outside the
    buffer, never fails an assertion and always ends.  Either it refuses them with
    [EINVAL], or it returns a list in which every pair has a name that fits and a value of
    its type, lists within it included, no two names are the same, and all descriptors are
    among those that came; a list that is marked with an error is marked with [EEXIST].
    It opens no descriptor, and closes none but those that came. *)
Theorem nvlist_unpack_safe buf size fds s :
  octets buf → 0 <= size <= Z.of_nat (length buf) → Forall (λ v, 0 <= v < 2 ^ 31) fds →
  ∃ r s', nvlist_xunpack buf size fds s = Ok (r, s') ∧
    match r with None => errno s' = EINVAL | Some x => good fds (S (Z.to_nat size)) x end ∧
    files s' ⊆ files s ∧ ∀ fd, fd ∉ fds → files s' !! fd = files s !! fd.
Proof.
  intros Ho Hz Hfds. destruct (xunpack_safe fds Hfds (S (Z.to_nat size)) buf size s Ho Hz ltac:(lia)) as (r & s' & E & (_ & Hsub & Hother) & Hr).
  by exists r, s'.
Qed.

(** Two pairs with the name "a". *)
Definition ex_twice : list Z :=
  header_bytes 0 0 26 ++ [1] ++ le_bytes 2 2 ++ le_bytes 8 0 ++ [97; 0] ++ [1] ++ le_bytes 2 2 ++ le_bytes 8 0 ++ [97; 0].

Lemma nvlist_unpack_safe_witness :
  ∃ r s', nvlist_xunpack ex_twice 45 [5] (mk_host 0 ∅ 64) = Ok (r, s') ∧
    match r with None => errno s' = EINVAL | Some x => good [5] 46 x end ∧
    files s' ⊆ ∅ ∧ ∀ fd, fd ∉ [5] → files s' !! fd = (∅ : gmap Z nat) !! fd.
Proof.
  apply (nvlist_unpack_safe ex_twice 45 [5] (mk_host 0 ∅ 64)); [|by vm_compute|by repeat constructor].
  repeat constructor; vm_compute; done.
Defined.

(** The list that results is one no other operation accepts: the first search in it
    aborts the process. *)
Lemma duplicate_name_aborts :
  ∃ x s', nvlist_xunpack ex_twice 45 [] (mk_host 0 ∅ 64) = Ok (Some x, s') ∧ nvl_error x = EEXIST ∧
    nvlist_exists x [116; 121; 112; 101] s' = Fault Panic.
Proof. eexists _, _. split; [vm_compute; reflexivity|]. by split. Qed.

(** Two pairs may name the same descriptor: destroying the list closes it twice. *)
Definition ex_same_fd : list Z :=
  header_bytes 0 1 42 ++ [6] ++ le_bytes 2 2 ++ le_bytes 8 8 ++ [97; 0] ++ le_bytes 8 0 ++
  [6] ++ le_bytes 2 2 ++ le_bytes 8 8 ++ [98; 0] ++ le_bytes 8 0.

Lemma same_descriptor_twice :
  ∃ s', nvlist_xunpack ex_same_fd 61 [7] (mk_host 0 ∅ 64)
        = Ok (Some (mk_nvl 0 0 [mk_nvp [97] (NvDescriptor 7) 8; mk_nvp [98] (NvDescriptor 7) 8]), s').
Proof. eexists. vm_compute. reflexivity. Qed.

(** An empty name is accepted, and a copy of the list aborts the process. *)
Definition ex_empty_name : list Z := header_bytes 0 0 12 ++ [1] ++ le_bytes 2 1 ++ le_bytes 8 0 ++ [0].

Lemma empty_name_aborts :
  ∃ x s', nvlist_xunpack ex_empty_name 31 [] (mk_host 0 ∅ 64) = Ok (Some x, s') ∧ nvl_error x = 0 ∧ nvlist_clone x s' = Fault Panic.
Proof. eexists _, _. split; [vm_compute; reflexivity|]. by split. Qed.

End NvSafe.
