(* ===== verification/NvMap.v ===== *)
(** * Name-value lists as maps

    For its users a list is a finite map from names to values, with an error that
    sticks.  Any sequence of operations on the types without descriptors and inner lists
    behaves as on that map, in its answers, its errors and its aborts. *)
From S2P Require Import Prelude Nv NvPack NvSpec NvRound.

Module NvMap.
Import Nv NvPack NvSpec NvRound.

(** * The abstract list *)

(** The part of a name that counts. *)
Definition key (flags : Z) (name : list Z) : list Z :=
  if has_flag flags NV_FLAG_IGNORE_CASE then tolower <$> name else name.

Record amap := mk_amap { a_error : Z; a_map : gmap (list Z) nvdata }.

Inductive value := VNull | VBool (b : bool) | VNumber (n : Z) | VString (s : option (list Z)) | VBinary (b : option (list Z)).
Inductive kind := KBool | KNumber | KString | KBinary.
Inductive dvalue := DBool (b : bool) | DNumber (n : Z) | DString (s : list Z) | DBinary (b : list Z).
Inductive answer := Done | Answer (d : nvdata) | Found (b : bool).

Inductive op :=
| Add (name : list Z) (v : value)
| Move (name : list Z) (v : value)
| Exists (type : Z) (name : list Z)
| Get (k : kind) (name : list Z)
| Take (k : kind) (name : list Z)
| GetDefault (v : dvalue) (name : list Z)
| TakeDefault (v : dvalue) (name : list Z)
| Free (type : Z) (name : list Z).

Definition kind_type (k : kind) : Z :=
  match k with KBool => NV_TYPE_BOOL | KNumber => NV_TYPE_NUMBER | KString => NV_TYPE_STRING | KBinary => NV_TYPE_BINARY end.

Definition default_kind (v : dvalue) : kind :=
  match v with DBool _ => KBool | DNumber _ => KNumber | DString _ => KString | DBinary _ => KBinary end.

Definition default_data (v : dvalue) : nvdata :=
  match v with DBool b => NvBool (b2z b) | DNumber n => NvNumber n | DString s => NvString s | DBinary b => NvBinary b end.

Definition data_type (d : nvdata) : Z := nvpair_type (mk_nvp [] d 0).

(** The value, or the error of an argument that is none. *)
Definition a_value (v : value) : Z + nvdata :=
  match v with
  | VNull => inr NvNull
  | VBool b => inr (NvBool (b2z b))
  | VNumber n => inr (NvNumber n)
  | VString None | VBinary None | VBinary (Some []) => inl EINVAL
  | VString (Some s) => inr (NvString s)
  | VBinary (Some b) => inr (NvBinary b)
  end.

Definition a_add (f : Z) (name : list Z) (v : value) (m : amap) : result (answer * amap) :=
  if negb (a_error m =? 0) then Ok (Done, m)
  else
    match a_value v with
    | inl e => Ok (Done, mk_amap e (a_map m))
    | inr d =>
        if bool_decide (name = []) then Fault Panic
        else if NV_NAME_MAX <=? Z.of_nat (length name) then Ok (Done, mk_amap ENAMETOOLONG (a_map m))
        else match a_map m !! key f name with
             | Some _ => Ok (Done, mk_amap EEXIST (a_map m))
             | None => Ok (Done, mk_amap 0 (<[key f name := d]> (a_map m)))
             end
    end.

Definition type_ok (type : Z) : bool :=
  (type =? NV_TYPE_NONE) || (NV_TYPE_FIRST <=? type) && (type <=? NV_TYPE_LAST).

(** The value of this name, if it has the type asked for. *)
Definition a_find (f type : Z) (name : list Z) (m : amap) : result (option nvdata) :=
  if negb (a_error m =? 0) || negb (type_ok type) then Fault Panic
  else Ok (match a_map m !! key f name with
           | Some d => if (type =? NV_TYPE_NONE) || (data_type d =? type) then Some d else None
           | None => None
           end).

Definition a_op (f : Z) (o : op) (m : amap) : result (answer * amap) :=
  match o with
  | Add name v | Move name v => a_add f name v m
  | Exists type name => r ← a_find f type name m; mret (Found (match r with Some _ => true | None => false end), m)
  | Get k name =>
      r ← a_find f (kind_type k) name m;
      match r with Some d => Ok (Answer d, m) | None => Fault Panic end
  | Take k name =>
      r ← a_find f (kind_type k) name m;
      match r with Some d => Ok (Answer d, mk_amap (a_error m) (delete (key f name) (a_map m))) | None => Fault Panic end
  | GetDefault v name =>
      r ← a_find f (kind_type (default_kind v)) name m;
      mret (Answer (match r with Some d => d | None => default_data v end), m)
  | TakeDefault v name =>
      r ← a_find f (kind_type (default_kind v)) name m;
      match r with
      | Some d => Ok (Answer d, mk_amap (a_error m) (delete (key f name) (a_map m)))
      | None => Ok (Answer (default_data v), m)
      end
  | Free type name =>
      r ← a_find f type name m;
      match r with Some d => Ok (Done, mk_amap (a_error m) (delete (key f name) (a_map m))) | None => Fault Panic end
  end.

Fixpoint a_ops (f : Z) (l : list op) (m : amap) : result (list answer * amap) :=
  match l with
  | [] => Ok ([], m)
  | o :: l => '(a, m) ← a_op f o m; '(as', m) ← a_ops f l m; mret (a :: as', m)
  end.

(** * The operations of the library *)

Definition do_add (name : list Z) (v : value) (x : nvlist) : N nvlist :=
  match v with
  | VNull => nvlist_addv_null x name
  | VBool b => nvlist_addv_bool x b name
  | VNumber n => nvlist_addv_number x n name
  | VString s => nvlist_addv_string x s name
  | VBinary b => nvlist_addv_binary x b name
  end.

Definition do_move (name : list Z) (v : value) (x : nvlist) : N nvlist :=
  match v with
  | VString s => nvlist_movev_string x s name
  | VBinary b => nvlist_movev_binary x b name
  | _ => do_add name v x
  end.

Definition do_get (k : kind) (x : nvlist) (name : list Z) : N nvdata :=
  match k with
  | KBool => b ← nvlist_getv_bool x name; mret (NvBool (b2z b))
  | KNumber => n ← nvlist_getv_number x name; mret (NvNumber n)
  | KString => s ← nvlist_getv_string x name; mret (NvString s)
  | KBinary => '(b, _) ← nvlist_getv_binary x name; mret (NvBinary b)
  end.

Definition do_take (k : kind) (x : nvlist) (name : list Z) : N (nvdata * nvlist) :=
  match k with
  | KBool => '(b, x) ← nvlist_takev_bool x name; mret (NvBool (b2z b), x)
  | KNumber => '(n, x) ← nvlist_takev_number x name; mret (NvNumber n, x)
  | KString => '(s, x) ← nvlist_takev_string x name; mret (NvString s, x)
  | KBinary => '(b, _, x) ← nvlist_takev_binary x name; mret (NvBinary b, x)
  end.

Definition do_get_default (v : dvalue) (x : nvlist) (name : list Z) : N nvdata :=
  match v with
  | DBool b => b ← dnvlist_getv_bool x b name; mret (NvBool (b2z b))
  | DNumber n => n ← dnvlist_getv_number x n name; mret (NvNumber n)
  | DString s => s ← dnvlist_getv_string x s name; mret (NvString s)
  | DBinary b => '(b, _) ← dnvlist_getv_binary x (b, Z.of_nat (length b)) name; mret (NvBinary b)
  end.

Definition do_take_default (v : dvalue) (x : nvlist) (name : list Z) : N (nvdata * nvlist) :=
  match v with
  | DBool b => '(b, x) ← dnvlist_takev_bool x b name; mret (NvBool (b2z b), x)
  | DNumber n => '(n, x) ← dnvlist_takev_number x n name; mret (NvNumber n, x)
  | DString s => '(s, x) ← dnvlist_takev_string x s name; mret (NvString s, x)
  | DBinary b => '(b, _, x) ← dnvlist_takev_binary x (b, Z.of_nat (length b)) name; mret (NvBinary b, x)
  end.

Definition do_op (o : op) (x : nvlist) : N (answer * nvlist) :=
  match o with
  | Add name v => x ← do_add name v x; mret (Done, x)
  | Move name v => x ← do_move name v x; mret (Done, x)
  | Exists type name => b ← nvlist_existsv_type x type name; mret (Found b, x)
  | Get k name => d ← do_get k x name; mret (Answer d, x)
  | Take k name => '(d, x) ← do_take k x name; mret (Answer d, x)
  | GetDefault v name => d ← do_get_default v x name; mret (Answer d, x)
  | TakeDefault v name => '(d, x) ← do_take_default v x name; mret (Answer d, x)
  | Free type name => x ← nvlist_freev_type x type name; mret (Done, x)
  end.

Fixpoint do_ops (l : list op) (x : nvlist) : N (list answer * nvlist) :=
  match l with
  | [] => mret ([], x)
  | o :: l => '(a, x) ← do_op o x; '(as', x) ← do_ops l x; mret (a :: as', x)
  end.

(** * The relation *)

Definition content (f : Z) (h : list nvpair) : gmap (list Z) nvdata :=
  list_to_map ((λ p, (key f (nvp_name p), nvp_data p)) <$> h).

Definition keys (f : Z) (h : list nvpair) : list (list Z) := key f ∘ nvp_name <$> h.

(** Values of the plain types. *)
Definition plain (d : nvdata) : Prop :=
  match d with NvBool b => b = 0 ∨ b = 1 | NvNvlist _ | NvDescriptor _ => False | _ => True end.

Definition rel (f : Z) (x : nvlist) (m : amap) : Prop :=
  nvl_error x = a_error m ∧ nvl_flags x = f ∧ NoDup (keys f (nvl_head x)) ∧
  Forall (plain ∘ nvp_data) (nvl_head x) ∧ a_map m = content f (nvl_head x).

Lemma same_name_key f a b : same_name f a b = bool_decide (key f a = key f b).
Proof. unfold same_name, key, strcasecmp_eq, strcmp_eq. by destruct (has_flag f NV_FLAG_IGNORE_CASE). Qed.

Lemma keys_content f h : keys f h = ((λ p, (key f (nvp_name p), nvp_data p)) <$> h).*1.
Proof. unfold keys. rewrite <- list_fmap_compose. done. Qed.

Lemma content_lookup f h i p : NoDup (keys f h) → h !! i = Some p → content f h !! key f (nvp_name p) = Some (nvp_data p).
Proof.
  intros Hn Hi. unfold content. apply elem_of_list_to_map; [by rewrite <- keys_content|].
  apply list_elem_of_fmap. exists p. split; [done|]. by eapply list_elem_of_lookup_2.
Qed.

Lemma content_none f h k : k ∉ keys f h → content f h !! k = None.
Proof. intros H. apply not_elem_of_list_to_map_1. by rewrite <- keys_content. Qed.

Lemma content_some f h k d : content f h !! k = Some d → ∃ i p, h !! i = Some p ∧ key f (nvp_name p) = k ∧ nvp_data p = d.
Proof.
  intros H. unfold content in H. apply elem_of_list_to_map_2, list_elem_of_fmap in H as (p & [= -> ->] & Hp).
  apply list_elem_of_lookup_1 in Hp as [i Hi]. by exists i, p.
Qed.

Lemma content_snoc f h p : key f (nvp_name p) ∉ keys f h → content f (h ++ [p]) = <[key f (nvp_name p) := nvp_data p]> (content f h).
Proof.
  intros H. unfold content. rewrite fmap_app, list_to_map_app. cbn. rewrite <- insert_union_r.
  - by rewrite (right_id_L ∅ (∪)).
  - apply not_elem_of_list_to_map_1. by rewrite <- keys_content.
Qed.

Lemma content_delete f h i p :
  NoDup (keys f h) → h !! i = Some p → content f (delete i h) = delete (key f (nvp_name p)) (content f h).
Proof.
  revert i. induction h as [|q h IH]; intros i Hn Hi; [done|]. unfold keys in Hn. cbn in Hn. apply NoDup_cons in Hn as [Hq Hn].
  destruct i as [|i]; cbn in Hi.
  - simplify_eq. unfold content. cbn. rewrite delete_insert_id; [done|]. by apply content_none.
  - cbn [delete list_delete]. change (content f (q :: delete i h)) with (<[key f (nvp_name q) := nvp_data q]> (content f (delete i h))).
    change (content f (q :: h)) with (<[key f (nvp_name q) := nvp_data q]> (content f h)). rewrite (IH i Hn Hi).
    rewrite delete_insert_ne; [done|]. intros E. apply Hq. apply list_elem_of_fmap. exists p. split; [done|]. by eapply list_elem_of_lookup_2.
Qed.

Lemma matches_key f t name p :
  matches f t name p = true ↔ key f (nvp_name p) = key f name ∧ ((t =? NV_TYPE_NONE) || (data_type (nvp_data p) =? t) = true).
Proof.
  unfold matches, nvpair_name, data_type, nvpair_type. rewrite same_name_key. cbn [nvp_data].
  destruct (t =? NV_TYPE_NONE); cbn [negb andb orb]; [rewrite bool_decide_eq_true; tauto|].
  destruct (_ =? t); cbn [negb]; [rewrite bool_decide_eq_true; tauto|]. split; [done|by intros [_ ?]].
Qed.

(** Searching in the list is looking up in the map. *)
Lemma findv_spec f x m t name s :
  rel f x m →
  match a_find f t name m with
  | Fault e => nvlist_findv x t name s = Fault e
  | Ok None => nvlist_findv x t name s = Ok (None, with_errno ENOENT s)
  | Ok (Some d) => ∃ i p, nvlist_findv x t name s = Ok (Some (i, p), s) ∧ nvl_head x !! i = Some p ∧
                     key f (nvp_name p) = key f name ∧ nvp_data p = d
  end.
Proof.
  intros (He & Hf & Hn & _ & Hm). unfold a_find, nvlist_findv. rewrite He, Hf. fold (type_ok t).
  destruct (a_error m =? 0); [|done]. destruct (type_ok t); [|done]. cbn [negb orb].
  rewrite !assert_bind by done. rewrite Hm. destruct (list_find _ (nvl_head x)) as [[i p]|] eqn:E.
  - apply list_find_Some in E as (Hi & Hp & _). apply matches_key in Hp as [Hk Ht].
    rewrite <- Hk, (content_lookup f _ i p Hn Hi), Ht. by exists i, p.
  - apply list_find_None in E. destruct (content f (nvl_head x) !! key f name) as [d|] eqn:Ec; [|done].
    apply content_some in Ec as (i & p & Hi & Hk & <-). rewrite Forall_lookup in E. specialize (E i p Hi).
    destruct (_ || _) eqn:Et'; [|done]. exfalso. apply E, matches_key. done.
Qed.

(** A value of the right type is the answer. *)
Lemma removed_rel f x m i p :
  rel f x m → nvl_head x !! i = Some p →
  rel f (nvlist_remove_nvpair x i) (mk_amap (a_error m) (delete (key f (nvp_name p)) (a_map m))).
Proof.
  intros (He & Hf & Hn & Hp & Hm) Hi. destruct x as [e fl h]. cbn in *. split; [done|]. split; [done|].
  split; [|split; [by apply Forall_delete|cbn; rewrite Hm; symmetry; by apply content_delete]].
  unfold keys in *. eapply sublist_NoDup; [exact Hn|apply fmap_sublist, sublist_delete].
Qed.

(** What [create] makes of a value. *)
Definition made (name : list Z) (d : nvdata) (o : nvpair) : Prop := nvp_name o = name ∧ nvp_data o = d ∧ plain d.

Lemma move_spec f x m p s :
  rel f x m → a_error m = 0 → plain (nvp_data p) →
  ∃ x' s', nvlist_move_nvpair x p s = Ok (x', s') ∧ quiet s s' ∧
    rel f x' (match a_map m !! key f (nvp_name p) with
              | Some _ => mk_amap EEXIST (a_map m)
              | None => mk_amap 0 (<[key f (nvp_name p) := nvp_data p]> (a_map m))
              end).
Proof.
  intros Hr E0 Hpl. pose proof (findv_spec f x m NV_TYPE_NONE (nvp_name p) s Hr) as Hfv. unfold a_find in Hfv. rewrite E0 in Hfv.
  cbn [Z.eqb negb orb type_ok NV_TYPE_NONE] in Hfv. destruct Hr as (He & Hf & Hn & Hp & Hm).
  destruct x as [e fl h]. cbn [nvl_error nvl_flags nvl_head] in *. subst fl e. rewrite E0 in *. destruct (a_map m !! key f (nvp_name p)) as [d'|] eqn:Ec.
  - destruct Hfv as (j & r & Hfv & _). exists (mk_nvl EEXIST f h), (with_errno EEXIST s).
    assert (nvlist_exists (mk_nvl 0 f h) (nvpair_name p) s = Ok (true, s)) as Hx.
    { unfold nvlist_exists, nvlist_existsv_type, nvpair_name. by rewrite (N_bind_Ok _ _ _ _ _ Hfv). }
    unfold nvlist_move_nvpair. cbn [nvl_error Z.eqb negb].
    rewrite (N_bind_Ok _ _ _ _ _ Hx). unfold nvpair_free, free_data. split; [by destruct (nvp_data p)|]. by repeat split.
  - assert (key f (nvp_name p) ∉ keys f h) as Hni.
    { intros Hin. unfold keys in Hin. apply list_elem_of_fmap in Hin as (q & Hk & Hq). apply list_elem_of_lookup_1 in Hq as [i Hi].
      cbn in Hk. pose proof (content_lookup f h i q Hn Hi). congruence. }
    exists (mk_nvl 0 f (h ++ [p])), (with_errno ENOENT s). split; [|split; [done|split; [done|split; [done|]]]].
    + apply move_new. apply Forall_forall. intros q Hq. rewrite same_name_key. apply bool_decide_eq_false. intros Ek. apply Hni.
      unfold nvpair_name in Ek. rewrite <- Ek. unfold keys. apply list_elem_of_fmap. by exists q.
    + cbn [nvl_head a_map]. rewrite content_snoc, Hm by done.
      split; [|split; [apply Forall_app; split; [done|]; by constructor|done]].
      unfold keys. rewrite fmap_app. apply NoDup_app. split; [done|]. split; [|cbn; apply NoDup_singleton].
      intros k Hk Hin. cbn in Hin. by apply list_elem_of_singleton in Hin as ->.
Qed.

(** All operations that add, with what they make of their argument. *)
Lemma add_with_spec f x m name v release make s :
  rel f x m → release s = Ok ((), s) →
  match a_value v with
  | inl e => e ≠ 0 ∧ make s = Ok (None, with_errno e s)
  | inr d =>
      if bool_decide (name = []) then make s = Fault Panic
      else if NV_NAME_MAX <=? Z.of_nat (length name) then make s = Ok (None, with_errno ENAMETOOLONG s)
      else ∃ p, make s = Ok (Some p, s) ∧ made name d p
  end →
  match a_add f name v m with
  | Fault e => add_with release make x s = Fault e
  | Ok (a, m') => a = Done ∧ ∃ x' s', add_with release make x s = Ok (x', s') ∧ rel f x' m' ∧ quiet s s'
  end.
Proof.
  intros Hr Hrel Hmake. pose proof Hr as (He & _). unfold a_add, add_with. rewrite He.
  destruct (a_error m =? 0) eqn:E0; cbn [negb].
  2: { split; [done|]. exists x, (with_errno (a_error m) s). by rewrite (N_bind_Ok _ _ _ _ _ Hrel). }
  apply Z.eqb_eq in E0.
  assert (∀ e, e ≠ 0 → make s = Ok (None, with_errno e s) →
    ∃ x' s'', (nvp ← make; match nvp with None => e ← gets (λ s, if negb (errno s =? 0) then errno s else ENOMEM);
      _ ← set_errno e; mret (set_error e x) | Some p => nvlist_move_nvpair x p end) s = Ok (x', s'') ∧
      rel f x' (mk_amap e (a_map m)) ∧ quiet s s'') as Hfail.
  { intros e Hne Hmk. rewrite (N_bind_Ok _ _ _ _ _ Hmk). exists (set_error e x), (with_errno e s).
    split; [unfold mbind, M_bind; cbn; by rewrite (proj2 (Z.eqb_neq e 0) Hne)|]. split; [|done].
    destruct Hr as (_ & ? & ? & ? & ?). by repeat split. }
  destruct (a_value v) as [e|d]; [destruct Hmake as [Hne Hmk]; split; [done|]; by apply (Hfail e)|].
  destruct (bool_decide (name = [])); [unfold mbind, M_bind; by rewrite Hmake|].
  destruct (NV_NAME_MAX <=? _); [split; [done|]; by apply (Hfail ENAMETOOLONG)|].
  destruct Hmake as (p & Hmk & Hnm & Hd & Hpl). subst name d. rewrite (N_bind_Ok _ _ _ _ _ Hmk).
  destruct (move_spec f x m p s Hr E0 Hpl) as (x' & s' & Hmv & Hq & Hr').
  destruct (a_map m !! key f (nvp_name p)); (split; [done|]; by exists x', s').
Qed.

Lemma allocv_spec name d z s :
  plain d →
  if bool_decide (name = []) then nvpair_allocv d z name s = Fault Panic
  else if NV_NAME_MAX <=? Z.of_nat (length name) then nvpair_allocv d z name s = Ok (None, with_errno ENAMETOOLONG s)
  else ∃ p, nvpair_allocv d z name s = Ok (Some p, s) ∧ made name d p.
Proof.
  intros Hp. unfold nvpair_allocv. destruct name as [|c name]; [done|]. rewrite bool_decide_false by done.
  rewrite assert_bind by (apply Z.ltb_lt; cbn; lia). destruct (NV_NAME_MAX <=? _); [done|]. by eexists.
Qed.

Lemma do_add_spec f x m name v s :
  rel f x m →
  match a_add f name v m with
  | Fault e => do_add name v x s = Fault e ∧ do_move name v x s = Fault e
  | Ok (a, m') => a = Done ∧ ∃ x' s', do_add name v x s = Ok (x', s') ∧ do_move name v x s = Ok (x', s') ∧ rel f x' m' ∧ quiet s s'
  end.
Proof.
  intros Hr.
  assert (∃ make, do_add name v x = add_with (mret ()) make x ∧ do_move name v x = add_with (mret ()) make x ∧
    match a_value v with
    | inl e => e ≠ 0 ∧ make s = Ok (None, with_errno e s)
    | inr d =>
        if bool_decide (name = []) then make s = Fault Panic
        else if NV_NAME_MAX <=? Z.of_nat (length name) then make s = Ok (None, with_errno ENAMETOOLONG s)
        else ∃ p, make s = Ok (Some p, s) ∧ made name d p
    end) as (make & -> & -> & Hmake).
  { destruct v as [|b|n|[t|]|[[|c t]|]]; cbn [do_add do_move a_value]; eexists; (split; [reflexivity|split; [reflexivity|]]);
      try done; apply allocv_spec; try done. by destruct b; [right|left]. }
  pose proof (add_with_spec f x m name v _ make s Hr (eq_refl : (mret () : N unit) s = Ok ((), s)) Hmake) as H.
  destruct (a_add f name v m) as [[a m']|]; [|done]. destruct H as (Ha & x' & s' & H & Hr' & Hq). split; [done|]. by exists x', s'.
Qed.

(** Reading and taking: the value found is the answer. *)
Lemma data_type_get k p :
  data_type (nvp_data p) = kind_type k → plain (nvp_data p) →
  match k with
  | KBool => ∃ b, nvpair_get_bool p = Ok b ∧ NvBool (b2z b) = nvp_data p
  | KNumber => ∃ n, nvpair_get_number p = Ok n ∧ NvNumber n = nvp_data p
  | KString => ∃ t, nvpair_get_string p = Ok t ∧ NvString t = nvp_data p
  | KBinary => ∃ t, nvpair_get_binary p = Ok t ∧ NvBinary t.1 = nvp_data p
  end.
Proof.
  unfold data_type, nvpair_type, nvpair_get_bool, nvpair_get_number, nvpair_get_string, nvpair_get_binary. cbn [nvp_data].
  destruct (nvp_data p) eqn:E, k; intros Ht Hp; try done; eauto. exists (d =? 1). split; [done|]. by destruct Hp as [-> | ->].
Qed.

Lemma do_get_spec f x m k name s :
  rel f x m →
  match a_find f (kind_type k) name m with
  | Fault e => do_get k x name s = Fault e ∧ do_take k x name s = Fault e
  | Ok None => do_get k x name s = Fault Panic ∧ do_take k x name s = Fault Panic
  | Ok (Some d) => do_get k x name s = Ok (d, s) ∧ ∃ x', do_take k x name s = Ok ((d, x'), s) ∧
                     rel f x' (mk_amap (a_error m) (delete (key f name) (a_map m)))
  end.
Proof.
  intros Hr. pose proof (findv_spec f x m (kind_type k) name s Hr) as Hfv.
  assert (∀ d, a_find f (kind_type k) name m = Ok (Some d) → data_type d = kind_type k) as Hty.
  { intros d. unfold a_find. destruct (_ || _); [done|]. destruct (_ !! _); [|done]. destruct (_ || _) eqn:E; [|done].
    intros [= <-]. by destruct k; apply Z.eqb_eq in E. }
  destruct (a_find f (kind_type k) name m) as [[d|]|e]; unfold do_get, do_take, nvlist_getv_bool, nvlist_getv_number, nvlist_getv_string,
    nvlist_getv_binary, nvlist_takev_bool, nvlist_takev_number, nvlist_takev_string, nvlist_takev_binary, get_with, take_with; cycle 1.
  - by destruct k; cbn [kind_type] in Hfv; unfold mbind, M_bind; rewrite Hfv.
  - by destruct k; cbn [kind_type] in Hfv; unfold mbind, M_bind; rewrite Hfv.
  - destruct Hfv as (i & p & Hfv & Hi & Hk & Hd). specialize (Hty d eq_refl). rewrite <- Hd in Hty.
    pose proof Hr as (_ & _ & _ & Hp & _). rewrite Forall_lookup in Hp. specialize (Hp i p Hi). cbn in Hp.
    pose proof (removed_rel f x m i p Hr Hi) as Hrm. rewrite Hk in Hrm.
    pose proof (data_type_get k p Hty Hp) as Hg. rewrite Hd in Hg.
    by destruct k; cbn [kind_type] in Hfv; destruct Hg as (b & Hg & <-); unfold mbind, M_bind; rewrite Hfv; unfold liftR; rewrite Hg;
      (split; [|exists (nvlist_remove_nvpair x i); split]); try destruct b.
Qed.

(** A default is the plain operation on what exists. *)
Lemma do_default_spec f x m v name s :
  rel f x m →
  match a_find f (kind_type (default_kind v)) name m with
  | Fault e => do_get_default v x name s = Fault e ∧ do_take_default v x name s = Fault e
  | Ok None => do_get_default v x name s = Ok (default_data v, with_errno ENOENT s) ∧
               do_take_default v x name s = Ok ((default_data v, x), with_errno ENOENT s)
  | Ok (Some _) => do_get_default v x name s = do_get (default_kind v) x name s ∧
                   do_take_default v x name s = do_take (default_kind v) x name s
  end.
Proof.
  intros Hr. pose proof (findv_spec f x m (kind_type (default_kind v)) name s Hr) as H.
  destruct v; cbn [default_kind kind_type] in *; unfold do_get_default, do_take_default, dnvlist_getv_bool, dnvlist_getv_number,
    dnvlist_getv_string, dnvlist_getv_binary, dnvlist_takev_bool, dnvlist_takev_number, dnvlist_takev_string, dnvlist_takev_binary,
    default_get, default_take, nvlist_existsv_type; (destruct (a_find _ _ _ _) as [[d|]|e];
    [destruct H as (i & p & H & _)| |]); unfold mbind, M_bind; rewrite H; done.
Qed.

Lemma nv_op_spec f o x m s :
  rel f x m →
  match a_op f o m with
  | Fault e => do_op o x s = Fault e
  | Ok (a, m') => ∃ x' s', do_op o x s = Ok ((a, x'), s') ∧ rel f x' m' ∧ quiet s s'
  end.
Proof.
  intros Hr. destruct o as [name v|name v|t name|k name|k name|v name|v name|t name]; cbn [a_op do_op].
  1, 2: pose proof (do_add_spec f x m name v s Hr) as H; destruct (a_add f name v m) as [[a m']|e];
    [destruct H as (-> & x' & s' & H1 & H2 & Hr' & Hq); exists x', s'; unfold mbind, M_bind; by rewrite ?H1, ?H2
    |destruct H as [H1 H2]; unfold mbind, M_bind; by rewrite ?H1, ?H2].
  - pose proof (findv_spec f x m t name s Hr) as H. unfold nvlist_existsv_type. destruct (a_find f t name m) as [[d|]|e]; cbn.
    + destruct H as (i & p & H & _). exists x, s. unfold mbind, M_bind. by rewrite H.
    + exists x, (with_errno ENOENT s). unfold mbind, M_bind. by rewrite H.
    + unfold mbind, M_bind. by rewrite H.
  - pose proof (do_get_spec f x m k name s Hr) as H. destruct (a_find f (kind_type k) name m) as [[d|]|e]; cbn.
    + destruct H as [H _]. exists x, s. unfold mbind, M_bind. by rewrite H.
    + unfold mbind, M_bind. by rewrite (proj1 H).
    + unfold mbind, M_bind. by rewrite (proj1 H).
  - pose proof (do_get_spec f x m k name s Hr) as H. destruct (a_find f (kind_type k) name m) as [[d|]|e]; cbn.
    + destruct H as [_ (x' & H & Hr')]. exists x', s. unfold mbind, M_bind. by rewrite H.
    + unfold mbind, M_bind. by rewrite (proj2 H).
    + unfold mbind, M_bind. by rewrite (proj2 H).
  - pose proof (do_default_spec f x m v name s Hr) as H. pose proof (do_get_spec f x m (default_kind v) name s Hr) as Hg.
    destruct (a_find f _ name m) as [[d|]|e]; cbn; unfold mbind, M_bind; rewrite (proj1 H); [|by eexists _, _|done].
    rewrite (proj1 Hg). by exists x, s.
  - pose proof (do_default_spec f x m v name s Hr) as H. pose proof (do_get_spec f x m (default_kind v) name s Hr) as Hg.
    destruct (a_find f _ name m) as [[d|]|e]; cbn; unfold mbind, M_bind; rewrite (proj2 H); [|by eexists _, _|done].
    destruct Hg as [_ (x' & Hg & Hr')]. rewrite Hg. by exists x', s.
  - pose proof (findv_spec f x m t name s Hr) as H. unfold nvlist_freev_type. pose proof Hr as (He & _ & _ & Hp & _).
    destruct (nvl_error x =? 0) eqn:E0.
    + rewrite <- N_bind_assoc, assert_bind by done. destruct (a_find f t name m) as [[d|]|e]; cbn.
      * destruct H as (i & p & H & Hi & Hk & Hd). exists (nvlist_remove_nvpair x i), s.
        pose proof (removed_rel f x m i p Hr Hi) as Hrm. rewrite Hk in Hrm. rewrite <- N_bind_assoc, (N_bind_Ok _ _ _ _ _ H).
        rewrite Forall_lookup in Hp. specialize (Hp i p Hi). cbn in Hp. cbv beta iota. unfold nvpair_free, free_data.
        split; [by destruct (nvp_data p)|done].
      * unfold mbind, M_bind. by rewrite H.
      * unfold mbind, M_bind. by rewrite H.
    + rewrite He in E0. unfold a_find. rewrite E0. done.
Qed.

(** [C14] Whatever sequence of additions, tests, readings, removals and releases of null,
    boolean, number, string and binary values (not descriptors or inner lists) is carried
    out on a new list, the list behaves as a finite map from names (up to case, if the list
    was created so) to values: the answers are those of the map; adding a name that is
    there, a name that is too long or no value leaves the map as it is and sets the error,
    after which nothing is added; and the process is aborted exactly where a value is added
    under the empty name to a list without an error, where a list with an error, or a type
    that is none, is searched, and where what is to be read, taken or freed is not there. *)
Theorem nvlist_refines_map f l s :
  f = 0 ∨ f = NV_FLAG_IGNORE_CASE →
  match a_ops f l (mk_amap 0 ∅) with
  | Fault e => (x ← nvlist_create f; do_ops l x) s = Fault e
  | Ok (answers, m) => ∃ x s', (x ← nvlist_create f; do_ops l x) s = Ok ((answers, x), s') ∧ rel f x m ∧ quiet s s'
  end.
Proof.
  intros Hf. unfold nvlist_create. rewrite <- N_bind_assoc, assert_bind by (by destruct Hf as [-> | ->]).
  erewrite N_bind_Ok by reflexivity.
  assert (rel f (mk_nvl 0 f []) (mk_amap 0 ∅)) as Hr by (repeat split; constructor).
  revert Hr. generalize (mk_nvl 0 f []) (mk_amap 0 ∅). revert s. induction l as [|o l IH]; intros s x m Hr; cbn [a_ops do_ops].
  { by exists x, s. }
  pose proof (nv_op_spec f o x m s Hr) as H. destruct (a_op f o m) as [[a m1]|e]; cbn; [|unfold mbind, M_bind; by rewrite H].
  destruct H as (x1 & s1 & H & Hr1 & Hq1). specialize (IH s1 x1 m1 Hr1). destruct (a_ops f l m1) as [[as' m2]|e]; cbn.
  - destruct IH as (x2 & s2 & H2 & Hr2 & Hq2). exists x2, s2. unfold mbind, M_bind. rewrite H. unfold mbind, M_bind. rewrite H2.
    split; [done|]. split; [done|]. by etrans.
  - unfold mbind, M_bind. rewrite H. unfold mbind, M_bind. by rewrite IH.
Qed.

Lemma nvlist_refines_map_witness :
  ∃ x s', (x ← nvlist_create 1; do_ops [Add [65] (VNumber 5); Get KNumber [97]; Take KNumber [97]; Exists 0 [65]; Add [65] (VBinary None)] x) (mk_host 0 ∅ 64)
    = Ok (([Done; Answer (NvNumber 5); Answer (NvNumber 5); Found false; Done], x), s') ∧ rel 1 x (mk_amap EINVAL ∅) ∧ quiet (mk_host 0 ∅ 64) s'.
Proof.
  exact (nvlist_refines_map 1 [Add [65] (VNumber 5); Get KNumber [97]; Take KNumber [97]; Exists 0 [65]; Add [65] (VBinary None)]
    (mk_host 0 ∅ 64) (or_intror eq_refl)).
Defined.

End NvMap.
