(* ===== verification/NvMsg.v ===== *)
(** * Name-value lists over a socket: src/src/lib/libuinetnv (msgio.c, nvlist.c)

    A stream socket of the host takes and gives bytes in pieces of its choice and may
    interrupt a call: what the calls do is a schedule in the state.  Descriptors travel in
    control messages, one header each.  The socket is a valid one, and waiting for it in
    [select] is part of the next call. *)
From S2P Require Import Prelude Nv NvPack.

Module NvMsg.
Import Nv NvPack.

Definition ENOTCONN : Z := 57.

(** What a call on the socket does: it is interrupted, fails, finds the peer gone, or
    moves at most this many bytes. *)
Inductive io := Interrupted | Failed (e : Z) | Closed | Moves (n : nat).

(** A control message header with its payload. *)
Record cmsghdr := mk_cmsg { cmsg_rights : bool; cmsg_fd : Z }.

Record sock := mk_sock {
  sk_host : host;
  sk_sched : list io;
  sk_in : list Z;                   (** bytes that arrived *)
  sk_out : list Z;                  (** bytes that were sent *)
  sk_ctl_in : list (list cmsghdr);  (** control messages that arrived *)
  sk_ctl_out : list (list cmsghdr)
}.

Definition K := M sock.

Definition on_host {A} (m : N A) : K A := λ s,
  match m (sk_host s) with
  | Ok (a, h) => Ok (a, mk_sock h (sk_sched s) (sk_in s) (sk_out s) (sk_ctl_in s) (sk_ctl_out s))
  | Fault e => Fault e
  end.

Definition set_sched (l : list io) : K unit :=
  modify (λ s, mk_sock (sk_host s) l (sk_in s) (sk_out s) (sk_ctl_in s) (sk_ctl_out s)).
Definition set_in (l : list Z) : K unit :=
  modify (λ s, mk_sock (sk_host s) (sk_sched s) l (sk_out s) (sk_ctl_in s) (sk_ctl_out s)).
Definition set_out (l : list Z) : K unit :=
  modify (λ s, mk_sock (sk_host s) (sk_sched s) (sk_in s) l (sk_ctl_in s) (sk_ctl_out s)).
Definition set_ctl_in (l : list (list cmsghdr)) : K unit :=
  modify (λ s, mk_sock (sk_host s) (sk_sched s) (sk_in s) (sk_out s) l (sk_ctl_out s)).
Definition set_ctl_out (l : list (list cmsghdr)) : K unit :=
  modify (λ s, mk_sock (sk_host s) (sk_sched s) (sk_in s) (sk_out s) (sk_ctl_in s) l).

Definition failK (e : Z) : K Z := _ ← on_host (set_errno e); mret (-1).

(** * Bytes *)

(** The schedule is what the loop recurses on; without one the call waits forever. *)
Fixpoint send_loop (sched : list io) (data : list Z) : K Z :=
  match sched with
  | [] => faultM Blocked
  | c :: sched =>
      _ ← set_sched sched;
      match c with
      | Interrupted => send_loop sched data
      | Failed e => failK e
      | Closed => failK ENOTCONN
      | Moves n =>
          out ← gets sk_out;
          _ ← set_out (out ++ take (S n) data);
          match drop (S n) data with
          | [] => mret 0
          | data => send_loop sched data
          end
      end
  end.

Definition buf_send (data : list Z) : K Z :=
  _ ← on_host (assertM (0 <? Z.of_nat (length data)));
  sched ← gets sk_sched;
  send_loop sched data.

(** [size] more bytes are wanted behind those in [got]. *)
Fixpoint recv_loop (sched : list io) (size : nat) (got : list Z) : K (option (list Z)) :=
  match size with
  | O => mret (Some got)
  | _ =>
      match sched with
      | [] => faultM Blocked
      | c :: sched =>
          _ ← set_sched sched;
          match c with
          | Interrupted => recv_loop sched size got
          | Failed e => _ ← failK e; mret None
          | Closed => _ ← failK ENOTCONN; mret None
          | Moves n =>
              bs ← gets sk_in;
              match bs with
              | [] => faultM Blocked
              | _ =>
                  let k := (S n `min` size `min` length bs)%nat in
                  _ ← set_in (drop k bs);
                  recv_loop sched (size - k) (got ++ take k bs)
              end
          end
      end
  end.

Definition buf_recv (size : Z) : K (option (list Z)) :=
  sched ← gets sk_sched;
  recv_loop sched (Z.to_nat size) [].

(** * Descriptors *)

Definition msghdr_add_fd (fd : Z) : K (option cmsghdr) :=
  _ ← on_host (assertM (0 <=? fd));
  valid ← on_host (fd_is_valid fd);
  if (valid : bool) then mret (Some (mk_cmsg true fd)) else _ ← failK EBADF; mret None.

Definition msghdr_get_fd (c : cmsghdr) : K Z :=
  if cmsg_rights c then mret (cmsg_fd c) else failK EINVAL.

(** A message goes out whole, after interruptions.  It has no data with it ([msg_iov] is
    NULL): by the comment in [cred_send], on some kernels that works only while nothing was
    sent over the socket.  [null_iov] says that the host's kernel takes such a message
    after data too; where it does not, the message does not arrive. *)
Fixpoint msg_send_loop (null_iov : bool) (sched : list io) (msg : list cmsghdr) : K Z :=
  match sched with
  | [] => faultM Blocked
  | c :: sched =>
      _ ← set_sched sched;
      match c with
      | Interrupted => msg_send_loop null_iov sched msg
      | Failed e => failK e
      | _ =>
          data ← gets sk_out; out ← gets sk_ctl_out;
          _ ← (if null_iov || bool_decide (data = []) then set_ctl_out (out ++ [msg]) else mret ());
          mret 0
      end
  end.

Definition msg_send (null_iov : bool) (msg : list cmsghdr) : K Z := sched ← gets sk_sched; msg_send_loop null_iov sched msg.

(** The buffer has room for [n] headers; the kernel drops what does not fit. *)
Fixpoint msg_recv_loop (sched : list io) (n : nat) : K (option (list cmsghdr)) :=
  match sched with
  | [] => faultM Blocked
  | c :: sched =>
      _ ← set_sched sched;
      match c with
      | Interrupted => msg_recv_loop sched n
      | Failed e => _ ← failK e; mret None
      | Closed => mret (Some [])
      | Moves _ =>
          l ← gets sk_ctl_in;
          match l with
          | [] => faultM Blocked
          | msg :: l => _ ← set_ctl_in l; mret (Some (take n msg))
          end
      end
  end.

Definition msg_recv (n : nat) : K (option (list cmsghdr)) := sched ← gets sk_sched; msg_recv_loop sched n.

Fixpoint add_fds (fds : list Z) : K (option (list cmsghdr)) :=
  match fds with
  | [] => mret (Some [])
  | fd :: fds =>
      c ← msghdr_add_fd fd;
      match c with
      | None => mret None
      | Some c =>
          l ← add_fds fds;
          mret (match l with None => None | Some l => Some (c :: l) end)
      end
  end.

Definition fd_send (null_iov : bool) (fds : list Z) : K Z :=
  if Z.of_nat (length fds) =? 0 then failK EINVAL
  else
    msg ← add_fds fds;
    match msg with
    | None => mret (-1)
    | Some msg => r ← msg_send null_iov msg; mret (if r =? -1 then -1 else 0)
    end.

(** The descriptors up to the first header that has none; the rest of the headers. *)
Fixpoint get_fds (n : nat) (msg : list cmsghdr) : K (list Z * list cmsghdr) :=
  match n, msg with
  | O, _ | _, [] => mret ([], msg)
  | S n, c :: rest =>
      fd ← msghdr_get_fd c;
      if fd <? 0 then mret ([], msg)
      else '(fds, rest) ← get_fds n rest; mret (fd :: fds, rest)
  end.

Fixpoint close_fds (msg : list cmsghdr) : K unit :=
  match msg with
  | [] => mret ()
  | c :: msg =>
      fd ← msghdr_get_fd c;
      _ ← (if 0 <=? fd then on_host (close fd) else mret ());
      close_fds msg
  end.

Definition fd_recv (nfds : Z) : K (option (list Z)) :=
  if nfds =? 0 then _ ← failK EINVAL; mret None
  else
    msg ← msg_recv (Z.to_nat nfds);
    match msg with
    | None => mret None
    | Some msg =>
        '(fds, rest) ← get_fds (Z.to_nat nfds) msg;
        if negb (bool_decide (rest = [])) || (Z.of_nat (length fds) <? nfds) then
          _ ← close_fds msg; _ ← failK EINVAL; mret None
        else mret (Some fds)
    end.

(** * Lists *)

Definition nvlist_send (null_iov : bool) (nvl : nvlist) : K Z :=
  if negb (nvl_error nvl =? 0) then failK (nvl_error nvl)
  else
    '(fds, nfds) ← on_host (nvlist_descriptors nvl);
    '(data, _) ← on_host (nvlist_xpack nvl (Some 0));
    match data with
    | None => mret (-1)
    | Some data =>
        r ← buf_send data;
        if r =? -1 then mret (-1)
        else if 0 <? nfds then
          r ← fd_send null_iov fds;
          if r =? -1 then mret (-1) else mret 0
        else mret 0
    end.

(** The header as it is in memory after [nvlist_check_header]. *)
Definition write_header (h : nvlist_header) : list Z :=
  [nvlh_magic h; nvlh_version h; nvlh_flags h] ++ le_bytes 8 (nvlh_descriptors h) ++ le_bytes 8 (nvlh_size h).

Definition nvlist_recv : K (option nvlist) :=
  hdr ← buf_recv nvlist_header_size;
  match hdr with
  | None => mret None
  | Some bs =>
      h ← on_host (nvlist_check_header (read_header bs));
      match h with
      | None => mret None
      | Some h =>
          let nfds := nvlh_descriptors h in
          let size := u64 (nvlist_header_size + nvlh_size h) in
          if size <? nvlist_header_size then faultM Overflow
          else
            rest ← buf_recv (size - nvlist_header_size);
            match rest with
            | None => mret None
            | Some rest =>
                fds ← (if 0 <? nfds then fd_recv nfds else mret (Some []));
                match fds with
                | None => mret None
                | Some fds => on_host (nvlist_xunpack (write_header h ++ rest) size fds)
                end
            end
      end
  end.

Definition nvlist_xfer (null_iov : bool) (nvl : nvlist) : K (option nvlist) :=
  r ← nvlist_send null_iov nvl;
  _ ← on_host (nvlist_destroy nvl);
  if r <? 0 then mret None else nvlist_recv.

End NvMsg.
