(* ===== verification/NvMsgSpec.v ===== *)
(** * A name-value list across a connection *)
From S2P Require Import Prelude Nv NvPack NvSpec NvRound NvMsg.

Module NvMsgSpec.
Import Nv NvPack NvSpec NvRound NvMsg.

Lemma K_bind_Ok {A B} (m : K A) (k : A → K B) s a s' : m s = Ok (a, s') → (a ← m; k a) s = k a s'.
Proof. apply M_bind_Ok. Qed.

(** The host interrupts calls but lets at least [k] of them move something. *)
Fixpoint steady (k : nat) (sched : list io) : Prop :=
  match sched with
  | [] => k = O
  | Interrupted :: l => steady k l
  | Moves _ :: l => steady (pred k) l
  | _ => False
  end.

Lemma steady_mono sched j k : (j <= k)%nat → steady k sched → steady j sched.
Proof.
  revert j k. induction sched as [|[]]; intros j k Hj Hk; cbn in *; try done; [lia|by eapply IHsched|].
  eapply IHsched; [|exact Hk]. lia.
Qed.

Lemma send_loop_spec sched data k s :
  data ≠ [] → steady (length data + k) sched →
  ∃ rest, steady k rest ∧
    send_loop sched data s = Ok (0, mk_sock (sk_host s) rest (sk_in s) (sk_out s ++ data) (sk_ctl_in s) (sk_ctl_out s)).
Proof.
  revert data s. induction sched as [|c sched IH]; intros data s Hne Hst.
  { cbn in Hst. destruct data; [done|cbn in Hst; lia]. }
  destruct c as [| | |n]; cbn [steady] in Hst; try done; cbn [send_loop]; erewrite K_bind_Ok by reflexivity.
  - by destruct (IH data (mk_sock (sk_host s) sched (sk_in s) (sk_out s) (sk_ctl_in s) (sk_ctl_out s)) Hne Hst) as (rest & Hr & E); exists rest.
  - erewrite K_bind_Ok by reflexivity. erewrite K_bind_Ok by reflexivity. cbn [sk_out sk_host sk_sched sk_in sk_ctl_in sk_ctl_out].
    destruct (drop (S n) data) as [|b data'] eqn:Ed.
    + exists sched. assert (length data <= S n)%nat by (pose proof (length_drop data (S n)) as H; rewrite Ed in H; cbn in H; lia).
      rewrite take_ge by done.
      split; [eapply steady_mono; [|exact Hst]; destruct data; [done|cbn; lia]|done].
    + assert (length (b :: data') = (length data - S n)%nat) as Hl by (by rewrite <- Ed, length_drop).
      destruct (IH (b :: data') (mk_sock (sk_host s) sched (sk_in s) (sk_out s ++ take (S n) data) (sk_ctl_in s) (sk_ctl_out s)))
        as (rest & Hr & E); [done|eapply steady_mono; [|exact Hst]; cbn in *; lia|].
      exists rest. split; [done|]. cbn [sk_out sk_host sk_sched sk_in sk_ctl_in sk_ctl_out] in E. rewrite E.
      rewrite <- app_assoc, <- Ed, take_drop. done.
Qed.

Lemma recv_loop_spec sched bs more got k s :
  sk_in s = bs ++ more → sk_sched s = sched → steady (length bs + k) sched →
  ∃ rest, steady k rest ∧
    recv_loop sched (length bs) got s = Ok (Some (got ++ bs), mk_sock (sk_host s) rest more (sk_out s) (sk_ctl_in s) (sk_ctl_out s)).
Proof.
  revert bs got s. induction sched as [|c sched IH]; intros bs got s Hin Hsc Hst.
  { destruct bs; [|cbn in Hst; lia]. exists []. rewrite app_nil_r. destruct s; cbn in *; by subst. }
  destruct bs as [|b bs]; [exists (c :: sched); rewrite app_nil_r; split; [done|]; destruct s; cbn in *; by subst|].
  cbn [length] in *. destruct c as [| | |n]; cbn [steady] in Hst; try done; cbn [recv_loop]; erewrite K_bind_Ok by reflexivity.
  - destruct (IH (b :: bs) got (mk_sock (sk_host s) sched (sk_in s) (sk_out s) (sk_ctl_in s) (sk_ctl_out s)) Hin eq_refl Hst) as (rest & Hr & E).
    by exists rest.
  - erewrite K_bind_Ok by reflexivity. cbn [sk_in]. rewrite Hin. cbn [app]. erewrite K_bind_Ok by reflexivity.
    set (k' := (S n `min` S (length bs) `min` length (b :: bs ++ more))%nat).
    assert (1 <= k' <= length (b :: bs))%nat as Hk' by (unfold k'; cbn [length]; rewrite length_app; lia).
    change (b :: bs ++ more) with ((b :: bs) ++ more). rewrite drop_app_le, take_app_le by lia.
    replace (S (length bs) - k')%nat with (length (drop k' (b :: bs))) by (rewrite length_drop; done).
    destruct (IH (drop k' (b :: bs)) (got ++ take k' (b :: bs)) (mk_sock (sk_host s) sched (drop k' (b :: bs) ++ more) (sk_out s) (sk_ctl_in s) (sk_ctl_out s)))
      as (rest & Hr & E); [done|done|eapply steady_mono; [|exact Hst]; rewrite length_drop; cbn in *; lia|].
    exists rest. split; [done|]. etrans; [exact E|]. by rewrite <- app_assoc, take_drop.
Qed.

Lemma on_host_Ok {A} (m : N A) a h s :
  m (sk_host s) = Ok (a, h) → on_host m s = Ok (a, mk_sock h (sk_sched s) (sk_in s) (sk_out s) (sk_ctl_in s) (sk_ctl_out s)).
Proof. unfold on_host. by intros ->. Qed.

Lemma on_host_same {A} (m : N A) a s : m (sk_host s) = Ok (a, sk_host s) → on_host m s = Ok (a, s).
Proof. intros H. rewrite (on_host_Ok _ _ _ _ H). by destruct s. Qed.

(** * Descriptors *)

Definition rights : Z → cmsghdr := mk_cmsg true.

Lemma add_fds_spec fds s :
  Forall (λ fd, 0 <= fd ∧ is_Some (files (sk_host s) !! fd)) fds → add_fds fds s = Ok (Some (rights <$> fds), s).
Proof.
  induction 1 as [|fd fds [Hfd Hv] Hfds IH]; [done|]. cbn [add_fds].
  assert (msghdr_add_fd fd s = Ok (Some (rights fd), s)) as E.
  { unfold msghdr_add_fd. erewrite K_bind_Ok by (apply on_host_same; by rewrite (proj2 (Z.leb_le 0 fd) Hfd)).
    erewrite K_bind_Ok; [|apply on_host_same; unfold fd_is_valid, mbind, M_bind; cbn; rewrite bool_decide_true by done; reflexivity]. done. }
  rewrite (K_bind_Ok _ _ _ _ _ E), (K_bind_Ok _ _ _ _ _ IH). done.
Qed.

Lemma msg_send_spec sched msg k s :
  steady (S k) sched →
  ∃ rest, steady k rest ∧
    msg_send_loop true sched msg s = Ok (0, mk_sock (sk_host s) rest (sk_in s) (sk_out s) (sk_ctl_in s) (sk_ctl_out s ++ [msg])).
Proof.
  revert s. induction sched as [|c sched IH]; intros s Hst; [done|].
  destruct c as [| | |n]; cbn [steady] in Hst; try done; cbn [msg_send_loop]; erewrite K_bind_Ok by reflexivity; [|by exists sched].
  by destruct (IH (mk_sock (sk_host s) sched (sk_in s) (sk_out s) (sk_ctl_in s) (sk_ctl_out s)) Hst) as (rest & Hr & E); exists rest.
Qed.

Lemma msg_recv_spec sched n msg ctl k s :
  steady (S k) sched → sk_ctl_in s = msg :: ctl → (length msg <= n)%nat →
  ∃ rest, steady k rest ∧
    msg_recv_loop sched n s = Ok (Some msg, mk_sock (sk_host s) rest (sk_in s) (sk_out s) ctl (sk_ctl_out s)).
Proof.
  revert s. induction sched as [|c sched IH]; intros s Hst Hc Hn; [done|].
  destruct c as [| | |m]; cbn [steady] in Hst; try done; cbn [msg_recv_loop]; erewrite K_bind_Ok by reflexivity.
  - by destruct (IH (mk_sock (sk_host s) sched (sk_in s) (sk_out s) (sk_ctl_in s) (sk_ctl_out s)) Hst Hc Hn) as (rest & Hr & E); exists rest.
  - erewrite K_bind_Ok by reflexivity. cbn [sk_ctl_in]. rewrite Hc. exists sched. split; [done|]. cbn. by rewrite take_ge.
Qed.

Lemma get_fds_spec fds s : Forall (λ fd, 0 <= fd) fds → get_fds (length fds) (rights <$> fds) s = Ok ((fds, []), s).
Proof.
  induction 1 as [|fd fds Hfd Hfds IH]; [done|]. cbn [length fmap list_fmap get_fds].
  rewrite (K_bind_Ok _ _ _ _ _ (eq_refl : msghdr_get_fd (rights fd) s = Ok (fd, s))). rewrite (proj2 (Z.ltb_ge fd 0)) by done.
  by rewrite (K_bind_Ok _ _ _ _ _ IH).
Qed.

Lemma fd_recv_spec fds ctl k s :
  fds ≠ [] → Forall (λ fd, 0 <= fd) fds → steady (S k) (sk_sched s) → sk_ctl_in s = (rights <$> fds) :: ctl →
  ∃ rest, steady k rest ∧
    fd_recv (Z.of_nat (length fds)) s = Ok (Some fds, mk_sock (sk_host s) rest (sk_in s) (sk_out s) ctl (sk_ctl_out s)).
Proof.
  intros Hne Hfds Hst Hc. unfold fd_recv. assert (0 < length fds)%nat by (destruct fds; [done|cbn; lia]).
  rewrite (proj2 (Z.eqb_neq _ 0)) by lia. rewrite Nat2Z.id.
  destruct (msg_recv_spec (sk_sched s) (length fds) (rights <$> fds) ctl k s Hst Hc) as (rest & Hr & E); [by rewrite length_fmap|].
  exists rest. split; [done|]. assert (msg_recv (length fds) s = msg_recv_loop (sk_sched s) (length fds) s) as Em by done.
  rewrite E in Em. rewrite (K_bind_Ok _ _ _ _ _ Em), (K_bind_Ok _ _ _ _ _ (get_fds_spec fds _ Hfds)). cbv beta iota.
  rewrite bool_decide_true by done. rewrite (proj2 (Z.ltb_ge _ _)) by lia. done.
Qed.

(** * Lists *)

(** The control messages that go with the bytes of a list with these descriptors. *)
Definition control (fds : list Z) : list (list cmsghdr) := match fds with [] => [] | _ => [rights <$> fds] end.

Lemma nvlist_send_spec null_iov x a :
  null_iov = true ∨ descs 3 x = [] → wf 3 x → Z.of_nat (length (bytes 3 0 x)) < 2 ^ 63 → Forall (λ fd, is_Some (files (sk_host a) !! fd)) (descs 3 x) →
  steady (length (bytes 3 0 x) + 1) (sk_sched a) → Forall (λ fd, 0 <= fd) (descs 3 x) →
  ∃ rest, nvlist_send null_iov x a =
    Ok (0, mk_sock (sk_host a) rest (sk_in a) (sk_out a ++ bytes 3 0 x) (sk_ctl_in a) (sk_ctl_out a ++ control (descs 3 x))).
Proof.
  intros Hiov Hw Hz Hopen Hst Hpos. pose proof (descs_length 3 x) as Hd. pose proof (bytes_header 2 0 x) as Hlen.
  unfold nvlist_send. rewrite (proj1 Hw). cbn [Z.eqb negb].
  rewrite (K_bind_Ok _ _ _ _ _ (on_host_same _ _ a (nvlist_descriptors_spec 3 x 0 (sk_host a) Hw ltac:(lia) Hz))). cbv beta iota.
  pose proof (ndesc_bound 3 0 x).
  rewrite (K_bind_Ok _ _ _ _ _ (on_host_same _ _ a (xpack_spec 3 x 0 (sk_host a) Hw ltac:(lia) ltac:(lia) ltac:(lia) Hz))). cbv beta iota.
  destruct (send_loop_spec (sk_sched a) (bytes 3 0 x) 1 a) as (r1 & Hr1 & E1); [destruct (bytes 3 0 x); [cbn in Hlen; lia|done]|done|].
  assert (buf_send (bytes 3 0 x) a = send_loop (sk_sched a) (bytes 3 0 x) a) as Eb.
  { unfold buf_send. erewrite K_bind_Ok by (apply on_host_same; by rewrite (proj2 (Z.ltb_lt 0 _)) by lia). done. }
  rewrite E1 in Eb. rewrite (K_bind_Ok _ _ _ _ _ Eb). cbn [Z.eqb]. rewrite <- Hd. unfold control.
  destruct (descs 3 x) as [|fd fds] eqn:Ed; [exists r1; cbn; by rewrite app_nil_r|]. destruct Hiov as [-> |]; [|done]. rewrite <- Ed in *.
  rewrite (proj2 (Z.ltb_lt 0 _)) by (rewrite Ed; cbn; lia). unfold fd_send.
  rewrite (proj2 (Z.eqb_neq _ 0)) by (rewrite Ed; cbn; lia). set (s1 := mk_sock _ _ _ _ _ _).
  assert (add_fds (descs 3 x) s1 = Ok (Some (rights <$> descs 3 x), s1)) as Ea.
  { apply add_fds_spec. apply Forall_forall. rewrite Forall_forall in Hopen, Hpos. intros v Hv. split; [by apply Hpos|by apply Hopen]. }
  destruct (msg_send_spec r1 (rights <$> descs 3 x) 0 s1 Hr1) as (r2 & _ & E2).
  assert (msg_send true (rights <$> descs 3 x) s1 = msg_send_loop true r1 (rights <$> descs 3 x) s1) as Em by done. rewrite E2 in Em.
  exists r2. unfold mbind, M_bind. rewrite Ea. unfold mbind, M_bind. rewrite Em.
  done.
Qed.

Lemma nvlist_recv_spec x fds more ctl b :
  wf 3 x → Z.of_nat (length (bytes 3 0 x)) < 2 ^ 63 → length fds = length (descs 3 x) → Forall (λ fd, 0 <= fd) fds →
  steady (length (bytes 3 0 x) + 1) (sk_sched b) → sk_in b = bytes 3 0 x ++ more → sk_ctl_in b = control fds ++ ctl →
  ∃ h rest, quiet (sk_host b) h ∧
    nvlist_recv b = Ok (Some (received 3 fds 0 x), mk_sock h rest more (sk_out b) ctl (sk_ctl_out b)).
Proof.
  intros Hw Hz Hfds Hpos Hst Hin Hctl. pose proof (descs_length 3 x) as Hd. pose proof (ndesc_bound 3 0 x) as Hb.
  pose proof Hw as (_ & Hf & _). destruct (public_flags _ Hf) as (Hbe & Hall & _). pose proof (bytes_header 2 0 x) as Hlen.
  set (body := pairs_bytes (bytes 2) (ndesc 2) 0 (nvl_head x)) in *. set (z := Z.of_nat (length body)) in *.
  assert (bytes 3 0 x = header_bytes (nvl_flags x) (ndesc 3 x) z ++ body) as Ebytes by done.
  assert (length (header_bytes (nvl_flags x) (ndesc 3 x) z) = 19%nat) as Hhl by (pose proof (header_bytes_length (nvl_flags x) (ndesc 3 x) z); lia).
  assert (0 <= nvl_flags x < 256) as Hfr by (destruct Hf as [-> | ->]; cbv; split; congruence).
  destruct (recv_loop_spec (sk_sched b) (header_bytes (nvl_flags x) (ndesc 3 x) z) (body ++ more) [] (length body + 1) b)
    as (r1 & Hr1 & E1); [by rewrite Hin, Ebytes, <- app_assoc|done|eapply steady_mono; [|exact Hst]; rewrite Ebytes, length_app; lia|].
  rewrite Hhl in E1. cbn [app] in E1. unfold nvlist_recv.
  rewrite (K_bind_Ok _ _ _ _ _ (E1 : buf_recv nvlist_header_size b = _)). set (b1 := mk_sock _ _ _ _ _ _).
  rewrite read_header_bytes by lia.
  assert (on_host (nvlist_check_header (mk_hdr 108 0 (nvl_flags x) (ndesc 3 x) z)) b1 = Ok (Some (mk_hdr 108 0 (nvl_flags x) (ndesc 3 x) z), b1)) as Ec.
  { apply on_host_same. unfold nvlist_check_header. cbn [nvlh_magic nvlh_flags]. rewrite Hall, Hbe. done. }
  rewrite (K_bind_Ok _ _ _ _ _ Ec). cbv beta iota zeta. cbn [nvlh_descriptors nvlh_size]. unfold nvlist_header_size.
  rewrite wrap_u_id by lia. rewrite (proj2 (Z.ltb_ge _ _)) by lia. replace (19 + z - 19) with z by lia.
  destruct (recv_loop_spec r1 body more [] 1 b1 eq_refl eq_refl Hr1) as (r2 & Hr2 & E2). cbn [app] in E2.
  assert (buf_recv z b1 = recv_loop r1 (length body) [] b1) as Eb by (unfold buf_recv, z; rewrite Nat2Z.id; done). rewrite E2 in Eb.
  rewrite (K_bind_Ok _ _ _ _ _ Eb). set (b2 := mk_sock _ _ _ _ _ _).
  assert (∃ r3, (if 0 <? ndesc 3 x then fd_recv (ndesc 3 x) else mret (Some [])) b2 =
    Ok (Some fds, mk_sock (sk_host b) r3 more (sk_out b) ctl (sk_ctl_out b))) as [r3 E3].
  { rewrite <- Hd, <- Hfds. destruct fds as [|fd fds']; [exists r2; unfold b2, b1; cbn; cbn in Hctl; by rewrite Hctl|].
    rewrite (proj2 (Z.ltb_lt 0 _)) by (cbn; lia).
    destruct (fd_recv_spec (fd :: fds') ctl 0 b2) as (r3 & _ & E3); [done|done|done|done|]. by exists r3. }
  rewrite (K_bind_Ok _ _ _ _ _ E3). cbv beta iota.
  destruct (xunpack_spec 3 x 0 fds [] (S (Z.to_nat (19 + z))) (sk_host b)) as (h & Hx & Hq); [done|lia|lia|lia|done|lia|].
  exists h, r3. split; [done|]. apply (on_host_Ok _ _ _ (mk_sock (sk_host b) r3 more (sk_out b) ctl (sk_ctl_out b))).
  rewrite app_nil_r, Hlen in Hx. exact Hx.
Qed.

Lemma descs_range d x : wf d x → Forall (λ fd, 0 <= fd) (descs d x).
Proof.
  revert x. induction d as [|d IH]; intros x Hw; [done|]. destruct Hw as (_ & _ & _ & Hl). cbn [descs].
  induction Hl as [|p l [_ Hp] _ IHl]; [constructor|]. rewrite fmap_cons. cbn [concat]. apply Forall_app. split; [|done].
  unfold desc_pair, data_ok in *. destruct (nvp_data p); try constructor; [by apply IH|lia|constructor].
Qed.

(** [C12] A well-formed list, at most three lists deep, that one process sends over a stream
    socket is received by the other, on any host if it has no descriptors and otherwise on
    one whose kernel takes a control message without data on a socket that has carried
    data ([null_iov]; the bytes go first, and the comment in [cred_send] knows kernels that
    do not), however the two hosts cut the stream into pieces and
    interrupt the calls, provided they do not stop moving bytes.  The receiver gets the same
    list, with the descriptors that the host made for it in the control message in the place
    of the sender's, and leaves what follows in the stream and in the control messages. *)
Theorem nvlist_send_recv null_iov x a :
  null_iov = true ∨ descs 3 x = [] → wf 3 x → Z.of_nat (length (bytes 3 0 x)) < 2 ^ 63 → Forall (λ fd, is_Some (files (sk_host a) !! fd)) (descs 3 x) →
  steady (length (bytes 3 0 x) + 1) (sk_sched a) →
  ∃ a' bs, nvlist_send null_iov x a = Ok (0, a') ∧ sk_out a' = sk_out a ++ bs ∧ sk_ctl_out a' = sk_ctl_out a ++ control (descs 3 x) ∧
    sk_host a' = sk_host a ∧
    ∀ b fds more ctl, length fds = length (descs 3 x) → Forall (λ fd, 0 <= fd) fds →
      sk_in b = bs ++ more → sk_ctl_in b = control fds ++ ctl → steady (length bs + 1) (sk_sched b) →
      ∃ b', nvlist_recv b = Ok (Some (received 3 fds 0 x), b') ∧ sk_in b' = more ∧ sk_ctl_in b' = ctl ∧
        files (sk_host b') = files (sk_host b).
Proof.
  intros Hiov Hw Hz Hopen Hst. destruct (nvlist_send_spec null_iov x a Hiov Hw Hz Hopen Hst (descs_range 3 x Hw)) as (rest & E).
  eexists _, (bytes 3 0 x). split; [exact E|]. repeat split. intros b fds more ctl Hlen Hpos Hin Hctl Hsb.
  destruct (nvlist_recv_spec x fds more ctl b Hw Hz Hlen Hpos Hsb Hin Hctl) as (h & r & [Hq _] & Er).
  eexists. split; [exact Er|]. by split.
Qed.

(** The host of the sender moves up to three bytes at a time and interrupts once. *)
Definition ex_sock : sock := mk_sock (mk_host 0 {[7 := 1%nat]} 64) (Interrupted :: replicate 150 (Moves 2)) [] [] [] [].

Lemma nvlist_send_recv_witness :
  ∃ a' bs, nvlist_send true ex_list ex_sock = Ok (0, a') ∧ sk_out a' = [] ++ bs ∧ sk_ctl_out a' = [] ++ control [7] ∧
    sk_host a' = sk_host ex_sock ∧
    ∀ b fds more ctl, length fds = 1%nat → Forall (λ fd, 0 <= fd) fds →
      sk_in b = bs ++ more → sk_ctl_in b = control fds ++ ctl → steady (length bs + 1) (sk_sched b) →
      ∃ b', nvlist_recv b = Ok (Some (received 3 fds 0 ex_list), b') ∧ sk_in b' = more ∧ sk_ctl_in b' = ctl ∧
        files (sk_host b') = files (sk_host b).
Proof.
  apply (nvlist_send_recv true ex_list ex_sock); [by left|apply ex_list_wf|vm_compute; reflexivity| |vm_compute; reflexivity].
  repeat constructor. eexists. vm_compute. reflexivity.
Defined.

(** On a host that does not, the sender reports success and the descriptors never
    arrive. *)
Lemma send_descriptors_lost :
  match nvlist_send false ex_list ex_sock with Ok (r, s) => r = 0 ∧ sk_ctl_out s = [] | Fault _ => False end.
Proof. vm_compute. by split. Qed.

(** A header with the largest size: the sum wraps around, and the header is copied to a
    buffer that is too small for it. *)
Lemma recv_size_overflow :
  nvlist_recv (mk_sock (mk_host 0 ∅ 64) [Moves 30] (header_bytes 0 0 (2 ^ 64 - 1)) [] [] []) = Fault Overflow.
Proof. vm_compute. reflexivity. Qed.

(** The list of a big-endian sender is right, and refused: the words of its header are
    reversed in place before the unpacking reverses them again. *)
Definition ex_big_endian : list Z := [108; 0; 128] ++ rev (le_bytes 8 0) ++ rev (le_bytes 8 21) ++
  [3] ++ rev (le_bytes 2 2) ++ rev (le_bytes 8 8) ++ [97; 0] ++ rev (le_bytes 8 300).

Lemma recv_big_endian_refused :
  (∃ s, nvlist_xunpack ex_big_endian 40 [] (mk_host 0 ∅ 64) = Ok (Some (mk_nvl 0 0 [mk_nvp [97] (NvNumber 300) 8]), s)) ∧
  (∃ s, nvlist_recv (mk_sock (mk_host 0 ∅ 64) [Moves 30; Moves 30] ex_big_endian [] [] []) = Ok (None, s)).
Proof. split; eexists; vm_compute; reflexivity. Qed.

End NvMsgSpec.
