(* ===== verification/IfConfig.v ===== *)
(** Configuring and starting interfaces.  Module IfConfig: the calls of
    src/src/lib/libuinet/uinet_api.c that bring an interface up and give it an address
    ([uinet_interface_up] and the like) and the part of src/src/sys/net/if.c that serves
    their requests ([ifioctl], [ifhwioctl]); drivers, protocols and the cloner are operations
    of a class.  Module IfStart: the configuration the library starts from and the variables
    it passes to the kernel (src/src/lib/libuinet/uinet_init.c), the initialisation of an
    instance, and the start-up library src/src/lib/libudif/ud_ifconfig.c. *)
From S2P Require Import Prelude Printf PrintfSpec Kenv Time Dpdk DpdkAttach IfRegistry InetText.
Import Printf IfRegistry InetText.

Module IfConfig.

Definition EAFNOSUPPORT : Z := 47.
Definition EOPNOTSUPP : Z := 45.
Definition ENOIOCTL : Z := -3.
Definition IFNAMSIZ : Z := 16.

Definition IFF_UP : Z := 0x1.
Definition IFF_BROADCAST : Z := 0x2.
Definition IFF_SMART : Z := 0x20.
Definition IFF_PROMISC : Z := 0x100.
Definition IFF_SIMPLEX : Z := 0x800.
Definition IFF_MULTICAST : Z := 0x8000.
Definition IFF_PPROMISC : Z := 0x20000.
Definition IFF_DYING : Z := 0x200000.
Definition IFF_PROMISCINET : Z := 0x800000.
Definition IFF_CANTCHANGE : Z := 0x218f72.

(** ** Data *)

(** The fields of [struct ifnet] the requests use; [if_ioctl] says that the driver has
    the function. *)
Record ifnet : Type := mk_ifnet {
  if_xname : str; if_flags : Z; if_drv_flags : Z; if_pcount : Z; if_refcount : Z; if_ioctl : bool
}.

Definition set_flags (v : Z) (i : ifnet) : ifnet :=
  mk_ifnet (if_xname i) v (if_drv_flags i) (if_pcount i) (if_refcount i) (if_ioctl i).
Definition set_drv_flags (v : Z) (i : ifnet) : ifnet :=
  mk_ifnet (if_xname i) (if_flags i) v (if_pcount i) (if_refcount i) (if_ioctl i).
Definition set_refcount (v : Z) (i : ifnet) : ifnet :=
  mk_ifnet (if_xname i) (if_flags i) (if_drv_flags i) (if_pcount i) v (if_ioctl i).

(** The two halves of the flags are [short]. *)
Record ifreq : Type := mk_ifr { ifr_name : str; ifr_flags : Z; ifr_flagshigh : Z }.

Record sockaddr_in : Type := mk_sin {
  sin_len : Z; sin_family : Z; sin_port : Z; sin_addr : list Z; sin_zero : list Z
}.

Record in_aliasreq : Type := mk_ina {
  ifra_name : str; ifra_addr : sockaddr_in; ifra_broadaddr : sockaddr_in; ifra_mask : sockaddr_in
}.

(** The requests of this library and what they point to. *)
Inductive ioctl_cmd : Type := SIOCGIFFLAGS | SIOCSIFFLAGS | SIOCAIFADDR | SIOCIFCREATE.
Inductive ioctl_data : Type := DIfr (r : ifreq) | DIna (a : in_aliasreq).

(** Every structure begins with the name. *)
Definition data_name (d : ioctl_data) : str := match d with DIfr r => ifr_name r | DIna a => ifra_name a end.

(** What is called outside the modelled code, on a state [K]: [socreate] gives an error;
    [if_ioctl] of the driver and [pru_control] of the protocol give an error and the
    interface's flags and driver flags; [if_clone_create] gives an error and adds no interface, since no cloner has
    the names the drivers give; [if_route] and
    [if_unroute] notify addresses and routing of the change they have made to the flag;
    [kernel_sysctlbyname] sets a variable. *)
Class NetKernel (K : Type) : Type := {
  k_socreate : K → Z * K;
  k_if_ioctl : ifnet → ioctl_cmd → ioctl_data → K → (Z * Z * Z) * K;
  k_pru_control : ifnet → ioctl_cmd → ioctl_data → K → (Z * Z * Z) * K;
  k_if_clone_create : str → K → Z * K;
  k_notify : str → bool → K → K;
  k_sysctl : str → Z → K → Z * K
}.

(** A socket; [so_proto] is not NULL. *)
Record socket : Type := mk_so { so_proto : bool }.

(** An instance with its network: the registry of interfaces, [V_ifnet], the sockets that
    are open, and what is outside. *)
Record net (D K : Type) : Type := mk_net {
  n_reg : registry D; n_ifnets : list ifnet; n_socks : gmap nat socket; n_kern : K
}.
Arguments mk_net {D K}.
Arguments n_reg {D K}.
Arguments n_ifnets {D K}.
Arguments n_socks {D K}.
Arguments n_kern {D K}.

Section Config.

Context {D K : Type} `{IfDriver D} `{NetKernel K}.

Abbreviation N := (M (net D K)).

Definition set_reg v (s : net D K) : net D K := mk_net v (n_ifnets s) (n_socks s) (n_kern s).
Definition set_ifnets v (s : net D K) : net D K := mk_net (n_reg s) v (n_socks s) (n_kern s).
Definition set_socks v (s : net D K) : net D K := mk_net (n_reg s) (n_ifnets s) v (n_kern s).
Definition set_kern v (s : net D K) : net D K := mk_net (n_reg s) (n_ifnets s) (n_socks s) v.

Definition on_reg {A} (m : M (registry D) A) : N A := fun s =>
  '(a, r) ← m (n_reg s); Ok (a, set_reg r s).
Definition on_kern {A} (f : K → A * K) : N A := fun s =>
  let '(a, k) := f (n_kern s) in Ok (a, set_kern k s).

(** ** Interfaces of the stack *)

Definition get_if (i : nat) : N ifnet := fun s =>
  match n_ifnets s !! i with Some x => Ok (x, s) | None => Fault BadPointer end.
Definition put_if (i : nat) (x : ifnet) : N unit := modify (fun s => set_ifnets (<[i := x]> (n_ifnets s)) s).

(** The test of the loop; names are compared up to [IFNAMSIZ] bytes. *)
Definition unit_matches (name : str) (x : ifnet) : bool :=
  bool_decide (take (Z.to_nat IFNAMSIZ) name = take (Z.to_nat IFNAMSIZ) (if_xname x)) &&
  negb (has_flag (if_flags x) IFF_DYING).

(** Interfaces are named by their position in [V_ifnet]. *)
Definition ifunit_ref (name : str) : N (option nat) :=
  l ← gets n_ifnets;
  match list_find (fun x => unit_matches name x = true) l with
  | Some (i, x) => _ ← put_if i (set_refcount (if_refcount x + 1) x); mret (Some i)
  | None => mret None
  end.

(** An interface that is on the list has a reference from there. *)
Definition if_rele (i : nat) : N unit :=
  x ← get_if i;
  if if_refcount x =? 1 then faultM BadPointer else put_if i (set_refcount (if_refcount x - 1) x).

Definition if_unroute (i : nat) (flag : Z) : N unit :=
  x ← get_if i; _ ← put_if i (set_flags (clear_flag (if_flags x) flag) x);
  on_kern (fun k => (tt, k_notify (if_xname x) false k)).
Definition if_route (i : nat) (flag : Z) : N unit :=
  x ← get_if i; _ ← put_if i (set_flags (Z.lor (if_flags x) flag) x);
  on_kern (fun k => (tt, k_notify (if_xname x) true k)).
Definition if_down (i : nat) : N unit := if_unroute i IFF_UP.
Definition if_up (i : nat) : N unit := if_route i IFF_UP.

(** A call to the driver or the protocol. *)
Definition call_out (f : ifnet → ioctl_cmd → ioctl_data → K → (Z * Z * Z) * K)
    (i : nat) (cmd : ioctl_cmd) (data : ioctl_data) : N Z :=
  x ← get_if i;
  '(error, fl, dfl) ← on_kern (f x cmd data);
  _ ← put_if i (set_drv_flags dfl (set_flags fl x)); mret error.

(** ** The requests *)

(** [SIOCGIFFLAGS]. *)
Definition get_flags (x : ifnet) (r : ifreq) : ifreq :=
  let temp_flags := Z.lor (if_flags x) (if_drv_flags x) in
  mk_ifr (ifr_name r) (s16 (Z.land temp_flags 0xffff)) (s16 (Z.shiftr temp_flags 16)).

Definition new_flags (r : ifreq) : Z :=
  Z.lor (Z.land (ifr_flags r) 0xffff) (s32 (Z.shiftl (ifr_flagshigh r) 16)).

(** Going up or down, unless the driver does it. *)
Definition flip_up (nf : Z) (i : nat) : N unit :=
  x ← get_if i;
  if has_flag (if_flags x) IFF_SMART then mret ()
  else if has_flag (if_flags x) IFF_UP && negb (has_flag nf IFF_UP) then if_down i
  else if has_flag nf IFF_UP && negb (has_flag (if_flags x) IFF_UP) then if_up i
  else mret ().

Definition flip_promisc (nf : Z) (i : nat) : N unit :=
  x ← get_if i;
  if has_flag (Z.lxor (if_flags x) nf) IFF_PPROMISC then
    if has_flag nf IFF_PPROMISC then put_if i (set_flags (Z.lor (if_flags x) IFF_PROMISC) x)
    else if if_pcount x =? 0 then put_if i (set_flags (clear_flag (if_flags x) IFF_PROMISC) x)
    else mret ()
  else mret ().

(** [SIOCSIFFLAGS]; [priv_check] grants everything. *)
Definition sifflags (i : nat) (r : ifreq) : N Z :=
  let nf := new_flags r in
  _ ← flip_up nf i;
  _ ← flip_promisc nf i;
  x ← get_if i;
  _ ← put_if i (set_flags (Z.lor (Z.land (if_flags x) IFF_CANTCHANGE) (clear_flag nf IFF_CANTCHANGE)) x);
  _ ← (if if_ioctl x then call_out k_if_ioctl i SIOCSIFFLAGS (DIfr r) else mret 0);
  mret 0.

Definition ifhwioctl (cmd : ioctl_cmd) (i : nat) (data : ioctl_data) : N (Z * ioctl_data) :=
  match cmd, data with
  | SIOCGIFFLAGS, DIfr r => x ← get_if i; mret (0, DIfr (get_flags x r))
  | SIOCSIFFLAGS, DIfr r => error ← sifflags i r; mret (error, data)
  | (SIOCGIFFLAGS | SIOCSIFFLAGS), DIna _ => faultM BadPointer
  | _, _ => mret (ENOIOCTL, data)
  end.

Definition get_so (so : nat) : N socket := fun s =>
  match n_socks s !! so with Some x => Ok (x, s) | None => Fault BadPointer end.

(** The request to the protocol, and to the driver when the protocol does not know it. *)
Definition protocol_request (i : nat) (cmd : ioctl_cmd) (data : ioctl_data) : N Z :=
  error ← call_out k_pru_control i cmd data;
  x ← get_if i;
  if (error =? EOPNOTSUPP) && if_ioctl x then call_out k_if_ioctl i cmd data else mret error.

(** The requests that need no interface come first; the result is the error and what the
    data has become.  What follows for INET6, which the build leaves out, is not here. *)
Definition ifioctl (so : nat) (cmd : ioctl_cmd) (data : ioctl_data) : N (Z * ioctl_data) :=
  sock ← get_so so;
  match cmd with
  | SIOCIFCREATE => error ← on_kern (k_if_clone_create (data_name data)); mret (error, data)
  | _ =>
      o ← ifunit_ref (data_name data);
      match o with
      | None => mret (ENXIO, data)
      | Some i =>
          '(error, data) ← ifhwioctl cmd i data;
          if negb (error =? ENOIOCTL) then _ ← if_rele i; mret (error, data)
          else if negb (so_proto sock) then _ ← if_rele i; mret (EOPNOTSUPP, data)
          else error ← protocol_request i cmd data; _ ← if_rele i; mret (error, data)
      end
  end.

(** ** The calls of the library *)

Definition socreate : N (Z * nat) :=
  error ← on_kern k_socreate;
  n ← gets (fun s => fresh (dom (n_socks s) : gset nat));
  if error =? 0 then _ ← modify (fun s => set_socks (<[n := mk_so true]> (n_socks s)) s); mret (0, n)
  else mret (error, n).

Definition soclose (so : nat) : N unit :=
  _ ← get_so so; modify (fun s => set_socks (delete so (n_socks s)) s).

(** The error, the socket, and the name put into the request. *)
Definition uinet_ifconfig_begin (name : str) : N (Z * nat * str) :=
  o ← on_reg (uinet_iffind_byname name);
  match o with
  | None => mret (EINVAL, O, [])
  | Some p =>
      u ← on_reg (uif_load p);
      '(error, so) ← socreate;
      if negb (error =? 0) then mret (error, so, [])
      else
        '(_, bytes) ← liftR (snprintf IFNAMSIZ (Some (lit "%s")) [AStr (Some (uif_name u))]);
        mret (0, so, removelast bytes)
  end.

Definition uinet_ifconfig_do (so : nat) (what : ioctl_cmd) (req : ioctl_data) : N (Z * ioctl_data) :=
  ifioctl so what req.

Definition uinet_ifconfig_end (so : nat) : N unit := soclose so.

Definition template : sockaddr_in := mk_sin 16 AF_INET 0 (replicate 4 0) (replicate 8 0).

(** [inet_pton] into the template: the address or nothing. *)
Definition set_addr (text : str) : option sockaddr_in :=
  match inet_pton AF_INET text with
  | Valid a => Some (mk_sin 16 AF_INET 0 a (replicate 8 0))
  | _ => None
  end.

(** An address that may be left to the stack: only its length is written then, over
    what the variable held. *)
Definition optional_addr (text : option str) (old : sockaddr_in) : option sockaddr_in :=
  match text with
  | None | Some [] => Some (mk_sin 0 (sin_family old) (sin_port old) (sin_addr old) (sin_zero old))
  | Some t => set_addr t
  end.

(** The middle of [uinet_interface_add_alias] up to the label: [stack] is what the
    variable [ina] held before. *)
Definition alias_request (so : nat) (name : str) (addr braddr mask : option str) (stack : in_aliasreq) : N Z :=
  a ← liftR (deref addr);
  match set_addr a with
  | None => mret EAFNOSUPPORT
  | Some sa =>
      match optional_addr braddr (ifra_broadaddr stack) with
      | None => mret EAFNOSUPPORT
      | Some sb =>
          match optional_addr mask (ifra_mask stack) with
          | None => mret EAFNOSUPPORT
          | Some sm => '(error, _) ← uinet_ifconfig_do so SIOCAIFADDR (DIna (mk_ina name sa sb sm)); mret error
          end
      end
  end.

Definition uinet_interface_add_alias (stack : in_aliasreq) (name : str) (addr braddr mask : option str) : N Z :=
  '(error, cfg_so, ifname) ← uinet_ifconfig_begin name;
  if negb (error =? 0) then mret error
  else
    error ← alias_request cfg_so ifname addr braddr mask stack;
    _ ← uinet_ifconfig_end cfg_so;
    mret error.

Definition uinet_interface_create (stack : ifreq) (name : str) : N Z :=
  '(error, cfg_so, ifname) ← uinet_ifconfig_begin name;
  if negb (error =? 0) then mret error
  else
    '(error, _) ← uinet_ifconfig_do cfg_so SIOCIFCREATE (DIfr (mk_ifr ifname (ifr_flags stack) (ifr_flagshigh stack)));
    _ ← uinet_ifconfig_end cfg_so;
    mret error.

(** The flags to set. *)
Definition raise_flags (promisc promiscinet : Z) (r : ifreq) : ifreq :=
  let low := Z.lor (ifr_flags r) IFF_UP in
  let high := ifr_flagshigh r in
  let high := if negb (promisc =? 0) then Z.lor high (Z.shiftr IFF_PPROMISC 16) else high in
  let high := if negb (promiscinet =? 0) then Z.lor high (Z.shiftr IFF_PROMISCINET 16) else high in
  mk_ifr (ifr_name r) low high.

Definition uinet_interface_up (stack : ifreq) (name : str) (promisc promiscinet : Z) : N Z :=
  '(error, cfg_so, ifname) ← uinet_ifconfig_begin name;
  if negb (error =? 0) then mret error
  else
    '(error, data) ← uinet_ifconfig_do cfg_so SIOCGIFFLAGS (DIfr (mk_ifr ifname (ifr_flags stack) (ifr_flagshigh stack)));
    error ← (match data with
             | DIfr r =>
                 if error =? 0
                 then '(error, _) ← uinet_ifconfig_do cfg_so SIOCSIFFLAGS (DIfr (raise_flags promisc promiscinet r)); mret error
                 else mret error
             | DIna _ => faultM BadPointer
             end);
    _ ← uinet_ifconfig_end cfg_so;
    mret error.

End Config.

End IfConfig.

Import Kenv IfConfig.

Module IfStart.

(** ** The global configuration *)

Record global_cfg : Type := mk_gcfg {
  ncpus : Z; netmap_extra_bufs : Z; epoch_number : Z; maxsockets : Z; nmbclusters : Z; somaxconn : Z;
  syncache_hashsize : Z; syncache_bucketlimit : Z; syncache_cachelimit : Z; tcbhashsize : Z
}.

Inductive global_cfg_type : Type := CfgSmall | CfgMedium | CfgLarge.

Definition uinet_default_cfg (which : global_cfg_type) : global_cfg :=
  match which with
  | CfgSmall => mk_gcfg 1 1000 0 1024 (4 * 1024) 128 512 30 15360 512
  | CfgMedium => mk_gcfg 1 10000 0 (128 * 1024) (128 * 1024) 1024 2048 30 61440 8192
  | CfgLarge => mk_gcfg 1 40000 0 (256 * 1024) (512 * 1024) 2048 4096 30 122880 32768
  end.

(** ** The environment *)

Section Environment.

Context (HZ MAXCPU : Z).

Definition clamp_ncpus (n : Z) : Z := if MAXCPU <? n then MAXCPU else if 0 =? n then 1 else n.

Abbreviation env := (gmap str str).

(** [snprintf(tmpbuf, sizeof(tmpbuf), "%u", v); setenv(name, tmpbuf)]. *)
Definition setenv_u (name : str) (v : Z) : M env unit :=
  '(_, bytes) ← liftR (snprintf 32 (Some (lit "%u")) [AInt v]);
  modify (fun e => <[name := removelast bytes]> e).

Definition roundup (n : Z) : M env Z :=
  match Time.roundup_nearest_power_of_2 n with Some r => mret r | None => faultM Blocked end.

(** The variables [uinet_init] sets before it starts the kernel; the number of CPUs. *)
Definition uinet_init_env (cfg : option global_cfg) : M env Z :=
  let cfg := default (uinet_default_cfg CfgMedium) cfg in
  let n := clamp_ncpus (ncpus cfg) in
  _ ← setenv_u (lit "kern.ipc.maxsockets") (maxsockets cfg);
  _ ← setenv_u (lit "kern.ipc.nmbclusters") (nmbclusters cfg);
  _ ← setenv_u (lit "kern.ncallout") (s32 (HZ * 3600));
  h ← roundup (syncache_hashsize cfg);
  _ ← setenv_u (lit "net.inet.tcp.syncache.hashsize") h;
  _ ← setenv_u (lit "net.inet.tcp.syncache.bucketlimit") (syncache_bucketlimit cfg);
  _ ← setenv_u (lit "net.inet.tcp.syncache.cachelimit") (syncache_cachelimit cfg);
  t ← roundup (tcbhashsize cfg);
  _ ← setenv_u (lit "net.inet.tcp.tcbhashsize") t;
  mret n.

End Environment.

(** ** Instances *)

(** Callbacks and contexts are words. *)
Record instance_cfg : Type := mk_icfg {
  loopback : bool; sts_enabled : bool; userdata : Z; syncache_event_cb : Z; syncache_event_cb_arg : Z;
  sts_instance_event_notify_cb : Z
}.

(** The instance and the fields of its network stack that are set with it. *)
Record instance : Type := mk_inst {
  ui_sts : bool; ui_sts_evinstctx : Z; ui_userdata : Z; ui_index : Z;
  V_syncache_event_cb : Z; V_syncache_event_cb_arg : Z; sts_event_notify : Z; sts_event_notify_arg : Z
}.

Definition uinet_instance_default_cfg : instance_cfg := mk_icfg false false 0 0 0 0.

Inductive blackhole : Type := TcpNone | TcpSynOnly | TcpAll | UdpNone | UdpAll | OtherAction.

(** The slot of an interface of the start-up library. *)
Record ud_ifcfg : Type := mk_ud { ud_name : option str; ud_addr : option str; ud_mask : option str; ud_broadcast : option str }.
Record ud_if : Type := mk_udif { udi_cfg : ud_ifcfg; udi_uif : option nat }.
Definition MAX_UDIF : nat := 16.

(** What the variables of the functions below hold before they are set. *)
Record garbage : Type := mk_garbage { g_ifr : ifreq; g_ina : in_aliasreq; g_ifcfg : uinet_if_cfg }.

(** The bytes of a configuration string, as the driver reads it. *)
Definition chars (s : str) : list Ascii.ascii := (fun z => Ascii.ascii_of_nat (Z.to_nat z)) <$> s.

(** The type table knows the type, and its defaults are the DPDK driver's. *)
Definition uinet_if_default_config (types : list (option str)) (ty : Z) (cfg : uinet_if_cfg) : uinet_if_cfg :=
  match uinet_if_get_type_info ty types with
  | None => cfg
  | Some _ => mk_cfg ty None None 2 2 4096 2048 0 false
  end.

Section Start.

Context {D K : Type} `{IfDriver D} `{NetKernel K}.

Abbreviation N := (M (net D K)).

Definition uinet_config_blackhole (action : blackhole) : N Z :=
  let tcp := lit "net.inet.tcp.blackhole" in
  let udp := lit "net.inet.udp.blackhole" in
  match action with
  | TcpNone => on_kern (k_sysctl tcp 0)
  | TcpSynOnly => on_kern (k_sysctl tcp 1)
  | TcpAll => on_kern (k_sysctl tcp 2)
  | UdpNone => on_kern (k_sysctl udp 0)
  | UdpAll => on_kern (k_sysctl udp 1)
  | OtherAction => mret EINVAL
  end.

(** [count] is [instance_count]; [created] is what the event system's callback returns,
    0 for NULL.  The result is the C value, the instance and the new count. *)
Definition uinet_instance_init (g : garbage) (old : instance) (count : Z) (cfg : option instance_cfg) (created : Z) :
    N (Z * instance * Z) :=
  let cfg := default uinet_instance_default_cfg cfg in
  let inst := mk_inst (sts_enabled cfg) (ui_sts_evinstctx old) (userdata cfg) count (syncache_event_cb cfg)
                (syncache_event_cb_arg cfg) (sts_event_notify old) (sts_event_notify_arg old) in
  let count := u32 (count + 1) in
  _ ← uinet_config_blackhole TcpAll;
  _ ← uinet_config_blackhole UdpAll;
  _ ← (if loopback cfg then
         _ ← uinet_interface_up (g_ifr g) (lit "lo0") 0 0;
         _ ← uinet_interface_add_alias (g_ina g) (lit "lo0") (Some (lit "127.0.0.1")) (Some (lit "0.0.0.0")) (Some (lit "255.0.0.0"));
         mret ()
       else mret ());
  if ui_sts inst then
    let inst := mk_inst (ui_sts inst) created (ui_userdata inst) (ui_index inst) (V_syncache_event_cb inst)
                  (V_syncache_event_cb_arg inst) (sts_event_notify inst) (sts_event_notify_arg inst) in
    if created =? 0 then mret (-1, inst, count)
    else mret (0, mk_inst (ui_sts inst) created (ui_userdata inst) (ui_index inst) (V_syncache_event_cb inst)
                    (V_syncache_event_cb_arg inst) (sts_instance_event_notify_cb cfg) created, count)
  else mret (0, inst, count).

(** What attaching adds to the stack: the interface [if_dpdk_setup_interface] makes,
    which [ether_ifattach] puts at the end of [V_ifnet]. *)
Definition setup_ifnet (u : uinet_if) : ifnet :=
  mk_ifnet (take (Z.to_nat (IFNAMSIZ - 1)) (uif_name u)) (Z.lor (Z.lor IFF_BROADCAST IFF_SIMPLEX) IFF_MULTICAST) 0 0 1 true.

Definition net_ifcreate (p : option nat) (sts : option (option Z)) (cfg : uinet_if_cfg) : N (Z * option nat) :=
  '(error, uif) ← on_reg (uinet_ifcreate p sts cfg);
  match uif with
  | Some n =>
      u ← on_reg (uif_load n);
      _ ← modify (fun s => set_ifnets (n_ifnets s ++ [setup_ifnet u]) s);
      mret (error, uif)
  | None => mret (error, uif)
  end.

(** [startup] is everything [uinet_init] does up to the first instance. *)
Definition uinet_init (startup : N unit) (g : garbage) (old : instance) (inst_cfg : option instance_cfg) (created : Z) : N Z :=
  _ ← startup; _ ← uinet_instance_init g old 0 inst_cfg created; mret 0.

(** The part of [ud_ifsetup] after the initialisation; [p] is what [malloc] gives to
    [uinet_ifcreate].  The error and the table. *)
Definition ud_bring_up (types : list (option str)) (g : garbage) (p : option nat) (param : ud_ifcfg)
    (ud_ifs : list ud_if) (udif_count : nat) : N (Z * list ud_if) :=
  let d := uinet_if_default_config types UINET_IFTYPE_DPDK (g_ifcfg g) in
  let ifcfg := mk_cfg (cfg_type d) (chars <$> ud_name param) (ud_name param) (cfg_rx_cpu d) (cfg_tx_cpu d)
                 (cfg_rx_batch_size d) (cfg_tx_inject_queue_len d) (cfg_timestamp_mode d) (cfg_use_file_io_thread d) in
  '(error, ud_uif) ← net_ifcreate p None ifcfg;
  if negb (error =? 0) then mret (error, ud_ifs)
  else
    name ← liftR (deref (ud_name param));
    _ ← uinet_interface_up (g_ifr g) name 1 0;
    error ← uinet_interface_add_alias (g_ina g) name (ud_addr param) (ud_broadcast param) (ud_mask param);
    if bool_decide (udif_count < length ud_ifs)%nat
    then mret (error, <[udif_count := mk_udif param ud_uif]> ud_ifs)
    else faultM OutOfBounds.

Definition ud_ifsetup (startup : N unit) (types : list (option str)) (g : garbage) (old : instance) (p : option nat)
    (param : ud_ifcfg) (ud_ifs : list ud_if) (udif_count : nat) : N (Z * list ud_if) :=
  _ ← uinet_init startup g old None 0;
  ud_bring_up types g p param ud_ifs udif_count.

Definition udif_getuif (ud_ifs : list ud_if) : result (option nat) :=
  match ud_ifs with x :: _ => Ok (udi_uif x) | [] => Fault OutOfBounds end.

End Start.

End IfStart.
