(* ===== verification/IfConfigSpec.v ===== *)
(** Properties of configuring and starting interfaces.  Module IfConfigSpec: what bringing an
    interface up does to its flags, what giving it an address asks of the protocol, and that
    sockets and references are given back on every path.  Module IfStartSpec: what the kernel
    reads back from the environment, the loopback option of an instance, and the whole of
    [ud_ifsetup]. *)
From S2P Require Import Prelude Printf PrintfSpec Kenv Time TimeSpec Dpdk DpdkAttach.
From S2P Require Import IfRegistry IfRegistrySpec InetText IfConfig.
Import Printf PrintfSpec IfRegistry IfRegistrySpec InetText IfConfig.

Module IfConfigSpec.

(** ** Flags *)

(** A conversion to a signed type keeps the low bits. *)
Lemma wrap_s_bits w z i : 0 <= i < w → Z.testbit (wrap_s w z) i = Z.testbit z i.
Proof.
  intros Hi. rewrite <- (Z.mod_pow2_bits_low (wrap_s w z) w i), <- (Z.mod_pow2_bits_low z w i) by lia. f_equal.
  unfold wrap_s. rewrite Zminus_mod_idemp_l. f_equal. lia.
Qed.

Lemma lor_bounded k a b : 0 <= k → - 2 ^ k <= a < 2 ^ k → 0 <= b < 2 ^ k → - 2 ^ k <= Z.lor a b < 2 ^ k.
Proof.
  intros Hk Ha Hb. apply Z.bounded_iff_bits; [done |]. intros l Hl. rewrite Z.lor_spec.
  rewrite (proj1 (Z.bounded_iff_bits k a Hk) Ha l Hl), (proj1 (Z.bounded_iff_bits_nonneg k b Hk ltac:(lia)) ltac:(lia) l Hl).
  rewrite orb_false_r. apply bool_decide_ext. rewrite Z.lor_neg. lia.
Qed.

(** The two halves of the flags, each with bits added, put together again. *)
Lemma new_flags_raised name t l h :
  - 2 ^ 31 <= t < 2 ^ 31 → 0 <= l < 2 ^ 15 → 0 <= h < 2 ^ 15 →
  new_flags (mk_ifr name (Z.lor (s16 (Z.land t 0xffff)) l) (Z.lor (s16 (Z.shiftr t 16)) h)) =
    Z.lor t (Z.lor l (Z.shiftl h 16)).
Proof.
  intros Ht Hl Hh. unfold new_flags. cbn [ifr_flags ifr_flagshigh].
  assert (- 2 ^ 15 <= Z.shiftr t 16 < 2 ^ 15) as Hs.
  { rewrite Z.shiftr_div_pow2 by lia. split; [apply Z.div_le_lower_bound; lia | apply Z.div_lt_upper_bound; lia]. }
  rewrite (wrap_s_id 16 (Z.shiftr t 16)) by lia.
  assert (- 2 ^ 15 <= Z.lor (Z.shiftr t 16) h < 2 ^ 15) as Hsh by (by apply lor_bounded).
  rewrite (wrap_s_id 32); [| lia | rewrite Z.shiftl_mul_pow2 by lia; lia].
  apply Z.bits_inj'. intros i Hi. rewrite !Z.lor_spec, Z.land_spec, !Z.lor_spec, !Z.shiftl_spec by done.
  change 0xffff with (Z.ones 16). destruct (decide (i < 16)) as [Hlt | Hge].
  - rewrite Z.ones_spec_low, wrap_s_bits, Z.land_spec, Z.ones_spec_low, !(Z.testbit_neg_r _ (i - 16)) by lia.
    by rewrite !andb_true_r, !orb_false_r.
  - rewrite Z.ones_spec_high, andb_false_r, Z.lor_spec, Z.shiftr_spec by lia. replace (i - 16 + 16) with i by lia.
    rewrite (proj1 (Z.bounded_iff_bits_nonneg 15 l ltac:(lia) ltac:(lia)) ltac:(lia) i) by lia. by rewrite !orb_false_l.
Qed.

(** The word the request leaves: the bits it may not change from the old word, the others
    from the new one. *)
Lemma flags_mixed f d a b c :
  Z.land d (Z.lnot c) = 0 →
  Z.lor (Z.land (Z.lor f a) c) (clear_flag (Z.lor (Z.lor f d) b) c) =
    Z.lor f (Z.lor (Z.land a c) (clear_flag b c)).
Proof.
  intros Hd. apply Z.bits_inj'. intros i Hi. unfold clear_flag.
  assert (Z.testbit (Z.land d (Z.lnot c)) i = false) as Hb by (by rewrite Hd, Z.bits_0).
  rewrite Z.land_spec, Z.lnot_spec in Hb by done.
  rewrite !Z.lor_spec, !Z.land_spec, !Z.lor_spec, !Z.lnot_spec by done.
  by destruct (Z.testbit f i), (Z.testbit d i), (Z.testbit a i), (Z.testbit b i), (Z.testbit c i).
Qed.

(** ** Sockets and references *)

Section Frame.

Context {D K : Type} `{IfDriver D} `{NetKernel K}.

Abbreviation st := (net D K).

(** What no request changes of an interface of the stack. *)
Definition shape (x : ifnet) : str * Z * Z * bool := (if_xname x, if_pcount x, if_refcount x, if_ioctl x).

Record same (s s' : st) : Prop := {
  sm_reg : n_reg s' = n_reg s;
  sm_socks : n_socks s' = n_socks s;
  sm_shape : shape <$> n_ifnets s' = shape <$> n_ifnets s
}.

#[export] Instance same_preorder : PreOrder same.
Proof. split; [done |]. intros s1 s2 s3 [] []. split; congruence. Qed.

Lemma same_lookup s s' i x : same s s' → n_ifnets s !! i = Some x → ∃ y, n_ifnets s' !! i = Some y ∧ shape y = shape x.
Proof.
  intros [_ _ E] Hx. apply (f_equal (.!! i)) in E. rewrite !list_lookup_fmap, Hx in E.
  destruct (n_ifnets s' !! i) as [y |]; [| done]. cbn in E. exists y. split; [done | congruence].
Qed.

(** The call returns and changes no more than that. *)
Definition frame {A} (m : M st A) (s : st) : Prop := ∃ a s', m s = Ok (a, s') ∧ same s s'.

Lemma frame_bind {A B} (m : M st A) (k : A → M st B) s :
  frame m s → (∀ a s', same s s' → frame (k a) s') → frame (a ← m; k a) s.
Proof.
  intros (a & s' & E & Hs) Hk. destruct (Hk a s' Hs) as (b & s'' & E' & Hs'). exists b, s''.
  rewrite (M_bind_Ok _ _ _ _ _ E). split; [done | by transitivity s'].
Qed.

Lemma frame_ret {A} (a : A) s : frame (mret a) s.
Proof. by exists a, s. Qed.

Lemma frame_get {A} i x (k : ifnet → M st A) s :
  n_ifnets s !! i = Some x → frame (k x) s → frame (y ← get_if i; k y) s.
Proof. intros Hx Hk. unfold frame. by rewrite (M_bind_Ok _ _ _ x s) by (unfold get_if; by rewrite Hx). Qed.

Lemma frame_put i x y s : n_ifnets s !! i = Some x → shape y = shape x → frame (put_if i y) s.
Proof.
  intros Hx Hy. eexists _, _. split; [reflexivity |]. split; [done | done |]. cbn.
  rewrite list_fmap_insert, Hy. apply list_insert_id. by rewrite list_lookup_fmap, Hx.
Qed.

Lemma frame_kern {A} (f : K → A * K) s : frame (on_kern f) s.
Proof. unfold frame, on_kern. destruct (f (n_kern s)) as [a k]. eexists _, _. split; [reflexivity | done]. Qed.

Lemma frame_flip_up nf i s x : n_ifnets s !! i = Some x → frame (flip_up nf i) s.
Proof.
  intros Hx. unfold flip_up. eapply frame_get; [exact Hx |].
  destruct (has_flag (if_flags x) IFF_SMART); [apply frame_ret |].
  destruct (_ && _); [| destruct (_ && _); [| apply frame_ret]];
    (eapply frame_get; [exact Hx |]; apply frame_bind; [by eapply frame_put | intros; apply frame_kern]).
Qed.

Lemma frame_flip_promisc nf i s x : n_ifnets s !! i = Some x → frame (flip_promisc nf i) s.
Proof.
  intros Hx. unfold flip_promisc. eapply frame_get; [exact Hx |].
  split_ifs; (apply frame_ret || by eapply frame_put).
Qed.

Lemma frame_call_out f i cmd data s x : n_ifnets s !! i = Some x → frame (call_out f i cmd data) s.
Proof.
  intros Hx. unfold call_out. eapply frame_get; [exact Hx |]. apply frame_bind; [apply frame_kern |].
  intros [[e fl] dfl] s1 Hs. destruct (same_lookup _ _ _ _ Hs Hx) as (y & Hy & Ey).
  apply frame_bind; [by eapply frame_put | intros; apply frame_ret].
Qed.

Lemma frame_sifflags i r s x : n_ifnets s !! i = Some x → frame (sifflags i r) s.
Proof.
  intros Hx. unfold sifflags. apply frame_bind; [by eapply frame_flip_up |]. intros _ s1 H1.
  destruct (same_lookup _ _ _ _ H1 Hx) as (x1 & Hx1 & _). apply frame_bind; [by eapply frame_flip_promisc |].
  intros _ s2 H2. destruct (same_lookup _ _ _ _ H2 Hx1) as (x2 & Hx2 & _). eapply frame_get; [exact Hx2 |].
  apply frame_bind; [by eapply frame_put |]. intros _ s3 H3. destruct (same_lookup _ _ _ _ H3 Hx2) as (x3 & Hx3 & _).
  apply frame_bind; [| intros; apply frame_ret]. destruct (if_ioctl x2); [by eapply frame_call_out | apply frame_ret].
Qed.

(** The data is of the kind the request expects. *)
Definition fits (cmd : ioctl_cmd) (data : ioctl_data) : Prop :=
  match cmd, data with (SIOCGIFFLAGS | SIOCSIFFLAGS), DIna _ => False | _, _ => True end.

Lemma frame_ifhwioctl cmd i data s x : n_ifnets s !! i = Some x → fits cmd data → frame (ifhwioctl cmd i data) s.
Proof.
  intros Hx Hf. destruct cmd, data; try done; cbn [ifhwioctl]; try apply frame_ret.
  - eapply frame_get; [exact Hx | apply frame_ret].
  - apply frame_bind; [by eapply frame_sifflags | intros; apply frame_ret].
Qed.

Lemma frame_protocol i cmd data s x : n_ifnets s !! i = Some x → frame (protocol_request i cmd data) s.
Proof.
  intros Hx. unfold protocol_request. apply frame_bind; [by eapply frame_call_out |]. intros e s1 H1.
  destruct (same_lookup _ _ _ _ H1 Hx) as (x1 & Hx1 & _). eapply frame_get; [exact Hx1 |].
  destruct (_ && _); [by eapply frame_call_out | apply frame_ret].
Qed.

(** Giving back the reference that was taken before. *)
Lemma rele_same s s2 i x :
  n_ifnets s !! i = Some x → 1 <= if_refcount x →
  same (set_ifnets (<[i := set_refcount (if_refcount x + 1) x]> (n_ifnets s)) s) s2 →
  ∃ s3, if_rele i s2 = Ok ((), s3) ∧ same s s3.
Proof.
  intros Hx Hr Hs. set (x1 := set_refcount (if_refcount x + 1) x) in *.
  destruct (same_lookup _ _ i x1 Hs) as (y & Hy & Ey).
  { cbn. apply list_lookup_insert_eq. by eapply lookup_lt_Some. }
  destruct Hs as [Hreg Hso Hsh]. cbn in Hreg, Hso, Hsh. injection Ey as E1 E2 E3 E4. cbn in E1, E2, E3, E4.
  eexists. split.
  - unfold if_rele. rewrite (M_bind_Ok _ _ _ y s2) by (unfold get_if; by rewrite Hy).
    rewrite (proj2 (Z.eqb_neq _ 1)) by lia. reflexivity.
  - split; [done | done |]. cbn. rewrite list_fmap_insert, Hsh, list_fmap_insert, list_insert_insert_eq.
    replace (shape (set_refcount (if_refcount y - 1) y)) with (shape x) by (unfold shape; cbn; rewrite E1, E2, E3, E4; do 3 f_equal; lia).
    apply list_insert_id. by rewrite list_lookup_fmap, Hx.
Qed.

Definition referenced (s : st) : Prop := ∀ i x, n_ifnets s !! i = Some x → 1 <= if_refcount x.

Lemma referenced_same s s' : same s s' → referenced s → referenced s'.
Proof.
  intros Hs Hr i y Hy. pose proof (sm_shape _ _ Hs) as E. apply (f_equal (.!! i)) in E.
  rewrite !list_lookup_fmap, Hy in E. destruct (n_ifnets s !! i) as [x |] eqn:Hx; [| done].
  unfold shape in E. cbn in E. specialize (Hr i x Hx). simplify_eq. lia.
Qed.

Lemma ifunit_ref_cases name (s : st) :
  match list_find (fun x => unit_matches name x = true) (n_ifnets s) with
  | Some (i, x) => n_ifnets s !! i = Some x ∧ ifunit_ref name s =
      Ok (Some i, set_ifnets (<[i := set_refcount (if_refcount x + 1) x]> (n_ifnets s)) s)
  | None => ifunit_ref name s = Ok (None, s)
  end.
Proof.
  destruct (list_find _ _) as [[i x] |] eqn:E.
  - apply list_find_Some in E as E'. split; [apply E' |]. unfold ifunit_ref.
    rewrite (M_bind_Ok _ _ _ (n_ifnets s) s) by done. by rewrite E.
  - unfold ifunit_ref. rewrite (M_bind_Ok _ _ _ (n_ifnets s) s) by done. by rewrite E.
Qed.

Lemma frame_get_so {A} so sk (k : socket → M st A) s :
  n_socks s !! so = Some sk → frame (k sk) s → frame (x ← get_so so; k x) s.
Proof. intros Hx Hk. unfold frame. by rewrite (M_bind_Ok _ _ _ sk s) by (unfold get_so; by rewrite Hx). Qed.

Lemma frame_found name s (body : nat → M st (Z * ioctl_data)) (none : M st (Z * ioctl_data)) :
  (∀ i x, n_ifnets s !! i = Some x → let s1 := set_ifnets (<[i := set_refcount (if_refcount x + 1) x]> (n_ifnets s)) s in
    ∃ a s', body i s1 = Ok (a, s') ∧ same s s') →
  frame none s →
  frame (o ← ifunit_ref name; match o with None => none | Some i => body i end) s.
Proof.
  intros Hb Hn. pose proof (ifunit_ref_cases name s) as Hc. destruct (list_find _ _) as [[i x] |].
  - destruct Hc as [Hx E]. unfold frame. rewrite (M_bind_Ok _ _ _ _ _ E). by apply Hb.
  - unfold frame. by rewrite (M_bind_Ok _ _ _ _ _ Hc).
Qed.

Lemma ifioctl_frame so cmd data s :
  is_Some (n_socks s !! so) → referenced s → fits cmd data → frame (ifioctl so cmd data) s.
Proof.
  intros [sk Hso] Hr Hf. unfold ifioctl. eapply frame_get_so; [exact Hso |].
  assert (frame (o ← ifunit_ref (data_name data);
      match o with
      | None => mret (ENXIO, data)
      | Some i =>
          '(error, data) ← ifhwioctl cmd i data;
          if negb (error =? ENOIOCTL) then _ ← if_rele i; mret (error, data)
          else if negb (so_proto sk) then _ ← if_rele i; mret (EOPNOTSUPP, data)
          else error ← protocol_request i cmd data; _ ← if_rele i; mret (error, data)
      end) s) as Hmain.
  { apply frame_found; [| apply frame_ret]. intros i x Hx s1. specialize (Hr i x Hx).
    assert (n_ifnets s1 !! i = Some (set_refcount (if_refcount x + 1) x)) as Hx1.
    { apply list_lookup_insert_eq. by eapply lookup_lt_Some. }
    destruct (frame_ifhwioctl cmd i data s1 _ Hx1 Hf) as ([e d] & s2 & E2 & H2).
    rewrite (M_bind_Ok _ _ _ _ _ E2). cbn beta iota.
    assert (∀ (s2 : st) (e : Z), same s1 s2 → ∃ a s', (_ ← if_rele i; mret (e, d)) s2 = Ok (a, s') ∧ same s s') as Hend.
    { intros s' e' Hs'. destruct (rele_same s s' i x Hx Hr Hs') as (s3 & E3 & H3).
      rewrite (M_bind_Ok _ _ _ _ _ E3). by eexists _, _. }
    destruct (negb (e =? ENOIOCTL)); [by apply Hend |]. destruct (negb (so_proto sk)); [by apply Hend |].
    destruct (same_lookup _ _ _ _ H2 Hx1) as (y & Hy & _).
    destruct (frame_protocol i cmd d s2 y Hy) as (e' & s3 & E3 & H3). rewrite (M_bind_Ok _ _ _ _ _ E3).
    apply Hend. by transitivity s2. }
  destruct cmd; try exact Hmain. apply frame_bind; [apply frame_kern | intros; apply frame_ret].
Qed.

(** ** What the requests do *)

Definition with_if (i : nat) (x : ifnet) (s : st) : st := set_ifnets (<[i := x]> (n_ifnets s)) s.

Lemma with_if_with_if i x y s : with_if i x (with_if i y s) = with_if i x s.
Proof. unfold with_if, set_ifnets. cbn. by rewrite list_insert_insert_eq. Qed.

Lemma with_if_id i x s : n_ifnets s !! i = Some x → with_if i x s = s.
Proof. intros Hx. unfold with_if, set_ifnets. rewrite list_insert_id by done. by destruct s. Qed.

Lemma get_if_with i x s : (i < length (n_ifnets s))%nat → get_if i (with_if i x s) = Ok (x, with_if i x s).
Proof. intros Hi. unfold get_if, with_if. cbn. by rewrite list_lookup_insert_eq. Qed.

Lemma put_if_with i x y s : put_if i x (with_if i y s) = Ok ((), with_if i x s).
Proof. unfold put_if, modify. f_equal. f_equal. apply with_if_with_if. Qed.

Lemma rele_exact i y s :
  (i < length (n_ifnets s))%nat → if_refcount y ≠ 1 →
  if_rele i (with_if i y s) = Ok ((), with_if i (set_refcount (if_refcount y - 1) y) s).
Proof.
  intros Hi Hy. unfold if_rele. rewrite (M_bind_Ok _ _ _ _ _ (get_if_with i y s Hi)).
  rewrite (proj2 (Z.eqb_neq _ 1)) by done. apply put_if_with.
Qed.

Definition find_unit (name : str) (s : st) : option (nat * ifnet) :=
  list_find (fun x => unit_matches name x = true) (n_ifnets s).

Definition ref (x : ifnet) : ifnet := set_refcount (if_refcount x + 1) x.

(** A request that the first switch serves. *)
Lemma ifioctl_hw so sk cmd data s i x e data' y k :
  n_socks s !! so = Some sk → cmd ≠ SIOCIFCREATE → find_unit (data_name data) s = Some (i, x) →
  ifhwioctl cmd i data (with_if i (ref x) s) = Ok ((e, data'), with_if i y (set_kern k s)) →
  e ≠ ENOIOCTL → if_refcount y = if_refcount x + 1 → 1 <= if_refcount x →
  ifioctl so cmd data s = Ok ((e, data'), with_if i (set_refcount (if_refcount x) y) (set_kern k s)).
Proof.
  intros Hso Hcmd Hf Hw He Hy Hr. unfold ifioctl.
  rewrite (M_bind_Ok _ _ _ sk s) by (unfold get_so; by rewrite Hso).
  pose proof (ifunit_ref_cases (data_name data) s) as Hc. unfold find_unit in Hf. rewrite Hf in Hc. destruct Hc as [Hx E].
  assert ((i < length (n_ifnets s))%nat) as Hi by (by eapply lookup_lt_Some).
  destruct cmd; try done; rewrite (M_bind_Ok _ _ _ _ _ E), (M_bind_Ok _ _ _ _ _ Hw); cbn beta iota;
    rewrite (proj2 (Z.eqb_neq e ENOIOCTL)) by done; cbn [negb];
    rewrite (M_bind_Ok _ _ _ _ _ (rele_exact i y (set_kern k s) Hi ltac:(lia))), Hy;
    by replace (if_refcount x + 1 - 1) with (if_refcount x) by lia.
Qed.

Lemma set_refcount_id x : set_refcount (if_refcount x) (ref x) = x.
Proof. by destruct x. Qed.

Lemma giff_exact so s r :
  is_Some (n_socks s !! so) → referenced s →
  ifioctl so SIOCGIFFLAGS (DIfr r) s =
    Ok (match find_unit (ifr_name r) s with Some (_, x) => (0, DIfr (get_flags x r)) | None => (ENXIO, DIfr r) end, s).
Proof.
  intros [sk Hso] Hr. destruct (find_unit (ifr_name r) s) as [[i x] |] eqn:Hf.
  - apply list_find_Some in Hf as Hx. destruct Hx as [Hx _].
    rewrite (ifioctl_hw so sk SIOCGIFFLAGS (DIfr r) s i x 0 (DIfr (get_flags x r)) (ref x) (n_kern s)); try done.
    + rewrite set_refcount_id. do 2 f_equal. replace (set_kern (n_kern s) s) with s by (by destruct s). by apply with_if_id.
    + replace (set_kern (n_kern s) s) with s by (by destruct s). cbn [ifhwioctl].
      by rewrite (M_bind_Ok _ _ _ _ _ (get_if_with i (ref x) s ltac:(by eapply lookup_lt_Some))).
    + by apply (Hr i).
  - unfold ifioctl. rewrite (M_bind_Ok _ _ _ sk s) by (unfold get_so; by rewrite Hso).
    pose proof (ifunit_ref_cases (ifr_name r) s) as Hc. unfold find_unit in Hf. rewrite Hf in Hc.
    by rewrite (M_bind_Ok _ _ _ _ _ Hc).
Qed.

(** The flags after each part of [SIOCSIFFLAGS]. *)
Definition flags1 (f nf : Z) : Z :=
  if has_flag f IFF_SMART then f
  else if has_flag f IFF_UP && negb (has_flag nf IFF_UP) then clear_flag f IFF_UP
  else if has_flag nf IFF_UP && negb (has_flag f IFF_UP) then Z.lor f IFF_UP else f.
Definition flags2 (f nf pcount : Z) : Z :=
  if has_flag (Z.lxor f nf) IFF_PPROMISC then
    if has_flag nf IFF_PPROMISC then Z.lor f IFF_PROMISC
    else if pcount =? 0 then clear_flag f IFF_PROMISC else f
  else f.
Definition flags3 (f nf pcount : Z) : Z :=
  Z.lor (Z.land (flags2 (flags1 f nf) nf pcount) IFF_CANTCHANGE) (clear_flag nf IFF_CANTCHANGE).

Lemma set_flags_id x : set_flags (if_flags x) x = x.
Proof. by destruct x. Qed.

Lemma flip_up_exact nf i x s :
  (i < length (n_ifnets s))%nat →
  ∃ k, flip_up nf i (with_if i x s) = Ok ((), with_if i (set_flags (flags1 (if_flags x) nf) x) (set_kern k s)).
Proof.
  intros Hi. unfold flip_up, flags1. rewrite (M_bind_Ok _ _ _ _ _ (get_if_with i x s Hi)).
  assert (set_kern (n_kern s) s = s) as Hk by (by destruct s).
  destruct (has_flag (if_flags x) IFF_SMART); [exists (n_kern s); by rewrite set_flags_id, Hk |].
  destruct (_ && _); [| destruct (_ && _); [| exists (n_kern s); by rewrite set_flags_id, Hk]];
    unfold if_down, if_up, if_unroute, if_route; rewrite (M_bind_Ok _ _ _ _ _ (get_if_with i x s Hi));
    rewrite (M_bind_Ok _ _ _ _ _ (put_if_with i _ x s)); by eexists.
Qed.

Lemma flip_promisc_exact nf i x s :
  (i < length (n_ifnets s))%nat →
  flip_promisc nf i (with_if i x s) = Ok ((), with_if i (set_flags (flags2 (if_flags x) nf (if_pcount x)) x) s).
Proof.
  intros Hi. unfold flip_promisc, flags2. rewrite (M_bind_Ok _ _ _ _ _ (get_if_with i x s Hi)).
  destruct (has_flag (Z.lxor _ _) _); [| by rewrite set_flags_id].
  destruct (has_flag nf _); [apply put_if_with |]. destruct (if_pcount x =? 0); [apply put_if_with | by rewrite set_flags_id].
Qed.

Lemma call_out_exact f i cmd data x s e fl dfl k :
  (i < length (n_ifnets s))%nat → f x cmd data (n_kern s) = ((e, fl, dfl), k) →
  call_out f i cmd data (with_if i x s) = Ok (e, with_if i (set_drv_flags dfl (set_flags fl x)) (set_kern k s)).
Proof.
  intros Hi Hf. unfold call_out. rewrite (M_bind_Ok _ _ _ _ _ (get_if_with i x s Hi)).
  rewrite (M_bind_Ok _ _ _ (e, fl, dfl) (with_if i x (set_kern k s))) by (unfold on_kern; cbn; by rewrite Hf).
  cbn beta iota. by rewrite (M_bind_Ok _ _ _ _ _ (put_if_with i _ x _)).
Qed.

(** The driver is called with the new flags, and what it leaves is kept. *)
Lemma sifflags_exact i r x s :
  (i < length (n_ifnets s))%nat →
  let y := set_flags (flags3 (if_flags x) (new_flags r) (if_pcount x)) x in
  ∃ k1, let '((_, fl, dfl), k2) := if if_ioctl x then k_if_ioctl y SIOCSIFFLAGS (DIfr r) k1 else ((0, if_flags y, if_drv_flags x), k1) in
    sifflags i r (with_if i x s) = Ok (0, with_if i (set_drv_flags dfl (set_flags fl y)) (set_kern k2 s)).
Proof.
  intros Hi y. destruct (flip_up_exact (new_flags r) i x s Hi) as (k1 & E1). exists k1. set (s1 := set_kern k1 s) in *.
  set (f1 := flags1 _ _) in *. assert ((i < length (n_ifnets s1))%nat) as Hi1 by done.
  destruct (if if_ioctl x then _ else _) as [[[e fl] dfl] k2] eqn:Ed.
  unfold sifflags. rewrite (M_bind_Ok _ _ _ _ _ E1).
  rewrite (M_bind_Ok _ _ _ _ _ (flip_promisc_exact (new_flags r) i (set_flags f1 x) s1 Hi1)).
  cbn [if_flags if_pcount set_flags].
  set (x2 := set_flags _ (set_flags f1 x)). rewrite (M_bind_Ok _ _ _ _ _ (get_if_with i x2 s1 Hi1)).
  change (set_flags (Z.lor (Z.land (if_flags x2) IFF_CANTCHANGE) (clear_flag (new_flags r) IFF_CANTCHANGE)) x2) with y.
  rewrite (M_bind_Ok _ _ _ _ _ (put_if_with i y x2 s1)). change (if_ioctl x2) with (if_ioctl x).
  destruct (if_ioctl x).
  - by rewrite (M_bind_Ok _ _ _ _ _ (call_out_exact k_if_ioctl i SIOCSIFFLAGS (DIfr r) y s1 e fl dfl k2 Hi1 Ed)).
  - rewrite (M_bind_Ok _ _ _ 0 (with_if i y s1)) by done. by simplify_eq.
Qed.

(** ** Going up *)

(** The flags [uinet_interface_up] adds to those an interface has. *)
Definition added_flags (promisc promiscinet : bool) (f : Z) : Z :=
  Z.lor IFF_UP
    (Z.lor (if promisc then Z.lor IFF_PPROMISC (if has_flag f IFF_PPROMISC then 0 else IFF_PROMISC) else 0)
       (if promiscinet then IFF_PROMISCINET else 0)).

Lemma has_flag_lor_any a b c : has_flag (Z.lor a b) c = has_flag a c || has_flag b c.
Proof.
  unfold has_flag. rewrite Z.land_comm, Z.land_lor_distr_r, !(Z.land_comm c).
  destruct (Z.eqb_spec (Z.land a c) 0) as [-> | Ha]; [by rewrite Z.lor_0_l |]. cbn [negb orb].
  apply negb_true_iff, Z.eqb_neq. intros E. apply Z.lor_eq_0_iff in E as [E _]. done.
Qed.

(** The bits the call puts into the request. *)
Definition asked (promisc promiscinet : bool) : Z :=
  Z.lor (if promisc then 2 else 0) (if promiscinet then 128 else 0).

Lemma new_flags_up p q x r :
  - 2 ^ 31 <= if_flags x < 2 ^ 31 → - 2 ^ 31 <= if_drv_flags x < 2 ^ 31 → clear_flag (if_drv_flags x) 0x440 = 0 →
  new_flags (raise_flags p q (get_flags x r)) =
    Z.lor (Z.lor (if_flags x) (if_drv_flags x)) (Z.lor 1 (Z.shiftl (asked (negb (p =? 0)) (negb (q =? 0))) 16)).
Proof.
  intros Hf Hd Hc. set (t := Z.lor (if_flags x) (if_drv_flags x)).
  assert (- 2 ^ 31 <= t < 2 ^ 31) as Ht.
  { apply lor_bounded; [lia | done |]. split; [| lia]. destruct (decide (0 <= if_drv_flags x)) as [| Hn]; [done |].
    exfalso. assert (Z.testbit (clear_flag (if_drv_flags x) 0x440) 31 = true) as Hb; [| by rewrite Hc in Hb].
    unfold clear_flag. rewrite Z.land_spec, Z.lnot_spec by lia.
    rewrite (proj1 (Z.bounded_iff_bits 31 (if_drv_flags x) ltac:(lia)) Hd 31) by lia. by rewrite bool_decide_eq_true_2 by lia. }
  rewrite <- (new_flags_raised (ifr_name r) t) by (exact Ht || lia || (destruct (p =? 0), (q =? 0); vm_compute; split; congruence)).
  f_equal. unfold raise_flags, get_flags. cbn [ifr_flags ifr_flagshigh ifr_name]. fold t. f_equal.
  unfold asked. destruct (p =? 0), (q =? 0); cbn [negb]; rewrite ?Z.lor_0_r, <- ?Z.lor_assoc; done.
Qed.

Lemma flags3_up f d pcount (p q : bool) :
  clear_flag d 0x440 = 0 →
  flags3 f (Z.lor (Z.lor f d) (Z.lor 1 (Z.shiftl (asked p q) 16))) pcount = Z.lor f (added_flags p q f).
Proof.
  intros Hd. set (b := Z.lor 1 _). set (nf := Z.lor _ b).
  assert (∀ m, Z.land 0x440 m = 0 → has_flag d m = false) as Hdm.
  { intros m Hm. unfold has_flag. apply negb_false_iff, Z.eqb_eq. rewrite (land_split d 0x440), Hd, Z.lor_0_r, <- Z.land_assoc, Hm.
    apply Z.land_0_r. }
  assert (has_flag nf IFF_UP = true) as Hup.
  { unfold nf. rewrite !has_flag_lor_any. destruct p, q; by rewrite orb_true_r. }
  assert (has_flag nf IFF_PPROMISC = has_flag f IFF_PPROMISC || p) as Hpp.
  { unfold nf. rewrite has_flag_lor_any, has_flag_lor_any, (Hdm IFF_PPROMISC), orb_false_r by done. f_equal. by destruct p, q. }
  set (a1 := if has_flag f IFF_SMART || has_flag f IFF_UP then 0 else IFF_UP).
  assert (flags1 f nf = Z.lor f a1) as E1.
  { unfold flags1, a1. rewrite Hup. cbn [negb andb]. rewrite andb_false_r.
    destruct (has_flag f IFF_SMART), (has_flag f IFF_UP); cbn; by rewrite ?Z.lor_0_r. }
  set (a2 := if p && negb (has_flag f IFF_PPROMISC) then IFF_PROMISC else 0).
  assert (flags2 (Z.lor f a1) nf pcount = Z.lor f (Z.lor a1 a2)) as E2.
  { unfold flags2. rewrite Hpp. change IFF_PPROMISC with (2 ^ 17) at 1. rewrite has_flag_pow2, Z.lxor_spec by done.
    rewrite <- !has_flag_pow2 by done. change (2 ^ 17) with IFF_PPROMISC. rewrite Hpp, has_flag_lor_any.
    assert (has_flag a1 IFF_PPROMISC = false) as -> by (unfold a1; destruct (has_flag f IFF_SMART || has_flag f IFF_UP); reflexivity). rewrite orb_false_r.
    unfold a2. destruct (has_flag f IFF_PPROMISC), p; cbn; rewrite ?Z.lor_0_r; by rewrite ?Z.lor_assoc. }
  unfold flags3. rewrite E1, E2. unfold nf. rewrite flags_mixed.
  - f_equal. unfold a1, a2, b, added_flags. destruct p, q, (has_flag f IFF_SMART || _), (has_flag f IFF_PPROMISC); reflexivity.
  - apply Z.bits_inj'. intros i Hi. rewrite Z.bits_0. change (Z.land d (Z.lnot IFF_CANTCHANGE)) with (clear_flag d IFF_CANTCHANGE).
    rewrite (land_split d 0x440), Hd, Z.lor_0_r. unfold clear_flag. rewrite <- Z.land_assoc. change (Z.land 1088 (Z.lnot IFF_CANTCHANGE)) with 0.
    by rewrite Z.land_0_r, Z.bits_0.
Qed.

End Frame.

(** ** Beginning and ending *)

Lemma snprintf_s size (n : str) :
  1 <= size → snprintf size (Some (lit "%s")) [AStr (Some n)] =
    Ok (Z.of_nat (length n), take (Z.to_nat (size - 1)) (u8 <$> n) ++ [0]).
Proof.
  intros Hs. assert (kvprintf (Some (lit "%s")) 10 [AStr (Some n)] = Ok (u8 <$> n, [])) as Hk.
  { set (S0 := mk_kst Text [] [AStr (Some n)] []).
    assert (run 10 (lit "%s") S0 = (t ← conv_s no_flags S0; Ok t)) as E by reflexivity.
    unfold kvprintf. change ((10 <? 2) || (36 <? 10)) with false. cbn [default from_option id]. cbv iota. fold S0.
    rewrite E. unfold conv_s. cbn [k_args S0 va_str mbind result_bind default from_option dot ladjust width padc no_flags id].
    rewrite pad_neg by lia. cbn [app emit k_mode k_out k_vars]. by rewrite app_nil_r. }
  destruct (vsnrprintf_truncates size 10 _ _ _ _ ltac:(lia) Hk) as (bytes & E & -> & _).
  unfold snprintf, vsnprintf. rewrite E, (proj2 (Z.eqb_neq size 0)) by lia. by rewrite length_fmap.
Qed.

Section Calls.

Context {D K : Type} `{IfDriverLaws D} `{NetKernel K}.

Abbreviation st := (net D K).

(** The name as it is put into the request. *)
Definition req_name (u : uinet_if) : str := take 15 (u8 <$> uif_name u).

Definition new_so (s : st) : nat := fresh (dom (n_socks s) : gset nat).
Definition with_so (k : K) (s : st) : st := set_socks (<[new_so s := mk_so true]> (n_socks s)) (set_kern k s).

Lemma new_so_free (s : st) : n_socks s !! new_so s = None.
Proof. unfold new_so. apply (not_elem_of_dom (D := gset nat)), is_fresh. Qed.

Lemma begin_cases name (s : st) :
  reg_ok (n_reg s) →
  ∃ o, uinet_iffind_byname name (n_reg s) = Ok (o, n_reg s) ∧
  match o with
  | None => uinet_ifconfig_begin name s = Ok ((EINVAL, O, []), s)
  | Some p => ∃ u, r_ifs (n_reg s) !! p = Some u ∧
      let '(e, k) := k_socreate (n_kern s) in
      if e =? 0 then uinet_ifconfig_begin name s = Ok ((0, new_so s, req_name u), with_so k s)
      else uinet_ifconfig_begin name s = Ok ((e, new_so s, []), set_kern k s)
  end.
Proof.
  intros Hr. destruct (find_spec name (n_reg s) Hr) as (o & E & Ho). exists o. split; [done |].
  assert (on_reg (uinet_iffind_byname name) s = Ok (o, s)) as E1 by (unfold on_reg; rewrite E; by destruct s).
  unfold uinet_ifconfig_begin. rewrite (M_bind_Ok _ _ _ _ _ E1). destruct o as [p |]; [| done].
  destruct Ho as (u & Hu & _). exists u. split; [done |].
  assert (on_reg (uif_load p) s = Ok (u, s)) as E2 by (unfold on_reg, uif_load; rewrite Hu; by destruct s).
  rewrite (M_bind_Ok _ _ _ _ _ E2). destruct (k_socreate (n_kern s)) as [e k] eqn:Ek.
  assert (on_kern k_socreate s = Ok (e, set_kern k s)) as E3 by (unfold on_kern; by rewrite Ek).
  unfold socreate. rewrite <- M_bind_assoc, (M_bind_Ok _ _ _ _ _ E3).
  rewrite <- M_bind_assoc, (M_bind_Ok _ _ _ (new_so s) (set_kern k s)) by done.
  destruct (Z.eqb_spec e 0) as [-> | Hne].
  - erewrite M_bind_Ok by reflexivity. cbn beta iota. cbn [Z.eqb negb].
    erewrite M_bind_Ok by (rewrite snprintf_s by done; reflexivity). cbn beta iota.
    unfold mret, M_ret. by rewrite removelast_last.
  - rewrite (M_bind_Ok _ _ _ (e, new_so s) (set_kern k s)) by done. cbn beta iota.
    by rewrite (proj2 (Z.eqb_neq e 0)).
Qed.

(** Closing the socket again. *)
Lemma end_same (s s' : st) k :
  same (with_so k s) s' → ∃ s'', uinet_ifconfig_end (new_so s) s' = Ok ((), s'') ∧ same s s''.
Proof.
  intros [E1 E2 E3]. eexists. unfold uinet_ifconfig_end, soclose.
  assert (n_socks s' !! new_so s = Some (mk_so true)) as E0 by (rewrite E2; apply lookup_insert_eq).
  rewrite (M_bind_Ok _ _ _ (mk_so true) s') by (unfold get_so; by rewrite E0).
  split; [reflexivity |]. split; [done | | done]. cbn. rewrite E2. cbn. by rewrite delete_insert_id by apply new_so_free.
Qed.

(** A call that begins, works with the socket and ends. *)
Definition config_of (name : str) (work : nat → str → M st Z) : M st Z :=
  '(error, so, n) ← uinet_ifconfig_begin name;
  if negb (error =? 0) then mret error else a ← work so n; _ ← uinet_ifconfig_end so; mret a.

Lemma frame_config name (s : st) (work : nat → str → M st Z) :
  reg_ok (n_reg s) → (∀ k so n s', is_Some (n_socks s' !! so) → same (with_so k s) s' → frame (work so n) s') →
  frame (config_of name work) s.
Proof.
  intros Hr Hw. destruct (begin_cases name s Hr) as (o & _ & Ho). unfold frame, config_of.
  destruct o as [p |]; [| rewrite (M_bind_Ok _ _ _ _ _ Ho); by eexists _, _].
  destruct Ho as (u & _ & Hu). destruct (k_socreate (n_kern s)) as [e k]. destruct (Z.eqb_spec e 0) as [-> | Hne].
  - rewrite (M_bind_Ok _ _ _ _ _ Hu). cbn beta iota. cbn [Z.eqb negb].
    destruct (Hw k (new_so s) (req_name u) (with_so k s)) as (a & s1 & E1 & Hs1); [| done |].
    { cbn. rewrite lookup_insert_eq. by eexists. }
    rewrite (M_bind_Ok _ _ _ _ _ E1). destruct (end_same s s1 k Hs1) as (s2 & E2 & Hs2).
    rewrite (M_bind_Ok _ _ _ _ _ E2). by eexists _, _.
  - rewrite (M_bind_Ok _ _ _ _ _ Hu). cbn beta iota. rewrite (proj2 (Z.eqb_neq e 0)) by done. by eexists _, _.
Qed.

(** The calls an application makes, with what their variables on the stack hold. *)
Inductive config_call : Type :=
| CallUp (stack : ifreq) (name : str) (promisc promiscinet : Z)
| CallAlias (stack : in_aliasreq) (name addr : str) (braddr mask : option str)
| CallCreate (stack : ifreq) (name : str).

Definition run_call (c : config_call) : M st Z :=
  match c with
  | CallUp stack name promisc promiscinet => uinet_interface_up stack name promisc promiscinet
  | CallAlias stack name addr braddr mask => uinet_interface_add_alias stack name (Some addr) braddr mask
  | CallCreate stack name => uinet_interface_create stack name
  end.

Fixpoint run_calls (l : list config_call) : M st (list Z) :=
  match l with
  | [] => mret []
  | c :: t => e ← run_call c; es ← run_calls t; mret (e :: es)
  end.

Lemma frame_do_fst so cmd data s :
  is_Some (n_socks s !! so) → referenced s → fits cmd data →
  frame (D := D) ('(error, _) ← uinet_ifconfig_do so cmd data; mret error) s.
Proof. intros. apply frame_bind; [by apply ifioctl_frame |]. intros [] ? _. apply frame_ret. Qed.

Lemma frame_alias_request so name addr braddr mask stack s :
  is_Some (n_socks s !! so) → referenced s → frame (D := D) (alias_request so name (Some addr) braddr mask stack) s.
Proof.
  intros Hso Hr. unfold alias_request. unfold frame. erewrite M_bind_Ok by reflexivity.
  destruct (set_addr addr); [| apply frame_ret]. destruct (optional_addr braddr _); [| apply frame_ret].
  destruct (optional_addr mask _); [| apply frame_ret]. by apply frame_do_fst.
Qed.

(** What [uinet_interface_up] does between opening and closing the socket. *)
Definition up_work (so : nat) (r : ifreq) (promisc promiscinet : Z) : M st Z :=
  '(error, data) ← uinet_ifconfig_do so SIOCGIFFLAGS (DIfr r);
  match data with
  | DIfr r =>
      if error =? 0
      then '(error, _) ← uinet_ifconfig_do so SIOCSIFFLAGS (DIfr (raise_flags promisc promiscinet r)); mret error
      else mret error
  | DIna _ => faultM BadPointer
  end.

Lemma frame_up_work so r promisc promiscinet s :
  is_Some (n_socks s !! so) → referenced s → frame (up_work so r promisc promiscinet) s.
Proof.
  intros Hso Hr. unfold frame, up_work. rewrite (M_bind_Ok _ _ _ _ _ (giff_exact so s r Hso Hr)).
  destruct (find_unit (ifr_name r) s) as [[i x] |]; cbn beta iota; [by apply frame_do_fst | apply frame_ret].
Qed.

Lemma interface_up_config stack name p q s :
  uinet_interface_up stack name p q s =
    config_of name (fun so n => up_work so (mk_ifr n (ifr_flags stack) (ifr_flagshigh stack)) p q) s.
Proof.
  unfold uinet_interface_up, config_of, mbind, M_bind. destruct (uinet_ifconfig_begin name s) as [[[[e so] n] s1] |]; [| done].
  destruct (negb (e =? 0)); [done |]. unfold up_work, mbind, M_bind. by destruct (uinet_ifconfig_do _ _ _ s1) as [[[e' d] s2] |].
Qed.

Lemma interface_create_config stack name s :
  uinet_interface_create stack name s =
    config_of name (fun so n => '(error, _) ← uinet_ifconfig_do so SIOCIFCREATE (DIfr (mk_ifr n (ifr_flags stack) (ifr_flagshigh stack)));
                                mret error) s.
Proof.
  unfold uinet_interface_create, config_of, mbind, M_bind.
  destruct (uinet_ifconfig_begin name s) as [[[[e so] n] s1] |]; [| done].
  destruct (negb (e =? 0)); [done |]. by destruct (uinet_ifconfig_do _ _ _ s1) as [[[e' d] s2] |].
Qed.

(** Every call returns and gives back what it took. *)
Lemma frame_call c s : reg_ok (n_reg s) → referenced s → frame (run_call c) s.
Proof.
  intros Hr Hrc.
  assert (∀ k s', same (with_so k s) s' → referenced s') as Hrc'.
  { intros k s' Hs. by eapply (referenced_same (with_so k s)). }
  destruct c as [stack name p q | stack name addr b m | stack name]; cbn [run_call]; unfold frame.
  - rewrite interface_up_config. apply frame_config; [done |]. intros. apply frame_up_work; eauto.
  - apply (frame_config name s (fun so n => alias_request so n (Some addr) b m stack) Hr).
    intros. apply frame_alias_request; eauto.
  - rewrite interface_create_config. apply frame_config; [done |]. intros. by apply frame_do_fst; eauto.
Qed.

(** [C31] Any sequence of calls that bring interfaces up, give them addresses or create them,
    for every behaviour of the kernel's routines and drivers: each call returns an error
    number, and afterwards no configuration socket is left open, every interface of the
    stack has the references it had, and the registry is as before. *)
Theorem ifconfig_calls_balanced (l : list config_call) (s : st) :
  reg_ok (n_reg s) → referenced s →
  ∃ es s', run_calls l s = Ok (es, s') ∧ length es = length l ∧
    n_socks s' = n_socks s ∧ n_reg s' = n_reg s ∧ shape <$> n_ifnets s' = shape <$> n_ifnets s.
Proof.
  revert s. induction l as [| c l IH]; intros s Hr Hrc; cbn [run_calls]; [by exists [], s |].
  destruct (frame_call c s Hr Hrc) as (e & s1 & E & Hs). rewrite (M_bind_Ok _ _ _ _ _ E).
  destruct (IH s1) as (es & s2 & E2 & Hl & Hso & Hreg & Hsh).
  { by rewrite (sm_reg _ _ Hs). } { by eapply referenced_same. }
  rewrite (M_bind_Ok _ _ _ _ _ E2). exists (e :: es), s2. destruct Hs. cbn [length]. split_and!; try done; congruence.
Qed.

End Calls.

(** ** What the calls do *)

(** The flags of an interface belong to the stack, its driver flags to the driver; only an
    address changes one of the former, which makes the interface go up. *)
Class NetKernelLaws (K : Type) `{NetKernel K} : Prop := {
  k_if_ioctl_flags : ∀ x r k, (k_if_ioctl x SIOCSIFFLAGS (DIfr r) k).1.1.2 = if_flags x;
  k_alias_flags : ∀ (ask : ifnet → ioctl_cmd → ioctl_data → K → (Z * Z * Z) * K) x a k,
    ask = k_pru_control ∨ ask = k_if_ioctl →
    (ask x SIOCAIFADDR (DIna a) k).1.1.2 = if_flags x ∨ (ask x SIOCAIFADDR (DIna a) k).1.1.2 = Z.lor (if_flags x) IFF_UP
}.

Section Up.

Context {D K : Type} `{IfDriverLaws D} `{NetKernelLaws K}.

Abbreviation st := (net D K).

(** Words that an [int] holds; a driver has two flags. *)
Definition flags_ok (x : ifnet) : Prop :=
  - 2 ^ 31 <= if_flags x < 2 ^ 31 ∧ - 2 ^ 31 <= if_drv_flags x < 2 ^ 31 ∧ clear_flag (if_drv_flags x) 0x440 = 0.

(** The flags of an interface that went up. *)
Definition up_flags (p q : Z) (x : ifnet) : Z :=
  Z.lor (if_flags x) (added_flags (negb (p =? 0)) (negb (q =? 0)) (if_flags x)).

(** What the driver answers when it is told. *)
Definition driver_told (p q : Z) (x : ifnet) (dfl : Z) (k : K) : Prop :=
  if if_ioctl x then ∃ req k0 e, k_if_ioctl (set_flags (up_flags p q x) (ref x)) SIOCSIFFLAGS (DIfr req) k0 =
                                   ((e, up_flags p q x, dfl), k)
  else dfl = if_drv_flags x.

Lemma up_work_exact so r p q (s : st) i x :
  is_Some (n_socks s !! so) → referenced s → find_unit (ifr_name r) s = Some (i, x) → flags_ok x →
  ∃ dfl k, up_work so r p q s = Ok (0, with_if i (set_drv_flags dfl (set_flags (up_flags p q x) x)) (set_kern k s)) ∧
    driver_told p q x dfl k.
Proof.
  intros Hso Hr Hf (F1 & F2 & F3). apply list_find_Some in Hf as Hx. destruct Hx as [Hx _].
  assert ((i < length (n_ifnets s))%nat) as Hi by (by eapply lookup_lt_Some). pose proof (Hr i x Hx) as Hrc.
  set (r' := raise_flags p q (get_flags x r)).
  destruct (sifflags_exact i r' (ref x) s Hi) as (k0 & E). cbn [if_flags if_pcount if_ioctl ref set_refcount] in E.
  assert (flags3 (if_flags x) (new_flags r') (if_pcount x) = up_flags p q x) as Ef.
  { unfold r'. rewrite (new_flags_up p q x r F1 F2 F3). by apply flags3_up. }
  fold (ref x) in E. rewrite Ef in E.
  destruct (if if_ioctl x then _ else _) as [[[e fl] dfl] k] eqn:Ed.
  assert (fl = up_flags p q x) as ->.
  { destruct (if_ioctl x); [| by simplify_eq].
    pose proof (k_if_ioctl_flags (set_flags (up_flags p q x) (ref x)) r' k0) as Hl. by rewrite Ed in Hl. }
  exists dfl, k. split.
  - unfold up_work. rewrite (M_bind_Ok _ _ _ _ _ (giff_exact so s r Hso Hr)), Hf. cbn beta iota. cbn [Z.eqb].
    destruct Hso as [sk Hso].
    erewrite M_bind_Ok; [| eapply (ifioctl_hw so sk SIOCSIFFLAGS (DIfr r') s i x 0 (DIfr r'))]; [| done | done | exact Hf | | done | | done].
    2: { cbn [ifhwioctl]. rewrite (M_bind_Ok _ _ _ _ _ E). reflexivity. }
    2: done.
    done.
  - unfold driver_told. destruct (if_ioctl x); [by exists r', k0, e | by simplify_eq].
Qed.

(** The registry's interface, the socket, and then [found] with what the work gives. *)
Definition configured (name : str) (s : st) (call : st → result (Z * st)) (found : uinet_if → K → Prop) : Prop :=
  ∃ o, uinet_iffind_byname name (n_reg s) = Ok (o, n_reg s) ∧
  match o with
  | None => call s = Ok (EINVAL, s)
  | Some p => ∃ u, r_ifs (n_reg s) !! p = Some u ∧
      let '(e, k1) := k_socreate (n_kern s) in
      if e =? 0 then found u k1 else call s = Ok (e, set_kern k1 s)
  end.

Lemma config_exact name (s : st) (call : M st Z) (work : nat → str → M st Z) found :
  reg_ok (n_reg s) → call s = config_of name work s →
  (∀ u k1, ∃ e s1, work (new_so s) (req_name u) (with_so k1 s) = Ok (e, s1) ∧
     n_socks s1 = <[new_so s := mk_so true]> (n_socks s) ∧
     (call s = Ok (e, set_socks (n_socks s) s1) → found u k1)) →
  configured name s call found.
Proof.
  intros Hr Ecall Hw. destruct (begin_cases name s Hr) as (o & Eo & Ho). exists o. split; [done |].
  rewrite Ecall in *. unfold config_of in *.
  destruct o as [p |]; [| by rewrite (M_bind_Ok _ _ _ _ _ Ho)].
  destruct Ho as (u & Hu & Hb). exists u. split; [done |]. destruct (k_socreate (n_kern s)) as [e k1].
  destruct (Z.eqb_spec e 0) as [-> | Hne].
  - destruct (Hw u k1) as (e & s1 & E & Eso & Hf). apply Hf. rewrite (M_bind_Ok _ _ _ _ _ Hb). cbn beta iota.
    cbn [Z.eqb negb]. rewrite (M_bind_Ok _ _ _ _ _ E).
    assert (uinet_ifconfig_end (new_so s) s1 = Ok ((), set_socks (n_socks s) s1)) as Ee.
    { unfold uinet_ifconfig_end, soclose.
      assert (n_socks s1 !! new_so s = Some (mk_so true)) as E0 by (rewrite Eso; apply lookup_insert_eq).
      rewrite (M_bind_Ok _ _ _ (mk_so true) s1) by (unfold get_so; by rewrite E0).
      unfold modify. rewrite Eso, delete_insert_id by apply new_so_free. done. }
    by rewrite (M_bind_Ok _ _ _ _ _ Ee).
  - rewrite (M_bind_Ok _ _ _ _ _ Hb). cbn beta iota. by rewrite (proj2 (Z.eqb_neq e 0)).
Qed.

Lemma so_with_so k (s : st) : is_Some (n_socks (with_so k s) !! new_so s).
Proof. cbn. rewrite lookup_insert_eq. by eexists. Qed.

(** What [uinet_interface_up] does on every branch.  Without an interface of that name it
    answers EINVAL, when no socket can be made it gives that error, and when the stack has
    no live interface of the name it answers ENXIO; none of these changes an interface.
    Otherwise it succeeds: the interface's flags are what they were with UP, and
    the promiscuous modes asked for, added and no other flag changed, none lost, and none
    of the driver's among them; the driver has been told with the new flags in place, and
    its own flags are those it then set.  Nothing else is different. *)
Theorem uinet_interface_up_raises (stack : ifreq) (name : str) (promisc promiscinet : Z) (s : st) :
  reg_ok (n_reg s) → referenced s → Forall flags_ok (n_ifnets s) →
  let up := uinet_interface_up stack name promisc promiscinet in
  configured name s up (fun u k1 =>
    match find_unit (req_name u) s with
    | None => up s = Ok (ENXIO, set_kern k1 s)
    | Some (i, x) => ∃ dfl k,
        up s = Ok (0, with_if i (set_drv_flags dfl (set_flags (up_flags promisc promiscinet x) x)) (set_kern k s)) ∧
        driver_told promisc promiscinet x dfl k
    end).
Proof.
  intros Hr Hrc Hfl up. eapply config_exact; [done | apply interface_up_config |]. intros u k1.
  set (r := mk_ifr (req_name u) (ifr_flags stack) (ifr_flagshigh stack)).
  destruct (find_unit (req_name u) s) as [[i x] |] eqn:Hf.
  - apply list_find_Some in Hf as Hx. destruct Hx as [Hx _].
    destruct (up_work_exact (new_so s) r promisc promiscinet (with_so k1 s) i x) as (dfl & k & E & Hd);
      [apply so_with_so | done | done | by apply (Forall_lookup_1 _ _ _ _ Hfl Hx) |].
    eexists _, _. split; [exact E |]. split; [done |]. intros Ecall. exists dfl, k. split; [| done]. by destruct s.
  - exists ENXIO, (with_so k1 s). split; [| split; [done |]]; [| intros ->; by destruct s].
    unfold up_work. rewrite (M_bind_Ok _ _ _ _ _ (giff_exact (new_so s) (with_so k1 s) r (so_with_so k1 s) Hrc)).
    change (find_unit (ifr_name r) (with_so k1 s)) with (find_unit (req_name u) s). by rewrite Hf.
Qed.

(** ** Addresses *)

(** The request the texts stand for. *)
Definition alias_of (name addr : str) (braddr mask : option str) (stack : in_aliasreq) : option in_aliasreq :=
  sa ← set_addr addr; sb ← optional_addr braddr (ifra_broadaddr stack); sm ← optional_addr mask (ifra_mask stack);
  Some (mk_ina name sa sb sm).

(** What the protocol answers, or the driver when the protocol does not know the request,
    with the interface's flags after it. *)
Definition alias_answer (x : ifnet) (ina : in_aliasreq) (k : K) : (Z * Z * Z) * K :=
  let '((e, fl, dfl), k2) := k_pru_control (ref x) SIOCAIFADDR (DIna ina) k in
  if (e =? EOPNOTSUPP) && if_ioctl x
  then k_if_ioctl (set_drv_flags dfl (set_flags fl (ref x))) SIOCAIFADDR (DIna ina) k2
  else ((e, fl, dfl), k2).

Lemma protocol_exact i x ina (s : st) :
  (i < length (n_ifnets s))%nat →
  let '((e, fl, dfl), k) := alias_answer x ina (n_kern s) in
  protocol_request i SIOCAIFADDR (DIna ina) (with_if i (ref x) s) =
    Ok (e, with_if i (set_drv_flags dfl (set_flags fl (ref x))) (set_kern k s)).
Proof.
  intros Hi. unfold alias_answer, protocol_request. destruct (k_pru_control _ _ _ _) as [[[e fl] dfl] k2] eqn:Ep.
  pose proof (call_out_exact k_pru_control i SIOCAIFADDR (DIna ina) (ref x) s e fl dfl k2 Hi Ep) as E.
  set (y := set_drv_flags dfl (set_flags fl (ref x))) in *. assert ((i < length (n_ifnets (set_kern k2 s)))%nat) as Hi2 by done.
  destruct ((e =? EOPNOTSUPP) && if_ioctl x) eqn:Eb.
  - destruct (k_if_ioctl y SIOCAIFADDR (DIna ina) k2) as [[[e' fl'] dfl'] k3] eqn:Ed.
    rewrite (M_bind_Ok _ _ _ _ _ E), (M_bind_Ok _ _ _ _ _ (get_if_with i y _ Hi2)). change (if_ioctl y) with (if_ioctl x).
    rewrite Eb, (call_out_exact k_if_ioctl i SIOCAIFADDR (DIna ina) y (set_kern k2 s) e' fl' dfl' k3 Hi2 Ed). done.
  - rewrite (M_bind_Ok _ _ _ _ _ E), (M_bind_Ok _ _ _ _ _ (get_if_with i y _ Hi2)). change (if_ioctl y) with (if_ioctl x).
    by rewrite Eb.
Qed.

Lemma ifioctl_alias so ina (s : st) :
  n_socks s !! so = Some (mk_so true) → referenced s →
  match find_unit (ifra_name ina) s with
  | None => ifioctl so SIOCAIFADDR (DIna ina) s = Ok ((ENXIO, DIna ina), s)
  | Some (i, x) =>
      let '((e, fl, dfl), k) := alias_answer x ina (n_kern s) in
      ifioctl so SIOCAIFADDR (DIna ina) s =
        Ok ((e, DIna ina), with_if i (set_drv_flags dfl (set_flags fl x)) (set_kern k s))
  end.
Proof.
  intros Hso Hr. unfold ifioctl. rewrite (M_bind_Ok _ _ _ (mk_so true) s) by (unfold get_so; by rewrite Hso).
  cbn [data_name]. pose proof (ifunit_ref_cases (ifra_name ina) s) as Hc. unfold find_unit.
  destruct (list_find _ _) as [[i x] |]; [| by rewrite (M_bind_Ok _ _ _ _ _ Hc)].
  destruct Hc as [Hx E]. rewrite (M_bind_Ok _ _ _ _ _ E). fold (ref x). fold (with_if i (ref x) s).
  assert ((i < length (n_ifnets s))%nat) as Hi by (by eapply lookup_lt_Some).
  pose proof (protocol_exact i x ina s Hi) as Hp. destruct (alias_answer x ina (n_kern s)) as [[[e fl] dfl] k].
  rewrite (M_bind_Ok _ _ _ (ENOIOCTL, DIna ina) (with_if i (ref x) s)) by done. cbn beta iota. cbn [Z.eqb negb so_proto].
  change (negb (ENOIOCTL =? ENOIOCTL)) with false. cbv iota. rewrite (M_bind_Ok _ _ _ _ _ Hp).
  set (y := set_drv_flags dfl (set_flags fl (ref x))).
  assert (if_refcount y = if_refcount x + 1) as Ey by done. pose proof (Hr i x Hx).
  rewrite (M_bind_Ok _ _ _ _ _ (rele_exact i y (set_kern k s) Hi ltac:(lia))). rewrite Ey.
  replace (if_refcount x + 1 - 1) with (if_refcount x) by lia. unfold y. by destruct x.
Qed.

(** What [uinet_interface_add_alias] does on every branch.  An unknown name gives EINVAL and
    a failed socket its error.  When one of the texts that are given is not an address, the
    answer is EAFNOSUPPORT and no request is made.  Otherwise exactly one request goes to
    the protocol (and to the driver if the protocol does not know it): it names the
    interface of the stack and carries the addresses the texts stand for, a missing
    broadcast address or mask marked by a length of zero; its answer is the result. *)
Theorem uinet_interface_add_alias_asks (stack : in_aliasreq) (name addr : str) (braddr mask : option str) (s : st) :
  reg_ok (n_reg s) → referenced s →
  let call := uinet_interface_add_alias stack name (Some addr) braddr mask in
  configured name s call (fun u k1 =>
    match alias_of (req_name u) addr braddr mask stack with
    | None => call s = Ok (EAFNOSUPPORT, set_kern k1 s)
    | Some ina =>
        match find_unit (req_name u) s with
        | None => call s = Ok (ENXIO, set_kern k1 s)
        | Some (i, x) =>
            let '((e, fl, dfl), k) := alias_answer x ina k1 in
            call s = Ok (e, with_if i (set_drv_flags dfl (set_flags fl x)) (set_kern k s))
        end
    end).
Proof.
  intros Hr Hrc call.
  apply (config_exact name s call (fun so n => alias_request so n (Some addr) braddr mask stack)); [done | done |].
  intros u k1. unfold alias_request, alias_of. erewrite M_bind_Ok by reflexivity.
  destruct (set_addr addr) as [sa |]; cbn [mbind option_bind]; [| by eexists _, _; split_and!; [reflexivity | done | intros ->; by destruct s]].
  destruct (optional_addr braddr _) as [sb |]; cbn [mbind option_bind]; [| by eexists _, _; split_and!; [reflexivity | done | intros ->; by destruct s]].
  destruct (optional_addr mask _) as [sm |]; cbn [mbind option_bind]; [| by eexists _, _; split_and!; [reflexivity | done | intros ->; by destruct s]].
  set (ina := mk_ina (req_name u) sa sb sm).
  pose proof (ifioctl_alias (new_so s) ina (with_so k1 s) (lookup_insert_eq _ _ _) Hrc) as E.
  change (find_unit (ifra_name ina) (with_so k1 s)) with (find_unit (req_name u) s) in E.
  change (n_kern (with_so k1 s)) with k1 in E. destruct (find_unit (req_name u) s) as [[i x] |].
  - destruct (alias_answer x ina k1) as [[[e fl] dfl] k]. eexists _, _.
    split; [exact (M_bind_Ok _ _ _ _ _ E) |]. split; [done |]. intros ->. by destruct s.
  - eexists _, _. split; [exact (M_bind_Ok _ _ _ _ _ E) |]. split; [done |]. intros ->. by destruct s.
Qed.

End Up.

End IfConfigSpec.

Import Kenv KenvSpec IfConfigSpec IfStart.

Module IfStartSpec.

(** ** The environment *)

Lemma kvprintf_u v ds :
  0 <= v < 2 ^ 32 → ksprintn v 10 false = Ok ds → Forall (fun c => 0 <= digit_val c < 10) ds →
  kvprintf (Some (lit "%u")) 10 [AInt v] = Ok (ds, []).
Proof.
  intros Hi Hds Hd. set (S0 := mk_kst Text [] [AInt v] []).
  assert (run 10 (lit "%u") S0 =
    (t ← (l ← number (set_sign false no_flags) 10 false (u32 v); Ok (emit l Text [] S0)); Ok t)) as E by reflexivity.
  unfold kvprintf. change ((10 <? 2) || (36 <? 10)) with false. cbn [default from_option id]. cbv iota. fold S0.
  rewrite E, wrap_u_id, (number_unsigned v ds) by (done || lia). cbn [mbind result_bind emit k_mode k_out k_vars S0 app].
  do 2 f_equal. rewrite <- (list_fmap_id ds) at 2. apply Forall_fmap_ext.
  eapply Forall_impl; [exact Hd |]. intros c Hc. cbn beta in Hc. destruct (digit_val_dec c Hc) as [_ Ec].
  change (u8 c = c). apply wrap_u_id. lia.
Qed.

(** The text of a number in the environment. *)
Definition reads (text : str) (v : Z) : Prop :=
  ∀ getenv name, getenv name = Some text → getenv_quad getenv name = Some v.

Lemma setenv_u_spec name v e :
  0 <= v < 2 ^ 32 → ∃ text, setenv_u name v e = Ok ((), <[name := text]> e) ∧ reads text v.
Proof.
  intros Hv. destruct (ksprintn_spec v 10 false) as (ds & Eds & Hds); [lia | lia |]. exists ds.
  pose proof (numeral_short v ds ltac:(lia) Hds) as Hlen. split.
  - unfold setenv_u. destruct (vsnrprintf_truncates 32 10 (Some (lit "%u")) [AInt v] ds []) as (bytes & E & Hb & _);
      [lia | by apply kvprintf_u; [| | apply Hds] |].
    erewrite M_bind_Ok by (unfold snprintf, vsnprintf; rewrite E; reflexivity). cbn beta iota. unfold modify. do 2 f_equal.
    f_equal. rewrite Hb. change (32 =? 0) with false. cbv iota. rewrite take_ge by lia. apply removelast_last.
  - intros getenv n Hg. rewrite <- (Z.mul_1_r v). apply (getenv_quad_suffix getenv n ds v NoSuffix false); [done | |].
    + assert (number_text 10 v ds ++ [] = ds) as Et.
      { unfold number_text, minus. rewrite (proj2 (Z.ltb_ge v 0)), app_nil_r by lia. by destruct (v =? 0). }
      rewrite <- Et at 1. apply (strtoq_number 10 v ds NoSuffix false); [by right; left | unfold QUAD_MIN, QUAD_MAX; lia |].
      by rewrite Z.abs_eq by lia.
    + cbn. unfold QUAD_MIN, QUAD_MAX. lia.
Qed.

(** Variables set one after the other. *)
Fixpoint set_all (l : list (str * Z)) : M (gmap str str) unit :=
  match l with [] => mret () | (n, v) :: t => _ ← setenv_u n v; set_all t end.

Lemma set_all_spec l : ∀ e, Forall (fun x => 0 <= x.2 < 2 ^ 32) l → NoDup l.*1 →
  ∃ e', set_all l e = Ok ((), e') ∧ Forall (fun x => getenv_quad (e' !!.) x.1 = Some x.2) l ∧
    ∀ n, n ∉ l.*1 → e' !! n = e !! n.
Proof.
  induction l as [| [n v] l IH]; intros e Hl Hn; cbn [set_all]; [by exists e |].
  apply Forall_cons in Hl as [Hv Hl]. apply NoDup_cons in Hn as [Hnl Hn].
  destruct (setenv_u_spec n v e Hv) as (text & E & Ht). rewrite (M_bind_Ok _ _ _ _ _ E).
  destruct (IH (<[n := text]> e) Hl Hn) as (e' & E' & Hr & Ho). exists e'. split; [done |]. split.
  - constructor; [| done]. apply Ht. cbn. rewrite Ho by done. apply lookup_insert_eq.
  - intros m [Hm Hml]%not_elem_of_cons. rewrite Ho by done. by apply lookup_insert_ne.
Qed.

Definition settings (hz h t : Z) (cfg : global_cfg) : list (str * Z) :=
  [(lit "kern.ipc.maxsockets", maxsockets cfg); (lit "kern.ipc.nmbclusters", nmbclusters cfg);
   (lit "kern.ncallout", hz * 3600); (lit "net.inet.tcp.syncache.hashsize", h);
   (lit "net.inet.tcp.syncache.bucketlimit", syncache_bucketlimit cfg);
   (lit "net.inet.tcp.syncache.cachelimit", syncache_cachelimit cfg); (lit "net.inet.tcp.tcbhashsize", t)].

(** Every field is an [unsigned int]. *)
Definition cfg_ok (cfg : global_cfg) : Prop :=
  Forall (fun v => 0 <= v < 2 ^ 32)
    [maxsockets cfg; nmbclusters cfg; syncache_hashsize cfg; syncache_bucketlimit cfg; syncache_cachelimit cfg; tcbhashsize cfg].

(** The size a table of [n] entries gets: the power of two in [(n/2, n]]. *)
Definition table_size (n r : Z) : Prop := (n = 0 → r = 0) ∧ (0 < n → ∃ k, 0 <= k < 32 ∧ r = 2 ^ k ∧ r <= n < 2 * r).

Lemma init_env_set_all hz maxcpu cfg h t e :
  Time.roundup_nearest_power_of_2 (syncache_hashsize cfg) = Some h → Time.roundup_nearest_power_of_2 (tcbhashsize cfg) = Some t →
  0 <= hz * 3600 < 2 ^ 31 →
  uinet_init_env hz maxcpu (Some cfg) e = (_ ← set_all (settings hz h t cfg); mret (clamp_ncpus maxcpu (ncpus cfg))) e.
Proof.
  intros Eh Et Hz. unfold uinet_init_env, settings, roundup. cbn [default from_option id set_all]. rewrite Eh, Et.
  rewrite (wrap_s_id 32 (hz * 3600)) by lia.
  rewrite <- (M_bind_assoc (setenv_u (lit "kern.ipc.maxsockets") _)). unfold mbind, M_bind, mret, M_ret.
  repeat (match goal with |- context [match setenv_u ?n ?v ?s with _ => _ end] => destruct (setenv_u n v s) as [[] |] end; [| done]).
  done.
Qed.

(** What the kernel reads from its environment after [uinet_init] has set it: each limit of
    the configuration as it was given, the number of callouts, and for the two hash tables
    the largest power of two that does not exceed the size asked for; other variables are
    as before, and the number of CPUs is the one given within its bounds. *)
Theorem uinet_init_env_reads (hz maxcpu : Z) (cfg : global_cfg) (e : gmap str str) :
  cfg_ok cfg → 0 <= hz * 3600 < 2 ^ 31 → 1 <= maxcpu → 0 <= ncpus cfg →
  ∃ n e' h t, uinet_init_env hz maxcpu (Some cfg) e = Ok (n, e') ∧
    1 <= n <= maxcpu ∧ (1 <= ncpus cfg <= maxcpu → n = ncpus cfg) ∧
    table_size (syncache_hashsize cfg) h ∧ table_size (tcbhashsize cfg) t ∧
    Forall (fun x => getenv_quad (e' !!.) x.1 = Some x.2) (settings hz h t cfg) ∧
    (∀ name, name ∉ (settings hz h t cfg).*1 → e' !! name = e !! name).
Proof.
  intros Hc Hz Hm Hn. unfold cfg_ok in Hc. rewrite !Forall_cons in Hc. destruct Hc as (H1 & H2 & H3 & H4 & H5 & H6 & _).
  destruct (TimeSpec.roundup_nearest_power_of_2_spec (syncache_hashsize cfg) H3) as (h & Eh & Hh).
  destruct (TimeSpec.roundup_nearest_power_of_2_spec (tcbhashsize cfg) H6) as (t & Et & Ht).
  assert (∀ n r, 0 <= n < 2 ^ 32 → table_size n r → 0 <= r < 2 ^ 32) as Hrange.
  { intros n r Hr [T0 T1]. destruct (decide (n = 0)) as [E0 | E0]; [rewrite T0; lia |].
    destruct T1 as (k & _ & _ & ?); lia. }
  destruct (set_all_spec (settings hz h t cfg) e) as (e' & E & Hr & Ho).
  { unfold settings. pose proof (Hrange _ _ H3 Hh). pose proof (Hrange _ _ H6 Ht). repeat constructor; cbn [snd]; lia. }
  { apply (bool_decide_eq_true_1 _). vm_compute. reflexivity. }
  exists (clamp_ncpus maxcpu (ncpus cfg)), e', h, t.
  rewrite (init_env_set_all hz maxcpu cfg h t e Eh Et Hz), (M_bind_Ok _ _ _ _ _ E).
  split; [done |]. unfold clamp_ncpus. destruct (Z.ltb_spec maxcpu (ncpus cfg)), (Z.eqb_spec 0 (ncpus cfg)); by split_and!; try lia.
Qed.

Lemma uinet_init_env_reads_witness : ∃ n e' h,
  uinet_init_env 100 64 (Some (mk_gcfg 2 0 0 1024 4096 128 1000 30 15360 512)) ∅ = Ok (n, e') ∧ 1 <= n <= 64 ∧
  table_size 1000 h ∧ getenv_quad (e' !!.) (lit "kern.ipc.maxsockets") = Some 1024.
Proof.
  destruct (uinet_init_env_reads 100 64 (mk_gcfg 2 0 0 1024 4096 128 1000 30 15360 512) ∅)
    as (n & e' & h & t & E & Hn & _ & Hh & _ & Hr & _).
  - unfold cfg_ok. cbn. repeat constructor; lia.
  - lia.
  - lia.
  - cbn. lia.
  - exists n, e', h. split; [exact E |]. split; [exact Hn |]. split; [exact Hh |]. exact (Forall_inv Hr).
Defined.

(** ** Instances *)

Section Start.

Context {D K : Type} `{IfDriverLaws D} `{NetKernelLaws K}.

Abbreviation st := (net D K).

(** No interface of the registry has the name. *)
Definition unknown (name : str) (s : st) : Prop :=
  ∀ p u, r_ifs (n_reg s) !! p = Some u → name_matches name u = false.

Lemma find_unique name (s : st) n u :
  reg_ok (n_reg s) → r_ifs (n_reg s) !! n = Some u → name_matches name u = true →
  (∀ p v, r_ifs (n_reg s) !! p = Some v → name_matches name v = true → p = n) →
  uinet_iffind_byname name (n_reg s) = Ok (Some n, n_reg s).
Proof.
  intros Hr Hu Hm Hone. destruct (find_spec name (n_reg s) Hr) as (o & E & Ho). rewrite E. destruct o as [p |].
  - destruct Ho as (v & Hv & Hmv). by rewrite (Hone p v Hv Hmv).
  - by rewrite (Ho n u Hu) in Hm.
Qed.

Lemma config_unknown name (work : nat → str → M st Z) (s : st) :
  reg_ok (n_reg s) → unknown name s → config_of name work s = Ok (EINVAL, s).
Proof.
  intros Hr Hu. destruct (begin_cases name s Hr) as (o & E & Ho). destruct (find_spec name (n_reg s) Hr) as (o' & E' & Ho').
  rewrite E in E'. injection E' as <-. unfold config_of. destruct o as [p |].
  - destruct Ho' as (u & Hp & Hm). by rewrite (Hu p u Hp) in Hm.
  - by rewrite (M_bind_Ok _ _ _ _ _ Ho).
Qed.

(** The blackhole settings change what is outside only. *)
Lemma blackhole_kern action (s : st) : ∃ e k, uinet_config_blackhole action s = Ok (e, set_kern k s).
Proof.
  assert (∀ f : K → Z * K, ∃ e k, on_kern f s = Ok (e, set_kern k s)) as Hk.
  { intros f. unfold on_kern. destruct (f (n_kern s)) as [e k]. by exists e, k. }
  destruct action; try apply Hk. exists EINVAL, (n_kern s). by destruct s.
Qed.

(** The option to configure the loopback interface has no effect: the calls look for "lo0"
    among the interfaces created through the library, where it is not. *)
Lemma loopback_has_no_effect g old count cfg created (s : st) :
  reg_ok (n_reg s) → unknown (lit "lo0") s → loopback cfg = true →
  uinet_instance_init g old count (Some cfg) created s =
  uinet_instance_init g old count
    (Some (mk_icfg false (sts_enabled cfg) (userdata cfg) (syncache_event_cb cfg) (syncache_event_cb_arg cfg)
             (sts_instance_event_notify_cb cfg))) created s.
Proof.
  intros Hr Hu Hl. unfold uinet_instance_init.
  cbn [default from_option id loopback sts_enabled userdata syncache_event_cb syncache_event_cb_arg sts_instance_event_notify_cb].
  rewrite Hl.
  destruct (blackhole_kern TcpAll s) as (e1 & k1 & E1). rewrite !(M_bind_Ok _ _ _ _ _ E1).
  destruct (blackhole_kern UdpAll (set_kern k1 s)) as (e2 & k2 & E2). rewrite !(M_bind_Ok _ _ _ _ _ E2).
  set (s2 := set_kern k2 (set_kern k1 s)).
  assert (uinet_interface_up (g_ifr g) (lit "lo0") 0 0 s2 = Ok (EINVAL, s2)) as E3.
  { rewrite interface_up_config. by apply config_unknown. }
  rewrite <- M_bind_assoc, (M_bind_Ok _ _ _ _ _ E3).
  erewrite <- M_bind_assoc, M_bind_Ok by (by apply (config_unknown (lit "lo0") (fun so n => alias_request so n _ _ _ _))).
  done.
Qed.

(** ** Bringing up the interface *)

(** A name as a driver gives it: it fits, and its characters are bytes. *)
Definition name_fits (n : str) : Prop := (length n < 16)%nat ∧ Forall (fun c => 0 <= c < 256) n.

Lemma req_name_fits u : name_fits (uif_name u) → req_name u = uif_name u.
Proof.
  intros [Hl Hb]. unfold req_name. replace (u8 <$> uif_name u) with (uif_name u); [apply take_ge; lia |].
  rewrite <- (list_fmap_id (uif_name u)) at 1. apply Forall_fmap_ext. eapply Forall_impl; [exact Hb |].
  intros c Hc. symmetry. by apply wrap_u_id.
Qed.

Lemma find_unit_last (name : str) (s : st) l x :
  n_ifnets s = l ++ [x] → Forall (fun y => unit_matches name y = false) l → unit_matches name x = true →
  find_unit name s = Some (length l, x).
Proof.
  intros E Hl Hx. unfold find_unit. rewrite E. apply list_find_Some. split; [| split; [done |]].
  - by rewrite list_lookup_middle.
  - intros j y Hj Hlt. rewrite lookup_app_l in Hj by done. by rewrite (Forall_lookup_1 _ _ _ _ Hl Hj).
Qed.

Lemma with_if_last (s : st) l x y :
  n_ifnets s = l ++ [x] → n_ifnets (with_if (length l) y s) = l ++ [y].
Proof. intros E. cbn. rewrite E. replace (length l) with (length l + 0)%nat by lia. by rewrite insert_app_r. Qed.

Lemma with_if_same (s : st) l x k : n_ifnets s = l ++ [x] → with_if (length l) x (set_kern k s) = set_kern k s.
Proof.
  intros E. destruct s as [r i so kk]. cbn in E. subst i. unfold with_if, set_ifnets, set_kern. cbn. f_equal.
  apply list_insert_id. by rewrite list_lookup_middle.
Qed.

(** The flags of a new interface that is up and promiscuous. *)
Definition ready_flags : Z := 0x28903.

(** [uinet_interface_up] on the interface [x], when the surroundings are [k]: the interface
    and the surroundings after it, and its result. *)
Definition after_up (x : ifnet) (k : K) (e : Z) (y : ifnet) (k' : K) : Prop :=
  let '(e1, k1) := k_socreate k in
  e = e1 ∧ if e1 =? 0 then ∃ dfl, driver_told 1 0 x dfl k' ∧ y = set_drv_flags dfl (set_flags (up_flags 1 0 x) x)
           else y = x ∧ k' = k1.

(** The same of [uinet_interface_add_alias], for an interface of the name. *)
Definition after_alias (name addr : str) (br mask : option str) (stack : in_aliasreq)
    (x : ifnet) (k : K) (e : Z) (y : ifnet) (k' : K) : Prop :=
  let '(e1, k1) := k_socreate k in
  if e1 =? 0 then
    match alias_of name addr br mask stack with
    | None => e = EAFNOSUPPORT ∧ y = x ∧ k' = k1
    | Some ina => ∃ fl dfl, alias_answer x ina k1 = ((e, fl, dfl), k') ∧ y = set_drv_flags dfl (set_flags fl x)
    end
  else e = e1 ∧ y = x ∧ k' = k1.

(** [uinet_interface_up] on the newest interface of the stack. *)
Lemma up_last stack name (s : st) l x n u :
  reg_ok (n_reg s) → referenced s → Forall flags_ok (n_ifnets s) →
  uinet_iffind_byname name (n_reg s) = Ok (Some n, n_reg s) → r_ifs (n_reg s) !! n = Some u →
  n_ifnets s = l ++ [x] → Forall (fun y => unit_matches (req_name u) y = false) l → unit_matches (req_name u) x = true →
  ∃ e y k, uinet_interface_up stack name 1 0 s = Ok (e, with_if (length l) y (set_kern k s)) ∧ after_up x (n_kern s) e y k.
Proof.
  intros Hr Hrc Hfl Hfind Hu El Hl Hx.
  destruct (uinet_interface_up_raises stack name 1 0 s Hr Hrc Hfl) as (o & Eo & Ho).
  rewrite Hfind in Eo. injection Eo as <-. destruct Ho as (u' & Hu' & Hc). simplify_eq.
  unfold after_up. destruct (k_socreate (n_kern s)) as [e k1]. destruct (Z.eqb_spec e 0) as [-> | Hne].
  - rewrite (find_unit_last _ s l x El Hl Hx) in Hc. destruct Hc as (dfl & k & Eup & Hd). exists 0. eexists _, k.
    split; [exact Eup |]. split; [done |]. by exists dfl.
  - exists e, x, k1. split; [| done]. by rewrite with_if_same.
Qed.

Lemma alias_last stack name addr br mask (s : st) l x n u :
  reg_ok (n_reg s) → referenced s →
  uinet_iffind_byname name (n_reg s) = Ok (Some n, n_reg s) → r_ifs (n_reg s) !! n = Some u →
  n_ifnets s = l ++ [x] → Forall (fun y => unit_matches (req_name u) y = false) l → unit_matches (req_name u) x = true →
  ∃ e y k, uinet_interface_add_alias stack name (Some addr) br mask s = Ok (e, with_if (length l) y (set_kern k s)) ∧
    after_alias (req_name u) addr br mask stack x (n_kern s) e y k.
Proof.
  intros Hr Hrc Hfind Hu El Hl Hx.
  destruct (uinet_interface_add_alias_asks stack name addr br mask s Hr Hrc) as (o & Eo & Ho).
  rewrite Hfind in Eo. injection Eo as <-. destruct Ho as (u' & Hu' & Hc). simplify_eq.
  unfold after_alias. destruct (k_socreate (n_kern s)) as [e k1]. destruct (Z.eqb_spec e 0) as [-> | Hne].
  - rewrite (find_unit_last _ s l x El Hl Hx) in Hc. destruct (alias_of _ _ _ _ _) as [ina |].
    + destruct (alias_answer x ina k1) as [[[e fl] dfl] k]. exists e. eexists _, k. split; [exact Hc |]. by exists fl, dfl.
    + exists EAFNOSUPPORT, x, k1. split; [| done]. by rewrite with_if_same.
  - exists e, x, k1. split; [| done]. by rewrite with_if_same.
Qed.

(** An address leaves an interface that is up as it is, as far as its flags go; else it may
    make it go up. *)
Lemma after_alias_flags name addr br mask stack x k e y k' :
  after_alias name addr br mask stack x k e y k' → if_flags y = if_flags x ∨ if_flags y = Z.lor (if_flags x) IFF_UP.
Proof.
  unfold after_alias. destruct (k_socreate k) as [e1 k1]. destruct (e1 =? 0); [| intros (_ & -> & _); by left].
  destruct (alias_of _ _ _ _ _) as [ina |]; [| intros (_ & -> & _); by left].
  intros (fl & dfl & Ea & ->). change (fl = if_flags x ∨ fl = Z.lor (if_flags x) IFF_UP). unfold alias_answer in Ea.
  pose proof (k_alias_flags k_pru_control (ref x) ina k1 (or_introl eq_refl)) as Hp.
  destruct (k_pru_control _ _ _ _) as [[[e2 fl2] dfl2] k2]. cbn in Hp.
  destruct ((e2 =? EOPNOTSUPP) && if_ioctl x); [| by simplify_eq].
  pose proof (k_alias_flags k_if_ioctl (set_drv_flags dfl2 (set_flags fl2 (ref x))) ina k2 (or_intror eq_refl)) as Hd.
  rewrite Ea in Hd. cbn in Hd. destruct Hp as [-> | ->]; [done |]. right.
  destruct Hd as [-> | ->]; [done |]. by rewrite <- Z.lor_assoc.
Qed.

(** The configuration [ud_ifsetup] asks for. *)
Definition ud_cfg (name : str) : uinet_if_cfg :=
  mk_cfg UINET_IFTYPE_DPDK (Some (chars name)) (Some name) 2 2 4096 2048 0 false.

(** The name the driver will give. *)
Definition next_name (s : st) : str := drv_name (drv_count (r_drv (n_reg s))).

(** What is outside after the settings of the default instance have been made. *)
Definition started_kern (k : K) : K :=
  (k_sysctl (lit "net.inet.udp.blackhole") 1 (k_sysctl (lit "net.inet.tcp.blackhole") 2 k).2).2.

Lemma uinet_init_default startup g old (s0 s : st) :
  startup s0 = Ok ((), s) → uinet_init startup g old None 0 s0 = Ok (0, set_kern (started_kern (n_kern s)) s).
Proof.
  intros E. unfold uinet_init. rewrite (M_bind_Ok _ _ _ _ _ E). unfold uinet_instance_init.
  destruct (blackhole_kern TcpAll s) as (e1 & k1 & E1). rewrite <- M_bind_assoc, (M_bind_Ok _ _ _ _ _ E1).
  destruct (blackhole_kern UdpAll (set_kern k1 s)) as (e2 & k2 & E2). rewrite <- M_bind_assoc, (M_bind_Ok _ _ _ _ _ E2).
  unfold started_kern. unfold uinet_config_blackhole, on_kern in E1, E2.
  destruct (k_sysctl (lit "net.inet.tcp.blackhole") 2 (n_kern s)) as [e3 k3]. injection E1 as <- <-.
  cbn [n_kern set_kern] in E2. cbn [snd].
  destruct (k_sysctl (lit "net.inet.udp.blackhole") 1 k3) as [e4 k4]. by injection E2 as <- <-.
Qed.

(** Creating the interface, in the registry and in the stack. *)
Lemma net_ifcreate_cases n name (s : st) err u d :
  reg_ok (n_reg s) → r_ifs (n_reg s) !! n = None → drv_count (r_drv (n_reg s)) < 2 ^ 32 - 1 →
  drv_attach (requested None (ud_cfg name)) (r_drv (n_reg s)) = Ok (err, u, d) → name ≠ [] →
  (¬ granted None (ud_cfg name) err (n_reg s) ∧ ∃ e s', net_ifcreate (Some n) None (ud_cfg name) s = Ok ((e, None), s') ∧
     e ≠ 0 ∧ n_ifnets s' = n_ifnets s ∧ n_socks s' = n_socks s ∧ n_kern s' = n_kern s ∧
     r_ifs (n_reg s') = r_ifs (n_reg s) ∧ r_list (n_reg s') = r_list (n_reg s)) ∨
  (granted None (ud_cfg name) err (n_reg s) ∧ uif_name u = next_name s ∧ ∃ s',
     net_ifcreate (Some n) None (ud_cfg name) s = Ok ((0, Some n), s') ∧ reg_ok (n_reg s') ∧
     n_ifnets s' = n_ifnets s ++ [setup_ifnet u] ∧ n_socks s' = n_socks s ∧ n_kern s' = n_kern s ∧
     n_reg s' = with_new n u d (n_reg s) ∧ r_ifs (n_reg s') !! n = Some u ∧
     uinet_iffind_byname name (n_reg s') = Ok (Some n, n_reg s')).
Proof.
  intros Hr Hn Hc Ed Hne. unfold net_ifcreate.
  destruct (ifcreate_cases n None (ud_cfg name) (n_reg s) err u d Hr Hn Hc Ed)
    as [(Hg & e & r' & E & He & Hi & Hl & _) | (Hg & E & Hr' & Ha & Hname & Hno)].
  - left. split; [done |]. exists e, (set_reg r' s).
    rewrite (M_bind_Ok _ _ _ (e, None) (set_reg r' s)) by (unfold on_reg; by rewrite E). done.
  - right. split; [done |]. split; [done |]. set (r' := with_new n u d (n_reg s)) in *. set (s1 := set_reg r' s).
    assert (r_ifs r' !! n = Some u) as Hu by apply lookup_insert_eq. cbn in Ha.
    exists (set_ifnets (n_ifnets s ++ [setup_ifnet u]) s1). split_and!; try done.
    + rewrite (M_bind_Ok _ _ _ (0, Some n) s1) by (unfold on_reg; by rewrite E). cbn beta iota.
      by rewrite (M_bind_Ok _ _ _ u s1) by (unfold on_reg, uif_load; change (n_reg s1) with r'; by rewrite Hu).
    + apply (find_unique name (set_ifnets (n_ifnets s ++ [setup_ifnet u]) s1) n u); [done | done | |].
      { rewrite <- Ha. apply matches_alias. by rewrite Ha. }
      intros p v Hv Hm. change (<[n := u]> (r_ifs (n_reg s)) !! p = Some v) in Hv.
      apply lookup_insert_Some in Hv as [[<- _] | [Hp Hv]]; [done |].
      rewrite Ha in Hno. by rewrite (Hno Hne p v Hv) in Hm.
Qed.

Lemma setup_matches u : name_fits (uif_name u) → unit_matches (uif_name u) (setup_ifnet u) = true.
Proof.
  intros [Hl _]. unfold unit_matches, setup_ifnet. cbn [if_xname if_flags].
  change (Z.to_nat (IFNAMSIZ - 1)) with 15%nat. rewrite (take_ge (uif_name u) 15) by lia. by rewrite bool_decide_true.
Qed.

Lemma referenced_app (s : st) l x : n_ifnets s = l ++ [x] → Forall (fun y => 1 <= if_refcount y) l → 1 <= if_refcount x → referenced s.
Proof.
  intros E Hl Hx i y Hy. rewrite E in Hy.
  assert (Forall (fun y => 1 <= if_refcount y) (l ++ [x])) as Hall by (apply Forall_app; auto).
  exact (Forall_lookup_1 _ _ _ _ Hall Hy).
Qed.

(** The name and the flags of the interface in the end. *)
Lemma brought_up_flags u k0 e0 x k name addr br mask stack e y k' :
  after_up (setup_ifnet u) k0 e0 x k → after_alias name addr br mask stack x k e y k' →
  if_xname y = if_xname (setup_ifnet u) ∧
  if e0 =? 0 then if_flags y = ready_flags else has_flag (if_flags y) (Z.lor IFF_PROMISC IFF_PPROMISC) = false.
Proof.
  intros Hup Hal. pose proof (after_alias_flags _ _ _ _ _ _ _ _ _ _ Hal) as Hf.
  assert (if_xname y = if_xname x) as ->.
  { unfold after_alias in Hal. destruct (k_socreate k) as [e1 k1]. destruct (e1 =? 0); [| by destruct Hal as (_ & -> & _)].
    destruct (alias_of _ _ _ _ _); [by destruct Hal as (? & ? & _ & ->) | by destruct Hal as (_ & -> & _)]. }
  unfold after_up in Hup. destruct (k_socreate k0) as [e1 k1]. destruct Hup as [-> Hup]. destruct (e1 =? 0).
  - destruct Hup as (dfl & _ & ->). split; [done |]. by destruct Hf as [-> | ->].
  - destruct Hup as [-> _]. split; [done |]. by destruct Hf as [-> | ->].
Qed.

(** The interface of a successful start, on a state where it is the newest. *)
Lemma bring_up_configures g n name addr br mask (s : st) l u :
  reg_ok (n_reg s) → Forall (fun y => 1 <= if_refcount y) l → Forall flags_ok l →
  uinet_iffind_byname name (n_reg s) = Ok (Some n, n_reg s) → r_ifs (n_reg s) !! n = Some u →
  n_ifnets s = l ++ [setup_ifnet u] → name_fits (uif_name u) → Forall (fun y => unit_matches (uif_name u) y = false) l →
  ∃ e0 x k e y s',
    (_ ← uinet_interface_up (g_ifr g) name 1 0; uinet_interface_add_alias (g_ina g) name (Some addr) br mask) s = Ok (e, s') ∧
    n_socks s' = n_socks s ∧ n_reg s' = n_reg s ∧ n_ifnets s' = l ++ [y] ∧
    after_up (setup_ifnet u) (n_kern s) e0 x k ∧ after_alias (uif_name u) addr br mask (g_ina g) x k e y (n_kern s').
Proof.
  intros Hr Hrc Hfl Hfind Hu El Hfit Hl. pose proof (req_name_fits u Hfit) as En.
  pose proof (setup_matches u Hfit) as Hm.
  destruct (up_last (g_ifr g) name s l (setup_ifnet u) n u) as (e0 & x & k & Eup & Hup); try done.
  { by eapply referenced_app. }
  { rewrite El. apply Forall_app. split; [done |]. constructor; [| constructor]. split; [| split]; cbn; (lia || done). }
  { by rewrite En. } { by rewrite En. }
  set (s1 := with_if (length l) x (set_kern k s)) in *.
  assert (n_ifnets s1 = l ++ [x]) as El1 by (by eapply with_if_last).
  assert (1 <= if_refcount x ∧ if_xname x = if_xname (setup_ifnet u) ∧ (x = setup_ifnet u ∨ if_flags x = ready_flags)) as (Hx1 & Hx2 & Hx3).
  { unfold after_up in Hup. destruct (k_socreate (n_kern s)) as [e1 k1]. destruct Hup as [_ Hup].
    destruct (e1 =? 0); [destruct Hup as (dfl & _ & ->); split_and!; auto; cbn; lia | destruct Hup as [-> _]; split_and!; auto; cbn; lia]. }
  destruct (alias_last (g_ina g) name addr br mask s1 l x n u) as (e & y & k' & Ea & Hal); try done.
  { by eapply referenced_app. }
  { by rewrite En. }
  { rewrite En. destruct Hx3 as [-> | Hx3]; [done |]. unfold unit_matches in *. rewrite Hx2, Hx3.
    apply andb_true_iff in Hm as [-> _]. done. }
  rewrite En in Hal. rewrite (M_bind_Ok _ _ _ _ _ Eup). exists e0, x, k, e, y. eexists.
  split; [exact Ea |]. split; [done |]. split; [done |]. split; [by eapply with_if_last | done].
Qed.

(** [C30] [ud_ifsetup] from the moment the kernel has started, for a name and an address
    that are given, a name not empty, a driver that is compiled in and whose attach returns,
    a free slot in the table, and a stack that holds no interface of the name the driver
    will give.  If the interface cannot be created (the name is too long or taken, or the
    driver refuses), the error is not 0, and the stack's interfaces, the registry, the table
    and the open sockets are as before.  Otherwise the registry has the interface, which
    is found by the name asked for, the slot of the table holds it, no socket is left open,
    and the stack has one interface more, last, with the name the driver gave.  It goes up
    when a socket can be made for it: then the driver has been told, and in the end its
    flags are those of a new interface with up and permanently promiscuous.  When no socket
    can be made, that error [e0] is not the result, and the interface is not promiscuous.
    The result is that of the address: the error of the second socket, EAFNOSUPPORT
    without a request when the texts are no addresses, and else the answer to a request
    that carries them. *)
Theorem ud_ifsetup_brings_up (startup : M st unit) types g old n name addr br mask ud_ifs count info (s0 s : st) err u d :
  startup s0 = Ok ((), s) → reg_ok (n_reg s) → Forall (fun y => 1 <= if_refcount y) (n_ifnets s) →
  Forall flags_ok (n_ifnets s) → uinet_if_get_type_info UINET_IFTYPE_DPDK types = Some info →
  r_ifs (n_reg s) !! n = None → drv_count (r_drv (n_reg s)) < 2 ^ 32 - 1 →
  drv_attach (requested None (ud_cfg name)) (r_drv (n_reg s)) = Ok (err, u, d) → name ≠ [] →
  name_fits (next_name s) → Forall (fun y => unit_matches (next_name s) y = false) (n_ifnets s) →
  (count < length ud_ifs)%nat →
  let param := mk_ud (Some name) (Some addr) mask br in
  ∃ e tab s', ud_ifsetup startup types g old (Some n) param ud_ifs count s0 = Ok ((e, tab), s') ∧ n_socks s' = n_socks s ∧
  ((¬ granted None (ud_cfg name) err (n_reg s) ∧ e ≠ 0 ∧ tab = ud_ifs ∧ n_ifnets s' = n_ifnets s ∧
    r_ifs (n_reg s') = r_ifs (n_reg s) ∧ r_list (n_reg s') = r_list (n_reg s)) ∨
   (granted None (ud_cfg name) err (n_reg s) ∧ tab = <[count := mk_udif param (Some n)]> ud_ifs ∧
    n_reg s' = with_new n u d (n_reg s) ∧ uif_name u = next_name s ∧
    uinet_iffind_byname name (n_reg s') = Ok (Some n, n_reg s') ∧
    ∃ e0 x k y, n_ifnets s' = n_ifnets s ++ [y] ∧ if_xname y = if_xname (setup_ifnet u) ∧
      after_up (setup_ifnet u) (started_kern (n_kern s)) e0 x k ∧
      after_alias (next_name s) addr br mask (g_ina g) x k e y (n_kern s') ∧
      if e0 =? 0 then if_flags y = ready_flags else has_flag (if_flags y) (Z.lor IFF_PROMISC IFF_PPROMISC) = false)).
Proof.
  intros Es Hr Hrc Hfl Hty Hn Hc Ed Hne Hfit Hmiss Hcount param.
  pose proof (uinet_init_default startup g old s0 s Es) as E0. unfold ud_ifsetup. rewrite (M_bind_Ok _ _ _ _ _ E0).
  unfold ud_bring_up, uinet_if_default_config. rewrite Hty. cbn [ud_name param fmap option_fmap option_map].
  cbn [cfg_type cfg_rx_cpu cfg_tx_cpu cfg_rx_batch_size cfg_tx_inject_queue_len cfg_timestamp_mode cfg_use_file_io_thread].
  fold (ud_cfg name). set (k0 := started_kern (n_kern s)) in *.
  destruct (net_ifcreate_cases n name (set_kern k0 s) err u d Hr Hn Hc Ed Hne)
    as [(Hg & e & s1 & E & He & Hif & Hsk & _ & Hi & Hl) | (Hg & Hname & s1 & E & Hr1 & Hif & Hsk & Hk & Hreg & Hu & Hfind)].
  - exists e, ud_ifs, s1. rewrite (M_bind_Ok _ _ _ _ _ E). cbn beta iota. rewrite (proj2 (Z.eqb_neq e 0)) by done.
    split; [done |]. split; [done |]. left. by split_and!.
  - rewrite (M_bind_Ok _ _ _ _ _ E). cbn beta iota. cbn [Z.eqb negb]. erewrite M_bind_Ok by reflexivity.
    change (next_name (set_kern k0 s)) with (next_name s) in Hname. rewrite <- Hname in *.
    destruct (bring_up_configures g n name addr br mask s1 (n_ifnets s) u)
      as (e0 & x & k & e & y & s' & Er & Hs' & Hr' & Hif' & Hup & Hal); try done.
    rewrite (M_bind_assoc (uinet_interface_up _ _ _ _)), (M_bind_Ok _ _ _ _ _ Er). rewrite bool_decide_true by done.
    exists e. eexists _, s'. split; [reflexivity |]. split; [by rewrite Hs', Hsk |]. right. rewrite Hr'.
    split_and!; try done. rewrite Hk in Hup. destruct (brought_up_flags _ _ _ _ _ _ _ _ _ _ _ _ _ Hup Hal).
    by exists e0, x, k, y.
Qed.

End Start.

(** ** Witnesses *)

(** A kernel around the DPDK driver: [kn_fail] sockets fail, the driver's ioctl is the
    model's, and the protocol accepts and keeps what it is asked: an address takes the
    interface up, through the driver. *)
Record kern : Type := mk_kern { kn_fail : nat; kn_rx : Dpdk.rxm; kn_aliases : list in_aliasreq; kn_sysctl : list (str * Z) }.

Definition ex_if_ioctl (x : ifnet) (cmd : ioctl_cmd) (data : ioctl_data) (k : kern) : (Z * Z * Z) * kern :=
  match cmd with
  | SIOCSIFFLAGS =>
      let '(pc, rx) := Dpdk.if_dpdk_ioctl Dpdk.CmdFlags (has_flag (if_flags x) IFF_UP) false false (kn_rx k) in
      let rx := if pc is Dpdk.CtlStart then Dpdk.ioctl_start rx else rx in
      ((0, if_flags x, Dpdk.drv_flags rx), mk_kern (kn_fail k) rx (kn_aliases k) (kn_sysctl k))
  | _ => ((EINVAL, if_flags x, if_drv_flags x), k)
  end.

Definition ex_pru_control (x : ifnet) (cmd : ioctl_cmd) (data : ioctl_data) (k : kern) : (Z * Z * Z) * kern :=
  match data with
  | DIna a =>
      let '(_, rx) := Dpdk.if_dpdk_ioctl Dpdk.CmdAddr (has_flag (if_flags x) IFF_UP) false false (kn_rx k) in
      ((0, Z.lor (if_flags x) IFF_UP, Dpdk.drv_flags rx), mk_kern (kn_fail k) rx (a :: kn_aliases k) (kn_sysctl k))
  | DIfr _ => ((EOPNOTSUPP, if_flags x, if_drv_flags x), k)
  end.

#[local] Instance ex_kernel : NetKernel kern := {
  k_socreate k := match kn_fail k with
                  | O => (0, k)
                  | S n => (55, mk_kern n (kn_rx k) (kn_aliases k) (kn_sysctl k))
                  end;
  k_if_ioctl := ex_if_ioctl;
  k_pru_control := ex_pru_control;
  k_if_clone_create _ k := (EINVAL, k);
  k_notify _ _ k := k;
  k_sysctl n v k := (0, mk_kern (kn_fail k) (kn_rx k) (kn_aliases k) ((n, v) :: kn_sysctl k))
}.

(** The driver leaves the stack's flags alone, and an address raises the first. *)
Lemma ex_if_ioctl_keeps x cmd data k : (ex_if_ioctl x cmd data k).1.1.2 = if_flags x.
Proof. unfold ex_if_ioctl. destruct cmd; try done. by destruct (Dpdk.if_dpdk_ioctl _ _ _ _ _). Qed.

#[local] Instance ex_kernel_laws : NetKernelLaws kern.
Proof.
  split; [intros; apply ex_if_ioctl_keeps |]. intros ask x a k [-> | ->]; [by right | left; apply ex_if_ioctl_keeps].
Defined.

Definition ex_garbage : garbage :=
  let a := mk_sin 9 9 9 [9; 9; 9; 9] [9] in
  mk_garbage (mk_ifr [] 77 77) (mk_ina [] a a a) (mk_cfg 0 None None 9 9 9 9 9 true).
Definition ex_lo0 : ifnet := mk_ifnet (lit "lo0") 0x8008 0 0 1 true.
Definition ex_kern (fail : nat) : kern := mk_kern fail (Dpdk.mk_rxm 0 Dpdk.RxTop true 0) [] [].
Definition ex_net (fail : nat) : net dpdk_drv kern := mk_net ex_reg0 [ex_lo0] ∅ (ex_kern fail).
Definition ex_slot : ud_if := mk_udif (mk_ud None None None None) None.
Definition ex_types : list (option str) := [None; None; Some (lit "dpdk")].
Definition ex_inst : instance := mk_inst false 0 0 0 0 0 0 0.
Definition ex_param : ud_ifcfg := mk_ud (Some (lit "eth0")) (Some (lit "10.0.0.2")) (Some (lit "255.255.255.0")) None.

(** What the driver answers. *)
Definition ex_ud_answer : Z * uinet_if * dpdk_drv :=
  match @drv_attach _ (dpdk_driver ex_env) (requested None (ud_cfg (lit "eth0"))) (mk_ddrv 0 []) with
  | Ok x => x
  | Fault _ => (ENXIO, new_uif (ud_cfg []), mk_ddrv 0 [])
  end.

Definition ex_setup (fail : nat) : result ((Z * list ud_if) * net dpdk_drv kern) :=
  @ud_ifsetup _ kern (dpdk_driver ex_env) ex_kernel (mret ()) ex_types ex_garbage ex_inst (Some 5%nat) ex_param
    (replicate MAX_UDIF ex_slot) 0 (ex_net fail).

Lemma ex_ud_granted : @granted _ None (ud_cfg (lit "eth0")) ex_ud_answer.1.1 ex_reg0.
Proof.
  split; [| split; [done | split; [done | vm_compute; reflexivity]]]. split; [vm_compute; reflexivity |].
  intros _ p u Hu. change (r_ifs ex_reg0) with (∅ : gmap nat uinet_if) in Hu. by rewrite lookup_empty in Hu.
Qed.

Lemma ud_ifsetup_brings_up_witness : ∃ tab s' y,
  ex_setup 0 = Ok ((0, tab), s') ∧ uinet_iffind_byname (lit "eth0") (n_reg s') = Ok (Some 5%nat, n_reg s') ∧
  n_ifnets s' = [ex_lo0; y] ∧ if_flags y = ready_flags.
Proof.
  destruct (@ud_ifsetup_brings_up _ kern (dpdk_driver ex_env) (dpdk_laws ex_env) ex_kernel ex_kernel_laws
    (mret ()) ex_types ex_garbage ex_inst 5 (lit "eth0") (lit "10.0.0.2") None (Some (lit "255.255.255.0"))
    (replicate MAX_UDIF ex_slot) 0 (lit "dpdk") (ex_net 0) (ex_net 0) ex_ud_answer.1.1 ex_ud_answer.1.2 ex_ud_answer.2)
    as (e & tab & s' & E & _ & [[Hn _] | (_ & _ & _ & _ & Hf & e0 & x & k & y & Hy & _ & Hup & _ & Hfl)]);
    [reflexivity | exact ex_reg0_ok | repeat constructor; cbn; lia | repeat constructor; cbn; lia
    | reflexivity | reflexivity | cbn; lia | vm_compute; reflexivity | discriminate
    | vm_compute; split; [lia | repeat constructor; discriminate] | repeat constructor | cbn; lia | |].
  - destruct (Hn ex_ud_granted).
  - exists tab, s', y. destruct Hup as [-> _]. split; [| split; [exact Hf | split; [exact Hy | exact Hfl]]].
    assert (e = 0) as He by (clear Hf Hy; vm_compute in E; injection E as <- _ _; reflexivity). rewrite He in E. exact E.
Defined.

(** What the whole call leaves: the interface is up, running and promiscuous, its receive
    thread has been started, and the address has been asked for. *)
Lemma ex_setup_result :
  match ex_setup 0 with
  | Ok ((e, _), s) => e = 0 ∧
      n_ifnets s = [ex_lo0; mk_ifnet (lit "dpdk0") 0x28903 0x40 0 1 true] ∧
      Dpdk.run_state (kn_rx (n_kern s)) = 1 ∧ (sin_addr ∘ ifra_addr) <$> kn_aliases (n_kern s) = [[10; 0; 0; 2]] ∧
      kn_sysctl (n_kern s) = [(lit "net.inet.udp.blackhole", 1); (lit "net.inet.tcp.blackhole", 2)]
  | Fault _ => False
  end.
Proof. vm_compute. repeat split. Qed.

(** The error of [uinet_interface_up] is overwritten: no socket could be made for it, and
    the call reports success.  The address has taken the interface up, but not into the
    promiscuous mode, and its receive thread stands still: nothing is received. *)
Lemma up_error_lost :
  match ex_setup 1 with
  | Ok ((e, _), s) => e = 0 ∧ if_flags <$> last (n_ifnets s) = Some 0x8803 ∧
      Dpdk.drv_flags (kn_rx (n_kern s)) = 0x40 ∧ Dpdk.run_state (kn_rx (n_kern s)) = 0
  | Fault _ => False
  end.
Proof. vm_compute. repeat split. Qed.

(** An instance with the interface "wan". *)
Definition ex_wan : net dpdk_drv kern :=
  mk_net (with_new 5 ex_answer.1.2 ex_answer.2 ex_reg0) [ex_lo0; setup_ifnet ex_answer.1.2] ∅ (ex_kern 0).

Lemma ex_wan_ok : @reg_ok _ (dpdk_driver ex_env) (dpdk_laws ex_env) (n_reg ex_wan).
Proof.
  destruct (@ifcreate_cases _ (dpdk_driver ex_env) (dpdk_laws ex_env) 5 None (ex_cfg "wan") ex_reg0
    ex_answer.1.1 ex_answer.1.2 ex_answer.2) as [[Hn _] | (_ & _ & Hr & _)];
    [exact ex_reg0_ok | reflexivity | cbn; lia | vm_compute; reflexivity | by destruct (Hn ex_granted) | exact Hr].
Qed.

Definition ex_calls : list config_call :=
  [CallUp (g_ifr ex_garbage) (lit "wan") 1 0;
   CallAlias (g_ina ex_garbage) (lit "wan") (lit "10.0.0.999") None None;
   CallAlias (g_ina ex_garbage) (lit "dpdk0") (lit "10.0.0.9") None None;
   CallCreate (g_ifr ex_garbage) (lit "lan")].

Lemma ifconfig_calls_balanced_witness : ∃ s',
  @run_calls _ kern ex_kernel ex_calls ex_wan = Ok ([0; EAFNOSUPPORT; 0; EINVAL], s') ∧
  n_socks s' = ∅ ∧ shape <$> n_ifnets s' = [shape ex_lo0; shape (setup_ifnet ex_answer.1.2)].
Proof.
  destruct (@ifconfig_calls_balanced _ kern (dpdk_driver ex_env) (dpdk_laws ex_env) ex_kernel ex_calls ex_wan)
    as (es & s' & E & _ & Hs & _ & Hsh).
  - exact ex_wan_ok.
  - intros [| [| [| i]]] x Hx; cbn in Hx; [injection Hx as <-; cbn; lia | injection Hx as <-; cbn; lia | discriminate | discriminate].
  - exists s'. split; [| split; [exact Hs | exact Hsh]].
    assert (es = [0; EAFNOSUPPORT; 0; EINVAL]) as He by (clear Hs Hsh; vm_compute in E; injection E as <- _; reflexivity).
    rewrite He in E. exact E.
Defined.

End IfStartSpec.
